(* ===== verification/_CoqProject ===== *)
-Q . S2P
Prelude.v
Align.v
PageAlloc.v
PageScatter.v
PhysMem.v
Paging32.v
Paging32Spec.v
Paging32Ops.v
Paging32Map.v
Paging32Dir.v
PagingBoot.v
PagingUtil.v
PagingTheorems.v
MemInfo.v
ATree.v
IOBuffer.v
RWLock.v
Unicode.v
Calendar.v
CMem.v
LibcMem.v
LibcStr.v
LibcStrEdit.v
LibcNum.v
LibcWild.v
FdMan.v
FdSpec.v
FdTheorems.v
Heap.v
HeapSpec.v
HeapInv.v
HeapOps.v
HeapAcquire.v
HeapMalloc.v
HeapClient.v
HeapPages.v
HeapTheorems.v
Mman.v
MmanSpec.v
MmanFind.v
MmanSpace.v
MmanOps.v
MmanUnmap.v
MmanMap.v
MmanTheorems.v
Region.v
RegionSpec.v
RegionOps.v
RegionActs.v
RegionPages.v
RegionTheorems.v
Branch.v
BranchTheorems.v
Space.v
SpaceTheorems.v
Load.v
LoadSpec.v
LoadFile.v
LoadTheorems.v
