(* ===== verification/Prelude.v ===== *)
(** * KOSmk2: a verification of parts of the kernel and its C library

    KOSmk2 is a hobby Unix-like kernel for 32-bit x86 with its own libc.  This library
    models components of it as Rocq functions and proves what they promise.

    ** The program and the files that model it

    Memory, from the bottom up.  The boot code collects a map of the physical memory
    ([src/kernel/memory/install.c]: MemInfo.v) and installs it in the physical page
    allocator ([src/kernel/memory/memory.c]: PageAlloc.v), which hands out pages by best
    fit; scatter lists and reallocation are its clients (PageScatter.v).  Page directories
    ([src/arch/i386-kos/kernel/paging32.c.inl]) take their tables from it: PhysMem.v is the
    memory they live in, Paging32.v the code, Paging32Spec.v, Paging32Ops.v, Paging32Map.v
    and Paging32Dir.v relate it to the translation the processor makes, PagingBoot.v and
    PagingUtil.v are the directory the kernel starts with and the walks over directories,
    and PagingTheorems.v has the results.  The kernel heap
    ([src/kernel/memory/malloc.c]: Heap.v) gets whole pages through an interface, the class
    [PageSource] of HeapSpec.v, and keeps its free memory in the address trees of
    [include/hybrid/list/atree-abi.h] (ATree.v) and in lists by size; HeapInv.v, HeapOps.v
    and HeapAcquire.v have its invariant and what releasing and acquiring do to it.
    kmalloc() and kfree() (HeapMalloc.v) put headers in front of blocks; for their clients
    they are arrays that do not overlap (HeapClient.v).  HeapPages.v gives the heap of
    physical memory its pages from the page allocator, and HeapTheorems.v has the results.
    Address spaces ([src/kernel/mman/mman.c]: Mman.v) keep what is mapped in an address
    tree and a list; MmanSpec.v relates them to a map from addresses to bytes of regions
    and states what they need of regions and directories as the class [BranchLaws].
    MmanFind.v and MmanSpace.v look things up and search for free space, MmanOps.v inserts
    and splits, MmanUnmap.v unmaps, MmanMap.v maps, protects and merges, and
    MmanTheorems.v has the results, with regions that count references as an instance.
    Regions ([src/kernel/mman/part.c] and [mman.c]: Region.v) are what address spaces map:
    parts with references, states and frames.  RegionSpec.v relates the parts to a list of
    pages, RegionOps.v has the loop over parts that every operation goes through,
    RegionActs.v what each operation does to a page, RegionPages.v the frames from the page
    allocator, and RegionTheorems.v the results.  Branch.v ([src/kernel/mman/branch.c]) puts
    the pages of a region into a page directory, BranchTheorems.v relates it to the
    translation of the processor.  Space.v puts address spaces, regions and the directory of
    the kernel together: it shows [BranchLaws] for them, and SpaceTheorems.v has what follows
    for sequences of calls, and what happens outside the conditions.  Load.v ([src/kernel/mman/mcore.c.inl])
    gives parts of a region memory when they are used; While a file is read the region
    is not locked, and what others do to it then is a parameter of the model, as is what reads return.
    LoadSpec.v has what it needs of the page allocator and that it writes to its own frames,
    LoadFile.v the contents read from files, and LoadTheorems.v what loading does to the pages of a
    region.

    Synchronisation and data.  RWLock.v has the atomic read/write locks of
    [include/hybrid/sync], with threads as an interleaving of steps; IOBuffer.v the cyclic
    buffers of [src/kernel/fs/iobuffer.c].

    Processes.  FdMan.v, FdSpec.v and FdTheorems.v are the descriptor tables of
    [src/kernel/fs/fd.c], with the system calls on them, the reference counters of the
    objects behind them and the copy fork makes.

    The C library.  CMem.v is byte memory with addresses that are not mapped; LibcMem.v,
    LibcStr.v, LibcStrEdit.v, LibcNum.v and LibcWild.v are the memory, string, number and
    wildcard functions over it, and Unicode.v the conversions of [libs/libc/unicode.c].
    Calendar.v has gmtime() and mktime(), and with them the dates of the clock and of files.

    Prelude.v and Align.v are shared: the monad for assertions, tactics, generic lemmas and
    the alignment macros.

    ** How the code is translated

    State is passed explicitly in records with the source's field names.  A failing
    [assert], undefined behaviour and, where the code could run on, missing fuel are [Abort]
    of the type [outcome]; results that are errors are values.  Integers are [Z] with the
    wrap-around of their width written out where it can matter.  Structures linked by
    pointers are lists and trees, or stores by address where two structures share a
    controller.  Locks are held or not: only RWLock.v models contention.

    ** What is proved

    - Refinement: page directories against a map of pages, address spaces against a map of
      addresses, regions against a list of pages, descriptor tables against a map of
      numbers, cyclic buffers against a queue, address trees against a list of ranges, the
      page allocator and the heap against the set of memory in use, kmalloc() on top of both
      against separate arrays.
    - Invariants of every reachable state: locks, descriptor tables and reference counters,
      the references of pages that address spaces map, the directory at boot.
    - No assertion fails and every loop ends, in each theorem that says a function returns.
    - Equivalence of the optimised routines of libc and of the lookup through the self-map
      with plain definitions, round trips of numbers, mappings, allocations and
      descriptors, error behaviour with the state left alone.
    - Releasing memory merges it with a free range next to it if there is one, and a search
      for address space that fails had nothing to find.
    - Where the code does not do what it means to, a theorem shows it on an input; the list
      is in the manifest's findings.  The comment of each result names the conditions it needs,
      and the theorems that show what happens outside of them.

    ** Bounds and fuel

    Fuel is a parameter or a number computed from the arguments: the levels of a tree, the
    zones of memory, the pages of a range, the characters of a string.  The theorems show
    that it is enough; none is stated only for results that are returned.  Getting pages
    for the heap repeats until there is memory, which code that never gives up may wait
    for: there the number of attempts is a parameter, the theorems ask for memory, and one of
    them shows that without it no number of attempts is enough.

    ** Not modelled

    The manifest lists every part.  Left out are the scheduler with everything that sleeps
    (context switches in assembly), drivers, interrupts and boot code (port I/O), the file
    systems and block devices (I/O through drivers), the linker (other processes' memory),
    page faults, copy-on-write and copying address spaces (other processes),
    libc's wrappers of system calls, streams and locales, the 64-bit and
    ARM ports, and the applications. *)
From stdpp Require Import base numbers list.

#[global] Open Scope Z_scope.

(** ** Outcomes

    Kernel code guards its preconditions with [assert]/[assertf].  A model
    whose C original would hit a failing assertion (or undefined behaviour
    that the assertion documents) returns [Abort]. *)

Inductive outcome (A : Type) : Type :=
| Ret (a : A)
| Abort.
Arguments Ret {A} a.
Arguments Abort {A}.

Definition obind {A B : Type} (m : outcome A) (k : A -> outcome B) : outcome B :=
  match m with
  | Ret a => k a
  | Abort => Abort
  end.

(** [assert(b); k] *)
Definition oassert {B : Type} (b : bool) (k : outcome B) : outcome B :=
  if b then k else Abort.

Declare Scope kos_scope.
Delimit Scope kos_scope with kos.

Notation "'let!' x ':=' m 'in' k" := (obind m (fun x => k))
  (at level 10, x pattern, m at level 100, k at level 200) : kos_scope.
Notation "'assert!' b ';;' k" := (oassert b k)
  (at level 10, b at level 99, k at level 200) : kos_scope.

#[global] Open Scope kos_scope.

Lemma obind_Ret_inv {A B} (m : outcome A) (k : A -> outcome B) b :
  obind m k = Ret b -> exists a, m = Ret a /\ k a = Ret b.
Proof. destruct m; simpl; [eauto|discriminate]. Qed.

Lemma oassert_Ret_inv {B} b (k : outcome B) r :
  oassert b k = Ret r -> b = true /\ k = Ret r.
Proof. destruct b; simpl; [auto|discriminate]. Qed.

(** ** Deciding the comparisons of the code

    [bsimp] turns the boolean comparisons in the context into arithmetic
    facts; [bcase] splits on the first conditional of the goal. *)

Ltac bsimp :=
  repeat match goal with
  | H : _ && _ = true |- _ => apply andb_prop in H as [? ?]
  | H : _ && _ = false |- _ => apply andb_false_iff in H
  | H : _ || _ = false |- _ => apply orb_false_iff in H as [? ?]
  | H : _ || _ = true |- _ => apply orb_true_iff in H
  | H : negb _ = true |- _ => apply negb_true_iff in H
  | H : negb _ = false |- _ => apply negb_false_iff in H
  | H : (_ <=? _) = true |- _ => apply Z.leb_le in H
  | H : (_ <=? _) = false |- _ => apply Z.leb_gt in H
  | H : (_ <? _) = true |- _ => apply Z.ltb_lt in H
  | H : (_ <? _) = false |- _ => apply Z.ltb_ge in H
  | H : (_ =? _) = true |- _ => apply Z.eqb_eq in H
  | H : (_ =? _) = false |- _ => apply Z.eqb_neq in H
  end.

Ltac bcase :=
  match goal with
  | |- context [if ?b then _ else _] =>
      lazymatch b with
      | context [if _ then _ else _] => fail
      | _ => let E := fresh "E" in destruct b eqn:E; bsimp
      end
  end.

(** [lia] with division and remainder by constants. *)
Ltac mlia := Z.to_euclidean_division_equations; lia.

(** ** Lists *)

Lemma elem_mid {A} (x : A) l1 l2 : x ∈ l1 ++ x :: l2.
Proof. apply elem_of_app. right. apply elem_of_cons. by left. Qed.

Lemma last_drop {A} k (l : list A) : (k < length l)%nat -> last (drop k l) = last l.
Proof.
  revert l. induction k as [|k IH]; intros [|x l] H; simpl in *; [done..|lia|].
  rewrite IH by lia. destruct l; [simpl in H; lia|done].
Qed.

(** ** Bit operations as arithmetic *)

Lemma lor_add_low a b k : 0 <= k -> 0 <= b < 2 ^ k -> Z.lor (a * 2 ^ k) b = a * 2 ^ k + b.
Proof.
  intros Hk Hb. rewrite <- Z.lxor_lor, <- Z.add_nocarry_lxor; [done| |].
  all: apply Z.bits_inj'; intros n Hn; rewrite Z.land_spec, Z.bits_0;
    destruct (Z.lt_ge_cases n k);
    [ rewrite Z.mul_pow2_bits_low by lia; done
    | rewrite <- (Z.mod_small b (2 ^ k)) by lia;
      rewrite Z.mod_pow2_bits_high by lia; apply andb_false_r ].
Qed.

Lemma testbit_odd_multiple m k : 0 <= k -> Z.testbit (m * 2 ^ (k + 1) + 2 ^ k) k = true.
Proof.
  intros Hk. rewrite Z.testbit_true by lia.
  replace (m * 2 ^ (k + 1) + 2 ^ k) with ((2 * m + 1) * 2 ^ k)
    by (rewrite Z.pow_add_r by lia; lia).
  rewrite Z.div_mul by (apply Z.pow_nonzero; lia).
  rewrite Z.add_comm, Z.mul_comm, Z.mod_add by lia. done.
Qed.

Lemma land_not_bit w s k :
  0 <= s < 2 ^ w -> 0 <= k < w -> Z.testbit s k = true ->
  Z.land s ((Z.lnot (2 ^ k)) mod 2 ^ w) = s - 2 ^ k.
Proof.
  intros Hs Hk Hb. rewrite Z.sub_nocarry_ldiff.
  - apply Z.bits_inj'; intros n Hn. rewrite Z.land_spec, Z.ldiff_spec.
    destruct (Z.lt_ge_cases n w).
    + rewrite Z.mod_pow2_bits_low, Z.lnot_spec by lia. done.
    + rewrite <- (Z.mod_small s (2 ^ w)) by lia.
      rewrite Z.mod_pow2_bits_high by lia. done.
  - apply Z.bits_inj'; intros n Hn. rewrite Z.ldiff_spec, Z.bits_0, Z.pow2_bits_eqb by lia.
    destruct (Z.eqb_spec k n) as [->|]; [rewrite Hb|]; done.
Qed.

(** ** Byte buffers

    Addresses inside a buffer are offsets from its base.  [slice l lo hi] is the
    memory [lo .. hi), [store l off bs] the buffer after [memcpy(l+off,bs)]. *)

Abbreviation byte := Z (only parsing).

Definition zlen {A} (l : list A) : Z := Z.of_nat (length l).

Definition slice {A} (l : list A) (lo hi : Z) : list A :=
  take (Z.to_nat (hi - lo)) (drop (Z.to_nat lo) l).

Definition store {A} (l : list A) (off : Z) (bs : list A) : list A :=
  take (Z.to_nat off) l ++ bs ++ drop (Z.to_nat off + length bs) l.

(** [take]/[drop] at a signed count. *)
Definition ztake {A} (n : Z) (l : list A) : list A := take (Z.to_nat n) l.
Definition zdrop {A} (n : Z) (l : list A) : list A := drop (Z.to_nat n) l.

Create Rewrite HintDb buffers.

Section Buffers.

Context {A : Type}.
Implicit Types l bs : list A.

Lemma zlen_nonneg l : 0 <= zlen l.
Proof. unfold zlen. lia. Qed.

Lemma zlen_app l1 l2 : zlen (l1 ++ l2) = zlen l1 + zlen l2.
Proof. unfold zlen. rewrite length_app. lia. Qed.

Lemma zlen_nil l : zlen l = 0 -> l = [].
Proof. unfold zlen. intros. apply nil_length_inv. lia. Qed.

Lemma zlen_ztake n l : 0 <= n -> zlen (ztake n l) = Z.min n (zlen l).
Proof. unfold zlen, ztake. rewrite length_take. lia. Qed.

Lemma zlen_zdrop n l : 0 <= n -> zlen (zdrop n l) = Z.max 0 (zlen l - n).
Proof. unfold zlen, zdrop. rewrite length_drop. lia. Qed.

Lemma zlen_slice l lo hi :
  0 <= lo -> lo <= hi -> hi <= zlen l -> zlen (slice l lo hi) = hi - lo.
Proof. unfold zlen, slice. rewrite length_take, length_drop. lia. Qed.

Lemma zlen_store l off bs :
  0 <= off -> off + zlen bs <= zlen l -> zlen (store l off bs) = zlen l.
Proof. unfold zlen, store. rewrite !length_app, length_take, length_drop. lia. Qed.

Lemma slice_empty l lo : slice l lo lo = [].
Proof. unfold slice. by rewrite Z.sub_diag. Qed.

Lemma slice_all l : slice l 0 (zlen l) = l.
Proof. unfold slice, zlen. simpl. rewrite drop_0. apply take_ge. lia. Qed.

Lemma take_add (n1 n2 : nat) l : take (n1 + n2) l = take n1 l ++ take n2 (drop n1 l).
Proof.
  revert l. induction n1 as [|n1 IH]; intros [|x l]; simpl; rewrite ?take_nil; try done.
  by rewrite IH.
Qed.

Lemma slice_split l lo m hi :
  0 <= lo -> lo <= m -> m <= hi -> slice l lo hi = slice l lo m ++ slice l m hi.
Proof.
  intros. unfold slice.
  replace (Z.to_nat (hi - lo)) with (Z.to_nat (m - lo) + Z.to_nat (hi - m))%nat by lia.
  rewrite take_add, drop_drop. do 3 f_equal. lia.
Qed.

Lemma ztake_slice n l lo hi :
  0 <= n -> lo + n <= hi -> ztake n (slice l lo hi) = slice l lo (lo + n).
Proof. intros. unfold ztake, slice. rewrite take_take. f_equal. lia. Qed.

Lemma zdrop_slice n l lo hi :
  0 <= lo -> 0 <= n -> lo + n <= hi -> zdrop n (slice l lo hi) = slice l (lo + n) hi.
Proof.
  intros. unfold zdrop, slice.
  replace (Z.to_nat (hi - lo)) with (Z.to_nat n + Z.to_nat (hi - (lo + n)))%nat by lia.
  rewrite <- take_drop_commute, drop_drop. do 2 f_equal. lia.
Qed.

Lemma slice_store_below l off bs lo hi :
  0 <= lo -> 0 <= off -> hi <= off -> off <= zlen l ->
  slice (store l off bs) lo hi = slice l lo hi.
Proof.
  intros. unfold slice, store, zlen in *.
  destruct (Z.le_gt_cases hi lo).
  { replace (Z.to_nat (hi - lo)) with 0%nat by lia. done. }
  rewrite drop_app_le by (rewrite length_take; lia).
  rewrite take_app_le by (rewrite length_drop, length_take; lia).
  rewrite !take_drop_commute, take_take. do 2 f_equal. lia.
Qed.

Lemma slice_store_above l off bs lo hi :
  0 <= off -> off + zlen bs <= lo -> off + zlen bs <= zlen l ->
  slice (store l off bs) lo hi = slice l lo hi.
Proof.
  intros. unfold slice, store, zlen in *. f_equal.
  rewrite app_assoc, drop_app_ge by (rewrite length_app, length_take; lia).
  rewrite length_app, length_take, drop_drop. f_equal. lia.
Qed.

Lemma slice_store_at l off bs :
  0 <= off -> off <= zlen l -> slice (store l off bs) off (off + zlen bs) = bs.
Proof.
  intros. unfold slice, store, zlen in *.
  rewrite drop_app_ge by (rewrite length_take; lia).
  replace (Z.to_nat off - length (take (Z.to_nat off) l))%nat with 0%nat
    by (rewrite length_take; lia).
  rewrite drop_0, take_app_le by lia. apply take_ge. lia.
Qed.

Lemma slice_app_l l r lo hi : 0 <= lo -> hi <= zlen l -> slice (l ++ r) lo hi = slice l lo hi.
Proof.
  intros. unfold slice, zlen in *. destruct (Z.le_gt_cases hi lo).
  { replace (Z.to_nat (hi - lo)) with 0%nat by lia. done. }
  rewrite drop_app_le by lia. rewrite take_app_le by (rewrite length_drop; lia). done.
Qed.

Lemma zdrop_app_le n l1 l2 : n <= zlen l1 -> zdrop n (l1 ++ l2) = zdrop n l1 ++ l2.
Proof. intros. unfold zdrop, zlen in *. apply drop_app_le. lia. Qed.

Lemma zdrop_app_ge n l1 l2 : zlen l1 <= n -> zdrop n (l1 ++ l2) = zdrop (n - zlen l1) l2.
Proof.
  intros. unfold zdrop, zlen in *. rewrite drop_app_ge by lia. f_equal. lia.
Qed.

Lemma ztake_app_le n l1 l2 : n <= zlen l1 -> ztake n (l1 ++ l2) = ztake n l1.
Proof. intros. unfold ztake, zlen in *. apply take_app_le. lia. Qed.

Lemma ztake_app_ge n l1 l2 :
  zlen l1 <= n -> ztake n (l1 ++ l2) = l1 ++ ztake (n - zlen l1) l2.
Proof.
  intros. unfold ztake, zlen in *. rewrite take_app_ge by lia. do 2 f_equal. lia.
Qed.

Lemma ztake_all n l : zlen l <= n -> ztake n l = l.
Proof. intros. unfold ztake, zlen in *. apply take_ge. lia. Qed.

Lemma zdrop_all n l : zlen l <= n -> zdrop n l = [].
Proof. intros. unfold zdrop, zlen in *. apply drop_ge. lia. Qed.

Lemma ztake_zdrop n l : ztake n l ++ zdrop n l = l.
Proof. apply take_drop. Qed.

Lemma ztake_add n1 n2 l :
  0 <= n1 -> 0 <= n2 -> ztake n1 l ++ ztake n2 (zdrop n1 l) = ztake (n1 + n2) l.
Proof.
  intros. unfold ztake, zdrop. rewrite <- take_add. f_equal. lia.
Qed.

Lemma zdrop_zdrop n1 n2 l : 0 <= n1 -> 0 <= n2 -> zdrop n2 (zdrop n1 l) = zdrop (n1 + n2) l.
Proof. intros. unfold zdrop. rewrite drop_drop. f_equal. lia. Qed.

Lemma zdrop_0 l : zdrop 0 l = l.
Proof. apply drop_0. Qed.

End Buffers.

#[export] Hint Rewrite @slice_empty @zlen_app : buffers.
