(* ===== verification/Align.v ===== *)
(** * Alignment macros (include/hybrid/align.h)

    [W] is the number of values of the unsigned type the macros are used at
    ([size_t] or [uintptr_t]).  The complement of [align-1] has all higher bits
    set, at any width. *)
From stdpp Require Import base numbers list.
From S2P Require Import Prelude.

Definition PAGESIZE : Z := 4096.

Definition IS_ALIGNED (x align : Z) : bool := x mod align =? 0.
Definition CEIL_ALIGN (W x align : Z) : Z :=
  Z.land ((x + (align - 1)) mod W) (Z.lnot (align - 1)).
Definition FLOOR_ALIGN (x align : Z) : Z := Z.land x (Z.lnot (align - 1)).
Definition FLOORDIV (x y : Z) : Z := x / y.
Definition CEILDIV (W x y : Z) : Z := (x + y - 1) mod W / y.

Lemma FLOOR_ALIGN_pow2 x k : 0 <= k -> FLOOR_ALIGN x (2 ^ k) = x / 2 ^ k * 2 ^ k.
Proof.
  intros Hk. unfold FLOOR_ALIGN.
  replace (2 ^ k - 1) with (Z.ones k) by (rewrite Z.ones_equiv; lia).
  rewrite <- Z.ldiff_land, Z.ldiff_ones_r, Z.shiftl_mul_pow2, Z.shiftr_div_pow2 by lia. done.
Qed.

Lemma CEIL_ALIGN_pow2 W x k :
  0 <= k -> 0 <= x -> x + 2 ^ k <= W ->
  CEIL_ALIGN W x (2 ^ k) = (x + 2 ^ k - 1) / 2 ^ k * 2 ^ k.
Proof.
  intros Hk Hx HW. pose proof (Z.pow_pos_nonneg 2 k).
  unfold CEIL_ALIGN. fold (FLOOR_ALIGN ((x + (2 ^ k - 1)) mod W) (2 ^ k)).
  rewrite FLOOR_ALIGN_pow2, Z.mod_small by lia. do 2 f_equal. lia.
Qed.

(** Both results are the nearest multiples. *)
Lemma CEIL_ALIGN_bounds W x k :
  0 <= k -> 0 <= x -> x + 2 ^ k <= W ->
  x <= CEIL_ALIGN W x (2 ^ k) < x + 2 ^ k /\ CEIL_ALIGN W x (2 ^ k) mod 2 ^ k = 0.
Proof.
  intros Hk Hx HW. rewrite CEIL_ALIGN_pow2 by done.
  pose proof (Z.pow_pos_nonneg 2 k ltac:(lia) Hk) as Hp. split; [|apply Z.mod_mul; lia].
  pose proof (Z.div_mod (x + 2 ^ k - 1) (2 ^ k)). pose proof (Z.mod_pos_bound (x + 2 ^ k - 1) (2 ^ k)).
  lia.
Qed.

Lemma FLOOR_ALIGN_bounds x k :
  0 <= k -> 0 <= x ->
  x - 2 ^ k < FLOOR_ALIGN x (2 ^ k) <= x /\ FLOOR_ALIGN x (2 ^ k) mod 2 ^ k = 0 /\
  0 <= FLOOR_ALIGN x (2 ^ k).
Proof.
  intros Hk Hx. rewrite FLOOR_ALIGN_pow2 by done.
  pose proof (Z.pow_pos_nonneg 2 k ltac:(lia) Hk) as Hp.
  pose proof (Z.div_mod x (2 ^ k)). pose proof (Z.mod_pos_bound x (2 ^ k)).
  split; [lia|]. split; [apply Z.mod_mul; lia|].
  apply Z.mul_nonneg_nonneg; [apply Z.div_pos|]; lia.
Qed.

Lemma aligned_page x : IS_ALIGNED x PAGESIZE = true <-> x mod 4096 = 0.
Proof. unfold IS_ALIGNED, PAGESIZE. apply Z.eqb_eq. Qed.

(** Page alignment in a form [lia] understands. *)
Lemma ceil_page W x :
  0 <= x -> x + PAGESIZE <= W ->
  x <= CEIL_ALIGN W x PAGESIZE < x + 4096 /\ CEIL_ALIGN W x PAGESIZE mod 4096 = 0.
Proof. intros. by apply (CEIL_ALIGN_bounds W x 12). Qed.

Lemma ceil_page_mod W x : 0 < W -> CEIL_ALIGN W x PAGESIZE mod 4096 = 0.
Proof.
  intros HW. unfold CEIL_ALIGN. fold (FLOOR_ALIGN ((x + (PAGESIZE - 1)) mod W) PAGESIZE).
  change PAGESIZE with (2 ^ 12). rewrite FLOOR_ALIGN_pow2 by lia. apply Z.mod_mul. lia.
Qed.

Lemma ceil_page_id W x :
  0 <= x -> x + PAGESIZE <= W -> x mod 4096 = 0 -> CEIL_ALIGN W x PAGESIZE = x.
Proof. intros H1 H2 H3. pose proof (ceil_page W x H1 H2). mlia. Qed.

Lemma floor_page x :
  0 <= x ->
  x - 4096 < FLOOR_ALIGN x PAGESIZE <= x /\ FLOOR_ALIGN x PAGESIZE mod 4096 = 0 /\
  0 <= FLOOR_ALIGN x PAGESIZE.
Proof. intros. by apply (FLOOR_ALIGN_bounds x 12). Qed.
