(* ===== verification/PageAlloc.v ===== *)
(** * The physical page allocator (src/kernel/memory/memory.c,
      src/include/kernel/memory.h)

    Free memory is kept per zone as a list of ranges sorted by address; the
    controller of a range lives in its first page.  A zone's list stands for the
    [p_next]/[p_self] chain, so the link assertions hold by construction.  Of the
    memory itself the model keeps, page by page, whether the controller area and
    the rest of the page are all zero, which is what [PAGEATTR_ZERO] promises.
    Locks are taken without contention: an upgrade succeeds at once. *)
From stdpp Require Import base numbers list.
From S2P Require Import Prelude Align.

(** ** Data *)

Definition PAGEATTR_NONE : Z := 0.
Definition PAGEATTR_ZERO : Z := 1.
Definition PAGEATTR_FREE : Z := 0x100.
Definition PAGEATTR_ALLSHIFT : Z := 16.
Definition PAGEATTR_ALLZERO : Z := Z.shiftl PAGEATTR_ZERO PAGEATTR_ALLSHIFT.
Definition PAGEATTR_ALLFREE : Z := Z.shiftl PAGEATTR_FREE PAGEATTR_ALLSHIFT.

Definition has_zero (attr : Z) : bool := negb (Z.land attr PAGEATTR_ZERO =? 0).

(** [p_free] of a page, with the page's address. *)
Record range : Type := mk_range { r_start : Z; p_size : Z; p_attr : Z }.

Record mzone : Type := mk_mzone {
  z_root  : list range;
  z_inuse : Z;
  z_avail : Z;
  z_alloc : Z;
  z_free  : Z
}.

Record mzonespec : Type := mk_mzonespec {
  ms_min : list Z;
  ms_max : list Z;
  MZONE_MAXNONEMPTY : nat;
  MZONE_REAL_COUNT : nat
}.

Definition mzone_spec_i386 : mzonespec :=
  mk_mzonespec [0x00000000; 0x00100000] [0x000fffff; 0xbfffffff] 1 2.

Definition mzone_spec_x86_64 : mzonespec :=
  mk_mzonespec
    [0x0000000000000000; 0x0000000000100000; 0x0000000080000000; 0x0000000100000000;
     0xffffffff80000000; 0xffffffff80100000; 0xffffffffffffffff; 0xffffffffffffffff]
    [0x00000000000fffff; 0x000000007fffffff; 0x00000000ffffffff; 0x00007fffffffffff;
     0xffffffff8009ffff; 0xffffffffffffffff; 0x0000000000000000; 0x0000000000000000]
    6 4.

(** Whether the controller area and the remainder of a page are all zero. *)
Record page_data : Type := mk_page { ctrl_zero : bool; body_zero : bool }.

(** [page_zones] and the memory, by page address. *)
Record pages : Type := mk_pages { page_zones : list mzone; mem : Z -> page_data }.

(** Before any memory is installed. *)
Definition page_zones_init (spec : mzonespec) : list mzone :=
  replicate (MZONE_REAL_COUNT spec) (mk_mzone [] 0 0 0 0).

Definition zero_page : page_data := mk_page true true.
Definition dirty_page : page_data := mk_page false false.

(** Filling [n] bytes at [lo]. *)
Definition mem_fill (lo n : Z) (v : page_data) (m : Z -> page_data) : Z -> page_data :=
  fun a => if (lo <=? a) && (a <? lo + n) then v else m a.
(** Writing and clearing [p_free]; a live controller has a non-zero size. *)
Definition write_ctrl (p : Z) (m : Z -> page_data) : Z -> page_data :=
  fun a => if a =? p then mk_page false (body_zero (m a)) else m a.
Definition clear_ctrl (p : Z) (m : Z -> page_data) : Z -> page_data :=
  fun a => if a =? p then mk_page true (body_zero (m a)) else m a.

(** All [n] bytes at [lo] are zero. *)
Definition zeroed (m : Z -> page_data) (lo n : Z) : bool :=
  forallb (fun i => let p := m (lo + i * PAGESIZE) in ctrl_zero p && body_zero p)
          (seqZ 0 (n / PAGESIZE)).

(** Replaces the range that starts at [a]. *)
Fixpoint splice (a : Z) (f : range -> list range) (l : list range) : list range :=
  match l with
  | [] => []
  | r :: l => if r_start r =? a then f r ++ l else r :: splice a f l
  end.

Section Allocator.

(** The number of addresses, the number of values of [ref_t], and the layout of
    the zones. *)
Variables (W REF : Z) (spec : mzonespec).

Definition PAGE_END (p : range) : Z := (r_start p + p_size p) mod W.

Definition MZONE_MIN (zone : nat) : Z := ms_min spec !!! zone.
Definition MZONE_MAX (zone : nat) : Z := ms_max spec !!! zone.

(** The loop of [mzone_of], from zone [z] downwards. *)
Fixpoint mzone_search (z : nat) (ptr : Z) : nat :=
  match z with
  | O => O
  | S z' => if ptr <? MZONE_MIN z then mzone_search z' ptr else z
  end.
Definition mzone_of (ptr : Z) : nat := mzone_search (MZONE_MAXNONEMPTY spec) ptr.

(** [PAGEZONE]: access behind the end of [page_zones] is undefined. *)
Definition PAGEZONE (st : pages) (zone : nat) : outcome mzone :=
  match page_zones st !! zone with Some z => Ret z | None => Abort end.
Definition set_zone (st : pages) (zone : nat) (z : mzone) : pages :=
  mk_pages (<[zone := z]> (page_zones st)) (mem st).
Definition set_mem (st : pages) (m : Z -> page_data) : pages := mk_pages (page_zones st) m.

Definition ASSERT_FREEPAGE (x : range) : bool :=
  negb (p_size x =? 0) && IS_ALIGNED (r_start x) PAGESIZE && IS_ALIGNED (p_size x) PAGESIZE.

(** [debug_verify_memory] of a debug build. *)
Definition debug_verify_memory (m : Z -> page_data) (start n_bytes attr : Z)
    (after_malloc : bool) : outcome (Z -> page_data) :=
  assert! IS_ALIGNED start PAGESIZE;;
  assert! IS_ALIGNED n_bytes PAGESIZE;;
  if has_zero attr then assert! zeroed m start n_bytes;; Ret m
  else if after_malloc then Ret (mem_fill start n_bytes dirty_page m)
  else Ret m.

(** ** Best-fit allocation *)

(** The search shared by [page_malloc] and [page_malloc_part]. *)
Fixpoint search_zone (n_bytes attr : Z) (l : list range) (best : option range)
    : outcome (option range) :=
  match l with
  | [] => Ret best
  | iter :: next =>
      assert! ASSERT_FREEPAGE iter;;
      assert! match next with
              | [] => true
              | p_next :: _ => PAGE_END iter <? r_start p_next
              end;;
      let best_size := match best with None => W - 1 | Some b => p_size b end in
      if p_size iter <? n_bytes then search_zone n_bytes attr next best
      else if best_size <? p_size iter then search_zone n_bytes attr next best
      else if p_size iter =? best_size then
        match best with
        | None => Abort
        | Some b =>
            if Z.land (p_attr b) PAGEATTR_ZERO =? Z.land attr PAGEATTR_ZERO
            then search_zone n_bytes attr next best
            else search_zone n_bytes attr next (Some iter)
        end
      else search_zone n_bytes attr next (Some iter)
  end.

(** Takes [size] bytes from the top of [best], as both functions do. *)
Definition take_top (st : pages) (zone : nat) (z : mzone) (best : range) (size attr : Z)
    : outcome (Z * pages) :=
  let result := r_start best + (p_size best - size) in
  assert! IS_ALIGNED (r_start best) PAGESIZE;;
  assert! IS_ALIGNED result PAGESIZE;;
  let root :=
    if result =? r_start best then splice (r_start best) (fun _ => []) (z_root z)
    else splice (r_start best)
           (fun b => [mk_range (r_start b) (p_size b - size) (p_attr b)]) (z_root z) in
  let must_clear := has_zero attr && negb (has_zero (p_attr best)) in
  let m :=
    if has_zero attr && has_zero (p_attr best) && (result =? r_start best)
    then clear_ctrl result (mem st) else mem st in
  let z := mk_mzone root ((z_inuse z + size) mod W) (z_avail z)
             ((z_alloc z + 1) mod REF) ((z_free z - size) mod REF) in
  let m := if must_clear then mem_fill result size zero_page m else m in
  let! m := debug_verify_memory m result size attr true in
  Ret (result, set_mem (set_zone st zone z) m).

(** [page_malloc]; [None] is [PAGE_ERROR]. *)
Fixpoint page_malloc (st : pages) (n_bytes attr : Z) (zone : nat) : outcome (option Z * pages) :=
  let! z := PAGEZONE st zone in
  let! best_page := search_zone n_bytes attr (z_root z) None in
  match best_page with
  | Some best =>
      assert! n_bytes <=? p_size best;;
      let n_bytes := CEIL_ALIGN W n_bytes PAGESIZE in
      assert! n_bytes <=? p_size best;;
      let! (result, st) := take_top st zone z best n_bytes attr in
      Ret (Some result, st)
  | None => match zone with O => Ret (None, st) | S zone => page_malloc st n_bytes attr zone end
  end.

(** [page_malloc_part]; the second component of the result is [*res_size]. *)
Fixpoint page_malloc_part (st : pages) (min_size max_size attr : Z) (zone : nat)
    : outcome (option (Z * Z) * pages) :=
  let! z := PAGEZONE st zone in
  let! best_page := search_zone min_size attr (z_root z) None in
  match best_page with
  | Some best =>
      assert! min_size <=? p_size best;;
      let min_size := CEIL_ALIGN W min_size PAGESIZE in
      assert! min_size <=? p_size best;;
      let alloc_size := Z.min (p_size best) (FLOOR_ALIGN max_size PAGESIZE) in
      let! (result, st) := take_top st zone z best alloc_size attr in
      Ret (Some (result, alloc_size), st)
  | None =>
      match zone with
      | O => Ret (None, st)
      | S zone => page_malloc_part st min_size max_size attr zone
      end
  end.

(** ** Freeing *)

(** The loop of [page_ffree]: the ranges that end at or below [start], and the
    ranges from [iter] on. *)
Fixpoint free_walk (start : Z) (l : list range) : outcome (list range * list range) :=
  match l with
  | [] => Ret ([], [])
  | iter :: next =>
      if PAGE_END iter <=? start then
        assert! r_start iter <=? start;;
        let! (before, after) := free_walk start next in
        Ret (iter :: before, after)
      else Ret ([], iter :: next)
  end.

(** Merging with the next range, or a new range between the two. *)
Definition free_link_next (m : Z -> page_data) (start n_bytes attr : Z)
    (before after : list range) : list range * (Z -> page_data) :=
  match after with
  | iter :: next =>
      if r_start iter =? (start + n_bytes) mod W then
        let merged := mk_range start (p_size iter + n_bytes) (Z.land (p_attr iter) attr) in
        let m := write_ctrl start m in
        let m := if has_zero (p_attr merged) then clear_ctrl (r_start iter) m else m in
        (before ++ merged :: next, m)
      else (before ++ mk_range start n_bytes attr :: after, write_ctrl start m)
  | [] => (before ++ [mk_range start n_bytes attr], write_ctrl start m)
  end.

(** Insertion after [before] and in front of [after], extending the previous
    range where it touches. *)
Definition free_link (m : Z -> page_data) (start n_bytes attr : Z)
    (before after : list range) : outcome (list range * (Z -> page_data)) :=
  match last before with
  | Some prev =>
      if PAGE_END prev =? start then
        let prev1 := mk_range (r_start prev) (p_size prev + n_bytes) (Z.land (p_attr prev) attr) in
        match after with
        | iter :: next =>
            assert! PAGE_END prev1 <=? r_start iter;;
            if PAGE_END prev1 =? r_start iter then
              let prev2 := mk_range (r_start prev1) (p_size prev1 + p_size iter)
                             (Z.land (p_attr prev1) (p_attr iter)) in
              Ret (removelast before ++ prev2 :: next,
                   if has_zero (p_attr prev2) then clear_ctrl (r_start iter) m else m)
            else Ret (removelast before ++ prev1 :: after, m)
        | [] => Ret (removelast before ++ [prev1], m)
        end
      else Ret (free_link_next m start n_bytes attr before after)
  | None => Ret (free_link_next m start n_bytes attr before after)
  end.

(** The part of [page_ffree] behind the zone split. *)
Definition zone_ffree (st : pages) (zone_id : nat) (start n_bytes attr : Z) : outcome pages :=
  assert! negb (n_bytes =? 0);;
  let! m := debug_verify_memory (mem st) start n_bytes attr false in
  let! z := PAGEZONE st zone_id in
  let! (before, after) := free_walk start (z_root z) in
  assert! match after with
          | [] => true
          | iter :: _ => (start + n_bytes) mod W <=? r_start iter
          end;;
  let! (root, m) := free_link m start n_bytes attr before after in
  assert! forallb ASSERT_FREEPAGE root;;
  let z := mk_mzone root ((z_inuse z - n_bytes) mod W) ((z_avail z + n_bytes) mod W)
             (z_alloc z) ((z_free z + 1) mod REF) in
  Ret (set_mem (set_zone st zone_id z) m).

(** One recursive call per zone the range reaches into. *)
Fixpoint page_ffree_fuel (fuel : nat) (st : pages) (start n_bytes attr : Z) : outcome pages :=
  match fuel with
  | O => Abort
  | S fuel =>
      if n_bytes =? 0 then Ret st else
      assert! IS_ALIGNED start PAGESIZE;;
      let n_bytes := CEIL_ALIGN W n_bytes PAGESIZE in
      let zone_id := mzone_of start in
      assert! start <=? (start + (n_bytes - 1) mod W) mod W;;
      let free_end := (start + n_bytes) mod W in
      if MZONE_MAX zone_id <? (free_end - 1) mod W then
        let zone_offset := (MZONE_MAX zone_id + 1 - start) mod W in
        assert! negb (zone_offset =? 0);;
        assert! zone_offset <? n_bytes;;
        assert! IS_ALIGNED zone_offset PAGESIZE;;
        let! st := page_ffree_fuel fuel st (start + zone_offset) (n_bytes - zone_offset) attr in
        assert! (start + zone_offset - 1) mod W <=? MZONE_MAX zone_id;;
        zone_ffree st zone_id start zone_offset attr
      else zone_ffree st zone_id start n_bytes attr
  end.

(** Each split moves on to the next zone, so one call per zone is enough. *)
Definition page_ffree (st : pages) (start n_bytes attr : Z) : outcome pages :=
  page_ffree_fuel (S (MZONE_REAL_COUNT spec)) st start n_bytes attr.
Definition page_free (st : pages) (start n_bytes : Z) : outcome pages :=
  page_ffree st start n_bytes PAGEATTR_NONE.
Definition page_cfree (st : pages) (start n_bytes : Z) : outcome pages :=
  page_ffree st start n_bytes PAGEATTR_ZERO.

Definition page_memalign (st : pages) (alignment n_bytes attr : Z) (zone : nat)
    : outcome (option Z * pages) :=
  if alignment <=? PAGESIZE then page_malloc st n_bytes attr zone else
  let alignment := CEIL_ALIGN W alignment PAGESIZE in
  let n_bytes := CEIL_ALIGN W n_bytes PAGESIZE in
  if W <=? alignment + n_bytes then Ret (None, st) else
  let total_size := alignment + n_bytes in
  let! (result, st) := page_malloc st total_size attr zone in
  match result with
  | None => Ret (None, st)
  | Some result =>
      let aligned_result := CEIL_ALIGN W result alignment in
      let result_end := (aligned_result + n_bytes) mod W in
      let! st := page_ffree st result ((aligned_result - result) mod W) attr in
      let! st := page_ffree st result_end ((result + total_size - result_end) mod W) attr in
      Ret (Some aligned_result, st)
  end.

(** ** Allocation at given addresses *)

(** The scan of [page_malloc_in]: the best range and the usable size in it. *)
Fixpoint scan_zone (min max n_bytes : Z) (l : list range) (best : option range) (best_size : Z)
    : outcome (option range * Z) :=
  match l with
  | [] => Ret (best, best_size)
  | iter :: next =>
      assert! ASSERT_FREEPAGE iter;;
      if max <? r_start iter then Ret (best, best_size) else
      let iter_end := PAGE_END iter in
      if iter_end <=? min then scan_zone min max n_bytes next best best_size else
      let iter_end :=
        if (max + n_bytes) mod W <? iter_end then (max + n_bytes) mod W else iter_end in
      let page_avail := (iter_end - min) mod W in
      let page_avail := if p_size iter <? page_avail then p_size iter else page_avail in
      if page_avail <? n_bytes then scan_zone min max n_bytes next best best_size
      else if page_avail <? best_size then
        if page_avail =? n_bytes then Ret (Some iter, page_avail)
        else scan_zone min max n_bytes next (Some iter) page_avail
      else scan_zone min max n_bytes next best best_size
  end.

(** The free ranges that remain of [b] and the memory after [n_bytes] at
    [result] are taken out of it. *)
Definition carve (m : Z -> page_data) (b : range) (result n_bytes best_size attr : Z)
    : outcome (list range * (Z -> page_data)) :=
  if result =? r_start b then
    let clear m :=
      if has_zero (p_attr b) && has_zero attr then clear_ctrl (r_start b) m else m in
    if n_bytes =? p_size b then
      assert! n_bytes =? best_size;;
      Ret ([], clear m)
    else
      assert! n_bytes <? p_size b;;
      let new_base := r_start b + n_bytes in
      Ret ([mk_range new_base (p_size b - n_bytes) (p_attr b)], clear (write_ctrl new_base m))
  else
    let low := mk_range (r_start b) (result - r_start b) (p_attr b) in
    if negb (result + n_bytes =? r_start b + p_size b) then
      let hi_split := result + n_bytes in
      assert! hi_split <? r_start b + p_size b;;
      Ret ([low; mk_range hi_split (p_size b - (hi_split - r_start b)) (p_attr b)],
           write_ctrl hi_split m)
    else Ret ([low], m).

(** One zone of [page_malloc_in]. *)
Definition zone_malloc_in (st : pages) (zone : nat) (min max n_bytes attr : Z)
    : outcome (option (Z * bool) * pages) :=
  let! z := PAGEZONE st zone in
  let! (best_page, best_size) := scan_zone min max n_bytes (z_root z) None (W - 1) in
  match best_page with
  | None => Ret (None, st)
  | Some b =>
      assert! n_bytes <=? p_size b;;
      let top := r_start b + (p_size b - n_bytes) in
      let! result :=
        if max <? top then
          assert! r_start b <=? max;;
          assert! max <=? r_start b + p_size b;;
          Ret max
        else Ret top in
      assert! min <=? result;;
      assert! result <=? max;;
      assert! r_start b <=? result;;
      assert! result + n_bytes <=? r_start b + p_size b;;
      let! (rest, m) := carve (mem st) b result n_bytes best_size attr in
      let must_clear := negb (has_zero (p_attr b)) && has_zero attr in
      let z := mk_mzone (splice (r_start b) (fun _ => rest) (z_root z))
                 ((z_inuse z + n_bytes) mod W) ((z_avail z - n_bytes) mod W)
                 ((z_alloc z + 1) mod REF) (z_free z) in
      Ret (Some (result, must_clear), set_mem (set_zone st zone z) m)
  end.

(** Zones [zone], [zone-1], ..., [count] of them. *)
Fixpoint malloc_in_zones (count : nat) (st : pages) (zone : nat) (min max n_bytes attr : Z)
    : outcome (option (Z * bool) * pages) :=
  match count with
  | O => Ret (None, st)
  | S count =>
      let! (r, st) := zone_malloc_in st zone min max n_bytes attr in
      match r with
      | Some x => Ret (Some x, st)
      | None => malloc_in_zones count st (pred zone) min max n_bytes attr
      end
  end.

Definition page_malloc_in (st : pages) (min max n_bytes attr : Z) : outcome (option Z * pages) :=
  assert! IS_ALIGNED min PAGESIZE;;
  assert! IS_ALIGNED max PAGESIZE;;
  let n_bytes := CEIL_ALIGN W n_bytes PAGESIZE in
  let zone := mzone_of max in
  let zone_min := mzone_of min in
  let! (r, st) := malloc_in_zones (S zone - zone_min)%nat st zone min max n_bytes attr in
  match r with
  | None => Ret (None, st)
  | Some (result, must_clear) =>
      assert! (min <=? result) && (result <=? max);;
      let m := if must_clear then mem_fill result n_bytes zero_page (mem st) else mem st in
      let! m := debug_verify_memory m result n_bytes attr true in
      Ret (Some result, set_mem st m)
  end.
Definition page_malloc_at (st : pages) (start n_bytes attr : Z) : outcome (option Z * pages) :=
  page_malloc_in st start start n_bytes attr.

End Allocator.

(** ** Well-formed zone layouts *)

(** What the allocator relies on of [mzone_spec]: the real zones are page
    aligned, follow one another without gaps, end below the end of the address
    space, and [mzone_of] finds them. *)
Class ZoneSpec (W : Z) (spec : mzonespec) : Prop := {
  zs_count : (0 < MZONE_REAL_COUNT spec)%nat;
  zs_zero : MZONE_MIN spec 0 = 0;
  zs_bounds i : (i < MZONE_REAL_COUNT spec)%nat ->
    0 <= MZONE_MIN spec i <= MZONE_MAX spec i /\ MZONE_MAX spec i + 1 + PAGESIZE <= W;
  zs_align i : (i < MZONE_REAL_COUNT spec)%nat ->
    MZONE_MIN spec i mod 4096 = 0 /\ (MZONE_MAX spec i + 1) mod 4096 = 0;
  zs_next i : (S i < MZONE_REAL_COUNT spec)%nat ->
    MZONE_MIN spec (S i) = MZONE_MAX spec i + 1;
  zs_of i a : (i < MZONE_REAL_COUNT spec)%nat ->
    MZONE_MIN spec i <= a <= MZONE_MAX spec i -> mzone_of spec a = i
}.

#[export] Instance i386_zones : ZoneSpec (2 ^ 32) mzone_spec_i386.
Proof.
  split; cbn [mzone_spec_i386 MZONE_REAL_COUNT]; [lia|done|..]; intros i.
  - intros Hi. destruct i as [|[|i]]; [by vm_compute..|lia].
  - intros Hi. destruct i as [|[|i]]; [by vm_compute..|lia].
  - intros Hi. destruct i as [|[|i]]; [by vm_compute|lia..].
  - intros a Hi. destruct i as [|[|i]]; [..|lia];
      unfold MZONE_MIN, MZONE_MAX, mzone_of, mzone_search; cbn -[Z.ltb]; intros Ha;
      repeat bcase; lia.
Qed.

#[export] Instance x86_64_zones : ZoneSpec (2 ^ 64) mzone_spec_x86_64.
Proof.
  split; cbn [mzone_spec_x86_64 MZONE_REAL_COUNT]; [lia|done|..]; intros i.
  - intros Hi. destruct i as [|[|[|[|i]]]]; [by vm_compute..|lia].
  - intros Hi. destruct i as [|[|[|[|i]]]]; [by vm_compute..|lia].
  - intros Hi. destruct i as [|[|[|[|i]]]]; [by vm_compute..|lia|lia].
  - intros a Hi. destruct i as [|[|[|[|i]]]]; [..|lia];
      unfold MZONE_MIN, MZONE_MAX, mzone_of, mzone_search; cbn -[Z.ltb]; intros Ha;
      repeat bcase; lia.
Qed.

(** ** Lists of free ranges *)

Definition r_end (r : range) : Z := r_start r + p_size r.
Definition inside (lo n a : Z) : Prop := lo <= a < lo + n.

Definition range_ok (lo hi : Z) (r : range) : Prop :=
  lo <= r_start r /\ 0 < p_size r /\ r_start r mod 4096 = 0 /\ p_size r mod 4096 = 0 /\
  r_end r <= hi.

(** Sorted, aligned, inside [lo..hi) and never touching each other. *)
Fixpoint ranges_ok (lo hi : Z) (l : list range) : Prop :=
  match l with
  | [] => True
  | r :: l => range_ok lo hi r /\ ranges_ok (r_end r + 1) hi l
  end.

Definition covered (l : list range) (a : Z) : Prop :=
  Exists (fun r => inside (r_start r) (p_size r) a) l.

(** The first address a range behind [l] may start at. *)
Definition bound (lo : Z) (l : list range) : Z :=
  match last l with None => lo | Some r => r_end r + 1 end.

Lemma ranges_ok_weaken lo lo' hi l : lo' <= lo -> ranges_ok lo hi l -> ranges_ok lo' hi l.
Proof. destruct l; simpl; [done|]. unfold range_ok. intuition lia. Qed.

Lemma ranges_ok_hi lo hi hi' l : hi <= hi' -> ranges_ok lo hi l -> ranges_ok lo hi' l.
Proof.
  intros Hh. revert lo. induction l as [|r l IH]; intros lo; simpl; [done|].
  intros [Hr Hl]. split; [|by apply IH]. unfold range_ok in *. lia.
Qed.

Lemma bound_cons lo r l : bound lo (r :: l) = bound (r_end r + 1) l.
Proof. unfold bound. rewrite last_cons. by destruct (last l). Qed.

Lemma ranges_ok_app lo hi l1 l2 :
  ranges_ok lo hi (l1 ++ l2) <-> ranges_ok lo hi l1 /\ ranges_ok (bound lo l1) hi l2.
Proof.
  revert lo. induction l1 as [|r l1 IH]; intros lo; [simpl; tauto|].
  rewrite bound_cons. simpl. rewrite IH. tauto.
Qed.

Lemma ranges_ok_elem lo hi l r : ranges_ok lo hi l -> r ∈ l -> range_ok lo hi r.
Proof.
  revert lo. induction l as [|x l IH]; intros lo; [by intros _ ?%elem_of_nil|].
  intros [Hx Hl] [->|Hr]%elem_of_cons; [done|].
  specialize (IH _ Hl Hr). unfold range_ok, r_end in *. lia.
Qed.

Lemma covered_app l1 l2 a : covered (l1 ++ l2) a <-> covered l1 a \/ covered l2 a.
Proof. apply Exists_app. Qed.

Lemma covered_cons r l a : covered (r :: l) a <-> inside (r_start r) (p_size r) a \/ covered l a.
Proof. apply Exists_cons. Qed.

Lemma covered_nil a : covered [] a <-> False.
Proof. apply Exists_nil. Qed.

Lemma covered_elem l a : covered l a <-> exists r, r ∈ l /\ inside (r_start r) (p_size r) a.
Proof. apply Exists_exists. Qed.

Lemma covered_bounds lo hi l a : ranges_ok lo hi l -> covered l a -> lo <= a < hi.
Proof.
  intros Hl (r & Hr & Ha)%covered_elem. pose proof (ranges_ok_elem _ _ _ _ Hl Hr) as H.
  unfold range_ok, r_end, inside in *. lia.
Qed.

(** Taking the range at [r_start r] out of the list and putting [rest] there. *)
Lemma splice_split lo hi l r f :
  ranges_ok lo hi l -> r ∈ l ->
  exists l1 l2, l = l1 ++ r :: l2 /\ splice (r_start r) f l = l1 ++ f r ++ l2.
Proof.
  revert lo. induction l as [|x l IH]; intros lo; [by intros _ ?%elem_of_nil|].
  intros [Hx Hl] Hr. simpl. apply elem_of_cons in Hr as [->|Hr].
  - rewrite Z.eqb_refl. by exists [], l.
  - pose proof (ranges_ok_elem _ _ _ _ Hl Hr) as Hro. unfold range_ok, r_end in *.
    rewrite (proj2 (Z.eqb_neq _ _)) by lia.
    destruct (IH _ Hl Hr) as (l1 & l2 & -> & ->). by exists (x :: l1), l2.
Qed.

Lemma splice_const lo hi l r f :
  ranges_ok lo hi l -> r ∈ l -> splice (r_start r) f l = splice (r_start r) (fun _ => f r) l.
Proof.
  revert lo. induction l as [|x l IH]; intros lo; [done|].
  intros [Hx Hl] Hr. simpl. apply elem_of_cons in Hr as [->|Hr]; [by rewrite Z.eqb_refl|].
  pose proof (ranges_ok_elem _ _ _ _ Hl Hr) as Hro. unfold range_ok, r_end in *.
  rewrite (proj2 (Z.eqb_neq _ _)) by lia. f_equal. by apply (IH (r_end x + 1)).
Qed.

Lemma replace_ok lo hi l1 r rest l2 :
  ranges_ok lo hi (l1 ++ r :: l2) -> ranges_ok (r_start r) (r_end r) rest ->
  ranges_ok lo hi (l1 ++ rest ++ l2).
Proof.
  rewrite !ranges_ok_app. simpl. intros (H1 & Hr & H2) Hrest.
  assert (ranges_ok (bound lo l1) hi rest /\ bound (bound lo l1) rest <= r_end r + 1) as [Ha Hb].
  { unfold range_ok in Hr. split.
    { apply (ranges_ok_weaken (r_start r)); [lia|]. by apply (ranges_ok_hi _ (r_end r)); [lia|]. }
    unfold bound at 1. destruct (last rest) as [x|] eqn:El; [|unfold r_end in *; lia].
    apply last_Some_elem_of in El.  pose proof (ranges_ok_elem _ _ _ _ Hrest El) as Hx.
    unfold range_ok in Hx. lia. }
  split; [done|]. split; [done|]. by eapply ranges_ok_weaken.
Qed.

Lemma covered_before lo hi l a : ranges_ok lo hi l -> covered l a -> a < bound lo l - 1.
Proof.
  revert lo. induction l as [|r l IH]; intros lo; [by intros _ ?%covered_nil|].
  intros [Hr Hl] [Ha|Ha]%covered_cons; rewrite bound_cons; [|by apply IH].
  unfold inside, range_ok, r_end in *. destruct l as [|x l]; [unfold bound; simpl; lia|].
  unfold bound. destruct (last (x :: l)) as [y|] eqn:Ey; [|lia].
  apply last_Some_elem_of in Ey. pose proof (ranges_ok_elem _ _ _ _ Hl Ey) as Hy.
  unfold range_ok, r_end in *. lia.
Qed.

Lemma covered_alone lo hi l1 r l2 a :
  ranges_ok lo hi (l1 ++ r :: l2) -> inside (r_start r) (p_size r) a ->
  ~ covered l1 a /\ ~ covered l2 a.
Proof.
  rewrite ranges_ok_app. simpl. intros (H1 & Hr & H2) Ha. split; intros Hc.
  - apply (covered_before _ _ _ _ H1) in Hc. unfold range_ok, inside, r_end in *. lia.
  - apply (covered_bounds _ _ _ _ H2) in Hc. unfold range_ok, inside, r_end in *. lia.
Qed.

Lemma covered_replace lo hi l1 r rest l2 a :
  ranges_ok lo hi (l1 ++ r :: l2) ->
  covered (l1 ++ rest ++ l2) a <->
  (covered (l1 ++ r :: l2) a /\ ~ inside (r_start r) (p_size r) a) \/ covered rest a.
Proof.
  intros Hok. pose proof (covered_alone _ _ _ _ _ a Hok).
  rewrite !covered_app, covered_cons. tauto.
Qed.

(** ** The allocator's invariant *)

(** A range marked as zero is zero but for its controller. *)
Definition clean (m : Z -> page_data) (r : range) : Prop :=
  has_zero (p_attr r) = true ->
  (forall a, a mod 4096 = 0 -> inside (r_start r) (p_size r) a -> body_zero (m a) = true) /\
  (forall a, a mod 4096 = 0 -> inside (r_start r) (p_size r) a -> a <> r_start r ->
             ctrl_zero (m a) = true).

Definition zero_range (m : Z -> page_data) (lo n : Z) : Prop :=
  forall a, a mod 4096 = 0 -> inside lo n a -> m a = zero_page.

Lemma zeroed_spec m lo n :
  lo mod 4096 = 0 -> n mod 4096 = 0 -> zeroed m lo n = true <-> zero_range m lo n.
Proof.
  intros Hlo Hn. unfold zeroed, zero_range, inside, PAGESIZE.
  rewrite <- Is_true_true, forallb_True, Forall_forall. split.
  - intros H a Ha Hin. specialize (H ((a - lo) / 4096)). rewrite elem_of_seqZ in H.
    replace (lo + (a - lo) / 4096 * 4096) with a in H by mlia.
    specialize (H ltac:(mlia)). apply Is_true_true, andb_prop in H as [H1 H2].
    destruct (m a); simpl in *; by subst.
  - intros H i Hi%elem_of_seqZ. rewrite H; [done|mlia..].
Qed.

Section Invariant.

Context (W REF : Z) (spec : mzonespec) `{HZ : !ZoneSpec W spec}.

Record pages_inv (st : pages) : Prop := {
  pi_count : length (page_zones st) = MZONE_REAL_COUNT spec;
  pi_ranges i z : page_zones st !! i = Some z ->
    ranges_ok (MZONE_MIN spec i) (MZONE_MAX spec i + 1) (z_root z);
  pi_clean i z : page_zones st !! i = Some z -> Forall (clean (mem st)) (z_root z)
}.

(** The byte at [a] belongs to a free range. *)
Definition is_free (st : pages) (a : Z) : Prop :=
  exists i z, page_zones st !! i = Some z /\ covered (z_root z) a.

Lemma zone_index st i z : pages_inv st -> page_zones st !! i = Some z ->
  (i < MZONE_REAL_COUNT spec)%nat.
Proof. intros Hi Hz%lookup_lt_Some. by rewrite <- (pi_count st Hi). Qed.

Lemma zones_monotone i j : (i < j)%nat -> (j < MZONE_REAL_COUNT spec)%nat ->
  MZONE_MAX spec i < MZONE_MIN spec j.
Proof.
  intros Hij. induction Hij as [|j Hij IH]; intros Hj.
  - rewrite (zs_next (W := W) i Hj). lia.
  - specialize (IH ltac:(lia)). rewrite (zs_next (W := W) j Hj).
    pose proof (zs_bounds (W := W) j ltac:(lia)). lia.
Qed.

Lemma zone_unique i j a :
  (i < MZONE_REAL_COUNT spec)%nat -> (j < MZONE_REAL_COUNT spec)%nat ->
  MZONE_MIN spec i <= a <= MZONE_MAX spec i -> MZONE_MIN spec j <= a <= MZONE_MAX spec j -> i = j.
Proof.
  intros Hi Hj H1 H2. destruct (Nat.lt_trichotomy i j) as [H|[H|H]]; [|done|].
  - pose proof (zones_monotone i j H Hj). lia.
  - pose proof (zones_monotone j i H Hi). lia.
Qed.

Lemma free_in_zone st i z a :
  pages_inv st -> page_zones st !! i = Some z -> MZONE_MIN spec i <= a <= MZONE_MAX spec i ->
  is_free st a <-> covered (z_root z) a.
Proof.
  intros Hi Hz Ha. split; [|by exists i, z]. intros (j & z' & Hz' & Hc).
  pose proof (covered_bounds _ _ _ _ (pi_ranges st Hi j z' Hz') Hc) as Hb.
  assert (i = j) as <- by (apply (zone_unique i j a); eauto using zone_index; lia).
  by simplify_eq.
Qed.

Lemma clean_frame m m' r :
  (forall a, inside (r_start r) (p_size r) a -> m' a = m a) -> clean m r -> clean m' r.
Proof.
  intros Heq Hc Hz. destruct (Hc Hz) as [H1 H2]. split.
  - intros a Ha Hin. rewrite Heq by done. auto.
  - intros a Ha Hin Hne. rewrite Heq by done. auto.
Qed.

(** Replacing one zone's list and changing memory inside [lo..lo+n) only. *)
Lemma update_zone st i z z' m' lo n :
  pages_inv st -> page_zones st !! i = Some z ->
  MZONE_MIN spec i <= lo -> lo + n <= MZONE_MAX spec i + 1 ->
  ranges_ok (MZONE_MIN spec i) (MZONE_MAX spec i + 1) (z_root z') ->
  Forall (clean m') (z_root z') ->
  (forall a, ~ inside lo n a -> m' a = mem st a) ->
  let st' := set_mem (set_zone st i z') m' in
  pages_inv st' /\
  (forall a, is_free st' a <->
     (if decide (MZONE_MIN spec i <= a <= MZONE_MAX spec i)
      then covered (z_root z') a else is_free st a)).
Proof.
  intros Hi Hz Hlo Hhi Hok Hcl Hm st'.
  pose proof (zone_index st i z Hi Hz) as Hix.
  assert (page_zones st' !! i = Some z') as Hz'.
  { simpl. apply list_lookup_insert_eq. by rewrite (pi_count st Hi). }
  assert (pages_inv st') as Hi'.
  { split.
    - simpl. by rewrite length_insert, (pi_count st Hi).
    - intros j y Hy. destruct (decide (i = j)) as [<-|Hne]; [by simplify_eq|].
      simpl in Hy. rewrite list_lookup_insert_ne in Hy by done. by apply (pi_ranges st Hi).
    - intros j y Hy. destruct (decide (i = j)) as [<-|Hne]; [by simplify_eq|].
      simpl in Hy. rewrite list_lookup_insert_ne in Hy by done.
      pose proof (pi_clean st Hi j y Hy) as Hc. pose proof (pi_ranges st Hi j y Hy) as Hr.
      rewrite Forall_forall in Hc |- *. intros r Hin. apply (clean_frame (mem st)); [|by apply Hc].
      intros a Ha. apply Hm. intros Hna. apply Hne.
      assert (covered (z_root y) a) as Hcv by (apply covered_elem; eauto).
      pose proof (covered_bounds _ _ _ _ Hr Hcv). apply (zone_unique i j a);
        eauto using zone_index; unfold inside in *; lia. }
  split; [done|]. intros a. destruct (decide _) as [Ha|Ha].
  - by apply (free_in_zone st' i z').
  - split; intros (j & y & Hy & Hc).
    + destruct (decide (i = j)) as [<-|Hne].
      * simplify_eq. apply (covered_bounds _ _ _ _ Hok) in Hc. lia.
      * simpl in Hy. rewrite list_lookup_insert_ne in Hy by done. by exists j, y.
    + exists j, y. split; [|done]. simpl. rewrite list_lookup_insert_ne; [done|]. intros ->.
      simplify_eq. apply (covered_bounds _ _ _ _ (pi_ranges st Hi _ _ Hz)) in Hc. lia.
Qed.

End Invariant.

(** ** Allocation *)

Section Malloc.

Context (W REF : Z) (spec : mzonespec) `{HZ : !ZoneSpec W spec}.

Lemma range_facts lo hi r :
  0 <= lo -> hi + PAGESIZE <= W -> range_ok lo hi r ->
  ASSERT_FREEPAGE r = true /\ PAGE_END W r = r_end r.
Proof.
  unfold range_ok, PAGESIZE. intros Hlo Hhi (H1 & H2 & H3 & H4 & H5). split.
  - unfold ASSERT_FREEPAGE. rewrite !andb_true_iff, !aligned_page, negb_true_iff, Z.eqb_neq. lia.
  - unfold PAGE_END, r_end in *. apply Z.mod_small. lia.
Qed.

(** The best range [b] of [l] and [best]: the smallest that is large enough. *)
Definition best_of (n_bytes : Z) (l : list range) (best res : option range) : Prop :=
  match res with
  | None => best = None /\ Forall (fun r => p_size r < n_bytes) l
  | Some b =>
      (best = Some b \/ b ∈ l) /\ n_bytes <= p_size b /\
      Forall (fun r => n_bytes <= p_size r -> p_size b <= p_size r) l /\
      (forall b0, best = Some b0 -> p_size b <= p_size b0)
  end.

Lemma search_zone_ok lo hi n_bytes attr l best :
  0 <= lo -> hi + PAGESIZE <= W -> ranges_ok lo hi l ->
  (forall b, best = Some b -> n_bytes <= p_size b) ->
  exists res, search_zone W n_bytes attr l best = Ret res /\ best_of n_bytes l best res.
Proof.
  intros Hlo Hhi. revert lo best Hlo. induction l as [|r l IH]; intros lo best Hlo Hok Hb.
  { exists best. split; [done|]. destruct best as [b|]; [|by split].
    split; [by left|]. split; [by apply Hb|]. split; [done|]. by intros ? [= <-]. }
  destruct Hok as [Hr Hl]. destruct (range_facts lo hi r Hlo Hhi Hr) as [Ha He].
  assert (0 <= r_end r + 1) as Hlo' by (unfold range_ok, r_end in *; lia).
  simpl search_zone. rewrite Ha. cbn [oassert].
  replace (match l with [] => true | p_next :: _ => _ end) with true.
  2: { destruct l as [|x l]; [done|]. destruct Hl as [Hx _]. rewrite He.
       symmetry. apply Z.ltb_lt. unfold range_ok in Hx. lia. }
  cbn [oassert]. unfold range_ok, r_end, PAGESIZE in Hr, Hhi.
  destruct (Z.ltb_spec (p_size r) n_bytes) as [H1|H1].
  { destruct (IH _ best Hlo' Hl Hb) as (res & -> & Hres). exists res. split; [done|].
    destruct res as [b|]; simpl in *; rewrite Forall_cons.
    - destruct Hres as (H2 & H3 & H4 & H5). split; [rewrite elem_of_cons; tauto|].
      split; [done|]. split; [|done]. split; [lia|done].
    - tauto. }
  destruct (Z.ltb_spec (match best with None => W - 1 | Some b => p_size b end) (p_size r)) as [H2|H2].
  { destruct best as [b0|]; [|lia]. destruct (IH _ (Some b0) Hlo' Hl Hb) as (res & -> & Hres).
    exists res. split; [done|]. destruct res as [b|]; simpl in *; [|by destruct Hres].
    destruct Hres as (H3 & H4 & H5 & H6). specialize (H6 b0 eq_refl) as H7. rewrite Forall_cons.
    split; [rewrite elem_of_cons; tauto|]. split; [done|]. split; [|done]. split; [lia|done]. }
  assert (Htake : exists res, search_zone W n_bytes attr l (Some r) = Ret res /\
                              best_of n_bytes (r :: l) best res).
  { destruct (IH _ (Some r) Hlo' Hl) as (res & -> & Hres); [by intros ? [= <-]|].
    exists res. split; [done|]. destruct res as [b|]; simpl in *; [|by destruct Hres].
    destruct Hres as (H3 & H4 & H5 & H6). specialize (H6 r eq_refl) as H7. rewrite Forall_cons.
    split; [|split; [done|]; split; [by split|]].
    - right. rewrite elem_of_cons. destruct H3 as [[= ->]|]; tauto.
    - intros b0 ->. lia. }
  destruct (Z.eqb_spec (p_size r) (match best with None => W - 1 | Some b => p_size b end)) as [H3|H3];
    [|done].
  destruct best as [b0|]; [|lia]. destruct (_ =? _); [|done].
  destruct (IH _ (Some b0) Hlo' Hl Hb) as (res & -> & Hres).
  exists res. split; [done|]. destruct res as [b|]; simpl in *; [|by destruct Hres].
  destruct Hres as (H4 & H5 & H6 & H7). specialize (H7 b0 eq_refl) as H8. rewrite Forall_cons.
  split; [rewrite elem_of_cons; tauto|]. split; [done|]. split; [|done]. split; [lia|done].
Qed.

(** What taking [n] bytes at [a] out of free memory does. *)
Definition taken (st st' : pages) (a n attr : Z) : Prop :=
  pages_inv spec st' /\
  a mod 4096 = 0 /\
  (forall x, inside a n x -> is_free st x) /\
  (forall x, is_free st' x <-> is_free st x /\ ~ inside a n x) /\
  (has_zero attr = true -> zero_range (mem st') a n) /\
  (forall x, ~ is_free st x -> mem st' x = mem st x).

(** [top] is the end of the smallest range that is large enough in the highest
    allowed zone that has one. *)
Definition best_fit (st : pages) (n_bytes : Z) (zone : nat) (top : Z) : Prop :=
  exists i z b, (i <= zone)%nat /\ page_zones st !! i = Some z /\ b ∈ z_root z /\
    top = r_end b /\
    (forall r, r ∈ z_root z -> n_bytes <= p_size r -> p_size b <= p_size r) /\
    (forall j y r, (i < j <= zone)%nat -> page_zones st !! j = Some y -> r ∈ z_root y ->
                   p_size r < n_bytes).

(** Replacing the free range [b] by [rest], which leaves out [result..+n). *)
Lemma carve_zone st i z z' b rest m' result n attr :
  pages_inv spec st -> page_zones st !! i = Some z -> b ∈ z_root z ->
  z_root z' = splice (r_start b) (fun _ => rest) (z_root z) ->
  ranges_ok (r_start b) (r_end b) rest ->
  (forall x, covered rest x <-> inside (r_start b) (p_size b) x /\ ~ inside result n x) ->
  r_start b <= result -> result + n <= r_end b -> result mod 4096 = 0 ->
  Forall (clean m') rest -> (has_zero attr = true -> zero_range m' result n) ->
  (forall a, ~ inside (r_start b) (p_size b) a -> m' a = mem st a) ->
  taken st (set_mem (set_zone st i z') m') result n attr.
Proof.
  intros Hi Hz Hb Hroot Hrest Hcov Hlo Hhi Hal Hcl Hzero Hm.
  pose proof (pi_ranges spec st Hi i z Hz) as Hok.
  pose proof (ranges_ok_elem _ _ _ _ Hok Hb) as Hbok.
  destruct (splice_split _ _ _ _ (fun _ => rest) Hok Hb) as (l1 & l2 & El & Es).
  rewrite El in Hok. pose proof (replace_ok _ _ _ _ _ _ Hok Hrest) as Hok'.
  assert (Hfree : forall x, inside (r_start b) (p_size b) x -> covered (z_root z) x)
    by (intros; apply covered_elem; eauto).
  destruct (update_zone W spec st i z z' m' (r_start b) (p_size b)) as [Hi' Hf']; try done.
  - apply Hbok.
  - apply Hbok.
  - by rewrite Hroot, Es.
  - rewrite Hroot, Es. pose proof (pi_clean spec st Hi i z Hz) as Hc. rewrite El in Hc.
    rewrite Forall_app, Forall_cons in Hc. destruct Hc as (Hc1 & _ & Hc2).
    assert (forall l, Forall (clean (mem st)) l ->
              (forall a, covered l a -> ~ inside (r_start b) (p_size b) a) -> Forall (clean m') l) as Hfr.
    { intros l Hl Hd. rewrite Forall_forall in Hl |- *. intros r Hr.
      apply (clean_frame (mem st)); [|by apply Hl]. intros a Ha. apply Hm, Hd.
      apply covered_elem; eauto. }
    rewrite !Forall_app. split; [|split; [done|]];
      (apply Hfr; [done|]); intros a Ha Hin; pose proof (covered_alone _ _ _ _ _ a Hok Hin); tauto.
  - assert (Hfz : forall x, MZONE_MIN spec i <= x <= MZONE_MAX spec i ->
      is_free st x <-> covered (z_root z) x) by (intros; by apply (free_in_zone W spec st i z)).
    split; [done|]. split; [done|]. unfold range_ok, r_end in Hbok, Hhi. split; [|split; [|split; [done|]]].
    + intros x Hx. apply Hfz; [unfold inside in *; lia|]. apply Hfree. unfold inside in *; lia.
    + intros x. rewrite Hf'. destruct (decide _) as [Hx|Hx].
      * rewrite (Hfz x Hx), Hroot, Es, (covered_replace _ _ _ _ _ _ x Hok), <- El, Hcov.
        specialize (Hfree x). unfold inside in *. 
        destruct (decide (r_start b <= x < r_start b + p_size b)); intuition lia.
      * unfold inside. intuition lia.
    + intros x Hx. apply Hm. intros Hin. apply Hx. exists i, z. auto.
Qed.

Lemma mem_fill_in lo n v m a : inside lo n a -> mem_fill lo n v m a = v.
Proof.
  unfold inside, mem_fill. intros. by rewrite (proj2 (Z.leb_le _ _)), (proj2 (Z.ltb_lt _ _)) by lia.
Qed.

Lemma mem_fill_out lo n v m a : ~ inside lo n a -> mem_fill lo n v m a = m a.
Proof.
  unfold inside, mem_fill. intros. destruct (_ && _) eqn:E; [|done]. bsimp. lia.
Qed.

(** The memory handed out after clearing it where needed: it passes
    [debug_verify_memory], and nothing outside of it changed. *)
Lemma verify_ok m m1 start size attr :
  start mod 4096 = 0 -> size mod 4096 = 0 ->
  (has_zero attr = true -> zero_range m1 start size) ->
  (forall a, ~ inside start size a -> m1 a = m a) ->
  exists m', debug_verify_memory m1 start size attr true = Ret m' /\
    (has_zero attr = true -> zero_range m' start size) /\
    (forall a, ~ inside start size a -> m' a = m a).
Proof.
  intros Hs Hn Hz Hm. unfold debug_verify_memory.
  rewrite !(proj2 (aligned_page _)) by done. cbn [oassert].
  destruct (has_zero attr).
  - rewrite (proj2 (zeroed_spec m1 start size Hs Hn)) by auto. by exists m1.
  - eexists. split; [done|]. split; [done|]. intros a Ha. rewrite mem_fill_out by done. auto.
Qed.

Lemma take_top_ok st i z b size attr :
  pages_inv spec st -> page_zones st !! i = Some z -> b ∈ z_root z ->
  0 <= size <= p_size b -> size mod 4096 = 0 ->
  exists st', take_top W REF st i z b size attr = Ret (r_end b - size, st') /\
    taken st st' (r_end b - size) size attr.
Proof.
  intros Hi Hz Hb Hsz Hal. pose proof (pi_ranges spec st Hi i z Hz) as Hok.
  pose proof (ranges_ok_elem _ _ _ _ Hok Hb) as Hbok.
  assert (clean (mem st) b) as Hcl.
  { pose proof (pi_clean spec st Hi i z Hz) as Hc. rewrite Forall_forall in Hc. auto. }
  unfold take_top. replace (r_start b + (p_size b - size)) with (r_end b - size)
    by (unfold r_end; lia).
  remember (r_end b - size) as result eqn:Er. unfold range_ok in Hbok.
  assert (result mod 4096 = 0) as Hra by (unfold r_end in *; mlia).
  rewrite !(proj2 (aligned_page _)) by (done || tauto). cbn [oassert].
  set (m1 := if has_zero attr && negb (has_zero (p_attr b)) then _ else _).
  destruct (verify_ok (mem st) m1 result size attr) as (m' & -> & Hz' & Hm'); try done.
  { subst m1. intros Ha. rewrite Ha. cbn [andb]. destruct (has_zero (p_attr b)) eqn:Eb; cbn [negb andb].
    - destruct (Hcl Eb) as [Hc1 Hc2]. intros a Hpa Hin. unfold zero_page.
      assert (inside (r_start b) (p_size b) a) as Hin' by (unfold inside, r_end in *; lia).
      destruct (Z.eqb_spec result (r_start b)) as [E|E].
      + unfold clear_ctrl. destruct (Z.eqb_spec a result) as [->|Hne]; [by rewrite Hc1|].
        specialize (Hc1 a Hpa Hin'). specialize (Hc2 a Hpa Hin' ltac:(congruence)).
        destruct (mem st a); simpl in *; by subst.
      + specialize (Hc1 a Hpa Hin').
        assert (a <> r_start b) as Hne by (unfold inside, r_end in *; lia).
        specialize (Hc2 a Hpa Hin' Hne). destruct (mem st a); simpl in *; by subst.
    - intros a _ Hin. by apply mem_fill_in. }
  { subst m1. intros a Ha. assert (size <> 0 -> a <> result) by (unfold inside in *; lia).
    assert (result = r_start b -> size <> 0) by (unfold r_end in *; lia).
    destruct (has_zero attr), (has_zero (p_attr b)); cbn [andb negb]; try done.
    - destruct (Z.eqb_spec result (r_start b)); [|done]. unfold clear_ctrl.
      by rewrite (proj2 (Z.eqb_neq a result)) by auto.
    - by apply mem_fill_out. }
  cbn [obind]. eexists. split; [done|].
  set (rest := if result =? r_start b then []
               else [mk_range (r_start b) (p_size b - size) (p_attr b)]).
  assert (Hin : forall x, ~ inside (r_start b) (p_size b) x -> ~ inside result size x)
    by (unfold inside, r_end in *; lia).
  apply (carve_zone st i z _ b rest); try done.
  - subst rest. cbn [z_root].
    destruct (result =? r_start b); [done|]. exact (splice_const _ _ _ _
      (fun b => [mk_range (r_start b) (p_size b - size) (p_attr b)]) Hok Hb).
  - subst rest. destruct (Z.eqb_spec result (r_start b)); simpl; [done|].
    split; [|done]. unfold range_ok, r_end in *; simpl. split_and!; try lia. mlia.
  - subst rest. intros x. destruct (Z.eqb_spec result (r_start b)).
    + rewrite covered_nil. unfold inside, r_end in *. lia.
    + rewrite covered_cons, covered_nil. unfold inside, r_end in *; simpl. lia.
  - unfold r_end in *. lia.
  - lia.
  - subst rest. destruct (Z.eqb_spec result (r_start b)); [done|].
    apply Forall_singleton. apply (clean_frame (mem st)).
    + intros a Ha. apply Hm'. unfold inside, r_end in *; simpl in *. lia.
    + intros Hzr. destruct (Hcl Hzr) as [Hc1 Hc2]. split; intros; [apply Hc1|apply Hc2]; try done;
        unfold inside in *; simpl in *; lia.
  - intros a Ha. apply Hm'. auto.
Qed.

Lemma pagezone_ok st zone :
  pages_inv spec st -> (zone < MZONE_REAL_COUNT spec)%nat ->
  exists z, page_zones st !! zone = Some z /\ PAGEZONE st zone = Ret z.
Proof.
  intros Hi Hz. unfold PAGEZONE. destruct (lookup_lt_is_Some_2 (page_zones st) zone) as [z Hl].
  - by rewrite (pi_count spec st Hi).
  - exists z. by rewrite Hl.
Qed.

(** Rounding up a size that fits into a range of the zone. *)
Lemma ceil_fits st i z b n :
  pages_inv spec st -> page_zones st !! i = Some z -> b ∈ z_root z -> 0 <= n <= p_size b ->
  n <= CEIL_ALIGN W n PAGESIZE <= p_size b /\ CEIL_ALIGN W n PAGESIZE mod 4096 = 0.
Proof.
  intros Hi Hz Hb Hn. pose proof (ranges_ok_elem _ _ _ _ (pi_ranges spec st Hi i z Hz) Hb) as Hbok.
  pose proof (zs_bounds (W := W) i (zone_index spec st i z Hi Hz)).
  unfold range_ok, r_end, PAGESIZE in *.
  pose proof (ceil_page W n ltac:(lia) ltac:(unfold PAGESIZE; lia)). unfold PAGESIZE in *. mlia.
Qed.

Lemma malloc_ok st n_bytes attr zone :
  pages_inv spec st -> 0 <= n_bytes -> (zone < MZONE_REAL_COUNT spec)%nat ->
  exists res st', page_malloc W REF st n_bytes attr zone = Ret (res, st') /\
    match res with
    | Some a => taken st st' a (CEIL_ALIGN W n_bytes PAGESIZE) attr /\
                n_bytes <= CEIL_ALIGN W n_bytes PAGESIZE /\
                best_fit st n_bytes zone (a + CEIL_ALIGN W n_bytes PAGESIZE)
    | None => st' = st /\
        forall i z r, (i <= zone)%nat -> page_zones st !! i = Some z -> r ∈ z_root z ->
                      p_size r < n_bytes
    end.
Proof.
  intros Hi Hn. revert zone. induction zone as [|zone IH]; intros Hzn.
  all: destruct (pagezone_ok st _ Hi Hzn) as (z & Hz & Hpz);
    pose proof (pi_ranges spec st Hi _ z Hz) as Hok;
    pose proof (zs_bounds (W := W) _ Hzn) as Hb;
    destruct (search_zone_ok _ _ n_bytes attr _ None (proj1 (proj1 Hb)) (proj2 Hb) Hok)
      as (res & Hs & Hres); [done|];
    simpl page_malloc; rewrite Hpz; cbn [obind]; rewrite Hs; cbn [obind].
  all: destruct res as [b|].
  all: try (destruct Hres as ([|Hin] & Hfit & Hmin & _); [done|];
    destruct (ceil_fits st _ z b n_bytes Hi Hz Hin ltac:(lia)) as [Hc1 Hc2];
    rewrite !(proj2 (Z.leb_le _ _)) by lia; cbn [oassert];
    destruct (take_top_ok st _ z b (CEIL_ALIGN W n_bytes PAGESIZE) attr Hi Hz Hin ltac:(lia) Hc2)
      as (st' & -> & Ht); cbn [obind];
    eexists _, _; split; [done|]; split; [exact Ht|]; split; [lia|];
    eexists _, z, b; split; [reflexivity|]; split; [done|]; split; [done|]; split; [lia|];
    rewrite Forall_forall in Hmin; split; [auto|]; intros; exfalso; lia).
  - destruct Hres as [_ Hsmall]. eexists _, _. split; [done|]. split; [done|].
    intros i z' r Hle Hz' Hr. assert (i = 0%nat) as -> by lia. simplify_eq.
    rewrite Forall_forall in Hsmall. auto.
  - destruct Hres as [_ Hsmall]. destruct (IH ltac:(lia)) as (res & st' & -> & Hr).
    eexists _, _. split; [done|]. rewrite Forall_forall in Hsmall. destruct res as [a|].
    { destruct Hr as (Ht & Hle & i & z' & b & H1 & H2 & H3 & H4 & H5 & H6).
      split; [done|]. split; [done|]. exists i, z', b. do 5 (split; [first [done|lia]|]).
      intros j y r Hj Hy Hr. destruct (decide (j = S zone)) as [->|]; [simplify_eq; auto|].
      by apply (H6 j y r); [lia|..]. }
    destruct Hr as [-> Hr].
    split; [done|]. intros i z' r Hle Hz' Hin. destruct (decide (i = S zone)) as [->|];
      [|by apply (Hr i z' r); [lia|..]].
    simplify_eq. auto.
Qed.

Lemma malloc_part_ok st min_size max_size attr zone :
  pages_inv spec st -> 0 <= min_size -> 0 <= max_size -> (zone < MZONE_REAL_COUNT spec)%nat ->
  exists res st', page_malloc_part W REF st min_size max_size attr zone = Ret (res, st') /\
    match res with
    | Some (a, size) =>
        taken st st' a size attr /\ size mod 4096 = 0 /\ 0 <= size <= max_size /\
        Z.min min_size (FLOOR_ALIGN max_size PAGESIZE) <= size
    | None => st' = st /\
        forall i z r, (i <= zone)%nat -> page_zones st !! i = Some z -> r ∈ z_root z ->
                      p_size r < min_size
    end.
Proof.
  intros Hi Hn Hm. revert zone. induction zone as [|zone IH]; intros Hzn.
  all: destruct (pagezone_ok st _ Hi Hzn) as (z & Hz & Hpz);
    pose proof (pi_ranges spec st Hi _ z Hz) as Hok;
    pose proof (zs_bounds (W := W) _ Hzn) as Hb;
    destruct (search_zone_ok _ _ min_size attr _ None (proj1 (proj1 Hb)) (proj2 Hb) Hok)
      as (res & Hs & Hres); [done|];
    simpl page_malloc_part; rewrite Hpz; cbn [obind]; rewrite Hs; cbn [obind].
  all: pose proof (floor_page max_size Hm) as (Hf1 & Hf2 & Hf3).
  all: destruct res as [b|].
  all: try (destruct Hres as ([|Hin] & Hfit & _ & _); [done|];
    destruct (ceil_fits st _ z b min_size Hi Hz Hin ltac:(lia)) as [Hc1 Hc2];
    pose proof (ranges_ok_elem _ _ _ _ Hok Hin) as (_ & _ & _ & Hsa & _);
    rewrite !(proj2 (Z.leb_le _ _)) by lia; cbn [oassert];
    remember (Z.min (p_size b) (FLOOR_ALIGN max_size PAGESIZE)) as k eqn:Ek;
    assert (k mod 4096 = 0) as Hk by (destruct (Z.min_spec (p_size b) (FLOOR_ALIGN max_size PAGESIZE)) as [[_ E]|[_ E]]; by rewrite Ek, E);
    destruct (take_top_ok st _ z b k attr Hi Hz Hin ltac:(lia) Hk)
      as (st' & -> & Ht); cbn [obind];
    eexists _, _; split; [done|]; split; [exact Ht|]; split; [done|]; lia).
  - destruct Hres as [_ Hsmall]. eexists _, _. split; [done|]. split; [done|].
    intros i z' r Hle Hz' Hr. assert (i = 0%nat) as -> by lia. simplify_eq.
    rewrite Forall_forall in Hsmall. auto.
  - destruct Hres as [_ Hsmall]. destruct (IH ltac:(lia)) as (res & st' & -> & Hr).
    eexists _, _. split; [done|]. destruct res as [a|]; [done|]. destruct Hr as [-> Hr].
    split; [done|]. intros i z' r Hle Hz' Hin. destruct (decide (i = S zone)) as [->|];
      [|by apply (Hr i z' r); [lia|..]].
    simplify_eq. rewrite Forall_forall in Hsmall. auto.
Qed.

End Malloc.

(** ** Freeing *)

Section Free.

Context (W REF : Z) (spec : mzonespec) `{HZ : !ZoneSpec W spec}.

Lemma has_zero_odd x : has_zero x = Z.odd x.
Proof.
  unfold has_zero, PAGEATTR_ZERO. change 1 with (Z.ones 1) at 1. rewrite Z.land_ones by lia.
  change (2 ^ 1) with 2. rewrite Zmod_odd. by destruct (Z.odd x).
Qed.

Lemma has_zero_land a b : has_zero (Z.land a b) = has_zero a && has_zero b.
Proof. rewrite !has_zero_odd, <- !Z.bit0_odd. apply Z.land_spec. Qed.

Lemma clean_frames m m' l :
  (forall a, covered l a -> m' a = m a) -> Forall (clean m) l -> Forall (clean m') l.
Proof.
  intros Heq Hc. rewrite Forall_forall in Hc |- *. intros r Hr.
  apply (clean_frame m); [|by apply Hc]. intros a Ha. apply Heq, covered_elem. eauto.
Qed.

Lemma free_walk_ok lo hi l start n :
  0 <= lo -> hi + PAGESIZE <= W -> ranges_ok lo hi l -> 0 < n ->
  (forall x, inside start n x -> ~ covered l x) ->
  exists before after, free_walk W start l = Ret (before, after) /\ l = before ++ after /\
    Forall (fun r => r_end r <= start) before /\
    match after with [] => True | r :: _ => start + n <= r_start r end.
Proof.
  intros Hlo Hhi. revert lo Hlo. induction l as [|r l IH]; intros lo Hlo Hok Hn Hd.
  { by exists [], []. }
  destruct Hok as [Hr Hl]. destruct (range_facts W lo hi r Hlo Hhi Hr) as [_ He].
  simpl free_walk. rewrite He. unfold range_ok, r_end in Hr.
  destruct (Z.leb_spec (r_end r) start) as [H1|H1].
  - destruct (IH (r_end r + 1)) as (bf & af & -> & -> & Hbf & Haf); [unfold r_end in *; lia|done|done| |].
    { intros x Hx Hc. apply (Hd x Hx). apply covered_cons. by right. }
    unfold r_end in *. rewrite (proj2 (Z.leb_le _ _)) by lia. cbn [oassert obind].
    exists (r :: bf), af. split; [done|]. split; [done|]. split; [|done]. by apply Forall_cons.
  - exists [], (r :: l). split; [done|]. split; [done|]. split; [done|].
    pose proof (Hd start) as H2. pose proof (Hd (r_start r)) as H3.
    rewrite covered_cons in H2, H3. unfold inside, r_end in *.
    destruct (Z.le_gt_cases (r_start r) start); [exfalso; apply H2; [lia|left; lia]|].
    destruct (Z.le_gt_cases (start + n) (r_start r)); [done|]. exfalso. apply H3; [lia|left; lia].
Qed.

(** The result of linking [start..+n) into the list [l]. *)
Definition linked (lo hi start n : Z) (m m' : Z -> page_data) (l root : list range) : Prop :=
  ranges_ok lo hi root /\
  (forall x, covered root x <-> covered l x \/ inside start n x) /\
  Forall (clean m') root /\
  (forall x, ~ covered root x -> m' x = m x).

(** One range [new] takes the place of the ranges [mid] and the freed memory. *)
Lemma link_ok lo hi start n m m' l1 mid new l2 :
  ranges_ok lo hi (l1 ++ mid ++ l2) -> Forall (clean m) (l1 ++ mid ++ l2) ->
  0 < p_size new -> r_start new mod 4096 = 0 -> p_size new mod 4096 = 0 ->
  bound lo l1 <= r_start new -> r_end new <= hi ->
  match l2 with [] => True | r :: _ => r_end new < r_start r end ->
  (forall x, inside (r_start new) (p_size new) x <-> covered mid x \/ inside start n x) ->
  clean m' new ->
  (forall a, ~ inside (r_start new) (p_size new) a -> m' a = m a) ->
  linked lo hi start n m m' (l1 ++ mid ++ l2) (l1 ++ new :: l2).
Proof.
  intros Hok Hcl Hp Ha1 Ha2 Hb Hh Hnext Hcov Hnew Hm.
  rewrite !ranges_ok_app in Hok. destruct Hok as (H1 & Hmid & H2).
  rewrite !Forall_app in Hcl. destruct Hcl as (Hc1 & _ & Hc2).
  assert (H2' : ranges_ok (r_end new + 1) hi l2).
  { destruct l2 as [|r l2]; [done|]. destruct H2 as [Hr H2]. split; [|done].
    unfold range_ok in *. lia. }
  split; [|split; [|split]].
  - rewrite ranges_ok_app. split; [done|]. split; [|done]. unfold range_ok. lia.
  - intros x. rewrite !covered_app, covered_cons, Hcov. tauto.
  - rewrite Forall_app, Forall_cons. split; [|split; [done|]].
    + apply (clean_frames m); [|done]. intros a Ha. apply Hm.
      apply (covered_before _ _ _ _ H1) in Ha. unfold inside. lia.
    + apply (clean_frames m); [|done]. intros a Ha. apply Hm.
      apply (covered_bounds _ _ _ _ H2') in Ha. unfold inside, r_end in *. lia.
  - intros x Hx. apply Hm. intros Hin. apply Hx. rewrite covered_app, covered_cons. tauto.
Qed.

(** Clean ranges and zeroed memory side by side. *)
Lemma zero_range_page m lo n a :
  zero_range m lo n -> a mod 4096 = 0 -> inside lo n a ->
  body_zero (m a) = true /\ ctrl_zero (m a) = true.
Proof. intros H Ha Hin. by rewrite (H a Ha Hin). Qed.

Lemma write_ctrl_page p m a :
  body_zero (write_ctrl p m a) = body_zero (m a) /\
  (a <> p -> write_ctrl p m a = m a).
Proof.
  unfold write_ctrl. destruct (Z.eqb_spec a p); [|done]. by subst.
Qed.

Lemma clear_ctrl_page p m a :
  body_zero (clear_ctrl p m a) = body_zero (m a) /\
  ctrl_zero (clear_ctrl p m p) = true /\
  (a <> p -> clear_ctrl p m a = m a).
Proof.
  unfold clear_ctrl. rewrite Z.eqb_refl. destruct (Z.eqb_spec a p); [|done]. by subst.
Qed.

(** Merging with the range behind the freed memory. *)
Lemma clean_merge_next m start n attr iter :
  0 < n -> clean m iter -> (has_zero attr = true -> zero_range m start n) ->
  r_start iter = start + n -> 0 < p_size iter ->
  clean (clear_ctrl (r_start iter) (write_ctrl start m))
    (mk_range start (p_size iter + n) (Z.land (p_attr iter) attr)).
Proof.
  intros Hn Hc Hz E Hp Ha. cbn [p_attr] in Ha. rewrite has_zero_land in Ha. bsimp.
  destruct (Hc ltac:(done)) as [Hc1 Hc2]. specialize (Hz ltac:(done)).
  cbn [r_start p_size]. split; intros a Hpa Hin.
  - rewrite (proj1 (clear_ctrl_page _ _ _)), (proj1 (write_ctrl_page _ _ _)).
    destruct (Z.lt_ge_cases a (start + n)).
    + apply (zero_range_page m start n a Hz Hpa). unfold inside in *. lia.
    + apply Hc1; [done|]. unfold inside in *. lia.
  - intros Hne. destruct (decide (a = r_start iter)) as [->|Hni].
    { apply (proj2 (clear_ctrl_page _ _ start)). }
    rewrite (proj2 (proj2 (clear_ctrl_page _ _ a))), (proj2 (write_ctrl_page _ _ a)) by done.
    destruct (Z.lt_ge_cases a (start + n)).
    + apply (zero_range_page m start n a Hz Hpa). unfold inside in *. lia.
    + apply Hc2; [done| |done]. unfold inside in *. lia.
Qed.

Lemma clean_new m start n attr :
  (has_zero attr = true -> zero_range m start n) ->
  clean (write_ctrl start m) (mk_range start n attr).
Proof.
  intros Hz Ha. specialize (Hz Ha). cbn [r_start p_size]. split; intros a Hpa Hin.
  - rewrite (proj1 (write_ctrl_page _ _ _)). by apply (zero_range_page m start n).
  - intros Hne. rewrite (proj2 (write_ctrl_page _ _ _)) by done. by apply (zero_range_page m start n).
Qed.

Lemma free_link_next_ok lo hi m start n attr before after :
  0 <= lo -> hi + PAGESIZE <= W ->
  ranges_ok lo hi (before ++ after) -> Forall (clean m) (before ++ after) ->
  bound lo before <= start -> start + n <= hi -> 0 < n -> 0 <= start ->
  start mod 4096 = 0 -> n mod 4096 = 0 ->
  match after with [] => True | r :: _ => start + n <= r_start r end ->
  (has_zero attr = true -> zero_range m start n) ->
  linked lo hi start n m (free_link_next W m start n attr before after).2
    (before ++ after) (free_link_next W m start n attr before after).1.
Proof.
  intros Hlo Hhi Hok Hcl Hb Hh Hn Hs Ha1 Ha2 Haf Hz. unfold free_link_next, PAGESIZE in *.
  assert (Hnew : match after with [] => True | r :: _ => r_start r <> start + n end ->
    linked lo hi start n m (write_ctrl start m) (before ++ [] ++ after)
      (before ++ mk_range start n attr :: after)).
  { intros Hno. apply link_ok; cbn [r_start p_size p_attr]; try done.
    - destruct after as [|r after]; [done|]. unfold r_end. simpl. lia.
    - intros x. rewrite covered_nil. tauto.
    - by apply clean_new.
    - intros a Ha. apply write_ctrl_page. unfold inside in Ha. lia. }
  destruct after as [|iter next]; [exact (Hnew I)|]. rewrite Z.mod_small by lia.
  destruct (Z.eqb_spec (r_start iter) (start + n)) as [E|E]; [|exact (Hnew E)].
  clear Hnew. cbn [fst snd]. change (before ++ iter :: next) with (before ++ [iter] ++ next) in *.
  assert (range_ok lo hi iter) as Hit.
  { eapply ranges_ok_elem; [exact Hok|]. apply elem_mid. }
  assert (clean m iter) as Hci.
  { rewrite Forall_forall in Hcl. apply Hcl, elem_mid. }
  unfold range_ok, r_end in Hit. destruct Hit as (_ & Hi1 & Hi2 & Hi3 & Hi4).
  set (new := mk_range start _ _).
  apply link_ok; try done; subst new; unfold r_end; cbn [r_start p_size p_attr].
  - lia.
  - mlia.
  - lia.
  - destruct next as [|r next]; [done|]. rewrite !ranges_ok_app in Hok.
    destruct Hok as (_ & _ & Hnx & _). unfold bound in Hnx. simpl in Hnx.
    unfold range_ok, r_end in Hnx. lia.
  - intros x. rewrite covered_cons, covered_nil. unfold inside. lia.
  - destruct (has_zero (Z.land (p_attr iter) attr)) eqn:Ez; [by apply clean_merge_next|].
    intros Ha. cbn [p_attr] in Ha. congruence.
  - intros a Ha. assert (a <> start /\ a <> r_start iter) as [H1 H2] by (unfold inside in Ha; lia).
    destruct (has_zero (Z.land (p_attr iter) attr)); [|by apply write_ctrl_page].
    transitivity (write_ctrl start m a); [by apply (clear_ctrl_page (r_start iter))|by apply write_ctrl_page].
Qed.

(** Extending the range in front of the freed memory. *)
Lemma clean_extend m start n attr prev :
  clean m prev -> (has_zero attr = true -> zero_range m start n) -> r_end prev = start ->
  0 < p_size prev ->
  clean m (mk_range (r_start prev) (p_size prev + n) (Z.land (p_attr prev) attr)).
Proof.
  intros Hc Hz E Hp Ha. cbn [p_attr] in Ha. rewrite has_zero_land in Ha. bsimp.
  destruct (Hc ltac:(done)) as [Hc1 Hc2]. specialize (Hz ltac:(done)).
  unfold r_end in E. cbn [r_start p_size]. split; intros a Hpa Hin.
  - destruct (Z.lt_ge_cases a start); [apply Hc1; [done|]|apply (zero_range_page m start n a Hz Hpa)];
      unfold inside in *; lia.
  - intros Hne. destruct (Z.lt_ge_cases a start);
      [apply Hc2; [done| |done]|apply (zero_range_page m start n a Hz Hpa)]; unfold inside in *; lia.
Qed.

(** Joining two clean ranges that touch. *)
Lemma clean_join m r1 r2 :
  clean m r1 -> clean m r2 -> r_end r1 = r_start r2 -> 0 < p_size r1 ->
  clean (clear_ctrl (r_start r2) m)
    (mk_range (r_start r1) (p_size r1 + p_size r2) (Z.land (p_attr r1) (p_attr r2))).
Proof.
  intros H1 H2 E Hp Ha. cbn [p_attr] in Ha. rewrite has_zero_land in Ha. bsimp.
  destruct (H1 ltac:(done)) as [Ha1 Hb1]. destruct (H2 ltac:(done)) as [Ha2 Hb2].
  unfold r_end in E. cbn [r_start p_size]. split; intros a Hpa Hin.
  - rewrite (proj1 (clear_ctrl_page _ _ _)).
    destruct (Z.lt_ge_cases a (r_start r2)); [apply Ha1|apply Ha2]; try done; unfold inside in *; lia.
  - intros Hne. destruct (decide (a = r_start r2)) as [->|Hn2].
    { apply (proj2 (clear_ctrl_page _ _ 0)). }
    rewrite (proj2 (proj2 (clear_ctrl_page _ _ a))) by done.
    destruct (Z.lt_ge_cases a (r_start r2)); [apply Hb1|apply Hb2]; try done; unfold inside in *; lia.
Qed.

Lemma free_link_ok lo hi m start n attr before after :
  0 <= lo -> hi + PAGESIZE <= W ->
  ranges_ok lo hi (before ++ after) -> Forall (clean m) (before ++ after) ->
  lo <= start -> start + n <= hi -> 0 < n -> start mod 4096 = 0 -> n mod 4096 = 0 ->
  Forall (fun r => r_end r <= start) before ->
  match after with [] => True | r :: _ => start + n <= r_start r end ->
  (has_zero attr = true -> zero_range m start n) ->
  exists root m', free_link W m start n attr before after = Ret (root, m') /\
    linked lo hi start n m m' (before ++ after) root.
Proof.
  intros Hlo Hhi Hok Hcl Hs Hh Hn Ha1 Ha2 Hbf Haf Hz. unfold free_link.
  destruct (last before) as [prev|] eqn:El.
  2: { eexists _, _. split; [by rewrite <- surjective_pairing|].
       apply free_link_next_ok; try done; try lia. unfold bound. by rewrite El. }
  apply last_Some in El as [b1 ->]. rewrite removelast_last.
  assert (prev ∈ b1 ++ [prev]) as Hpin by apply elem_mid.
  assert (r_end prev <= start) as Hpe by (rewrite Forall_forall in Hbf; by apply Hbf).
  assert (range_ok lo hi prev) as Hpok by (eapply ranges_ok_elem; [exact Hok|]; apply elem_of_app; by left).
  assert (clean m prev) as Hpc
    by (rewrite Forall_forall in Hcl; apply Hcl; apply elem_of_app; by left).
  rewrite (proj2 (range_facts W lo hi prev Hlo Hhi Hpok)).
  destruct (Z.eqb_spec (r_end prev) start) as [E|E].
  2: { eexists _, _. split; [by rewrite <- surjective_pairing|].
       apply free_link_next_ok; try done; try lia. unfold bound. rewrite last_snoc. lia. }
  pose proof (clean_extend m start n attr prev Hpc Hz E (proj1 (proj2 Hpok))) as Hp1c.
  set (prev1 := mk_range (r_start prev) (p_size prev + n) (Z.land (p_attr prev) attr)) in *.
  assert (r_end prev1 = start + n) as Ep1 by (unfold r_end in *; simpl; lia).
  assert (range_ok lo hi prev1) as Hp1ok.
  { unfold range_ok, prev1 in *. unfold r_end in *. cbn [r_start p_size]. split_and!; try lia. mlia. }
  pose proof Hok as Hok0. rewrite !ranges_ok_app in Hok0. destruct Hok0 as ((Hb1 & Hpr & _) & Haft).
  assert (Hext : match after with [] => True | r :: _ => start + n < r_start r end ->
    linked lo hi start n m m ((b1 ++ [prev]) ++ after) (b1 ++ prev1 :: after)).
  { intros Hno. rewrite <- app_assoc in *. unfold range_ok in Hp1ok, Hpr.
    apply link_ok; try done; try (by destruct Hp1ok); try tauto.
    - destruct after; [done|]. lia.
    - intros x. rewrite covered_cons, covered_nil. unfold inside, r_end, prev1 in *. simpl. lia. }
  destruct after as [|iter next].
  { eexists _, _. split; [done|]. by apply Hext. }
  rewrite (proj2 (range_facts W lo hi prev1 Hlo Hhi Hp1ok)), Ep1.
  rewrite (proj2 (Z.leb_le _ _)) by lia. cbn [oassert].
  destruct (Z.eqb_spec (start + n) (r_start iter)) as [E2|E2].
  2: { eexists _, _. split; [done|]. apply Hext. lia. }
  eexists _, _. split; [done|]. clear Hext.
  assert (range_ok lo hi iter) as Hiok by (eapply ranges_ok_elem; [exact Hok|apply elem_mid]).
  assert (clean m iter) as Hic by (rewrite Forall_forall in Hcl; apply Hcl, elem_mid).
  change ((b1 ++ [prev]) ++ iter :: next) with ((b1 ++ [prev]) ++ [iter] ++ next) in *.
  rewrite <- (app_assoc b1) in *. rewrite (app_assoc [prev]) in *.
  unfold range_ok, r_end in Hiok, Hpok, Hp1ok, Hpr, Ep1, E.
  apply link_ok; try done; unfold r_end; cbn [r_start p_size p_attr prev1] in *; try lia.
  - mlia.
  - destruct next as [|r next]; [done|]. destruct Haft as (_ & Hnx & _).
    unfold range_ok, r_end in Hnx. lia.
  - intros x. rewrite !covered_app, !covered_cons, covered_nil. unfold inside. lia.
  - destruct (has_zero (Z.land (Z.land (p_attr prev) attr) (p_attr iter))) eqn:Ez.
    + apply (clean_join m prev1 iter); try done; unfold r_end, prev1; simpl; lia.
    + intros Ha. cbn [p_attr] in Ha. congruence.
  - intros a Ha. destruct (has_zero (Z.land _ (p_attr iter))); [|done].
    apply clear_ctrl_page. unfold inside in Ha. lia.
Qed.

(** What giving [n] bytes at [a] back does. *)
Definition given (st st' : pages) (a n : Z) : Prop :=
  pages_inv spec st' /\
  (forall x, is_free st' x <-> is_free st x \/ inside a n x) /\
  (forall x, ~ is_free st' x -> mem st' x = mem st x).

(** Linking [n] bytes at [start] into zone [i], whatever becomes of the counters. *)
Lemma link_zone_ok st i z start n attr :
  pages_inv spec st -> page_zones st !! i = Some z ->
  MZONE_MIN spec i <= start -> start + n <= MZONE_MAX spec i + 1 ->
  0 < n -> start mod 4096 = 0 -> n mod 4096 = 0 ->
  (forall x, inside start n x -> ~ is_free st x) ->
  (has_zero attr = true -> zero_range (mem st) start n) ->
  exists before after root m',
    free_walk W start (z_root z) = Ret (before, after) /\
    match after with [] => true | iter :: _ => (start + n) mod W <=? r_start iter end = true /\
    free_link W (mem st) start n attr before after = Ret (root, m') /\
    forallb ASSERT_FREEPAGE root = true /\
    forall inuse avail alloc free,
      given st (set_mem (set_zone st i (mk_mzone root inuse avail alloc free)) m') start n.
Proof.
  intros Hi Hzl Hlo Hhi Hn Ha1 Ha2 Hd Hz. pose proof (zone_index spec st i z Hi Hzl) as Hix.
  pose proof (pi_ranges spec st Hi i z Hzl) as Hok. pose proof (pi_clean spec st Hi i z Hzl) as Hcl.
  pose proof (zs_bounds (W := W) i Hix) as [Hb1 Hb2].
  destruct (free_walk_ok (MZONE_MIN spec i) (MZONE_MAX spec i + 1) (z_root z) start n)
    as (bf & af & -> & El & Hbf & Haf); try done; try lia.
  { intros x Hx Hc. apply (Hd x Hx). by exists i, z. }
  rewrite El in Hok, Hcl.
  destruct (free_link_ok (MZONE_MIN spec i) (MZONE_MAX spec i + 1) (mem st) start n attr bf af)
    as (root & m' & E & Hr & Hc & Hcl' & Hm); try done; try lia.
  exists bf, af, root, m'. split; [done|]. split; [|split; [done|split]].
  - destruct af as [|r af]; [done|]. unfold PAGESIZE in *. rewrite Z.mod_small by lia. by apply Z.leb_le.
  - rewrite <- Is_true_true, forallb_True, Forall_forall. intros r Hin.
    apply Is_true_true, (range_facts W (MZONE_MIN spec i) (MZONE_MAX spec i + 1));
      [lia..|by eapply ranges_ok_elem].
  - intros inuse avail alloc free.
    destruct (update_zone W spec st i z (mk_mzone root inuse avail alloc free) m'
      (MZONE_MIN spec i) (MZONE_MAX spec i + 1 - MZONE_MIN spec i)) as [Hi' Hf']; try done; try lia.
    { intros a Ha. apply Hm. intros Hcv. apply (covered_bounds _ _ _ _ Hr) in Hcv.
      unfold inside in Ha. lia. }
    split; [done|]. split.
    + intros x. rewrite Hf'. destruct (decide _) as [Hx|Hx].
      * rewrite (free_in_zone W spec st i z x Hi Hzl Hx), El. apply Hc.
      * unfold inside. intuition lia.
    + intros x Hx. apply Hm. intros Hcv. apply Hx. rewrite Hf'.
      apply (covered_bounds _ _ _ _ Hr) in Hcv as ?. by rewrite decide_True by lia.
Qed.

Lemma zone_ffree_ok st i start n attr :
  pages_inv spec st -> (i < MZONE_REAL_COUNT spec)%nat ->
  MZONE_MIN spec i <= start -> start + n <= MZONE_MAX spec i + 1 ->
  0 < n -> start mod 4096 = 0 -> n mod 4096 = 0 ->
  (forall x, inside start n x -> ~ is_free st x) ->
  (has_zero attr = true -> zero_range (mem st) start n) ->
  exists st', zone_ffree W REF st i start n attr = Ret st' /\ given st st' start n.
Proof.
  intros Hi Hix Hlo Hhi Hn Ha1 Ha2 Hd Hz. unfold zone_ffree.
  destruct (pagezone_ok spec st i Hi Hix) as (z & Hzl & ->).
  rewrite (proj2 (Z.eqb_neq n 0)) by lia. cbn [negb oassert].
  unfold debug_verify_memory. rewrite !(proj2 (aligned_page _)) by done. cbn [oassert].
  replace (if has_zero attr then _ else Ret (mem st)) with (Ret (mem st)).
  2: { destruct (has_zero attr); [|done]. by rewrite (proj2 (zeroed_spec _ _ _ Ha1 Ha2)) by auto. }
  destruct (link_zone_ok st i z start n attr) as (bf & af & root & m' & E1 & E2 & E3 & E4 & Hg);
    try done.
  cbn [obind]. rewrite E1. cbn [obind]. rewrite E2. cbn [oassert]. rewrite E3. cbn [obind].
  rewrite E4. by eexists.
Qed.

Lemma given_join st st1 st2 a n1 n2 :
  0 <= n1 -> 0 <= n2 -> given st st1 (a + n1) n2 -> given st1 st2 a n1 -> given st st2 a (n1 + n2).
Proof.
  intros Hn1 Hn2 (Hi1 & Hf1 & Hm1) (Hi2 & Hf2 & Hm2). split; [done|]. split.
  - intros x. rewrite Hf2, Hf1. unfold inside. split; intuition lia.
  - intros x Hx. rewrite Hm2 by done. apply Hm1. intros H. apply Hx, Hf2. by left.
Qed.

(** The end of the physical memory the zones describe. *)
Definition phys_end : Z := MZONE_MAX spec (pred (MZONE_REAL_COUNT spec)) + 1.

Lemma phys_end_W : phys_end + PAGESIZE <= W.
Proof.
  pose proof (zs_count (W := W) (spec := spec)).
  pose proof (zs_bounds (W := W) (spec := spec) (pred (MZONE_REAL_COUNT spec)) ltac:(lia)).
  unfold phys_end. lia.
Qed.

Lemma phys_end_nonneg : 0 < phys_end.
Proof.
  pose proof (zs_count (W := W) (spec := spec)).
  pose proof (zs_bounds (W := W) (spec := spec) (pred (MZONE_REAL_COUNT spec)) ltac:(lia)).
  unfold phys_end. lia.
Qed.

Lemma phys_end_align : phys_end mod 4096 = 0.
Proof.
  pose proof (zs_count (W := W) (spec := spec)).
  by pose proof (zs_align (W := W) (spec := spec) (pred (MZONE_REAL_COUNT spec)) ltac:(lia)) as [_ ?].
Qed.

Lemma ffree_fuel_ok fuel st i start n attr :
  pages_inv spec st -> (i < MZONE_REAL_COUNT spec)%nat ->
  (MZONE_REAL_COUNT spec - i <= fuel)%nat ->
  MZONE_MIN spec i <= start <= MZONE_MAX spec i -> start mod 4096 = 0 ->
  0 <= n -> start + n <= phys_end ->
  (forall x, inside start (CEIL_ALIGN W n PAGESIZE) x -> ~ is_free st x) ->
  (has_zero attr = true -> zero_range (mem st) start (CEIL_ALIGN W n PAGESIZE)) ->
  exists st', page_ffree_fuel W REF spec fuel st start n attr = Ret st' /\
    given st st' start (CEIL_ALIGN W n PAGESIZE).
Proof.
  revert st i start n. induction fuel as [|fuel IH]; intros st i start n Hi Hix Hfu Hst Hal Hn Hend Hd Hz.
  { lia. }
  pose proof phys_end_W as HpW. pose proof phys_end_align as Hpa.
  pose proof (zs_bounds (W := W) i Hix) as [Hb1 Hb2]. pose proof (zs_align (W := W) i Hix) as [Hb3 Hb4].
  destruct (ceil_page W n Hn) as [Hc1 Hc2]; [unfold PAGESIZE in *; lia|].
  simpl page_ffree_fuel. destruct (Z.eqb_spec n 0) as [->|Hn0].
  { exists st. split; [done|].
    assert (CEIL_ALIGN W 0 PAGESIZE = 0) as -> by (apply ceil_page_id; unfold PAGESIZE in *; lia || done).
    split; [done|]. split; [|done]. intros x. unfold inside. intuition lia. }
  remember (CEIL_ALIGN W n PAGESIZE) as c eqn:Ec. unfold PAGESIZE in HpW, Hb2.
  assert (start + c <= phys_end) as Hce by mlia.
  rewrite (proj2 (aligned_page start) Hal). cbn [oassert].
  rewrite (zs_of (W := W) i start Hix Hst).
  rewrite (Z.mod_small (c - 1)), (Z.mod_small (start + (c - 1))), (Z.mod_small (start + c)),
    (Z.mod_small (start + c - 1)) by lia.
  rewrite (proj2 (Z.leb_le _ _)) by lia. cbn [oassert].
  destruct (Z.ltb_spec (MZONE_MAX spec i) (start + c - 1)) as [Hx|Hx].
  2: { by apply zone_ffree_ok; try done; try lia. }
  assert (S i < MZONE_REAL_COUNT spec)%nat as Hsi.
  { destruct (decide (S i = MZONE_REAL_COUNT spec)) as [E|]; [|lia].
    unfold phys_end in Hce. rewrite <- E in Hce. simpl in Hce. lia. }
  pose proof (zs_next (W := W) i Hsi) as Hnext.
  pose proof (zs_bounds (W := W) (S i) Hsi) as [Hb5 _].
  rewrite (Z.mod_small (MZONE_MAX spec i + 1 - start)) by lia.
  remember (MZONE_MAX spec i + 1 - start) as zo eqn:Ezo.
  assert (zo mod 4096 = 0) as Hzo by mlia.
  rewrite (proj2 (Z.eqb_neq zo 0)), (proj2 (Z.ltb_lt zo c)), (proj2 (aligned_page zo)) by lia.
  cbn [oassert negb].
  assert (CEIL_ALIGN W (c - zo) PAGESIZE = c - zo) as Ecz by (apply ceil_page_id; unfold PAGESIZE; mlia).
  destruct (IH st (S i) (start + zo) (c - zo)) as (st1 & -> & Hg1); try done; try lia.
  { mlia. }
  { intros x Hx'. rewrite Ecz in Hx'. apply Hd. unfold inside in *. lia. }
  { rewrite Ecz. intros Ha a Hpa' Hin. apply (Hz Ha a Hpa'). unfold inside in *. lia. }
  rewrite Ecz in Hg1. cbn [obind].
  rewrite (Z.mod_small (start + zo - 1)), (proj2 (Z.leb_le _ _)) by lia. cbn [oassert].
  pose proof Hg1 as (Hi1 & Hf1 & Hm1).
  assert (Hfr : forall x, inside start zo x -> ~ is_free st1 x).
  { intros x Hx' [Hfx|Hfx]%Hf1; [|unfold inside in *; lia]. apply (Hd x); [|done]. unfold inside in *. lia. }
  destruct (zone_ffree_ok st1 i start zo attr) as (st2 & -> & Hg2); try done; try lia.
  { intros Ha a Hpa' Hin. rewrite Hm1 by auto. apply (Hz Ha a Hpa'). unfold inside in *. lia. }
  exists st2. split; [done|]. replace c with (zo + (c - zo)) by lia. apply (given_join _ st1); try done; lia.
Qed.

Lemma zone_of_addr a : 0 <= a < phys_end ->
  exists i, (i < MZONE_REAL_COUNT spec)%nat /\ MZONE_MIN spec i <= a <= MZONE_MAX spec i.
Proof.
  intros [Ha Hb]. pose proof (zs_zero (W := W) (spec := spec)) as H0. unfold phys_end in Hb. pose proof (zs_count (W := W) (spec := spec)) as Hc.
  assert (forall k, (k < MZONE_REAL_COUNT spec)%nat -> a <= MZONE_MAX spec k ->
    exists i, (i < MZONE_REAL_COUNT spec)%nat /\ MZONE_MIN spec i <= a <= MZONE_MAX spec i) as H.
  { induction k as [|k IH]; intros Hk Hle; [exists 0%nat; lia|].
    destruct (Z.le_gt_cases (MZONE_MIN spec (S k)) a); [exists (S k); lia|].
    apply IH; [lia|]. rewrite (zs_next (W := W) k Hk) in *. lia. }
  apply (H (pred (MZONE_REAL_COUNT spec))); lia.
Qed.

End Free.

(** ** Allocation in an address window *)

Section MallocIn.

Context (W REF : Z) (spec : mzonespec) `{HZ : !ZoneSpec W spec}.

(** A block of [n] bytes that starts in [min..max] fits into [r]. *)
Definition fits (min max n : Z) (r : range) : Prop :=
  exists a, min <= a <= max /\ r_start r <= a /\ a + n <= r_end r.

(** The usable size the scan computes. *)
Definition usable (min max n : Z) (r : range) : Z :=
  Z.min (Z.min (r_end r) (max + n) - min) (p_size r).

Lemma fits_usable min max n r :
  min <= max -> 0 < n -> 0 < p_size r ->
  fits min max n r <-> r_start r <= max /\ min < r_end r /\ n <= usable min max n r.
Proof.
  intros Hm Hn Hp. unfold fits, usable, r_end. split.
  - intros (a & H1 & H2 & H3). lia.
  - intros (H1 & H2 & H3). exists (Z.max min (r_start r)). lia.
Qed.

Lemma scan_zone_ok lo hi min max n l best best_size :
  0 <= lo -> hi + PAGESIZE <= W -> ranges_ok lo hi l ->
  0 <= min <= max -> max + n < W -> 0 < n ->
  (best = None -> best_size = W - 1) ->
  exists best' size', scan_zone W min max n l best best_size = Ret (best', size') /\
    ((best' = best /\ size' = best_size) \/
     exists r, best' = Some r /\ r ∈ l /\ fits min max n r /\ size' = usable min max n r) /\
    (best' = None -> Forall (fun r => ~ fits min max n r) l).
Proof.
  intros Hlo Hhi Hok Hm Hmax Hn. revert lo best best_size Hlo Hok.
  induction l as [|r l IH]; intros lo best bs Hlo Hok Hbs.
  { eexists _, _. split; [done|]. split; [by left|]. by constructor. }
  destruct Hok as [Hr Hl]. destruct (range_facts W lo hi r Hlo Hhi Hr) as [Ha He].
  assert (Hlo' : 0 <= r_end r + 1) by (unfold range_ok, r_end in *; lia).
  simpl scan_zone. rewrite Ha, He. cbn [oassert]. unfold range_ok, PAGESIZE in Hr, Hhi.
  pose proof (fits_usable min max n r ltac:(lia) Hn ltac:(lia)) as Hfu.
  (* the tail of the list when [r] itself is no candidate *)
  assert (Hskip : (fits min max n r -> best <> None) ->
    exists best' size', scan_zone W min max n l best bs = Ret (best', size') /\
      ((best' = best /\ size' = bs) \/
       exists r', best' = Some r' /\ r' ∈ r :: l /\ fits min max n r' /\ size' = usable min max n r') /\
      (best' = None -> Forall (fun r => ~ fits min max n r) (r :: l))).
  { intros Hno. destruct (IH _ best bs Hlo' Hl Hbs) as (b' & s' & -> & Hb & Hnone).
    eexists _, _. split; [done|]. split.
    - destruct Hb as [Hb|(r' & H1 & H2 & H3)]; [by left|]. right. exists r'.
      rewrite elem_of_cons. tauto.
    - intros ->. apply Forall_cons. split; [|by apply Hnone]. intros Hfit.
      destruct Hb as [[<- _]|(r' & [=] & _)]. by apply Hno. }
  destruct (Z.ltb_spec max (r_start r)) as [H1|H1].
  { eexists _, _. split; [done|]. split; [by left|]. intros _. apply Forall_cons. split.
    - rewrite Hfu. lia.
    - apply Forall_forall. intros r' Hr' (a & Ha1 & Ha2 & _).
      pose proof (ranges_ok_elem _ _ _ _ Hl Hr') as Hr2. unfold range_ok, r_end in *. lia. }
  destruct (Z.leb_spec (r_end r) min) as [H2|H2]; [apply Hskip; rewrite Hfu; lia|].
  rewrite (Z.mod_small (max + n)) by lia.
  set (ie := if max + n <? r_end r then max + n else r_end r).
  assert (ie = Z.min (r_end r) (max + n)) as Eie by (subst ie; bcase; lia). clearbody ie. subst ie.
  rewrite (Z.mod_small (_ - min)) by (unfold r_end in *; lia).
  set (pa := if p_size r <? _ then p_size r else _).
  assert (pa = usable min max n r) as Epa by (subst pa; unfold usable; bcase; lia). clearbody pa. subst pa.
  destruct (Z.ltb_spec (usable min max n r) n) as [H3|H3]; [apply Hskip; rewrite Hfu; lia|].
  assert (Hfit : fits min max n r) by (apply Hfu; lia).
  destruct (Z.ltb_spec (usable min max n r) bs) as [H4|H4].
  2: { apply Hskip. intros _ ->. rewrite Hbs in H4 by done. unfold usable, r_end in *. lia. }
  destruct (Z.eqb_spec (usable min max n r) n).
  - eexists _, _. split; [done|]. split; [|done]. right. exists r.
    split; [done|]. split; [apply elem_of_cons; by left|]. done.
  - destruct (IH _ (Some r) (usable min max n r) Hlo' Hl) as (b' & s' & -> & Hb & Hnone); [done|].
    eexists _, _. split; [done|]. split.
    + right. destruct Hb as [[-> ->]|(r' & H5 & H6 & H7)]; [exists r|exists r'];
        rewrite elem_of_cons; tauto.
    + intros ->. destruct Hb as [[[=] _]|(r' & [=] & _)].
Qed.

Lemma clean_sub m b start size :
  clean m b -> r_start b < start -> start + size <= r_end b -> 0 < size ->
  clean (write_ctrl start m) (mk_range start size (p_attr b)).
Proof.
  intros Hc H1 H2 H3 Ha. destruct (Hc Ha) as [Hc1 Hc2]. unfold r_end in H2.
  cbn [r_start p_size]. split; intros a Hpa Hin.
  - rewrite (proj1 (write_ctrl_page _ _ _)). apply Hc1; [done|]. unfold inside in *. lia.
  - intros Hne. rewrite (proj2 (write_ctrl_page _ _ _)) by done.
    apply Hc2; [done|..]; unfold inside in *; lia.
Qed.

Lemma clean_low m m' b size :
  clean m b -> 0 < size <= p_size b ->
  (forall a, inside (r_start b) size a -> m' a = m a) ->
  clean m' (mk_range (r_start b) size (p_attr b)).
Proof.
  intros Hc Hs Hm. apply (clean_frame m); [exact Hm|]. intros Ha.
  destruct (Hc Ha) as [Hc1 Hc2]. cbn [r_start p_size].
  split; intros a Hpa Hin; [apply Hc1|intros Hne; apply Hc2]; try done; unfold inside in *; lia.
Qed.

(** Memory cut out of a clean range is zero, its controller aside. *)
Lemma clean_zero_above m m' b lo n :
  clean m b -> has_zero (p_attr b) = true -> r_start b < lo -> lo + n <= r_end b ->
  (forall a, inside lo n a -> m' a = m a) -> zero_range m' lo n.
Proof.
  intros Hc Hz Hlt Hhi Hm' a Hpa Hin. rewrite Hm' by done. destruct (Hc Hz) as [Hc1 Hc2].
  unfold r_end, inside in *. specialize (Hc1 a Hpa ltac:(lia)).
  specialize (Hc2 a Hpa ltac:(lia) ltac:(lia)). unfold zero_page. destruct (m a); simpl in *; by subst.
Qed.

Lemma clean_zero_cleared m m' b n :
  clean m b -> has_zero (p_attr b) = true -> n <= p_size b ->
  (forall a, inside (r_start b) n a -> m' a = m a) ->
  zero_range (clear_ctrl (r_start b) m') (r_start b) n.
Proof.
  intros Hc Hz Hhi Hm' a Hpa Hin. destruct (Hc Hz) as [Hc1 Hc2].
  assert (inside (r_start b) (p_size b) a) as Hin' by (unfold inside in *; lia).
  specialize (Hc1 a Hpa Hin'). unfold clear_ctrl. rewrite Hm' by done.
  destruct (Z.eqb_spec a (r_start b)) as [->|Hne]; [by rewrite Hc1|].
  specialize (Hc2 a Hpa Hin' Hne). unfold zero_page. destruct (m a); simpl in *; by subst.
Qed.

(** What [carve] leaves of the range, with the memory where it differs. *)
Lemma carve_ok m lo hi b result n best_size attr :
  range_ok lo hi b -> clean m b -> 0 < n -> n mod 4096 = 0 -> result mod 4096 = 0 ->
  r_start b <= result -> result + n <= r_end b -> (n = p_size b -> best_size = n) ->
  exists rest m', carve m b result n best_size attr = Ret (rest, m') /\
    ranges_ok (r_start b) (r_end b) rest /\
    (forall x, covered rest x <-> inside (r_start b) (p_size b) x /\ ~ inside result n x) /\
    Forall (clean m') rest /\
    (forall a, ~ inside (r_start b) (p_size b) a -> m' a = m a) /\
    (has_zero (p_attr b) = true -> has_zero attr = true -> zero_range m' result n).
Proof.
  intros Hb Hc Hn Ha1 Ha2 Hlo Hhi Hbs. unfold carve. unfold range_ok, r_end in Hb.
  destruct (Z.eqb_spec result (r_start b)) as [E|E].
  - set (cl := has_zero (p_attr b) && has_zero attr).
    destruct (Z.eqb_spec n (p_size b)) as [En|En].
    + rewrite (Hbs En), Z.eqb_refl. cbn [oassert]. eexists _, _. split; [done|].
      split; [done|]. split; [intros x; rewrite covered_nil; unfold inside; lia|]. split; [done|].
      split.
      * intros a Ha. destruct cl; [|done]. apply clear_ctrl_page. unfold inside in *. lia.
      * intros Hz1 Hz2. subst cl. rewrite Hz1, Hz2, E. apply (clean_zero_cleared m); try done. lia.
    + unfold r_end in Hhi. rewrite (proj2 (Z.ltb_lt _ _)) by lia. cbn [oassert].
      eexists _, _. split; [done|]. split; [|split; [|split; [|split]]].
      * simpl. split; [|done]. unfold range_ok, r_end. cbn [r_start p_size]. split_and!; try lia; mlia.
      * intros x. rewrite covered_cons, covered_nil. unfold inside. simpl. lia.
      * apply Forall_singleton.
        apply (clean_frame (write_ctrl (r_start b + n) m)).
        -- cbn [r_start p_size]. intros a Ha. destruct cl; [|done].
           apply clear_ctrl_page. unfold inside in *. lia.
        -- apply clean_sub; try done; unfold r_end; lia.
      * intros a Ha. assert (a <> r_start b + n /\ a <> r_start b) as [H1 H2] by (unfold inside in *; lia).
        transitivity (write_ctrl (r_start b + n) m a); [|by apply write_ctrl_page].
        destruct cl; [|done]. by apply (clear_ctrl_page (r_start b)).
      * intros Hz1 Hz2. subst cl. rewrite Hz1, Hz2, E. apply (clean_zero_cleared m); [done..|lia|].
        intros a Ha. apply write_ctrl_page. unfold inside in *. lia.
  - destruct (Z.eqb_spec (result + n) (r_start b + p_size b)) as [E2|E2]; cbn [negb].
    + eexists _, _. split; [done|]. split; [|split; [|split; [|split]]].
      * simpl. split; [|done]. unfold range_ok, r_end in *. cbn [r_start p_size]. split_and!; try lia; mlia.
      * intros x. rewrite covered_cons, covered_nil. unfold inside. simpl. lia.
      * apply Forall_singleton. apply (clean_low m); [done|lia|done].
      * done.
      * intros Hz1 Hz2. apply (clean_zero_above m m b); try done; unfold r_end; lia.
    + unfold r_end in Hhi. rewrite (proj2 (Z.ltb_lt _ _)) by lia. cbn [oassert].
      eexists _, _. split; [done|]. split; [|split; [|split; [|split]]].
      * simpl. unfold range_ok, r_end. cbn [r_start p_size]. split_and!; try lia; try mlia; done.
      * intros x. rewrite !covered_cons, covered_nil. unfold inside. simpl. lia.
      * rewrite Forall_cons, Forall_singleton. split.
        -- apply (clean_low m); [done|lia|]. intros a Ha. apply write_ctrl_page. unfold inside in *. lia.
        -- apply clean_sub; try done; unfold r_end; lia.
      * intros a Ha. apply write_ctrl_page. unfold inside in *. lia.
      * intros Hz1 Hz2. apply (clean_zero_above m _ b); try done; unfold r_end; [lia..|].
        intros a Ha. apply write_ctrl_page. unfold inside in *. lia.
Qed.

(** One zone's part of the work; zeroing is left to the caller where the range was
    not clean. *)
Lemma zone_malloc_in_ok st i min max n attr :
  pages_inv spec st -> (i < MZONE_REAL_COUNT spec)%nat ->
  0 <= min <= max -> max + n < W -> 0 < n -> n mod 4096 = 0 -> min mod 4096 = 0 -> max mod 4096 = 0 ->
  exists res st', zone_malloc_in W REF st i min max n attr = Ret (res, st') /\
    match res with
    | Some (a, must_clear) =>
        min <= a <= max /\
        taken spec st st' a n (if must_clear then PAGEATTR_NONE else attr) /\
        (must_clear = true -> has_zero attr = true)
    | None => st' = st /\
        forall z r, page_zones st !! i = Some z -> r ∈ z_root z -> ~ fits min max n r
    end.
Proof.
  intros Hi Hix Hm Hmax Hn Ha1 Ha2 Ha3. unfold zone_malloc_in.
  destruct (pagezone_ok spec st i Hi Hix) as (z & Hzl & ->). cbn [obind].
  pose proof (pi_ranges spec st Hi i z Hzl) as Hok.
  pose proof (zs_bounds (W := W) i Hix) as [Hb1 Hb2].
  destruct (scan_zone_ok (MZONE_MIN spec i) (MZONE_MAX spec i + 1) min max n (z_root z) None (W - 1))
    as (best & size & -> & Hbest & Hnone); try done; try lia.
  cbn [obind]. destruct best as [b|].
  2: { eexists _, _. split; [done|]. split; [done|]. intros z' r Hz' Hr. simplify_eq.
       specialize (Hnone eq_refl). rewrite Forall_forall in Hnone. auto. }
  destruct Hbest as [[[=] _]|(r & [= <-] & Hin & Hfit & ->)].
  pose proof (ranges_ok_elem _ _ _ _ Hok Hin) as Hbok.
  assert (clean (mem st) b) as Hcl.
  { pose proof (pi_clean spec st Hi i z Hzl) as Hc. rewrite Forall_forall in Hc. auto. }
  destruct (Hfit) as (a0 & Hf1 & Hf2 & Hf3). pose proof Hbok as (Hr1 & Hr2 & Hr3 & Hr4 & Hr5).
  unfold r_end in Hf3. rewrite (proj2 (Z.leb_le n (p_size b))) by lia. cbn [oassert].
  set (res := Z.min (r_end b - n) max).
  assert (res mod 4096 = 0) as Hra.
  { subst res. unfold r_end. destruct (Z.min_spec (r_start b + p_size b - n) max) as [[_ ->]|[_ ->]]; mlia. }
  assert (Hres : min <= res <= max /\ r_start b <= res /\ res + n <= r_end b)
    by (subst res; unfold r_end in *; lia).
  match goal with |- context [obind (if ?c then _ else _) _] =>
    assert ((if c then assert! r_start b <=? max;; assert! max <=? r_start b + p_size b;; Ret max
             else Ret (r_start b + (p_size b - n))) = Ret res) as ->
  end.
  { subst res. unfold r_end. destruct (Z.ltb_spec max (r_start b + (p_size b - n))).
    - rewrite !(proj2 (Z.leb_le _ _)) by lia. cbn [oassert]. f_equal. lia.
    - f_equal. lia. }
  cbn [obind]. clearbody res. unfold r_end in Hres.
  rewrite !(proj2 (Z.leb_le _ _)) by lia. cbn [oassert].
  destruct (carve_ok (mem st) (MZONE_MIN spec i) (MZONE_MAX spec i + 1) b res n (usable min max n b) attr)
    as (rest & m' & -> & Hrest & Hcov & Hcl' & Hm' & Hz'); try done; try (unfold r_end; lia).
  { intros ->. unfold usable, r_end. lia. }
  cbn [obind]. eexists _, _. split; [done|]. split; [lia|]. split; [|intros; bsimp; done].
  apply (carve_zone W spec st i z _ b rest); try done; try (unfold r_end; lia).
  destruct (has_zero (p_attr b)) eqn:Eb; cbn [negb andb]; [auto|].
  destruct (has_zero attr) eqn:Ea; [done|congruence].
Qed.

Lemma malloc_in_zones_ok count st i min max n attr :
  pages_inv spec st -> (i < MZONE_REAL_COUNT spec)%nat -> (count <= S i)%nat ->
  0 <= min <= max -> max + n < W -> 0 < n -> n mod 4096 = 0 -> min mod 4096 = 0 -> max mod 4096 = 0 ->
  exists res st', malloc_in_zones W REF count st i min max n attr = Ret (res, st') /\
    match res with
    | Some (a, must_clear) =>
        min <= a <= max /\
        taken spec st st' a n (if must_clear then PAGEATTR_NONE else attr) /\
        (must_clear = true -> has_zero attr = true)
    | None => st' = st /\
        forall j z r, (S i - count <= j <= i)%nat -> page_zones st !! j = Some z ->
                      r ∈ z_root z -> ~ fits min max n r
    end.
Proof.
  intros Hi. revert i. induction count as [|count IH]; intros i Hix Hcnt Hm Hmax Hn Ha1 Ha2 Ha3.
  { eexists _, _. split; [done|]. split; [done|]. intros. exfalso. lia. }
  simpl malloc_in_zones.
  destruct (zone_malloc_in_ok st i min max n attr) as (res & st' & -> & Hres); try done.
  cbn [obind]. destruct res as [[a mc]|]; [eexists _, _; split; [done|]; exact Hres|].
  destruct Hres as [-> Hno].
  destruct count as [|count].
  { eexists _, _. split; [done|]. split; [done|]. intros j z r Hj. assert (j = i) as -> by lia. apply Hno. }
  destruct (IH (pred i)) as (res & st' & -> & Hr); try done; try lia.
  eexists _, _. split; [done|]. destruct res as [[a mc]|]; [done|]. destruct Hr as [-> Hr].
  split; [done|]. intros j z r Hj. destruct (decide (j = i)) as [->|]; [apply Hno|]. apply Hr. lia.
Qed.

(** Changing only the memory that was taken. *)
Lemma taken_fill st st' a n attr attr' m' :
  taken spec st st' a n attr ->
  (forall x, ~ inside a n x -> m' x = mem st' x) ->
  (has_zero attr' = true -> zero_range m' a n) ->
  taken spec st (set_mem st' m') a n attr'.
Proof.
  intros (Hi & Hal & Hin & Hf & _ & Hm) Hm' Hz. split; [|split; [done|split; [done|]]].
  - destruct Hi as [H1 H2 H3]. split; [done|done|]. intros i z Hl. cbn [mem set_mem].
    apply (clean_frames (mem st')); [|by apply (H3 i)]. intros x Hx. apply Hm'.
    apply (proj1 (Hf x)). by exists i, z.
  - split; [exact Hf|]. split; [exact Hz|]. intros x Hx. cbn [mem set_mem].
    rewrite Hm'; [by apply Hm|]. intros Hx'. by apply Hx, Hin.
Qed.

End MallocIn.

(** ** The allocator's contract *)

Section Contract.

Context (W REF : Z) (spec : mzonespec) `{HZ : !ZoneSpec W spec}.

(** C10: best-fit allocation.  On a well-formed allocator [page_malloc] always
    returns: either page-aligned memory that was free, of the requested size
    rounded up to pages, taken out of the free memory and nothing else, zeroed
    when asked for, with all memory in use untouched, cut from the end of the
    smallest range that fits in the highest allowed zone that has one; or [PAGE_ERROR], and then
    no allowed zone has a free range that is large enough. *)
Theorem page_malloc_ok st n_bytes attr zone :
  pages_inv spec st -> 0 <= n_bytes -> (zone < MZONE_REAL_COUNT spec)%nat ->
  exists res st', page_malloc W REF st n_bytes attr zone = Ret (res, st') /\
    match res with
    | Some a => taken spec st st' a (CEIL_ALIGN W n_bytes PAGESIZE) attr /\
                n_bytes <= CEIL_ALIGN W n_bytes PAGESIZE /\
                best_fit st n_bytes zone (a + CEIL_ALIGN W n_bytes PAGESIZE)
    | None => st' = st /\
        forall i z r, (i <= zone)%nat -> page_zones st !! i = Some z -> r ∈ z_root z ->
                      p_size r < n_bytes
    end.
Proof. by apply malloc_ok. Qed.

Lemma ffree_ok st start n attr :
  pages_inv spec st -> 0 <= start -> start mod 4096 = 0 -> 0 <= n -> start + n <= phys_end spec ->
  (forall x, inside start (CEIL_ALIGN W n PAGESIZE) x -> ~ is_free st x) ->
  (has_zero attr = true -> zero_range (mem st) start (CEIL_ALIGN W n PAGESIZE)) ->
  exists st', page_ffree W REF spec st start n attr = Ret st' /\
    given spec st st' start (CEIL_ALIGN W n PAGESIZE).
Proof.
  intros Hi Hs Ha Hn He Hd Hz. pose proof (phys_end_W W spec) as HpW.
  destruct (Z.eq_dec n 0) as [->|Hn0].
  { exists st. split; [done|].
    rewrite (ceil_page_id W 0) by (unfold PAGESIZE in *; lia || done).
    split; [done|]. split; [|done]. intros x. unfold inside. intuition lia. }
  destruct (zone_of_addr W spec start) as (i & Hix & Hib); [lia|].
  apply (ffree_fuel_ok W REF spec _ st i); try done. lia.
Qed.

(** C18: freeing memory that is in use, and zero where that is promised, succeeds
    and adds exactly that memory to the free memory, across zone borders and
    with every merge of neighbouring ranges; memory still in use is untouched. *)
Theorem page_ffree_ok st start n attr :
  pages_inv spec st -> 0 <= start -> start mod 4096 = 0 -> 0 <= n -> start + n <= phys_end spec ->
  (forall x, inside start (CEIL_ALIGN W n PAGESIZE) x -> ~ is_free st x) ->
  (has_zero attr = true -> zero_range (mem st) start (CEIL_ALIGN W n PAGESIZE)) ->
  exists st', page_ffree W REF spec st start n attr = Ret st' /\
    given spec st st' start (CEIL_ALIGN W n PAGESIZE).
Proof. apply ffree_ok. Qed.

Lemma free_below_end st x : pages_inv spec st -> is_free st x -> 0 <= x < phys_end spec.
Proof.
  intros Hi (i & z & Hz & Hc). pose proof (zone_index spec st i z Hi Hz) as Hix.
  pose proof (covered_bounds _ _ _ _ (pi_ranges spec st Hi i z Hz) Hc) as Hb.
  pose proof (zs_bounds (W := W) i Hix) as [Hb1 _]. split; [lia|]. unfold phys_end.
  destruct (decide (i = pred (MZONE_REAL_COUNT spec))) as [->|Hne]; [lia|].
  pose proof (zones_monotone W spec i (pred (MZONE_REAL_COUNT spec)) ltac:(lia) ltac:(lia)).
  pose proof (zs_bounds (W := W) (spec := spec) (pred (MZONE_REAL_COUNT spec)) ltac:(lia)). lia.
Qed.

Lemma malloc_in_ok st min max n attr :
  pages_inv spec st -> 0 <= min <= max -> max < phys_end spec ->
  min mod 4096 = 0 -> max mod 4096 = 0 ->
  0 < n -> n + PAGESIZE <= W -> max + CEIL_ALIGN W n PAGESIZE < W ->
  exists res st', page_malloc_in W REF spec st min max n attr = Ret (res, st') /\
    match res with
    | Some a => min <= a <= max /\ taken spec st st' a (CEIL_ALIGN W n PAGESIZE) attr
    | None => st' = st /\
        forall i z r, page_zones st !! i = Some z -> r ∈ z_root z ->
                      ~ fits min max (CEIL_ALIGN W n PAGESIZE) r
    end.
Proof.
  intros Hi Hm He Ha1 Ha2 Hn HnW Hmx. unfold page_malloc_in.
  rewrite !(proj2 (aligned_page _)) by done. cbn [oassert].
  destruct (ceil_page W n ltac:(lia) HnW) as [Hc1 Hc2].
  remember (CEIL_ALIGN W n PAGESIZE) as c eqn:Ec.
  destruct (zone_of_addr W spec max) as (i & Hix & Hib); [lia|].
  destruct (zone_of_addr W spec min) as (j & Hjx & Hjb); [lia|].
  rewrite (zs_of (W := W) i max Hix Hib), (zs_of (W := W) j min Hjx Hjb).
  assert (j <= i)%nat as Hji.
  { destruct (Nat.le_gt_cases j i); [done|]. pose proof (zones_monotone W spec i j ltac:(lia) Hjx). lia. }
  destruct (malloc_in_zones_ok W REF spec (S i - j) st i min max c attr)
    as (res & st' & -> & Hres); try done; try lia.
  cbn [obind]. destruct res as [[a mc]|].
  - destruct Hres as (Hab & Ht & Hmc).
    rewrite !(proj2 (Z.leb_le _ _)) by lia. cbn [andb oassert].
    set (m1 := if mc then _ else _).
    destruct (verify_ok (mem st') m1 a c attr) as (m' & -> & Hz' & Hm').
    + apply Ht.
    + done.
    + subst m1. intros Hz. destruct mc; [intros x _ Hx; by apply mem_fill_in|].
      destruct Ht as (_ & _ & _ & _ & Htz & _). auto.
    + subst m1. intros x Hx. destruct mc; [by apply mem_fill_out|done].
    + cbn [obind]. eexists _, _. split; [done|]. split; [done|].
      by apply (taken_fill spec st st' a c (if mc then PAGEATTR_NONE else attr)).
  - destruct Hres as [-> Hno]. eexists _, _. split; [done|]. split; [done|].
    intros k z r Hz Hr. destruct (decide (S i - (S i - j) <= k <= i)%nat) as [Hk|Hk]; [by apply (Hno k z)|].
    intros (x & Hx1 & Hx2 & Hx3).
    pose proof (zone_index spec st k z Hi Hz) as Hkx.
    pose proof (ranges_ok_elem _ _ _ _ (pi_ranges spec st Hi k z Hz) Hr) as Hro.
    unfold range_ok in Hro. apply Hk.
    destruct (Nat.lt_ge_cases k j) as [H1|H1]; [pose proof (zones_monotone W spec k j H1 Hjx); lia|].
    destruct (Nat.le_gt_cases k i) as [H2|H2]; [lia|].
    pose proof (zones_monotone W spec i k H2 Hkx). lia.
Qed.

(** allocation in an address window.  The result starts in [min..max] and
    is taken like by [page_malloc]; on failure no free range has room for a
    block that starts in the window. *)
Theorem page_malloc_in_ok st min max n attr :
  pages_inv spec st -> 0 <= min <= max -> max < phys_end spec ->
  min mod 4096 = 0 -> max mod 4096 = 0 ->
  0 < n -> n + PAGESIZE <= W -> max + CEIL_ALIGN W n PAGESIZE < W ->
  exists res st', page_malloc_in W REF spec st min max n attr = Ret (res, st') /\
    match res with
    | Some a => min <= a <= max /\ taken spec st st' a (CEIL_ALIGN W n PAGESIZE) attr
    | None => st' = st /\
        forall i z r, page_zones st !! i = Some z -> r ∈ z_root z ->
                      ~ fits min max (CEIL_ALIGN W n PAGESIZE) r
    end.
Proof. apply malloc_in_ok. Qed.

Lemma taken_bounds st st' a n attr :
  pages_inv spec st -> taken spec st st' a n attr -> 0 < n -> 0 <= a /\ a + n <= phys_end spec.
Proof.
  intros Hi (_ & _ & Hin & _) Hn.
  pose proof (free_below_end st a Hi (Hin a ltac:(unfold inside; lia))).
  pose proof (free_below_end st (a + n - 1) Hi (Hin (a + n - 1) ltac:(unfold inside; lia))). lia.
Qed.

(** C22: freeing what [page_malloc] returned makes exactly the same memory free
    again and keeps all other memory. *)
Theorem page_malloc_free st n attr zone a st1 :
  pages_inv spec st -> 0 <= n -> (zone < MZONE_REAL_COUNT spec)%nat ->
  page_malloc W REF st n attr zone = Ret (Some a, st1) ->
  exists st2, page_ffree W REF spec st1 a (CEIL_ALIGN W n PAGESIZE) attr = Ret st2 /\
    pages_inv spec st2 /\ (forall x, is_free st2 x <-> is_free st x) /\
    (forall x, ~ is_free st x -> mem st2 x = mem st x).
Proof.
  intros Hi Hn Hz Heq.
  destruct (malloc_ok W REF spec st n attr zone Hi Hn Hz) as (res & st' & Heq' & Hres).
  rewrite Heq in Heq'. injection Heq' as <- <-. destruct Hres as (Ht & Hle & Hbf).
  pose proof (phys_end_W W spec) as HpW. pose proof Ht as (Hi1 & Hal & Hin & Hf & Hzr & Hm).
  remember (CEIL_ALIGN W n PAGESIZE) as c eqn:Ec.
  assert (Hc : c mod 4096 = 0 /\ (0 < c -> a + c <= phys_end spec) /\ (0 < c -> 0 <= a)).
  { split; [|split; intros Hp; by apply (taken_bounds st st1 a c attr)].
    subst c. apply ceil_page_mod. pose proof (phys_end_nonneg W spec). unfold PAGESIZE in *. lia. }
  destruct Hc as (Hca & Hce & Hc0).
  destruct (Z.eq_dec c 0) as [E0|E0].
  { exists st1. rewrite E0 in *. split; [done|]. split; [done|]. split; [|done].
    intros x. rewrite Hf. unfold inside. intuition lia. }
  assert (CEIL_ALIGN W c PAGESIZE = c) as Ecc by (apply ceil_page_id; [lia|unfold PAGESIZE in *; lia|done]).
  destruct (ffree_ok st1 a c attr) as (st2 & Hfr & Hg); rewrite ?Ecc; try done; try lia.
  { intros x Hx Hfx. apply Hf in Hfx. tauto. }
  rewrite Ecc in Hg. destruct Hg as (Hi2 & Hf2 & Hm2).
  assert (Heqf : forall x, is_free st2 x <-> is_free st x).
  { intros x. rewrite Hf2, Hf. specialize (Hin x). unfold inside in *.
    destruct (decide (a <= x < a + c)); tauto. }
  exists st2. split; [done|]. split; [done|]. split; [done|].
  intros x Hx. rewrite Hm2 by (by rewrite Heqf). by apply Hm.
Qed.

(** Giving back [d1] bytes below and [d2] bytes above the [c] bytes to keep. *)
Lemma trim_ok st st1 r d1 c d2 attr :
  pages_inv spec st -> taken spec st st1 r (d1 + c + d2) attr -> 0 < c -> 0 <= d1 -> 0 <= d2 ->
  d1 mod 4096 = 0 -> c mod 4096 = 0 -> d2 mod 4096 = 0 ->
  exists st2 st3, page_ffree W REF spec st1 r d1 attr = Ret st2 /\
    page_ffree W REF spec st2 (r + d1 + c) d2 attr = Ret st3 /\
    taken spec st st3 (r + d1) c attr.
Proof.
  intros Hi Ht Hc Hp1 Hp2 Hd1 Hca Hd2.
  destruct (taken_bounds st st1 r _ attr Hi Ht ltac:(lia)) as [Hr0 Hr1].
  pose proof (phys_end_W W spec) as HpW. pose proof Ht as (Hi1 & Hal & Hin & Hf & Hzr & Hm).
  assert (CEIL_ALIGN W d1 PAGESIZE = d1) as E1 by (apply ceil_page_id; [lia..|done]).
  assert (CEIL_ALIGN W d2 PAGESIZE = d2) as E2 by (apply ceil_page_id; [lia..|done]).
  destruct (ffree_ok st1 r d1 attr) as (st2 & Hfr1 & Hg1); rewrite ?E1; try done; try lia.
  { intros x Hx Hfx. apply Hf in Hfx as [_ Hfx]. apply Hfx. unfold inside in *. lia. }
  { intros Hza a Hpa Hia. apply (Hzr Hza a Hpa). unfold inside in *. lia. }
  rewrite E1 in Hg1. destruct Hg1 as (Hi2 & Hf2 & Hm2).
  assert (Hk2 : forall x, inside (r + d1) (c + d2) x -> ~ is_free st2 x).
  { intros x Hx [Hfx|Hfx]%Hf2; [apply Hf in Hfx as [_ Hfx]; apply Hfx|]; unfold inside in *; lia. }
  destruct (ffree_ok st2 (r + d1 + c) d2 attr) as (st3 & Hfr2 & Hg2);
    rewrite ?E2; try done; try lia; try mlia.
  { intros x Hx. apply Hk2. unfold inside in *. lia. }
  { intros Hza a Hpa Hia. rewrite Hm2 by (apply Hk2; unfold inside in *; lia).
    apply (Hzr Hza a Hpa). unfold inside in *. lia. }
  rewrite E2 in Hg2. destruct Hg2 as (Hi3 & Hf3 & Hm3). exists st2, st3. do 2 (split; [done|]).
  assert (Hf' : forall x, is_free st3 x <-> is_free st x /\ ~ inside (r + d1) c x).
  { intros x. rewrite Hf3, Hf2, Hf. specialize (Hin x). unfold inside in *.
    destruct (decide (r <= x < r + (d1 + c + d2))) as [Hx|Hx]; intuition lia. }
  assert (Hmm : forall x, ~ is_free st3 x -> mem st3 x = mem st1 x).
  { intros x Hx. rewrite Hm3 by done. apply Hm2. intros H. apply Hx, Hf3. by left. }
  split; [done|]. split; [mlia|]. split; [|split; [done|split]].
  - intros x Hx. apply Hin. unfold inside in *. lia.
  - intros Hza a Hpa Hia. rewrite Hmm by (rewrite Hf'; tauto). apply (Hzr Hza a Hpa).
    unfold inside in *. lia.
  - intros x Hx. rewrite Hmm by (rewrite Hf'; tauto). by apply Hm.
Qed.

Lemma memalign_ok st k n attr zone :
  pages_inv spec st -> 12 < k -> 0 < n -> n + PAGESIZE <= W -> (zone < MZONE_REAL_COUNT spec)%nat ->
  2 ^ k + PAGESIZE <= W ->
  exists res st', page_memalign W REF spec st (2 ^ k) n attr zone = Ret (res, st') /\
    match res with
    | Some a => a mod 2 ^ k = 0 /\ taken spec st st' a (CEIL_ALIGN W n PAGESIZE) attr
    | None => st' = st
    end.
Proof.
  intros Hi Hk Hn HnW Hz HkW. unfold page_memalign.
  assert (Hpk : exists q, 2 ^ k = 4096 * q /\ 1 < q).
  { exists (2 ^ (k - 12)). split; [change 4096 with (2 ^ 12); rewrite <- Z.pow_add_r by lia; f_equal; lia|].
    apply (Z.pow_gt_1 2); lia. }
  destruct Hpk as (q & Hq & Hq1).
  rewrite (proj2 (Z.leb_gt _ _)) by (unfold PAGESIZE; lia).
  assert (CEIL_ALIGN W (2 ^ k) PAGESIZE = 2 ^ k) as -> by (apply ceil_page_id; [lia|done|mlia]).
  destruct (ceil_page W n ltac:(lia) HnW) as [Hc1 Hc2].
  remember (CEIL_ALIGN W n PAGESIZE) as c eqn:Ec.
  destruct (Z.leb_spec W (2 ^ k + c)) as [Hov|Hov]; [by eexists _, _|].
  destruct (malloc_ok W REF spec st (2 ^ k + c) attr zone Hi ltac:(lia) Hz) as (res & st1 & -> & Hres).
  cbn [obind]. destruct res as [r|]; [|destruct Hres as [-> _]; by eexists _, _].
  destruct Hres as (Ht & Hle & _). pose proof (phys_end_W W spec) as HpW.
  destruct (taken_bounds st st1 r _ attr Hi Ht ltac:(lia)) as [Hr0 Hr1].
  unfold PAGESIZE in HpW. assert (CEIL_ALIGN W (2 ^ k + c) PAGESIZE = 2 ^ k + c) as Ect.
  { apply ceil_page_id; unfold PAGESIZE; [lia|lia|mlia]. }
  rewrite Ect in *. destruct (CEIL_ALIGN_bounds W r k ltac:(lia) Hr0) as [Ha1 Ha2]; [lia|].
  remember (CEIL_ALIGN W r (2 ^ k)) as ar eqn:Ear.
  assert (ar mod 4096 = 0) as Har.
  { rewrite Hq in Ha2. apply Z.mod_divide in Ha2 as [t Hta]; [|lia]. rewrite Hta.
    replace (t * (4096 * q)) with (t * q * 4096) by lia. apply Z.mod_mul. lia. }
  rewrite (Z.mod_small (ar - r)), (Z.mod_small (ar + c)), (Z.mod_small (r + _ - _)) by lia.
  pose proof Ht as (_ & Hal & _).
  destruct (trim_ok st st1 r (ar - r) c (2 ^ k - (ar - r)) attr) as (st2 & st3 & H1 & H2 & H3);
    try done; try lia; try mlia.
  { by replace (ar - r + c + (2 ^ k - (ar - r))) with (2 ^ k + c) by lia. }
  rewrite H1. cbn [obind]. replace (r + (ar - r)) with ar in * by lia.
  replace (r + (2 ^ k + c) - (ar + c)) with (2 ^ k - (ar - r)) by lia. rewrite H2. cbn [obind].
  by eexists _, _.
Qed.

(** aligned allocation.  For every power of two the result is a multiple of
    it, and exactly the requested memory stays allocated: what was allocated
    around it to reach the alignment is free again. *)
Theorem page_memalign_ok st k n attr zone :
  pages_inv spec st -> 0 <= k -> 0 < n -> n + PAGESIZE <= W -> (zone < MZONE_REAL_COUNT spec)%nat ->
  2 ^ k + PAGESIZE <= W ->
  exists res st', page_memalign W REF spec st (2 ^ k) n attr zone = Ret (res, st') /\
    match res with
    | Some a => a mod 2 ^ k = 0 /\ taken spec st st' a (CEIL_ALIGN W n PAGESIZE) attr
    | None => st' = st
    end.
Proof.
  intros Hi Hk Hn HnW Hz HkW. destruct (Z.le_gt_cases k 12) as [Hle|Hgt]; [|by apply memalign_ok].
  unfold page_memalign. rewrite (proj2 (Z.leb_le _ _)).
  2: { change PAGESIZE with (2 ^ 12). apply Z.pow_le_mono_r; lia. }
  destruct (malloc_ok W REF spec st n attr zone Hi ltac:(lia) Hz) as (res & st' & -> & Hres).
  eexists _, _. split; [done|]. destruct res as [a|]; [|by destruct Hres].
  destruct Hres as (Ht & _). split; [|done]. destruct Ht as (_ & Hal & _).
  apply Z.mod_divide in Hal as [t ->]; [|lia]. change 4096 with (2 ^ 12).
  replace 12 with ((12 - k) + k) by lia. rewrite Z.pow_add_r, Z.mul_assoc by lia.
  apply Z.mod_mul. lia.
Qed.

End Contract.

(** ** Concrete instances *)

(** A machine with 48 KiB of free memory above 1 MiB, 16 KiB of it zeroed. *)
Definition sample_mem (a : Z) : page_data :=
  if (0x200000 <=? a) && (a <? 0x204000) then mk_page (negb (a =? 0x200000)) true
  else dirty_page.
Definition sample_pages : pages :=
  mk_pages [mk_mzone [] 0 0 0 0;
            mk_mzone [mk_range 0x100000 0x8000 0; mk_range 0x200000 0x4000 1] 0 0xc000 0 0]
           sample_mem.

Lemma sample_pages_inv : pages_inv mzone_spec_i386 sample_pages.
Proof.
  split.
  - done.
  - intros [|[|i]] z [= <-]; simpl; [done|]. unfold range_ok, r_end. by vm_compute.
  - intros [|[|i]] z [= <-]; [done|]. apply Forall_cons; split; [by intros|].
    apply Forall_singleton. intros _. cbn [r_start p_size]. unfold inside, sample_pages, sample_mem.
    split; intros a _ Ha; cbn [mem]; rewrite (proj2 (Z.leb_le _ _)), (proj2 (Z.ltb_lt _ _)) by lia; [done|].
    intros Hne. cbn [andb ctrl_zero]. by rewrite (proj2 (Z.eqb_neq _ _)).
Qed.

Lemma sample_free x :
  is_free sample_pages x -> 0x100000 <= x < 0x108000 \/ 0x200000 <= x < 0x204000.
Proof.
  intros (i & z & Hz & Hc). destruct i as [|[|i]]; simpl in Hz; simplify_eq; simpl in Hc.
  - by apply covered_nil in Hc.
  - rewrite !covered_cons, covered_nil in Hc. unfold inside in Hc. simpl in Hc. lia.
Qed.

Lemma page_malloc_ok_witness :
  exists res st', page_malloc (2 ^ 32) (2 ^ 32) sample_pages 5000 PAGEATTR_ZERO 1 = Ret (res, st').
Proof.
  destruct (page_malloc_ok (2 ^ 32) (2 ^ 32) mzone_spec_i386 sample_pages 5000 PAGEATTR_ZERO 1)
    as (res & st' & H & _); [apply sample_pages_inv|lia|simpl; lia|]. by exists res, st'.
Defined.

Lemma page_ffree_ok_witness :
  exists st', page_ffree (2 ^ 32) (2 ^ 32) mzone_spec_i386 sample_pages 0x108000 0x1000 PAGEATTR_NONE
    = Ret st'.
Proof.
  destruct (page_ffree_ok (2 ^ 32) (2 ^ 32) mzone_spec_i386 sample_pages 0x108000 0x1000 PAGEATTR_NONE)
    as (st' & H & _); [apply sample_pages_inv|done..| |done|by exists st'].
  intros x Hx Hf. apply sample_free in Hf. change (inside 0x108000 0x1000 x) in Hx.
  unfold inside in Hx. lia.
Defined.

Lemma page_malloc_in_ok_witness :
  exists res st', page_malloc_in (2 ^ 32) (2 ^ 32) mzone_spec_i386 sample_pages 0x101000 0x104000 4096
    PAGEATTR_ZERO = Ret (res, st').
Proof.
  destruct (page_malloc_in_ok (2 ^ 32) (2 ^ 32) mzone_spec_i386 sample_pages 0x101000 0x104000 4096
    PAGEATTR_ZERO) as (res & st' & H & _); [apply sample_pages_inv|done..|]. by exists res, st'.
Defined.

Lemma page_malloc_free_witness :
  exists a st1 st2, page_malloc (2 ^ 32) (2 ^ 32) sample_pages 5000 PAGEATTR_ZERO 1 = Ret (Some a, st1) /\
    page_ffree (2 ^ 32) (2 ^ 32) mzone_spec_i386 st1 a (CEIL_ALIGN (2 ^ 32) 5000 PAGESIZE) PAGEATTR_ZERO
      = Ret st2.
Proof.
  assert (match page_malloc (2 ^ 32) (2 ^ 32) sample_pages 5000 PAGEATTR_ZERO 1 with
          | Ret (Some _, _) => true | _ => false end = true) as Hs by (vm_compute; reflexivity).
  destruct (page_malloc (2 ^ 32) (2 ^ 32) sample_pages 5000 PAGEATTR_ZERO 1) as [[[a|] st1]|] eqn:E;
    [|discriminate Hs..].
  destruct (page_malloc_free (2 ^ 32) (2 ^ 32) mzone_spec_i386 sample_pages 5000 PAGEATTR_ZERO 1
    a st1) as (st2 & H & _); [apply sample_pages_inv|lia|simpl; lia|exact E|].
  exists a, st1, st2. split; [reflexivity|exact H].
Defined.

Lemma page_memalign_ok_witness :
  exists res st', page_memalign (2 ^ 32) (2 ^ 32) mzone_spec_i386 sample_pages (2 ^ 14) 4096
    PAGEATTR_NONE 1 = Ret (res, st').
Proof.
  destruct (page_memalign_ok (2 ^ 32) (2 ^ 32) mzone_spec_i386 sample_pages 14 4096 PAGEATTR_NONE 1)
    as (res & st' & H & _); [apply sample_pages_inv|done|done|done|simpl; lia|done|]. by exists res, st'.
Defined.
