(* ===== verification/PageScatter.v ===== *)
(** * Clients of the page allocator (src/kernel/memory/memory.c,
      src/include/kernel/memory.h)

    Scattered allocation, reallocation, moving pages and the statistics, on top
    of [PageAlloc]. *)
From stdpp Require Import base numbers list.
From S2P Require Import Prelude Align PageAlloc.

(** ** Scatter chains

    A chain of [struct mscatter], head first: start address and size of each
    link.  The head is embedded in its owner, the other links are allocated. *)

Definition mscatter : Type := list (Z * Z).

(** [mscatter_takeone]: the page taken ([None] for [PAGE_ERROR]) and the chain. *)
Definition mscatter_takeone (self : mscatter) : outcome (option Z * mscatter) :=
  match self with
  | [] => Abort
  | (m_start, m_size) :: m_next =>
      if m_size =? 0 then Ret (None, self) else
      assert! IS_ALIGNED m_size PAGESIZE;;
      let head := (m_start + PAGESIZE, m_size - PAGESIZE) in
      if m_size - PAGESIZE =? 0 then
        match m_next with
        | free_next :: rest => Ret (Some m_start, free_next :: rest)
        | [] => Ret (Some m_start, [head])
        end
      else Ret (Some m_start, head :: m_next)
  end.

Fixpoint mscatter_size_loop (self : mscatter) (result : Z) : Z :=
  match self with
  | [] => result
  | (_, m_size) :: m_next => mscatter_size_loop m_next (result + m_size)
  end.
Definition mscatter_size (self : mscatter) : outcome Z :=
  match self with [] => Abort | _ => Ret (mscatter_size_loop self 0) end.

(** [mscatter_split_lo]: the chain [src] keeps the first [offset_from_src] bytes,
    [dst] gets the rest.  A zeroed [dst] is the empty link. *)
Fixpoint mscatter_split_loop (offset : Z) (src : mscatter) : outcome (mscatter * mscatter) :=
  match src with
  | [] => Abort
  | (m_start, m_size) :: m_next =>
      if m_size <? offset then
        let! (lo, dst) := mscatter_split_loop (offset - m_size) m_next in
        Ret ((m_start, m_size) :: lo, dst)
      else if offset =? m_size then
        match m_next with
        | [] => Ret ([(m_start, m_size)], [(0, 0)])
        | _ => Ret ([(m_start, m_size)], m_next)
        end
      else Ret ([(m_start, offset)], (m_start + offset, m_size - offset) :: m_next)
  end.
Definition mscatter_split_lo (offset_from_src : Z) (src : mscatter)
    : outcome (mscatter * mscatter) :=
  assert! IS_ALIGNED offset_from_src PAGESIZE;; mscatter_split_loop offset_from_src src.

(** [mscatter_cat]; [alloc] tells whether [kmalloc] returns memory. *)
Fixpoint mscatter_cat (alloc : bool) (dst src : mscatter) : outcome (bool * mscatter) :=
  match dst, src with
  | [], _ | _, [] => Abort
  | [(n_start, n_size)], (s_start, s_size) :: s_next =>
      if n_start + n_size =? s_start then Ret (true, (n_start, n_size + s_size) :: s_next)
      else if alloc then Ret (true, (n_start, n_size) :: src)
      else Ret (false, dst)
  | link :: rest, _ =>
      let! (ok, rest) := mscatter_cat alloc rest src in Ret (ok, link :: rest)
  end.

(** The copies [mscatter_memcpy] makes: destination, source and length.  The
    chains [dst] and [src] are the links behind the current ones. *)
Fixpoint memcpy_loop (fuel : nat) (dst_iter dst_size src_iter src_size : Z) (dst src : mscatter)
    : outcome (list (Z * Z * Z)) :=
  match fuel with
  | O => Abort
  | S fuel =>
      let cpy_size := Z.min src_size dst_size in
      let! rest :=
        match (if dst_size - cpy_size =? 0
               then match dst with [] => None | (s, n) :: dst => Some (s, n, dst) end
               else Some (dst_iter + cpy_size, dst_size - cpy_size, dst)) with
        | None => Ret []
        | Some (dst_iter, dst_size, dst) =>
            match (if src_size - cpy_size =? 0
                   then match src with [] => None | (s, n) :: src => Some (s, n, src) end
                   else Some (src_iter + cpy_size, src_size - cpy_size, src)) with
            | None => Ret []
            | Some (src_iter, src_size, src) =>
                memcpy_loop fuel dst_iter dst_size src_iter src_size dst src
            end
        end in
      Ret ((dst_iter, src_iter, cpy_size) :: rest)
  end.
(** Every round finishes a link of one of the chains. *)
Definition mscatter_memcpy (dst src : mscatter) : outcome (list (Z * Z * Z)) :=
  match dst, src with
  | (d_start, d_size) :: d_next, (s_start, s_size) :: s_next =>
      assert! eqb (negb (d_size =? 0)) (negb (s_size =? 0));;
      if s_size =? 0 then Ret []
      else memcpy_loop (length dst + length src) d_start d_size s_start s_size d_next s_next
  | _, _ => Abort
  end.

(** ** Moving pages *)

(** [MEMCPYX(dst,src,PAGESIZE/...)] *)
Definition copy_page (dst src : Z) (m : Z -> page_data) : Z -> page_data :=
  fun a => if a =? dst then m src else m a.

(** The loops, for a number of whole pages. *)
Fixpoint mov_lo_loop (count : nat) (dst src : Z) (m : Z -> page_data) : Z -> page_data :=
  match count with
  | O => m
  | S count => mov_lo_loop count (dst + PAGESIZE) (src + PAGESIZE) (copy_page dst src m)
  end.
Fixpoint mov_hi_loop (count : nat) (dst src : Z) (m : Z -> page_data) : Z -> page_data :=
  match count with
  | O => m
  | S count =>
      let dst := dst - PAGESIZE in
      let src := src - PAGESIZE in
      mov_hi_loop count dst src (copy_page dst src m)
  end.

Section Clients.

Variables (W REF : Z) (spec : mzonespec).

Definition mov_pages_lo (dst src n_bytes : Z) (m : Z -> page_data) : outcome (Z -> page_data) :=
  assert! dst <? src;;
  Ret (mov_lo_loop (Z.to_nat (CEIL_ALIGN W n_bytes PAGESIZE / PAGESIZE)) dst src m).
Definition mov_pages_hi (dst src n_bytes : Z) (m : Z -> page_data) : outcome (Z -> page_data) :=
  assert! src <? dst;;
  let n_bytes := CEIL_ALIGN W n_bytes PAGESIZE in
  Ret (mov_hi_loop (Z.to_nat (n_bytes / PAGESIZE)) (dst + n_bytes) (src + n_bytes) m).

(** [MEMCPYX] of whole pages. *)
Definition copy_pages (dst src n_bytes : Z) (m : Z -> page_data) : Z -> page_data :=
  fun a => if (dst <=? a) && (a <? dst + n_bytes) then m (a - dst + src) else m a.

(** ** Scattered allocation *)

(** The release loops of [page_malloc_scatter] and [page_free_scatter]. *)
Fixpoint page_free_scatter (st : pages) (self : mscatter) (attr : Z) : outcome pages :=
  match self with
  | [] => Ret st
  | (m_start, m_size) :: m_next =>
      let! st := page_ffree W REF spec st m_start m_size attr in
      page_free_scatter st m_next attr
  end.

(** The loop of [page_malloc_scatter]; [links] are the results of the [kmalloc]
    calls, [chain] the links behind the head.  [None] is the return value false. *)
Fixpoint scatter_loop (fuel : nat) (st : pages) (links : list bool)
    (n_bytes min_scatter attr : Z) (zone : nat) (chain : mscatter)
    : outcome (option mscatter * pages) :=
  match fuel with
  | O => Abort
  | S fuel =>
      assert! negb (n_bytes =? 0);;
      let! (part, st) := page_malloc_part W REF st min_scatter n_bytes attr zone in
      match part with
      | None =>
          let! st := page_free_scatter st ((W - 1, 0) :: chain) attr in Ret (None, st)
      | Some (m_start, m_size) =>
          assert! m_size <=? n_bytes;;
          assert! IS_ALIGNED m_size PAGESIZE;;
          assert! negb (m_size =? 0);;
          if n_bytes =? m_size then Ret (Some ((m_start, m_size) :: chain), st) else
          match links with
          | true :: links =>
              scatter_loop fuel st links (n_bytes - m_size) min_scatter attr zone
                ((m_start, m_size) :: chain)
          | _ =>
              let! st := page_free_scatter st ((m_start, m_size) :: chain) attr in Ret (None, st)
          end
      end
  end.

(** [page_malloc_scatter]; every round allocates at least one page.  [m_start] is
    the old value of the head's field, which an empty request leaves alone. *)
Definition page_malloc_scatter (st : pages) (links : list bool) (m_start n_bytes min_scatter attr : Z)
    (zone : nat) : outcome (option mscatter * pages) :=
  if n_bytes =? 0 then Ret (Some [(m_start, 0)], st) else
  let n_bytes := CEIL_ALIGN W n_bytes PAGESIZE in
  let min_scatter := CEIL_ALIGN W min_scatter PAGESIZE in
  let min_scatter := if n_bytes <? min_scatter then n_bytes else min_scatter in
  let min_scatter := if min_scatter =? 0 then PAGESIZE else min_scatter in
  scatter_loop (Z.to_nat (n_bytes / PAGESIZE)) st links n_bytes min_scatter attr zone [].

(** [page_malloc_all] is a stub. *)
Definition page_malloc_all (st : pages) (scatter : mscatter) (begin n_bytes attr : Z)
    : Z * pages := (-12, st).

(** ** Reallocation *)

Definition page_realloc_inplace (st : pages) (start old_bytes new_bytes attr : Z)
    : outcome (option Z * pages) :=
  if old_bytes =? 0 then Ret (None, st) else
  let old_bytes := CEIL_ALIGN W old_bytes PAGESIZE in
  let new_bytes := CEIL_ALIGN W new_bytes PAGESIZE in
  if new_bytes <? old_bytes then
    let! st := page_free W REF spec st (start + new_bytes) (old_bytes - new_bytes) in
    Ret (Some start, st)
  else if old_bytes <? new_bytes then
    let! (r, st) :=
      page_malloc_at W REF spec st ((start + old_bytes) mod W) (new_bytes - old_bytes) attr in
    match r with None => Ret (None, st) | Some _ => Ret (Some start, st) end
  else Ret (Some start, st).

Definition attr_nozero (attr : Z) : Z := Z.ldiff attr PAGEATTR_ZERO.

Definition page_realloc (st : pages) (start old_bytes new_bytes attr : Z) (zone : nat)
    : outcome (option Z * pages) :=
  if old_bytes =? 0 then page_malloc W REF st new_bytes attr zone else
  let old_bytes := CEIL_ALIGN W old_bytes PAGESIZE in
  let new_bytes := CEIL_ALIGN W new_bytes PAGESIZE in
  if new_bytes <? old_bytes then
    let! st := page_free W REF spec st (start + new_bytes) (old_bytes - new_bytes) in
    Ret (Some start, st)
  else if old_bytes <? new_bytes then
    let diff := new_bytes - old_bytes in
    assert! IS_ALIGNED diff PAGESIZE;;
    let! (above, st) := page_malloc_at W REF spec st ((start + old_bytes) mod W) diff attr in
    match above with
    | Some _ => Ret (Some start, st)
    | None =>
        let! (below, st) :=
          page_malloc_at W REF spec st ((start - diff) mod W) diff (attr_nozero attr) in
        match below with
        | Some result =>
            let! m := mov_pages_lo result start old_bytes (mem st) in
            let m := if has_zero attr then mem_fill (result + old_bytes) diff zero_page m else m in
            Ret (Some result, set_mem st m)
        | None =>
            let lazy := has_zero attr && (diff <? old_bytes) in
            let! (r, st) :=
              page_malloc W REF st new_bytes (if lazy then attr_nozero attr else attr) zone in
            match r with
            | None => Ret (None, st)
            | Some result =>
                let m := if lazy then mem_fill (result + old_bytes) diff zero_page (mem st)
                         else mem st in
                assert! IS_ALIGNED old_bytes PAGESIZE;;
                let m := copy_pages result start old_bytes m in
                let! st := page_free W REF spec (set_mem st m) start old_bytes in
                Ret (Some result, st)
            end
        end
    end
  else Ret (Some start, st).

(** ** Statistics *)

Record mzstat : Type := mk_mzstat {
  mz_avail : Z; mz_inuse : Z; mz_freemin : Z; mz_freemax : Z;
  mz_zeromin : Z; mz_zeromax : Z; mz_freeblk : Z; mz_zeroblk : Z
}.

(** One free range; the counters start from what [m_zones] held before. *)
Definition stat_range (iter : range) (zi : mzstat) : mzstat :=
  let size := p_size iter in
  let zero := has_zero (p_attr iter) in
  mk_mzstat (mz_avail zi) (mz_inuse zi)
    (if size <? mz_freemin zi then size else mz_freemin zi)
    (if mz_freemax zi <? size then size else mz_freemax zi)
    (if zero && (size <? mz_zeromin zi) then size else mz_zeromin zi)
    (if zero && (mz_zeromax zi <? size) then size else mz_zeromax zi)
    ((mz_freeblk zi + 1) mod W)
    (if zero then (mz_zeroblk zi + 1) mod W else mz_zeroblk zi).

Definition none_to_zero (x : Z) : Z := if x =? W - 1 then 0 else x.

Definition stat_finish (zi : mzstat) : mzstat :=
  mk_mzstat (mz_avail zi) (mz_inuse zi) (none_to_zero (mz_freemin zi)) (mz_freemax zi)
    (none_to_zero (mz_zeromin zi)) (mz_zeromax zi) (mz_freeblk zi) (mz_zeroblk zi).

Fixpoint stat_ranges (l : list range) (zi : mzstat) : outcome mzstat :=
  match l with
  | [] => Ret zi
  | iter :: next => assert! ASSERT_FREEPAGE iter;; stat_ranges next (stat_range iter zi)
  end.

Definition stat_total (zi total : mzstat) : mzstat :=
  mk_mzstat ((mz_avail total + mz_avail zi) mod W) ((mz_inuse total + mz_inuse zi) mod W)
    (if mz_freemin zi <? mz_freemin total then mz_freemin zi else mz_freemin total)
    (if mz_freemax total <? mz_freemax zi then mz_freemax zi else mz_freemax total)
    (if mz_zeromin zi <? mz_zeromin total then mz_zeromin zi else mz_zeromin total)
    (if mz_zeromax total <? mz_zeromax zi then mz_zeromax zi else mz_zeromax total)
    ((mz_freeblk total + mz_freeblk zi) mod W) ((mz_zeroblk total + mz_zeroblk zi) mod W).

(** [page_stat] on zones and the old contents of [m_zones]: the zones' results
    and the total. *)
Fixpoint stat_zones (zones : list mzone) (old : list mzstat) (total : mzstat)
    : outcome (list mzstat * mzstat) :=
  match zones, old with
  | [], _ => Ret ([], total)
  | _, [] => Abort
  | zone :: zones, zi :: old =>
      let zi := mk_mzstat (z_avail zone) (z_inuse zone) (mz_freemin zi) (mz_freemax zi)
                  (mz_zeromin zi) (mz_zeromax zi) (mz_freeblk zi) (mz_zeroblk zi) in
      let! zi := stat_ranges (z_root zone) zi in
      let! (rest, total) := stat_zones zones old (stat_total zi total) in
      Ret (stat_finish zi :: rest, total)
  end.
Definition page_stat (st : pages) (m_zones : list mzstat) : outcome (list mzstat * mzstat) :=
  let! (zs, total) := stat_zones (page_zones st) m_zones (mk_mzstat 0 0 (W - 1) 0 (W - 1) 0 0 0) in
  Ret (zs, stat_finish total).

(** Free bytes of one zone in [start..check_end). *)
Fixpoint available_loop (start check_end : Z) (l : list range) (result : Z) : outcome Z :=
  match l with
  | [] => Ret result
  | iter :: next =>
      assert! ASSERT_FREEPAGE iter;;
      let page_end := PAGE_END W iter in
      if page_end <=? start then available_loop start check_end next result
      else if check_end <=? r_start iter then Ret result
      else available_loop start check_end next
             ((result + (Z.min page_end check_end - Z.max (r_start iter) start)) mod W)
  end.
Definition page_do_available (st : pages) (zoneid : nat) (start n_bytes : Z) : outcome Z :=
  let! zone := PAGEZONE st zoneid in
  available_loop start ((start + n_bytes) mod W) (z_root zone) 0.

(** Zones [zone], [zone+1], ..., [count] of them. *)
Fixpoint available_zones (count : nat) (st : pages) (zone : nat) (start n_bytes result : Z)
    : outcome Z :=
  match count with
  | O => Ret result
  | S count =>
      if (MZONE_MIN spec zone <=? start) && (start <=? MZONE_MAX spec zone) then
        let zone_bytes := (MZONE_MAX spec zone + 1 - start) mod W in
        let zone_bytes := if n_bytes <? zone_bytes then n_bytes else zone_bytes in
        let! part := page_do_available st zone start zone_bytes in
        let result := (result + part) mod W in
        if n_bytes - zone_bytes =? 0 then Ret result
        else available_zones count st (S zone) (start + zone_bytes) (n_bytes - zone_bytes) result
      else available_zones count st (S zone) start n_bytes result
  end.
Definition page_available (st : pages) (start n_bytes : Z) : outcome Z :=
  assert! IS_ALIGNED start PAGESIZE;;
  assert! IS_ALIGNED n_bytes PAGESIZE;;
  available_zones (MZONE_REAL_COUNT spec) st 0 start n_bytes 0.

(** [page_query]: the variable [found] is never set. *)
Fixpoint query_loop (start addr_end found : Z) (l : list range) (result : Z) : outcome Z :=
  match l with
  | [] => Ret result
  | iter :: next =>
      assert! ASSERT_FREEPAGE iter;;
      let result :=
        if (r_start iter <=? addr_end) && (start <? PAGE_END W iter) then
          let r := Z.land (Z.lor result (p_attr iter)) (Z.shiftl (p_attr iter) PAGEATTR_ALLSHIFT) in
          if negb (found =? 0) && negb (start =? r_start iter) then Z.ldiff r PAGEATTR_ALLFREE else r
        else result in
      query_loop start addr_end found next result
  end.
Fixpoint query_zones (count : nat) (st : pages) (zone : nat) (start addr_end found result : Z)
    : outcome Z :=
  match count with
  | O => Ret result
  | S count =>
      let! z := PAGEZONE st zone in
      let! result := query_loop start addr_end found (z_root z) result in
      query_zones count st (S zone) start addr_end found result
  end.
Definition page_query (st : pages) (start n_bytes : Z) : outcome Z :=
  let found := 0 in
  let addr_end := (start + n_bytes) mod W in
  let z_iter := mzone_of spec start in
  let z_end := S (mzone_of spec ((addr_end - 1) mod W)) in
  let! result :=
    if n_bytes =? 0 then Ret (Z.lor PAGEATTR_ALLZERO PAGEATTR_ALLFREE)
    else query_zones (z_end - z_iter)%nat st z_iter start addr_end found
           (Z.lor PAGEATTR_ALLZERO PAGEATTR_ALLFREE) in
  Ret (if found =? 0 then PAGEATTR_NONE else result).

End Clients.

(** ** Chains as lists of pages *)

Definition link_pages (link : Z * Z) : list Z :=
  (fun i => link.1 + i * PAGESIZE) <$> seqZ 0 (link.2 / PAGESIZE).
Definition chain_pages (c : mscatter) : list Z := mjoin (link_pages <$> c).

Definition link_ok (link : Z * Z) : Prop := 0 < link.2 /\ link.2 mod 4096 = 0.

Lemma chain_pages_cons link c : chain_pages (link :: c) = link_pages link ++ chain_pages c.
Proof. done. Qed.

Lemma link_pages_split s n k :
  0 <= k <= n -> k mod 4096 = 0 -> n mod 4096 = 0 ->
  link_pages (s, n) = link_pages (s, k) ++ link_pages (s + k, n - k).
Proof.
  intros Hk Ha Hb. unfold link_pages, PAGESIZE. cbn [fst snd].
  replace (n / 4096) with (k / 4096 + (n - k) / 4096) by mlia.
  rewrite seqZ_app, fmap_app by mlia. f_equal.
  rewrite Z.add_0_l. replace (seqZ (k / 4096) ((n - k) / 4096))
    with (Z.add (k / 4096) <$> seqZ 0 ((n - k) / 4096)) by (rewrite fmap_add_seqZ; f_equal; lia).
  rewrite <- list_fmap_compose. apply list_fmap_ext.
  intros i x _. simpl. mlia.
Qed.

Lemma link_pages_empty s : link_pages (s, 0) = [].
Proof. done. Qed.

Lemma link_pages_len s n : 0 <= n -> n mod 4096 = 0 -> zlen (link_pages (s, n)) * PAGESIZE = n.
Proof.
  intros Hn Ha. unfold zlen, link_pages, PAGESIZE. rewrite length_fmap, length_seqZ. simpl. mlia.
Qed.

(** What is left of a chain that pages are taken from: its pages, or a head that
    is used up. *)
Definition left_in (c : mscatter) (ps : list Z) : Prop :=
  chain_pages c = ps /\ c <> [] /\ (Forall link_ok c \/ exists s, c = [(s, 0)]).

Lemma link_pages_first s n :
  link_ok (s, n) -> link_pages (s, n) = s :: link_pages (s + PAGESIZE, n - PAGESIZE).
Proof.
  intros [Hp Ha]. simpl in Hp, Ha.
  rewrite (link_pages_split s n PAGESIZE) by (unfold PAGESIZE in *; mlia). unfold link_pages at 1.
  cbn [fst snd]. change (PAGESIZE / PAGESIZE) with 1. change (seqZ 0 1) with [0].
  cbn [fmap list_fmap app]. f_equal. lia.
Qed.

(** Taking one page off a scatter chain returns its first page and leaves the
    others in order. *)
Lemma takeone_ok c p ps :
  left_in c (p :: ps) -> exists c', mscatter_takeone c = Ret (Some p, c') /\ left_in c' ps.
Proof.
  intros (Hp & Hne & [Hok|[s ->]]); [|done]. destruct c as [|[s n] c]; [done|].
  apply Forall_cons in Hok as [Hl Hok]. rewrite chain_pages_cons, (link_pages_first s n Hl) in Hp.
  destruct Hl as [Hn Ha]. simpl in Hn, Ha. unfold mscatter_takeone.
  rewrite (proj2 (Z.eqb_neq n 0)), (proj2 (aligned_page n)) by (done || lia). cbn [oassert].
  injection Hp as <- Hp. destruct (Z.eqb_spec (n - PAGESIZE) 0) as [E|E].
  - rewrite E, link_pages_empty in Hp. rewrite E. destruct c as [|link c].
    + eexists. split; [done|]. split; [done|]. split; [done|]. right. by eexists.
    + eexists. split; [done|]. split; [done|]. split; [done|]. by left.
  - eexists. split; [done|]. split; [done|]. split; [done|].
    left. apply Forall_cons. split; [|done]. unfold link_ok, PAGESIZE in *. simpl. mlia.
Qed.

Lemma left_in_nil c : left_in c [] -> exists s, c = [(s, 0)].
Proof.
  intros (Hp & Hne & [Hok|Hs]); [|done]. destruct c as [|[s n] c]; [done|].
  apply Forall_cons in Hok as [Hl _]. by rewrite chain_pages_cons, (link_pages_first s n Hl) in Hp.
Qed.

Lemma split_loop_ok c off :
  Forall link_ok c -> 0 < off -> off mod 4096 = 0 -> off <= zlen (chain_pages c) * PAGESIZE ->
  exists lo hi, mscatter_split_loop off c = Ret (lo, hi) /\
    chain_pages c = chain_pages lo ++ chain_pages hi /\
    zlen (chain_pages lo) * PAGESIZE = off /\ lo <> [] /\ hi <> [].
Proof.
  intros Hok. revert off. induction Hok as [|[s n] c [Hp Ha] Hok IH]; intros off Hoff Hal Hle.
  { change (zlen (chain_pages [])) with 0 in Hle. lia. }
  simpl in Hp, Ha. pose proof (link_pages_len s n ltac:(lia) Ha) as Hlen.
  rewrite chain_pages_cons, zlen_app, Z.mul_add_distr_r, Hlen in Hle. simpl mscatter_split_loop.
  destruct (Z.ltb_spec n off) as [H1|H1].
  - destruct (IH (off - n)) as (lo & hi & -> & Hc & Hz & Hn1 & Hn2); [lia|mlia|lia|].
    cbn [obind]. eexists _, _. split; [done|]. rewrite !chain_pages_cons, Hc, app_assoc.
    split; [done|]. rewrite zlen_app, Z.mul_add_distr_r, Hlen, Hz. split; [lia|done].
  - destruct (Z.eqb_spec off n) as [->|Hne].
    + destruct c as [|link c]; (eexists _, _; split; [done|]);
        rewrite !chain_pages_cons; change (chain_pages []) with (@nil Z);
        rewrite ?link_pages_empty, !app_nil_r; done.
    + eexists _, _. split; [done|]. rewrite !chain_pages_cons. change (chain_pages []) with (@nil Z).
      rewrite app_nil_r, (link_pages_split s n off) by (done || lia). rewrite app_assoc.
      split; [done|]. rewrite link_pages_len by (done || lia). done.
Qed.

(** Splitting a chain at a page offset keeps every page, in order: the first
    [off] bytes stay, the rest moves to the new chain. *)
Theorem mscatter_split_lo_ok c off :
  Forall link_ok c -> 0 < off -> off mod 4096 = 0 -> off <= zlen (chain_pages c) * PAGESIZE ->
  exists lo hi, mscatter_split_lo off c = Ret (lo, hi) /\
    chain_pages c = chain_pages lo ++ chain_pages hi /\
    zlen (chain_pages lo) * PAGESIZE = off.
Proof.
  intros Hok Hoff Hal Hle. unfold mscatter_split_lo. rewrite (proj2 (aligned_page off) Hal).
  cbn [oassert]. destruct (split_loop_ok c off) as (lo & hi & ? & ? & ? & _); eauto.
Qed.

(** Appending one chain to another keeps the order of all pages; without
    memory for a link the destination is unchanged. *)
Theorem mscatter_cat_ok alloc dst src :
  dst <> [] -> src <> [] -> Forall link_ok dst -> Forall link_ok src ->
  exists ok c, mscatter_cat alloc dst src = Ret (ok, c) /\
    (if ok then chain_pages c = chain_pages dst ++ chain_pages src else c = dst /\ alloc = false).
Proof.
  intros Hd Hs Hok1 Hok2. destruct src as [|[ss sn] src]; [done|].
  apply Forall_cons in Hok2 as [[Hsp Hsa] Hok2]. simpl in Hsp, Hsa.
  induction Hok1 as [|[s n] dst [Hp Ha] Hok1 IH]; [done|]. simpl in Hp, Ha.
  destruct dst as [|link dst].
  - simpl mscatter_cat. destruct (Z.eqb_spec (s + n) ss) as [<-|Hne].
    + eexists _, _. split; [done|]. cbn iota. rewrite !chain_pages_cons.
      change (chain_pages []) with (@nil Z). rewrite app_nil_r.
      rewrite (link_pages_split s (n + sn) n) by mlia. replace (n + sn - n) with sn by lia.
      by rewrite app_assoc.
    + destruct alloc; eexists _, _; (split; [done|]); cbn iota; [|done].
      rewrite !chain_pages_cons. change (chain_pages []) with (@nil Z). by rewrite app_nil_r.
  - destruct IH as (ok & c & Heq & Hc); [done|].
    change (mscatter_cat alloc ((s, n) :: link :: dst) ((ss, sn) :: src)) with
      (let! (ok, rest) := mscatter_cat alloc (link :: dst) ((ss, sn) :: src) in
       Ret (ok, (s, n) :: rest)).
    rewrite Heq. cbn [obind]. eexists _, _. split; [done|].
    destruct ok; [|by destruct Hc as [-> ->]]. rewrite chain_pages_cons, Hc.
    rewrite (chain_pages_cons (s, n)). by rewrite app_assoc.
Qed.

(** The page-to-page copies of a list of block copies. *)
Definition copy_pairs (l : list (Z * Z * Z)) : list (Z * Z) :=
  mjoin ((fun '(d, s, n) => zip (link_pages (d, n)) (link_pages (s, n))) <$> l).

Lemma chain_pages_pos c : Forall link_ok c -> c <> [] -> 0 < zlen (chain_pages c).
Proof.
  intros Hok Hne. destruct Hok as [|[s n] c [Hp Ha] Hok]; [done|]. simpl in Hp, Ha.
  rewrite chain_pages_cons, zlen_app. pose proof (zlen_nonneg (chain_pages c)).
  pose proof (link_pages_len s n ltac:(lia) Ha). unfold PAGESIZE in *. lia.
Qed.

Lemma link_pages_length s1 s2 n : length (link_pages (s1, n)) = length (link_pages (s2, n)).
Proof. unfold link_pages. by rewrite !length_fmap. Qed.

(** The rest of a link after [k] bytes of it, with the links behind it. *)
Lemma chain_advance s n k c :
  0 <= k <= n -> k mod 4096 = 0 -> n mod 4096 = 0 ->
  chain_pages ((s, n) :: c) = link_pages (s, k) ++
    (if n - k =? 0 then chain_pages c else chain_pages ((s + k, n - k) :: c)).
Proof.
  intros Hk Ha Hb. rewrite chain_pages_cons, (link_pages_split s n k), <- app_assoc by done.
  f_equal. destruct (Z.eqb_spec (n - k) 0) as [->|]; [|done]. by rewrite link_pages_empty.
Qed.

Lemma memcpy_loop_ok fuel di ds si ss dst src :
  (length dst + length src < fuel)%nat -> Forall link_ok ((di, ds) :: dst) ->
  Forall link_ok ((si, ss) :: src) ->
  zlen (chain_pages ((di, ds) :: dst)) = zlen (chain_pages ((si, ss) :: src)) ->
  exists l, memcpy_loop fuel di ds si ss dst src = Ret l /\
    copy_pairs l = zip (chain_pages ((di, ds) :: dst)) (chain_pages ((si, ss) :: src)).
Proof.
  revert di ds si ss dst src. induction fuel as [|fuel IH]; intros di ds si ss dst src Hf Hd Hs Hlen; [lia|].
  simpl memcpy_loop. remember (Z.min ss ds) as k eqn:Ek.
  pose proof Hd as [[Hd1 Hd2] Hd']%Forall_cons. pose proof Hs as [[Hs1 Hs2] Hs']%Forall_cons.
  simpl in Hd1, Hd2, Hs1, Hs2.
  assert (k mod 4096 = 0) as Hk by (destruct (Z.min_spec ss ds) as [[_ E]|[_ E]]; by rewrite Ek, E).
  rewrite (chain_advance di ds k dst) in Hlen |- * by (done || lia).
  rewrite (chain_advance si ss k src) in Hlen |- * by (done || lia).
  rewrite zip_with_app by (apply link_pages_length).
  rewrite !zlen_app in Hlen.
  assert (zlen (link_pages (di, k)) = zlen (link_pages (si, k))) as El
    by (unfold zlen; f_equal; apply link_pages_length).
  rewrite El in Hlen. apply Z.add_reg_l in Hlen.
  assert (Hres : forall r l', copy_pairs l' = r ->
    copy_pairs ((di, si, k) :: l') = zip (link_pages (di, k)) (link_pages (si, k)) ++ r)
    by (by intros r l' <-).
  assert (Hdk : ds - k <> 0 -> Forall link_ok ((di + k, ds - k) :: dst))
    by (intros; apply Forall_cons; split; [split; simpl; [lia|mlia]|done]).
  assert (Hsk : ss - k <> 0 -> Forall link_ok ((si + k, ss - k) :: src))
    by (intros; apply Forall_cons; split; [split; simpl; [lia|mlia]|done]).
  destruct (Z.eqb_spec (ds - k) 0) as [E1|E1], (Z.eqb_spec (ss - k) 0) as [E2|E2]; try lia.
  - destruct dst as [|[d1 n1] dst], src as [|[s2 n2] src]; cbn [obind].
    + eexists. split; [done|]. by apply Hres.
    + pose proof (chain_pages_pos _ Hs' ltac:(done)). change (zlen (chain_pages [])) with 0 in Hlen. lia.
    + pose proof (chain_pages_pos _ Hd' ltac:(done)). change (zlen (chain_pages [])) with 0 in Hlen. lia.
    + destruct (IH d1 n1 s2 n2 dst src) as (l & -> & Hl); [simpl in *; lia|done..|].
      cbn [obind]. eexists. split; [done|]. by apply Hres.
  - destruct dst as [|[d1 n1] dst]; cbn [obind].
    + pose proof (chain_pages_pos _ (Hsk E2) ltac:(done)).
      change (zlen (chain_pages [])) with 0 in Hlen. lia.
    + destruct (IH d1 n1 (si + k) (ss - k) dst src) as (l & -> & Hl);
        [simpl in *; lia|done|by apply Hsk|done|].
      cbn [obind]. eexists. split; [done|]. by apply Hres.
  - destruct src as [|[s2 n2] src]; cbn [obind].
    + pose proof (chain_pages_pos _ (Hdk E1) ltac:(done)).
      change (zlen (chain_pages [])) with 0 in Hlen. lia.
    + destruct (IH (di + k) (ds - k) s2 n2 dst src) as (l & -> & Hl);
        [simpl in *; lia|by apply Hdk|done..|].
      cbn [obind]. eexists. split; [done|]. by apply Hres.
Qed.

(** copying between two chains of the same total size copies the i-th page
    of the source to the i-th page of the destination, for every i, however the
    two chains are cut into links. *)
Theorem mscatter_memcpy_ok dst src :
  dst <> [] -> src <> [] -> Forall link_ok dst -> Forall link_ok src ->
  zlen (chain_pages dst) = zlen (chain_pages src) ->
  exists l, mscatter_memcpy dst src = Ret l /\
    copy_pairs l = zip (chain_pages dst) (chain_pages src).
Proof.
  intros Hd Hs Hokd Hoks Hlen. destruct dst as [|[di ds] dst], src as [|[si ss] src]; try done.
  pose proof Hokd as [[Hd1 _] _]%Forall_cons. pose proof Hoks as [[Hs1 _] _]%Forall_cons.
  simpl in Hd1, Hs1. unfold mscatter_memcpy.
  rewrite (proj2 (Z.eqb_neq ds 0)), (proj2 (Z.eqb_neq ss 0)) by lia. cbn [negb eqb oassert].
  apply memcpy_loop_ok; try done. simpl. lia.
Qed.

(** ** Moving pages is [memmove] *)

Lemma mov_lo_loop_ok count dst src m a :
  dst < src -> (src - dst) mod 4096 = 0 -> (a - dst) mod 4096 = 0 ->
  mov_lo_loop count dst src m a =
  if (dst <=? a) && (a <? dst + Z.of_nat count * PAGESIZE) then m (a - dst + src) else m a.
Proof.
  unfold PAGESIZE. revert dst src m. induction count as [|count IH]; intros dst src m Hlt Hal Ha.
  { simpl. destruct (_ && _) eqn:E; [bsimp; lia|done]. }
  simpl mov_lo_loop. unfold PAGESIZE. rewrite IH by mlia. unfold copy_page.
  destruct (Z.eqb_spec a dst) as [->|Hne].
  - rewrite (proj2 (Z.leb_gt (dst + 4096) dst)), Z.leb_refl by lia. cbn [andb].
    rewrite (proj2 (Z.ltb_lt _ _)) by lia. f_equal. lia.
  - destruct (Z.leb_spec (dst + 4096) a), (Z.leb_spec dst a); cbn [andb]; try mlia; [|done].
    replace (dst + 4096 + Z.of_nat count * 4096) with (dst + Z.of_nat (S count) * 4096) by lia.
    destruct (_ <? _); [|done].
    rewrite (proj2 (Z.eqb_neq _ dst)) by lia. f_equal. lia.
Qed.

Lemma mov_hi_loop_ok count dst src m a :
  src < dst -> (dst - src) mod 4096 = 0 -> (a - dst) mod 4096 = 0 ->
  mov_hi_loop count dst src m a =
  if (dst - Z.of_nat count * PAGESIZE <=? a) && (a <? dst) then m (a - dst + src) else m a.
Proof.
  unfold PAGESIZE. revert dst src m. induction count as [|count IH]; intros dst src m Hlt Hal Ha.
  { simpl. destruct (_ && _) eqn:E; [bsimp; lia|done]. }
  simpl mov_hi_loop. unfold PAGESIZE. rewrite IH by mlia. unfold copy_page.
  replace (dst - 4096 - Z.of_nat count * 4096) with (dst - Z.of_nat (S count) * 4096) by lia.
  destruct (Z.eqb_spec a (dst - 4096)) as [->|Hne].
  - rewrite Z.ltb_irrefl, andb_false_r, (proj2 (Z.leb_le _ _)), (proj2 (Z.ltb_lt _ dst)) by lia.
    cbn [andb]. f_equal. lia.
  - destruct (Z.ltb_spec a (dst - 4096)), (Z.ltb_spec a dst); try mlia;
      rewrite ?andb_true_r, ?andb_false_r; [|done].
    destruct (_ <=? _); [|done]. rewrite (proj2 (Z.eqb_neq _ (dst - 4096))) by lia. f_equal. lia.
Qed.

(** moving pages down with [mov_pages_lo], or up with [mov_pages_hi], gives
    every destination page the old content of its source page, although the two
    areas may overlap; all other pages keep theirs. *)
Theorem mov_pages_ok W dst src n m a :
  0 <= n -> n + PAGESIZE <= W -> dst mod 4096 = 0 -> src mod 4096 = 0 -> a mod 4096 = 0 ->
  dst <> src ->
  exists m', (if dst <? src then mov_pages_lo W dst src n m else mov_pages_hi W dst src n m) = Ret m' /\
    m' a = copy_pages dst src (CEIL_ALIGN W n PAGESIZE) m a.
Proof.
  intros Hn HW Hd Hs Ha Hne. destruct (ceil_page W n Hn HW) as [Hc1 Hc2].
  unfold mov_pages_lo, mov_pages_hi, copy_pages. remember (CEIL_ALIGN W n PAGESIZE) as c eqn:Ec.
  assert (Z.of_nat (Z.to_nat (c / PAGESIZE)) * PAGESIZE = c) as Hcp by (unfold PAGESIZE; mlia).
  destruct (Z.ltb_spec dst src).
  - cbn [oassert]. eexists. split; [done|]. rewrite mov_lo_loop_ok, Hcp by mlia. done.
  - rewrite (proj2 (Z.ltb_lt src dst)) by lia. cbn [oassert]. eexists. split; [done|].
    rewrite mov_hi_loop_ok, Hcp by mlia. replace (dst + c - c) with dst by lia.
    destruct (_ && _); [|done]. f_equal. lia.
Qed.

(** ** Scattered allocation *)

Section Scatter.

Context (W REF : Z) (spec : mzonespec) `{HZ : !ZoneSpec W spec}.

Definition in_chain (c : mscatter) (x : Z) : Prop := Exists (fun l => inside l.1 l.2 x) c.

Lemma in_chain_cons l c x : in_chain (l :: c) x <-> inside l.1 l.2 x \/ in_chain c x.
Proof. apply Exists_cons. Qed.

Fixpoint chain_disjoint (c : mscatter) : Prop :=
  match c with
  | [] => True
  | l :: c => (forall x, inside l.1 l.2 x -> ~ in_chain c x) /\ chain_disjoint c
  end.

Definition chain_ok (c : mscatter) : Prop :=
  Forall (fun l => link_ok l /\ l.1 mod 4096 = 0) c /\ chain_disjoint c.

(** The memory of the chain was taken out of the free memory of [st0]. *)
Definition taken_chain (st0 st : pages) (c : mscatter) (attr : Z) : Prop :=
  pages_inv spec st /\ chain_ok c /\
  (forall x, in_chain c x -> is_free st0 x) /\
  (forall x, is_free st x <-> is_free st0 x /\ ~ in_chain c x) /\
  (has_zero attr = true -> Forall (fun l => zero_range (mem st) l.1 l.2) c) /\
  (forall x, ~ is_free st0 x -> mem st x = mem st0 x).

Lemma taken_chain_cons st0 st st' c a n attr :
  taken_chain st0 st c attr -> taken spec st st' a n attr -> 0 < n -> n mod 4096 = 0 ->
  taken_chain st0 st' ((a, n) :: c) attr.
Proof.
  intros (Hi & [Hok Hdis] & Hin & Hf & Hz & Hm) (Hi' & Hal & Hin' & Hf' & Hz' & Hm') Hn Ha.
  split; [done|]. split; [split|split; [|split; [|split]]].
  - apply Forall_cons. split; [|done]. split; [split|]; done.
  - split; [|done]. intros x Hx Hc. apply Hin', Hf in Hx. tauto.
  - intros x [Hx|Hx]%in_chain_cons; [|by apply Hin]. apply Hin', Hf in Hx. tauto.
  - intros x. rewrite Hf', Hf, in_chain_cons. simpl. tauto.
  - intros Hza. apply Forall_cons. split; [by apply Hz'|]. specialize (Hz Hza).
    rewrite Forall_forall in Hz |- *. intros l Hl x Hpx Hx. rewrite Hm'; [by apply (Hz l Hl)|].
    rewrite Hf. intros [_ Hx']. apply Hx'. apply Exists_exists. eauto.
  - intros x Hx. rewrite Hm'; [by apply Hm|]. rewrite Hf. tauto.
Qed.

(** Freeing a whole chain that is in use. *)
Lemma free_chain_ok st c attr :
  pages_inv spec st -> chain_ok c ->
  (forall x, in_chain c x -> ~ is_free st x /\ 0 <= x < phys_end spec) ->
  (has_zero attr = true -> Forall (fun l => zero_range (mem st) l.1 l.2) c) ->
  exists st', page_free_scatter W REF spec st c attr = Ret st' /\ pages_inv spec st' /\
    (forall x, is_free st' x <-> is_free st x \/ in_chain c x) /\
    (forall x, ~ is_free st' x -> mem st' x = mem st x).
Proof.
  revert st. induction c as [|[a n] c IH]; intros st Hi [Hok Hdis] Hin Hz.
  { exists st. split; [done|]. split; [done|]. split; [|done]. intros x. unfold in_chain.
    rewrite Exists_nil. tauto. }
  apply Forall_cons in Hok as [[[Hn Hna] Ha] Hok]. simpl in Hn, Hna, Ha.
  destruct Hdis as [Hd1 Hdis]. simpl in Hd1. pose proof (phys_end_W W spec) as HpW.
  assert (0 <= a /\ a + n <= phys_end spec) as [Ha0 Han].
  { destruct (Hin a) as [_ H1]; [apply in_chain_cons; left; unfold inside; simpl; lia|].
    destruct (Hin (a + n - 1)) as [_ H2]; [apply in_chain_cons; left; unfold inside; simpl; lia|]. lia. }
  assert (CEIL_ALIGN W n PAGESIZE = n) as En by (apply ceil_page_id; [lia..|done]).
  simpl page_free_scatter.
  destruct (ffree_ok W REF spec st a n attr) as (st1 & -> & Hg); rewrite ?En; try done; try lia.
  { intros x Hx. apply Hin, in_chain_cons. by left. }
  { intros Hza. specialize (Hz Hza). by apply Forall_cons in Hz as [Hz _]. }
  rewrite En in Hg. destruct Hg as (Hi1 & Hf1 & Hm1). cbn [obind].
  assert (Hin1 : forall x, in_chain c x -> ~ is_free st1 x /\ 0 <= x < phys_end spec).
  { intros x Hx. destruct (Hin x) as [H1 H2]; [apply in_chain_cons; by right|]. split; [|done].
    rewrite Hf1. intros [|Hx']; [done|]. by apply (Hd1 x). }
  destruct (IH st1 Hi1 (conj Hok Hdis) Hin1) as (st2 & -> & Hi2 & Hf2 & Hm2).
  { intros Hza. specialize (Hz Hza). apply Forall_cons in Hz as [_ Hz].
    rewrite Forall_forall in Hz |- *. intros l Hl x Hpx Hx. rewrite Hm1; [by apply (Hz l Hl)|].
    apply Hin1. apply Exists_exists. eauto. }
  exists st2. split; [done|]. split; [done|]. split.
  - intros x. rewrite Hf2, Hf1, in_chain_cons. simpl. tauto.
  - intros x Hx. rewrite Hm2 by done. apply Hm1. intros Hx'. apply Hx, Hf2. by left.
Qed.

(** Undoing a partial allocation restores the free memory. *)
Lemma undo_chain st0 st c attr :
  pages_inv spec st0 -> taken_chain st0 st c attr ->
  exists st', page_free_scatter W REF spec st c attr = Ret st' /\ pages_inv spec st' /\
    (forall x, is_free st' x <-> is_free st0 x) /\
    (forall x, ~ is_free st0 x -> mem st' x = mem st0 x).
Proof.
  intros Hi0 (Hi & Hok & Hin & Hf & Hz & Hm).
  destruct (free_chain_ok st c attr Hi Hok) as (st' & Hfr & Hi' & Hf' & Hm'); [|done|].
  { intros x Hx. rewrite Hf. split; [tauto|].
    apply (free_below_end W spec st0); auto. }
  exists st'. split; [done|]. split; [done|].
  assert (Heq : forall x, is_free st' x <-> is_free st0 x).
  { intros x. rewrite Hf', Hf. specialize (Hin x). split; [tauto|]. intros Hx.
    destruct (decide (Exists (fun l => inside l.1 l.2 x) c)) as [Hc|Hc]; [by right|by left]. }
  split; [done|]. intros x Hx. rewrite Hm' by (by rewrite Heq). by apply Hm.
Qed.

Lemma scatter_loop_ok fuel st0 st links n min_scatter attr zone c :
  pages_inv spec st0 -> taken_chain st0 st c attr -> (zone < MZONE_REAL_COUNT spec)%nat ->
  0 < n -> n mod 4096 = 0 -> 0 < min_scatter -> (Z.to_nat (n / PAGESIZE) <= fuel)%nat ->
  exists res st', scatter_loop W REF spec fuel st links n min_scatter attr zone c = Ret (res, st') /\
    match res with
    | Some c' => taken_chain st0 st' c' attr /\
        zlen (chain_pages c') * PAGESIZE = zlen (chain_pages c) * PAGESIZE + n
    | None => pages_inv spec st' /\ (forall x, is_free st' x <-> is_free st0 x) /\
        (forall x, ~ is_free st0 x -> mem st' x = mem st0 x)
    end.
Proof.
  intros Hi0 Htc Hzn. revert st links n c Htc.
  induction fuel as [|fuel IH]; intros st links n c Htc Hn Hna Hms Hfu.
  { exfalso. unfold PAGESIZE in *. mlia. }
  cbn [scatter_loop]. rewrite (proj2 (Z.eqb_neq n 0)) by lia. cbn [negb oassert].
  pose proof Htc as (Hi & _).
  destruct (malloc_part_ok W REF spec st min_scatter n attr zone Hi) as (res & st1 & -> & Hres);
    [lia..|done|]. cbn [obind]. pose proof (floor_page n ltac:(lia)) as (Hf1 & Hf2 & Hf3).
  destruct res as [[a k]|].
  2: { destruct Hres as [-> _]. destruct (undo_chain st0 st c attr Hi0 Htc) as (st' & Hfr & Hr).
       change (page_free_scatter W REF spec st ((W - 1, 0) :: c) attr) with
         (page_free_scatter W REF spec st c attr).
       rewrite Hfr. cbn [obind]. by eexists _, _. }
  destruct Hres as (Ht & Hka & Hkn & Hkm).
  assert (FLOOR_ALIGN n PAGESIZE = n) as Efl by mlia.
  assert (4096 <= n) as Hn4 by mlia. assert (0 < k) as Hk0 by lia.
  rewrite (proj2 (Z.leb_le k n)), (proj2 (aligned_page k)), (proj2 (Z.eqb_neq k 0)) by (done || lia).
  cbn [negb oassert].
  pose proof (taken_chain_cons st0 st st1 c a k attr Htc Ht Hk0 Hka) as Htc1.
  assert (Hlen : zlen (chain_pages ((a, k) :: c)) * PAGESIZE = zlen (chain_pages c) * PAGESIZE + k).
  { rewrite chain_pages_cons, zlen_app, Z.mul_add_distr_r, link_pages_len by (done || lia). lia. }
  destruct (Z.eqb_spec n k) as [->|Hne]; [by eexists _, _|].
  destruct links as [|[] links].
  1,3: destruct (undo_chain st0 st1 ((a, k) :: c) attr Hi0 Htc1) as (st' & Hfr & Hr);
    rewrite Hfr; cbn [obind]; by eexists _, _.
  destruct (IH st1 links (n - k) ((a, k) :: c) Htc1) as (res & st' & -> & Hr);
    [lia|mlia|done|unfold PAGESIZE in *; mlia|].
  eexists _, _. split; [done|]. destruct res; [|done]. destruct Hr as [H1 H2]. split; [done|]. lia.
Qed.

Lemma malloc_scatter_ok st links m_start n min_scatter attr zone :
  pages_inv spec st -> 0 < n -> n + PAGESIZE <= W -> 0 <= min_scatter ->
  (zone < MZONE_REAL_COUNT spec)%nat ->
  exists res st', page_malloc_scatter W REF spec st links m_start n min_scatter attr zone = Ret (res, st') /\
    match res with
    | Some c => taken_chain st st' c attr /\
        zlen (chain_pages c) * PAGESIZE = CEIL_ALIGN W n PAGESIZE
    | None => pages_inv spec st' /\ (forall x, is_free st' x <-> is_free st x) /\
        (forall x, ~ is_free st x -> mem st' x = mem st x)
    end.
Proof.
  intros Hi Hn HnW Hms Hz. unfold page_malloc_scatter. rewrite (proj2 (Z.eqb_neq n 0)) by lia.
  destruct (ceil_page W n ltac:(lia) HnW) as [Hc1 Hc2].
  remember (CEIL_ALIGN W n PAGESIZE) as c eqn:Ec. set (ms := CEIL_ALIGN W min_scatter PAGESIZE).
  assert (0 <= ms) as Hms0.
  { apply Z.land_nonneg. left. apply Z.mod_pos_bound. unfold PAGESIZE in *. lia. }
  set (ms1 := if c <? ms then c else ms). set (ms2 := if ms1 =? 0 then PAGESIZE else ms1).
  assert (0 < ms2) as Hms2 by (subst ms1 ms2; unfold PAGESIZE; repeat bcase; lia).
  destruct (scatter_loop_ok (Z.to_nat (c / PAGESIZE)) st st links c ms2 attr zone [])
    as (res & st' & Heq & Hres); try done; try lia.
  - split; [done|]. split; [by split|]. split; [by intros x ?%Exists_nil|].
    split; [|split; [by intros; constructor|done]].
    intros x. unfold in_chain. rewrite Exists_nil. tauto.
  - eexists _, _. split; [exact Heq|]. destruct res; [|done]. destruct Hres as [H1 H2].
    split; [done|]. rewrite H2. change (zlen (chain_pages [])) with 0. lia.
Qed.

(** scattered allocation always returns.  On success the links of the chain
    are disjoint, page aligned, were free, add up to the requested size rounded
    up to pages, and are zeroed when asked for; when memory runs out, or a link
    cannot be allocated, everything taken so far is free again. *)
Theorem page_malloc_scatter_ok st links m_start n min_scatter attr zone :
  pages_inv spec st -> 0 < n -> n + PAGESIZE <= W -> 0 <= min_scatter ->
  (zone < MZONE_REAL_COUNT spec)%nat ->
  exists res st', page_malloc_scatter W REF spec st links m_start n min_scatter attr zone = Ret (res, st') /\
    match res with
    | Some c => taken_chain st st' c attr /\
        zlen (chain_pages c) * PAGESIZE = CEIL_ALIGN W n PAGESIZE
    | None => pages_inv spec st' /\ (forall x, is_free st' x <-> is_free st x) /\
        (forall x, ~ is_free st x -> mem st' x = mem st x)
    end.
Proof. by apply malloc_scatter_ok. Qed.

End Scatter.

(** ** Reallocation *)

Section Realloc.

Context (W REF : Z) (spec : mzonespec) `{HZ : !ZoneSpec W spec}.

(** The block [start..+co) of [st] has become [a..+cn) in [st']: its memory is
    free but for the new block, its pages keep their content, new pages are zero
    if asked for, and pages in use elsewhere are untouched. *)
Definition moved (st st' : pages) (start co a cn attr : Z) : Prop :=
  pages_inv spec st' /\ a mod 4096 = 0 /\
  (forall x, is_free st' x <-> (is_free st x \/ inside start co x) /\ ~ inside a cn x) /\
  (forall i, i mod 4096 = 0 -> 0 <= i < Z.min co cn -> mem st' (a + i) = mem st (start + i)) /\
  (has_zero attr = true -> zero_range (mem st') (a + co) (cn - co)) /\
  (forall x, x mod 4096 = 0 -> ~ is_free st x -> ~ inside start co x -> mem st' x = mem st x).

Lemma set_mem_inv st m' :
  pages_inv spec st -> (forall x, x mod 4096 = 0 -> is_free st x -> m' x = mem st x) ->
  pages_inv spec (set_mem st m').
Proof.
  intros [H1 H2 H3] Hm. split; [done|done|]. intros i z Hz. cbn [mem set_mem].
  specialize (H3 i z Hz). rewrite Forall_forall in H3 |- *. intros r Hr Ha.
  destruct (H3 r Hr Ha) as [Hc1 Hc2].
  assert (forall x, inside (r_start r) (p_size r) x -> is_free st x) as Hfr.
  { intros x Hx. exists i, z. split; [done|]. apply covered_elem. eauto. }
  split; intros x Hpx Hx; [|intros Hne]; rewrite Hm by auto; auto.
Qed.

Lemma attr_nozero_false attr : has_zero (attr_nozero attr) = false.
Proof.
  rewrite has_zero_odd, <- Z.bit0_odd. unfold attr_nozero. rewrite Z.ldiff_spec. apply andb_false_r.
Qed.

Lemma shrink_ok st start co cn attr :
  pages_inv spec st -> 0 <= start -> start mod 4096 = 0 -> co mod 4096 = 0 -> cn mod 4096 = 0 ->
  0 <= cn < co -> start + co <= phys_end spec ->
  (forall x, inside start co x -> ~ is_free st x) ->
  exists st', page_free W REF spec st (start + cn) (co - cn) = Ret st' /\
    moved st st' start co start cn attr.
Proof.
  intros Hi Hs Ha Hco Hcn Hlt Hend Huse. pose proof (phys_end_W W spec) as HpW.
  assert (CEIL_ALIGN W (co - cn) PAGESIZE = co - cn) as Ec by (apply ceil_page_id; [lia..|mlia]).
  unfold page_free.
  destruct (ffree_ok W REF spec st (start + cn) (co - cn) PAGEATTR_NONE) as (st' & Hfr & Hg);
    rewrite ?Ec; try done; try lia; try mlia.
  { intros x Hx. apply Huse. unfold inside in *. lia. }
  rewrite Ec in Hg. destruct Hg as (Hi' & Hf & Hm). exists st'. split; [done|].
  split; [done|]. split; [done|]. split; [|split; [|split]].
  - intros x. rewrite Hf. specialize (Huse x). unfold inside in *.
    destruct (decide (start <= x < start + co)); intuition lia.
  - intros i Hpi Hlt'. apply Hm. rewrite Hf. intros [Hx|Hx]; [|unfold inside in Hx; lia].
    apply (Huse (start + i)); [unfold inside; lia|done].
  - intros _ x _ Hx. unfold inside in Hx. lia.
  - intros x _ Hx Hx'. apply Hm. rewrite Hf. unfold inside in *. intuition lia.
Qed.

(** Growing into free memory directly above. *)
Lemma grow_above_ok st st' start co diff attr :
  start mod 4096 = 0 -> 0 < co -> 0 < diff ->
  (forall x, inside start co x -> ~ is_free st x) ->
  taken spec st st' (start + co) diff attr -> moved st st' start co start (co + diff) attr.
Proof.
  intros Ha Hco Hd Huse (Hi & Hal & Hin & Hf & Hz & Hm).
  split; [done|]. split; [done|]. split; [|split; [|split]].
  - intros x. rewrite Hf. specialize (Huse x). unfold inside in *.
    destruct (decide (start <= x < start + co)); intuition lia.
  - intros i _ Hi'. apply Hm, Huse. unfold inside. lia.
  - intros Hza. replace (co + diff - co) with diff by lia. auto.
  - intros x _ Hx _. by apply Hm.
Qed.

(** Growing into free memory directly below: the content moves down. *)
Lemma grow_below_ok st st1 start co diff attr :
  start mod 4096 = 0 -> co mod 4096 = 0 -> 0 < co -> co + PAGESIZE <= W -> 0 < diff ->
  diff mod 4096 = 0 -> (forall x, inside start co x -> ~ is_free st x) ->
  taken spec st st1 (start - diff) diff (attr_nozero attr) ->
  exists m, mov_pages_lo W (start - diff) start co (mem st1) = Ret m /\
    moved st (set_mem st1 (if has_zero attr then mem_fill (start - diff + co) diff zero_page m else m))
      start co (start - diff) (co + diff) attr.
Proof.
  intros Ha Hca Hco HcW Hd Hda Huse (Hi & Hal & Hin & Hf & _ & Hm).
  unfold mov_pages_lo. rewrite (proj2 (Z.ltb_lt _ _)) by lia. cbn [oassert].
  rewrite (ceil_page_id W co) by (done || lia).
  assert (Z.of_nat (Z.to_nat (co / PAGESIZE)) * PAGESIZE = co) as Ec by (unfold PAGESIZE; mlia).
  eexists. split; [reflexivity|]. set (m := mov_lo_loop _ _ _ _).
  set (m' := if has_zero attr then _ else _).
  assert (Hmov : forall x, x mod 4096 = 0 -> m x =
    if (start - diff <=? x) && (x <? start - diff + co) then mem st1 (x - (start - diff) + start)
    else mem st1 x).
  { intros x Hx. subst m. rewrite mov_lo_loop_ok, Ec by mlia. done. }
  assert (Hout : forall x, x mod 4096 = 0 -> ~ inside (start - diff) (co + diff) x -> m' x = mem st1 x).
  { intros x Hx Hn. assert (m x = mem st1 x) as Em.
    { rewrite (Hmov x Hx). destruct (_ && _) eqn:E; [|done]. bsimp. unfold inside in Hn. lia. }
    subst m'. destruct (has_zero attr); [|done]. rewrite mem_fill_out; [done|]. unfold inside in *. lia. }
  assert (Hnf : forall x, inside (start - diff) (co + diff) x -> ~ is_free st1 x).
  { intros x Hx. rewrite Hf. specialize (Huse x). unfold inside in *. intros [H1 H2].
    destruct (decide (x < start)); [apply H2; lia|apply Huse; [lia|done]]. }
  split; [|split; [done|split; [|split; [|split]]]].
  - apply set_mem_inv; [done|]. intros x Hpx Hx. apply Hout; [done|]. intros Hn. by apply (Hnf x).
  - intros x. change (is_free (set_mem st1 m') x) with (is_free st1 x). rewrite Hf.
    specialize (Huse x). unfold inside in *.
    destruct (decide (start <= x < start + co)); intuition lia.
  - intros i Hpi Hlt. cbn [mem set_mem].
    assert (m' (start - diff + i) = m (start - diff + i)) as ->.
    { subst m'. destruct (has_zero attr); [|done]. apply mem_fill_out. unfold inside. lia. }
    rewrite Hmov by mlia. rewrite (proj2 (Z.leb_le _ _)), (proj2 (Z.ltb_lt _ _)) by lia. cbn [andb].
    replace (start - diff + i - (start - diff) + start) with (start + i) by lia.
    apply Hm, Huse. unfold inside. lia.
  - intros Hza x _ Hx. cbn [mem set_mem]. subst m'. rewrite Hza. apply mem_fill_in.
    unfold inside in *. lia.
  - intros x Hpx Hx Hx'. cbn [mem set_mem]. rewrite Hout; [by apply Hm|done|]. intros Hn.
    specialize (Hin x). unfold inside in *. destruct (decide (x < start)); [apply Hx, Hin; lia|lia].
Qed.

(** Moving to a new region. *)
Lemma relocate_ok st st1 start co r cn attr lazy :
  pages_inv spec st -> 0 <= start -> start mod 4096 = 0 -> co mod 4096 = 0 -> 0 < co < cn ->
  start + co <= phys_end spec -> (forall x, inside start co x -> ~ is_free st x) ->
  (lazy = true -> has_zero attr = true) ->
  taken spec st st1 r cn (if lazy then attr_nozero attr else attr) ->
  exists st', page_free W REF spec
      (set_mem st1 (copy_pages r start co
        (if lazy then mem_fill (r + co) (cn - co) zero_page (mem st1) else mem st1))) start co = Ret st' /\
    moved st st' start co r cn attr.
Proof.
  intros Hi Hs Ha Hca Hco Hend Huse Hlz (Hi1 & Hal & Hin & Hf & Hz & Hm).
  set (m1 := if lazy then _ else _). set (m2 := copy_pages r start co m1).
  pose proof (phys_end_W W spec) as HpW.
  assert (CEIL_ALIGN W co PAGESIZE = co) as Ec by (apply ceil_page_id; [lia..|done]).
  assert (Hm1 : forall x, ~ inside r cn x -> m1 x = mem st1 x).
  { intros x Hx. subst m1. destruct lazy; [|done]. apply mem_fill_out. unfold inside in *. lia. }
  assert (Hm2 : forall x, ~ inside r cn x -> m2 x = mem st1 x).
  { intros x Hx. rewrite <- Hm1 by done. subst m2. unfold copy_pages.
    destruct (_ && _) eqn:E; [|done]. bsimp. unfold inside in *. lia. }
  assert (pages_inv spec (set_mem st1 m2)) as Hi2.
  { apply set_mem_inv; [done|]. intros x _ Hx. apply Hm2. by apply Hf in Hx as [_ Hx]. }
  assert (Hd : forall x, inside start co x -> ~ inside r cn x).
  { intros x Hx Hx'. by apply (Huse x Hx), Hin. }
  unfold page_free.
  destruct (ffree_ok W REF spec (set_mem st1 m2) start co PAGEATTR_NONE) as (st' & Hfr & Hg);
    rewrite ?Ec; try done; try lia.
  { intros x Hx Hfx. apply Hf in Hfx as [Hfx _]. by apply (Huse x). }
  rewrite Ec in Hg. destruct Hg as (Hi' & Hf' & Hm'). exists st'. split; [done|].
  assert (Hff : forall x, is_free st' x <-> (is_free st x \/ inside start co x) /\ ~ inside r cn x).
  { intros x. rewrite Hf'. change (is_free (set_mem st1 m2) x) with (is_free st1 x). rewrite Hf.
    specialize (Hd x). tauto. }
  assert (Hkeep : forall x, inside r cn x -> mem st' x = m2 x) by (intros x Hx; apply Hm'; rewrite Hff; tauto).
  split; [done|]. split; [done|]. split; [done|]. split; [|split].
  - intros i _ Hlt. rewrite Hkeep by (unfold inside; lia). subst m2. unfold copy_pages.
    rewrite (proj2 (Z.leb_le _ _)), (proj2 (Z.ltb_lt _ _)) by lia. cbn [andb].
    replace (r + i - r + start) with (start + i) by lia.
    assert (inside start co (start + i)) as Hx by (unfold inside; lia).
    rewrite Hm1 by auto. by apply Hm, Huse.
  - intros Hza x Hpx Hx. rewrite Hkeep by (unfold inside in *; lia). subst m2. unfold copy_pages.
    rewrite (proj2 (Z.ltb_ge x _)), andb_false_r by (unfold inside in *; lia). subst m1.
    destruct lazy; [by apply mem_fill_in|]. apply (Hz Hza x Hpx). unfold inside in *. lia.
  - intros x _ Hx Hx'. rewrite Hm'; [|rewrite Hf'; change (is_free (set_mem st1 m2) x) with (is_free st1 x);
      rewrite Hf; tauto].
    cbn [mem set_mem]. rewrite Hm2; [by apply Hm|]. intros Hn. by apply Hx, Hin.
Qed.

(** reallocation keeps the content of the block whichever way it goes
    (in place, into memory above, down into memory below, or to a new region),
    gives back exactly the memory it no longer needs, zeroes added memory when
    asked for, and leaves the block alone when it fails. *)
Theorem page_realloc_ok st start old new attr zone co cn :
  pages_inv spec st -> 0 < old -> 0 <= new -> old + PAGESIZE <= W -> new + PAGESIZE <= W ->
  co = CEIL_ALIGN W old PAGESIZE -> cn = CEIL_ALIGN W new PAGESIZE ->
  start mod 4096 = 0 -> 0 <= start -> start + co < phys_end spec ->
  cn - co <= start -> start + cn < W -> (zone < MZONE_REAL_COUNT spec)%nat ->
  (forall x, inside start co x -> ~ is_free st x) ->
  exists res st', page_realloc W REF spec st start old new attr zone = Ret (res, st') /\
    match res with
    | Some a => moved st st' start co a cn attr
    | None => st' = st
    end.
Proof.
  intros Hi Hold Hnew HoW HnW Eco Ecn Ha Hs0 Hend Hbelow Htop Hz Huse.
  destruct (ceil_page W old ltac:(lia) HoW) as [Ho1 Ho2].
  destruct (ceil_page W new ltac:(lia) HnW) as [Hn1 Hn2].
  unfold page_realloc. rewrite (proj2 (Z.eqb_neq old 0)), <- Eco, <- Ecn in * by lia.
  destruct (Z.ltb_spec cn co) as [Hlt|Hge].
  { destruct (shrink_ok st start co cn attr) as (st' & -> & Hmv); try done; try lia.
    cbn [obind]. by eexists _, _. }
  destruct (Z.ltb_spec co cn) as [Hlt|Hge2].
  2: { assert (cn = co) as -> by lia. eexists _, _. split; [done|].
       split; [done|]. split; [done|]. split; [|split; [done|split; [|done]]].
       - intros x. specialize (Huse x). unfold inside in *.
         destruct (decide (start <= x < start + co)); intuition lia.
       - intros _ x _ Hx. unfold inside in Hx. lia. }
  assert ((cn - co) mod 4096 = 0) as Hda by mlia.
  pose proof (phys_end_W W spec) as HpW.
  rewrite (proj2 (aligned_page _) Hda). cbn [oassert].
  assert (CEIL_ALIGN W (cn - co) PAGESIZE = cn - co) as Ed by (apply ceil_page_id; [lia|lia|done]).
  unfold page_malloc_at. rewrite (Z.mod_small (start + co)), (Z.mod_small (start - _)) by lia.
  destruct (malloc_in_ok W REF spec st (start + co) (start + co) (cn - co) attr)
    as (above & st1 & -> & Hab); rewrite ?Ed; try done; try lia; try mlia.
  cbn [obind]. destruct above as [a|].
  { destruct Hab as [Haa Ht]. assert (a = start + co) as -> by lia. rewrite Ed in Ht.
    eexists _, _. split; [done|]. replace cn with (co + (cn - co)) by lia.
    by apply grow_above_ok; try done; lia. }
  destruct Hab as [-> _].
  destruct (malloc_in_ok W REF spec st (start - (cn - co)) (start - (cn - co)) (cn - co) (attr_nozero attr))
    as (below & st1 & -> & Hbe); rewrite ?Ed; try done; try lia; try mlia.
  cbn [obind]. destruct below as [a|].
  { destruct Hbe as [Haa Ht]. assert (a = start - (cn - co)) as -> by lia. rewrite Ed in Ht.
    destruct (grow_below_ok st st1 start co (cn - co) attr) as (m & -> & Hmv); try done; try lia.
    cbn [obind]. eexists _, _. split; [done|].
    by replace (co + (cn - co)) with cn in Hmv by lia. }
  destruct Hbe as [-> _]. set (lazy := has_zero attr && (cn - co <? co)).
  destruct (malloc_ok W REF spec st cn (if lazy then attr_nozero attr else attr) zone Hi ltac:(lia) Hz)
    as (res & st1 & -> & Hres). cbn [obind].
  destruct res as [r|]; [|destruct Hres as [-> _]; by eexists _, _].
  destruct Hres as (Ht & _). rewrite (ceil_page_id W cn) in Ht by (done || lia).
  rewrite (proj2 (aligned_page co) Ho2). cbn [oassert].
  destruct (relocate_ok st st1 start co r cn attr lazy) as (st' & -> & Hmv); try done; try lia.
  { subst lazy. intros; bsimp. done. }
  cbn [obind]. by eexists _, _.
Qed.

End Realloc.

(** ** Statistics *)

Section Stats.

Context (W REF : Z) (spec : mzonespec) `{HZ : !ZoneSpec W spec}.

(** Bytes of [r] inside [lo..hi). *)
Definition overlap (lo hi : Z) (r : range) : Z := Z.max 0 (Z.min (r_end r) hi - Z.max (r_start r) lo).
Definition free_bytes (lo hi : Z) (l : list range) : Z := foldr (fun r n => overlap lo hi r + n) 0 l.

Lemma free_bytes_nonneg lo hi l : 0 <= free_bytes lo hi l.
Proof. induction l as [|r l IH]; simpl; unfold overlap; lia. Qed.

Lemma free_bytes_le lo hi l s h : ranges_ok s h l -> free_bytes lo hi l <= Z.max 0 (hi - Z.max lo s).
Proof.
  revert s. induction l as [|r l IH]; intros s; simpl; [lia|]. intros [Hr Hl].
  specialize (IH _ Hl). unfold range_ok, overlap, r_end in *. lia.
Qed.

(** Only the part of the window that meets the ranges counts. *)
Lemma free_bytes_window lo hi lo' hi' l s h :
  ranges_ok s h l -> Z.max lo s = Z.max lo' s -> Z.min hi h = Z.min hi' h ->
  free_bytes lo hi l = free_bytes lo' hi' l.
Proof.
  revert s. induction l as [|r l IH]; intros s; simpl; [done|]. intros [Hr Hl] H1 H2.
  rewrite (IH _ Hl) by (unfold range_ok, r_end in *; lia). f_equal.
  unfold range_ok, overlap, r_end in *. lia.
Qed.

Lemma available_loop_ok start ce l res lo hi :
  0 <= lo -> hi + PAGESIZE <= W -> ranges_ok lo hi l -> start <= ce ->
  0 <= res -> res + free_bytes start ce l < W ->
  available_loop W start ce l res = Ret (res + free_bytes start ce l).
Proof.
  intros Hlo Hhi. revert lo res Hlo. induction l as [|r l IH]; intros lo res Hlo Hok Hse Hres HW.
  { simpl. by rewrite Z.add_0_r. }
  destruct Hok as [Hr Hl]. destruct (range_facts W lo hi r Hlo Hhi Hr) as [Hfp Hpe].
  assert (0 <= r_end r + 1) by (unfold range_ok, r_end in *; lia).
  simpl. simpl in HW. rewrite Hfp, Hpe. cbn [oassert]. unfold range_ok in Hr.
  pose proof (free_bytes_nonneg start ce l).
  destruct (Z.leb_spec (r_end r) start) as [H1|H1].
  { assert (overlap start ce r = 0) as E by (unfold overlap, r_end in *; lia).
    rewrite E in *. rewrite (IH (r_end r + 1)) by (done || lia). by rewrite Z.add_0_l. }
  destruct (Z.leb_spec ce (r_start r)) as [H2|H2].
  { pose proof (free_bytes_le start ce l _ _ Hl).
    f_equal. unfold overlap, r_end in *. lia. }
  replace (Z.min (r_end r) ce - Z.max (r_start r) start) with (overlap start ce r)
    by (unfold overlap, r_end in *; lia).
  assert (0 <= overlap start ce r) by (unfold overlap; lia).
  rewrite Z.mod_small by lia. rewrite (IH (r_end r + 1)) by (done || lia). f_equal. lia.
Qed.

(** Free bytes of the zones [zs] in a window. *)
Definition total_free (lo hi : Z) (zs : list mzone) : Z :=
  foldr (fun z n => free_bytes lo hi (z_root z) + n) 0 zs.

Lemma total_free_nonneg lo hi zs : 0 <= total_free lo hi zs.
Proof. induction zs as [|z zs IH]; simpl; [lia|]. pose proof (free_bytes_nonneg lo hi (z_root z)). lia. Qed.

(** The zones from index [i] on, one after the other. *)
Definition zones_from (i : nat) (zs : list mzone) : Prop :=
  forall j z, zs !! j = Some z ->
    ranges_ok (MZONE_MIN spec (i + j)) (MZONE_MAX spec (i + j) + 1) (z_root z) /\
    (i + j < MZONE_REAL_COUNT spec)%nat.

Lemma zones_from_cons i z zs : zones_from i (z :: zs) -> zones_from (S i) zs.
Proof.
  intros H j y Hy. specialize (H (S j) y Hy).
  by replace (S i + j)%nat with (i + S j)%nat by lia.
Qed.

(** A window that ends below zone [i] meets none of the zones from [i] on. *)
Lemma total_free_window lo hi lo' hi' i zs :
  zones_from i zs -> Z.max lo (MZONE_MIN spec i) = Z.max lo' (MZONE_MIN spec i) -> hi = hi' ->
  total_free lo hi zs = total_free lo' hi' zs.
Proof.
  intros Hzs Hlo ->. revert i Hzs Hlo. induction zs as [|z zs IH]; intros i Hzs Hlo; [done|]. simpl.
  destruct (Hzs 0%nat z eq_refl) as [Hok Hix]. rewrite Nat.add_0_r in *. f_equal.
  - by apply (free_bytes_window _ _ _ _ _ _ _ Hok).
  - destruct zs as [|z2 zs]; [done|]. apply (IH (S i)); [by eapply zones_from_cons|].
    destruct (Hzs 1%nat z2 eq_refl) as [_ H1].
    pose proof (zones_monotone W spec i (S i) ltac:(lia) ltac:(lia)).
    pose proof (zs_bounds (W := W) i Hix). lia.
Qed.

Lemma total_free_le lo hi i zs :
  zones_from i zs -> zs <> [] -> total_free lo hi zs <= Z.max 0 (hi - Z.max lo (MZONE_MIN spec i)).
Proof.
  revert i. induction zs as [|z zs IH]; intros i Hzs Hne; [done|]. simpl.
  destruct (Hzs 0%nat z eq_refl) as [Hok Hix]. rewrite Nat.add_0_r in *.
  pose proof (free_bytes_le lo (Z.min hi (MZONE_MAX spec i + 1)) _ _ _ Hok) as H1.
  rewrite (free_bytes_window lo hi lo (Z.min hi (MZONE_MAX spec i + 1)) _ _ _ Hok) by lia.
  destruct zs as [|z2 zs]; [simpl; lia|].
  specialize (IH (S i) (zones_from_cons _ _ _ Hzs) ltac:(done)).
  destruct (Hzs 1%nat z2 eq_refl) as [_ Hs]. replace (i + 1)%nat with (S i) in Hs by lia.
  rewrite (zs_next (W := W) i Hs) in IH. pose proof (zs_bounds (W := W) i Hix). lia.
Qed.

Lemma available_zones_ok st zs i start n res :
  pages_inv spec st -> drop i (page_zones st) = zs -> zones_from i zs ->
  (zs <> [] -> MZONE_MIN spec i <= start) -> 0 <= n -> start + n <= phys_end spec -> 0 <= start ->
  0 <= res -> res + n < W ->
  available_zones W spec (length zs) st i start n res = Ret (res + total_free start (start + n) zs).
Proof.
  intros Hi. revert i start n res.
  induction zs as [|z zs IH]; intros i start n res Hdr Hzs Hmin Hn Hend Hs0 Hres HW.
  { simpl. by rewrite Z.add_0_r. }
  specialize (Hmin ltac:(done)). destruct (Hzs 0%nat z eq_refl) as [Hok Hix]. rewrite Nat.add_0_r in *.
  assert (page_zones st !! i = Some z) as Hl.
  { rewrite <- (Nat.add_0_r i), <- lookup_drop, Hdr. done. }
  assert (drop (S i) (page_zones st) = zs) as Hdr'.
  { replace (S i) with (i + 1)%nat by lia. by rewrite <- drop_drop, Hdr. }
  pose proof (zs_bounds (W := W) i Hix) as [Hb1 Hb2]. pose proof (zones_from_cons _ _ _ Hzs) as Hzs'.
  assert (Hnext : zs <> [] -> MZONE_MIN spec (S i) = MZONE_MAX spec i + 1).
  { intros Hne. destruct zs as [|z2 zs]; [done|]. destruct (Hzs' 0%nat z2 eq_refl) as [_ H].
    rewrite Nat.add_0_r in H. by apply (zs_next (W := W)). }
  pose proof (total_free_nonneg start (start + n) zs) as Hrest0. unfold PAGESIZE in Hb2.
  simpl. rewrite (proj2 (Z.leb_le _ _) Hmin). cbn [andb].
  destruct (Z.leb_spec start (MZONE_MAX spec i)) as [Hin|Hout].
  2: { rewrite (IH (S i)) by (try done; intros; rewrite Hnext by done; lia).
       pose proof (free_bytes_window start (start + n) start (start + n) _ _ _ Hok eq_refl eq_refl).
       assert (free_bytes start (start + n) (z_root z) = 0) as ->; [|f_equal; lia].
       rewrite (free_bytes_window start (start + n) start (MZONE_MAX spec i + 1) _ _ _ Hok) by lia.
       pose proof (free_bytes_le start (MZONE_MAX spec i + 1) _ _ _ Hok).
       pose proof (free_bytes_nonneg start (MZONE_MAX spec i + 1) (z_root z)). lia. }
  rewrite (Z.mod_small (MZONE_MAX spec i + 1 - start)) by lia.
  set (zb := if n <? _ then n else _).
  assert (zb = Z.min n (MZONE_MAX spec i + 1 - start)) as Ezb by (subst zb; bcase; lia). clearbody zb.
  pose proof (phys_end_W W spec) as HpW. unfold PAGESIZE in HpW.
  unfold page_do_available, PAGEZONE. rewrite Hl. cbn [obind]. rewrite (Z.mod_small (start + zb)) by lia.
  pose proof (free_bytes_le start (start + zb) _ _ _ Hok) as Hle.
  pose proof (free_bytes_nonneg start (start + zb) (z_root z)) as Hge.
  rewrite (available_loop_ok start (start + zb) _ 0 (MZONE_MIN spec i) (MZONE_MAX spec i + 1))
    by (done || unfold PAGESIZE; lia).
  cbn [obind]. rewrite Z.add_0_l, Z.mod_small by lia.
  rewrite (free_bytes_window start (start + n) start (start + zb) _ _ _ Hok) by lia.
  destruct (Z.eqb_spec (n - zb) 0) as [E|E].
  - f_equal. assert (total_free start (start + n) zs = 0) as ->; [|lia].
    destruct zs as [|z2 zs]; [done|].
    pose proof (total_free_le start (start + n) (S i) (z2 :: zs) Hzs' ltac:(done)) as Hl2.
    rewrite Hnext in Hl2 by done. lia.
  - assert (zb = MZONE_MAX spec i + 1 - start) as Ez by lia.
    rewrite (IH (S i)) by (try done; try (intros; rewrite Hnext by done); lia).
    replace (start + zb + (n - zb)) with (start + n) by lia. f_equal.
    destruct zs as [|z2 zs]; [simpl; lia|].
    rewrite (total_free_window (start + zb) (start + n) start (start + n) (S i) (z2 :: zs));
      [lia|done| |done]. rewrite Hnext by done. lia.
Qed.

(** [page_available] returns the number of free bytes in the window, summed
    over all ranges of all zones, although it skips and stops early. *)
Theorem page_available_ok st start n :
  pages_inv spec st -> 0 <= start -> start mod 4096 = 0 -> 0 <= n -> n mod 4096 = 0 ->
  start + n <= phys_end spec ->
  page_available W spec st start n = Ret (total_free start (start + n) (page_zones st)).
Proof.
  intros Hi Hs Ha Hn Hna Hend. unfold page_available.
  rewrite !(proj2 (aligned_page _)) by done. cbn [oassert]. pose proof (phys_end_W W spec).
  rewrite <- (pi_count spec st Hi).
  rewrite (available_zones_ok st (page_zones st) 0 start n 0); try done; try (unfold PAGESIZE in *; lia).
  - intros j z Hz. split; [by apply (pi_ranges spec st Hi)|by apply (zone_index spec st j z)].
  - intros _. by rewrite (zs_zero (W := W)).
Qed.

End Stats.

(** ** Where the code departs from its documentation *)

(** [page_query] never reports anything: [found] stays 0. *)
Theorem page_query_none W spec st start n r :
  page_query W spec st start n = Ret r -> r = PAGEATTR_NONE.
Proof. unfold page_query. intros H. by apply obind_Ret_inv in H as (x & _ & [= <-]). Qed.

(** After allocating a page the zone still counts all its bytes as available,
    and the number of free calls has gone down by 4096. *)
Theorem page_malloc_miscounts :
  match page_malloc (2 ^ 32) (2 ^ 32) sample_pages 4096 PAGEATTR_NONE 1 with
  | Ret (Some _, st) =>
      match page_zones st !! 1%nat with
      | Some z => z_avail z = 0xc000 /\ z_free z = 2 ^ 32 - 4096 /\
                  free_bytes 0 (2 ^ 32) (z_root z) = 0xb000
      | None => False
      end
  | _ => False
  end.
Proof. by vm_compute. Qed.

(** With [max < min] the function fails an assertion instead of failing. *)
Theorem malloc_in_inverted_aborts :
  page_malloc_in (2 ^ 32) (2 ^ 32) mzone_spec_i386 sample_pages 0x104000 0x101000 4096 PAGEATTR_NONE
  = Abort.
Proof. by vm_compute. Qed.

(** A maximum below the minimum is not replaced by the minimum. *)
Theorem malloc_part_below_min :
  match page_malloc_part (2 ^ 32) (2 ^ 32) sample_pages 0x2000 0x1000 PAGEATTR_NONE 1 with
  | Ret (Some (_, size), _) => size = 0x1000
  | _ => False
  end.
Proof. by vm_compute. Qed.

(** A link of a scatter chain can be smaller than the requested minimum. *)
Theorem scatter_below_min :
  match page_malloc_scatter (2 ^ 32) (2 ^ 32) mzone_spec_i386 sample_pages [true] 0 0x5000 0x4000
          PAGEATTR_NONE 1 with
  | Ret (Some chain, _) => chain = [(0x107000, 0x1000); (0x200000, 0x4000)]
  | _ => False
  end.
Proof. by vm_compute. Qed.

(** The zones' statistics start from what the caller's buffer contained. *)
Theorem page_stat_uninitialised :
  let garbage := mk_mzstat 7 7 7 7 7 7 7 7 in
  match page_stat (2 ^ 32) sample_pages [garbage; garbage] with
  | Ret ([_; z], _) => mz_freemin z = 7 /\ mz_freeblk z = 9
  | _ => False
  end.
Proof. by vm_compute. Qed.

(** On x86-64, growing a block by more than its address looks for memory below
    address 0: the wrapped address has no zone in [page_zones]. *)
Theorem realloc_wraps :
  page_realloc (2 ^ 64) (2 ^ 32) mzone_spec_x86_64
    (mk_pages (page_zones_init mzone_spec_x86_64) (fun _ => dirty_page)) 0x1000 0x1000 0x3000
    PAGEATTR_NONE 3 = Abort.
Proof. by vm_compute. Qed.

(** ** Concrete instances *)

Lemma links_ok c : forallb (fun l => (0 <? l.2) && (l.2 mod 4096 =? 0)) c = true -> Forall link_ok c.
Proof.
  rewrite <- Is_true_true, forallb_True. intros H. apply (Forall_impl _ _ _ H).
  intros [a n] Hl%Is_true_true. simpl in Hl. split; simpl; bsimp; done.
Qed.

Lemma mscatter_split_lo_ok_witness :
  exists lo hi, mscatter_split_lo 0x2000 [(0x1000, 0x1000); (0x5000, 0x2000)] = Ret (lo, hi).
Proof.
  destruct (mscatter_split_lo_ok [(0x1000, 0x1000); (0x5000, 0x2000)] 0x2000) as (lo & hi & H & _);
    [by apply links_ok|done..|by vm_compute|]. by exists lo, hi.
Defined.

Lemma mscatter_cat_ok_witness :
  exists ok c, mscatter_cat true [(0x1000, 0x1000)] [(0x2000, 0x2000)] = Ret (ok, c).
Proof.
  destruct (mscatter_cat_ok true [(0x1000, 0x1000)] [(0x2000, 0x2000)]) as (ok & c & H & _);
    [done|done|by apply links_ok..|]. by exists ok, c.
Defined.

Lemma mscatter_memcpy_ok_witness :
  exists l, mscatter_memcpy [(0x1000, 0x3000)] [(0x8000, 0x1000); (0xa000, 0x2000)] = Ret l.
Proof.
  destruct (mscatter_memcpy_ok [(0x1000, 0x3000)] [(0x8000, 0x1000); (0xa000, 0x2000)]) as (l & H & _);
    [done|done|by apply links_ok..|by vm_compute|]. by exists l.
Defined.

Lemma mov_pages_ok_witness :
  exists m', mov_pages_lo (2 ^ 32) 0x1000 0x2000 0x3000 sample_mem = Ret m' /\
    m' 0x3000 = copy_pages 0x1000 0x2000 0x3000 sample_mem 0x3000.
Proof. apply (mov_pages_ok (2 ^ 32) 0x1000 0x2000 0x3000 sample_mem 0x3000); done. Defined.

Lemma page_malloc_scatter_ok_witness :
  exists res st', page_malloc_scatter (2 ^ 32) (2 ^ 32) mzone_spec_i386 sample_pages [true] 0
    0x9000 0x1000 PAGEATTR_ZERO 1 = Ret (res, st').
Proof.
  destruct (page_malloc_scatter_ok (2 ^ 32) (2 ^ 32) mzone_spec_i386 sample_pages [true] 0
    0x9000 0x1000 PAGEATTR_ZERO 1) as (res & st' & H & _);
    [apply sample_pages_inv|done..|simpl; lia|]. by exists res, st'.
Defined.

Lemma page_realloc_ok_witness :
  exists res st', page_realloc (2 ^ 32) (2 ^ 32) mzone_spec_i386 sample_pages 0x300000 0x1000 0x3000
    PAGEATTR_ZERO 1 = Ret (res, st').
Proof.
  destruct (page_realloc_ok (2 ^ 32) (2 ^ 32) mzone_spec_i386 sample_pages 0x300000 0x1000 0x3000
    PAGEATTR_ZERO 1 0x1000 0x3000) as (res & st' & H & _);
    [apply sample_pages_inv|done..|simpl; lia| |by exists res, st'].
  intros x Hx Hf. apply sample_free in Hf. unfold inside in Hx. lia.
Defined.

Lemma page_available_ok_witness :
  page_available (2 ^ 32) mzone_spec_i386 sample_pages 0x106000 0xfc000
    = Ret (total_free 0x106000 0x202000 (page_zones sample_pages)).
Proof.
  apply (page_available_ok (2 ^ 32) mzone_spec_i386 sample_pages 0x106000 0xfc000);
    [apply sample_pages_inv|done..].
Defined.

Lemma page_query_none_witness :
  page_query (2 ^ 32) mzone_spec_i386 sample_pages 0x100000 0x1000 = Ret PAGEATTR_NONE /\
  PAGEATTR_NONE = PAGEATTR_NONE.
Proof.
  split; [by vm_compute|].
  apply (page_query_none (2 ^ 32) mzone_spec_i386 sample_pages 0x100000 0x1000). by vm_compute.
Defined.
