(* ===== verification/PhysMem.v ===== *)
(** * Physical memory of a 32-bit machine, as paging sees it

    The code that edits page tables reads and writes 32-bit words of physical
    memory, takes pages from the page allocator and gives them back, and
    invalidates translations.  [PhysMem] has these operations, [PhysLaws] what the
    paging code relies on; [machine] implements both with the allocator of
    [PageAlloc]. *)
From stdpp Require Import base numbers list.
From S2P Require Import Prelude Align PageAlloc PageScatter.

Definition page_of (x : Z) : Z := x / 4096 * 4096.

Lemma page_of_eq p x : p mod 4096 = 0 -> p <= x < p + 4096 -> page_of x = p.
Proof. intros. unfold page_of. mlia. Qed.

(** [scatter n]: [page_malloc_scatter] of [n] bytes; [malloc_page], [free_page]:
    [page_malloc] and [page_free] of one page. *)
Class PhysMem (A : Type) : Type := {
  rd32 : A -> Z -> Z;
  wr32 : Z -> Z -> A -> A;
  invlpg : Z -> A -> A;
  load_cr3 : A -> A;
  scatter : Z -> A -> outcome (option mscatter * A);
  malloc_page : A -> outcome (option Z * A);
  free_page : Z -> A -> outcome A
}.

(** [ram p]: the page at [p] is managed by the allocator; [isfree]: it is free
    at present.  The words of free pages are of no interest. *)
Class PhysLaws (A : Type) `{PhysMem A} : Type := {
  pinv : A -> Prop;
  isfree : A -> Z -> Prop;
  ram : Z -> Prop;
  reach : Z -> Prop;
  law_ram p : ram p -> p mod 4096 = 0 /\ 0 <= p < 0xfffff000;
  law_free_ram a p : pinv a -> isfree a p -> p mod 4096 = 0 -> ram p;
  law_wr a x v : pinv a -> ~ isfree a (page_of x) ->
    pinv (wr32 x v a) /\ forall p, isfree (wr32 x v a) p <-> isfree a p;
  law_rd a x v y : x mod 4 = 0 -> y mod 4 = 0 ->
    rd32 (wr32 x v a) y = if x =? y then v else rd32 a y;
  law_invlpg a x : (pinv a -> pinv (invlpg x a)) /\ (forall p, isfree (invlpg x a) p <-> isfree a p) /\
    (forall y, rd32 (invlpg x a) y = rd32 a y);
  law_cr3 a : (pinv a -> pinv (load_cr3 a)) /\ (forall p, isfree (load_cr3 a) p <-> isfree a p) /\
    (forall y, rd32 (load_cr3 a) y = rd32 a y);
  law_scatter a n : pinv a -> 0 <= n <= 0x2000 -> n mod 4096 = 0 ->
    exists r a', scatter n a = Ret (r, a') /\ pinv a' /\
      match r with
      | None => n <> 0 /\ forall p, isfree a' p <-> isfree a p
      | Some c => exists ps, left_in c ps /\ zlen ps * 4096 = n /\ NoDup ps /\
          (forall p, p ∈ ps -> p mod 4096 = 0 /\ isfree a p) /\
          (forall p, p mod 4096 = 0 -> isfree a' p <-> isfree a p /\ p ∉ ps)
      end /\
      (forall x, ~ isfree a (page_of x) -> rd32 a' x = rd32 a x);
  law_malloc a : pinv a ->
    exists r a', malloc_page a = Ret (r, a') /\ pinv a' /\
      match r with
      | None => (forall p, isfree a' p <-> isfree a p) /\
          forall p, p mod 4096 = 0 -> isfree a p -> ~ reach p
      | Some q => q mod 4096 = 0 /\ isfree a q /\
          (forall p, p mod 4096 = 0 -> isfree a' p <-> isfree a p /\ p <> q)
      end /\
      (forall x, ~ isfree a (page_of x) -> rd32 a' x = rd32 a x);
  law_free a q : pinv a -> ram q -> ~ isfree a q ->
    exists a', free_page q a = Ret a' /\ pinv a' /\
      (forall p, p mod 4096 = 0 -> isfree a' p <-> isfree a p \/ p = q) /\
      (forall x, ~ isfree a' (page_of x) -> rd32 a' x = rd32 a x)
}.

(** ** The implementation by the page allocator *)

Inductive tlb_event : Type := Inval (addr : Z) | Reload.

Record machine : Type := mk_machine {
  mc_pages : pages;
  mc_words : Z -> Z;
  mc_tlb : list tlb_event
}.

(** Freeness is a matter of whole pages. *)
Lemma free_whole_page st x :
  pages_inv mzone_spec_i386 st -> is_free st (page_of x) <-> is_free st x.
Proof.
  intros Hi. split; intros (i & z & Hz & Hc); exists i, z; (split; [done|]);
    apply covered_elem in Hc as (r & Hr & Hin); apply covered_elem; exists r; (split; [done|]);
    pose proof (ranges_ok_elem _ _ _ _ (pi_ranges _ _ Hi i z Hz) Hr) as (_ & _ & H1 & H2 & _);
    unfold inside, page_of in *; mlia.
Qed.

Lemma link_pages_elem s n p :
  s mod 4096 = 0 -> 0 <= n -> n mod 4096 = 0 ->
  p ∈ link_pages (s, n) <-> p mod 4096 = 0 /\ inside s n p.
Proof.
  intros Hs Hn Hn4. unfold link_pages, PAGESIZE, inside. cbn [fst snd].
  rewrite list_elem_of_fmap. setoid_rewrite elem_of_seqZ. split.
  - intros (i & -> & Hi). mlia.
  - intros [Hp Hin]. exists ((p - s) / 4096). mlia.
Qed.

Lemma chain_pages_elem c p :
  Forall (fun l => link_ok l /\ l.1 mod 4096 = 0) c ->
  p ∈ chain_pages c <-> p mod 4096 = 0 /\ in_chain c p.
Proof.
  intros Hc. induction Hc as [|[s n] c [[Hn Hn4] Hs] _ IH]; simpl in *.
  { unfold chain_pages, in_chain. simpl. rewrite Exists_nil, elem_of_nil. tauto. }
  rewrite chain_pages_cons, elem_of_app, IH, in_chain_cons, link_pages_elem by (done || lia).
  simpl. tauto.
Qed.

Lemma chain_pages_nodup c : chain_ok c -> NoDup (chain_pages c).
Proof.
  intros [Hc Hd]. induction Hc as [|[s n] c [[Hn Hn4] Hs] Hc IH]; simpl in *; [constructor|].
  destruct Hd as [Hd1 Hd2]. rewrite chain_pages_cons. apply NoDup_app. split_and!; [| |by apply IH].
  - unfold link_pages. apply NoDup_fmap_2; [|apply NoDup_seqZ].
    intros i j E. unfold PAGESIZE in E. simpl in E. lia.
  - intros p Hp Hp'. apply link_pages_elem in Hp as [_ Hp]; [|done|lia|done].
    apply chain_pages_elem in Hp' as [_ Hp']; [|done]. by apply (Hd1 p).
Qed.

Lemma left_in_chain c : c <> [] -> chain_ok c -> left_in c (chain_pages c).
Proof.
  intros Hne [Hc _]. split; [done|]. split; [done|]. left. by apply (Forall_impl _ _ _ Hc); intros l [].
Qed.

Section Machine.

(** [links] are the results of [kmalloc], [zone] the zone of page tables. *)
Context (REF : Z) (links : list bool) (zone : nat).

#[export] Instance machine_mem : PhysMem machine := {|
  rd32 := fun a x => mc_words a x;
  wr32 := fun x v a =>
    mk_machine
      (set_mem (mc_pages a) (fun p => if p =? page_of x then dirty_page else mem (mc_pages a) p))
      (fun y => if x =? y then v else mc_words a y) (mc_tlb a);
  invlpg := fun x a => mk_machine (mc_pages a) (mc_words a) (mc_tlb a ++ [Inval x]);
  load_cr3 := fun a => mk_machine (mc_pages a) (mc_words a) (mc_tlb a ++ [Reload]);
  scatter := fun n a =>
    let! (r, st) := page_malloc_scatter (2 ^ 32) REF mzone_spec_i386 (mc_pages a) links 0 n PAGESIZE
                      PAGEATTR_NONE zone in
    Ret (r, mk_machine st (mc_words a) (mc_tlb a));
  malloc_page := fun a =>
    let! (r, st) := page_malloc (2 ^ 32) REF (mc_pages a) PAGESIZE PAGEATTR_NONE zone in
    Ret (r, mk_machine st (mc_words a) (mc_tlb a));
  free_page := fun p a =>
    let! st := page_free (2 ^ 32) REF mzone_spec_i386 (mc_pages a) p PAGESIZE in
    Ret (mk_machine st (mc_words a) (mc_tlb a))
|}.

Hypothesis Hzone : (zone < 2)%nat.

Definition machine_ram (p : Z) : Prop := p mod 4096 = 0 /\ 0 <= p < phys_end mzone_spec_i386.

Lemma machine_wr a x v :
  pages_inv mzone_spec_i386 (mc_pages a) -> ~ is_free (mc_pages a) (page_of x) ->
  pages_inv mzone_spec_i386 (mc_pages (wr32 x v a)).
Proof.
  intros Hi Hf. apply set_mem_inv; [done|]. intros p _ Hp.
  destruct (Z.eqb_spec p (page_of x)) as [->|]; done.
Qed.

(** Without a free range in the zones allowed, no page of these zones is free. *)
Lemma none_in_reach st p :
  pages_inv mzone_spec_i386 st -> is_free st p ->
  (forall i z r, (i <= zone)%nat -> page_zones st !! i = Some z -> r ∈ z_root z -> p_size r < PAGESIZE) ->
  ~ (mzone_of mzone_spec_i386 p <= zone)%nat.
Proof.
  intros Hi (i & z & Hz & Hc) Hn Hle. pose proof (pi_ranges _ _ Hi i z Hz) as Hrs.
  assert (i < 2)%nat as Hi2 by (pose proof (lookup_lt_Some _ _ _ Hz) as Hl; by rewrite (pi_count _ _ Hi) in Hl).
  pose proof (covered_bounds _ _ _ _ Hrs Hc) as Hb.
  rewrite (zs_of (W := 2 ^ 32) (spec := mzone_spec_i386) i p) in Hle by (done || lia).
  apply covered_elem in Hc as (r & Hr & Hin). specialize (Hn i z r Hle Hz Hr).
  pose proof (ranges_ok_elem _ _ _ _ Hrs Hr) as (_ & H1 & _ & H2 & _). unfold PAGESIZE in Hn. mlia.
Qed.

Lemma machine_scatter a n :
  pages_inv mzone_spec_i386 (mc_pages a) -> 0 <= n <= 0x2000 -> n mod 4096 = 0 ->
  exists r a', scatter n a = Ret (r, a') /\ pages_inv mzone_spec_i386 (mc_pages a') /\
    match r with
    | None => n <> 0 /\ forall p, is_free (mc_pages a') p <-> is_free (mc_pages a) p
    | Some c => exists ps, left_in c ps /\ zlen ps * 4096 = n /\ NoDup ps /\
        (forall p, p ∈ ps -> p mod 4096 = 0 /\ is_free (mc_pages a) p) /\
        (forall p, p mod 4096 = 0 -> is_free (mc_pages a') p <-> is_free (mc_pages a) p /\ p ∉ ps)
    end /\ mc_words a' = mc_words a.
Proof.
  intros Hi Hn Hn4. cbn [scatter machine_mem].
  destruct (Z.eq_dec n 0) as [->|Hn0].
  { eexists _, _. split; [done|]. split; [done|]. split; [|done]. exists [].
    split; [split; [done|]; split; [done|]; right; by eexists|]. split; [done|].
    split; [constructor|]. split; [by intros p ?%elem_of_nil|].
    intros p _. rewrite elem_of_nil. tauto. }
  destruct (malloc_scatter_ok (2 ^ 32) REF mzone_spec_i386 (mc_pages a) links 0 n PAGESIZE PAGEATTR_NONE
    zone) as (res & st' & -> & Hr); try done; [lia|unfold PAGESIZE; lia|].
  cbn [obind]. eexists _, _. split; [done|]. destruct res as [c|]; cbn [mc_pages mc_words].
  - destruct Hr as [(Hi' & Hc & Hin & Hf & _) Hl].
    rewrite ceil_page_id in Hl by (unfold PAGESIZE; lia). split; [done|]. split; [|done].
    exists (chain_pages c). split.
    { apply left_in_chain; [|done]. intros ->. change (zlen (chain_pages [])) with 0 in Hl. lia. }
    split; [done|]. split; [by apply chain_pages_nodup|].
    split; [intros p [? ?]%chain_pages_elem; [auto|apply Hc]|].
    intros p Hp. rewrite Hf, chain_pages_elem by apply Hc. tauto.
  - destruct Hr as (Hi' & Hf & _). done.
Qed.

#[export] Instance machine_laws : PhysLaws machine.
Proof.
  refine {| pinv a := pages_inv mzone_spec_i386 (mc_pages a);
            isfree a := is_free (mc_pages a); ram := machine_ram;
            reach p := (mzone_of mzone_spec_i386 p <= zone)%nat |}.
  - intros p [H1 H2]. split; [done|]. change (phys_end mzone_spec_i386) with 0xc0000000 in H2. lia.
  - intros a p Hi Hf Hp. split; [done|]. by apply (free_below_end (2 ^ 32) mzone_spec_i386 (mc_pages a)).
  - intros a x v Hi Hf. split; [by apply machine_wr|done].
  - done.
  - done.
  - done.
  - intros a n Hi Hn Hn4. destruct (machine_scatter a n Hi Hn Hn4) as (r & a' & H1 & H2 & H3 & H4).
    exists r, a'. do 3 (split; [done|]). intros x _. simpl. by rewrite H4.
  - intros a Hi. cbn [malloc_page machine_mem].
    destruct (malloc_ok (2 ^ 32) REF mzone_spec_i386 (mc_pages a) PAGESIZE PAGEATTR_NONE zone)
      as (res & st' & -> & Hr); try done.
    cbn [obind]. eexists _, _. split; [done|]. change (CEIL_ALIGN (2 ^ 32) PAGESIZE PAGESIZE) with 4096 in Hr.
    destruct res as [q|]; cbn [mc_pages].
    + destruct Hr as [(Hi' & Hq & Hin & Hf & _) _]. split; [done|]. split; [|done]. split; [done|].
      split; [apply Hin; unfold inside; lia|]. intros p Hp. rewrite Hf. unfold inside.
      split; intros [? Hne]; (split; [done|]); [|intros Hx; apply Hne; mlia]. lia.
    + destruct Hr as [-> Hn]. split; [done|]. split; [|done]. split; [done|]. intros p Hp Hf.
      by apply (none_in_reach (mc_pages a)).
  - intros a q Hi [Hq Hq'] Hf. cbn [free_page machine_mem].
    change (CEIL_ALIGN (2 ^ 32) PAGESIZE PAGESIZE) with 4096.
    destruct (ffree_ok (2 ^ 32) REF mzone_spec_i386 (mc_pages a) q PAGESIZE PAGEATTR_NONE)
      as (st' & Hfr & Hi' & Hff & _); try done; try lia.
    + change (phys_end mzone_spec_i386) with 0xc0000000 in *. unfold PAGESIZE. mlia.
    + change (CEIL_ALIGN (2 ^ 32) PAGESIZE PAGESIZE) with 4096. intros x Hx Hxf. apply Hf.
      apply free_whole_page in Hxf; [|done]. by rewrite (page_of_eq q x Hq Hx) in Hxf.
    + change (CEIL_ALIGN (2 ^ 32) PAGESIZE PAGESIZE) with 4096 in Hff.
      unfold page_free. rewrite Hfr. cbn [obind]. eexists. split; [done|]. cbn [mc_pages mc_words].
      split; [done|]. split; [|done]. intros p Hp. rewrite Hff. unfold inside.
      split; intros [?|?]; auto; right; [mlia|lia].
Defined.

End Machine.
