(* ===== verification/Paging32.v ===== *)
(** * Page directories of a 32-bit machine (src/arch/i386-kos/kernel/paging32.c.inl,
      src/arch/i386-kos/include/arch/paging32.h, src/include/kernel/paging-util.h)

    A page directory is a page of 1024 words; a word is a 4 MiB mapping, or points
    to a page table of 1024 words.  Directories and tables are physical memory, so
    the model works on [PhysMem]; pointers are addresses.  The code is that of a
    debug build with [CONFIG_PDIR_SELFMAP]. *)
From stdpp Require Import base numbers list.
From S2P Require Import Prelude Align PageAlloc PageScatter PhysMem.

(** ** Constants *)

Definition VM_HOST_BASE : Z := 0xc0000000.
Definition THIS_PDIR_BASE : Z := 0xffc00000.
Definition KERNEL_GLOBAL_END : Z := THIS_PDIR_BASE.

Definition PDIR_ATTR_MASK : Z := 0xfff.
Definition PDIR_ATTR_GLOBAL : Z := 0x100.
Definition PDIR_ATTR_DIRTY : Z := 0x40.
Definition PDIR_ATTR_ACCESSED : Z := 0x20.
Definition PDIR_ATTR_USER : Z := 4.
Definition PDIR_ATTR_WRITE : Z := 2.
Definition PDIR_ATTR_PRESENT : Z := 1.
Definition PDIR_FLAG_NOFLUSH : Z := 0x8000.
Definition PDIR_ATTR_4MIB : Z := 0x80.

(** [~PDIR_ATTR_MASK] as a 32-bit word. *)
Definition ADDR_MASK : Z := 0xfffff000.

Definition PDTABLE_REPRSIZE : Z := 0x400000.
Definition PTTABLE_ARRAYSIZE : Z := 1024.
Definition PDTABLE_ALLOCSIZE : Z := 4096.
Definition PDIR_TABLE_COUNT : Z := 1024.

Definition PDIR_DINDEX (v_ptr : Z) : Z := Z.shiftr v_ptr 22.
Definition PDIR_TINDEX (v_ptr : Z) : Z := Z.land (Z.shiftr v_ptr 12) 0x3ff.
Definition PDIR_OFFSET (v_ptr : Z) : Z := Z.land v_ptr 0xfff.
Definition PDIR_MOFFSET (v_ptr : Z) : Z := Z.land v_ptr 0x3fffff.

Definition bits (w mask : Z) : bool := negb (Z.land w mask =? 0).

Definition PDENTRY_GETMAP (self : Z) : Z := Z.land self ADDR_MASK.
Definition PDENTRY_ISPRESENT (self : Z) : bool := bits self PDIR_ATTR_PRESENT.
Definition PDTABLE_GETPTEV (self : Z) : Z := Z.land self ADDR_MASK.
Definition PDTABLE_ISMAP (self : Z) : bool := bits self PDIR_ATTR_4MIB.
Definition PDTABLE_ISTABLE (self : Z) : bool := negb (bits self PDIR_ATTR_4MIB).
Definition PDTABLE_ISALLOC (self : Z) : bool :=
  negb (Z.land self ADDR_MASK =? ADDR_MASK) && PDTABLE_ISTABLE self.
Definition PDTABLE_ISVALID (self : Z) : bool :=
  negb (Z.land self ADDR_MASK =? ADDR_MASK) &&
  (Z.land self (Z.lor PDIR_ATTR_PRESENT PDIR_ATTR_4MIB) =? PDIR_ATTR_PRESENT).
Definition PDTABLE_GETMAP (self : Z) : Z := Z.land self ADDR_MASK.

Definition addr_isglob (ptr : Z) : bool := VM_HOST_BASE <=? ptr.
Definition PDIR_ATTR_ALLOW_4MIB (addr : Z) : bool := addr <? VM_HOST_BASE.

Definition u32 (x : Z) : Z := x mod 2 ^ 32.

(** The attributes of tables in the self-map. *)
Definition SELFMAP_ATTR : Z := 0x63.
Definition EOK : Z := 0.
Definition ENOMEM : Z := 12.

Section Paging.

Context {A : Type} `{PM : PhysMem A}.

(** The kernel's directory, by its physical and its virtual address. *)
Context (pdir_kernel pdir_kernel_v : Z).

Definition PDIR_ISKERNEL (self : Z) : bool := (self =? pdir_kernel) || (self =? pdir_kernel_v).

(** Addresses of the words of a directory or a table. *)
Definition pd_at (self i : Z) : Z := self + 4 * i.
Definition directory (a : A) (self i : Z) : Z := rd32 a (pd_at self i).

(** [memsetl], and [memcpy] of words. *)
Fixpoint memsetl (n : nat) (dst v : Z) (a : A) : A :=
  match n with
  | O => a
  | S n => memsetl n (dst + 4) v (wr32 dst v a)
  end.
Fixpoint memcpyl (n : nat) (dst src : Z) (a : A) : A :=
  match n with
  | O => a
  | S n => memcpyl n (dst + 4) (src + 4) (wr32 dst (rd32 a src) a)
  end.

(** [pdir_flush]: pages one by one, at least one of them, or everything. *)
Fixpoint flush_loop (fuel : nat) (start n_bytes : Z) (a : A) : A :=
  match fuel with
  | O => a
  | S fuel =>
      let a := invlpg start a in
      if n_bytes <=? PAGESIZE then a else flush_loop fuel (u32 (start + PAGESIZE)) (n_bytes - PAGESIZE) a
  end.
Definition pdir_flush (start n_bytes : Z) (a : A) : A :=
  if PAGESIZE * 256 <=? n_bytes then load_cr3 a else flush_loop 256 start n_bytes a.

(** ** Initialisation and copies *)

(** [pdir_initialize_selfmap]: the loop over the tables from [i] on. *)
Fixpoint selfmap_loop (n : nat) (self selfmap_table i : Z) (a : A) : outcome A :=
  match n with
  | O => Ret a
  | S n =>
      let w := directory a self i in
      assert! PDTABLE_ISALLOC w;;
      let e := Z.lor (Z.land w ADDR_MASK) SELFMAP_ATTR in
      let e := if i =? PDIR_TABLE_COUNT - 1 then e else Z.lor e PDIR_ATTR_GLOBAL in
      selfmap_loop n self selfmap_table (i + 1) (wr32 (pd_at selfmap_table i) e a)
  end.
Definition pdir_initialize_selfmap (self : Z) (a : A) : outcome A :=
  let w := directory a self (THIS_PDIR_BASE / PDTABLE_REPRSIZE) in
  assert! PDTABLE_ISALLOC w;;
  let first := VM_HOST_BASE / PDTABLE_REPRSIZE in
  selfmap_loop (Z.to_nat (PDIR_TABLE_COUNT - first)) self (PDTABLE_GETPTEV w) first a.

(** [pdir_kernel_v] is the memory at [pdir_kernel]. *)
Definition pdir_init (self : Z) (a : A) : outcome (bool * A) :=
  let first := VM_HOST_BASE / PDTABLE_REPRSIZE in
  let a := memsetl (Z.to_nat first) self ADDR_MASK a in
  let a := memcpyl (Z.to_nat ((KERNEL_GLOBAL_END - VM_HOST_BASE) / PDTABLE_REPRSIZE))
             (pd_at self first) (pd_at pdir_kernel first) a in
  let! (r, a) := malloc_page a in
  match r with
  | None => Ret (false, a)
  | Some last_table =>
      assert! IS_ALIGNED last_table PAGESIZE;;
      let a := wr32 (pd_at self (THIS_PDIR_BASE / PDTABLE_REPRSIZE)) (Z.lor last_table SELFMAP_ATTR) a in
      let a := memsetl (Z.to_nat first) last_table ADDR_MASK a in
      let! a := pdir_initialize_selfmap self a in
      Ret (true, a)
  end.

(** The release loop of [pdir_load_copy] over the tables below [i]. *)
Fixpoint load_copy_undo (i : nat) (self : Z) (a : A) : outcome A :=
  match i with
  | O => Ret a
  | S i =>
      let w := directory a self (Z.of_nat i) in
      if PDTABLE_ISVALID w
      then let! a := free_page (PDTABLE_GETPTEV w) a in load_copy_undo i self a
      else load_copy_undo i self a
  end.
Fixpoint load_copy_loop (n : nat) (i : nat) (self existing selfmap : Z) (a : A) : outcome (bool * A) :=
  match n with
  | O => Ret (true, a)
  | S n =>
      let w := directory a existing (Z.of_nat i) in
      if PDTABLE_ISVALID w then
        let! (r, a) := malloc_page a in
        match r with
        | None => let! a := load_copy_undo i self a in Ret (false, a)
        | Some table =>
            let a := memcpyl 1024 table (PDTABLE_GETPTEV w) a in
            let a := wr32 (pd_at self (Z.of_nat i)) (Z.lor table (Z.land w PDIR_ATTR_MASK)) a in
            assert! IS_ALIGNED table (PDIR_ATTR_MASK + 1);;
            let a := wr32 (pd_at selfmap (Z.of_nat i)) (Z.lor table SELFMAP_ATTR) a in
            load_copy_loop n (S i) self existing selfmap a
        end
      else load_copy_loop n (S i) self existing selfmap (wr32 (pd_at self (Z.of_nat i)) w a)
  end.
Definition pdir_load_copy (self existing : Z) (a : A) : outcome (bool * A) :=
  let w := directory a self (THIS_PDIR_BASE / PDTABLE_REPRSIZE) in
  assert! PDTABLE_ISALLOC w;;
  load_copy_loop (Z.to_nat (VM_HOST_BASE / PDTABLE_REPRSIZE)) 0 self existing (PDTABLE_GETPTEV w) a.

Fixpoint fini_loop (n : nat) (i : nat) (self : Z) (a : A) : outcome A :=
  match n with
  | O => Ret a
  | S n =>
      let w := directory a self (Z.of_nat i) in
      let! a :=
        if negb (PDTABLE_GETPTEV w =? ADDR_MASK) && negb (bits w PDIR_ATTR_4MIB)
        then free_page (PDTABLE_GETPTEV w) a else Ret a in
      fini_loop n (S i) self a
  end.
Definition pdir_fini (self : Z) (a : A) : outcome A :=
  assert! negb (self =? pdir_kernel_v) && negb (self =? pdir_kernel);;
  fini_loop (Z.to_nat (VM_HOST_BASE / PDTABLE_REPRSIZE)) 0 self a.

(** ** Tables *)

Definition pdir_ismapped (self page : Z) (a : A) : bool :=
  let table := directory a self (PDIR_DINDEX page) in
  if PDTABLE_ISMAP table then true
  else if negb (PDTABLE_ISALLOC table) then false
  else PDENTRY_ISPRESENT (rd32 a (pd_at (PDTABLE_GETPTEV table) (PDIR_TINDEX page))).

Definition pdir_table_changed (self table_index : Z) (a : A) : outcome A :=
  let last := THIS_PDIR_BASE / PDTABLE_REPRSIZE in
  assert! table_index <? PDIR_TABLE_COUNT;;
  assert! negb (table_index =? last);;
  assert! PDTABLE_ISALLOC (directory a self last);;
  let new_table := directory a self table_index in
  let self_entry := pd_at (PDTABLE_GETPTEV (directory a self last)) table_index in
  let a :=
    if PDTABLE_ISALLOC new_table
    then wr32 self_entry (Z.lor (PDTABLE_GETPTEV new_table) SELFMAP_ATTR) a
    else wr32 self_entry ADDR_MASK a in
  Ret (pdir_flush self_entry 4 a).

(** The loops that fill a table with consecutive pages. *)
Fixpoint fill_loop (n : nat) (iter phys_addr attr : Z) (a : A) : A :=
  match n with
  | O => a
  | S n => fill_loop n (iter + 4) (u32 (phys_addr + PAGESIZE)) attr (wr32 iter (Z.lor phys_addr attr) a)
  end.

(** [table] is the address of the directory's word. *)
Definition pd_table_map2tbl (table dyn_page : Z) (a : A) : outcome A :=
  assert! IS_ALIGNED dyn_page PAGESIZE;;
  let w := rd32 a table in
  let attr := Z.land w 0xf7f in
  let a := fill_loop 1024 dyn_page (PDTABLE_GETMAP w) attr a in
  let a := wr32 table (Z.lor dyn_page attr) a in
  assert! PDTABLE_ISALLOC (rd32 a table);;
  Ret a.

Definition pd_table_tbl2map (table : Z) (a : A) : outcome A :=
  assert! PDTABLE_ISVALID (rd32 a table);; Ret a.

(** [mscatter_takeone] where a page must be left. *)
Definition take_page (dynmem : mscatter) : outcome (Z * mscatter) :=
  let! (p, dynmem) := mscatter_takeone dynmem in
  match p with Some p => Ret (p, dynmem) | None => Abort end.

(** A table made of the 4 MiB mapping at [addr]. *)
Definition split_map (dynmem : mscatter) (self addr : Z) (a : A) : outcome (mscatter * A) :=
  let! (p, dynmem) := take_page dynmem in
  let! a := pd_table_map2tbl (pd_at self (PDIR_DINDEX addr)) p a in
  let! a := pdir_table_changed self (PDIR_DINDEX addr) a in
  Ret (dynmem, a).

Definition set_global (addr flags : Z) : Z :=
  if addr_isglob addr then Z.lor flags PDIR_ATTR_GLOBAL else flags.

(** [w |= flags] at [x]. *)
Definition or32 (x flags : Z) (a : A) : A := wr32 x (Z.lor (rd32 a x) flags) a.

(** ** Loops over ranges

    The three loops all functions on ranges have: pages up to the first table
    border, whole tables, and the remaining pages. *)

Section Ranges.

(** What is done with a page and with a table: address, target. *)
Variables (one tbl : mscatter -> Z -> Z -> A -> outcome (mscatter * A)).

(** The loops over pages; [stop] is the negated condition. *)
Fixpoint page_loop (stop : Z -> Z -> bool) (fuel : nat) (d : mscatter) (start target n_bytes : Z) (a : A)
    : outcome (mscatter * Z * Z * Z * A) :=
  if stop start n_bytes then Ret (d, start, target, n_bytes, a)
  else
    match fuel with
    | O => Abort
    | S fuel =>
        let! (d, a) := one d start target a in
        page_loop stop fuel d (u32 (start + PAGESIZE)) (u32 (target + PAGESIZE)) (u32 (n_bytes - PAGESIZE)) a
    end.
Definition head_stop (start n_bytes : Z) : bool := (n_bytes =? 0) || IS_ALIGNED start PDTABLE_REPRSIZE.
Definition tail_stop (start n_bytes : Z) : bool := n_bytes =? 0.

Fixpoint table_loop (fuel : nat) (d : mscatter) (start target n_bytes : Z) (a : A)
    : outcome (mscatter * Z * Z * Z * A) :=
  if n_bytes <? PDTABLE_REPRSIZE then Ret (d, start, target, n_bytes, a)
  else
    match fuel with
    | O => Abort
    | S fuel =>
        let! (d, a) := tbl d start target a in
        table_loop fuel d (u32 (start + PDTABLE_REPRSIZE)) (u32 (target + PDTABLE_REPRSIZE))
          (n_bytes - PDTABLE_REPRSIZE) a
    end.
(** Every round takes a page off [n_bytes]. *)
Definition range_loops (d : mscatter) (start target n_bytes : Z) (a : A)
    : outcome (mscatter * Z * Z * Z * A) :=
  let fuel := Z.to_nat (n_bytes / PAGESIZE) in
  let! (d, start, target, n_bytes, a) := page_loop head_stop fuel d start target n_bytes a in
  let! (d, start, target, n_bytes, a) := table_loop fuel d start target n_bytes a in
  page_loop tail_stop fuel d start target n_bytes a.

End Ranges.

(** [assertf(!dynmem.m_next && !dynmem.m_size)] *)
Definition used_up (dynmem : mscatter) : bool :=
  match dynmem with [(_, m_size)] => m_size =? 0 | _ => false end.

(** ** Protection *)

Definition pdir_mprotect_one (flags : Z) (self : Z) (dynmem : mscatter) (addr target : Z) (a : A)
    : outcome (mscatter * A) :=
  let flags := set_global addr flags in
  assert! Z.land flags ADDR_MASK =? 0;;
  let table := pd_at self (PDIR_DINDEX addr) in
  let protect d a :=
    let entry := pd_at (PDTABLE_GETPTEV (rd32 a table)) (PDIR_TINDEX addr) in
    let a := wr32 entry (Z.lor (Z.land (rd32 a entry) ADDR_MASK) flags) a in
    Ret (d, or32 table flags a) in
  if PDTABLE_ISMAP (rd32 a table) then
    let! (dynmem, a) := split_map dynmem self addr a in protect dynmem a
  else if negb (PDTABLE_ISALLOC (rd32 a table)) then Ret (dynmem, a)
  else protect dynmem a.

Fixpoint protect_loop (n : nat) (entry flags : Z) (a : A) : A :=
  match n with
  | O => a
  | S n => protect_loop n (entry + 4) flags (wr32 entry (Z.lor (Z.land (rd32 a entry) ADDR_MASK) flags) a)
  end.
Definition pdir_mprotect_tbl (flags : Z) (self : Z) (dynmem : mscatter) (addr target : Z) (a : A)
    : outcome (mscatter * A) :=
  let flags := set_global addr flags in
  assert! Z.land flags ADDR_MASK =? 0;;
  let table := pd_at self (PDIR_DINDEX addr) in
  if PDTABLE_ISMAP (rd32 a table) then
    Ret (dynmem, wr32 table (Z.lor (Z.land (rd32 a table) ADDR_MASK) flags) a)
  else if PDTABLE_ISALLOC (rd32 a table) then
    let a := protect_loop 1024 (PDTABLE_GETPTEV (rd32 a table)) flags a in
    let! a := if PDIR_ATTR_ALLOW_4MIB addr then pd_table_tbl2map table a else Ret a in
    Ret (dynmem, or32 table flags a)
  else Ret (dynmem, a).

Definition pdir_reqbytes_for_mprotect (self start n_bytes flags : Z) (a : A) : outcome Z :=
  assert! IS_ALIGNED start PAGESIZE;;
  assert! IS_ALIGNED n_bytes PAGESIZE;;
  if n_bytes =? 0 then Ret 0 else
  let table_min := PDIR_DINDEX (FLOOR_ALIGN start PDTABLE_REPRSIZE) in
  let table_max := PDIR_DINDEX (FLOOR_ALIGN (u32 (start + (n_bytes - 1))) PDTABLE_REPRSIZE) in
  assert! table_min <=? table_max;;
  let req i :=
    let table := directory a self i in
    if negb (PDTABLE_ISALLOC table) && negb (Z.land table PDIR_ATTR_MASK =? flags)
    then PDTABLE_ALLOCSIZE else 0 in
  Ret ((if negb (table_min =? table_max) then req table_max else 0) + req table_min).

(** The debug check of all pages. *)
Fixpoint all_mapped (n : nat) (self iter : Z) (a : A) : bool :=
  match n with
  | O => true
  | S n => pdir_ismapped self iter a && all_mapped n self (u32 (iter + PAGESIZE)) a
  end.

(** Returns the number of bytes, or [-ENOMEM]. *)
Definition pdir_mprotect (self start n_bytes flags : Z) (a : A) : outcome (Z * A) :=
  assert! IS_ALIGNED start PAGESIZE;;
  let n_bytes := CEIL_ALIGN (2 ^ 32) n_bytes PAGESIZE in
  assert! PDIR_ISKERNEL self || (n_bytes =? 0) || negb (addr_isglob (u32 (start + n_bytes - 1)));;
  assert! (u32 (start + n_bytes) =? 0) || (start <=? u32 (start + n_bytes));;
  assert! all_mapped (Z.to_nat (n_bytes / PAGESIZE)) self start a;;
  let prot_flags := Z.land flags PDIR_ATTR_MASK in
  let! reqmem := pdir_reqbytes_for_mprotect self start n_bytes prot_flags a in
  let! (dynmem, a) := scatter reqmem a in
  match dynmem with
  | None => Ret (- ENOMEM, a)
  | Some dynmem =>
      let! (dynmem, _, _, _, a) :=
        range_loops (pdir_mprotect_one prot_flags self) (pdir_mprotect_tbl prot_flags self)
          dynmem start 0 n_bytes a in
      assert! used_up dynmem;;
      Ret (n_bytes, if bits flags PDIR_FLAG_NOFLUSH then a else pdir_flush start n_bytes a)
  end.

(** ** Access checks *)

(** [table] is the table of the page before, when it has not changed. *)
Fixpoint maccess_loop (fuel : nat) (self : Z) (table : option Z) (addr n_bytes flags : Z) (a : A)
    : outcome bool :=
  match fuel with
  | O => Abort
  | S fuel =>
      let page w :=
        let entry := rd32 a (pd_at (PDTABLE_GETPTEV w) (PDIR_TINDEX addr)) in
        if negb (Z.land entry flags =? flags) then Ret false
        else if n_bytes <=? PAGESIZE then Ret true
        else
          let addr := u32 (addr + PAGESIZE) in
          let same := bits addr (Z.land (PDTABLE_REPRSIZE - 1) (Z.lnot (PAGESIZE - 1))) in
          maccess_loop fuel self (if same then Some w else None) addr (n_bytes - PAGESIZE) flags a in
      match table with
      | Some w => page w
      | None =>
          if n_bytes =? 0 then Ret true else
          let w := directory a self (PDIR_DINDEX addr) in
          if negb (Z.land w flags =? flags) then Ret false
          else if negb (PDTABLE_ISVALID w) then
            let n_bytes := u32 (n_bytes + Z.land addr (PDTABLE_REPRSIZE - 1)) in
            if n_bytes <=? PDTABLE_REPRSIZE then Ret true
            else maccess_loop fuel self None
                   (u32 (Z.land addr (PDTABLE_REPRSIZE - 1) + PDTABLE_REPRSIZE))
                   (n_bytes - PDTABLE_REPRSIZE) flags a
          else page w
      end
  end.
Definition pdir_maccess (self addr n_bytes flags : Z) (a : A) : outcome bool :=
  assert! bits flags PDIR_ATTR_PRESENT;;
  let n_bytes := u32 (n_bytes + Z.land addr (PAGESIZE - 1)) in
  let addr := Z.land addr (PAGESIZE - 1) in
  maccess_loop (Z.to_nat (n_bytes / PAGESIZE) + 2) self None addr n_bytes flags a.

Definition pdir_maccess_addr (self addr flags : Z) (a : A) : outcome bool :=
  assert! bits flags PDIR_ATTR_PRESENT;;
  let table := directory a self (PDIR_DINDEX addr) in
  if negb (Z.land table flags =? flags) then Ret false
  else if PDTABLE_ISMAP table then Ret true
  else if negb (PDTABLE_ISVALID table) then Ret true
  else Ret (Z.land (rd32 a (pd_at (PDTABLE_GETPTEV table) (PDIR_TINDEX addr))) flags =? flags).

Definition pdir_translate (self ptr : Z) (a : A) : outcome Z :=
  let table := directory a self (PDIR_DINDEX ptr) in
  if PDTABLE_ISMAP table then Ret (u32 (PDTABLE_GETMAP table + PDIR_MOFFSET ptr)) else
  assert! PDTABLE_ISVALID table;;
  let entry := rd32 a (pd_at (PDTABLE_GETPTEV table) (PDIR_TINDEX ptr)) in
  assert! PDENTRY_ISPRESENT entry;;
  Ret (PDENTRY_GETMAP entry + PDIR_OFFSET ptr).

(** [pdir_test_readable] and [pdir_test_writable]: [need] is the flags. *)
Definition pdir_test (need self ptr : Z) (a : A) : bool :=
  let table := directory a self (PDIR_DINDEX ptr) in
  if PDTABLE_ISMAP table then Z.land table need =? need
  else Z.land (rd32 a (pd_at (PDTABLE_GETPTEV table) (PDIR_TINDEX ptr))) need =? need.
Definition pdir_test_readable : Z -> Z -> A -> bool := pdir_test PDIR_ATTR_PRESENT.
Definition pdir_test_writable : Z -> Z -> A -> bool := pdir_test (Z.lor PDIR_ATTR_PRESENT PDIR_ATTR_WRITE).

(** ** Mapping *)

Definition pdir_mmap_one (flags : Z) (self : Z) (dynmem : mscatter) (addr target : Z) (a : A)
    : outcome (mscatter * A) :=
  let flags := set_global addr flags in
  assert! Z.land flags ADDR_MASK =? 0;;
  let table := pd_at self (PDIR_DINDEX addr) in
  let! (dynmem, a) :=
    if PDTABLE_ISMAP (rd32 a table) then split_map dynmem self addr a
    else if negb (PDTABLE_ISALLOC (rd32 a table)) then
      let! (map_page, dynmem) := take_page dynmem in
      assert! negb (addr_isglob addr);;
      let a := memsetl 1024 map_page ADDR_MASK a in
      let a := wr32 table (Z.lor map_page flags) a in
      let! a := pdir_table_changed self (PDIR_DINDEX addr) a in
      Ret (dynmem, a)
    else Ret (dynmem, a) in
  assert! PDTABLE_ISALLOC (rd32 a table);;
  let entry := pd_at (PDTABLE_GETPTEV (rd32 a table)) (PDIR_TINDEX addr) in
  let a := wr32 entry (Z.lor target flags) a in
  let a := or32 entry flags a in
  Ret (dynmem, or32 table flags a).

(** A 4 MiB mapping in place of the table at [addr]. *)
Definition map_4mib (flags : Z) (self addr target : Z) (a : A) : outcome A :=
  let table := pd_at self (PDIR_DINDEX addr) in
  let! a :=
    if PDTABLE_ISALLOC (rd32 a table) then free_page (PDTABLE_GETPTEV (rd32 a table)) a else Ret a in
  let a := wr32 table (Z.lor (Z.lor target flags) PDIR_ATTR_4MIB) a in
  pdir_table_changed self (PDIR_DINDEX addr) a.

Definition pdir_mmap_tbl (flags : Z) (self : Z) (dynmem : mscatter) (addr target : Z) (a : A)
    : outcome (mscatter * A) :=
  assert! Z.land flags ADDR_MASK =? 0;;
  if PDIR_ATTR_ALLOW_4MIB addr then
    let! a := map_4mib flags self addr target a in Ret (dynmem, a)
  else
    let w := directory a self (PDIR_DINDEX addr) in
    assert! PDTABLE_ISALLOC w;;
    assert! addr_isglob addr;;
    assert! negb (bits flags PDIR_ATTR_4MIB);;
    Ret (dynmem, fill_loop 1024 (PDTABLE_GETPTEV w) target (Z.lor flags PDIR_ATTR_GLOBAL) a).

Definition pdir_reqbytes_for_change (self start n_bytes : Z) (a : A) : outcome Z :=
  assert! IS_ALIGNED start PAGESIZE;;
  assert! IS_ALIGNED n_bytes PAGESIZE;;
  if n_bytes =? 0 then Ret 0 else
  let table_min := PDIR_DINDEX (FLOOR_ALIGN start PDTABLE_REPRSIZE) in
  let table_max := PDIR_DINDEX (FLOOR_ALIGN (u32 (start + (n_bytes - 1))) PDTABLE_REPRSIZE) in
  assert! table_min <=? table_max;;
  Ret ((if negb (table_min =? table_max) && negb (PDTABLE_ISALLOC (directory a self table_min)) &&
           negb (IS_ALIGNED start PDTABLE_REPRSIZE)
        then PDTABLE_ALLOCSIZE else 0) +
       (if negb (PDTABLE_ISALLOC (directory a self table_max)) &&
           (negb (IS_ALIGNED (u32 (start + n_bytes)) PDTABLE_REPRSIZE) ||
            negb (IS_ALIGNED start PDTABLE_REPRSIZE) && (table_min =? table_max))
        then PDTABLE_ALLOCSIZE else 0)).

(** The attempt to turn the table at [addr] into a mapping. *)
Definition try_tbl2map (self addr : Z) (a : A) : outcome A :=
  let table := pd_at self (PDIR_DINDEX addr) in
  if PDTABLE_ISVALID (rd32 a table) then pd_table_tbl2map table a else Ret a.

Definition pdir_mmap (self start n_bytes target flags : Z) (a : A) : outcome (Z * A) :=
  let prot_flags := Z.land flags PDIR_ATTR_MASK in
  assert! IS_ALIGNED start PAGESIZE;;
  assert! IS_ALIGNED target PAGESIZE;;
  if n_bytes =? 0 then Ret (- EOK, a) else
  assert! PDIR_ISKERNEL self || negb (addr_isglob (u32 (start + n_bytes - 1)));;
  let! reqmem := pdir_reqbytes_for_change self start n_bytes a in
  let! (dynmem, a) := scatter reqmem a in
  match dynmem with
  | None => Ret (- ENOMEM, a)
  | Some dynmem =>
      let! (dynmem, _, _, n_bytes, a) :=
        range_loops (pdir_mmap_one prot_flags self) (pdir_mmap_tbl prot_flags self)
          dynmem start target n_bytes a in
      assert! used_up dynmem;;
      let! a := if PDIR_ATTR_ALLOW_4MIB start then try_tbl2map self start a else Ret a in
      let max_addr := u32 (start + n_bytes - 1) in
      let! a :=
        if PDIR_ATTR_ALLOW_4MIB max_addr && negb (PDIR_DINDEX start =? PDIR_DINDEX max_addr)
        then try_tbl2map self max_addr a else Ret a in
      Ret (- EOK, if bits flags PDIR_FLAG_NOFLUSH then a else pdir_flush start n_bytes a)
  end.

(** [pdir_mmap_early] uses 4 MiB mappings everywhere. *)
Definition pdir_mmap_early (self start n_bytes target flags : Z) (a : A) : outcome (Z * A) :=
  let prot_flags := Z.land flags PDIR_ATTR_MASK in
  assert! IS_ALIGNED start PAGESIZE;;
  assert! IS_ALIGNED target PAGESIZE;;
  if n_bytes =? 0 then Ret (- EOK, a) else
  assert! PDIR_ISKERNEL self || negb (addr_isglob (u32 (start + n_bytes - 1)));;
  let! reqmem := pdir_reqbytes_for_change self start n_bytes a in
  let! (dynmem, a) := scatter reqmem a in
  match dynmem with
  | None => Ret (- ENOMEM, a)
  | Some dynmem =>
      let! (dynmem, _, _, n_bytes, a) :=
        range_loops (pdir_mmap_one prot_flags self)
          (fun d addr target a => let! a := map_4mib prot_flags self addr target a in Ret (d, a))
          dynmem start target n_bytes a in
      assert! used_up dynmem;;
      let! a := try_tbl2map self start a in
      let max_addr := u32 (start + n_bytes - 1) in
      let! a :=
        if negb (PDIR_DINDEX start =? PDIR_DINDEX max_addr) then try_tbl2map self max_addr a else Ret a in
      Ret (- EOK, if bits flags PDIR_FLAG_NOFLUSH then a else pdir_flush start n_bytes a)
  end.

(** ** Unmapping *)

Definition pdir_munmap_one (self : Z) (dynmem : mscatter) (addr target : Z) (a : A)
    : outcome (mscatter * A) :=
  let table := pd_at self (PDIR_DINDEX addr) in
  let clear d a :=
    Ret (d, wr32 (pd_at (PDTABLE_GETPTEV (rd32 a table)) (PDIR_TINDEX addr)) ADDR_MASK a) in
  if PDTABLE_ISMAP (rd32 a table) then
    let! (dynmem, a) := split_map dynmem self addr a in clear dynmem a
  else if negb (PDTABLE_ISALLOC (rd32 a table)) then Ret (dynmem, a)
  else clear dynmem a.

Definition pdir_munmap_tbl (self : Z) (dynmem : mscatter) (addr target : Z) (a : A)
    : outcome (mscatter * A) :=
  let table := pd_at self (PDIR_DINDEX addr) in
  let w := rd32 a table in
  if negb (PDIR_ATTR_ALLOW_4MIB addr) then
    assert! PDTABLE_ISALLOC w;;
    Ret (dynmem, memsetl 1024 (PDTABLE_GETPTEV w) ADDR_MASK a)
  else
    let! a := if PDTABLE_ISALLOC w then free_page (PDTABLE_GETPTEV w) a else Ret a in
    let a := wr32 table ADDR_MASK a in
    let! a := if PDTABLE_ISALLOC w then pdir_table_changed self (PDIR_DINDEX addr) a else Ret a in
    Ret (dynmem, a).

Definition pdir_munmap (self start n_bytes flags : Z) (a : A) : outcome (Z * A) :=
  assert! IS_ALIGNED start PAGESIZE;;
  let n_bytes := CEIL_ALIGN (2 ^ 32) n_bytes PAGESIZE in
  if n_bytes =? 0 then Ret (- EOK, a) else
  assert! PDIR_ISKERNEL self || negb (addr_isglob (u32 (start + n_bytes - 1)));;
  assert! (u32 (start + n_bytes) =? 0) || (start <? u32 (start + n_bytes));;
  let! reqmem := pdir_reqbytes_for_change self start n_bytes a in
  let! (dynmem, a) := scatter reqmem a in
  match dynmem with
  | None => Ret (- ENOMEM, a)
  | Some dynmem =>
      let! (dynmem, start, _, n_bytes, a) :=
        range_loops (pdir_munmap_one self) (pdir_munmap_tbl self) dynmem start 0 n_bytes a in
      assert! used_up dynmem;;
      Ret (- EOK, if bits flags PDIR_FLAG_NOFLUSH then a else pdir_flush start n_bytes a)
  end.

End Paging.
