(* ===== verification/Paging32Spec.v ===== *)
(** * What page directories promise

    The translation a page directory stands for ([walk], what the processor does),
    the invariant of directories with a self-map, and how the operations of
    [Paging32] change the translation of every page. *)
From stdpp Require Import base numbers list.
From S2P Require Import Prelude Align PageAlloc PageScatter PhysMem Paging32.

(** ** Words as page and attributes *)

Lemma land_addr w : 0 <= w < 2 ^ 32 -> Z.land w ADDR_MASK = w / 4096 * 4096.
Proof.
  intros Hw. change ADDR_MASK with (Z.shiftl (Z.ones 20) 12).
  change (w / 4096 * 4096) with (w / 2 ^ 12 * 2 ^ 12). rewrite <- Z.shiftl_mul_pow2 by lia.
  apply Z.bits_inj'. intros n Hn. rewrite Z.land_spec.
  destruct (Z.lt_ge_cases n 12).
  - rewrite !Z.shiftl_spec_low by lia. apply andb_false_r.
  - rewrite !Z.shiftl_spec by lia.
    rewrite Z.div_pow2_bits, Z.sub_add by lia.
    destruct (Z.lt_ge_cases n 32).
    + rewrite Z.ones_spec_low by lia. apply andb_true_r.
    + rewrite <- (Z.mod_small w (2 ^ 32)), Z.mod_pow2_bits_high by lia. done.
Qed.

(** [p] is the address of a page below 4 GiB, [f] a set of attributes. *)
Definition page_addr (p : Z) : Prop := p mod 4096 = 0 /\ 0 <= p < 2 ^ 32.
Definition attrs (f : Z) : Prop := 0 <= f < 4096.

Lemma lor_page p f : page_addr p -> attrs f -> Z.lor p f = p + f.
Proof.
  intros [Hp _] Hf. replace p with (p / 4096 * 2 ^ 12) by (change (2 ^ 12) with 4096; mlia).
  rewrite lor_add_low by (unfold attrs in Hf; lia). done.
Qed.

Lemma land_page p f : page_addr p -> attrs f -> Z.land (p + f) ADDR_MASK = p.
Proof. unfold page_addr, attrs. intros. rewrite land_addr by mlia. mlia. Qed.

Lemma land_low_page p f m : page_addr p -> attrs f -> attrs m -> Z.land (p + f) m = Z.land f m.
Proof.
  intros Hp Hf Hm. rewrite <- lor_page by done. apply Z.bits_inj'. intros n Hn.
  rewrite !Z.land_spec, Z.lor_spec. destruct (Z.testbit m n) eqn:Em; [|by rewrite !andb_false_r].
  assert (n < 12).
  { destruct (Z.lt_ge_cases n 12); [done|]. exfalso.
    rewrite <- (Z.mod_small m (2 ^ 12)), Z.mod_pow2_bits_high in Em by (unfold attrs in Hm; lia). done. }
  destruct Hp as [Hp _]. replace p with (p / 4096 * 2 ^ 12) by (change (2 ^ 12) with 4096; mlia).
  by rewrite Z.mul_pow2_bits_low by lia.
Qed.

Lemma bits_page p f m : page_addr p -> attrs f -> attrs m -> bits (p + f) m = bits f m.
Proof. intros. unfold bits. by rewrite land_low_page. Qed.

Lemma word_split w : 0 <= w < 2 ^ 32 -> exists p f, w = p + f /\ page_addr p /\ attrs f.
Proof.
  intros Hw. exists (w / 4096 * 4096), (w mod 4096). unfold page_addr, attrs. mlia.
Qed.

Lemma attrs_lor f g : attrs f -> attrs g -> attrs (Z.lor f g).
Proof.
  unfold attrs. intros Hf Hg.
  rewrite <- (Z.mod_small f (2 ^ 12)), <- (Z.mod_small g (2 ^ 12)) by lia.
  rewrite <- (Z.land_ones f 12), <- (Z.land_ones g 12), <- Z.land_lor_distr_l, Z.land_ones by lia.
  apply Z.mod_pos_bound. lia.
Qed.

Lemma attrs_land f g : attrs f -> attrs (Z.land f g).
Proof.
  unfold attrs. intros Hf. rewrite <- (Z.mod_small f (2 ^ 12)), <- (Z.land_ones f 12) by lia.
  rewrite <- Z.land_assoc, (Z.land_comm (Z.ones 12)), Z.land_assoc, Z.land_ones by lia.
  apply Z.mod_pos_bound. lia.
Qed.

Lemma lor_word p f g : page_addr p -> attrs f -> attrs g -> Z.lor (p + f) g = p + Z.lor f g.
Proof.
  intros Hp Hf Hg. rewrite <- lor_page, <- Z.lor_assoc, lor_page by auto using attrs_lor. done.
Qed.

(** The tests on a word in terms of its parts. *)
Lemma ismap_page p f : page_addr p -> attrs f -> PDTABLE_ISMAP (p + f) = bits f PDIR_ATTR_4MIB.
Proof. intros. apply bits_page; done. Qed.

Lemma isalloc_page p f :
  page_addr p -> attrs f -> PDTABLE_ISALLOC (p + f) = negb (p =? ADDR_MASK) && negb (bits f PDIR_ATTR_4MIB).
Proof.
  intros. unfold PDTABLE_ISALLOC, PDTABLE_ISTABLE. by rewrite land_page, bits_page.
Qed.

Lemma isalloc_word w :
  0 <= w < 2 ^ 32 -> PDTABLE_ISALLOC w = true ->
  page_addr (PDTABLE_GETPTEV w) /\ PDTABLE_GETPTEV w <> ADDR_MASK /\ PDTABLE_ISMAP w = false.
Proof.
  intros Hw Ha. unfold PDTABLE_ISALLOC, PDTABLE_ISTABLE in Ha. bsimp.
  destruct (word_split w Hw) as (p & f & -> & Hp & Hf). unfold PDTABLE_GETPTEV.
  rewrite land_page in * by done. done.
Qed.

(** ** Translation and invariant *)

Section Directory.

Context {A : Type} `{PL : PhysLaws A}.

(** The word of page [j] in table [i]. *)
Definition tab (a : A) (self i j : Z) : Z := rd32 a (pd_at (PDTABLE_GETPTEV (directory a self i)) j).

(** The processor's translation of virtual page [v]: physical page and rights
    (present, write, user). *)
Definition walk (a : A) (self v : Z) : option (Z * Z) :=
  let w := directory a self (v / 1024) in
  if bits w PDIR_ATTR_PRESENT then
    if PDTABLE_ISMAP w then Some (Z.land w 0xffc00000 + 4096 * (v mod 1024), Z.land w 7)
    else
      let e := tab a self (v / 1024) (v mod 1024) in
      if bits e PDIR_ATTR_PRESENT then Some (Z.land e ADDR_MASK, Z.land (Z.land e w) 7) else None
  else None.

(** The self-map's word [e] for the directory's word [w]: never for user space,
    and a map of the table if there is one. *)
Definition selfmaps (w e : Z) : Prop :=
  Z.land e 4 = 0 /\ (PDTABLE_ISALLOC w = true -> Z.land e 0xfffff001 = PDTABLE_GETPTEV w + 1).

(** Directories of processes and of the kernel once it is set up. *)
Record pdir_wf (a : A) (self : Z) : Prop := {
  wf_inv : pinv a;
  wf_self : page_addr self /\ ~ isfree a self;
  wf_word i : 0 <= i < 1024 -> 0 <= directory a self i < 2 ^ 32;
  wf_empty i : 0 <= i < 1024 -> PDTABLE_ISMAP (directory a self i) = false ->
    PDTABLE_ISALLOC (directory a self i) = false -> directory a self i = ADDR_MASK;
  wf_table i : 0 <= i < 1024 -> PDTABLE_ISALLOC (directory a self i) = true ->
    let p := PDTABLE_GETPTEV (directory a self i) in
    ~ isfree a p /\ p <> self /\ (i < 768 -> ram p);
  wf_entry i j : 0 <= i < 1024 -> 0 <= j < 1024 -> PDTABLE_ISALLOC (directory a self i) = true ->
    0 <= tab a self i j < 2 ^ 32 /\
    (bits (tab a self i j) PDIR_ATTR_PRESENT = true ->
     Z.land (Z.land (tab a self i j) (directory a self i)) 7 = Z.land (tab a self i j) 7);
  wf_inj i i' : 0 <= i < 1024 -> 0 <= i' < 1024 -> PDTABLE_ISALLOC (directory a self i) = true ->
    PDTABLE_ISALLOC (directory a self i') = true ->
    PDTABLE_GETPTEV (directory a self i) = PDTABLE_GETPTEV (directory a self i') -> i = i';
  wf_host i : 768 <= i < 1024 ->
    PDTABLE_ISALLOC (directory a self i) = true /\ Z.land (directory a self i) 3 = 3;
  wf_4mib i : 0 <= i < 1024 -> PDTABLE_ISMAP (directory a self i) = true ->
    bits (directory a self i) PDIR_ATTR_PRESENT = true ->
    PDTABLE_GETMAP (directory a self i) mod 2 ^ 22 = 0;
  wf_selfmap i : 0 <= i < 1024 -> selfmaps (directory a self i) (tab a self 1023 i)
}.

(** Pages of the directory, its tables, and the pages [ps] set aside for it. *)
Definition held (a : A) (self : Z) (ps : list Z) (p : Z) : Prop :=
  p = self \/ p ∈ ps \/
  exists i, 0 <= i < 1024 /\ PDTABLE_ISALLOC (directory a self i) = true /\
    PDTABLE_GETPTEV (directory a self i) = p.

Definition set_aside (a : A) (self : Z) (ps : list Z) : Prop :=
  NoDup ps /\ forall p, p ∈ ps -> ram p /\ ~ isfree a p /\ p <> self /\
    forall i, 0 <= i < 1024 -> PDTABLE_ISALLOC (directory a self i) = true ->
      PDTABLE_GETPTEV (directory a self i) <> p.

(** A step of an operation: no page is lost or used twice, and no other memory
    changes. *)
Record stepped (a a' : A) (self : Z) (ps ps' : list Z) : Prop := {
  st_wf : pdir_wf a' self;
  st_aside : set_aside a' self ps';
  st_pages p : p mod 4096 = 0 -> isfree a' p \/ held a' self ps' p <-> isfree a p \/ held a self ps p;
  st_frame y : y mod 4 = 0 -> ~ (isfree a (page_of y) \/ held a self ps (page_of y)) ->
    rd32 a' y = rd32 a y
}.

Lemma stepped_refl a self ps : pdir_wf a self -> set_aside a self ps -> stepped a a self ps ps.
Proof. by split. Qed.

Lemma page_of_mod y : page_of y mod 4096 = 0.
Proof. unfold page_of. apply Z.mod_mul. lia. Qed.

Lemma stepped_trans a a1 a2 self ps ps1 ps2 :
  stepped a a1 self ps ps1 -> stepped a1 a2 self ps1 ps2 -> stepped a a2 self ps ps2.
Proof.
  intros [H1 H2 H3 H4] [G1 G2 G3 G4]. split; [done|done| |].
  - intros p Hp. by rewrite G3, H3.
  - intros y Hy Hn. rewrite G4; [by apply H4|done|]. by rewrite H3 by apply page_of_mod.
Qed.

(** ** Writing to one page

    [rewritten a a' p f]: only the page [p] changed, its words are [f]. *)

Record rewritten (a a' : A) (p : Z) (f : Z -> Z) : Prop := {
  rw_inv : pinv a';
  rw_free q : isfree a' q <-> isfree a q;
  rw_in j : 0 <= j < 1024 -> rd32 a' (pd_at p j) = f j;
  rw_out y : y mod 4 = 0 -> page_of y <> p -> rd32 a' y = rd32 a y
}.

Lemma pd_at_page p j : p mod 4096 = 0 -> 0 <= j < 1024 -> page_of (pd_at p j) = p.
Proof. intros. apply page_of_eq; [done|]. unfold pd_at. lia. Qed.

Lemma pd_at_mod p j : p mod 4096 = 0 -> pd_at p j mod 4 = 0.
Proof. intros. unfold pd_at. mlia. Qed.

Lemma pd_at_inj p j j' : pd_at p j = pd_at p j' <-> j = j'.
Proof. unfold pd_at. lia. Qed.

Lemma rewritten_trans a a1 a2 p f g :
  rewritten a a1 p f -> rewritten a1 a2 p g -> rewritten a a2 p g.
Proof.
  intros [H1 H2 H3 H4] [G1 G2 G3 G4]. split; [done| |done|].
  - intros q. by rewrite G2.
  - intros y Hy Hp. by rewrite G4, H4.
Qed.

Lemma rewritten_ext a a' p f g :
  (forall j, 0 <= j < 1024 -> f j = g j) -> rewritten a a' p f -> rewritten a a' p g.
Proof. intros E [H1 H2 H3 H4]. split; [done|done| |done]. intros j Hj. by rewrite <- E, H3. Qed.

Definition put (f : Z -> Z) (i v : Z) (j : Z) : Z := if j =? i then v else f j.

Lemma put_eq f i v : put f i v i = v.
Proof. unfold put. by rewrite Z.eqb_refl. Qed.
Lemma put_ne f i v j : j <> i -> put f i v j = f j.
Proof. intros. unfold put. by rewrite (proj2 (Z.eqb_neq j i)). Qed.

Lemma wr_rewritten a p j v :
  pinv a -> p mod 4096 = 0 -> ~ isfree a p -> 0 <= j < 1024 ->
  rewritten a (wr32 (pd_at p j) v a) p (put (fun k => rd32 a (pd_at p k)) j v).
Proof.
  intros Hi Hp Hf Hj. destruct (law_wr a (pd_at p j) v Hi) as [H1 H2]; [by rewrite pd_at_page|].
  split; [done|done| |].
  - intros k Hk. rewrite law_rd by by apply pd_at_mod. unfold put.
    destruct (Z.eqb_spec (pd_at p j) (pd_at p k)) as [E|E]; rewrite pd_at_inj in E.
    + subst k. by rewrite Z.eqb_refl.
    + by rewrite (proj2 (Z.eqb_neq k j)) by auto.
  - intros y Hy Hpy. rewrite law_rd by (done || by apply pd_at_mod).
    destruct (Z.eqb_spec (pd_at p j) y) as [<-|]; [|done]. by rewrite pd_at_page in Hpy.
Qed.

Lemma or_rewritten a p j v :
  pinv a -> p mod 4096 = 0 -> ~ isfree a p -> 0 <= j < 1024 ->
  rewritten a (or32 (pd_at p j) v a) p
    (put (fun k => rd32 a (pd_at p k)) j (Z.lor (rd32 a (pd_at p j)) v)).
Proof. apply wr_rewritten. Qed.

(** A loop that writes the words of a page one after the other. *)
Lemma loop_rewritten (loop : nat -> Z -> A -> A) (g : A -> Z -> Z) p a :
  (forall k a, loop O k a = a) ->
  (forall n k a, loop (S n) k a = loop n (k + 1) (wr32 (pd_at p k) (g a k) a)) ->
  (forall a a' k, 0 <= k < 1024 -> (forall j, k <= j < 1024 -> rd32 a' (pd_at p j) = rd32 a (pd_at p j)) ->
                  (forall y, y mod 4 = 0 -> page_of y <> p -> rd32 a' y = rd32 a y) -> g a' k = g a k) ->
  pinv a -> p mod 4096 = 0 -> ~ isfree a p ->
  forall n k, 0 <= k -> k + Z.of_nat n <= 1024 ->
  rewritten a (loop n k a) p
    (fun j => if (k <=? j) && (j <? k + Z.of_nat n) then g a j else rd32 a (pd_at p j)).
Proof.
  intros H0 HS Hg Hi Hp Hf n. revert a Hi Hf. induction n as [|n IH]; intros a Hi Hf k Hk Hn.
  { rewrite H0. split; [done|done| |done]. intros j Hj.
    destruct (Z.leb_spec k j), (Z.ltb_spec j (k + Z.of_nat 0)); try done; lia. }
  rewrite HS. pose proof (wr_rewritten a p k (g a k) Hi Hp Hf ltac:(lia)) as Hw.
  destruct Hw as [W1 W2 W3 W4]. specialize (IH (wr32 (pd_at p k) (g a k) a) W1).
  rewrite W2 in IH. specialize (IH Hf (k + 1) ltac:(lia) ltac:(lia)).
  destruct IH as [I1 I2 I3 I4]. split; [done|intros q; by rewrite I2| |].
  - intros j Hj. rewrite I3 by done.
    destruct (Z.leb_spec (k + 1) j), (Z.ltb_spec j (k + 1 + Z.of_nat n));
      destruct (Z.leb_spec k j), (Z.ltb_spec j (k + Z.of_nat (S n))); try lia; cbn [andb].
    + apply Hg; [lia| |by apply W4]. intros j' Hj'. rewrite W3 by lia. by rewrite put_ne by lia.
    + rewrite W3 by lia. by rewrite put_ne by lia.
    + assert (j = k) as -> by lia. rewrite W3 by lia. apply put_eq.
    + rewrite W3 by lia. by rewrite put_ne by lia.
  - intros y Hy Hpy. rewrite I4 by done. by apply W4.
Qed.

Lemma pd_at_next p k : pd_at p k + 4 = pd_at p (k + 1).
Proof. unfold pd_at. lia. Qed.

Lemma pd_at_0 p : pd_at p 0 = p.
Proof. unfold pd_at. lia. Qed.

Lemma memsetl_ok a p k n v :
  pinv a -> p mod 4096 = 0 -> ~ isfree a p -> 0 <= k -> k + Z.of_nat n <= 1024 ->
  rewritten a (memsetl n (pd_at p k) v a) p
    (fun j => if (k <=? j) && (j <? k + Z.of_nat n) then v else rd32 a (pd_at p j)).
Proof.
  intros Hi Hp Hf Hk Hn.
  apply (loop_rewritten (fun n k a => memsetl n (pd_at p k) v a) (fun _ _ => v)); try done.
  intros m j b. simpl. by rewrite pd_at_next.
Qed.

Lemma fill_ok a p phys attr :
  pinv a -> p mod 4096 = 0 -> ~ isfree a p -> 0 <= phys < 2 ^ 32 ->
  rewritten a (fill_loop 1024 p phys attr a) p (fun j => Z.lor (u32 (phys + 4096 * j)) attr).
Proof.
  intros Hi Hp Hf Hphys.
  pose proof (loop_rewritten (fun n k a => fill_loop n (pd_at p k) (u32 (phys + 4096 * k)) attr a)
    (fun _ k => Z.lor (u32 (phys + 4096 * k)) attr) p a) as Hl.
  assert (u32 (phys + 4096 * 0) = phys) as E0 by (unfold u32; rewrite Z.mod_small; lia).
  rewrite <- E0 at 1. rewrite <- (pd_at_0 p) at 1.
  eapply rewritten_ext; [|apply Hl with (n := 1024%nat) (k := 0); try done; try lia].
  - intros j Hj. cbn beta. by rewrite (proj2 (Z.leb_le 0 j)), (proj2 (Z.ltb_lt j _)) by lia.
  - intros m j b. cbn [fill_loop]. rewrite pd_at_next. f_equal.
    unfold u32, PAGESIZE. rewrite Zplus_mod_idemp_l. f_equal. lia.
Qed.

Lemma protect_ok a p flags :
  pinv a -> p mod 4096 = 0 -> ~ isfree a p ->
  rewritten a (protect_loop 1024 p flags a) p
    (fun j => Z.lor (Z.land (rd32 a (pd_at p j)) ADDR_MASK) flags).
Proof.
  intros Hi Hp Hf.
  pose proof (loop_rewritten (fun n k a => protect_loop n (pd_at p k) flags a)
    (fun a k => Z.lor (Z.land (rd32 a (pd_at p k)) ADDR_MASK) flags) p a) as Hl.
  rewrite <- (pd_at_0 p) at 1.
  eapply rewritten_ext; [|apply Hl with (n := 1024%nat) (k := 0); try done; try lia].
  - intros j Hj. cbn beta. by rewrite (proj2 (Z.leb_le 0 j)), (proj2 (Z.ltb_lt j _)) by lia.
  - intros m j b. cbn [protect_loop]. by rewrite pd_at_next.
  - intros b b' k Hk Hb _. cbn beta. rewrite Hb by lia. done.
Qed.

(** Copies from another page. *)
Lemma memcpyl_ok a p q k n :
  pinv a -> p mod 4096 = 0 -> ~ isfree a p -> q mod 4096 = 0 -> q <> p -> 0 <= k ->
  k + Z.of_nat n <= 1024 ->
  rewritten a (memcpyl n (pd_at p k) (pd_at q k) a) p
    (fun j => if (k <=? j) && (j <? k + Z.of_nat n) then rd32 a (pd_at q j) else rd32 a (pd_at p j)).
Proof.
  intros Hi Hp Hf Hq Hne Hk Hn.
  apply (loop_rewritten (fun n k a => memcpyl n (pd_at p k) (pd_at q k) a)
    (fun a k => rd32 a (pd_at q k))); try done.
  - intros m j b. cbn [memcpyl]. by rewrite !pd_at_next.
  - intros b b' j Hj _ Hb. apply Hb; [by apply pd_at_mod|]. by rewrite pd_at_page.
Qed.

(** Flushing changes no memory. *)
Definition same_mem (a a' : A) : Prop :=
  (pinv a -> pinv a') /\ (forall p, isfree a' p <-> isfree a p) /\ (forall y, rd32 a' y = rd32 a y).

Lemma same_mem_trans a b c : same_mem a b -> same_mem b c -> same_mem a c.
Proof.
  intros (H1 & H2 & H3) (G1 & G2 & G3). split; [auto|]. split; intros; by rewrite ?G2, ?G3.
Qed.

Lemma flush_ok start n a : same_mem a (pdir_flush start n a).
Proof.
  unfold pdir_flush. bcase; [apply law_cr3|]. generalize 256%nat. intros fuel. clear E.
  revert start n a. induction fuel as [|fuel IH]; intros start n a; [by split|]. simpl.
  bcase; [apply law_invlpg|]. eapply same_mem_trans; [apply law_invlpg|apply IH].
Qed.

Lemma rewritten_same a a1 a2 p f : rewritten a a1 p f -> same_mem a1 a2 -> rewritten a a2 p f.
Proof.
  intros [H1 H2 H3 H4] (G1 & G2 & G3). split; [auto| | |].
  - intros q. by rewrite G2.
  - intros j Hj. by rewrite G3, H3.
  - intros y Hy Hp. by rewrite G3, H4.
Qed.

(** ** Changing one table

    A word [e] that fits into a table under the directory's word [w]. *)
Definition word_ok (w e : Z) : Prop :=
  0 <= e < 2 ^ 32 /\ (bits e PDIR_ATTR_PRESENT = true -> Z.land (Z.land e w) 7 = Z.land e 7).

(** A word [w] that fits at index [i] of a directory. *)
Record dir_ok (a : A) (self i w : Z) : Prop := {
  do_word : 0 <= w < 2 ^ 32;
  do_empty : PDTABLE_ISMAP w = false -> PDTABLE_ISALLOC w = false -> w = ADDR_MASK;
  do_table : PDTABLE_ISALLOC w = true ->
    ~ isfree a (PDTABLE_GETPTEV w) /\ PDTABLE_GETPTEV w <> self /\ (i < 768 -> ram (PDTABLE_GETPTEV w));
  do_entry j : 0 <= j < 1024 -> PDTABLE_ISALLOC w = true ->
    word_ok w (rd32 a (pd_at (PDTABLE_GETPTEV w) j));
  do_host : 768 <= i -> PDTABLE_ISALLOC w = true /\ Z.land w 3 = 3;
  do_4mib : PDTABLE_ISMAP w = true -> bits w PDIR_ATTR_PRESENT = true -> PDTABLE_GETMAP w mod 2 ^ 22 = 0
}.

(** The directory after a change at index [i0]. *)
Record changed (a a' : A) (self i0 w : Z) : Prop := {
  ch_inv : pinv a';
  ch_self : ~ isfree a' self;
  ch_dir i : 0 <= i < 1024 -> i <> i0 -> directory a' self i = directory a self i;
  ch_at : directory a' self i0 = w;
  ch_free i : 0 <= i < 1024 -> i <> i0 -> PDTABLE_ISALLOC (directory a self i) = true ->
    ~ isfree a' (PDTABLE_GETPTEV (directory a self i)) /\
    (PDTABLE_ISALLOC w = true -> PDTABLE_GETPTEV w <> PDTABLE_GETPTEV (directory a self i));
  ch_tab i j : 0 <= i < 1024 -> 0 <= j < 1024 -> i <> i0 -> PDTABLE_ISALLOC (directory a self i) = true ->
    i <> 1023 \/ j <> i0 -> tab a' self i j = tab a self i j;
  ch_map : 0 <= tab a' self 1023 i0 < 2 ^ 32 /\
    selfmaps w (tab a' self 1023 i0)
}.

Lemma land_7_of_3 e w : Z.land e 4 = 0 -> Z.land w 3 = 3 -> Z.land (Z.land e w) 7 = Z.land e 7.
Proof.
  intros He Hw. rewrite <- Z.land_assoc.
  change 7 with (Z.lor 4 3). rewrite !Z.land_lor_distr_r, Hw, He.
  rewrite (Z.land_comm w 4), Z.land_assoc, He, Z.land_0_l. done.
Qed.

Lemma getptev_page w : 0 <= w < 2 ^ 32 -> page_addr (PDTABLE_GETPTEV w).
Proof.
  intros Hw. destruct (word_split w Hw) as (p & f & -> & Hp & Hf). unfold PDTABLE_GETPTEV.
  by rewrite land_page.
Qed.

Lemma wf_update a a' self i0 w :
  pdir_wf a self -> 0 <= i0 < 1023 -> changed a a' self i0 w -> dir_ok a' self i0 w -> pdir_wf a' self.
Proof.
  intros Hwf Hi0 [C1 C2 C3 C4 C5 C6 C7] [D1 D2 D3 D4 D5 D6].
  assert (forall i, 0 <= i < 1024 -> i = i0 \/ i <> i0) as Hcase by lia.
  assert (forall j, tab a' self i0 j = rd32 a' (pd_at (PDTABLE_GETPTEV w) j)) as Ht0
    by (intros j; unfold tab; by rewrite C4).
  split; [done|split; [apply (wf_self a self Hwf)|done]|..].
  - intros i Hi. destruct (Hcase i Hi) as [->|Hn]; [by rewrite C4|]. rewrite C3 by done. by apply (wf_word a self Hwf).
  - intros i Hi. destruct (Hcase i Hi) as [->|Hn]; [by rewrite C4|]. rewrite C3 by done. by apply (wf_empty a self Hwf).
  - intros i Hi. destruct (Hcase i Hi) as [->|Hn]; [by rewrite C4|]. rewrite C3 by done. intros Ha.
    destruct (wf_table a self Hwf i Hi Ha) as (_ & H2 & H3). split; [by apply C5|done].
  - intros i j Hi Hj. destruct (Hcase i Hi) as [->|Hn].
    + rewrite C4, Ht0. intros Ha. by apply D4.
    + rewrite C3 by done. intros Ha.
      destruct (decide (i = 1023 /\ j = i0)) as [[-> ->]|Hx].
      * destruct C7 as [M1 M2]. split; [done|]. intros _. apply land_7_of_3; [apply M2|].
        by apply (wf_host a self Hwf).
      * rewrite C6 by (done || lia). by apply (wf_entry a self Hwf).
  - intros i i' Hi Hi'. destruct (Hcase i Hi) as [->|Hn], (Hcase i' Hi') as [->|Hn']; [done|..].
    + rewrite C4, C3 by done. intros H1 H2 H3. by apply (C5 i' Hi' Hn' H2) in H3.
    + rewrite C4, C3 by done. intros H1 H2 H3. by apply (C5 i Hi Hn H1) in H2.
    + rewrite !C3 by done. by apply (wf_inj a self Hwf).
  - intros i Hi. destruct (Hcase i ltac:(lia)) as [->|Hn]; [rewrite C4; apply D5; lia|].
    rewrite C3 by lia. by apply (wf_host a self Hwf).
  - intros i Hi. destruct (Hcase i Hi) as [->|Hn]; [by rewrite C4|]. rewrite C3 by done. by apply (wf_4mib a self Hwf).
  - intros i Hi. destruct (Hcase i Hi) as [->|Hn]; [rewrite C4; apply C7|].
    rewrite C3 by done. rewrite C6 by (lia || by apply (wf_host a self Hwf)). by apply (wf_selfmap a self Hwf).
Qed.

Lemma table_page a self i :
  pdir_wf a self -> 0 <= i < 1024 -> PDTABLE_ISALLOC (directory a self i) = true ->
  page_addr (PDTABLE_GETPTEV (directory a self i)) /\
  ~ isfree a (PDTABLE_GETPTEV (directory a self i)) /\ PDTABLE_GETPTEV (directory a self i) <> self.
Proof.
  intros Hwf Hi Ha. destruct (wf_table a self Hwf i Hi Ha) as (H1 & H2 & _).
  split; [|done]. by apply getptev_page, (wf_word a self Hwf).
Qed.

(** What a change of page [p] leaves alone. *)
Lemma dir_other a a' self p f i :
  rewritten a a' p f -> p <> self -> self mod 4096 = 0 -> 0 <= i < 1024 ->
  directory a' self i = directory a self i.
Proof.
  intros Hr Hp Hs Hi. apply (rw_out _ _ _ _ Hr); [by apply pd_at_mod|]. rewrite pd_at_page by done. auto.
Qed.

Lemma read_other a a' p q f j :
  rewritten a a' p f -> q <> p -> q mod 4096 = 0 -> 0 <= j < 1024 ->
  rd32 a' (pd_at q j) = rd32 a (pd_at q j).
Proof.
  intros Hr Hp Hs Hi. apply (rw_out _ _ _ _ Hr); [by apply pd_at_mod|]. by rewrite pd_at_page.
Qed.

(** The present word of a table, as a [dir_ok]. *)
Lemma wf_dir_ok a self i :
  pdir_wf a self -> 0 <= i < 1024 -> dir_ok a self i (directory a self i).
Proof.
  intros Hwf Hi. split.
  - by apply (wf_word a self Hwf).
  - by apply (wf_empty a self Hwf).
  - by apply (wf_table a self Hwf).
  - intros j Hj Ha. by apply (wf_entry a self Hwf).
  - intros Hh. apply (wf_host a self Hwf). lia.
  - by apply (wf_4mib a self Hwf).
Qed.

(** A change after which the directory has the same tables. *)
Lemma stepped_same a a' self ps :
  set_aside a self ps -> pdir_wf a' self -> (forall p, isfree a' p <-> isfree a p) ->
  (forall i, 0 <= i < 1024 ->
     PDTABLE_ISALLOC (directory a' self i) = PDTABLE_ISALLOC (directory a self i) /\
     (PDTABLE_ISALLOC (directory a self i) = true ->
      PDTABLE_GETPTEV (directory a' self i) = PDTABLE_GETPTEV (directory a self i))) ->
  (forall y, y mod 4 = 0 -> ~ held a self ps (page_of y) -> rd32 a' y = rd32 a y) ->
  stepped a a' self ps ps.
Proof.
  intros [Hn Hps] Hwf Hfree Hd Hy. split; [done| | |by intros; apply Hy; auto].
  - split; [done|]. intros p Hp. rewrite Hfree. destruct (Hps p Hp) as (H1 & H2 & H3 & H4).
    do 3 (split; [done|]). intros i Hi Ha. destruct (Hd i Hi) as [E1 E2]. rewrite E1 in Ha.
    rewrite E2 by done. by apply H4.
  - intros p Hp. rewrite Hfree. unfold held.
    assert ((exists i, 0 <= i < 1024 /\ PDTABLE_ISALLOC (directory a' self i) = true /\
               PDTABLE_GETPTEV (directory a' self i) = p) <->
            (exists i, 0 <= i < 1024 /\ PDTABLE_ISALLOC (directory a self i) = true /\
               PDTABLE_GETPTEV (directory a self i) = p)) as ->; [|done].
    split; intros (i & Hi & H1 & H2); exists i; destruct (Hd i Hi) as [E1 E2]; (split; [done|]);
      rewrite E1 in *; (split; [done|]); by rewrite E2 in *.
Qed.

(** Distinct tables are distinct pages. *)
Lemma table_ne a self i i' :
  pdir_wf a self -> 0 <= i < 1024 -> 0 <= i' < 1024 -> PDTABLE_ISALLOC (directory a self i) = true ->
  PDTABLE_ISALLOC (directory a self i') = true -> i <> i' ->
  PDTABLE_GETPTEV (directory a self i) <> PDTABLE_GETPTEV (directory a self i').
Proof. intros Hwf Hi Hi' Ha Ha' Hne E. apply Hne. by apply (wf_inj a self Hwf). Qed.

Lemma selfmap_table a self : pdir_wf a self -> PDTABLE_ISALLOC (directory a self 1023) = true.
Proof. intros Hwf. apply (wf_host a self Hwf). lia. Qed.

(** Entries of one table. *)
Lemma write_table a a' self ps i0 f :
  pdir_wf a self -> set_aside a self ps -> 0 <= i0 < 1023 ->
  PDTABLE_ISALLOC (directory a self i0) = true ->
  rewritten a a' (PDTABLE_GETPTEV (directory a self i0)) f ->
  (forall j, 0 <= j < 1024 -> word_ok (directory a self i0) (f j)) ->
  stepped a a' self ps ps /\
  (forall i, 0 <= i < 1024 -> directory a' self i = directory a self i) /\
  (forall i j, 0 <= i < 1024 -> 0 <= j < 1024 -> PDTABLE_ISALLOC (directory a self i) = true ->
     tab a' self i j = if i =? i0 then f j else tab a self i j).
Proof.
  intros Hwf Hps Hi0 Ha Hr Hf. destruct (wf_self a self Hwf) as [[Hs _] Hsf].
  destruct (table_page a self i0 Hwf ltac:(lia) Ha) as ([Hp _] & Hpf & Hps').
  assert (forall i, 0 <= i < 1024 -> directory a' self i = directory a self i) as Hd
    by (intros i Hi; by apply (dir_other a a' self _ f i Hr)).
  assert (forall i j, 0 <= i < 1024 -> 0 <= j < 1024 -> PDTABLE_ISALLOC (directory a self i) = true ->
     tab a' self i j = if i =? i0 then f j else tab a self i j) as Ht.
  { intros i j Hi Hj Hai. unfold tab. rewrite Hd by done. destruct (Z.eqb_spec i i0) as [->|Hne].
    - by apply (rw_in _ _ _ _ Hr).
    - destruct (table_page a self i Hwf Hi Hai) as ([Hq _] & _).
      apply (read_other _ _ _ _ _ _ Hr); [|done..]. apply table_ne; done || lia. }
  split; [|done]. apply stepped_same; [done| |apply Hr|by intros i Hi; rewrite Hd|].
  - apply (wf_update a a' self i0 (directory a self i0)); [done|done| |].
    + split; [apply Hr|by rewrite (rw_free _ _ _ _ Hr)|by auto|by apply Hd; lia| | |].
      * intros i Hi Hne Hai. rewrite (rw_free _ _ _ _ Hr).
        split; [by apply (table_page a self i Hwf)|]. intros _. apply table_ne; done || lia.
      * intros i j Hi Hj Hne Hai _. rewrite Ht by done. by rewrite (proj2 (Z.eqb_neq i i0)).
      * pose proof (selfmap_table a self Hwf). rewrite Ht, (proj2 (Z.eqb_neq 1023 i0)) by (done || lia).
        split; [apply (wf_entry a self Hwf); (done || lia)|apply (wf_selfmap a self Hwf); lia].
    + destruct (wf_dir_ok a self i0 Hwf ltac:(lia)) as [D1 D2 D3 D4 D5 D6]. split; try done.
      * intros _. rewrite (rw_free _ _ _ _ Hr). by apply D3.
      * intros j Hj _. rewrite (rw_in _ _ _ _ Hr) by done. by apply Hf.
  - intros y Hy Hn. apply (rw_out _ _ _ _ Hr); [done|]. intros E. apply Hn. right. right.
    exists i0. split; [lia|]. auto.
Qed.

Lemma rights_or e w g :
  Z.land (Z.land e w) 7 = Z.land e 7 -> Z.land (Z.land e (Z.lor w g)) 7 = Z.land e 7.
Proof.
  intros E. apply Z.bits_inj'. intros n Hn. apply (f_equal (fun z => Z.testbit z n)) in E.
  rewrite !Z.land_spec in E |- *. rewrite Z.lor_spec.
  destruct (Z.testbit e n), (Z.testbit w n), (Z.testbit g n), (Z.testbit 7 n); done.
Qed.

Lemma bits_or f g m : bits (Z.lor f g) m = bits f m || bits g m.
Proof.
  unfold bits. rewrite Z.land_lor_distr_l.
  destruct (Z.eqb_spec (Z.land f m) 0) as [->|H1]; [by rewrite Z.lor_0_l|].
  destruct (Z.eqb_spec (Z.lor (Z.land f m) (Z.land g m)) 0) as [E|]; [|done].
  apply Z.lor_eq_0_iff in E. tauto.
Qed.

(** Adding attributes to a word that points to a table. *)
Lemma or_word w g :
  0 <= w < 2 ^ 32 -> attrs g -> bits g PDIR_ATTR_4MIB = false ->
  0 <= Z.lor w g < 2 ^ 32 /\ PDTABLE_GETPTEV (Z.lor w g) = PDTABLE_GETPTEV w /\
  PDTABLE_ISALLOC (Z.lor w g) = PDTABLE_ISALLOC w /\ PDTABLE_ISMAP (Z.lor w g) = PDTABLE_ISMAP w.
Proof.
  intros Hw Hg H4. destruct (word_split w Hw) as (p & f & -> & Hp & Hf).
  rewrite lor_word by done. pose proof (attrs_lor f g Hf Hg) as Hfg.
  split; [unfold page_addr, attrs in *; mlia|]. unfold PDTABLE_GETPTEV. rewrite !land_page by done.
  rewrite !isalloc_page, !ismap_page, bits_or, H4, orb_false_r by done. done.
Qed.

(** Entries of one table, and then its attributes. *)
Lemma set_table a a1 a' self ps i0 f g :
  pdir_wf a self -> set_aside a self ps -> 0 <= i0 < 1023 ->
  PDTABLE_ISALLOC (directory a self i0) = true -> attrs g -> bits g PDIR_ATTR_4MIB = false ->
  rewritten a a1 (PDTABLE_GETPTEV (directory a self i0)) f ->
  rewritten a1 a' self (put (directory a self) i0 (Z.lor (directory a self i0) g)) ->
  (forall j, 0 <= j < 1024 -> word_ok (Z.lor (directory a self i0) g) (f j)) ->
  stepped a a' self ps ps /\
  (forall i, 0 <= i < 1024 ->
     directory a' self i = put (directory a self) i0 (Z.lor (directory a self i0) g) i) /\
  (forall i j, 0 <= i < 1024 -> 0 <= j < 1024 -> PDTABLE_ISALLOC (directory a self i) = true ->
     tab a' self i j = if i =? i0 then f j else tab a self i j).
Proof.
  intros Hwf Hps Hi0 Ha Hg H4 Hr1 Hr Hf. destruct (wf_self a self Hwf) as [[Hs _] Hsf].
  destruct (or_word _ g (wf_word a self Hwf i0 ltac:(lia)) Hg H4) as (W1 & W2 & W3 & W4).
  destruct (table_page a self i0 Hwf ltac:(lia) Ha) as ([Hp _] & _ & Hps0).
  assert (forall q, isfree a' q <-> isfree a q) as Hfree
    by (intros q; by rewrite (rw_free _ _ _ _ Hr), (rw_free _ _ _ _ Hr1)).
  assert (forall i, 0 <= i < 1024 ->
     directory a' self i = put (directory a self) i0 (Z.lor (directory a self i0) g) i) as Hd
    by (intros i Hi; by apply (rw_in _ _ _ _ Hr)).
  assert (forall i, 0 <= i < 1024 -> PDTABLE_GETPTEV (directory a' self i) = PDTABLE_GETPTEV (directory a self i))
    as Hg' by (intros i Hi; rewrite Hd by done; unfold put; by destruct (Z.eqb_spec i i0) as [->|]).
  assert (forall i j, 0 <= i < 1024 -> 0 <= j < 1024 -> PDTABLE_ISALLOC (directory a self i) = true ->
     tab a' self i j = if i =? i0 then f j else tab a self i j) as Ht.
  { intros i j Hi Hj Hai. unfold tab. rewrite Hg' by done.
    destruct (table_page a self i Hwf Hi Hai) as ([Hq _] & _ & Hne).
    rewrite (read_other _ _ _ _ _ _ Hr) by done. destruct (Z.eqb_spec i i0) as [->|Hn].
    - by apply (rw_in _ _ _ _ Hr1).
    - apply (read_other _ _ _ _ _ _ Hr1); [|done..]. apply table_ne; done || lia. }
  split; [|done]. apply stepped_same; [done| |done| |].
  - apply (wf_update a a' self i0 (Z.lor (directory a self i0) g)); [done|done| |].
    + split; [apply Hr|by rewrite Hfree| | | | |].
      * intros i Hi Hne. rewrite Hd by done. by rewrite put_ne.
      * rewrite Hd by lia. apply put_eq.
      * intros i Hi Hne Hai. rewrite Hfree, W2.
        split; [by apply (table_page a self i Hwf)|]. intros _. apply table_ne; done || lia.
      * intros i j Hi Hj Hne Hai _. rewrite Ht by done. by rewrite (proj2 (Z.eqb_neq i i0)).
      * pose proof (selfmap_table a self Hwf). rewrite Ht, (proj2 (Z.eqb_neq 1023 i0)) by (done || lia).
        split; [apply (wf_entry a self Hwf); (done || lia)|]. unfold selfmaps. rewrite W2, W3.
        apply (wf_selfmap a self Hwf). lia.
    + destruct (wf_dir_ok a self i0 Hwf ltac:(lia)) as [D1 D2 D3 D4 D5 D6]. split; [done|..].
      * rewrite W3, Ha. done.
      * intros _. rewrite Hfree, W2. by apply D3.
      * intros j Hj _. rewrite W2, (read_other _ _ _ _ _ _ Hr), (rw_in _ _ _ _ Hr1) by done. by apply Hf.
      * intros Hh. rewrite W3. destruct (D5 Hh) as [_ E3]. split; [done|].
        rewrite Z.land_lor_distr_l, E3. apply Z.bits_inj'. intros n Hn. rewrite Z.lor_spec, Z.land_spec.
        destruct (Z.testbit 3 n), (Z.testbit g n); done.
      * rewrite W4. apply isalloc_word in Ha as (_ & _ & ->); done.
  - intros i Hi. rewrite Hg' by done. split; [|done]. rewrite Hd by done. unfold put.
    by destruct (Z.eqb_spec i i0) as [->|].
  - intros y Hy Hn. rewrite (rw_out _ _ _ _ Hr), (rw_out _ _ _ _ Hr1); [done|done| |done|];
      intros E; apply Hn; [|by left]. right. right. exists i0. split; [lia|]. auto.
Qed.

(** The self-map follows a change. *)
Lemma table_changed_ok a self i :
  pinv a -> 0 <= i < 1023 -> PDTABLE_ISALLOC (directory a self 1023) = true ->
  PDTABLE_GETPTEV (directory a self 1023) mod 4096 = 0 ->
  ~ isfree a (PDTABLE_GETPTEV (directory a self 1023)) ->
  exists a', pdir_table_changed self i a = Ret a' /\
    rewritten a a' (PDTABLE_GETPTEV (directory a self 1023))
      (put (tab a self 1023) i
        (if PDTABLE_ISALLOC (directory a self i)
         then Z.lor (PDTABLE_GETPTEV (directory a self i)) SELFMAP_ATTR else ADDR_MASK)).
Proof.
  intros Hi Hr Ha Hp Hf. unfold pdir_table_changed.
  change (THIS_PDIR_BASE / PDTABLE_REPRSIZE) with 1023. unfold PDIR_TABLE_COUNT.
  rewrite (proj2 (Z.ltb_lt i 1024)), (proj2 (Z.eqb_neq i 1023)), Ha by lia. cbn [oassert negb].
  eexists. split; [done|]. eapply rewritten_same; [|apply flush_ok].
  destruct (PDTABLE_ISALLOC (directory a self i)); apply wr_rewritten; done || lia.
Qed.

Lemma selfmap_entry w :
  0 <= w < 2 ^ 32 ->
  let e := Z.lor (PDTABLE_GETPTEV w) SELFMAP_ATTR in 0 <= e < 2 ^ 32 /\ selfmaps w e.
Proof.
  intros Hw. pose proof (getptev_page w Hw) as Hp. cbv zeta. rewrite lor_page by done.
  split; [unfold page_addr, SELFMAP_ATTR in *; mlia|]. split; [by rewrite land_low_page|].
  intros _. change 0xfffff001 with (Z.lor ADDR_MASK 1).
  rewrite Z.land_lor_distr_r, land_page, land_low_page by done.
  change (Z.land SELFMAP_ATTR 1) with 1. by apply lor_page.
Qed.

(** Memory [a1] in which the directory and its tables but for [i0] are as in [a]. *)
Definition kept (a a1 : A) (self i0 : Z) : Prop :=
  pinv a1 /\ forall q, q = self \/ (exists i, 0 <= i < 1024 /\ i <> i0 /\
      PDTABLE_ISALLOC (directory a self i) = true /\ PDTABLE_GETPTEV (directory a self i) = q) ->
    ~ isfree a1 q /\ forall j, 0 <= j < 1024 -> rd32 a1 (pd_at q j) = rd32 a (pd_at q j).

(** A new word at [i0], and what the other tables have to do with it. *)
Definition links (a1 a : A) (self i0 w : Z) : Prop :=
  dir_ok a1 self i0 w /\
  forall i, 0 <= i < 1024 -> i <> i0 -> PDTABLE_ISALLOC (directory a self i) = true ->
    PDTABLE_ISALLOC w = true -> PDTABLE_GETPTEV w <> PDTABLE_GETPTEV (directory a self i).

Lemma relink_word a a1 self i0 w :
  pdir_wf a self -> 0 <= i0 < 768 -> kept a a1 self i0 -> links a1 a self i0 w ->
  let a2 := wr32 (pd_at self i0) w a1 in
  rewritten a1 a2 self (put (directory a self) i0 w) /\ dir_ok a2 self i0 w /\
  (forall i, 0 <= i < 1024 -> directory a2 self i = put (directory a self) i0 w i) /\
  (forall i j, 0 <= i < 1024 -> 0 <= j < 1024 -> i <> i0 -> PDTABLE_ISALLOC (directory a self i) = true ->
     tab a2 self i j = tab a self i j).
Proof.
  intros Hwf Hi0 [Hi1 Hk] [Hdo Hne] a2. destruct (wf_self a self Hwf) as [[Hs _] _].
  destruct (Hk self (or_introl eq_refl)) as [Hsf Hsd].
  assert (rewritten a1 a2 self (put (directory a self) i0 w)) as Hr.
  { eapply rewritten_ext; [|apply wr_rewritten; done || lia]. intros j Hj. unfold put. cbn beta.
    by rewrite Hsd. }
  assert (forall i, 0 <= i < 1024 -> directory a2 self i = put (directory a self) i0 w i) as Hd
    by (intros i Hi; by apply (rw_in _ _ _ _ Hr)).
  split; [done|]. split; [|split; [done|]].
  - destruct Hdo as [D1 D2 D3 D4 D5 D6]. split; try done.
    + intros Ha. rewrite (rw_free _ _ _ _ Hr). by apply D3.
    + intros j Hj Ha. rewrite (read_other _ _ _ _ _ _ Hr); [by apply D4|by apply D3| |done].
      by apply getptev_page.
  - intros i j Hi Hj Hn Ha. unfold tab. rewrite Hd, put_ne by done.
    destruct (table_page a self i Hwf Hi Ha) as ([Hq _] & _ & Hqs).
    rewrite (read_other _ _ _ _ _ _ Hr) by done. apply Hk; [|done]. right. by exists i.
Qed.

Lemma relink a a1 self i0 w :
  pdir_wf a self -> 0 <= i0 < 768 -> kept a a1 self i0 -> links a1 a self i0 w ->
  exists a3, pdir_table_changed self i0 (wr32 (pd_at self i0) w a1) = Ret a3 /\ pdir_wf a3 self /\
    (forall i, 0 <= i < 1024 -> directory a3 self i = put (directory a self) i0 w i) /\
    (forall i j, 0 <= i < 1023 -> 0 <= j < 1024 -> i <> i0 -> PDTABLE_ISALLOC (directory a self i) = true ->
       tab a3 self i j = tab a self i j) /\
    (forall j, 0 <= j < 1024 -> PDTABLE_ISALLOC w = true ->
       tab a3 self i0 j = rd32 a1 (pd_at (PDTABLE_GETPTEV w) j)) /\
    (forall q, isfree a3 q <-> isfree a1 q) /\
    (forall y, y mod 4 = 0 -> page_of y <> self -> page_of y <> PDTABLE_GETPTEV (directory a self 1023) ->
       rd32 a3 y = rd32 a1 y).
Proof.
  intros Hwf Hi0 Hk Hl. destruct (relink_word a a1 self i0 w Hwf Hi0 Hk Hl) as (Hr & Hdo & Hd & Ht).
  set (a2 := wr32 (pd_at self i0) w a1) in *. destruct Hk as [Hi1 Hk]. destruct Hl as [Hdo1 Hne].
  pose proof (selfmap_table a self Hwf) as H23.
  destruct (table_page a self 1023 Hwf ltac:(lia) H23) as ([HT _] & HTf & HTs).
  destruct (Hk (PDTABLE_GETPTEV (directory a self 1023))) as [HTf1 _]; [right; exists 1023; auto with lia|].
  assert (directory a2 self 1023 = directory a self 1023) as E23 by (rewrite Hd, put_ne by lia; done).
  destruct (table_changed_ok a2 self i0) as (a3 & -> & Hr3); rewrite ?E23; try done; [apply Hr|lia| |].
  { by rewrite (rw_free _ _ _ _ Hr). }
  rewrite E23 in Hr3. set (T := PDTABLE_GETPTEV (directory a self 1023)) in *.
  assert (forall i, 0 <= i < 1024 -> directory a3 self i = put (directory a self) i0 w i) as Hd3.
  { intros i Hi. rewrite <- Hd by done. apply (dir_other _ _ _ _ _ _ Hr3); [done| |done].
    apply (wf_self a self Hwf). }
  assert (forall q, isfree a3 q <-> isfree a1 q) as Hf3
    by (intros q; by rewrite (rw_free _ _ _ _ Hr3), (rw_free _ _ _ _ Hr)).
  assert (forall i j, 0 <= i < 1023 -> 0 <= j < 1024 -> i <> i0 -> PDTABLE_ISALLOC (directory a self i) = true ->
       tab a3 self i j = tab a self i j) as Ht3.
  { intros i j Hi Hj Hn Ha. rewrite <- Ht by (done || lia). unfold tab. rewrite Hd, Hd3 by lia.
    rewrite put_ne by done. destruct (table_page a self i Hwf ltac:(lia) Ha) as ([Hq _] & _).
    apply (read_other _ _ _ _ _ _ Hr3); [|done..]. apply table_ne; done || lia. }
  assert (forall j, 0 <= j < 1024 -> PDTABLE_ISALLOC w = true ->
       rd32 a3 (pd_at (PDTABLE_GETPTEV w) j) = rd32 a1 (pd_at (PDTABLE_GETPTEV w) j)) as Hw3.
  { intros j Hj Ha. pose proof (getptev_page w (do_word _ _ _ _ Hdo)) as [Hp _].
    rewrite (read_other _ _ _ _ _ _ Hr3); [|apply Hne; done || lia|done|done].
    apply (read_other _ _ _ _ _ _ Hr); [by apply (do_table _ _ _ _ Hdo)|done|done]. }
  exists a3. split; [done|]. split; [|split; [done|split; [done|split; [|split; [done|]]]]].
  - apply (wf_update a a3 self i0 w); [done|lia| |].
    + split; [apply Hr3|rewrite Hf3; apply Hk; by left| |by rewrite Hd3, put_eq by lia| | |].
      * intros i Hi Hn. rewrite Hd3 by done. by apply put_ne.
      * intros i Hi Hn Ha. rewrite Hf3. split; [apply Hk; right; by exists i|]. by apply Hne.
      * intros i j Hi Hj Hn Ha Hx. destruct (decide (i = 1023)) as [->|]; [|apply Ht3; done || lia].
        unfold tab. rewrite Hd3, put_ne by lia. fold T. rewrite (rw_in _ _ _ _ Hr3) by done.
        rewrite put_ne by lia. rewrite Ht by (done || lia). done.
      * assert (tab a3 self 1023 i0 = if PDTABLE_ISALLOC w then Z.lor (PDTABLE_GETPTEV w) SELFMAP_ATTR
                                      else ADDR_MASK) as ->.
        { unfold tab. rewrite Hd3, put_ne by lia. fold T. rewrite (rw_in _ _ _ _ Hr3) by lia.
          rewrite put_eq, Hd, put_eq by lia. done. }
        destruct (PDTABLE_ISALLOC w) eqn:Haw; [apply selfmap_entry, (do_word _ _ _ _ Hdo)|].
        split; [done|]. split; [done|congruence].
    + destruct Hdo1 as [D1 D2 D3 D4 D5 D6]. split; try done.
      * intros Ha. rewrite Hf3. by apply D3.
      * intros j Hj Ha. rewrite Hw3 by done. by apply D4.
  - intros j Hj Ha. unfold tab. rewrite Hd3, put_eq by lia. by apply Hw3.
  - intros y Hy H1 H2. rewrite (rw_out _ _ _ _ Hr3) by done. by apply (rw_out _ _ _ _ Hr).
Qed.

(** The pages of tables after the word at [i0] has changed to [w]. *)
Lemma tables_put a a' self i0 w p :
  0 <= i0 < 1024 ->
  (forall i, 0 <= i < 1024 -> directory a' self i = put (directory a self) i0 w i) ->
  (exists i, 0 <= i < 1024 /\ PDTABLE_ISALLOC (directory a' self i) = true /\
     PDTABLE_GETPTEV (directory a' self i) = p) <->
  (PDTABLE_ISALLOC w = true /\ PDTABLE_GETPTEV w = p) \/
  (exists i, 0 <= i < 1024 /\ i <> i0 /\ PDTABLE_ISALLOC (directory a self i) = true /\
     PDTABLE_GETPTEV (directory a self i) = p).
Proof.
  intros Hi0 Hd. split.
  - intros (i & Hi & H1 & H2). rewrite Hd in H1, H2 by done. unfold put in *.
    destruct (Z.eqb_spec i i0) as [->|Hn]; [by left|]. right. by exists i.
  - intros [[H1 H2]|(i & Hi & Hn & H1 & H2)]; [exists i0|exists i];
      (split; [done|]); rewrite Hd by done; [by rewrite put_eq|by rewrite put_ne].
Qed.

(** A new table of page [p], with entries [f]. *)
Lemma new_table a a1 self p ps i0 g f :
  pdir_wf a self -> set_aside a self (p :: ps) -> 0 <= i0 < 768 ->
  PDTABLE_ISALLOC (directory a self i0) = false -> attrs g -> bits g PDIR_ATTR_4MIB = false ->
  rewritten a a1 p f -> (forall j, 0 <= j < 1024 -> word_ok (p + g) (f j)) ->
  exists a3, pdir_table_changed self i0 (wr32 (pd_at self i0) (Z.lor p g) a1) = Ret a3 /\
    stepped a a3 self (p :: ps) ps /\
    PDTABLE_ISALLOC (p + g) = true /\ PDTABLE_GETPTEV (p + g) = p /\
    (forall i, 0 <= i < 1024 -> directory a3 self i = put (directory a self) i0 (p + g) i) /\
    (forall j, 0 <= j < 1024 -> tab a3 self i0 j = f j) /\
    (forall i j, 0 <= i < 1023 -> 0 <= j < 1024 -> i <> i0 -> PDTABLE_ISALLOC (directory a self i) = true ->
       tab a3 self i j = tab a self i j).
Proof.
  intros Hwf [Hnd Hps] Hi0 Ha Hg H4 Hr Hf. apply NoDup_cons in Hnd as [Hpn Hnd].
  destruct (Hps p) as (P1 & P2 & P3 & P4); [by left|]. destruct (law_ram p P1) as [Q1 Q2].
  assert (page_addr p) as Hp by (split; [done|lia]).
  assert (PDTABLE_ISALLOC (p + g) = true) as Hw.
  { rewrite isalloc_page, H4 by done. unfold ADDR_MASK. by rewrite (proj2 (Z.eqb_neq p _)) by lia. }
  assert (PDTABLE_GETPTEV (p + g) = p) as Hpt by by apply land_page.
  rewrite lor_page by done.
  destruct (relink a a1 self i0 (p + g)) as (a3 & H1 & H2 & H3 & H5 & H6 & H7 & H8); [done|done| | |].
  - split; [apply Hr|]. intros q Hq. rewrite (rw_free _ _ _ _ Hr).
    assert (~ isfree a q /\ q mod 4096 = 0 /\ q <> p) as (E1 & E2 & E3).
    { destruct Hq as [->|(i & Hi & Hn & Hai & <-)].
      - destruct (wf_self a self Hwf) as [[Hs _] Hsf]. auto.
      - destruct (table_page a self i Hwf Hi Hai) as ([Hq _] & Hqf & _). split; [done|]. split; [done|].
        by apply P4. }
    split; [done|]. intros j Hj. by apply (read_other _ _ _ _ _ _ Hr).
  - split; [|intros i Hi Hn Hai _; rewrite Hpt; apply not_eq_sym; by apply P4].
    split; [unfold page_addr, attrs in *; mlia|by rewrite Hw| | |lia| ].
    + intros _. rewrite Hpt, (rw_free _ _ _ _ Hr). auto.
    + intros j Hj _. rewrite Hpt, (rw_in _ _ _ _ Hr) by done. by apply Hf.
    + apply isalloc_word in Hw as (_ & _ & ->); [done|]. unfold page_addr, attrs in *. mlia.
  - assert (forall q, (exists i, 0 <= i < 1024 /\ i <> i0 /\ PDTABLE_ISALLOC (directory a self i) = true /\
        PDTABLE_GETPTEV (directory a self i) = q) <->
        exists i, 0 <= i < 1024 /\ PDTABLE_ISALLOC (directory a self i) = true /\
        PDTABLE_GETPTEV (directory a self i) = q) as Hex.
    { intros q. split; [intros (i & ? & ? & ?); by exists i|]. intros (i & Hi & Hai & Hq).
      exists i. split; [done|]. split; [|done]. intros ->. congruence. }
    exists a3. split; [done|]. split; [|split; [done|split; [done|split; [done|split; [|done]]]]].
    + split; [done| | |].
      * split; [done|]. intros q Hq. destruct (Hps q) as (R1 & R2 & R3 & R4); [by right|].
        rewrite H7, (rw_free _ _ _ _ Hr). do 3 (split; [done|]). intros i Hi. rewrite H3 by done.
        unfold put. destruct (Z.eqb_spec i i0) as [->|]; [|by apply R4]. rewrite Hpt. by intros _ ->.
      * intros q Hq. rewrite H7, (rw_free _ _ _ _ Hr). unfold held.
        rewrite (tables_put a a3 self i0 (p + g)), Hex, elem_of_cons, Hw, Hpt by (done || lia).
        split; intros Hx; intuition (subst; auto).
      * intros y Hy Hn. rewrite H8; [apply (rw_out _ _ _ _ Hr); [done|]|done|..]; intros E; apply Hn; right.
        -- right. left. rewrite E. by left.
        -- by left.
        -- right. right. exists 1023. split; [lia|]. split; [by apply selfmap_table|done].
    + intros j Hj. rewrite H6, Hpt by done. by apply (rw_in _ _ _ _ Hr).
Qed.

(** Giving back the table at [i0], if there is one. *)
Lemma release_table a self i0 :
  pdir_wf a self -> 0 <= i0 < 768 ->
  exists a1,
    (if PDTABLE_ISALLOC (directory a self i0) then free_page (PDTABLE_GETPTEV (directory a self i0)) a
     else Ret a) = Ret a1 /\ kept a a1 self i0 /\
    (forall p, p mod 4096 = 0 -> isfree a1 p <-> isfree a p \/
       (PDTABLE_ISALLOC (directory a self i0) = true /\ PDTABLE_GETPTEV (directory a self i0) = p)) /\
    (forall y, ~ isfree a1 (page_of y) -> rd32 a1 y = rd32 a y).
Proof.
  intros Hwf Hi0. destruct (wf_self a self Hwf) as [[Hs _] Hsf].
  assert (forall q, q = self \/ (exists i, 0 <= i < 1024 /\ i <> i0 /\
      PDTABLE_ISALLOC (directory a self i) = true /\ PDTABLE_GETPTEV (directory a self i) = q) ->
      q mod 4096 = 0 /\ ~ isfree a q) as Hq.
  { intros q [->|(i & Hi & Hn & Ha & <-)]; [done|]. by destruct (table_page a self i Hwf Hi Ha) as ([Hq _] & ? & _). }
  destruct (PDTABLE_ISALLOC (directory a self i0)) eqn:Ha.
  - destruct (wf_table a self Hwf i0 ltac:(lia) Ha) as (T1 & T2 & T3).
    destruct (law_free a (PDTABLE_GETPTEV (directory a self i0))) as (a1 & H1 & H2 & H3 & H4);
      [apply Hwf|auto with lia|done|]. exists a1. split; [done|].
    split; [split; [done|]|split; [|done]].
    + intros q Hx. destruct (Hq q Hx) as [Hq1 Hq2].
      assert (~ isfree a1 q) as Hf.
      { rewrite H3 by done. intros [?|E]; [done|]. destruct Hx as [->|(i & Hi & Hn & Hai & <-)]; [done|].
        apply Hn. apply (wf_inj a self Hwf); done || lia. }
      split; [done|]. intros j Hj. apply H4. by rewrite pd_at_page.
    + intros p Hp. rewrite H3 by done. intuition auto.
  - exists a. split; [done|]. split; [split; [apply Hwf|]|split; [|done]].
    + intros q Hx. split; [by apply Hq|done].
    + intros p Hp. intuition congruence.
Qed.

(** What a step that replaced the table at [i0] by no table does to the pages. *)
Lemma stepped_drop a a1 a3 self ps i0 w :
  pdir_wf a self -> set_aside a self ps -> 0 <= i0 < 768 -> PDTABLE_ISALLOC w = false -> pdir_wf a3 self ->
  (forall p, p mod 4096 = 0 -> isfree a1 p <-> isfree a p \/
     (PDTABLE_ISALLOC (directory a self i0) = true /\ PDTABLE_GETPTEV (directory a self i0) = p)) ->
  (forall y, ~ isfree a1 (page_of y) -> rd32 a1 y = rd32 a y) ->
  (forall i, 0 <= i < 1024 -> directory a3 self i = put (directory a self) i0 w i) ->
  (forall q, isfree a3 q <-> isfree a1 q) ->
  (forall y, y mod 4 = 0 -> page_of y <> self -> page_of y <> PDTABLE_GETPTEV (directory a self 1023) ->
     rd32 a3 y = rd32 a1 y) ->
  stepped a a3 self ps ps.
Proof.
  intros Hwf [Hnd Hps] Hi0 Hw Hwf3 Hf1 Hr1 Hd Hf3 Hr3. split; [done| | |].
  - split; [done|]. intros p Hp. destruct (Hps p Hp) as (R1 & R2 & R3 & R4).
    destruct (law_ram p R1) as [Hpm _].
    split; [done|]. rewrite Hf3, Hf1 by done. split; [|split; [done|]].
    + intros [?|[E1 E2]]; [done|]. by apply (R4 i0) in E2; [|lia|].
    + intros i Hi. rewrite Hd by done. unfold put. destruct (Z.eqb_spec i i0) as [->|]; [congruence|by apply R4].
  - intros p Hp. rewrite Hf3, Hf1 by done. unfold held.
    rewrite (tables_put a a3 self i0 w), Hw by (done || lia).
    assert ((exists i, 0 <= i < 1024 /\ PDTABLE_ISALLOC (directory a self i) = true /\
        PDTABLE_GETPTEV (directory a self i) = p) <->
      (PDTABLE_ISALLOC (directory a self i0) = true /\ PDTABLE_GETPTEV (directory a self i0) = p) \/
      (exists i, 0 <= i < 1024 /\ i <> i0 /\ PDTABLE_ISALLOC (directory a self i) = true /\
        PDTABLE_GETPTEV (directory a self i) = p)) as ->.
    { split; [intros (i & Hi & Hx); destruct (Z.eq_dec i i0) as [->|]; [by left|right; by exists i]|].
      intros [Hx|(i & Hi & _ & Hx)]; [exists i0; split; [lia|done]|by exists i]. }
    intuition congruence.
  - intros y Hy Hn. pose proof (page_of_mod y) as Hpm. rewrite Hr3; [apply Hr1|done|..].
    + rewrite Hf1 by done. intros [?|[E1 E2]]; apply Hn; [by left|]. right. right. right.
      exists i0. split; [lia|done].
    + intros E. apply Hn. right. by left.
    + intros E. apply Hn. right. right. right. exists 1023. split; [lia|]. split; [by apply selfmap_table|done].
Qed.

(** No table at [i0] any more: a 4 MiB mapping, or nothing. *)
Lemma drop_table a self ps i0 w :
  pdir_wf a self -> set_aside a self ps -> 0 <= i0 < 768 -> 0 <= w < 2 ^ 32 ->
  PDTABLE_ISALLOC w = false -> (PDTABLE_ISMAP w = false -> w = ADDR_MASK) ->
  (PDTABLE_ISMAP w = true -> bits w PDIR_ATTR_PRESENT = true -> PDTABLE_GETMAP w mod 2 ^ 22 = 0) ->
  exists a1 a3,
    (if PDTABLE_ISALLOC (directory a self i0) then free_page (PDTABLE_GETPTEV (directory a self i0)) a
     else Ret a) = Ret a1 /\
    pdir_table_changed self i0 (wr32 (pd_at self i0) w a1) = Ret a3 /\ stepped a a3 self ps ps /\
    (forall i, 0 <= i < 1024 -> directory a3 self i = put (directory a self) i0 w i) /\
    (forall i j, 0 <= i < 1023 -> 0 <= j < 1024 -> i <> i0 -> PDTABLE_ISALLOC (directory a self i) = true ->
       tab a3 self i j = tab a self i j).
Proof.
  intros Hwf Hps Hi0 Hw1 Hw2 Hw3 Hw4.
  destruct (release_table a self i0 Hwf Hi0) as (a1 & H1 & H2 & H3 & H4).
  destruct (relink a a1 self i0 w) as (a3 & R1 & R2 & R3 & R4 & _ & R5 & R6); [done|done|done| |].
  - split; [|congruence]. split; [done|by intros ? _; auto|congruence|congruence|lia|done].
  - exists a1, a3. split; [done|]. split; [done|]. split; [|done].
    by apply (stepped_drop a a1 a3 self ps i0 w).
Qed.

(** The self-map need not follow when no table was there. *)
Lemma clear_word a self ps i0 :
  pdir_wf a self -> set_aside a self ps -> 0 <= i0 < 768 ->
  PDTABLE_ISALLOC (directory a self i0) = false ->
  let a2 := wr32 (pd_at self i0) ADDR_MASK a in
  stepped a a2 self ps ps /\
  (forall i, 0 <= i < 1024 -> directory a2 self i = put (directory a self) i0 ADDR_MASK i) /\
  (forall i j, 0 <= i < 1023 -> 0 <= j < 1024 -> i <> i0 -> PDTABLE_ISALLOC (directory a self i) = true ->
     tab a2 self i j = tab a self i j).
Proof.
  intros Hwf Hps Hi0 Ha a2.
  destruct (release_table a self i0 Hwf Hi0) as (a1 & H1 & H2 & H3 & H4). rewrite Ha in H1. injection H1 as <-.
  destruct (relink_word a a self i0 ADDR_MASK) as (Hr & Hdo & Hd & Ht); [done|done|done| |].
  { split; [|done]. split; try done. lia. }
  fold a2 in Hr, Hdo, Hd, Ht. split; [|split; [done|]].
  - apply (stepped_drop a a a2 self ps i0 ADDR_MASK); try done; [|apply Hr|].
    + apply (wf_update a a2 self i0 ADDR_MASK); [done|lia| |done].
      split; [apply Hr|rewrite (rw_free _ _ _ _ Hr); by apply (wf_self a self Hwf)| | | | |].
      * intros i Hi Hn. rewrite Hd by done. by apply put_ne.
      * rewrite Hd by lia. apply put_eq.
      * intros i Hi Hn Hai. rewrite (rw_free _ _ _ _ Hr). split; [by apply table_page|done].
      * intros i j Hi Hj Hn Hai _. by apply Ht.
      * pose proof (selfmap_table a self Hwf) as H23. rewrite Ht by (done || lia).
        split; [apply (wf_entry a self Hwf); done || lia|].
        split; [apply (wf_selfmap a self Hwf); lia|done].
    + intros y Hy Hn _. by apply (rw_out _ _ _ _ Hr).
  - intros i j Hi Hj Hn Hai. apply Ht; done || lia.
Qed.

(** ** The translation *)

Definition entry_walk (e : Z) : option (Z * Z) :=
  if bits e PDIR_ATTR_PRESENT then Some (Z.land e ADDR_MASK, Z.land e 7) else None.

Lemma present_of_rights e w :
  bits e PDIR_ATTR_PRESENT = true -> Z.land (Z.land e w) 7 = Z.land e 7 -> bits w PDIR_ATTR_PRESENT = true.
Proof.
  unfold bits, PDIR_ATTR_PRESENT. intros He E. bsimp. apply negb_true_iff, Z.eqb_neq. intros Hw. apply He.
  change 1 with (Z.land 7 1). rewrite Z.land_assoc, <- E, <- Z.land_assoc. change (Z.land 7 1) with 1.
  by rewrite <- Z.land_assoc, Hw, Z.land_0_r.
Qed.

Lemma walk_alloc a self v :
  pdir_wf a self -> 0 <= v < 1024 * 1024 -> PDTABLE_ISALLOC (directory a self (v / 1024)) = true ->
  walk a self v = entry_walk (tab a self (v / 1024) (v mod 1024)).
Proof.
  intros Hwf Hv Ha. unfold walk, entry_walk.
  assert (0 <= v / 1024 < 1024 /\ 0 <= v mod 1024 < 1024) as [Hi Hj] by mlia.
  destruct (wf_entry a self Hwf _ _ Hi Hj Ha) as [He Hr].
  destruct (isalloc_word _ (wf_word a self Hwf _ Hi) Ha) as (_ & _ & ->).
  destruct (bits (tab a self (v / 1024) (v mod 1024)) PDIR_ATTR_PRESENT) eqn:Ep.
  - by rewrite (present_of_rights _ _ Ep (Hr eq_refl)), Hr.
  - by destruct (bits (directory a self (v / 1024)) PDIR_ATTR_PRESENT).
Qed.

Lemma land_4mib w : 0 <= w < 2 ^ 32 -> Z.land w 0xffc00000 = w / 2 ^ 22 * 2 ^ 22.
Proof.
  intros Hw. change 0xffc00000 with (Z.shiftl (Z.ones 10) 22). rewrite <- Z.shiftl_mul_pow2 by lia.
  apply Z.bits_inj'. intros n Hn. rewrite Z.land_spec. destruct (Z.lt_ge_cases n 22).
  - rewrite !Z.shiftl_spec_low by lia. apply andb_false_r.
  - rewrite !Z.shiftl_spec by lia. rewrite Z.div_pow2_bits, Z.sub_add by lia.
    destruct (Z.lt_ge_cases n 32).
    + rewrite Z.ones_spec_low by lia. apply andb_true_r.
    + rewrite <- (Z.mod_small w (2 ^ 32)), Z.mod_pow2_bits_high by lia. done.
Qed.

Lemma map_base w :
  0 <= w < 2 ^ 32 -> PDTABLE_GETMAP w mod 2 ^ 22 = 0 -> Z.land w 0xffc00000 = PDTABLE_GETMAP w.
Proof.
  intros Hw. unfold PDTABLE_GETMAP. rewrite land_4mib, land_addr by done. change (2 ^ 22) with 4194304. mlia.
Qed.

Lemma walk_map a self v :
  pdir_wf a self -> 0 <= v < 1024 * 1024 -> PDTABLE_ISMAP (directory a self (v / 1024)) = true ->
  walk a self v =
    if bits (directory a self (v / 1024)) PDIR_ATTR_PRESENT
    then Some (PDTABLE_GETMAP (directory a self (v / 1024)) + 4096 * (v mod 1024),
               Z.land (directory a self (v / 1024)) 7) else None.
Proof.
  intros Hwf Hv Hm. unfold walk. rewrite Hm. bcase; [|done].
  assert (0 <= v / 1024 < 1024) as Hi by mlia.
  rewrite map_base; [done|by apply (wf_word a self Hwf)|by apply (wf_4mib a self Hwf)].
Qed.

Lemma walk_empty a self v :
  pdir_wf a self -> 0 <= v < 1024 * 1024 -> PDTABLE_ISMAP (directory a self (v / 1024)) = false ->
  PDTABLE_ISALLOC (directory a self (v / 1024)) = false -> walk a self v = None.
Proof.
  intros Hwf Hv Hm Ha. unfold walk. by rewrite (wf_empty a self Hwf (v / 1024)) by (done || mlia).
Qed.

(** Pages of tables that did not change. *)
Lemma walk_other a a' self v :
  pdir_wf a self -> pdir_wf a' self -> 0 <= v < 1024 * 1024 ->
  directory a' self (v / 1024) = directory a self (v / 1024) ->
  (PDTABLE_ISALLOC (directory a self (v / 1024)) = true ->
   tab a' self (v / 1024) (v mod 1024) = tab a self (v / 1024) (v mod 1024)) ->
  walk a' self v = walk a self v.
Proof.
  intros Hwf Hwf' Hv Hd Ht. destruct (PDTABLE_ISALLOC (directory a self (v / 1024))) eqn:Ha.
  - rewrite !walk_alloc by (done || by rewrite Hd). by rewrite Ht.
  - destruct (PDTABLE_ISMAP (directory a self (v / 1024))) eqn:Hm.
    + rewrite !walk_map by (done || by rewrite Hd). by rewrite Hd.
    + rewrite !walk_empty by (done || by rewrite Hd). done.
Qed.

(** Addresses of pages. *)
Lemma dindex_page v : 0 <= v < 1024 * 1024 -> PDIR_DINDEX (4096 * v) = v / 1024.
Proof.
  intros Hv. unfold PDIR_DINDEX. rewrite Z.shiftr_div_pow2 by lia. change (2 ^ 22) with (4096 * 1024).
  by rewrite Z.div_mul_cancel_l by lia.
Qed.

Lemma tindex_page v : 0 <= v < 1024 * 1024 -> PDIR_TINDEX (4096 * v) = v mod 1024.
Proof.
  intros Hv. unfold PDIR_TINDEX. rewrite Z.shiftr_div_pow2 by lia.
  change (2 ^ 12) with 4096. rewrite (Z.mul_comm 4096), Z.div_mul by lia.
  change 0x3ff with (Z.ones 10). by rewrite Z.land_ones by lia.
Qed.

Lemma take_page_ok c p ps :
  left_in c (p :: ps) -> exists c', take_page c = Ret (p, c') /\ left_in c' ps.
Proof.
  intros Hc. destruct (takeone_ok c p ps Hc) as (c' & Ht & Hc'). exists c'. split; [|done].
  unfold take_page. by rewrite Ht.
Qed.

(** ** Splitting a 4 MiB mapping *)

Lemma map_attr w :
  0 <= w < 2 ^ 32 ->
  attrs (Z.land w 0xf7f) /\ bits (Z.land w 0xf7f) PDIR_ATTR_4MIB = false /\
  Z.land (Z.land w 0xf7f) 7 = Z.land w 7 /\
  bits (Z.land w 0xf7f) PDIR_ATTR_PRESENT = bits w PDIR_ATTR_PRESENT.
Proof.
  intros Hw. split; [|split; [|split]].
  - rewrite Z.land_comm. by apply attrs_land.
  - unfold bits. by rewrite <- Z.land_assoc, Z.land_0_r.
  - by rewrite <- Z.land_assoc.
  - unfold bits. by rewrite <- Z.land_assoc.
Qed.

(** Words of a table in which every page has the rights of the whole. *)
Lemma word_ok_attr p q f w :
  page_addr p -> page_addr q -> attrs f -> Z.land w 7 = Z.land f 7 -> word_ok w (q + f).
Proof.
  intros Hp Hq Hf E. split; [unfold page_addr, attrs in *; mlia|]. intros _.
  rewrite <- Z.land_assoc, E, (Z.land_comm f), Z.land_assoc, !land_low_page by done.
  rewrite (Z.land_comm (Z.land f 7)), Z.land_assoc, Z.land_diag. done.
Qed.

Lemma u32_page p k : page_addr p -> page_addr (u32 (p + 4096 * k)).
Proof. unfold page_addr, u32. intros. change (2 ^ 32) with 4294967296 in *. mlia. Qed.

Lemma entry_walk_page p f : page_addr p -> attrs f ->
  entry_walk (p + f) = if bits f PDIR_ATTR_PRESENT then Some (p, Z.land f 7) else None.
Proof. intros. unfold entry_walk. by rewrite bits_page, land_page, land_low_page. Qed.

Lemma map_below_host a self i :
  pdir_wf a self -> 0 <= i < 1024 -> PDTABLE_ISALLOC (directory a self i) = false -> i < 768.
Proof.
  intros Hwf Hi Ha. destruct (Z.lt_ge_cases i 768); [done|].
  destruct (wf_host a self Hwf i ltac:(lia)). congruence.
Qed.

Lemma split_map_ok a self c p ps v :
  pdir_wf a self -> set_aside a self (p :: ps) -> left_in c (p :: ps) -> 0 <= v < 1024 * 1024 ->
  PDTABLE_ISMAP (directory a self (v / 1024)) = true ->
  exists c' a', split_map c self (4096 * v) a = Ret (c', a') /\ left_in c' ps /\
    stepped a a' self (p :: ps) ps /\ PDTABLE_ISALLOC (directory a' self (v / 1024)) = true /\
    (forall i, 0 <= i < 1024 -> i <> v / 1024 -> directory a' self i = directory a self i) /\
    (forall v', 0 <= v' < 1023 * 1024 -> walk a' self v' = walk a self v').
Proof.
  intros Hwf Hps Hc Hv Hm. assert (0 <= v / 1024 < 1024) as Hi by mlia.
  pose proof (wf_word a self Hwf _ Hi) as Hw. set (i0 := v / 1024) in *. set (w := directory a self i0) in *.
  assert (PDTABLE_ISALLOC w = false) as Ha.
  { destruct (PDTABLE_ISALLOC w) eqn:Ha; [|done]. apply isalloc_word in Ha as (_ & _ & ?); congruence. }
  pose proof (map_below_host a self i0 Hwf Hi Ha) as Hlow.
  destruct (map_attr w Hw) as (G1 & G2 & G3 & G4). pose proof (getptev_page w Hw) as Hbase.
  destruct (take_page_ok c p ps Hc) as (c' & Ht & Hc'). unfold split_map. rewrite Ht. cbn [obind].
  rewrite dindex_page by done. fold i0. destruct Hps as [Hnd Hps].
  destruct (Hps p) as (P1 & P2 & P3 & P4); [by left|]. destruct (law_ram p P1) as [Q1 Q2].
  assert (page_addr p) as Hp by (split; [done|lia]).
  set (g := Z.land w 0xf7f) in *. set (f := fun j => Z.lor (u32 (PDTABLE_GETMAP w + 4096 * j)) g).
  assert (rewritten a (fill_loop 1024 p (PDTABLE_GETMAP w) g a) p f) as Hr
    by (apply fill_ok; [apply Hwf|done|done|apply Hbase]).
  destruct (new_table a (fill_loop 1024 p (PDTABLE_GETMAP w) g a) self p ps i0 g f)
    as (a3 & T1 & T2 & T3 & T4 & T5 & T6 & T7); try done; [lia| |].
  { intros j Hj. subst f. cbn beta. rewrite lor_page by auto using u32_page.
    apply (word_ok_attr p); auto using u32_page. by rewrite land_low_page. }
  exists c', a3. split.
  { unfold pd_table_map2tbl. rewrite (proj2 (aligned_page p)) by done. cbn [oassert].
    change (rd32 a (pd_at self i0)) with w. fold g. rewrite law_rd, Z.eqb_refl by (apply pd_at_mod, Hwf).
    rewrite lor_page, T3 by done. cbn [oassert obind]. rewrite <- lor_page by done. by rewrite T1. }
  split; [done|]. split; [done|]. split; [by rewrite T5, put_eq by lia|].
  split; [intros i Hi' Hn; rewrite T5 by done; by apply put_ne|].
  intros v' Hv'. pose proof (st_wf _ _ _ _ _ T2) as Hwf'. destruct (Z.eq_dec (v' / 1024) i0) as [E|E].
  - rewrite walk_alloc; [|done|lia|by rewrite E, T5, put_eq by lia]. rewrite E, T6 by mlia.
    rewrite (walk_map a self v'); [|done|lia|by rewrite E]. rewrite E. fold w. subst f. cbn beta. rewrite lor_page, entry_walk_page, G3, G4 by auto using u32_page.
    destruct (bits w PDIR_ATTR_PRESENT) eqn:Ep; [|done]. do 2 f_equal.
    pose proof (wf_4mib a self Hwf i0 Hi Hm Ep) as H4. fold w in H4. unfold u32.
    change PDTABLE_GETPTEV with PDTABLE_GETMAP in Hbase. destruct Hbase as [_ Hb].
    change (2 ^ 22) with 4194304 in H4. change (2 ^ 32) with 4294967296 in *. mlia.
  - apply walk_other; try done; [lia|by rewrite T5, put_ne by (done || mlia)|].
    intros Hai. apply T7; done || mlia.
Qed.

(** ** One page *)

Lemma index_page v : 0 <= v < 1023 * 1024 -> 0 <= v / 1024 < 1023 /\ 0 <= v mod 1024 < 1024.
Proof. intros. mlia. Qed.

Lemma index_eq v v' : v' / 1024 = v / 1024 -> v' mod 1024 = v mod 1024 -> v' = v.
Proof. intros. mlia. Qed.

(** What became of the tables: [i0] is one, the others are as before. *)
Definition only_table (a a' : A) (self i0 : Z) : Prop :=
  PDTABLE_ISALLOC (directory a' self i0) = true /\
  forall i, 0 <= i < 1024 -> i <> i0 -> directory a' self i = directory a self i.

(** The rights [g] of an entry, in a table that gets them too. *)
Lemma word_ok_or q g w : page_addr q -> attrs g -> word_ok (Z.lor w g) (q + g).
Proof.
  intros Hq Hg. split; [unfold page_addr, attrs in *; mlia|]. intros _.
  rewrite <- Z.land_assoc, (Z.land_comm (Z.lor w g)), Z.land_assoc, !land_low_page by done.
  apply Z.bits_inj'. intros n Hn. rewrite !Z.land_spec, Z.lor_spec.
  destruct (Z.testbit g n), (Z.testbit w n), (Z.testbit 7 n); done.
Qed.

Lemma set_entry_ok a a1 self ps v q g :
  pdir_wf a self -> set_aside a self ps -> 0 <= v < 1023 * 1024 ->
  PDTABLE_ISALLOC (directory a self (v / 1024)) = true -> page_addr q -> attrs g ->
  bits g PDIR_ATTR_4MIB = false ->
  rewritten a a1 (PDTABLE_GETPTEV (directory a self (v / 1024)))
    (put (tab a self (v / 1024)) (v mod 1024) (q + g)) ->
  let a' := or32 (pd_at self (v / 1024)) g a1 in
  stepped a a' self ps ps /\ only_table a a' self (v / 1024) /\
  (forall v', 0 <= v' < 1023 * 1024 -> walk a' self v' =
     if v' =? v then (if bits g PDIR_ATTR_PRESENT then Some (q, Z.land g 7) else None) else walk a self v').
Proof.
  intros Hwf Hps Hv Ha Hq Hg H4 Hr a'. destruct (index_page v Hv) as [Hi Hj].
  set (i0 := v / 1024) in *. set (j0 := v mod 1024) in *. set (w := directory a self i0) in *.
  destruct (wf_self a self Hwf) as [[Hs _] Hsf]. destruct (table_page a self i0 Hwf ltac:(lia) Ha) as (_ & _ & Hpn).
  assert (forall i, 0 <= i < 1024 -> rd32 a1 (pd_at self i) = directory a self i) as Hd1
    by (intros i Hi'; by apply (dir_other _ _ _ _ _ _ Hr)).
  assert (rewritten a1 a' self (put (directory a self) i0 (Z.lor w g))) as Hr'.
  { eapply rewritten_ext; [|apply or_rewritten; [apply Hr|done|by rewrite (rw_free _ _ _ _ Hr)|lia]].
    intros k Hk. cbn beta. unfold put. rewrite !Hd1 by lia. done. }
  destruct (or_word w g (wf_word a self Hwf i0 ltac:(lia)) Hg H4) as (W1 & W2 & W3 & W4).
  destruct (set_table a a1 a' self ps i0 (put (tab a self i0) j0 (q + g)) g) as (S1 & S2 & S3); try done.
  { intros j Hj'. fold w. unfold put. destruct (Z.eqb_spec j j0) as [->|Hn]; [by apply word_ok_or|].
    destruct (wf_entry a self Hwf i0 j ltac:(lia) Hj' Ha) as [E1 E2]. split; [done|].
    intros Hp. by apply rights_or, E2. }
  fold w in S2. split; [done|]. split.
  { split; [by rewrite S2, put_eq, W3 by lia|]. intros i Hi' Hn. rewrite S2 by done. by apply put_ne. }
  intros v' Hv'. destruct (index_page v' Hv') as [Hi' Hj']. pose proof (st_wf _ _ _ _ _ S1) as Hwf'.
  destruct (Z.eq_dec (v' / 1024) i0) as [E|E].
  - rewrite walk_alloc; [|done|lia|by rewrite E, S2, put_eq, W3 by lia].
    rewrite E, S3, Z.eqb_refl by (done || lia). unfold put.
    destruct (Z.eqb_spec (v' mod 1024) j0) as [Ej|Ej].
    + rewrite (proj2 (Z.eqb_eq v' v)) by by apply index_eq. by apply entry_walk_page.
    + rewrite (proj2 (Z.eqb_neq v' v)) by (intros ->; done). rewrite <- E. symmetry.
      apply walk_alloc; [done|lia|by rewrite E].
  - rewrite (proj2 (Z.eqb_neq v' v)) by (intros ->; done).
    apply walk_other; try done; [lia|by rewrite S2, put_ne by (done || lia)|].
    intros Hai. rewrite S3 by (done || lia). by rewrite (proj2 (Z.eqb_neq _ i0)).
Qed.

Lemma clear_entry_ok a a' self ps v :
  pdir_wf a self -> set_aside a self ps -> 0 <= v < 1023 * 1024 ->
  PDTABLE_ISALLOC (directory a self (v / 1024)) = true ->
  rewritten a a' (PDTABLE_GETPTEV (directory a self (v / 1024)))
    (put (tab a self (v / 1024)) (v mod 1024) ADDR_MASK) ->
  stepped a a' self ps ps /\ only_table a a' self (v / 1024) /\
  (forall v', 0 <= v' < 1023 * 1024 -> walk a' self v' = if v' =? v then None else walk a self v').
Proof.
  intros Hwf Hps Hv Ha Hr. destruct (index_page v Hv) as [Hi Hj].
  set (i0 := v / 1024) in *. set (j0 := v mod 1024) in *.
  destruct (write_table a a' self ps i0 (put (tab a self i0) j0 ADDR_MASK)) as (S1 & S2 & S3); try done.
  { intros j Hj'. unfold put. destruct (Z.eqb_spec j j0) as [->|Hn]; [done|].
    apply (wf_entry a self Hwf); done || lia. }
  split; [done|]. split; [split; [by rewrite S2 by lia|by auto]|].
  intros v' Hv'. destruct (index_page v' Hv') as [Hi' Hj']. pose proof (st_wf _ _ _ _ _ S1) as Hwf'.
  destruct (Z.eq_dec (v' / 1024) i0) as [E|E].
  - rewrite walk_alloc; [|done|lia|by rewrite E, S2 by lia].
    rewrite E, S3, Z.eqb_refl by (done || lia). unfold put.
    destruct (Z.eqb_spec (v' mod 1024) j0) as [Ej|Ej].
    + by rewrite (proj2 (Z.eqb_eq v' v)) by by apply index_eq.
    + rewrite (proj2 (Z.eqb_neq v' v)) by (intros ->; done). rewrite <- E. symmetry.
      apply walk_alloc; [done|lia|by rewrite E].
  - rewrite (proj2 (Z.eqb_neq v' v)) by (intros ->; done).
    apply walk_other; try done; [lia|by apply S2; lia|].
    intros Hai. rewrite S3 by (done || lia). by rewrite (proj2 (Z.eqb_neq _ i0)).
Qed.

End Directory.
