(* ===== verification/Paging32Ops.v ===== *)
(** * Mapping, unmapping and protecting ranges of pages

    The loops of [Paging32] over a range apply a step to each page, or to each
    table, of it; [page_op] and [table_op] are what such steps promise, and
    [range_ok] what a range of them does.  The theorems about [pdir_mmap],
    [pdir_munmap] and [pdir_mprotect] follow. *)
From stdpp Require Import base numbers list.
From S2P Require Import Prelude Align PageAlloc PageScatter PhysMem Paging32 Paging32Spec.

Section Operations.

Context {A : Type} `{PL : PhysLaws A}.
Context (self : Z).

Abbreviation dir a i := (directory a self i).
Abbreviation alloc w := (PDTABLE_ISALLOC w).

(** A step on page [v]: a table is there afterwards, made from a page set aside if
    need be, and only the translation of [v] has changed, to [new v t old].  [Q]
    is asked of the directory's word, [R] of the old translation. *)
Definition page_op (one : mscatter -> Z -> Z -> A -> outcome (mscatter * A))
    (Q : Z -> Prop) (R : option (Z * Z) -> Prop) (new : Z -> option (Z * Z) -> option (Z * Z)) : Prop :=
  forall a c ps v t,
  pdir_wf a self -> set_aside a self ps -> left_in c ps -> 0 <= v < 1023 * 1024 -> page_addr t ->
  Q (dir a (v / 1024)) -> R (walk a self v) -> (alloc (dir a (v / 1024)) = false -> ps <> []) ->
  exists c' a', let ps' := if alloc (dir a (v / 1024)) then ps else tail ps in
    one c (4096 * v) t a = Ret (c', a') /\ left_in c' ps' /\ stepped a a' self ps ps' /\
    only_table a a' self (v / 1024) /\
    (forall v', 0 <= v' < 1023 * 1024 -> walk a' self v' =
       if v' =? v then new t (walk a self v) else walk a self v').

(** A step on the whole table [i]. *)
Definition table_op (tbl : mscatter -> Z -> Z -> A -> outcome (mscatter * A))
    (Q : Z -> Z -> Z -> Prop) (R : option (Z * Z) -> Prop) (new : Z -> option (Z * Z) -> option (Z * Z)) : Prop :=
  forall a c ps i t,
  pdir_wf a self -> set_aside a self ps -> 0 <= i < 1023 -> page_addr t -> Q i (dir a i) t ->
  (forall v, v / 1024 = i -> R (walk a self v)) ->
  exists a', tbl c (0x400000 * i) t a = Ret (c, a') /\ stepped a a' self ps ps /\
    (forall i', 0 <= i' < 1024 -> i' <> i -> dir a' i' = dir a i') /\
    (forall v', 0 <= v' < 1023 * 1024 -> walk a' self v' =
       if v' / 1024 =? i then new (u32 (t + 4096 * (v' mod 1024))) (walk a self v') else walk a self v').

(** ** Mapping *)

Definition new_map (flags t : Z) (old : option (Z * Z)) : option (Z * Z) :=
  if bits flags PDIR_ATTR_PRESENT then Some (t, Z.land flags 7) else None.

Definition flags_ok (flags : Z) : Prop := attrs flags /\ bits flags PDIR_ATTR_4MIB = false.

Lemma set_global_ok addr flags :
  flags_ok flags -> flags_ok (set_global addr flags) /\ Z.land (set_global addr flags) ADDR_MASK = 0 /\
  Z.land (set_global addr flags) 7 = Z.land flags 7 /\
  bits (set_global addr flags) PDIR_ATTR_PRESENT = bits flags PDIR_ATTR_PRESENT.
Proof.
  intros [Hf H4]. unfold set_global. bcase.
  - pose proof (attrs_lor flags PDIR_ATTR_GLOBAL Hf ltac:(done)) as Hl.
    split; [split; [done|by rewrite bits_or, H4]|]. split.
    + unfold attrs in Hl. rewrite land_addr by lia. rewrite Z.div_small by lia. done.
    + split; [rewrite Z.land_lor_distr_l; apply Z.lor_0_r|]. rewrite bits_or. apply orb_false_r.
  - split; [done|]. split; [|done]. unfold attrs in Hf. rewrite land_addr by lia.
    rewrite Z.div_small by lia. done.
Qed.

(** Writing an entry with [w |= flags] behind it. *)
Lemma write_entry_ok a v q g :
  pdir_wf a self -> 0 <= v < 1023 * 1024 -> alloc (dir a (v / 1024)) = true -> page_addr q -> attrs g ->
  let entry := pd_at (PDTABLE_GETPTEV (dir a (v / 1024))) (v mod 1024) in
  rewritten a (or32 entry g (wr32 entry (Z.lor q g) a)) (PDTABLE_GETPTEV (dir a (v / 1024)))
    (put (tab a self (v / 1024)) (v mod 1024) (q + g)).
Proof.
  intros Hwf Hv Ha Hq Hg entry. subst entry. destruct (index_page v Hv) as [Hi Hj].
  destruct (table_page a self (v / 1024) Hwf ltac:(lia) Ha) as ([Hp _] & Hpf & _).
  pose proof (wr_rewritten a _ (v mod 1024) (Z.lor q g) (wf_inv _ _ Hwf) Hp Hpf Hj) as Hr.
  eapply rewritten_trans; [exact Hr|]. eapply rewritten_ext;
    [|apply or_rewritten; [apply Hr|done|intros E; apply Hpf, (rw_free _ _ _ _ Hr), E|done]].
  intros j Hj'. cbn beta. unfold put. rewrite !(rw_in _ _ _ _ Hr) by done. rewrite put_eq.
  unfold put. destruct (Z.eqb_spec j (v mod 1024)); [|done].
  by rewrite <- Z.lor_assoc, Z.lor_diag, lor_page.
Qed.

(** A fresh table without entries. *)
Lemma fresh_table a c p ps v g :
  pdir_wf a self -> set_aside a self (p :: ps) -> left_in c (p :: ps) -> 0 <= v < 1023 * 1024 ->
  alloc (dir a (v / 1024)) = false -> PDTABLE_ISMAP (dir a (v / 1024)) = false -> flags_ok g ->
  exists a', pdir_table_changed self (v / 1024)
      (wr32 (pd_at self (v / 1024)) (Z.lor p g) (memsetl 1024 p ADDR_MASK a)) = Ret a' /\
    stepped a a' self (p :: ps) ps /\ only_table a a' self (v / 1024) /\
    (forall v', 0 <= v' < 1023 * 1024 -> walk a' self v' = walk a self v').
Proof.
  intros Hwf Hps Hc Hv Ha Hm [Hg H4]. destruct (index_page v Hv) as [Hi Hj].
  pose proof (map_below_host a self (v / 1024) Hwf ltac:(lia) Ha) as Hlow.
  destruct Hps as [Hnd Hps]. destruct (Hps p) as (P1 & P2 & P3 & P4); [by left|].
  destruct (law_ram p P1) as [Q1 Q2].
  assert (rewritten a (memsetl 1024 p ADDR_MASK a) p (fun _ => ADDR_MASK)) as Hr.
  { rewrite <- (pd_at_0 p) at 1.
    eapply rewritten_ext; [|apply memsetl_ok; [apply Hwf|done|done|lia|simpl; lia]].
    intros j Hj'. cbn beta. by rewrite (proj2 (Z.leb_le 0 j)), (proj2 (Z.ltb_lt j _)) by lia. }
  destruct (new_table a (memsetl 1024 p ADDR_MASK a) self p ps (v / 1024) g (fun _ => ADDR_MASK))
    as (a3 & T1 & T2 & T3 & T4 & T5 & T6 & T7); try done; [lia|].
  exists a3. split; [done|]. split; [done|]. split.
  { split; [by rewrite T5, put_eq by lia|]. intros i Hi' Hn. rewrite T5 by done. by apply put_ne. }
  intros v' Hv'. destruct (index_page v' Hv') as [Hi' Hj']. pose proof (st_wf _ _ _ _ _ T2) as Hwf'.
  destruct (Z.eq_dec (v' / 1024) (v / 1024)) as [E|E].
  - rewrite walk_alloc; [|done|lia|by rewrite E, T5, put_eq by lia]. rewrite E, T6 by done.
    rewrite walk_empty; [done|done|lia|by rewrite E..].
  - apply walk_other; try done; [lia|by rewrite T5, put_ne by (done || lia)|]. intros Hai. by apply T7.
Qed.

(** The state in which page [v] is in a table, before anything is done with it. *)
Definition table_ready (a a1 : A) (c1 : mscatter) (ps : list Z) (v : Z) : Prop :=
  let ps' := if alloc (dir a (v / 1024)) then ps else tail ps in
  left_in c1 ps' /\ stepped a a1 self ps ps' /\ only_table a a1 self (v / 1024) /\
  (forall v', 0 <= v' < 1023 * 1024 -> walk a1 self v' = walk a self v').

Lemma ready_refl a c ps v :
  pdir_wf a self -> set_aside a self ps -> left_in c ps -> alloc (dir a (v / 1024)) = true ->
  table_ready a a c ps v.
Proof.
  intros Hwf Hps Hc Ha. unfold table_ready. rewrite Ha. split; [done|].
  split; [by apply stepped_refl|]. split; [|done]. by split.
Qed.

Lemma ready_split a c ps v :
  pdir_wf a self -> set_aside a self ps -> left_in c ps -> 0 <= v < 1023 * 1024 ->
  PDTABLE_ISMAP (dir a (v / 1024)) = true -> (alloc (dir a (v / 1024)) = false -> ps <> []) ->
  exists c1 a1, split_map c self (4096 * v) a = Ret (c1, a1) /\ table_ready a a1 c1 ps v.
Proof.
  intros Hwf Hps Hc Hv Hm Hne. destruct (index_page v Hv) as [Hi Hj].
  destruct (alloc (dir a (v / 1024))) eqn:Ha.
  { destruct (isalloc_word _ (wf_word a self Hwf (v / 1024) ltac:(lia)) Ha) as (_ & _ & E). congruence. }
  destruct ps as [|p ps]; [by specialize (Hne eq_refl)|].
  destruct (split_map_ok a self c p ps v) as (c1 & a1 & E & S1 & S2 & S3 & S4 & S5); try done; [lia|].
  exists c1, a1. split; [done|]. unfold table_ready. rewrite Ha. done.
Qed.

(** A page for a table is there whenever one is needed. *)
Lemma mmap_ready a c ps v flags :
  pdir_wf a self -> set_aside a self ps -> left_in c ps -> 0 <= v < 1023 * 1024 -> flags_ok flags ->
  (alloc (dir a (v / 1024)) = false -> ps <> []) ->
  exists c1 a1,
    (if PDTABLE_ISMAP (dir a (v / 1024)) then split_map c self (4096 * v) a
     else if negb (alloc (dir a (v / 1024))) then
       let! (map_page, dynmem) := take_page c in
       assert! negb (addr_isglob (4096 * v));;
       let a := memsetl 1024 map_page ADDR_MASK a in
       let a := wr32 (pd_at self (v / 1024)) (Z.lor map_page flags) a in
       let! a := pdir_table_changed self (v / 1024) a in
       Ret (dynmem, a)
     else Ret (c, a)) = Ret (c1, a1) /\ table_ready a a1 c1 ps v.
Proof.
  intros Hwf Hps Hc Hv Hf Hne. destruct (index_page v Hv) as [Hi Hj].
  destruct (PDTABLE_ISMAP (dir a (v / 1024))) eqn:Hm; [by apply ready_split|].
  destruct (alloc (dir a (v / 1024))) eqn:Ha; cbn [negb].
  { exists c, a. split; [done|]. by apply ready_refl. }
  destruct ps as [|p ps]; [by specialize (Hne eq_refl)|].
  destruct (take_page_ok c p ps Hc) as (c1 & E1 & Hc1). rewrite E1. cbn [obind].
  pose proof (map_below_host a self (v / 1024) Hwf ltac:(lia) Ha) as Hlow.
  replace (addr_isglob (4096 * v)) with false
    by (symmetry; unfold addr_isglob, VM_HOST_BASE; mlia). cbn [negb oassert obind].
  destruct (fresh_table a c p ps v flags) as (a1 & E2 & S1 & S2 & S3); try done.
  exists c1, a1. rewrite E2. split; [done|]. unfold table_ready. rewrite Ha. done.
Qed.

Lemma ready_then a a1 a2 c1 ps v (t : Z) new :
  table_ready a a1 c1 ps v -> 0 <= v < 1023 * 1024 ->
  (let ps' := if alloc (dir a (v / 1024)) then ps else tail ps in
   stepped a1 a2 self ps' ps' /\ only_table a1 a2 self (v / 1024) /\
   (forall v', 0 <= v' < 1023 * 1024 -> walk a2 self v' =
      if v' =? v then new t (walk a1 self v) else walk a1 self v')) ->
  let ps' := if alloc (dir a (v / 1024)) then ps else tail ps in
  left_in c1 ps' /\ stepped a a2 self ps ps' /\ only_table a a2 self (v / 1024) /\
  (forall v', 0 <= v' < 1023 * 1024 -> walk a2 self v' =
     if v' =? v then new t (walk a self v) else walk a self v').
Proof.
  intros (R1 & R2 & R3 & R4) Hv (S1 & S2 & S3). cbv zeta in *. split; [done|].
  split; [by eapply stepped_trans|]. split.
  - split; [apply S2|]. intros i Hi Hn. rewrite (proj2 S2) by done. by apply R3.
  - intros v' Hv'. rewrite S3 by done. by rewrite !R4.
Qed.

Lemma mmap_one_ok flags :
  flags_ok flags -> page_op (pdir_mmap_one flags self) (fun _ => True) (fun _ => True) (new_map flags).
Proof.
  intros Hf a c ps v t Hwf Hps Hc Hv Ht _ _ Hne. destruct (index_page v Hv) as [Hi Hj].
  destruct (set_global_ok (4096 * v) flags Hf) as (Hg & Hg0 & Hg7 & Hgp).
  unfold pdir_mmap_one. cbv zeta. set (g := set_global (4096 * v) flags) in *.
  rewrite Hg0. cbn [Z.eqb oassert obind]. rewrite dindex_page, tindex_page by lia.
  destruct (mmap_ready a c ps v g) as (c1 & a1 & E & Hr); try done.
  unfold directory in E. rewrite E. cbn [obind]. clear E. pose proof Hr as (R1 & R2 & R3 & R4).
  pose proof (st_wf _ _ _ _ _ R2) as Hwf1. pose proof (proj1 R3) as Ha1. unfold directory in Ha1.
  rewrite Ha1. cbn [oassert obind]. eexists c1, _. split; [done|].
  eapply ready_then; [exact Hr|done|]. cbv zeta.
  pose proof (write_entry_ok a1 v t g Hwf1 Hv (proj1 R3) Ht (proj1 Hg)) as Hw.
  destruct (set_entry_ok a1 _ self _ v t g Hwf1 (st_aside _ _ _ _ _ R2) Hv (proj1 R3) Ht
    (proj1 Hg) (proj2 Hg) Hw) as (S1 & S2 & S3).
  split; [exact S1|]. split; [exact S2|]. intros v' Hv'. rewrite S3 by done.
  unfold new_map. by rewrite Hg7, Hgp.
Qed.

(** ** Unmapping and protecting one page *)

Definition new_unmap (t : Z) (old : option (Z * Z)) : option (Z * Z) := None.

Definition new_prot (flags t : Z) (old : option (Z * Z)) : option (Z * Z) :=
  match old with
  | Some (p, _) => if bits flags PDIR_ATTR_PRESENT then Some (p, Z.land flags 7) else None
  | None => None
  end.

(** Something is mapped at the directory's word. *)
Definition used (w : Z) : Prop := PDTABLE_ISMAP w = true \/ alloc w = true.

Lemma used_ready a c ps v :
  pdir_wf a self -> set_aside a self ps -> left_in c ps -> 0 <= v < 1023 * 1024 ->
  used (dir a (v / 1024)) -> (alloc (dir a (v / 1024)) = false -> ps <> []) ->
  exists c1 a1, table_ready a a1 c1 ps v /\
    forall (k : mscatter -> A -> outcome (mscatter * A)) z,
    (if PDTABLE_ISMAP (dir a (v / 1024)) then
       let! (c, a) := split_map c self (4096 * v) a in k c a
     else if negb (alloc (dir a (v / 1024))) then z else k c a) = k c1 a1.
Proof.
  intros Hwf Hps Hc Hv Hu Hne. destruct (PDTABLE_ISMAP (dir a (v / 1024))) eqn:Hm.
  - destruct (ready_split a c ps v) as (c1 & a1 & E & Hr); try done.
    exists c1, a1. split; [done|]. intros k z. by rewrite E.
  - destruct Hu as [Hu|Hu]; [congruence|]. exists c, a. rewrite Hu. split; [|done]. by apply ready_refl.
Qed.

Lemma munmap_one_ok : page_op (pdir_munmap_one self) used (fun _ => True) new_unmap.
Proof.
  intros a c ps v t Hwf Hps Hc Hv Ht Hu _ Hne. destruct (index_page v Hv) as [Hi Hj].
  unfold pdir_munmap_one. cbv zeta. rewrite dindex_page, tindex_page by lia.
  destruct (used_ready a c ps v) as (c1 & a1 & Hr & E); try done. pose proof Hr as (R1 & R2 & R3 & R4).
  pose proof (st_wf _ _ _ _ _ R2) as Hwf1. pose proof (proj1 R3) as Ha1.
  eexists c1, _. split; [etransitivity; [apply E|done]|]. clear E.
  eapply ready_then; [exact Hr|done|]. cbv zeta.
  destruct (table_page a1 self (v / 1024) Hwf1 ltac:(lia) Ha1) as ([Hp _] & Hpf & _).
  apply clear_entry_ok; try done; [apply (st_aside _ _ _ _ _ R2)|].
  by apply wr_rewritten; [apply Hwf1|..].
Qed.

(** The new word of an entry keeps its page. *)
Lemma protect_word a v g :
  pdir_wf a self -> 0 <= v < 1023 * 1024 -> alloc (dir a (v / 1024)) = true -> walk a self v <> None ->
  page_addr (Z.land (tab a self (v / 1024) (v mod 1024)) ADDR_MASK) /\
  (if bits g PDIR_ATTR_PRESENT then Some (Z.land (tab a self (v / 1024) (v mod 1024)) ADDR_MASK, Z.land g 7)
   else None) = new_prot g 0 (walk a self v).
Proof.
  intros Hwf Hv Ha Hw. destruct (index_page v Hv) as [Hi Hj].
  destruct (wf_entry a self Hwf (v / 1024) (v mod 1024)) as [He _]; try done; [lia|].
  split; [by apply (getptev_page _ He)|].
  rewrite walk_alloc in * by (done || lia). unfold entry_walk in *. by destruct (bits (tab _ _ _ _) _).
Qed.

Lemma mprotect_one_ok flags :
  flags_ok flags ->
  page_op (pdir_mprotect_one flags self) used (fun old => old <> None) (new_prot flags).
Proof.
  intros Hf a c ps v t Hwf Hps Hc Hv Ht Hu Hm Hne. destruct (index_page v Hv) as [Hi Hj].
  destruct (set_global_ok (4096 * v) flags Hf) as (Hg & Hg0 & Hg7 & Hgp).
  unfold pdir_mprotect_one. cbv zeta. set (g := set_global (4096 * v) flags) in *.
  rewrite Hg0. cbn [Z.eqb oassert obind]. rewrite dindex_page, tindex_page by lia.
  destruct (used_ready a c ps v) as (c1 & a1 & Hr & E); try done. pose proof Hr as (R1 & R2 & R3 & R4).
  pose proof (st_wf _ _ _ _ _ R2) as Hwf1. pose proof (proj1 R3) as Ha1.
  eexists c1, _. split; [etransitivity; [apply E|done]|]. clear E.
  eapply ready_then; [exact Hr|done|]. cbv zeta.
  destruct (table_page a1 self (v / 1024) Hwf1 ltac:(lia) Ha1) as ([Hp _] & Hpf & _).
  destruct (protect_word a1 v g Hwf1 Hv Ha1) as [Hq Hn]; [by rewrite R4|].
  destruct (set_entry_ok a1 _ self _ v _ g Hwf1 (st_aside _ _ _ _ _ R2) Hv Ha1 Hq (proj1 Hg) (proj2 Hg)
    (wr_rewritten a1 _ (v mod 1024) _ (wf_inv _ _ Hwf1) Hp Hpf Hj)) as (S1 & S2 & S3).
  rewrite <- (lor_page _ g Hq (proj1 Hg)) in S1, S2, S3.
  split; [exact S1|]. split; [exact S2|]. intros v' Hv'. etransitivity; [apply S3, Hv'|].
  rewrite Hn. unfold new_prot. by rewrite Hg7, Hgp.
Qed.

(** ** Whole tables *)

Lemma walk_table a a' i (f : Z -> option (Z * Z)) :
  pdir_wf a self -> pdir_wf a' self -> 0 <= i < 1023 ->
  (forall i', 0 <= i' < 1024 -> i' <> i -> dir a' i' = dir a i') ->
  (forall i' j, 0 <= i' < 1023 -> 0 <= j < 1024 -> i' <> i -> alloc (dir a i') = true ->
     tab a' self i' j = tab a self i' j) ->
  (forall v, 0 <= v < 1023 * 1024 -> v / 1024 = i -> walk a' self v = f v) ->
  forall v, 0 <= v < 1023 * 1024 -> walk a' self v = if v / 1024 =? i then f v else walk a self v.
Proof.
  intros Hwf Hwf' Hi Hd Ht Hw v Hv. destruct (index_page v Hv) as [Hi' Hj].
  destruct (Z.eqb_spec (v / 1024) i); [by apply Hw|].
  apply walk_other; try done; [lia|by apply Hd; [lia|]|]. intros Ha. by apply Ht.
Qed.

(** Tables of the kernel: the words change, not the table. *)
Lemma fill_table a a' ps i (f : Z -> Z) (new : Z -> option (Z * Z)) :
  pdir_wf a self -> set_aside a self ps -> 0 <= i < 1023 -> alloc (dir a i) = true ->
  rewritten a a' (PDTABLE_GETPTEV (dir a i)) f ->
  (forall j, 0 <= j < 1024 -> word_ok (dir a i) (f j)) ->
  (forall v, 0 <= v < 1023 * 1024 -> entry_walk (f (v mod 1024)) = new v) ->
  stepped a a' self ps ps /\
  (forall i', 0 <= i' < 1024 -> i' <> i -> dir a' i' = dir a i') /\
  (forall v, 0 <= v < 1023 * 1024 -> walk a' self v = if v / 1024 =? i then new v else walk a self v).
Proof.
  intros Hwf Hps Hi Ha Hr Hf Hn.
  destruct (write_table a a' self ps i f) as (S1 & S2 & S3); try done.
  split; [done|]. split; [by intros i' Hi' _; apply S2|].
  apply walk_table; try done; [apply S1|by intros i' Hi' _; apply S2|..].
  - intros i' j Hi' Hj Hne Ha'. rewrite S3 by (done || lia). by destruct (Z.eqb_spec i' i).
  - intros v Hv Hvi. destruct (index_page v Hv) as [Hi' Hj].
    rewrite walk_alloc; [|apply S1|lia|by rewrite Hvi, S2 by lia].
    rewrite S3 by (lia || by rewrite Hvi). rewrite Hvi, Z.eqb_refl. by apply Hn.
Qed.

(** Tables below the kernel: a mapping, or nothing, takes the place of a table. *)
Lemma drop_table_ok a ps i w (new : Z -> option (Z * Z)) :
  pdir_wf a self -> set_aside a self ps -> 0 <= i < 768 -> 0 <= w < 2 ^ 32 ->
  alloc w = false -> (PDTABLE_ISMAP w = false -> w = ADDR_MASK) ->
  (PDTABLE_ISMAP w = true -> bits w PDIR_ATTR_PRESENT = true -> PDTABLE_GETMAP w mod 2 ^ 22 = 0) ->
  (forall v, 0 <= v < 1023 * 1024 -> new v =
     if PDTABLE_ISMAP w && bits w PDIR_ATTR_PRESENT
     then Some (PDTABLE_GETMAP w + 4096 * (v mod 1024), Z.land w 7) else None) ->
  exists a1 a3,
    (if alloc (dir a i) then free_page (PDTABLE_GETPTEV (dir a i)) a else Ret a) = Ret a1 /\
    pdir_table_changed self i (wr32 (pd_at self i) w a1) = Ret a3 /\ stepped a a3 self ps ps /\
    (forall i', 0 <= i' < 1024 -> i' <> i -> dir a3 i' = dir a i') /\
    (forall v, 0 <= v < 1023 * 1024 -> walk a3 self v = if v / 1024 =? i then new v else walk a self v).
Proof.
  intros Hwf Hps Hi Hw Hwa Hwm Hw4 Hn.
  destruct (drop_table a self ps i w) as (a1 & a3 & E1 & E2 & S1 & S2 & S3); try done.
  exists a1, a3. split; [done|]. split; [done|]. split; [done|].
  assert (forall i', 0 <= i' < 1024 -> i' <> i -> dir a3 i' = dir a i') as Hd.
  { intros i' Hi' Hne. rewrite S2 by done. by apply put_ne. }
  split; [done|]. apply walk_table; try done; [apply S1|lia|].
  intros v Hv Hvi. assert (dir a3 (v / 1024) = w) as Hd3 by (rewrite Hvi, S2, put_eq by lia; done).
  rewrite Hn by done. destruct (PDTABLE_ISMAP w) eqn:Hm; cbn [andb].
  - rewrite walk_map; [|apply S1|lia|by rewrite Hd3]. by rewrite Hd3.
  - apply walk_empty; [apply S1|lia|by rewrite Hd3..].
Qed.

Lemma dindex_table i : 0 <= i < 1023 -> PDIR_DINDEX (0x400000 * i) = i.
Proof. intros Hi. replace (0x400000 * i) with (4096 * (1024 * i)) by lia. rewrite dindex_page by lia. mlia. Qed.

Lemma allow_table i : 0 <= i < 1023 -> PDIR_ATTR_ALLOW_4MIB (0x400000 * i) = (i <? 768).
Proof. intros Hi. unfold PDIR_ATTR_ALLOW_4MIB, VM_HOST_BASE. mlia. Qed.

Lemma isglob_table i : 0 <= i < 1023 -> addr_isglob (0x400000 * i) = negb (i <? 768).
Proof. intros Hi. unfold addr_isglob, VM_HOST_BASE. mlia. Qed.

(** The user bit is not given to the kernel's pages, and 4 MiB mappings are aligned. *)
Definition mmap_table_ok (flags i w t : Z) : Prop :=
  if i <? 768 then bits flags PDIR_ATTR_PRESENT = true -> t mod 2 ^ 22 = 0
  else bits flags PDIR_ATTR_USER = false.

Lemma map_word t flags :
  page_addr t -> flags_ok flags ->
  let w := Z.lor (Z.lor t flags) PDIR_ATTR_4MIB in
  0 <= w < 2 ^ 32 /\ alloc w = false /\ PDTABLE_ISMAP w = true /\ PDTABLE_GETMAP w = t /\
  bits w PDIR_ATTR_PRESENT = bits flags PDIR_ATTR_PRESENT /\ Z.land w 7 = Z.land flags 7.
Proof.
  intros Ht [Hf H4] w. pose proof (attrs_lor flags PDIR_ATTR_4MIB Hf ltac:(done)) as Hl.
  assert (w = t + Z.lor flags PDIR_ATTR_4MIB) as -> by (unfold w; rewrite <- Z.lor_assoc; by apply lor_page).
  assert (bits (Z.lor flags PDIR_ATTR_4MIB) PDIR_ATTR_4MIB = true) as Hb
    by (rewrite bits_or; apply orb_true_r).
  rewrite isalloc_page, ismap_page, bits_page, Hb, bits_or by done.
  unfold PDTABLE_GETMAP. rewrite land_page, land_low_page by done.
  pose proof Ht as [Ht1 Ht2]. unfold attrs in Hl.
  split; [change (2 ^ 32) with 4294967296 in *; mlia|]. split; [apply andb_false_r|].
  split; [done|]. split; [done|]. split; [apply orb_false_r|].
  rewrite Z.land_lor_distr_l. apply Z.lor_0_r.
Qed.

Lemma mmap_tbl_user flags a ps i t :
  flags_ok flags -> pdir_wf a self -> set_aside a self ps -> 0 <= i < 768 -> page_addr t ->
  (bits flags PDIR_ATTR_PRESENT = true -> t mod 2 ^ 22 = 0) ->
  exists a', map_4mib flags self (0x400000 * i) t a = Ret a' /\ stepped a a' self ps ps /\
    (forall i', 0 <= i' < 1024 -> i' <> i -> dir a' i' = dir a i') /\
    (forall v', 0 <= v' < 1023 * 1024 -> walk a' self v' =
       if v' / 1024 =? i then new_map flags (u32 (t + 4096 * (v' mod 1024))) (walk a self v')
       else walk a self v').
Proof.
  intros Hf Hwf Hps Hi Ht Ht4. destruct (map_word t flags Ht Hf) as (W1 & W2 & W3 & W4 & W5 & W6).
  unfold map_4mib. cbv zeta. rewrite dindex_table by lia.
  destruct (drop_table_ok a ps i (Z.lor (Z.lor t flags) PDIR_ATTR_4MIB)
    (fun v => new_map flags (u32 (t + 4096 * (v mod 1024))) (walk a self v)))
    as (a1 & a3 & E1 & E2 & S1 & S2 & S3); try done; [congruence|by rewrite W4, W5|..].
  - intros v Hv. rewrite W3, W4, W5, W6. cbn [andb]. unfold new_map.
    destruct (bits flags PDIR_ATTR_PRESENT); [|done]. destruct Ht as [Ht1 Ht2]. specialize (Ht4 eq_refl).
    destruct (index_page v Hv). do 2 f_equal. unfold u32.
    change (2 ^ 32) with 4294967296 in *. change (2 ^ 22) with 4194304 in *. mlia.
  - unfold directory in E1. rewrite E1. cbn [obind]. by exists a3.
Qed.

(** Entries of the kernel's tables. *)
Lemma word_ok_host w q g :
  page_addr q -> attrs g -> Z.land w 3 = 3 -> bits g PDIR_ATTR_USER = false -> word_ok w (q + g).
Proof.
  intros Hq Hg Hw Hu. pose proof Hq as [Hq1 Hq2]. unfold attrs in Hg. split.
  - change (2 ^ 32) with 4294967296 in *. mlia.
  - intros _. apply land_7_of_3; [|done]. rewrite land_low_page by done.
    unfold bits in Hu. apply negb_false_iff, Z.eqb_eq in Hu. done.
Qed.

Lemma mmap_tbl_ok flags :
  flags_ok flags -> table_op (pdir_mmap_tbl flags self) (mmap_table_ok flags) (fun _ => True) (new_map flags).
Proof.
  intros Hf a c ps i t Hwf Hps Hi Ht Hq _. unfold pdir_mmap_tbl, mmap_table_ok in *.
  assert (Z.land flags ADDR_MASK = 0) as ->.
  { destruct Hf as [Hf _]. unfold attrs in Hf. rewrite land_addr by lia. by rewrite Z.div_small. }
  cbn [Z.eqb oassert]. rewrite allow_table, isglob_table, dindex_table by lia.
  destruct (Z.ltb_spec i 768).
  - destruct (mmap_tbl_user flags a ps i t) as (a' & E & S); try done; [lia|]. exists a'. by rewrite E.
  - destruct (wf_host a self Hwf i ltac:(lia)) as [Ha H3]. rewrite Ha, (proj2 Hf). cbn [oassert negb].
    eexists. split; [done|].
    assert (attrs (Z.lor flags PDIR_ATTR_GLOBAL)) as Hg by (apply attrs_lor; [apply Hf|done]).
    destruct (table_page a self i Hwf ltac:(lia) Ha) as ([Hp _] & Hpf & _).
    eapply fill_table; try done; [eapply rewritten_ext; [|apply fill_ok; [apply Hwf|done|done|apply Ht]]|..].
    + intros j Hj. cbn beta. by rewrite lor_page by (done || by apply u32_page).
    + intros j Hj. cbn beta. apply word_ok_host; [by apply u32_page|done|done|].
      by rewrite bits_or, Hq.
    + intros v Hv. cbn beta. rewrite entry_walk_page by (done || by apply u32_page). unfold new_map.
      rewrite bits_or, orb_false_r by done. by rewrite Z.land_lor_distr_l, Z.lor_0_r.
Qed.

Lemma munmap_tbl_ok :
  table_op (pdir_munmap_tbl self) (fun _ _ _ => True) (fun _ => True) new_unmap.
Proof.
  intros a c ps i t Hwf Hps Hi Ht _ _. unfold pdir_munmap_tbl. cbv zeta.
  rewrite allow_table, dindex_table by lia. destruct (Z.ltb_spec i 768); cbn [negb].
  - destruct (alloc (dir a i)) eqn:Ha; unfold directory in Ha; rewrite Ha.
    + destruct (drop_table_ok a ps i ADDR_MASK (fun v => None)) as (a1 & a3 & E1 & E2 & S); try done; [lia|].
      unfold directory in E1. rewrite Ha in E1. rewrite E1. cbn [obind]. rewrite E2. by exists a3.
    + eexists. split; [done|]. destruct (clear_word a self ps i) as (S1 & S2 & S3); try done; [lia|].
      split; [exact S1|].
      assert (forall i', 0 <= i' < 1024 -> i' <> i ->
        dir (wr32 (pd_at self i) ADDR_MASK a) i' = dir a i') as Hd.
      { intros i' Hi' Hne. rewrite S2 by done. by apply put_ne. }
      split; [done|]. apply walk_table; try done; [apply S1|]. intros v Hv Hvi.
      apply walk_empty; [apply S1|lia|by rewrite Hvi, S2, put_eq by lia..].
  - destruct (wf_host a self Hwf i ltac:(lia)) as [Ha H3]. pose proof Ha as Ha'. unfold directory in Ha'.
    rewrite Ha'. cbn [oassert]. eexists. split; [done|].
    destruct (table_page a self i Hwf ltac:(lia) Ha) as ([Hp _] & Hpf & _).
    change (rd32 a (pd_at self i)) with (dir a i). rewrite <- (pd_at_0 (PDTABLE_GETPTEV _)).
    apply (fill_table a _ ps i (fun _ => ADDR_MASK)); try done.
    eapply rewritten_ext; [|apply memsetl_ok; [apply Hwf|done|done|lia|simpl; lia]].
    intros j Hj. cbn beta. by rewrite (proj2 (Z.leb_le 0 j)), (proj2 (Z.ltb_lt j _)) by lia.
Qed.

(** The words of a table and the attributes of the table itself. *)
Lemma protect_table a ps i g :
  flags_ok g -> pdir_wf a self -> set_aside a self ps -> 0 <= i < 1023 -> alloc (dir a i) = true ->
  (forall v, v / 1024 = i -> walk a self v <> None) ->
  let a' := or32 (pd_at self i) g (protect_loop 1024 (PDTABLE_GETPTEV (dir a i)) g a) in
  stepped a a' self ps ps /\
  (forall i', 0 <= i' < 1024 -> i' <> i -> dir a' i' = dir a i') /\
  (forall v', 0 <= v' < 1023 * 1024 -> walk a' self v' =
     if v' / 1024 =? i then new_prot g 0 (walk a self v') else walk a self v').
Proof.
  intros [Hg H4] Hwf Hps Hi Ha Hm. cbv zeta.
  destruct (table_page a self i Hwf ltac:(lia) Ha) as ([Hp _] & Hpf & Hne).
  destruct (wf_self a self Hwf) as [[Hs _] Hsf].
  pose proof (protect_ok a _ g (wf_inv _ _ Hwf) Hp Hpf) as Hr.
  set (a1 := protect_loop 1024 (PDTABLE_GETPTEV (dir a i)) g a) in *. clearbody a1.
  assert (forall i', 0 <= i' < 1024 -> dir a1 i' = dir a i')
    as Hd by (intros i' Hi'; by apply (dir_other _ _ _ _ _ _ Hr)).
  assert (forall j, 0 <= j < 1024 -> exists q, page_addr q /\ q = Z.land (tab a self i j) ADDR_MASK) as Hq.
  { intros j Hj. destruct (wf_entry a self Hwf i j) as [He _]; try done; [lia|].
    exists (Z.land (tab a self i j) ADDR_MASK). split; [by apply (getptev_page _ He)|done]. }
  destruct (set_table a a1
    (or32 (pd_at self i) g a1) self ps i
    (fun j => Z.lor (Z.land (tab a self i j) ADDR_MASK) g) g) as (S1 & S2 & S3); try done.
  { eapply rewritten_ext; [|apply or_rewritten; [apply Hr|done| |lia]].
    - intros j Hj. cbn beta. unfold put. pose proof (Hd j Hj) as Hdj. pose proof (Hd i ltac:(lia)) as Hdi.
      unfold directory in *. by rewrite Hdj, Hdi.
    - intros E. by apply Hsf, (rw_free _ _ _ _ Hr). }
  { intros j Hj. destruct (Hq j Hj) as (q & Q1 & <-). rewrite (lor_page q g) by done. by apply word_ok_or. }
  assert (forall i', 0 <= i' < 1024 -> i' <> i ->
    dir (or32 (pd_at self i) g a1) i' = dir a i') as Hd'.
  { intros i' Hi' Hn. rewrite S2 by done. by apply put_ne. }
  split; [done|]. split; [done|].
  apply walk_table; try done; [apply S1|..].
  - intros i' j Hi' Hj Hn Ha'. rewrite S3 by (done || lia). by destruct (Z.eqb_spec i' i).
  - intros v Hv Hvi. destruct (index_page v Hv) as [Hi' Hj].
    destruct (protect_word a v g Hwf Hv) as [Q1 Q2]; [by rewrite Hvi|by apply Hm|]. rewrite Hvi in Q1, Q2.
    rewrite walk_alloc; [|apply S1|lia|].
    + rewrite S3 by (lia || by rewrite Hvi). rewrite Hvi, Z.eqb_refl, lor_page by done.
      by rewrite entry_walk_page.
    + rewrite Hvi, S2, put_eq by lia.
      by destruct (or_word (dir a i) g (wf_word a self Hwf i ltac:(lia)) Hg H4) as (_ & _ & -> & _).
Qed.

Lemma walk_present a v : walk a self v <> None -> bits (dir a (v / 1024)) PDIR_ATTR_PRESENT = true.
Proof. unfold walk. by destruct (bits (dir a (v / 1024)) PDIR_ATTR_PRESENT). Qed.

Lemma isvalid_word w :
  0 <= w < 2 ^ 32 -> alloc w = true -> bits w PDIR_ATTR_PRESENT = true -> PDTABLE_ISVALID w = true.
Proof.
  intros Hw Ha Hp. destruct (isalloc_word w Hw Ha) as (_ & H1 & H2). unfold PDTABLE_ISVALID.
  apply andb_true_intro. split; [apply negb_true_iff; by apply Z.eqb_neq|].
  unfold PDTABLE_ISMAP, bits in *. apply negb_false_iff, Z.eqb_eq in H2. apply negb_true_iff, Z.eqb_neq in Hp.
  apply Z.eqb_eq. rewrite Z.land_lor_distr_r. rewrite H2, Z.lor_0_r. unfold PDIR_ATTR_PRESENT in *.
  assert (Z.land w 1 = w mod 2) as E by (apply (Z.land_ones w 1); lia). rewrite E in *. mlia.
Qed.

Lemma mprotect_tbl_ok flags :
  flags_ok flags ->
  table_op (pdir_mprotect_tbl flags self) (fun _ w _ => alloc w = true) (fun old => old <> None)
    (new_prot flags).
Proof.
  intros Hf a c ps i t Hwf Hps Hi Ht Ha Hm.
  destruct (set_global_ok (0x400000 * i) flags Hf) as (Hg & Hg0 & Hg7 & Hgp).
  unfold pdir_mprotect_tbl. cbv zeta. set (g := set_global (0x400000 * i) flags) in *.
  rewrite Hg0. cbn [Z.eqb oassert]. rewrite allow_table, dindex_table by lia.
  change (rd32 a (pd_at self i)) with (dir a i).
  pose proof (wf_word a self Hwf i ltac:(lia)) as Hw.
  destruct (isalloc_word _ Hw Ha) as (_ & _ & ->). rewrite Ha.
  destruct (table_page a self i Hwf ltac:(lia) Ha) as ([Hp _] & Hpf & Hne).
  destruct (wf_self a self Hwf) as [[Hs _] Hsf].
  pose proof (protect_ok a _ g (wf_inv _ _ Hwf) Hp Hpf) as Hr.
  pose proof (dir_other _ _ _ _ _ i Hr Hne Hs ltac:(lia)) as Hd. unfold directory in Hd at 1.
  assert (bits (dir a i) PDIR_ATTR_PRESENT = true) as Hpres.
  { replace i with (1024 * i / 1024) by mlia. apply walk_present, Hm. mlia. }
  unfold pd_table_tbl2map. rewrite Hd, isvalid_word by done. cbn [oassert obind].
  eexists. split; [by destruct (i <? 768)|].
  destruct (protect_table a ps i g) as (S1 & S2 & S3); try done.
  split; [done|]. split; [done|]. intros v Hv. rewrite S3 by done.
  unfold new_prot. by rewrite Hg7, Hgp.
Qed.

(** ** Ranges

    The pages from [v] on, [k] of them, got new translations; [t] is the target
    of the first. *)
Record covers (new : Z -> option (Z * Z) -> option (Z * Z)) (a a' : A) (ps ps' : list Z) (v k t : Z) : Prop := {
  cv_step : stepped a a' self ps ps';
  cv_dir i : 0 <= i < 1024 -> 1024 * i + 1024 <= v \/ v + k <= 1024 * i -> dir a' i = dir a i;
  cv_walk v' : 0 <= v' < 1023 * 1024 -> walk a' self v' =
    if (v <=? v') && (v' <? v + k) then new (u32 (t + 4096 * (v' - v))) (walk a self v')
    else walk a self v'
}.

Lemma covers_refl new a ps v t : pdir_wf a self -> set_aside a self ps -> covers new a a ps ps v 0 t.
Proof.
  intros Hwf Hps. split; [by apply stepped_refl|done|]. intros v' Hv'.
  destruct (Z.leb_spec v v'), (Z.ltb_spec v' (v + 0)); done || lia.
Qed.

Lemma u32_add x y : u32 (u32 x + y) = u32 (x + y).
Proof. unfold u32. apply Z.add_mod_idemp_l. done. Qed.

Lemma u32_id t : page_addr t -> u32 t = t.
Proof. intros [_ Ht]. by apply Z.mod_small. Qed.

Lemma covers_trans new a a1 a2 ps ps1 ps2 v k k' t :
  0 <= k -> 0 <= k' -> covers new a a1 ps ps1 v k t ->
  covers new a1 a2 ps1 ps2 (v + k) k' (u32 (t + 4096 * k)) -> covers new a a2 ps ps2 v (k + k') t.
Proof.
  intros Hk Hk' C1 C2. split.
  - eapply stepped_trans; [apply C1|apply C2].
  - intros i Hi Hd. rewrite (cv_dir _ _ _ _ _ _ _ _ C2), (cv_dir _ _ _ _ _ _ _ _ C1); done || lia.
  - intros v' Hv'. rewrite (cv_walk _ _ _ _ _ _ _ _ C2) by done. rewrite !(cv_walk _ _ _ _ _ _ _ _ C1) by done.
    rewrite u32_add. replace (t + 4096 * k + 4096 * (v' - (v + k))) with (t + 4096 * (v' - v)) by lia.
    destruct (Z.leb_spec v v'), (Z.ltb_spec v' (v + k)), (Z.leb_spec (v + k) v'),
      (Z.ltb_spec v' (v + k + k')), (Z.ltb_spec v' (v + (k + k'))); cbn [andb]; done || lia.
Qed.

Section Loops.

Variables (one tbl : mscatter -> Z -> Z -> A -> outcome (mscatter * A)).
Variables (Q : Z -> Prop) (QT : Z -> Z -> Z -> Prop) (R : option (Z * Z) -> Prop).
Variable new : Z -> option (Z * Z) -> option (Z * Z).
Hypothesis Hone : page_op one Q R new.
Hypothesis Htbl : table_op tbl QT R new.
Hypothesis HQ : forall w, alloc w = true -> Q w.

Lemma one_covers a a1 ps ps' v t :
  page_addr t -> stepped a a1 self ps ps' ->
  (forall i, 0 <= i < 1024 -> i <> v / 1024 -> dir a1 i = dir a i) ->
  (forall v', 0 <= v' < 1023 * 1024 -> walk a1 self v' =
     if v' =? v then new t (walk a self v) else walk a self v') ->
  covers new a a1 ps ps' v 1 t.
Proof.
  intros Ht S1 S2 S3. split; [done|intros i' Hi' Hd; apply S2; [done|mlia]|].
  intros v' Hv'. rewrite S3 by done.
  destruct (Z.eqb_spec v' v), (Z.leb_spec v v'), (Z.ltb_spec v' (v + 1)); try lia; cbn [andb]; try done.
  subst v'. by rewrite Z.sub_diag, Z.add_0_r, u32_id.
Qed.

(** Pages of one table [i]. *)
Lemma page_loop_ok stop i (k : nat) : forall fuel a c ps v m t,
  (k <= fuel)%nat -> Z.of_nat k <= m -> 0 <= v -> v + m <= 1023 * 1024 -> page_addr t ->
  (forall x, 0 <= x < Z.of_nat k -> stop (4096 * (v + x)) (4096 * (m - x)) = false /\ (v + x) / 1024 = i) ->
  stop (4096 * (v + Z.of_nat k)) (4096 * (m - Z.of_nat k)) = true ->
  pdir_wf a self -> set_aside a self ps -> left_in c ps ->
  ((0 < k)%nat -> Q (dir a i) /\ (alloc (dir a i) = false -> ps <> [])) ->
  (forall x, 0 <= x < Z.of_nat k -> R (walk a self (v + x))) ->
  exists c' a', let ps' := if alloc (dir a i) || (Z.of_nat k =? 0) then ps else tail ps in
    page_loop one stop fuel c (4096 * v) t (4096 * m) a =
      Ret (c', 4096 * (v + Z.of_nat k), u32 (t + 4096 * Z.of_nat k), 4096 * (m - Z.of_nat k), a') /\
    left_in c' ps' /\ covers new a a' ps ps' v (Z.of_nat k) t.
Proof.
  induction k as [|k IH]; intros fuel a c ps v m t Hfuel Hm Hv Hvm Ht Hgo Hstop Hwf Hps Hc HQa HR.
  - exists c, a. cbv zeta. rewrite orb_true_r. change (Z.of_nat 0) with 0 in *.
    rewrite !Z.add_0_r, Z.sub_0_r in *.
    rewrite u32_id by done. split; [by destruct fuel; cbn [page_loop]; rewrite Hstop|]. split; [done|]. by apply covers_refl.
  - destruct fuel as [|fuel]; [lia|]. cbn [page_loop].
    destruct (Hgo 0 ltac:(lia)) as [Hs Hi]. rewrite Z.add_0_r in Hs, Hi. rewrite Z.sub_0_r in Hs. rewrite Hs.
    destruct (HQa ltac:(lia)) as [HQi Hne]. pose proof (HR 0 ltac:(lia)) as HR0. rewrite Z.add_0_r in HR0.
    destruct (Hone a c ps v t) as (c1 & a1 & E & S1 & S2 & S3 & S4); try done; try lia; [by rewrite Hi..|].
    cbv zeta in *. rewrite Hi in S1, S2, S3. rewrite E. cbn [obind].
    pose proof (one_covers a a1 ps (if alloc (dir a i) then ps else tail ps) v t Ht S2
      (fun i' Hi' Hn => proj2 S3 i' Hi' (eq_ind (v / 1024) (fun x => i' <> x) Hn i Hi)) S4) as C1.
    destruct (IH fuel a1 c1 (if alloc (dir a i) then ps else tail ps) (v + 1) (m - 1) (u32 (t + 4096)))
      as (c2 & a2 & E2 & T1 & T2); try lia; try done.
    + by apply (u32_page t 1).
    + intros x Hx. destruct (Hgo (x + 1) ltac:(lia)) as [Hg1 Hg2].
      replace (v + 1 + x) with (v + (x + 1)) by lia. by replace (m - 1 - x) with (m - (x + 1)) by lia.
    + replace (v + 1 + Z.of_nat k) with (v + Z.of_nat (S k)) by lia.
      by replace (m - 1 - Z.of_nat k) with (m - Z.of_nat (S k)) by lia.
    + apply S2.
    + apply S2.
    + intros _. split; [apply HQ, S3|]. intros Ha. destruct S3 as [S3 _]. congruence.
    + intros x Hx. rewrite S4 by lia. destruct (Z.eqb_spec (v + 1 + x) v); [lia|].
      replace (v + 1 + x) with (v + (x + 1)) by lia. apply HR. lia.
    + cbv zeta in *. rewrite (proj1 S3) in T1, T2. cbn [orb] in *.
      rewrite (proj2 (Z.eqb_neq (Z.of_nat (S k)) 0)) by lia. rewrite orb_false_r.
      exists c2, a2. unfold PAGESIZE.
      replace (u32 (4096 * v + 4096)) with (4096 * (v + 1)) by (unfold u32; change (2 ^ 32) with 4294967296; mlia).
      replace (u32 (4096 * m - 4096)) with (4096 * (m - 1)) by (unfold u32; change (2 ^ 32) with 4294967296; mlia).
      rewrite E2. split; [|split; [done|]].
      * rewrite u32_add. replace (v + 1 + Z.of_nat k) with (v + Z.of_nat (S k)) by lia.
        replace (m - 1 - Z.of_nat k) with (m - Z.of_nat (S k)) by lia.
        by replace (t + 4096 + 4096 * Z.of_nat k) with (t + 4096 * Z.of_nat (S k)) by lia.
      * replace (Z.of_nat (S k)) with (1 + Z.of_nat k) by lia.
        eapply covers_trans; [lia|lia|exact C1|]. by rewrite Z.mul_1_r.
Qed.

(** Whole tables, from [i] on. *)
Lemma table_loop_ok (k : nat) : forall fuel a c ps i m t,
  (k <= fuel)%nat -> Z.of_nat k = m / 1024 -> 0 <= m -> 0 <= i -> 1024 * i + m <= 1023 * 1024 ->
  page_addr t -> pdir_wf a self -> set_aside a self ps ->
  (forall x, 0 <= x < Z.of_nat k -> QT (i + x) (dir a (i + x)) (u32 (t + 0x400000 * x))) ->
  (forall v, 1024 * i <= v < 1024 * (i + Z.of_nat k) -> R (walk a self v)) ->
  exists a',
    table_loop tbl fuel c (0x400000 * i) t (4096 * m) a =
      Ret (c, 0x400000 * (i + Z.of_nat k), u32 (t + 0x400000 * Z.of_nat k), 4096 * (m mod 1024), a') /\
    covers new a a' ps ps (1024 * i) (1024 * Z.of_nat k) t.
Proof.
  induction k as [|k IH]; intros fuel a c ps i m t Hfuel Hk Hm Hi Him Ht Hwf Hps HQT HR.
  - exists a. change (Z.of_nat 0) with 0 in *. assert (m mod 1024 = m) as -> by mlia.
    assert ((4096 * m <? PDTABLE_REPRSIZE) = true) as Hs by (apply Z.ltb_lt; unfold PDTABLE_REPRSIZE; mlia).
    rewrite Z.mul_0_r, !Z.add_0_r, u32_id by done.
    split; [by destruct fuel; cbn [table_loop]; rewrite Hs|]. by apply covers_refl.
  - destruct fuel as [|fuel]; [lia|]. cbn [table_loop].
    assert ((4096 * m <? PDTABLE_REPRSIZE) = false) as -> by (apply Z.ltb_ge; unfold PDTABLE_REPRSIZE; mlia).
    pose proof (HQT 0 ltac:(lia)) as HQ0. rewrite Z.mul_0_r, !Z.add_0_r, u32_id in HQ0 by done.
    destruct (Htbl a c ps i t) as (a1 & E & S1 & S2 & S3); try done; [mlia|intros; apply HR; mlia|].
    rewrite E. cbn [obind].
    assert (covers new a a1 ps ps (1024 * i) 1024 t) as C1.
    { split; [done|intros; apply S2; lia|]. intros v Hv. rewrite S3 by done.
      destruct (Z.eqb_spec (v / 1024) i), (Z.leb_spec (1024 * i) v), (Z.ltb_spec v (1024 * i + 1024));
        try (exfalso; mlia); cbn [andb]; try done.
      by replace (v - 1024 * i) with (v mod 1024) by mlia. }
    destruct (IH fuel a1 c ps (i + 1) (m - 1024) (u32 (t + 0x400000)))
      as (a2 & E2 & C2); try lia; try done;
      [mlia|mlia|by apply (u32_page t 1024)|exact (st_wf _ _ _ _ _ S1)|exact (st_aside _ _ _ _ _ S1)|..].
    + intros x Hx. rewrite S2 by mlia. rewrite u32_add.
      replace (i + 1 + x) with (i + (x + 1)) by lia.
      replace (t + 0x400000 + 0x400000 * x) with (t + 0x400000 * (x + 1)) by lia. apply HQT. lia.
    + intros v Hv. rewrite S3 by mlia. destruct (Z.eqb_spec (v / 1024) i); [exfalso; mlia|apply HR; lia].
    + exists a2. unfold PDTABLE_REPRSIZE.
      replace (u32 (0x400000 * i + 0x400000)) with (0x400000 * (i + 1))
        by (unfold u32; change (2 ^ 32) with 4294967296; mlia).
      replace (4096 * m - 0x400000) with (4096 * (m - 1024)) by lia. rewrite E2. split.
      * rewrite u32_add. replace (i + 1 + Z.of_nat k) with (i + Z.of_nat (S k)) by lia.
        replace ((m - 1024) mod 1024) with (m mod 1024) by mlia.
        by replace (t + 0x400000 + 0x400000 * Z.of_nat k) with (t + 0x400000 * Z.of_nat (S k)) by lia.
      * replace (1024 * Z.of_nat (S k)) with (1024 + 1024 * Z.of_nat k) by lia.
        eapply covers_trans; [lia|lia|exact C1|].
        by replace (1024 * i + 1024) with (1024 * (i + 1)) by lia.
Qed.

(** The pages before the first and after the last border of a table, and the
    tables needed for them. *)
Definition head_pages (v m : Z) : Z := Z.min m ((- v) mod 1024).
Definition tail_pages (v m : Z) : Z := (m - head_pages v m) mod 1024.
Definition lacking (a : A) (k i : Z) : Z := if (0 <? k) && negb (alloc (dir a i)) then 1 else 0.
Definition need (a : A) (v m : Z) : Z :=
  lacking a (head_pages v m) (v / 1024) + lacking a (tail_pages v m) ((v + m) / 1024).

Lemma part_loop stop k i a c ps v m t fuel :
  pdir_wf a self -> set_aside a self ps -> left_in c ps -> 0 <= v -> 0 <= k <= m -> v + m <= 1023 * 1024 ->
  page_addr t -> (Z.to_nat m <= fuel)%nat ->
  (forall x, 0 <= x < k -> stop (4096 * (v + x)) (4096 * (m - x)) = false /\ (v + x) / 1024 = i) ->
  stop (4096 * (v + k)) (4096 * (m - k)) = true ->
  (0 < k -> Q (dir a i)) -> lacking a k i <= Z.of_nat (length ps) ->
  (forall x, v <= x < v + k -> R (walk a self x)) ->
  exists c' a', page_loop one stop fuel c (4096 * v) t (4096 * m) a =
      Ret (c', 4096 * (v + k), u32 (t + 4096 * k), 4096 * (m - k), a') /\
    left_in c' (drop (Z.to_nat (lacking a k i)) ps) /\
    covers new a a' ps (drop (Z.to_nat (lacking a k i)) ps) v k t.
Proof.
  intros Hwf Hps Hc Hv Hk Hvm Ht Hfuel Hin Hend HQa Hneed HR.
  destruct (page_loop_ok stop i (Z.to_nat k) fuel a c ps v m t)
    as (c' & a' & E & S1 & S2); try done; rewrite ?Z2Nat.id by lia; try lia; try done.
  - intros Hk0. split; [apply HQa; lia|]. intros Ha ->. unfold lacking in Hneed. rewrite Ha in Hneed.
    rewrite (proj2 (Z.ltb_lt 0 k)) in Hneed by lia. simpl in Hneed. lia.
  - intros x Hx. apply HR. lia.
  - cbv zeta in *. rewrite Z2Nat.id in * by lia. exists c', a'. split; [done|].
    assert ((if alloc (dir a i) || (k =? 0) then ps else tail ps) =
      drop (Z.to_nat (lacking a k i)) ps) as <-; [|done].
    unfold lacking. destruct (alloc (dir a i)), (Z.eqb_spec k 0), (Z.ltb_spec 0 k); try lia; done.
Qed.

(** The loops from a border of a table on. *)
Lemma border_loops a c ps v m t fuel :
  pdir_wf a self -> set_aside a self ps -> left_in c ps -> 0 <= v -> 0 <= m -> v + m <= 1023 * 1024 ->
  page_addr t -> (Z.to_nat m <= fuel)%nat -> m = 0 \/ v mod 1024 = 0 ->
  Z.of_nat (length ps) = lacking a (m mod 1024) ((v + m) / 1024) ->
  (0 < m mod 1024 -> Q (dir a ((v + m) / 1024))) ->
  (forall i, v <= 1024 * i -> 1024 * i + 1024 <= v + m ->
     QT i (dir a i) (u32 (t + 4096 * (1024 * i - v)))) ->
  (forall x, v <= x < v + m -> R (walk a self x)) ->
  exists c' a',
    (let! (d, start, target, n_bytes, a) := table_loop tbl fuel c (4096 * v) t (4096 * m) a in
     page_loop one tail_stop fuel d start target n_bytes a) =
      Ret (c', 4096 * (v + m), u32 (t + 4096 * m), 0, a') /\
    left_in c' [] /\ covers new a a' ps [] v m t.
Proof.
  intros Hwf Hps Hc Hv Hm Hvm Ht Hfuel Hal Hlen HQ3 HQT HR.
  destruct (Z.eq_dec m 0) as [->|Hm0].
  { rewrite Z.mul_0_r, !Z.add_0_r, u32_id in * by done. destruct ps; [|done].
    exists c, a. split; [by destruct fuel|]. split; [done|]. by apply covers_refl. }
  destruct Hal as [Hal|Hal]; [lia|]. set (i := v / 1024). assert (v = 1024 * i) as Evi by (unfold i; mlia).
  clearbody i. subst v. clear Hal.
  destruct (table_loop_ok (Z.to_nat (m / 1024)) fuel a c ps i m t) as (a1 & E1 & C1);
    try done; rewrite ?Z2Nat.id by mlia; try mlia.
  { intros x Hx. replace (0x400000 * x) with (4096 * (1024 * (i + x) - 1024 * i)) by lia. apply HQT; mlia. }
  { intros x Hx. apply HR. mlia. }
  rewrite Z2Nat.id in E1, C1 by mlia.
  replace (4096 * (1024 * i)) with (0x400000 * i) by lia. rewrite E1. cbn [obind]. clear E1.
  replace (0x400000 * (i + m / 1024)) with (4096 * (1024 * i + 1024 * (m / 1024))) by lia.
  replace (0x400000 * (m / 1024)) with (4096 * (1024 * (m / 1024))) by lia.
  assert ((1024 * i + m) / 1024 = i + m / 1024) as Elast by mlia. rewrite Elast in *.
  assert (dir a1 (i + m / 1024) = dir a (i + m / 1024)) as Hd.
  { apply (cv_dir _ _ _ _ _ _ _ _ C1); mlia. }
  assert (lacking a1 (m mod 1024) (i + m / 1024) = Z.of_nat (length ps)) as Hlen1.
  { rewrite Hlen. unfold lacking. by rewrite Hd. }
  destruct (part_loop tail_stop (m mod 1024) (i + m / 1024) a1 c ps (1024 * i + 1024 * (m / 1024))
    (m mod 1024) (u32 (t + 4096 * (1024 * (m / 1024)))) fuel) as (c2 & a2 & E2 & S2 & C2);
    try done; try mlia; try (exact (st_wf _ _ _ _ _ (cv_step _ _ _ _ _ _ _ _ C1)));
    try (exact (st_aside _ _ _ _ _ (cv_step _ _ _ _ _ _ _ _ C1))); [by apply u32_page|..].
  { intros x Hx. unfold tail_stop. mlia. }
  { unfold tail_stop. rewrite Z.sub_diag. done. }
  { by rewrite Hd. }
  { intros x Hx. rewrite (cv_walk _ _ _ _ _ _ _ _ C1) by mlia.
    rewrite (proj2 (Z.ltb_ge x _)), andb_false_r by lia. apply HR. mlia. }
  rewrite Hlen1, Nat2Z.id, drop_all in *. exists c2, a2. rewrite E2, Z.sub_diag. split.
  - rewrite u32_add. replace (1024 * i + 1024 * (m / 1024) + m mod 1024) with (1024 * i + m) by mlia.
    by replace (t + 4096 * (1024 * (m / 1024)) + 4096 * (m mod 1024)) with (t + 4096 * m) by mlia.
  - split; [done|].
    assert (0 <= 1024 * (m / 1024) /\ 0 <= m mod 1024) as [G1 G2] by mlia.
    pose proof (covers_trans _ _ _ _ _ _ _ _ _ _ _ G1 G2 C1 C2) as C.
    by replace (1024 * (m / 1024) + m mod 1024) with m in C by mlia.
Qed.

(** The three loops together. *)
Lemma range_loops_ok a c ps v m t :
  pdir_wf a self -> set_aside a self ps -> left_in c ps -> 0 <= v -> 0 <= m -> v + m <= 1023 * 1024 ->
  page_addr t -> Z.of_nat (length ps) = need a v m ->
  (0 < head_pages v m -> Q (dir a (v / 1024))) ->
  (0 < tail_pages v m -> Q (dir a ((v + m) / 1024))) ->
  (forall i, v <= 1024 * i -> 1024 * i + 1024 <= v + m ->
     QT i (dir a i) (u32 (t + 4096 * (1024 * i - v)))) ->
  (forall x, v <= x < v + m -> R (walk a self x)) ->
  exists c' a', range_loops one tbl c (4096 * v) t (4096 * m) a =
      Ret (c', 4096 * (v + m), u32 (t + 4096 * m), 0, a') /\
    left_in c' [] /\ covers new a a' ps [] v m t.
Proof.
  intros Hwf Hps Hc Hv Hm Hvm Ht Hlen HQ1 HQ3 HQT HR. unfold range_loops.
  replace (4096 * m / PAGESIZE) with m by (unfold PAGESIZE; mlia). unfold need in Hlen.
  set (k := head_pages v m) in *. set (k3 := tail_pages v m) in *.
  assert (0 <= k <= m /\ (k = m \/ (v + k) mod 1024 = 0) /\ k3 = (m - k) mod 1024 /\
    forall x, 0 <= x < k -> (v + x) mod 1024 <> 0 /\ (v + x) / 1024 = v / 1024) as (Hk & Hend & Hk3 & Hin)
    by (unfold k3, tail_pages, k, head_pages; repeat split; mlia).
  clearbody k k3.
  assert (forall k i, 0 <= lacking a k i) as Hlk by (intros; unfold lacking; by destruct (_ && _)).
  destruct (part_loop head_stop k (v / 1024) a c ps v m t (Z.to_nat m))
    as (c1 & a1 & E1 & S1 & C1); try done; try lia.
  { intros x Hx. destruct (Hin x Hx) as [Hx1 Hx2]. split; [|done].
    unfold head_stop, IS_ALIGNED, PDTABLE_REPRSIZE. mlia. }
  { unfold head_stop, IS_ALIGNED, PDTABLE_REPRSIZE. mlia. }
  { specialize (Hlk k3 ((v + m) / 1024)). lia. }
  { intros x Hx. apply HR. lia. }
  rewrite E1. cbn [obind]. clear E1.
  assert (0 < k3 -> dir a1 ((v + m) / 1024) = dir a ((v + m) / 1024)) as Hd.
  { intros Hk0. apply (cv_dir _ _ _ _ _ _ _ _ C1); mlia. }
  assert (lacking a1 k3 ((v + m) / 1024) = lacking a k3 ((v + m) / 1024)) as Hl3.
  { unfold lacking. destruct (Z.ltb_spec 0 k3); [by rewrite Hd|done]. }
  destruct (border_loops a1 c1 _ (v + k) (m - k) (u32 (t + 4096 * k)) (Z.to_nat m)
    (st_wf _ _ _ _ _ (cv_step _ _ _ _ _ _ _ _ C1)) (st_aside _ _ _ _ _ (cv_step _ _ _ _ _ _ _ _ C1)) S1)
    as (c2 & a2 & E2 & S2 & C2); try lia; try (replace (v + k + (m - k)) with (v + m) by lia);
    rewrite <- ?Hk3; [by apply u32_page|..].
  { rewrite Hl3, length_drop. pose proof (Hlk k (v / 1024)). pose proof (Hlk k3 ((v + m) / 1024)). lia. }
  { intros Hk0. rewrite Hd by done. by apply HQ3. }
  { intros i Hi1 Hi2. rewrite (cv_dir _ _ _ _ _ _ _ _ C1) by lia. rewrite u32_add.
    replace (t + 4096 * k + 4096 * (1024 * i - (v + k))) with (t + 4096 * (1024 * i - v)) by lia.
    apply HQT; lia. }
  { intros x Hx. rewrite (cv_walk _ _ _ _ _ _ _ _ C1) by lia.
    rewrite (proj2 (Z.ltb_ge x _)), andb_false_r by lia. apply HR. lia. }
  exists c2, a2. rewrite E2. split; [|split; [done|]].
  - replace (v + k + (m - k)) with (v + m) by lia. rewrite u32_add.
    by replace (t + 4096 * k + 4096 * (m - k)) with (t + 4096 * m) by lia.
  - replace m with (k + (m - k)) by lia. eapply covers_trans; [lia|lia|exact C1|exact C2].
Qed.

End Loops.

End Operations.
