(* ===== verification/Paging32Map.v ===== *)
(** * Mapping, unmapping and protection of ranges

    What [pdir_mmap], [pdir_munmap] and [pdir_mprotect] do to the translation of
    every page: each is correct against [walk], keeps the invariant of the
    directory and the pages of the allocator, and fails no assertion. *)
From stdpp Require Import base numbers list.
From S2P Require Import Prelude Align PageAlloc PageScatter PhysMem Paging32 Paging32Spec Paging32Ops.

Section Ranges.

Context {A : Type} `{PL : PhysLaws A}.
Context (pdir_kernel pdir_kernel_v self : Z).

Abbreviation dir a i := (directory a self i).
Abbreviation alloc w := (PDTABLE_ISALLOC w).

(** A step that leaves the directory as it is. *)
Record idle (a a' : A) (ps ps' : list Z) : Prop := {
  idle_step : stepped a a' self ps ps';
  idle_dir i : 0 <= i < 1024 -> dir a' i = dir a i;
  idle_walk v : 0 <= v < 1024 * 1024 -> walk a' self v = walk a self v
}.

(** Memory of the directory that is not written to. *)
Lemma idle_intro a a' ps :
  pdir_wf a self -> pinv a' -> NoDup ps ->
  (forall p, p ∈ ps -> p mod 4096 = 0 /\ isfree a p) ->
  (forall p, p mod 4096 = 0 -> isfree a' p <-> isfree a p /\ p ∉ ps) ->
  (forall x, ~ isfree a (page_of x) -> rd32 a' x = rd32 a x) ->
  idle a a' [] ps.
Proof.
  intros Hwf Hi Hnd Hps Hf Hrd. destruct (wf_self a self Hwf) as [[Hs Hs'] Hsf].
  assert (forall i, 0 <= i < 1024 -> dir a' i = dir a i) as Hd.
  { intros i Hi'. apply Hrd. by rewrite pd_at_page. }
  assert (forall i j, 0 <= i < 1024 -> 0 <= j < 1024 -> alloc (dir a i) = true ->
    tab a' self i j = tab a self i j) as Ht.
  { intros i j Hi' Hj Ha. unfold tab. rewrite Hd by done. apply Hrd.
    destruct (table_page a self i Hwf Hi' Ha) as ([Hp _] & Hpf & _). by rewrite pd_at_page. }
  assert (pdir_wf a' self) as Hwf'.
  { split; [done| | | | | | | | |].
    - split; [done|]. rewrite Hf by done. tauto.
    - intros i Hi'. rewrite Hd by done. by apply Hwf.
    - intros i Hi'. rewrite Hd by done. by apply (wf_empty a self Hwf).
    - intros i Hi'. rewrite Hd by done. intros Ha. destruct (table_page a self i Hwf Hi' Ha) as ([Hp _] & _).
      destruct (wf_table a self Hwf i Hi' Ha) as (T1 & T2 & T3). split; [|done]. rewrite Hf by done. tauto.
    - intros i j Hi' Hj. rewrite Hd by done. intros Ha. rewrite Ht by done. by apply (wf_entry a self Hwf).
    - intros i i' Hi1 Hi2. rewrite !Hd by done. by apply (wf_inj a self Hwf).
    - intros i Hi'. rewrite Hd by lia. by apply (wf_host a self Hwf).
    - intros i Hi'. rewrite Hd by lia. by apply (wf_4mib a self Hwf).
    - intros i Hi'. rewrite Hd by lia. rewrite Ht; [by apply (wf_selfmap a self Hwf)|done|done|].
      by apply selfmap_table. }
  split; [|done|].
  - split; [done| | |].
    + split; [done|]. intros p Hp. destruct (Hps p Hp) as [P1 P2]. pose proof (wf_inv _ _ Hwf) as Hia.
      split; [by eapply law_free_ram|]. split; [rewrite Hf by done; tauto|].
      split; [intros ->; done|]. intros i Hi'. rewrite Hd by done. intros Ha <-.
      apply (proj1 (wf_table a self Hwf i Hi' Ha)), P2.
    + intros p Hp. rewrite Hf by done. unfold held.
      assert ((exists i, 0 <= i < 1024 /\ alloc (dir a' i) = true /\ PDTABLE_GETPTEV (dir a' i) = p) <->
        (exists i, 0 <= i < 1024 /\ alloc (dir a i) = true /\ PDTABLE_GETPTEV (dir a i) = p)) as ->.
      { split; intros (i & Hi' & Hx); exists i; (split; [done|]); rewrite Hd in * by done; done. }
      rewrite elem_of_nil. destruct (decide (p ∈ ps)); [|tauto]. pose proof (Hps p ltac:(done)). tauto.
    + intros y Hy Hn. apply Hrd. tauto.
  - intros v Hv. apply walk_other; try done; [apply Hd; mlia|]. intros Ha. apply Ht; done || mlia.
Qed.

(** Translations are flushed. *)
Lemma idle_flush a start n b : pdir_wf a self -> idle a (if b : bool then a else pdir_flush start n a) [] [].
Proof.
  intros Hwf. pose proof (wf_inv _ _ Hwf) as Hi.
  assert (same_mem a (if b then a else pdir_flush start n a)) as (F1 & F2 & F3)
    by (destruct b; [done|apply flush_ok]).
  apply idle_intro; auto; [constructor|by intros p ?%elem_of_nil|].
  intros p _. rewrite F2, elem_of_nil. tauto.
Qed.

(** Pages are taken from the allocator, or there are not enough. *)
Lemma idle_scatter a n :
  pdir_wf a self -> 0 <= n <= 0x2000 -> n mod 4096 = 0 ->
  exists r a', scatter n a = Ret (r, a') /\
    match r with
    | None => n <> 0 /\ idle a a' [] []
    | Some c => exists ps, left_in c ps /\ Z.of_nat (length ps) * 4096 = n /\ idle a a' [] ps
    end.
Proof.
  intros Hwf Hn Hn4. destruct (law_scatter a n (wf_inv _ _ Hwf) Hn Hn4) as (r & a' & E & Hi & Hr & Hrd).
  exists r, a'. split; [done|]. destruct r as [c|].
  - destruct Hr as (ps & R1 & R2 & R3 & R4 & R5). exists ps. split; [done|]. split; [done|].
    by apply idle_intro.
  - destruct Hr as [Hn0 Hr]. split; [done|]. apply idle_intro; auto; [constructor|by intros p ?%elem_of_nil|].
    intros p _. rewrite Hr, elem_of_nil. tauto.
Qed.

Lemma used_up_nil c : left_in c [] -> used_up c = true.
Proof. by intros [s ->]%left_in_nil. Qed.

Lemma covers_idle new a a1 a2 a3 ps ps' v m t :
  idle a a1 [] ps -> covers self new a1 a2 ps ps' v m t -> idle a2 a3 ps' [] ->
  covers self new a a3 [] [] v m t.
Proof.
  intros I1 C I2. split.
  - eapply stepped_trans; [apply I1|]. eapply stepped_trans; [apply C|apply I2].
  - intros i Hi Hd. rewrite (idle_dir _ _ _ _ I2), (cv_dir _ _ _ _ _ _ _ _ _ C), (idle_dir _ _ _ _ I1); done.
  - intros v' Hv'. rewrite (idle_walk _ _ _ _ I2), (cv_walk _ _ _ _ _ _ _ _ _ C) by lia.
    by rewrite (idle_walk _ _ _ _ I1) by lia.
Qed.

Lemma floor_dindex x y :
  0 <= x < 1024 * 1024 -> 0 <= y < 4096 ->
  PDIR_DINDEX (FLOOR_ALIGN (4096 * x + y) PDTABLE_REPRSIZE) = x / 1024.
Proof.
  intros Hx Hy. unfold PDTABLE_REPRSIZE. change 0x400000 with (2 ^ 22).
  rewrite FLOOR_ALIGN_pow2 by lia. unfold PDIR_DINDEX. rewrite Z.shiftr_div_pow2 by lia.
  change (2 ^ 22) with 4194304. mlia.
Qed.

Lemma aligned_table x : IS_ALIGNED (4096 * x) PDTABLE_REPRSIZE = (x mod 1024 =? 0).
Proof. unfold IS_ALIGNED, PDTABLE_REPRSIZE. mlia. Qed.

(** The bytes asked for are the tables that are lacking. *)
Lemma reqbytes_change_ok a v m :
  0 <= v -> 0 <= m -> v + m <= 1023 * 1024 ->
  pdir_reqbytes_for_change self (4096 * v) (4096 * m) a = Ret (4096 * need self a v m).
Proof.
  intros Hv Hm Hvm. unfold pdir_reqbytes_for_change.
  rewrite !(proj2 (aligned_page _)) by mlia. cbn [oassert].
  destruct (Z.eqb_spec (4096 * m) 0) as [E|E].
  { assert (m = 0) as -> by lia. unfold need, head_pages, tail_pages, head_pages, lacking.
    rewrite Z.min_l by mlia. done. }
  replace (u32 (4096 * v + (4096 * m - 1))) with (4096 * (v + m - 1) + 4095)
    by (unfold u32; change (2 ^ 32) with 4294967296; mlia).
  replace (u32 (4096 * v + 4096 * m)) with (4096 * (v + m))
    by (unfold u32; change (2 ^ 32) with 4294967296; mlia).
  pose proof (floor_dindex v 0 ltac:(lia) ltac:(lia)) as Hmin. rewrite Z.add_0_r in Hmin.
  rewrite floor_dindex, Hmin, !aligned_table by lia. clear Hmin.
  rewrite (proj2 (Z.leb_le _ _)) by mlia. cbn [oassert]. f_equal. unfold need, lacking.
  assert ((0 <? head_pages v m) = negb (v mod 1024 =? 0)) as -> by (unfold head_pages; mlia).
  assert ((0 <? tail_pages v m) = negb ((v + m) mod 1024 =? 0) &&
    negb ((v / 1024 =? (v + m - 1) / 1024) && negb (v mod 1024 =? 0))) as ->
    by (unfold tail_pages, head_pages; mlia).
  unfold PDTABLE_ALLOCSIZE. destruct (Z.eqb_spec ((v + m) mod 1024) 0) as [E2|E2].
  - destruct (Z.eqb_spec (v / 1024) ((v + m - 1) / 1024)) as [<-|], (v mod 1024 =? 0), (alloc (dir a (v / 1024)));
      cbn [negb andb orb]; try lia; by destruct (negb _).
  - assert ((v + m) / 1024 = (v + m - 1) / 1024) as -> by mlia.
    destruct (Z.eqb_spec (v / 1024) ((v + m - 1) / 1024)) as [<-|], (v mod 1024 =? 0), (alloc (dir a (v / 1024)));
      cbn [negb andb orb]; try lia; by destruct (negb _).
Qed.

(** Memory is set aside for the range and its pages and tables are gone through. *)
Lemma change_ok one tbl Q QT R new a v m t :
  page_op self one Q R new -> table_op self tbl QT R new -> (forall w, alloc w = true -> Q w) ->
  pdir_wf a self -> 0 <= v -> 0 <= m -> v + m <= 1023 * 1024 -> page_addr t ->
  (0 < head_pages v m -> Q (dir a (v / 1024))) ->
  (0 < tail_pages v m -> Q (dir a ((v + m) / 1024))) ->
  (forall i, v <= 1024 * i -> 1024 * i + 1024 <= v + m ->
     QT i (dir a i) (u32 (t + 4096 * (1024 * i - v)))) ->
  (forall x, v <= x < v + m -> R (walk a self x)) ->
  exists r a1, scatter (4096 * need self a v m) a = Ret (r, a1) /\
    match r with
    | None => need self a v m <> 0 /\ idle a a1 [] []
    | Some c => exists c' a2,
        range_loops one tbl c (4096 * v) t (4096 * m) a1 =
          Ret (c', 4096 * (v + m), u32 (t + 4096 * m), 0, a2) /\
        used_up c' = true /\ covers self new a a2 [] [] v m t
    end.
Proof.
  intros H1 H2 HQ Hwf Hv Hm Hvm Ht HQ1 HQ3 HQT HR.
  assert (0 <= need self a v m <= 2) as Hn
    by (unfold need, lacking; destruct (_ && _), (_ && _); lia).
  destruct (idle_scatter a (4096 * need self a v m)) as (r & a1 & E & Hr); [done|lia|mlia|].
  exists r, a1. split; [done|]. destruct r as [c|]; [|destruct Hr; split; [lia|done]].
  destruct Hr as (ps & R1 & R2 & R3). pose proof (idle_step _ _ _ _ R3) as S1.
  assert (need self a1 v m = need self a v m) as Hneed.
  { unfold need, lacking. by rewrite !(idle_dir _ _ _ _ R3) by mlia. }
  destruct (range_loops_ok self one tbl Q QT R new H1 H2 HQ a1 c ps v m t) as (c' & a2 & E2 & T1 & T2);
    try done; try lia; try apply (st_wf _ _ _ _ _ S1); try apply (st_aside _ _ _ _ _ S1).
  - intros Hk. rewrite (idle_dir _ _ _ _ R3) by mlia. by apply HQ1.
  - intros Hk. rewrite (idle_dir _ _ _ _ R3) by mlia. by apply HQ3.
  - intros i Hi1 Hi2. rewrite (idle_dir _ _ _ _ R3) by lia. by apply HQT.
  - intros x Hx. rewrite (idle_walk _ _ _ _ R3) by lia. by apply HR.
  - exists c', a2. split; [done|]. split; [by apply used_up_nil|].
    eapply covers_idle; [exact R3|exact T2|]. split; [|done|done].
    apply stepped_refl; apply T2.
Qed.

(** The attributes among the flags. *)
Lemma prot_bits flags m : Z.land m 0xfff = m -> Z.land (Z.land flags PDIR_ATTR_MASK) m = Z.land flags m.
Proof. intros Hm. rewrite <- Z.land_assoc. f_equal. rewrite Z.land_comm. exact Hm. Qed.

Lemma prot_flags_ok flags :
  bits flags PDIR_ATTR_4MIB = false -> flags_ok (Z.land flags PDIR_ATTR_MASK).
Proof.
  intros H4. split.
  - unfold attrs, PDIR_ATTR_MASK. change 0xfff with (Z.ones 12). rewrite Z.land_ones by lia. mlia.
  - unfold bits in *. by rewrite prot_bits.
Qed.

(** The translations after an operation on the [n] bytes at [start]: all done,
    or nothing because memory is short. *)
Definition on_range (new : Z -> option (Z * Z) -> option (Z * Z)) (a a' : A) (start n t : Z) : Prop :=
  forall v, 0 <= v < 1023 * 1024 -> walk a' self v =
    if (start <=? 4096 * v) && (4096 * v <? start + n) then new (u32 (t + (4096 * v - start))) (walk a self v)
    else walk a self v.

Lemma covers_range new a a' v m t :
  covers self new a a' [] [] v m t -> on_range new a a' (4096 * v) (4096 * m) t.
Proof.
  intros C v' Hv'. rewrite (cv_walk _ _ _ _ _ _ _ _ _ C) by done.
  replace (4096 * v' - 4096 * v) with (4096 * (v' - v)) by lia.
  destruct (Z.leb_spec v v'), (Z.leb_spec (4096 * v) (4096 * v')), (Z.ltb_spec v' (v + m)),
    (Z.ltb_spec (4096 * v') (4096 * v + 4096 * m)); done || lia.
Qed.

Lemma on_range_empty new a start n t : n = 0 -> on_range new a a start n t.
Proof.
  intros -> v Hv. rewrite Z.add_0_r.
  destruct (Z.leb_spec start (4096 * v)), (Z.ltb_spec (4096 * v) start); done || lia.
Qed.

Lemma covers_done new new' a a' v m t start n b :
  covers self new a a' [] [] v m t -> (forall t old, new t old = new' t old) ->
  let a3 := if b : bool then a' else pdir_flush start n a' in
  stepped a a3 self [] [] /\ on_range new' a a3 (4096 * v) (4096 * m) t.
Proof.
  intros C E a3. pose proof (st_wf _ _ _ _ _ (cv_step _ _ _ _ _ _ _ _ _ C)) as Hwf.
  pose proof (idle_flush a' start n b Hwf) as I. fold a3 in I. clearbody a3. split.
  - eapply stepped_trans; [apply C|apply I].
  - intros v' Hv'. rewrite (idle_walk _ _ _ _ I), (covers_range _ _ _ _ _ _ C), E by lia. done.
Qed.

(** Where a range may be: whole pages below the self-map, and below the kernel
    unless the directory is the kernel's. *)
Definition range_ok (start n : Z) : Prop :=
  start mod 4096 = 0 /\ n mod 4096 = 0 /\ 0 <= start /\ 0 <= n /\ start + n <= THIS_PDIR_BASE /\
  (PDIR_ISKERNEL pdir_kernel pdir_kernel_v self = true \/ start + n <= VM_HOST_BASE).

Lemma range_ok_pages start n :
  range_ok start n -> exists v m, start = 4096 * v /\ n = 4096 * m /\ 0 <= v /\ 0 <= m /\ v + m <= 1023 * 1024.
Proof.
  intros (H1 & H2 & H3 & H4 & H5 & _). unfold THIS_PDIR_BASE in H5. exists (start / 4096), (n / 4096). mlia.
Qed.

Lemma range_assert start n :
  range_ok start n -> n <> 0 ->
  PDIR_ISKERNEL pdir_kernel pdir_kernel_v self || negb (addr_isglob (u32 (start + n - 1))) = true.
Proof.
  intros (H1 & H2 & H3 & H4 & H5 & H6) Hn. destruct H6 as [->|H6]; [done|].
  apply orb_true_intro. right. unfold addr_isglob, u32, VM_HOST_BASE, THIS_PDIR_BASE in *.
  change (2 ^ 32) with 4294967296. mlia.
Qed.

Lemma try_tbl2map_id (b : bool) addr a : (if b then try_tbl2map self addr a else Ret a) = Ret a.
Proof.
  unfold try_tbl2map, pd_table_tbl2map. destruct b; [|done].
  by destruct (PDTABLE_ISVALID (rd32 a (pd_at self (PDIR_DINDEX addr)))).
Qed.

(** 4 MiB mappings are made only of targets with the same place in 4 MiB. *)
Definition mmap_target_ok (start n target flags : Z) : Prop :=
  forall i, 0 <= i < 768 -> start <= 0x400000 * i -> 0x400000 * i + 0x400000 <= start + n ->
    bits flags PDIR_ATTR_PRESENT = true -> (target - start) mod 0x400000 = 0.

Lemma mmap_ok a start n target flags :
  pdir_wf a self -> range_ok start n -> page_addr target -> bits flags PDIR_ATTR_4MIB = false ->
  (VM_HOST_BASE < start + n -> bits flags PDIR_ATTR_USER = false) ->
  mmap_target_ok start n target flags ->
  exists r a', pdir_mmap pdir_kernel pdir_kernel_v self start n target flags a = Ret (r, a') /\
    stepped a a' self [] [] /\
    (r = - ENOMEM /\ (forall v, 0 <= v < 1023 * 1024 -> walk a' self v = walk a self v) \/
     r = - EOK /\ on_range (new_map flags) a a' start n target).
Proof.
  intros Hwf Hr Ht H4 Hu Hal. destruct (range_ok_pages start n Hr) as (v & m & -> & -> & Hv & Hm & Hvm).
  unfold pdir_mmap. rewrite !(proj2 (aligned_page _)) by (mlia || apply Ht). cbn [oassert].
  destruct (Z.eqb_spec (4096 * m) 0) as [E0|E0].
  { exists (- EOK), a. split; [done|]. split; [apply stepped_refl; [done|]|].
    { split; [constructor|by intros p ?%elem_of_nil]. }
    right. split; [done|]. by apply on_range_empty. }
  rewrite range_assert by done. cbn [oassert]. rewrite reqbytes_change_ok by done. cbn [obind].
  set (fl := Z.land flags PDIR_ATTR_MASK).
  pose proof (prot_flags_ok flags H4) as Hf. fold fl in Hf.
  assert (forall m, Z.land m 0xfff = m -> bits fl m = bits flags m) as Hbits
    by (intros; unfold bits, fl; by rewrite prot_bits).
  destruct (change_ok _ _ _ _ _ _ a v m target (mmap_one_ok self fl Hf) (mmap_tbl_ok self fl Hf))
    as (r & a1 & E1 & Hr1); try done.
  { intros i Hi1 Hi2. unfold mmap_table_ok. destruct (Z.ltb_spec i 768); rewrite Hbits by done.
    - intros Hp. specialize (Hal i ltac:(lia) ltac:(lia) ltac:(lia) Hp). unfold u32.
      change (2 ^ 22) with 4194304. change (2 ^ 32) with 4294967296. mlia.
    - apply Hu. unfold VM_HOST_BASE. lia. }
  rewrite E1. cbn [obind]. destruct r as [c|].
  - destruct Hr1 as (c' & a2 & E2 & E3 & C). rewrite E2. cbn [obind]. rewrite E3. cbn [oassert].
    rewrite try_tbl2map_id. cbn [obind]. rewrite try_tbl2map_id. cbn [obind].
    eexists _, _. split; [done|].
    destruct (covers_done _ (new_map flags) _ _ _ _ _ (4096 * v) 0 (bits flags PDIR_FLAG_NOFLUSH) C)
      as [S1 S2]; [|split; [exact S1|by right]]. intros t old. unfold new_map. rewrite Hbits by done.
    unfold fl. by rewrite prot_bits.
  - destruct Hr1 as [_ I]. exists (- ENOMEM), a1. split; [done|]. split; [apply I|]. left. split; [done|].
    intros v' Hv'. apply I. lia.
Qed.

(** Tables the range overlaps. *)
Definition overlaps (start n i : Z) : Prop := start < 0x400000 * i + 0x400000 /\ 0x400000 * i < start + n.
Definition within (start n i : Z) : Prop := start <= 0x400000 * i /\ 0x400000 * i + 0x400000 <= start + n.

Lemma head_overlaps v m :
  0 <= v -> 0 <= m -> 0 < head_pages v m ->
  overlaps (4096 * v) (4096 * m) (v / 1024) /\ ~ within (4096 * v) (4096 * m) (v / 1024).
Proof. unfold head_pages, overlaps, within. intros. mlia. Qed.

Lemma tail_overlaps v m :
  0 <= v -> 0 <= m -> 0 < tail_pages v m ->
  overlaps (4096 * v) (4096 * m) ((v + m) / 1024) /\ ~ within (4096 * v) (4096 * m) ((v + m) / 1024).
Proof. unfold tail_pages, head_pages, overlaps, within. intros. mlia. Qed.

Lemma munmap_ok a start n flags :
  let size := CEIL_ALIGN (2 ^ 32) n PAGESIZE in
  pdir_wf a self -> range_ok start size ->
  (forall i, 0 <= i < 1023 -> overlaps start size i -> ~ within start size i -> used (dir a i)) ->
  exists r a', pdir_munmap pdir_kernel pdir_kernel_v self start n flags a = Ret (r, a') /\
    stepped a a' self [] [] /\
    (r = - ENOMEM /\ (forall v, 0 <= v < 1023 * 1024 -> walk a' self v = walk a self v) \/
     r = - EOK /\ on_range (fun _ _ => None) a a' start size 0).
Proof.
  intros size Hwf Hr Hu. unfold pdir_munmap. fold size. clearbody size.
  destruct (range_ok_pages start size Hr) as (v & m & -> & -> & Hv & Hm & Hvm).
  rewrite (proj2 (aligned_page _)) by mlia. cbn [oassert].
  destruct (Z.eqb_spec (4096 * m) 0) as [E0|E0].
  { exists (- EOK), a. split; [done|]. split; [apply stepped_refl; [done|]|].
    { split; [constructor|by intros p ?%elem_of_nil]. }
    right. split; [done|]. by apply on_range_empty. }
  rewrite range_assert by done. cbn [oassert].
  assert ((u32 (4096 * v + 4096 * m) =? 0) || (4096 * v <? u32 (4096 * v + 4096 * m)) = true) as ->
    by (unfold u32; change (2 ^ 32) with 4294967296; mlia).
  cbn [oassert]. rewrite reqbytes_change_ok by done. cbn [obind].
  destruct (change_ok _ _ _ _ _ _ a v m 0 (munmap_one_ok self) (munmap_tbl_ok self))
    as (r & a1 & E1 & Hr1); try done.
  { by right. }
  { intros Hk. destruct (head_overlaps v m Hv Hm Hk). apply Hu; done || mlia. }
  { intros Hk. destruct (tail_overlaps v m Hv Hm Hk) as [Ho ?]. apply Hu; try done.
    unfold overlaps in Ho. mlia. }
  rewrite E1. cbn [obind]. destruct r as [c|].
  - destruct Hr1 as (c' & a2 & E2 & E3 & C). rewrite E2. cbn [obind]. rewrite E3. cbn [oassert].
    eexists _, _. split; [done|].
    destruct (covers_done _ (fun _ _ => None) _ _ _ _ _ (4096 * (v + m)) 0
      (bits flags PDIR_FLAG_NOFLUSH) C) as [S1 S2]; [done|]. split; [exact S1|by right].
  - destruct Hr1 as [_ I]. exists (- ENOMEM), a1. split; [done|]. split; [apply I|]. left. split; [done|].
    intros v' Hv'. apply I. lia.
Qed.

(** All pages of the range are mapped. *)
Lemma all_mapped_ok a v (m : nat) :
  pdir_wf a self -> 0 <= v -> v + Z.of_nat m <= 1023 * 1024 ->
  (forall x, v <= x < v + Z.of_nat m -> alloc (dir a (x / 1024)) = true /\ walk a self x <> None) ->
  all_mapped m self (4096 * v) a = true.
Proof.
  intros Hwf. revert v. induction m as [|m IH]; intros v Hv Hvm Hx; [done|]. cbn [all_mapped].
  destruct (Hx v ltac:(lia)) as [Ha Hw]. unfold pdir_ismapped. rewrite dindex_page, tindex_page by lia.
  destruct (index_page v ltac:(lia)) as [Hi Hj].
  destruct (isalloc_word _ (wf_word a self Hwf (v / 1024) ltac:(lia)) Ha) as (_ & _ & ->).
  rewrite Ha. cbn [negb]. rewrite walk_alloc in Hw by (done || lia). unfold entry_walk in Hw.
  change (PDENTRY_ISPRESENT _) with (bits (tab a self (v / 1024) (v mod 1024)) PDIR_ATTR_PRESENT).
  destruct (bits (tab _ _ _ _) _); [|done]. cbn [andb].
  replace (u32 (4096 * v + PAGESIZE)) with (4096 * (v + 1))
    by (unfold u32, PAGESIZE; change (2 ^ 32) with 4294967296; mlia).
  apply IH; [lia|lia|]. intros x Hx'. apply Hx. lia.
Qed.

Lemma reqbytes_mprotect_ok a v m flags :
  0 <= v -> 0 <= m -> v + m <= 1023 * 1024 ->
  (forall x, v <= x < v + m -> alloc (dir a (x / 1024)) = true) ->
  pdir_reqbytes_for_mprotect self (4096 * v) (4096 * m) flags a = Ret 0.
Proof.
  intros Hv Hm Hvm Hx. unfold pdir_reqbytes_for_mprotect.
  rewrite !(proj2 (aligned_page _)) by mlia. cbn [oassert].
  destruct (Z.eqb_spec (4096 * m) 0); [done|].
  replace (u32 (4096 * v + (4096 * m - 1))) with (4096 * (v + m - 1) + 4095)
    by (unfold u32; change (2 ^ 32) with 4294967296; mlia).
  pose proof (floor_dindex v 0 ltac:(lia) ltac:(lia)) as Hmin. rewrite Z.add_0_r in Hmin.
  rewrite floor_dindex, Hmin by lia. rewrite (proj2 (Z.leb_le _ _)) by mlia. cbn [oassert].
  rewrite (Hx v), (Hx (v + m - 1)) by lia. cbn [negb andb]. by destruct (negb _).
Qed.

Lemma mprotect_ok a start n flags :
  let size := CEIL_ALIGN (2 ^ 32) n PAGESIZE in
  pdir_wf a self -> range_ok start size -> bits flags PDIR_ATTR_4MIB = false ->
  (forall x, start <= 4096 * x < start + size -> alloc (dir a (x / 1024)) = true /\ walk a self x <> None) ->
  exists a', pdir_mprotect pdir_kernel pdir_kernel_v self start n flags a = Ret (size, a') /\
    stepped a a' self [] [] /\ on_range (new_prot flags) a a' start size 0.
Proof.
  intros size Hwf Hr H4 Hx. unfold pdir_mprotect. fold size. clearbody size.
  destruct (range_ok_pages start size Hr) as (v & m & -> & -> & Hv & Hm & Hvm).
  rewrite (proj2 (aligned_page _)) by mlia. cbn [oassert].
  assert (PDIR_ISKERNEL pdir_kernel pdir_kernel_v self || (4096 * m =? 0) ||
    negb (addr_isglob (u32 (4096 * v + 4096 * m - 1))) = true) as ->.
  { destruct (Z.eqb_spec (4096 * m) 0); [by rewrite orb_true_r|]. rewrite orb_false_r. by apply range_assert. }
  assert ((u32 (4096 * v + 4096 * m) =? 0) || (4096 * v <=? u32 (4096 * v + 4096 * m)) = true) as ->
    by (unfold u32; change (2 ^ 32) with 4294967296; mlia).
  replace (4096 * m / PAGESIZE) with m by (unfold PAGESIZE; mlia).
  assert (forall x, v <= x < v + m -> alloc (dir a (x / 1024)) = true /\ walk a self x <> None) as Hx'
    by (intros; apply Hx; lia).
  assert (all_mapped (Z.to_nat m) self (4096 * v) a = true) as ->
    by (apply all_mapped_ok; rewrite ?Z2Nat.id by lia; done).
  cbn [oassert].
  rewrite reqbytes_mprotect_ok by (done || apply Hx'). cbn [obind].
  set (fl := Z.land flags PDIR_ATTR_MASK). pose proof (prot_flags_ok flags H4) as Hf. fold fl in Hf.
  assert (0 < head_pages v m -> alloc (dir a (v / 1024)) = true) as Hhead.
  { intros Hk. apply Hx'. unfold head_pages in Hk. lia. }
  assert (0 < tail_pages v m -> alloc (dir a ((v + m) / 1024)) = true) as Htail.
  { intros Hk. unfold tail_pages, head_pages in Hk.
    replace ((v + m) / 1024) with ((v + m - 1) / 1024) by mlia. apply Hx'. mlia. }
  assert (need self a v m = 0) as Hneed.
  { unfold need, lacking.
    destruct (Z.ltb_spec 0 (head_pages v m)); [rewrite Hhead by done|];
      (destruct (Z.ltb_spec 0 (tail_pages v m)); [rewrite Htail by done|]; done). }
  destruct (change_ok _ _ _ _ _ _ a v m 0 (mprotect_one_ok self fl Hf) (mprotect_tbl_ok self fl Hf))
    as (r & a1 & E1 & Hr1); try done.
  { by right. }
  { intros Hk. right. by apply Hhead. }
  { intros Hk. right. by apply Htail. }
  { intros i H1 H2. replace i with (1024 * i / 1024) by mlia. apply Hx'. lia. }
  { intros x Hx1. by apply Hx'. }
  rewrite Hneed in E1, Hr1. change (4096 * 0) with 0 in E1. rewrite E1. cbn [obind].
  destruct r as [c|]; [|by destruct Hr1].
  destruct Hr1 as (c' & a2 & E2 & E3 & C). rewrite E2. cbn [obind]. rewrite E3. cbn [oassert].
  eexists. split; [done|]. apply (covers_done (new_prot fl)); [done|]. intros t [[p fl0]|]; [|done].
  unfold new_prot, fl. unfold bits. by rewrite !prot_bits.
Qed.

(** ** Reading a directory *)

Lemma index_addr ptr :
  0 <= ptr < 2 ^ 32 ->
  0 <= ptr / 4096 < 1024 * 1024 /\ PDIR_DINDEX ptr = ptr / 4096 / 1024 /\
  PDIR_TINDEX ptr = (ptr / 4096) mod 1024 /\ PDIR_OFFSET ptr = ptr mod 4096 /\
  PDIR_MOFFSET ptr = 4096 * ((ptr / 4096) mod 1024) + ptr mod 4096.
Proof.
  intros Hp. unfold PDIR_DINDEX, PDIR_TINDEX, PDIR_OFFSET, PDIR_MOFFSET.
  change 0x3ff with (Z.ones 10). change 0xfff with (Z.ones 12). change 0x3fffff with (Z.ones 22).
  rewrite !Z.land_ones, !Z.shiftr_div_pow2 by lia.
  change (2 ^ 22) with 4194304. change (2 ^ 10) with 1024. change (2 ^ 12) with 4096.
  change (2 ^ 32) with 4294967296 in Hp. repeat split; mlia.
Qed.

Lemma getmap_bound w : 0 <= w < 2 ^ 32 -> PDTABLE_GETMAP w mod 2 ^ 22 = 0 -> 0 <= PDTABLE_GETMAP w <= 0xffc00000.
Proof.
  intros Hw Hm. destruct (getptev_page w Hw) as [_ Hb].
  change (PDTABLE_GETPTEV w) with (PDTABLE_GETMAP w) in Hb.
  change (2 ^ 22) with 4194304 in Hm. change (2 ^ 32) with 4294967296 in Hb. mlia.
Qed.

Lemma translate_ok a ptr p r :
  pdir_wf a self -> 0 <= ptr < 2 ^ 32 -> walk a self (ptr / 4096) = Some (p, r) ->
  pdir_translate self ptr a = Ret (p + ptr mod 4096).
Proof.
  intros Hwf Hp Hw. destruct (index_addr ptr Hp) as (Hv & Ed & Et & Eo & Em).
  unfold pdir_translate. rewrite Ed, Et, Eo, Em. set (v := ptr / 4096) in *.
  assert (0 <= v / 1024 < 1024) as Hi by mlia.
  pose proof (wf_word a self Hwf (v / 1024) Hi) as Hword.
  pose proof (walk_present self a v ltac:(by rewrite Hw)) as Hpr.
  destruct (PDTABLE_ISMAP (dir a (v / 1024))) eqn:Hm.
  - rewrite walk_map in Hw by done. rewrite Hpr in Hw. injection Hw as <- _.
    pose proof (getmap_bound _ Hword (wf_4mib a self Hwf _ Hi Hm Hpr)) as Hg.
    unfold u32. rewrite Z.mod_small by (change (2 ^ 32) with 4294967296; mlia). f_equal. lia.
  - destruct (alloc (dir a (v / 1024))) eqn:Ha; [|by rewrite walk_empty in Hw].
    rewrite isvalid_word by done. cbn [oassert]. rewrite walk_alloc in Hw by done.
    change (rd32 a _) with (tab a self (v / 1024) (v mod 1024)). unfold entry_walk in Hw.
    unfold PDENTRY_ISPRESENT. destruct (bits (tab a self (v / 1024) (v mod 1024)) _); [|done].
    injection Hw as <- _. done.
Qed.

(** Rights as the processor checks them. *)
Definition grants (flags : Z) (w : option (Z * Z)) : bool :=
  match w with Some (_, r) => Z.land r flags =? flags | None => false end.

(** [flags] that ask for presence, and writing or user access besides. *)
Definition access_flags (flags : Z) : Prop := Z.land flags 7 = flags /\ bits flags PDIR_ATTR_PRESENT = true.

Lemma present_flags flags w :
  access_flags flags -> Z.land w flags = flags -> bits w PDIR_ATTR_PRESENT = true.
Proof.
  intros [_ Hp] E. unfold bits in *. rewrite <- E in Hp. apply negb_true_iff, Z.eqb_neq in Hp.
  apply negb_true_iff, Z.eqb_neq. intros E1. apply Hp.
  rewrite <- Z.land_assoc, (Z.land_comm flags), Z.land_assoc, E1. done.
Qed.

Lemma land_sub w flags : Z.land flags 7 = flags -> Z.land (Z.land w 7) flags = Z.land w flags.
Proof. intros E. rewrite <- Z.land_assoc. f_equal. by rewrite Z.land_comm. Qed.

Lemma land_both e w flags :
  (Z.land (Z.land e w) flags =? flags) = (Z.land e flags =? flags) && (Z.land w flags =? flags).
Proof.
  assert (forall x y, Z.land (Z.land x y) flags = flags -> Z.land x flags = flags) as Hl.
  { intros x y E. apply Z.bits_inj'. intros n Hn. assert (Z.testbit (Z.land (Z.land x y) flags) n =
      Z.testbit flags n) as Eb by by rewrite E. rewrite !Z.land_spec in *.
    destruct (Z.testbit x n), (Z.testbit y n), (Z.testbit flags n); done. }
  destruct (Z.eqb_spec (Z.land e flags) flags) as [E1|E1], (Z.eqb_spec (Z.land w flags) flags) as [E2|E2];
    cbn [andb]; [apply Z.eqb_eq|apply Z.eqb_neq; intros E..].
  - by rewrite <- Z.land_assoc, E2.
  - apply E2, (Hl w e). by rewrite (Z.land_comm w e).
  - by apply E1, (Hl e w).
  - by apply E1, (Hl e w).
Qed.

Lemma maccess_addr_ok a ptr flags :
  pdir_wf a self -> 0 <= ptr < 2 ^ 32 -> access_flags flags ->
  pdir_maccess_addr self ptr flags a = Ret (grants flags (walk a self (ptr / 4096))).
Proof.
  intros Hwf Hp Hf. destruct (index_addr ptr Hp) as (Hv & Ed & Et & _ & _).
  unfold pdir_maccess_addr. rewrite Ed, Et, (proj2 Hf). cbn [oassert]. set (v := ptr / 4096) in *.
  assert (0 <= v / 1024 < 1024) as Hi by mlia.
  pose proof (wf_word a self Hwf (v / 1024) Hi) as Hword. unfold grants, walk.
  destruct (Z.eqb_spec (Z.land (dir a (v / 1024)) flags) flags) as [E|E]; cbn [negb].
  - pose proof (present_flags flags _ Hf E) as Hpr. rewrite Hpr.
    destruct (PDTABLE_ISMAP (dir a (v / 1024))) eqn:Hm.
    { rewrite land_sub by apply Hf. by rewrite E, Z.eqb_refl. }
    destruct (alloc (dir a (v / 1024))) eqn:Ha.
    2: { rewrite (wf_empty a self Hwf _ Hi Hm Ha) in Hpr. discriminate Hpr. }
    rewrite isvalid_word by done. cbn [negb]. change (rd32 a _) with (tab a self (v / 1024) (v mod 1024)).
    set (e := tab a self (v / 1024) (v mod 1024)).
    destruct (bits e PDIR_ATTR_PRESENT) eqn:He.
    { rewrite land_sub, land_both, E, Z.eqb_refl, andb_true_r by apply Hf. done. }
    destruct (Z.eqb_spec (Z.land e flags) flags) as [E2|]; [|done].
    pose proof (present_flags flags e Hf E2). congruence.
  - f_equal. destruct (bits (dir a (v / 1024)) PDIR_ATTR_PRESENT); [|done].
    apply Z.eqb_neq in E. destruct (PDTABLE_ISMAP (dir a (v / 1024))).
    { rewrite land_sub by apply Hf. done. }
    destruct (bits (tab a self (v / 1024) (v mod 1024)) PDIR_ATTR_PRESENT); [|done].
    by rewrite land_sub, land_both, E, andb_false_r by apply Hf.
Qed.

End Ranges.
