(* ===== verification/Paging32Dir.v ===== *)
(** * Making and releasing page directories

    [pdir_init] makes a directory that maps nothing below the kernel and the
    kernel's pages as the kernel's directory does; [pdir_fini] gives back the
    tables below the kernel. *)
From stdpp Require Import base numbers list.
From S2P Require Import Prelude Align PageAlloc PageScatter PhysMem Paging32 Paging32Spec Paging32Ops Paging32Map.

Section Directories.

Context {A : Type} `{PL : PhysLaws A}.

Abbreviation alloc w := (PDTABLE_ISALLOC w).

(** ** Releasing *)

Lemma fini_test w : negb (PDTABLE_GETPTEV w =? ADDR_MASK) && negb (bits w PDIR_ATTR_4MIB) = alloc w.
Proof. done. Qed.

Section Fini.

Context (self : Z) (a0 : A).
Hypothesis Hwf : pdir_wf a0 self.

(** Tables from index [i] up to the kernel. *)
Definition table_from (i p : Z) : Prop :=
  exists k, i <= k < 768 /\ alloc (directory a0 self k) = true /\ PDTABLE_GETPTEV (directory a0 self k) = p.

Lemma fini_loop_ok (n : nat) : forall i a,
  Z.of_nat i + Z.of_nat n = 768 -> pinv a ->
  (forall p, p mod 4096 = 0 -> isfree a p -> ~ table_from (Z.of_nat i) p) ->
  (forall j, 0 <= j < 1024 -> directory a self j = directory a0 self j) -> ~ isfree a self ->
  exists a', fini_loop n i self a = Ret a' /\ pinv a' /\
    (forall p, p mod 4096 = 0 -> isfree a' p <-> isfree a p \/ table_from (Z.of_nat i) p) /\
    (forall x, ~ isfree a' (page_of x) -> rd32 a' x = rd32 a x).
Proof.
  induction n as [|n IH]; intros i a Hn Hi Hf Hd Hs.
  - exists a. split; [done|]. split; [done|]. split; [|done]. intros p _. split; [tauto|].
    intros [?|(k & Hk & _)]; [done|lia].
  - cbn [fini_loop]. rewrite fini_test, Hd by lia.
    destruct (wf_self a0 self Hwf) as [[Hs1 _] _].
    assert (forall p, table_from (Z.of_nat i) p <-> table_from (Z.of_nat (S i)) p \/
      (alloc (directory a0 self (Z.of_nat i)) = true /\ PDTABLE_GETPTEV (directory a0 self (Z.of_nat i)) = p))
      as Htf.
    { intros p. split.
      - intros (k & Hk & Hx). destruct (Z.eq_dec k (Z.of_nat i)) as [->|]; [by right|].
        left. exists k. split; [lia|done].
      - intros [(k & Hk & Hx)|Hx]; [exists k|exists (Z.of_nat i)]; (split; [lia|done]). }
    destruct (alloc (directory a0 self (Z.of_nat i))) eqn:Ha.
    + destruct (wf_table a0 self Hwf (Z.of_nat i) ltac:(lia) Ha) as (T1 & T2 & T3).
      destruct (table_page a0 self (Z.of_nat i) Hwf ltac:(lia) Ha) as ([T4 _] & _).
      destruct (law_free a (PDTABLE_GETPTEV (directory a0 self (Z.of_nat i))) Hi) as (a1 & E & F1 & F2 & F3);
        [apply T3; lia|intros Hfr; apply (Hf _ T4 Hfr); rewrite Htf; by right|].
      rewrite E. cbn [obind].
      destruct (IH (S i) a1) as (a' & E' & G1 & G2 & G3); try done; [lia|..].
      { intros p Hp. rewrite F2 by done. intros [Hfr| ->] Hin.
        - apply (Hf p Hp Hfr). rewrite Htf. by left.
        - destruct Hin as (k & Hk & Hx & Hy). pose proof (wf_inj a0 self Hwf k (Z.of_nat i)) as Hinj.
          specialize (Hinj ltac:(lia) ltac:(lia) Hx Ha Hy). lia. }
      { intros j Hj. rewrite <- Hd by done. apply F3. rewrite pd_at_page, F2 by done. intros [?|E2]; [done|].
        by apply T2. }
      { rewrite F2 by done. intros [?|E2]; [done|by apply T2]. }
      exists a'. split; [done|]. split; [done|]. split.
      { intros p Hp. rewrite G2, F2, Htf by done. intuition (subst; auto). }
      intros x Hx. rewrite G3 by done. apply F3. intros Hx'. apply Hx. apply G2; [apply page_of_mod|]. by left.
    + cbn [obind]. destruct (IH (S i) a) as (a' & E' & G1 & G2 & G3); try done; [lia|..].
      { intros p Hp Hfr Hin. apply (Hf p Hp Hfr). rewrite Htf. by left. }
      exists a'. split; [done|]. split; [done|]. split; [|done].
      intros p Hp. rewrite G2, Htf by done. intuition congruence.
Qed.

Lemma fini_ok pdir_kernel pdir_kernel_v :
  PDIR_ISKERNEL pdir_kernel pdir_kernel_v self = false ->
  exists a', pdir_fini pdir_kernel pdir_kernel_v self a0 = Ret a' /\ pinv a' /\
    (forall p, p mod 4096 = 0 -> isfree a' p <-> isfree a0 p \/ table_from 0 p) /\
    (forall x, ~ isfree a' (page_of x) -> rd32 a' x = rd32 a0 x).
Proof.
  intros Hk. unfold pdir_fini. unfold PDIR_ISKERNEL in Hk. apply orb_false_iff in Hk as [-> ->].
  cbn [negb andb oassert]. apply (fini_loop_ok 768 0 a0); try done; [apply Hwf| |apply Hwf].
  intros p Hp Hfr (k & Hk & Hx & <-). by apply (proj1 (wf_table a0 self Hwf k ltac:(lia) Hx)).
Qed.

End Fini.

(** ** Making *)

Definition selfmap_attr (i : Z) : Z := if i =? 1023 then SELFMAP_ATTR else Z.lor SELFMAP_ATTR PDIR_ATTR_GLOBAL.

(** The self-map of tables that are there. *)
Lemma selfmap_loop_ok self p (n : nat) : forall i a,
  pinv a -> p mod 4096 = 0 -> ~ isfree a p -> self mod 4096 = 0 -> self <> p ->
  0 <= i -> i + Z.of_nat n <= 1024 ->
  (forall j, i <= j < i + Z.of_nat n -> alloc (directory a self j) = true) ->
  exists a', selfmap_loop n self p i a = Ret a' /\
    rewritten a a' p (fun j => if (i <=? j) && (j <? i + Z.of_nat n)
      then Z.lor (PDTABLE_GETPTEV (directory a self j)) (selfmap_attr j) else rd32 a (pd_at p j)).
Proof.
  induction n as [|n IH]; intros i a Hi Hp Hf Hs Hne Hi0 Hin Ha.
  - exists a. split; [done|]. split; [done|done| |done]. intros j Hj.
    destruct (Z.leb_spec i j), (Z.ltb_spec j (i + Z.of_nat 0)); done || lia.
  - cbn [selfmap_loop]. rewrite (Ha i) by lia. cbn [oassert].
    change (i =? PDIR_TABLE_COUNT - 1) with (i =? 1023).
    set (e := if i =? 1023 then _ else _).
    assert (e = Z.lor (PDTABLE_GETPTEV (directory a self i)) (selfmap_attr i)) as Ee.
    { unfold e, selfmap_attr. destruct (i =? 1023); [done|]. by rewrite <- Z.lor_assoc. }
    clearbody e. subst e.
    pose proof (wr_rewritten a p i (Z.lor (PDTABLE_GETPTEV (directory a self i)) (selfmap_attr i)) Hi Hp Hf
      ltac:(lia)) as R1.
    set (a1 := wr32 _ _ a) in *.
    assert (forall j, 0 <= j < 1024 -> directory a1 self j = directory a self j) as Hd
      by (intros j Hj; by eapply dir_other).
    destruct (IH (i + 1) a1) as (a' & E & R2); try done; try lia.
    { apply R1. }
    { intros Hx. by apply Hf, (rw_free _ _ _ _ R1). }
    { intros j Hj. rewrite Hd by lia. apply Ha. lia. }
    exists a'. split; [done|]. eapply rewritten_ext; [|eapply rewritten_trans; [exact R1|exact R2]].
    intros j Hj. cbn beta. rewrite Hd by lia. rewrite (rw_in _ _ _ _ R1) by done. unfold put.
    destruct (Z.eqb_spec j i), (Z.leb_spec (i + 1) j), (Z.ltb_spec j (i + 1 + Z.of_nat n)),
      (Z.leb_spec i j), (Z.ltb_spec j (i + Z.of_nat (S n))); try lia; try done; by subst j.
Qed.

Section Init.

#[local] Opaque memsetl memcpyl selfmap_loop.

Context (pdir_kernel self : Z) (a : A).
Hypothesis Hwf : pdir_wf a pdir_kernel.
Hypothesis Hself : page_addr self /\ ~ isfree a self /\ ~ held a pdir_kernel [] self.

(** What [pdir_init] builds: its words, and those of the new table [last]. *)
Definition init_word (last i : Z) : Z :=
  if i <? 768 then ADDR_MASK else if i =? 1023 then last + SELFMAP_ATTR else directory a pdir_kernel i.

Record built (a' : A) (last : Z) : Prop := {
  bd_inv : pinv a';
  bd_last : last mod 4096 = 0 /\ isfree a last;
  bd_free p : p mod 4096 = 0 -> isfree a' p <-> isfree a p /\ p <> last;
  bd_dir i : 0 <= i < 1024 -> directory a' self i = init_word last i;
  bd_map j : 0 <= j < 1024 -> rd32 a' (pd_at last j) =
    if j <? 768 then ADDR_MASK else Z.lor (PDTABLE_GETPTEV (init_word last j)) (selfmap_attr j);
  bd_frame y : y mod 4 = 0 -> page_of y <> self -> ~ isfree a (page_of y) -> rd32 a' y = rd32 a y
}.

Lemma last_word last :
  page_addr last -> last <> ADDR_MASK ->
  alloc (last + SELFMAP_ATTR) = true /\ PDTABLE_GETPTEV (last + SELFMAP_ATTR) = last /\
  PDTABLE_ISMAP (last + SELFMAP_ATTR) = false /\ Z.land (last + SELFMAP_ATTR) 3 = 3.
Proof.
  intros Hl Hne. rewrite isalloc_page, ismap_page by done. unfold PDTABLE_GETPTEV.
  rewrite land_page, land_low_page by done. apply Z.eqb_neq in Hne. by rewrite Hne.
Qed.

Lemma selfmap_attr_entry w i :
  0 <= w < 2 ^ 32 ->
  let e := Z.lor (PDTABLE_GETPTEV w) (selfmap_attr i) in 0 <= e < 2 ^ 32 /\ selfmaps w e.
Proof.
  intros Hw. pose proof (selfmap_entry w Hw) as (H1 & H2 & H3). unfold selfmap_attr.
  destruct (i =? 1023); [done|]. rewrite Z.lor_assoc.
  pose proof (or_word _ PDIR_ATTR_GLOBAL H1 ltac:(done) ltac:(done)) as (H4 & _).
  split; [done|]. split; [by rewrite Z.land_lor_distr_l, H2|].
  intros Ha. rewrite Z.land_lor_distr_l, H3 by done. apply Z.lor_0_r.
Qed.

Lemma kernel_table i :
  768 <= i < 1024 ->
  let p := PDTABLE_GETPTEV (directory a pdir_kernel i) in
  alloc (directory a pdir_kernel i) = true /\ page_addr p /\ ~ isfree a p /\ p <> self.
Proof.
  intros Hi. destruct (wf_host a pdir_kernel Hwf i Hi) as [Ha _].
  destruct (table_page a pdir_kernel i Hwf ltac:(lia) Ha) as (H1 & H2 & _).
  split; [done|]. split; [done|]. split; [done|]. intros E. apply Hself. right. right.
  exists i. split; [lia|done].
Qed.

Section Built.

Context (a' : A) (last : Z).
Hypothesis Hb : built a' last.

Lemma built_last : page_addr last /\ last <> ADDR_MASK /\ ram last /\ last <> self.
Proof.
  destruct (bd_last _ _ Hb) as [H1 H2]. pose proof (law_free_ram a last (wf_inv _ _ Hwf) H2 H1) as H3.
  destruct (law_ram last H3) as [_ H4]. split; [split; [done|]; change (2 ^ 32) with 4294967296; lia|].
  split; [unfold ADDR_MASK; lia|]. split; [done|].
  intros E. apply (proj1 (proj2 Hself)). by rewrite <- E.
Qed.

(** Tables of the new directory. *)
Lemma built_table i :
  0 <= i < 1024 -> alloc (init_word last i) = negb (i <? 768) /\ PDTABLE_ISMAP (init_word last i) = false /\
  0 <= init_word last i < 2 ^ 32.
Proof.
  intros Hi. destruct built_last as (H1 & H2 & _ & _).
  destruct (last_word last H1 H2) as (L1 & L2 & L3 & L4). unfold init_word.
  destruct (Z.ltb_spec i 768); [done|]. destruct (Z.eqb_spec i 1023).
  - split; [done|]. split; [done|]. pose proof H1 as [E1 E2]. unfold SELFMAP_ATTR.
    change (2 ^ 32) with 4294967296 in *. mlia.
  - destruct (wf_host a pdir_kernel Hwf i ltac:(lia)) as [Ha _].
    pose proof (wf_word a pdir_kernel Hwf i Hi) as Hw.
    split; [done|]. split; [|done]. by apply isalloc_word.
Qed.

(** Pages of the tables: the kernel's, and the new one. *)
Lemma built_page i :
  768 <= i < 1024 ->
  PDTABLE_GETPTEV (init_word last i) = if i =? 1023 then last else PDTABLE_GETPTEV (directory a pdir_kernel i).
Proof.
  intros Hi. destruct built_last as (H1 & H2 & _ & _).
  destruct (last_word last H1 H2) as (L1 & L2 & L3 & L4). unfold init_word.
  destruct (Z.ltb_spec i 768); [lia|]. by destruct (i =? 1023).
Qed.

Lemma built_tab i j :
  768 <= i < 1023 -> 0 <= j < 1024 -> tab a' self i j = tab a pdir_kernel i j.
Proof.
  intros Hi Hj. unfold tab. rewrite (bd_dir _ _ Hb), built_page by lia.
  rewrite (proj2 (Z.eqb_neq i 1023)) by lia. destruct (kernel_table i ltac:(lia)) as (_ & [H1 _] & H2 & H3).
  apply (bd_frame _ _ Hb); [by apply pd_at_mod|by rewrite pd_at_page..].
Qed.

Lemma built_selfmap j :
  0 <= j < 1024 -> 0 <= tab a' self 1023 j < 2 ^ 32 /\
  selfmaps (directory a' self j) (tab a' self 1023 j).
Proof.
  intros Hj. unfold tab. rewrite !(bd_dir _ _ Hb), built_page by lia.
  change (1023 =? 1023) with true. cbn match. rewrite (bd_map _ _ Hb) by done.
  destruct (built_table j Hj) as (Ha & _ & Hw). destruct (Z.ltb_spec j 768); [|by apply selfmap_attr_entry].
  split; [done|]. split; [done|]. rewrite Ha. done.
Qed.

Lemma built_wf : pdir_wf a' self.
Proof.
  destruct built_last as (H1 & H2 & H3 & H4). destruct Hself as (S1 & S2 & S3).
  split; [apply Hb| | | | | | | | |].
  - split; [done|]. rewrite (bd_free _ _ Hb) by apply S1. tauto.
  - intros i Hi. rewrite (bd_dir _ _ Hb) by done. by apply built_table.
  - intros i Hi _. rewrite (bd_dir _ _ Hb) by done. destruct (built_table i Hi) as (-> & _ & _).
    intros Hlt. apply negb_false_iff in Hlt. unfold init_word. by rewrite Hlt.
  - intros i Hi. rewrite (bd_dir _ _ Hb) by done. destruct (built_table i Hi) as (-> & _ & _). intros Hlt.
    apply negb_true_iff, Z.ltb_ge in Hlt. cbv zeta. rewrite built_page by lia.
    destruct (kernel_table i ltac:(lia)) as (_ & [K1 _] & K2 & K3).
    destruct (i =? 1023); rewrite (bd_free _ _ Hb) by (done || apply H1);
      (split; [tauto|]; split; [done|lia]).
  - intros i j Hi Hj. rewrite (bd_dir _ _ Hb) by done. destruct (built_table i Hi) as (-> & _ & Hw). intros Hlt.
    apply negb_true_iff, Z.ltb_ge in Hlt. destruct (Z.eq_dec i 1023) as [->|Hn].
    + destruct (built_selfmap j Hj) as [M1 M2]. split; [done|]. intros _. unfold init_word.
      change (1023 <? 768) with false. change (1023 =? 1023) with true. cbn match.
      apply land_7_of_3; [apply M2|by apply last_word].
    + rewrite built_tab by lia. unfold init_word. rewrite (proj2 (Z.ltb_ge i 768)), (proj2 (Z.eqb_neq i 1023)) by lia.
      apply (wf_entry a pdir_kernel Hwf); [done|done|]. exact (proj1 (wf_host a pdir_kernel Hwf i ltac:(lia))).
  - intros i i' Hi Hi'. rewrite !(bd_dir _ _ Hb) by done.
    destruct (built_table i Hi) as (-> & _ & _). destruct (built_table i' Hi') as (-> & _ & _). intros L1 L2.
    apply negb_true_iff, Z.ltb_ge in L1, L2. rewrite !built_page by lia.
    destruct (kernel_table i ltac:(lia)) as (A1 & _ & K2 & _).
    destruct (kernel_table i' ltac:(lia)) as (A2 & _ & K2' & _). pose proof (bd_last _ _ Hb) as [_ Hfr].
    destruct (Z.eqb_spec i 1023), (Z.eqb_spec i' 1023); [lia|intros ->; done|intros <-; done|].
    by apply (wf_inj a pdir_kernel Hwf).
  - intros i Hi. rewrite (bd_dir _ _ Hb) by lia. destruct (built_table i ltac:(lia)) as (-> & _ & _).
    split; [apply negb_true_iff, Z.ltb_ge; lia|]. unfold init_word. rewrite (proj2 (Z.ltb_ge i 768)) by lia.
    destruct (i =? 1023); [by apply last_word|]. exact (proj2 (wf_host a pdir_kernel Hwf i Hi)).
  - intros i Hi. rewrite (bd_dir _ _ Hb) by done. destruct (built_table i Hi) as (_ & -> & _). done.
  - intros i Hi. by apply built_selfmap.
Qed.

(** Nothing is mapped below the kernel, the rest is mapped as in the kernel. *)
Lemma built_walk v :
  0 <= v < 1023 * 1024 -> walk a' self v = if v <? 768 * 1024 then None else walk a pdir_kernel v.
Proof.
  intros Hv. destruct (index_page v Hv) as [Hi Hj]. pose proof built_wf as Hwf'.
  destruct (built_table (v / 1024) ltac:(lia)) as (T1 & T2 & T3).
  destruct (Z.ltb_spec v (768 * 1024)).
  - apply walk_empty; [done|lia|rewrite (bd_dir _ _ Hb) by lia..]; [done|]. rewrite T1.
    apply negb_false_iff, Z.ltb_lt. mlia.
  - assert (768 <= v / 1024) by mlia.
    rewrite !walk_alloc; try done; try lia; [by rewrite built_tab by lia| |].
    + exact (proj1 (wf_host a pdir_kernel Hwf (v / 1024) ltac:(lia))).
    + rewrite (bd_dir _ _ Hb) by lia. rewrite T1. apply negb_true_iff, Z.ltb_ge. lia.
Qed.

End Built.

(** The words copied before memory is asked for. *)
Lemma init_copied :
  let a1 := memsetl 768 self ADDR_MASK a in
  let a2 := memcpyl 255 (pd_at self 768) (pd_at pdir_kernel 768) a1 in
  rewritten a a2 self (fun i => if i <? 768 then ADDR_MASK else if i <? 1023 then directory a pdir_kernel i
                                else directory a self i).
Proof.
  destruct Hself as ([S1 _] & S2 & S3). destruct (wf_self a pdir_kernel Hwf) as [[K1 _] K2].
  assert (pdir_kernel <> self) as Hne by (intros E; apply S3; by left). cbv zeta.
  assert (rewritten a (memsetl 768 self ADDR_MASK a) self
    (fun i => if i <? 768 then ADDR_MASK else directory a self i)) as R1.
  { rewrite <- (pd_at_0 self) at 1.
    eapply rewritten_ext; [|apply memsetl_ok; [apply Hwf|done|done|lia|simpl; lia]].
    intros j Hj. cbn beta. rewrite (proj2 (Z.leb_le 0 j)) by lia. done. }
  set (a1 := memsetl 768 self ADDR_MASK a) in *. clearbody a1.
  assert (rewritten a1 (memcpyl 255 (pd_at self 768) (pd_at pdir_kernel 768) a1) self
    (fun j => if (768 <=? j) && (j <? 768 + Z.of_nat 255) then rd32 a1 (pd_at pdir_kernel j)
              else rd32 a1 (pd_at self j))) as R2.
  { apply memcpyl_ok; try done; [apply R1|intros E; by apply S2, (rw_free _ _ _ _ R1)]. }
  eapply rewritten_ext; [|eapply rewritten_trans; [exact R1|exact R2]].
  intros j Hj. cbn beta. change (768 + Z.of_nat 255) with 1023. rewrite (rw_in _ _ _ _ R1) by done.
  rewrite (read_other _ _ _ _ _ _ R1) by done. cbn beta.
  destruct (Z.leb_spec 768 j), (Z.ltb_spec j 768), (Z.ltb_spec j 1023); try lia; done.
Qed.

(** The rest, with a page [q] for the new table. *)
Lemma init_table a2 a3 q :
  rewritten a a2 self (fun i => if i <? 768 then ADDR_MASK else if i <? 1023 then directory a pdir_kernel i
                                else directory a self i) ->
  pinv a3 -> q mod 4096 = 0 -> isfree a2 q ->
  (forall p, p mod 4096 = 0 -> isfree a3 p <-> isfree a2 p /\ p <> q) ->
  (forall x, ~ isfree a2 (page_of x) -> rd32 a3 x = rd32 a2 x) ->
  exists a', pdir_initialize_selfmap self
      (memsetl 768 q ADDR_MASK (wr32 (pd_at self 1023) (Z.lor q SELFMAP_ATTR) a3)) = Ret a' /\ built a' q.
Proof.
  intros R2 Hi3 Hq Hqf Hf3 Hrd. destruct Hself as ([S1 S1'] & S2 & S3).
  assert (forall p, isfree a2 p <-> isfree a p) as Hf2 by apply R2.
  assert (~ isfree a2 self) as Hs2 by by rewrite Hf2.
  assert (q <> self) as Hqs by (intros ->; done).
  assert (~ isfree a3 self) as Hs3 by (rewrite Hf3 by done; tauto).
  assert (~ isfree a3 q) as Hq3 by (rewrite Hf3 by done; tauto).
  assert (page_addr q /\ q <> ADDR_MASK) as [Hqa Hqm].
  { apply Hf2 in Hqf. pose proof (law_ram q (law_free_ram a q (wf_inv _ _ Hwf) Hqf Hq)) as [_ Hr].
    split; [split; [done|change (2 ^ 32) with 4294967296; lia]|unfold ADDR_MASK; lia]. }
  pose proof (wr_rewritten a3 self 1023 (Z.lor q SELFMAP_ATTR) Hi3 S1 Hs3 ltac:(lia)) as R4.
  set (a4 := wr32 _ _ a3) in *. clearbody a4.
  assert (rewritten a4 (memsetl 768 q ADDR_MASK a4) q
    (fun j => if j <? 768 then ADDR_MASK else rd32 a4 (pd_at q j))) as R5.
  { rewrite <- (pd_at_0 q) at 1.
    eapply rewritten_ext; [|apply memsetl_ok; [apply R4|done| |lia|simpl; lia]].
    - intros j Hj. cbn beta. rewrite (proj2 (Z.leb_le 0 j)) by lia. done.
    - intros E. by apply Hq3, (rw_free _ _ _ _ R4). }
  set (a5 := memsetl 768 q ADDR_MASK a4) in *. clearbody a5.
  assert (forall i, 0 <= i < 1024 -> directory a5 self i = init_word q i) as Hd.
  { intros i Hi. rewrite (dir_other _ _ _ _ _ i R5) by done. unfold directory at 1.
    rewrite (rw_in _ _ _ _ R4) by done. unfold put, init_word.
    rewrite lor_page by done. destruct (Z.eqb_spec i 1023) as [->|]; [done|].
    rewrite Hrd by by rewrite pd_at_page. rewrite (rw_in _ _ _ _ R2) by done.
    destruct (Z.ltb_spec i 768), (Z.ltb_spec i 1023); try lia; done. }
  destruct (last_word q Hqa Hqm) as (L1 & L2 & L3 & L4).
  unfold pdir_initialize_selfmap. change (THIS_PDIR_BASE / PDTABLE_REPRSIZE) with 1023.
  change (VM_HOST_BASE / PDTABLE_REPRSIZE) with 768. change (Z.to_nat (PDIR_TABLE_COUNT - 768)) with 256%nat.
  rewrite Hd by lia. change (init_word q 1023) with (q + SELFMAP_ATTR). rewrite L1, L2. cbn [oassert].
  assert (~ isfree a5 q) as Hq5
    by (intros E; apply Hq3, (rw_free _ _ _ _ R4), (rw_free _ _ _ _ R5), E).
  destruct (selfmap_loop_ok self q 256 768 a5 (rw_inv _ _ _ _ R5) Hq Hq5 S1) as (a6 & E6 & R6);
    try done; try (simpl; lia).
  { intros j Hj. rewrite Hd by (simpl in Hj; lia). unfold init_word. rewrite (proj2 (Z.ltb_ge j 768)) by lia.
    destruct (j =? 1023); [done|]. apply (wf_host a pdir_kernel Hwf). simpl in Hj. lia. }
  exists a6. split; [done|]. split.
  - apply R6.
  - split; [done|]. by apply Hf2.
  - intros p Hp. rewrite (rw_free _ _ _ _ R6), (rw_free _ _ _ _ R5), (rw_free _ _ _ _ R4), Hf3, Hf2 by done. done.
  - intros i Hi. rewrite (dir_other _ _ _ _ _ i R6) by done. by apply Hd.
  - intros j Hj. rewrite (rw_in _ _ _ _ R6) by done. cbn beta. rewrite Hd by done.
    rewrite (rw_in _ _ _ _ R5) by done. cbn beta.
    destruct (Z.leb_spec 768 j), (Z.ltb_spec j 768), (Z.ltb_spec j (768 + Z.of_nat 256)); simpl in *; try lia; done.
  - intros y Hy Hys Hyf. assert (page_of y <> q) as Hyq by (intros E; apply Hyf; rewrite E; by apply Hf2).
    rewrite (rw_out _ _ _ _ R6), (rw_out _ _ _ _ R5), (rw_out _ _ _ _ R4) by done.
    rewrite Hrd by by rewrite Hf2. by apply R2.
Qed.

Lemma init_ok :
  exists b a', pdir_init pdir_kernel self a = Ret (b, a') /\
    (forall y, y mod 4 = 0 -> page_of y <> self -> ~ isfree a (page_of y) -> rd32 a' y = rd32 a y) /\
    if b : bool then exists last, built a' last
    else pinv a' /\ forall p, isfree a' p <-> isfree a p.
Proof.
  unfold pdir_init. change (VM_HOST_BASE / PDTABLE_REPRSIZE) with 768. change (Z.to_nat 768) with 768%nat.
  change (Z.to_nat ((KERNEL_GLOBAL_END - VM_HOST_BASE) / PDTABLE_REPRSIZE)) with 255%nat.
  pose proof init_copied as R2. cbv zeta in R2 |- *.
  set (a2 := memcpyl 255 _ _ _) in *. clearbody a2.
  assert (forall p, isfree a2 p <-> isfree a p) as Hf2 by apply R2.
  destruct (law_malloc a2 (rw_inv _ _ _ _ R2)) as (r & a3 & E & Hi3 & Hr & Hrd).
  rewrite E. cbn [obind]. destruct r as [q|].
  - destruct Hr as (Q1 & Q2 & Q3). rewrite (proj2 (aligned_page q)) by done. cbn [oassert].
    change (THIS_PDIR_BASE / PDTABLE_REPRSIZE) with 1023.
    destruct (init_table a2 a3 q R2 Hi3 Q1 Q2 Q3 Hrd) as (a' & E' & Hb).
    rewrite E'. cbn [obind]. exists true, a'. split; [done|]. split; [apply Hb|by exists q].
  - destruct Hr as [Hr _]. exists false, a3. split; [done|]. split; [|split; [done|intros p; by rewrite Hr]].
    intros y Hy Hys Hyf. rewrite Hrd by by rewrite Hf2. by apply R2.
Qed.

End Init.

End Directories.
