(* ===== verification/PagingBoot.v ===== *)
(** * The kernel's page directory at boot

    The directory the kernel starts with maps memory in units of 4 MiB (paging.c);
    [pdir_initialize] makes tables of the kernel's part and the self-map of it
    (paging32.c.inl).  The result is a directory with the invariant of
    [Paging32Spec] and with the translations it had before. *)
From stdpp Require Import base numbers list.
From S2P Require Import Prelude Align PageAlloc PageScatter PhysMem.
From S2P Require Import Paging32 Paging32Spec Paging32Ops Paging32Map Paging32Dir.

(** The words of the initial directory: memory as it is below the kernel, and from
    the start again, global, above. *)
Definition boot_directory (i : Z) : Z :=
  if i <? 768 then 0x400000 * i + 0x83 else 0x400000 * (i - 768) + 0x183.

Definition TRANSFORM_PAGE_ATTR : Z := 0x103.
Definition TRANSFORM_TABLE_ATTR : Z := 0x163.

Section Boot.

Context {A : Type} `{PM : PhysMem A}.
Context (pdir_kernel : Z).

(** One table; without memory the 4 MiB mapping stays. *)
Definition transform_table (i addr_iter : Z) (a : A) : outcome A :=
  let w := directory a pdir_kernel i in
  let! (table, a) :=
    if PDTABLE_ISALLOC w then
      let! (r, a) := malloc_page a in
      match r with
      | None => Ret (Some (PDTABLE_GETPTEV w), a)
      | Some table => let! a := free_page (PDTABLE_GETPTEV w) a in Ret (Some table, a)
      end
    else malloc_page a in
  match table with
  | None => Ret a
  | Some table =>
      let a := fill_loop 1024 table addr_iter TRANSFORM_PAGE_ATTR a in
      Ret (wr32 (pd_at pdir_kernel i) (Z.lor table TRANSFORM_TABLE_ATTR) a)
  end.

(** The loop runs downwards until [addr_iter] wraps around. *)
Fixpoint transform_loop (fuel : nat) (i addr_iter : Z) (a : A) : outcome A :=
  if addr_iter <? 2 ^ 32 - VM_HOST_BASE then
    match fuel with
    | O => Abort
    | S fuel =>
        let! a := transform_table i addr_iter a in
        transform_loop fuel (i - 1) (u32 (addr_iter - PDTABLE_REPRSIZE)) a
    end
  else Ret a.
Definition pdir_kernel_transform_tables (a : A) : outcome A :=
  transform_loop 256 (PDIR_TABLE_COUNT - 1) (2 ^ 32 - VM_HOST_BASE - PDTABLE_REPRSIZE) a.

End Boot.

Section BootSpec.

Context {A : Type} `{PL : PhysLaws A}.
Context (pdir_kernel : Z).
Hypothesis Hk : page_addr pdir_kernel.

Abbreviation dir a i := (directory a pdir_kernel i).

(** The word of a table made from the mapping at [i]. *)
Definition made (a : A) (i t : Z) : Prop :=
  dir a i = t + TRANSFORM_TABLE_ATTR /\ ram t /\ ~ isfree a t /\ t <> pdir_kernel /\
  forall k, 0 <= k < 1024 -> rd32 a (pd_at t k) = u32 (0x400000 * (i - 768) + 4096 * k) + TRANSFORM_PAGE_ATTR.

(** Tables above [i] have been gone through. *)
Record transformed (a : A) (i : Z) : Prop := {
  tr_inv : pinv a;
  tr_self : ~ isfree a pdir_kernel;
  tr_low j : 0 <= j <= i -> dir a j = boot_directory j;
  tr_high j : i < j < 1024 -> dir a j = boot_directory j \/ exists t, made a j t
}.

(** At least [n] pages are free that tables can be made of. *)
Definition supply (a : A) (n : nat) : Prop :=
  exists ps, NoDup ps /\ (n <= length ps)%nat /\ forall p, p ∈ ps -> p mod 4096 = 0 /\ isfree a p /\ reach p.

Lemma supply_taken a a' q n :
  supply a (S n) -> (forall p, p mod 4096 = 0 -> isfree a' p <-> isfree a p /\ p <> q) -> supply a' n.
Proof.
  intros (ps & Hd & Hl & Hps) Hf. destruct (decide (q ∈ ps)) as [Hq|Hq].
  - apply elem_of_Permutation in Hq as [ps' Hp]. exists ps'. rewrite Hp in Hd, Hl. apply NoDup_cons in Hd as [Hq Hd].
    split; [done|]. split; [simpl in Hl; lia|]. intros p Hin. destruct (Hps p) as (H1 & H2 & H3); [rewrite Hp; by right|].
    rewrite Hf by done. split_and!; try done. by intros ->.
  - exists ps. split; [done|]. split; [lia|]. intros p Hin. destruct (Hps p Hin) as (H1 & H2 & H3).
    rewrite Hf by done. split_and!; try done. by intros ->.
Qed.

(** The contents of a table tell its place. *)
Lemma made_inj a i i' t :
  768 <= i < 1024 -> 768 <= i' < 1024 -> made a i t -> made a i' t -> i = i'.
Proof.
  intros Hi Hi' (_ & _ & _ & _ & M) (_ & _ & _ & _ & M'). specialize (M 0 ltac:(lia)).
  rewrite (M' 0 ltac:(lia)) in M. unfold u32 in M. change (2 ^ 32) with 4294967296 in M.
  rewrite !Z.mod_small in M by lia. lia.
Qed.

Lemma ram_page t : ram t -> page_addr t /\ t <> ADDR_MASK.
Proof.
  intros [H1 H2]%law_ram. unfold page_addr, ADDR_MASK. change (2 ^ 32) with 4294967296. lia.
Qed.

Lemma boot_word i :
  0 <= i < 1024 ->
  exists p f, boot_directory i = p + f /\ page_addr p /\ attrs f /\ bits f PDIR_ATTR_4MIB = true /\
    bits f PDIR_ATTR_PRESENT = true /\ Z.land f 7 = 3 /\ p mod 2 ^ 22 = 0 /\
    p = if i <? 768 then 0x400000 * i else 0x400000 * (i - 768).
Proof.
  intros Hi. unfold boot_directory, page_addr. change (2 ^ 32) with 4294967296. change (2 ^ 22) with 4194304.
  destruct (Z.ltb_spec i 768); [exists (0x400000 * i), 0x83|exists (0x400000 * (i - 768)), 0x183];
    repeat split; try done; mlia.
Qed.

Lemma boot_not_alloc i : 0 <= i < 1024 -> PDTABLE_ISALLOC (boot_directory i) = false.
Proof.
  intros Hi. destruct (boot_word i Hi) as (p & f & -> & Hp & Hf & H4 & _).
  rewrite isalloc_page by done. rewrite H4. apply andb_false_r.
Qed.

(** Writing to pages that were free keeps what has been made. *)
Lemma made_kept a a' i t :
  made a i t -> dir a' i = dir a i -> (isfree a' t -> isfree a t) ->
  (forall k, 0 <= k < 1024 -> rd32 a' (pd_at t k) = rd32 a (pd_at t k)) -> made a' i t.
Proof.
  intros (M1 & M2 & M3 & M4 & M5) Hd Hf Hr. split; [by rewrite Hd|]. split; [done|].
  split; [tauto|]. split; [done|]. intros k Hk'. rewrite Hr by done. by apply M5.
Qed.

Lemma made_not_boot a i t : 0 <= i < 1024 -> made a i t -> dir a i <> boot_directory i.
Proof.
  intros Hi (Hw & Hr & _) Hb. destruct (ram_page t Hr) as [Hp Hm]. pose proof (boot_not_alloc i Hi) as E.
  rewrite <- Hb, Hw, isalloc_page in E by done. apply Z.eqb_neq in Hm. by rewrite Hm in E.
Qed.

#[local] Opaque fill_loop.

Lemma transform_step a i :
  768 <= i < 1024 -> transformed a i ->
  exists a', transform_table pdir_kernel i (0x400000 * (i - 768)) a = Ret a' /\ transformed a' (i - 1) /\
    (forall j, 0 <= j < 1024 -> j <> i -> dir a' j = dir a j) /\
    (forall n, supply a (S n) -> supply a' n /\ dir a' i <> boot_directory i).
Proof.
  intros Hi [T1 T2 T3 T4]. unfold transform_table. rewrite (T3 i) by lia. rewrite boot_not_alloc by lia.
  destruct Hk as [K1 _]. destruct (law_malloc a T1) as (r & a1 & E & Hi1 & Hr & Hrd). rewrite E. cbn [obind].
  destruct r as [q|].
  - destruct Hr as (Q1 & Q2 & Q3). pose proof (law_free_ram a q T1 Q2 Q1) as Hq.
    destruct (ram_page q Hq) as [Hqp Hqm].
    assert (q <> pdir_kernel) as Hqk by (intros ->; done).
    assert (~ isfree a1 q) as Hq1 by (rewrite Q3 by done; tauto).
    assert (~ isfree a1 pdir_kernel) as Hk1 by (rewrite Q3 by done; tauto).
    pose proof (fill_ok a1 q (0x400000 * (i - 768)) TRANSFORM_PAGE_ATTR Hi1 Q1 Hq1
      ltac:(change (2 ^ 32) with 4294967296; lia)) as R2.
    set (a2 := fill_loop 1024 q _ _ a1) in *. clearbody a2.
    pose proof (wr_rewritten a2 pdir_kernel i (Z.lor q TRANSFORM_TABLE_ATTR) (rw_inv _ _ _ _ R2) K1
      ltac:(by rewrite (rw_free _ _ _ _ R2)) ltac:(lia)) as R3.
    eexists. split; [done|]. set (a3 := wr32 _ _ a2) in *. clearbody a3.
    assert (forall p, isfree a3 p <-> isfree a1 p) as Hf3
      by (intros p; by rewrite (rw_free _ _ _ _ R3), (rw_free _ _ _ _ R2)).
    assert (forall j, 0 <= j < 1024 -> j <> i -> dir a3 j = dir a j) as Hd3.
    { intros j Hj Hne. unfold directory. rewrite (rw_in _ _ _ _ R3), put_ne by done.
      rewrite (read_other _ _ _ _ _ _ R2) by done. apply Hrd. by rewrite pd_at_page. }
    assert (forall t k, t mod 4096 = 0 -> ~ isfree a t -> t <> pdir_kernel -> 0 <= k < 1024 ->
      rd32 a3 (pd_at t k) = rd32 a (pd_at t k)) as Hw3.
    { intros t k Ht Htf Htk Hk'. rewrite (read_other _ _ _ _ _ _ R3) by done.
      rewrite (read_other _ _ _ _ _ _ R2); [|intros ->; done|done|done]. apply Hrd. by rewrite pd_at_page. }
    assert (made a3 i q) as Hmade.
    { split; [|split; [done|split; [by rewrite Hf3|split; [done|]]]].
      - unfold directory. rewrite (rw_in _ _ _ _ R3), put_eq by lia. by apply lor_page.
      - intros k Hk'. rewrite (read_other _ _ _ _ _ _ R3), (rw_in _ _ _ _ R2) by done.
        apply lor_page; [|done]. apply u32_page. split; [mlia|change (2 ^ 32) with 4294967296; lia]. }
    split; [|split; [exact Hd3|]].
    2: { intros n Hs. split; [apply (supply_taken a a3 q n Hs); intros p Hp; rewrite Hf3; by apply Q3|].
         intros Hb. by apply (made_not_boot a3 i q ltac:(lia) Hmade). }
    split; [apply R3|by rewrite Hf3| |].
    + intros j Hj. rewrite Hd3 by lia. apply T3. lia.
    + intros j Hj. destruct (Z.eq_dec j i) as [->|Hne]; [right; by exists q|].
      rewrite Hd3 by lia. destruct (T4 j ltac:(lia)) as [?|[t Ht]]; [by left|]. right. exists t.
      pose proof Ht as (M1 & M2 & M3 & M4 & M5). destruct (ram_page t M2) as [[P1 _] _].
      apply (made_kept a); [done|apply Hd3; lia|rewrite Hf3, Q3 by done; tauto|].
      intros k Hk'. by apply Hw3.
  - destruct Hr as [Hr Hno]. exists a1. split; [done|].
    assert (forall j, 0 <= j < 1024 -> dir a1 j = dir a j) as Hd
      by (intros j Hj; apply Hrd; by rewrite pd_at_page).
    split; [|split; [by intros j ? _; apply Hd|]].
    2: { intros n ([|p ps] & _ & Hl & Hps); [simpl in Hl; lia|]. destruct (Hps p) as (H1 & H2 & H3); [by left|].
         by destruct (Hno p H1 H2). }
    split; [done|by rewrite Hr| |].
    + intros j Hj. rewrite Hd by lia. apply T3. lia.
    + intros j Hj. rewrite Hd by lia. destruct (Z.eq_dec j i) as [->|Hne]; [left; apply T3; lia|].
      destruct (T4 j ltac:(lia)) as [?|[t Ht]]; [by left|]. right. exists t.
      pose proof Ht as (M1 & M2 & M3 & M4 & M5). destruct (ram_page t M2) as [[P1 _] _].
      apply (made_kept a); [done|apply Hd; lia|by rewrite Hr|].
      intros k Hk'. apply Hrd. by rewrite pd_at_page.
Qed.

Lemma transform_loop_ok (n : nat) : forall fuel a,
  (n <= fuel)%nat -> Z.of_nat n <= 256 -> transformed a (767 + Z.of_nat n) ->
  exists a', transform_loop pdir_kernel fuel (767 + Z.of_nat n) (u32 (0x400000 * (Z.of_nat n - 1))) a = Ret a' /\
    transformed a' 767 /\
    (forall j, 0 <= j < 1024 -> 767 + Z.of_nat n < j -> dir a' j = dir a j) /\
    (supply a n -> forall j, 767 < j <= 767 + Z.of_nat n -> dir a' j <> boot_directory j).
Proof.
  induction n as [|n IH]; intros fuel a Hfuel Hn Ht.
  - exists a. split; [by destruct fuel|]. split; [done|]. split; [done|]. intros _ j Hj. lia.
  - destruct fuel as [|fuel]; [lia|]. cbn [transform_loop].
    replace (u32 (0x400000 * (Z.of_nat (S n) - 1))) with (0x400000 * (767 + Z.of_nat (S n) - 768))
      by (unfold u32; change (2 ^ 32) with 4294967296; rewrite Z.mod_small by lia; lia).
    rewrite (proj2 (Z.ltb_lt _ _)) by (unfold VM_HOST_BASE; change (2 ^ 32) with 4294967296; lia).
    destruct (transform_step a (767 + Z.of_nat (S n)) ltac:(lia) Ht) as (a1 & -> & T1 & D1 & S1). cbn [obind].
    destruct (IH fuel a1) as (a' & E & T2 & D2 & S2); [lia|lia|by replace (767 + Z.of_nat n) with (767 + Z.of_nat (S n) - 1) by lia|].
    exists a'. split; [rewrite <- E; f_equal; [lia|]; f_equal; unfold PDTABLE_REPRSIZE; lia|]. split; [done|].
    split; [intros j Hj Hlt; rewrite D2 by lia; apply D1; lia|].
    intros [Hs Hb]%S1 j Hj. destruct (Z.eq_dec j (767 + Z.of_nat (S n))) as [->|]; [rewrite D2 by lia; done|].
    apply S2; [done|lia].
Qed.

Lemma made_word a i t :
  made a i t ->
  PDTABLE_ISALLOC (dir a i) = true /\ PDTABLE_GETPTEV (dir a i) = t /\ 0 <= dir a i < 2 ^ 32 /\
  PDTABLE_ISMAP (dir a i) = false /\ Z.land (dir a i) 3 = 3 /\ page_addr t.
Proof.
  intros (-> & Hr & _). destruct (ram_page t Hr) as [Hp Hm]. pose proof Hp as [P1 P2].
  rewrite isalloc_page, ismap_page by done. unfold PDTABLE_GETPTEV. rewrite land_page, land_low_page by done.
  apply Z.eqb_neq in Hm. rewrite Hm. split; [done|]. split; [done|].
  split; [unfold TRANSFORM_TABLE_ATTR; change (2 ^ 32) with 4294967296 in *; mlia|]. done.
Qed.

Section Selfmapped.

Context (a1 a2 : A) (T : Z).
Hypothesis H1 : transformed a1 767.
Hypothesis Hmade : forall i, 768 <= i < 1024 -> exists t, made a1 i t.
Hypothesis HT : made a1 1023 T.
Hypothesis R : rewritten a1 a2 T (fun j => if (768 <=? j) && (j <? 1024)
  then Z.lor (PDTABLE_GETPTEV (dir a1 j)) (selfmap_attr j) else rd32 a1 (pd_at T j)).

Lemma sm_dir i : 0 <= i < 1024 -> dir a2 i = dir a1 i.
Proof. intros Hi. apply (dir_other _ _ _ _ _ i R); [apply HT|apply Hk|done]. Qed.

Lemma sm_low i : 0 <= i < 768 -> dir a2 i = boot_directory i.
Proof. intros Hi. rewrite sm_dir by lia. apply (tr_low _ _ H1). lia. Qed.

(** Tables other than the self-map. *)
Lemma sm_made i : 768 <= i < 1023 -> exists t, made a2 i t.
Proof.
  intros Hi. destruct (Hmade i ltac:(lia)) as [t Ht]. exists t. pose proof Ht as (_ & M2 & _).
  destruct (ram_page t M2) as [[P1 _] _].
  apply (made_kept a1); [done|by apply sm_dir; lia|by rewrite (rw_free _ _ _ _ R)|].
  intros k Hk'. apply (read_other _ _ _ _ _ _ R); [|done|done]. intros ->.
  pose proof (made_inj a1 i 1023 T ltac:(lia) ltac:(lia) Ht HT). lia.
Qed.

(** Any word of a table. *)
Lemma sm_entry i j :
  768 <= i < 1023 -> 0 <= j < 1024 ->
  exists q, page_addr q /\ tab a2 pdir_kernel i j = q + TRANSFORM_PAGE_ATTR /\ q = u32 (0x400000 * (i - 768) + 4096 * j).
Proof.
  intros Hi Hj. destruct (sm_made i Hi) as [t Ht]. destruct (made_word a2 i t Ht) as (_ & E & _).
  unfold tab. rewrite E. destruct Ht as (_ & _ & _ & _ & ->); [|done].
  exists (u32 (0x400000 * (i - 768) + 4096 * j)). split; [|done].
  apply u32_page. split; [mlia|change (2 ^ 32) with 4294967296; lia].
Qed.

Lemma sm_selfmap j :
  0 <= j < 1024 -> 0 <= tab a2 pdir_kernel 1023 j < 2 ^ 32 /\ selfmaps (dir a2 j) (tab a2 pdir_kernel 1023 j).
Proof.
  intros Hj. destruct (made_word a1 1023 T HT) as (_ & E & _). unfold tab. rewrite !sm_dir, E by lia.
  rewrite (rw_in _ _ _ _ R) by done. cbn beta. rewrite (proj2 (Z.ltb_lt j 1024)) by lia.
  destruct (Z.leb_spec 768 j); cbn [andb].
  - destruct (Hmade j ltac:(lia)) as [t Ht]. apply selfmap_attr_entry. by apply (made_word a1 j t).
  - destruct HT as (_ & _ & _ & _ & ->); [|done].
    assert (page_addr (u32 (0x400000 * (1023 - 768) + 4096 * j))) as Hp
      by (apply u32_page; split; [done|change (2 ^ 32) with 4294967296; lia]).
    pose proof Hp as [P1 P2]. unfold TRANSFORM_PAGE_ATTR.
    split; [change (2 ^ 32) with 4294967296 in *; mlia|]. split; [by rewrite land_low_page|].
    rewrite (tr_low _ _ H1) by lia. rewrite boot_not_alloc by lia. done.
Qed.

(** The words of the directory. *)
Lemma sm_alloc i : 0 <= i < 1024 -> PDTABLE_ISALLOC (dir a2 i) = true -> exists t, made a1 i t.
Proof.
  intros Hi Ha. destruct (Z.lt_ge_cases i 768) as [Hlt|Hge]; [|apply Hmade; lia].
  rewrite sm_low, boot_not_alloc in Ha by lia. done.
Qed.

Lemma sm_wf : pdir_wf a2 pdir_kernel.
Proof.
  split.
  - apply R.
  - split; [done|]. rewrite (rw_free _ _ _ _ R). apply H1.
  - intros i Hi. destruct (Z.lt_ge_cases i 768) as [Hlt|Hge].
    + rewrite sm_low by lia. unfold boot_directory. change (2 ^ 32) with 4294967296. bcase; lia.
    + rewrite sm_dir by lia. destruct (Hmade i ltac:(lia)) as [t Ht]. by apply (made_word a1 i t).
  - intros i Hi. destruct (Z.lt_ge_cases i 768) as [Hlt|Hge].
    + rewrite sm_low by lia. destruct (boot_word i Hi) as (p & f & -> & Hp & Hf & H4 & _).
      rewrite ismap_page, H4 by done. done.
    + rewrite sm_dir by lia. destruct (Hmade i ltac:(lia)) as [t Ht]. destruct (made_word a1 i t Ht) as [-> _]. done.
  - intros i Hi Ha. destruct (sm_alloc i Hi Ha) as [t Ht]. rewrite sm_dir by done. cbv zeta.
    destruct (made_word a1 i t Ht) as (_ & -> & _). rewrite (rw_free _ _ _ _ R).
    destruct Ht as (_ & M2 & M3 & M4 & _). done.
  - intros i j Hi Hj Ha. destruct (sm_alloc i Hi Ha) as [t Ht].
    destruct (made_word a1 i t Ht) as (_ & _ & _ & _ & H3 & _).
    assert (768 <= i) as Hge.
    { destruct (Z.lt_ge_cases i 768) as [Hlt|Hge]; [|done]. rewrite sm_low, boot_not_alloc in Ha by lia. done. }
    rewrite sm_dir by done. destruct (Z.eq_dec i 1023) as [->|Hne].
    + destruct (sm_selfmap j Hj) as [M1 [M2 _]]. split; [done|]. intros _. by apply land_7_of_3.
    + destruct (sm_entry i j ltac:(lia) Hj) as (q & Hq & -> & _). pose proof Hq as [P1 P2].
      split; [unfold TRANSFORM_PAGE_ATTR; change (2 ^ 32) with 4294967296 in *; mlia|].
      intros _. apply land_7_of_3; [by rewrite land_low_page|done].
  - intros i i' Hi Hi' Ha Ha'. destruct (sm_alloc i Hi Ha) as [t Ht]. destruct (sm_alloc i' Hi' Ha') as [t' Ht'].
    rewrite !sm_dir by done. destruct (made_word a1 i t Ht) as (_ & -> & _).
    destruct (made_word a1 i' t' Ht') as (_ & -> & _). intros ->.
    destruct (Z.lt_ge_cases i 768); [rewrite sm_low, boot_not_alloc in Ha by lia; done|].
    destruct (Z.lt_ge_cases i' 768); [rewrite sm_low, boot_not_alloc in Ha' by lia; done|].
    apply (made_inj a1 i i' t'); done || lia.
  - intros i Hi. rewrite sm_dir by lia. destruct (Hmade i Hi) as [t Ht].
    by destruct (made_word a1 i t Ht) as (-> & _ & _ & _ & H3 & _).
  - intros i Hi. destruct (Z.lt_ge_cases i 768) as [Hlt|Hge].
    + rewrite sm_low by lia. destruct (boot_word i Hi) as (p & f & -> & Hp & Hf & _ & _ & _ & Hm & _).
      intros _ _. unfold PDTABLE_GETMAP. by rewrite land_page.
    + rewrite sm_dir by lia. destruct (Hmade i ltac:(lia)) as [t Ht].
      destruct (made_word a1 i t Ht) as (_ & _ & _ & -> & _). done.
  - intros i Hi. by apply sm_selfmap.
Qed.

(** Memory as it is below the kernel, and from its start above. *)
Lemma sm_walk v :
  0 <= v < 1023 * 1024 ->
  walk a2 pdir_kernel v = Some (if v <? 768 * 1024 then 4096 * v else 4096 * (v - 768 * 1024), 3).
Proof.
  intros Hv. destruct (index_page v Hv) as [Hi Hj]. destruct (Z.ltb_spec v (768 * 1024)).
  - assert (0 <= v / 1024 < 768) as Hlt by mlia.
    destruct (boot_word (v / 1024) ltac:(lia)) as (p & f & E & Hp & Hf & H4 & Hpr & H7 & Hm & Ep).
    rewrite walk_map; [|apply sm_wf|lia|rewrite sm_low, E, ismap_page by done; done].
    rewrite sm_low, E, bits_page, Hpr by done. unfold PDTABLE_GETMAP. rewrite land_page, land_low_page, H7 by done.
    rewrite (proj2 (Z.ltb_lt _ _)) in Ep by lia. subst p. do 2 f_equal. mlia.
  - assert (768 <= v / 1024) as Hge by mlia. destruct (Hmade (v / 1024) ltac:(lia)) as [t Ht].
    rewrite walk_alloc; [|apply sm_wf|lia|rewrite sm_dir by lia; by apply (made_word a1 _ t)].
    destruct (sm_entry (v / 1024) (v mod 1024) ltac:(lia) Hj) as (q & Hq & -> & ->).
    rewrite entry_walk_page by done. do 2 f_equal. unfold u32. change (2 ^ 32) with 4294967296. mlia.
Qed.

End Selfmapped.

Lemma boot_ok a :
  pinv a -> ~ isfree a pdir_kernel -> (forall i, 0 <= i < 1024 -> dir a i = boot_directory i) ->
  exists a1, pdir_kernel_transform_tables pdir_kernel a = Ret a1 /\
    (supply a 256 ->
     exists a2, pdir_initialize_selfmap pdir_kernel a1 = Ret a2 /\ pdir_wf a2 pdir_kernel /\
       forall v, 0 <= v < 1023 * 1024 -> walk a2 pdir_kernel v =
         Some (if v <? 768 * 1024 then 4096 * v else 4096 * (v - 768 * 1024), 3)).
Proof.
  intros Hi Hf Hd. destruct (transform_loop_ok 256 256 a) as (a1 & E & Ht & _ & Hs); [lia|done|..].
  { split; [done|done| |]; [|simpl; lia]. intros j Hj. apply Hd. simpl in Hj. lia. }
  exists a1. split; [exact E|]. intros Hsup. specialize (Hs Hsup).
  assert (forall i, 768 <= i < 1024 -> exists t, made a1 i t) as Hmade.
  { intros i Hi'. destruct (tr_high _ _ Ht i ltac:(lia)) as [E1|?]; [|done].
    by destruct (Hs i ltac:(lia)). }
  assert (forall i, 768 <= i < 1024 -> PDTABLE_ISALLOC (dir a1 i) = true) as Ha.
  { intros i Hi'. destruct (Hmade i Hi') as [t Ht']. by destruct (made_word a1 i t Ht'). }
  destruct (Hmade 1023 ltac:(lia)) as [T HT]. destruct (made_word a1 1023 T HT) as (A1 & A2 & _ & _ & _ & [A3 _]).
  pose proof HT as (_ & _ & M3 & M4 & _).
  destruct (selfmap_loop_ok pdir_kernel T 256 768 a1 (tr_inv _ _ Ht) A3 M3) as (a2 & E2 & R);
    [apply Hk|done|lia|simpl; lia|intros j Hj; apply Ha; simpl in Hj; lia|].
  exists a2. unfold pdir_initialize_selfmap. change (THIS_PDIR_BASE / PDTABLE_REPRSIZE) with 1023.
  rewrite A1, A2. cbn [oassert]. split; [exact E2|].
  split; [by apply (sm_wf a1 a2 T)|]. intros v Hv. by apply (sm_walk a1 a2 T).
Qed.

End BootSpec.
