(* ===== verification/PagingUtil.v ===== *)
(** * Enumeration of a directory and access through the self-map

    [pdir_enum] (paging32.c.inl) reports the mappings of a directory as ranges;
    the functions of paging-util.h reach the tables of the present directory
    through its last table. *)
From stdpp Require Import base numbers list.
From S2P Require Import Prelude Align PageAlloc PageScatter PhysMem.
From S2P Require Import Paging32 Paging32Spec Paging32Ops Paging32Map.

Definition PDIR_ENUM_MASK : Z := Z.land PDIR_ATTR_MASK (Z.lnot (Z.lor PDIR_ATTR_DIRTY PDIR_ATTR_ACCESSED)).
Definition PDENTRY_REPRSIZE : Z := PAGESIZE.

Section Enum.

Context {A : Type} `{PM : PhysMem A}.

(** [walker v_addr p_addr n_bytes attr]: a result and its own state. *)
Context {B : Type} (walker : Z -> Z -> Z -> Z -> B -> Z * B).

(** The variables of the loops. *)
Record enum_state : Type := mk_enum {
  prev_vaddr : Z; prev_paddr : Z; next_paddr : Z; prev_attr : Z; en_result : Z; en_closure : B
}.


(** One word: the range before it is reported when it does not continue it. *)
Definition enum_word (vaddr size word : Z) (st : enum_state) : Z * B + enum_state :=
  let curr_attr := Z.land word PDIR_ENUM_MASK in
  let curr_paddr := PDENTRY_GETMAP word in
  let go st := inr (mk_enum (prev_vaddr st) (prev_paddr st) (u32 (curr_paddr + size)) (prev_attr st)
                      (en_result st) (en_closure st)) in
  if negb (curr_paddr =? next_paddr st) || negb (prev_attr st =? curr_attr) then
    if negb (vaddr =? prev_vaddr st) then
      let (temp, clo) := walker (prev_vaddr st) (prev_paddr st) (u32 (vaddr - prev_vaddr st)) (prev_attr st)
                           (en_closure st) in
      if temp <? 0 then inl (temp, clo)
      else go (mk_enum vaddr curr_paddr (next_paddr st) curr_attr (en_result st + temp) clo)
    else go (mk_enum vaddr curr_paddr (next_paddr st) curr_attr (en_result st) (en_closure st))
  else go st.

Fixpoint enum_table (n : nat) (table i j : Z) (a : A) (st : enum_state) : Z * B + enum_state :=
  match n with
  | O => inr st
  | S n =>
      match enum_word (PDTABLE_REPRSIZE * i + PDENTRY_REPRSIZE * j) PDENTRY_REPRSIZE (rd32 a (pd_at table j)) st with
      | inl r => inl r
      | inr st => enum_table n table i (j + 1) a st
      end
  end.

Fixpoint enum_directory (n : nat) (self i : Z) (a : A) (st : enum_state) : outcome (Z * B + enum_state) :=
  match n with
  | O => Ret (inr st)
  | S n =>
      let w := directory a self i in
      let! r :=
        if negb (bits w PDIR_ATTR_PRESENT) || PDTABLE_ISMAP w
        then Ret (enum_word (PDTABLE_REPRSIZE * i) PDTABLE_REPRSIZE w st)
        else assert! PDTABLE_ISALLOC w;; Ret (enum_table 1024 (PDTABLE_GETPTEV w) i 0 a st) in
      match r with
      | inl r => Ret (inl r)
      | inr st => enum_directory n self (i + 1) a st
      end
  end.

Definition pdir_enum (self : Z) (closure : B) (a : A) : outcome (Z * B) :=
  let! r := enum_directory 1024 self 0 a (mk_enum 0 0 0 0 0 closure) in
  match r with
  | inl r => Ret r
  | inr st =>
      let (temp, clo) := walker (prev_vaddr st) (prev_paddr st) (u32 (0 - prev_vaddr st)) (prev_attr st)
                           (en_closure st) in
      if temp <? 0 then Ret (temp, clo) else Ret (en_result st + temp, clo)
  end.

End Enum.

Section This.

Context {A : Type} `{PM : PhysMem A}.

(** Words at virtual addresses; without a translation the processor faults. *)
Definition this_at (a : A) (self x : Z) : outcome Z :=
  match walk a self (x / 4096) with
  | Some (p, _) => Ret (p + x mod 4096)
  | None => Abort
  end.

Definition THIS_PDIR_ENTRY (d_index t_index : Z) : Z := THIS_PDIR_BASE + 4 * (1024 * d_index + t_index).

Definition thispdir_test_writable (self ptr : Z) (a : A) : outcome bool :=
  let table := directory a self (PDIR_DINDEX ptr) in
  let need := Z.lor PDIR_ATTR_PRESENT PDIR_ATTR_WRITE in
  if PDTABLE_ISMAP table then Ret (Z.land table need =? need)
  else if negb (PDTABLE_ISALLOC table) then Ret false
  else
    let! x := this_at a self (THIS_PDIR_ENTRY (PDIR_DINDEX ptr) (PDIR_TINDEX ptr)) in
    Ret (Z.land (rd32 a x) need =? need).

Fixpoint isdirty_loop (fuel : nat) (self ptr n_bytes : Z) (a : A) : outcome bool :=
  match fuel with
  | O => Abort
  | S fuel =>
      let table := directory a self (PDIR_DINDEX ptr) in
      let! dirty :=
        if PDTABLE_ISMAP table then Ret (bits table PDIR_ATTR_DIRTY)
        else if PDTABLE_ISALLOC table then
          let! x := this_at a self (THIS_PDIR_ENTRY (PDIR_DINDEX ptr) (PDIR_TINDEX ptr)) in
          Ret (bits (rd32 a x) PDIR_ATTR_DIRTY)
        else Ret false in
      if dirty then Ret true
      else if n_bytes <=? PAGESIZE then Ret false
      else isdirty_loop fuel self (u32 (ptr + PAGESIZE)) (n_bytes - PAGESIZE) a
  end.
Definition thispdir_isdirty (self ptr n_bytes : Z) (a : A) : outcome bool :=
  isdirty_loop (Z.to_nat (n_bytes / PAGESIZE) + 1) self ptr n_bytes a.

(** The directory's word is always that of [ptr], not that of [iter]. *)
Definition and32 (x mask : Z) (a : A) : A := wr32 x (Z.land (rd32 a x) mask) a.
Fixpoint undirty_loop (fuel : nat) (self ptr iter remaining : Z) (a : A) : outcome A :=
  match fuel with
  | O => Abort
  | S fuel =>
      let table := directory a self (PDIR_DINDEX ptr) in
      let! a :=
        if PDTABLE_ISMAP table then Ret (and32 (pd_at self (PDIR_DINDEX ptr)) (Z.lnot PDIR_ATTR_DIRTY) a)
        else if PDTABLE_ISALLOC table then
          let! x := this_at a self (THIS_PDIR_ENTRY (PDIR_DINDEX iter) (PDIR_TINDEX iter)) in
          Ret (and32 x (Z.lnot PDIR_ATTR_DIRTY) a)
        else Ret a in
      if remaining <=? PAGESIZE then Ret a
      else undirty_loop fuel self ptr (u32 (iter + PAGESIZE)) (remaining - PAGESIZE) a
  end.
Definition thispdir_undirty (self ptr n_bytes : Z) (a : A) : outcome A :=
  let! a := undirty_loop (Z.to_nat (n_bytes / PAGESIZE) + 1) self ptr ptr n_bytes a in
  Ret (pdir_flush ptr n_bytes a).

End This.

(** ** What is reported *)

Section Reported.

Context {A : Type} `{PL : PhysLaws A}.

(** A range: virtual and physical address, size and attributes; the size of all
    memory does not fit and is given as 0. *)
Definition enum_range : Type := Z * Z * Z * Z.
Definition record_range (v p n attr : Z) (l : list enum_range) : Z * list enum_range := (0, l ++ [(v, p, n, attr)]).
Definition range_len (n : Z) : Z := if n =? 0 then 2 ^ 32 else n.

(** The words of a directory, each with the address and the size it stands for. *)
Definition dir_cells (a : A) (self i : Z) : list (Z * Z * Z) :=
  let w := directory a self i in
  if negb (bits w PDIR_ATTR_PRESENT) || PDTABLE_ISMAP w then [(0x400000 * i, 0x400000, w)]
  else (fun j => (0x400000 * i + 4096 * j, 4096, tab a self i j)) <$> seqZ 0 1024.

(** A word within a range: the same attributes, and its place in it. *)
Definition cell_in (c : Z * Z * Z) (r : enum_range) : Prop :=
  let '(v, size, w) := c in
  let '(v0, p0, n, attr) := r in
  v0 <= v /\ v + size <= v0 + range_len n /\ Z.land w PDIR_ENUM_MASK = attr /\
  PDENTRY_GETMAP w = u32 (p0 + (v - v0)).

(** Ranges one after the other, from [x] to [y]. *)
Fixpoint chained (x y : Z) (l : list enum_range) : Prop :=
  match l with
  | [] => x = y
  | (v, p, n, attr) :: l => v = x /\ 0 < range_len n /\ chained (v + range_len n) y l
  end.

Lemma chained_snoc l : forall x y p n attr,
  chained x y l -> 0 < range_len n -> chained x (y + range_len n) (l ++ [(y, p, n, attr)]).
Proof.
  induction l as [|[[[v p'] n'] attr'] l IH]; intros x y p n attr; simpl; [by intros -> ?|].
  intros (-> & Hn & Hc) Hpos. split; [done|]. split; [done|]. by apply IH.
Qed.

(** The state when the words up to address [x] have been seen. *)
Record enum_inv (st : enum_state (B := list enum_range)) (x : Z) (seen : list (Z * Z * Z)) : Prop := {
  ei_chain : chained 0 (prev_vaddr st) (en_closure st);
  ei_addr : 0 <= prev_vaddr st <= x;
  ei_next : next_paddr st = u32 (prev_paddr st + (x - prev_vaddr st));
  ei_start : prev_vaddr st = x -> x = 0;
  ei_pos v size w : (v, size, w) ∈ seen -> 0 < size;
  ei_seen c : c ∈ seen -> (exists r, r ∈ en_closure st /\ cell_in c r) \/
    let '(v, size, w) := c in prev_vaddr st <= v /\ v + size <= x /\
      Z.land w PDIR_ENUM_MASK = prev_attr st /\ PDENTRY_GETMAP w = u32 (prev_paddr st + (v - prev_vaddr st))
}.

(** A range begins at [x]. *)
Lemma enum_begin x size w seen l res :
  chained 0 x l -> (forall c, c ∈ seen -> exists r, r ∈ l /\ cell_in c r) ->
  (forall v sz w, (v, sz, w) ∈ seen -> 0 < sz) -> 0 <= x -> 0 < size -> page_addr (PDENTRY_GETMAP w) ->
  enum_inv (mk_enum x (PDENTRY_GETMAP w) (u32 (PDENTRY_GETMAP w + size)) (Z.land w PDIR_ENUM_MASK) res l)
    (x + size) (seen ++ [(x, size, w)]).
Proof.
  intros Hc Hin Hpos Hx Hs Hp. split; cbn; [done|lia|f_equal; lia|lia| |].
  - intros v sz w' [Hv|Hv%list_elem_of_singleton]%elem_of_app; [by eapply Hpos|by simplify_eq].
  - intros c [Hv|Hv%list_elem_of_singleton]%elem_of_app; [left; by apply Hin|]. subst c. right.
    split; [lia|]. split; [lia|]. split; [done|]. by rewrite Z.sub_diag, Z.add_0_r, u32_id.
Qed.

Lemma enum_word_ok st x size w seen :
  enum_inv st x seen -> 0 < size -> x + size <= 2 ^ 32 -> page_addr (PDENTRY_GETMAP w) ->
  exists st', enum_word record_range x size w st = inr st' /\ enum_inv st' (x + size) (seen ++ [(x, size, w)]).
Proof.
  intros [I1 I2 I3 I4 I5 I6] Hs Hx Hw. unfold enum_word.
  destruct (negb (PDENTRY_GETMAP w =? next_paddr st) || negb (prev_attr st =? Z.land w PDIR_ENUM_MASK)) eqn:E.
  - destruct (Z.eqb_spec x (prev_vaddr st)) as [Ex|Ex]; cbn [negb].
    + eexists. split; [done|]. apply enum_begin; try done; [by rewrite Ex| |lia].
      intros c Hc. destruct (I6 c Hc) as [?|Hin]; [done|]. exfalso. destruct c as [[v sz] w'].
      specialize (I5 _ _ _ Hc). specialize (I4 (eq_sym Ex)). lia.
    + cbn. assert (u32 (x - prev_vaddr st) = x - prev_vaddr st) as -> by (apply Z.mod_small; lia).
      assert (range_len (x - prev_vaddr st) = x - prev_vaddr st) as Hl
        by (unfold range_len; rewrite (proj2 (Z.eqb_neq _ _)) by lia; done).
      eexists. split; [done|]. apply enum_begin; try done; [|..|lia].
      * replace x with (prev_vaddr st + range_len (x - prev_vaddr st)) at 1 by (rewrite Hl; lia).
        apply chained_snoc; [done|rewrite Hl; lia].
      * intros c Hc. destruct (I6 c Hc) as [(r & Hr & Hin)|Hin].
        { exists r. split; [apply elem_of_app; by left|done]. }
        exists (prev_vaddr st, prev_paddr st, x - prev_vaddr st, prev_attr st).
        split; [apply elem_of_app; right; by apply list_elem_of_singleton|]. destruct c as [[v sz] w'].
        unfold cell_in. rewrite Hl. destruct Hin as (? & ? & ? & ?). repeat split; try done; lia.
  - apply orb_false_iff in E as [Ep Ea]. apply negb_false_iff, Z.eqb_eq in Ep, Ea.
    eexists. split; [done|]. split; cbn; [done|lia| |lia| |].
    + rewrite Ep, I3, u32_add. f_equal. lia.
    + intros v sz w' [Hv|Hv%list_elem_of_singleton]%elem_of_app; [by eapply I5|by simplify_eq].
    + intros c [Hc|Hc%list_elem_of_singleton]%elem_of_app.
      * destruct (I6 c Hc) as [?|Hin]; [by left|]. right. destruct c as [[v sz] w'].
        destruct Hin as (? & ? & ? & ?). repeat split; try done; lia.
      * subst c. right. split; [lia|]. split; [lia|]. split; [done|]. by rewrite Ep, I3.
Qed.

Context (a : A) (self : Z).
Hypothesis Hwf : pdir_wf a self.

Lemma enum_table_ok (n : nat) : forall i j st seen,
  0 <= i < 1024 -> 0 <= j -> j + Z.of_nat n = 1024 -> PDTABLE_ISALLOC (directory a self i) = true ->
  enum_inv st (0x400000 * i + 4096 * j) seen ->
  exists st', enum_table record_range n (PDTABLE_GETPTEV (directory a self i)) i j a st = inr st' /\
    enum_inv st' (0x400000 * (i + 1))
      (seen ++ ((fun j => (0x400000 * i + 4096 * j, 4096, tab a self i j)) <$> seqZ j (Z.of_nat n))).
Proof.
  induction n as [|n IH]; intros i j st seen Hi Hj Hn Ha Hst.
  - exists st. split; [done|]. rewrite app_nil_r. by replace (0x400000 * (i + 1)) with (0x400000 * i + 4096 * j) by lia.
  - cbn [enum_table]. destruct (wf_entry a self Hwf i j Hi ltac:(lia) Ha) as [He _].
    destruct (enum_word_ok st (0x400000 * i + 4096 * j) 4096 (tab a self i j) seen) as (st1 & E1 & I1);
      [done|lia|change (2 ^ 32) with 4294967296; lia|by apply (getptev_page _ He)|].
    unfold PDTABLE_REPRSIZE, PDENTRY_REPRSIZE, PAGESIZE. unfold tab in E1 at 1. rewrite E1.
    destruct (IH i (j + 1) st1 _ Hi ltac:(lia) ltac:(lia) Ha
      ltac:(by replace (0x400000 * i + 4096 * (j + 1)) with (0x400000 * i + 4096 * j + 4096) by lia))
      as (st2 & E2 & I2).
    exists st2. split; [done|]. rewrite <- app_assoc in I2.
    rewrite seqZ_cons by lia. cbn [fmap list_fmap app] in *.
    replace (Z.pred (Z.of_nat (S n))) with (Z.of_nat n) by lia.
    replace (Z.succ j) with (j + 1) by lia. exact I2.
Qed.

Lemma enum_directory_ok (n : nat) : forall i st seen,
  0 <= i -> i + Z.of_nat n = 1024 -> enum_inv st (0x400000 * i) seen ->
  exists st', enum_directory record_range n self i a st = Ret (inr st') /\
    enum_inv st' (2 ^ 32) (seen ++ (seqZ i (Z.of_nat n) ≫= dir_cells a self)).
Proof.
  induction n as [|n IH]; intros i st seen Hi Hn Hst.
  - exists st. split; [done|]. simpl. rewrite app_nil_r.
    by replace (2 ^ 32) with (0x400000 * i) by (change (2 ^ 32) with 4294967296; lia).
  - cbn [enum_directory]. set (w := directory a self i).
    pose proof (wf_word a self Hwf i ltac:(lia)) as Hw.
    assert (exists st1,
      (if negb (bits w PDIR_ATTR_PRESENT) || PDTABLE_ISMAP w
       then Ret (enum_word record_range (PDTABLE_REPRSIZE * i) PDTABLE_REPRSIZE w st)
       else assert! PDTABLE_ISALLOC w;;
         Ret (enum_table record_range 1024 (PDTABLE_GETPTEV w) i 0 a st)) = Ret (inr st1) /\
      enum_inv st1 (0x400000 * (i + 1)) (seen ++ dir_cells a self i)) as (st1 & E1 & I1).
    { unfold dir_cells. fold w. destruct (negb (bits w PDIR_ATTR_PRESENT) || PDTABLE_ISMAP w) eqn:E.
      - destruct (enum_word_ok st (0x400000 * i) 0x400000 w seen) as (st1 & E1 & I1);
          [done|lia|change (2 ^ 32) with 4294967296; lia|by apply (getptev_page w Hw)|].
        exists st1. unfold PDTABLE_REPRSIZE. rewrite E1. split; [done|].
        by replace (0x400000 * (i + 1)) with (0x400000 * i + 0x400000) by lia.
      - apply orb_false_iff in E as [Ep Em]. apply negb_false_iff in Ep.
        destruct (PDTABLE_ISALLOC w) eqn:Ha.
        2: { pose proof (wf_empty a self Hwf i ltac:(lia) Em Ha) as E. fold w in E. rewrite E in Ep. discriminate Ep. }
        cbn [oassert]. destruct (enum_table_ok 1024 i 0 st seen) as (st1 & E1 & I1); try done; try lia.
        { by replace (0x400000 * i + 4096 * 0) with (0x400000 * i) by lia. }
        exists st1. fold w in E1. by rewrite E1. }
    rewrite E1. cbn [obind]. destruct (IH (i + 1) st1 _ ltac:(lia) ltac:(lia) I1) as (st2 & E2 & I2).
    exists st2. split; [done|]. rewrite seqZ_cons by lia. cbn [mbind list_bind].
    replace (Z.pred (Z.of_nat (S n))) with (Z.of_nat n) by lia.
    replace (Z.succ i) with (i + 1) by lia. by rewrite <- app_assoc in I2.
Qed.

Lemma enum_ok :
  exists res rs, pdir_enum record_range self [] a = Ret (res, rs) /\ chained 0 (2 ^ 32) rs /\
    forall i c, 0 <= i < 1024 -> c ∈ dir_cells a self i -> exists r, r ∈ rs /\ cell_in c r.
Proof.
  destruct (enum_directory_ok 1024 0 (mk_enum 0 0 0 0 0 []) []) as (st & E & I1); [lia|done|..].
  { split; cbn; try done; [by intros ? ? ? ?%elem_of_nil|by intros ? ?%elem_of_nil]. }
  unfold pdir_enum. rewrite E. cbn [obind]. destruct I1 as [I1 I2 I3 I4 I5 I6]. cbn.
  assert (range_len (u32 (0 - prev_vaddr st)) = 2 ^ 32 - prev_vaddr st) as Hl.
  { assert (prev_vaddr st <> 2 ^ 32) as Hne by (intros Hx; specialize (I4 Hx); discriminate I4).
    unfold range_len, u32. change (2 ^ 32) with 4294967296 in *. bcase; mlia. }
  eexists _, _. split; [done|]. split.
  - replace (2 ^ 32) with (prev_vaddr st + range_len (u32 (0 - prev_vaddr st))) by (rewrite Hl; lia).
    apply chained_snoc; [done|]. rewrite Hl.
    assert (prev_vaddr st <> 2 ^ 32) by (intros Hx; specialize (I4 Hx); discriminate I4). lia.
  - intros i c Hi Hc. destruct (I6 c) as [(r & Hr & Hin)|Hin].
    { apply list_elem_of_bind. exists i. split; [done|]. apply elem_of_seqZ. simpl. lia. }
    { exists r. split; [apply elem_of_app; by left|done]. }
    exists (prev_vaddr st, prev_paddr st, u32 (0 - prev_vaddr st), prev_attr st).
    split; [apply elem_of_app; right; by apply list_elem_of_singleton|]. destruct c as [[v sz] w'].
    unfold cell_in. rewrite Hl. destruct Hin as (? & ? & ? & ?). repeat split; try done; lia.
Qed.

(** ** The self-map *)

Lemma this_entry_at d t :
  0 <= d < 1024 -> 0 <= t < 1024 -> PDTABLE_ISALLOC (directory a self d) = true ->
  this_at a self (THIS_PDIR_ENTRY d t) = Ret (pd_at (PDTABLE_GETPTEV (directory a self d)) t).
Proof.
  intros Hd Ht Ha. unfold this_at, THIS_PDIR_ENTRY, THIS_PDIR_BASE.
  replace ((0xffc00000 + 4 * (1024 * d + t)) / 4096) with (1023 * 1024 + d) by mlia.
  replace ((0xffc00000 + 4 * (1024 * d + t)) mod 4096) with (4 * t) by mlia.
  pose proof (selfmap_table a self Hwf) as H23.
  rewrite walk_alloc; [|done|lia|by replace ((1023 * 1024 + d) / 1024) with 1023 by mlia].
  replace ((1023 * 1024 + d) / 1024) with 1023 by mlia. replace ((1023 * 1024 + d) mod 1024) with d by mlia.
  destruct (wf_selfmap a self Hwf d Hd) as [_ Hm]. specialize (Hm Ha).
  destruct (wf_entry a self Hwf 1023 d ltac:(lia) Hd H23) as [He _].
  destruct (word_split _ He) as (p & f & E & Hp & Hf). rewrite E in *. clear E.
  rewrite entry_walk_page by done.
  pose proof (getptev_page _ (wf_word a self Hwf d Hd)) as Hg.
  change 0xfffff001 with (Z.lor ADDR_MASK 1) in Hm.
  rewrite Z.land_lor_distr_r, land_page, land_low_page in Hm by done.
  assert (0 <= Z.land f 1 <= 1) as Hb.
  { pose proof (Z.land_ones f 1 ltac:(lia) : Z.land f 1 = f mod 2) as ->. mlia. }
  rewrite lor_page in Hm by (done || (unfold attrs; lia)).
  destruct Hp as [P1 _]. destruct Hg as [G1 _].
  assert (Z.land f 1 = 1) as Ef by mlia. unfold bits, PDIR_ATTR_PRESENT. rewrite Ef. cbn.
  unfold pd_at. f_equal. lia.
Qed.

Lemma this_writable_ok ptr :
  0 <= ptr < 2 ^ 32 -> thispdir_test_writable self ptr a = Ret (grants 3 (walk a self (ptr / 4096))).
Proof.
  intros Hp. destruct (index_addr ptr Hp) as (Hv & Ed & Et & _ & _).
  unfold thispdir_test_writable. rewrite Ed, Et. set (v := ptr / 4096) in *.
  assert (0 <= v / 1024 < 1024 /\ 0 <= v mod 1024 < 1024) as [Hi Hj] by mlia.
  change (Z.lor PDIR_ATTR_PRESENT PDIR_ATTR_WRITE) with 3.
  assert (access_flags 3) as Hf by done. unfold grants.
  destruct (PDTABLE_ISMAP (directory a self (v / 1024))) eqn:Hm.
  - rewrite walk_map by done. destruct (bits (directory a self (v / 1024)) PDIR_ATTR_PRESENT) eqn:Hpr.
    + by rewrite land_sub by done.
    + f_equal. apply Z.eqb_neq. intros E. by rewrite (present_flags 3 _ Hf E) in Hpr.
  - destruct (PDTABLE_ISALLOC (directory a self (v / 1024))) eqn:Ha; cbn [negb]; [|by rewrite walk_empty].
    rewrite this_entry_at by done. cbn [obind]. rewrite walk_alloc by done.
    change (rd32 a _) with (tab a self (v / 1024) (v mod 1024)). unfold entry_walk.
    destruct (bits (tab a self (v / 1024) (v mod 1024)) PDIR_ATTR_PRESENT) eqn:Hpr.
    + by rewrite land_sub by done.
    + f_equal. apply Z.eqb_neq. intros E. by rewrite (present_flags 3 _ Hf E) in Hpr.
Qed.

End Reported.
