(* ===== verification/PagingTheorems.v ===== *)
(** * Theorems about page directories

    The theorems about the operations of [Paging32] for any implementation of
    [PhysMem], and a machine with the page allocator they apply to. *)
From stdpp Require Import base numbers list.
From S2P Require Import Prelude Align PageAlloc PageScatter PhysMem.
From S2P Require Import Paging32 Paging32Spec Paging32Ops Paging32Map Paging32Dir PagingBoot PagingUtil.

(** ** A machine

    A directory of the kernel at [sample_dir], its tables behind it, with one page
    mapped at the base of the kernel. *)
Definition sample_dir : Z := 0xd0000000.
Definition sample_table (i : Z) : Z := 0xd0001000 + 4096 * i.
Definition sample_word (i : Z) : Z := if i <? 768 then ADDR_MASK else sample_table i + 3.
Definition sample_words (x : Z) : Z :=
  let j := x mod 4096 / 4 in
  if page_of x =? sample_dir then sample_word j
  else if page_of x =? sample_table 1023 then
    if j <? 768 then ADDR_MASK else sample_table j + 3
  else if x =? sample_table 768 then 0x5003 else ADDR_MASK.
Definition sample_machine : machine := mk_machine sample_pages sample_words [].

#[local] Instance sample_mem : PhysMem machine := machine_mem (2 ^ 32) [] 1.
#[local] Instance sample_laws : PhysLaws machine := machine_laws (2 ^ 32) [] 1 (le_n 2).

Lemma sample_directory i : 0 <= i < 1024 -> directory sample_machine sample_dir i = sample_word i.
Proof.
  intros Hi. unfold directory, pd_at. cbn [rd32 sample_mem machine_mem mc_words sample_machine].
  unfold sample_words. replace (page_of (sample_dir + 4 * i)) with sample_dir
    by (unfold page_of, sample_dir; mlia). rewrite Z.eqb_refl. f_equal. unfold sample_dir. mlia.
Qed.

Lemma sample_page i : 0 <= i < 1024 -> page_addr (sample_table i) /\ sample_table i <> ADDR_MASK.
Proof.
  intros Hi. unfold page_addr, sample_table, ADDR_MASK. change (2 ^ 32) with 4294967296.
  repeat split; mlia.
Qed.

Lemma sample_word_ok i :
  0 <= i < 1024 ->
  PDTABLE_ISMAP (sample_word i) = false /\ PDTABLE_ISALLOC (sample_word i) = negb (i <? 768) /\
  0 <= sample_word i < 2 ^ 32 /\
  (768 <= i -> PDTABLE_GETPTEV (sample_word i) = sample_table i /\ Z.land (sample_word i) 3 = 3).
Proof.
  intros Hi. destruct (sample_page i Hi) as [Hp Hne]. unfold sample_word.
  destruct (Z.ltb_spec i 768); [repeat split; done || lia|].
  rewrite ismap_page, isalloc_page by done. apply Z.eqb_neq in Hne. rewrite Hne.
  split; [done|]. split; [done|]. split.
  - unfold sample_table. change (2 ^ 32) with 4294967296. lia.
  - intros _. unfold PDTABLE_GETPTEV. by rewrite land_page, land_low_page.
Qed.

Lemma sample_tab i j :
  768 <= i < 1024 -> 0 <= j < 1024 ->
  tab sample_machine sample_dir i j =
    if i =? 1023 then (if j <? 768 then ADDR_MASK else sample_table j + 3)
    else if (i =? 768) && (j =? 0) then 0x5003 else ADDR_MASK.
Proof.
  intros Hi Hj. unfold tab. rewrite sample_directory by lia.
  destruct (sample_word_ok i ltac:(lia)) as (_ & _ & _ & Hw). destruct (Hw ltac:(lia)) as [-> _].
  unfold pd_at. cbn [rd32 sample_mem machine_mem mc_words sample_machine]. unfold sample_words.
  replace (page_of (sample_table i + 4 * j)) with (sample_table i) by (unfold page_of, sample_table; mlia).
  replace ((sample_table i + 4 * j) mod 4096 / 4) with j by (unfold sample_table; mlia).
  rewrite (proj2 (Z.eqb_neq (sample_table i) sample_dir)) by (unfold sample_table, sample_dir; lia).
  unfold sample_table. destruct (Z.eqb_spec i 1023) as [->|]; [done|].
  rewrite (proj2 (Z.eqb_neq _ _)) by lia.
  destruct (Z.eqb_spec i 768), (Z.eqb_spec j 0), (Z.eqb_spec (0xd0001000 + 4096 * i + 4 * j) (0xd0001000 + 4096 * 768));
    done || lia.
Qed.

Lemma sample_not_free p : 0xd0000000 <= p -> ~ isfree sample_machine p.
Proof. intros Hp Hf. apply sample_free in Hf. lia. Qed.

Lemma sample_wf : pdir_wf sample_machine sample_dir.
Proof.
  assert (forall i, 768 <= i < 1024 -> ~ isfree sample_machine (sample_table i)) as Hnf
    by (intros i Hi; apply sample_not_free; unfold sample_table; lia).
  split; [apply sample_pages_inv| | | | | | | | |].
  - split; [done|]. by apply sample_not_free.
  - intros i Hi. rewrite sample_directory by done. by apply sample_word_ok.
  - intros i Hi _. rewrite sample_directory by done. destruct (sample_word_ok i Hi) as (_ & -> & _ & _).
    intros Hlt. apply negb_false_iff in Hlt. unfold sample_word. by rewrite Hlt.
  - intros i Hi. rewrite sample_directory by done. destruct (sample_word_ok i Hi) as (_ & -> & _ & Hw).
    intros Hlt. apply negb_true_iff, Z.ltb_ge in Hlt. destruct (Hw Hlt) as [-> _]. cbv zeta.
    split; [apply Hnf; lia|]. split; [unfold sample_table, sample_dir; lia|lia].
  - intros i j Hi Hj. rewrite sample_directory by done.
    destruct (sample_word_ok i Hi) as (_ & -> & _ & Hw). intros Hlt. apply negb_true_iff, Z.ltb_ge in Hlt.
    rewrite sample_tab by lia. destruct (Hw Hlt) as [_ H3]. destruct (Z.eqb_spec i 1023).
    + destruct (Z.ltb_spec j 768); [done|]. destruct (sample_page j Hj) as [[P1 P2] _].
      split; [unfold sample_table; change (2 ^ 32) with 4294967296; lia|]. intros _.
      apply land_7_of_3; [|done]. by rewrite land_low_page.
    + destruct ((i =? 768) && (j =? 0)); [|done]. split; [done|]. intros _. by apply land_7_of_3.
  - intros i i' Hi Hi'. rewrite !sample_directory by done.
    destruct (sample_word_ok i Hi) as (_ & -> & _ & Hw). destruct (sample_word_ok i' Hi') as (_ & -> & _ & Hw').
    intros L1%negb_true_iff%Z.ltb_ge L2%negb_true_iff%Z.ltb_ge.
    destruct (Hw L1) as [-> _]. destruct (Hw' L2) as [-> _]. unfold sample_table. lia.
  - intros i Hi. rewrite sample_directory by lia. destruct (sample_word_ok i ltac:(lia)) as (_ & -> & _ & Hw).
    split; [apply negb_true_iff, Z.ltb_ge; lia|]. exact (proj2 (Hw ltac:(lia))).
  - intros i Hi. rewrite sample_directory by done. destruct (sample_word_ok i Hi) as (-> & _). done.
  - intros i Hi. rewrite sample_directory, sample_tab by lia. change (1023 =? 1023) with true. cbn match.
    destruct (sample_word_ok i Hi) as (_ & Ha & _ & Hw). destruct (sample_page i Hi) as [Hp _].
    destruct (Z.ltb_spec i 768); [split; [done|by rewrite Ha]|]. split; [by rewrite land_low_page|].
    intros _. destruct (Hw ltac:(lia)) as [-> _].
    replace 0xfffff001 with (Z.lor ADDR_MASK 1) by done.
    rewrite Z.land_lor_distr_r, land_page, land_low_page by done.
    change (Z.land 3 1) with 1. by apply lor_page.
Qed.

(** ** The theorems *)

Section Theorems.

Context {A : Type} `{PL : PhysLaws A}.
Context (pdir_kernel pdir_kernel_v self : Z).

(** C5: [pdir_mmap] of a page-aligned range below the self-map (below the kernel unless the
    directory is the kernel's), with a page-aligned size, for attributes without USER in the
    kernel's part, and, where the range covers a whole table below the kernel, with a target at the
    same offset in its 4 MiB: it maps exactly the pages of the range, to consecutive pages from
    [target] on with the rights asked for, and leaves every other translation alone; or it returns
    [-ENOMEM] and no translation has changed.  In both cases the directory keeps its invariant
    (self-map included), no page is lost or used twice, no other memory is written to, and no
    assertion fails. *)
Theorem pdir_mmap_ok (a : A) start n target flags :
  pdir_wf a self -> range_ok pdir_kernel pdir_kernel_v self start n -> page_addr target ->
  bits flags PDIR_ATTR_4MIB = false ->
  (VM_HOST_BASE < start + n -> bits flags PDIR_ATTR_USER = false) ->
  mmap_target_ok start n target flags ->
  exists r a', pdir_mmap pdir_kernel pdir_kernel_v self start n target flags a = Ret (r, a') /\
    stepped a a' self [] [] /\
    (r = - ENOMEM /\ (forall v, 0 <= v < 1023 * 1024 -> walk a' self v = walk a self v) \/
     r = - EOK /\ on_range self (new_map flags) a a' start n target).
Proof. apply mmap_ok. Qed.

(** C6: [pdir_munmap] of a range whose first and last table, where covered in part only, are in use
    (as a table or as a 4 MiB mapping; [munmap_unmapped_aborts] shows the assertion that fails
    otherwise): it removes exactly the translations of the range, whole tables and parts of 4 MiB
    mappings included, or returns [-ENOMEM] with all of them still there; the size is rounded up to
    whole pages. *)
Theorem pdir_munmap_ok (a : A) start n flags :
  let size := CEIL_ALIGN (2 ^ 32) n PAGESIZE in
  pdir_wf a self -> range_ok pdir_kernel pdir_kernel_v self start size ->
  (forall i, 0 <= i < 1023 -> overlaps start size i -> ~ within start size i -> used (directory a self i)) ->
  exists r a', pdir_munmap pdir_kernel pdir_kernel_v self start n flags a = Ret (r, a') /\
    stepped a a' self [] [] /\
    (r = - ENOMEM /\ (forall v, 0 <= v < 1023 * 1024 -> walk a' self v = walk a self v) \/
     r = - EOK /\ on_range self (fun _ _ => None) a a' start size 0).
Proof. apply munmap_ok. Qed.

(** C8: [pdir_mprotect] of mapped pages that are in tables gives them the new
    rights and keeps their physical pages and all other translations; it needs no
    memory and returns the size rounded up to whole pages. *)
Theorem pdir_mprotect_ok (a : A) start n flags :
  let size := CEIL_ALIGN (2 ^ 32) n PAGESIZE in
  pdir_wf a self -> range_ok pdir_kernel pdir_kernel_v self start size ->
  bits flags PDIR_ATTR_4MIB = false ->
  (forall v, start <= 4096 * v < start + size ->
     PDTABLE_ISALLOC (directory a self (v / 1024)) = true /\ walk a self v <> None) ->
  exists a', pdir_mprotect pdir_kernel pdir_kernel_v self start n flags a = Ret (size, a') /\
    stepped a a' self [] [] /\ on_range self (new_prot flags) a a' start size 0.
Proof. apply mprotect_ok. Qed.

(** after [pdir_mmap] with [PDIR_ATTR_PRESENT] has succeeded, [pdir_translate]
    finds every byte of the range at its place behind [target]. *)
Theorem pdir_mmap_translate (a a' : A) start n target flags k :
  pdir_wf a self -> range_ok pdir_kernel pdir_kernel_v self start n -> page_addr target ->
  bits flags PDIR_ATTR_4MIB = false -> bits flags PDIR_ATTR_PRESENT = true ->
  (VM_HOST_BASE < start + n -> bits flags PDIR_ATTR_USER = false) ->
  mmap_target_ok start n target flags -> target + n <= 2 ^ 32 ->
  pdir_mmap pdir_kernel pdir_kernel_v self start n target flags a = Ret (- EOK, a') -> 0 <= k < n ->
  pdir_translate self (start + k) a' = Ret (target + k).
Proof.
  intros Hwf Hr Ht H4 Hp Hu Hal Htn E Hk.
  destruct (mmap_ok pdir_kernel pdir_kernel_v self a start n target flags)
    as (r & a1 & E1 & S1 & S2); try done.
  rewrite E in E1. injection E1 as <- <-. destruct S2 as [[? _]|[_ S2]]; [done|].
  pose proof Hr as (R1 & R2 & R3 & R4 & R5 & _). unfold THIS_PDIR_BASE in R5. destruct Ht as [T1 T2].
  change (2 ^ 32) with 4294967296 in *.
  rewrite (translate_ok self a' (start + k) (target + k / 4096 * 4096) (Z.land flags 7)).
  - f_equal. mlia.
  - apply S1.
  - change (2 ^ 32) with 4294967296. lia.
  - rewrite S2 by mlia. rewrite (proj2 (Z.leb_le _ _)), (proj2 (Z.ltb_lt _ _)) by mlia. cbn [andb].
    unfold new_map. rewrite Hp. do 2 f_equal. unfold u32. change (2 ^ 32) with 4294967296. mlia.
Qed.

(** [pdir_maccess_addr] grants access exactly where the processor does. *)
Theorem pdir_maccess_addr_ok (a : A) ptr flags :
  pdir_wf a self -> 0 <= ptr < 2 ^ 32 -> access_flags flags ->
  pdir_maccess_addr self ptr flags a = Ret (grants flags (walk a self (ptr / 4096))).
Proof. apply maccess_addr_ok. Qed.

(** C23: [pdir_init] either fails and takes no page, or makes a directory with the
    invariant that maps nothing below the kernel and, above, what the kernel's
    directory maps; it takes one page, for the self-map.  Other memory, the
    kernel's directory included, does not change. *)
Theorem pdir_init_ok (a : A) :
  pdir_wf a pdir_kernel -> page_addr self -> ~ isfree a self -> ~ held a pdir_kernel [] self ->
  exists b a', pdir_init pdir_kernel self a = Ret (b, a') /\
    (forall y, y mod 4 = 0 -> page_of y <> self -> ~ isfree a (page_of y) -> rd32 a' y = rd32 a y) /\
    if b : bool then
      pdir_wf a' self /\
      (forall v, 0 <= v < 1023 * 1024 ->
         walk a' self v = if v <? 768 * 1024 then None else walk a pdir_kernel v) /\
      (forall p, p mod 4096 = 0 ->
         isfree a' p <-> isfree a p /\ p <> PDTABLE_GETPTEV (directory a' self 1023))
    else forall p, isfree a' p <-> isfree a p.
Proof.
  intros Hwf Hs Hsf Hsh. destruct (init_ok pdir_kernel self a Hwf (conj Hs (conj Hsf Hsh)))
    as (b & a' & E & Hfr & Hb).
  exists b, a'. split; [done|]. split; [done|]. destruct b; [|apply Hb]. destruct Hb as [last Hb].
  split; [by eapply built_wf|]. split; [by eapply built_walk|].
  intros p Hp. rewrite (bd_free _ _ _ _ _ Hb), (bd_dir _ _ _ _ _ Hb) by done.
  by erewrite built_page by done.
Qed.

(** [pdir_fini] gives back exactly the pages of the tables below the kernel
    and writes to no memory that stays in use. *)
Theorem pdir_fini_ok (a : A) :
  pdir_wf a self -> PDIR_ISKERNEL pdir_kernel pdir_kernel_v self = false ->
  exists a', pdir_fini pdir_kernel pdir_kernel_v self a = Ret a' /\ pinv a' /\
    (forall p, p mod 4096 = 0 -> isfree a' p <-> isfree a p \/ table_from self a 0 p) /\
    (forall x, ~ isfree a' (page_of x) -> rd32 a' x = rd32 a x).
Proof. intros Hwf. by apply fini_ok. Qed.

(** C24: at boot [pdir_kernel_transform_tables] returns, and when 256 pages were free in the zone of
    page tables and those below it, [pdir_initialize_selfmap] then returns as well: the two make a directory with the
    invariant out of the 4 MiB mappings of paging.c, and every page below the self-map stays where
    it was: physical memory as it is, and again from the base of the kernel. *)
Theorem pdir_boot_ok (a : A) :
  page_addr pdir_kernel -> pinv a -> ~ isfree a pdir_kernel ->
  (forall i, 0 <= i < 1024 -> directory a pdir_kernel i = boot_directory i) ->
  exists a1, pdir_kernel_transform_tables pdir_kernel a = Ret a1 /\
    (supply a 256 ->
     exists a2, pdir_initialize_selfmap pdir_kernel a1 = Ret a2 /\ pdir_wf a2 pdir_kernel /\
       forall v, 0 <= v < 1023 * 1024 -> walk a2 pdir_kernel v =
         Some (if v <? 768 * 1024 then 4096 * v else 4096 * (v - 768 * 1024), 3)).
Proof. intros Hk. by apply boot_ok. Qed.

(** [pdir_enum] reports ranges that follow each other from address 0 to
    4 GiB, and every word of the directory and its tables is within the range that
    has its attributes and puts it at its physical address. *)
Theorem pdir_enum_ok (a : A) :
  pdir_wf a self ->
  exists res rs, pdir_enum record_range self [] a = Ret (res, rs) /\ chained 0 (2 ^ 32) rs /\
    forall i c, 0 <= i < 1024 -> c ∈ dir_cells a self i -> exists r, r ∈ rs /\ cell_in c r.
Proof. apply enum_ok. Qed.

(** the words of tables are reached through the self-map, so
    [thispdir_test_writable] never faults and tells what the processor would. *)
Theorem thispdir_test_writable_ok (a : A) ptr :
  pdir_wf a self -> 0 <= ptr < 2 ^ 32 ->
  thispdir_test_writable self ptr a = Ret (grants 3 (walk a self (ptr / 4096))).
Proof. intros Hwf. by apply this_writable_ok. Qed.

End Theorems.

(** ** The theorems at work *)

Lemma sample_range start n :
  start mod 4096 = 0 -> n mod 4096 = 0 -> 0 <= start -> 0 <= n -> start + n <= THIS_PDIR_BASE ->
  range_ok sample_dir sample_dir sample_dir start n.
Proof. intros. split_and!; try done. by left. Qed.

(** A page, a table and a page. *)
Lemma pdir_mmap_ok_witness :
  exists r a', pdir_mmap sample_dir sample_dir sample_dir 0x3ff000 0x402000 0x7ff000 7 sample_machine = Ret (r, a')
    /\ pdir_wf a' sample_dir /\ (r = - EOK -> walk a' sample_dir 0x555 = Some (0x955000, 7)).
Proof.
  destruct (pdir_mmap_ok sample_dir sample_dir sample_dir sample_machine 0x3ff000 0x402000 0x7ff000 7)
    as (r & a' & E & S & W); [apply sample_wf|by apply sample_range|done|done|done|by intros i|].
  exists r, a'. split; [exact E|]. split; [apply S|]. intros ->. destruct W as [[Hr _]|[_ W]]; [discriminate Hr|].
  rewrite W by lia. reflexivity.
Defined.

Lemma pdir_munmap_ok_witness :
  exists r a', pdir_munmap sample_dir sample_dir sample_dir 0xc0000000 1 0 sample_machine = Ret (r, a')
    /\ pdir_wf a' sample_dir /\ (r = - EOK -> walk a' sample_dir 0xc0000 = None).
Proof.
  destruct (pdir_munmap_ok sample_dir sample_dir sample_dir sample_machine 0xc0000000 1 0)
    as (r & a' & E & S & W); [apply sample_wf|by apply sample_range|..].
  - intros i Hi Ho _. right. apply (wf_host _ _ sample_wf). unfold overlaps in Ho.
    change (CEIL_ALIGN (2 ^ 32) 1 PAGESIZE) with 4096 in Ho. lia.
  - exists r, a'. split; [exact E|]. split; [apply S|]. intros ->. destruct W as [[Hr _]|[_ W]]; [discriminate Hr|].
    rewrite W by lia. reflexivity.
Defined.

Lemma pdir_mprotect_ok_witness :
  walk sample_machine sample_dir 0xc0000 = Some (0x5000, 3) /\
  exists a', pdir_mprotect sample_dir sample_dir sample_dir 0xc0000000 4096 1 sample_machine = Ret (4096, a')
    /\ walk a' sample_dir 0xc0000 = Some (0x5000, 1).
Proof.
  assert (walk sample_machine sample_dir 0xc0000 = Some (0x5000, 3)) as E0 by (vm_compute; reflexivity).
  split; [exact E0|].
  destruct (pdir_mprotect_ok sample_dir sample_dir sample_dir sample_machine 0xc0000000 4096 1)
    as (a' & E & S & W); [apply sample_wf|by apply sample_range|done|..].
  - change (CEIL_ALIGN (2 ^ 32) 4096 PAGESIZE) with 4096. intros v Hv. assert (v = 0xc0000) as -> by lia.
    split; [by apply (wf_host _ _ sample_wf)|]. by rewrite E0.
  - exists a'. split; [exact E|]. rewrite W, E0 by lia. reflexivity.
Defined.

Lemma pdir_mmap_translate_witness :
  exists a', pdir_mmap sample_dir sample_dir sample_dir 0x400000 0x2000 0x5000 7 sample_machine = Ret (- EOK, a')
    /\ pdir_translate sample_dir 0x401234 a' = Ret 0x6234.
Proof.
  assert (match pdir_mmap sample_dir sample_dir sample_dir 0x400000 0x2000 0x5000 7 sample_machine with
          | Ret (0, _) => true | _ => false end = true) as Hs by (vm_compute; reflexivity).
  destruct (pdir_mmap sample_dir sample_dir sample_dir 0x400000 0x2000 0x5000 7 sample_machine)
    as [[[| |] a']|] eqn:E; [|discriminate Hs..].
  exists a'. split; [reflexivity|].
  apply (pdir_mmap_translate sample_dir sample_dir sample_dir sample_machine a' 0x400000 0x2000 0x5000 7 0x1234);
    [apply sample_wf|clear; by apply sample_range|clear; done..|clear; intros i ? ? ?; lia|lia|exact E|lia].
Defined.

Lemma pdir_maccess_addr_ok_witness :
  pdir_maccess_addr sample_dir 0xc0000123 3 sample_machine = Ret true /\
  pdir_maccess_addr sample_dir 0xc0000123 5 sample_machine = Ret false.
Proof.
  assert (walk sample_machine sample_dir (0xc0000123 / 4096) = Some (0x5000, 3)) as E
    by (vm_compute; reflexivity).
  rewrite (pdir_maccess_addr_ok sample_dir sample_machine 0xc0000123 3) by (apply sample_wf || (clear; done)).
  rewrite (pdir_maccess_addr_ok sample_dir sample_machine 0xc0000123 5) by (apply sample_wf || (clear; done)).
  rewrite E. split; reflexivity.
Defined.

Lemma pdir_init_ok_witness :
  exists b a', pdir_init sample_dir 0xe0000000 sample_machine = Ret (b, a')
    /\ (b = true -> walk a' 0xe0000000 0xc0000 = walk sample_machine sample_dir 0xc0000).
Proof.
  destruct (pdir_init_ok sample_dir 0xe0000000 sample_machine) as (b & a' & E & _ & Hb);
    [apply sample_wf|done|by apply sample_not_free|..].
  - intros [?|[?%elem_of_nil|(i & Hi & Ha & E)]]; [done|done|].
    rewrite sample_directory in Ha, E by done. destruct (sample_word_ok i Hi) as (_ & Ha' & _ & Hw).
    rewrite Ha' in Ha. apply negb_true_iff, Z.ltb_ge in Ha. destruct (Hw Ha) as [E2 _].
    rewrite E2 in E. unfold sample_table in E. lia.
  - exists b, a'. split; [exact E|]. intros ->. destruct Hb as (_ & W & _).
    exact (W 0xc0000 ltac:(lia)).
Defined.

Lemma pdir_fini_ok_witness : exists a', pdir_fini 0x1000 0x1000 sample_dir sample_machine = Ret a'.
Proof.
  destruct (pdir_fini_ok 0x1000 0x1000 sample_dir sample_machine) as (a' & E & _); [apply sample_wf|done|].
  by exists a'.
Defined.

(** The directory the kernel starts with, and 1 MiB of free memory. *)
Definition boot_machine : machine :=
  mk_machine (mk_pages [mk_mzone [] 0 0 0 0; mk_mzone [mk_range 0x100000 0x100000 0] 0 0x100000 0 0] (fun _ => dirty_page))
    (fun x => boot_directory (x mod 4096 / 4)) [].

Lemma boot_free x : is_free (mc_pages boot_machine) x <-> 0x100000 <= x < 0x200000.
Proof.
  split.
  - intros (i & z & Hz & Hc). destruct i as [|[|i]]; simpl in Hz; simplify_eq; simpl in Hc.
    + by apply covered_nil in Hc.
    + rewrite covered_cons, covered_nil in Hc. unfold inside in Hc. simpl in Hc. lia.
  - intros Hx. exists 1%nat. eexists. split; [reflexivity|]. cbn [z_root]. rewrite covered_cons. left. unfold inside. simpl. lia.
Qed.

Lemma boot_supply : supply boot_machine 256.
Proof.
  exists ((fun i => 0x100000 + 4096 * i) <$> seqZ 0 256). split; [|split; [by rewrite length_fmap, length_seqZ|]].
  - apply NoDup_fmap_2; [|apply NoDup_seqZ]. intros i j E. simpl in E. lia.
  - intros p (i & -> & Hi%elem_of_seqZ)%list_elem_of_fmap. split; [mlia|]. split; [apply boot_free; lia|].
    unfold reach, sample_laws, machine_laws.
    rewrite (zs_of (W := 2 ^ 32) (spec := mzone_spec_i386) 1); [lia|simpl; lia|].
    change (MZONE_MIN mzone_spec_i386 1) with 0x100000. change (MZONE_MAX mzone_spec_i386 1) with 0xbfffffff. lia.
Qed.

(** All 256 tables are made: page [0xc0123] of the kernel stays at its place. *)
Lemma pdir_boot_ok_witness :
  exists a1 a2, pdir_kernel_transform_tables sample_dir boot_machine = Ret a1 /\
    pdir_initialize_selfmap sample_dir a1 = Ret a2 /\ pdir_wf a2 sample_dir /\
    walk a2 sample_dir 0xc0123 = Some (0x123000, 3).
Proof.
  destruct (pdir_boot_ok sample_dir boot_machine) as (a1 & E & Hs);
    [done| |intros Hf%boot_free; unfold sample_dir in Hf; lia| |].
  - split; [done| |].
    + intros [|[|i]] z [= <-]; simpl; [done|]. unfold range_ok, r_end. by vm_compute.
    + intros [|[|i]] z [= <-]; [done|]. by apply Forall_singleton.
  - intros i Hi. unfold directory, pd_at, sample_dir. cbn. f_equal. mlia.
  - destruct (Hs boot_supply) as (a2 & E2 & Hwf & Hw). exists a1, a2. split; [exact E|]. split; [exact E2|].
    split; [exact Hwf|]. rewrite (Hw 0xc0123); [reflexivity|clear; lia].
Defined.

Lemma pdir_enum_ok_witness :
  exists res rs r, pdir_enum record_range sample_dir [] sample_machine = Ret (res, rs) /\ r ∈ rs /\
    cell_in (0, 0x400000, ADDR_MASK) r.
Proof.
  destruct (pdir_enum_ok sample_dir sample_machine sample_wf) as (res & rs & E & _ & Hc).
  destruct (Hc 0 (0, 0x400000, ADDR_MASK) ltac:(lia)) as (r & Hr & Hin).
  - unfold dir_cells. rewrite sample_directory by lia. apply list_elem_of_singleton. reflexivity.
  - exists res, rs, r. split; [exact E|]. split; [exact Hr|exact Hin].
Defined.

Lemma thispdir_test_writable_ok_witness :
  thispdir_test_writable sample_dir 0xc0000123 sample_machine = Ret true.
Proof.
  rewrite (thispdir_test_writable_ok sample_dir sample_machine 0xc0000123 sample_wf) by (clear; done).
  reflexivity.
Defined.

(** ** Where the code falls short *)

(** The mapping of a whole table cannot be protected as a whole: the page asked
    for is not used. *)
Lemma mprotect_4mib_aborts :
  (let! (r, a) := pdir_mmap sample_dir sample_dir sample_dir 0x400000 0x400000 0x800000 7 sample_machine in
   pdir_mprotect sample_dir sample_dir sample_dir 0x400000 0x400000 1 a) = Abort.
Proof. vm_compute. reflexivity. Qed.

(** Unmapping a page of which nothing is mapped fails for the same reason. *)
Lemma munmap_unmapped_aborts :
  pdir_munmap sample_dir sample_dir sample_dir 0x400000 0x1000 0 sample_machine = Abort.
Proof. vm_compute. reflexivity. Qed.

(** The translations invalidated: the first page only, and the page behind. *)
Definition flushed (r : outcome (Z * machine)) : list tlb_event :=
  match r with Ret (_, a) => mc_tlb a | Abort => [] end.

Lemma mmap_flushes_one :
  flushed (pdir_mmap sample_dir sample_dir sample_dir 0xc0000000 0x3000 0x5000 3 sample_machine)
    = [Inval 0xc0000000].
Proof. vm_compute. reflexivity. Qed.

Lemma munmap_flushes_behind :
  flushed (pdir_munmap sample_dir sample_dir sample_dir 0xc0000000 0x3000 0 sample_machine)
    = [Inval 0xc0003000].
Proof. vm_compute. reflexivity. Qed.

(** [pdir_maccess] of a mapped range looks at other addresses. *)
Lemma maccess_looks_elsewhere :
  walk sample_machine sample_dir 0xc0000 = Some (0x5000, 3) /\
  pdir_maccess sample_dir 0xc0000000 4 1 sample_machine = Ret false.
Proof. vm_compute. done. Qed.

(** [pdir_test_readable] of an address without a table reads the word at
    0xfffff000, whatever is there. *)
Lemma test_readable_reads_nowhere (a : machine) :
  directory a sample_dir 0 = ADDR_MASK ->
  pdir_test_readable sample_dir 0 a = (Z.land (rd32 a ADDR_MASK) 1 =? 1).
Proof.
  intros E. unfold pdir_test_readable, pdir_test. change (PDIR_DINDEX 0) with 0. rewrite E. reflexivity.
Qed.

(** The page of the self-map stays taken after [pdir_fini]. *)
Lemma fini_leaks_selfmap {A : Type} `{PL : PhysLaws A} pdir_kernel pdir_kernel_v self (a a' : A) :
  pdir_wf a self -> PDIR_ISKERNEL pdir_kernel pdir_kernel_v self = false ->
  pdir_fini pdir_kernel pdir_kernel_v self a = Ret a' ->
  ~ isfree a' (PDTABLE_GETPTEV (directory a self 1023)).
Proof.
  intros Hwf Hk E. destruct (fini_ok self a Hwf pdir_kernel pdir_kernel_v Hk) as (a1 & E1 & _ & F & _).
  rewrite E in E1. injection E1 as <-. pose proof (selfmap_table a self Hwf) as Ha.
  destruct (table_page a self 1023 Hwf ltac:(lia) Ha) as ([P1 _] & P2 & _).
  rewrite F by done. intros [?|(i & Hi & Hx & Hy)]; [done|].
  pose proof (wf_inj a self Hwf i 1023 ltac:(lia) ltac:(lia) Hx Ha Hy). lia.
Qed.

(** [thispdir_undirty] looks at the table of its first page only: with no table
    there, pages of the next one stay dirty. *)
Definition dirty_machine : machine :=
  mk_machine sample_pages
    (fun x => if x =? sample_table 768 then 0x5043 else sample_words x) [].

Lemma undirty_first_table :
  match thispdir_undirty sample_dir 0xbffff000 0x2000 dirty_machine with
  | Ret a => thispdir_isdirty sample_dir 0xc0000000 0x1000 a
  | Abort => Abort
  end = Ret true.
Proof. vm_compute. reflexivity. Qed.
