(* ===== verification/MemInfo.v ===== *)
(** * Boot-time memory map (src/kernel/memory/install.c)

    The vector of [struct meminfo], sorted by address, each entry reaching up to
    the next one, and the installation of memory into the page allocator.  The
    configuration is the i386 one: a high kernel, and no early page overlaps.
    [early_map_identity] changes page tables only and is left out. *)
From stdpp Require Import base numbers list.
From S2P Require Import Prelude Align PageAlloc.

(** ** Data *)

Definition MEMTYPE_NDEF : Z := 0.
Definition MEMTYPE_RAM : Z := 1.
Definition MEMTYPE_PRESERVE : Z := 2.
Definition MEMTYPE_ALLOCATED : Z := 3.
Definition MEMTYPE_KFREE : Z := 4.
Definition MEMTYPE_KERNEL : Z := 5.
Definition MEMTYPE_NVS : Z := 6.
Definition MEMTYPE_DEVICE : Z := 7.
Definition MEMTYPE_BADRAM : Z := 8.
Definition MEMTYPE_COUNT : Z := 9.
Definition MEMTYPE_ISUSE (x : Z) : bool := x =? MEMTYPE_RAM.

Record meminfo : Type := mk_meminfo { mi_type : Z; mi_addr : Z }.

(** The slots of the vector: the first [mem_info_c] ones, and the ones behind
    them, which keep what was last stored there. *)
Record meminfos : Type := mk_infos { live : list meminfo; stale : list meminfo }.

Definition slot (v : meminfos) (i : nat) : option meminfo := (live v ++ stale v) !! i.
Definition type_at (v : meminfos) (i : nat) : Z :=
  match slot v i with Some x => mi_type x | None => -1 end.
Definition addr_at (v : meminfos) (i : nat) : Z :=
  match slot v i with Some x => mi_addr x | None => -1 end.

(** [MEMINFO_DELETE]: the last slot keeps its contents.  For a slot that is not
    in use the size given to [memmove] is negative. *)
Definition MEMINFO_DELETE (i : nat) (v : meminfos) : outcome meminfos :=
  match last (live v) with
  | Some x =>
      assert! Nat.ltb i (length (live v));;
      Ret (mk_infos (take i (live v) ++ drop (S i) (live v)) (x :: stale v))
  | None => Abort
  end.
Definition MEMINFO_HASNEXT (v : meminfos) (i : nat) : bool := negb (Nat.eqb (S i) (length (live v))).
(** [MEMINFO_END]: the last entry ends at address 0. *)
Definition MEMINFO_END (v : meminfos) (i : nat) : Z :=
  if MEMINFO_HASNEXT v i then addr_at v (S i) else 0.

Definition memtype_bios_matrix : list Z :=
  [MEMTYPE_NDEF; MEMTYPE_RAM; MEMTYPE_DEVICE; MEMTYPE_COUNT; MEMTYPE_NVS; MEMTYPE_BADRAM].

(** ** The vector *)

(** The search of [meminfo_split_at]; [prev] is the entry before and [full] tells
    that all slots are in use, which is a panic.  The third result tells whether
    a slot was added. *)
Fixpoint split_search (full : bool) (addr : Z) (prev : option meminfo) (l : list meminfo)
    : outcome (list meminfo * nat * bool) :=
  match l with
  | [] =>
      match prev with
      | None => Abort
      | Some p => assert! negb full;; Ret ([mk_meminfo (mi_type p) addr], O, true)
      end
  | iter :: rest =>
      if mi_addr iter <? addr then
        let! (rest, i, added) := split_search full addr (Some iter) rest in
        Ret (iter :: rest, S i, added)
      else if mi_addr iter =? addr then Ret (l, O, false)
      else
        assert! negb full;;
        let type := match prev with None => MEMTYPE_NDEF | Some p => mi_type p end in
        Ret (mk_meminfo type addr :: l, O, true)
  end.
Definition meminfo_split_at (v : meminfos) (addr : Z) : outcome (meminfos * nat) :=
  let full := match stale v with [] => true | _ :: _ => false end in
  let! (l, i, added) := split_search full addr None (live v) in
  Ret (mk_infos l (if added then tail (stale v) else stale v), i).

Definition meminfo_merge_with_prev (v : meminfos) (i : nat) : outcome meminfos :=
  match i with
  | O => Ret v
  | S prev => if type_at v prev =? type_at v i then MEMINFO_DELETE i v else Ret v
  end.

(** The second merge line, which jumps back to [delete_iter] as long as the next
    entry is RAM. *)
Fixpoint drop_next_ram (fuel : nat) (v : meminfos) (iter stop : nat) : outcome (meminfos * nat) :=
  match fuel with
  | O => Abort
  | S fuel =>
      if MEMINFO_HASNEXT v iter && (type_at v (S iter) =? MEMTYPE_RAM) then
        let! v := MEMINFO_DELETE (S iter) v in
        drop_next_ram fuel v iter (pred stop)
      else Ret (v, stop)
  end.

(** Both merge lines at the end of a round; the results are the vector, [iter]
    and [stop].  One call more than there are entries is enough. *)
Definition merge_ram (v : meminfos) (iter stop : nat) : outcome (meminfos * nat * nat) :=
  let! (v, iter, stop) :=
    match iter with
    | O => Ret (v, iter, stop)
    | S prev =>
        if type_at v prev =? MEMTYPE_RAM then
          let! v := MEMINFO_DELETE iter v in
          Ret (v, prev, pred stop)
        else Ret (v, iter, stop)
    end in
  let! (v, stop) := drop_next_ram (S (length (live v))) v iter stop in
  Ret (v, iter, stop).

Definition set_type (i : nat) (type : Z) (v : meminfos) : meminfos :=
  mk_infos (alter (fun x => mk_meminfo type (mi_addr x)) i (live v)) (stale v).

(** [mem_relocate_info]; [alloc] tells whether [kmalloc] succeeds. *)
Definition mem_relocate_info (alloc : bool) (v : meminfos) : outcome (list meminfo) :=
  assert! alloc;; Ret (live v).

Section Install.

(** The number of addresses and of values of [ref_t], the zones, and the end of
    the addresses usable as physical memory. *)
Variables (W REF : Z) (spec : mzonespec) (VM_HOST_BASE : Z).

(** ** Adding memory to the allocator *)

(** The walk of [page_addmemory]; its assertion is strict. *)
Fixpoint add_walk (start : Z) (l : list range) : outcome (list range * list range) :=
  match l with
  | [] => Ret ([], [])
  | iter :: next =>
      if PAGE_END W iter <=? start then
        assert! r_start iter <? start;;
        let! (before, after) := add_walk start next in
        Ret (iter :: before, after)
      else Ret ([], iter :: next)
  end.

(** [page_addmemory] links memory like [page_ffree] does when it is not zeroed. *)
Definition page_addmemory (st : pages) (zone_id : nat) (start n_bytes : Z) : outcome (Z * pages) :=
  if VM_HOST_BASE <=? start then Ret (0, st) else
  let n_bytes :=
    if VM_HOST_BASE <? (start + n_bytes) mod W then VM_HOST_BASE - start else n_bytes in
  if n_bytes =? 0 then Ret (0, st) else
  assert! IS_ALIGNED start PAGESIZE;;
  assert! IS_ALIGNED n_bytes PAGESIZE;;
  assert! Nat.eqb (mzone_of spec start) zone_id;;
  assert! Nat.eqb (mzone_of spec ((start + n_bytes - 1) mod W)) zone_id;;
  assert! start <=? (start + (n_bytes - 1)) mod W;;
  let! z := PAGEZONE st zone_id in
  let! (before, after) := add_walk start (z_root z) in
  assert! match after with
          | [] => true
          | iter :: _ => (start + n_bytes) mod W <=? r_start iter
          end;;
  let! (root, m) := free_link W (mem st) start n_bytes PAGEATTR_NONE before after in
  assert! forallb ASSERT_FREEPAGE root;;
  let z := mk_mzone root (z_inuse z) ((z_avail z + n_bytes) mod W) (z_alloc z) (z_free z) in
  Ret (n_bytes, set_mem (set_zone st zone_id z) m).

(** Zones [zone], [zone+1], ..., [count] of them. *)
Fixpoint addmemory_zones (count : nat) (st : pages) (zone : nat) (base n_bytes : Z) : outcome pages :=
  match count with
  | O => Ret st
  | S count =>
      if (MZONE_MIN spec zone <=? base) && (base <=? MZONE_MAX spec zone) then
        let zone_bytes := Z.min ((MZONE_MAX spec zone + 1 - base) mod W) n_bytes in
        let! (_, st) := page_addmemory st zone base zone_bytes in
        if n_bytes - zone_bytes =? 0 then Ret st
        else addmemory_zones count st (S zone) ((base + zone_bytes) mod W) (n_bytes - zone_bytes)
      else addmemory_zones count st (S zone) base n_bytes
  end.
Definition page_do_addmemory (st : pages) (base n_bytes : Z) : outcome pages :=
  addmemory_zones (MZONE_REAL_COUNT spec) st 0 base n_bytes.

Definition page_do_delmemory (st : pages) (base n_bytes : Z) : outcome (bool * pages) :=
  let! (r, st) := page_malloc_at W REF spec st base n_bytes PAGEATTR_NONE in
  Ret (match r with None => false | Some _ => true end, st).

(** ** Installing memory *)

(** What one round of [mem_install] does to the allocator, and the bytes it adds
    to [result]. *)
Definition install_pages (st : pages) (v : meminfos) (iter : nat) (type : Z) : outcome (Z * pages) :=
  if type <=? MEMTYPE_ALLOCATED then
    let info_begin := CEIL_ALIGN W (addr_at v iter) PAGESIZE in
    let info_end := FLOOR_ALIGN (MEMINFO_END v iter) PAGESIZE in
    if info_begin <? info_end then
      let size := info_end - info_begin in
      if MEMTYPE_ISUSE type then
        if negb (MEMTYPE_ISUSE (type_at v iter)) then
          let! st := page_do_addmemory st info_begin size in
          Ret (size, st)
        else Ret (0, st)
      else if MEMTYPE_ISUSE (type_at v iter) then
        let! (ok, st) := page_do_delmemory st info_begin size in
        Ret (if ok then size else 0, st)
      else Ret (0, st)
    else Ret (0, st)
  else Ret ((MEMINFO_END v iter - addr_at v iter) mod W, st).

(** The loop of [mem_install].  Every round lowers [stop - iter]. *)
Fixpoint install_loop (fuel : nat) (st : pages) (v : meminfos) (iter stop : nat)
    (type result : Z) : outcome (Z * meminfos * nat * pages) :=
  if Nat.ltb iter stop then
    match fuel with
    | O => Abort
    | S fuel =>
        if type <? type_at v iter then install_loop fuel st v (S iter) stop type result else
        let! (bytes, st) := install_pages st v iter type in
        let! (v, iter, stop) := merge_ram (set_type iter type v) iter stop in
        install_loop fuel st v (S iter) stop type ((result + bytes) mod W)
    end
  else Ret (result, v, stop, st).

Definition mem_install (st : pages) (v : meminfos) (base num_bytes type : Z)
    : outcome (Z * meminfos * pages) :=
  if num_bytes =? 0 then Ret (0, v, st) else
  let! (v, start) := meminfo_split_at v base in
  assert! addr_at v start =? base;;
  let addr_end := (base + num_bytes) mod W in
  let! (v, stop) :=
    if addr_end <=? base then Ret (v, length (live v)) else
    let! (v, stop) := meminfo_split_at v addr_end in
    assert! negb (Nat.eqb start stop);;
    assert! addr_at v start =? base;;
    assert! addr_at v stop =? addr_end;;
    Ret (v, stop) in
  assert! Nat.ltb start stop;;
  let! (result, v, stop, st) := install_loop (stop - start) st v start stop type 0 in
  let! v := if Nat.eqb stop (length (live v)) then Ret v else meminfo_merge_with_prev v stop in
  let! v := meminfo_merge_with_prev v start in
  Ret (result, v, st).

(** [mem_install64] of a 32-bit kernel; [base] and [num_bytes] have 64 bits. *)
Definition mem_install64 (st : pages) (v : meminfos) (base num_bytes type : Z)
    : outcome (Z * meminfos * pages) :=
  if W - 1 <? base then Ret (0, v, st) else
  let num_bytes := if (base + num_bytes) mod 2 ^ 64 <? base then (- base) mod 2 ^ 64 else num_bytes in
  mem_install st v base (num_bytes mod W) type.

(** The loop of [mem_unpreserve] from slot [iter] on. *)
Fixpoint unpreserve_loop (fuel : nat) (st : pages) (v : meminfos) (iter : nat) (result : Z)
    : outcome (Z * meminfos * pages) :=
  if Nat.ltb iter (length (live v)) then
    match fuel with
    | O => Abort
    | S fuel =>
        let type := type_at v iter in
        if negb (type =? MEMTYPE_ALLOCATED) && negb (type =? MEMTYPE_PRESERVE)
        then unpreserve_loop fuel st v (S iter) result else
        let info_begin := CEIL_ALIGN W (addr_at v iter) PAGESIZE in
        let info_end := FLOOR_ALIGN (MEMINFO_END v iter) PAGESIZE in
        let! (bytes, st) :=
          if (type =? MEMTYPE_PRESERVE) && (info_begin <? info_end) then
            let info_end := info_end - info_begin in
            let! st := page_do_addmemory st info_begin ((info_end - info_begin) mod W) in
            Ret (info_end, st)
          else Ret (0, st) in
        let! (v, iter, _) := merge_ram (set_type iter MEMTYPE_RAM v) iter O in
        unpreserve_loop fuel st v (S iter) ((result + bytes) mod W)
    end
  else Ret (result, v, st).
Definition mem_unpreserve (st : pages) (v : meminfos) : outcome (Z * meminfos * pages) :=
  unpreserve_loop (length (live v)) st v 0 0.

(** The loops of [memory_load_mb_mmap] and [memory_load_mb2_mmap], over the
    address, length and type of the entries they visit. *)
Fixpoint memory_load_mmap (st : pages) (v : meminfos) (entries : list (Z * Z * Z)) (result : Z)
    : outcome (Z * meminfos * pages) :=
  match entries with
  | [] => Ret (result, v, st)
  | (addr, len, type) :: entries =>
      let type := if 6 <=? type then 0 else type in
      let memtype := memtype_bios_matrix !!! Z.to_nat type in
      if MEMTYPE_COUNT <=? memtype then memory_load_mmap st v entries result
      else
        let! (bytes, v, st) := mem_install64 st v addr len memtype in
        memory_load_mmap st v entries ((result + bytes) mod W)
  end.

End Install.

(** ** Adding memory *)

Section AddMemory.

Context (W : Z) (spec : mzonespec) `{!ZoneSpec W spec}.
Variable VM_HOST_BASE : Z.
Hypothesis host_above : phys_end spec <= VM_HOST_BASE.

Lemma add_walk_free lo hi l start :
  0 <= lo -> hi + PAGESIZE <= W -> ranges_ok lo hi l -> add_walk W start l = free_walk W start l.
Proof.
  intros Hlo Hhi. revert lo Hlo. induction l as [|r l IH]; intros lo Hlo Hok; [done|].
  destruct Hok as [Hr Hl]. destruct (range_facts W lo hi r Hlo Hhi Hr) as [_ He].
  simpl. rewrite He. unfold range_ok, r_end in Hr.
  rewrite (IH (r_end r + 1)) by (unfold r_end; lia || done).
  destruct (Z.leb_spec (r_end r) start) as [H1|H1]; [|done]. unfold r_end in H1.
  by rewrite (proj2 (Z.leb_le _ _)), (proj2 (Z.ltb_lt _ _)) by lia.
Qed.

Lemma zone_max_end i : (i < MZONE_REAL_COUNT spec)%nat -> MZONE_MAX spec i + 1 <= phys_end spec.
Proof.
  intros Hi. unfold phys_end.
  destruct (decide (i = pred (MZONE_REAL_COUNT spec))) as [->|Hne]; [lia|].
  pose proof (zones_monotone W spec i (pred (MZONE_REAL_COUNT spec)) ltac:(lia) ltac:(lia)).
  pose proof (zs_bounds (W := W) (pred (MZONE_REAL_COUNT spec)) ltac:(lia)). lia.
Qed.

Lemma addmemory_ok st i start n :
  pages_inv spec st -> (i < MZONE_REAL_COUNT spec)%nat ->
  MZONE_MIN spec i <= start -> start + n <= MZONE_MAX spec i + 1 ->
  0 < n -> start mod 4096 = 0 -> n mod 4096 = 0 ->
  (forall x, inside start n x -> ~ is_free st x) ->
  exists st', page_addmemory W spec VM_HOST_BASE st i start n = Ret (n, st') /\
    given spec st st' start n.
Proof.
  intros Hi Hix Hlo Hhi Hn Ha1 Ha2 Hd. unfold page_addmemory.
  pose proof (zone_max_end i Hix). pose proof (zs_bounds (W := W) i Hix) as [Hb1 Hb2].
  unfold PAGESIZE in Hb2.
  rewrite (proj2 (Z.leb_gt _ _)), (Z.mod_small (start + n)), (proj2 (Z.ltb_ge _ _)),
    (proj2 (Z.eqb_neq n 0)), !(proj2 (aligned_page _)) by (lia || done). cbn [oassert].
  rewrite (Z.mod_small (start + n - 1)), (Z.mod_small (start + (n - 1))) by lia.
  rewrite !(zs_of (W := W) i) by (lia || done). rewrite Nat.eqb_refl, (proj2 (Z.leb_le _ _)) by lia.
  cbn [oassert]. destruct (pagezone_ok spec st i Hi Hix) as (z & Hzl & ->). cbn [obind].
  rewrite (add_walk_free (MZONE_MIN spec i) (MZONE_MAX spec i + 1));
    [|unfold PAGESIZE; lia..|by apply (pi_ranges spec st Hi)].
  destruct (link_zone_ok W spec st i z start n PAGEATTR_NONE)
    as (bf & af & root & m' & -> & E2 & E3 & E4 & Hg); try done.
  cbn [obind]. rewrite E2. cbn [oassert]. rewrite E3. cbn [obind]. rewrite E4. by eexists.
Qed.

Lemma given_trans st st1 st2 a n1 n2 :
  0 <= n1 -> 0 <= n2 ->
  given spec st st1 a n1 -> given spec st1 st2 (a + n1) n2 -> given spec st st2 a (n1 + n2).
Proof.
  intros Hn1 Hn2 (Hi1 & Hf1 & Hm1) (Hi2 & Hf2 & Hm2). split; [done|]. split.
  - intros x. rewrite Hf2, Hf1. unfold inside. intuition lia.
  - intros x Hx. rewrite Hm2 by done. apply Hm1. intros H. apply Hx, Hf2. by left.
Qed.

Lemma given_none st a n : pages_inv spec st -> n <= 0 -> given spec st st a n.
Proof. intros Hi Hn. split; [done|]. split; [|done]. intros x. unfold inside. intuition lia. Qed.

(** The start of zone [i], or the end of the last one. *)
Definition zone_low (i : nat) : Z :=
  if decide (i < MZONE_REAL_COUNT spec)%nat then MZONE_MIN spec i else phys_end spec.

Lemma zone_low_next i : (i < MZONE_REAL_COUNT spec)%nat -> zone_low (S i) = MZONE_MAX spec i + 1.
Proof.
  intros Hi. unfold zone_low. case_decide.
  - by rewrite (zs_next (W := W) i).
  - unfold phys_end. do 2 f_equal. lia.
Qed.

Lemma addmemory_zones_ok count st i base n :
  pages_inv spec st -> (i + count = MZONE_REAL_COUNT spec)%nat -> zone_low i <= base ->
  0 < n -> base + n <= W -> base mod 4096 = 0 -> n mod 4096 = 0 ->
  (forall x, inside base n x -> ~ is_free st x) ->
  exists st', addmemory_zones W spec VM_HOST_BASE count st i base n = Ret st' /\
    given spec st st' base (Z.min n (phys_end spec - base)).
Proof.
  revert st i base n. induction count as [|count IH]; intros st i base n Hi Hc Hlo Hn HW Ha1 Ha2 Hd.
  { exists st. split; [done|]. apply given_none; [done|].
    unfold zone_low in Hlo. rewrite decide_False in Hlo by lia. lia. }
  assert (i < MZONE_REAL_COUNT spec)%nat as Hix by lia.
  pose proof (zone_low_next i Hix) as Hnx. pose proof (zone_max_end i Hix) as Hme.
  pose proof (zs_bounds (W := W) i Hix) as [Hb1 Hb2]. pose proof (zs_align (W := W) i Hix) as [Hb3 Hb4].
  unfold zone_low in Hlo. rewrite decide_True in Hlo by done. unfold PAGESIZE in Hb2.
  cbn [addmemory_zones]. rewrite (proj2 (Z.leb_le _ _)) by done. cbn [andb].
  destruct (Z.leb_spec base (MZONE_MAX spec i)) as [Hin|Hin].
  2: { apply IH; try done; lia. }
  rewrite (Z.mod_small (MZONE_MAX spec i + 1 - base)) by lia.
  remember (Z.min (MZONE_MAX spec i + 1 - base) n) as zb eqn:Ezb.
  assert (zb mod 4096 = 0 /\ 0 < zb) as [Hzb Hzp] by mlia.
  destruct (addmemory_ok st i base zb) as (st1 & -> & Hg1); try done; try lia.
  { intros x Hx. apply Hd. unfold inside in *. lia. }
  cbn [obind]. destruct (Z.eqb_spec (n - zb) 0) as [E|E].
  { exists st1. split; [done|]. by replace (Z.min n (phys_end spec - base)) with zb by lia. }
  rewrite Z.mod_small by lia. pose proof Hg1 as (Hi1 & Hf1 & _).
  destruct (IH st1 (S i) (base + zb) (n - zb)) as (st2 & -> & Hg2); try done; try lia; [mlia..| |].
  { intros x Hx [Hfx|Hfx]%Hf1; [|unfold inside in *; lia]. apply (Hd x); [|done]. unfold inside in *. lia. }
  exists st2. split; [done|].
  replace (Z.min n (phys_end spec - base))
    with (zb + Z.min (n - zb) (phys_end spec - (base + zb))) by lia.
  apply (given_trans _ st1); try done; lia.
Qed.

Lemma do_addmemory_ok st base n :
  pages_inv spec st -> 0 <= base -> 0 < n -> base + n <= W ->
  base mod 4096 = 0 -> n mod 4096 = 0 -> (forall x, inside base n x -> ~ is_free st x) ->
  exists st', page_do_addmemory W spec VM_HOST_BASE st base n = Ret st' /\
    given spec st st' base (Z.min n (phys_end spec - base)).
Proof.
  intros. apply addmemory_zones_ok; try done. unfold zone_low.
  pose proof (zs_count (W := W) (spec := spec)).
  rewrite decide_True, (zs_zero (W := W) (spec := spec)) by done. done.
Qed.

End AddMemory.

(** ** What a vector says about an address *)

(** The type of the last of the entries [l] at or below [a], [t] without one. *)
Fixpoint typeof (t : Z) (l : list meminfo) (a : Z) : Z :=
  match l with
  | [] => t
  | x :: l => if mi_addr x <=? a then typeof (mi_type x) l a else t
  end.
Definition memtype (v : meminfos) (a : Z) : Z := typeof MEMTYPE_NDEF (live v) a.

(** The type behind the last entry. *)
Definition end_type (t : Z) (l : list meminfo) : Z :=
  match last l with Some x => mi_type x | None => t end.

(** The first address of the entries [l]. *)
Definition end_of (l : list meminfo) : Z := match l with x :: _ => mi_addr x | [] => 0 end.

Fixpoint sorted (lo hi : Z) (l : list meminfo) : Prop :=
  match l with
  | [] => True
  | x :: l => lo <= mi_addr x < hi /\ 0 <= mi_type x /\ sorted (mi_addr x + 1) hi l
  end.

(** The vector starts at address 0 and ascends. *)
Definition infos_ok (W : Z) (l : list meminfo) : Prop := sorted 0 W l /\ mi_addr <$> head l = Some 0.

(** Adjacent entries have different types, as entries and in what they say. *)
Definition distinct (l : list meminfo) : Prop :=
  forall l1 x y l2, l = l1 ++ x :: y :: l2 -> mi_type x <> mi_type y.

Definition canonical (v : meminfos) : Prop :=
  forall x, x ∈ live v -> 0 < mi_addr x -> memtype v (mi_addr x - 1) <> mi_type x.

Lemma end_type_snoc t l x : end_type t (l ++ [x]) = mi_type x.
Proof. unfold end_type. by rewrite last_snoc. Qed.

Lemma end_type_cons t x l : end_type t (x :: l) = end_type (mi_type x) l.
Proof. unfold end_type. destruct l as [|y l]; [done|]. rewrite last_cons_cons. by destruct (last (y :: l)) eqn:E; [|apply last_None in E]. Qed.

Lemma typeof_app_hi t l1 l2 a :
  Forall (fun x => mi_addr x <= a) l1 -> typeof t (l1 ++ l2) a = typeof (end_type t l1) l2 a.
Proof.
  intros H. revert t. induction H as [|x l1 Hx _ IH]; intros t; [done|].
  simpl. rewrite (proj2 (Z.leb_le _ _)), end_type_cons by done. apply IH.
Qed.

Lemma typeof_app_lo t l1 l2 a :
  (l2 <> [] -> a < end_of l2) -> typeof t (l1 ++ l2) a = typeof t l1 a.
Proof.
  intros H. revert t. induction l1 as [|x l1 IH]; intros t; simpl; [|by rewrite IH].
  destruct l2 as [|y l2]; [done|]. simpl in *. by rewrite (proj2 (Z.leb_gt _ _)) by auto.
Qed.

Lemma typeof_const t l a : Forall (fun x => mi_type x = t) l -> typeof t l a = t.
Proof. induction 1 as [|x l Hx _ IH]; [done|]. simpl. rewrite Hx, IH. by destruct (_ <=? _). Qed.

Lemma typeof_end t l a : Forall (fun x => mi_addr x <= a) l -> typeof t l a = end_type t l.
Proof. intros H. by rewrite <- (app_nil_r l), typeof_app_hi, app_nil_r by done. Qed.

Lemma sorted_weaken lo lo' hi l : lo' <= lo -> sorted lo hi l -> sorted lo' hi l.
Proof. destruct l; simpl; intuition lia. Qed.

Lemma sorted_app lo hi l1 x l2 :
  sorted lo hi (l1 ++ x :: l2) <->
  sorted lo (mi_addr x) l1 /\ lo <= mi_addr x < hi /\ 0 <= mi_type x /\ sorted (mi_addr x + 1) hi l2.
Proof.
  revert lo. induction l1 as [|y l1 IH]; intros lo; simpl; [intuition|].
  rewrite IH. intuition lia.
Qed.

Lemma sorted_below lo hi l : sorted lo hi l -> Forall (fun x => lo <= mi_addr x < hi /\ 0 <= mi_type x) l.
Proof.
  revert lo. induction l as [|x l IH]; intros lo H; [done|]. simpl in H.
  apply Forall_cons. split; [intuition|]. eapply Forall_impl; [apply IH; intuition eauto|].
  simpl. intros y Hy. lia.
Qed.

(** Dropping an entry keeps the order. *)
Lemma sorted_drop lo hi l1 x l2 : sorted lo hi (l1 ++ x :: l2) -> sorted lo hi (l1 ++ l2).
Proof.
  rewrite sorted_app. revert lo. induction l1 as [|y l1 IH]; intros lo (H1 & H2 & H3 & H4); simpl in *.
  - apply (sorted_weaken (mi_addr x + 1)); [lia|done].
  - split; [lia|]. split; [lia|]. apply IH. intuition lia.
Qed.

(** So does adding one in its place. *)
Lemma sorted_insert lo hi l1 x l2 :
  sorted lo hi (l1 ++ l2) -> Forall (fun y => mi_addr y < mi_addr x) l1 ->
  lo <= mi_addr x < hi -> 0 <= mi_type x -> sorted (mi_addr x + 1) hi l2 ->
  sorted lo hi (l1 ++ x :: l2).
Proof.
  intros Hs Hl1. revert lo Hs. induction Hl1 as [|y l1 Hy _ IH]; intros lo Hs Hx Ht H2; [done|].
  simpl in *. destruct Hs as (Hs & Hs' & Hs''). split; [done|]. split; [done|]. apply IH; [done|lia|done|done].
Qed.

(** Changing the type of an entry does, too. *)
Lemma sorted_type lo hi l1 x t l2 :
  0 <= t -> sorted lo hi (l1 ++ x :: l2) -> sorted lo hi (l1 ++ mk_meminfo t (mi_addr x) :: l2).
Proof. rewrite !sorted_app. simpl. intuition. Qed.

Lemma head_app (l1 : list meminfo) l2 l3 : l1 <> [] -> head (l1 ++ l2) = head (l1 ++ l3).
Proof. by destruct l1. Qed.

(** ** Splitting and merging *)

(** The slots before the split, the entry at the address and the ones behind;
    [added] entries continue the type before them. *)
Lemma split_search_ok hi addr prev l lo :
  sorted lo hi l -> (prev <> None \/ end_of l <= addr /\ l <> []) ->
  exists l1 x l2 added,
    split_search false addr prev l = Ret (l1 ++ x :: l2, length l1, added) /\
    mi_addr x = addr /\ Forall (fun y => mi_addr y < addr) l1 /\
    l = l1 ++ (if added : bool then l2 else x :: l2) /\
    sorted (addr + 1) hi l2 /\
    (added = true -> mi_type x = end_type (match prev with Some p => mi_type p | None => MEMTYPE_NDEF end) l1).
Proof.
  revert prev lo. induction l as [|y l IH]; intros prev lo Hs Hp.
  { destruct prev as [p|]; [|tauto].
    exists [], (mk_meminfo (mi_type p) addr), [], true. by repeat split. }
  simpl in Hs. destruct Hs as (Hy & Hty & Hs). simpl split_search.
  destruct (Z.ltb_spec (mi_addr y) addr) as [Hlt|Hge].
  - destruct (IH (Some y) (mi_addr y + 1) Hs) as (l1 & x & l2 & added & -> & Hx & Hl1 & -> & Hs2 & Ht).
    { by left. }
    exists (y :: l1), x, l2, added. split; [done|]. split; [done|].
    split; [by apply Forall_cons|]. split; [done|]. split; [done|].
    intros Ha. rewrite (Ht Ha), end_type_cons. done.
  - destruct (Z.eqb_spec (mi_addr y) addr) as [E|E].
    + exists [], y, l, false. subst addr. by repeat split.
    + exists [], (mk_meminfo (match prev with None => MEMTYPE_NDEF | Some p => mi_type p end) addr), (y :: l), true.
      repeat split; simpl; try done; lia.
Qed.

Lemma typeof_split t hi l1 x l2 (added : bool) a :
  Forall (fun y => mi_addr y < mi_addr x) l1 -> sorted (mi_addr x + 1) hi l2 ->
  (added = true -> mi_type x = end_type t l1) ->
  typeof t (l1 ++ x :: l2) a = typeof t (l1 ++ (if added then l2 else x :: l2)) a.
Proof.
  intros Hl1 Hs Ht. destruct added; [|done].
  destruct (Z.le_gt_cases (mi_addr x) a) as [H|H].
  - rewrite !typeof_app_hi by (eapply Forall_impl; [exact Hl1|simpl; lia]).
    simpl. rewrite (proj2 (Z.leb_le _ _)) by done. by rewrite Ht.
  - rewrite !typeof_app_lo; [done|destruct l2; simpl in *; [done|lia]|by simpl].
Qed.

Lemma split_at_ok W v addr :
  infos_ok W (live v) -> stale v <> [] -> 0 <= addr < W ->
  exists l1 x l2 added,
    meminfo_split_at v addr =
      Ret (mk_infos (l1 ++ x :: l2) (if added : bool then tail (stale v) else stale v), length l1) /\
    mi_addr x = addr /\ live v = l1 ++ (if added then l2 else x :: l2) /\
    (added = true -> mi_type x = end_type MEMTYPE_NDEF l1) /\
    infos_ok W (l1 ++ x :: l2) /\
    forall a, typeof MEMTYPE_NDEF (l1 ++ x :: l2) a = memtype v a.
Proof.
  intros [Hs Hh] Hst Ha. unfold meminfo_split_at.
  replace (match stale v with [] => true | _ => false end) with false by (by destruct (stale v)).
  destruct (split_search_ok W addr None (live v) 0) as (l1 & x & l2 & added & -> & Hx & Hl1 & El & Hs2 & Ht); [done| |].
  { right. destruct (live v) as [|y l]; [done|]. simpl in *. injection Hh as ->. split; [lia|done]. }
  exists l1, x, l2, added. split; [done|]. split; [done|]. split; [done|]. split; [done|].
  subst addr. split; [|intros a; unfold memtype; rewrite El; by eapply typeof_split].
  rewrite El in Hs, Hh. assert (sorted 0 W (l1 ++ x :: l2)) as Hs'.
  { destruct added; [|done]. clear Hh El. specialize (Ht eq_refl).
    assert (0 <= mi_type x).
    { rewrite Ht. unfold end_type. destruct (last l1) as [y|] eqn:Ey; [|done].
      apply sorted_below in Hs. rewrite Forall_forall in Hs. apply (Hs y), elem_of_app. left.
      by apply last_Some_elem_of. }
    by apply sorted_insert. }
  split; [done|]. destruct l1 as [|y l1]; [|done]. simpl in *. f_equal.
  destruct added; simpl in *; [|by injection Hh].
  destruct l2 as [|y l2]; [done|]. simpl in *. injection Hh as Hh. lia.
Qed.

(** Deleting an entry that has the type of the entry before it. *)
Lemma typeof_delete t l1 x l2 a :
  l1 <> [] -> sorted 0 (mi_addr x) l1 -> mi_type x = end_type t l1 ->
  (l2 <> [] -> mi_addr x < end_of l2) ->
  typeof t (l1 ++ l2) a = typeof t (l1 ++ x :: l2) a.
Proof.
  intros Hne Hs Ht Hl2. destruct (Z.le_gt_cases (mi_addr x) a) as [H|H].
  - rewrite !typeof_app_hi by (eapply Forall_impl; [by apply sorted_below|simpl; lia]).
    simpl. by rewrite (proj2 (Z.leb_le _ _)), Ht by done.
  - rewrite !typeof_app_lo; [done|simpl; lia|]. intros Hne2. specialize (Hl2 Hne2). lia.
Qed.

Lemma delete_ok v l1 x l2 :
  live v = l1 ++ x :: l2 ->
  exists v', MEMINFO_DELETE (length l1) v = Ret v' /\ live v' = l1 ++ l2.
Proof.
  intros E. unfold MEMINFO_DELETE. destruct (last (live v)) as [y|] eqn:Ey.
  - rewrite E, (proj2 (Nat.ltb_lt _ _)) by (rewrite length_app; simpl; lia). cbn [oassert].
    eexists. split; [done|]. cbn [live]. rewrite take_app_length.
    rewrite drop_app_ge by lia. by replace (S (length l1) - length l1)%nat with 1%nat by lia.
  - apply last_None in Ey. rewrite Ey in E. by destruct l1.
Qed.

Lemma slot_live v l1 x l2 : live v = l1 ++ x :: l2 -> slot v (length l1) = Some x.
Proof.
  intros E. unfold slot. rewrite E, <- app_assoc, lookup_app_r, Nat.sub_diag by lia. done.
Qed.

Lemma type_live v l1 x l2 : live v = l1 ++ x :: l2 -> type_at v (length l1) = mi_type x.
Proof. intros E. unfold type_at. by rewrite (slot_live v l1 x l2). Qed.

Lemma addr_live v l1 x l2 : live v = l1 ++ x :: l2 -> addr_at v (length l1) = mi_addr x.
Proof. intros E. unfold addr_at. by rewrite (slot_live v l1 x l2). Qed.

Lemma merge_ok W v i :
  infos_ok W (live v) -> (i < length (live v))%nat ->
  exists v', meminfo_merge_with_prev v i = Ret v' /\ infos_ok W (live v') /\
    (forall a, memtype v' a = memtype v a) /\
    (live v' = live v \/
     exists l1 p x l2, live v = l1 ++ p :: x :: l2 /\ i = S (length l1) /\
       mi_type p = mi_type x /\ live v' = l1 ++ p :: l2).
Proof.
  intros [Hs Hh] Hi. destruct i as [|i]; [exists v; by repeat split; auto|].
  destruct (lookup_lt_is_Some_2 (live v) i ltac:(lia)) as [p Hp].
  destruct (lookup_lt_is_Some_2 (live v) (S i) Hi) as [x Hx].
  apply list_elem_of_split_length in Hp as (l1 & r & E & ->).
  rewrite E, lookup_app_r in Hx by lia. replace (S (length l1) - length l1)%nat with 1%nat in Hx by lia.
  destruct r as [|y l2]; [done|]. injection Hx as ->. simpl meminfo_merge_with_prev.
  rewrite (type_live v l1 p _ E).
  assert (live v = (l1 ++ [p]) ++ x :: l2) as E' by (by rewrite <- app_assoc).
  assert (S (length l1) = length (l1 ++ [p])) as El by (rewrite length_app; simpl; lia).
  rewrite El, (type_live v _ _ _ E').
  destruct (Z.eqb_spec (mi_type p) (mi_type x)) as [Et|]; [|exists v; by repeat split; auto].
  destruct (delete_ok v _ _ _ E') as (v' & -> & Ev'). exists v'. split; [done|].
  unfold infos_ok, memtype. rewrite E' in Hs, Hh. rewrite Ev', E'.
  split; [|split].
  - split; [by eapply sorted_drop|]. rewrite (head_app (l1 ++ [p]) l2 (x :: l2)); [done|]. by destruct l1.
  - intros a. apply sorted_app in Hs as (H1 & H2 & H3 & H4).
    apply typeof_delete; [by destruct l1|done|by rewrite end_type_snoc|].
    destruct l2; simpl in *; [done|lia].
  - right. exists l1, p, x, l2. by rewrite <- !app_assoc.
Qed.

(** What two adjacent entries say. *)
Lemma typeof_before t hi l1 p x l2 :
  sorted 0 hi (l1 ++ p :: x :: l2) ->
  typeof t (l1 ++ p :: x :: l2) (mi_addr x - 1) = mi_type p.
Proof.
  intros Hs. apply sorted_app in Hs as (H1 & H2 & H3 & H4). simpl in H4.
  rewrite typeof_app_hi by (eapply Forall_impl; [by apply sorted_below|simpl; lia]).
  simpl. rewrite (proj2 (Z.leb_le _ _)), (proj2 (Z.leb_gt _ _)) by lia. done.
Qed.

Lemma canonical_distinct W v pre rest :
  infos_ok W (live v) -> canonical v -> live v = pre ++ rest -> distinct pre.
Proof.
  intros [Hs _] Hc E l1 p x l2 -> Ht.
  assert (live v = l1 ++ p :: x :: (l2 ++ rest)) as E' by (by rewrite E, <- app_assoc).
  apply (Hc x).
  - rewrite E'. apply elem_of_app. right. apply elem_of_cons. right. apply elem_of_cons. by left.
  - rewrite E' in Hs. apply sorted_app in Hs as (H1 & H2 & H3 & H4). simpl in H4. lia.
  - unfold memtype. rewrite E' in *. by rewrite (typeof_before _ W).
Qed.

Lemma typeof_noram t l a :
  t <> MEMTYPE_RAM -> Forall (fun y => mi_type y <> MEMTYPE_RAM) l -> typeof t l a <> MEMTYPE_RAM.
Proof. intros Ht H. revert t Ht. induction H; intros t Ht; simpl; [done|]. bcase; auto. Qed.

Lemma typeof_here t hi l x : sorted 0 hi l -> x ∈ l -> typeof t l (mi_addr x) = mi_type x.
Proof.
  intros Hs (l1 & l2 & ->)%list_elem_of_split. apply sorted_app in Hs as (H1 & H2 & H3 & H4).
  rewrite typeof_app_hi by (eapply Forall_impl; [by apply sorted_below|simpl; lia]).
  simpl. rewrite Z.leb_refl. apply (typeof_app_lo _ [] l2). destruct l2; simpl in *; [done|lia].
Qed.

(** ** One round of the installation *)

Fixpoint dropram (l : list meminfo) : list meminfo :=
  match l with
  | [] => []
  | x :: l' => if mi_type x =? MEMTYPE_RAM then dropram l' else l
  end.

Lemma dropram_split l : exists r, l = r ++ dropram l /\ Forall (fun x => mi_type x = MEMTYPE_RAM) r.
Proof.
  induction l as [|x l (r & E & Hr)]; [by exists []|]. simpl.
  destruct (Z.eqb_spec (mi_type x) MEMTYPE_RAM); [|by exists []].
  exists (x :: r). split; [by rewrite E at 1|by apply Forall_cons].
Qed.

Lemma drop_next_ram_ok fuel v iter stop l rest :
  live v = l ++ rest -> S iter = length l -> (length rest < fuel)%nat ->
  exists v', drop_next_ram fuel v iter stop =
      Ret (v', stop - (length rest - length (dropram rest)))%nat /\
    live v' = l ++ dropram rest.
Proof.
  revert v stop rest. induction fuel as [|fuel IH]; intros v stop rest E Hi Hf; [lia|].
  cbn [drop_next_ram]. unfold MEMINFO_HASNEXT. rewrite Hi, E, length_app.
  destruct rest as [|x rest].
  { rewrite (proj2 (Nat.eqb_eq _ _)) by (simpl; lia). exists v. split; [|done]. do 2 f_equal. simpl. lia. }
  rewrite (proj2 (Nat.eqb_neq _ _)) by (simpl; lia). rewrite (type_live v l x rest E). simpl.
  destruct (Z.eqb_spec (mi_type x) MEMTYPE_RAM) as [Ex|Ex].
  - destruct (delete_ok v l x rest E) as (v1 & -> & E1). cbn [obind].
    destruct (IH v1 (pred stop) rest E1 Hi) as (v' & -> & E'); [simpl in Hf; lia|].
    exists v'. split; [|done]. do 2 f_equal.
    destruct (dropram_split rest) as (r & Er & _). apply (f_equal length) in Er.
    rewrite length_app in Er. lia.
  - exists v. split; [|done]. do 2 f_equal. simpl. lia.
Qed.

(** The entries up to the current one after both merge lines. *)
Definition merged (l : list meminfo) (x : meminfo) : list meminfo :=
  match last l with
  | Some p => if mi_type p =? MEMTYPE_RAM then l else l ++ [x]
  | None => l ++ [x]
  end.

Lemma merge_ram_ok v l x rest stop :
  live v = l ++ x :: rest ->
  exists v' iter', merge_ram v (length l) stop =
      Ret (v', iter', (stop + length (merged l x) - S (length l))
                      - (length rest - length (dropram rest)))%nat /\
    live v' = merged l x ++ dropram rest /\ S iter' = length (merged l x).
Proof.
  intros E. unfold merge_ram, merged.
  destruct (last l) as [p|] eqn:El.
  - apply last_Some in El as [l' ->]. rewrite length_app, Nat.add_comm. simpl length. cbn [Nat.add].
    assert (live v = l' ++ p :: x :: rest) as E' by (by rewrite E, <- app_assoc).
    rewrite (type_live v l' p _ E').
    destruct (mi_type p =? MEMTYPE_RAM).
    + destruct (delete_ok v (l' ++ [p]) x rest E) as (v1 & Hd & E1).
      rewrite length_app, Nat.add_comm in Hd. simpl in Hd. rewrite Hd. cbn [obind].
      destruct (drop_next_ram_ok (S (length (live v1))) v1 (length l') (pred stop) (l' ++ [p]) rest E1)
        as (v' & -> & E''); [rewrite length_app; simpl; lia|rewrite E1, length_app; lia|].
      exists v', (length l'). split; [|split; [done|rewrite length_app; simpl; lia]].
      cbn [obind]. do 2 f_equal. rewrite length_app. simpl. lia.
    + cbn [obind].
      destruct (drop_next_ram_ok (S (length (live v))) v (S (length l')) stop ((l' ++ [p]) ++ [x]) rest)
        as (v' & -> & E''); [by rewrite E, <- !app_assoc|rewrite !length_app; simpl; lia|
          rewrite E, !length_app; simpl; lia|].
      exists v', (S (length l')). split; [|split; [done|rewrite !length_app; simpl; lia]].
      cbn [obind]. do 2 f_equal. rewrite !length_app. simpl. lia.
  - apply last_None in El as ->. cbn [app length obind] in *.
    destruct (drop_next_ram_ok (S (length (live v))) v O stop [x] rest E)
      as (v' & -> & E''); [done|rewrite E; simpl; lia|].
    exists v', O. split; [|by split]. cbn [obind]. do 2 f_equal. lia.
Qed.

Lemma set_type_live v l x rest type :
  live v = l ++ x :: rest ->
  live (set_type (length l) type v) = l ++ mk_meminfo type (mi_addr x) :: rest.
Proof.
  intros E. unfold set_type. cbn [live]. rewrite E.
  rewrite alter_app_r_alt, Nat.sub_diag by lia. done.
Qed.

(** ** The loop of the installation

    The vector of the loop is [pre ++ mid ++ post] at first, with the entries to
    update in [mid].  Later it is [(pre ++ d) ++ todo ++ post'], where the entries
    [proc] have been processed or merged. *)

Section Loop.

Context (W : Z) (spec : mzonespec) `{!ZoneSpec W spec}.
Variables (REF VM_HOST_BASE : Z).
Hypothesis host_above : phys_end spec <= VM_HOST_BASE.

Variables (base aend type : Z) (pre mid post : list meminfo) (st0 : pages).
Hypothesis orig_ok : infos_ok W (pre ++ mid ++ post).
Hypothesis pre_below : Forall (fun x => mi_addr x < base) pre.
Hypothesis mid_in : Forall (fun x => base <= mi_addr x < aend) mid.
Hypothesis mid_first : mi_addr <$> head mid = Some base.
Hypothesis post_first : mi_addr <$> head post = Some aend.
Hypothesis post_last : forall x, last post = Some x -> mi_type x <> MEMTYPE_RAM.
Hypothesis end_room : aend + PAGESIZE <= W.
Hypothesis type_pos : 0 <= type.
Hypothesis type_ok :
  type = MEMTYPE_RAM \/ Forall (fun x => mi_type x <> MEMTYPE_RAM) (pre ++ mid ++ post).

Definition old (a : Z) : Z := typeof MEMTYPE_NDEF (pre ++ mid ++ post) a.
Definition new (a : Z) : Z :=
  if (base <=? a) && (a <? aend) then Z.max type (old a) else old a.

(** The memory that became available: whole pages of entries that were not used. *)
Definition added (proc rest : list meminfo) (x : Z) : Prop :=
  x < phys_end spec /\
  exists l1 y l2, proc = l1 ++ y :: l2 /\ mi_type y < MEMTYPE_RAM /\
    CEIL_ALIGN W (mi_addr y) PAGESIZE <= x < FLOOR_ALIGN (end_of (l2 ++ rest)) PAGESIZE.

Record loop_inv (st : pages) (d proc todo post' : list meminfo) : Prop := {
  li_orig : mid ++ post = proc ++ todo ++ post';
  li_ok : infos_ok W ((pre ++ d) ++ todo ++ post');
  li_post : exists y, last post' = Some y /\ last post = Some y;
  li_suffix : exists k, post = k ++ post' /\ Forall (fun x => mi_type x = MEMTYPE_RAM) k;
  li_same : todo <> [] -> post' = post;
  li_todo : Forall (fun x => base <= mi_addr x < aend) todo;
  li_new a : a < end_of (todo ++ post') -> typeof MEMTYPE_NDEF (pre ++ d) a = new a;
  li_first : mi_addr <$> head d = Some base \/ end_type (-1) pre = MEMTYPE_RAM \/ d = [] /\ proc = [];
  li_noram : type <> MEMTYPE_RAM -> Forall (fun x => mi_type x <> MEMTYPE_RAM) (pre ++ d);
  li_pages : pages_inv spec st;
  li_free a : is_free st a -> typeof MEMTYPE_NDEF ((pre ++ d) ++ todo ++ post') a = MEMTYPE_RAM;
  li_added a : is_free st a <->
    is_free st0 a \/ type = MEMTYPE_RAM /\ added proc (todo ++ post') a
}.

Lemma below_x proc x rest :
  mid ++ post = proc ++ x :: rest ->
  sorted 0 (mi_addr x) (pre ++ proc) /\ 0 <= mi_addr x < W /\ 0 <= mi_type x /\
  sorted (mi_addr x + 1) W rest.
Proof.
  intros E. destruct orig_ok as [Hs _]. rewrite E, app_assoc, sorted_app in Hs. intuition.
Qed.

Lemma sorted_end lo hi rest : sorted lo hi rest -> rest <> [] -> lo <= end_of rest.
Proof. destruct rest; simpl; [done|lia]. Qed.

Lemma old_at proc x rest a :
  mid ++ post = proc ++ x :: rest -> mi_addr x <= a -> (rest <> [] -> a < end_of rest) ->
  old a = mi_type x.
Proof.
  intros E Hx Ha. destruct (below_x _ _ _ E) as (Hs & _). unfold old. rewrite E, app_assoc.
  rewrite typeof_app_hi by (eapply Forall_impl; [by apply sorted_below|simpl; lia]).
  simpl. rewrite (proj2 (Z.leb_le _ _)) by done. by rewrite (typeof_app_lo _ [] rest).
Qed.

(** At or behind the first of the remaining entries these decide. *)
Lemma typeof_rest t l x rest a :
  sorted 0 (mi_addr x) l -> mi_addr x <= a ->
  typeof t (l ++ x :: rest) a = typeof (mi_type x) rest a.
Proof.
  intros Hs Ha. rewrite typeof_app_hi by (eapply Forall_impl; [by apply sorted_below|simpl; lia]).
  simpl. by rewrite (proj2 (Z.leb_le _ _)).
Qed.

Lemma added_snoc proc y rest x :
  added (proc ++ [y]) rest x <->
  added proc (y :: rest) x \/
  x < phys_end spec /\ mi_type y < MEMTYPE_RAM /\
    CEIL_ALIGN W (mi_addr y) PAGESIZE <= x < FLOOR_ALIGN (end_of rest) PAGESIZE.
Proof.
  unfold added. split.
  - intros (Hp & l1 & z & l2 & E & Ht & Hx). destruct l2 as [|w l2 _] using rev_ind.
    + apply app_inj_tail in E as [-> ->]. by right.
    + rewrite app_comm_cons, app_assoc in E. apply app_inj_tail in E as [-> ->].
      left. split; [done|]. exists l1, z, l2. by rewrite <- app_assoc in Hx.
  - intros [(Hp & l1 & z & l2 & -> & Ht & Hx)|(Hp & Ht & Hx)].
    + split; [done|]. exists l1, z, (l2 ++ [y]). by rewrite <- !app_assoc.
    + split; [done|]. by exists proc, y, [].
Qed.

Lemma added_ram proc r rest x :
  Forall (fun y => mi_type y = MEMTYPE_RAM) r -> added (proc ++ r) rest x <-> added proc (r ++ rest) x.
Proof.
  revert rest. induction r as [|y r IH] using rev_ind; intros rest Hr; [by rewrite app_nil_r|].
  apply Forall_app in Hr as [Hr Hy]. rewrite Forall_singleton in Hy.
  rewrite app_assoc, added_snoc, IH by done. rewrite <- app_assoc. cbn [app].
  split; [intros [H|(_ & H & _)]; [done|exfalso; lia]|by left].
Qed.

(** An entry of a greater type stays. *)
Lemma step_skip st d proc x todo post' :
  loop_inv st d proc (x :: todo) post' -> type < mi_type x ->
  loop_inv st (d ++ [x]) (proc ++ [x]) todo post'.
Proof.
  intros [H1 H2 H3 HS H4 H5 H6 H7 H8 H9 H10 H11] Hx.
  pose proof (below_x proc x (todo ++ post') H1) as (Hs & Hxa & Hxt & Hr).
  assert (todo ++ post' <> []) as Hne.
  { destruct H3 as (y & Hy & _). destruct post'; [done|]. by destruct todo. }
  pose proof (sorted_end _ _ _ Hr Hne) as He. destruct H2 as [H2 Hh].
  pose proof H2 as H2'. cbn [app] in H2'. rewrite sorted_app in H2'.
  apply Forall_cons in H5 as [Hxr H5].
  split; rewrite ?(app_assoc pre d [x]); try (by rewrite <- !app_assoc); try done.
  - unfold infos_ok. by rewrite <- (app_assoc (pre ++ d)).
  - intros _. by apply H4.
  - intros a Ha. destruct (Z.le_gt_cases (mi_addr x) a).
    + rewrite (typeof_rest _ (pre ++ d) x []) by tauto. simpl. unfold new.
      rewrite (old_at proc x (todo ++ post')) by done. destruct (_ && _); lia.
    + rewrite typeof_app_lo by (simpl; lia). apply H6. simpl. lia.
  - destruct H7 as [H7|[H7|[-> ->]]]; [left|by right; left|left].
    + by destruct d.
    + simpl. cbn [app] in H1. destruct mid as [|m0 mid']; [done|]. injection H1 as <- _. done.
  - intros Ht. apply Forall_app. split; [by apply H8|]. apply Forall_singleton.
    destruct type_ok as [|Hn]; [done|]. rewrite H1 in Hn. rewrite Forall_forall in Hn. apply Hn.
    rewrite app_assoc. apply elem_mid.
  - intros a Ha. rewrite <- (app_assoc (pre ++ d)). by apply H10.
  - intros a. rewrite H11, added_snoc. cbn [app].
    split; [intros [?|[? ?]]; auto|intros [?|[Ht [?|(_ & Hy & _)]]]; auto]. exfalso. lia.
Qed.

(** The memory one round makes available. *)
Definition piece (x : meminfo) (rest : list meminfo) (a : Z) : Prop :=
  a < phys_end spec /\ mi_type x < MEMTYPE_RAM /\
  CEIL_ALIGN W (mi_addr x) PAGESIZE <= a < FLOOR_ALIGN (end_of rest) PAGESIZE.

Lemma rest_end v l x rest :
  live v = l ++ x :: rest -> rest <> [] -> MEMINFO_END v (length l) = end_of rest.
Proof.
  intros E Hne. unfold MEMINFO_END, MEMINFO_HASNEXT. rewrite E, length_app.
  destruct rest as [|y rest]; [done|]. rewrite (proj2 (Nat.eqb_neq _ _)) by (simpl; lia). simpl.
  replace (S (length l)) with (length (l ++ [x])) by (rewrite length_app; simpl; lia).
  apply (addr_live v _ y rest). by rewrite E, <- app_assoc.
Qed.

Lemma install_pages_ram st v l x rest :
  pages_inv spec st -> live v = l ++ x :: rest -> rest <> [] -> mi_type x <= MEMTYPE_RAM ->
  0 <= mi_addr x <= end_of rest -> mi_addr x + PAGESIZE <= W -> end_of rest <= W ->
  (forall a, mi_type x <> MEMTYPE_RAM -> mi_addr x <= a < end_of rest -> ~ is_free st a) ->
  exists bytes st', install_pages W REF spec VM_HOST_BASE st v (length l) MEMTYPE_RAM = Ret (bytes, st') /\
    pages_inv spec st' /\ forall a, is_free st' a <-> is_free st a \/ piece x rest a.
Proof.
  intros Hi E Hne Hmt Hx HW He Hd. unfold install_pages. cbn [Z.leb MEMTYPE_RAM MEMTYPE_ALLOCATED Z.compare Pos.compare Pos.compare_cont].
  rewrite (rest_end v l x rest E Hne), (addr_live v l x rest E), (type_live v l x rest E).
  destruct (ceil_page W (mi_addr x)) as [Hc1 Hc2]; [lia|done|].
  destruct (floor_page (end_of rest)) as (Hf1 & Hf2); [lia|].
  unfold piece, MEMTYPE_ISUSE.
  remember (CEIL_ALIGN W (mi_addr x) PAGESIZE) as b eqn:Eb.
  remember (FLOOR_ALIGN (end_of rest) PAGESIZE) as e eqn:Ee.
  destruct (Z.ltb_spec b e) as [Hbe|Hbe].
  2: { exists 0, st. split; [done|]. split; [done|]. intros a. intuition lia. }
  rewrite Z.eqb_refl. destruct (Z.eqb_spec (mi_type x) MEMTYPE_RAM) as [Et|Et]; cbn [negb].
  { exists 0, st. split; [done|]. split; [done|]. intros a. intuition lia. }
  destruct (do_addmemory_ok W spec VM_HOST_BASE host_above st b (e - b)) as (st' & -> & Hg);
    try done; try lia; [mlia..| |].
  { intros a Ha. apply Hd; [done|]. unfold inside in Ha. mlia. }
  exists (e - b), st'. split; [done|]. destruct Hg as (Hi' & Hf' & _). split; [done|].
  intros a. rewrite Hf'. unfold inside. intuition lia.
Qed.

Lemma install_pages_other st v l x rest :
  live v = l ++ x :: rest -> type <> MEMTYPE_RAM -> mi_type x <> MEMTYPE_RAM ->
  exists bytes, install_pages W REF spec VM_HOST_BASE st v (length l) type = Ret (bytes, st).
Proof.
  intros E Ht Hx. unfold install_pages. rewrite (type_live v l x rest E). unfold MEMTYPE_ISUSE.
  rewrite (proj2 (Z.eqb_neq type _)), (proj2 (Z.eqb_neq (mi_type x) _)) by done.
  repeat bcase; by eexists.
Qed.

Lemma orig_elem proc x rest : mid ++ post = proc ++ x :: rest -> x ∈ pre ++ mid ++ post.
Proof. intros E. rewrite E, app_assoc. apply elem_mid. Qed.

Lemma post_end : end_of post = aend.
Proof. clear -post_first. destruct post; [done|]. by injection post_first. Qed.

(** The facts about the entry of a round. *)
Lemma round_facts st d proc x todo post' :
  loop_inv st d proc (x :: todo) post' ->
  base <= mi_addr x < aend /\ 0 <= mi_addr x < W /\ todo ++ post' <> [] /\
  mi_addr x < end_of (todo ++ post') <= aend /\ sorted 0 (mi_addr x) (pre ++ d).
Proof.
  intros [H1 H2 H3 HS H4 H5 H6 H7 H8 H9 H10 H11].
  pose proof (below_x proc x (todo ++ post') H1) as (Hs & Hxa & Hxt & Hr).
  assert (todo ++ post' <> []) as Hne.
  { destruct H3 as (y & Hy & _). destruct post'; [done|]. by destruct todo. }
  pose proof (sorted_end _ _ _ Hr Hne) as He.
  apply Forall_cons in H5 as [Hxr H5].
  destruct H2 as [H2 _]. cbn [app] in H2. rewrite sorted_app in H2.
  split; [done|]. split; [done|]. split; [done|]. split; [|tauto]. split; [lia|].
  rewrite H4 by done. destruct todo as [|y todo]; simpl.
  - rewrite post_end. done.
  - apply Forall_cons in H5. lia.
Qed.

(** The types after a round that leaves type [type] up to the next entry. *)
Lemma new_at st d proc x todo post' a :
  loop_inv st d proc (x :: todo) post' -> mi_type x <= type ->
  mi_addr x <= a < end_of (todo ++ post') -> new a = type.
Proof.
  intros HI Ht Ha. destruct (round_facts _ _ _ _ _ _ HI) as (Hx & _ & Hne & He & _).
  unfold new. rewrite (old_at proc x (todo ++ post') a (li_orig _ _ _ _ _ HI)) by (intros; lia).
  rewrite (proj2 (Z.leb_le _ _)), (proj2 (Z.ltb_lt _ _)) by lia. simpl. lia.
Qed.

Lemma first_snoc d x proc rest :
  mid ++ post = proc ++ x :: rest ->
  (mi_addr <$> head d = Some base \/ end_type (-1) pre = MEMTYPE_RAM \/ d = [] /\ proc = []) ->
  mi_addr <$> head (d ++ [mk_meminfo type (mi_addr x)]) = Some base \/
  end_type (-1) pre = MEMTYPE_RAM.
Proof.
  intros E [H|[H|[-> ->]]]; [left; by destruct d|by right|left]. simpl.
  destruct mid as [|m0 mid']; [done|]. injection E as -> _. done.
Qed.

(** No RAM anywhere: the entry takes the type. *)
Lemma step_other st d proc x todo post' :
  loop_inv st d proc (x :: todo) post' -> type <> MEMTYPE_RAM -> mi_type x <= type ->
  loop_inv st (d ++ [mk_meminfo type (mi_addr x)]) (proc ++ [x]) todo post'.
Proof.
  intros HI Hty Hx. pose proof (round_facts _ _ _ _ _ _ HI) as (Hxr & Hxa & Hne & He & Hs).
  pose proof (fun a => new_at _ _ _ _ _ _ a HI Hx) as Hnew.
  destruct HI as [H1 H2 H3 HS H4 H5 H6 H7 H8 H9 H10 H11].
  apply Forall_cons in H5 as [_ H5]. destruct H2 as [H2 Hh].
  split; rewrite ?(app_assoc pre d); try (by rewrite <- !app_assoc); try done.
  - unfold infos_ok. rewrite <- (app_assoc (pre ++ d)). split; [by apply sorted_type|].
    destruct (pre ++ d); [by simpl in *|]. done.
  - intros _. by apply H4.
  - intros a Ha. destruct (Z.le_gt_cases (mi_addr x) a).
    + rewrite (typeof_rest _ (pre ++ d) _ []) by (simpl; done). simpl. by rewrite Hnew.
    + rewrite typeof_app_lo by (simpl; lia). apply H6. simpl. lia.
  - destruct (first_snoc _ _ _ _ H1 H7); [by left|by right; left].
  - intros _. apply Forall_app. split; [by apply H8|]. by rewrite Forall_singleton.
  - intros a Ha. exfalso. specialize (H10 a Ha). destruct type_ok as [|Hn]; [done|].
    assert (Forall (fun y => mi_type y <> MEMTYPE_RAM) ((pre ++ d) ++ (x :: todo) ++ post')) as Hall.
    { apply Forall_app. split; [by apply H8|]. rewrite H1, !Forall_app in Hn. rewrite Forall_app. tauto. }
    by apply (typeof_noram MEMTYPE_NDEF _ a) in Hall.
  - intros a. rewrite H11. intuition.
Qed.


Lemma sorted_drops lo hi l1 r l2 : sorted lo hi (l1 ++ r ++ l2) -> sorted lo hi (l1 ++ l2).
Proof. induction r as [|x r IH]; [done|]. intros H. by apply IH, (sorted_drop _ _ _ x). Qed.

(** The entries up to the current one when it becomes RAM. *)
Lemma merged_cases d x :
  exists d', merged (pre ++ d) x = pre ++ d' /\
    (d' = d /\ pre ++ d <> [] /\ (forall t, end_type t (pre ++ d) = MEMTYPE_RAM) \/ d' = d ++ [x]).
Proof.
  unfold merged, end_type. destruct (last (pre ++ d)) as [p|] eqn:E.
  - destruct (Z.eqb_spec (mi_type p) MEMTYPE_RAM) as [Hp|Hp].
    + exists d. split; [done|]. left. split; [done|]. split; [|done]. intros H. by rewrite H in E.
    + exists (d ++ [x]). by rewrite app_assoc; auto.
  - exists (d ++ [x]). by rewrite app_assoc; auto.
Qed.

Section StepRam.

Variables (st st' : pages) (d proc : list meminfo) (x : meminfo) (todo post' r R : list meminfo).
Hypothesis HI : loop_inv st d proc (x :: todo) post'.
Hypothesis Hty : type = MEMTYPE_RAM.
Hypothesis Hx : mi_type x <= MEMTYPE_RAM.
Hypothesis HR : todo ++ post' = r ++ R.
Hypothesis Hr : Forall (fun y => mi_type y = MEMTYPE_RAM) r.
Hypothesis Hpages : pages_inv spec st'.
Hypothesis Hfree : forall a, is_free st' a <-> is_free st a \/ piece x (todo ++ post') a.
Variable d' : list meminfo.
Hypothesis Hd' : d' = d /\ pre ++ d <> [] /\ (forall t, end_type t (pre ++ d) = MEMTYPE_RAM) \/
  d' = d ++ [mk_meminfo type (mi_addr x)].

Lemma ram_left : (length r < length todo + length post')%nat.
Proof.
  destruct (li_post _ _ _ _ _ HI) as (y & Hy & Hy'). apply post_last in Hy'.
  destruct (Nat.lt_ge_cases (length r) (length todo + length post')) as [|Hge]; [done|].
  exfalso. apply Hy'. pose proof HR as E. apply (f_equal length) in E. rewrite !length_app in E.
  destruct R; [|simpl in E; lia]. rewrite app_nil_r in HR. rewrite <- HR, Forall_app in Hr.
  destruct Hr as [_ Hr']. rewrite Forall_forall in Hr'. apply Hr'. by apply last_Some_elem_of.
Qed.

Lemma ram_rest : R = drop (length r) todo ++ drop (length r - length todo) post' /\ R <> [].
Proof.
  pose proof ram_left. split.
  - by rewrite <- drop_app, HR, drop_app_length.
  - intros ->. pose proof HR as E. apply (f_equal length) in E. rewrite !length_app in E. simpl in E. lia.
Qed.

Lemma ram_order : mi_addr x < end_of (todo ++ post') <= end_of R.
Proof.
  pose proof (round_facts _ _ _ _ _ _ HI) as (_ & _ & Hne & He & _). split; [lia|].
  pose proof (below_x proc x (todo ++ post') (li_orig _ _ _ _ _ HI)) as (_ & _ & _ & Hs).
  destruct ram_rest as [_ HRne]. rewrite HR in *. destruct r as [|y r']; [done|].
  destruct R as [|z R']; [done|]. simpl in *. destruct Hs as (_ & _ & Hs).
  apply sorted_app in Hs. lia.
Qed.

Lemma ram_ok : infos_ok W ((pre ++ d') ++ R).
Proof.
  pose proof (li_ok _ _ _ _ _ HI) as [Hso Hh]. cbn [app] in Hso, Hh. rewrite HR in Hso, Hh.
  destruct Hd' as [(-> & Hne & _)| ->].
  - split; [by apply (sorted_drops _ _ _ (x :: r))|]. by destruct (pre ++ d).
  - rewrite (app_assoc pre d). split.
    + apply (sorted_drops _ _ ((pre ++ d) ++ [mk_meminfo type (mi_addr x)]) r).
      rewrite <- (app_assoc (pre ++ d)). by apply sorted_type.
    + by destruct (pre ++ d).
Qed.

(** Up to the remaining entries everything is RAM, the rest is unchanged. *)
Lemma ram_types a :
  typeof MEMTYPE_NDEF ((pre ++ d') ++ R) a =
  if (mi_addr x <=? a) && (a <? end_of R) then MEMTYPE_RAM
  else typeof MEMTYPE_NDEF ((pre ++ d) ++ x :: todo ++ post') a.
Proof.
  pose proof ram_order as Ho. destruct ram_rest as [_ HRne].
  pose proof (round_facts _ _ _ _ _ _ HI) as (_ & _ & Hne & He & Hs).
  pose proof (li_ok _ _ _ _ _ HI) as [Hso _]. cbn [app] in Hso. pose proof ram_ok as [Hs' _].
  destruct (Z.ltb_spec a (end_of R)) as [Ha|Ha].
  - rewrite (typeof_app_lo _ (pre ++ d') R) by done.
    destruct (Z.leb_spec (mi_addr x) a) as [Hxa|Hxa]; cbn [andb].
    + destruct Hd' as [(-> & _ & Ht)| ->].
      * rewrite typeof_end; [done|]. eapply Forall_impl; [by apply sorted_below|simpl; lia].
      * rewrite app_assoc, (typeof_rest _ (pre ++ d) _ []) by done. done.
    + rewrite (typeof_app_lo _ (pre ++ d)) by (simpl; lia).
      destruct Hd' as [(-> & _)| ->]; [done|]. rewrite app_assoc. by apply typeof_app_lo.
  - rewrite andb_false_r. rewrite HR in *. destruct R as [|z R'] eqn:ER; [done|]. cbn [end_of] in Ha.
    rewrite typeof_rest by (done || by apply sorted_app in Hs' as [? _]).
    rewrite (app_comm_cons r), app_assoc in *. rewrite typeof_rest; [done| |done].
    by apply sorted_app in Hso as [? _].
Qed.

Lemma ram_new a : mi_addr x <= a < end_of R -> new a = MEMTYPE_RAM.
Proof.
  intros Ha. destruct (Z.lt_ge_cases a (end_of (todo ++ post'))) as [H|H].
  { rewrite <- Hty. apply (new_at _ _ _ _ _ _ a HI); lia. }
  pose proof (li_orig _ _ _ _ _ HI) as E. cbn [app] in E.
  assert (old a = MEMTYPE_RAM) as Eo; [|unfold new; rewrite Eo; destruct (_ && _); lia].
  rewrite HR in *. destruct r as [|y r']; [simpl in *; lia|]. cbn [app end_of] in *.
  apply Forall_cons in Hr as [Hy Hr'].
  assert (mid ++ post = (proc ++ [x]) ++ y :: r' ++ R) as E' by (by rewrite <- app_assoc).
  destruct (below_x _ _ _ E') as (Hs & _). unfold old. rewrite E', app_assoc.
  rewrite typeof_rest by done. rewrite typeof_app_lo, Hy by lia. by apply typeof_const.
Qed.

Lemma ram_added a : is_free st' a <-> is_free st0 a \/ added (proc ++ x :: r) R a.
Proof.
  replace (proc ++ x :: r) with ((proc ++ [x]) ++ r) by (by rewrite <- app_assoc).
  rewrite (added_ram _ _ _ _ Hr), added_snoc, Hfree, (li_added _ _ _ _ _ HI), <- HR.
  unfold piece. cbn [app]. tauto.
Qed.

Lemma step_ram :
  loop_inv st' d' (proc ++ x :: r) (drop (length r) todo) (drop (length r - length todo) post').
Proof.
  pose proof ram_left as Hl. destruct ram_rest as [ER HRne]. pose proof ram_order as Ho.
  pose proof HI as [H1 H2 H3 HS H4 H5 H6 H7 H8 H9 H10 H11]. cbn [app] in H1.
  split; rewrite <- ?ER; try done.
  - rewrite <- app_assoc. simpl. by rewrite <- HR.
  - apply ram_ok.
  - destruct H3 as (y & Hy & Hy'). exists y. split; [|done].
    rewrite last_drop; [done|]. destruct post'; [done|]. simpl in *. lia.
  - destruct HS as (k & -> & Hk). exists (k ++ take (length r - length todo) post').
    rewrite <- app_assoc, take_drop, Forall_app. split; [done|]. split; [done|].
    apply (f_equal (take (length r))) in HR. rewrite take_app_length, take_app in HR.
    rewrite <- HR, Forall_app in Hr. tauto.
  - intros Hne. replace (length r - length todo)%nat with O.
    + by apply H4.
    + destruct (Nat.lt_ge_cases (length r) (length todo)); [lia|]. by rewrite drop_ge in Hne by lia.
  - apply Forall_drop. by apply Forall_cons in H5 as [_ ?].
  - intros a Ha. pose proof (ram_types a) as Et.
    rewrite (typeof_app_lo _ (pre ++ d') R), (proj2 (Z.ltb_lt _ _)), andb_true_r in Et by done.
    rewrite Et. destruct (Z.leb_spec (mi_addr x) a) as [Hxa|Hxa]; [by rewrite ram_new|].
    rewrite typeof_app_lo by (simpl; lia). apply H6. simpl. lia.
  - destruct Hd' as [(-> & _ & Ht)| ->].
    + destruct H7 as [H7|[H7|[-> ->]]]; [by left|by right; left|]. right; left.
      rewrite app_nil_r in Ht. apply Ht.
    + destruct (first_snoc _ _ _ _ H1 H7); [by left|by right; left].
  - intros a Ha. rewrite ram_types. bcase; [done|]. apply Hfree in Ha as [Ha|Ha]; [by apply H10|].
    pose proof (round_facts _ _ _ _ _ _ HI) as (_ & Hx0 & _ & He & _).
    destruct Ha as (_ & _ & Ha).
    destruct (ceil_page W (mi_addr x)) as [Hc1 Hc2]; [lia|unfold PAGESIZE in *; lia|].
    destruct (floor_page (end_of (todo ++ post'))) as [Hf1 _]; [lia|]. lia.
  - intros a. rewrite ram_added. split; (intros [H|H]; [by left|right]); [done|by destruct H].
Qed.

End StepRam.


Lemma loop_start :
  pages_inv spec st0 ->
  (forall a, is_free st0 a -> typeof MEMTYPE_NDEF (pre ++ mid ++ post) a = MEMTYPE_RAM) ->
  loop_inv st0 [] [] mid post.
Proof.
  intros Hp Hf. assert (mid <> []) as Hne by (by destruct mid).
  assert (end_of (mid ++ post) = base) as Hb by (destruct mid; [done|by injection mid_first]).
  split; rewrite ?app_nil_r; try done.
  - destruct (last post) as [y|] eqn:E; [by exists y|]. apply last_None in E. by rewrite E in post_first.
  - by exists [].
  - intros a Ha. unfold new. rewrite (proj2 (Z.leb_gt _ _)) by lia. cbn [andb]. symmetry.
    unfold old. by apply typeof_app_lo.
  - by right; right.
  - intros Ht. destruct type_ok as [|H]; [done|]. by apply Forall_app in H as [? _].
  - intros a. split; [by left|]. intros [?|(_ & _ & l1 & y & l2 & E & _)]; [done|]. by destruct l1.
Qed.

Lemma dropram_none l : Forall (fun y => mi_type y <> MEMTYPE_RAM) l -> dropram l = l.
Proof. destruct 1 as [|y l Hy _]; [done|]. simpl. by rewrite (proj2 (Z.eqb_neq _ _)). Qed.

Lemma merged_none l x : Forall (fun y => mi_type y <> MEMTYPE_RAM) l -> merged l x = l ++ [x].
Proof.
  intros H. unfold merged. destruct (last l) as [p|] eqn:E; [|done].
  rewrite (proj2 (Z.eqb_neq _ _)); [done|]. rewrite Forall_forall in H. by apply H, last_Some_elem_of.
Qed.

(** What the loop leaves behind. *)
Definition loop_done (r : outcome (Z * meminfos * nat * pages)) : Prop :=
  exists res v stop st d proc post',
    r = Ret (res, v, stop, st) /\ live v = (pre ++ d) ++ post' /\
    loop_inv st d proc [] post' /\ (stop <= length (pre ++ d))%nat.

Lemma install_loop_ok fuel st v d proc todo post' stop res :
  loop_inv st d proc todo post' -> live v = (pre ++ d) ++ todo ++ post' ->
  (stop - length (pre ++ d) = length todo)%nat -> (length todo <= fuel)%nat ->
  loop_done (install_loop W REF spec VM_HOST_BASE fuel st v (length (pre ++ d)) stop type res).
Proof.
  revert st v d proc todo post' stop res.
  induction fuel as [|fuel IH]; intros st v d proc todo post' stop res HI Hv Hst Hf.
  { destruct todo; [|simpl in Hf; lia]. simpl. rewrite (proj2 (Nat.ltb_ge _ _)) by (simpl in *; lia).
    exists res, v, stop, st, d, proc, post'. split; [done|]. split; [done|]. split; [done|]. simpl in Hst. lia. }
  destruct todo as [|x todo]; simpl in Hst.
  { simpl. rewrite (proj2 (Nat.ltb_ge _ _)) by lia.
    exists res, v, stop, st, d, proc, post'. split; [done|]. split; [done|]. split; [done|]. lia. }
  change ((x :: todo) ++ post') with (x :: todo ++ post') in Hv. cbn [install_loop]. rewrite (proj2 (Nat.ltb_lt _ _)) by lia.
  rewrite (type_live v _ _ _ Hv). simpl in Hf.
  assert (forall y : meminfo, S (length (pre ++ d)) = length (pre ++ d ++ [y])) as Hlen.
  { intros y. rewrite app_assoc, (length_app _ [y]). simpl. lia. }
  destruct (Z.ltb_spec type (mi_type x)) as [Hx|Hx].
  { rewrite (Hlen x). apply (IH _ _ _ (proc ++ [x]) todo post'); [by apply step_skip| |rewrite <- Hlen; lia|lia].
    by rewrite Hv, (app_assoc pre d), <- (app_assoc (pre ++ d)). }
  pose proof (round_facts _ _ _ _ _ _ HI) as (Hxr & Hxa & Hne & He & Hs).
  pose proof (li_orig _ _ _ _ _ HI) as H1. cbn [app] in H1.
  pose proof (set_type_live v _ _ _ type Hv) as Hv1.
  destruct (merge_ram_ok _ _ _ _ stop Hv1) as (v2 & iter' & Em & Hv2 & Hi2).
  destruct (Z.eq_dec type MEMTYPE_RAM) as [Hty|Hty].
  - destruct (install_pages_ram st v _ _ _ (li_pages _ _ _ _ _ HI) Hv Hne) as (bytes & st1 & Ep & Hp1 & Hf1);
      [lia|lia|unfold PAGESIZE in *; lia|unfold PAGESIZE in *; lia| |].
    { intros a Ht Ha Hfr. apply (li_free _ _ _ _ _ HI) in Hfr. apply Ht. rewrite <- Hfr. cbn [app].
      rewrite (typeof_rest _ (pre ++ d) x (todo ++ post')) by (done || lia).
      symmetry. apply (typeof_app_lo _ [] (todo ++ post')). intros _. lia. }
    rewrite <- Hty in Ep. rewrite Ep. cbn [obind]. rewrite Em. cbn [obind].
    destruct (dropram_split (todo ++ post')) as (r & Er & Hr).
    destruct (merged_cases d (mk_meminfo type (mi_addr x))) as (d' & Ed & Hd').
    rewrite Hi2, Ed.
    destruct (ram_rest st d proc x todo post' r _ HI Er Hr) as [ER _].
    pose proof (ram_left st d proc x todo post' r _ HI Er Hr) as Hl.
    apply (IH _ _ _ (proc ++ x :: r) (drop (length r) todo) (drop (length r - length todo) post')).
    + apply (step_ram st st1 d proc x todo post' r (dropram (todo ++ post'))); try done. lia.
    + by rewrite Hv2, Ed, ER.
    + rewrite length_drop. apply (f_equal length) in Er. rewrite !length_app in *. lia.
    + rewrite length_drop. lia.
  - destruct type_ok as [|Hn]; [done|].
    assert (mi_type x <> MEMTYPE_RAM) as Hxm.
    { rewrite Forall_forall in Hn. apply Hn. by eapply orig_elem. }
    rewrite H1, !Forall_app, Forall_cons, Forall_app in Hn.
    destruct (install_pages_other st v _ _ _ Hv Hty Hxm) as (bytes & ->). cbn [obind]. rewrite Em. cbn [obind].
    rewrite merged_none in * by (by apply (li_noram _ _ _ _ _ HI)).
    rewrite dropram_none in * by (rewrite Forall_app; tauto).
    rewrite Hi2, <- (app_assoc pre d).
    apply (IH _ _ _ (proc ++ [x]) todo post'); [by apply step_other| |rewrite !length_app in *; simpl; lia|lia].
    by rewrite Hv2, (app_assoc pre d).
Qed.

(** The types after the loop. *)
Lemma loop_types st d proc post' a :
  loop_inv st d proc [] post' -> typeof MEMTYPE_NDEF ((pre ++ d) ++ post') a = new a.
Proof.
  intros HI. pose proof (li_orig _ _ _ _ _ HI) as E. pose proof (li_ok _ _ _ _ _ HI) as [Hs _].
  cbn [app] in E, Hs. destruct (Z.lt_ge_cases a (end_of post')) as [H|H].
  { rewrite typeof_app_lo by done. by apply (li_new _ _ _ _ _ HI). }
  destruct (li_post _ _ _ _ _ HI) as (y & Hy & _). destruct post' as [|z P]; [done|].
  apply sorted_app in Hs as (Hs & _). rewrite typeof_rest by done. cbn [end_of] in H.
  destruct (below_x _ _ _ E) as (Hs' & _).
  assert (old a = typeof (mi_type z) P a) as <-.
  { unfold old. rewrite E, app_assoc. by apply typeof_rest. }
  unfold new. rewrite (proj2 (Z.ltb_ge _ _)), andb_false_r; [done|].
  destruct (li_suffix _ _ _ _ _ HI) as (k & Hk & _). destruct orig_ok as [Ho _].
  pose proof post_end as Hp. rewrite Hk in Hp. destruct k as [|w k]; [simpl in Hp; lia|].
  rewrite Hk, !app_assoc in Ho. apply sorted_app in Ho as (Ho & _). apply sorted_below in Ho.
  rewrite Forall_forall in Ho. specialize (Ho w). simpl in Hp. destruct Ho as [Ho _]; [|lia].
  apply elem_of_app. right. apply elem_of_cons. by left.
Qed.

(** The first merge cannot remove the only entry behind [pre]. *)
Lemma loop_kept v v1 stop st d proc post' :
  live v = (pre ++ d) ++ post' -> loop_inv st d proc [] post' -> (stop <= length (pre ++ d))%nat ->
  distinct pre ->
  (live v1 = live v \/
   exists l1 p x l2, live v = l1 ++ p :: x :: l2 /\ stop = S (length l1) /\
     mi_type p = mi_type x /\ live v1 = l1 ++ p :: l2) ->
  (length pre < length (live v1))%nat.
Proof.
  intros Hv HI Hst Hcan Hm. destruct (li_post _ _ _ _ _ HI) as (y & Hy & Hy').
  assert (0 < length post')%nat as Hpl by (destruct post'; [done|simpl; lia]).
  pose proof Hv as Hl. apply (f_equal length) in Hl. rewrite !length_app in Hl.
  destruct Hm as [-> |(l1 & p & x & l2 & El & Es & Et & ->)]; [lia|].
  pose proof El as El'. apply (f_equal length) in El'. rewrite length_app in El'. simpl in El'.
  rewrite length_app. simpl.
  destruct (Nat.lt_ge_cases (length pre + 1) (length (live v))) as [|Hge]; [lia|]. exfalso.
  destruct d as [|z d]; [|simpl in Hl; lia]. rewrite app_nil_r in *.
  destruct post' as [|w [|]]; simpl in Hl, Hpl; try lia. injection Hy as ->.
  destruct (decide (length l1 + 1 = length pre)%nat) as [E1|E1].
  - rewrite El in Hv. replace (l1 ++ p :: x :: l2) with ((l1 ++ [p]) ++ x :: l2) in Hv by (by rewrite <- app_assoc).
    apply app_inj_1 in Hv as [Hp Hx]; [|rewrite length_app; simpl; lia]. injection Hx as -> _.
    apply post_last in Hy'. apply Hy'. rewrite <- Et.
    destruct (li_first _ _ _ _ _ HI) as [?|[Hf|[_ Hf]]]; [done| |].
    + by rewrite <- Hp, end_type_snoc in Hf.
    + pose proof (li_orig _ _ _ _ _ HI) as Eo. rewrite Hf in Eo. apply (f_equal length) in Eo.
      rewrite length_app in Eo. simpl in Eo. destruct mid; [done|]. destruct post; [done|]. simpl in Eo. lia.
  - assert (length l1 + 1 < length pre)%nat as E2 by lia.
    rewrite El in Hv. symmetry in Hv. replace (l1 ++ p :: x :: l2) with ((l1 ++ [p; x]) ++ l2) in Hv by (by rewrite <- app_assoc).
    apply app_eq_inv in Hv as [(k & Hk & _)|(k & Hk & _)].
    + apply (Hcan l1 p x k); [|done]. by rewrite Hk, <- app_assoc.
    + pose proof Hk as Hk'. apply (f_equal length) in Hk'. rewrite !length_app in Hk'. simpl in Hk'.
      destruct k; [|simpl in Hk'; lia]. rewrite app_nil_r in Hk. by apply (Hcan l1 p x []).
Qed.

(** The entry that covers an address of the installed range. *)
Lemma find_entry a :
  base <= a < aend ->
  exists m1 y m2, mid = m1 ++ y :: m2 /\ mi_addr y <= a < end_of (m2 ++ post).
Proof.
  intros Ha. pose proof post_end as Hp. clear -Ha Hp mid_first post_first.
  assert (post <> []) as Hne by (by destruct post). clear post_first.
  destruct mid as [|x l]; [done|]. injection mid_first as Hx.
  assert (mi_addr x <= a) as Hxa by lia. clear Hx. revert x Hxa.
  induction l as [|z l IH]; intros x Hxa.
  { exists [], x, []. simpl. rewrite Hp. split; [done|lia]. }
  destruct (Z.lt_ge_cases a (mi_addr z)) as [H|H].
  { exists [], x, (z :: l). simpl. split; [done|lia]. }
  destruct (IH z H) as (m1 & y & m2 & E & Hy). exists (x :: m1), y, m2. rewrite E. done.
Qed.

Hypothesis mid_change : forall x, x ∈ mid -> base < mi_addr x -> old (mi_addr x - 1) <> mi_type x.

Lemma mid_before m1 y m2 :
  mid = m1 ++ y :: m2 -> base <= mi_addr y < aend /\ 0 <= mi_addr y < W /\ 0 <= mi_type y /\
  mi_addr y < end_of (m2 ++ post) <= aend.
Proof.
  intros E. pose proof mid_in as Hm. rewrite E, Forall_app, Forall_cons in Hm.
  destruct Hm as (_ & Hy & Hm2). pose proof post_end as Hp.
  assert (mid ++ post = m1 ++ y :: (m2 ++ post)) as E' by (by rewrite E, <- app_assoc).
  destruct (below_x _ _ _ E') as (_ & Hy2 & Hy3 & Hs). repeat (split; [done|]).
  destruct m2 as [|z m2]; simpl in *; [lia|]. apply Forall_cons in Hm2. lia.
Qed.

(** The memory that was added is that of the whole pages without a type. *)
Lemma added_pages proc k post' a :
  mid ++ post = proc ++ post' -> post = k ++ post' -> Forall (fun x => mi_type x = MEMTYPE_RAM) k ->
  added proc post' a <->
  a < phys_end spec /\ forall y, y / 4096 = a / 4096 -> base <= y < aend /\ old y = MEMTYPE_NDEF.
Proof.
  intros E Ek Hk. assert (proc = mid ++ k) as ->.
  { rewrite Ek, app_assoc in E. by apply app_inv_tail in E. }
  rewrite added_ram by done. rewrite <- Ek. unfold added. split.
  - intros (Hp & m1 & y & m2 & Em & Ht & Ha). split; [done|]. intros z Hz.
    destruct (mid_before _ _ _ Em) as (Hy1 & Hy2 & Hy3 & Hy4).
    destruct (ceil_page W (mi_addr y)) as [Hc1 Hc2]; [lia|unfold PAGESIZE in *; lia|].
    destruct (floor_page (end_of (m2 ++ post))) as (Hf1 & Hf2 & _); [lia|].
    assert (mi_addr y <= z < end_of (m2 ++ post)) as Hzy by mlia.
    split; [lia|]. rewrite (old_at m1 y (m2 ++ post)); [unfold MEMTYPE_RAM, MEMTYPE_NDEF in *; lia| |lia|lia].
    by rewrite Em, <- app_assoc.
  - intros [Hp Hall]. split; [done|].
    destruct (Hall a eq_refl) as [Hab Hao]. destruct (find_entry a Hab) as (m1 & y & m2 & Em & Ha).
    destruct (mid_before _ _ _ Em) as (Hy1 & Hy2 & Hy3 & Hy4).
    assert (mid ++ post = m1 ++ y :: (m2 ++ post)) as E' by (by rewrite Em, <- app_assoc).
    assert (mi_type y = MEMTYPE_NDEF) as Hty by (rewrite <- Hao; symmetry; apply (old_at m1 y (m2 ++ post)); [done|lia|intros _; lia]).
    exists m1, y, m2. split; [done|]. split; [rewrite Hty; done|].
    destruct (ceil_page W (mi_addr y)) as [Hc1 Hc2]; [lia|unfold PAGESIZE in *; lia|].
    destruct (floor_page (end_of (m2 ++ post))) as (Hf1 & Hf2 & _); [lia|].
    assert (mi_addr y <= a / 4096 * 4096) as Hlo.
    { destruct (Z.le_gt_cases (mi_addr y) (a / 4096 * 4096)) as [|H]; [done|]. exfalso.
      destruct (Hall (mi_addr y - 1)) as [Hr Ho]; [mlia|].
      apply (mid_change y); [rewrite Em; apply elem_mid|lia|congruence]. }
    assert (a / 4096 * 4096 + 4096 <= end_of (m2 ++ post)) as Hhi; [|mlia].
    destruct (Z.le_gt_cases (a / 4096 * 4096 + 4096) (end_of (m2 ++ post))) as [|H]; [done|]. exfalso.
    destruct (Hall (end_of (m2 ++ post))) as [Hr Ho]; [mlia|].
    destruct (Hall (end_of (m2 ++ post) - 1)) as [_ Ho']; [mlia|].
    pose proof post_end as Hpe. destruct m2 as [|z m2]; cbn [app end_of] in *; [lia|].
    apply (mid_change z); [rewrite Em; apply elem_of_app; right; apply elem_of_cons; right; apply elem_of_cons; by left|lia|].
    rewrite Ho', <- Ho.
    assert (mid ++ post = (m1 ++ [y]) ++ z :: (m2 ++ post)) as E2 by (by rewrite Em, <- !app_assoc).
    apply (old_at _ _ _ _ E2); [done|]. intros _. 
    destruct (mid_before (m1 ++ [y]) z m2) as (_ & _ & _ & H'); [by rewrite <- app_assoc|]. lia.
Qed.

(** What follows the splits in [mem_install]. *)
Lemma install_tail v2 :
  live v2 = pre ++ mid ++ post -> pages_inv spec st0 ->
  (forall a, is_free st0 a -> typeof MEMTYPE_NDEF (pre ++ mid ++ post) a = MEMTYPE_RAM) ->
  distinct pre ->
  exists result v' st',
    (let! (result, v, stop, st) :=
       install_loop W REF spec VM_HOST_BASE (length (pre ++ mid) - length pre) st0 v2
         (length pre) (length (pre ++ mid)) type 0 in
     let! v := if Nat.eqb stop (length (live v)) then Ret v else meminfo_merge_with_prev v stop in
     let! v := meminfo_merge_with_prev v (length pre) in
     Ret (result, v, st)) = Ret (result, v', st') /\
    infos_ok W (live v') /\ (forall a, memtype v' a = new a) /\ pages_inv spec st' /\
    (forall a, is_free st' a -> memtype v' a = MEMTYPE_RAM) /\
    (forall a, is_free st' a <-> is_free st0 a \/ type = MEMTYPE_RAM /\ a < phys_end spec /\
       forall y, y / 4096 = a / 4096 -> base <= y < aend /\ old y = MEMTYPE_NDEF).
Proof.
  intros Hv2 Hp Hf Hdis. pose proof (loop_start Hp Hf) as HI0.
  destruct (install_loop_ok (length (pre ++ mid) - length pre) st0 v2 [] [] mid post (length (pre ++ mid)) 0 HI0)
    as (res & v & stop & st & d & proc & post' & E & Hv & HI & Hst);
    [by rewrite app_nil_r|rewrite ?app_nil_r, length_app; lia..|].
  rewrite app_nil_r in E. rewrite E. cbn [obind].
  pose proof (li_ok _ _ _ _ _ HI) as Hok. cbn [app] in Hok. rewrite <- Hv in Hok.
  destruct (li_post _ _ _ _ _ HI) as (y & Hy & _).
  assert (stop < length (live v))%nat as Hlt.
  { rewrite Hv, (length_app (pre ++ d)). destruct post'; [done|]. simpl. lia. }
  rewrite (proj2 (Nat.eqb_neq _ _)) by lia.
  destruct (merge_ok W v stop Hok Hlt) as (v3 & -> & Hok3 & Ht3 & Hm). cbn [obind].
  pose proof (loop_kept v v3 stop st d proc post' Hv HI Hst Hdis Hm) as Hk.
  destruct (merge_ok W v3 (length pre) Hok3 Hk) as (v4 & -> & Hok4 & Ht4 & _). cbn [obind].
  assert (forall a, memtype v4 a = typeof MEMTYPE_NDEF ((pre ++ d) ++ post') a) as Ht.
  { intros a. rewrite Ht4, Ht3. unfold memtype. by rewrite Hv. }
  exists res, v4, st. split; [done|]. split; [done|]. split; [|split; [by apply (li_pages _ _ _ _ _ HI)|split]].
  - intros a. rewrite Ht. by eapply loop_types.
  - intros a Ha. rewrite Ht. by apply (li_free _ _ _ _ _ HI).
  - intros a. rewrite (li_added _ _ _ _ _ HI). cbn [app].
    destruct (li_suffix _ _ _ _ _ HI) as (k & Hk1 & Hk2).
    by rewrite (added_pages proc k post' a (li_orig _ _ _ _ _ HI) Hk1 Hk2).
Qed.

End Loop.

(** ** Installing a range *)

(** Splitting at a greater address leaves what is in front of the entry [x]. *)
Lemma split_behind hi pre x l2 l1 y post (added : bool) :
  pre ++ x :: l2 = l1 ++ (if added then post else y :: post) ->
  sorted (mi_addr y + 1) hi post -> mi_addr x < mi_addr y -> exists m, l1 = pre ++ x :: m.
Proof.
  intros E Hs Hxy. assert (x ∉ (if added then post else y :: post)) as Hn.
  { intros Hin. assert (x = y \/ x ∈ post) as [-> |Hp]; [destruct added; [by right|by apply elem_of_cons]|lia|].
    apply sorted_below in Hs. rewrite Forall_forall in Hs. apply Hs in Hp. lia. }
  apply app_eq_inv in E as [(k & -> & Ek)|(k & -> & Ek)].
  - exfalso. apply Hn. rewrite Ek. apply elem_mid.
  - destruct k as [|w k]; simpl in Ek.
    + exfalso. apply Hn. rewrite <- Ek. apply elem_of_cons. by left.
    + injection Ek as <- _. by exists k.
Qed.

(** The two splits of [mem_install]: the entries in front of the range, in it
    and behind it. *)
Lemma splits_ok W v base aend :
  infos_ok W (live v) -> (2 <= length (stale v))%nat -> 0 <= base < aend -> aend < W ->
  exists v1 v2 pre mid post,
    meminfo_split_at v base = Ret (v1, length pre) /\ addr_at v1 (length pre) = base /\
    meminfo_split_at v1 aend = Ret (v2, length (pre ++ mid)) /\ live v2 = pre ++ mid ++ post /\
    infos_ok W (live v2) /\ (forall a, memtype v2 a = memtype v a) /\
    Forall (fun x => mi_addr x < base) pre /\ Forall (fun x => base <= mi_addr x < aend) mid /\
    mi_addr <$> head mid = Some base /\ mi_addr <$> head post = Some aend /\
    (exists rest, live v = pre ++ rest) /\ (forall x, x ∈ mid -> base < mi_addr x -> x ∈ live v).
Proof.
  intros Hok Hst Hb Ha.
  destruct (split_at_ok W v base) as (pre & x & l2 & ad1 & E1 & Hx & El & _ & Hok1 & Ht1);
    [done|destruct (stale v); [simpl in Hst; lia|done]|lia|].
  remember (mk_infos (pre ++ x :: l2) (if ad1 then tail (stale v) else stale v)) as v1 eqn:Ev1.
  assert (live v1 = pre ++ x :: l2) as Hl1 by (by subst v1).
  destruct (split_at_ok W v1 aend) as (l1 & y & post & ad2 & E2 & Hy & El2 & _ & Hok2 & Ht2);
    [by rewrite Hl1| |lia|].
  { subst v1. simpl. destruct (stale v) as [|? [|]]; simpl in Hst; [lia..|]. by destruct ad1. }
  remember (mk_infos (l1 ++ y :: post) (if ad2 then tail (stale v1) else stale v1)) as v2 eqn:Ev2.
  pose proof Hok2 as [Hs2 _]. apply sorted_app in Hs2 as (Hs2 & _ & _ & Hs3).
  pose proof Hok1 as [Hs1 _]. apply sorted_app in Hs1 as (Hs1 & _ & _ & Hs1').
  rewrite Hl1 in El2. destruct (split_behind W pre x l2 l1 y post ad2) as [m ->]; [done..|lia|].
  exists v1, v2, pre, (x :: m), (y :: post).
  split; [done|]. split; [by rewrite (addr_live v1 _ _ _ Hl1)|]. split; [done|].
  assert (live v2 = pre ++ (x :: m) ++ y :: post) as Hl2 by (subst v2; simpl; by rewrite <- app_assoc).
  split; [done|]. split; [rewrite Hl2; by rewrite <- app_assoc in Hok2|].
  split; [|split; [|split; [|split; [|split; [|split]]]]].
  - intros a. rewrite <- Ht1. unfold memtype at 1. rewrite Hl2.
    rewrite <- app_assoc in Ht2. cbn [app] in *. rewrite Ht2. unfold memtype. by rewrite Hl1.
  - apply sorted_below in Hs1. eapply Forall_impl; [exact Hs1|]. simpl. lia.
  - apply sorted_app in Hs2 as (_ & Hx2 & _ & Hm). apply Forall_cons. split; [lia|].
    apply sorted_below in Hm. eapply Forall_impl; [exact Hm|]. simpl. lia.
  - simpl. by rewrite Hx.
  - simpl. by rewrite Hy.
  - by eexists.
  - intros z Hz Hzb. apply elem_of_cons in Hz as [-> |Hz]; [lia|].
    assert (z ∈ x :: l2) as Hin.
    { rewrite <- app_assoc in El2. apply app_inv_head in El2. rewrite El2. cbn [app].
      apply elem_of_cons. right. apply elem_of_app. by left. }
    apply elem_of_cons in Hin as [-> |Hin]; [lia|]. rewrite El. apply elem_of_app. right.
    destruct ad1; [done|]. apply elem_of_cons. by right.
Qed.

(** The page of [a] lies in the range and has no type yet. *)
Definition unused_page (spec : mzonespec) (v : meminfos) (base n a : Z) : Prop :=
  a < phys_end spec /\
  forall y, y / 4096 = a / 4096 -> base <= y < base + n /\ memtype v y = MEMTYPE_NDEF.

(** C28: Installing a range in a map without RAM at the end of the address space,
    either as RAM or while no RAM is known, succeeds without failing an assertion:
    the vector stays sorted, every address in the range gets the greater of the
    two types, all others keep theirs, and the allocator gains exactly the whole
    pages that had no type, so that free memory is always RAM. *)
Theorem mem_install_ok W REF spec VM_HOST_BASE `{!ZoneSpec W spec} st v base n type :
  phys_end spec <= VM_HOST_BASE ->
  pages_inv spec st -> infos_ok W (live v) -> canonical v -> (2 <= length (stale v))%nat ->
  (forall a, is_free st a -> memtype v a = MEMTYPE_RAM) ->
  0 <= base -> 0 < n -> base + n + PAGESIZE <= W -> 0 <= type ->
  memtype v (W - 1) <> MEMTYPE_RAM ->
  (type = MEMTYPE_RAM \/ Forall (fun x => mi_type x <> MEMTYPE_RAM) (live v)) ->
  exists result v' st',
    mem_install W REF spec VM_HOST_BASE st v base n type = Ret (result, v', st') /\
    infos_ok W (live v') /\
    (forall a, memtype v' a =
       if (base <=? a) && (a <? base + n) then Z.max type (memtype v a) else memtype v a) /\
    pages_inv spec st' /\
    (forall a, is_free st' a -> memtype v' a = MEMTYPE_RAM) /\
    (forall a, is_free st' a <->
       is_free st a \/ type = MEMTYPE_RAM /\ unused_page spec v base n a).
Proof.
  intros Hhost Hp Hok Hcan Hst Hfree Hb Hn HW Ht Hlast Htype. unfold PAGESIZE in HW.
  destruct (splits_ok W v base (base + n)) as (v1 & v2 & pre & mid & post & E1 & Ea & E2 & Hl2 & Hok2 &
    Htv & Hpre & Hmid & Hmf & Hpf & (rest & Hrest) & Hin); [done..|lia|lia|].
  assert (addr_at v2 (length pre) = base /\ addr_at v2 (length (pre ++ mid)) = base + n /\
    (length pre < length (pre ++ mid))%nat) as (Ea2 & Ea3 & Hlt).
  { destruct mid as [|x mid]; [done|]. destruct post as [|y post]; [done|].
    injection Hmf as Hmf. injection Hpf as Hpf. rewrite (addr_live v2 pre x (mid ++ y :: post)) by done.
    rewrite (addr_live v2 (pre ++ x :: mid) y post) by (by rewrite Hl2, <- app_assoc).
    rewrite length_app. simpl. split; [done|]. split; [done|lia]. }
  assert (forall a, typeof MEMTYPE_NDEF (pre ++ mid ++ post) a = memtype v a) as Htv'
    by (intros a; rewrite <- Htv, <- Hl2; done).
  destruct (install_tail W spec REF VM_HOST_BASE Hhost base (base + n) type pre mid post st)
    with (v2 := v2) as (result & v' & st' & E & Hr1 & Hr2 & Hr3 & Hr4 & Hr5);
    rewrite <- ?Hl2; try done.
  - intros x Hx Hxr. apply Hlast. rewrite <- Htv. rewrite <- Hxr. unfold memtype. rewrite Hl2.
    rewrite typeof_end; [unfold end_type; by rewrite !last_app, Hx|].
    rewrite <- Hl2. destruct Hok2 as [Hs _]. eapply Forall_impl; [by apply sorted_below|]. simpl. lia.
  - destruct Htype as [|Hno]; [by left|right]. apply Forall_forall. intros x Hx.
    rewrite <- (typeof_here MEMTYPE_NDEF W (live v2) x) by (done || by destruct Hok2).
    rewrite Hl2, Htv'. by apply typeof_noram.
  - intros x Hx Hxb. unfold old. rewrite Htv'. apply Hcan; [by apply Hin|lia].
  - intros a Ha. rewrite Hl2, Htv'. by apply Hfree.
  - by apply (canonical_distinct W v pre rest).
  - exists result, v', st'. unfold mem_install. rewrite (proj2 (Z.eqb_neq n 0)), E1 by lia. cbn [obind].
    rewrite Ea, Z.eqb_refl. cbn [oassert]. rewrite Z.mod_small, (proj2 (Z.leb_gt _ _)), E2 by lia.
    cbn [obind]. rewrite (proj2 (Nat.eqb_neq _ _)), Ea2, Ea3, !Z.eqb_refl by lia. cbn [negb oassert obind].
    rewrite (proj2 (Nat.ltb_lt _ _)), E by done.
    split; [done|]. split; [done|]. split; [|split; [done|split; [done|]]].
    + intros a. rewrite Hr2. unfold new, old. by rewrite Htv'.
    + intros a. rewrite Hr5. unfold unused_page, old.
      split; (intros [?|(Ht' & Ha & Hy)]; [by left|right]; split; [done|]; split; [done|]);
        intros y Hyy; [rewrite <- Htv'|rewrite Htv']; by apply Hy.
Qed.

(** Splitting a map at an address keeps what it says about every address and
    the order of its entries, and returns the slot of an entry that starts there. *)
Theorem meminfo_split_at_ok W v addr :
  infos_ok W (live v) -> stale v <> [] -> 0 <= addr < W ->
  exists v' i, meminfo_split_at v addr = Ret (v', i) /\ infos_ok W (live v') /\
    (i < length (live v'))%nat /\ addr_at v' i = addr /\ forall a, memtype v' a = memtype v a.
Proof.
  intros Hok Hst Ha.
  destruct (split_at_ok W v addr Hok Hst Ha) as (l1 & x & l2 & added & -> & Hx & _ & _ & Hok' & Ht).
  eexists _, (length l1). split; [done|]. split; [done|]. split; [cbn [live]; rewrite length_app; simpl; lia|].
  split; [|done]. by rewrite (addr_live _ l1 x l2).
Qed.

(** The allocator before any memory is installed. *)
Lemma init_inv spec m : pages_inv spec (mk_pages (page_zones_init spec) m).
Proof.
  unfold page_zones_init. split; cbn [page_zones]; [apply length_replicate| |];
    intros i z [-> _]%lookup_replicate_1; [done|by apply Forall_nil].
Qed.

Lemma init_free spec m a : ~ is_free (mk_pages (page_zones_init spec) m) a.
Proof. intros (i & z & [-> _]%lookup_replicate_1 & Hc). by apply covered_nil in Hc. Qed.

(** ** Behaviour of the code outside these theorems

    All on a 32-bit kernel. *)

Definition boot_pages : pages := mk_pages (page_zones_init mzone_spec_i386) (fun _ => dirty_page).
Definition boot_infos (l : list meminfo) : meminfos := mk_infos l (replicate 8 (mk_meminfo 0 0)).
Abbreviation install := (mem_install (2 ^ 32) (2 ^ 32) mzone_spec_i386 0xc0000000).
Definition free_list (st : pages) : list (Z * Z) :=
  r ← page_zones st; (fun r => (r_start r, p_size r)) <$> z_root r.

(** Un-preserving one mebibyte hands out all memory behind it: the size is
    subtracted twice. *)
Theorem unpreserve_adds_all :
  match mem_unpreserve (2 ^ 32) mzone_spec_i386 0xc0000000 boot_pages
          (boot_infos [mk_meminfo MEMTYPE_NDEF 0; mk_meminfo MEMTYPE_PRESERVE 0x200000;
                       mk_meminfo MEMTYPE_NDEF 0x300000]) with
  | Ret (result, _, st) => result = 0x100000 /\ free_list st = [(0x200000, 0xbfe00000)]
  | Abort => False
  end.
Proof. vm_compute. done. Qed.

(** A device installed right behind RAM becomes part of the RAM entry. *)
Theorem install_device_lost :
  match install boot_pages
          (boot_infos [mk_meminfo MEMTYPE_NDEF 0; mk_meminfo MEMTYPE_RAM 0x100000;
                       mk_meminfo MEMTYPE_NDEF 0x200000]) 0x200000 0x100000 MEMTYPE_DEVICE with
  | Ret (_, v, _) => memtype v 0x280000 = MEMTYPE_RAM
  | Abort => False
  end.
Proof. vm_compute. done. Qed.

(** RAM installed up to the end of the address space right behind RAM: the slot
    behind the vector is merged, which moves a negative number of bytes. *)
Theorem install_end_aborts :
  install boot_pages
    (boot_infos [mk_meminfo MEMTYPE_NDEF 0; mk_meminfo MEMTYPE_RAM 0x100000;
                 mk_meminfo MEMTYPE_NDEF 0xfffff000]) 0xfffff000 0x1000 MEMTYPE_RAM = Abort.
Proof. vm_compute. done. Qed.

(** Adjacent entries of one type other than RAM are not merged. *)
Theorem install_adjacent_equal :
  match install boot_pages
          (boot_infos [mk_meminfo MEMTYPE_NDEF 0; mk_meminfo MEMTYPE_NVS 0x1000;
                       mk_meminfo MEMTYPE_NDEF 0x2000]) 0 0x2000 MEMTYPE_DEVICE with
  | Ret (_, v, _) => live v = [mk_meminfo MEMTYPE_DEVICE 0; mk_meminfo MEMTYPE_DEVICE 0x1000;
                               mk_meminfo MEMTYPE_NDEF 0x2000]
  | Abort => False
  end.
Proof. vm_compute. done. Qed.

(** Memory that turns out to be bad after it was installed as RAM stays free, and
    its size is counted as memory that became available. *)
Theorem install_badram_free :
  match install boot_pages (boot_infos [mk_meminfo MEMTYPE_NDEF 0]) 0x100000 0x100000 MEMTYPE_RAM with
  | Ret (_, v, st) =>
      match install st v 0x100000 0x100000 MEMTYPE_BADRAM with
      | Ret (result, v, st) =>
          result = 0x100000 /\ memtype v 0x100000 = MEMTYPE_BADRAM /\
          free_list st = [(0x100000, 0x100000)]
      | Abort => False
      end
  | Abort => False
  end.
Proof. vm_compute. done. Qed.

(** RAM that starts in the last page: rounding up wraps around, and all memory is
    handed out. *)
Theorem install_ceil_wraps :
  match install boot_pages (boot_infos [mk_meminfo MEMTYPE_NDEF 0]) 0xfffff100 0x100 MEMTYPE_RAM with
  | Ret (_, _, st) => free_list st = [(0, 0x100000); (0x100000, 0xbff00000)]
  | Abort => False
  end.
Proof. vm_compute. done. Qed.

(** A length of 4 GiB is truncated to nothing. *)
Theorem install64_truncates :
  mem_install64 (2 ^ 32) (2 ^ 32) mzone_spec_i386 0xc0000000 boot_pages
    (boot_infos [mk_meminfo MEMTYPE_NDEF 0]) 0x100000 (2 ^ 32) MEMTYPE_RAM =
  Ret (0, boot_infos [mk_meminfo MEMTYPE_NDEF 0], boot_pages).
Proof. reflexivity. Qed.

(** ** Witnesses *)

Lemma meminfo_split_at_ok_witness :
  exists v i, meminfo_split_at (boot_infos [mk_meminfo MEMTYPE_NDEF 0]) 0x1000 = Ret (v, i) /\
    addr_at v i = 0x1000 /\ memtype v 0x2000 = MEMTYPE_NDEF.
Proof.
  destruct (meminfo_split_at_ok (2 ^ 32) (boot_infos [mk_meminfo MEMTYPE_NDEF 0]) 0x1000)
    as (v & i & H1 & _ & _ & H2 & H3); [by vm_compute|done|lia|].
  exists v, i. by rewrite H3.
Defined.

Lemma mem_install_ok_witness :
  exists result v st,
    install boot_pages (boot_infos [mk_meminfo MEMTYPE_NDEF 0]) 0x100000 0x200000 MEMTYPE_RAM =
      Ret (result, v, st) /\
    memtype v 0x150000 = MEMTYPE_RAM /\ is_free st 0x150000.
Proof.
  assert (forall a, memtype (boot_infos [mk_meminfo MEMTYPE_NDEF 0]) a = MEMTYPE_NDEF) as Hn.
  { intros a. unfold memtype. simpl. by destruct (0 <=? a). }
  destruct (mem_install_ok (2 ^ 32) (2 ^ 32) mzone_spec_i386 0xc0000000 boot_pages
    (boot_infos [mk_meminfo MEMTYPE_NDEF 0]) 0x100000 0x200000 MEMTYPE_RAM)
    as (r & v & st & H1 & _ & H2 & _ & _ & H3); try done; try lia.
  - apply init_inv.
  - intros x Hx. apply elem_of_cons in Hx as [-> |Hx]; [done|]. by apply elem_of_nil in Hx.
  - simpl. lia.
  - intros a Ha. by apply init_free in Ha.
  - exists r, v, st. split; [done|]. split; [by rewrite H2|]. apply H3. right. split; [done|].
    split; [done|]. intros y Hy. split; [mlia|apply Hn].
Defined.
