(* ===== verification/ATree.v ===== *)
(** * Address trees (include/hybrid/list/atree.h, atree-abi.h)

    The binary tree that maps disjoint key ranges to objects. *)
From stdpp Require Import base numbers list.
From S2P Require Import Prelude.

(** The fields [a_vmin], [a_vmax] of an [ATREE_NODE], with the object the
    node is embedded in. *)
Record leaf (T : Type) : Type := Leaf { a_vmin : Z; a_vmax : Z; a_obj : T }.
Arguments Leaf {T} _ _ _.
Arguments a_vmin {T} _.
Arguments a_vmax {T} _.
Arguments a_obj {T} _.

(** A branch: [ATREE_NULL], or a node with its [a_min] and [a_max] links. *)
Inductive atree (T : Type) : Type :=
| ATREE_NULL
| Node (l : leaf T) (a_min a_max : atree T).
Arguments ATREE_NULL {T}.
Arguments Node {T} _ _ _.

(** A slot [T **] inside a tree, as the links followed from [proot]. *)
Inductive link : Type := MIN | MAX.

#[export] Instance link_eq_dec : EqDecision link.
Proof. solve_decision. Defined.

Section Macros.

(** Number of bits of [Tkey]. *)
Variable w : Z.

Definition ATREE_SEMI0 : Z := (2 ^ w - 1) / 2 + 1.
Definition ATREE_LEVEL0 : Z := w - 1.

(** [~x] on an unsigned [Tkey]. *)
Definition key_not (x : Z) : Z := (Z.lnot x) mod 2 ^ w.

Definition ATREE_MAPMIN (semi level : Z) : Z :=
  Z.land semi (key_not (Z.shiftl 1 level)).
Definition ATREE_MAPMAX (semi level : Z) : Z :=
  Z.lor semi (Z.shiftl 1 level - 1).

(** Walking below level 0 would shift by [(unsigned int)-1]; C leaves that
    undefined. *)
Definition ATREE_WALKMIN (semi level : Z) : outcome (Z * Z) :=
  assert! 1 <=? level;;
  Ret (Z.lor (Z.land semi (key_not (Z.shiftl 1 level)))
             (Z.shiftl 1 (level - 1)), level - 1).
Definition ATREE_WALKMAX (semi level : Z) : outcome (Z * Z) :=
  assert! 1 <=? level;;
  Ret (Z.lor semi (Z.shiftl 1 (level - 1)), level - 1).

End Macros.

Section Operations.

Context {T : Type}.
Variable w : Z.

Definition covers (l : leaf T) (key : Z) : bool :=
  (a_vmin l <=? key) && (key <=? a_vmax l).

Definition overlaps (l1 l2 : leaf T) : bool :=
  (a_vmin l1 <=? a_vmax l2) && (a_vmin l2 <=? a_vmax l1).

(** The checks at label [again] of the insert functions. *)
Definition insertable (newleaf : leaf T) (semi level : Z) : bool :=
  (ATREE_MAPMIN w semi level <=? a_vmin newleaf) &&
  (a_vmax newleaf <=? ATREE_MAPMAX semi level).

(** The check made before a branch is replaced. *)
Definition semi_clear (iter : leaf T) (semi : Z) : bool :=
  (a_vmax iter <=? semi) || (semi <=? a_vmin iter).

(** [priv_reinsertall], over the insertion it recurses with. *)
Fixpoint reinsertall_with (insert : atree T -> leaf T -> outcome (atree T))
    (proot insert_root : atree T) : outcome (atree T) :=
  match insert_root with
  | ATREE_NULL => Ret proot
  | Node l mn mx =>
      let! proot := reinsertall_with insert proot mn in
      let! proot := reinsertall_with insert proot mx in
      insert proot l
  end.

(** [insert_at]; every [goto again] and every recursion through
    [priv_reinsertall] costs one unit of [fuel]. *)
Fixpoint insert_fuel (fuel : nat) (proot : atree T) (newleaf : leaf T)
    (addr_semi addr_level : Z) : outcome (atree T) :=
  match fuel with
  | O => Abort
  | S fuel =>
    assert! insertable newleaf addr_semi addr_level;;
    match proot with
    | ATREE_NULL => Ret (Node newleaf ATREE_NULL ATREE_NULL)
    | Node iter mn mx =>
        assert! negb (overlaps newleaf iter);;
        if covers newleaf addr_semi then
          assert! semi_clear iter addr_semi;;
          reinsertall_with (fun t l => insert_fuel fuel t l addr_semi addr_level)
            (Node newleaf ATREE_NULL ATREE_NULL) proot
        else if a_vmax newleaf <? addr_semi then
          let! (semi, level) := ATREE_WALKMIN w addr_semi addr_level in
          let! mn := insert_fuel fuel mn newleaf semi level in
          Ret (Node iter mn mx)
        else
          assert! addr_semi <? a_vmin newleaf;;
          let! (semi, level) := ATREE_WALKMAX addr_semi addr_level in
          let! mx := insert_fuel fuel mx newleaf semi level in
          Ret (Node iter mn mx)
    end
  end.

(** At most one walk and one re-insertion happen per level. *)
Definition atree_fuel (level : Z) : nat := Z.to_nat (2 * level + 2).

Definition insert_at (proot : atree T) (newleaf : leaf T)
    (addr_semi addr_level : Z) : outcome (atree T) :=
  insert_fuel (atree_fuel addr_level) proot newleaf addr_semi addr_level.

Definition priv_reinsertall (proot insert_root : atree T)
    (addr_semi addr_level : Z) : outcome (atree T) :=
  reinsertall_with (fun t l => insert_at t l addr_semi addr_level)
    proot insert_root.

Fixpoint tryinsert_at (proot : atree T) (newleaf : leaf T)
    (addr_semi addr_level : Z) : outcome (bool * atree T) :=
  assert! insertable newleaf addr_semi addr_level;;
  match proot with
  | ATREE_NULL => Ret (true, Node newleaf ATREE_NULL ATREE_NULL)
  | Node iter mn mx =>
      if overlaps newleaf iter then Ret (false, proot)
      else if covers newleaf addr_semi then
        assert! semi_clear iter addr_semi;;
        let! t := priv_reinsertall (Node newleaf ATREE_NULL ATREE_NULL) proot
                    addr_semi addr_level in
        Ret (true, t)
      else if a_vmax newleaf <? addr_semi then
        let! (semi, level) := ATREE_WALKMIN w addr_semi addr_level in
        let! (ok, mn) := tryinsert_at mn newleaf semi level in
        Ret (ok, Node iter mn mx)
      else
        assert! addr_semi <? a_vmin newleaf;;
        let! (semi, level) := ATREE_WALKMAX addr_semi addr_level in
        let! (ok, mx) := tryinsert_at mx newleaf semi level in
        Ret (ok, Node iter mn mx)
  end.

(** [pinsert_at] returns the slot of the new leaf and leaves the semi key and
    level of that slot in [*paddr_semi] and [*paddr_level]. *)
Fixpoint pinsert_at (proot : atree T) (newleaf : leaf T)
    (addr_semi addr_level : Z) : outcome (list link * Z * Z * atree T) :=
  assert! insertable newleaf addr_semi addr_level;;
  match proot with
  | ATREE_NULL =>
      Ret ([], addr_semi, addr_level, Node newleaf ATREE_NULL ATREE_NULL)
  | Node iter mn mx =>
      assert! negb (overlaps newleaf iter);;
      if covers newleaf addr_semi then
        assert! semi_clear iter addr_semi;;
        let! t := priv_reinsertall (Node newleaf ATREE_NULL ATREE_NULL) proot
                    addr_semi addr_level in
        Ret ([], addr_semi, addr_level, t)
      else if a_vmax newleaf <? addr_semi then
        let! (semi, level) := ATREE_WALKMIN w addr_semi addr_level in
        let! (p, semi, level, mn) := pinsert_at mn newleaf semi level in
        Ret (MIN :: p, semi, level, Node iter mn mx)
      else
        assert! addr_semi <? a_vmin newleaf;;
        let! (semi, level) := ATREE_WALKMAX addr_semi addr_level in
        let! (p, semi, level, mx) := pinsert_at mx newleaf semi level in
        Ret (MAX :: p, semi, level, Node iter mn mx)
  end.

(** [pop_at]: the popped root and the new contents of the slot. *)
Definition pop_at (proot : atree T) (addr_semi addr_level : Z)
    : outcome (leaf T * atree T) :=
  match proot with
  | ATREE_NULL => Abort
  | Node root mn mx =>
      let! t := priv_reinsertall ATREE_NULL mn addr_semi addr_level in
      let! t := priv_reinsertall t mx addr_semi addr_level in
      Ret (root, t)
  end.

(** The [ATREE_DEBUG] checks of the lookup loops. *)
Definition branch_ok (root : leaf T) (semi level : Z) : bool :=
  (a_vmin root <=? a_vmax root) &&
  (ATREE_MAPMIN w semi level <=? a_vmin root) &&
  (a_vmax root <=? ATREE_MAPMAX semi level).

Fixpoint locate_at (root : atree T) (key addr_semi addr_level : Z)
    : outcome (option (leaf T)) :=
  match root with
  | ATREE_NULL => Ret None
  | Node l mn mx =>
      assert! branch_ok l addr_semi addr_level;;
      if covers l key then Ret (Some l)
      else
        assert! negb (addr_level =? 0);;
        if key <? addr_semi then
          let! (semi, level) := ATREE_WALKMIN w addr_semi addr_level in
          locate_at mn key semi level
        else
          let! (semi, level) := ATREE_WALKMAX addr_semi addr_level in
          locate_at mx key semi level
  end.

Fixpoint plocate_at (proot : atree T) (key addr_semi addr_level : Z)
    : outcome (option (list link * Z * Z)) :=
  match proot with
  | ATREE_NULL => Ret None
  | Node l mn mx =>
      assert! branch_ok l addr_semi addr_level;;
      if covers l key then Ret (Some ([], addr_semi, addr_level))
      else
        assert! negb (addr_level =? 0);;
        if key <? addr_semi then
          let! (semi, level) := ATREE_WALKMIN w addr_semi addr_level in
          let! r := plocate_at mn key semi level in
          Ret ((fun '(p, s, l) => (MIN :: p, s, l)) <$> r)
        else
          let! (semi, level) := ATREE_WALKMAX addr_semi addr_level in
          let! r := plocate_at mx key semi level in
          Ret ((fun '(p, s, l) => (MAX :: p, s, l)) <$> r)
  end.

(** Reading and writing through a slot. *)
Fixpoint slot_get (t : atree T) (p : list link) {struct p} : atree T :=
  match p, t with
  | [], _ => t
  | MIN :: p, Node _ mn _ => slot_get mn p
  | MAX :: p, Node _ _ mx => slot_get mx p
  | _, ATREE_NULL => ATREE_NULL
  end.

Fixpoint slot_set (t : atree T) (p : list link) (s : atree T) {struct p} : atree T :=
  match p, t with
  | [], _ => s
  | MIN :: p, Node l mn mx => Node l (slot_set mn p s) mx
  | MAX :: p, Node l mn mx => Node l mn (slot_set mx p s)
  | _, ATREE_NULL => ATREE_NULL
  end.

Definition remove_at (proot : atree T) (key addr_semi addr_level : Z)
    : outcome (option (leaf T) * atree T) :=
  let! remove_head := plocate_at proot key addr_semi addr_level in
  match remove_head with
  | None => Ret (None, proot)
  | Some (p, semi, level) =>
      let! (root, s) := pop_at (slot_get proot p) semi level in
      Ret (Some root, slot_set proot p s)
  end.

(** The convenience wrappers, at the root of the key space. *)
Definition tryinsert (proot : atree T) (newleaf : leaf T) :=
  tryinsert_at proot newleaf (ATREE_SEMI0 w) (ATREE_LEVEL0 w).
Definition insert (proot : atree T) (newleaf : leaf T) :=
  insert_at proot newleaf (ATREE_SEMI0 w) (ATREE_LEVEL0 w).
Definition pop (proot : atree T) :=
  pop_at proot (ATREE_SEMI0 w) (ATREE_LEVEL0 w).
Definition remove (proot : atree T) (key : Z) :=
  remove_at proot key (ATREE_SEMI0 w) (ATREE_LEVEL0 w).
Definition locate (root : atree T) (key : Z) :=
  locate_at root key (ATREE_SEMI0 w) (ATREE_LEVEL0 w).

End Operations.

(** ** The macros as arithmetic *)

(** [addr_semi] is the centre of the [2 ^ (level + 1)] keys of a branch. *)
Definition semi_ok (w semi level : Z) : Prop :=
  0 <= level < w /\
  exists m, 0 <= m /\ semi = m * 2 ^ (level + 1) + 2 ^ level /\
            (m + 1) * 2 ^ (level + 1) <= 2 ^ w.

Create HintDb atree.

Lemma semi_ok_root w : 0 < w -> semi_ok w (ATREE_SEMI0 w) (ATREE_LEVEL0 w).
Proof.
  intros Hw. unfold semi_ok, ATREE_SEMI0, ATREE_LEVEL0. split; [lia|].
  exists 0. replace (w - 1 + 1) with w by lia.
  replace (2 ^ w) with (2 * 2 ^ (w - 1)) by (rewrite <- Z.pow_succ_r by lia; f_equal; lia).
  pose proof (Z.pow_pos_nonneg 2 (w - 1)).
  replace (2 * 2 ^ (w - 1) - 1) with (1 + (2 ^ (w - 1) - 1) * 2) by lia.
  rewrite Z.div_add by lia. change (1 / 2) with 0. lia.
Qed.

Section Macro_facts.

Context (w semi level : Z) (Hok : semi_ok w semi level).

Lemma semi_ok_bounds :
  0 <= semi - 2 ^ level /\ semi + 2 ^ level <= 2 ^ w /\ 0 < 2 ^ level.
Proof using Hok.
  destruct Hok as (? & m & ? & -> & ?).
  pose proof (Z.pow_pos_nonneg 2 level ltac:(lia) ltac:(lia)).
  assert (2 ^ (level + 1) = 2 * 2 ^ level) by (rewrite Z.pow_add_r by lia; lia).
  nia.
Qed.

Lemma ATREE_MAPMIN_eq : ATREE_MAPMIN w semi level = semi - 2 ^ level.
Proof using Hok.
  pose proof semi_ok_bounds. destruct Hok as (? & m & ? & -> & ?).
  unfold ATREE_MAPMIN, key_not. rewrite Z.shiftl_1_l.
  apply land_not_bit; [lia..|]. apply testbit_odd_multiple; lia.
Qed.

Lemma ATREE_MAPMAX_eq : ATREE_MAPMAX semi level = semi + 2 ^ level - 1.
Proof using Hok.
  pose proof semi_ok_bounds. destruct Hok as (? & m & ? & -> & ?).
  unfold ATREE_MAPMAX. rewrite Z.shiftl_1_l.
  assert (2 ^ (level + 1) = 2 * 2 ^ level) as -> by (rewrite Z.pow_add_r by lia; lia).
  replace (m * (2 * 2 ^ level) + 2 ^ level) with ((2 * m + 1) * 2 ^ level) by lia.
  rewrite lor_add_low by lia. lia.
Qed.

Lemma half_pow : 1 <= level -> 2 ^ level = 2 * 2 ^ (level - 1).
Proof using. intros. rewrite <- Z.pow_succ_r by lia. f_equal; lia. Qed.

Lemma ATREE_WALKMIN_eq :
  1 <= level -> ATREE_WALKMIN w semi level = Ret (semi - 2 ^ (level - 1), level - 1).
Proof using Hok.
  intros Hl. pose proof (half_pow Hl) as Hp.
  unfold ATREE_WALKMIN, oassert. rewrite (proj2 (Z.leb_le 1 level)) by lia.
  change (Z.land semi _) with (ATREE_MAPMIN w semi level).
  rewrite ATREE_MAPMIN_eq. destruct Hok as (? & m & ? & -> & ?).
  pose proof (Z.pow_pos_nonneg 2 (level - 1) ltac:(lia) ltac:(lia)).
  rewrite Z.shiftl_1_l, Z.pow_add_r, Hp by lia.
  replace (m * (2 * 2 ^ (level - 1) * 2 ^ 1) + 2 * 2 ^ (level - 1) - 2 * 2 ^ (level - 1))
    with (2 * m * 2 ^ level) by lia.
  rewrite lor_add_low by lia. do 2 f_equal. lia.
Qed.

Lemma ATREE_WALKMAX_eq :
  1 <= level -> ATREE_WALKMAX semi level = Ret (semi + 2 ^ (level - 1), level - 1).
Proof using Hok.
  intros Hl. pose proof (half_pow Hl) as Hp.
  unfold ATREE_WALKMAX, oassert. rewrite (proj2 (Z.leb_le 1 level)) by lia.
  destruct Hok as (? & m & ? & -> & ?).
  pose proof (Z.pow_pos_nonneg 2 (level - 1) ltac:(lia) ltac:(lia)).
  rewrite Z.shiftl_1_l.
  replace (m * 2 ^ (level + 1) + 2 ^ level) with ((2 * m + 1) * 2 ^ level)
    by (rewrite Z.pow_add_r by lia; lia).
  rewrite lor_add_low by lia. do 2 f_equal.
Qed.

Lemma semi_ok_walkmin : 1 <= level -> semi_ok w (semi - 2 ^ (level - 1)) (level - 1).
Proof using Hok.
  intros Hl. pose proof (half_pow Hl). destruct Hok as (? & m & ? & -> & ?).
  split; [lia|]. exists (2 * m). replace (level - 1 + 1) with level by lia.
  rewrite Z.pow_add_r in * by lia. lia.
Qed.

Lemma semi_ok_walkmax : 1 <= level -> semi_ok w (semi + 2 ^ (level - 1)) (level - 1).
Proof using Hok.
  intros Hl. pose proof (half_pow Hl). destruct Hok as (? & m & ? & -> & ?).
  split; [lia|]. exists (2 * m + 1). replace (level - 1 + 1) with level by lia.
  rewrite Z.pow_add_r in * by lia. lia.
Qed.

End Macro_facts.

#[export] Hint Resolve semi_ok_walkmin semi_ok_walkmax semi_ok_root : atree.

(** ** The invariant *)

Section Invariant.

Context {T : Type}.
Implicit Types (l nl : leaf T) (t : atree T).

(** A key range the tree supports: it is not empty and covers whole pairs of
    keys (the ranges of the kernel's trees are whole pages). *)
Definition leaf_ok l : Prop :=
  a_vmin l <= a_vmax l /\ Z.even (a_vmin l) = true /\ Z.odd (a_vmax l) = true.

Definition disjoint_leaf l1 l2 : Prop :=
  a_vmax l1 < a_vmin l2 \/ a_vmax l2 < a_vmin l1.

(** The leafs of a branch. *)
Fixpoint elements t : list (leaf T) :=
  match t with
  | ATREE_NULL => []
  | Node l mn mx => l :: elements mn ++ elements mx
  end.

Definition clear_of l t : Prop := Forall (disjoint_leaf l) (elements t).

(** The leaf lies in the keys mapped by the branch ([ATREE_MAPMIN] to
    [ATREE_MAPMAX]). *)
Definition mapped_by (semi level : Z) l : Prop :=
  semi - 2 ^ level <= a_vmin l /\ a_vmax l <= semi + 2 ^ level - 1.

(** Well-formed branch: every node is within the keys of its branch, its
    links lead to the two halves, and ranges never overlap. *)
Fixpoint wf (semi level : Z) t : Prop :=
  match t with
  | ATREE_NULL => True
  | Node l mn mx =>
      leaf_ok l /\ mapped_by semi level l /\
      clear_of l mn /\ clear_of l mx /\
      (level = 0 -> mn = ATREE_NULL /\ mx = ATREE_NULL) /\
      wf (semi - 2 ^ (level - 1)) (level - 1) mn /\
      wf (semi + 2 ^ (level - 1)) (level - 1) mx
  end.

Lemma overlaps_disjoint l1 l2 :
  overlaps l1 l2 = false <-> disjoint_leaf l1 l2.
Proof.
  unfold overlaps, disjoint_leaf. rewrite andb_false_iff, !Z.leb_gt. lia.
Qed.

Lemma covers_spec l k : covers l k = true <-> a_vmin l <= k <= a_vmax l.
Proof. unfold covers. rewrite andb_true_iff, !Z.leb_le. lia. Qed.

Lemma covers_false l k : covers l k = false <-> k < a_vmin l \/ a_vmax l < k.
Proof. unfold covers. rewrite andb_false_iff, !Z.leb_gt. lia. Qed.

Lemma disjoint_leaf_sym l1 l2 : disjoint_leaf l1 l2 -> disjoint_leaf l2 l1.
Proof. unfold disjoint_leaf. lia. Qed.

(** A range of whole pairs that misses the semi key is in one half, and there
    is a level below. *)
Lemma off_semi_level w semi level l :
  semi_ok w semi level -> leaf_ok l -> mapped_by semi level l ->
  covers l semi = false -> 1 <= level.
Proof.
  intros (Hl & m & Hm & -> & _) (Hle & He & Ho) (Hlo & Hhi) Hc.
  apply covers_false in Hc.
  destruct (Z.eq_dec level 0) as [->|]; [|lia].
  apply Z.even_spec in He as [a Ha]. apply Z.odd_spec in Ho as [b Hb].
  change (2 ^ (0 + 1)) with 2 in *. change (2 ^ 0) with 1 in *. lia.
Qed.

Lemma wf_elements semi level t :
  wf semi level t -> 0 <= level ->
  Forall (fun l => leaf_ok l /\ mapped_by semi level l) (elements t).
Proof.
  revert semi level. induction t as [|l mn IHn mx IHx]; intros semi level; simpl.
  { by intros. }
  intros (Hok & Hmap & _ & _ & H0 & Hn & Hx) Hl. constructor; [done|].
  destruct (Z.eq_dec level 0) as [->|Hne].
  { destruct H0 as [-> ->]; [done|]. constructor. }
  pose proof (Z.pow_pos_nonneg 2 (level - 1) ltac:(lia) ltac:(lia)).
  assert (2 ^ level = 2 * 2 ^ (level - 1)) as Hp by (apply half_pow; lia).
  apply Forall_app; split; eapply Forall_impl;
    [apply (IHn _ _ Hn); lia| |apply (IHx _ _ Hx); lia|];
    unfold mapped_by; simpl; intros; rewrite Hp; intuition lia.
Qed.

Lemma clear_of_perm l t t' :
  elements t ≡ₚ elements t' -> clear_of l t -> clear_of l t'.
Proof. unfold clear_of. intros ->. done. Qed.

Lemma clear_of_cons l nl t t' :
  elements t' ≡ₚ nl :: elements t -> disjoint_leaf l nl -> clear_of l t ->
  clear_of l t'.
Proof. unfold clear_of. intros -> ??. by constructor. Qed.

End Invariant.

#[export] Hint Resolve disjoint_leaf_sym : atree.

(** ** Insertion *)

Section Insertion.

Context {T : Type} (w : Z).
Implicit Types (l nl : leaf T) (t : atree T).

(** Ranges of one branch are pairwise disjoint. *)
Fixpoint apart t : Prop :=
  match t with
  | ATREE_NULL => True
  | Node l mn mx =>
      clear_of l mn /\ clear_of l mx /\
      Forall (fun l1 => clear_of l1 mx) (elements mn) /\ apart mn /\ apart mx
  end.

Lemma wf_apart semi level t : wf semi level t -> 0 <= level -> apart t.
Proof.
  revert semi level. induction t as [|l mn IHn mx IHx]; intros semi level; [done|].
  simpl. intros (_ & _ & Hcn & Hcx & H0 & Hn & Hx) Hl.
  destruct (Z.eq_dec level 0) as [->|Hne].
  { destruct H0 as [-> ->]; [done|]. repeat split; done || constructor. }
  assert (0 <= level - 1) as Hl' by lia.
  repeat split; [done..| |eauto|eauto].
  pose proof (wf_elements _ _ _ Hn Hl') as Fn.
  pose proof (wf_elements _ _ _ Hx Hl') as Fx.
  eapply Forall_impl; [exact Fn|]. intros l1 [_ H1].
  eapply Forall_impl; [exact Fx|]. intros l2 [_ H2].
  left. unfold mapped_by in *. lia.
Qed.

(** What inserting [nl] into [t] must achieve. *)
Definition inserted semi level t nl t' : Prop :=
  wf semi level t' /\ elements t' ≡ₚ nl :: elements t.

Definition insert_pre semi level t nl : Prop :=
  wf semi level t /\ leaf_ok nl /\ mapped_by semi level nl /\ clear_of nl t.

Definition inserts_at (f : atree T -> leaf T -> Z -> Z -> outcome (atree T))
    (level : Z) : Prop :=
  forall semi t nl, semi_ok w semi level -> insert_pre semi level t nl ->
  exists t', f t nl semi level = Ret t' /\ inserted semi level t nl t'.

Lemma insertable_true semi level nl :
  semi_ok w semi level -> mapped_by semi level nl ->
  insertable w nl semi level = true.
Proof.
  intros Hs [??]. unfold insertable.
  rewrite (ATREE_MAPMIN_eq _ _ _ Hs), (ATREE_MAPMAX_eq _ _ _ Hs).
  rewrite andb_true_iff, !Z.leb_le. lia.
Qed.

Lemma semi_clear_true nl l semi :
  disjoint_leaf nl l -> covers nl semi = true -> semi_clear l semi = true.
Proof.
  intros Hd Hc. apply covers_spec in Hc. unfold disjoint_leaf in Hd.
  unfold semi_clear. rewrite orb_true_iff, !Z.leb_le. lia.
Qed.

(** The half of the branch a leaf off the semi key belongs to. *)
Lemma insert_pre_half semi level l mn mx nl :
  semi_ok w semi level -> insert_pre semi level (Node l mn mx) nl ->
  covers nl semi = false ->
  1 <= level /\
  (a_vmax nl < semi /\ insert_pre (semi - 2 ^ (level - 1)) (level - 1) mn nl \/
   semi < a_vmin nl /\ insert_pre (semi + 2 ^ (level - 1)) (level - 1) mx nl).
Proof.
  intros Hs (Hwf & Hl & Hm & Hc) Hcov.
  pose proof (off_semi_level _ _ _ _ Hs Hl Hm Hcov) as Hlev. split; [done|].
  pose proof (half_pow _ Hlev) as Hp.
  destruct Hwf as (_ & _ & _ & _ & _ & Hn & Hx).
  inversion_clear Hc as [|?? _ Hc']. apply Forall_app in Hc' as [Hcn Hcx].
  apply covers_false in Hcov. destruct Hl as (? & ? & ?), Hm as (? & ?).
  destruct Hcov.
  - right. split; [lia|]. repeat split; [done..|lia|lia|done].
  - left. split; [lia|]. repeat split; [done..|lia|lia|done].
Qed.

(** Inserting below a node on the side of a leaf keeps the node. *)
Lemma inserted_min semi level l mn mx nl mn' :
  wf semi level (Node l mn mx) -> disjoint_leaf l nl -> 1 <= level ->
  inserted (semi - 2 ^ (level - 1)) (level - 1) mn nl mn' ->
  inserted semi level (Node l mn mx) nl (Node l mn' mx).
Proof.
  intros (? & ? & ? & ? & ? & ? & ?) Hd Hlev [Hwf Hp]. split.
  - repeat split; try done; [apply H|apply H|apply H|apply H0|apply H0| |lia..].
    eapply clear_of_cons; eauto.
  - simpl. rewrite Hp. simpl. apply perm_swap.
Qed.

Lemma inserted_max semi level l mn mx nl mx' :
  wf semi level (Node l mn mx) -> disjoint_leaf l nl -> 1 <= level ->
  inserted (semi + 2 ^ (level - 1)) (level - 1) mx nl mx' ->
  inserted semi level (Node l mn mx) nl (Node l mn mx').
Proof.
  intros (? & ? & ? & ? & ? & ? & ?) Hd Hlev [Hwf Hp]. split.
  - repeat split; try done; [apply H|apply H|apply H|apply H0|apply H0| |lia..].
    eapply clear_of_cons; eauto.
  - simpl. rewrite Hp, <- Permutation_middle. apply perm_swap.
Qed.

(** Re-inserting a branch, for any insertion that keeps [inv]. *)
Lemma reinsertall_ok (ins : atree T -> leaf T -> outcome (atree T))
    (inv : atree T -> Prop) (P : leaf T -> Prop) src acc :
  (forall acc l, inv acc -> P l -> clear_of l acc ->
     exists acc', ins acc l = Ret acc' /\ inv acc' /\
                  elements acc' ≡ₚ l :: elements acc) ->
  Forall P (elements src) -> apart src ->
  Forall (fun l => clear_of l acc) (elements src) -> inv acc ->
  exists acc', reinsertall_with ins acc src = Ret acc' /\ inv acc' /\
               elements acc' ≡ₚ elements src ++ elements acc.
Proof.
  intros Hins. revert acc. induction src as [|l mn IHn mx IHx]; intros acc; simpl.
  { eauto. }
  intros HP (Hcn & Hcx & Hnx & Hn & Hx) Hacc Hinv.
  inversion_clear HP as [|?? HPl HP']. apply Forall_app in HP' as [HPn HPx].
  inversion_clear Hacc as [|?? Hal Hacc']. apply Forall_app in Hacc' as [Han Hax].
  destruct (IHn acc) as (a1 & -> & I1 & E1); [done..|]. simpl.
  destruct (IHx a1) as (a2 & -> & I2 & E2); [done..| |done|].
  { rewrite Forall_forall in Hnx, Hax |- *. intros l2 Hl2.
    unfold clear_of. rewrite E1. apply Forall_app. split; [|by apply Hax].
    apply Forall_forall. intros l1 Hl1. specialize (Hnx l1 Hl1).
    unfold clear_of in Hnx. rewrite Forall_forall in Hnx. eauto with atree. }
  simpl. destruct (Hins a2 l) as (a3 & -> & I3 & E3); [done..| |].
  { unfold clear_of. rewrite E2, E1. by repeat (apply Forall_app; split). }
  exists a3. split; [done|]. split; [done|].
  rewrite E3, E2, E1. rewrite !app_assoc.
  by rewrite (Permutation_app_comm (elements mx)).
Qed.

(** One step of the insertion below a node whose leaf misses the semi key:
    shared by [insert_at] and the loops of its variants. *)
Lemma insert_walk_ok f semi level l mn mx nl :
  semi_ok w semi level -> insert_pre semi level (Node l mn mx) nl ->
  covers nl semi = false -> inserts_at f (level - 1) ->
  exists mn' mx',
    (if a_vmax nl <? semi then
       let! (s, lv) := ATREE_WALKMIN w semi level in
       let! mn := f mn nl s lv in Ret (Node l mn mx)
     else
       assert! semi <? a_vmin nl;;
       let! (s, lv) := ATREE_WALKMAX semi level in
       let! mx := f mx nl s lv in Ret (Node l mn mx)) = Ret (Node l mn' mx') /\
    inserted semi level (Node l mn mx) nl (Node l mn' mx').
Proof.
  intros Hs Hpre Hcov Hf.
  pose proof (insert_pre_half _ _ _ _ _ _ Hs Hpre Hcov) as (Hlev & Hhalf).
  destruct Hpre as (Hwf & Hok & Hm & Hc).
  assert (disjoint_leaf l nl) as Hd
    by (inversion_clear Hc; eauto with atree).
  destruct Hhalf as [[Hlt Hpre']|[Hlt Hpre']].
  - rewrite (proj2 (Z.ltb_lt _ _) Hlt), (ATREE_WALKMIN_eq _ _ _ Hs Hlev). simpl.
    destruct (Hf _ mn nl (semi_ok_walkmin _ _ _ Hs Hlev) Hpre') as (mn' & -> & Hi).
    simpl. exists mn', mx. split; [done|]. by apply inserted_min.
  - destruct (Z.ltb_spec (a_vmax nl) semi) as [|_]; [destruct Hok; lia|].
    rewrite (proj2 (Z.ltb_lt _ _) Hlt), (ATREE_WALKMAX_eq _ _ _ Hs Hlev). simpl.
    destruct (Hf _ mx nl (semi_ok_walkmax _ _ _ Hs Hlev) Hpre') as (mx' & -> & Hi).
    simpl. exists mn, mx'. split; [done|]. by apply inserted_max.
Qed.

(** Into a branch whose root covers the semi key, [insert_at] only walks. *)
Lemma insert_below n semi level l mn mx nl :
  semi_ok w semi level -> insert_pre semi level (Node l mn mx) nl ->
  covers l semi = true -> inserts_at (insert_fuel w n) (level - 1) ->
  exists mn' mx',
    insert_fuel w (S n) (Node l mn mx) nl semi level = Ret (Node l mn' mx') /\
    inserted semi level (Node l mn mx) nl (Node l mn' mx').
Proof.
  intros Hs Hpre Hcov Hf. pose proof Hpre as (Hwf & Hok & Hm & Hc).
  assert (disjoint_leaf nl l) as Hd by (inversion_clear Hc; done).
  assert (covers nl semi = false) as Hoff.
  { apply covers_false. apply covers_spec in Hcov. unfold disjoint_leaf in Hd. lia. }
  cbn [insert_fuel]. rewrite (insertable_true _ _ _ Hs Hm). cbn [oassert].
  rewrite (proj2 (overlaps_disjoint nl l) Hd). cbn [negb oassert]. rewrite Hoff.
  by apply insert_walk_ok.
Qed.

(** Replacing the root of a branch by a leaf that covers its semi key. *)
Lemma replace_root_ok n semi level t nl :
  semi_ok w semi level -> insert_pre semi level t nl ->
  covers nl semi = true -> inserts_at (insert_fuel w n) (level - 1) ->
  exists mn mx,
    reinsertall_with (fun t l => insert_fuel w (S n) t l semi level)
      (Node nl ATREE_NULL ATREE_NULL) t = Ret (Node nl mn mx) /\
    inserted semi level t nl (Node nl mn mx).
Proof.
  intros Hs (Hwf & Hok & Hm & Hc) Hcov Hf. pose proof (proj1 Hs) as [Hl _].
  destruct (reinsertall_ok
    (fun t l => insert_fuel w (S n) t l semi level)
    (fun t => wf semi level t /\ exists mn mx, t = Node nl mn mx)
    (fun l => leaf_ok l /\ mapped_by semi level l) t (Node nl ATREE_NULL ATREE_NULL))
    as (? & -> & [Hwf' (mn' & mx' & ->)] & Hp).
  - intros acc l [Ha (mn & mx & ->)] [Hlo Hlm] Hla.
    destruct (insert_below n semi level nl mn mx l) as (mn' & mx' & -> & Hw & Hp);
      [done|done|done|done|]. eauto 10.
  - by apply wf_elements.
  - by eapply wf_apart.
  - eapply Forall_impl; [exact Hc|]. intros l Hd. constructor; [|constructor].
    eauto with atree.
  - split; [|eauto]. repeat split; [apply Hok..|apply Hm|apply Hm|constructor|constructor].
  - exists mn', mx'. split; [done|]. split; [done|]. rewrite Hp. simpl.
    by rewrite <- Permutation_cons_append.
Qed.

Lemma insert_fuel_ok (k : nat) n :
  (2 * k + 2 <= n)%nat -> inserts_at (insert_fuel w n) (Z.of_nat k).
Proof.
  revert n. induction k as [k IH] using lt_wf_ind.
  intros n Hn semi t nl Hs Hpre. pose proof Hpre as (Hwf & Hok & Hm & Hc).
  destruct n as [|[|n]]; [lia..|].
  assert (Hlow : inserts_at (insert_fuel w n) (Z.of_nat k - 1) /\
                 inserts_at (insert_fuel w (S n)) (Z.of_nat k - 1)).
  { destruct k as [|k]; [by split; intros ??? [? _]; lia|].
    replace (Z.of_nat (S k) - 1) with (Z.of_nat k) by lia. split; apply IH; lia. }
  destruct Hlow as [Hlow1 Hlow2].
  cbn [insert_fuel]. rewrite (insertable_true _ _ _ Hs Hm). cbn [oassert].
  destruct t as [|l mn mx].
  { eexists. split; [done|]. split; [|done].
    repeat split; [apply Hok..|apply Hm|apply Hm|constructor|constructor]. }
  assert (disjoint_leaf nl l) as Hd by (inversion_clear Hc; done).
  rewrite (proj2 (overlaps_disjoint nl l) Hd). cbn [negb oassert].
  destruct (covers nl semi) eqn:Hcov.
  - rewrite (semi_clear_true _ _ _ Hd Hcov).
    destruct (replace_root_ok n _ _ _ _ Hs Hpre Hcov Hlow1) as (? & ? & ? & ?). eauto.
  - destruct (insert_walk_ok (insert_fuel w (S n)) _ _ _ _ _ _ Hs Hpre Hcov Hlow2)
      as (mn' & mx' & E & Hi). eauto.
Qed.

End Insertion.

Section Insert_theorems.

Context {T : Type} (w : Z).
Implicit Types (l nl : leaf T) (t : atree T).

Lemma atree_fuel_ok level : 0 <= level ->
  inserts_at (T:=T) w (insert_fuel w (atree_fuel level)) level.
Proof.
  intros. rewrite <- (Z2Nat.id level) at 2 by done.
  apply insert_fuel_ok. unfold atree_fuel. lia.
Qed.

Lemma insert_at_inserts level : inserts_at (T:=T) w (insert_at w) level.
Proof.
  intros semi t nl Hs. apply atree_fuel_ok; [|done]. destruct Hs; lia.
Qed.

(** Replacing the root, with the fuel of [insert_at]. *)
Lemma priv_reinsertall_root_ok semi level t nl :
  semi_ok w semi level -> insert_pre semi level t nl -> covers nl semi = true ->
  exists mn mx,
    priv_reinsertall w (Node nl ATREE_NULL ATREE_NULL) t semi level
      = Ret (Node nl mn mx) /\
    inserted semi level t nl (Node nl mn mx).
Proof.
  intros Hs Hpre Hcov. destruct Hs as [Hl Hm] eqn:E. clear E.
  unfold priv_reinsertall, insert_at.
  replace (atree_fuel level) with (S (Z.to_nat (2 * level + 1))) by (unfold atree_fuel; lia).
  apply replace_root_ok; [done..|].
  destruct (Z.eq_dec level 0) as [->|]; [by intros ??? [? _]; lia|].
  replace (level - 1) with (Z.of_nat (Z.to_nat (level - 1))) by lia.
  apply insert_fuel_ok. lia.
Qed.

(** The semi key and level of a slot. *)
Fixpoint slot_semi (semi level : Z) (p : list link) : Z * Z :=
  match p with
  | [] => (semi, level)
  | MIN :: p => slot_semi (semi - 2 ^ (level - 1)) (level - 1) p
  | MAX :: p => slot_semi (semi + 2 ^ (level - 1)) (level - 1) p
  end.

Lemma pinsert_at_ok semi level t nl :
  semi_ok w semi level -> insert_pre semi level t nl ->
  exists p t',
    pinsert_at w t nl semi level =
      Ret (p, (slot_semi semi level p).1, (slot_semi semi level p).2, t') /\
    inserted semi level t nl t' /\
    (exists mn mx, slot_get t' p = Node nl mn mx).
Proof.
  revert semi level. induction t as [|l mn IHn mx IHx]; intros semi level Hs Hpre;
    pose proof Hpre as (Hwf & Hok & Hm & Hc); cbn [pinsert_at];
    rewrite (insertable_true _ _ _ _ Hs Hm); cbn [oassert].
  { exists [], (Node nl ATREE_NULL ATREE_NULL). split; [done|]. split; [|by do 2 eexists].
    split; [|done].
    repeat split; [apply Hok..|apply Hm|apply Hm|constructor|constructor]. }
  assert (disjoint_leaf nl l) as Hd by (inversion_clear Hc; done).
  rewrite (proj2 (overlaps_disjoint nl l) Hd). cbn [negb oassert].
  destruct (covers nl semi) eqn:Hcov.
  { rewrite (semi_clear_true _ _ _ Hd Hcov). cbn [oassert].
    destruct (priv_reinsertall_root_ok _ _ _ _ Hs Hpre Hcov) as (mn' & mx' & E & Hi).
    rewrite E. exists [], (Node nl mn' mx'). split; [done|]. split; [done|]. by do 2 eexists. }
  pose proof (insert_pre_half _ _ _ _ _ _ _ Hs Hpre Hcov) as (Hlev & [[Hlt Hpre']|[Hlt Hpre']]).
  - rewrite (proj2 (Z.ltb_lt _ _) Hlt), (ATREE_WALKMIN_eq _ _ _ Hs Hlev). simpl.
    destruct (IHn _ _ (semi_ok_walkmin _ _ _ Hs Hlev) Hpre') as (p & mn' & -> & Hi & Hp).
    exists (MIN :: p), (Node l mn' mx). split; [done|]. split; [|done].
    apply inserted_min; eauto with atree.
  - destruct (Z.ltb_spec (a_vmax nl) semi) as [|_]; [destruct Hok; lia|].
    rewrite (proj2 (Z.ltb_lt _ _) Hlt), (ATREE_WALKMAX_eq _ _ _ Hs Hlev). simpl.
    destruct (IHx _ _ (semi_ok_walkmax _ _ _ Hs Hlev) Hpre') as (p & mx' & -> & Hi & Hp).
    exists (MAX :: p), (Node l mn mx'). split; [done|]. split; [|done].
    apply inserted_max; eauto with atree.
Qed.

(** Re-insertion below a root that covers the semi key only succeeds when
    nothing overlaps that root. *)
Lemma insert_fuel_root n semi level nl a b l t' :
  covers nl semi = true ->
  insert_fuel w n (Node nl a b) l semi level = Ret t' ->
  disjoint_leaf nl l /\ exists a' b', t' = Node nl a' b'.
Proof.
  intros Hcov. destruct n as [|n]; [done|]. cbn [insert_fuel].
  intros [_ [Ho H]%oassert_Ret_inv]%oassert_Ret_inv. bsimp.
  apply overlaps_disjoint in Ho. split; [by apply disjoint_leaf_sym|].
  rewrite (proj2 (covers_false l semi)) in H
    by (apply covers_spec in Hcov; unfold disjoint_leaf in Ho; lia).
  destruct (_ <? _); [|apply oassert_Ret_inv in H as [_ H]].
  all: apply obind_Ret_inv in H as ([s lv] & _ & H);
    apply obind_Ret_inv in H as (? & _ & [= <-]); by do 2 eexists.
Qed.

Lemma reinsertall_root n semi level nl a b src t' :
  covers nl semi = true ->
  reinsertall_with (fun t l => insert_fuel w n t l semi level) (Node nl a b) src = Ret t' ->
  clear_of nl src /\ exists a' b', t' = Node nl a' b'.
Proof.
  intros Hcov. revert a b t'. induction src as [|l mn IHn mx IHx]; intros a b t'; simpl.
  { intros [= <-]. split; [constructor|]. by do 2 eexists. }
  intros (t1 & (Hn & a1 & b1 & ->)%IHn & (t2 & (Hx & a2 & b2 & ->)%IHx & H3)%obind_Ret_inv)%obind_Ret_inv.
  apply insert_fuel_root in H3 as (Hd & Hr); [|done]. split; [|done].
  constructor; [done|]. by apply Forall_app.
Qed.

(** A leaf in one half never meets the other half. *)
Lemma clear_of_halves semi level l mn mx nl :
  wf semi level (Node l mn mx) -> 1 <= level -> disjoint_leaf nl l ->
  (a_vmax nl < semi -> clear_of nl (Node l mn mx) <-> clear_of nl mn) /\
  (semi < a_vmin nl -> clear_of nl (Node l mn mx) <-> clear_of nl mx).
Proof.
  intros (_ & _ & _ & _ & _ & Hn & Hx) Hl Hd. unfold clear_of; simpl.
  rewrite Forall_cons, Forall_app.
  pose proof (wf_elements _ _ _ Hn ltac:(lia)) as Fn.
  pose proof (wf_elements _ _ _ Hx ltac:(lia)) as Fx.
  split; intros Hlt; (split; [tauto|]); intros Hc; (split; [done|]); split; try done.
  - eapply Forall_impl; [exact Fx|]. intros x [_ [? ?]]. left. lia.
  - eapply Forall_impl; [exact Fn|]. intros x [_ [? ?]]. right. lia.
Qed.

(** [tryinsert_at] on a well-formed branch. *)
Lemma tryinsert_at_ok semi level t nl :
  semi_ok w semi level -> wf semi level t -> leaf_ok nl -> mapped_by semi level nl ->
  match tryinsert_at w t nl semi level with
  | Ret (true, t') => clear_of nl t /\ inserted semi level t nl t'
  | Ret (false, t') => t' = t /\ ~ clear_of nl t
  | Abort => ~ clear_of nl t
  end.
Proof.
  revert semi level. induction t as [|l mn IHn mx IHx]; intros semi level Hs Hwf Hok Hm;
    cbn [tryinsert_at]; rewrite (insertable_true _ _ _ _ Hs Hm); cbn [oassert].
  { split; [constructor|]. split; [|done].
    repeat split; [apply Hok..|apply Hm|apply Hm|constructor|constructor]. }
  destruct (overlaps nl l) eqn:Hov.
  { split; [done|]. intros Hc. inversion_clear Hc as [|?? Hd _].
    apply overlaps_disjoint in Hd. congruence. }
  pose proof (proj1 (overlaps_disjoint nl l) Hov) as Hd.
  destruct (covers nl semi) eqn:Hcov.
  { rewrite (semi_clear_true _ _ _ Hd Hcov). cbn [oassert].
    destruct (priv_reinsertall _ _ _ _ _) as [t'|] eqn:E; simpl.
    - pose proof (reinsertall_root _ _ _ _ _ _ _ _ Hcov E) as [Hc _]. split; [done|].
      destruct (priv_reinsertall_root_ok semi level (Node l mn mx) nl) as (? & ? & E' & ?);
        [done..|]. rewrite E' in E. by injection E as <-.
    - intros Hc. destruct (priv_reinsertall_root_ok semi level (Node l mn mx) nl)
        as (? & ? & E' & ?); [done..|]. congruence. }
  pose proof (off_semi_level _ _ _ _ Hs Hok Hm Hcov) as Hlev.
  pose proof (half_pow _ Hlev) as Hp. pose proof Hwf as (_ & _ & _ & _ & _ & Hn & Hx).
  destruct (clear_of_halves _ _ _ _ _ _ Hwf Hlev Hd) as [Hmin Hmax].
  apply covers_false in Hcov. unfold mapped_by in Hm.
  destruct (Z.ltb_spec (a_vmax nl) semi) as [Hlt|Hge].
  - rewrite (ATREE_WALKMIN_eq _ _ _ Hs Hlev). simpl.
    specialize (IHn _ _ (semi_ok_walkmin _ _ _ Hs Hlev) Hn Hok).
    destruct (tryinsert_at _ mn _ _ _) as [[[] mn']|]; simpl;
      rewrite (Hmin Hlt);
      ((destruct IHn as [Hc Hi]; [unfold mapped_by; lia|]) || (apply IHn; unfold mapped_by; lia)).
    + split; [done|]. apply inserted_min; eauto with atree.
    + by rewrite Hc.
  - assert (semi < a_vmin nl) as Hlt by (destruct Hok; lia).
    rewrite (proj2 (Z.ltb_lt _ _) Hlt), (ATREE_WALKMAX_eq _ _ _ Hs Hlev). simpl.
    specialize (IHx _ _ (semi_ok_walkmax _ _ _ Hs Hlev) Hx Hok).
    destruct (tryinsert_at _ mx _ _ _) as [[[] mx']|]; simpl;
      rewrite (Hmax Hlt);
      ((destruct IHx as [Hc Hi]; [unfold mapped_by; lia|]) || (apply IHx; unfold mapped_by; lia)).
    + split; [done|]. apply inserted_max; eauto with atree.
    + by rewrite Hc.
Qed.

End Insert_theorems.

(** ** Lookup and removal *)

Section Lookup.

Context {T : Type} (w : Z).
Implicit Types (l : leaf T) (t : atree T).

Definition key_in (semi level key : Z) : Prop :=
  semi - 2 ^ level <= key <= semi + 2 ^ level - 1.

Lemma branch_ok_true semi level l mn mx :
  semi_ok w semi level -> wf semi level (Node l mn mx) ->
  branch_ok w l semi level = true.
Proof.
  intros Hs ((? & _ & _) & (? & ?) & _). unfold branch_ok.
  rewrite (ATREE_MAPMIN_eq _ _ _ Hs), (ATREE_MAPMAX_eq _ _ _ Hs).
  rewrite !andb_true_iff, !Z.leb_le. lia.
Qed.

(** A key of the branch that the root misses lies in one half; below level 0
    there is no such key. *)
Lemma key_in_half semi level l mn mx key :
  semi_ok w semi level -> wf semi level (Node l mn mx) -> key_in semi level key ->
  covers l key = false ->
  1 <= level /\
  (key < semi -> key_in (semi - 2 ^ (level - 1)) (level - 1) key) /\
  (semi <= key -> key_in (semi + 2 ^ (level - 1)) (level - 1) key).
Proof.
  intros Hs (Hok & Hm & _) Hk Hc. apply covers_false in Hc.
  assert (1 <= level) as Hlev.
  { destruct Hs as (Hl & m & Hm0 & -> & _), Hok as (Hle & He & Ho), Hm as [Hlo Hhi].
    destruct (Z.eq_dec level 0) as [->|]; [|lia].
    apply Z.even_spec in He as [a Ha]. apply Z.odd_spec in Ho as [b Hb].
    unfold key_in in Hk.
    change (2 ^ (0 + 1)) with 2 in *. change (2 ^ 0) with 1 in *. lia. }
  pose proof (half_pow _ Hlev). unfold key_in in *. lia.
Qed.

(** Leafs of the other half do not cover the key. *)
Lemma not_in_half semi level l mn mx key :
  wf semi level (Node l mn mx) -> 1 <= level -> covers l key = false ->
  (key < semi -> Forall (fun x => covers x key = false) (elements mn) ->
   Forall (fun x => covers x key = false) (elements (Node l mn mx))) /\
  (semi <= key -> Forall (fun x => covers x key = false) (elements mx) ->
   Forall (fun x => covers x key = false) (elements (Node l mn mx))).
Proof.
  intros (_ & _ & _ & _ & _ & Hn & Hx) Hl Hc. simpl.
  pose proof (wf_elements _ _ _ Hn ltac:(lia)) as Fn.
  pose proof (wf_elements _ _ _ Hx ltac:(lia)) as Fx.
  split; intros Hlt Hf; (constructor; [done|]); apply Forall_app; split; try done.
  - eapply Forall_impl; [exact Fx|]. intros x [_ [? ?]]. apply covers_false. lia.
  - eapply Forall_impl; [exact Fn|]. intros x [_ [? ?]]. apply covers_false. lia.
Qed.

Lemma plocate_at_ok semi level t key :
  semi_ok w semi level -> wf semi level t -> key_in semi level key ->
  (exists p l mn mx,
     plocate_at w t key semi level =
       Ret (Some (p, (slot_semi semi level p).1, (slot_semi semi level p).2)) /\
     locate_at w t key semi level = Ret (Some l) /\
     slot_get t p = Node l mn mx /\ covers l key = true) \/
  (plocate_at w t key semi level = Ret None /\
   locate_at w t key semi level = Ret None /\
   Forall (fun l => covers l key = false) (elements t)).
Proof.
  revert semi level. induction t as [|l mn IHn mx IHx]; intros semi level Hs Hwf Hk.
  { right. repeat split. constructor. }
  cbn [plocate_at locate_at]. rewrite (branch_ok_true _ _ _ _ _ Hs Hwf). cbn [oassert].
  destruct (covers l key) eqn:Hc.
  { left. exists [], l, mn, mx. done. }
  pose proof (key_in_half _ _ _ _ _ _ Hs Hwf Hk Hc) as (Hlev & Hkn & Hkx).
  pose proof (not_in_half _ _ _ _ _ _ Hwf Hlev Hc) as [Hfn Hfx].
  pose proof Hwf as (_ & _ & _ & _ & _ & Hn & Hx).
  rewrite (proj2 (Z.eqb_neq level 0)) by lia. cbn [negb oassert].
  destruct (Z.ltb_spec key semi) as [Hlt|Hge].
  - rewrite (ATREE_WALKMIN_eq _ _ _ Hs Hlev). cbn [obind].
    destruct (IHn _ _ (semi_ok_walkmin _ _ _ Hs Hlev) Hn (Hkn Hlt))
      as [(p & l' & a & b & -> & -> & Hg & Hcv)|(-> & -> & Hf)].
    + left. exists (MIN :: p), l', a, b. done.
    + right. repeat split. by apply Hfn.
  - rewrite (ATREE_WALKMAX_eq _ _ _ Hs Hlev). cbn [obind].
    destruct (IHx _ _ (semi_ok_walkmax _ _ _ Hs Hlev) Hx (Hkx Hge))
      as [(p & l' & a & b & -> & -> & Hg & Hcv)|(-> & -> & Hf)].
    + left. exists (MAX :: p), l', a, b. done.
    + right. repeat split. by apply Hfx.
Qed.

Lemma slot_semi_ok semi level t p l mn mx :
  semi_ok w semi level -> wf semi level t -> slot_get t p = Node l mn mx ->
  let '(s, lv) := slot_semi semi level p in
  semi_ok w s lv /\ wf s lv (Node l mn mx).
Proof.
  revert semi level t. induction p as [|[] p IH]; intros semi level t Hs Hwf;
    [simpl; by intros ->|..]; (destruct t as [|l0 mn0 mx0]; [done|]); simpl; intros Hg.
  all: destruct Hwf as (_ & _ & _ & _ & H0 & Hn & Hx).
  all: assert (1 <= level) by
    (destruct (Z.eq_dec level 0) as [->|]; [|destruct Hs; lia];
     destruct H0 as [-> ->]; [done|]; by destruct p as [|[] ?]).
  all: eapply IH; [|eassumption|exact Hg]; eauto with atree.
Qed.

(** Writing a slot whose branch lost the leaf [l]. *)
Lemma slot_set_ok semi level t p s lv l r s' :
  wf semi level t -> slot_get t p = r -> slot_semi semi level p = (s, lv) ->
  elements r ≡ₚ l :: elements s' -> wf s lv s' ->
  wf semi level (slot_set t p s') /\ elements t ≡ₚ l :: elements (slot_set t p s').
Proof.
  revert semi level t. induction p as [|d p IH]; intros semi level t Hwf Hg Hss He Hs'.
  { simpl in *. by simplify_eq. }
  destruct t as [|l0 mn mx].
  { destruct d; simpl in Hg; subst r; simpl in He; by apply Permutation_nil_cons in He. }
  destruct Hwf as (Hok & Hm & Hcn & Hcx & H0 & Hn & Hx).
  destruct d; simpl in *.
  - destruct (IH _ _ _ Hn Hg Hss He Hs') as [IH1 IH2].
    unfold clear_of in Hcn. rewrite IH2 in Hcn. apply Forall_cons in Hcn as [_ Hcn].
    repeat split; try done; try apply Hok; try apply Hm.
    + destruct (H0 H) as [-> _]. destruct p as [|[] p]; simpl in *; try done.
      subst r. by apply Permutation_nil_cons in He.
    + by destruct (H0 H).
    + rewrite IH2. apply perm_swap.
  - destruct (IH _ _ _ Hx Hg Hss He Hs') as [IH1 IH2].
    unfold clear_of in Hcx. rewrite IH2 in Hcx. apply Forall_cons in Hcx as [_ Hcx].
    repeat split; try done; try apply Hok; try apply Hm.
    + by destruct (H0 H).
    + destruct (H0 H) as [_ ->]. destruct p as [|[] p]; simpl in *; try done.
      subst r. by apply Permutation_nil_cons in He.
    + rewrite IH2, <- Permutation_middle. apply perm_swap.
Qed.

Lemma pop_at_ok semi level l mn mx :
  semi_ok w semi level -> wf semi level (Node l mn mx) ->
  exists t', pop_at w (Node l mn mx) semi level = Ret (l, t') /\
             wf semi level t' /\ elements t' ≡ₚ elements mn ++ elements mx.
Proof.
  intros Hs Hwf. pose proof (proj1 Hs) as [Hl _].
  pose proof (wf_apart _ _ _ Hwf Hl) as (_ & _ & Hnx & Han & Hax).
  pose proof (wf_elements _ _ _ Hwf Hl) as F. simpl in F.
  apply Forall_cons in F as [_ F]. apply Forall_app in F as [Fn Fx].
  assert (Hins : forall (acc : atree T) x, wf semi level acc ->
    leaf_ok x /\ mapped_by semi level x -> clear_of x acc ->
    exists acc', insert_at w acc x semi level = Ret acc' /\ wf semi level acc' /\
                 elements acc' ≡ₚ x :: elements acc).
  { intros acc x ? [? ?] ?. by apply insert_at_inserts. }
  unfold pop_at, priv_reinsertall.
  destruct (reinsertall_ok _ _ _ mn ATREE_NULL Hins Fn Han) as (t1 & -> & W1 & E1);
    [by apply Forall_true; constructor|done|]. simpl in E1. rewrite app_nil_r in E1.
  cbn [obind].
  destruct (reinsertall_ok _ _ _ mx t1 Hins Fx Hax) as (t2 & -> & W2 & E2); [|done|].
  { rewrite Forall_forall in Hnx |- *. intros x Hx. unfold clear_of. rewrite E1.
    apply Forall_forall. intros y Hy. specialize (Hnx y Hy). unfold clear_of in Hnx.
    rewrite Forall_forall in Hnx. eauto with atree. }
  exists t2. split; [done|]. split; [done|]. rewrite E2, E1. apply Permutation_app_comm.
Qed.

Lemma remove_at_ok semi level t key :
  semi_ok w semi level -> wf semi level t -> key_in semi level key ->
  (exists l t', remove_at w t key semi level = Ret (Some l, t') /\
     covers l key = true /\ wf semi level t' /\ elements t ≡ₚ l :: elements t') \/
  (remove_at w t key semi level = Ret (None, t) /\
   Forall (fun l => covers l key = false) (elements t)).
Proof.
  intros Hs Hwf Hk. unfold remove_at.
  destruct (plocate_at_ok _ _ _ _ Hs Hwf Hk)
    as [(p & l & mn & mx & -> & _ & Hg & Hc)|(-> & _ & Hf)]; [left|right; done].
  cbn [obind]. pose proof (slot_semi_ok _ _ _ _ _ _ _ Hs Hwf Hg) as Hss.
  destruct (slot_semi semi level p) as [s lv] eqn:Es. destruct Hss as [Hss Hsw].
  rewrite Hg. cbn [fst snd]. destruct (pop_at_ok _ _ _ _ _ Hss Hsw) as (s' & -> & Hw' & Hp).
  cbn [obind]. exists l, (slot_set t p s'). split; [done|]. split; [done|].
  eapply slot_set_ok; eauto. simpl. by rewrite Hp.
Qed.

End Lookup.

(** ** The tree at the root of the key space *)

Section Root.

Context {T : Type} (w : Z).
Implicit Types (l nl : leaf T) (t : atree T).

Definition tree_ok t : Prop := wf (ATREE_SEMI0 w) (ATREE_LEVEL0 w) t.

(** A range of whole pairs of [w]-bit keys. *)
Definition fits l : Prop := leaf_ok l /\ 0 <= a_vmin l /\ a_vmax l < 2 ^ w.

Lemma root_keys : 0 < w ->
  ATREE_SEMI0 w - 2 ^ ATREE_LEVEL0 w = 0 /\
  ATREE_SEMI0 w + 2 ^ ATREE_LEVEL0 w = 2 ^ w.
Proof.
  intros Hw. pose proof (semi_ok_root w Hw) as Hs.
  pose proof (semi_ok_bounds _ _ _ Hs). unfold ATREE_LEVEL0 in *.
  assert (2 ^ w = 2 * 2 ^ (w - 1)) by (apply half_pow; lia). lia.
Qed.

Lemma fits_pre t nl : 0 < w -> tree_ok t -> fits nl -> clear_of nl t ->
  insert_pre (ATREE_SEMI0 w) (ATREE_LEVEL0 w) t nl.
Proof.
  intros Hw Ht (Hok & ? & ?) Hc. pose proof (root_keys Hw).
  repeat split; try done; [apply Hok..| |]; lia.
Qed.

Lemma key_root key : 0 < w -> 0 <= key < 2 ^ w ->
  key_in (ATREE_SEMI0 w) (ATREE_LEVEL0 w) key.
Proof. intros Hw ?. pose proof (root_keys Hw). unfold key_in. lia. Qed.

Lemma apart_unique t l1 l2 key :
  apart t -> l1 ∈ elements t -> l2 ∈ elements t ->
  covers l1 key = true -> covers l2 key = true -> l1 = l2.
Proof.
  intros Ha H1 H2 C1 C2. apply covers_spec in C1, C2.
  assert (forall x y : leaf T, disjoint_leaf x y -> a_vmin x <= key <= a_vmax x ->
            a_vmin y <= key <= a_vmax y -> False) as Hno
    by (unfold disjoint_leaf; lia).
  induction t as [|l mn IHn mx IHx]; simpl in *; [by apply elem_of_nil in H1|].
  destruct Ha as (Hn & Hx & Hnx & Ha1 & Ha2). unfold clear_of in *.
  rewrite Forall_forall in Hn, Hx, Hnx. setoid_rewrite Forall_forall in Hnx.
  rewrite elem_of_cons, elem_of_app in H1, H2.
  destruct H1 as [->|[H1|H1]], H2 as [->|[H2|H2]]; eauto; exfalso; eauto using disjoint_leaf_sym.
Qed.

Lemma slot_get_elem t p l mn mx : slot_get t p = Node l mn mx -> l ∈ elements t.
Proof.
  revert t. induction p as [|[] p IH]; intros [|l0 mn0 mx0]; simpl; intros Hg;
    simplify_eq/=; rewrite ?elem_of_cons, ?elem_of_app; eauto.
Qed.

(** C36: [insert] into a well-formed tree of a range that begins with an even key, ends with an odd
    one (the kernel's are whole pages; [single_keys_exhaust_levels]), fits in the key type and
    overlaps no mapped range: it terminates without a failing assertion, keeps the tree well formed
    and adds exactly that range, re-insertions of whole branches included. *)
Theorem insert_correct t nl :
  0 < w -> tree_ok t -> fits nl -> clear_of nl t ->
  exists t', insert w t nl = Ret t' /\ tree_ok t' /\
             elements t' ≡ₚ nl :: elements t.
Proof.
  intros Hw Ht Hf Hc. apply insert_at_inserts; [by apply semi_ok_root|].
  by apply fits_pre.
Qed.

(** [locate] on any key of the key space returns the leaf whose range
    covers the key, and [ATREE_NULL] exactly when no leaf does; the assertion
    on the remaining levels never fails. *)
Theorem locate_correct t key :
  0 < w -> tree_ok t -> 0 <= key < 2 ^ w ->
  exists r, locate w t key = Ret r /\
    forall l, r = Some l <-> l ∈ elements t /\ covers l key = true.
Proof.
  intros Hw Ht Hk. pose proof (semi_ok_root w Hw) as Hs.
  assert (apart t) as Ha by (eapply wf_apart; [exact Ht|unfold ATREE_LEVEL0; lia]).
  pose proof (key_root _ Hw Hk) as Hki.
  destruct (plocate_at_ok w _ _ _ _ Hs Ht Hki)
    as [(p & l & mn & mx & _ & Hl & Hg & Hc)|(_ & Hl & Hf)];
    unfold locate; rewrite Hl; eexists; (split; [done|]); intros l'; split.
  - intros [= <-]. split; [|done]. by eapply slot_get_elem.
  - intros [Hin Hc']. f_equal. eapply apart_unique; eauto using slot_get_elem.
  - done.
  - intros [Hin Hc']. rewrite Forall_forall in Hf. by rewrite Hf in Hc'.
Qed.

(** [remove] takes out exactly the leaf that covers the key, whatever
    branches that leaf had, and leaves the tree untouched when no leaf does. *)
Theorem remove_correct t key :
  0 < w -> tree_ok t -> 0 <= key < 2 ^ w ->
  (exists l t', remove w t key = Ret (Some l, t') /\ covers l key = true /\
     tree_ok t' /\ elements t ≡ₚ l :: elements t') \/
  (remove w t key = Ret (None, t) /\
   Forall (fun l => covers l key = false) (elements t)).
Proof.
  intros Hw Ht Hk. apply remove_at_ok; [by apply semi_ok_root|done|].
  by apply key_root.
Qed.

(** Whenever [tryinsert] returns, its answer is right: [true] means the
    range was free and is now mapped, [false] means it was taken and the tree is
    unchanged.  It stops on a failing assertion only for a taken range. *)
Theorem tryinsert_correct t nl :
  0 < w -> tree_ok t -> fits nl ->
  match tryinsert w t nl with
  | Ret (true, t') => clear_of nl t /\ tree_ok t' /\ elements t' ≡ₚ nl :: elements t
  | Ret (false, t') => t' = t /\ ~ clear_of nl t
  | Abort => ~ clear_of nl t
  end.
Proof.
  intros Hw Ht (Hok & ? & ?). apply tryinsert_at_ok; [by apply semi_ok_root|done|done|].
  pose proof (root_keys Hw). unfold mapped_by. lia.
Qed.

(** [pinsert_at] inserts like [insert_at] and returns the slot that holds
    the new leaf, with the semi key and level of that slot. *)
Theorem pinsert_at_correct t nl :
  0 < w -> tree_ok t -> fits nl -> clear_of nl t ->
  exists p s lv t' mn mx,
    pinsert_at w t nl (ATREE_SEMI0 w) (ATREE_LEVEL0 w) = Ret (p, s, lv, t') /\
    slot_get t' p = Node nl mn mx /\ semi_ok w s lv /\ wf s lv (Node nl mn mx) /\
    tree_ok t' /\ elements t' ≡ₚ nl :: elements t.
Proof.
  intros Hw Ht Hf Hc. pose proof (semi_ok_root w Hw) as Hs.
  destruct (pinsert_at_ok w _ _ _ _ Hs (fits_pre _ _ Hw Ht Hf Hc))
    as (p & t' & E & [Hwf Hp] & mn & mx & Hg).
  pose proof (slot_semi_ok w _ _ _ _ _ _ _ Hs Hwf Hg) as Hss.
  destruct (slot_semi _ _ p) as [s lv]. destruct Hss. eauto 15.
Qed.

Fixpoint height t : Z :=
  match t with
  | ATREE_NULL => 0
  | Node _ mn mx => 1 + Z.max (height mn) (height mx)
  end.

Lemma height_nonneg t : 0 <= height t.
Proof. induction t; simpl; lia. Qed.

Lemma height_level semi level t :
  wf semi level t -> 0 <= level -> height t <= level + 1.
Proof.
  revert semi level. induction t as [|l mn IHn mx IHx]; intros semi level; simpl; [lia|].
  intros (_ & _ & _ & _ & H0 & Hn & Hx) Hl.
  destruct (Z.eq_dec level 0) as [->|].
  { destruct H0 as [-> ->]; [done|]. simpl. lia. }
  specialize (IHn _ _ Hn ltac:(lia)). specialize (IHx _ _ Hx ltac:(lia)). lia.
Qed.

(** *** Sequences of calls *)

Inductive tree_call : Type :=
| C_insert (l : leaf T)
| C_remove (key : Z)
| C_locate (key : Z).

Definition exec_call (c : tree_call) t : outcome (option (leaf T) * atree T) :=
  match c with
  | C_insert l => let! t := insert w t l in Ret (None, t)
  | C_remove key => remove w t key
  | C_locate key => let! r := locate w t key in Ret (r, t)
  end.

Fixpoint exec_calls (cs : list tree_call) t : outcome (list (option (leaf T)) * atree T) :=
  match cs with
  | [] => Ret ([], t)
  | c :: cs => let! (r, t) := exec_call c t in let! (rs, t) := exec_calls cs t in Ret (r :: rs, t)
  end.

(** What the calls mean for a plain list of ranges. *)
Definition list_call (c : tree_call) (ls : list (leaf T)) : option (leaf T) * list (leaf T) :=
  match c with
  | C_insert l => (None, l :: ls)
  | C_remove key => (List.find (fun l => covers l key) ls, filter (fun l => covers l key = false) ls)
  | C_locate key => (List.find (fun l => covers l key) ls, ls)
  end.

Fixpoint list_calls (cs : list tree_call) (ls : list (leaf T)) : list (option (leaf T)) * list (leaf T) :=
  match cs with
  | [] => ([], ls)
  | c :: cs => let (r, ls) := list_call c ls in let (rs, ls) := list_calls cs ls in (r :: rs, ls)
  end.

(** New ranges are of whole pairs of keys and disjoint from those in the list. *)
Definition call_ok (c : tree_call) (ls : list (leaf T)) : Prop :=
  match c with
  | C_insert l => fits l /\ Forall (disjoint_leaf l) ls
  | C_remove key | C_locate key => 0 <= key < 2 ^ w
  end.

Fixpoint calls_ok (cs : list tree_call) (ls : list (leaf T)) : Prop :=
  match cs with
  | [] => True
  | c :: cs => call_ok c ls /\ calls_ok cs (list_call c ls).2
  end.

Lemma elements_nodup semi level t : wf semi level t -> 0 <= level -> NoDup (elements t).
Proof.
  intros Hwf Hl. pose proof (wf_apart _ _ _ Hwf Hl) as Ha. pose proof (wf_elements _ _ _ Hwf Hl) as Hf.
  assert (Hself : forall l t', leaf_ok l -> clear_of l t' -> l ∉ elements t').
  { intros l t' (? & _) Hc Hin. unfold clear_of in Hc. rewrite Forall_forall in Hc. destruct (Hc l Hin); lia. }
  clear Hwf. induction t as [|l mn IHn mx IHx]; simpl in *; [constructor|].
  apply Forall_cons in Hf as [[Hok _] Hf]. apply Forall_app in Hf as [Hfn Hfx]. destruct Ha as (Hn & Hx & Hnx & Ha1 & Ha2).
  apply NoDup_cons. split; [rewrite elem_of_app; intros [Hin|Hin]; by eapply Hself in Hin|]. apply NoDup_app. split_and!; [auto| |auto].
  intros x Hin. rewrite Forall_forall in Hnx, Hfn. apply Hself; [apply Hfn, Hin|by apply Hnx].
Qed.

Lemma find_covers ls key (r : option (leaf T)) :
  (forall l, r = Some l <-> l ∈ ls /\ covers l key = true) -> List.find (fun l => covers l key) ls = r.
Proof.
  intros Hr. destruct (List.find (fun l => covers l key) ls) as [l|] eqn:E.
  - apply List.find_some in E as [Hin Hc]. symmetry. apply Hr. by rewrite list_elem_of_In.
  - destruct r as [l|]; [|done]. destruct (proj1 (Hr l) eq_refl) as [Hin Hc]. rewrite list_elem_of_In in Hin.
    pose proof (List.find_none _ _ E l Hin). simpl in *. congruence.
Qed.

Lemma filter_uncovered key (ls : list (leaf T)) : Forall (fun x => covers x key = false) ls -> filter (fun x => covers x key = false) ls = ls.
Proof. induction 1 as [|x ls Hx _ IH]; [done|]. by rewrite filter_cons_True, IH. Qed.

(** One call on the tree does what it does on the list. *)
Lemma call_refines c t ls : 0 < w -> tree_ok t -> elements t ≡ₚ ls -> call_ok c ls ->
  exists t', exec_call c t = Ret ((list_call c ls).1, t') /\ tree_ok t' /\ elements t' ≡ₚ (list_call c ls).2.
Proof.
  intros Hw Ht Hp Hc. pose proof (semi_ok_root w Hw) as Hs. assert (Hl0 : 0 <= ATREE_LEVEL0 w) by (unfold ATREE_LEVEL0; lia).
  pose proof (wf_apart _ _ _ Ht Hl0) as Ha. destruct c as [nl|key|key]; simpl in *.
  - destruct Hc as [Hf Hd]. destruct (insert_at_inserts w _ _ t nl Hs) as (t' & E & W & P).
    { apply fits_pre; try done. unfold clear_of. by rewrite Hp. }
    exists t'. unfold insert. rewrite E. split_and!; [done..|]. by rewrite P, Hp.
  - unfold remove. destruct (remove_at_ok w _ _ t key Hs Ht (key_root _ Hw Hc)) as [(l & t' & -> & Hcl & W & P)|[-> Hnone]].
    + assert (Hrest : Forall (fun x => covers x key = false) (elements t')).
      { apply Forall_forall. intros x Hx. apply not_true_is_false. intros Hcx. pose proof (elements_nodup _ _ _ Ht Hl0) as Hnd. rewrite P in Hnd.
        apply NoDup_cons in Hnd as [Hnl _]. apply Hnl. rewrite (apart_unique t l x key Ha); [done|rewrite P; by left|rewrite P; by right|done..]. }
      assert (Hin : l ∈ ls) by (rewrite <- Hp, P; by left).
      exists t'. split_and!; [|done|rewrite <- Hp, P, filter_cons_False, filter_uncovered by (done || congruence); done]. do 2 f_equal. symmetry. apply find_covers. intros y. rewrite <- Hp. split.
      * intros [= <-]. by rewrite Hp.
      * intros [Hy Hcy]. f_equal. eapply apart_unique; eauto. by rewrite Hp.
    + exists t. rewrite Hp in Hnone. rewrite Forall_forall in Hnone. split_and!; [|done|].
      * do 2 f_equal. symmetry. apply find_covers. intros y. split; [done|]. intros [Hy Hcy]. rewrite (Hnone y Hy) in Hcy. done.
      * by rewrite Hp, filter_uncovered by (by apply Forall_forall).
  - destruct (locate_correct t key Hw Ht Hc) as (r & -> & Hr). exists t. split_and!; [|done..]. cbn [obind].
    do 2 f_equal. symmetry. apply find_covers. intros y. by rewrite <- Hp.
Qed.

(** C35: sequences of insertions, removals and lookups that begin with the empty tree, in which each new
    range begins with an even key, ends with an odd one (the kernel's are whole pages;
    [single_keys_exhaust_levels]) and is disjoint from those in the tree: no assertion fails, the
    answers are those of a plain list of ranges and the tree holds the ranges of that list.  It is
    well formed and never higher than the key has bits, however many ranges are mapped and in
    whatever order they were inserted. *)
Theorem tree_calls_correct cs : 0 < w -> calls_ok cs [] ->
  exists t, exec_calls cs ATREE_NULL = Ret ((list_calls cs []).1, t) /\ tree_ok t /\
    elements t ≡ₚ (list_calls cs []).2 /\ height t <= w.
Proof.
  intros Hw Hc. assert (Hrun : forall t ls, tree_ok t -> elements t ≡ₚ ls -> calls_ok cs ls ->
    exists t', exec_calls cs t = Ret ((list_calls cs ls).1, t') /\ tree_ok t' /\ elements t' ≡ₚ (list_calls cs ls).2).
  { clear Hc. induction cs as [|c cs IH]; intros t ls Ht Hp; simpl; [by exists t|]. intros [Hc Hcs].
    destruct (call_refines c t ls Hw Ht Hp Hc) as (t1 & -> & Ht1 & Hp1). destruct (list_call c ls) as [r ls1]. cbn [obind fst snd] in *.
    destruct (IH t1 ls1 Ht1 Hp1 Hcs) as (t2 & -> & ? & ?). destruct (list_calls cs ls1) as [rs ls2]. by exists t2. }
  destruct (Hrun ATREE_NULL [] I (Permutation_refl _) Hc) as (t & E & Ht & Hp). exists t. split_and!; [done..|].
  pose proof (height_level _ _ _ Ht) as Hh. unfold ATREE_LEVEL0 in *. lia.
Qed.

(** removing a key of a freshly inserted range gives back that very leaf
    and the ranges that were mapped before. *)
Theorem insert_remove t nl key :
  0 < w -> tree_ok t -> fits nl -> clear_of nl t -> covers nl key = true ->
  exists t1 t2, insert w t nl = Ret t1 /\ remove w t1 key = Ret (Some nl, t2) /\
                tree_ok t2 /\ elements t2 ≡ₚ elements t.
Proof.
  intros Hw Ht Hf Hc Hk. pose proof (semi_ok_root w Hw) as Hs.
  destruct (insert_at_inserts w _ _ t nl Hs (fits_pre _ _ Hw Ht Hf Hc)) as (t1 & E1 & W1 & P1).
  assert (nl ∈ elements t1) as Hin by (rewrite P1; constructor).
  pose proof (proj1 (covers_spec nl key) Hk) as Hr. destruct Hf as (_ & ? & ?).
  destruct (remove_at_ok w _ _ t1 key Hs W1) as [(l & t2 & E2 & C2 & W2 & P2)|[_ Hnone]].
  { apply key_root; lia. }
  - assert (l = nl) as ->.
    { eapply (apart_unique t1); eauto; [|rewrite P2; constructor].
      eapply wf_apart; [exact W1|unfold ATREE_LEVEL0; lia]. }
    exists t1, t2. repeat split; try done.
    apply (Permutation_cons_inv (a:=nl)). by rewrite <- P2.
  - rewrite Forall_forall in Hnone. by rewrite Hnone in Hk.
Qed.

End Root.

(** ** Concrete trees *)

Section Examples.

(** Two mapped pages and a range across the centre of a 32-bit key space. *)
Definition ex_tree : atree nat :=
  Node (Leaf 0x1000 0x1fff 1%nat) ATREE_NULL
    (Node (Leaf 0x80001000 0x80001fff 2%nat) ATREE_NULL ATREE_NULL).
Definition ex_leaf : leaf nat := Leaf 0x7ffff000 0x80000fff 3%nat.

Ltac solve_ex :=
  unfold tree_ok, fits, leaf_ok, clear_of, mapped_by, disjoint_leaf;
  simpl; repeat (split || apply Forall_cons_2 || apply Forall_nil_2);
  simpl; try done; vm_compute; intuition congruence.

Lemma ex_tree_ok : tree_ok 32 ex_tree.
Proof. solve_ex. Qed.

Lemma ex_leaf_fits : fits 32 ex_leaf.
Proof. solve_ex. Qed.

Lemma ex_leaf_clear : clear_of ex_leaf ex_tree.
Proof. solve_ex. Qed.

Lemma insert_correct_witness :
  exists t', insert 32 ex_tree ex_leaf = Ret t' /\ tree_ok 32 t' /\
             elements t' ≡ₚ ex_leaf :: elements ex_tree.
Proof.
  apply (insert_correct 32 ex_tree ex_leaf);
    [done|exact ex_tree_ok|exact ex_leaf_fits|exact ex_leaf_clear].
Defined.

(** The new leaf takes the root and both pages are re-inserted below it. *)
Example insert_reinserts :
  insert 32 ex_tree ex_leaf =
  Ret (Node ex_leaf (Node (Leaf 0x1000 0x1fff 1%nat) ATREE_NULL ATREE_NULL)
                    (Node (Leaf 0x80001000 0x80001fff 2%nat) ATREE_NULL ATREE_NULL)).
Proof. vm_compute. reflexivity. Qed.

Lemma locate_correct_witness :
  exists r, locate 32 ex_tree 0x80001234 = Ret r /\
    forall l, r = Some l <-> l ∈ elements ex_tree /\ covers l 0x80001234 = true.
Proof. apply (locate_correct 32 ex_tree 0x80001234); [done|exact ex_tree_ok|done]. Defined.

Lemma remove_correct_witness :
  (exists l t', remove 32 ex_tree 0x1800 = Ret (Some l, t') /\ covers l 0x1800 = true /\
     tree_ok 32 t' /\ elements ex_tree ≡ₚ l :: elements t') \/
  (remove 32 ex_tree 0x1800 = Ret (None, ex_tree) /\
   Forall (fun l => covers l 0x1800 = false) (elements ex_tree)).
Proof. apply (remove_correct 32 ex_tree 0x1800); [done|exact ex_tree_ok|done]. Defined.

Lemma tryinsert_correct_witness :
  match tryinsert 32 ex_tree ex_leaf with
  | Ret (true, t') => clear_of ex_leaf ex_tree /\ tree_ok 32 t' /\
                      elements t' ≡ₚ ex_leaf :: elements ex_tree
  | Ret (false, t') => t' = ex_tree /\ ~ clear_of ex_leaf ex_tree
  | Abort => ~ clear_of ex_leaf ex_tree
  end.
Proof.
  apply (tryinsert_correct 32 ex_tree ex_leaf);
    [done|exact ex_tree_ok|exact ex_leaf_fits].
Defined.

Lemma pinsert_at_correct_witness :
  exists p s lv t' mn mx,
    pinsert_at 32 ex_tree ex_leaf (ATREE_SEMI0 32) (ATREE_LEVEL0 32) = Ret (p, s, lv, t') /\
    slot_get t' p = Node ex_leaf mn mx /\ semi_ok 32 s lv /\ wf s lv (Node ex_leaf mn mx) /\
    tree_ok 32 t' /\ elements t' ≡ₚ ex_leaf :: elements ex_tree.
Proof.
  apply (pinsert_at_correct 32 ex_tree ex_leaf);
    [done|exact ex_tree_ok|exact ex_leaf_fits|exact ex_leaf_clear].
Defined.

(** The ranges of [ex_tree], then [ex_leaf], a lookup, and one of the ranges is removed. *)
Definition ex_calls : list (tree_call (T := nat)) :=
  (C_insert <$> elements ex_tree) ++ [C_insert ex_leaf; C_locate 0x80001234; C_remove 0x1800; C_locate 0x1000].

Lemma tree_calls_correct_witness :
  exists t, exec_calls 32 ex_calls ATREE_NULL = Ret ([None; None; None; Some (Leaf 0x80001000 0x80001fff 2%nat); Some (Leaf 0x1000 0x1fff 1%nat); None], t) /\
    height t <= 32.
Proof.
  destruct (tree_calls_correct 32 ex_calls) as (t & E & _ & _ & Hh); [done| |].
  - simpl. split_and!; try done; try solve_ex.
  - exists t. split; [exact E|exact Hh].
Defined.

Lemma insert_remove_witness :
  exists t1 t2, insert 32 ex_tree ex_leaf = Ret t1 /\
    remove 32 t1 0x80000000 = Ret (Some ex_leaf, t2) /\
    tree_ok 32 t2 /\ elements t2 ≡ₚ elements ex_tree.
Proof.
  apply (insert_remove 32 ex_tree ex_leaf 0x80000000);
    [done|exact ex_tree_ok|exact ex_leaf_fits|exact ex_leaf_clear|reflexivity].
Defined.

(** A range that covers the semi key, misses the root's leaf and overlaps a
    leaf below it. *)
Definition ex_taken : leaf nat := Leaf 0x7ffff000 0x80001fff 3%nat.

(** [tryinsert] only compares the new range with the leafs on its path.  A
    range that covers the semi key and overlaps a leaf further down reaches the
    re-insertion of that leaf and its failing assertion, where the interface
    promises the answer [false]. *)
Theorem tryinsert_misses_overlap :
  exists (t : atree nat) nl, tree_ok 32 t /\ fits 32 nl /\ ~ clear_of nl t /\
                             tryinsert 32 t nl = Abort.
Proof.
  exists ex_tree, ex_taken. split; [exact ex_tree_ok|]. split; [solve_ex|]. split.
  - intros Hc. unfold clear_of in Hc. simpl in Hc.
    inversion_clear Hc as [|?? _ Hc']. inversion_clear Hc' as [|?? Hd _].
    unfold disjoint_leaf in Hd. simpl in Hd. lia.
  - vm_compute. reflexivity.
Qed.

(** Single keys along the path to key 0: one per level from 31 to 0. *)
Definition ex_path : list Z :=
  map (fun n => 2 ^ Z.of_nat n) (rev (seq 1 30)) ++ [3; 1].

Definition insert_key (t : outcome (atree unit)) (key : Z) : outcome (atree unit) :=
  let! t := t in insert 32 t (Leaf key key tt).

(** with ranges of a single key the level can run out: 32 single keys can
    occupy every level above a free key, and inserting that key walks below
    level 0, where the C shift is undefined. *)
Theorem single_keys_exhaust_levels :
  NoDup (0 :: ex_path) /\ Forall (fun k => 0 <= k < 2 ^ 32) (0 :: ex_path) /\
  (exists t, foldl insert_key (Ret ATREE_NULL) ex_path = Ret t) /\
  foldl insert_key (Ret ATREE_NULL) (ex_path ++ [0]) = Abort.
Proof.
  split; [apply (bool_decide_unpack _); vm_compute; done|].
  split; [apply (bool_decide_unpack _); vm_compute; done|].
  split; [|vm_compute; reflexivity].
  eexists. vm_compute. reflexivity.
Qed.

End Examples.
