(* ===== verification/IOBuffer.v ===== *)
(** * Cyclic I/O buffers (src/include/fs/iobuffer.h, src/kernel/fs/iobuffer.c)

    The buffer behind pipes and pseudo terminals.  The pointers [ib_rpos] and
    [ib_wpos] are offsets from [ib_buffer]; an absent buffer has size 0.  The
    two signals are counted, the lock is the mode it is held in by the caller. *)
From stdpp Require Import base numbers list relations.
From S2P Require Import Prelude.

(** ** Data *)

Inductive rwmode : Type := Unlocked | Reading | Writing.

Record iobuffer : Type := mk_iobuffer {
  ib_avail   : Z;          (** broadcasts of the data-available signal *)
  ib_nfull   : Z;          (** broadcasts of the not-full signal *)
  ib_rwlock  : rwmode;
  ib_maxsize : Z;
  ib_size    : Z;
  ib_buffer  : list byte;
  ib_rpos    : Z;
  ib_wpos    : Z;
  ib_mode    : Z
}.

Definition IOBUFFER_INTR_BLOCKFIRST : Z := 1.
Definition IOBUFFER_DEFAULT_MAX_SIZE : Z := 512.

Definition IO_BLOCKNONE : Z := 0.
Definition IO_BLOCKFIRST : Z := 1.
Definition IO_BLOCKALL : Z := 3.
Definition IO_PEEK : Z := 0x10.
Definition IO_QUICKMOVE : Z := 0x20.
Definition IO_SKIP : Z := 0x40.

Definition EFAULT : Z := 14.
Definition ENOMEM : Z := 12.

(** Field updates. *)
Definition set_lock (m : rwmode) (s : iobuffer) : iobuffer :=
  mk_iobuffer (ib_avail s) (ib_nfull s) m (ib_maxsize s) (ib_size s) (ib_buffer s)
              (ib_rpos s) (ib_wpos s) (ib_mode s).
Definition set_pos (r w : Z) (s : iobuffer) : iobuffer :=
  mk_iobuffer (ib_avail s) (ib_nfull s) (ib_rwlock s) (ib_maxsize s) (ib_size s)
              (ib_buffer s) r w (ib_mode s).
Definition set_mode (m : Z) (s : iobuffer) : iobuffer :=
  mk_iobuffer (ib_avail s) (ib_nfull s) (ib_rwlock s) (ib_maxsize s) (ib_size s)
              (ib_buffer s) (ib_rpos s) (ib_wpos s) m.
Definition set_buffer (size : Z) (b : list byte) (s : iobuffer) : iobuffer :=
  mk_iobuffer (ib_avail s) (ib_nfull s) (ib_rwlock s) (ib_maxsize s) size b
              (ib_rpos s) (ib_wpos s) (ib_mode s).
Definition broadcast_avail (s : iobuffer) : iobuffer :=
  mk_iobuffer (ib_avail s + 1) (ib_nfull s) (ib_rwlock s) (ib_maxsize s) (ib_size s)
              (ib_buffer s) (ib_rpos s) (ib_wpos s) (ib_mode s).
Definition broadcast_nfull (s : iobuffer) : iobuffer :=
  mk_iobuffer (ib_avail s) (ib_nfull s + 1) (ib_rwlock s) (ib_maxsize s) (ib_size s)
              (ib_buffer s) (ib_rpos s) (ib_wpos s) (ib_mode s).

Definition iobuffer_init_ex (maxsize : Z) : iobuffer :=
  mk_iobuffer 0 0 Unlocked maxsize 0 [] 0 0 0.
Definition iobuffer_init : iobuffer := iobuffer_init_ex IOBUFFER_DEFAULT_MAX_SIZE.

(** The memory block [iobuffer_fini] hands to [free]. *)
Definition iobuffer_fini (s : iobuffer) : list byte := ib_buffer s.

Definition rwlock_write (s : iobuffer) : iobuffer := set_lock Writing s.
Definition rwlock_read (s : iobuffer) : iobuffer := set_lock Reading s.
Definition rwlock_end (s : iobuffer) : iobuffer := set_lock Unlocked s.

(** ** Macros *)

Definition IOBUFFER_MAXREAD (s : iobuffer) (rpos : Z) : Z :=
  if rpos <? ib_wpos s then ib_wpos s - rpos
  else ib_size s - (rpos - ib_wpos s).
Definition IOBUFFER_MAXWRITE (s : iobuffer) (rpos : Z) : Z :=
  if ib_wpos s <=? rpos then rpos - ib_wpos s
  else ib_size s - (ib_wpos s - rpos).

(** The flag and the buffer with the flag cleared. *)
Definition IOBUFFER_CONSUME_INTR (s : iobuffer) : bool * iobuffer :=
  (Z.testbit (ib_mode s) 0,
   set_mode (Z.ldiff (ib_mode s) IOBUFFER_INTR_BLOCKFIRST) s).

Definition mode_blocks (mode : Z) : bool := negb (Z.land mode IO_BLOCKFIRST =? 0).
Definition mode_first_only (mode : Z) : bool := Z.land mode IO_BLOCKALL =? IO_BLOCKFIRST.
Definition mode_has (flag mode : Z) : bool := negb (Z.land mode flag =? 0).

(** ** Short operations

    [lk] is what [rwlock_write]/[rwlock_read] returned: [None] for success,
    [Some e] for the (negative) error of an interrupted caller. *)

Definition iobuffer_discard (lk : option Z) (s : iobuffer) : Z * iobuffer :=
  match lk with
  | Some e => (e, s)
  | None =>
      let s := rwlock_write s in
      (IOBUFFER_MAXREAD s (ib_rpos s), rwlock_end (set_pos (ib_size s) 0 s))
  end.

Definition iobuffer_get_read_size (lk : option Z) (s : iobuffer) : Z * iobuffer :=
  match lk with
  | Some e => (e, s)
  | None => let s := rwlock_read s in (IOBUFFER_MAXREAD s (ib_rpos s), rwlock_end s)
  end.
Definition iobuffer_get_write_size (lk : option Z) (s : iobuffer) : Z * iobuffer :=
  match lk with
  | Some e => (e, s)
  | None => let s := rwlock_read s in (IOBUFFER_MAXWRITE s (ib_rpos s), rwlock_end s)
  end.

Definition iobuffer_interrupt (lk : option Z) (s : iobuffer) : Z * iobuffer :=
  match lk with
  | Some e => (e, s)
  | None =>
      let s := rwlock_write s in
      let s := set_mode (Z.lor (ib_mode s) IOBUFFER_INTR_BLOCKFIRST) s in
      (0, rwlock_end (broadcast_avail s))
  end.

(** [krealloc(...,GFP_CALLOC)] to a larger size keeps the old bytes and clears
    the new ones. *)
Definition grow_buffer (new : Z) (s : iobuffer) : list byte :=
  ib_buffer s ++ replicate (Z.to_nat (new - ib_size s)) 0.

Section Sized.

(** The number of values of [size_t]. *)
Variable SIZE_T : Z.

(** [alloc] tells whether [krealloc] returns memory. *)
Definition iobuffer_reserve (lk : option Z) (alloc : bool) (s : iobuffer)
    (write_size : Z) : outcome (Z * iobuffer) :=
  match lk with
  | Some e => Ret (e, s)
  | None =>
      let s := rwlock_write s in
      let new_total_size := (ib_size s + write_size) mod SIZE_T in
      let new_total_size := Z.min new_total_size (ib_maxsize s) in
      assert! ib_size s <=? new_total_size;;
      if negb (new_total_size =? ib_size s) && alloc then
        Ret (new_total_size - ib_size s,
             rwlock_end (set_buffer new_total_size (grow_buffer new_total_size s) s))
      else Ret (0, rwlock_end s)
  end.

(** [iobuffer_flush]: [realloc] to [newsize] keeps the leading bytes, then the
    [newsize-rindex] bytes behind the read pointer are moved to the start; that
    difference must not be negative. *)
Definition iobuffer_flush (alloc : bool) (s : iobuffer) : outcome (Z * iobuffer) :=
  let s := rwlock_write s in
  let newsize := IOBUFFER_MAXREAD s (ib_rpos s) in
  if newsize =? ib_size s then Ret (0, rwlock_end s)
  else
    assert! newsize <? ib_size s;;
    if newsize =? 0 then
      Ret (ib_size s - newsize, rwlock_end (set_pos 0 0 (set_buffer newsize [] s)))
    else if alloc then
      let rindex := ib_rpos s in
      let newbuf := ztake newsize (ib_buffer s) in
      assert! rindex <=? newsize;;
      let newbuf := store newbuf 0 (slice newbuf rindex newsize) in
      Ret (ib_size s - newsize,
           rwlock_end (set_pos 0 newsize (set_buffer newsize newbuf s)))
    else Ret (0, rwlock_end s).

(** ** Reading

    [room] is the number of accessible bytes at the user pointer; a copy past
    it faults.  The bytes already copied are collected in [out]. *)

Inductive read_end : Type :=
| RRet (ret : Z) (out : list byte) (s : iobuffer)
    (** returned [ret] with [out] in the user buffer *)
| RWait (out : list byte) (destsize result : Z) (s : iobuffer)
    (** asleep on [ib_avail], no lock held; resumes at [again] *)
| RAbort.

(** Label [end_rpos].  No other task interferes: the lock upgrade and the
    compare-exchange of [ib_rpos] succeed at once. *)
Definition read_end_rpos (s : iobuffer) (mode bufsize start_rpos rpos result : Z)
    (out : list byte) : read_end :=
  let bufend := ib_size s in
  if negb (result =? 0) || (bufsize =? 0) || negb (mode_blocks mode) then
    if mode_has IO_PEEK mode then RRet result out (rwlock_end s)
    else
      let buffer_was_full :=
        (start_rpos =? ib_wpos s) ||
        ((start_rpos =? 0) && (ib_wpos s =? bufend)) in
      let s :=
        if rpos =? ib_wpos s then set_pos bufend 0 s
        else set_pos rpos (ib_wpos s) s in
      let s := if buffer_was_full then broadcast_nfull s else s in
      RRet result out (rwlock_end s)
  else RAbort.

(** Label [buffer_is_empty]. *)
Definition read_buffer_is_empty (s : iobuffer)
    (mode bufsize start_rpos rpos destsize result : Z) (out : list byte) : read_end :=
  if mode_blocks mode then
    if mode_first_only mode && negb (result =? 0) then
      read_end_rpos s mode bufsize start_rpos rpos result out
    else
      let '(intr, s1) := IOBUFFER_CONSUME_INTR s in
      if mode_first_only mode && intr then RRet 0 out (rwlock_end s1)
      else
        let '(intr, s1) := IOBUFFER_CONSUME_INTR s in
        if intr then RRet 0 out (rwlock_end s1)
        else RWait out destsize result (rwlock_end s)
  else read_end_rpos s mode bufsize start_rpos rpos result out.

(** [copy_to_user(destbuf,rpos,n)] unless [IO_SKIP] is set: whether it
    succeeded, and the bytes that reached the user buffer. *)
Definition read_copy (s : iobuffer) (mode room rpos n : Z) (out : list byte)
    : bool * list byte :=
  if mode_has IO_SKIP mode then (true, out)
  else
    let avail := Z.max 0 (room - zlen out) in
    (n <=? avail, out ++ slice (ib_buffer s) rpos (rpos + Z.min n avail)).

(** The position checks made after taking the lock. *)
Definition pos_ok (s : iobuffer) : bool :=
  (0 <=? ib_rpos s) && (ib_rpos s <=? ib_size s) &&
  (0 <=? ib_wpos s) && (ib_wpos s <=? ib_size s).

(** One pass from label [again], with the read lock acquired. *)
Definition read_again (s : iobuffer) (room mode bufsize destsize result : Z)
    (out : list byte) : read_end :=
  let s := rwlock_read s in
  let start_rpos := ib_rpos s in
  let rpos := start_rpos in
  let bufend := ib_size s in
  if negb (pos_ok s) then RAbort else
  let max_read := IOBUFFER_MAXREAD s rpos in
  if max_read =? 0 then
    read_buffer_is_empty s mode bufsize start_rpos rpos destsize result out
  else
    let '(intr, s1) := IOBUFFER_CONSUME_INTR s in
    if mode_first_only mode && intr then RRet 0 out (rwlock_end s1)
    else
      let s := if mode_first_only mode then s1 else s in
      let max_read_linear := Z.min (Z.min max_read (bufend - rpos)) destsize in
      match read_copy s mode room rpos max_read_linear out with
      | (false, out) => RRet (- EFAULT) out (rwlock_end s)
      | (true, out) =>
        let rpos := rpos + max_read_linear in
        let result := result + max_read_linear in
        if (destsize =? max_read_linear) ||
           ((rpos =? ib_wpos s) && (max_read_linear =? max_read)) then
          read_end_rpos s mode bufsize start_rpos rpos result out
        else if negb (rpos =? bufend) then RAbort
        else
          let rpos := 0 in
          let destsize := destsize - max_read_linear in
          let max_read_linear := Z.min (ib_wpos s - rpos) destsize in
          match read_copy s mode room rpos max_read_linear out with
          | (false, out) => RRet (- EFAULT) out (rwlock_end s)
          | (true, out) =>
            let rpos := rpos + max_read_linear in
            let result := result + max_read_linear in
            if destsize =? max_read_linear then
              read_end_rpos s mode bufsize start_rpos rpos result out
            else if negb (rpos =? ib_wpos s) || (result =? 0) then RAbort
            else
              read_buffer_is_empty s mode bufsize start_rpos rpos
                (destsize - max_read_linear) result out
          end
      end.

(** [iobuffer_read] up to its first wait. *)
Definition iobuffer_read (lk : option Z) (s : iobuffer) (room bufsize mode : Z) : read_end :=
  match lk with
  | Some e => RRet e [] s
  | None => read_again s room mode bufsize bufsize 0 []
  end.

(** ** Writing

    [src] holds the accessible bytes at the user pointer [buf]. *)

Inductive write_end : Type :=
| WRet (ret : Z) (s : iobuffer)
| WWait (src : list byte) (bufsize result : Z) (s : iobuffer)
    (** asleep on [ib_nfull], no lock held; resumes at [again] *)
| WAbort
| WFuel.

(** Label [end]. *)
Definition write_end_ok (s : iobuffer) (bufend result : Z) : write_end :=
  if negb (result =? 0) then
    if (bufend =? ib_size s) && (ib_rpos s <=? bufend) then
      let s := if ib_rpos s =? bufend then set_pos 0 (ib_wpos s) s else s in
      WRet result (rwlock_end (broadcast_avail s))
    else WAbort
  else WRet result (rwlock_end s).

(** The reallocation for [max_write < bufsize]: [inl] is an early exit. *)
Definition write_realloc (alloc : bool) (s : iobuffer) (max_size max_write bufsize result : Z)
    : write_end + iobuffer :=
  if max_write <? bufsize then
    let new_buffer_size :=
      Z.min ((ib_size s + (bufsize - max_write)) mod SIZE_T) max_size in
    if negb (ib_size s <=? new_buffer_size) then inl WAbort
    else if negb (new_buffer_size =? ib_size s) then
      if alloc then
        let rpos :=
          if (ib_rpos s =? ib_size s) && negb (ib_size s =? 0)
          then new_buffer_size else ib_rpos s in
        inr (set_pos rpos (ib_wpos s)
               (set_buffer new_buffer_size (grow_buffer new_buffer_size s) s))
      else inl (WRet (- ENOMEM) (rwlock_end s))
    else if max_write =? 0 then inl (write_end_ok s (ib_size s) result)
    else inr s
  else inr s.

(** [err_fault]: the copy to [off] stopped behind the last accessible byte. *)
Definition write_fault (s : iobuffer) (off : Z) (src : list byte) : write_end :=
  WRet (- EFAULT) (rwlock_end (set_buffer (ib_size s) (store (ib_buffer s) off src) s)).

(** The two copies of one round; [again] is [goto buffer_is_full]. *)
Definition write_copy (again : iobuffer -> list byte -> Z -> Z -> Z -> write_end)
    (s : iobuffer) (src : list byte) (bufsize result : Z) : write_end :=
  let bufend := ib_size s in
  if negb (bufsize =? 0) && (bufend =? 0) then WAbort else
  (* Copy into the upper portion. *)
  let max_write := bufend - ib_wpos s in
  let max_write :=
    if ib_wpos s <? ib_rpos s then Z.min max_write (ib_rpos s - ib_wpos s)
    else max_write in
  let max_write := Z.min max_write bufsize in
  if zlen src <? max_write then write_fault s (ib_wpos s) src else
  let s := set_pos (ib_rpos s) (ib_wpos s + max_write)
    (set_buffer bufend (store (ib_buffer s) (ib_wpos s) (ztake max_write src)) s) in
  let result := result + max_write in
  if bufsize =? max_write then write_end_ok s bufend result else
  let src := zdrop max_write src in
  let bufsize := bufsize - max_write in
  if negb ((ib_wpos s =? bufend) || (ib_wpos s =? ib_rpos s)) then WAbort
  else if negb (ib_wpos s =? bufend) then again s src 0 bufsize result
  else
  (* Copy into the lower portion. *)
  let max_write := ib_rpos s in
  if (max_write =? 0) || (ib_rpos s =? bufend) then again s src max_write bufsize result
  else
  let max_write := Z.min max_write bufsize in
  if zlen src <? max_write then write_fault s 0 src else
  let s := set_pos (ib_rpos s) max_write
    (set_buffer bufend (store (ib_buffer s) 0 (ztake max_write src)) s) in
  let result := result + max_write in
  if negb (ib_wpos s <=? ib_rpos s) then WAbort
  else if negb ((ib_wpos s <? bufend) ||
                ((ib_wpos s =? bufend) && (ib_rpos s =? bufend))) then WAbort
  else if bufsize =? max_write then write_end_ok s bufend result
  else if negb (ib_wpos s =? ib_rpos s) then WAbort
  else again s (zdrop max_write src) max_write (bufsize - max_write) result.

(** The rounds of [iobuffer_write] under one lock: from label
    [buffer_is_full] ([full] is set) or from behind it. *)
Fixpoint write_loop (fuel : nat) (alloc : bool) (mode max_size : Z) (full : bool)
    (s : iobuffer) (src : list byte) (max_write bufsize result : Z) : write_end :=
  match fuel with
  | O => WFuel
  | S fuel =>
    if full && mode_blocks mode && (max_size <=? ib_size s) then
      if negb (result =? 0) && mode_first_only mode then
        write_end_ok s (ib_size s) result
      else
        let s := if negb (result =? 0) then broadcast_avail s else s in
        if negb (IOBUFFER_MAXWRITE s (ib_rpos s) =? 0) then WAbort
        else WWait src bufsize result (rwlock_end s)
    else
      match write_realloc alloc s max_size max_write bufsize result with
      | inl e => e
      | inr s => write_copy (write_loop fuel alloc mode max_size true) s src bufsize result
      end
  end.

(** One pass from label [again], with the write lock acquired. *)
Definition write_again (fuel : nat) (alloc : bool) (s : iobuffer) (src : list byte)
    (bufsize mode result : Z) : write_end :=
  let s := rwlock_write s in
  if negb (pos_ok s) then WAbort else
  let max_size := ib_maxsize s in
  let max_write := IOBUFFER_MAXWRITE s (ib_rpos s) in
  write_loop fuel alloc mode max_size (max_write =? 0) s src max_write bufsize result.

(** [iobuffer_write] up to its first wait.  Four rounds cover every call that
    terminates within its rules; see [iobuffer_write_fifo]. *)
Definition iobuffer_write (lk : option Z) (alloc : bool) (s : iobuffer) (src : list byte)
    (bufsize mode : Z) : write_end :=
  match lk with
  | Some e => WRet e s
  | None => write_again 4 alloc s src bufsize mode 0
  end.

(** ** Seeking back *)

(** [iobuffer_unread]; the source has no [rwlock_endwrite] on this path. *)
Definition iobuffer_unread (lk : option Z) (s : iobuffer) (max_unread : Z)
    : outcome (Z * iobuffer) :=
  match lk with
  | Some e => Ret (e, s)
  | None =>
      let s := rwlock_write s in
      let max_writesize := IOBUFFER_MAXWRITE s (ib_rpos s) in
      let max_unread := Z.min max_unread max_writesize in
      let result := max_unread in
      if negb (result =? 0) then
        assert! negb (ib_rpos s =? ib_wpos s);;
        let! (rpos, max_unread) :=
          if ib_wpos s <? ib_rpos s then
            let rpos := ib_rpos s - max_unread in
            assert! ib_wpos s <=? rpos;; Ret (rpos, max_unread)
          else
            let partsize := ib_rpos s in
            if partsize <=? max_unread then
              let rpos := ib_rpos s - max_unread in
              assert! rpos <=? ib_wpos s;; Ret (rpos, max_unread)
            else
              let max_unread := max_unread - partsize in
              let rpos := ib_size s - max_unread in
              assert! ib_wpos s <=? rpos;; Ret (rpos, max_unread) in
        assert! 0 <=? rpos;;
        assert! eqb (max_unread =? max_writesize) (rpos =? ib_wpos s);;
        Ret (result, set_pos rpos (ib_wpos s) s)
      else Ret (result, s)
  end.

Definition iobuffer_unwrite (lk : option Z) (s : iobuffer) (max_unwrite : Z)
    : outcome (Z * iobuffer) :=
  match lk with
  | Some e => Ret (e, s)
  | None =>
      let s := rwlock_write s in
      let max_readsize := IOBUFFER_MAXREAD s (ib_rpos s) in
      let max_unwrite := Z.min max_unwrite max_readsize in
      let result := max_unwrite in
      if negb (result =? 0) then
        if max_unwrite =? max_readsize then
          Ret (result, rwlock_end (set_pos (ib_size s) 0 s))
        else if ib_rpos s <? ib_wpos s then
          let wpos := ib_wpos s - max_unwrite in
          assert! ib_rpos s <? wpos;;
          Ret (result, rwlock_end (set_pos (ib_rpos s) wpos s))
        else
          let partsize := ib_wpos s in
          let! wpos :=
            if partsize <=? max_unwrite then
              let wpos := ib_wpos s - max_unwrite in
              assert! wpos <? ib_rpos s;; Ret wpos
            else
              let max_unwrite := max_unwrite - partsize in
              assert! negb (max_unwrite =? 0);;
              let wpos := ib_size s - max_unwrite in
              assert! ib_rpos s <? wpos;; Ret wpos in
          assert! 0 <=? wpos;;
          Ret (result, rwlock_end (set_pos (ib_rpos s) wpos s))
      else Ret (result, rwlock_end s)
  end.

(** [iobuffer_skip], [iobuffer_seek_read] and [iobuffer_seek_write]; skipping is
    a read that copies nothing. *)
Definition iobuffer_skip (lk : option Z) (s : iobuffer) (max_skip mode : Z) : read_end :=
  iobuffer_read lk s 0 max_skip (Z.lor IO_SKIP mode).

Definition iobuffer_seek_read (lk : option Z) (s : iobuffer) (off : Z)
    : outcome (Z * iobuffer) + read_end :=
  if off <? 0 then inl (iobuffer_unread lk s (- off))
  else inr (iobuffer_skip lk s off IO_BLOCKNONE).

Definition iobuffer_seek_write (lk : option Z) (s : iobuffer) (off : Z)
    : outcome (Z * iobuffer) :=
  if off <? 0 then iobuffer_unwrite lk s (- off) else Ret (0, s).

Definition iobuffer_get_maxsize (s : iobuffer) : Z := ib_maxsize s.
Definition iobuffer_set_maxsize (value : Z) (s : iobuffer) : Z * iobuffer :=
  (ib_maxsize s,
   mk_iobuffer (ib_avail s) (ib_nfull s) (ib_rwlock s) value (ib_size s) (ib_buffer s)
               (ib_rpos s) (ib_wpos s) (ib_mode s)).

End Sized.

(** ** The queue a buffer stands for *)

(** The unread bytes, oldest first. *)
Definition contents (s : iobuffer) : list byte :=
  if ib_rpos s <? ib_wpos s then slice (ib_buffer s) (ib_rpos s) (ib_wpos s)
  else slice (ib_buffer s) (ib_rpos s) (ib_size s) ++ slice (ib_buffer s) 0 (ib_wpos s).

Record iob_inv (s : iobuffer) : Prop := {
  inv_len  : zlen (ib_buffer s) = ib_size s;
  inv_rpos : 0 <= ib_rpos s <= ib_size s;
  inv_wpos : 0 <= ib_wpos s <= ib_size s
}.

Lemma pos_ok_true s : iob_inv s -> pos_ok s = true.
Proof. intros [? ? ?]. unfold pos_ok. rewrite !andb_true_iff, !Z.leb_le. lia. Qed.

Lemma contents_len s : iob_inv s -> zlen (contents s) = IOBUFFER_MAXREAD s (ib_rpos s).
Proof.
  intros [? ? ?]. unfold contents, IOBUFFER_MAXREAD.
  bcase; rewrite ?zlen_app, !zlen_slice; lia.
Qed.

(** Read and write room add up to the buffer's size. *)
Lemma maxread_maxwrite s : iob_inv s ->
  IOBUFFER_MAXREAD s (ib_rpos s) + IOBUFFER_MAXWRITE s (ib_rpos s) = ib_size s.
Proof.
  intros [? ? ?]. unfold IOBUFFER_MAXREAD, IOBUFFER_MAXWRITE.
  repeat bcase; lia.
Qed.

Lemma maxwrite_nonneg s : iob_inv s -> 0 <= IOBUFFER_MAXWRITE s (ib_rpos s).
Proof. intros [? ? ?]. unfold IOBUFFER_MAXWRITE. bcase; lia. Qed.

Lemma contents_nil s : iob_inv s -> contents s = [] ->
  ib_size s = 0 \/ (ib_rpos s = ib_size s /\ ib_wpos s = 0).
Proof.
  intros Hi Hc. pose proof (contents_len s Hi) as Hl. rewrite Hc in Hl.
  change (zlen (@nil byte)) with 0 in Hl.
  unfold IOBUFFER_MAXREAD in Hl. destruct Hi. destruct (_ <? _) eqn:E; bsimp; lia.
Qed.

(** ** Reading is taking from the front *)

(** The read pointer after taking [n] bytes. *)
Definition advance (n : Z) (s : iobuffer) : iobuffer :=
  let r := if ib_rpos s + n <=? ib_size s then ib_rpos s + n
           else ib_rpos s + n - ib_size s in
  if r =? ib_wpos s then set_pos (ib_size s) 0 s else set_pos r (ib_wpos s) s.

Lemma advance_ok n s :
  iob_inv s -> 0 < n -> n <= zlen (contents s) ->
  iob_inv (advance n s) /\ contents (advance n s) = zdrop n (contents s).
Proof.
  intros Hi Hn Hc. rewrite (contents_len s Hi) in Hc.
  destruct Hi as [Hl Hr Hw]. destruct s as [av nf lk mx sz buf r w md].
  unfold advance, contents, IOBUFFER_MAXREAD in *. cbn -[Z.ltb Z.leb Z.eqb] in *.
  destruct (Z.ltb_spec r w).
  - rewrite (proj2 (Z.leb_le (r + n) sz)) by lia.
    destruct (Z.eqb_spec (r + n) w); cbn -[Z.ltb Z.leb Z.eqb].
    + split; [constructor; cbn; lia|]. rewrite (proj2 (Z.ltb_ge sz 0)) by lia.
      subst w. rewrite zdrop_slice, !slice_empty by lia. done.
    + split; [constructor; cbn; lia|]. rewrite (proj2 (Z.ltb_lt (r + n) w)) by lia.
      rewrite zdrop_slice by lia. done.
  - destruct (Z.leb_spec (r + n) sz).
    + rewrite (proj2 (Z.eqb_neq (r + n) w)) by lia. cbn -[Z.ltb Z.leb Z.eqb].
      split; [constructor; cbn; lia|]. rewrite (proj2 (Z.ltb_ge (r + n) w)) by lia.
      rewrite zdrop_app_le, zdrop_slice by (rewrite ?zlen_slice; lia). done.
    + rewrite zdrop_app_ge by (rewrite zlen_slice; lia). rewrite zlen_slice by lia.
      rewrite zdrop_slice by lia. replace (0 + (n - (sz - r))) with (r + n - sz) by lia.
      destruct (Z.eqb_spec (r + n - sz) w); cbn -[Z.ltb Z.leb Z.eqb].
      * split; [constructor; cbn; lia|]. rewrite (proj2 (Z.ltb_ge sz 0)) by lia.
        subst w. rewrite !slice_empty. done.
      * split; [constructor; cbn; lia|]. rewrite (proj2 (Z.ltb_lt (r + n - sz) w)) by lia. done.
Qed.

(** Modes without flags that block at most once. *)
Definition plain_mode (mode : Z) : Prop := mode = IO_BLOCKNONE \/ mode = IO_BLOCKFIRST.
Definition intr_pending (s : iobuffer) : bool := Z.testbit (ib_mode s) 0.
Definition iob_full (s : iobuffer) : bool := IOBUFFER_MAXWRITE s (ib_rpos s) =? 0.

Lemma consume_none s : intr_pending s = false -> IOBUFFER_CONSUME_INTR s = (false, s).
Proof.
  unfold intr_pending, IOBUFFER_CONSUME_INTR. intros H. rewrite H. f_equal.
  destruct s as [av nf lk mx sz buf r w md]. unfold set_mode. cbn -[Z.testbit] in *. f_equal.
  apply Z.bits_inj'. intros n Hn. rewrite Z.ldiff_spec.
  change IOBUFFER_INTR_BLOCKFIRST with (2 ^ 0). rewrite Z.pow2_bits_eqb by lia.
  destruct (Z.eqb_spec 0 n) as [<-|]; [by rewrite H|]. by rewrite andb_true_r.
Qed.

(** What [end_rpos] leaves behind after [n] bytes. *)
Definition read_commit (n : Z) (s : iobuffer) : iobuffer :=
  rwlock_end ((if iob_full s then broadcast_nfull else id) (advance n s)).

Lemma buffer_was_full s : iob_inv s ->
  (ib_rpos s =? ib_wpos s) || ((ib_rpos s =? 0) && (ib_wpos s =? ib_size s)) = iob_full s.
Proof.
  intros [? ? ?]. unfold iob_full, IOBUFFER_MAXWRITE. apply eq_true_iff_eq.
  rewrite orb_true_iff, andb_true_iff, !Z.eqb_eq. bcase; lia.
Qed.

Lemma read_end_rpos_ok s mode bufsize start rpos n out :
  iob_inv s -> start = ib_rpos s -> mode_has IO_PEEK mode = false -> n <> 0 ->
  (if rpos =? ib_wpos s then set_pos (ib_size s) 0 s
   else set_pos rpos (ib_wpos s) s) = advance n s ->
  read_end_rpos s mode bufsize start rpos n out = RRet n out (read_commit n s).
Proof.
  intros Hi -> Hp Hn Hr. unfold read_end_rpos.
  rewrite (proj2 (Z.eqb_neq n 0) Hn), Hp, (buffer_was_full s Hi). cbn [negb orb].
  f_equal. unfold read_commit. rewrite <- Hr. by destruct (iob_full s).
Qed.

Lemma read_copy_ok s mode room rpos n out :
  mode_has IO_SKIP mode = false -> zlen out + n <= room -> 0 <= n ->
  read_copy s mode room rpos n out = (true, out ++ slice (ib_buffer s) rpos (rpos + n)).
Proof.
  intros Hs Hr Hn. unfold read_copy. rewrite Hs. pose proof (zlen_nonneg out).
  rewrite (proj2 (Z.leb_le _ _)) by lia. do 4 f_equal. lia.
Qed.

Lemma plain_mode_flags mode : plain_mode mode ->
  mode_has IO_PEEK mode = false /\ mode_has IO_SKIP mode = false /\
  (mode_blocks mode = true -> mode_first_only mode = true) /\
  (mode_first_only mode = true -> mode = IO_BLOCKFIRST).
Proof. intros [-> | ->]; repeat split; done. Qed.

Lemma contents_pos s : contents s <> [] -> 0 < zlen (contents s).
Proof.
  intros Hne. pose proof (zlen_nonneg (contents s)).
  destruct (Z.eq_dec (zlen (contents s)) 0) as [E|]; [|lia]. by apply zlen_nil in E.
Qed.

(** The unread bytes as the one or two chunks the code copies. *)
Lemma contents_cases s : iob_inv s ->
  (ib_rpos s < ib_wpos s /\
   contents s = slice (ib_buffer s) (ib_rpos s) (ib_wpos s) /\
   zlen (contents s) = ib_wpos s - ib_rpos s) \/
  (ib_wpos s <= ib_rpos s /\
   contents s = slice (ib_buffer s) (ib_rpos s) (ib_size s) ++ slice (ib_buffer s) 0 (ib_wpos s) /\
   zlen (contents s) = ib_size s - ib_rpos s + ib_wpos s).
Proof.
  intros Hi. rewrite (contents_len s Hi). unfold contents, IOBUFFER_MAXREAD.
  destruct Hi. destruct (Z.ltb_spec (ib_rpos s) (ib_wpos s)); [left|right]; repeat split; lia.
Qed.

Lemma read_again_ok s room bufsize mode n :
  iob_inv s -> plain_mode mode -> (mode = IO_BLOCKFIRST -> intr_pending s = false) ->
  0 < bufsize -> bufsize <= room -> contents s <> [] ->
  n = Z.min bufsize (zlen (contents s)) ->
  read_again s room mode bufsize bufsize 0 [] =
  RRet n (ztake n (contents s)) (read_commit n (rwlock_read s)).
Proof.
  intros Hi Hm Hintr Hb Hroom Hne Hn. pose proof (contents_pos s Hne) as Hpos.
  destruct (plain_mode_flags _ Hm) as (Hpeek & Hskip & Hblk & Hfirst).
  unfold read_again. set (s1 := rwlock_read s).
  assert (iob_inv s1) as Hi1 by (destruct Hi; by constructor).
  rewrite (pos_ok_true s1 Hi1), <- (contents_len s1 Hi1). cbn [negb].
  change (contents s1) with (contents s). rewrite (proj2 (Z.eqb_neq _ _)) by lia.
  assert ((let '(intr, s1') := IOBUFFER_CONSUME_INTR s1 in
          (mode_first_only mode && intr, if mode_first_only mode then s1' else s1)) = (false, s1)) as Hcons.
  { destruct (mode_first_only mode) eqn:E.
    - rewrite consume_none; [done|]. by apply Hintr, Hfirst.
    - by destruct (IOBUFFER_CONSUME_INTR s1). }
  destruct (IOBUFFER_CONSUME_INTR s1) as [intr s1'].
  injection Hcons as -> ->. clear intr s1'.
  destruct Hi as [Hl Hr Hw].
  rewrite read_copy_ok by (done || (change (zlen []) with 0; simpl; lia)).
  change (ib_rpos s1) with (ib_rpos s) in *. change (ib_size s1) with (ib_size s) in *.
  change (ib_wpos s1) with (ib_wpos s) in *. change (ib_buffer s1) with (ib_buffer s) in *.
  rewrite app_nil_l, Z.add_0_l.
  destruct (contents_cases s ltac:(by constructor)) as [(Hlt & Hc & HL)|(Hge & Hc & HL)].
  - (* one linear chunk *)
    replace (Z.min (Z.min _ _) _) with n by lia.
    replace ((bufsize =? n) || _) with true
      by (symmetry; rewrite orb_true_iff, andb_true_iff, !Z.eqb_eq; lia).
    rewrite read_end_rpos_ok; [|done..|lia|].
    + rewrite Hc, ztake_slice by lia. done.
    + unfold advance. cbn -[Z.leb Z.eqb]. by rewrite (proj2 (Z.leb_le _ _)) by lia.
  - (* the upper chunk, then the lower one *)
    remember (Z.min (Z.min _ _) _) as l1 eqn:El1.
    destruct (Z.eqb_spec bufsize l1) as [E1|E1]; cbn [orb].
    { replace l1 with n by lia. rewrite read_end_rpos_ok; [|done..|lia|].
      - by rewrite Hc, ztake_app_le, ztake_slice by (rewrite ?zlen_slice; lia).
      - unfold advance. cbn -[Z.leb Z.eqb]. by rewrite (proj2 (Z.leb_le _ _)) by lia. }
    assert (l1 = ib_size s - ib_rpos s) as El2 by lia.
    replace ((ib_rpos s + l1 =? ib_wpos s) && (l1 =? zlen (contents s))) with false.
    2: { symmetry. rewrite andb_false_iff, !Z.eqb_neq. lia. }
    rewrite El2, (proj2 (Z.eqb_eq _ _)) by lia. cbn [negb].
    rewrite read_copy_ok by (done || (rewrite ?zlen_slice; lia)).
    change (ib_buffer s1) with (ib_buffer s). rewrite Z.sub_0_r, !Z.add_0_l.
    replace (ib_rpos s + (ib_size s - ib_rpos s)) with (ib_size s) by lia.
    set (l2 := Z.min _ _).
    assert (Ho : slice (ib_buffer s) (ib_rpos s) (ib_size s) ++ slice (ib_buffer s) 0 l2
                 = ztake n (contents s)).
    { rewrite Hc, ztake_app_ge by (rewrite zlen_slice; lia).
      rewrite zlen_slice, ztake_slice by lia. do 2 f_equal. lia. }
    replace (ib_size s - ib_rpos s + l2) with n by lia.
    assert (Hend : read_end_rpos s1 mode bufsize (ib_rpos s) l2 n (ztake n (contents s))
      = RRet n (ztake n (contents s)) (read_commit n s1)).
    { apply read_end_rpos_ok; [done..|lia|]. unfold advance. cbn -[Z.leb Z.eqb].
      destruct (Z.leb_spec (ib_rpos s + n) (ib_size s)).
      - rewrite (proj2 (Z.eqb_eq l2 _)), (proj2 (Z.eqb_neq _ (ib_wpos s))) by lia.
        f_equal; lia.
      - by replace (ib_rpos s + n - ib_size s) with l2 by lia. }
    rewrite Ho. destruct (Z.eqb_spec (bufsize - (ib_size s - ib_rpos s)) l2); [done|].
    rewrite (proj2 (Z.eqb_eq l2 _)), (proj2 (Z.eqb_neq n 0)) by lia. cbn [negb orb].
    unfold read_buffer_is_empty. destruct (mode_blocks mode) eqn:Eb; [|done].
    by rewrite (Hblk eq_refl), (proj2 (Z.eqb_neq n 0)) by lia.
Qed.

Lemma read_commit_ok n s :
  iob_inv s -> 0 < n -> n <= zlen (contents s) ->
  iob_inv (read_commit n (rwlock_read s)) /\
  contents (read_commit n (rwlock_read s)) = zdrop n (contents s) /\
  ib_rwlock (read_commit n (rwlock_read s)) = Unlocked /\
  ib_nfull (read_commit n (rwlock_read s)) = ib_nfull s + (if iob_full s then 1 else 0) /\
  ib_size (read_commit n (rwlock_read s)) = ib_size s /\
  ib_maxsize (read_commit n (rwlock_read s)) = ib_maxsize s.
Proof.
  intros Hi Hn Hc. destruct (advance_ok n s Hi Hn Hc) as [[H1 H2 H3] Hd].
  unfold read_commit, advance, iob_full in *.
  change (IOBUFFER_MAXWRITE (rwlock_read s) (ib_rpos (rwlock_read s)))
    with (IOBUFFER_MAXWRITE s (ib_rpos s)).
  cbn [rwlock_read set_lock ib_rpos ib_wpos ib_size].
  destruct (_ =? ib_wpos s), (IOBUFFER_MAXWRITE _ _ =? 0); cbn in *;
    (split; [by constructor|]; split; [exact Hd|split; [done|split; [lia|done]]]).
Qed.

Lemma read_empty_none s room bufsize :
  iob_inv s -> contents s = [] -> 0 < bufsize ->
  exists s', read_again s room IO_BLOCKNONE bufsize bufsize 0 [] = RRet 0 [] s' /\
    iob_inv s' /\ contents s' = [] /\ ib_rwlock s' = Unlocked /\
    ib_size s' = ib_size s /\ ib_maxsize s' = ib_maxsize s.
Proof.
  intros Hi Hc Hb. unfold read_again.
  assert (iob_inv (rwlock_read s)) as Hi1 by (destruct Hi; by constructor).
  rewrite (pos_ok_true _ Hi1), <- (contents_len _ Hi1). cbn [negb].
  change (contents (rwlock_read s)) with (contents s). rewrite Hc.
  change (zlen [] =? 0) with true. cbn iota. unfold read_buffer_is_empty.
  change (mode_blocks IO_BLOCKNONE) with false. cbn [negb andb].
  unfold read_end_rpos. change (mode_has IO_PEEK IO_BLOCKNONE) with false.
  change (mode_blocks IO_BLOCKNONE) with false. rewrite orb_true_r. cbn [negb orb].
  eexists. split; [reflexivity|].
  destruct (contents_nil s Hi Hc) as [Hz|[Hr Hw]]; destruct Hi as [Hl Hrp Hwp].
  - assert (ib_buffer s = []) as Hbuf by (apply zlen_nil; lia).
    assert (ib_rpos s = 0 /\ ib_wpos s = 0) as [E1 E2] by lia.
    destruct s as [av nf lk mx sz buf r w md]; cbn in *; subst. cbn.
    repeat split; cbn; lia.
  - destruct s as [av nf lk mx sz buf r w md]; cbn in *; subst. cbn -[Z.eqb].
    destruct (_ =? 0) eqn:?; [|destruct (_ || _)]; cbn;
      (split; [constructor; cbn; lia|]); (split; [|done]);
      unfold contents; cbn -[Z.ltb]; rewrite (proj2 (Z.ltb_ge _ 0)) by lia;
      by rewrite !slice_empty.
Qed.

(** A pending interrupt ends any read that blocks for its first byte. *)
Lemma read_interrupted s room bufsize :
  iob_inv s -> intr_pending s = true ->
  read_again s room IO_BLOCKFIRST bufsize bufsize 0 [] =
  RRet 0 [] (rwlock_end (IOBUFFER_CONSUME_INTR s).2).
Proof.
  intros Hi Hp. unfold read_again.
  assert (iob_inv (rwlock_read s)) as Hi1 by (destruct Hi; by constructor).
  rewrite (pos_ok_true _ Hi1). cbn [negb]. unfold read_buffer_is_empty, IOBUFFER_CONSUME_INTR.
  change (ib_mode (rwlock_read s)) with (ib_mode s). unfold intr_pending in Hp. rewrite Hp.
  by destruct (IOBUFFER_MAXREAD _ _ =? 0).
Qed.

Lemma read_empty_first s room bufsize :
  iob_inv s -> contents s = [] -> intr_pending s = false ->
  read_again s room IO_BLOCKFIRST bufsize bufsize 0 [] = RWait [] bufsize 0 (rwlock_end s).
Proof.
  intros Hi Hc Hp. unfold read_again.
  assert (iob_inv (rwlock_read s)) as Hi1 by (destruct Hi; by constructor).
  rewrite (pos_ok_true _ Hi1), <- (contents_len _ Hi1). cbn [negb].
  change (contents (rwlock_read s)) with (contents s). rewrite Hc.
  change (zlen [] =? 0) with true. cbn iota. unfold read_buffer_is_empty.
  rewrite consume_none by exact Hp. reflexivity.
Qed.

Lemma consume_clears s : intr_pending (IOBUFFER_CONSUME_INTR s).2 = false.
Proof.
  unfold intr_pending, IOBUFFER_CONSUME_INTR. cbn -[Z.testbit Z.ldiff].
  rewrite Z.ldiff_spec. apply andb_false_r.
Qed.

(** C4: What a read of at least one byte into accessible memory does in the modes IO_BLOCKNONE and
    IO_BLOCKFIRST.  With an interrupt pending, a read that blocks for its first byte returns 0 and takes the
    interrupt.  Otherwise it returns the oldest unread bytes, as many as requested and present,
    removes exactly those and wakes the writers if the buffer was full.  When there are none it goes to sleep in mode IO_BLOCKFIRST
    and returns 0 in mode IO_BLOCKNONE.  The buffer stays well formed and the lock is released. *)
Theorem iobuffer_read_fifo s room bufsize mode :
  iob_inv s -> plain_mode mode -> 0 < bufsize <= room ->
  let stopped := (mode =? IO_BLOCKFIRST) && intr_pending s in
  let n := if stopped then 0 else Z.min bufsize (zlen (contents s)) in
  exists s', iobuffer_read None s room bufsize mode =
      (if (n =? 0) && (mode =? IO_BLOCKFIRST) && negb stopped then RWait [] bufsize 0 s'
       else RRet n (ztake n (contents s)) s') /\
    iob_inv s' /\ contents s' = zdrop n (contents s) /\ ib_rwlock s' = Unlocked /\
    ib_size s' = ib_size s /\ ib_maxsize s' = ib_maxsize s /\
    (0 < n -> ib_nfull s' = ib_nfull s + (if iob_full s then 1 else 0)) /\
    (stopped = true -> intr_pending s' = false).
Proof.
  intros Hi Hm [Hb Hr] stopped n. unfold iobuffer_read. destruct stopped eqn:Est; subst n.
  { apply andb_true_iff in Est as [->%Z.eqb_eq Hp]. exists (rwlock_end (IOBUFFER_CONSUME_INTR s).2).
    split; [by apply read_interrupted|]. split; [by destruct Hi|]. split_and!; try done.
    intros _. by apply consume_clears. }
  assert (mode = IO_BLOCKFIRST -> intr_pending s = false) as Hp' by (intros ->; exact Est).
  destruct (decide (contents s = [])) as [Hc|Hc].
  - rewrite Hc, Z.min_r by (change (zlen []) with 0; lia). change (zlen [] =? 0) with true. destruct Hm as [-> | ->].
    + destruct (read_empty_none s room bufsize Hi Hc Hb) as (s' & Hrd & Hi' & Hc' & ? & ? & ?).
      exists s'. split; [exact Hrd|]. split_and!; done.
    + exists (rwlock_end s). split; [apply read_empty_first; auto|]. split; [by destruct Hi|]. split_and!; done.
  - pose proof (contents_pos s Hc). rewrite (proj2 (Z.eqb_neq _ 0)) by lia. eexists.
    split; [by apply read_again_ok; eauto|]. destruct (read_commit_ok (Z.min bufsize (zlen (contents s))) s Hi) as (? & ? & ? & ? & ? & ?); [lia..|].
    split_and!; done.
Qed.

(** On an empty buffer a non-blocking read returns 0 bytes, a blocking one
    goes to sleep with the lock released and the buffer untouched, and a pending
    interrupt makes it return 0 (end of file) and is consumed. *)
Theorem iobuffer_read_empty s room bufsize :
  iob_inv s -> contents s = [] -> 0 < bufsize ->
  (exists s', iobuffer_read None s room bufsize IO_BLOCKNONE = RRet 0 [] s' /\
              iob_inv s' /\ contents s' = [] /\ ib_rwlock s' = Unlocked) /\
  (if intr_pending s
   then exists s', iobuffer_read None s room bufsize IO_BLOCKFIRST = RRet 0 [] s' /\
          intr_pending s' = false /\ contents s' = [] /\ ib_rwlock s' = Unlocked
   else iobuffer_read None s room bufsize IO_BLOCKFIRST =
          RWait [] bufsize 0 (rwlock_end s)).
Proof.
  intros Hi Hc Hb. split.
  - destruct (read_empty_none s room bufsize Hi Hc Hb) as (s' & ? & ? & ? & ? & _). eauto.
  - destruct (intr_pending s) eqn:Hp; [|by apply read_empty_first].
    eexists. split; [by apply read_interrupted|]. split; [|done].
    apply (consume_clears s).
Qed.

(** ** Writing is appending at the back *)

Section Writing.

Context (SIZE_T : Z).

(** The unread bytes are [c]; a freshly allocated buffer, whose two positions
    are both 0, counts as empty while [iobuffer_write] fills it. *)
Definition queue (s : iobuffer) (c : list byte) : Prop :=
  iob_inv s /\ (c = contents s \/ c = [] /\ ib_rpos s = 0 /\ ib_wpos s = 0).

(** Free bytes that follow the write pointer without wrapping. *)
Definition upper_room (s : iobuffer) : Z :=
  if ib_wpos s <? ib_rpos s
  then Z.min (ib_size s - ib_wpos s) (ib_rpos s - ib_wpos s)
  else ib_size s - ib_wpos s.

Definition upper_copy (n : Z) (src : list byte) (s : iobuffer) : iobuffer :=
  set_pos (ib_rpos s) (ib_wpos s + n)
    (set_buffer (ib_size s) (store (ib_buffer s) (ib_wpos s) (ztake n src)) s).

Definition lower_copy (n : Z) (src : list byte) (s : iobuffer) : iobuffer :=
  set_pos (ib_rpos s) n
    (set_buffer (ib_size s) (store (ib_buffer s) 0 (ztake n src)) s).

Lemma upper_copy_ok s c n src :
  queue s c -> zlen c < ib_size s -> 0 <= n -> n <= upper_room s -> n <= zlen src ->
  (0 < n \/ 0 < zlen c) ->
  iob_inv (upper_copy n src s) /\ contents (upper_copy n src s) = c ++ ztake n src.
Proof.
  intros [Hi Hc] Hfree Hn Hu Hsrc Hsome. pose proof Hi as [Hl Hr Hw].
  assert (zlen (ztake n src) = n) as Hk by (rewrite zlen_ztake; lia).
  unfold upper_room in Hu.
  assert (n <= ib_size s - ib_wpos s) as Hn'
    by (destruct (_ <? _) eqn:E in Hu; bsimp; lia).
  split.
  { constructor; cbn; [rewrite zlen_store|..]; lia. }
  unfold contents at 1. cbn [upper_copy set_pos set_buffer ib_rpos ib_wpos ib_buffer ib_size].
  assert (Hat : slice (store (ib_buffer s) (ib_wpos s) (ztake n src)) (ib_wpos s) (ib_wpos s + n)
                = ztake n src).
  { rewrite <- Hk at 2. apply slice_store_at; lia. }
  destruct Hc as [->|(-> & E1 & E2)].
  - destruct (contents_cases s Hi) as [(Hlt & Hc & HL)|(Hge & Hc & HL)]; rewrite Hc.
    + rewrite (proj2 (Z.ltb_lt _ _)) by lia.
      rewrite (slice_split _ _ (ib_wpos s)) by lia.
      rewrite Hat, slice_store_below by lia. done.
    + rewrite (proj2 (Z.ltb_lt (ib_wpos s) (ib_rpos s))) in Hu by lia.
      rewrite (proj2 (Z.ltb_ge _ _)) by lia.
      rewrite (slice_split _ 0 (ib_wpos s)) by lia.
      rewrite Hat, slice_store_above, slice_store_below by lia. by rewrite app_assoc.
  - change (zlen (@nil byte)) with 0 in *. rewrite (proj2 (Z.ltb_lt _ _)) by lia.
    rewrite E1, E2 in *. rewrite Z.add_0_l in *. by rewrite Hat.
Qed.

Lemma lower_copy_ok s n src :
  iob_inv s -> ib_wpos s = ib_size s -> ib_rpos s < ib_size s ->
  0 <= n -> n <= ib_rpos s -> n <= zlen src ->
  iob_inv (lower_copy n src s) /\
  contents (lower_copy n src s) = contents s ++ ztake n src.
Proof.
  intros Hi Ew Hrs Hn Hu Hsrc. pose proof Hi as [Hl Hr Hw].
  assert (zlen (ztake n src) = n) as Hk by (rewrite zlen_ztake; lia).
  split.
  { constructor; cbn; [rewrite zlen_store|..]; lia. }
  unfold contents. cbn [lower_copy set_pos set_buffer ib_rpos ib_wpos ib_buffer ib_size].
  rewrite (proj2 (Z.ltb_ge _ _)) by lia. rewrite (proj2 (Z.ltb_lt _ _)) by lia.
  rewrite slice_store_above by lia. rewrite Ew. f_equal.
  rewrite <- Hk at 2. apply (slice_store_at _ 0); lia.
Qed.

Lemma write_end_contents s n :
  iob_inv s -> 0 < ib_wpos s -> 0 < n ->
  exists s', write_end_ok s (ib_size s) n = WRet n s' /\ iob_inv s' /\
    contents s' = contents s /\ ib_rwlock s' = Unlocked /\ ib_avail s' = ib_avail s + 1 /\
    ib_size s' = ib_size s /\ ib_maxsize s' = ib_maxsize s.
Proof.
  intros Hi Hw Hn. pose proof Hi as [Hl Hr Hwp]. unfold write_end_ok.
  rewrite (proj2 (Z.eqb_neq n 0)), Z.eqb_refl, (proj2 (Z.leb_le _ _)) by lia.
  cbn [negb andb]. eexists. split; [reflexivity|].
  destruct (Z.eqb_spec (ib_rpos s) (ib_size s)) as [E|E]; cbn.
  - split; [constructor; cbn; lia|]. split; [|done].
    unfold contents. cbn [rwlock_end broadcast_avail set_lock set_pos ib_rpos ib_wpos ib_buffer ib_size].
    rewrite (proj2 (Z.ltb_lt _ _)) by lia. rewrite (proj2 (Z.ltb_ge _ _)) by lia.
    by rewrite E, slice_empty.
  - split; [by constructor|]. done.
Qed.

(** The room behind the write pointer ends at the read pointer or at the end of the buffer. *)
Lemma upper_room_ok s c : queue s c -> zlen c < ib_size s ->
  0 <= upper_room s /\
  (ib_wpos s < ib_rpos s -> upper_room s = ib_rpos s - ib_wpos s /\ upper_room s = ib_size s - zlen c) /\
  (ib_rpos s <= ib_wpos s -> upper_room s = ib_size s - ib_wpos s /\
     ib_size s - zlen c = upper_room s + ib_rpos s /\ ib_rpos s < ib_size s).
Proof.
  intros [Hi Hc] Hfree. pose proof Hi as [Hl Hr Hw]. unfold upper_room. destruct Hc as [->|(-> & ? & ?)].
  - destruct (contents_cases s Hi) as [(? & ? & HL)|(? & ? & HL)];
      destruct (Z.ltb_spec (ib_wpos s) (ib_rpos s)); lia.
  - change (zlen (@nil byte)) with 0 in *. rewrite (proj2 (Z.ltb_ge _ _)) by lia. lia.
Qed.

(** One round of copies moves as many bytes as are free. *)
Lemma write_copy_ok again s c src bufsize result n :
  queue s c -> zlen c < ib_size s -> 0 < bufsize -> bufsize <= zlen src ->
  n = Z.min bufsize (ib_size s - zlen c) ->
  exists s', iob_inv s' /\ contents s' = c ++ ztake n src /\ 0 < ib_wpos s' /\
    ib_size s' = ib_size s /\ ib_avail s' = ib_avail s /\ ib_maxsize s' = ib_maxsize s /\
    ((n = bufsize /\
      write_copy again s src bufsize result = write_end_ok s' (ib_size s) (result + n)) \/
     (n < bufsize /\ exists mw,
      write_copy again s src bufsize result = again s' (zdrop n src) mw (bufsize - n) (result + n))).
Proof.
  intros Hq Hfree Hb Hsrc Hn. pose proof Hq as [Hi Hc]. pose proof Hi as [Hl Hr Hw].
  pose proof (zlen_nonneg c) as Hc0. unfold write_copy.
  rewrite (proj2 (Z.eqb_neq (ib_size s) 0)), andb_false_r by lia. cbn iota.
  fold (upper_room s). remember (Z.min (upper_room s) bufsize) as u eqn:Hu0.
  destruct (upper_room_ok s c Hq Hfree) as (Hr0 & Hrw & Hrr).
  rewrite (proj2 (Z.ltb_ge (zlen src) u)) by lia.
  fold (upper_copy u src s).
  change (ib_wpos (upper_copy u src s)) with (ib_wpos s + u).
  change (ib_rpos (upper_copy u src s)) with (ib_rpos s).
  destruct (Z.eqb_spec bufsize u) as [Eu|Eu].
  { (* everything fits behind the write pointer *)
    destruct (upper_copy_ok s c u src Hq) as [Hi' Hc']; [lia..|].
    exists (upper_copy u src s). replace n with u by lia.
    do 6 (split; [first [done|cbn; lia]|]). left. split; [lia|done]. }
  assert (Eu' : u = upper_room s) by lia.
  assert (Hsome : 0 < u \/ 0 < zlen c) by lia.
  destruct (upper_copy_ok s c u src Hq) as [Hi' Hc']; [lia..|].
  set (s1 := upper_copy u src s) in *.
  assert (Hagain : n = u -> exists s', iob_inv s' /\ contents s' = c ++ ztake n src /\
    0 < ib_wpos s' /\ ib_size s' = ib_size s /\ ib_avail s' = ib_avail s /\
    ib_maxsize s' = ib_maxsize s /\ s' = s1).
  { intros ->. exists s1. do 6 (split; [first [done|cbn; lia]|]). done. }
  destruct (Z.le_gt_cases (ib_rpos s) (ib_wpos s)) as [Hle|Hgt].
  - (* the upper portion ends at the end of the buffer *)
    destruct (Hrr Hle) as (Hu & Hf & Hrs).
    rewrite (proj2 (Z.eqb_eq (ib_wpos s + u) _)) by lia. cbn [orb negb].
    rewrite (proj2 (Z.eqb_neq (ib_rpos s) (ib_size s))), orb_false_r by lia.
    destruct (Z.eqb_spec (ib_rpos s) 0) as [E0|E0].
    { destruct Hagain as (s' & H1 & H2 & H3 & H4 & H5 & H6 & ->); [lia|].
      exists s1. do 6 (split; [done|]). right. split; [lia|].
      replace n with u by lia. by eexists. }
    remember (Z.min (ib_rpos s) (bufsize - u)) as l eqn:Hl0.
    rewrite (proj2 (Z.ltb_ge (zlen (zdrop u src)) l)) by (rewrite zlen_zdrop; lia).
    assert (ib_wpos s1 = ib_size s1) as Ew by (cbn; lia).
    destruct (lower_copy_ok s1 l (zdrop u src) Hi' Ew) as [Hi'' Hc''];
      [cbn; lia..|rewrite zlen_zdrop; lia|].
    change (set_pos (ib_rpos s) l _) with (lower_copy l (zdrop u src) s1).
    change (ib_wpos (lower_copy l (zdrop u src) s1)) with l.
    change (ib_rpos (lower_copy l (zdrop u src) s1)) with (ib_rpos s).
    exists (lower_copy l (zdrop u src) s1).
    rewrite Hc', <- app_assoc, ztake_add in Hc'' by lia.
    replace (u + l) with n in Hc'' by lia.
    rewrite (proj2 (Z.leb_le _ _)) by lia. cbn [negb].
    rewrite (proj2 (Z.ltb_lt l (ib_size s))) by lia. cbn [orb negb].
    do 6 (split; [first [done|cbn; lia]|]).
    replace (result + u + l) with (result + n) by lia.
    destruct (Z.eqb_spec (bufsize - u) l); [left; split; [lia|done]|right].
    split; [lia|]. rewrite (proj2 (Z.eqb_eq l _)) by lia. cbn [negb].
    replace (bufsize - u - l) with (bufsize - n) by lia. rewrite zdrop_zdrop by lia.
    replace (u + l) with n by lia. by eexists.
  - (* the upper portion ends at the read pointer: the buffer is full *)
    destruct (Hrw Hgt) as [Hu Hf].
    destruct Hagain as (s' & H1 & H2 & H3 & H4 & H5 & H6 & ->); [lia|].
    exists s1. do 6 (split; [done|]). right. split; [lia|]. replace n with u by lia.
    rewrite (proj2 (Z.eqb_eq (ib_wpos s + u) (ib_rpos s))), orb_true_r by lia. cbn [negb].
    destruct (Z.eqb_spec (ib_wpos s + u) (ib_size s)); cbn [negb]; [|by eexists].
    rewrite (proj2 (Z.eqb_eq (ib_rpos s) (ib_size s))), orb_true_r by lia. by eexists.
Qed.

Lemma write_loop_S fuel alloc mode max_size full s src max_write bufsize result :
  write_loop SIZE_T (S fuel) alloc mode max_size full s src max_write bufsize result =
  if full && mode_blocks mode && (max_size <=? ib_size s) then
    if negb (result =? 0) && mode_first_only mode then
      write_end_ok s (ib_size s) result
    else
      let s := if negb (result =? 0) then broadcast_avail s else s in
      if negb (IOBUFFER_MAXWRITE s (ib_rpos s) =? 0) then WAbort
      else WWait src bufsize result (rwlock_end s)
  else
    match write_realloc SIZE_T alloc s max_size max_write bufsize result with
    | inl e => e
    | inr s =>
        write_copy (write_loop SIZE_T fuel alloc mode max_size true) s src bufsize result
    end.
Proof. reflexivity. Qed.

(** Growing is safe while the unread bytes do not wrap around. *)
Definition growable (s : iobuffer) : Prop := ib_rpos s < ib_wpos s \/ contents s = [].

Definition grown (new : Z) (s : iobuffer) : iobuffer :=
  set_pos (if (ib_rpos s =? ib_size s) && negb (ib_size s =? 0) then new else ib_rpos s)
    (ib_wpos s) (set_buffer new (grow_buffer new s) s).

Lemma grown_ok new s :
  iob_inv s -> growable s -> ib_size s < new -> queue (grown new s) (contents s).
Proof.
  intros Hi Hg Hn. pose proof Hi as [Hl Hr Hw].
  assert (Hlen : zlen (grow_buffer new s) = new).
  { unfold grow_buffer. rewrite zlen_app, Hl. unfold zlen. rewrite length_replicate. lia. }
  assert (Hinv : iob_inv (grown new s)).
  { constructor; cbn; [done| |lia]. destruct (_ && _); lia. }
  split; [done|]. destruct Hg as [Hlt|Hnil].
  - left. unfold contents, grown. cbn [set_pos set_buffer ib_rpos ib_wpos ib_buffer ib_size].
    rewrite (proj2 (Z.eqb_neq (ib_rpos s) (ib_size s))) by lia. cbn [andb].
    rewrite (proj2 (Z.ltb_lt _ _)) by lia. unfold grow_buffer.
    by rewrite slice_app_l by lia.
  - rewrite Hnil. destruct (contents_nil s Hi Hnil) as [Hz|[E1 E2]].
    + right. split; [done|]. unfold grown. cbn [set_pos set_buffer ib_rpos ib_wpos].
      rewrite (proj2 (Z.eqb_eq (ib_size s) 0)), andb_false_r by lia. lia.
    + destruct (Z.eq_dec (ib_size s) 0) as [Hz|Hz].
      { right. split; [done|]. unfold grown. cbn [set_pos set_buffer ib_rpos ib_wpos].
        rewrite (proj2 (Z.eqb_eq (ib_size s) 0)), andb_false_r by lia. lia. }
      left. unfold contents, grown. cbn [set_pos set_buffer ib_rpos ib_wpos ib_buffer ib_size].
      rewrite E1, E2, Z.eqb_refl, (proj2 (Z.eqb_neq (ib_size s) 0)) by done. cbn [andb negb].
      rewrite (proj2 (Z.ltb_ge new 0)) by lia. by rewrite !slice_empty.
Qed.

(** The buffer has to be made larger for the write. *)
Definition must_grow (s : iobuffer) (bufsize : Z) : bool :=
  (IOBUFFER_MAXWRITE s (ib_rpos s) <? bufsize) && (ib_size s <? ib_maxsize s).

(** The reallocation makes room for as much as the limit allows. *)
Lemma write_realloc_ok s alloc bufsize result n :
  iob_inv s -> ib_size s <= ib_maxsize s -> ib_size s + bufsize < SIZE_T ->
  growable s \/ bufsize <= IOBUFFER_MAXWRITE s (ib_rpos s) \/ ib_size s = ib_maxsize s ->
  must_grow s bufsize && negb alloc = false ->
  0 < bufsize -> 0 < n -> n = Z.min bufsize (ib_maxsize s - zlen (contents s)) ->
  exists s2, write_realloc SIZE_T alloc s (ib_maxsize s)
               (IOBUFFER_MAXWRITE s (ib_rpos s)) bufsize result = inr s2 /\
    queue s2 (contents s) /\ zlen (contents s) < ib_size s2 <= ib_maxsize s /\
    n = Z.min bufsize (ib_size s2 - zlen (contents s)) /\
    (n < bufsize -> ib_size s2 = ib_maxsize s) /\
    ib_avail s2 = ib_avail s /\ ib_maxsize s2 = ib_maxsize s /\ ib_size s <= ib_size s2.
Proof.
  intros Hi Hmax Hsz Hg Hal Hb Hn Hneq. unfold must_grow in Hal.
  pose proof (maxread_maxwrite s Hi) as Hsum. rewrite <- (contents_len s Hi) in Hsum.
  pose proof (zlen_nonneg (contents s)) as Hc0. pose proof (maxwrite_nonneg s Hi) as Hmw0.
  pose proof Hi as [_ Hr0 _].
  set (mw := IOBUFFER_MAXWRITE s (ib_rpos s)) in *. clearbody mw.
  unfold write_realloc. destruct (Z.ltb_spec mw bufsize) as [Hlt|Hge].
  2: { exists s. do 2 (split; [first [done|by split; [|left]]|]).
       split; [lia|]. split; [lia|]. split; [lia|]. split; [done|]. split; [done|]. lia. }
  rewrite Z.mod_small by lia. set (new := Z.min _ _).
  assert (new = Z.min (ib_size s + (bufsize - mw)) (ib_maxsize s)) as Hnew by done.
  clearbody new.
  rewrite (proj2 (Z.leb_le (ib_size s) new)) by lia. cbn [negb].
  destruct (Z.eqb_spec new (ib_size s)) as [E|E]; cbn [negb].
  - rewrite (proj2 (Z.eqb_neq mw 0)) by lia. exists s.
    do 2 (split; [first [done|by split; [|left]]|]).
    split; [lia|]. split; [lia|]. split; [lia|]. split; [done|]. split; [done|]. lia.
  - rewrite (proj2 (Z.ltb_lt (ib_size s) (ib_maxsize s))) in Hal by lia.
    apply negb_false_iff in Hal as ->.
    exists (grown new s). split; [done|]. split; [apply grown_ok; [done| |lia]|].
    + destruct Hg as [?|[?|?]]; [done|exfalso; lia..].
    + change (ib_size (grown new s)) with new.
      split; [lia|]. split; [lia|]. split; [lia|]. split; [done|]. split; [done|]. lia.
Qed.

(** A pass that has something to write: it is over when everything was written or when it
    blocks for the first byte only, and sleeps otherwise. *)
Lemma write_again_ok s alloc src bufsize mode r0 n :
  iob_inv s -> ib_size s <= ib_maxsize s -> ib_size s + bufsize < SIZE_T ->
  growable s \/ bufsize <= IOBUFFER_MAXWRITE s (ib_rpos s) \/ ib_size s = ib_maxsize s ->
  must_grow s bufsize && negb alloc = false -> 0 <= r0 -> 0 < bufsize <= zlen src ->
  n = Z.min bufsize (ib_maxsize s - zlen (contents s)) -> 0 < n ->
  mode_blocks mode = true \/ n = bufsize ->
  exists s', write_again SIZE_T 4 alloc s src bufsize mode r0 =
      (if (n =? bufsize) || mode_first_only mode then WRet (r0 + n) s'
       else WWait (zdrop n src) (bufsize - n) (r0 + n) s') /\
    iob_inv s' /\ contents s' = contents s ++ ztake n src /\
    ib_size s <= ib_size s' <= ib_maxsize s /\ ib_maxsize s' = ib_maxsize s /\
    ib_rwlock s' = Unlocked /\ ib_avail s' = ib_avail s + 1.
Proof.
  intros Hi Hmax Hsz Hg Hal Hr0 [Hb Hsrc] Hneq Hn Hmode.
  set (s1 := rwlock_write s).
  assert (iob_inv s1) as Hi1 by (destruct Hi; by constructor).
  destruct (write_realloc_ok s1 alloc bufsize r0 n Hi1 Hmax Hsz Hg Hal Hb Hn Hneq)
    as (s2 & Hre & Hq & Hs2 & Hn2 & Hcut & Hav & Hmx & Hgrow).
  change (contents s1) with (contents s) in *.
  change (ib_maxsize s1) with (ib_maxsize s) in *.
  change (ib_size s1) with (ib_size s) in *.
  unfold write_again. fold s1.
  change (ib_maxsize s1) with (ib_maxsize s). rewrite (pos_ok_true s1 Hi1). cbn [negb].
  rewrite write_loop_S, Hre.
  replace ((_ =? 0) && mode_blocks mode && _) with false.
  2: { symmetry. rewrite !andb_false_iff, Z.eqb_neq, Z.leb_gt.
       pose proof (maxread_maxwrite s1 Hi1) as Hsum. rewrite <- (contents_len s1 Hi1) in Hsum.
       change (contents s1) with (contents s) in *. change (ib_size s1) with (ib_size s) in *.
       lia. }
  destruct (write_copy_ok (write_loop SIZE_T 3 alloc mode (ib_maxsize s) true)
    s2 (contents s) src bufsize r0 n Hq)
    as (s3 & Hi3 & Hc3 & Hw3 & Hsz3 & Hav3 & Hmx3 & Hend); [lia..|].
  assert (Hret : exists s', write_end_ok s3 (ib_size s3) (r0 + n) = WRet (r0 + n) s' /\
    iob_inv s' /\ contents s' = contents s ++ ztake n src /\
    ib_size s <= ib_size s' <= ib_maxsize s /\ ib_maxsize s' = ib_maxsize s /\
    ib_rwlock s' = Unlocked /\ ib_avail s' = ib_avail s + 1).
  { destruct (write_end_contents s3 (r0 + n) Hi3 Hw3 ltac:(lia)) as (s' & -> & Hi' & Hc' & Hlk & Hav' & Hsz' & Hmx').
    exists s'. rewrite Hc', Hc3, Hsz', Hsz3, Hmx', Hmx3, Hmx, Hav', Hav3, Hav. split_and!; (done || lia). }
  destruct Hend as [[-> ->]|(Hlt & mw & ->)].
  { rewrite <- Hsz3, Z.eqb_refl. exact Hret. }
  destruct Hmode as [Hblk|]; [|lia]. rewrite write_loop_S, Hblk, Hsz3, (Hcut Hlt), Z.leb_refl.
  rewrite (proj2 (Z.eqb_neq (r0 + n) 0)), (proj2 (Z.eqb_neq n bufsize)) by lia. cbn [andb negb orb].
  destruct (mode_first_only mode); [rewrite Hsz3, (Hcut Hlt) in Hret; exact Hret|].
  cbn zeta. change (IOBUFFER_MAXWRITE (broadcast_avail s3) (ib_rpos (broadcast_avail s3)))
    with (IOBUFFER_MAXWRITE s3 (ib_rpos s3)).
  pose proof (maxread_maxwrite s3 Hi3) as Hsum. rewrite <- (contents_len s3 Hi3), Hc3, zlen_app, zlen_ztake in Hsum by lia.
  rewrite (proj2 (Z.eqb_eq (IOBUFFER_MAXWRITE s3 (ib_rpos s3)) 0)) by lia. cbn [negb].
  eexists. split; [done|]. split; [by destruct Hi3|]. split; [done|]. cbn.
  rewrite Hsz3, Hmx3, Hmx, Hav3, Hav. split_and!; (done || lia).
Qed.

(** A pass on a buffer that is full at its limit. *)
Lemma write_full s alloc src bufsize mode :
  iob_inv s -> ib_size s = ib_maxsize s -> zlen (contents s) = ib_size s ->
  0 < bufsize -> ib_size s + bufsize < SIZE_T ->
  write_again SIZE_T 4 alloc s src bufsize mode 0 =
  if mode_blocks mode then WWait src bufsize 0 (rwlock_end s) else WRet 0 (rwlock_end s).
Proof.
  intros Hi Hmax Hfull Hb Hsz. unfold write_again.
  assert (iob_inv (rwlock_write s)) as Hi1 by (destruct Hi; by constructor).
  pose proof (maxread_maxwrite s Hi) as Hsum. rewrite <- (contents_len s Hi) in Hsum.
  pose proof Hi as [_ Hr _].
  rewrite (pos_ok_true _ Hi1). cbn [negb]. rewrite write_loop_S.
  change (IOBUFFER_MAXWRITE (rwlock_write s) (ib_rpos (rwlock_write s)))
    with (IOBUFFER_MAXWRITE s (ib_rpos s)).
  change (ib_size (rwlock_write s)) with (ib_size s).
  change (ib_maxsize (rwlock_write s)) with (ib_maxsize s).
  replace (IOBUFFER_MAXWRITE s (ib_rpos s)) with 0 by lia. rewrite <- Hmax, Z.leb_refl.
  destruct (mode_blocks mode); cbn [andb negb Z.eqb].
  - change (IOBUFFER_MAXWRITE (rwlock_write s) (ib_rpos (rwlock_write s)))
      with (IOBUFFER_MAXWRITE s (ib_rpos s)).
    by replace (IOBUFFER_MAXWRITE s (ib_rpos s)) with 0 by lia.
  - unfold write_realloc. rewrite (proj2 (Z.ltb_lt 0 bufsize)) by done.
    change (ib_size (rwlock_write s)) with (ib_size s).
    rewrite Z.sub_0_r, Z.mod_small, Z.min_r, Z.leb_refl, Z.eqb_refl by lia. done.
Qed.

(** A later pass of a write that sleeps until everything is written, woken too early. *)
Lemma write_full_again s alloc src bufsize mode r0 :
  iob_inv s -> ib_size s = ib_maxsize s -> zlen (contents s) = ib_size s ->
  mode_blocks mode = true -> mode_first_only mode = false -> r0 <> 0 ->
  write_again SIZE_T 4 alloc s src bufsize mode r0 = WWait src bufsize r0 (rwlock_end (broadcast_avail s)).
Proof.
  intros Hi Hmax Hfull Hblk Hfirst Hr0. unfold write_again.
  assert (iob_inv (rwlock_write s)) as Hi1 by (destruct Hi; by constructor).
  pose proof (maxread_maxwrite s Hi) as Hsum. rewrite <- (contents_len s Hi) in Hsum.
  rewrite (pos_ok_true _ Hi1). cbn [negb]. rewrite write_loop_S.
  change (IOBUFFER_MAXWRITE (rwlock_write s) (ib_rpos (rwlock_write s)))
    with (IOBUFFER_MAXWRITE s (ib_rpos s)).
  change (ib_size (rwlock_write s)) with (ib_size s).
  change (ib_maxsize (rwlock_write s)) with (ib_maxsize s).
  replace (IOBUFFER_MAXWRITE s (ib_rpos s)) with 0 by lia. rewrite <- Hmax, Z.leb_refl, Hblk, Hfirst.
  rewrite (proj2 (Z.eqb_neq r0 0)) by done. cbn [andb negb Z.eqb].
  change (IOBUFFER_MAXWRITE (broadcast_avail (rwlock_write s)) (ib_rpos (broadcast_avail (rwlock_write s))))
    with (IOBUFFER_MAXWRITE s (ib_rpos s)).
  by replace (IOBUFFER_MAXWRITE s (ib_rpos s)) with 0 by lia.
Qed.

(** There is no memory for a larger buffer. *)
Lemma write_nomem s src bufsize mode :
  iob_inv s -> ib_size s + bufsize < SIZE_T -> must_grow s bufsize = true ->
  write_again SIZE_T 4 false s src bufsize mode 0 = WRet (- ENOMEM) (rwlock_end s).
Proof.
  intros Hi Hsz Hg. unfold must_grow in Hg. rewrite andb_true_iff, !Z.ltb_lt in Hg. destruct Hg as [Hg1 Hg2].
  assert (iob_inv (rwlock_write s)) as Hi1 by (destruct Hi; by constructor).
  pose proof (maxwrite_nonneg s Hi). pose proof Hi as [_ Hr _].
  unfold write_again. rewrite (pos_ok_true _ Hi1). cbn [negb]. rewrite write_loop_S.
  change (IOBUFFER_MAXWRITE (rwlock_write s) (ib_rpos (rwlock_write s)))
    with (IOBUFFER_MAXWRITE s (ib_rpos s)).
  change (ib_size (rwlock_write s)) with (ib_size s).
  change (ib_maxsize (rwlock_write s)) with (ib_maxsize s).
  rewrite (proj2 (Z.leb_gt (ib_maxsize s) (ib_size s))), andb_false_r by lia. unfold write_realloc.
  change (ib_size (rwlock_write s)) with (ib_size s).
  rewrite (proj2 (Z.ltb_lt _ _) Hg1), Z.mod_small by lia.
  rewrite (proj2 (Z.leb_le _ _)), (proj2 (Z.eqb_neq _ (ib_size s))) by lia. done.
Qed.

(** The first pass, in all cases. *)
Lemma write_first_ok s src bufsize mode alloc n :
  iob_inv s -> ib_size s <= ib_maxsize s -> ib_size s + bufsize < SIZE_T ->
  growable s \/ bufsize <= IOBUFFER_MAXWRITE s (ib_rpos s) \/ ib_size s = ib_maxsize s ->
  0 < bufsize <= zlen src ->
  n = Z.min bufsize (ib_maxsize s - zlen (contents s)) ->
  mode_blocks mode = true \/ n = bufsize \/ n = 0 ->
  let nomem := must_grow s bufsize && negb alloc in
  let m := if nomem then 0 else n in
  exists s', iobuffer_write SIZE_T None alloc s src bufsize mode =
      (if nomem then WRet (- ENOMEM) s'
       else if n =? 0 then if mode_blocks mode then WWait src bufsize 0 s' else WRet 0 s'
       else if (n =? bufsize) || mode_first_only mode then WRet n s'
       else WWait (zdrop n src) (bufsize - n) n s') /\
    iob_inv s' /\ contents s' = contents s ++ ztake m src /\
    ib_size s <= ib_size s' <= ib_maxsize s /\ ib_maxsize s' = ib_maxsize s /\
    ib_rwlock s' = Unlocked /\ ib_avail s' = ib_avail s + (if m =? 0 then 0 else 1).
Proof.
  intros Hi Hmax Hsz Hg Hb Hneq Hmode nomem m. unfold iobuffer_write. pose proof Hi as [Hl Hr Hw].
  pose proof (maxread_maxwrite s Hi) as Hsum. rewrite <- (contents_len s Hi) in Hsum.
  pose proof (maxwrite_nonneg s Hi). assert (Hsame : contents s = contents s ++ ztake 0 src) by (by rewrite app_nil_r).
  destruct nomem eqn:Hnm; subst m.
  { apply andb_true_iff in Hnm as [Hgr Hal]. destruct alloc; [done|]. exists (rwlock_end s).
    split; [by apply write_nomem|]. split; [by constructor|]. split; [exact Hsame|]. cbn. split_and!; (done || lia). }
  destruct (Z.eqb_spec n 0) as [E|E].
  { exists (rwlock_end s). rewrite (write_full s alloc src) by (done || lia). split; [by destruct (mode_blocks mode)|].
    split; [by constructor|]. rewrite E. split; [exact Hsame|]. cbn. split_and!; (done || lia). }
  destruct (write_again_ok s alloc src bufsize mode 0 n) as (s' & Hrun & Hrest); try (done || lia || tauto).
  exists s'. by rewrite Hrun.
Qed.


(** A write to a buffer that is full at its size limit waits for a reader
    when it may block and returns 0 otherwise; either way nothing is lost and
    the lock is released. *)
Theorem iobuffer_write_full s src bufsize mode :
  iob_inv s -> ib_size s = ib_maxsize s -> zlen (contents s) = ib_size s ->
  0 < bufsize -> ib_size s + bufsize < SIZE_T ->
  iobuffer_write SIZE_T None true s src bufsize mode =
  if mode_blocks mode then WWait src bufsize 0 (rwlock_end s) else WRet 0 (rwlock_end s).
Proof. apply write_full. Qed.

(** ** Readers and writers in any order

    The calls on a buffer that has reached its size limit, next to the bytes accepted from writers
    and the bytes handed to readers so far.  A call returns or goes to sleep; a write that sleeps with
    something left to write goes on with another pass later.  Waiting for the lock may fail. *)
Definition no_lock (lk : option Z) : Prop := match lk with Some e => e < 0 | None => True end.

Inductive iob_step : iobuffer * list byte * list byte ->
    iobuffer * list byte * list byte -> Prop :=
| step_write s wr rd lk alloc src bufsize mode n s' :
    no_lock lk -> 0 < bufsize <= zlen src -> ib_size s + bufsize < SIZE_T ->
    mode_blocks mode = true \/ bufsize <= ib_size s - zlen (contents s) ->
    iobuffer_write SIZE_T lk alloc s src bufsize mode = WRet n s' ->
    iob_step (s, wr, rd) (s', wr ++ ztake n src, rd)
| step_write_wait s wr rd alloc src bufsize mode src' bufsize' n s' :
    0 < bufsize <= zlen src -> ib_size s + bufsize < SIZE_T ->
    iobuffer_write SIZE_T None alloc s src bufsize mode = WWait src' bufsize' n s' ->
    mode_blocks mode = true ->
    iob_step (s, wr, rd) (s', wr ++ ztake n src, rd)
| step_more s wr rd alloc src bufsize mode r0 n s' :
    0 < r0 -> 0 < bufsize <= zlen src -> ib_size s + bufsize < SIZE_T ->
    mode_blocks mode = true -> mode_first_only mode = false ->
    write_again SIZE_T 4 alloc s src bufsize mode r0 = WRet n s' ->
    iob_step (s, wr, rd) (s', wr ++ ztake (n - r0) src, rd)
| step_more_wait s wr rd alloc src bufsize mode r0 src' bufsize' n s' :
    0 < r0 -> 0 < bufsize <= zlen src -> ib_size s + bufsize < SIZE_T ->
    mode_blocks mode = true -> mode_first_only mode = false ->
    write_again SIZE_T 4 alloc s src bufsize mode r0 = WWait src' bufsize' n s' ->
    iob_step (s, wr, rd) (s', wr ++ ztake (n - r0) src, rd)
| step_read s wr rd lk room bufsize mode n out s' :
    0 < bufsize <= room -> plain_mode mode ->
    iobuffer_read lk s room bufsize mode = RRet n out s' ->
    iob_step (s, wr, rd) (s', wr, rd ++ out)
| step_read_wait s wr rd room bufsize mode out destsize result s' :
    0 < bufsize <= room -> plain_mode mode ->
    iobuffer_read None s room bufsize mode = RWait out destsize result s' ->
    iob_step (s, wr, rd) (s', wr, rd ++ out)
| step_interrupt s wr rd lk e s' :
    iobuffer_interrupt lk s = (e, s') -> iob_step (s, wr, rd) (s', wr, rd).

(** The buffer holds what was written and not yet read. *)
Definition stream_inv (x : iobuffer * list byte * list byte) : Prop :=
  let '(s, wr, rd) := x in
  iob_inv s /\ ib_rwlock s = Unlocked /\ 0 < ib_size s /\ ib_size s = ib_maxsize s /\
  wr = rd ++ contents s.

(** A pass of a write, the first one or a later one, returns or sleeps with [n] bytes more in the buffer. *)
Definition wrote (s : iobuffer) (src : list byte) (r0 : Z) (e : write_end) : Prop :=
  exists n s', iob_inv s' /\ contents s' = contents s ++ ztake (n - r0) src /\ ib_rwlock s' = Unlocked /\
    ib_size s' = ib_size s /\ ib_maxsize s' = ib_maxsize s /\
    (e = WRet n s' \/ exists src' bufsize', e = WWait src' bufsize' n s').

Lemma write_outcome s alloc src bufsize mode :
  iob_inv s -> 0 < ib_size s -> ib_size s = ib_maxsize s ->
  0 < bufsize <= zlen src -> ib_size s + bufsize < SIZE_T ->
  mode_blocks mode = true \/ bufsize <= ib_size s - zlen (contents s) ->
  wrote s src 0 (iobuffer_write SIZE_T None alloc s src bufsize mode).
Proof.
  intros Hi Hpos Hmax Hb Hsz Hmode.
  destruct (write_first_ok s src bufsize mode alloc _ Hi ltac:(lia) Hsz (or_intror (or_intror Hmax)) Hb eq_refl) as (s' & -> & Hi' & Hc & Hs & Hm & Hl & _);
    [destruct Hmode; [by left|right; left; lia]|].
  unfold must_grow in *. rewrite Hmax, Z.ltb_irrefl, andb_false_r in *. cbn [andb] in *.
  set (n := Z.min _ _) in *. exists n, s'. rewrite Z.sub_0_r. split_and!; try (done || lia).
  destruct (Z.eqb_spec n 0) as [->|]; [destruct (mode_blocks mode); eauto|]. destruct (_ || _); eauto.
Qed.

Lemma more_outcome s alloc src bufsize mode r0 :
  iob_inv s -> 0 < ib_size s -> ib_size s = ib_maxsize s -> 0 < r0 ->
  0 < bufsize <= zlen src -> ib_size s + bufsize < SIZE_T -> mode_blocks mode = true -> mode_first_only mode = false ->
  wrote s src r0 (write_again SIZE_T 4 alloc s src bufsize mode r0).
Proof.
  intros Hi Hpos Hmax Hr0 Hb Hsz Hblk Hfirst.
  pose proof (maxread_maxwrite s Hi) as Hsum. rewrite <- (contents_len s Hi) in Hsum. pose proof (maxwrite_nonneg s Hi).
  destruct (Z.eq_dec (zlen (contents s)) (ib_size s)) as [Hf|Hf].
  - rewrite write_full_again by (done || lia). exists r0, (rwlock_end (broadcast_avail s)). rewrite Z.sub_diag, app_nil_r.
    split; [by destruct Hi|]. split_and!; try done. eauto.
  - destruct (write_again_ok s alloc src bufsize mode r0 (Z.min bufsize (ib_maxsize s - zlen (contents s))))
      as (s' & -> & Hi' & Hc & Hs & Hm & Hl & _); try (done || lia || tauto);
      [by unfold must_grow; rewrite Hmax, Z.ltb_irrefl, andb_false_r|].
    set (n := Z.min _ _) in *. exists (r0 + n), s'. replace (r0 + n - r0) with n by lia. split_and!; try (done || lia).
    destruct (_ || _); eauto.
Qed.

Lemma read_outcome s room bufsize mode :
  iob_inv s -> plain_mode mode -> 0 < bufsize <= room ->
  iobuffer_read None s room bufsize mode = RWait [] bufsize 0 (rwlock_end s) \/
  exists n out s', iobuffer_read None s room bufsize mode = RRet n out s' /\
    iob_inv s' /\ contents s = out ++ contents s' /\ ib_rwlock s' = Unlocked /\
    ib_size s' = ib_size s /\ ib_maxsize s' = ib_maxsize s.
Proof.
  intros Hi Hm [Hb Hr]. unfold iobuffer_read.
  destruct (decide (mode = IO_BLOCKFIRST /\ intr_pending s = true)) as [[-> Hp]|Hp].
  { right. do 3 eexists. split; [by apply read_interrupted|].
    split; [by destruct Hi|]. done. }
  assert (mode = IO_BLOCKFIRST -> intr_pending s = false) as Hp'.
  { intros ->. destruct (intr_pending s); [|done]. by destruct Hp. }
  destruct (decide (contents s = [])) as [Hc|Hc].
  - destruct Hm as [-> | ->].
    + right. destruct (read_empty_none s room bufsize Hi Hc Hb) as (s' & Hrd & Hi' & Hc' & ?).
      do 3 eexists. split; [exact Hrd|]. split; [done|]. split; [by rewrite Hc, Hc'|]. tauto.
    + left. apply read_empty_first; auto.
  - right. pose proof (contents_pos s Hc). do 3 eexists.
    split; [by apply read_again_ok|].
    destruct (read_commit_ok (Z.min bufsize (zlen (contents s))) s Hi)
      as (Hi' & Hc' & Hl & _ & Hs & Hx); [lia..|].
    split; [done|]. rewrite Hc', ztake_zdrop. done.
Qed.

(** C1: On a buffer that has reached its size limit, after any sequence of calls that return or go to sleep (writes
    of at least one byte in every mode, where one that must not block fits, later passes of writes that block for all bytes,
    reads of at least one byte in the modes IO_BLOCKNONE and IO_BLOCKFIRST, interrupts, and calls that
    do not get the lock; the memory of callers can be accessed), the bytes handed to readers
    are a prefix of the bytes accepted from writers, the rest is in the buffer, and the lock is not held. *)
Theorem iobuffer_stream s0 x :
  iob_inv s0 -> ib_rwlock s0 = Unlocked -> 0 < ib_size s0 -> ib_size s0 = ib_maxsize s0 ->
  rtc iob_step (s0, contents s0, []) x -> stream_inv x.
Proof.
  intros Hi Hl Hp Hm Hr.
  assert (stream_inv (s0, contents s0, [])) as H0 by done.
  induction Hr as [|x y z Hxy _ IH]; [done|]. apply IH. clear IH Hi Hl Hp Hm s0.
  assert (Hwrote : forall s wr rd src r0 e n s', stream_inv (s, wr, rd) -> wrote s src r0 e ->
    (e = WRet n s' \/ exists src' bufsize', e = WWait src' bufsize' n s') -> stream_inv (s', wr ++ ztake (n - r0) src, rd)).
  { intros s wr rd src r0 e n s' (Hi & Hl & Hp & Hx & ->) (n1 & s1 & Hi1 & Hc & Hl1 & Hs1 & Hm1 & He) He'.
    assert (n1 = n /\ s1 = s') as [-> ->] by (destruct He as [->|(? & ? & ->)], He' as [?|(? & ? & ?)]; by simplify_eq).
    unfold stream_inv. rewrite Hc, app_assoc. split_and!; (done || lia). }
  assert (Hread : forall s wr rd room b mode e, stream_inv (s, wr, rd) -> 0 < b <= room -> plain_mode mode ->
    iobuffer_read None s room b mode = e -> match e with
    | RRet _ out s' | RWait out _ _ s' => stream_inv (s', wr, rd ++ out) | RAbort => False end).
  { intros s wr rd room b mode e (Hi & Hl & Hp & Hx & ->) Hb Hm <-.
    destruct (read_outcome s room b mode Hi Hm Hb) as [->|(? & ? & ? & -> & ? & Hc & ?)]; unfold stream_inv.
    - rewrite app_nil_r. destruct Hi. split_and!; done.
    - rewrite Hc, app_assoc. split_and!; (done || lia || tauto). }
  destruct Hxy as [s wr rd lk alloc src b mode n s' Hlk Hb Hz Hm Hw|s wr rd alloc src b mode ? ? n s' Hb Hz Hw Hm
    |s wr rd alloc src b mode r0 n s' Hr0 Hb Hz Hm1 Hm2 Hw|s wr rd alloc src b mode r0 ? ? n s' Hr0 Hb Hz Hm1 Hm2 Hw
    |s wr rd lk room b mode n out s' Hb Hm Hr|s wr rd room b mode out ? ? s' Hb Hm Hr|s wr rd lk e s' Hs].
  - destruct lk as [e|].
    + injection Hw as <- <-. simpl in Hlk. unfold ztake. rewrite (Z2Nat.nonpos e), take_0, app_nil_r by lia. done.
    + rewrite <- (Z.sub_0_r n). eapply Hwrote; [done|apply write_outcome; try done; apply H0|by left].
  - rewrite <- (Z.sub_0_r n). eapply Hwrote; [done|apply write_outcome; try done; [apply H0..|by left]|eauto].
  - eapply Hwrote; [done|by apply more_outcome; [apply H0..|done|done|done|exact Hm1|exact Hm2]|eauto].
  - eapply Hwrote; [done|by apply more_outcome; [apply H0..|done|done|done|exact Hm1|exact Hm2]|eauto].
  - destruct lk as [e|]; [injection Hr as <- <- <-; by rewrite app_nil_r|]. exact (Hread _ _ _ _ _ _ _ H0 Hb Hm Hr).
  - exact (Hread _ _ _ _ _ _ _ H0 Hb Hm Hr).
  - destruct H0 as (Hi & Hl & Hp & Hx & ->). destruct lk; injection Hs as <- <-; [done|]. by destruct Hi.
Qed.

End Writing.

(** Writing never touches the interrupt flag. *)
Lemma write_end_ok_mode s bufend result n s' :
  write_end_ok s bufend result = WRet n s' -> ib_mode s' = ib_mode s.
Proof. unfold write_end_ok. intros H. repeat case_match; simplify_eq; done. Qed.

Lemma write_copy_mode again s src bufsize result n s' :
  (forall s1 src1 mw b r, again s1 src1 mw b r = WRet n s' -> ib_mode s' = ib_mode s1) ->
  write_copy again s src bufsize result = WRet n s' -> ib_mode s' = ib_mode s.
Proof.
  intros Hag. unfold write_copy, write_fault. intros H.
  repeat (case_match; [try discriminate|]); simplify_eq; try done;
    repeat case_match; simplify_eq; try done;
    match goal with
    | H : write_end_ok _ _ _ = _ |- _ => by apply write_end_ok_mode in H
    | H : again _ _ _ _ _ = _ |- _ => by apply Hag in H
    end.
Qed.

Lemma write_loop_mode SIZE_T fuel alloc mode mx full s src mw b r n s' :
  write_loop SIZE_T fuel alloc mode mx full s src mw b r = WRet n s' -> ib_mode s' = ib_mode s.
Proof.
  revert full s src mw b r. induction fuel as [|fuel IH]; intros full s src mw b r; [done|].
  rewrite write_loop_S. destruct (_ && _ && _).
  { destruct (_ && _); [apply write_end_ok_mode|]. cbn zeta. by destruct (negb _). }
  destruct (write_realloc _ _ _ _ _ _ _) as [e|s2] eqn:E; intros H.
  - subst e. unfold write_realloc in E. repeat case_match; simplify_eq; try done.
    by eapply write_end_ok_mode.
  - apply write_copy_mode in H; [|intros *; apply IH]. rewrite H.
    unfold write_realloc in E. repeat case_match; simplify_eq; done.
Qed.

Lemma write_again_mode SIZE_T fuel alloc s src b mode n s' :
  write_again SIZE_T fuel alloc s src b mode 0 = WRet n s' -> ib_mode s' = ib_mode s.
Proof.
  unfold write_again. destruct (negb _); [done|]. intros H. by apply write_loop_mode in H.
Qed.

(** ** Taking data back *)

(** Taking back the [k] newest bytes of an unwrapped buffer removes exactly
    those, or everything when fewer are left, and releases the lock. *)
Theorem iobuffer_unwrite_ok s k n :
  iob_inv s -> 0 <= k -> ib_rpos s < ib_wpos s \/ zlen (contents s) <= k ->
  n = Z.min k (zlen (contents s)) ->
  exists s', iobuffer_unwrite None s k = Ret (n, s') /\ iob_inv s' /\
    contents s' = ztake (zlen (contents s) - n) (contents s) /\ ib_rwlock s' = Unlocked.
Proof.
  intros Hi Hk Hlin ->. pose proof Hi as [Hl Hr Hw].
  pose proof (zlen_nonneg (contents s)) as Hc0. unfold iobuffer_unwrite.
  change (IOBUFFER_MAXREAD (rwlock_write s) (ib_rpos (rwlock_write s)))
    with (IOBUFFER_MAXREAD s (ib_rpos s)).
  rewrite <- (contents_len s Hi). set (n := Z.min k (zlen (contents s))).
  destruct (Z.eqb_spec n 0) as [E|E]; cbn [negb].
  { eexists. split; [done|]. split; [by destruct Hi|]. split; [|done].
    rewrite E, Z.sub_0_r, ztake_all by lia. done. }
  destruct (Z.eqb_spec n (zlen (contents s))) as [E1|E1].
  { eexists. split; [done|]. split; [constructor; cbn; lia|]. split; [|done].
    rewrite E1, Z.sub_diag. unfold contents. cbn.
    rewrite (proj2 (Z.ltb_ge (ib_size s) 0)) by lia. by rewrite !slice_empty. }
  assert (ib_rpos s < ib_wpos s) as Hlt by lia.
  destruct (contents_cases s Hi) as [(_ & Hc & HL)|]; [|lia].
  cbn [rwlock_write set_lock ib_rpos ib_wpos]. rewrite (proj2 (Z.ltb_lt _ _)) by lia.
  rewrite (proj2 (Z.ltb_lt (ib_rpos s) (ib_wpos s - n))) by lia.
  eexists. split; [done|]. split; [constructor; cbn; lia|]. split; [|done].
  unfold contents at 1. cbn. rewrite (proj2 (Z.ltb_lt _ _)) by lia.
  rewrite Hc, ztake_slice by (rewrite ?zlen_slice; lia). f_equal. rewrite zlen_slice by lia. lia.
Qed.

(** Discarding reports the number of unread bytes and leaves an empty,
    well-formed and unlocked buffer. *)
Theorem iobuffer_discard_ok s :
  iob_inv s ->
  exists s', iobuffer_discard None s = (zlen (contents s), s') /\ iob_inv s' /\
    contents s' = [] /\ ib_rwlock s' = Unlocked /\ ib_size s' = ib_size s.
Proof.
  intros Hi. rewrite (contents_len s Hi). destruct Hi. eexists. split; [done|].
  split; [constructor; cbn; lia|]. split; [|done]. unfold contents. cbn.
  rewrite (proj2 (Z.ltb_ge (ib_size s) 0)) by lia. by rewrite !slice_empty.
Qed.

(** ** A fresh pipe *)

(** what one task writes into a fresh buffer another one reads back
    unchanged, after which the buffer is empty again. *)
Theorem iobuffer_write_read SIZE_T maxsize src :
  0 < zlen src -> zlen src <= maxsize -> maxsize < SIZE_T ->
  exists s1 s2,
    iobuffer_write SIZE_T None true (iobuffer_init_ex maxsize) src (zlen src) IO_BLOCKALL
      = WRet (zlen src) s1 /\
    iobuffer_read None s1 (zlen src) (zlen src) IO_BLOCKFIRST = RRet (zlen src) src s2 /\
    contents s2 = [] /\ ib_rwlock s2 = Unlocked.
Proof.
  intros Hp Hm Hs. set (s0 := iobuffer_init_ex maxsize).
  assert (iob_inv s0) as Hi0 by (by constructor).
  assert (contents s0 = []) as Hc0 by done.
  assert (zlen (contents s0) = 0) as Hz by done.
  assert (ib_maxsize s0 = maxsize) as Hmx by done.
  assert (ib_size s0 = 0) as Hsz by done.
  destruct (write_again_ok SIZE_T s0 true src (zlen src) IO_BLOCKALL 0 (zlen src) Hi0)
    as (s1 & Hw & Hi1 & Hc1 & _); [lia|lia|by left; right|by rewrite andb_false_r|lia|lia|lia|done|by right|].
  rewrite Z.eqb_refl in Hw.
  rewrite Hc0, app_nil_l, ztake_all in Hc1 by lia.
  assert (intr_pending s1 = false) as Hn1.
  { assert (ib_mode s1 = 0) as Hmd by apply (write_again_mode _ _ _ _ _ _ _ _ _ Hw).
    unfold intr_pending. by rewrite Hmd. }
  assert (contents s1 <> []) as Hne by (intros E; rewrite E in Hc1; by rewrite <- Hc1 in Hp).
  exists s1, (read_commit (zlen src) (rwlock_read s1)). split; [exact Hw|].
  destruct (read_commit_ok (zlen src) s1 Hi1) as (_ & Hd & Hl & _); [lia|rewrite Hc1; lia|].
  split; [|by rewrite Hd, Hc1, zdrop_all by lia].
  unfold iobuffer_read. rewrite (read_again_ok s1 _ _ _ (zlen src)); try done; try lia.
  - by rewrite Hc1, ztake_all by lia.
  - by right.
  - rewrite Hc1. lia.
Qed.

(** ** Where the code departs from its contract *)

(** A zero-byte read of a full buffer whose two positions meet throws the whole
    content away: [end_rpos] takes the equal positions for an emptied buffer. *)
Theorem zero_read_discards s room :
  iob_inv s -> ib_rpos s = ib_wpos s -> 0 < ib_size s -> 0 <= room ->
  zlen (contents s) = ib_size s /\
  exists s', iobuffer_read None s room 0 IO_BLOCKNONE = RRet 0 [] s' /\ contents s' = [].
Proof.
  intros Hi E Hs Hroom. pose proof Hi as [Hl Hr Hw]. split.
  { rewrite (contents_len s Hi). unfold IOBUFFER_MAXREAD. rewrite (proj2 (Z.ltb_ge _ _)) by lia. lia. }
  unfold iobuffer_read, read_again. assert (iob_inv (rwlock_read s)) as Hi1 by (by constructor).
  rewrite (pos_ok_true _ Hi1). cbn [negb]. unfold IOBUFFER_MAXREAD.
  cbn [rwlock_read set_lock ib_rpos ib_wpos ib_size].
  rewrite (proj2 (Z.ltb_ge _ _)), (proj2 (Z.eqb_neq (_ - (_ - _)) 0)) by lia.
  unfold IOBUFFER_CONSUME_INTR. change (mode_first_only IO_BLOCKNONE) with false. cbn [andb].
  rewrite (Z.min_r _ 0) by lia. rewrite read_copy_ok by (done || (change (zlen []) with 0; lia)).
  change (0 =? 0) with true. cbn [orb]. unfold read_end_rpos.
  cbn [rwlock_read set_lock ib_rpos ib_wpos ib_size ib_buffer].
  rewrite !Z.add_0_r, slice_empty, E, Z.eqb_refl. cbn. eexists. split; [done|].
  rewrite !Z.eqb_refl. unfold contents. cbn -[Z.ltb].
  rewrite (proj2 (Z.ltb_ge _ 0)) by lia. by rewrite !slice_empty.
Qed.

(** Growing a wrapped buffer leaves the upper chunk where it was and so splits
    the unread bytes: the call reports success and the reader sees other bytes. *)
Theorem grow_wrapped_corrupts :
  let s := mk_iobuffer 0 0 Unlocked 8 4 [3; 0; 1; 2] 2 1 0 in
  contents s = [1; 2; 3] /\
  exists s', iobuffer_write (2 ^ 32) None true s [4; 5; 6] 3 IO_BLOCKNONE = WRet 3 s' /\
             contents s' <> [1; 2; 3; 4; 5; 6].
Proof. split; [done|]. eexists. split; [vm_compute; reflexivity|]. by vm_compute. Qed.

(** A non-blocking write that is larger than an empty buffer at its size limit
    never returns: no number of rounds is enough. *)
Theorem nonblocking_write_spins fuel :
  write_again (2 ^ 32) fuel true (mk_iobuffer 0 0 Unlocked 2 2 [0; 0] 2 0 0)
    [7; 8; 9] 3 IO_BLOCKNONE 0 = WFuel.
Proof.
  set (stuck := mk_iobuffer 0 0 Writing 2 2 [7; 8] 2 2 0).
  assert (forall k, write_loop (2 ^ 32) k true IO_BLOCKNONE 2 true stuck [9] 2 1 2 = WFuel) as H.
  { induction k as [|k IH]; [done|]. rewrite write_loop_S. exact IH. }
  destruct fuel as [|fuel]; [done|]. apply (H fuel).
Qed.

(** [iobuffer_unread] returns with the write lock still held. *)
Theorem unread_keeps_lock s k n s' :
  iobuffer_unread None s k = Ret (n, s') -> ib_rwlock s' = Writing.
Proof.
  unfold iobuffer_unread. destruct (negb _).
  - intros H. unfold obind, oassert in H. repeat case_match; simplify_eq; done.
  - intros [= <- <-]. done.
Qed.

Lemma unread_keeps_lock_witness :
  exists s', iobuffer_unread None (iobuffer_init_ex 4) 1 = Ret (0, s') /\ ib_rwlock s' = Writing.
Proof.
  eexists. split; [vm_compute; reflexivity|].
  apply (unread_keeps_lock (iobuffer_init_ex 4) 1 0). reflexivity.
Defined.

(** A write that must not block and does not fit a wrapped buffer overwrites unread bytes: after
    its copy to the free part it goes on with the room it found before. *)
Theorem nonblocking_write_overwrites :
  let s := mk_iobuffer 0 0 Unlocked 4 4 [0; 1; 2; 3] 1 4 0 in
  contents s = [1; 2; 3] /\
  exists s', iobuffer_write (2 ^ 32) None true s [4; 5] 2 IO_BLOCKNONE = WRet 2 s' /\
             contents s' <> [1; 2; 3; 4].
Proof. split; [done|]. eexists. split; [vm_compute; reflexivity|by vm_compute]. Qed.

(** Taking back bytes across the wrap-around fails the position assertion: the
    test that tells the two halves apart is inverted. *)
Theorem unwrite_wrapped_aborts :
  let s := mk_iobuffer 0 0 Unlocked 4 4 [3; 0; 1; 2] 2 1 0 in
  contents s = [1; 2; 3] /\ iobuffer_unwrite None s 2 = Abort.
Proof. by vm_compute. Qed.

(** After a first write that faults, and after reserving memory in a fresh
    buffer, the reader finds zero bytes nobody wrote. *)
Theorem fresh_zeros_readable :
  (exists s', iobuffer_write (2 ^ 32) None true (iobuffer_init_ex 4) [] 3 IO_BLOCKNONE
                = WRet (- EFAULT) s' /\ contents s' = [0; 0; 0]) /\
  (exists s', iobuffer_reserve (2 ^ 32) None true (iobuffer_init_ex 4) 3 = Ret (3, s') /\
              contents s' = [0; 0; 0]).
Proof. by split; eexists; vm_compute. Qed.

(** A read that blocks for all its bytes goes to sleep without committing the
    bytes it already copied from a wrapped buffer, so it copies them again. *)
Theorem blockall_rereads :
  let s := mk_iobuffer 0 0 Unlocked 4 4 [3; 0; 1; 2] 2 1 0 in
  exists s', iobuffer_read None s 5 5 IO_BLOCKALL = RWait [1; 2; 3] 2 3 s' /\
             contents s' = [1; 2; 3].
Proof. eexists. by vm_compute. Qed.

(** Flushing truncates the memory before it moves the unread bytes down. *)
Theorem flush_corrupts :
  let s := mk_iobuffer 0 0 Unlocked 4 4 [1; 2; 3; 4] 1 3 0 in
  contents s = [2; 3] /\
  exists s', iobuffer_flush true s = Ret (2, s') /\ contents s' = [2; 2].
Proof. split; [done|]. eexists. by vm_compute. Qed.

(** Lowering the size limit below the allocated size makes the next larger
    write fail its assertion. *)
Theorem lowered_limit_aborts :
  let s := mk_iobuffer 0 0 Unlocked 4 4 [0; 0; 0; 0] 4 0 0 in
  iobuffer_write (2 ^ 32) None true (iobuffer_set_maxsize 2 s).2 [1; 2; 3; 4; 5] 5 IO_BLOCKFIRST
    = WAbort.
Proof. by vm_compute. Qed.

(** ** Concrete instances *)

(** Three unread bytes across the wrap-around of a buffer at its limit. *)
Definition sample : iobuffer := mk_iobuffer 0 0 Unlocked 4 4 [3; 0; 1; 2] 2 1 0.

Lemma sample_inv : iob_inv sample.
Proof. by constructor; vm_compute. Qed.

(** A write of three bytes that sleeps with two of them left, a read of two, the next pass of the write. *)
Lemma iobuffer_stream_witness :
  stream_inv (mk_iobuffer 2 1 Unlocked 4 4 [3; 4; 5; 6] 0 4 0, [1; 2; 3; 4; 5; 6], [1; 2]).
Proof.
  apply (iobuffer_stream (2 ^ 32) sample); try done; try exact sample_inv.
  eapply rtc_l; [apply (step_write_wait _ _ _ _ false [4; 5; 6] 3 IO_BLOCKALL [5; 6] 2 1
    (mk_iobuffer 1 0 Unlocked 4 4 [3; 4; 1; 2] 2 2 0)); by vm_compute|].
  eapply rtc_l; [apply (step_read _ _ _ _ None 2 2 IO_BLOCKFIRST 2 [1; 2]
    (mk_iobuffer 1 1 Unlocked 4 4 [3; 4; 1; 2] 4 2 0)); [by vm_compute|by right|by vm_compute]|].
  eapply rtc_l; [apply (step_more _ _ _ _ false [5; 6] 2 IO_BLOCKALL 1 3
    (mk_iobuffer 2 1 Unlocked 4 4 [3; 4; 5; 6] 0 4 0)); by vm_compute|].
  apply rtc_refl.
Defined.


Lemma iobuffer_write_full_witness :
  iobuffer_write (2 ^ 32) None true (mk_iobuffer 0 0 Unlocked 2 2 [1; 2] 1 1 0) [3] 1 IO_BLOCKFIRST
  = WWait [3] 1 0 (mk_iobuffer 0 0 Unlocked 2 2 [1; 2] 1 1 0).
Proof.
  apply (iobuffer_write_full (2 ^ 32) (mk_iobuffer 0 0 Unlocked 2 2 [1; 2] 1 1 0) [3] 1 IO_BLOCKFIRST);
    try done; by constructor.
Defined.

Lemma iobuffer_read_fifo_witness :
  exists s', iobuffer_read None sample 5 5 IO_BLOCKNONE = RRet 3 [1; 2; 3] s' /\ contents s' = [].
Proof.
  destruct (iobuffer_read_fifo sample 5 5 IO_BLOCKNONE)
    as (s' & H & _ & Hc & _); try done; try exact sample_inv; try by left.
  by exists s'.
Defined.

Lemma iobuffer_read_empty_witness :
  iobuffer_read None (iobuffer_init_ex 4) 3 3 IO_BLOCKFIRST = RWait [] 3 0 (iobuffer_init_ex 4).
Proof. apply (iobuffer_read_empty (iobuffer_init_ex 4) 3 3); try done; by constructor. Defined.

Lemma iobuffer_unwrite_ok_witness :
  exists s', iobuffer_unwrite None (mk_iobuffer 0 0 Unlocked 4 4 [1; 2; 3; 0] 0 3 0) 2 = Ret (2, s').
Proof.
  destruct (iobuffer_unwrite_ok (mk_iobuffer 0 0 Unlocked 4 4 [1; 2; 3; 0] 0 3 0) 2 2)
    as (s' & H & _); try done; [by left|]. by exists s'.
Defined.

Lemma iobuffer_discard_ok_witness :
  exists s', iobuffer_discard None sample = (3, s') /\ contents s' = [].
Proof.
  destruct (iobuffer_discard_ok sample sample_inv) as (s' & H & _ & Hc & _). by exists s'.
Defined.

Lemma iobuffer_write_read_witness :
  exists s1 s2,
    iobuffer_write (2 ^ 32) None true (iobuffer_init_ex 8) [1; 2; 3] 3 IO_BLOCKALL = WRet 3 s1 /\
    iobuffer_read None s1 3 3 IO_BLOCKFIRST = RRet 3 [1; 2; 3] s2.
Proof.
  destruct (iobuffer_write_read (2 ^ 32) 8 [1; 2; 3]) as (s1 & s2 & H1 & H2 & _); try done.
  by exists s1, s2.
Defined.

Lemma zero_read_discards_witness :
  exists s', iobuffer_read None (mk_iobuffer 0 0 Unlocked 2 2 [1; 2] 1 1 0) 0 0 IO_BLOCKNONE
               = RRet 0 [] s' /\ contents s' = [].
Proof.
  apply (zero_read_discards (mk_iobuffer 0 0 Unlocked 2 2 [1; 2] 1 1 0) 0); try done; by constructor.
Defined.
