(* ===== verification/RWLock.v ===== *)
(** * Atomic read/write locks (include/hybrid/sync/atomic-rwlock.h,
      include/hybrid/sync/atomic-rwptr.h)

    Both headers build the same operations on one atomic word: loops that read
    the word, decide, and try a compare-exchange.  The machine below runs any
    number of threads through such operations one atomic access at a time, over
    an interface of lock words; it is sequentially consistent, and a weak
    compare-exchange may fail for no reason.  The code is that of a debug build. *)
From stdpp Require Import base numbers list relations.
From S2P Require Import Prelude.

(** ** Operations and lock words *)

(** The functions with a loop of their own. *)
Inductive prim : Type :=
| P_endwrite | P_endread | P_end | P_tryread | P_trywrite | P_tryupgrade | P_downgrade.

#[export] Instance prim_eq_dec : EqDecision prim.
Proof. solve_decision. Defined.

(** All functions of the headers. *)
Inductive call : Type :=
| C_tryread | C_trywrite | C_read | C_write | C_tryupgrade | C_upgrade | C_downgrade
| C_endread | C_endwrite | C_end.

(** What a round of a loop does with the value it read: return, try to store a
    new value and return then, or fail an assertion.  [None] stands for an
    assertion that fails behind the exchange. *)
Inductive action : Type :=
| ARet (r : bool)
| ACas (newval : Z) (r : option bool)
| AAbort.

(** Where a loop is: in front of its read, or of the exchange. *)
Inductive pc : Type :=
| Reading (p : prim)
| Swapping (p : prim) (oldval newval : Z) (r : option bool).

(** A lock word: what [p] reads of it, the comparison and the store of its
    exchange, its loop, where the loop starts, what a failed exchange returns
    ([None]: the loop goes on), whether the exchange is weak; and what call [c]
    does when its function [p] returned [r]: call another one, or return. *)
Class LockWord : Type := {
  view : prim -> Z -> Z;
  same : prim -> Z -> Z -> bool;
  put : prim -> Z -> Z -> Z;
  round : prim -> Z -> action;
  enter : prim -> pc;
  failed : prim -> option bool;
  weak : prim -> bool;
  next : call -> prim -> bool -> prim + bool;
  has_downgrade : bool
}.

(** *** atomic_rwlock_t *)

Definition ATOMIC_RWLOCK_RMASK : Z := 0x7fffffff.
Definition ATOMIC_RWLOCK_WFLAG : Z := 0x80000000.

Definition is_set (x mask : Z) : bool := negb (Z.land x mask =? 0).

Definition atomic_rwlock_endwrite (f : Z) : action :=
  if is_set f ATOMIC_RWLOCK_WFLAG then ACas 0 (Some true) else AAbort.
Definition atomic_rwlock_endread (f : Z) : action :=
  if is_set f ATOMIC_RWLOCK_WFLAG then AAbort
  else if f =? 0 then AAbort
  else ACas (f - 1) (Some (f =? 1)).
Definition atomic_rwlock_end (temp : Z) : action :=
  if is_set temp ATOMIC_RWLOCK_WFLAG then
    if is_set temp ATOMIC_RWLOCK_RMASK then AAbort else ACas 0 (Some true)
  else if temp =? 0 then AAbort
  else ACas (temp - 1) (Some (temp - 1 =? 0)).
Definition atomic_rwlock_tryread (temp : Z) : action :=
  if is_set temp ATOMIC_RWLOCK_WFLAG then ARet false
  else if Z.land temp ATOMIC_RWLOCK_RMASK =? ATOMIC_RWLOCK_RMASK then AAbort
  else ACas ((temp + 1) mod 2 ^ 32) (Some true).
(** A single strong exchange; as a round, it returns when the word is not 0. *)
Definition atomic_rwlock_trywrite (f : Z) : action :=
  if f =? 0 then ACas ATOMIC_RWLOCK_WFLAG (Some true) else ARet false.
Definition atomic_rwlock_tryupgrade (temp : Z) : action :=
  if negb (temp =? 1) then ARet false else ACas ATOMIC_RWLOCK_WFLAG (Some true).
Definition atomic_rwlock_downgrade (f : Z) : action :=
  if f =? ATOMIC_RWLOCK_WFLAG then ACas 1 (Some true) else AAbort.

(** The functions that call others; a [void] function returns [true]. *)
Definition atomic_rwlock_read (r : bool) : prim + bool := if r then inr true else inl P_tryread.
Definition atomic_rwlock_write (r : bool) : prim + bool := if r then inr true else inl P_trywrite.
Definition atomic_rwlock_upgrade (p : prim) (r : bool) : prim + bool :=
  match p with
  | P_tryupgrade => if r then inr true else inl P_endread
  | P_endread => inl P_trywrite
  | _ => if r then inr false else inl P_trywrite
  end.

Definition atomic_rwlock : LockWord := {|
  view := fun _ w => w;
  same := fun _ w oldval => w =? oldval;
  put := fun _ _ newval => newval;
  round := fun p =>
    match p with
    | P_endwrite => atomic_rwlock_endwrite
    | P_endread => atomic_rwlock_endread
    | P_end => atomic_rwlock_end
    | P_tryread => atomic_rwlock_tryread
    | P_trywrite => atomic_rwlock_trywrite
    | P_tryupgrade => atomic_rwlock_tryupgrade
    | P_downgrade => atomic_rwlock_downgrade
    end;
  enter := fun p =>
    match p with
    | P_trywrite => Swapping P_trywrite 0 ATOMIC_RWLOCK_WFLAG (Some true)
    | _ => Reading p
    end;
  failed := fun p => match p with P_trywrite => Some false | _ => None end;
  weak := fun p => match p with P_trywrite => false | _ => true end;
  next := fun c p r =>
    match c with
    | C_read => atomic_rwlock_read r
    | C_write => atomic_rwlock_write r
    | C_upgrade => atomic_rwlock_upgrade p r
    | _ => inr r
    end;
  has_downgrade := true
|}.

(** *** atomic_rwptr_t *)

Definition ATOMIC_RWPTR_ALIGN : Z := 16.
Definition ATOMIC_RWPTR_LOCK_MASK : Z := ATOMIC_RWPTR_ALIGN - 1.
Definition ATOMIC_RWPTR_SHIFT_RCNT : Z := 0.
Definition ATOMIC_RWPTR_SHIFT_WMODE : Z := 3.
Definition ATOMIC_RWPTR_MASK_RCNT : Z := 7.
Definition ATOMIC_RWPTR_MASK_WMODE : Z := 8.
Definition ATOMIC_RWPTR_GET (data : Z) : Z := Z.land data (Z.lnot ATOMIC_RWPTR_LOCK_MASK).

Definition rcnt_one : Z := Z.shiftl 1 ATOMIC_RWPTR_SHIFT_RCNT.

Definition atomic_rwptr_tryread (lold : Z) : action :=
  if is_set lold ATOMIC_RWPTR_MASK_WMODE
     || (Z.land lold ATOMIC_RWPTR_MASK_RCNT =? ATOMIC_RWPTR_MASK_RCNT)
  then ARet false else ACas ((lold + rcnt_one) mod 256) (Some true).
(** The assertion follows the loop. *)
Definition atomic_rwptr_endread (lold : Z) : action :=
  ACas ((lold - rcnt_one) mod 256)
    (if is_set lold ATOMIC_RWPTR_MASK_RCNT then Some true else None).
Definition atomic_rwptr_trywrite (lold : Z) : action :=
  if is_set lold (Z.lor ATOMIC_RWPTR_MASK_WMODE ATOMIC_RWPTR_MASK_RCNT) then ARet false
  else ACas (Z.lor lold ATOMIC_RWPTR_MASK_WMODE) (Some true).
Definition atomic_rwptr_endwrite (lold : Z) : action :=
  ACas (Z.ldiff lold ATOMIC_RWPTR_MASK_WMODE)
    (if is_set lold ATOMIC_RWPTR_MASK_WMODE then Some true else None).
(** Works on the low 32 bits of the whole pointer. *)
Definition atomic_rwptr_end (temp : Z) : action :=
  if is_set temp ATOMIC_RWPTR_MASK_WMODE then
    if is_set temp ATOMIC_RWPTR_MASK_RCNT then AAbort
    else ACas (Z.ldiff temp ATOMIC_RWPTR_MASK_WMODE) (Some true)
  else if is_set temp ATOMIC_RWPTR_MASK_RCNT then ACas (temp - 1) (Some true) else AAbort.
Definition atomic_rwptr_tryupgrade (lold : Z) : action :=
  if Z.shiftr (Z.land lold ATOMIC_RWPTR_MASK_RCNT) ATOMIC_RWPTR_SHIFT_RCNT <? 1 then AAbort
  else if negb (Z.land lold ATOMIC_RWPTR_MASK_RCNT =? rcnt_one) then ARet false
  else ACas (Z.lor (Z.ldiff lold ATOMIC_RWPTR_MASK_RCNT) ATOMIC_RWPTR_MASK_WMODE) (Some true).
Definition atomic_rwptr_downgrade (lold : Z) : action :=
  if Z.land lold ATOMIC_RWPTR_LOCK_MASK =? ATOMIC_RWPTR_SHIFT_WMODE
  then ACas (Z.lor (Z.ldiff lold ATOMIC_RWPTR_MASK_WMODE) 1) (Some true) else AAbort.

(** [atomic_rwptr_read] and [atomic_rwptr_write] repeat the loops of the functions
    that try. *)
Definition atomic_rwptr_read (r : bool) : prim + bool := if r then inr true else inl P_tryread.
Definition atomic_rwptr_write (r : bool) : prim + bool := if r then inr true else inl P_trywrite.
Definition atomic_rwptr_upgrade (p : prim) (r : bool) : prim + bool :=
  match p with
  | P_tryupgrade => if r then inr true else inl P_endread
  | P_endread => inl P_trywrite
  | _ => if r then inr false else inl P_trywrite
  end.

(** All functions but [atomic_rwptr_end] access the byte [ap_lbyt]. *)
Definition atomic_rwptr : LockWord := {|
  view := fun p w => match p with P_end => w mod 2 ^ 32 | _ => w mod 256 end;
  same := fun p w oldval => match p with P_end => w =? oldval | _ => w mod 256 =? oldval end;
  put := fun p w newval => match p with P_end => newval | _ => w - w mod 256 + newval end;
  round := fun p =>
    match p with
    | P_endwrite => atomic_rwptr_endwrite
    | P_endread => atomic_rwptr_endread
    | P_end => atomic_rwptr_end
    | P_tryread => atomic_rwptr_tryread
    | P_trywrite => atomic_rwptr_trywrite
    | P_tryupgrade => atomic_rwptr_tryupgrade
    | P_downgrade => atomic_rwptr_downgrade
    end;
  enter := Reading;
  failed := fun _ => None;
  weak := fun p => match p with P_trywrite | P_endwrite | P_tryupgrade => false | _ => true end;
  next := fun c p r =>
    match c with
    | C_read => atomic_rwptr_read r
    | C_write => atomic_rwptr_write r
    | C_upgrade => atomic_rwptr_upgrade p r
    | _ => inr r
    end;
  has_downgrade := false
|}.

(** ** Threads *)

(** The function called first. *)
Definition first (c : call) : prim :=
  match c with
  | C_tryread | C_read => P_tryread
  | C_trywrite | C_write => P_trywrite
  | C_tryupgrade | C_upgrade => P_tryupgrade
  | C_downgrade => P_downgrade
  | C_endread => P_endread
  | C_endwrite => P_endwrite
  | C_end => P_end
  end.
(** What a thread holds, by its successful exchanges. *)
Inductive mode : Type := Free | Rd | Wr.
#[export] Instance mode_eq_dec : EqDecision mode.
Proof. solve_decision. Defined.

(** The lock [hold] of a thread, the function it runs, and its last result. *)
Record thread : Type := mk_thread { hold : mode; run : option (call * pc); ret : option (call * bool) }.

Definition obtained (p : prim) : mode :=
  match p with
  | P_tryread | P_downgrade => Rd
  | P_trywrite | P_tryupgrade => Wr
  | P_endread | P_endwrite | P_end => Free
  end.

(** The calls a thread that holds [h] may make. *)
Definition allowed (dg : bool) (h : mode) (c : call) : bool :=
  match c with
  | C_tryread | C_trywrite | C_read | C_write => bool_decide (h = Free)
  | C_tryupgrade | C_upgrade | C_endread => bool_decide (h = Rd)
  | C_downgrade => dg && bool_decide (h = Wr)
  | C_endwrite => bool_decide (h = Wr)
  | C_end => negb (bool_decide (h = Free))
  end.

Inductive state : Type :=
| Running (word : Z) (threads : list thread)
| Crashed.

Inductive event : Type :=
| Call (c : call)
| Go (spurious : bool).

Section Machine.

Context `{LW : LockWord}.

(** Function [p] of call [c] returns [r]. *)
Definition return_to (h : mode) (c : call) (p : prim) (r : bool) : thread :=
  match next c p r with
  | inl p' => mk_thread h (Some (c, enter p')) None
  | inr r' => mk_thread h None (Some (c, r'))
  end.

(** The next access of a thread; [None] when there is none, or a crash. *)
Definition thread_step (word : Z) (t : thread) (ev : event) : option (option (Z * thread)) :=
  match run t, ev with
  | None, Call c =>
      if allowed has_downgrade (hold t) c
      then Some (Some (word, mk_thread (hold t) (Some (c, enter (first c))) None)) else None
  | Some (c, Reading p), Go false =>
      match round p (view p word) with
      | ARet r => Some (Some (word, return_to (hold t) c p r))
      | ACas newval r =>
          Some (Some (word, mk_thread (hold t) (Some (c, Swapping p (view p word) newval r)) None))
      | AAbort => Some None
      end
  | Some (c, Swapping p oldval newval r), Go spurious =>
      if same p word oldval && negb (spurious && weak p) then
        match r with
        | Some r => Some (Some (put p word newval, return_to (obtained p) c p r))
        | None => Some None
        end
      else if spurious && negb (weak p) then None
      else
        match failed p with
        | None => Some (Some (word, mk_thread (hold t) (Some (c, Reading p)) None))
        | Some r => Some (Some (word, return_to (hold t) c p r))
        end
  | _, _ => None
  end.

Definition exec (i : nat) (ev : event) (s : state) : option state :=
  match s with
  | Crashed => None
  | Running word threads =>
      match threads !! i with
      | None => None
      | Some t =>
          match thread_step word t ev with
          | None => None
          | Some None => Some Crashed
          | Some (Some (word, t)) => Some (Running word (<[i := t]> threads))
          end
      end
  end.

(** Some thread makes its next access. *)
Definition step (s s' : state) : Prop := exists i ev, exec i ev s = Some s'.

Fixpoint exec_all (l : list (nat * event)) (s : state) : option state :=
  match l with
  | [] => Some s
  | (i, ev) :: l => match exec i ev s with Some s => exec_all l s | None => None end
  end.

Definition idle (n : nat) : list thread := replicate n (mk_thread Free None None).

End Machine.

(** ** The contract of a lock word *)

(** How a successful exchange of [p] changes the number of readers and the
    presence of a writer. *)
Definition after (p : prim) (n : Z) (b : bool) : option (Z * bool) :=
  match p with
  | P_tryread => if b then None else Some (n + 1, false)
  | P_trywrite => if b || negb (n =? 0) then None else Some (0, true)
  | P_tryupgrade => if b || negb (n =? 1) then None else Some (0, true)
  | P_downgrade => if b then Some (1, false) else None
  | P_endread => if b then None else Some (n - 1, false)
  | P_endwrite => if b then Some (0, false) else None
  | P_end => if b then Some (0, false) else Some (n - 1, false)
  end.

(** How the functions of a call follow each other. *)
Definition follows (c : call) (p : prim) (r : bool) : prim + bool :=
  match c, p, r with
  | C_read, _, false => inl P_tryread
  | C_write, _, false => inl P_trywrite
  | C_upgrade, P_tryupgrade, false => inl P_endread
  | C_upgrade, P_tryupgrade, true => inr true
  | C_upgrade, P_endread, _ => inl P_trywrite
  | C_upgrade, _, false => inl P_trywrite
  | C_upgrade, _, true => inr false
  | _, _, _ => inr r
  end.

Definition is_try (p : prim) : bool :=
  match p with P_tryread | P_trywrite | P_tryupgrade => true | _ => false end.

(** When [p] may run. *)
Definition pre (reader_ok : Z -> Prop) (dg : bool) (p : prim) (n : Z) (b : bool) : Prop :=
  match p with
  | P_tryread => reader_ok n
  | P_trywrite => True
  | P_tryupgrade | P_endread => b = false /\ 1 <= n
  | P_endwrite => b = true
  | P_downgrade => dg = true /\ b = true
  | P_end => b = true \/ 1 <= n
  end.

Definition pc_prim (x : pc) : prim := match x with Reading p => p | Swapping p _ _ _ => p end.

Section Contract.

Context `{LW : LockWord}.

(** [rep ptr w n b]: [w] holds [ptr], has [n] readers, and a writer if [b].
    [reader_ok n] tells that another reader can be counted. *)
Variables (rep : Z -> Z -> Z -> bool -> Prop) (reader_ok : Z -> Prop).

(** A pending exchange does what a round on the present word would do. *)
Definition valid_pc (x : pc) : Prop :=
  match x with
  | Reading _ => True
  | Swapping p oldval newval r =>
      forall ptr w n b, rep ptr w n b -> same p w oldval = true -> round p (view p w) = ACas newval r
  end.

Class LockLaws : Prop := {
  law_same p ptr w n b oldval : rep ptr w n b -> same p w oldval = true -> view p w = oldval;
  law_enter p : valid_pc (enter p) /\ pc_prim (enter p) = p;
  law_next c p r : next c p r = follows c p r;
  law_failed p r : failed p = Some r -> r = false /\ is_try p = true;
  law_round p ptr w n b : rep ptr w n b -> pre reader_ok has_downgrade p n b ->
    match round p (view p w) with
    | AAbort => False
    | ARet r => r = false /\ is_try p = true
    | ACas newval r =>
        exists r' n' b', r = Some r' /\ (is_try p = true -> r' = true) /\
          after p n b = Some (n', b') /\ rep ptr (put p w newval) n' b'
    end
}.

End Contract.

(** ** Mutual exclusion *)

Definition ind (m : mode) (t : thread) : Z := if decide (hold t = m) then 1 else 0.
Definition count (m : mode) (ts : list thread) : Z := foldr (fun t n => ind m t + n) 0 ts.

Lemma count_insert m ts i t t' :
  ts !! i = Some t -> count m (<[i := t']> ts) = count m ts - ind m t + ind m t'.
Proof.
  revert i. induction ts as [|x ts IH]; intros [|i] E; simplify_eq/=; [lia|]. rewrite (IH i E). lia.
Qed.

Lemma ind_range m t : 0 <= ind m t <= 1.
Proof. unfold ind. case_decide; lia. Qed.

Lemma count_nonneg m ts : 0 <= count m ts.
Proof. induction ts as [|t ts IH]; simpl; [lia|]. pose proof (ind_range m t). lia. Qed.

Lemma count_lookup m ts i t : ts !! i = Some t -> ind m t <= count m ts.
Proof.
  revert i. induction ts as [|x ts IH]; intros [|i] E; simplify_eq/=.
  - pose proof (count_nonneg m ts). lia.
  - specialize (IH i E). pose proof (ind_range m x). lia.
Qed.

Lemma count_le m ts : count m ts <= zlen ts.
Proof.
  unfold zlen. induction ts as [|t ts IH]; simpl; [lia|]. pose proof (ind_range m t). lia.
Qed.

(** A thread that does not hold [m] is not counted. *)
Lemma count_lt m ts i t : ts !! i = Some t -> hold t <> m -> count m ts < zlen ts.
Proof.
  intros E Hm. pose proof (count_le m (<[i := mk_thread m None None]> ts)) as H.
  rewrite (count_insert _ _ _ _ _ E) in H. unfold zlen in *. rewrite length_insert in H.
  unfold ind in H. simpl in H. rewrite decide_False, decide_True in H by done. lia.
Qed.

Section Exclusion.

Context `{LW : LockWord} (rep : Z -> Z -> Z -> bool -> Prop) (reader_ok : Z -> Prop).
Context `{LL : !LockLaws rep reader_ok}.

(** What a thread holds while it runs function [p] of call [c], and afterwards. *)
Definition running (c : call) (p : prim) (h : mode) : Prop :=
  match c, p with
  | C_tryread, P_tryread | C_read, P_tryread => h = Free
  | C_trywrite, P_trywrite | C_write, P_trywrite | C_upgrade, P_trywrite => h = Free
  | C_tryupgrade, P_tryupgrade | C_upgrade, P_tryupgrade => h = Rd
  | C_endread, P_endread | C_upgrade, P_endread => h = Rd
  | C_downgrade, P_downgrade => has_downgrade = true /\ h = Wr
  | C_endwrite, P_endwrite => h = Wr
  | C_end, P_end => h <> Free
  | _, _ => False
  end.
Definition result (c : call) (r : bool) : mode :=
  match c with
  | C_tryread => if r then Rd else Free
  | C_trywrite => if r then Wr else Free
  | C_tryupgrade => if r then Wr else Rd
  | C_read | C_downgrade => Rd
  | C_write | C_upgrade => Wr
  | C_endread | C_endwrite | C_end => Free
  end.

Definition thread_inv (t : thread) : Prop :=
  match run t with
  | Some (c, x) => valid_pc rep x /\ running c (pc_prim x) (hold t)
  | None => forall c r, ret t = Some (c, r) -> hold t = result c r
  end.

(** The word counts the readers and shows the writer, who is alone. *)
Definition lock_inv (ptr : Z) (N : nat) (s : state) : Prop :=
  exists w ts b, s = Running w ts /\ length ts = N /\ Forall thread_inv ts /\
    rep ptr w (count Rd ts) b /\ count Wr ts = (if b then 1 else 0) /\
    (b = true -> count Rd ts = 0).

Lemma enter_inv h c p : running c p h -> thread_inv (mk_thread h (Some (c, enter p)) None).
Proof. intros Hr. destruct (law_enter rep reader_ok p) as [Hv Hp]. split; simpl; [done|]. by rewrite Hp. Qed.

(** Returning from a function that failed, and from one that succeeded. *)
Lemma return_failed h c p : running c p h -> is_try p = true -> thread_inv (return_to h c p false).
Proof.
  intros Hr Hp. unfold return_to. rewrite (law_next rep reader_ok). destruct c, p; simpl in Hr |- *; try done; try (by apply enter_inv);
    intros c0 r0 [= <- <-]; done.
Qed.

Lemma return_done h c p r :
  running c p h -> (is_try p = true -> r = true) -> thread_inv (return_to (obtained p) c p r).
Proof.
  intros Hr Hp. unfold return_to. rewrite (law_next rep reader_ok).
  destruct c, p; simpl in Hr |- *; try done; rewrite ?Hp by done; try (by apply enter_inv);
    intros c' r' [= <- <-]; done.
Qed.

(** What a thread holds allows the function it runs. *)
Lemma running_pre c p t (ts : list thread) i (b : bool) :
  running c p (hold t) -> ts !! i = Some t -> reader_ok (count Rd ts) \/ hold t = Rd ->
  count Wr ts = (if b then 1 else 0) -> (b = true -> count Rd ts = 0) ->
  pre reader_ok has_downgrade p (count Rd ts) b.
Proof.
  intros Hr E Hok Hw Hb. pose proof (count_lookup Rd ts i t E) as H1.
  pose proof (count_lookup Wr ts i t E) as H2. unfold ind in *.
  assert (hold t = Rd -> b = false /\ 1 <= count Rd ts) as HR.
  { intros Ht. rewrite Ht in *. rewrite decide_True in H1 by done. split; [|done].
    destruct b; [|done]. specialize (Hb eq_refl). lia. }
  assert (hold t = Wr -> b = true) as HW.
  { intros Ht. rewrite Ht in *. rewrite decide_True in H2 by done. destruct b; [done|lia]. }
  destruct c, p; simpl in Hr |- *; try done; try (by auto);
    try (destruct Hok; [done|congruence]); [by destruct Hr; auto|].
  destruct (hold t); [done|right; by apply HR|left; by apply HW].
Qed.

(** The counts follow a successful exchange. *)
Lemma running_after c p t t' (ts : list thread) i (b : bool) n' (b' : bool) :
  running c p (hold t) -> ts !! i = Some t -> hold t' = obtained p ->
  after p (count Rd ts) b = Some (n', b') ->
  count Wr ts = (if b then 1 else 0) -> (b = true -> count Rd ts = 0) ->
  count Rd (<[i := t']> ts) = n' /\ count Wr (<[i := t']> ts) = (if b' then 1 else 0) /\
  (b' = true -> n' = 0).
Proof.
  intros Hr E Ht' Ha Hw Hb. rewrite !(count_insert _ _ _ _ _ E).
  pose proof (count_lookup Rd ts i t E) as H1. pose proof (count_lookup Wr ts i t E) as H2.
  unfold ind in *. rewrite Ht' in *.
  destruct b; try specialize (Hb eq_refl);
  destruct (hold t); destruct c, p; simpl in *; try done; repeat case_decide; try done;
    repeat match type of Ha with context [?x =? ?y] => destruct (Z.eqb_spec x y) end;
    simplify_eq/=; try (destruct Hr; done); repeat split; try lia; try done.
Qed.

(** A thread that keeps what it holds. *)
Lemma keep_inv ptr w ts i t t' b :
  ts !! i = Some t -> Forall thread_inv ts -> rep ptr w (count Rd ts) b ->
  count Wr ts = (if b then 1 else 0) -> (b = true -> count Rd ts = 0) ->
  hold t' = hold t -> thread_inv t' ->
  lock_inv ptr (length ts) (Running w (<[i := t']> ts)).
Proof.
  intros E Hall Hrep Hw Hb Ht Hi. exists w, (<[i := t']> ts), b.
  rewrite length_insert, !(count_insert _ _ _ _ _ E). unfold ind. rewrite Ht.
  split; [done|]. split; [done|]. split; [by apply Forall_insert|].
  rewrite !Z.sub_add. done.
Qed.

Lemma allowed_running c h : allowed has_downgrade h c = true -> running c (first c) h.
Proof.
  destruct c; simpl; intros Ha; try (by apply bool_decide_eq_true in Ha).
  - apply andb_prop in Ha as [? Ha]. by apply bool_decide_eq_true in Ha.
  - apply negb_true_iff in Ha. by apply bool_decide_eq_false in Ha.
Qed.

Lemma return_hold h c p r : hold (return_to h c p r) = h.
Proof. unfold return_to. by destruct (next c p r). Qed.

(** A successful exchange. *)
Lemma swap_inv ptr w ts i t b c p newval r :
  ts !! i = Some t -> Forall thread_inv ts -> rep ptr w (count Rd ts) b ->
  count Wr ts = (if b then 1 else 0) -> (b = true -> count Rd ts = 0) ->
  running c p (hold t) -> pre reader_ok has_downgrade p (count Rd ts) b ->
  round p (view p w) = ACas newval r ->
  exists r', r = Some r' /\
    lock_inv ptr (length ts) (Running (put p w newval) (<[i := return_to (obtained p) c p r']> ts)).
Proof.
  intros E Hall Hrep Hw Hb Hr Hpre Ea.
  pose proof (law_round rep reader_ok p ptr w _ b Hrep Hpre) as Hl. rewrite Ea in Hl.
  destruct Hl as (r' & n' & b' & -> & Ht & Haf & Hrep'). exists r'. split; [done|].
  destruct (running_after c p t (return_to (obtained p) c p r') ts i b n' b') as (H1 & H2 & H3);
    try done; [by apply return_hold|].
  exists (put p w newval), (<[i := return_to (obtained p) c p r']> ts), b'.
  rewrite length_insert, H1. split; [done|]. split; [done|]. split; [|done].
  apply Forall_insert; [done|]. by eapply return_done.
Qed.

(** One access of a thread keeps the invariant; in particular nothing crashes. *)
Lemma step_inv ptr N s s' :
  (forall n, 0 <= n < Z.of_nat N -> reader_ok n) -> lock_inv ptr N s -> step s s' -> lock_inv ptr N s'.
Proof.
  intros Hok (w & ts & b & -> & <- & Hall & Hrep & Hw & Hb) (i & ev & Hex). simpl in Hex.
  destruct (ts !! i) as [t|] eqn:E; [|done].
  pose proof (Forall_lookup_1 _ _ _ _ Hall E) as Hti. unfold thread_inv in Hti.
  assert (reader_ok (count Rd ts) \/ hold t = Rd) as Hro.
  { destruct (decide (hold t = Rd)); [by right|left]. apply Hok.
    pose proof (count_nonneg Rd ts). pose proof (count_lt Rd ts i t E). unfold zlen in *. auto with lia. }
  assert (forall t', hold t' = hold t -> thread_inv t' ->
    lock_inv ptr (length ts) (Running w (<[i := t']> ts))) as Hkeep
    by (intros; by apply (keep_inv ptr w ts i t _ b)).
  unfold thread_step in Hex. destruct (run t) as [[c x]|] eqn:Er.
  2: { destruct ev as [c|]; [|done]. destruct (allowed _ _ c) eqn:Ha; simplify_eq/=.
       apply Hkeep; [done|]. by apply enter_inv, allowed_running. }
  destruct Hti as [Hv Hr]. pose proof (running_pre _ _ _ _ _ _ Hr E Hro Hw Hb) as Hpre.
  destruct x as [p|p oldval newval r]; simpl in Hv, Hr, Hpre; destruct ev as [|sp]; try done.
  - destruct sp; [done|]. pose proof (law_round rep reader_ok p ptr w _ b Hrep Hpre) as Hl.
    destruct (round p (view p w)) as [r|newval r|] eqn:Ea; simplify_eq/=; [| |done].
    + destruct Hl as [-> Hp]. apply Hkeep; [by apply return_hold|by apply return_failed].
    + apply Hkeep; [done|]. split; [|done].
      intros ptr' w' n' b' Hrep' Hs. by rewrite (law_same rep reader_ok _ _ _ _ _ _ Hrep' Hs).
  - destruct (same p w oldval && negb (sp && weak p)) eqn:Es.
    + apply andb_prop in Es as [Es _].
      destruct (swap_inv ptr w ts i t b c p newval r) as (r' & -> & Hinv); try done; [by eapply Hv|].
      by simplify_eq/=.
    + destruct (sp && negb (weak p)); [done|]. destruct (failed p) as [r'|] eqn:Ef; simplify_eq/=.
      * apply (law_failed rep reader_ok) in Ef as [-> Hp].
        apply Hkeep; [by apply return_hold|by apply return_failed].
      * by apply Hkeep.
Qed.

Lemma reachable_inv ptr N s s' :
  (forall n, 0 <= n < Z.of_nat N -> reader_ok n) -> lock_inv ptr N s -> rtc step s s' -> lock_inv ptr N s'.
Proof. intros Hok Hi Hs. induction Hs; [done|]. by eauto using step_inv. Qed.

Lemma idle_inv ptr N w : rep ptr w 0 false -> lock_inv ptr N (Running w (idle N)).
Proof.
  intros Hrep. exists w, (idle N), false. unfold idle.
  assert (forall m, m <> Free -> count m (replicate N (mk_thread Free None None)) = 0) as Hc.
  { intros m Hm. induction N as [|N IH]; simpl; [done|]. rewrite IH. unfold ind. simpl.
    by rewrite decide_False. }
  rewrite !Hc by done. split; [done|]. split; [apply length_replicate|]. split; [|done].
  apply Forall_replicate. by intros c r.
Qed.

(** What the invariant means for two threads. *)
Lemma inv_exclusive (ts : list thread) b i j t t' :
  count Wr ts = (if b : bool then 1 else 0) -> (b = true -> count Rd ts = 0) ->
  ts !! i = Some t -> ts !! j = Some t' -> i <> j -> hold t = Wr -> hold t' = Free.
Proof.
  intros Hw Hb Ei Ej Hij Ht.
  pose proof (count_lookup Wr ts i t Ei) as H1. unfold ind in H1. rewrite decide_True in H1 by done.
  destruct b; [|lia]. specialize (Hb eq_refl).
  destruct (hold t') eqn:Ht'; [done| |]; exfalso.
  - pose proof (count_lookup Rd ts j t' Ej) as H2. unfold ind in H2. rewrite decide_True in H2 by done. lia.
  - assert (<[i := mk_thread Free None None]> ts !! j = Some t') as Ej' by (by rewrite list_lookup_insert_ne).
    pose proof (count_lookup Wr _ j t' Ej') as H2. rewrite (count_insert _ _ _ _ _ Ei) in H2.
    unfold ind in H2. simpl in H2. rewrite !decide_True in H2 by done. lia.
Qed.

End Exclusion.

(** ** atomic_rwlock_t *)

Lemma land_pow2_zero n k : 0 <= k -> 0 <= n < 2 ^ k -> Z.land n (2 ^ k) = 0.
Proof.
  intros Hk Hn. apply Z.bits_inj'. intros i Hi.
  rewrite Z.land_spec, Z.bits_0, Z.pow2_bits_eqb by lia.
  destruct (Z.eqb_spec k i) as [<-|]; [|apply andb_false_r].
  rewrite <- (Z.mod_small n (2 ^ k)) by lia. by rewrite Z.mod_pow2_bits_high by lia.
Qed.

Definition rwlock_rep (_ w n : Z) (b : bool) : Prop :=
  if b then w = ATOMIC_RWLOCK_WFLAG /\ n = 0 else w = n /\ 0 <= n <= ATOMIC_RWLOCK_RMASK.
Definition rwlock_reader_ok (n : Z) : Prop := n < ATOMIC_RWLOCK_RMASK.

Lemma rwlock_wflag n : 0 <= n <= ATOMIC_RWLOCK_RMASK -> is_set n ATOMIC_RWLOCK_WFLAG = false.
Proof.
  intros Hn. unfold is_set, ATOMIC_RWLOCK_RMASK in *.
  change ATOMIC_RWLOCK_WFLAG with (2 ^ 31). by rewrite land_pow2_zero by lia.
Qed.

Lemma rwlock_rmask n : 0 <= n <= ATOMIC_RWLOCK_RMASK -> Z.land n ATOMIC_RWLOCK_RMASK = n.
Proof.
  intros Hn. unfold ATOMIC_RWLOCK_RMASK in *. change 0x7fffffff with (Z.ones 31).
  rewrite Z.land_ones by lia. apply Z.mod_small. lia.
Qed.

#[export] Instance rwlock_laws : LockLaws (LW := atomic_rwlock) rwlock_rep rwlock_reader_ok.
Proof.
  split.
  - intros p ptr w n b oldval _ Hs. by apply Z.eqb_eq in Hs.
  - intros p. destruct p; split; try done. intros ptr w n b _ Hs. apply Z.eqb_eq in Hs as ->. done.
  - by intros [] [] [].
  - intros p r. destruct p; simpl; intros Hf; simplify_eq/=; done.
  - intros p ptr w n b Hrep Hpre. destruct b; simpl in Hrep; destruct Hrep as [-> Hn].
    + subst n. destruct p; simpl in Hpre |- *; try (by destruct Hpre); try done.
      all: try (by eexists _, _, _).
    + pose proof (rwlock_wflag n Hn) as Hw. pose proof (rwlock_rmask n Hn) as Hr.
      unfold rwlock_reader_ok in Hpre. unfold rwlock_rep.
      destruct p; simpl in Hpre |- *;
        unfold atomic_rwlock_endwrite, atomic_rwlock_endread, atomic_rwlock_end, atomic_rwlock_tryread,
          atomic_rwlock_trywrite, atomic_rwlock_tryupgrade, atomic_rwlock_downgrade;
        rewrite ?Hw, ?Hr; try discriminate; try (by destruct Hpre).
      * rewrite (proj2 (Z.eqb_neq n 0)) by lia. eexists _, _, _. repeat split; lia.
      * destruct Hpre as [|Hpre]; [done|].
        rewrite (proj2 (Z.eqb_neq n 0)) by lia. eexists _, _, _. repeat split; lia.
      * rewrite (proj2 (Z.eqb_neq n _)) by lia. eexists _, _, _.
        rewrite Z.mod_small by (unfold ATOMIC_RWLOCK_RMASK in *; lia). repeat split; lia.
      * destruct (Z.eqb_spec n 0) as [->|]; [|done]. by eexists _, _, _.
      * destruct (Z.eqb_spec n 1) as [->|]; simpl; [|done]. by eexists _, _, _.
Qed.

(** ** atomic_rwptr_t *)

Definition rwptr_word (ptr n : Z) (b : bool) : Z := ptr + (if b then ATOMIC_RWPTR_MASK_WMODE else n).

(** A 32-bit pointer, up to 7 readers or a writer. *)
Definition rwptr_rep (ptr w n : Z) (b : bool) : Prop :=
  w = rwptr_word ptr n b /\ 0 <= ptr < 2 ^ 32 /\ ptr mod 16 = 0 /\ 0 <= n <= 7 /\ (b = true -> n = 0).
Definition rwptr_reader_ok (n : Z) : Prop := True.

(** The law for the lock byte [16*h + ...], decided. *)
Definition legal (p : prim) (n : Z) (b : bool) : bool :=
  match p with
  | P_tryread | P_trywrite => true
  | P_tryupgrade | P_endread => negb b && (1 <=? n)
  | P_endwrite => b
  | P_downgrade | P_end => false
  end.
Definition byte_law (p : prim) (h n : Z) (b : bool) : bool :=
  implb (legal p n b)
    match round (LockWord := atomic_rwptr) p (rwptr_word (16 * h) n b) with
    | AAbort | ACas _ None => false
    | ARet r => negb r && is_try p
    | ACas newval (Some r) =>
        implb (is_try p) r &&
        match after p n b with
        | None => false
        | Some (n', b') =>
            (newval =? rwptr_word (16 * h) n' b') && (0 <=? n') && (n' <=? 7) && implb b' (n' =? 0)
        end
    end.

Definition all_prims : list prim :=
  [P_endwrite; P_endread; P_end; P_tryread; P_trywrite; P_tryupgrade; P_downgrade].

Lemma byte_law_all :
  forallb (fun p => forallb (fun h => byte_law p h 0 true &&
    forallb (fun n => byte_law p h n false) (seqZ 0 8)) (seqZ 0 16)) all_prims = true.
Proof. vm_compute. done. Qed.

Lemma byte_law_holds p h n b :
  0 <= h < 16 -> 0 <= n <= 7 -> (b = true -> n = 0) -> byte_law p h n b = true.
Proof.
  intros Hh Hn Hb. pose proof byte_law_all as H. rewrite forallb_forall in H.
  specialize (H p). rewrite forallb_forall in H. specialize (fun Hp => H Hp h).
  assert (In h (seqZ 0 16)) as Hh' by (apply list_elem_of_In, elem_of_seqZ; lia).
  assert (In p all_prims) as Hp by (destruct p; simpl; tauto).
  specialize (H Hp Hh'). apply andb_prop in H as [H1 H2]. destruct b; [by rewrite Hb|].
  rewrite forallb_forall in H2. apply H2, list_elem_of_In, elem_of_seqZ. lia.
Qed.

(** The low bits of a word. *)
Lemma land_low x m k : 0 <= k -> 0 <= m < 2 ^ k -> Z.land x m = Z.land (x mod 2 ^ k) m.
Proof.
  intros Hk Hm. apply Z.bits_inj'. intros i Hi. rewrite !Z.land_spec.
  destruct (Z.lt_ge_cases i k).
  - by rewrite Z.mod_pow2_bits_low by lia.
  - rewrite <- (Z.mod_small m (2 ^ k)) by lia. by rewrite (Z.mod_pow2_bits_high m), !andb_false_r by lia.
Qed.

Lemma ldiff_sub a b : Z.ldiff a b = a - Z.land a b.
Proof.
  rewrite Z.sub_nocarry_ldiff.
  - apply Z.bits_inj'. intros i Hi. rewrite !Z.ldiff_spec, Z.land_spec.
    by destruct (Z.testbit a i), (Z.testbit b i).
  - apply Z.bits_inj'. intros i Hi. rewrite Z.ldiff_spec, Z.land_spec, Z.bits_0.
    by destruct (Z.testbit a i), (Z.testbit b i).
Qed.

Lemma rwptr_low ptr n b m :
  ptr mod 16 = 0 -> 0 <= n <= 7 -> 0 <= m < 16 ->
  Z.land (rwptr_word ptr n b) m = Z.land (if b then 8 else n) m.
Proof.
  intros Hp Hn Hm. rewrite (land_low _ m 4) by (simpl; lia). f_equal. unfold rwptr_word, ATOMIC_RWPTR_MASK_WMODE.
  destruct b; mlia.
Qed.

Lemma rwptr_end_law ptr n b :
  0 <= ptr < 2 ^ 32 -> ptr mod 16 = 0 -> 0 <= n <= 7 -> (b = true -> n = 0) -> b = true \/ 1 <= n ->
  exists n' b', after P_end n b = Some (n', b') /\ (b' = true -> n' = 0) /\ 0 <= n' <= 7 /\
    atomic_rwptr_end (rwptr_word ptr n b) = ACas (rwptr_word ptr n' b') (Some true).
Proof.
  intros Hp Ha Hn Hb Hpre. unfold atomic_rwptr_end, is_set.
  rewrite !ldiff_sub, !rwptr_low by (unfold ATOMIC_RWPTR_MASK_WMODE, ATOMIC_RWPTR_MASK_RCNT; lia).
  unfold rwptr_word. destruct b; simpl.
  - unfold ATOMIC_RWPTR_MASK_WMODE, ATOMIC_RWPTR_MASK_RCNT. simpl. exists 0, false.
    repeat split; try done. change (Z.land 8 8) with 8. f_equal. lia.
  - destruct Hpre as [|Hpre]; [done|].
    rewrite (land_pow2_zero n 3 : _ -> _ -> Z.land n ATOMIC_RWPTR_MASK_WMODE = 0) by (simpl; lia). simpl.
    change ATOMIC_RWPTR_MASK_RCNT with (Z.ones 3). rewrite Z.land_ones, Z.mod_small by (simpl; lia).
    rewrite (proj2 (Z.eqb_neq n 0)) by lia. simpl. exists (n - 1), false.
    repeat split; try done; try lia. f_equal. lia.
Qed.

Lemma legal_ok p n b : pre rwptr_reader_ok false p n b -> p <> P_end -> legal p n b = true.
Proof.
  destruct p; simpl; try done; try (by intros [? _]).
  all: intros [-> Hn] _; simpl; by apply Z.leb_le.
Qed.

#[export] Instance rwptr_laws : LockLaws (LW := atomic_rwptr) rwptr_rep rwptr_reader_ok.
Proof.
  split.
  - intros p ptr w n b oldval (-> & Hp & Ha & Hn & Hb) Hs.
    destruct p; simpl in *; apply Z.eqb_eq in Hs; try done. subst oldval.
    apply Z.mod_small. unfold rwptr_word, ATOMIC_RWPTR_MASK_WMODE. destruct b; mlia.
  - by intros [].
  - by intros [] [] [].
  - by intros p r.
  - intros p ptr w n b (-> & Hp & Ha & Hn & Hb) Hpre.
    assert (rwptr_word ptr n b mod 256 = rwptr_word (16 * (ptr / 16 mod 16)) n b) as Hv
      by (unfold rwptr_word, ATOMIC_RWPTR_MASK_WMODE; destruct b; mlia).
    pose proof (byte_law_holds p (ptr / 16 mod 16) n b ltac:(mlia) Hn Hb) as Hl.
    unfold byte_law in Hl.
    destruct (prim_eq_dec p P_end) as [->|Hne].
    { simpl in Hpre |- *. rewrite Z.mod_small by (unfold rwptr_word, ATOMIC_RWPTR_MASK_WMODE; destruct b; mlia).
      destruct (rwptr_end_law ptr n b) as (n' & b' & Haf & Hb' & Hn' & ->); try done.
      exists true, n', b'. repeat split; try done; lia. }
    assert (view (LockWord := atomic_rwptr) p (rwptr_word ptr n b) = rwptr_word (16 * (ptr / 16 mod 16)) n b)
      as -> by (rewrite <- Hv; by destruct p).
    assert (forall x, put (LockWord := atomic_rwptr) p (rwptr_word ptr n b) x =
      rwptr_word ptr n b - rwptr_word (16 * (ptr / 16 mod 16)) n b + x) as Hput
      by (intros x; rewrite <- Hv; by destruct p).
    rewrite (legal_ok p n b Hpre Hne) in Hl. cbn [implb] in Hl.
    destruct (round p _) as [r|newval [r|]|]; try done.
    { apply andb_prop in Hl as [Hr Ht]. by destruct r. }
    apply andb_prop in Hl as [Hr Hl]. destruct (after p n b) as [[n' b']|]; [|done]. bsimp.
    exists r, n', b'. split; [done|]. split; [by intros Ht; rewrite Ht in Hr|]. split; [done|].
    rewrite Hput. split; [|split; [done|split; [done|split; [lia|]]]].
    + subst newval. unfold rwptr_word. destruct b, b'; lia.
    + intros ->. simpl in *. bsimp. lia.
Qed.

(** ** Theorems *)

Lemma exec_all_reachable `{LW : LockWord} l s s' : exec_all l s = Some s' -> rtc step s s'.
Proof.
  revert s. induction l as [|[i ev] l IH]; intros s E; simplify_eq/=; [done|].
  destruct (exec i ev s) as [s1|] eqn:E1; [|done]. eapply rtc_l; [by exists i, ev|by apply IH].
Qed.

(** What every reachable state of the machine guarantees. *)
Lemma reachable_facts `{LW : LockWord} rep reader_ok `{!LockLaws rep reader_ok} ptr w N s :
  (forall n, 0 <= n < Z.of_nat N -> reader_ok n) -> rep ptr w 0 false ->
  rtc step (Running w (idle N)) s ->
  exists w' ts b, s = Running w' ts /\ rep ptr w' (count Rd ts) b /\ count Wr ts = (if b then 1 else 0) /\
    (forall i j t t', ts !! i = Some t -> ts !! j = Some t' -> i <> j -> hold t = Wr -> hold t' = Free) /\
    (forall i t c r, ts !! i = Some t -> run t = None -> ret t = Some (c, r) -> hold t = result c r).
Proof.
  intros Hok Hrep Hs.
  destruct (reachable_inv rep reader_ok ptr N _ _ Hok (idle_inv rep ptr N w Hrep) Hs)
    as (w' & ts & b & -> & _ & Hall & Hrep' & Hw & Hb).
  exists w', ts, b. split; [done|]. split; [done|]. split; [done|]. split.
  - intros i j t t'. by apply (inv_exclusive ts b).
  - intros i t c r E Hr Ht. pose proof (Forall_lookup_1 _ _ _ _ Hall E) as Hi.
    unfold thread_inv in Hi. rewrite Hr in Hi. by apply Hi.
Qed.

(** C29: However the accesses of any number of threads interleave, an
    [atomic_rwlock_t] never fails an assertion, a thread that holds it for writing
    is the only holder, its word counts the readers or shows the writer, and every
    finished call left its thread with the lock that its result promises. *)
Theorem rwlock_exclusive N s :
  Z.of_nat N <= ATOMIC_RWLOCK_RMASK ->
  rtc (step (LW := atomic_rwlock)) (Running 0 (idle N)) s ->
  exists w ts, s = Running w ts /\
    w = (if count Wr ts =? 0 then count Rd ts else ATOMIC_RWLOCK_WFLAG) /\
    (forall i j t t', ts !! i = Some t -> ts !! j = Some t' -> i <> j -> hold t = Wr -> hold t' = Free) /\
    (forall i t c r, ts !! i = Some t -> run t = None -> ret t = Some (c, r) -> hold t = result c r).
Proof.
  intros HN Hs.
  destruct (reachable_facts (LW := atomic_rwlock) rwlock_rep rwlock_reader_ok 0 0 N s) as (w & ts & b & -> & Hrep & Hw & H1 & H2);
    [intros n Hn; unfold rwlock_reader_ok; lia|by vm_compute|done|].
  exists w, ts. split; [done|]. split; [|done]. rewrite Hw. destruct b; by destruct Hrep as [-> _].
Qed.

(** The same for an [atomic_rwptr_t] on a 32-bit machine, whose pointer no lock
    operation changes; [atomic_rwptr_downgrade] is not used. *)
Theorem rwptr_exclusive N ptr s :
  0 <= ptr < 2 ^ 32 -> ptr mod 16 = 0 ->
  rtc (step (LW := atomic_rwptr)) (Running ptr (idle N)) s ->
  exists w ts, s = Running w ts /\ ATOMIC_RWPTR_GET w = ptr /\
    w - ptr = (if count Wr ts =? 0 then count Rd ts else ATOMIC_RWPTR_MASK_WMODE) /\
    (forall i j t t', ts !! i = Some t -> ts !! j = Some t' -> i <> j -> hold t = Wr -> hold t' = Free) /\
    (forall i t c r, ts !! i = Some t -> run t = None -> ret t = Some (c, r) -> hold t = result c r).
Proof.
  intros Hp Ha Hs.
  destruct (reachable_facts (LW := atomic_rwptr) rwptr_rep rwptr_reader_ok ptr ptr N s) as (w & ts & b & -> & Hrep & Hw & H1 & H2);
    [done| |done|].
  { unfold rwptr_rep, rwptr_word. repeat split; try done; lia. }
  exists w, ts. split; [done|]. destruct Hrep as (-> & _ & _ & Hn & Hb).
  split; [|split; [|done]].
  - unfold ATOMIC_RWPTR_GET. change (Z.lnot ATOMIC_RWPTR_LOCK_MASK) with (Z.lnot (Z.ones 4)).
    rewrite <- Z.ldiff_land, Z.ldiff_ones_r, Z.shiftl_mul_pow2, Z.shiftr_div_pow2 by lia.
    unfold rwptr_word, ATOMIC_RWPTR_MASK_WMODE. change (2 ^ 4) with 16. destruct b; mlia.
  - rewrite Hw. unfold rwptr_word. destruct b; simpl; lia.
Qed.

(** ** Behaviour of the code outside these theorems *)

(** [atomic_rwptr_downgrade] compares with a shift instead of a mask: it fails its
    assertion whenever the lock is held for writing. *)
Theorem rwptr_downgrade_aborts ptr :
  ptr mod 16 = 0 ->
  round (LockWord := atomic_rwptr) P_downgrade
    (view (LockWord := atomic_rwptr) P_downgrade (rwptr_word ptr 0 true)) = AAbort.
Proof.
  intros Hp. cbn [round view atomic_rwptr]. unfold atomic_rwptr_downgrade.
  rewrite (land_low _ ATOMIC_RWPTR_LOCK_MASK 4) by (by vm_compute).
  replace (rwptr_word ptr 0 true mod 256 mod 2 ^ 4) with 8; [done|].
  unfold rwptr_word, ATOMIC_RWPTR_MASK_WMODE. change (2 ^ 4) with 16. mlia.
Qed.

(** [atomic_rwptr_end] reads 32 bits: with a pointer above 4 GiB its exchange never
    succeeds. *)
Theorem rwptr_end_spins w :
  2 ^ 32 <= w ->
  same (LockWord := atomic_rwptr) P_end w (view (LockWord := atomic_rwptr) P_end w) = false.
Proof. intros Hw. simpl. apply Z.eqb_neq. pose proof (Z.mod_pos_bound w (2 ^ 32)). lia. Qed.

(** ** Witnesses *)

(** Thread 0 reads and upgrades while thread 1 tries to write. *)
Definition sample_run : list (nat * event) :=
  [(0%nat, Call C_read); (0%nat, Go false); (1%nat, Call C_write); (0%nat, Go true); (0%nat, Go false);
   (0%nat, Go false); (1%nat, Go false); (1%nat, Go false); (0%nat, Call C_upgrade); (0%nat, Go false);
   (0%nat, Go false)].

Lemma rwlock_exclusive_witness :
  exists s w ts, exec_all (LW := atomic_rwlock) sample_run (Running 0 (idle 2)) = Some s /\
    s = Running w ts /\ w = ATOMIC_RWLOCK_WFLAG /\
    forall t', ts !! 1%nat = Some t' -> hold t' = Free.
Proof.
  destruct (exec_all (LW := atomic_rwlock) sample_run (Running 0 (idle 2))) as [s|] eqn:E;
    [|vm_compute in E; discriminate].
  destruct (rwlock_exclusive 2 s) as (w & ts & Es & Hw & Hex & _);
    [by vm_compute|by apply (exec_all_reachable sample_run)|].
  exists s, w, ts. split; [done|]. split; [done|]. subst s. vm_compute in E. injection E as <- <-.
  split; [done|]. intros t' Ht'. by eapply (Hex 0%nat 1%nat).
Defined.

Lemma rwptr_exclusive_witness :
  exists s w ts, exec_all (LW := atomic_rwptr) sample_run (Running 0x1000 (idle 2)) = Some s /\
    s = Running w ts /\ ATOMIC_RWPTR_GET w = 0x1000 /\
    forall t', ts !! 1%nat = Some t' -> hold t' = Free.
Proof.
  destruct (exec_all (LW := atomic_rwptr) sample_run (Running 0x1000 (idle 2))) as [s|] eqn:E;
    [|vm_compute in E; discriminate].
  destruct (rwptr_exclusive 2 0x1000 s) as (w & ts & Es & Hw & _ & Hex & _);
    [done|done|by apply (exec_all_reachable sample_run)|].
  exists s, w, ts. split; [done|]. split; [done|]. split; [done|]. subst s. vm_compute in E. injection E as <- <-.
  intros t' Ht'. by eapply (Hex 0%nat 1%nat).
Defined.
