(* ===== verification/Unicode.v ===== *)
(** * Unicode conversion (libs/libc/unicode.c)

    The conversions between UTF-8, UTF-16 and UTF-32 of the C library.  Input is
    the list of units that are left, output a buffer with a write position that
    may run past its end.  Characters and units are unsigned; [ch] has 32 bits. *)
From stdpp Require Import base numbers list.
From S2P Require Import Prelude.

(** ** Constants and tables *)

Definition UNICODE_UTF16HALF : Z := -3.
Definition UNICODE_REPLACEMENT : Z := 0x3f.
Definition UNICODE_F_NOZEROTERM : Z := 0x01.
Definition UNICODE_F_ALWAYSZEROTERM : Z := 0x02.
Definition UNICODE_F_STOPONNUL : Z := 0x04.
Definition UNICODE_F_DOSINGLE : Z := 0x08.
Definition UNICODE_F_UTF16HALF : Z := 0x10.
Definition UNICODE_F_SETERRNO : Z := 0x40.
Definition UNICODE_F_NOFAIL : Z := 0x80.

Definition UNI_HALF_BASE : Z := 0x10000.
Definition UNI_HALF_MASK : Z := 0x3ff.
Definition UNI_HALF_SHIFT : Z := 10.
Definition UNI_MAX_BMP : Z := 0xffff.
Definition UNI_MAX_LEGAL_UTF32 : Z := 0x10ffff.
Definition UNI_MAX_UTF16 : Z := 0x10ffff.
Definition UNI_SURROGATE_HIGH_END : Z := 0xdbff.
Definition UNI_SURROGATE_HIGH_BEGIN : Z := 0xd800.
Definition UNI_SURROGATE_LOW_END : Z := 0xdfff.
Definition UNI_SURROGATE_LOW_BEGIN : Z := 0xdc00.

Definition uni_bytemarks : list Z := [0x00; 0x00; 0xC0; 0xE0; 0xF0; 0xF8; 0xFC].
Definition utf8_trailing_bytes : list Z :=
  replicate 192 0 ++ replicate 32 1 ++ replicate 16 2 ++ replicate 8 3 ++ replicate 4 4 ++ replicate 4 5.
Definition utf8_offsets : list Z :=
  [0x00000000; 0x00003080; 0x000E2080; 0x03C82080; 0xFA082080; 0x82082080].

Definition has (mode flag : Z) : bool := negb (Z.land mode flag =? 0).
Definition u32 (x : Z) : Z := x mod 2 ^ 32.

(** [mbstate_t]: what is left of an incomplete character. *)
Record mbstate : Type := mk_mbstate { mb_count : Z; mb_wch : Z }.
Definition MBSTATE_INIT : mbstate := mk_mbstate 0 0.
Definition MBSTATE_ISEMPTY (x : mbstate) : bool := mb_count x =? 0.
Definition MBSTATE_GETMISSING (x : mbstate) : Z := Z.land (mb_count x) 0xff.
Definition MBSTATE_GETSRCSIZE (x : mbstate) : Z := Z.land (Z.shiftr (mb_count x) 16) 0xff.
Definition MBSTATE_SETCOUNT (missing srcsize_minus_one wch : Z) : mbstate :=
  mk_mbstate (Z.lor missing (Z.shiftl srcsize_minus_one 16)) wch.

(** ** Results

    A finished conversion returns a count or [UNICODE_UTF16HALF], and with
    [UNICODE_F_UPDATESRC] the units it left; a malformed one fails, and sets
    [errno] or not.  [Endless] stands for a loop that ran out of fuel. *)
Inductive converted : Type :=
| Converted (result : Z) (buf : list Z) (state : mbstate) (rest : list Z)
| Malformed (buf : list Z) (errno : bool)
| Endless.

(** Storing at [dst] does nothing behind the end of the buffer. *)
Definition out (ch : Z) (w : list Z * nat) : list Z * nat := (<[w.2 := ch]> w.1, S w.2).

(** Labels [done2] and [done]. *)
Definition finish (zero : bool) (w : list Z * nat) (state : mbstate) (rest : list Z) : converted :=
  let w := if zero then out 0 w else w in
  Converted (Z.of_nat w.2) w.1 state rest.

(** The end of a loop, and [GOTO_DONE]. *)
Definition loop_end (mode : Z) : list Z * nat -> mbstate -> list Z -> converted :=
  finish (negb (has mode UNICODE_F_NOZEROTERM)).
Definition GOTO_DONE (mode : Z) : list Z * nat -> mbstate -> list Z -> converted :=
  finish (Z.land mode (Z.lor UNICODE_F_ALWAYSZEROTERM UNICODE_F_NOZEROTERM) =? UNICODE_F_ALWAYSZEROTERM).

(** ** Decoding UTF-8 *)

(** [libc_utf8_check] of the [utf8chars] bytes at the start of [utf8]. *)
Definition trail_ok (ch : Z) : bool := negb ((ch <? 0x80) || (0xBF <? ch)).
Definition libc_utf8_check (utf8 : list Z) (utf8chars : Z) : bool :=
  let at_ i := utf8 !!! i in
  let case1 := negb ((0x80 <=? at_ 0%nat) && (at_ 0%nat <? 0xC2)) && negb (0xF4 <? at_ 0%nat) in
  let case2 :=
    let ch := at_ 1%nat in
    trail_ok ch &&
    (if at_ 0%nat =? 0xE0 then negb (ch <? 0xA0)
     else if at_ 0%nat =? 0xED then negb (0x9F <? ch)
     else if at_ 0%nat =? 0xF0 then negb (ch <? 0x90)
     else if at_ 0%nat =? 0xF4 then negb (0x8F <? ch)
     else negb (ch <? 0x80)) && case1 in
  if utf8chars =? 4 then trail_ok (at_ 3%nat) && (trail_ok (at_ 2%nat) && case2)
  else if utf8chars =? 3 then trail_ok (at_ 2%nat) && case2
  else if utf8chars =? 2 then case2
  else if utf8chars =? 1 then case1
  else false.

(** The fall-through [switch]es: [n] bytes are added and shifted, one more only
    added. *)
Fixpoint accum (n : nat) (ch : Z) (iter : list Z) : Z * list Z :=
  match iter, n with
  | [], _ => (ch, [])
  | b :: iter, O => (u32 (ch + b), iter)
  | b :: iter, S n => accum n (u32 (Z.shiftl (u32 (ch + b)) 6)) iter
  end.

(** A round up to [got_char]: the accumulated character and its size, an
    incomplete one, or a malformed one, at which the input stays. *)
Inductive fetched : Type :=
| Got (ch src_size : Z) (iter : list Z)
| Partial (state : mbstate) (iter : list Z)
| Bad (iter : list Z).

Definition fetch (b : Z) (iter : list Z) : outcome fetched :=
  let avail := zlen iter in
  let src_size := utf8_trailing_bytes !!! Z.to_nat b in
  if avail <? src_size + 1 then
    assert! avail <=? 5;;
    assert! negb (avail =? 0);;
    let (ch, iter) := accum (Z.to_nat (avail - 1)) 0 iter in
    Ret (Partial (MBSTATE_SETCOUNT (src_size + 1 - avail) src_size ch) iter)
  else if negb (libc_utf8_check iter (src_size + 1)) then Ret (Bad iter)
  else let (ch, iter) := accum (Z.to_nat src_size) 0 iter in Ret (Got ch src_size iter).

(** The characters missing in the state; [None] when the input has too few. *)
Definition resume (state : mbstate) (iter : list Z) : option (Z * Z * list Z) :=
  let missing := MBSTATE_GETMISSING state in
  if zlen iter <? missing then None
  else
    let (ch, iter) :=
      if (1 <=? missing) && (missing <=? 5) then accum (Z.to_nat (missing - 1)) (mb_wch state) iter
      else (mb_wch state, iter) in
    Some (ch, MBSTATE_GETSRCSIZE state, iter).

(** *** UTF-32 *)

(** [got_char] of [libc_utf8to32]; [None] is [goto err]. *)
Definition got_char32 (ch src_size : Z) : option Z :=
  let ch := u32 (ch - utf8_offsets !!! Z.to_nat src_size) in
  if UNI_MAX_LEGAL_UTF32 <? ch then None
  else if (UNI_SURROGATE_HIGH_BEGIN <=? ch) && (ch <=? UNI_SURROGATE_LOW_END) then None
  else Some ch.

(** [err], then [put_char] with [UNICODE_F_NOFAIL]. *)
Definition or_replacement (mode : Z) (ch : option Z) : option Z :=
  match ch with
  | Some ch => Some ch
  | None => if has mode UNICODE_F_NOFAIL then Some UNICODE_REPLACEMENT else None
  end.

Fixpoint utf8to32_loop (fuel : nat) (mode : Z) (iter : list Z) (w : list Z * nat) (state : mbstate)
    : outcome converted :=
  match iter with
  | [] => Ret (loop_end mode w state [])
  | b :: _ =>
      if has mode UNICODE_F_STOPONNUL && (b =? 0) then Ret (loop_end mode w state iter) else
      match fuel with
      | O => Ret Endless
      | S fuel =>
          let put (ch : option Z) iter :=
            match or_replacement mode ch with
            | None => Ret (Malformed w.1 (has mode UNICODE_F_SETERRNO))
            | Some ch =>
                if has mode UNICODE_F_DOSINGLE then Ret (loop_end mode (out ch w) state iter)
                else utf8to32_loop fuel mode iter (out ch w) state
            end in
          let! f := fetch b iter in
          match f with
          | Partial state iter => Ret (GOTO_DONE mode w state iter)
          | Bad iter => put None iter
          | Got ch src_size iter => put (got_char32 ch src_size) iter
          end
      end
  end.

(** [buf] is the destination of [libc_utf8to32]. *)
Definition libc_utf8to32 (fuel : nat) (utf8 : list Z) (buf : list Z) (state : mbstate) (mode : Z)
    : outcome converted :=
  if MBSTATE_ISEMPTY state then utf8to32_loop fuel mode utf8 (buf, O) state
  else
    match resume state utf8 with
    | None => Ret (GOTO_DONE mode (buf, O) state utf8)
    | Some (ch, src_size, iter) =>
        let state := mk_mbstate 0 (mb_wch state) in
        match or_replacement mode (got_char32 ch src_size) with
        | None => Ret (Malformed buf (has mode UNICODE_F_SETERRNO))
        | Some ch =>
            if has mode UNICODE_F_DOSINGLE then Ret (loop_end mode (out ch (buf, O)) state iter)
            else utf8to32_loop fuel mode iter (out ch (buf, O)) state
        end
    end.

(** *** UTF-16 *)

(** [got_char] of [libc_utf8to16]: one unit, a pair (the character without
    [UNI_HALF_BASE]), or an error. *)
Inductive units : Type :=
| One (ch : Z)
| Pair (ch : Z)
| Illegal.

Definition got_char16 (ch src_size : Z) : units :=
  let ch := u32 (ch - utf8_offsets !!! Z.to_nat src_size) in
  if ch <=? UNI_MAX_BMP then
    if (UNI_SURROGATE_HIGH_BEGIN <=? ch) && (ch <=? UNI_SURROGATE_LOW_END) then Illegal else One ch
  else if UNI_MAX_UTF16 <? ch then Illegal
  else Pair (ch - UNI_HALF_BASE).

Definition high_unit (ch : Z) : Z := Z.shiftr ch UNI_HALF_SHIFT + UNI_SURROGATE_HIGH_BEGIN.
Definition low_unit (ch : Z) : Z := Z.land ch UNI_HALF_MASK + UNI_SURROGATE_LOW_BEGIN.

(** From [got_char] to the end of a round: how the function returns, or the
    output to go on with. *)
Definition put_units (mode : Z) (w : list Z * nat) (state : mbstate) (iter : list Z)
    (src_size : Z) (u : units) : converted + list Z * nat :=
  match u with
  | One ch => inr (out ch w)
  | Illegal =>
      if has mode UNICODE_F_NOFAIL then inr (out UNICODE_REPLACEMENT w)
      else inl (Malformed w.1 (has mode UNICODE_F_SETERRNO))
  | Pair ch =>
      let w := out (high_unit ch) w in
      if Nat.ltb w.2 (length w.1) then inr (out (low_unit ch) w)
      else if has mode UNICODE_F_UTF16HALF then
        let wch := u32 (Z.land ch UNI_HALF_MASK + UNI_HALF_BASE + utf8_offsets !!! Z.to_nat src_size) in
        let w := if has mode UNICODE_F_NOZEROTERM then w else out 0 w in
        inl (Converted UNICODE_UTF16HALF w.1 (MBSTATE_SETCOUNT 0 src_size wch) iter)
      else inr (w.1, S w.2)
  end.

Fixpoint utf8to16_loop (fuel : nat) (mode : Z) (iter : list Z) (w : list Z * nat) (state : mbstate)
    : outcome converted :=
  match iter with
  | [] => Ret (loop_end mode w state [])
  | b :: _ =>
      if has mode UNICODE_F_STOPONNUL && (b =? 0) then Ret (loop_end mode w state iter) else
      match fuel with
      | O => Ret Endless
      | S fuel =>
          let put iter src_size u :=
            match put_units mode w state iter src_size u with
            | inl r => Ret r
            | inr w =>
                if has mode UNICODE_F_DOSINGLE then Ret (loop_end mode w state iter)
                else utf8to16_loop fuel mode iter w state
            end in
          let! f := fetch b iter in
          match f with
          | Partial state iter => Ret (GOTO_DONE mode w state iter)
          | Bad iter => put iter 0 Illegal
          | Got ch src_size iter => put iter src_size (got_char16 ch src_size)
          end
      end
  end.

Definition libc_utf8to16 (fuel : nat) (utf8 : list Z) (buf : list Z) (state : mbstate) (mode : Z)
    : outcome converted :=
  if MBSTATE_ISEMPTY state then utf8to16_loop fuel mode utf8 (buf, O) state
  else
    match resume state utf8 with
    | None => Ret (GOTO_DONE mode (buf, O) state utf8)
    | Some (ch, src_size, iter) =>
        let state := mk_mbstate 0 (mb_wch state) in
        match put_units mode (buf, O) state iter src_size (got_char16 ch src_size) with
        | inl r => Ret r
        | inr w =>
            if has mode UNICODE_F_DOSINGLE then Ret (loop_end mode w state iter)
            else utf8to16_loop fuel mode iter w state
        end
    end.

(** ** Encoding UTF-8 *)

(** [dst_size]; [None] is [goto err]. *)
Definition utf8_size (ch : Z) : option nat :=
  if ch <? 0x80 then Some 1%nat
  else if ch <? 0x800 then Some 2%nat
  else if ch <? 0x10000 then Some 3%nat
  else if ch <=? UNI_MAX_LEGAL_UTF32 then Some 4%nat
  else None.

Definition trail_byte (ch : Z) : Z := Z.land (Z.lor ch 0x80) 0xBF mod 256.
Definition lead_byte (dst_size : nat) (ch : Z) : Z := Z.lor ch (uni_bytemarks !!! dst_size) mod 256.

(** The [switch] of [libc_utf32to8] from case [n] on: a trailing byte that fits
    moves [dst] by two. *)
Fixpoint put8 (dst_size n : nat) (ch : Z) (w : list Z * nat) : list Z * nat :=
  match n with
  | O => w
  | 1%nat => out (lead_byte dst_size ch) w
  | S n =>
      let w :=
        if Nat.ltb w.2 (length w.1) then (<[w.2 := trail_byte ch]> w.1, S (S w.2)) else (w.1, S w.2) in
      put8 dst_size n (Z.shiftr ch 6) w
  end.

Definition is_surrogate (ch : Z) : bool :=
  (UNI_SURROGATE_HIGH_BEGIN <=? ch) && (ch <=? UNI_SURROGATE_LOW_END).

(** [libc_utf32to8]; the state is not used. *)
Fixpoint utf32to8_loop (mode : Z) (iter : list Z) (w : list Z * nat) (state : mbstate) : converted :=
  match iter with
  | [] => loop_end mode w state []
  | ch :: iter =>
      if (ch =? 0) && has mode UNICODE_F_STOPONNUL then loop_end mode w state iter else
      let w' :=
        match (if is_surrogate ch then None else utf8_size ch) with
        | Some dst_size => Some (put8 dst_size dst_size ch w)
        | None => if has mode UNICODE_F_NOFAIL then Some (out UNICODE_REPLACEMENT w) else None
        end in
      match w' with
      | None => Malformed w.1 (has mode UNICODE_F_SETERRNO)
      | Some w =>
          if has mode UNICODE_F_DOSINGLE then loop_end mode w state iter
          else utf32to8_loop mode iter w state
      end
  end.
Definition libc_utf32to8 (utf32 : list Z) (buf : list Z) (state : mbstate) (mode : Z) : converted :=
  utf32to8_loop mode utf32 (buf, O) state.

(** The [switch] of [libc_utf16to8]: [temp] is the end of the character. *)
Fixpoint put8_back (dst_size n : nat) (ch : Z) (buf : list Z) (temp : nat) : list Z :=
  let store b := if Nat.ltb temp (length buf) then <[pred temp := b]> buf else buf in
  match n with
  | O => buf
  | 1%nat => store (lead_byte dst_size ch)
  | S n => put8_back dst_size n (Z.shiftr ch 6) (store (trail_byte ch)) (pred temp)
  end.

(** The second unit at [second_char] and the combined character. *)
Definition is_low (ch2 : Z) : bool :=
  negb ((ch2 <? UNI_SURROGATE_LOW_BEGIN) || (UNI_SURROGATE_LOW_END <? ch2)).
Definition combine16 (ch ch2 : Z) : Z :=
  u32 (Z.shiftl (ch - UNI_SURROGATE_HIGH_BEGIN) UNI_HALF_SHIFT + (ch2 - UNI_SURROGATE_LOW_BEGIN) + UNI_HALF_BASE).

(** [err] and the encoding of a character; [None] returns [UNICODE_ERROR]. *)
Definition put16to8 (mode : Z) (ch : option Z) (w : list Z * nat) : option (list Z * nat) :=
  match (match ch with Some ch => match utf8_size ch with Some n => Some (ch, n) | None => None end | None => None end) with
  | Some (ch, dst_size) =>
      let dst := (w.2 + dst_size)%nat in Some (put8_back dst_size dst_size ch w.1 dst, dst)
  | None => if has mode UNICODE_F_NOFAIL then Some (out UNICODE_REPLACEMENT w) else None
  end.

Fixpoint utf16to8_loop (fuel : nat) (mode : Z) (iter : list Z) (w : list Z * nat) (state : mbstate)
    : converted :=
  match fuel, iter with
  | _, [] => loop_end mode w state []
  | O, _ => Endless
  | S fuel, ch :: iter =>
      if (ch =? 0) && has mode UNICODE_F_STOPONNUL then loop_end mode w state iter else
      let put ch iter :=
        match put16to8 mode ch w with
        | None => Malformed w.1 (has mode UNICODE_F_SETERRNO)
        | Some w =>
            if has mode UNICODE_F_DOSINGLE then loop_end mode w state iter
            else utf16to8_loop fuel mode iter w state
        end in
      if (ch <? UNI_SURROGATE_HIGH_BEGIN) || (UNI_SURROGATE_HIGH_END <? ch) then put None iter
      else
        match iter with
        | ch2 :: iter' => if is_low ch2 then put (Some (combine16 ch ch2)) iter' else put None iter
        | [] => GOTO_DONE mode w (mk_mbstate 2 ch) []
        end
  end.

Definition libc_utf16to8 (utf16 : list Z) (buf : list Z) (state : mbstate) (mode : Z) : converted :=
  let fuel := S (length utf16) in
  if mb_count state =? 0 then utf16to8_loop fuel mode utf16 (buf, O) state
  else
    match utf16 with
    | [] => GOTO_DONE mode (buf, O) state []
    | ch2 :: iter' =>
        let state := mk_mbstate 0 (mb_wch state) in
        let (ch, iter) :=
          if is_low ch2 then (Some (combine16 (mb_wch state) ch2), iter') else (None, utf16) in
        match put16to8 mode ch (buf, O) with
        | None => Malformed buf (has mode UNICODE_F_SETERRNO)
        | Some w =>
            if has mode UNICODE_F_DOSINGLE then loop_end mode w state iter
            else utf16to8_loop fuel mode iter w state
        end
    end.

(** ** Printing wide strings

    A printer takes a closure and bytes, and returns a result with the next
    closure.  The results are the sum or the first negative one, whether [errno]
    was set, and the closure. *)

Section Printing.

Context {A : Type}.
Variable printer : A -> list Z -> Z * A.

(** The bytes [libc_format_32wsztomb] stores, in its order. *)
Fixpoint bytes32 (dst_size n : nat) (ch : Z) : list Z :=
  match n with
  | O => []
  | 1%nat => [lead_byte dst_size ch]
  | S n => trail_byte ch :: bytes32 dst_size n (Z.shiftr ch 6)
  end.

Fixpoint libc_format_32wsztomb (closure : A) (c32 : list Z) (mode result : Z) : Z * bool * A :=
  match c32 with
  | [] => (result, false, closure)
  | ch :: c32 =>
      let buf :=
        match (if is_surrogate ch then None else utf8_size ch) with
        | Some dst_size => Some (bytes32 dst_size dst_size ch)
        | None => if has mode UNICODE_F_NOFAIL then Some [UNICODE_REPLACEMENT] else None
        end in
      match buf with
      | None => (-1, true, closure)
      | Some buf =>
          let (temp, closure) := printer closure buf in
          if temp <? 0 then (temp, false, closure)
          else libc_format_32wsztomb closure c32 mode (result + temp)
      end
  end.

(** What [libc_format_16wsztomb] prints of a character: [iter] is back at the start
    of the buffer, so that [iter - buf] is 0. *)
Definition printed16 (mode : Z) (ch : option Z) : option (list Z) :=
  match (match ch with Some ch => utf8_size ch | None => None end) with
  | Some _ => Some []
  | None => if has mode UNICODE_F_NOFAIL then Some [UNICODE_REPLACEMENT] else None
  end.

Fixpoint format16_loop (fuel : nat) (closure : A) (c16 : list Z) (ps : mbstate) (mode result : Z)
    : option (Z * bool * A * mbstate) :=
  match fuel, c16 with
  | _, [] => Some (result, false, closure, ps)
  | O, _ => None
  | S fuel, ch :: c16 =>
      let print ch c16 :=
        match printed16 mode ch with
        | None => Some (-1, true, closure, ps)
        | Some buf =>
            let (temp, closure) := printer closure buf in
            if temp <? 0 then Some (temp, false, closure, ps)
            else format16_loop fuel closure c16 ps mode (result + temp)
        end in
      if (ch <? UNI_SURROGATE_HIGH_BEGIN) || (UNI_SURROGATE_HIGH_END <? ch) then print None c16
      else
        match c16 with
        | ch2 :: c16' => if is_low ch2 then print (Some (combine16 ch ch2)) c16' else print None c16
        | [] => Some (result, false, closure, mk_mbstate 2 ch)
        end
  end.
Definition libc_format_16wsztomb (closure : A) (c16 : list Z) (ps : mbstate) (mode : Z)
    : option (Z * bool * A * mbstate) :=
  let fuel := S (length c16) in
  if mb_count ps =? 0 then format16_loop fuel closure c16 ps mode 0
  else
    match c16 with
    | [] => Some (0, false, closure, ps)
    | ch2 :: c16' =>
        let ps := mk_mbstate 0 (mb_wch ps) in
        let (ch, c16) := if is_low ch2 then (Some (combine16 (mb_wch ps) ch2), c16') else (None, c16) in
        match printed16 mode ch with
        | None => Some (-1, true, closure, ps)
        | Some buf =>
            let (temp, closure) := printer closure buf in
            if temp <? 0 then Some (temp, false, closure, ps)
            else format16_loop fuel closure c16 ps mode temp
        end
    end.

End Printing.

(** ** Conversion into allocated strings

    [junk] is what fresh memory holds, [reallocs] are the results of the calls of
    [libc_realloc].  [None] is a null pointer. *)

Definition resize (junk : Z) (n : nat) (buf : list Z) : list Z :=
  take n buf ++ replicate (n - length buf) junk.

Fixpoint ms_loop (conv : list Z -> outcome converted) (junk : Z) (reallocs : list bool) (buf : list Z)
    : outcome (option (list Z)) :=
  let! r := conv buf in
  match r with
  | Endless => Abort
  | Malformed _ _ => Ret None
  | Converted reqlen buf _ _ =>
      if reqlen =? zlen buf then Ret (Some buf)
      else
        match reallocs with
        | [] | false :: _ => Ret None
        | true :: reallocs =>
            let result := resize junk (Z.to_nat reqlen) buf in
            if zlen buf <? reqlen then ms_loop conv junk reallocs result else Ret (Some result)
        end
  end.

Definition libc_utf8to16ms (malloc : bool) (junk : Z) (reallocs : list bool) (utf8 : list Z)
    : outcome (option (list Z)) :=
  let n := length utf8 in
  if negb malloc then Ret None
  else ms_loop (fun buf => libc_utf8to16 n utf8 buf MBSTATE_INIT 0) junk reallocs
         (replicate (n + n / 3 + 1) junk).
Definition libc_utf8to32ms (malloc : bool) (junk : Z) (reallocs : list bool) (utf8 : list Z)
    : outcome (option (list Z)) :=
  let n := length utf8 in
  if negb malloc then Ret None
  else ms_loop (fun buf => libc_utf8to32 n utf8 buf MBSTATE_INIT 0) junk reallocs
         (replicate (n + n / 3 + 1) junk).
Definition libc_utf16to8ms (malloc : bool) (junk : Z) (reallocs : list bool) (utf16 : list Z)
    : outcome (option (list Z)) :=
  if negb malloc then Ret None
  else ms_loop (fun buf => Ret (libc_utf16to8 utf16 buf MBSTATE_INIT 0)) junk reallocs
         (replicate (length utf16 + 1) junk).
Definition libc_utf32to8ms (malloc : bool) (junk : Z) (reallocs : list bool) (utf32 : list Z)
    : outcome (option (list Z)) :=
  if negb malloc then Ret None
  else ms_loop (fun buf => Ret (libc_utf32to8 utf32 buf MBSTATE_INIT 0)) junk reallocs
         (replicate (length utf32 + 1) junk).

(** ** The encodings *)

Definition scalar (cp : Z) : Prop := 0 <= cp <= 0x10ffff /\ ~ 0xd800 <= cp <= 0xdfff.
Definition byte_ok (b : Z) : Prop := 0 <= b < 256.

Definition utf8_encode (cp : Z) : list Z :=
  if cp <? 0x80 then [cp]
  else if cp <? 0x800 then [0xC0 + cp / 64; 0x80 + cp mod 64]
  else if cp <? 0x10000 then [0xE0 + cp / 4096; 0x80 + cp / 64 mod 64; 0x80 + cp mod 64]
  else [0xF0 + cp / 262144; 0x80 + cp / 4096 mod 64; 0x80 + cp / 64 mod 64; 0x80 + cp mod 64].
Definition utf16_encode (cp : Z) : list Z :=
  if cp <? 0x10000 then [cp]
  else [0xd800 + (cp - 0x10000) / 1024; 0xdc00 + (cp - 0x10000) mod 1024].

Definition utf8 (cps : list Z) : list Z := mjoin (utf8_encode <$> cps).
Definition utf16 (cps : list Z) : list Z := mjoin (utf16_encode <$> cps).

Lemma utf8_cons cp cps : utf8 (cp :: cps) = utf8_encode cp ++ utf8 cps.
Proof. done. Qed.
Lemma utf16_cons cp cps : utf16 (cp :: cps) = utf16_encode cp ++ utf16 cps.
Proof. done. Qed.

(** The bytes a lead byte asks for. *)
Definition trailing (b : Z) : Z :=
  if b <? 192 then 0 else if b <? 224 then 1 else if b <? 240 then 2
  else if b <? 248 then 3 else if b <? 252 then 4 else 5.

Lemma trailing_table : forallb (fun b => utf8_trailing_bytes !!! Z.to_nat b =? trailing b) (seqZ 0 256) = true.
Proof. vm_compute. done. Qed.

Lemma trailing_spec b : byte_ok b -> utf8_trailing_bytes !!! Z.to_nat b = trailing b.
Proof.
  intros Hb. pose proof trailing_table as H. rewrite forallb_forall in H. apply Z.eqb_eq, H.
  apply list_elem_of_In, elem_of_seqZ. unfold byte_ok in Hb. lia.
Qed.

(** [accum] in arithmetic, for at most four bytes. *)
Lemma accum_1 b l : byte_ok b -> accum 0 0 (b :: l) = (b, l).
Proof. unfold byte_ok. intros. simpl. unfold u32. rewrite Z.mod_small by lia. done. Qed.

Lemma u32_small x : 0 <= x < 2 ^ 32 -> u32 x = x.
Proof. apply Z.mod_small. Qed.

Ltac accum_tac :=
  unfold byte_ok in *; intros; cbn [accum];
  rewrite ?Z.shiftl_mul_pow2 by lia; unfold u32; change (2 ^ 32) with 4294967296;
  change (2 ^ 6) with 64; f_equal; mlia.

Lemma accum_2 b0 b1 l : byte_ok b0 -> byte_ok b1 -> accum 1 0 (b0 :: b1 :: l) = (b0 * 64 + b1, l).
Proof. accum_tac. Qed.
Lemma accum_3 b0 b1 b2 l :
  byte_ok b0 -> byte_ok b1 -> byte_ok b2 ->
  accum 2 0 (b0 :: b1 :: b2 :: l) = (b0 * 4096 + b1 * 64 + b2, l).
Proof. accum_tac. Qed.
Lemma accum_4 b0 b1 b2 b3 l :
  byte_ok b0 -> byte_ok b1 -> byte_ok b2 -> byte_ok b3 ->
  accum 3 0 (b0 :: b1 :: b2 :: b3 :: l) = (b0 * 262144 + b1 * 4096 + b2 * 64 + b3, l).
Proof. accum_tac. Qed.

(** The character a complete sequence stands for. *)
Definition decoded (ch src_size : Z) : Z := u32 (ch - utf8_offsets !!! Z.to_nat src_size).

(** Splits on the comparisons of the goal that [lia] does not decide. *)
Ltac decide_cmp :=
  repeat match goal with
  | |- context [?x <? ?y] => destruct (Z.ltb_spec x y); try lia
  | |- context [?x <=? ?y] => destruct (Z.leb_spec x y); try lia
  | |- context [?x =? ?y] => destruct (Z.eqb_spec x y); try lia
  end.

(** The well-formed sequences of each length. *)
Definition trail (b : Z) : Prop := 0x80 <= b <= 0xBF.
Definition wf2 (b0 b1 : Z) : Prop := 0xC2 <= b0 <= 0xDF /\ trail b1.
Definition wf3 (b0 b1 b2 : Z) : Prop :=
  0xE0 <= b0 <= 0xEF /\ trail b1 /\ trail b2 /\ (b0 = 0xE0 -> 0xA0 <= b1) /\ (b0 = 0xED -> b1 <= 0x9F).
Definition wf4 (b0 b1 b2 b3 : Z) : Prop :=
  0xF0 <= b0 <= 0xF4 /\ trail b1 /\ trail b2 /\ trail b3 /\
  (b0 = 0xF0 -> 0x90 <= b1) /\ (b0 = 0xF4 -> b1 <= 0x8F).

Lemma check_1 b l : byte_ok b -> b < 192 -> libc_utf8_check (b :: l) 1 = (b <? 0x80).
Proof. unfold byte_ok. intros. unfold libc_utf8_check. simpl. decide_cmp; done. Qed.

Lemma check_2 b0 b1 l :
  byte_ok b0 -> byte_ok b1 -> 192 <= b0 < 224 ->
  libc_utf8_check (b0 :: b1 :: l) 2 = true <-> wf2 b0 b1.
Proof.
  unfold byte_ok, wf2, trail. intros. unfold libc_utf8_check, trail_ok. simpl.
  decide_cmp; simpl; split; intros; try done; lia.
Qed.

Lemma check_3 b0 b1 b2 l :
  byte_ok b0 -> byte_ok b1 -> byte_ok b2 -> 224 <= b0 < 240 ->
  libc_utf8_check (b0 :: b1 :: b2 :: l) 3 = true <-> wf3 b0 b1 b2.
Proof.
  unfold byte_ok, wf3, trail. intros. unfold libc_utf8_check, trail_ok. simpl.
  decide_cmp; simpl; split; intros; try done; lia.
Qed.

Lemma check_4 b0 b1 b2 b3 l :
  byte_ok b0 -> byte_ok b1 -> byte_ok b2 -> byte_ok b3 -> 240 <= b0 < 248 ->
  libc_utf8_check (b0 :: b1 :: b2 :: b3 :: l) 4 = true <-> wf4 b0 b1 b2 b3.
Proof.
  unfold byte_ok, wf4, trail. intros. unfold libc_utf8_check, trail_ok. simpl.
  decide_cmp; simpl; split; intros; try done; lia.
Qed.

(** A well-formed sequence and the character it stands for. *)
Definition wf_seq (l : list Z) : Prop :=
  match l with
  | [b0] => 0 <= b0 < 0x80
  | [b0; b1] => wf2 b0 b1
  | [b0; b1; b2] => wf3 b0 b1 b2
  | [b0; b1; b2; b3] => wf4 b0 b1 b2 b3
  | _ => False
  end.
Definition value (l : list Z) : Z :=
  match l with
  | [b0] => b0
  | [b0; b1] => (b0 - 0xC0) * 64 + (b1 - 0x80)
  | [b0; b1; b2] => (b0 - 0xE0) * 4096 + (b1 - 0x80) * 64 + (b2 - 0x80)
  | [b0; b1; b2; b3] => (b0 - 0xF0) * 262144 + (b1 - 0x80) * 4096 + (b2 - 0x80) * 64 + (b3 - 0x80)
  | _ => 0
  end.

Lemma encode_wf cp : scalar cp -> wf_seq (utf8_encode cp) /\ value (utf8_encode cp) = cp.
Proof.
  intros [Hc Hs]. unfold utf8_encode. decide_cmp; simpl; unfold wf2, wf3, wf4, trail.
  - lia.
  - split; mlia.
  - split; [|mlia]. repeat split; mlia.
  - split; [|mlia]. repeat split; mlia.
Qed.

Lemma wf_encode l : wf_seq l -> scalar (value l) /\ utf8_encode (value l) = l.
Proof.
  intros Hw. unfold scalar, utf8_encode.
  destruct l as [|b0 [|b1 [|b2 [|b3 [|b4 l]]]]]; simpl in Hw |- *; try done;
    unfold wf2, wf3, wf4, trail in Hw.
  - decide_cmp. split; [lia|done].
  - decide_cmp. split; [lia|]. repeat f_equal; mlia.
  - decide_cmp. split; [lia|]. repeat f_equal; mlia.
  - decide_cmp. split; [lia|]. repeat f_equal; mlia.
Qed.

(** A well-formed sequence has the length its lead byte asks for. *)
Lemma wf_length b l : wf_seq (b :: l) -> zlen l = trailing b /\ byte_ok b.
Proof.
  unfold trailing, byte_ok, zlen.
  destruct l as [|b1 [|b2 [|b3 [|b4 l]]]]; simpl; unfold wf2, wf3, wf4; intros Hw; try done;
    decide_cmp; lia.
Qed.

Lemma fetch_wf b l rest :
  wf_seq (b :: l) ->
  exists ch src_size, fetch b ((b :: l) ++ rest) = Ret (Got ch src_size rest) /\
    decoded ch src_size = value (b :: l).
Proof.
  intros Hw. destruct (wf_length b l Hw) as [Hlen Hb].
  unfold fetch. rewrite trailing_spec, <- Hlen by done.
  rewrite (proj2 (Z.ltb_ge _ _)) by (unfold zlen; simpl; rewrite length_app; lia).
  unfold decoded, u32. change (2 ^ 32) with 4294967296.
  destruct l as [|b1 [|b2 [|b3 [|b4 l]]]]; try done; simpl in Hw; cbn [app].
  - rewrite check_1 by (done || lia). rewrite (proj2 (Z.ltb_lt _ _)) by lia.
    eexists _, _. split; [by rewrite accum_1|]. simpl. mlia.
  - change (zlen [b1]) with 1. change (1 + 1) with 2.
    assert (byte_ok b1) by (unfold byte_ok, wf2, trail in *; lia).
    rewrite (proj2 (check_2 b b1 rest Hb H ltac:(unfold wf2 in Hw; lia)) Hw).
    eexists _, _. split; [by rewrite accum_2|]. unfold wf2, trail in Hw. simpl. mlia.
  - change (zlen [b1; b2]) with 2. change (2 + 1) with 3.
    assert (byte_ok b1 /\ byte_ok b2) as [H1 H2] by (unfold byte_ok, wf3, trail in *; lia).
    rewrite (proj2 (check_3 b b1 b2 rest Hb H1 H2 ltac:(unfold wf3 in Hw; lia)) Hw).
    eexists _, _. split; [by rewrite accum_3|]. unfold wf3, trail in Hw. simpl. mlia.
  - change (zlen [b1; b2; b3]) with 3. change (3 + 1) with 4.
    assert (byte_ok b1 /\ byte_ok b2 /\ byte_ok b3) as (H1 & H2 & H3) by (unfold byte_ok, wf4, trail in *; lia).
    rewrite (proj2 (check_4 b b1 b2 b3 rest Hb H1 H2 H3 ltac:(unfold wf4 in Hw; lia)) Hw).
    eexists _, _. split; [by rewrite accum_4|]. unfold wf4, trail in Hw. simpl. mlia.
Qed.

(** Enough bytes that are not well-formed are refused. *)
Lemma fetch_bad b l :
  Forall byte_ok (b :: l) -> trailing b <= zlen l ->
  ~ wf_seq (b :: take (Z.to_nat (trailing b)) l) -> fetch b (b :: l) = Ret (Bad (b :: l)).
Proof.
  intros Hall Hlen Hw. apply Forall_cons in Hall as [Hb Hl]. unfold fetch.
  rewrite trailing_spec by done.
  rewrite (proj2 (Z.ltb_ge _ _)) by (unfold zlen in *; simpl; lia).
  replace (libc_utf8_check (b :: l) (trailing b + 1)) with false; [done|]. symmetry.
  apply not_true_is_false. intros Hc. apply Hw. revert Hlen Hc. unfold trailing, zlen.
  decide_cmp; intros Hlen Hc; simpl.
  - rewrite check_1 in Hc by done. bsimp. unfold byte_ok in Hb. lia.
  - destruct l as [|b1 l]; [simpl in Hlen; lia|]. apply Forall_cons in Hl as [H1 _].
    simpl. by apply (check_2 b b1 l) in Hc.
  - destruct l as [|b1 [|b2 l]]; [simpl in Hlen; lia..|]. rewrite !Forall_cons in Hl.
    simpl. apply (check_3 b b1 b2 l) in Hc; [done|done|tauto..|done].
  - destruct l as [|b1 [|b2 [|b3 l]]]; [simpl in Hlen; lia..|]. rewrite !Forall_cons in Hl.
    simpl. apply (check_4 b b1 b2 b3 l) in Hc; [done|done|tauto..|done].
  - by unfold libc_utf8_check in Hc.
  - by unfold libc_utf8_check in Hc.
Qed.

(** The bytes of an incomplete character as it is kept: six bits apart, the last one not shifted. *)
Definition kept (l : list Z) : Z := foldl (fun ch b => (ch * 64 + b) mod 2 ^ 32) 0 l.

Lemma accum_kept ch b l : accum (length l) ch (b :: l) = (foldl (fun ch b => (ch * 64 + b) mod 2 ^ 32) ((ch + b) mod 2 ^ 32) l, []).
Proof.
  revert ch b. induction l as [|c l IH]; intros ch b; [done|]. cbn [length accum]. rewrite IH. cbn [foldl]. do 2 f_equal.
  unfold u32. rewrite Z.shiftl_mul_pow2 by lia. change (2 ^ 6) with 64. by rewrite Zplus_mod_idemp_l.
Qed.

(** Too few bytes are kept in the state. *)
Lemma fetch_partial b l :
  byte_ok b -> zlen l < trailing b ->
  fetch b (b :: l) = Ret (Partial (MBSTATE_SETCOUNT (trailing b - zlen l) (trailing b) (kept (b :: l))) []).
Proof.
  intros Hb Hlen. unfold fetch. rewrite trailing_spec by done.
  assert (zlen (b :: l) = zlen l + 1) as E by (unfold zlen; simpl; lia). rewrite E.
  pose proof (zlen_nonneg l). assert (trailing b <= 5) by (unfold trailing; repeat bcase; lia).
  rewrite (proj2 (Z.ltb_lt _ _)), (proj2 (Z.leb_le _ _)), (proj2 (Z.eqb_neq _ 0)) by lia. cbn [oassert negb].
  replace (Z.to_nat (zlen l + 1 - 1)) with (length l) by (unfold zlen; lia). rewrite accum_kept.
  by replace (trailing b + 1 - (zlen l + 1)) with (trailing b - zlen l) by lia.
Qed.

(** ** The decoders *)

(** Bytes at which no character starts. *)
Definition stuck (l : list Z) : Prop := forall cp l', scalar cp -> l <> utf8_encode cp ++ l'.

Lemma stuck_nil : stuck [].
Proof.
  intros cp l' Hc E. destruct (encode_wf cp Hc) as [Hw _]. by destruct (utf8_encode cp).
Qed.

Lemma stuck_wf b l : stuck (b :: l) <-> ~ (trailing b <= zlen l /\ wf_seq (b :: take (Z.to_nat (trailing b)) l)).
Proof.
  split.
  - intros Hs [_ Hw]. destruct (wf_encode _ Hw) as [Hc He].
    apply (Hs _ (drop (Z.to_nat (trailing b)) l) Hc). rewrite He. simpl. by rewrite take_drop.
  - intros Hn cp l' Hc E. apply Hn. destruct (encode_wf cp Hc) as [Hw _].
    destruct (utf8_encode cp) as [|b' t]; [done|]. simpl in E. injection E as <- ->.
    destruct (wf_length b t Hw) as [Hl _]. unfold zlen in *. rewrite length_app. split; [lia|].
    by rewrite <- Hl, Nat2Z.id, take_app_length.
Qed.

#[local] Instance wf_seq_dec l : Decision (wf_seq l).
Proof.
  destruct l as [|b0 [|b1 [|b2 [|b3 [|b4 l]]]]]; unfold wf_seq, wf2, wf3, wf4, trail; apply _.
Defined.

(** Whether a character starts at [l] can be decided. *)
Lemma stuck_dec l : (exists cp l', scalar cp /\ l = utf8_encode cp ++ l') \/ stuck l.
Proof.
  destruct l as [|b l].
  { right. apply stuck_nil. }
  destruct (decide (trailing b <= zlen l /\ wf_seq (b :: take (Z.to_nat (trailing b)) l))) as [[Hl Hw]|Hn].
  - left. destruct (wf_encode _ Hw) as [Hc He]. eexists _, (drop (Z.to_nat (trailing b)) l).
    split; [exact Hc|]. rewrite He. simpl. by rewrite take_drop.
  - right. by apply stuck_wf.
Qed.

(** Every input is a text, the longest one it starts with, and bytes at which no
    character starts. *)
Lemma utf8_split l :
  Forall byte_ok l ->
  exists cps rest, Forall scalar cps /\ stuck rest /\ Forall byte_ok rest /\ l = utf8 cps ++ rest.
Proof.
  remember (length l) as n eqn:E. assert (length l <= n)%nat as Hn by lia. clear E.
  revert l Hn. induction n as [|n IH]; intros l Hn Hb.
  { destruct l; [|simpl in Hn; lia]. exists [], []. auto using stuck_nil. }
  destruct (stuck_dec l) as [(cp & l' & Hc & ->)|Hs].
  - apply Forall_app in Hb as [_ Hb]. destruct (IH l') as (cps & rest & H1 & H2 & H3 & ->); auto.
    { rewrite length_app in Hn. destruct (encode_wf cp Hc) as [Hw _].
      destruct (utf8_encode cp); [done|]. simpl in Hn. lia. }
    exists (cp :: cps), rest. repeat split; auto. unfold utf8. simpl. by rewrite <- app_assoc.
  - exists [], l. repeat split; auto.
Qed.

(** What storing [ws] makes of a buffer. *)
Definition fill (buf ws : list Z) : list Z := take (length buf) ws ++ drop (length ws) buf.
Definition outs (ws : list Z) (w : list Z * nat) : list Z * nat := foldl (fun w ch => out ch w) w ws.

Lemma fill_length buf ws : length (fill buf ws) = length buf.
Proof. unfold fill. rewrite length_app, length_take, length_drop. lia. Qed.

Lemma outs_app ws ws' w : outs (ws ++ ws') w = outs ws' (outs ws w).
Proof. apply foldl_app. Qed.

Lemma outs_fill buf ws : outs ws (buf, O) = (fill buf ws, length ws).
Proof.
  induction ws as [|ch ws IH] using rev_ind.
  { unfold fill. simpl. by rewrite take_nil, drop_0. }
  unfold outs in *. rewrite foldl_app, IH. unfold out. simpl. rewrite length_app. simpl.
  f_equal; [|lia]. unfold fill. rewrite length_app. simpl.
  destruct (decide (length ws < length buf)%nat).
  - rewrite (take_ge ws), (take_ge (ws ++ _)) by (rewrite ?length_app; simpl; lia).
    destruct (drop (length ws) buf) as [|x d] eqn:E.
    { apply (f_equal length) in E. rewrite length_drop in E. simpl in E. lia. }
    rewrite insert_app_r_alt, Nat.sub_diag by lia. simpl. rewrite <- app_assoc. simpl.
    replace (drop (length ws + 1) buf) with d; [done|].
    rewrite <- drop_drop, E. done.
  - rewrite !(drop_ge buf), !app_nil_r by lia. rewrite take_app_le by lia.
    apply list_insert_ge. rewrite length_take. lia.
Qed.

(** How a decoder ends at the bytes at which no character starts: the buffer has
    the units [ws].  Fewer bytes than the first one announces are kept in the state, also when
    no character begins with them; others are malformed. *)
Definition ends (buf ws rest : list Z) (r : outcome converted) : Prop :=
  match rest with
  | [] => r = Ret (Converted (zlen ws + 1) (fill buf (ws ++ [0])) MBSTATE_INIT [])
  | b :: l =>
      if zlen l <? trailing b then
        r = Ret (Converted (zlen ws) (fill buf ws) (MBSTATE_SETCOUNT (trailing b - zlen l) (trailing b) (kept rest)) [])
      else r = Ret (Malformed (fill buf ws) false)
  end.

Lemma loop_end_outs ws buf st rest :
  loop_end 0 (outs ws (buf, O)) st rest = Converted (zlen ws + 1) (fill buf (ws ++ [0])) st rest.
Proof.
  change (loop_end 0 (outs ws (buf, O)) st rest) with
    (Converted (Z.of_nat (outs [0] (outs ws (buf, O))).2) (outs [0] (outs ws (buf, O))).1 st rest).
  rewrite <- outs_app, outs_fill, length_app. simpl. unfold zlen. f_equal. lia.
Qed.

Lemma fetch_encode cp l :
  scalar cp ->
  exists b l' ch src_size, utf8_encode cp ++ l = b :: l' /\
    fetch b (utf8_encode cp ++ l) = Ret (Got ch src_size l) /\ decoded ch src_size = cp.
Proof.
  intros Hc. destruct (encode_wf cp Hc) as [Hw Hv]. destruct (utf8_encode cp) as [|b t]; [done|].
  destruct (fetch_wf b t l Hw) as (ch & n & Hf & Hd). exists b, (t ++ l), ch, n.
  split_and!; [done..|]. congruence.
Qed.

Lemma got_char32_scalar ch n : scalar (decoded ch n) -> got_char32 ch n = Some (decoded ch n).
Proof.
  unfold got_char32. fold (decoded ch n). generalize (decoded ch n). intros cp [H1 H2].
  unfold UNI_MAX_LEGAL_UTF32, UNI_SURROGATE_HIGH_BEGIN, UNI_SURROGATE_LOW_END. decide_cmp; done.
Qed.

Lemma utf8to32_text fuel cps rest w :
  Forall scalar cps ->
  utf8to32_loop (length cps + fuel) 0 (utf8 cps ++ rest) w MBSTATE_INIT
  = utf8to32_loop fuel 0 rest (outs cps w) MBSTATE_INIT.
Proof.
  intros Hc. revert w. induction Hc as [|cp cps Hc _ IH]; intros w; [done|].
  rewrite utf8_cons, <- app_assoc.
  destruct (fetch_encode cp (utf8 cps ++ rest) Hc) as (b & l' & ch & n & El & Hf & Hd).
  simpl length. rewrite El in Hf |- *. cbn [Nat.add utf8to32_loop]. rewrite Hf.
  subst cp. cbn. rewrite got_char32_scalar by done. apply IH.
Qed.

Lemma utf8to32_rest fuel buf ws rest :
  stuck rest -> Forall byte_ok rest -> (length rest <= fuel)%nat ->
  ends buf ws rest (utf8to32_loop fuel 0 rest (outs ws (buf, O)) MBSTATE_INIT).
Proof.
  intros Hs Hb Hf. destruct rest as [|b l].
  { destruct fuel; apply (f_equal Ret), loop_end_outs. }
  destruct fuel as [|fuel]; [simpl in Hf; lia|]. simpl ends. rewrite outs_fill.
  cbn [utf8to32_loop]. destruct (Z.ltb_spec (zlen l) (trailing b)) as [Hl|Hl].
  - rewrite fetch_partial; [done|by inversion Hb|done].
  - rewrite fetch_bad; [done|done|done|]. intros Hw. by apply (proj1 (stuck_wf b l) Hs).
Qed.

Lemma got_char16_scalar mode w st iter ch n :
  has mode UNICODE_F_UTF16HALF = false -> scalar (decoded ch n) ->
  put_units mode w st iter n (got_char16 ch n) = inr (outs (utf16_encode (decoded ch n)) w).
Proof.
  unfold got_char16. fold (decoded ch n). generalize (decoded ch n). intros cp Hm [H1 H2].
  unfold utf16_encode, UNI_MAX_BMP, UNI_MAX_UTF16, UNI_SURROGATE_HIGH_BEGIN, UNI_SURROGATE_LOW_END.
  decide_cmp; simpl; [done..|].
  unfold high_unit, low_unit, UNI_HALF_BASE, UNI_HALF_SHIFT, UNI_HALF_MASK.
  unfold UNI_SURROGATE_HIGH_BEGIN, UNI_SURROGATE_LOW_BEGIN.
  rewrite Z.shiftr_div_pow2 by lia. change (2 ^ 10) with 1024.
  change 0x3ff with (Z.ones 10). rewrite Z.land_ones by lia. change (2 ^ 10) with 1024.
  rewrite (Z.add_comm (_ / 1024)), (Z.add_comm (_ mod 1024)), Hm.
  destruct (Nat.ltb_spec (S w.2) (length (<[w.2:=0xd800 + (cp - 0x10000) / 1024]> w.1))) as [Hl|Hl];
    [done|]. unfold outs, out. simpl. by rewrite (list_insert_ge _ (S w.2)).
Qed.

Lemma utf8to16_text fuel cps rest w :
  Forall scalar cps ->
  utf8to16_loop (length cps + fuel) 0 (utf8 cps ++ rest) w MBSTATE_INIT
  = utf8to16_loop fuel 0 rest (outs (utf16 cps) w) MBSTATE_INIT.
Proof.
  intros Hc. revert w. induction Hc as [|cp cps Hc _ IH]; intros w; [done|].
  rewrite utf8_cons, utf16_cons, outs_app, <- app_assoc.
  destruct (fetch_encode cp (utf8 cps ++ rest) Hc) as (b & l' & ch & n & El & Hf & Hd).
  simpl length. rewrite El in Hf |- *. cbn [Nat.add utf8to16_loop]. rewrite Hf.
  subst cp. cbn [has]. cbn -[put_units outs]. rewrite got_char16_scalar by done. apply IH.
Qed.

Lemma utf8to16_rest fuel buf ws rest :
  stuck rest -> Forall byte_ok rest -> (length rest <= fuel)%nat ->
  ends buf ws rest (utf8to16_loop fuel 0 rest (outs ws (buf, O)) MBSTATE_INIT).
Proof.
  intros Hs Hb Hf. destruct rest as [|b l].
  { destruct fuel; apply (f_equal Ret), loop_end_outs. }
  destruct fuel as [|fuel]; [simpl in Hf; lia|]. simpl ends. rewrite outs_fill.
  cbn [utf8to16_loop]. destruct (Z.ltb_spec (zlen l) (trailing b)) as [Hl|Hl].
  - rewrite fetch_partial; [done|by inversion Hb|done].
  - rewrite fetch_bad; [done|done|done|]. intros Hw. by apply (proj1 (stuck_wf b l) Hs).
Qed.

Lemma length_utf8 cps : Forall scalar cps -> (length cps <= length (utf8 cps))%nat.
Proof.
  induction 1 as [|cp cps Hc _ IH]; [done|]. rewrite utf8_cons, length_app. simpl.
  destruct (encode_wf cp Hc) as [Hw _]. destruct (utf8_encode cp); [done|]. simpl. lia.
Qed.

Lemma length_utf16 cps : (length (utf16 cps) <= length (utf8 cps))%nat.
Proof.
  induction cps as [|cp cps IH]; [done|]. rewrite utf8_cons, utf16_cons, !length_app.
  unfold utf8_encode, utf16_encode. repeat bcase; simpl; lia.
Qed.

(** The decoders on any text with any bytes behind it at which no character
    starts, and any fuel that covers the input. *)
Lemma utf8to32_ends fuel cps rest buf :
  Forall scalar cps -> Forall byte_ok rest -> stuck rest -> (length (utf8 cps ++ rest) <= fuel)%nat ->
  ends buf cps rest (libc_utf8to32 fuel (utf8 cps ++ rest) buf MBSTATE_INIT 0).
Proof.
  intros Hc Hb Hs Hf. rewrite length_app in Hf. pose proof (length_utf8 cps Hc).
  change (libc_utf8to32 fuel (utf8 cps ++ rest) buf MBSTATE_INIT 0) with
    (utf8to32_loop fuel 0 (utf8 cps ++ rest) (buf, O) MBSTATE_INIT).
  replace fuel with (length cps + (fuel - length cps))%nat by lia.
  rewrite utf8to32_text by done. apply utf8to32_rest; [done|done|lia].
Qed.

Lemma utf8to16_ends fuel cps rest buf :
  Forall scalar cps -> Forall byte_ok rest -> stuck rest -> (length (utf8 cps ++ rest) <= fuel)%nat ->
  ends buf (utf16 cps) rest (libc_utf8to16 fuel (utf8 cps ++ rest) buf MBSTATE_INIT 0).
Proof.
  intros Hc Hb Hs Hf. rewrite length_app in Hf. pose proof (length_utf8 cps Hc).
  change (libc_utf8to16 fuel (utf8 cps ++ rest) buf MBSTATE_INIT 0) with
    (utf8to16_loop fuel 0 (utf8 cps ++ rest) (buf, O) MBSTATE_INIT).
  replace fuel with (length cps + (fuel - length cps))%nat by lia.
  rewrite utf8to16_text by done. apply utf8to16_rest; [done|done|lia].
Qed.

Lemma fill_fits buf ws : (length ws <= length buf)%nat -> take (length ws) (fill buf ws) = ws.
Proof. intros H. unfold fill. rewrite (take_ge ws) by lia. apply take_app_length. Qed.

(** A conversion that fits into the first buffer. *)
Lemma ms_loop_fits conv junk reallocs buf ws st r :
  conv buf = Ret (Converted (zlen ws) (fill buf ws) st r) -> (length ws <= length buf)%nat ->
  ms_loop conv junk (true :: reallocs) buf = Ret (Some ws).
Proof.
  intros E Hl. simpl. rewrite E. cbn [obind]. unfold zlen. rewrite fill_length.
  destruct (Z.eqb_spec (Z.of_nat (length ws)) (Z.of_nat (length buf))) as [El|El].
  - do 2 f_equal. rewrite <- (fill_fits buf ws Hl) at 2. rewrite take_ge; [done|].
    rewrite fill_length. lia.
  - rewrite (proj2 (Z.ltb_ge _ _)) by lia. unfold resize.
    rewrite Nat2Z.id, fill_length, fill_fits by done.
    replace (length ws - length buf)%nat with O by lia. simpl. by rewrite app_nil_r.
Qed.

(** C40: [libc_utf8to32] with mode 0 and the initial state decodes UTF-8. Every input is a text of
    Unicode scalar values with bytes behind it at which no character starts, and for every such
    splitting the buffer gets the characters of the text (as many as it has room for). At the end of
    the input the terminator follows and the number of words is returned. If there are fewer bytes
    than the first one announces, they are kept in the state, [kept] as the code has it, without a
    terminator: also bytes that begin no character, such as 0xFF, and without the shift that going
    on with the next part needs ([utf8_in_parts]). Any others are refused. *)
Theorem utf8to32_decodes input buf :
  Forall byte_ok input ->
  (exists cps rest, Forall scalar cps /\ stuck rest /\ input = utf8 cps ++ rest) /\
  forall cps rest, Forall scalar cps -> stuck rest -> input = utf8 cps ++ rest ->
    ends buf cps rest (libc_utf8to32 (length input) input buf MBSTATE_INIT 0).
Proof.
  intros Hb. split; [destruct (utf8_split input Hb) as (cps & rest & ? & ? & ? & ?); eauto|].
  intros cps rest Hc Hs ->. apply Forall_app in Hb as [_ Hb]. by apply utf8to32_ends.
Qed.

(** [libc_utf8to16] likewise stores the UTF-16 units of the text, surrogate
    pairs included, also when a pair crosses the end of the buffer. *)
Theorem utf8to16_decodes input buf :
  Forall byte_ok input ->
  (exists cps rest, Forall scalar cps /\ stuck rest /\ input = utf8 cps ++ rest) /\
  forall cps rest, Forall scalar cps -> stuck rest -> input = utf8 cps ++ rest ->
    ends buf (utf16 cps) rest (libc_utf8to16 (length input) input buf MBSTATE_INIT 0).
Proof.
  intros Hb. split; [destruct (utf8_split input Hb) as (cps & rest & ? & ? & ? & ?); eauto|].
  intros cps rest Hc Hs ->. apply Forall_app in Hb as [_ Hb]. by apply utf8to16_ends.
Qed.

(** [libc_utf8to32ms] and [libc_utf8to16ms] return exactly the terminated
    UTF-32 and UTF-16 strings of any UTF-8 text, when the allocations succeed. *)
Theorem utf8ms_decodes cps junk reallocs :
  Forall scalar cps ->
  libc_utf8to32ms true junk (true :: reallocs) (utf8 cps) = Ret (Some (cps ++ [0])) /\
  libc_utf8to16ms true junk (true :: reallocs) (utf8 cps) = Ret (Some (utf16 cps ++ [0])).
Proof.
  intros Hc. pose proof (length_utf8 cps Hc). pose proof (length_utf16 cps).
  assert (forall ws, zlen (ws ++ [0]) = zlen ws + 1) as Hz
    by (intros; unfold zlen; rewrite length_app; simpl; lia).
  unfold libc_utf8to32ms, libc_utf8to16ms. cbn [negb]. split.
  - eapply ms_loop_fits; [|rewrite length_app, length_replicate; simpl; lia].
    pose proof (utf8to32_ends (length (utf8 cps)) cps []
                  (replicate (length (utf8 cps) + length (utf8 cps) / 3 + 1) junk) Hc) as E.
    rewrite app_nil_r in E. rewrite Hz. apply E; auto using stuck_nil.
  - eapply ms_loop_fits; [|rewrite length_app, length_replicate; simpl; lia].
    pose proof (utf8to16_ends (length (utf8 cps)) cps []
                  (replicate (length (utf8 cps) + length (utf8 cps) / 3 + 1) junk) Hc) as E.
    rewrite app_nil_r in E. rewrite Hz. apply E; auto using stuck_nil.
Qed.

(** ** Where the code is not what it means to be *)

(** [libc_utf32to8] stores the bytes of U+00E9 (C3 A9) in the wrong order and with a
    gap. *)
Theorem utf32to8_reversed :
  libc_utf32to8 [0xE9] [0; 0; 0; 0; 0] MBSTATE_INIT 0
  = Converted 4 [0xA9; 0; 0xC3; 0; 0] MBSTATE_INIT [].
Proof. vm_compute. done. Qed.

(** [libc_utf16to8] refuses every text of characters that need no surrogates. *)
Theorem utf16to8_refuses ch l buf :
  0 <= ch < 0xd800 \/ 0xdc00 <= ch ->
  libc_utf16to8 (ch :: l) buf MBSTATE_INIT 0 = Malformed buf false.
Proof.
  intros H. unfold libc_utf16to8. cbn [mb_count MBSTATE_INIT Z.eqb utf16to8_loop length].
  rewrite andb_false_r. unfold UNI_SURROGATE_HIGH_BEGIN, UNI_SURROGATE_HIGH_END.
  destruct (Z.ltb_spec ch 0xd800); [done|]. rewrite (proj2 (Z.ltb_lt _ ch)) by lia. done.
Qed.

(** U+00E9 in two parts is refused at the second. *)
Theorem utf8_in_parts :
  let state := MBSTATE_SETCOUNT 1 1 0xC3 in
  libc_utf8to32 1 [0xC3] [0; 0] MBSTATE_INIT 0 = Ret (Converted 0 [0; 0] state []) /\
  libc_utf8to32 1 [0xA9] [0; 0] state 0 = Ret (Malformed [0; 0] false).
Proof. split; vm_compute; done. Qed.

(** With [UNICODE_F_NOFAIL] a malformed byte is replaced for ever. *)
Theorem nofail_endless fuel w :
  utf8to32_loop fuel UNICODE_F_NOFAIL [0xFF; 0; 0; 0; 0; 0] w MBSTATE_INIT = Ret Endless.
Proof.
  assert (fetch 0xFF [0xFF; 0; 0; 0; 0; 0] = Ret (Bad [0xFF; 0; 0; 0; 0; 0])) as E by (vm_compute; done).
  revert w. induction fuel as [|fuel IH]; intros w; [done|]. cbn [utf8to32_loop].
  rewrite E. change (has UNICODE_F_NOFAIL UNICODE_F_STOPONNUL) with false.
  cbn [andb obind or_replacement]. change (has UNICODE_F_NOFAIL UNICODE_F_NOFAIL) with true.
  change (has UNICODE_F_NOFAIL UNICODE_F_DOSINGLE) with false. cbn [andb]. apply IH.
Qed.

(** [libc_utf8to32ms] of a text cut inside a character has no terminator. *)
Theorem ms_unterminated :
  libc_utf8to32ms true 7 [true] [0x41; 0xC3] = Ret (Some [0x41]).
Proof. vm_compute. done. Qed.

(** [libc_format_16wsztomb] prints nothing of a pair, [libc_format_32wsztomb] the
    bytes of U+00E9 in the wrong order. *)
Theorem format_wrong :
  libc_format_16wsztomb (fun l b => (zlen b, l ++ b)) [] [0xd83d; 0xde00] MBSTATE_INIT 0
  = Some (0, false, [], MBSTATE_INIT) /\
  libc_format_32wsztomb (fun l b => (zlen b, l ++ b)) [] [0xE9] 0 0 = (2, false, [0xA9; 0xC3]).
Proof. split; vm_compute; done. Qed.

(** A pair cut by the end of the buffer goes on with a second high surrogate. *)
Theorem utf16half_repeats :
  exists state,
  libc_utf8to16 4 [0xF0; 0x9F; 0x98; 0x80] [0] MBSTATE_INIT UNICODE_F_UTF16HALF
  = Ret (Converted UNICODE_UTF16HALF [0xd83d] state []) /\
  libc_utf8to16 4 [] [0; 0; 0] state UNICODE_F_UTF16HALF
  = Ret (Converted 3 [0xd800; 0xde00; 0] (mk_mbstate 0 (mb_wch state)) []).
Proof. exists (MBSTATE_SETCOUNT 0 3 0x3c92280). split; vm_compute; done. Qed.

(** ** Witnesses: "A", U+00E9, U+1F600 *)

Lemma utf8to32_decodes_witness :
  libc_utf8to32 7 [0x41; 0xC3; 0xA9; 0xF0; 0x9F; 0x98; 0x80] [9; 9; 9; 9; 9] MBSTATE_INIT 0
  = Ret (Converted 4 [0x41; 0xE9; 0x1F600; 0; 9] MBSTATE_INIT []).
Proof.
  apply (proj2 (utf8to32_decodes [0x41; 0xC3; 0xA9; 0xF0; 0x9F; 0x98; 0x80] [9; 9; 9; 9; 9]
    ltac:(repeat constructor; unfold byte_ok; lia)) [0x41; 0xE9; 0x1F600] []
    ltac:(repeat constructor; unfold scalar; lia) stuck_nil eq_refl).
Defined.

(** A buffer that ends inside a pair, and an overlong sequence behind the text. *)
Lemma utf8to16_decodes_witness :
  libc_utf8to16 7 [0x41; 0xF0; 0x9F; 0x98; 0x80; 0xC0; 0x80] [9; 9] MBSTATE_INIT 0
  = Ret (Malformed [0x41; 0xd83d] false).
Proof.
  assert (stuck [0xC0; 0x80]) as Hs
    by (apply stuck_wf; intros [_ Hw]; unfold wf_seq, wf2 in Hw; simpl in Hw; lia).
  apply (proj2 (utf8to16_decodes [0x41; 0xF0; 0x9F; 0x98; 0x80; 0xC0; 0x80] [9; 9]
    ltac:(repeat constructor; unfold byte_ok; lia)) [0x41; 0x1F600] [0xC0; 0x80]
    ltac:(repeat constructor; unfold scalar; lia) Hs eq_refl).
Defined.

Lemma utf8ms_decodes_witness :
  libc_utf8to32ms true 7 [true] [0xC3; 0xA9; 0xF0; 0x9F; 0x98; 0x80] = Ret (Some [0xE9; 0x1F600; 0]) /\
  libc_utf8to16ms true 7 [true] [0xC3; 0xA9; 0xF0; 0x9F; 0x98; 0x80] = Ret (Some [0xE9; 0xd83d; 0xde00; 0]).
Proof.
  apply (utf8ms_decodes [0xE9; 0x1F600] 7 []). repeat constructor; unfold scalar; lia.
Defined.
