(* ===== verification/Calendar.v ===== *)
(** * Dates and times

    The conversions between seconds since 1970 and calendar fields: [gmtime] and [mktime]
    ([libs/libc/time.c]), the clock of the machine ([src/modules/rtc/cmos.c]) and the dates of files
    ([src/kernel/core-modules/fs/fat.c]), all on top of the same two macros
    ([include/hybrid/timeutil.h], [include/time.h]).  Converting back and forth gives the time one began
    with, up to a day or 1900 years; the calendar in between is not always the one on the wall. *)
From stdpp Require Import base numbers list.
From S2P Require Import Prelude.

(** ** Years and days *)

Definition LINUX_TIME_START_YEAR : Z := 1970.
Definition SECS_PER_DAY : Z := 86400.

(** An [int]. *)
Definition int32 (x : Z) : Z := (x + 2 ^ 31) mod 2 ^ 32 - 2 ^ 31.

Definition isleap (year : Z) : bool := (Z.rem year 4 =? 0) && (negb (Z.rem year 100 =? 0) || (Z.rem year 400 =? 0)).
(** [__daystoyears] and [__yearstodays].  The year is an [int] in libc; the types of the kernel are wider
    or not signed, which is the same for the years up to 14698. *)
Definition daystoyears (n_days : Z) : Z := Z.quot (400 * (n_days + 1)) 146097.
Definition yearstodays (n_years : Z) : Z := Z.quot (int32 (146097 * n_years)) 400.

Definition time_monthstart_yday (leap : bool) : list Z :=
  if leap then [0; 31; 60; 91; 121; 152; 182; 213; 244; 274; 305; 335; 366]
  else [0; 31; 59; 90; 120; 151; 181; 212; 243; 273; 304; 334; 365].

Definition month_start (leap : bool) (i : Z) : Z := default 0 (time_monthstart_yday leap !! Z.to_nat i).

(** The search for a month: the first one from [i] on that ends on the day or later, 12 at most. *)
Fixpoint find_month (fuel : nat) (leap : bool) (i t : Z) : Z :=
  match fuel with
  | O => i
  | S fuel => if t <=? month_start leap i then i else find_month fuel leap (i + 1) t
  end.
Definition month_of (leap : bool) (t : Z) : Z := find_month 11 leap 1 t.

(** ** libc *)

Record tm : Type := Tm {
  tm_sec : Z; tm_min : Z; tm_hour : Z; tm_mday : Z; tm_mon : Z; tm_year : Z; tm_wday : Z; tm_yday : Z; tm_isdst : Z }.

Definition tm_calc_isdst (tm_mon tm_mday tm_wday : Z) : Z :=
  if (tm_mon <? 3) || (11 <? tm_mon) then 0 else
  if (3 <? tm_mon) && (tm_mon <? 11) then 1 else
  let previousSunday := tm_mday - tm_wday in
  if tm_mon =? 3 then if 8 <=? previousSunday then 1 else 0
  else if previousSunday <=? 0 then 1 else 0.

Definition libc_dysize (year : Z) : Z := if isleap year then 366 else 365.

Definition libc_mktime64 (tp : tm) : Z :=
  (yearstodays (tm_year tp) - yearstodays LINUX_TIME_START_YEAR + tm_yday tp) * SECS_PER_DAY + tm_hour tp * 60 * 60 + tm_min tp * 60 + tm_sec tp.

Definition libc_gmtime64_r (timer : Z) : tm :=
  let t := Z.quot timer SECS_PER_DAY + yearstodays LINUX_TIME_START_YEAR in
  let wday := Z.rem t 7 in
  let year := int32 (daystoyears t) in
  let t := t - yearstodays year in
  let i := month_of (isleap year) t in
  let mday := t - month_start (isleap year) (i - 1) in
  Tm (Z.rem timer 60) (Z.rem (Z.quot timer 60) 60) (Z.rem (Z.quot timer (60 * 60)) 24)
    (int32 mday) (i - 1) (year - 1900) wday (int32 t) (tm_calc_isdst (i - 1) mday wday).

(** ** The clock of the machine *)

Definition BCD_DECODE (x : Z) : Z := Z.land x 0x0f + Z.shiftr x 4 * 10.
Definition BCD_ENCODE (x : Z) : Z := Z.lor (x mod 10) (Z.shiftl (x / 10) 4).

Definition u8 (x : Z) : Z := x mod 2 ^ 8.

Record cmos_state : Type := Cmos { cs_second : Z; cs_minute : Z; cs_hour : Z; cs_day : Z; cs_month : Z; cs_year : Z; cs_cent : Z }.

(** [cmos_get] from the registers on; [nobcd] and [is24h] are bits of [cmos_state_b], [cent_reg] whether
    there is a register for the century, and [date_year] is the year of the build. *)
Definition cmos_get (nobcd is24h cent_reg : bool) (date_year : Z) (s : cmos_state) : Z :=
  let s := if nobcd then s else
    Cmos (u8 (BCD_DECODE (cs_second s))) (u8 (BCD_DECODE (cs_minute s))) (u8 (Z.lor (BCD_DECODE (Z.land (cs_hour s) 0x7f)) (Z.land (cs_hour s) 0x80)))
      (u8 (BCD_DECODE (cs_day s))) (u8 (BCD_DECODE (cs_month s))) (u8 (BCD_DECODE (cs_year s))) (u8 (BCD_DECODE (cs_cent s))) in
  let hour := if negb is24h && negb (Z.land (cs_hour s) 0x80 =? 0) then (Z.land (cs_hour s) 0x7f + 12) mod 24 else cs_hour s in
  let cm_year := if cent_reg then cs_year s + cs_cent s * 100 else
    (if cs_year s <? date_year mod 100 then cs_year s + 100 else cs_year s) + date_year / 100 * 100 in
  if cm_year <? LINUX_TIME_START_YEAR then 0 else
  let days := yearstodays cm_year - yearstodays LINUX_TIME_START_YEAR + month_start (isleap cm_year) (Z.rem (cs_month s - 1) 12) + cs_day s in
  days * SECS_PER_DAY + hour * 60 * 60 + cs_minute s * 60 + cs_second s.

(** [cmos_set] up to the registers. *)
Definition cmos_set (nobcd is24h : bool) (tv_sec : Z) : outcome cmos_state :=
  let second := Z.rem tv_sec 60 in
  let minute := Z.rem (Z.quot tv_sec 60) 60 in
  let hour := Z.rem (Z.quot (Z.quot tv_sec 60) 60) 24 in
  let time_now := Z.quot (Z.quot (Z.quot tv_sec 60) 60) 24 + yearstodays LINUX_TIME_START_YEAR in
  let cm_year := daystoyears time_now mod 2 ^ 16 in
  let time_now := time_now - yearstodays cm_year in
  assert! time_now <=? month_start (isleap cm_year) 12;;
  let month := month_of (isleap cm_year) time_now in
  let day := u8 (time_now - month_start (isleap cm_year) (month - 1) + 1) in
  let hour := if negb is24h && (12 <=? hour) then Z.lor (hour - 12) 0x80 else hour in
  let s := Cmos second minute hour day month (cm_year mod 100) (u8 (cm_year / 100)) in
  Ret (if nobcd then s else
    Cmos (u8 (BCD_ENCODE (cs_second s))) (u8 (BCD_ENCODE (cs_minute s))) (u8 (Z.lor (BCD_ENCODE (Z.land (cs_hour s) 0x7f)) (Z.land (cs_hour s) 0x80)))
      (u8 (BCD_ENCODE (cs_day s))) (u8 (BCD_ENCODE (cs_month s))) (u8 (BCD_ENCODE (cs_year s))) (u8 (BCD_ENCODE (cs_cent s)))).

(** ** Files *)

(** [filedate_t] and [filetime_t]: bit fields. *)
Record filedate : Type := FDate { fd_day : Z; fd_month : Z; fd_year : Z }.
Record filetime : Type := FTime { ft_sec : Z; ft_min : Z; ft_hour : Z }.

Definition filedate_decodetime (self : filedate) : Z :=
  let year := fd_year self + 1980 in
  (yearstodays (year - LINUX_TIME_START_YEAR) + month_start (isleap year) (Z.rem (fd_month self - 1) 12) + (fd_day self - 1)) * SECS_PER_DAY.

Definition filedate_encodetime (tmt : Z) : filedate :=
  let tmt := Z.quot tmt SECS_PER_DAY + yearstodays LINUX_TIME_START_YEAR in
  let year := daystoyears tmt in
  let tmt := tmt - yearstodays year in
  let i := month_of (isleap year) tmt in
  FDate ((tmt - month_start (isleap year) (i - 1) + 1) mod 2 ^ 5) (i mod 2 ^ 4) ((if 1980 <? year then year - 1980 else 0) mod 2 ^ 7).

Definition filetime_decodetime (self : filetime) : Z := ft_hour self * 60 * 60 + ft_min self * 60 + ft_sec self * 2.

Definition filetime_encodetime (tmt : Z) : filetime :=
  FTime (Z.quot (Z.rem tmt 60) 2 mod 2 ^ 5) (Z.rem (Z.quot tmt 60) 60 mod 2 ^ 6) (Z.rem (Z.quot tmt (60 * 60)) 24 mod 2 ^ 5).

(** ** What holds *)

(** The last second for which no product overflows. *)
Definition TIME_MAX : Z := 400000000000.

Lemma int32_id x : - 2 ^ 31 <= x < 2 ^ 31 -> int32 x = x.
Proof. intros Hx. unfold int32. rewrite Z.mod_small; lia. Qed.

Lemma yearstodays_id y : 0 <= y < 14699 -> yearstodays y = 146097 * y / 400.
Proof. intros Hy. unfold yearstodays. rewrite int32_id, Z.quot_div_nonneg by lia. done. Qed.

Lemma daystoyears_id d : 0 <= d -> daystoyears d = 400 * (d + 1) / 146097.
Proof. intros Hd. unfold daystoyears. apply Z.quot_div_nonneg; lia. Qed.

(** The year of a day and the day of the year: the year is found as if all years were equally long,
    and the first day of 400 years belongs to the year before. *)
Lemma year_of_day d : 719527 <= d < 5350000 ->
  let y := daystoyears d in 1970 <= y < 14699 /\ -1 <= d - yearstodays y <= 365 /\ (d - yearstodays y = -1 <-> (d + 1) mod 146097 = 0).
Proof.
  intros Hd y. assert (Hy : y = 400 * (d + 1) / 146097) by (apply daystoyears_id; lia). assert (1970 <= y < 14699) by mlia.
  split; [done|]. rewrite yearstodays_id by lia. clearbody y. subst y. mlia.
Qed.

Lemma day_range t : 0 <= t < TIME_MAX -> 719527 <= Z.quot t SECS_PER_DAY + yearstodays LINUX_TIME_START_YEAR < 5350000.
Proof.
  unfold TIME_MAX, SECS_PER_DAY. intros Ht. change (yearstodays LINUX_TIME_START_YEAR) with 719527. rewrite Z.quot_div_nonneg by lia. mlia.
Qed.

Lemma clock_fields t : 0 <= t ->
  t = Z.quot t SECS_PER_DAY * SECS_PER_DAY + Z.rem (Z.quot t (60 * 60)) 24 * 60 * 60 + Z.rem (Z.quot t 60) 60 * 60 + Z.rem t 60 /\
  0 <= Z.rem t 60 < 60 /\ 0 <= Z.rem (Z.quot t 60) 60 < 60 /\ 0 <= Z.rem (Z.quot t (60 * 60)) 24 < 24.
Proof.
  intros Ht. unfold SECS_PER_DAY. rewrite !Z.quot_div_nonneg by lia. rewrite !Z.rem_mod_nonneg by (lia || mlia). mlia.
Qed.

(** mktime64() gives back every time from 1970 on that gmtime64_r() has taken apart, if 1900 is added to the year
    in between, up to the year 14000; hours, minutes and seconds are in their ranges and the
    day of the week is the right one. *)
Theorem gmtime_mktime t : 0 <= t < TIME_MAX -> let tp := libc_gmtime64_r t in
  libc_mktime64 (Tm (tm_sec tp) (tm_min tp) (tm_hour tp) (tm_mday tp) (tm_mon tp) (tm_year tp + 1900) (tm_wday tp) (tm_yday tp) (tm_isdst tp)) = t /\
  0 <= tm_sec tp < 60 /\ 0 <= tm_min tp < 60 /\ 0 <= tm_hour tp < 24 /\ tm_wday tp = (t / SECS_PER_DAY + 4) mod 7.
Proof.
  intros Ht tp. destruct (clock_fields t ltac:(lia)) as (Hsum & Hs & Hm & Hh). pose proof (day_range t Ht) as Hd.
  destruct (year_of_day _ Hd) as (Hy & Hyd & _). unfold tp, libc_mktime64, libc_gmtime64_r. cbn [tm_sec tm_min tm_hour tm_year tm_yday tm_wday].
  set (d := Z.quot t SECS_PER_DAY + yearstodays LINUX_TIME_START_YEAR) in *. rewrite (int32_id (daystoyears d)) by lia. rewrite int32_id by lia.
  split; [|split_and!; try lia].
  - replace (daystoyears d - 1900 + 1900) with (daystoyears d) by lia. unfold d in *. lia.
  - unfold d. rewrite Z.quot_div_nonneg by (unfold SECS_PER_DAY; lia). change (yearstodays LINUX_TIME_START_YEAR) with (4 + 102789 * 7).
    rewrite Z.rem_mod_nonneg by (unfold SECS_PER_DAY; mlia). rewrite Z.add_assoc. apply Z_mod_plus_full.
Qed.

Lemma gmtime_mktime_witness : libc_mktime64 (let tp := libc_gmtime64_r 1500000000 in
  Tm (tm_sec tp) (tm_min tp) (tm_hour tp) (tm_mday tp) (tm_mon tp) (tm_year tp + 1900) (tm_wday tp) (tm_yday tp) (tm_isdst tp)) = 1500000000.
Proof. exact (proj1 (gmtime_mktime 1500000000 ltac:(by split))). Defined.

(** *** The clock *)

Lemma month_of_range leap t : -1 <= t <= 365 -> 1 <= month_of leap t <= 12 /\ 0 <= t - month_start leap (month_of leap t - 1) + 1 <= 32.
Proof.
  intros Ht. assert (Hall : forallb (fun t => let i := month_of leap t in let d := t - month_start leap (i - 1) + 1 in
    (1 <=? i) && (i <=? 12) && (0 <=? d) && (d <=? 32)) (seqZ (-1) 367) = true) by (destruct leap; vm_compute; reflexivity).
  rewrite forallb_forall in Hall. specialize (Hall t ltac:(apply list_elem_of_In, elem_of_seqZ; lia)). simpl in Hall.
  rewrite !andb_true_iff, !Z.leb_le in Hall. lia.
Qed.

Lemma u8_id x : 0 <= x < 256 -> u8 x = x.
Proof. intros Hx. unfold u8. apply Z.mod_small. lia. Qed.

Lemma bcd_roundtrip x : 0 <= x < 100 -> u8 (BCD_DECODE (u8 (BCD_ENCODE x))) = x.
Proof.
  intros Hx. assert (Hall : forallb (fun x => u8 (BCD_DECODE (u8 (BCD_ENCODE x))) =? x) (seqZ 0 100) = true) by (vm_compute; reflexivity).
  rewrite forallb_forall in Hall. apply Z.eqb_eq, Hall, list_elem_of_In, elem_of_seqZ. lia.
Qed.

(** The hour, with or without a bit for the afternoon. *)
Definition hour_out (nobcd is24h : bool) (hour : Z) : Z :=
  let hour := if negb is24h && (12 <=? hour) then Z.lor (hour - 12) 0x80 else hour in
  if nobcd then hour else u8 (Z.lor (BCD_ENCODE (Z.land hour 0x7f)) (Z.land hour 0x80)).
Definition hour_in (nobcd is24h : bool) (hour : Z) : Z :=
  let hour := if nobcd then hour else u8 (Z.lor (BCD_DECODE (Z.land hour 0x7f)) (Z.land hour 0x80)) in
  if negb is24h && negb (Z.land hour 0x80 =? 0) then (Z.land hour 0x7f + 12) mod 24 else hour.

Lemma hour_roundtrip nobcd is24h h : 0 <= h < 24 -> hour_in nobcd is24h (hour_out nobcd is24h h) = h.
Proof.
  intros Hh. assert (Hall : forallb (fun h => hour_in nobcd is24h (hour_out nobcd is24h h) =? h) (seqZ 0 24) = true)
    by (destruct nobcd, is24h; vm_compute; reflexivity).
  rewrite forallb_forall in Hall. apply Z.eqb_eq, Hall, list_elem_of_In, elem_of_seqZ. lia.
Qed.

Lemma quot_chain t : 0 <= t -> Z.quot (Z.quot t 60) 60 = Z.quot t (60 * 60) /\ Z.quot (Z.quot (Z.quot t 60) 60) 24 = Z.quot t SECS_PER_DAY.
Proof. intros Ht. unfold SECS_PER_DAY. rewrite !Z.quot_div_nonneg by (lia || mlia). mlia. Qed.

(** Setting the clock never fails its assertion, and reading the registers it has written gives the time one day
    later, with or without BCD and for both formats of hours. *)
Theorem cmos_set_get nobcd is24h date_year t : 0 <= t < 2 ^ 37 ->
  exists s, cmos_set nobcd is24h t = Ret s /\ cmos_get nobcd is24h true date_year s = t + SECS_PER_DAY.
Proof.
  intros Ht. destruct (clock_fields t ltac:(lia)) as (Hsum & Hs & Hm & Hh). destruct (quot_chain t ltac:(lia)) as [Hq1 Hq2].
  assert (Ht' : 0 <= t < TIME_MAX) by (unfold TIME_MAX; lia). pose proof (day_range t Ht') as Hd.
  unfold cmos_set. rewrite Hq2, Hq1. set (d := Z.quot t SECS_PER_DAY + yearstodays LINUX_TIME_START_YEAR) in *.
  destruct (year_of_day d Hd) as (Hy & Hyd & _). assert (Hy2 : daystoyears d < 9000).
  { rewrite daystoyears_id by lia. apply Z.div_lt_upper_bound; [lia|]. assert (Z.quot t SECS_PER_DAY < 1600000); [|change (yearstodays LINUX_TIME_START_YEAR) with 719527 in d; lia].
    unfold SECS_PER_DAY. rewrite Z.quot_div_nonneg by lia. apply Z.div_lt_upper_bound; lia. }
  rewrite (Z.mod_small (daystoyears d)) by lia. set (y := daystoyears d) in *. set (leap := isleap y).
  destruct (month_of_range leap (d - yearstodays y) Hyd) as [Hmo Hda]. set (mo := month_of leap (d - yearstodays y)) in *.
  rewrite (proj2 (Z.leb_le (d - yearstodays y) (month_start leap 12))) by (unfold month_start; destruct leap; simpl; lia). cbn [oassert].
  eexists. split; [done|]. pose proof (hour_roundtrip nobcd is24h _ Hh) as Hhr. unfold hour_in, hour_out in Hhr.
  rewrite (u8_id (d - _ - _ + 1)) by lia. rewrite (u8_id (y / 100)) by (clear - Hy Hy2; mlia).
  assert (Hc : 0 <= y mod 100 < 100 /\ 0 <= y / 100 < 100 /\ y mod 100 + y / 100 * 100 = y) by (clear - Hy Hy2; mlia). destruct Hc as (Hc1 & Hc2 & Hc3).
  unfold cmos_get. destruct nobcd; cbn [cs_second cs_minute cs_hour cs_day cs_month cs_year cs_cent negb andb] in *; rewrite ?bcd_roundtrip by lia.
  all: rewrite Hhr; rewrite Hc3, (proj2 (Z.ltb_ge y LINUX_TIME_START_YEAR)) by (unfold LINUX_TIME_START_YEAR; lia).
  all: rewrite Z.rem_small by lia; fold leap; unfold d, SECS_PER_DAY in *; lia.
Qed.

(** *** Times of files *)

(** The time of day of a file is kept, rounded down to two seconds. *)
Theorem filetime_roundtrip t : 0 <= t -> filetime_decodetime (filetime_encodetime t) = t mod SECS_PER_DAY - t mod 2.
Proof.
  intros Ht. destruct (clock_fields t Ht) as (Hsum & Hs & Hm & Hh). unfold filetime_decodetime, filetime_encodetime. cbn [ft_sec ft_min ft_hour].
  rewrite !(Z.mod_small (Z.rem _ _)) by lia. rewrite (Z.quot_div_nonneg (Z.rem t 60)) by lia.
  assert (0 <= Z.rem t 60 / 2 < 32) by (clear - Hs; mlia). rewrite Z.mod_small by lia. assert (Ht2 : Z.rem t 60 / 2 * 2 = Z.rem t 60 - t mod 2).
  { rewrite Z.rem_mod_nonneg by lia. clear. mlia. }
  rewrite (Z.mod_eq t SECS_PER_DAY) by done. rewrite (Z.quot_div_nonneg t SECS_PER_DAY) in Hsum by (done || lia). lia.
Qed.

(** *** Where the calendar is wrong *)

(** 1 January 2000: the day of the year and of the month are -1. *)
Theorem gmtime_2000 : let tp := libc_gmtime64_r 946684800 in (tm_year tp, tm_mon tp, tm_mday tp, tm_yday tp) = (100, 0, -1, -1).
Proof. vm_compute. reflexivity. Qed.

(** 1 January 1972 belongs to 1971. *)
Theorem gmtime_1972 : let tp := libc_gmtime64_r 63072000 in (tm_year tp, tm_yday tp) = (71, 365).
Proof. vm_compute. reflexivity. Qed.

(** 1 January and 1 February 1970: days of the month are counted from 0, and the first day of a month belongs to the
    one before. *)
Theorem gmtime_1970 : let jan := libc_gmtime64_r 0 in let feb := libc_gmtime64_r (31 * SECS_PER_DAY) in
  (tm_mon jan, tm_mday jan, tm_mon feb, tm_mday feb) = (0, 0, 0, 31).
Proof. vm_compute. reflexivity. Qed.

(** What gmtime64_r() returns is not a time for mktime64(), which takes the year for one counted from 0. *)
Theorem mktime_year : libc_mktime64 (libc_gmtime64_r 0) = -59958230400.
Proof. vm_compute. reflexivity. Qed.

(** 26 March 1970 is not in summer time, but 2 December is: months are counted from 0. *)
Theorem isdst_months : tm_isdst (libc_gmtime64_r (84 * SECS_PER_DAY)) = 0 /\ tm_isdst (libc_gmtime64_r (335 * SECS_PER_DAY)) = 1.
Proof. vm_compute. split; reflexivity. Qed.

(** The date of a file: 1 February 2017 is stored as day 0 of January 2017, and read as 30 December 2016. *)
Theorem filedate_february : let d := filedate_encodetime 1485907200 in (fd_day d, fd_month d, fd_year d) = (0, 1, 37) /\ filedate_decodetime d = 1483056000.
Proof. vm_compute. split; reflexivity. Qed.

(** 10 June 1980 is read back as the day before. *)
Theorem filedate_1980 : filedate_decodetime (filedate_encodetime 329443200) = 329443200 - SECS_PER_DAY.
Proof. vm_compute. reflexivity. Qed.
