(* ===== verification/CMem.v ===== *)
(** * Memory and loops of C code

    Byte-addressed memory in which only some addresses exist: the model of code
    that reads or writes elsewhere returns [Abort].  Loops that stop at what they
    find in memory are run by [forever], which makes enough rounds for any walk
    through a 32-bit address space. *)
From stdpp Require Import base numbers list.
From S2P Require Import Prelude.

(** ** Memory *)

Definition bytes : Type := Z -> option Z.

Definition load8 (x : Z) (m : bytes) : outcome Z :=
  match m x with Some b => Ret b | None => Abort end.
Definition store8 (x v : Z) (m : bytes) : outcome bytes :=
  match m x with
  | Some _ => Ret (fun y => if y =? x then Some (v mod 256) else m y)
  | None => Abort
  end.

(** Words of [k] bytes, the lowest first. *)
Fixpoint loadn (k : nat) (x : Z) (m : bytes) : outcome Z :=
  match k with
  | O => Ret 0
  | S k => let! b := load8 x m in let! v := loadn k (x + 1) m in Ret (b + 256 * v)
  end.
Fixpoint storen (k : nat) (x v : Z) (m : bytes) : outcome bytes :=
  match k with
  | O => Ret m
  | S k => let! m := store8 x v m in storen k (x + 1) (v / 256) m
  end.

Definition mapped (m : bytes) (p n : Z) : Prop := forall x, p <= x < p + n -> is_Some (m x).
Definition bytes_ok (m : bytes) : Prop := forall x b, m x = Some b -> 0 <= b < 256.

(** [m'] is [m] with [f] in the [n] bytes at [p]. *)
Definition changed_to (m m' : bytes) (p n : Z) (f : Z -> option Z) : Prop :=
  forall x, m' x = if (p <=? x) && (x <? p + n) then f x else m x.

Lemma mapped_sub m p n p' n' : mapped m p n -> p <= p' -> p' + n' <= p + n -> mapped m p' n'.
Proof. intros Hm H1 H2 x Hx. apply Hm. lia. Qed.

Lemma loadn_ok k : forall x m,
  mapped m x (Z.of_nat k) -> bytes_ok m ->
  exists v, loadn k x m = Ret v /\ 0 <= v < 256 ^ Z.of_nat k /\
    forall i, 0 <= i < Z.of_nat k -> m (x + i) = Some (v / 256 ^ i mod 256).
Proof.
  induction k as [|k IH]; intros x m Hm Hb; [exists 0; simpl; repeat split; intros; lia|].
  destruct (Hm x) as [b Eb]; [lia|]. pose proof (Hb _ _ Eb) as Hb0.
  destruct (IH (x + 1) m) as (v & E & Hv & Hi); [eapply mapped_sub; [done|lia|lia]|done|].
  exists (b + 256 * v). cbn [loadn]. unfold load8. rewrite Eb. cbn [obind]. rewrite E. split; [done|].
  replace (Z.of_nat (S k)) with (Z.succ (Z.of_nat k)) by lia. rewrite Z.pow_succ_r by lia.
  split; [lia|]. intros i Hi'. destruct (Z.eq_dec i 0) as [->|Hn].
  - rewrite Z.add_0_r, Eb. f_equal. change (256 ^ 0) with 1. rewrite Z.div_1_r. mlia.
  - replace (x + i) with (x + 1 + (i - 1)) by lia. rewrite Hi by lia. f_equal. f_equal.
    replace i with (Z.succ (i - 1)) at 2 by lia. rewrite Z.pow_succ_r by lia.
    rewrite <- Z.div_div by (try apply Z.pow_pos_nonneg; lia). f_equal. mlia.
Qed.

Lemma storen_ok k : forall x v m,
  mapped m x (Z.of_nat k) ->
  exists m', storen k x v m = Ret m' /\
    changed_to m m' x (Z.of_nat k) (fun y => Some (v / 256 ^ (y - x) mod 256)).
Proof.
  induction k as [|k IH]; intros x v m Hm.
  - exists m. split; [done|]. intros y. destruct (Z.leb_spec x y), (Z.ltb_spec y (x + Z.of_nat 0)); done || lia.
  - destruct (Hm x) as [b Eb]; [lia|]. cbn [storen]. unfold store8. rewrite Eb. cbn [obind].
    destruct (IH (x + 1) (v / 256) (fun y => if y =? x then Some (v mod 256) else m y)) as (m' & E & Hc).
    { intros y Hy. destruct (Z.eqb_spec y x); [by eexists|]. apply Hm. lia. }
    exists m'. split; [done|]. intros y. rewrite Hc.
    destruct (Z.leb_spec (x + 1) y), (Z.ltb_spec y (x + 1 + Z.of_nat k)), (Z.leb_spec x y),
      (Z.ltb_spec y (x + Z.of_nat (S k))), (Z.eqb_spec y x); try lia; try done; cbn [andb].
    + f_equal. f_equal. replace (y - x) with (Z.succ (y - (x + 1))) by lia.
      rewrite Z.pow_succ_r by lia. rewrite <- Z.div_div by (try apply Z.pow_pos_nonneg; lia). done.
    + subst y. rewrite Z.sub_diag. change (256 ^ 0) with 1. by rewrite Z.div_1_r.
Qed.

Lemma changed_mapped m m' p n f q k :
  changed_to m m' p n f -> (forall x, p <= x < p + n -> is_Some (f x)) -> mapped m q k -> mapped m' q k.
Proof.
  intros Hc Hf Hm x Hx. rewrite Hc. destruct (Z.leb_spec p x), (Z.ltb_spec x (p + n)); cbn [andb]; auto.
Qed.

Lemma changed_bytes_ok m m' p n f :
  changed_to m m' p n f -> (forall x b, p <= x < p + n -> f x = Some b -> 0 <= b < 256) ->
  bytes_ok m -> bytes_ok m'.
Proof.
  intros Hc Hf Hm x b. rewrite Hc.
  destruct (Z.leb_spec p x), (Z.ltb_spec x (p + n)); cbn [andb]; eauto.
Qed.

Lemma changed_id m p n f : n <= 0 -> changed_to m m p n f.
Proof. intros Hn x. by destruct (Z.leb_spec p x), (Z.ltb_spec x (p + n)); try lia. Qed.

Lemma changed_ext m m' p n f g :
  changed_to m m' p n f -> (forall x, p <= x < p + n -> f x = g x) -> changed_to m m' p n g.
Proof.
  intros Hc Hf x. rewrite Hc. destruct (Z.leb_spec p x), (Z.ltb_spec x (p + n)); cbn [andb]; auto.
Qed.

(** Two changes one behind the other. *)
Lemma changed_app m m1 m2 p k n f :
  0 <= k -> 0 <= n -> changed_to m m1 p k f -> changed_to m1 m2 (p + k) n f ->
  changed_to m m2 p (k + n) f.
Proof.
  intros Hk Hn H1 H2 x. rewrite H2, H1.
  destruct (Z.leb_spec (p + k) x), (Z.ltb_spec x (p + k + n)), (Z.leb_spec p x),
    (Z.ltb_spec x (p + k)), (Z.ltb_spec x (p + (k + n))); try lia; done.
Qed.
(** The same with the upper one made first. *)
Lemma changed_app_down m m1 m2 p k n f :
  0 <= k -> 0 <= n -> changed_to m m1 (p + n) k f -> changed_to m1 m2 p n f ->
  changed_to m m2 p (n + k) f.
Proof.
  intros Hk Hn H1 H2 x. rewrite H2, H1.
  destruct (Z.leb_spec (p + n) x), (Z.ltb_spec x (p + n + k)), (Z.leb_spec p x),
    (Z.ltb_spec x (p + n)), (Z.ltb_spec x (p + (n + k))); try lia; done.
Qed.

(** ** Loops *)

Section Loops.

Context {S X : Type} (body : S -> outcome (S + X)).

(** Up to [2 ^ n] rounds. *)
Fixpoint rounds (n : nat) (s : S) : outcome (S + X) :=
  match n with
  | O => body s
  | Datatypes.S n =>
      let! r := rounds n s in
      match r with inl s => rounds n s | inr x => Ret (inr x) end
  end.
Definition forever (s : S) : outcome X :=
  let! r := rounds 34 s in
  match r with inl _ => Abort | inr x => Ret x end.

(** A run of [k] rounds that ends. *)
Inductive runs : S -> Z -> outcome X -> Prop :=
| runs_done s x : body s = Ret (inr x) -> runs s 1 (Ret x)
| runs_fault s : body s = Abort -> runs s 1 Abort
| runs_step s s' k r : body s = Ret (inl s') -> runs s' k r -> runs s (k + 1) r.

Lemma runs_pos s k r : runs s k r -> 1 <= k.
Proof. induction 1; lia. Qed.

(** Either a run ends within the rounds, or it goes on behind them. *)
Lemma rounds_runs n : forall s k r,
  runs s k r ->
  (k <= 2 ^ Z.of_nat n /\ rounds n s = match r with Ret x => Ret (inr x) | Abort => Abort end) \/
  (exists s', rounds n s = Ret (inl s') /\ runs s' (k - 2 ^ Z.of_nat n) r).
Proof.
  induction n as [|n IH]; intros s k r Hr.
  - change (2 ^ Z.of_nat 0) with 1. cbn [rounds]. destruct Hr as [s x E|s E|s s' k r E Hr].
    + left. by rewrite E.
    + left. by rewrite E.
    + right. exists s'. rewrite E. split; [done|]. by replace (k + 1 - 1) with k by lia.
  - cbn [rounds]. replace (2 ^ Z.of_nat (Datatypes.S n)) with (2 ^ Z.of_nat n + 2 ^ Z.of_nat n)
      by (rewrite Nat2Z.inj_succ, Z.pow_succ_r by lia; lia).
    pose proof (Z.pow_pos_nonneg 2 (Z.of_nat n)).
    destruct (IH s k r Hr) as [[Hk E]|(s' & E & Hr')]; rewrite E.
    + left. split; [lia|]. by destruct r.
    + cbn [obind]. destruct (IH s' _ r Hr') as [[Hk E']|(s'' & E' & Hr'')].
      * left. split; [lia|done].
      * right. exists s''. split; [done|]. by replace (k - (2 ^ Z.of_nat n + 2 ^ Z.of_nat n))
          with (k - 2 ^ Z.of_nat n - 2 ^ Z.of_nat n) by lia.
Qed.

Lemma runs_forever s k r : runs s k r -> k <= 2 ^ 34 -> forever s = r.
Proof.
  intros Hr Hk. unfold forever. destruct (rounds_runs 34 s k r Hr) as [[_ E]|(s' & _ & Hr')].
  - rewrite E. by destruct r.
  - pose proof (runs_pos _ _ _ Hr'). change (Z.of_nat 34) with 34 in *. lia.
Qed.

End Loops.
