(* ===== verification/LibcMem.v ===== *)
(** * libc: memory functions

    [libs/libc/templates/memory.code], which string.c includes once for every
    width of a unit (bytes, words, dwords and qwords), as compiled for i386:
    no 64-bit string instructions.  Pointers are not wrapped at the end of the
    address space, the sums the assertions compute are. *)
From stdpp Require Import base numbers list.
From S2P Require Import Prelude CMem.

(** The four inclusions of the template. *)
Inductive width : Set := W8 | W16 | W32 | W64.

Definition S_of (w : width) : nat :=
  match w with W8 => 1 | W16 => 2 | W32 => 4 | W64 => 8 end.
Abbreviation SZ w := (Z.of_nat (S_of w)).

(** [(T)x] *)
Definition cast (w : width) (x : Z) : Z := x mod 256 ^ SZ w.
(** [((u8 * )&pattern)[i]] *)
Definition byte_of (x i : Z) : Z := x / 256 ^ i mod 256.
(** A [size_t] or [uintptr_t] *)
Definition u32 (x : Z) : Z := x mod 2 ^ 32.

(** ** Copying *)

(** [while (n--) *_dst++ = *_src++], and what [rep; movs] does to memory and EDI. *)
Fixpoint move_up (k n : nat) (dst src : Z) (m : bytes) : outcome (Z * bytes) :=
  match n with
  | O => Ret (dst, m)
  | S n =>
      let! v := loadn k src m in
      let! m := storen k dst v m in
      move_up k n (dst + Z.of_nat k) (src + Z.of_nat k) m
  end.
(** [while (iter != end) *--iter = *--siter], from the ends of the areas. *)
Fixpoint move_down (k n : nat) (iter siter : Z) (m : bytes) : outcome (Z * bytes) :=
  match n with
  | O => Ret (iter, m)
  | S n =>
      let! v := loadn k (siter - Z.of_nat k) m in
      let! m := storen k (iter - Z.of_nat k) v m in
      move_down k n (iter - Z.of_nat k) (siter - Z.of_nat k) m
  end.

Definition STRING_LARGE_OP_LIMIT : Z := 0x400.
Definition STRING_REPMOVSn_LIMIT : Z := 0x100.
Definition STRING_REPSTOSn_LIMIT : Z := 0x100.
Definition STRING_ALIGNMENT_MASK : Z := 7.

(** Below the limits and above them the units are moved in the same order. *)
Definition core_mempcpy (w : width) (dst src n : Z) (m : bytes) : outcome (Z * bytes) :=
  match w with
  | W64 => move_up 4 (Z.to_nat (u32 (n * 2))) dst src m
  | W8 =>
      if (STRING_REPMOVSn_LIMIT <=? n) && (STRING_LARGE_OP_LIMIT <=? n) then
        let low := Z.land n STRING_ALIGNMENT_MASK in
        if low =? 0 then move_up 4 (Z.to_nat (Z.shiftr n 2)) dst src m
        else if low =? 2 then move_up 2 (Z.to_nat (Z.shiftr n 1)) dst src m
        else move_up 1 (Z.to_nat n) dst src m
      else move_up 1 (Z.to_nat n) dst src m
  | _ => move_up (S_of w) (Z.to_nat n) dst src m
  end.

Definition overlap_free (w : width) (dst src n : Z) : bool :=
  negb ((src <? dst) && (dst <? u32 (src + n * SZ w))) &&
  negb ((dst <? src) && (src <? u32 (dst + n * SZ w))).

Definition libc_mempcpy (w : width) (dst src n : Z) (m : bytes) : outcome (Z * bytes) :=
  assert! overlap_free w dst src n ;;
  core_mempcpy w dst src n m.
Definition libc_memcpy (w : width) (dst src n : Z) (m : bytes) : outcome (Z * bytes) :=
  assert! overlap_free w dst src n ;;
  let! r := core_mempcpy w dst src n m in
  Ret (dst, snd r).

Definition libc_memmove (w : width) (dst src n : Z) (m : bytes) : outcome (Z * bytes) :=
  let! r :=
    if dst <? src then move_up (S_of w) (Z.to_nat n) dst src m
    else move_down (S_of w) (Z.to_nat n) (dst + n * SZ w) (src + n * SZ w) m in
  Ret (dst, snd r).

(** ** Filling *)

(** [while (n--) *iter++ = (T)h], and [rep; stos] *)
Fixpoint fill_up (k n : nat) (iter h : Z) (m : bytes) : outcome bytes :=
  match n with
  | O => Ret m
  | S n => let! m := storen k iter h m in fill_up k n (iter + Z.of_nat k) h m
  end.

Definition libc_memset (w : width) (dst h n : Z) (m : bytes) : outcome (Z * bytes) :=
  let! m :=
    match w with
    | W8 =>
        if (STRING_REPSTOSn_LIMIT <=? n) && (STRING_LARGE_OP_LIMIT <=? n) then
          let low := Z.land n STRING_ALIGNMENT_MASK in
          if low =? 0 then fill_up 4 (Z.to_nat (Z.shiftr n 2)) dst (cast W32 (0x01010101 * h)) m
          else if low =? 2 then fill_up 2 (Z.to_nat (Z.shiftr n 1)) dst (cast W16 (0x0101 * h)) m
          else fill_up 1 (Z.to_nat n) dst (cast W8 h) m
        else fill_up 1 (Z.to_nat n) dst (cast W8 h) m
    | _ => fill_up (S_of w) (Z.to_nat n) dst (cast w h) m
    end in
  Ret (dst, m).

(** The bytes of [mempat] before the first and behind the last whole unit. *)
Fixpoint pat_head (w : width) (n : nat) (iter pattern : Z) (m : bytes)
    : outcome (Z * Z * bytes) :=
  match n with
  | O => Ret (iter, 0, m)
  | S n' =>
      let off := Z.land iter (SZ w - 1) in
      if off =? 0 then Ret (iter, Z.of_nat n, m)
      else let! m := store8 iter (byte_of pattern off) m in
           pat_head w n' (iter + 1) pattern m
  end.
Fixpoint pat_tail (w : width) (n : nat) (iter pattern : Z) (m : bytes) : outcome bytes :=
  match n with
  | O => Ret m
  | S n =>
      let! m := store8 iter (byte_of pattern (Z.land iter (SZ w - 1))) m in
      pat_tail w n (iter + 1) pattern m
  end.

(** The template has [mempat] for units of more than a byte; the one for words
    writes at most one byte on either side. *)
Definition libc_mempat (w : width) (dst pattern n_bytes : Z) (m : bytes) : outcome (Z * bytes) :=
  let! (iter, n_bytes, m) :=
    match w with
    | W16 =>
        if (0 <? n_bytes) && negb (Z.land dst 1 =? 0) then
          let! m := store8 dst (byte_of pattern 1) m in Ret (dst + 1, n_bytes - 1, m)
        else Ret (dst, n_bytes, m)
    | _ => pat_head w (Z.to_nat n_bytes) dst pattern m
    end in
  let! r := libc_memset w iter pattern (n_bytes / SZ w) m in
  let iter := iter + n_bytes in
  let n_bytes := Z.land n_bytes (SZ w - 1) in
  let! m :=
    match w with
    | W16 => if negb (n_bytes =? 0) then store8 iter (byte_of pattern 0) (snd r) else Ret (snd r)
    | _ => pat_tail w (Z.to_nat n_bytes) iter pattern (snd r)
    end in
  Ret (dst, m).

(** ** Comparing *)

(** [repe; cmps] compares the unit at ESI with the one at EDI: the carry and
    zero flags of the last comparison. *)
Fixpoint repe_cmps (k n : nat) (edi esi : Z) (flags : bool * bool) (m : bytes)
    : outcome (bool * bool) :=
  match n with
  | O => Ret flags
  | S n =>
      let! x := loadn k esi m in
      let! y := loadn k edi m in
      if x =? y then repe_cmps k n (edi + Z.of_nat k) (esi + Z.of_nat k) (false, true) m
      else Ret (x <? y, false)
  end.
(** [while (aiter != end && ((av = *aiter++) == (bv = *biter++)))] *)
Fixpoint cmp_loop (k n : nat) (aiter biter av bv : Z) (m : bytes) : outcome (Z * Z) :=
  match n with
  | O => Ret (av, bv)
  | S n =>
      let! av := loadn k aiter m in
      let! bv := loadn k biter m in
      if av =? bv then cmp_loop k n (aiter + Z.of_nat k) (biter + Z.of_nat k) av bv m
      else Ret (av, bv)
  end.
Definition s32 (x : Z) : Z := (x + 2 ^ 31) mod 2 ^ 32 - 2 ^ 31.

Definition libc_memcmp (w : width) (a b n : Z) (m : bytes) : outcome Z :=
  match w with
  | W64 =>
      let! (av, bv) := cmp_loop 8 (Z.to_nat n) a b 0 0 m in
      Ret (s32 (av - bv))
  | _ =>
      let! (cf, zf) := repe_cmps (S_of w) (Z.to_nat n) a b (false, n =? 0) m in
      let result := if negb cf && negb zf then 1 else 0 in
      Ret (if cf then -1 else result)
  end.

(** ** Searching *)

(** [for (; iter != end; ++iter) if ( *iter == (T)needle) return iter] *)
Definition scan_up (w : width) (needle end_ miss : Z) (m : bytes) : Z -> outcome Z :=
  forever (fun iter =>
    if iter =? end_ then Ret (inr miss)
    else
      let! v := loadn (S_of w) iter m in
      Ret (if v =? cast w needle then inr iter else inl (iter + SZ w))).
(** [while (iter != haystack) if ( *--iter == (T)needle) return iter] *)
Definition scan_down (w : width) (needle haystack miss : Z) (m : bytes) : Z -> outcome Z :=
  forever (fun iter =>
    if iter =? haystack then Ret (inr miss)
    else
      let! v := loadn (S_of w) (iter - SZ w) m in
      Ret (if v =? cast w needle then inr (iter - SZ w) else inl (iter - SZ w))).

Definition libc_memchr (w : width) (haystack needle n : Z) (m : bytes) : outcome Z :=
  scan_up w needle (haystack + n * SZ w) 0 m haystack.
Definition libc_memrchr (w : width) (haystack needle n : Z) (m : bytes) : outcome Z :=
  scan_down w needle haystack 0 m (haystack + n * SZ w).
Definition libc_memend (w : width) (haystack needle n : Z) (m : bytes) : outcome Z :=
  scan_up w needle (haystack + n * SZ w) (haystack + n * SZ w) m haystack.
Definition libc_memrend (w : width) (haystack needle n : Z) (m : bytes) : outcome Z :=
  scan_down w needle haystack haystack m (haystack + n * SZ w).
Definition libc_memlen (w : width) (haystack needle n : Z) (m : bytes) : outcome Z :=
  let! p := libc_memend w haystack needle n m in Ret ((p - haystack) / SZ w).
Definition libc_memrlen (w : width) (haystack needle n : Z) (m : bytes) : outcome Z :=
  let! p := libc_memrend w haystack needle n m in Ret ((p - haystack) / SZ w).

Definition libc_rawmemchr (w : width) (haystack needle : Z) (m : bytes) : outcome Z :=
  forever (fun iter =>
    let! v := loadn (S_of w) iter m in
    Ret (if v =? cast w needle then inr iter else inl (iter + SZ w))) haystack.
Definition libc_rawmemrchr (w : width) (haystack needle : Z) (m : bytes) : outcome Z :=
  scan_down w needle haystack haystack m haystack.
Definition libc_rawmemlen (w : width) (haystack needle : Z) (m : bytes) : outcome Z :=
  let! p := libc_rawmemchr w haystack needle m in Ret ((p - haystack) / SZ w).
Definition libc_rawmemrlen (w : width) (haystack needle : Z) (m : bytes) : outcome Z :=
  let! p := libc_rawmemrchr w haystack needle m in Ret ((p - haystack) / SZ w).

(** ** Copying is right *)

Definition from (m : bytes) (src dst : Z) (x : Z) : option Z := m (src + (x - dst)).

Lemma copy_one k dst src m :
  bytes_ok m -> mapped m dst (Z.of_nat k) -> mapped m src (Z.of_nat k) ->
  exists v m', loadn k src m = Ret v /\ storen k dst v m = Ret m' /\
    changed_to m m' dst (Z.of_nat k) (from m src dst).
Proof.
  intros Hb Hd Hs. destruct (loadn_ok k src m Hs Hb) as (v & E & _ & Hv).
  destruct (storen_ok k dst v m Hd) as (m' & E' & Hc). exists v, m'. repeat split; [done..|].
  eapply changed_ext; [exact Hc|]. intros x Hx. cbn beta. unfold from. rewrite Hv by lia. done.
Qed.

Lemma from_mapped m src dst p n k :
  mapped m src k -> dst <= p -> p + n <= dst + k -> forall x, p <= x < p + n -> is_Some (from m src dst x).
Proof. intros Hm H1 H2 x Hx. apply Hm. lia. Qed.

Lemma move_up_ok k n : forall dst src m,
  bytes_ok m -> mapped m dst (Z.of_nat n * Z.of_nat k) -> mapped m src (Z.of_nat n * Z.of_nat k) ->
  dst <= src \/ src + Z.of_nat n * Z.of_nat k <= dst ->
  exists m', move_up k n dst src m = Ret (dst + Z.of_nat n * Z.of_nat k, m') /\
    changed_to m m' dst (Z.of_nat n * Z.of_nat k) (from m src dst).
Proof.
  induction n as [|n IH]; intros dst src m Hb Hd Hs Ho.
  - exists m. cbn [move_up]. split; [do 2 f_equal; lia|apply changed_id; lia].
  - replace (Z.of_nat (S n) * Z.of_nat k) with (Z.of_nat k + Z.of_nat n * Z.of_nat k) in * by lia.
    pose proof (Z.mul_nonneg_nonneg (Z.of_nat n) (Z.of_nat k)) as Hl.
    destruct (copy_one k dst src m) as (v & m1 & E1 & E2 & Hc); [done|eapply mapped_sub; [exact Hd|lia|lia]|eapply mapped_sub; [exact Hs|lia|lia]|].
    cbn [move_up]. rewrite E1. cbn [obind]. rewrite E2. cbn [obind].
    assert (Hf : forall x, dst <= x < dst + Z.of_nat k -> is_Some (from m src dst x)).
    { eapply from_mapped; [exact Hs|lia|lia]. }
    destruct (IH (dst + Z.of_nat k) (src + Z.of_nat k) m1) as (m' & E & Hc').
    { eapply changed_bytes_ok; [exact Hc| |done]. intros x b _. apply Hb. }
    { eapply changed_mapped; [exact Hc|exact Hf|eapply mapped_sub; [exact Hd|lia|lia]]. }
    { eapply changed_mapped; [exact Hc|exact Hf|eapply mapped_sub; [exact Hs|lia|lia]]. }
    { lia. }
    exists m'. split; [rewrite E; do 2 f_equal; lia|].
    eapply changed_app; [lia|lia|exact Hc|]. eapply changed_ext; [exact Hc'|].
    intros x Hx. unfold from. rewrite Hc. replace (src + Z.of_nat k + (x - (dst + Z.of_nat k)))
      with (src + (x - dst)) by lia.
    destruct (Z.leb_spec dst (src + (x - dst))), (Z.ltb_spec (src + (x - dst)) (dst + Z.of_nat k));
      cbn [andb]; done || lia.
Qed.

Lemma move_down_ok k n : forall dst src m,
  bytes_ok m -> mapped m dst (Z.of_nat n * Z.of_nat k) -> mapped m src (Z.of_nat n * Z.of_nat k) ->
  src <= dst ->
  exists m', move_down k n (dst + Z.of_nat n * Z.of_nat k) (src + Z.of_nat n * Z.of_nat k) m = Ret (dst, m') /\
    changed_to m m' dst (Z.of_nat n * Z.of_nat k) (from m src dst).
Proof.
  induction n as [|n IH]; intros dst src m Hb Hd Hs Ho.
  - exists m. cbn [move_down]. split; [do 2 f_equal; lia|apply changed_id; lia].
  - replace (Z.of_nat (S n) * Z.of_nat k) with (Z.of_nat n * Z.of_nat k + Z.of_nat k) in * by lia.
    pose proof (Z.mul_nonneg_nonneg (Z.of_nat n) (Z.of_nat k)) as Hl.
    set (l := Z.of_nat n * Z.of_nat k) in *.
    destruct (copy_one k (dst + l) (src + l) m) as (v & m1 & E1 & E2 & Hc);
      [done|eapply mapped_sub; [exact Hd|lia|lia]|eapply mapped_sub; [exact Hs|lia|lia]|].
    cbn [move_down]. replace (src + (l + Z.of_nat k) - Z.of_nat k) with (src + l) by lia.
    replace (dst + (l + Z.of_nat k) - Z.of_nat k) with (dst + l) by lia.
    rewrite E1. cbn [obind]. rewrite E2. cbn [obind].
    assert (Hf : forall x, dst + l <= x < dst + l + Z.of_nat k -> is_Some (from m (src + l) (dst + l) x)).
    { intros x Hx. apply Hs. lia. }
    destruct (IH dst src m1) as (m' & E & Hc').
    { eapply changed_bytes_ok; [exact Hc| |done]. intros x b _. apply Hb. }
    { eapply changed_mapped; [exact Hc|exact Hf|eapply mapped_sub; [exact Hd|lia|lia]]. }
    { eapply changed_mapped; [exact Hc|exact Hf|eapply mapped_sub; [exact Hs|lia|lia]]. }
    { lia. }
    exists m'. split; [done|]. eapply changed_app_down; [lia|lia| |].
    + eapply changed_ext; [exact Hc|]. intros x Hx. unfold from. f_equal. lia.
    + eapply changed_ext; [exact Hc'|]. intros x Hx. unfold from. rewrite Hc.
      destruct (Z.leb_spec (dst + l) (src + (x - dst))); cbn [andb]; [lia|done].
Qed.

Lemma land7 n : Z.land n STRING_ALIGNMENT_MASK = n mod 8.
Proof. exact (Z.land_ones n 3 ltac:(lia)). Qed.

(** All ways to split the area into units copy the same bytes. *)
Lemma core_mempcpy_ok w dst src n m :
  0 <= n -> n * SZ w < 2 ^ 32 -> bytes_ok m ->
  mapped m dst (n * SZ w) -> mapped m src (n * SZ w) ->
  dst <= src \/ src + n * SZ w <= dst ->
  exists m', core_mempcpy w dst src n m = Ret (dst + n * SZ w, m') /\
    changed_to m m' dst (n * SZ w) (from m src dst).
Proof.
  intros Hn Hlt Hb Hd Hs Ho.
  assert (Hgo : forall k c, 0 <= c -> c * Z.of_nat k = n * SZ w ->
    exists m', move_up k (Z.to_nat c) dst src m = Ret (dst + n * SZ w, m') /\
      changed_to m m' dst (n * SZ w) (from m src dst)).
  { intros k c Hc E. pose proof (move_up_ok k (Z.to_nat c) dst src m) as Hu.
    rewrite Z2Nat.id, E in Hu by lia. auto. }
  destruct w; unfold core_mempcpy; [|apply Hgo; lia..|].
  - rewrite land7, !Z.shiftr_div_pow2 by lia. change (2 ^ 2) with 4. change (2 ^ 1) with 2.
    change (SZ W8) with 1 in *. repeat bcase; apply Hgo; mlia.
  - unfold u32. change (SZ W64) with 8 in *. rewrite Z.mod_small by lia. apply Hgo; lia.
Qed.

Definition apart (w : width) (dst src n : Z) : Prop :=
  dst = src \/ dst + n * SZ w <= src \/ src + n * SZ w <= dst.
#[export] Instance apart_dec w dst src n : Decision (apart w dst src n) := _.

Lemma overlap_free_spec w dst src n :
  0 <= n -> 0 <= dst -> 0 <= src -> dst + n * SZ w < 2 ^ 32 -> src + n * SZ w < 2 ^ 32 ->
  overlap_free w dst src n = bool_decide (apart w dst src n).
Proof.
  intros. assert (0 <= n * SZ w) by nia. unfold overlap_free, u32. rewrite !Z.mod_small by lia.
  destruct (bool_decide_reflect (apart w dst src n)) as [Ha|Ha]; unfold apart in Ha;
    destruct (Z.ltb_spec src dst), (Z.ltb_spec dst (src + n * SZ w)), (Z.ltb_spec dst src),
      (Z.ltb_spec src (dst + n * SZ w)); cbn [negb andb]; try done; lia.
Qed.

Lemma memcpy_copies w dst src n m :
  0 <= n -> 0 <= dst -> 0 <= src -> dst + n * SZ w < 2 ^ 32 -> src + n * SZ w < 2 ^ 32 ->
  bytes_ok m -> mapped m dst (n * SZ w) -> mapped m src (n * SZ w) -> apart w dst src n ->
  exists m', libc_memcpy w dst src n m = Ret (dst, m') /\
    changed_to m m' dst (n * SZ w) (fun x => m (src + (x - dst))).
Proof.
  intros Hn Hd0 Hs0 Hd1 Hs1 Hb Hd Hs Ha. unfold libc_memcpy.
  rewrite overlap_free_spec, bool_decide_eq_true_2 by done. cbn [oassert].
  destruct (core_mempcpy_ok w dst src n m) as (m' & E & Hc);
    [done|lia|done..|unfold apart in Ha; lia|].
  exists m'. rewrite E. done.
Qed.

(** C26: [memcpy] of any unit width moves exactly the bytes of the source to the
    destination, whichever instruction or loop and whichever unit it picks for the
    size, and returns the destination; areas that overlap without being the same
    are caught by its assertions. *)
Theorem libc_memcpy_ok w dst src n m :
  0 <= n -> 0 <= dst -> 0 <= src -> dst + n * SZ w < 2 ^ 32 -> src + n * SZ w < 2 ^ 32 ->
  bytes_ok m -> mapped m dst (n * SZ w) -> mapped m src (n * SZ w) ->
  if bool_decide (apart w dst src n) then
    exists m', libc_memcpy w dst src n m = Ret (dst, m') /\
      changed_to m m' dst (n * SZ w) (fun x => m (src + (x - dst)))
  else libc_memcpy w dst src n m = Abort.
Proof.
  intros. destruct (bool_decide_reflect (apart w dst src n)) as [Ha|Ha]; [by apply memcpy_copies|].
  unfold libc_memcpy. by rewrite overlap_free_spec, bool_decide_eq_false_2 by done.
Qed.

Lemma libc_mempcpy_ok w dst src n m :
  0 <= n -> 0 <= dst -> 0 <= src -> dst + n * SZ w < 2 ^ 32 -> src + n * SZ w < 2 ^ 32 ->
  bytes_ok m -> mapped m dst (n * SZ w) -> mapped m src (n * SZ w) -> apart w dst src n ->
  exists m', libc_mempcpy w dst src n m = Ret (dst + n * SZ w, m') /\
    changed_to m m' dst (n * SZ w) (fun x => m (src + (x - dst))).
Proof.
  intros Hn Hd0 Hs0 Hd1 Hs1 Hb Hd Hs Ha. unfold libc_mempcpy.
  rewrite overlap_free_spec, bool_decide_eq_true_2 by done. cbn [oassert].
  apply core_mempcpy_ok; unfold apart in Ha; done || lia.
Qed.

(** C27: [memmove] leaves in the destination what the source held before, however
    the two areas overlap. *)
Theorem libc_memmove_ok w dst src n m :
  0 <= n -> bytes_ok m -> mapped m dst (n * SZ w) -> mapped m src (n * SZ w) ->
  exists m', libc_memmove w dst src n m = Ret (dst, m') /\
    changed_to m m' dst (n * SZ w) (fun x => m (src + (x - dst))).
Proof.
  intros Hn Hb Hd Hs. unfold libc_memmove. destruct (Z.ltb_spec dst src) as [Hlt|Hge].
  - pose proof (move_up_ok (S_of w) (Z.to_nat n) dst src m) as Hu. rewrite Z2Nat.id in Hu by lia.
    destruct Hu as (m' & E & Hc); [done..|lia|]. exists m'. rewrite E. done.
  - pose proof (move_down_ok (S_of w) (Z.to_nat n) dst src m) as Hu. rewrite Z2Nat.id in Hu by lia.
    destruct Hu as (m' & E & Hc); [done..|]. exists m'. rewrite E. done.
Qed.

(** ** Filling is right *)

Lemma fill_up_ok k n : forall iter h m,
  (0 < k)%nat -> mapped m iter (Z.of_nat n * Z.of_nat k) ->
  exists m', fill_up k n iter h m = Ret m' /\
    changed_to m m' iter (Z.of_nat n * Z.of_nat k)
      (fun x => Some (byte_of h ((x - iter) mod Z.of_nat k))).
Proof.
  induction n as [|n IH]; intros iter h m Hk Hm.
  - exists m. split; [done|apply changed_id; lia].
  - replace (Z.of_nat (S n) * Z.of_nat k) with (Z.of_nat k + Z.of_nat n * Z.of_nat k) in * by lia.
    pose proof (Z.mul_nonneg_nonneg (Z.of_nat n) (Z.of_nat k)) as Hl.
    destruct (storen_ok k iter h m) as (m1 & E1 & Hc); [eapply mapped_sub; [exact Hm|lia|lia]|].
    cbn [fill_up]. rewrite E1. cbn [obind].
    destruct (IH (iter + Z.of_nat k) h m1 Hk) as (m' & E & Hc').
    { eapply changed_mapped; [exact Hc|by eexists|eapply mapped_sub; [exact Hm|lia|lia]]. }
    exists m'. split; [done|]. eapply changed_app; [lia|lia| |].
    + eapply changed_ext; [exact Hc|]. intros x Hx. cbn beta. unfold byte_of.
      by rewrite (Z.mod_small (x - iter)) by lia.
    + eapply changed_ext; [exact Hc'|]. intros x Hx. cbn beta. do 2 f_equal.
      replace (x - iter) with (x - (iter + Z.of_nat k) + 1 * Z.of_nat k) by lia.
      by rewrite Z.mod_add by lia.
Qed.

Lemma byte_of_replicated h i :
  0 <= h < 256 -> 0 <= i < 4 -> byte_of (cast W32 (0x01010101 * h)) i = h.
Proof.
  intros Hh Hi. unfold byte_of, cast. change (256 ^ SZ W32) with 4294967296.
  assert (Hc : i = 0 \/ i = 1 \/ i = 2 \/ i = 3) by lia.
  destruct Hc as [->|[->|[-> | ->]]];
    [change (256 ^ 0) with 1|change (256 ^ 1) with 256|change (256 ^ 2) with 65536
    |change (256 ^ 3) with 16777216]; mlia.
Qed.
Lemma byte_of_replicated2 h i :
  0 <= h < 256 -> 0 <= i < 2 -> byte_of (cast W16 (0x0101 * h)) i = h.
Proof.
  intros Hh Hi. unfold byte_of, cast. change (256 ^ SZ W16) with 65536.
  assert (Hc : i = 0 \/ i = 1) by lia.
  destruct Hc as [-> | ->]; [change (256 ^ 0) with 1|change (256 ^ 1) with 256]; mlia.
Qed.
Lemma byte_of_1 h i : 0 <= i < 1 -> byte_of (cast W8 h) i = h mod 256.
Proof.
  intros Hi. replace i with 0 by lia. unfold byte_of, cast. change (256 ^ 0) with 1.
  change (256 ^ SZ W8) with 256. rewrite Z.div_1_r. apply Z.mod_mod. lia.
Qed.

Lemma memset_fills w dst h n m :
  0 <= n -> (w = W8 -> 0 <= h < 256) -> mapped m dst (n * SZ w) ->
  exists m', libc_memset w dst h n m = Ret (dst, m') /\
    changed_to m m' dst (n * SZ w) (fun x => Some (byte_of (cast w h) ((x - dst) mod SZ w))).
Proof.
  intros Hn Hh Hm.
  assert (Hgo : forall k c v, (0 < k)%nat -> 0 <= c -> c * Z.of_nat k = n * SZ w ->
    (forall i, 0 <= i -> byte_of v (i mod Z.of_nat k) = byte_of (cast w h) (i mod SZ w)) ->
    exists m', fill_up k (Z.to_nat c) dst v m = Ret m' /\
      changed_to m m' dst (n * SZ w) (fun x => Some (byte_of (cast w h) ((x - dst) mod SZ w)))).
  { intros k c v Hk Hc E Hv. pose proof (fill_up_ok k (Z.to_nat c) dst v m Hk) as Hu.
    rewrite Z2Nat.id, E in Hu by lia. destruct (Hu Hm) as (m' & E' & Hc'). exists m'.
    split; [done|]. eapply changed_ext; [exact Hc'|]. intros x Hx. cbn beta. rewrite Hv by lia. done. }
  assert (Hret : forall r, (exists m', r = Ret m' /\ changed_to m m' dst (n * SZ w)
      (fun x => Some (byte_of (cast w h) ((x - dst) mod SZ w)))) ->
    exists m', (let! m := r in Ret (dst, m)) = Ret (dst, m') /\ changed_to m m' dst (n * SZ w)
      (fun x => Some (byte_of (cast w h) ((x - dst) mod SZ w)))).
  { intros r (m' & -> & Hc). by exists m'. }
  unfold libc_memset. apply Hret. destruct w; [|apply Hgo; (cbn; done || lia)..].
  specialize (Hh eq_refl). change (SZ W8) with 1 in *.
  rewrite land7, !Z.shiftr_div_pow2 by lia. change (2 ^ 2) with 4. change (2 ^ 1) with 2.
  repeat bcase; apply Hgo; try done; try mlia; intros i Hi;
    rewrite (byte_of_1 h (i mod 1)) by mlia.
  - rewrite byte_of_replicated by mlia. mlia.
  - rewrite byte_of_replicated2 by mlia. mlia.
Qed.

(** [memset] fills an area of any size with copies of the unit, and one of bytes
    with the byte, whichever unit it stores them by. *)
Theorem libc_memset_ok w dst h n m :
  0 <= n -> (w = W8 -> 0 <= h < 256) -> mapped m dst (n * SZ w) ->
  exists m', libc_memset w dst h n m = Ret (dst, m') /\
    changed_to m m' dst (n * SZ w) (fun x => Some (byte_of (cast w h) ((x - dst) mod SZ w))).
Proof. apply memset_fills. Qed.

(** ** Searching and comparing agree with lists *)

(** The units of [l] lie at [p]. *)
Definition units (w : width) (m : bytes) (p : Z) (l : list Z) : Prop :=
  forall i v, l !! i = Some v -> loadn (S_of w) (p + Z.of_nat i * SZ w) m = Ret v.

Lemma units_cons w m p v l :
  units w m p (v :: l) <-> loadn (S_of w) p m = Ret v /\ units w m (p + SZ w) l.
Proof.
  split.
  - intros Hu. split; [rewrite <- (Hu 0%nat v eq_refl); f_equal; lia|].
    intros i x Hi. rewrite <- (Hu (S i) x Hi). f_equal. lia.
  - intros [H0 Hu] [|i] x Hi; simplify_eq/=.
    + rewrite <- H0. f_equal. lia.
    + rewrite <- (Hu i x Hi). f_equal. lia.
Qed.

Lemma units_snoc w m p v l :
  units w m p (l ++ [v]) <->
  units w m p l /\ loadn (S_of w) (p + zlen l * SZ w) m = Ret v.
Proof.
  split.
  - intros Hu. split; [intros i x Hi; apply Hu; by apply lookup_app_l_Some|].
    apply Hu. apply list_lookup_middle. done.
  - intros [Hu H0] i x Hi. apply lookup_app_Some in Hi as [Hi|[Hle Hi]]; [by apply Hu|].
    apply list_lookup_singleton_Some in Hi as [Hi <-]. unfold zlen in H0. by replace i with (length l) by lia.
Qed.

Lemma S_of_pos w : 1 <= SZ w.
Proof. destruct w; simpl; lia. Qed.

(** Where the first and the last [v] of [l] are. *)
Fixpoint first_of (v : Z) (l : list Z) : option Z :=
  match l with
  | [] => None
  | x :: l => if x =? v then Some 0 else Z.succ <$> first_of v l
  end.
Definition last_of (v : Z) (l : list Z) : option Z :=
  (fun i => zlen l - 1 - i) <$> first_of v (rev l).

Lemma first_of_range v l i : first_of v l = Some i -> 0 <= i < zlen l.
Proof.
  revert i. induction l as [|x l IH]; intros i; cbn; [done|]. unfold zlen in *. cbn [length].
  bcase; [intros [= <-]; lia|]. destruct (first_of v l) as [j|] eqn:Ej; cbn; [|done].
  intros [= <-]. specialize (IH _ eq_refl). lia.
Qed.

Lemma scan_up_runs w needle miss m l : forall p,
  units w m p l ->
  exists k, k <= zlen l + 1 /\ runs (fun iter =>
    if iter =? p + zlen l * SZ w then Ret (inr miss)
    else
      let! v := loadn (S_of w) iter m in
      Ret (if v =? cast w needle then inr iter else inl (iter + SZ w))) p k
    (Ret (match first_of (cast w needle) l with Some i => p + i * SZ w | None => miss end)).
Proof.
  pose proof (S_of_pos w) as HS. unfold zlen.
  induction l as [|v l IH]; intros p Hu; cbn [length first_of].
  - exists 1. split; [lia|]. apply runs_done. rewrite (proj2 (Z.eqb_eq _ _)) by lia. done.
  - apply units_cons in Hu as [H0 Hu]. destruct (v =? cast w needle) eqn:E.
    + exists 1. split; [lia|]. replace (p + 0 * SZ w) with p by lia. apply runs_done.
      rewrite (proj2 (Z.eqb_neq _ _)) by nia. rewrite H0. cbn [obind]. by rewrite E.
    + destruct (IH _ Hu) as (k & Hk & Hr). exists (k + 1). split; [lia|].
      replace (p + Z.of_nat (S (length l)) * SZ w) with (p + SZ w + Z.of_nat (length l) * SZ w) by lia.
      eapply runs_step; [rewrite (proj2 (Z.eqb_neq _ _)) by nia; rewrite H0; cbn [obind]; by rewrite E|].
      destruct (first_of (cast w needle) l) as [i|]; cbn [fmap option_fmap option_map]; [|done].
      replace (p + Z.succ i * SZ w) with (p + SZ w + i * SZ w) by lia. done.
Qed.

Lemma scan_up_ok w needle miss m p l :
  zlen l < 2 ^ 32 -> units w m p l ->
  scan_up w needle (p + zlen l * SZ w) miss m p =
    Ret (match first_of (cast w needle) l with Some i => p + i * SZ w | None => miss end).
Proof.
  intros Hl Hu. destruct (scan_up_runs w needle miss m l p Hu) as (k & Hk & Hr).
  eapply runs_forever; [exact Hr|]. change (2 ^ 34) with 17179869184. lia.
Qed.

Lemma scan_down_runs w needle miss m p l :
  units w m p l ->
  exists k, k <= zlen l + 1 /\ runs (fun iter =>
    if iter =? p then Ret (inr miss)
    else
      let! v := loadn (S_of w) (iter - SZ w) m in
      Ret (if v =? cast w needle then inr (iter - SZ w) else inl (iter - SZ w)))
    (p + zlen l * SZ w) k
    (Ret (match last_of (cast w needle) l with Some i => p + i * SZ w | None => miss end)).
Proof.
  pose proof (S_of_pos w) as HS. unfold zlen, last_of.
  induction l as [|v l IH] using rev_ind; intros Hu.
  - exists 1. split; [lia|]. apply runs_done. rewrite (proj2 (Z.eqb_eq _ _)) by (cbn; lia). done.
  - apply units_snoc in Hu as [Hu H0]. unfold zlen in *. rewrite rev_app_distr, length_app.
    cbn [rev app first_of length].
    assert (Hp : p + Z.of_nat (length l + 1) * SZ w - SZ w = p + Z.of_nat (length l) * SZ w) by lia.
    destruct (v =? cast w needle) eqn:E.
    + exists 1. split; [lia|]. apply runs_done. rewrite (proj2 (Z.eqb_neq _ _)) by nia.
      rewrite Hp, H0. cbn [obind]. rewrite E. cbn. do 2 f_equal. lia.
    + destruct (IH Hu) as (k & Hk & Hr). exists (k + 1). split; [lia|].
      eapply runs_step; [rewrite (proj2 (Z.eqb_neq _ _)) by nia; rewrite Hp, H0; cbn [obind]; by rewrite E|].
      destruct (first_of (cast w needle) (rev l)) as [i|]; cbn in *; [|done].
      replace (Z.of_nat (length l + 1) - 1 - Z.succ i) with (Z.of_nat (length l) - 1 - i) by lia. done.
Qed.

Lemma scan_down_ok w needle miss m p l :
  zlen l < 2 ^ 32 -> units w m p l ->
  scan_down w needle p miss m (p + zlen l * SZ w) =
    Ret (match last_of (cast w needle) l with Some i => p + i * SZ w | None => miss end).
Proof.
  intros Hl Hu. destruct (scan_down_runs w needle miss m p l Hu) as (k & Hk & Hr).
  eapply runs_forever; [exact Hr|]. change (2 ^ 34) with 17179869184. lia.
Qed.

(** The bounded searches end and find what they promise: [memchr] and [memrchr] the
    first and the last unit that matches or NULL, [memend] and [memrend] the same
    or the end and the start of the area, [memlen] and [memrlen] its index. *)
Theorem libc_memsearch_ok w p needle l m :
  zlen l < 2 ^ 32 -> units w m p l ->
  let first := first_of (cast w needle) l in
  let last := last_of (cast w needle) l in
  libc_memchr w p needle (zlen l) m = Ret (from_option (fun i => p + i * SZ w) 0 first) /\
  libc_memrchr w p needle (zlen l) m = Ret (from_option (fun i => p + i * SZ w) 0 last) /\
  libc_memend w p needle (zlen l) m = Ret (p + default (zlen l) first * SZ w) /\
  libc_memrend w p needle (zlen l) m = Ret (p + default 0 last * SZ w) /\
  libc_memlen w p needle (zlen l) m = Ret (default (zlen l) first) /\
  libc_memrlen w p needle (zlen l) m = Ret (default 0 last).
Proof.
  intros Hl Hu first last. subst first last. pose proof (S_of_pos w) as HS.
  assert (Hdiv : forall i, (p + i * SZ w - p) / SZ w = i).
  { intros i. replace (p + i * SZ w - p) with (i * SZ w) by lia. apply Z.div_mul. lia. }
  assert (Hp : p = p + 0 * SZ w) by lia.
  unfold libc_memlen, libc_memrlen, libc_memchr, libc_memrchr, libc_memend, libc_memrend.
  pose proof (fun miss => scan_up_ok w needle miss m p l Hl Hu) as Hup.
  pose proof (fun miss => scan_down_ok w needle miss m p l Hl Hu) as Hdown.
  split_and!; [rewrite Hup|rewrite Hdown|rewrite Hup|rewrite Hdown|rewrite Hup|rewrite Hdown];
    clear Hup Hdown; [destruct (first_of _ l)|destruct (last_of _ l)|destruct (first_of _ l)
    |destruct (last_of _ l)|destruct (first_of _ l)|destruct (last_of _ l)];
    cbn [from_option obind default id]; rewrite ?Hdiv; try done; f_equal; try lia.
  by rewrite Z.sub_diag, Z.div_0_l by lia.
Qed.

Lemma rawmemchr_runs w needle m l : forall p,
  units w m p (l ++ [cast w needle]) -> (cast w needle ∉ l) ->
  runs (fun iter =>
    let! v := loadn (S_of w) iter m in
    Ret (if v =? cast w needle then inr iter else inl (iter + SZ w))) p (zlen l + 1)
    (Ret (p + zlen l * SZ w)).
Proof.
  unfold zlen. induction l as [|v l IH]; intros p Hu Hn; cbn [length app] in *;
    apply units_cons in Hu as [H0 Hu].
  - replace (p + Z.of_nat 0 * SZ w) with p by lia. apply runs_done. rewrite H0. cbn [obind].
    by rewrite Z.eqb_refl.
  - apply not_elem_of_cons in Hn as [Hv Hn].
    replace (Z.of_nat (S (length l)) + 1) with (Z.of_nat (length l) + 1 + 1) by lia.
    replace (p + Z.of_nat (S (length l)) * SZ w) with (p + SZ w + Z.of_nat (length l) * SZ w) by lia.
    eapply runs_step; [|by apply IH]. rewrite H0. cbn [obind].
    rewrite (proj2 (Z.eqb_neq _ _)) by congruence. done.
Qed.

(** [rawmemchr] ends at the first match when there is one. *)
Lemma libc_rawmemchr_ok w p needle l m :
  zlen l < 2 ^ 32 -> units w m p (l ++ [cast w needle]) -> (cast w needle ∉ l) ->
  libc_rawmemchr w p needle m = Ret (p + zlen l * SZ w).
Proof.
  intros Hl Hu Hn. eapply runs_forever; [by apply rawmemchr_runs|].
  change (2 ^ 34) with 17179869184. lia.
Qed.
Lemma libc_rawmemlen_ok w p needle l m :
  zlen l < 2 ^ 32 -> units w m p (l ++ [cast w needle]) -> (cast w needle ∉ l) ->
  libc_rawmemlen w p needle m = Ret (zlen l).
Proof.
  intros Hl Hu Hn. unfold libc_rawmemlen. rewrite (libc_rawmemchr_ok w p needle l m) by done.
  cbn [obind]. f_equal. replace (p + zlen l * SZ w - p) with (zlen l * SZ w) by lia.
  apply Z.div_mul. pose proof (S_of_pos w). lia.
Qed.

(** The order of the first units that differ. *)
Fixpoint lex (a b : list Z) : comparison :=
  match a, b with
  | x :: a, y :: b => if x =? y then lex a b else x ?= y
  | _, _ => Eq
  end.

Lemma lex_eq a : forall b, length a = length b -> (lex a b = Eq <-> a = b).
Proof.
  induction a as [|x a IH]; intros [|y b] Hl; cbn [lex]; try done.
  injection Hl as Hl. bcase.
  - subst y. rewrite (IH b Hl). split; [by intros ->|by intros [=]].
  - rewrite Z.compare_eq_iff. split; [done|by intros [=]].
Qed.

Lemma repe_cmps_ok w a : forall b p q fl m,
  length a = length b -> units w m p a -> units w m q b ->
  repe_cmps (S_of w) (length a) p q fl m =
    Ret (match lex a b with
         | Eq => if bool_decide (a = []) then fl else (false, true)
         | Lt => (false, false) | Gt => (true, false) end).
Proof.
  induction a as [|x a IH]; intros [|y b] p q fl m Hl Ha Hb; try done.
  injection Hl as Hl. apply units_cons in Ha as [Ea Ha]. apply units_cons in Hb as [Eb Hb].
  cbn [repe_cmps length lex]. rewrite Ea, Eb. cbn [obind].
  destruct (Z.eqb_spec x y) as [->|Hne]; rewrite ?Z.eqb_refl.
  - rewrite (IH b) by done. destruct (lex a b); try done. by destruct a.
  - rewrite (proj2 (Z.eqb_neq y x)) by congruence.
    destruct (Z.compare_spec x y), (Z.ltb_spec y x); done || lia.
Qed.

(** [memcmp] of bytes, words and dwords returns 0 for equal areas only; for others
    its sign is that of the second compared with the first. *)
Lemma libc_memcmp_ok w p q a b m :
  w <> W64 -> length a = length b -> units w m p a -> units w m q b ->
  libc_memcmp w p q (zlen a) m = Ret (match lex a b with Eq => 0 | Lt => 1 | Gt => -1 end).
Proof.
  intros Hw Hl Ha Hb. unfold libc_memcmp, zlen. rewrite Nat2Z.id.
  assert (E : forall fl, repe_cmps (S_of w) (length a) p q fl m = _)
    by (intros fl; apply (repe_cmps_ok w a b p q fl m Hl Ha Hb)).
  destruct w; [| | |done]; rewrite E; cbn [obind];
    (destruct (lex a b); [|done..]; destruct a; done).
Qed.

(** ** Patterns *)

Lemma store8_ok x v m :
  is_Some (m x) ->
  exists m', store8 x v m = Ret m' /\ changed_to m m' x 1 (fun _ => Some (v mod 256)).
Proof.
  intros [b Eb]. unfold store8. rewrite Eb. eexists. split; [done|]. intros y.
  destruct (Z.eqb_spec y x), (Z.leb_spec x y), (Z.ltb_spec y (x + 1)); done || lia.
Qed.

Lemma land_S w x : Z.land x (SZ w - 1) = x mod SZ w.
Proof.
  destruct w; [exact (Z.land_ones x 0 ltac:(lia))|exact (Z.land_ones x 1 ltac:(lia))
    |exact (Z.land_ones x 2 ltac:(lia))|exact (Z.land_ones x 3 ltac:(lia))].
Qed.

Lemma byte_of_mod x i : byte_of x i mod 256 = byte_of x i.
Proof. apply Z.mod_mod. lia. Qed.

Lemma pat_head_ok w pattern n : forall iter m,
  mapped m iter (Z.of_nat n) ->
  exists k m', pat_head w n iter pattern m = Ret (iter + k, Z.of_nat n - k, m') /\
    0 <= k <= Z.of_nat n /\ (k = Z.of_nat n \/ (iter + k) mod SZ w = 0) /\
    changed_to m m' iter k (fun x => Some (byte_of pattern (x mod SZ w))).
Proof.
  induction n as [|n IH]; intros iter m Hm; cbn [pat_head].
  - exists 0, m. rewrite !Z.add_0_r. split_and!; [done|lia|lia|lia|by apply changed_id].
  - rewrite land_S. destruct (Z.eqb_spec (iter mod SZ w) 0) as [E|E].
    { exists 0, m. rewrite Z.add_0_r, Z.sub_0_r. split_and!; [done|lia|lia|auto|by apply changed_id]. }
    destruct (store8_ok iter (byte_of pattern (iter mod SZ w)) m) as (m1 & E1 & Hc); [apply Hm; lia|].
    rewrite E1. cbn [obind].
    destruct (IH (iter + 1) m1) as (k & m' & E' & Hk & Ho & Hc').
    { eapply changed_mapped; [exact Hc|by eexists|eapply mapped_sub; [exact Hm|lia|lia]]. }
    exists (1 + k), m'. rewrite E'. split_and!; [do 3 f_equal; lia|lia|lia| |].
    + rewrite Z.add_assoc. lia.
    + eapply changed_app; [lia|lia| |exact Hc']. eapply changed_ext; [exact Hc|].
      intros x Hx. cbn beta. replace x with iter by lia. by rewrite byte_of_mod.
Qed.

(** The word version's single bytes are those of the loop. *)
Lemma head_word n iter pattern m :
  0 <= n ->
  (if (0 <? n) && negb (Z.land iter 1 =? 0) then
     let! m := store8 iter (byte_of pattern 1) m in Ret (iter + 1, n - 1, m)
   else Ret (iter, n, m)) = pat_head W16 (Z.to_nat n) iter pattern m.
Proof.
  intros Hn. destruct (Z.to_nat n) as [|n'] eqn:E; cbn [pat_head].
  - by replace n with 0 by lia.
  - rewrite !land_S, (land_S W16 iter : Z.land iter 1 = iter mod 2).
    change (SZ W16) with 2. rewrite (proj2 (Z.ltb_lt 0 n)) by lia. cbn [andb].
    destruct (Z.eqb_spec (iter mod 2) 0) as [E0|E0]; cbn [negb]; [by replace n with (Z.of_nat (S n')) by lia|].
    replace (iter mod 2) with 1 by mlia. destruct (store8 iter _ m) as [m1|]; cbn [obind]; [|done].
    destruct n'; cbn [pat_head]; [by replace (n - 1) with 0 by lia|].
    rewrite land_S. change (SZ W16) with 2. rewrite (proj2 (Z.eqb_eq _ 0)) by mlia.
    by replace (n - 1) with (Z.of_nat (S n')) by lia.
Qed.

(** [mempat] of an area that ends at the end of a unit repeats the pattern in
    place with its alignment. *)
Lemma libc_mempat_ok w dst pattern n m :
  w <> W8 -> 0 <= n -> 0 <= pattern < 256 ^ SZ w -> (dst + n) mod SZ w = 0 -> mapped m dst n ->
  exists m', libc_mempat w dst pattern n m = Ret (dst, m') /\
    changed_to m m' dst n (fun x => Some (byte_of pattern (x mod SZ w))).
Proof.
  intros Hw Hn Hp He Hm. pose proof (S_of_pos w) as HS.
  destruct (pat_head_ok w pattern (Z.to_nat n) dst m) as (k & m1 & E1 & Hk & Ho & Hc);
    [by rewrite Z2Nat.id|]. rewrite Z2Nat.id in * by lia.
  assert (Hr : (n - k) mod SZ w = 0).
  { destruct Ho as [->|Ho]; [by rewrite Z.sub_diag|].
    replace (n - k) with ((dst + n) - (dst + k)) by lia. by rewrite Zminus_mod, He, Ho. }
  assert (Hd : (n - k) / SZ w * SZ w = n - k).
  { pose proof (Z.div_mod (n - k) (SZ w)). lia. }
  destruct (memset_fills w (dst + k) pattern ((n - k) / SZ w) m1) as (m2 & E2 & Hc2).
  { apply Z.div_pos; lia. } { done. }
  { rewrite Hd. eapply changed_mapped; [exact Hc|by eexists|eapply mapped_sub; [exact Hm|lia|lia]]. }
  exists m2. split.
  - unfold libc_mempat. rewrite head_word by done.
    destruct w; [done|rewrite E1; cbn [obind]; rewrite E2; cbn [obind snd];
      rewrite land_S, Hr; done..].
  - rewrite Hd in Hc2. replace n with (k + (n - k)) by lia. eapply changed_app; [lia|lia|exact Hc|].
    eapply changed_ext; [exact Hc2|]. intros x Hx. cbn beta. do 2 f_equal.
    { unfold cast. by apply Z.mod_small. }
    destruct Ho as [->|Ho]; [lia|]. by rewrite Zminus_mod, Ho, Z.sub_0_r, Z.mod_mod by lia.
Qed.

(** ** Concrete runs *)

(** A megabyte that holds the low bytes of its addresses. *)
Definition ram : bytes := fun x => if (0 <=? x) && (x <? 0x100000) then Some (x mod 256) else None.

Lemma ram_bytes_ok : bytes_ok ram.
Proof.
  intros x b. unfold ram. destruct (_ && _); [|done]. intros [= <-]. apply Z.mod_pos_bound. lia.
Qed.
Lemma ram_mapped p n : 0 <= p -> p + n <= 0x100000 -> mapped ram p n.
Proof.
  intros Hp Hn x Hx. unfold ram. destruct (Z.leb_spec 0 x), (Z.ltb_spec x 0x100000); cbn [andb];
    [by eexists|lia..].
Qed.

Lemma libc_memcpy_ok_witness :
  exists m', libc_memcpy W8 0x1001 0x2003 0x402 ram = Ret (0x1001, m') /\ m' 0x1402 = Some 4.
Proof.
  pose proof (libc_memcpy_ok W8 0x1001 0x2003 0x402 ram) as Hw. cbn [S_of Z.of_nat] in Hw.
  destruct Hw as (m' & E & Hc); [lia|lia|lia|reflexivity|reflexivity|apply ram_bytes_ok
    |apply ram_mapped; lia|apply ram_mapped; lia|].
  exists m'. split; [exact E|]. rewrite Hc. reflexivity.
Defined.

Lemma libc_memmove_ok_witness :
  exists m', libc_memmove W16 0x1002 0x1000 3 ram = Ret (0x1002, m') /\ m' 0x1005 = Some 3.
Proof.
  destruct (libc_memmove_ok W16 0x1002 0x1000 3 ram) as (m' & E & Hc);
    [lia|apply ram_bytes_ok|apply ram_mapped; cbn; lia|apply ram_mapped; cbn; lia|].
  exists m'. split; [exact E|]. rewrite Hc. reflexivity.
Defined.

Lemma libc_memset_ok_witness :
  exists m', libc_memset W8 0x1000 0xcc 0x402 ram = Ret (0x1000, m') /\ m' 0x1401 = Some 0xcc.
Proof.
  destruct (libc_memset_ok W8 0x1000 0xcc 0x402 ram) as (m' & E & Hc);
    [lia|lia|apply ram_mapped; cbn; lia|].
  exists m'. split; [exact E|]. rewrite Hc. reflexivity.
Defined.

Lemma ram_units : units W8 ram 0x1000 [0; 1; 2; 3].
Proof. intros [|[|[|[|i]]]] v Hi; simplify_eq/=; reflexivity. Qed.

Lemma libc_memsearch_ok_witness :
  libc_memchr W8 0x1000 2 4 ram = Ret 0x1002 /\ libc_memrlen W8 0x1000 7 4 ram = Ret 0.
Proof.
  destruct (libc_memsearch_ok W8 0x1000 2 [0; 1; 2; 3] ram) as (H1 & _); [reflexivity|apply ram_units|].
  destruct (libc_memsearch_ok W8 0x1000 7 [0; 1; 2; 3] ram) as (_ & _ & _ & _ & _ & H2);
    [reflexivity|apply ram_units|].
  split; [exact H1|exact H2].
Defined.

(** What an outcome left at an address. *)
Definition at_ {A} (r : outcome (A * bytes)) (x : Z) : option Z :=
  match r with Ret (_, m) => m x | Abort => None end.

(** Filling 1024 bytes with -1 leaves three of four at 0xfe, 1023 bytes are right. *)
Lemma memset_negative :
  (fun i => at_ (libc_memset W8 0x1000 (-1) 1024 ram) (0x1000 + i)) <$> [0; 1; 2; 3]
    = [Some 0xff; Some 0xfe; Some 0xfe; Some 0xfe] /\
  (fun i => at_ (libc_memset W8 0x1000 (-1) 1023 ram) (0x1000 + i)) <$> [0; 1; 2; 3]
    = [Some 0xff; Some 0xff; Some 0xff; Some 0xff].
Proof. split; vm_compute; reflexivity. Qed.

(** 0 before 1 compares as greater. *)
Lemma memcmp_reversed : libc_memcmp W8 0x1000 0x1001 1 ram = Ret 1.
Proof. vm_compute. reflexivity. Qed.

(** Qwords that differ in the upper half only compare as equal. *)
Lemma memcmpq_truncates :
  (let! m := storen 8 0x1000 (2 ^ 32) ram in
   let! m := storen 8 0x1008 0 m in
   libc_memcmp W64 0x1000 0x1008 1 m) = Ret 0.
Proof. vm_compute. reflexivity. Qed.

(** Six bytes of a dword pattern: the last two stay, two behind the area change. *)
Lemma mempat_tail_behind :
  let r := libc_mempat W32 0x1000 0xddccbbaa 6 ram in
  at_ r 0x1003 = Some 0xdd /\ at_ r 0x1004 = Some 4 /\ at_ r 0x1006 = Some 0xcc.
Proof. vm_compute. repeat split. Qed.

(** The search backwards from a pointer returns the pointer. *)
Lemma rawmemrchr_stays w p needle m : libc_rawmemrchr w p needle m = Ret p.
Proof.
  eapply runs_forever; [apply runs_done; by rewrite Z.eqb_refl|]. done.
Qed.
