(* ===== verification/LibcStr.v ===== *)
(** * libc: strings that are read

    The functions of [libs/libc/templates/string.code] that walk NUL-terminated
    strings of [char]s without changing them, as string.c includes the template,
    and the ones of string.c built on them.  A [char] is signed. *)
From stdpp Require Import base numbers list.
From S2P Require Import Prelude CMem LibcMem.

Definition s8 (x : Z) : Z := (x + 128) mod 256 - 128.

(** [*p] for a [char *p], and [*p = c]. *)
Definition getc (p : Z) (m : bytes) : outcome Z := let! b := load8 p m in Ret (s8 b).
Definition putc (p c : Z) (m : bytes) : outcome bytes := store8 p c m.

(** A loop over the characters at [iter]: [stop] is what it tests before it looks
    at one, [f] what it does with one. *)
Definition scan {A X} (stop : Z -> A -> option X) (f : Z -> Z -> A -> outcome (A + X)) (m : bytes)
    (iter : Z) (acc : A) : outcome X :=
  forever (fun s : Z * A =>
    let (iter, acc) := s in
    match stop iter acc with
    | Some x => Ret (inr x)
    | None =>
        let! ch := getc iter m in
        let! r := f iter ch acc in
        Ret match r with inl acc => inl (iter + 1, acc) | inr x => inr x end
    end) (iter, acc).
Definition never {A X} (iter : Z) (acc : A) : option X := None.

(** ** Ends and searches *)

Definition libc_strend (str : Z) (m : bytes) : outcome Z :=
  scan never (fun str ch _ => Ret (if ch =? 0 then inr str else inl ())) m str ().
Definition libc_strnend (str maxlen : Z) (m : bytes) : outcome Z :=
  let end_ := str + maxlen in
  scan (fun str _ => if str =? end_ then Some str else None)
    (fun str ch _ => Ret (if ch =? 0 then inr str else inl ())) m str ().
Definition libc_strlen (str : Z) (m : bytes) : outcome Z :=
  let! e := libc_strend str m in Ret (u32 (e - str)).
Definition libc_strnlen (str maxlen : Z) (m : bytes) : outcome Z :=
  let! e := libc_strnend str maxlen m in Ret (u32 (e - str)).

Definition libc_strchrnul (haystack needle : Z) (m : bytes) : outcome Z :=
  scan never (fun iter ch _ =>
    Ret (if negb (ch =? 0) && negb (ch =? s8 needle) then inl () else inr iter)) m haystack ().
Definition libc_strchr (haystack needle : Z) (m : bytes) : outcome Z :=
  scan never (fun iter ch _ =>
    Ret (if ch =? s8 needle then inr iter else if ch =? 0 then inr 0 else inl ())) m haystack ().

(** The loop of [strrchr] and [strrchrnul], with their first results. *)
Definition rchr_loop (haystack needle result : Z) (m : bytes) : outcome Z :=
  scan never (fun iter ch result =>
    let result := if ch =? s8 needle then iter else result in
    Ret (if ch =? 0 then inr result else inl result)) m haystack result.
Definition libc_strrchr (haystack needle : Z) (m : bytes) : outcome Z :=
  rchr_loop haystack needle 0 m.
Definition libc_strrchrnul (haystack needle : Z) (m : bytes) : outcome Z :=
  rchr_loop haystack needle (haystack - 1) m.

Definition libc_strnchr (haystack needle maxlen : Z) (m : bytes) : outcome Z :=
  let end_ := haystack + maxlen in
  scan (fun iter _ => if iter =? end_ then Some 0 else None)
    (fun iter ch _ => Ret (if ch =? 0 then inr 0 else if ch =? s8 needle then inr iter else inl ()))
    m haystack ().
Definition nrchr_loop (haystack needle maxlen result : Z) (m : bytes) : outcome Z :=
  let end_ := haystack + maxlen in
  scan (fun iter result => if iter =? end_ then Some result else None)
    (fun iter ch result =>
       Ret (if ch =? 0 then inr result else inl (if ch =? s8 needle then iter else result)))
    m haystack result.
Definition libc_strnrchr (haystack needle maxlen : Z) (m : bytes) : outcome Z :=
  nrchr_loop haystack needle maxlen 0 m.
Definition libc_strnchrnul (haystack needle maxlen : Z) (m : bytes) : outcome Z :=
  let end_ := haystack + maxlen in
  scan (fun iter _ => if iter =? end_ then Some iter else None)
    (fun iter ch _ => Ret (if negb (ch =? 0) && negb (ch =? s8 needle) then inl () else inr iter))
    m haystack ().
Definition libc_strnrchrnul (haystack needle maxlen : Z) (m : bytes) : outcome Z :=
  nrchr_loop haystack needle maxlen (haystack - 1) m.

Definition libc_stroff (haystack needle : Z) (m : bytes) : outcome Z :=
  let! p := libc_strchrnul haystack needle m in Ret (u32 (p - haystack)).
Definition libc_strroff (haystack needle : Z) (m : bytes) : outcome Z :=
  let! p := libc_strrchrnul haystack needle m in Ret (u32 (p - haystack)).
Definition libc_strnoff (haystack needle maxlen : Z) (m : bytes) : outcome Z :=
  let! p := libc_strnchrnul haystack needle maxlen m in Ret (u32 (p - haystack)).
Definition libc_strnroff (haystack needle maxlen : Z) (m : bytes) : outcome Z :=
  let! p := libc_strnrchrnul haystack needle maxlen m in Ret (u32 (p - haystack)).

(** ** Comparisons *)

(** [ctype.h]: ASCII_TOLOWER and ASCII_TOUPPER *)
Definition libc_tolower (ch : Z) : Z := if (0x41 <=? ch) && (ch <=? 0x5a) then ch + 0x20 else ch.
Definition libc_toupper (ch : Z) : Z := if (0x61 <=? ch) && (ch <=? 0x7a) then ch - 0x20 else ch.

(** The loops of [strcmp] and [strcasecmp], of the ones with a limit and of
    [memcasecmp]: [fold] is what they do to a character first, [done] what ends
    them behind a pair of equal ones. *)
Definition cmp_chars (fold : Z -> Z) (ends : Z -> Z -> bool) (s1 s2 : Z) (m : bytes) : outcome Z :=
  scan never (fun s1 ch s2 =>
    let! ch2 := getc s2 m in
    let a := s8 (fold ch) in
    let b := s8 (fold ch2) in
    let result := a - b in
    Ret (if (result =? 0) && negb (ends a (s1 + 1)) then inl (s2 + 1) else inr result)) m s1 s2.
Definition libc_strcmp (s1 s2 : Z) (m : bytes) : outcome Z :=
  cmp_chars id (fun a _ => a =? 0) s1 s2 m.
Definition libc_strcasecmp (s1 s2 : Z) (m : bytes) : outcome Z :=
  cmp_chars libc_tolower (fun a _ => a =? 0) s1 s2 m.
(** With no characters to compare [strncmp] returns a variable it did not set. *)
Definition libc_strncmp (s1 s2 n : Z) (m : bytes) : outcome Z :=
  if n =? 0 then Abort else cmp_chars id (fun a s1' => (a =? 0) || (s1' =? s1 + n)) s1 s2 m.
Definition libc_strncasecmp (s1 s2 n : Z) (m : bytes) : outcome Z :=
  if n =? 0 then Abort else cmp_chars libc_tolower (fun a s1' => (a =? 0) || (s1' =? s1 + n)) s1 s2 m.
Definition libc_memcasecmp (s1 s2 n_bytes : Z) (m : bytes) : outcome Z :=
  if n_bytes =? 0 then Ret 0 else cmp_chars libc_tolower (fun _ s1' => s1' =? s1 + n_bytes) s1 s2 m.

(** ** Substrings and sets of characters *)

(** [while ((ch = *ned_iter++) != NUL) if ( *hay2++ != ch) goto miss;] *)
Definition match_rest (fold : Z -> Z) (hay2 ned_iter : Z) (m : bytes) : outcome bool :=
  scan never (fun _ ch hay2 =>
    if ch =? 0 then Ret (inr true)
    else
      let! c := getc hay2 m in
      Ret (if fold c =? fold ch then inl (hay2 + 1) else inr false)) m ned_iter hay2.
Definition str_loop (fold : Z -> Z) (haystack needle : Z) (m : bytes) : outcome Z :=
  assert! negb (haystack =? 0) ;;
  assert! negb (needle =? 0) ;;
  let! needle_start := getc needle m in
  scan never (fun hay_iter ch _ =>
    if ch =? 0 then Ret (inr 0)
    else if ch =? needle_start then
      let! hit := match_rest fold (hay_iter + 1) (needle + 1) m in
      Ret (if hit : bool then inr hay_iter else inl ())
    else Ret (inl ())) m haystack ().
Definition libc_strstr (haystack needle : Z) (m : bytes) : outcome Z := str_loop id haystack needle m.
Definition libc_strcasestr (haystack needle : Z) (m : bytes) : outcome Z :=
  str_loop libc_tolower haystack needle m.

Definition libc_strcspn (s reject : Z) (m : bytes) : outcome Z :=
  let! iter := scan never (fun iter ch _ =>
    if ch =? 0 then Ret (inr iter)
    else let! p := libc_strchr reject ch m in
         Ret (if p =? 0 then inl () else inr iter)) m s () in
  Ret (u32 (iter - s)).
Definition libc_strspn (s accept : Z) (m : bytes) : outcome Z :=
  let! iter := scan never (fun iter ch _ =>
    let! p := libc_strchr accept ch m in
    Ret (if p =? 0 then inr iter else inl ())) m s () in
  Ret (u32 (iter - s)).
Definition libc_strpbrk (s accept : Z) (m : bytes) : outcome Z :=
  scan never (fun hay_iter haych _ =>
    if haych =? 0 then Ret (inr 0)
    else
      let! hit := scan never (fun _ ch _ =>
        Ret (if ch =? 0 then inr false else if haych =? ch then inr true else inl ())) m accept () in
      Ret (if hit : bool then inr hay_iter else inl ())) m s ().

Definition libc_memmem (haystack haystacklen needle needlelen : Z) (m : bytes) : outcome Z :=
  if haystacklen <? needlelen then Ret 0
  else
    let end_ := haystack + (haystacklen - needlelen) in
    forever (fun iter =>
      let! c := libc_memcmp W8 iter needle needlelen m in
      Ret (if c =? 0 then inr iter else if iter =? end_ then inr 0 else inl (iter + 1))) haystack.

(** ** Walking memory is walking a list *)

Definition chars (m : bytes) (p : Z) (l : list Z) : Prop :=
  forall i v, l !! i = Some v -> getc (p + Z.of_nat i) m = Ret v.
(** The string [s] lies at [p]. *)
Definition cstr (m : bytes) (p : Z) (s : list Z) : Prop :=
  chars m p (s ++ [0]) /\ (0 ∉ s) /\ zlen s < 2 ^ 32 - 1.

Lemma chars_cons m p v l : chars m p (v :: l) <-> getc p m = Ret v /\ chars m (p + 1) l.
Proof.
  split.
  - intros Hu. split; [rewrite <- (Hu 0%nat v eq_refl); f_equal; lia|].
    intros i x Hi. rewrite <- (Hu (S i) x Hi). f_equal. lia.
  - intros [H0 Hu] [|i] x Hi; simplify_eq/=.
    + rewrite <- H0. f_equal. lia.
    + rewrite <- (Hu i x Hi). f_equal. lia.
Qed.
Lemma chars_app m p l k : chars m p (l ++ k) <-> chars m p l /\ chars m (p + zlen l) k.
Proof.
  revert p. induction l as [|v l IH]; intros p; cbn [app].
  - replace (p + zlen []) with p by (unfold zlen; cbn; lia). split; [|by intros [_ ?]].
    intros Hk. split; [|done]. intros i v Hi. done.
  - rewrite !chars_cons, IH. replace (p + 1 + zlen l) with (p + zlen (v :: l))
      by (unfold zlen; cbn [length]; lia). tauto.
Qed.
Lemma cstr_nil m p : cstr m p [] <-> getc p m = Ret 0.
Proof.
  unfold cstr. cbn [app]. rewrite chars_cons. split; [by intros [[? _] _]|].
  intros E. split_and!; [done| |apply not_elem_of_nil|done]. intros i v Hi. done.
Qed.
Lemma cstr_cons m p c s :
  cstr m p (c :: s) -> getc p m = Ret c /\ c <> 0 /\ cstr m (p + 1) s.
Proof.
  unfold cstr. cbn [app]. rewrite chars_cons, not_elem_of_cons. unfold zlen. cbn [length].
  intros ([E Hs] & [Hc Hn] & Hl). split_and!; [done|congruence|done|done|lia].
Qed.

Section Scan.

Context {A X : Type} (stop : Z -> A -> option X) (f : Z -> Z -> A -> outcome (A + X)).

Fixpoint scanl (iter : Z) (acc : A) (l : list Z) : outcome X :=
  match stop iter acc with
  | Some x => Ret x
  | None =>
      match l with
      | [] => Abort
      | ch :: l =>
          let! r := f iter ch acc in
          match r with inl acc => scanl (iter + 1) acc l | inr x => Ret x end
      end
  end.

Lemma scanl_runs m l : forall p acc x,
  chars m p l -> scanl p acc l = Ret x ->
  exists k, k <= zlen l + 1 /\ runs (fun s : Z * A =>
    let (iter, acc) := s in
    match stop iter acc with
    | Some x => Ret (inr x)
    | None =>
        let! ch := getc iter m in
        let! r := f iter ch acc in
        Ret match r with inl acc => inl (iter + 1, acc) | inr x => inr x end
    end) (p, acc) k (Ret x).
Proof.
  unfold zlen. induction l as [|ch l IH]; intros p acc x Hc Hr; cbn [scanl length] in Hr |- *;
    destruct (stop p acc) as [y|] eqn:Es; try discriminate Hr.
  - injection Hr as ->. exists 1. split; [lia|]. apply runs_done. by rewrite Es.
  - injection Hr as ->. exists 1. split; [lia|]. apply runs_done. by rewrite Es.
  - apply chars_cons in Hc as [E0 Hc]. apply obind_Ret_inv in Hr as ([acc'|y] & Ef & Hr).
    + destruct (IH _ _ _ Hc Hr) as (k & Hk & Hrun). exists (k + 1). split; [lia|].
      eapply runs_step; [|exact Hrun]. rewrite Es, E0. cbn [obind]. rewrite Ef. done.
    + injection Hr as ->. exists 1. split; [lia|]. apply runs_done.
      rewrite Es, E0. cbn [obind]. rewrite Ef. done.
Qed.

Lemma scan_ok m p acc l x :
  chars m p l -> zlen l < 2 ^ 33 -> scanl p acc l = Ret x -> scan stop f m p acc = Ret x.
Proof.
  intros Hc Hl Hr. destruct (scanl_runs m l p acc x Hc Hr) as (k & Hk & Hrun).
  eapply runs_forever; [exact Hrun|]. change (2 ^ 33) with 8589934592 in Hl.
  change (2 ^ 34) with 17179869184. lia.
Qed.

Lemma scan_cstr m p acc s x :
  cstr m p s -> scanl p acc (s ++ [0]) = Ret x -> scan stop f m p acc = Ret x.
Proof.
  intros (Hc & _ & Hl) Hr. eapply scan_ok; [exact Hc| |exact Hr].
  unfold zlen in *. rewrite length_app. cbn [length]. change (2 ^ 33) with 8589934592.
  change (2 ^ 32 - 1) with 4294967295 in Hl. lia.
Qed.

End Scan.
#[global] Opaque scan.

Lemma u32_fits x : 0 <= x < 2 ^ 32 -> u32 x = x.
Proof. apply Z.mod_small. Qed.

(** ** Ends and searches are right *)

Lemma zlen_cons {A} (x : A) l : zlen (x :: l) = zlen l + 1.
Proof. unfold zlen. cbn [length]. lia. Qed.

Lemma libc_strend_ok m p s : cstr m p s -> libc_strend p m = Ret (p + zlen s).
Proof.
  intros Hs. eapply scan_cstr; [exact Hs|]. destruct Hs as (_ & Hn & _). revert p.
  induction s as [|c s IH]; intros p; cbn.
  - f_equal. unfold zlen. cbn. lia.
  - apply not_elem_of_cons in Hn as [Hc Hn]. rewrite (proj2 (Z.eqb_neq c 0)) by congruence.
    rewrite (IH Hn), zlen_cons. f_equal. lia.
Qed.

Lemma libc_strlen_ok m p s : cstr m p s -> libc_strlen p m = Ret (zlen s).
Proof.
  intros Hs. unfold libc_strlen. rewrite (libc_strend_ok m p s Hs). cbn [obind]. f_equal.
  replace (p + zlen s - p) with (zlen s) by lia. apply u32_fits. destruct Hs as (_ & _ & Hl).
  unfold zlen in *. lia.
Qed.

(** The string that [strnlen] sees: it may lack the NUL when the limit comes first. *)
Lemma strnend_scanl end_ s : forall p,
  (0 ∉ s) -> p <= end_ ->
  scanl (fun str (_ : ()) => if str =? end_ then Some str else None)
    (fun str ch _ => Ret (if ch =? 0 then inr str else inl ())) p () (ztake (end_ - p) (s ++ [0]))
  = Ret (Z.min end_ (p + zlen s)).
Proof.
  induction s as [|c s IH]; intros p Hn Hp; unfold ztake in *.
  - cbn [app]. destruct (Z.to_nat (end_ - p)) as [|k] eqn:E; cbn; destruct (Z.eqb_spec p end_);
      try lia; cbn; f_equal; unfold zlen; cbn; lia.
  - apply not_elem_of_cons in Hn as [Hc Hn]. cbn [app].
    destruct (Z.to_nat (end_ - p)) as [|k] eqn:E; cbn [take scanl]; destruct (Z.eqb_spec p end_); try lia.
    + f_equal. unfold zlen. cbn; lia.
    + cbn [obind]. rewrite (proj2 (Z.eqb_neq c 0)) by congruence.
      replace k with (Z.to_nat (end_ - (p + 1))) by lia. rewrite IH by (done || lia).
      rewrite zlen_cons. f_equal. lia.
Qed.

(** At most the first [n] characters of [s] and its NUL. *)
Definition cstr_upto (m : bytes) (p n : Z) (s : list Z) : Prop :=
  chars m p (ztake n (s ++ [0])) /\ (0 ∉ s) /\ 0 <= n < 2 ^ 32.

Lemma cstr_upto_of m p n s : 0 <= n < 2 ^ 32 -> cstr m p s -> cstr_upto m p n s.
Proof.
  intros Hn (Hc & H0 & _). split; [|done]. intros i v Hi. apply Hc.
  unfold ztake in Hi. apply lookup_take_Some in Hi as [Hi _]. done.
Qed.

Lemma libc_strnend_ok m p n s :
  cstr_upto m p n s -> libc_strnend p n m = Ret (p + Z.min n (zlen s)).
Proof.
  intros (Hc & H0 & Hn). unfold libc_strnend.
  pose proof (strnend_scanl (p + n) s p H0 ltac:(lia)) as E.
  replace (p + n - p) with n in E by lia.
  replace (p + Z.min n (zlen s)) with (Z.min (p + n) (p + zlen s)) by lia.
  eapply scan_ok; [exact Hc| |exact E]. unfold zlen, ztake. rewrite length_take.
  change (2 ^ 33) with 8589934592. change (2 ^ 32) with 4294967296 in Hn. lia.
Qed.
Lemma libc_strnlen_ok m p n s : cstr_upto m p n s -> libc_strnlen p n m = Ret (Z.min n (zlen s)).
Proof.
  intros Hs. unfold libc_strnlen. rewrite (libc_strnend_ok m p n s Hs). cbn [obind]. f_equal.
  replace (p + Z.min n (zlen s) - p) with (Z.min n (zlen s)) by lia. apply u32_fits.
  destruct Hs as (_ & _ & Hn). unfold zlen in *. lia.
Qed.

Lemma strchrnul_ok m p c s :
  cstr m p s -> libc_strchrnul p c m = Ret (p + default (zlen s) (first_of (s8 c) s)).
Proof.
  intros Hs. eapply scan_cstr; [exact Hs|]. destruct Hs as (_ & Hn & _). revert p.
  induction s as [|x s IH]; intros p; cbn [app scanl never obind first_of].
  - rewrite Z.eqb_refl. cbn. f_equal. unfold zlen. cbn. lia.
  - apply not_elem_of_cons in Hn as [Hc Hn]. rewrite (proj2 (Z.eqb_neq x 0)) by congruence. cbn [negb andb].
    destruct (x =? s8 c); cbn [negb]; [f_equal; cbn; lia|]. rewrite (IH Hn), zlen_cons. f_equal.
    destruct (first_of (s8 c) s); cbn; lia.
Qed.

Lemma strchr_ok m p c s :
  cstr m p s ->
  libc_strchr p c m = Ret (from_option (Z.add p) 0 (first_of (s8 c) (s ++ [0]))).
Proof.
  intros Hs. eapply scan_cstr; [exact Hs|]. destruct Hs as (_ & Hn & _). revert p.
  induction s as [|x s IH]; intros p; cbn [app scanl never obind first_of].
  - destruct (0 =? s8 c); cbn; f_equal; lia.
  - apply not_elem_of_cons in Hn as [Hc Hn]. rewrite (proj2 (Z.eqb_neq x 0)) by congruence.
    destruct (x =? s8 c); [f_equal; cbn; lia|]. rewrite (IH Hn). f_equal.
    destruct (first_of (s8 c) (s ++ [0])); cbn; lia.
Qed.

Lemma first_of_app v l k :
  first_of v (l ++ k) = match first_of v l with
                        | Some i => Some i
                        | None => Z.add (zlen l) <$> first_of v k end.
Proof.
  induction l as [|x l IH]; cbn [app first_of].
  - destruct (first_of v k); done.
  - destruct (x =? v); [done|]. rewrite IH. destruct (first_of v l); [done|].
    rewrite zlen_cons. destruct (first_of v k); cbn; [f_equal; lia|done].
Qed.

Lemma last_of_cons v x l :
  last_of v (x :: l) = match last_of v l with
                       | Some i => Some (i + 1)
                       | None => if x =? v then Some 0 else None end.
Proof.
  unfold last_of. cbn [rev]. rewrite first_of_app, zlen_cons.
  destruct (first_of v (rev l)) as [i|]; cbn [fmap option_fmap option_map]; [f_equal; lia|].
  cbn [first_of]. destruct (x =? v); cbn; [|done]. f_equal. unfold zlen. rewrite length_rev. lia.
Qed.

Lemma rchr_loop_ok m p c s r :
  cstr m p s -> rchr_loop p c r m = Ret (from_option (Z.add p) r (last_of (s8 c) (s ++ [0]))).
Proof.
  intros Hs. eapply scan_cstr; [exact Hs|]. destruct Hs as (_ & Hn & _). revert p r.
  induction s as [|x s IH]; intros p r; cbn [app scanl never obind]; rewrite last_of_cons.
  - rewrite Z.eqb_refl. change (last_of (s8 c) []) with (@None Z).
    destruct (0 =? s8 c); cbn [from_option]; f_equal; lia.
  - apply not_elem_of_cons in Hn as [Hc Hn]. rewrite (proj2 (Z.eqb_neq x 0)) by congruence.
    rewrite (IH Hn). f_equal. destruct (last_of (s8 c) (s ++ [0])); cbn; [lia|].
    destruct (x =? s8 c); cbn; lia.
Qed.

(** Searches of a string end at its NUL and agree with the list of its characters:
    [strlen] and [strnlen] measure it, [strchr], [strrchr] and [strchrnul] find the first
    or the last character that matches, the NUL included for the first two. *)
Theorem libc_str_searches_ok m p s c n :
  cstr m p s -> 0 <= n < 2 ^ 32 ->
  libc_strlen p m = Ret (zlen s) /\
  libc_strnlen p n m = Ret (Z.min n (zlen s)) /\
  libc_strchr p c m = Ret (from_option (Z.add p) 0 (first_of (s8 c) (s ++ [0]))) /\
  libc_strrchr p c m = Ret (from_option (Z.add p) 0 (last_of (s8 c) (s ++ [0]))) /\
  libc_strchrnul p c m = Ret (p + default (zlen s) (first_of (s8 c) s)).
Proof.
  intros Hs Hn. split_and!.
  - by apply libc_strlen_ok.
  - apply libc_strnlen_ok. by apply cstr_upto_of.
  - by apply strchr_ok.
  - by apply rchr_loop_ok.
  - by apply strchrnul_ok.
Qed.

(** ** Comparisons are right *)

Lemma s8_idem x : s8 (s8 x) = s8 x.
Proof. unfold s8. mlia. Qed.
Lemma getc_s8 p m c : getc p m = Ret c -> s8 c = c.
Proof.
  unfold getc. intros H. apply obind_Ret_inv in H as (b & _ & [= <-]). apply s8_idem.
Qed.
Lemma chars_s8 m p l : chars m p l -> Forall (fun c => s8 c = c) l.
Proof.
  intros Hc. apply Forall_lookup. intros i c Hi. eapply getc_s8. by apply Hc.
Qed.

(** The difference of the first characters that differ. *)
Fixpoint diff (fold : Z -> Z) (l1 l2 : list Z) : Z :=
  match l1, l2 with
  | x :: l1, y :: l2 =>
      let d := s8 (fold x) - s8 (fold y) in if d =? 0 then diff fold l1 l2 else d
  | _, _ => 0
  end.

Lemma cmp_chars_ok fold m s1 s2 l1 l2 :
  (forall c, s8 c = c -> s8 (fold c) = 0 <-> c = 0) ->
  cstr m s1 l1 -> cstr m s2 l2 ->
  cmp_chars fold (fun a _ => a =? 0) s1 s2 m = Ret (diff fold (l1 ++ [0]) (l2 ++ [0])).
Proof.
  intros Hf H1 H2. eapply scan_cstr; [exact H1|]. revert s1 s2 l2 H1 H2.
  induction l1 as [|x l1 IH]; intros s1 s2 l2 H1 H2;
    (destruct l2 as [|y l2]; [apply cstr_nil in H2 as E2|apply cstr_cons in H2 as (E2 & Hy & H2')]);
    cbn [app scanl never obind diff]; rewrite E2; cbn [obind].
  - rewrite Z.sub_diag, Z.eqb_refl. assert (E : s8 (fold 0) = 0) by (by apply Hf). by rewrite E.
  - assert (E : s8 (fold 0) = 0) by (by apply Hf). rewrite E.
    destruct (Z.eqb_spec (0 - s8 (fold y)) 0) as [Ey|]; [|done]. exfalso. apply Hy, Hf; [by eapply getc_s8|lia].
  - apply cstr_cons in H1 as (E1 & Hx & _). assert (E : s8 (fold 0) = 0) by (by apply Hf). rewrite E.
    destruct (Z.eqb_spec (s8 (fold x) - 0) 0) as [Ex|]; [|done]. exfalso. apply Hx, Hf; [by eapply getc_s8|lia].
  - apply cstr_cons in H1 as (E1 & Hx & H1'). destruct (Z.eqb_spec (s8 (fold x) - s8 (fold y)) 0) as [Ed|]; [|done].
    rewrite (proj2 (Z.eqb_neq (s8 (fold x)) 0)); [cbn [andb negb]; by apply IH|].
    intros E. apply Hx, Hf; [by eapply getc_s8|done].
Qed.

Lemma s8_range c : s8 c = c -> -128 <= c < 128.
Proof. unfold s8. mlia. Qed.
Lemma fold_id c : s8 c = c -> s8 (id c) = 0 <-> c = 0.
Proof. unfold id. intros ->. done. Qed.
Lemma fold_lower c : s8 c = c -> s8 (libc_tolower c) = 0 <-> c = 0.
Proof.
  intros Hc. apply s8_range in Hc. unfold libc_tolower, s8. bcase.
  - mlia.
  - mlia.
Qed.

(** [strcmp] ends, and its result is the difference of the first (signed) characters
    in which the strings differ, so 0 exactly for equal strings; [strcasecmp] does the same
    with both strings in lower case. *)
Theorem libc_strcmp_ok m p q s t :
  cstr m p s -> cstr m q t ->
  libc_strcmp p q m = Ret (diff id (s ++ [0]) (t ++ [0])) /\
  libc_strcasecmp p q m = Ret (diff libc_tolower (s ++ [0]) (t ++ [0])) /\
  (libc_strcmp p q m = Ret 0 <-> s = t).
Proof.
  intros Hs Ht. assert (E : libc_strcmp p q m = Ret (diff id (s ++ [0]) (t ++ [0]))).
  { apply cmp_chars_ok; [apply fold_id|done..]. }
  split_and!; [done|apply cmp_chars_ok; [apply fold_lower|done..]|].
  rewrite E. clear E. pose proof (chars_s8 _ _ _ (proj1 Hs)) as Fs.
  pose proof (chars_s8 _ _ _ (proj1 Ht)) as Ft.
  destruct Hs as (_ & Hs & _), Ht as (_ & Ht & _). clear p q m. revert t Ft Ht.
  induction s as [|x s IH]; intros [|y t] Ft Ht; cbn [app diff] in *; unfold id in *.
  - done.
  - apply not_elem_of_cons in Ht as [Hy _]. apply Forall_cons in Ft as [Ey _].
    change (s8 0) with 0. rewrite Ey. destruct (Z.eqb_spec (0 - y) 0); [lia|]. split; [intros [=]; lia|done].
  - apply not_elem_of_cons in Hs as [Hx _]. apply Forall_cons in Fs as [Ex _].
    change (s8 0) with 0. rewrite Ex. destruct (Z.eqb_spec (x - 0) 0); [lia|]. split; [intros [=]; lia|done].
  - apply not_elem_of_cons in Hs as [_ Hs]. apply not_elem_of_cons in Ht as [_ Ht].
    apply Forall_cons in Fs as [Ex Fs]. apply Forall_cons in Ft as [Ey Ft]. rewrite Ex, Ey.
    destruct (Z.eqb_spec (x - y) 0) as [E|E].
    + rewrite (IH Hs Fs t Ft Ht). replace x with y by lia. split; [by intros ->|by intros [=]].
    + split; [intros [=]; lia|intros [=]; lia].
Qed.

(** ** Substrings and sets *)

(** The characters of [n] are those [h] starts with, up to [fold]. *)
Fixpoint starts (fold : Z -> Z) (n h : list Z) : bool :=
  match n, h with
  | [], _ => true
  | x :: n, y :: h => (fold y =? fold x) && starts fold n h
  | _, [] => false
  end.
(** The first place of [h] where [hit] holds of what is left of it. *)
Fixpoint find_tail (hit : list Z -> bool) (h : list Z) : option Z :=
  if hit h then Some 0
  else match h with [] => None | _ :: h => Z.succ <$> find_tail hit h end.

Lemma starts_id n h : starts id n h = true <-> n `prefix_of` h.
Proof.
  revert h. induction n as [|x n IH]; intros [|y h]; cbn [starts].
  - done.
  - split; [intros _; apply prefix_nil|done].
  - split; [done|]. intros Hp. by apply prefix_nil_not in Hp.
  - unfold id. rewrite andb_true_iff, Z.eqb_eq, IH. split.
    + intros [-> Hp]. by apply prefix_cons.
    + intros Hp. split; [symmetry; by eapply prefix_cons_inv_1|by eapply prefix_cons_inv_2].
Qed.

Lemma find_tail_Some hit h i :
  find_tail hit h = Some i <->
  0 <= i <= zlen h /\ hit (zdrop i h) = true /\ (forall j, 0 <= j < i -> hit (zdrop j h) = false).
Proof.
  unfold zdrop. revert i. induction h as [|y h IH]; intros i; cbn [find_tail].
  - destruct (hit []) eqn:E; cbn; split.
    + intros [= <-]. unfold zlen. cbn. split_and!; [lia|lia|done|lia].
    + intros (Hi & _). f_equal. unfold zlen in Hi. cbn in Hi. lia.
    + done.
    + intros (_ & Hh & _). rewrite drop_nil in Hh. congruence.
  - rewrite zlen_cons. destruct (hit (y :: h)) eqn:E.
    + split; [intros [= <-]; unfold zlen; split_and!; [lia..|done|lia]|].
      intros (Hi & Hh & Hf). destruct (Z.eq_dec i 0) as [->|]; [done|].
      specialize (Hf 0 ltac:(lia)). change (hit (y :: h) = false) in Hf. congruence.
    + rewrite fmap_Some. setoid_rewrite IH. split.
      * intros (k & (Hk & Hh & Hf) & ->). split_and!; [lia|lia| |].
        -- replace (Z.to_nat (Z.succ k)) with (S (Z.to_nat k)) by lia. done.
        -- intros j Hj. destruct (Z.eq_dec j 0) as [->|]; [done|].
           replace (Z.to_nat j) with (S (Z.to_nat (j - 1))) by lia. apply Hf. lia.
      * intros (Hi & Hh & Hf). destruct (Z.eq_dec i 0) as [->|]; [change (hit (y :: h) = true) in Hh; congruence|].
        exists (i - 1). split_and!; [lia|lia| | |lia].
        -- replace (Z.to_nat i) with (S (Z.to_nat (i - 1))) in Hh by lia. done.
        -- intros j Hj. specialize (Hf (j + 1) ltac:(lia)).
           replace (Z.to_nat (j + 1)) with (S (Z.to_nat j)) in Hf by lia. done.
Qed.

Lemma match_rest_ok fold m hay ned h n :
  (forall c, s8 c = c -> fold c = fold 0 -> c = 0) ->
  cstr m hay h -> cstr m ned n -> match_rest fold hay ned m = Ret (starts fold n h).
Proof.
  intros Hf Hh Hn. eapply scan_cstr; [exact Hn|]. revert hay ned h Hh Hn.
  induction n as [|x n IH]; intros hay ned h Hh Hn; [done|].
  apply cstr_cons in Hn as (Ex & Hx & Hn). cbn [app scanl never].
  rewrite (proj2 (Z.eqb_neq x 0)) by done. destruct h as [|y h].
  - apply cstr_nil in Hh. rewrite Hh. cbn [obind starts].
    destruct (Z.eqb_spec (fold 0) (fold x)); [|done]. exfalso. apply Hx, Hf; [by eapply getc_s8|done].
  - apply cstr_cons in Hh as (Ey & Hy & Hh). rewrite Ey. cbn [obind starts].
    destruct (fold y =? fold x); cbn [andb]; [by apply IH|done].
Qed.

(** What the loops of [strstr] and [strcasestr] look for: the first character itself. *)
Definition str_hit (fold : Z -> Z) (x : Z) (n h : list Z) : bool :=
  match h with y :: h => (y =? x) && starts fold n h | [] => false end.

Lemma str_loop_ok fold m p q s x n :
  (forall c, s8 c = c -> fold c = fold 0 -> c = 0) -> p <> 0 -> q <> 0 ->
  cstr m p s -> cstr m q (x :: n) ->
  str_loop fold p q m = Ret (from_option (Z.add p) 0 (find_tail (str_hit fold x n) s)).
Proof.
  intros Hf Hp Hq Hs Hn. unfold str_loop. rewrite !(proj2 (Z.eqb_neq _ 0)) by done. cbn [negb oassert].
  apply cstr_cons in Hn as (Ex & Hx & Hn). rewrite Ex. cbn [obind].
  eapply scan_cstr; [exact Hs|]. clear Hp. revert p Hs.
  induction s as [|y s IH]; intros p Hs; [done|].
  apply cstr_cons in Hs as (Ey & Hy & Hs). cbn [app scanl never find_tail str_hit].
  rewrite (proj2 (Z.eqb_neq y 0)) by done. destruct (y =? x) eqn:E; cbn [andb].
  - rewrite (match_rest_ok fold m (p + 1) (q + 1) s n) by done. cbn [obind].
    destruct (starts fold n s); [cbn; f_equal; lia|]. rewrite (IH _ Hs). f_equal.
    destruct (find_tail _ s); cbn; lia.
  - cbn [obind]. rewrite (IH _ Hs). f_equal. destruct (find_tail _ s); cbn; lia.
Qed.

(** [strstr] finds the first place of a non-empty string in another one, or returns
    NULL when there is none, without reading behind either string. *)
Theorem libc_strstr_ok m p q s n :
  p <> 0 -> q <> 0 -> n <> [] -> cstr m p s -> cstr m q n ->
  libc_strstr p q m = Ret (from_option (Z.add p) 0 (find_tail (fun h => starts id n h) s)).
Proof.
  intros Hp Hq Hn Hs Hc. destruct n as [|x n]; [done|]. unfold libc_strstr.
  rewrite (str_loop_ok id m p q s x n); [done..].
Qed.

(** [strcspn] and [strpbrk] stop at the first character of the set. *)
Definition in_set (l : list Z) (h : list Z) : bool :=
  match h with y :: _ => bool_decide (y ∈ l) | [] => false end.

Lemma first_of_elem v l : is_Some (first_of v l) <-> v ∈ l.
Proof.
  induction l as [|x l IH]; cbn [first_of].
  - split; [by intros [? ?]|]. intros Hv. by apply elem_of_nil in Hv.
  - rewrite elem_of_cons. destruct (Z.eqb_spec x v) as [->|Hne]; [split; [by left|by eexists]|].
    rewrite fmap_is_Some, IH. split; [by right|intros [?|?]; [congruence|done]].
Qed.

Lemma strchr_hit m p c l :
  0 < p -> cstr m p l -> s8 c = c ->
  exists r, libc_strchr p c m = Ret r /\ (r =? 0) = negb (bool_decide (c ∈ l ++ [0])).
Proof.
  intros Hp Hl Hc. eexists. split; [by apply strchr_ok|]. rewrite Hc.
  pose proof (first_of_elem c (l ++ [0])) as He.
  destruct (first_of c (l ++ [0])) as [i|] eqn:E; cbn [from_option].
  - pose proof (first_of_range _ _ _ E). rewrite bool_decide_eq_true_2 by (apply He; by eexists).
    apply Z.eqb_neq. lia.
  - rewrite bool_decide_eq_false_2; [done|]. intros Hin. apply He in Hin as [? ?]. done.
Qed.

Lemma libc_strcspn_ok m p q s l :
  0 < q -> cstr m p s -> cstr m q l ->
  libc_strcspn p q m = Ret (default (zlen s) (find_tail (in_set l) s)).
Proof.
  intros Hq Hs Hl. unfold libc_strcspn.
  assert (E : scan never (fun iter ch (_ : ()) =>
    if ch =? 0 then Ret (inr iter)
    else let! r := libc_strchr q ch m in Ret (if r =? 0 then inl () else inr iter)) m p ()
    = Ret (p + default (zlen s) (find_tail (in_set l) s))).
  { eapply scan_cstr; [exact Hs|]. revert p Hs. induction s as [|y s IH]; intros p Hs.
    - cbn. f_equal. unfold zlen. cbn. lia.
    - apply cstr_cons in Hs as (Ey & Hy & Hs). cbn [app scanl never find_tail in_set].
      rewrite (proj2 (Z.eqb_neq y 0)) by done.
      destruct (strchr_hit m q y l) as (r & Er & Hr); [done|done|by eapply getc_s8|].
      rewrite Er. cbn [obind]. rewrite Hr. destruct (bool_decide_reflect (y ∈ l)) as [Hin|Hin].
      + rewrite bool_decide_eq_true_2 by (apply elem_of_app; by left). cbn. f_equal. lia.
      + rewrite bool_decide_eq_false_2; [cbn [negb]; rewrite (IH _ Hs), zlen_cons; f_equal;
          destruct (find_tail (in_set l) s); cbn; lia|].
        rewrite elem_of_app, list_elem_of_singleton. tauto. }
  rewrite E. cbn [obind]. f_equal. replace (p + _ - p) with (default (zlen s) (find_tail (in_set l) s)) by lia.
  apply u32_fits. destruct Hs as (_ & _ & Hlen).
  destruct (find_tail (in_set l) s) as [i|] eqn:Ei; cbn [default id]; [|unfold zlen in *; lia].
  apply find_tail_Some in Ei as (Hi & _). unfold id. lia.
Qed.

(** [strspn] is right for strings with a character outside the set. *)
Definition out_set (l : list Z) (h : list Z) : bool :=
  match h with y :: _ => bool_decide (y ∉ l) | [] => false end.

Lemma libc_strspn_ok m p q s l i :
  0 < q -> cstr m p s -> cstr m q l -> find_tail (out_set l) s = Some i ->
  libc_strspn p q m = Ret i.
Proof.
  intros Hq Hs Hl Hi. unfold libc_strspn.
  assert (E : scan never (fun iter ch (_ : ()) =>
    let! r := libc_strchr q ch m in Ret (if r =? 0 then inr iter else inl ())) m p () = Ret (p + i)).
  { eapply scan_cstr; [exact Hs|]. revert p i Hi Hs. induction s as [|y s IH]; intros p i Hi Hs; [done|].
    apply cstr_cons in Hs as (Ey & Hy & Hs). cbn [app scanl never].
    destruct (strchr_hit m q y l) as (r & Er & Hr); [done|done|by eapply getc_s8|].
    rewrite Er. cbn [obind]. rewrite Hr. cbn [find_tail out_set] in Hi.
    assert (Hb : bool_decide (y ∈ l ++ [0]) = bool_decide (y ∈ l)).
    { apply bool_decide_ext. rewrite elem_of_app, list_elem_of_singleton. tauto. }
    rewrite Hb. destruct (bool_decide_reflect (y ∈ l)) as [Hin|Hin]; cbn [negb].
    - rewrite bool_decide_eq_false_2 in Hi by tauto. apply fmap_Some in Hi as (k & Hk & ->).
      rewrite (IH _ _ Hk Hs). f_equal. lia.
    - rewrite bool_decide_eq_true_2 in Hi by tauto. injection Hi as <-. f_equal. lia. }
  rewrite E. cbn [obind]. f_equal. replace (p + i - p) with i by lia. apply u32_fits.
  destruct Hs as (_ & _ & Hlen). apply find_tail_Some in Hi as (Hi & _). lia.
Qed.

Lemma libc_strpbrk_ok m p q s l :
  cstr m p s -> cstr m q l ->
  libc_strpbrk p q m = Ret (from_option (Z.add p) 0 (find_tail (in_set l) s)).
Proof.
  intros Hs Hl. eapply scan_cstr; [exact Hs|]. revert p Hs. induction s as [|y s IH]; intros p Hs; [done|].
  apply cstr_cons in Hs as (Ey & Hy & Hs). cbn [app scanl never find_tail in_set].
  rewrite (proj2 (Z.eqb_neq y 0)) by done.
  assert (E : scan never (fun _ ch (_ : ()) =>
    Ret (if ch =? 0 then inr false else if y =? ch then inr true else inl ())) m q ()
    = Ret (bool_decide (y ∈ l))).
  { eapply scan_cstr; [exact Hl|]. clear IH Hs. revert q Hl. induction l as [|x l IHl]; intros q Hl.
    - cbn. by rewrite bool_decide_eq_false_2 by apply not_elem_of_nil.
    - apply cstr_cons in Hl as (Ex & Hx & Hl). cbn [app scanl never obind].
      rewrite (proj2 (Z.eqb_neq x 0)) by done. destruct (Z.eqb_spec y x) as [->|Hne].
      + by rewrite bool_decide_eq_true_2 by (apply elem_of_cons; by left).
      + rewrite (IHl _ Hl). f_equal. apply bool_decide_ext. rewrite elem_of_cons. tauto. }
  rewrite E. cbn [obind]. destruct (bool_decide (y ∈ l)); [cbn; f_equal; lia|].
  rewrite (IH _ Hs). f_equal. destruct (find_tail (in_set l) s); cbn; lia.
Qed.

(** ** memmem *)

Lemma starts_length fold n h : starts fold n h = true -> (length n <= length h)%nat.
Proof.
  revert h. induction n as [|x n IH]; intros [|y h]; cbn; try lia; try done.
  intros H. apply andb_prop in H as [_ H]. apply IH in H. lia.
Qed.
Lemma find_tail_short fold n h :
  (length h < length n)%nat -> find_tail (starts fold n) h = None.
Proof.
  induction h as [|y h IH]; intros Hl; cbn [find_tail length] in *.
  - destruct n; [cbn in Hl; lia|done].
  - destruct (starts fold n (y :: h)) eqn:E; [apply starts_length in E; cbn in E; lia|].
    rewrite IH by lia. done.
Qed.
Lemma starts_take n h :
  (length n <= length h)%nat -> starts id n h = true <-> take (length n) h = n.
Proof.
  intros Hl. rewrite starts_id. split.
  - intros [k ->]. apply take_app_length.
  - intros E. exists (drop (length n) h). rewrite <- E at 1. symmetry. apply take_drop.
Qed.

Lemma memcmp_starts m p q h n :
  units W8 m p h -> units W8 m q n -> (length n <= length h)%nat ->
  exists c, libc_memcmp W8 p q (zlen n) m = Ret c /\ (c =? 0) = starts id n h.
Proof.
  intros Hh Hn Hl.
  assert (Hlt : length (take (length n) h) = length n) by (rewrite length_take; lia).
  pose proof (libc_memcmp_ok W8 p q (take (length n) h) n m) as E. unfold zlen in *.
  rewrite Hlt in E. eexists. split.
  { apply E; try done. intros i v Hi. apply Hh. by apply lookup_take_Some in Hi as [? _]. }
  pose proof (lex_eq _ n Hlt) as He. pose proof (starts_take n h Hl) as Hs.
  destruct (starts id n h); destruct (lex (take (length n) h) n); try done; exfalso.
  1,2: discriminate (proj2 He (proj1 Hs eq_refl)).
  discriminate (proj2 Hs (proj1 He eq_refl)).
Qed.

Lemma memmem_runs m q n h : forall p,
  units W8 m p h -> units W8 m q n -> (length n <= length h)%nat ->
  exists k, k <= zlen h + 1 /\ runs (fun iter =>
    let! c := libc_memcmp W8 iter q (zlen n) m in
    Ret (if c =? 0 then inr iter else if iter =? p + (zlen h - zlen n) then inr 0 else inl (iter + 1)))
    p k (Ret (from_option (Z.add p) 0 (find_tail (starts id n) h))).
Proof.
  induction h as [|y h IH]; intros p Hh Hn Hl;
    destruct (memcmp_starts m p q _ n Hh Hn Hl) as (c & E & Hc);
    cbn [find_tail]; destruct (starts id n _) eqn:Es.
  1,3: exists 1; (split; [unfold zlen; lia|]); cbn [from_option]; rewrite Z.add_0_r;
    apply runs_done; rewrite E; cbn [obind]; by rewrite Hc.
  - destruct n; [done|cbn in Hl; lia].
  - rewrite zlen_cons. unfold zlen. cbn [length] in Hl.
    destruct (decide (length n = S (length h))) as [En|En].
    + exists 1. split; [lia|]. rewrite (find_tail_short id n h) by lia. cbn [fmap option_fmap option_map from_option].
      apply runs_done. unfold zlen in E. rewrite E. cbn [obind]. rewrite Hc.
      rewrite (proj2 (Z.eqb_eq _ _)) by lia. done.
    + apply units_cons in Hh as [_ Hh]. destruct (IH (p + 1) Hh Hn ltac:(lia)) as (k & Hk & Hr).
      exists (k + 1). unfold zlen in *. split; [lia|].
      replace (p + (Z.of_nat (length h) + 1 - Z.of_nat (length n)))
        with (p + 1 + (Z.of_nat (length h) - Z.of_nat (length n))) by lia.
      eapply runs_step; [rewrite E; cbn [obind]; rewrite Hc, (proj2 (Z.eqb_neq _ _)) by lia; done|].
      destruct (find_tail (starts id n) h); cbn in *; [|done].
      by replace (p + Z.succ z) with (p + 1 + z) by lia.
Qed.

(** [memmem] finds the first place of the needle in the haystack, and NULL when there
    is none or the needle is longer; an empty needle is found at the start. *)
Theorem libc_memmem_ok m p q h n :
  units W8 m p h -> units W8 m q n -> zlen h < 2 ^ 32 -> zlen n < 2 ^ 32 ->
  libc_memmem p (zlen h) q (zlen n) m = Ret (from_option (Z.add p) 0 (find_tail (starts id n) h)) /\
  (forall i, find_tail (starts id n) h = Some i <->
     0 <= i <= zlen h /\ n `prefix_of` zdrop i h /\ forall j, 0 <= j < i -> ~ n `prefix_of` zdrop j h).
Proof.
  intros Hh Hn Hlh Hln. split.
  - unfold libc_memmem. destruct (Z.ltb_spec (zlen h) (zlen n)) as [Hlt|Hge].
    + rewrite find_tail_short; [done|]. unfold zlen in Hlt. lia.
    + destruct (memmem_runs m q n h p Hh Hn) as (k & Hk & Hr); [unfold zlen in Hge; lia|].
      eapply runs_forever; [exact Hr|]. change (2 ^ 34) with 17179869184.
      change (2 ^ 32) with 4294967296 in Hlh. lia.
  - intros i. rewrite find_tail_Some, starts_id. split; intros (Hi & Hp & Hf);
      (split_and!; [lia|lia|done|]); intros j Hj; specialize (Hf j Hj).
    + rewrite <- starts_id. congruence.
    + rewrite <- starts_id in Hf. by apply not_true_iff_false.
Qed.

(** ** Comparisons with a limit *)

Lemma cmp_limit_scanl m e : forall l1 s1 s2 l2,
  cstr m s1 l1 -> cstr m s2 l2 -> s1 < e ->
  scanl never (fun s1 ch s2 =>
    let! ch2 := getc s2 m in
    let a := s8 (id ch) in
    let b := s8 (id ch2) in
    let result := a - b in
    Ret (if (result =? 0) && negb ((a =? 0) || (s1 + 1 =? e)) then inl (s2 + 1) else inr result))
    s1 s2 (l1 ++ [0]) = Ret (diff id (ztake (e - s1) (l1 ++ [0])) (ztake (e - s1) (l2 ++ [0]))).
Proof.
  intros l1. induction l1 as [|x l1 IH]; intros s1 s2 l2 H1 H2 He; unfold ztake;
    replace (Z.to_nat (e - s1)) with (S (Z.to_nat (e - (s1 + 1)))) by lia;
    (destruct l2 as [|y l2]; [apply cstr_nil in H2 as E2|apply cstr_cons in H2 as (E2 & Hy & H2')]);
    cbn [app scanl never obind take diff]; unfold id; rewrite E2; cbn [obind]; change (s8 0) with 0.
  - cbn. by rewrite take_nil.
  - rewrite (getc_s8 _ _ _ E2). destruct (Z.eqb_spec (0 - y) 0); [lia|done].
  - apply cstr_cons in H1 as (E1 & Hx & _). rewrite (getc_s8 _ _ _ E1).
    destruct (Z.eqb_spec (x - 0) 0); [lia|done].
  - apply cstr_cons in H1 as (E1 & Hx & H1'). rewrite (getc_s8 _ _ _ E1), (getc_s8 _ _ _ E2).
    destruct (Z.eqb_spec (x - y) 0) as [Ed|]; [|done]. rewrite (proj2 (Z.eqb_neq x 0)) by done.
    cbn [orb andb negb]. destruct (Z.eqb_spec (s1 + 1) e) as [Ee|Hne]; cbn [negb].
    + replace (Z.to_nat (e - (s1 + 1))) with 0%nat by lia. cbn. by replace (x - y) with 0 by lia.
    + by apply IH; [..|lia].
Qed.

(** [strncmp] compares at most [n] characters, for [n] not 0. *)
Lemma libc_strncmp_ok m p q s t n :
  cstr m p s -> cstr m q t -> 0 < n ->
  libc_strncmp p q n m = Ret (diff id (ztake n (s ++ [0])) (ztake n (t ++ [0]))).
Proof.
  intros Hs Ht Hn. unfold libc_strncmp. rewrite (proj2 (Z.eqb_neq n 0)) by lia.
  pose proof (cmp_limit_scanl m (p + n) s p q t Hs Ht ltac:(lia)) as E.
  replace (p + n - p) with n in E by lia. eapply scan_cstr; [exact Hs|exact E].
Qed.

(** ** Concrete runs *)

(** Memory that holds a list of characters at an address, and nothing else. *)
Definition image (p : Z) (l : list Z) : bytes :=
  fun x => if x <? p then None else (fun c => c mod 256) <$> l !! Z.to_nat (x - p).

Lemma image_chars p l : Forall (fun c => s8 c = c) l -> chars (image p l) p l.
Proof.
  intros Hl i c Hi. unfold getc, load8, image. destruct (Z.ltb_spec (p + Z.of_nat i) p); [lia|].
  replace (Z.to_nat (p + Z.of_nat i - p)) with i by lia. rewrite Hi. cbn. f_equal.
  rewrite Forall_lookup in Hl. specialize (Hl i c Hi). rewrite <- Hl at 2. unfold s8. mlia.
Qed.

(** [abcabd], [abd] and [c,] one after the other. *)
Definition text : list Z := [97; 98; 99; 97; 98; 100; 0; 97; 98; 100; 0; 99; 44; 0].
Definition text_mem : bytes := image 0x1000 text.

Ltac text_cstr :=
  split_and!; [intros i v Hi; repeat (destruct i as [|i]; [injection Hi as <-; reflexivity|]); done
  |rewrite !elem_of_cons, elem_of_nil; lia|reflexivity].
Lemma text_long : cstr text_mem 0x1000 [97; 98; 99; 97; 98; 100].
Proof. text_cstr. Qed.
Lemma text_short : cstr text_mem 0x1007 [97; 98; 100].
Proof. text_cstr. Qed.

Lemma libc_str_searches_ok_witness :
  libc_strlen 0x1000 text_mem = Ret 6 /\ libc_strrchr 0x1000 97 text_mem = Ret 0x1003.
Proof.
  destruct (libc_str_searches_ok _ _ _ 97 0 text_long ltac:(lia)) as (H1 & _ & _ & H4 & _).
  split; [exact H1|exact H4].
Defined.
Lemma libc_strcmp_ok_witness : libc_strcmp 0x1000 0x1007 text_mem = Ret (-1).
Proof. exact (proj1 (libc_strcmp_ok _ _ _ _ _ text_long text_short)). Defined.
Lemma libc_strstr_ok_witness : libc_strstr 0x1000 0x1007 text_mem = Ret 0x1003.
Proof.
  apply (libc_strstr_ok text_mem 0x1000 0x1007 [97; 98; 99; 97; 98; 100] [97; 98; 100]);
    [lia|lia|discriminate|apply text_long|apply text_short].
Defined.

Lemma text_units : units W8 text_mem 0x1000 [97; 98; 99; 97; 98; 100] /\ units W8 text_mem 0x1007 [97; 98; 100].
Proof.
  split; intros i v Hi; repeat (destruct i as [|i]; [injection Hi as <-; reflexivity|]); done.
Qed.
Lemma libc_memmem_ok_witness : libc_memmem 0x1000 6 0x1007 3 text_mem = Ret 0x1003.
Proof.
  exact (proj1 (libc_memmem_ok _ _ _ _ _ (proj1 text_units) (proj2 text_units) eq_refl eq_refl)).
Defined.

(** An empty needle is not found. *)
Lemma strstr_empty : libc_strstr 0x1000 0x1006 text_mem = Ret 0.
Proof. vm_compute. reflexivity. Qed.

(** [abd] in [ABD] or [Abd]: only the characters behind the first are folded. *)
Lemma strcasestr_first_exact :
  let m := image 0x1000 [65; 66; 68; 0; 97; 98; 100; 0] in
  libc_strcasestr 0x1000 0x1004 m = Ret 0 /\ libc_strcasecmp 0x1000 0x1004 m = Ret 0.
Proof. vm_compute. split; reflexivity. Qed.

(** The span of [ab] in [ab] counts its NUL and what lies behind. *)
Lemma strspn_passes_nul :
  let m := image 0x1000 [97; 98; 0; 97; 99; 0; 97; 98; 0] in
  libc_strspn 0x1000 0x1006 m = Ret 4.
Proof. vm_compute. reflexivity. Qed.

(** 'e' with an accent (0xe9) sorts before 'a'. *)
Lemma strcmp_signed :
  libc_strcmp 0x1000 0x1002 (image 0x1000 [-23; 0; 97; 0]) = Ret (-120).
Proof. vm_compute. reflexivity. Qed.
