(* ===== verification/LibcStrEdit.v ===== *)
(** * libc: strings that are written

    The functions of [libs/libc/templates/string.code] that copy, join, change or cut
    strings, their variants with an error code, and the ones of string.c that work on
    paths and bytes. *)
From stdpp Require Import base numbers list.
From S2P Require Import Prelude CMem LibcMem LibcStr.

Definition EOK : Z := 0.
Definition ERANGE : Z := 34.

(** ** Copying and joining *)

Definition libc_stpcpy (dst src : Z) (m : bytes) : outcome (Z * bytes) :=
  let! len := libc_strlen src m in
  let! (p, m) := libc_mempcpy W8 dst src (u32 (len + 1)) m in
  Ret (p - 1, m).
(** [stpncpy] and [strncpy] up to what they return. *)
Definition ncpy_body (dst src n : Z) (m : bytes) : outcome (Z * bytes) :=
  let! src_len := libc_strnlen src n m in
  let! (_, m) := libc_memcpy W8 dst src src_len m in
  let! (_, m) := libc_memset W8 (dst + src_len) 0 (u32 (n - src_len)) m in
  Ret (src_len, m).
Definition libc_stpncpy (dst src n : Z) (m : bytes) : outcome (Z * bytes) :=
  let! (src_len, m) := ncpy_body dst src n m in Ret (dst + src_len, m).
Definition libc_strncpy (dst src n : Z) (m : bytes) : outcome (Z * bytes) :=
  let! (_, m) := ncpy_body dst src n m in Ret (dst, m).
Definition libc_strcpy (dst src : Z) (m : bytes) : outcome (Z * bytes) :=
  let! len := libc_strlen src m in libc_memcpy W8 dst src (u32 (len + 1)) m.
Definition libc_strcat (dst src : Z) (m : bytes) : outcome (Z * bytes) :=
  let! e := libc_strend dst m in
  let! len := libc_strlen src m in
  let! (_, m) := libc_memcpy W8 e src (u32 (len + 1)) m in
  Ret (dst, m).
Definition libc_strncat (dst src n : Z) (m : bytes) : outcome (Z * bytes) :=
  let! src_len := libc_strnlen src n m in
  let! target := libc_strend dst m in
  let! (_, m) := libc_memcpy W8 target src src_len m in
  let! m := putc (target + src_len) 0 m in
  Ret (dst, m).

(** ** Functions with an error code *)

Definition libc_strcat_s (dst dstsize src : Z) (m : bytes) : outcome (Z * bytes) :=
  let! dstend := libc_strnend dst dstsize m in
  let! srclen := libc_strlen src m in
  let dstsize := u32 (dstsize - (dstend - dst)) in
  if dstsize <? u32 (srclen + 1) then Ret (ERANGE, m)
  else
    let! (_, m) := libc_memcpy W8 dstend src (u32 (srclen + 1)) m in
    Ret (EOK, m).
Definition libc_strcpy_s (dst dstsize src : Z) (m : bytes) : outcome (Z * bytes) :=
  let! srclen := libc_strlen src m in
  if dstsize <? u32 (srclen + 1) then Ret (ERANGE, m)
  else
    let! (_, m) := libc_memcpy W8 dst src (u32 (srclen + 1)) m in
    Ret (EOK, m).
Definition libc_strncat_s (dst dstsize src maxlen : Z) (m : bytes) : outcome (Z * bytes) :=
  let! dstend := libc_strnend dst dstsize m in
  let! srclen := libc_strnlen src maxlen m in
  let dstsize := u32 (dstsize - (dstend - dst)) in
  if dstsize <? u32 (srclen + 1) then Ret (ERANGE, m)
  else
    let! (_, m) := libc_memcpy W8 dstend src srclen m in
    let! m := putc (dstend + srclen) 0 m in
    Ret (EOK, m).
Definition libc_strncpy_s (dst dstsize src maxlen : Z) (m : bytes) : outcome (Z * bytes) :=
  let! srclen := libc_strnlen src maxlen m in
  if dstsize <? u32 (srclen + 1) then Ret (ERANGE, m)
  else
    let! (_, m) := libc_memcpy W8 dst src srclen m in
    let! m := putc (dst + srclen) 0 m in
    Ret (EOK, m).

(** ** Changing in place *)

(** [for (; str != end && *str; ++str) *str = f( *str)], without an end for [None]. *)
Definition map_loop (f : Z -> Z) (end_ : option Z) (str : Z) (m : bytes) : outcome bytes :=
  forever (fun s : Z * bytes =>
    let (str, m) := s in
    if bool_decide (end_ = Some str) then Ret (inr m)
    else
      let! ch := getc str m in
      if ch =? 0 then Ret (inr m)
      else let! m := putc str (f ch) m in Ret (inl (str + 1, m))) (str, m).
Definition libc_strlwr (str : Z) (m : bytes) : outcome (Z * bytes) :=
  let! m := map_loop libc_tolower None str m in Ret (str, m).
Definition libc_strupr (str : Z) (m : bytes) : outcome (Z * bytes) :=
  let! m := map_loop libc_toupper None str m in Ret (str, m).
Definition libc_strset (str chr : Z) (m : bytes) : outcome (Z * bytes) :=
  let! m := map_loop (fun _ => chr) None str m in Ret (str, m).
Definition libc_strnset (str chr maxlen : Z) (m : bytes) : outcome (Z * bytes) :=
  let! m := map_loop (fun _ => chr) (Some (str + maxlen)) str m in Ret (str, m).

Definition libc_strlwr_s (str buflen : Z) (m : bytes) : outcome (Z * bytes) :=
  let! len := libc_strnlen str buflen m in
  if len =? buflen then Ret (ERANGE, m)
  else let! (_, m) := libc_strlwr str m in Ret (EOK, m).
Definition libc_strupr_s (str buflen : Z) (m : bytes) : outcome (Z * bytes) :=
  let! len := libc_strnlen str buflen m in
  if len =? buflen then Ret (ERANGE, m)
  else let! (_, m) := libc_strupr str m in Ret (EOK, m).
Definition libc_strset_s (str buflen val : Z) (m : bytes) : outcome (Z * bytes) :=
  let! len := libc_strnlen str buflen m in
  if len =? buflen then Ret (ERANGE, m)
  else let! (_, m) := libc_strset str val m in Ret (EOK, m).
Definition libc_strnset_s (str buflen val maxlen : Z) (m : bytes) : outcome (Z * bytes) :=
  let! len := libc_strnlen str (Z.min buflen maxlen) m in
  let! (_, m) := libc_memset W8 str val len m in
  Ret (EOK, m).

(** ** Tokens, paths and bytes *)

(** The token, the saved pointer and memory.  [s] is 0 for NULL. *)
Definition libc_strtok_r (s delim save_ptr : Z) (m : bytes) : outcome (Z * Z * bytes) :=
  let s := if s =? 0 then save_ptr else s in
  let! c := getc s m in
  if c =? 0 then Ret (0, s, m)
  else
    let! n := libc_strspn s delim m in
    let s := s + n in
    let! c := getc s m in
    if c =? 0 then Ret (0, s, m)
    else
      let! n := libc_strcspn s delim m in
      let end_ := s + n in
      let! c := getc end_ m in
      if c =? 0 then Ret (s, end_, m)
      else
        let! m := putc end_ 0 m in
        Ret (s, end_ + 1, m).

Definition libc_memccpy (dst src c n : Z) (m : bytes) : outcome (Z * bytes) :=
  let end_ := dst + n in
  forever (fun s : Z * Z * bytes =>
    let '(dst_iter, src_iter, m) := s in
    if dst_iter =? end_ then Ret (inr (0, m))
    else
      let! v := load8 src_iter m in
      let! m := store8 dst_iter v m in
      Ret (if v =? c then inr (dst_iter + 1, m) else inl (dst_iter + 1, src_iter + 1, m))) (dst, src, m).
Definition libc_bcopy (src dst n : Z) (m : bytes) : outcome (Z * bytes) := libc_memmove W8 dst src n m.
Definition libc_bzero (s n : Z) (m : bytes) : outcome (Z * bytes) := libc_memset W8 s 0 n m.

(** ** Copies of strings *)

Lemma chars_mapped m p l : chars m p l -> mapped m p (zlen l).
Proof.
  intros Hc x Hx. unfold zlen in Hx.
  destruct (lookup_lt_is_Some_2 l (Z.to_nat (x - p))) as [v Hv]; [lia|].
  specialize (Hc _ _ Hv). replace (p + Z.of_nat (Z.to_nat (x - p))) with x in Hc by lia.
  unfold getc, load8 in Hc. destruct (m x); [by eexists|done].
Qed.

Lemma getc_ext m m' p q : m' p = m q -> getc p m' = getc q m.
Proof. intros E. unfold getc, load8. by rewrite E. Qed.

Lemma chars_copied m m' dst src k l :
  changed_to m m' dst k (fun x => m (src + (x - dst))) -> zlen l <= k -> chars m src l -> chars m' dst l.
Proof.
  intros Hc Hk Hl i v Hi. rewrite <- (Hl i v Hi). apply getc_ext. rewrite Hc.
  apply lookup_lt_Some in Hi. unfold zlen in Hk.
  destruct (Z.leb_spec dst (dst + Z.of_nat i)), (Z.ltb_spec (dst + Z.of_nat i) (dst + k)); try lia.
  cbn [andb]. f_equal. lia.
Qed.
Lemma chars_kept m m' dst k f p l :
  changed_to m m' dst k f -> p + zlen l <= dst \/ dst + k <= p -> chars m p l -> chars m' p l.
Proof.
  intros Hc Hd Hl i v Hi. rewrite <- (Hl i v Hi). apply getc_ext. rewrite Hc.
  apply lookup_lt_Some in Hi. unfold zlen in Hd.
  destruct (Z.leb_spec dst (p + Z.of_nat i)), (Z.ltb_spec (p + Z.of_nat i) (dst + k)); try done; lia.
Qed.

Lemma cstr_copied m m' dst src k s :
  changed_to m m' dst k (fun x => m (src + (x - dst))) -> zlen s + 1 <= k -> cstr m src s -> cstr m' dst s.
Proof.
  intros Hc Hk (Hs & H0 & Hl). split; [|done]. eapply chars_copied; [exact Hc| |done].
  unfold zlen in *. rewrite length_app. cbn. lia.
Qed.

Lemma cstr_mapped m p s : cstr m p s -> mapped m p (zlen s + 1).
Proof.
  intros (Hs & _). apply chars_mapped in Hs. unfold zlen in *. rewrite length_app in Hs. cbn in Hs.
  replace (Z.of_nat (length s) + 1) with (Z.of_nat (length s + 1)) by lia. done.
Qed.

(** Areas of [n] and [k] bytes. *)
Definition disjoint (p n q k : Z) : Prop := p + n <= q \/ q + k <= p.

Section Copies.

Context (m : bytes) (Hb : bytes_ok m).

(** The copy of [k] characters with [memcpy]. *)
Lemma memcpy_chars dst src l k :
  0 <= dst -> 0 <= src -> chars m src l -> 0 <= k <= zlen l -> mapped m dst k ->
  dst + k < 2 ^ 32 -> src + k < 2 ^ 32 -> disjoint dst k src k ->
  exists m', libc_memcpy W8 dst src k m = Ret (dst, m') /\
    changed_to m m' dst k (fun x => m (src + (x - dst))).
Proof.
  intros Hd0 Hs0 Hs Hk Hm Hd Hs1 Hdis. pose proof (memcpy_copies W8 dst src k m) as Hc.
  change (SZ W8) with 1 in Hc. rewrite Z.mul_1_r in Hc. apply Hc; try lia; try done.
  - apply chars_mapped in Hs. eapply mapped_sub; [exact Hs|lia|lia].
  - unfold apart. change (SZ W8) with 1. unfold disjoint in Hdis. lia.
Qed.

Lemma cstr_chars p s : cstr m p s -> chars m p (s ++ [0]) /\ zlen (s ++ [0]) = zlen s + 1.
Proof. intros (Hs & _). split; [done|]. unfold zlen. rewrite length_app. cbn. lia. Qed.

Lemma u32_len p s : cstr m p s -> u32 (zlen s + 1) = zlen s + 1.
Proof. intros (_ & _ & Hl). apply u32_fits. pose proof (zlen_nonneg s). lia. Qed.

Lemma libc_strcpy_ok dst src s :
  0 <= dst -> 0 <= src -> cstr m src s -> mapped m dst (zlen s + 1) ->
  dst + zlen s + 1 < 2 ^ 32 -> src + zlen s + 1 < 2 ^ 32 -> disjoint dst (zlen s + 1) src (zlen s + 1) ->
  exists m', libc_strcpy dst src m = Ret (dst, m') /\ cstr m' dst s /\
    changed_to m m' dst (zlen s + 1) (fun x => m (src + (x - dst))).
Proof.
  intros Hd0 Hs0 Hs Hm Hd1 Hs1 Hdis. unfold libc_strcpy. pose proof (zlen_nonneg s).
  rewrite (libc_strlen_ok m src s Hs). cbn [obind]. rewrite (u32_len src s Hs).
  destruct (cstr_chars src s Hs) as [Hc Hl].
  destruct (memcpy_chars dst src (s ++ [0]) (zlen s + 1)) as (m' & E & Hch); try done; try lia.
  exists m'. split_and!; [done|by eapply cstr_copied|done].
Qed.

Lemma cstr_join m' p d s :
  chars m' p d -> (0 ∉ d) -> cstr m' (p + zlen d) s -> zlen d + zlen s < 2 ^ 32 - 1 -> cstr m' p (d ++ s).
Proof.
  intros Hd H0 (Hs & Hs0 & _) Hl. split_and!.
  - rewrite <- app_assoc. by apply chars_app.
  - rewrite elem_of_app. tauto.
  - unfold zlen in *. rewrite length_app. lia.
Qed.

(** The string [t] of the size-checked functions is there, or the buffer is too small
    and nothing has changed. *)
Definition written_s (r : outcome (Z * bytes)) (dst dstsize : Z) (t : list Z) : Prop :=
  if zlen t <? dstsize then
    exists m', r = Ret (EOK, m') /\ cstr m' dst t /\
      forall x, x < dst \/ dst + dstsize <= x -> m' x = m x
  else r = Ret (ERANGE, m).

Lemma changed_outside m' p k f lo n x :
  changed_to m m' p k f -> lo <= p -> p + k <= lo + n -> x < lo \/ lo + n <= x -> m' x = m x.
Proof.
  intros Hc H1 H2 Hx. rewrite Hc. destruct (Z.leb_spec p x), (Z.ltb_spec x (p + k)); try done; lia.
Qed.

(** [memcpy] of [k] characters and a NUL behind them. *)
Lemma place_ok e src t k :
  zlen t = k -> 0 <= e -> 0 <= src -> e + k + 1 < 2 ^ 32 -> src + k < 2 ^ 32 ->
  chars m src t -> (0 ∉ t) -> mapped m e (k + 1) -> disjoint e (k + 1) src k ->
  exists m1 m', libc_memcpy W8 e src k m = Ret (e, m1) /\ putc (e + k) 0 m1 = Ret m' /\
    cstr m' e t /\ forall x, x < e \/ e + k + 1 <= x -> m' x = m x.
Proof.
  intros Hk He0 Hs0 He Hs1 Ht H0 Hm Hdis. pose proof (zlen_nonneg t). unfold disjoint in Hdis.
  destruct (memcpy_chars e src t k) as (m1 & E & Hc);
    [lia|lia|done|lia|eapply mapped_sub; [exact Hm|lia|lia]|lia|lia|unfold disjoint; lia|].
  destruct (store8_ok (e + k) 0 m1) as (m' & E' & Hc').
  { rewrite Hc. destruct (Z.ltb_spec (e + k) (e + k)); [lia|]. rewrite andb_false_r. apply Hm. lia. }
  exists m1, m'. split_and!; [done|done| |].
  - split_and!; [|done|lia]. apply chars_app. split.
    + eapply chars_kept; [exact Hc'|lia|]. eapply chars_copied; [exact Hc|lia|done].
    + intros [|i] v Hi; [|done]. injection Hi as <-. rewrite Hk. unfold getc, load8. rewrite Hc'.
      destruct (Z.leb_spec (e + k) (e + k + Z.of_nat 0)), (Z.ltb_spec (e + k + Z.of_nat 0) (e + k + 1));
        done || lia.
  - intros x Hx. rewrite Hc', Hc. destruct (Z.leb_spec e x), (Z.ltb_spec x (e + k)),
      (Z.leb_spec (e + k) x), (Z.ltb_spec x (e + k + 1)); try done; lia.
Qed.

(** What the joining functions leave: the old characters are in front of the new. *)
Lemma joined m' dst n d t :
  cstr_upto m dst n d -> zlen d + zlen t < n -> cstr m' (dst + zlen d) t ->
  (forall x, x < dst + zlen d \/ dst + zlen d + zlen t + 1 <= x -> m' x = m x) ->
  cstr m' dst (d ++ t) /\ forall x, x < dst \/ dst + n <= x -> m' x = m x.
Proof.
  intros (Hd & H0 & Hn) Hl Ht Hk. pose proof (zlen_nonneg t). pose proof (zlen_nonneg d).
  split; [|intros x Hx; apply Hk; lia]. apply cstr_join; [|done|done|lia].
  intros i v Hi. pose proof (lookup_lt_Some _ _ _ Hi) as Hlt.
  transitivity (getc (dst + Z.of_nat i) m); [apply getc_ext, Hk; unfold zlen; lia|]. apply Hd.
  unfold ztake. rewrite lookup_take, decide_True by (unfold zlen in *; lia). by apply lookup_app_l_Some.
Qed.

Context (dst dstsize src : Z) (Hd0 : 0 <= dst) (Hs0 : 0 <= src) (Hn : 0 <= dstsize)
  (Hd1 : dst + dstsize < 2 ^ 32) (Hm : mapped m dst dstsize).

(** The whole string behind what [dst] holds. *)
Lemma libc_strcat_s_ok d s :
  src + zlen s + 1 < 2 ^ 32 -> cstr_upto m dst dstsize d -> cstr m src s ->
  disjoint dst dstsize src (zlen s + 1) ->
  written_s (libc_strcat_s dst dstsize src m) dst dstsize (d ++ s).
Proof.
  intros Hs1 Hd Hs Hdis. unfold libc_strcat_s, written_s, disjoint in *.
  rewrite (libc_strnend_ok m dst dstsize d Hd). cbn [obind].
  rewrite (libc_strlen_ok m src s Hs). cbn [obind]. rewrite (u32_len src s Hs).
  pose proof (zlen_nonneg s). pose proof (zlen_nonneg d).
  replace (dstsize - (dst + Z.min dstsize (zlen d) - dst)) with (dstsize - Z.min dstsize (zlen d)) by lia.
  rewrite u32_fits, zlen_app by lia.
  destruct (Z.ltb_spec (dstsize - Z.min dstsize (zlen d)) (zlen s + 1)),
    (Z.ltb_spec (zlen d + zlen s) dstsize); [lia|done| |lia].
  rewrite Z.min_r by lia. destruct (cstr_chars src s Hs) as [Hc Hl].
  destruct (memcpy_chars (dst + zlen d) src (s ++ [0]) (zlen s + 1)) as (m' & E & Hch);
    [lia|lia|done|lia|eapply mapped_sub; [exact Hm|lia|lia]|lia|lia|unfold disjoint; lia|].
  exists m'. rewrite E. split; [done|]. apply joined; [done|lia|by eapply cstr_copied|].
  intros x Hx. eapply changed_outside; [exact Hch|reflexivity|reflexivity|lia].
Qed.

Lemma upto_chars p n s : cstr_upto m p n s -> chars m p (ztake n s).
Proof.
  intros (Hs & _) i v Hi. apply Hs. unfold ztake in *. apply lookup_take_Some in Hi as [Hi Hlt].
  rewrite lookup_take, decide_True by lia. by apply lookup_app_l_Some.
Qed.
Lemma upto_nonul p n s : cstr_upto m p n s -> 0 ∉ ztake n s.
Proof.
  intros (_ & H0 & _) Hin. apply H0. apply elem_of_take in Hin as (i & Hi & _).
  by eapply list_elem_of_lookup_2.
Qed.
Lemma upto_length p n s : cstr_upto m p n s -> zlen (ztake n s) = Z.min n (zlen s).
Proof. intros (_ & _ & Hn'). unfold zlen, ztake. rewrite length_take. lia. Qed.

(** At most [maxlen] characters of it. *)
Lemma libc_strncat_s_ok d s maxlen :
  src + Z.min maxlen (zlen s) < 2 ^ 32 -> cstr_upto m dst dstsize d ->
  cstr_upto m src maxlen s -> zlen s < 2 ^ 32 - 1 ->
  disjoint dst dstsize src (Z.min maxlen (zlen s)) ->
  written_s (libc_strncat_s dst dstsize src maxlen m) dst dstsize (d ++ ztake maxlen s).
Proof.
  intros Hs1 Hd Hs Hls Hdis. unfold libc_strncat_s, written_s, disjoint in *.
  rewrite (libc_strnend_ok m dst dstsize d Hd). cbn [obind].
  rewrite (libc_strnlen_ok m src maxlen s Hs). cbn [obind].
  pose proof (zlen_nonneg s). pose proof (zlen_nonneg d). pose proof (proj2 (proj2 Hs)) as Hml.
  pose proof (upto_length _ _ _ Hs) as Ht.
  set (k := Z.min maxlen (zlen s)) in *.
  replace (dstsize - (dst + Z.min dstsize (zlen d) - dst)) with (dstsize - Z.min dstsize (zlen d)) by lia.
  rewrite !u32_fits, zlen_app, Ht by lia.
  destruct (Z.ltb_spec (dstsize - Z.min dstsize (zlen d)) (k + 1)),
    (Z.ltb_spec (zlen d + k) dstsize); [lia|done| |lia].
  rewrite Z.min_r by lia.
  destruct (place_ok (dst + zlen d) src (ztake maxlen s) k) as (m1 & m' & E & E' & Hcs & Hk);
    [done|lia|lia|lia|lia| | |eapply mapped_sub; [exact Hm|lia|lia]|unfold disjoint; lia|].
  { by eapply upto_chars. } { by eapply upto_nonul. }
  exists m'. rewrite E. cbn [obind]. rewrite E'. split; [done|].
  apply joined; [done|lia|done|]. rewrite Ht. exact Hk.
Qed.

Lemma libc_strcpy_s_ok s :
  src + zlen s + 1 < 2 ^ 32 -> cstr m src s -> disjoint dst dstsize src (zlen s + 1) ->
  written_s (libc_strcpy_s dst dstsize src m) dst dstsize s.
Proof.
  intros Hs1 Hs Hdis. unfold libc_strcpy_s, written_s, disjoint in *.
  rewrite (libc_strlen_ok m src s Hs). cbn [obind]. rewrite (u32_len src s Hs).
  pose proof (zlen_nonneg s). destruct (cstr_chars src s Hs) as [Hc Hl].
  destruct (Z.ltb_spec dstsize (zlen s + 1)), (Z.ltb_spec (zlen s) dstsize); [lia|done| |lia].
  destruct (memcpy_chars dst src (s ++ [0]) (zlen s + 1)) as (m' & E & Hch);
    [lia|lia|done|lia|eapply mapped_sub; [exact Hm|lia|lia]|lia|lia|unfold disjoint; lia|].
  exists m'. rewrite E. split_and!; [done|by eapply cstr_copied|].
  intros x Hx. eapply changed_outside; [exact Hch|reflexivity|reflexivity|lia].
Qed.

Lemma libc_strncpy_s_ok s maxlen :
  src + Z.min maxlen (zlen s) < 2 ^ 32 -> cstr_upto m src maxlen s -> zlen s < 2 ^ 32 - 1 ->
  disjoint dst dstsize src (Z.min maxlen (zlen s)) ->
  written_s (libc_strncpy_s dst dstsize src maxlen m) dst dstsize (ztake maxlen s).
Proof.
  intros Hs1 Hs Hls Hdis. unfold libc_strncpy_s, written_s, disjoint in *.
  rewrite (libc_strnlen_ok m src maxlen s Hs). cbn [obind].
  pose proof (zlen_nonneg s). pose proof (proj2 (proj2 Hs)) as Hml.
  pose proof (upto_length _ _ _ Hs) as Ht. set (k := Z.min maxlen (zlen s)) in *.
  rewrite !u32_fits, Ht by lia.
  destruct (Z.ltb_spec dstsize (k + 1)), (Z.ltb_spec k dstsize); [lia|done| |lia].
  destruct (place_ok dst src (ztake maxlen s) k) as (m1 & m' & E & E' & Hcs & Hk);
    [done|lia|lia|lia|lia|by eapply upto_chars|by eapply upto_nonul
    |eapply mapped_sub; [exact Hm|lia|lia]|unfold disjoint; lia|].
  exists m'. rewrite E. cbn [obind]. rewrite E'. split_and!; [done|done|].
  intros x Hx. apply Hk. lia.
Qed.

End Copies.

(** C37: The size-checked copies and joins either leave exactly the string they promise
    inside the buffer, NUL included, and change nothing outside of it, or they return
    ERANGE and change nothing, just when string and NUL do not fit; a buffer that
    holds no NUL counts as full. *)
Theorem libc_str_s_ok m dst dstsize src d s maxlen :
  bytes_ok m -> 0 <= dst -> 0 <= src -> 0 <= dstsize -> dst + dstsize < 2 ^ 32 ->
  src + zlen s + 1 < 2 ^ 32 -> 0 <= maxlen < 2 ^ 32 -> mapped m dst dstsize ->
  cstr_upto m dst dstsize d -> cstr m src s -> disjoint dst dstsize src (zlen s + 1) ->
  written_s m (libc_strcpy_s dst dstsize src m) dst dstsize s /\
  written_s m (libc_strncpy_s dst dstsize src maxlen m) dst dstsize (ztake maxlen s) /\
  written_s m (libc_strcat_s dst dstsize src m) dst dstsize (d ++ s) /\
  written_s m (libc_strncat_s dst dstsize src maxlen m) dst dstsize (d ++ ztake maxlen s).
Proof.
  intros Hb Hd0 Hs0 Hn Hd1 Hs1 Hml Hm Hd Hs Hdis. pose proof (zlen_nonneg s).
  assert (Hu : cstr_upto m src maxlen s) by (by apply cstr_upto_of).
  assert (zlen s < 2 ^ 32 - 1) by apply Hs.
  assert (disjoint dst dstsize src (Z.min maxlen (zlen s))) by (unfold disjoint in *; lia).
  split_and!; [apply libc_strcpy_s_ok|apply libc_strncpy_s_ok|apply libc_strcat_s_ok|apply libc_strncat_s_ok];
    done || lia.
Qed.

(** [strcat] joins the strings when there is room behind the first. *)
Lemma libc_strcat_ok m dst src d s :
  bytes_ok m -> 0 <= dst -> 0 <= src -> dst + zlen d + zlen s + 1 < 2 ^ 32 -> src + zlen s + 1 < 2 ^ 32 ->
  cstr m dst d -> cstr m src s -> mapped m dst (zlen d + zlen s + 1) ->
  disjoint dst (zlen d + zlen s + 1) src (zlen s + 1) ->
  exists m', libc_strcat dst src m = Ret (dst, m') /\ cstr m' dst (d ++ s) /\
    forall x, x < dst \/ dst + (zlen d + zlen s + 1) <= x -> m' x = m x.
Proof.
  intros Hb Hd0 Hs0 Hd1 Hs1 Hd Hs Hm Hdis. unfold libc_strcat, disjoint in *.
  rewrite (libc_strend_ok m dst d Hd), (libc_strlen_ok m src s Hs). cbn [obind].
  rewrite (u32_len m src s Hs). pose proof (zlen_nonneg s). pose proof (zlen_nonneg d).
  destruct (cstr_chars m src s Hs) as [Hc Hl].
  destruct (memcpy_chars m Hb (dst + zlen d) src (s ++ [0]) (zlen s + 1)) as (m' & E & Hch);
    [lia|lia|done|lia|eapply mapped_sub; [exact Hm|lia|lia]|lia|lia|unfold disjoint; lia|].
  exists m'. rewrite E. split; [done|].
  apply (joined m m' dst (zlen d + zlen s + 1) d s); [apply cstr_upto_of; [lia|done]|lia|by eapply cstr_copied|].
  intros x Hx. eapply changed_outside; [exact Hch|reflexivity|reflexivity|lia].
Qed.

(** [strncpy] fills the buffer: the characters that fit, then NULs. *)
Lemma libc_strncpy_ok m dst src s n :
  bytes_ok m -> 0 <= dst -> 0 <= src -> dst + n < 2 ^ 32 -> src + n < 2 ^ 32 ->
  cstr_upto m src n s -> mapped m dst n -> disjoint dst n src (Z.min n (zlen s)) ->
  exists m', libc_strncpy dst src n m = Ret (dst, m') /\
    changed_to m m' dst n (fun x => if x <? dst + zlen s then m (src + (x - dst)) else Some 0).
Proof.
  intros Hb Hd0 Hs0 Hd1 Hs1 Hs Hm Hdis. unfold libc_strncpy, ncpy_body, disjoint in *.
  rewrite (libc_strnlen_ok m src n s Hs). cbn [obind]. pose proof (proj2 (proj2 Hs)) as Hn.
  pose proof (upto_length _ _ _ _ Hs) as Ht. pose proof (zlen_nonneg s).
  set (k := Z.min n (zlen s)) in *.
  destruct (memcpy_chars m Hb dst src (ztake n s) k) as (m1 & E & Hc);
    [lia|lia|by eapply upto_chars|lia|eapply mapped_sub; [exact Hm|lia|lia]|lia|lia|unfold disjoint; lia|].
  rewrite E. cbn [obind]. rewrite u32_fits by lia.
  pose proof (memset_fills W8 (dst + k) 0 (n - k) m1) as Hf. change (SZ W8) with 1 in Hf.
  rewrite Z.mul_1_r in Hf. destruct Hf as (m' & E' & Hc'); [lia|lia| |].
  { eapply changed_mapped; [exact Hc| |eapply mapped_sub; [exact Hm|lia|lia]].
    intros x Hx. pose proof (chars_mapped _ _ _ (upto_chars _ _ _ _ Hs)) as Hcm. apply Hcm. lia. }
  exists m'. rewrite E'. split; [done|]. replace n with (k + (n - k)) by lia.
  eapply changed_app; [lia|lia| |].
  - eapply changed_ext; [exact Hc|]. intros x Hx. cbn beta. by rewrite (proj2 (Z.ltb_lt _ _)) by lia.
  - eapply changed_ext; [exact Hc'|]. intros x Hx. cbn beta. rewrite Z.mod_1_r.
    rewrite (proj2 (Z.ltb_ge _ _)) by lia. done.
Qed.

(** ** Changes in place *)

Lemma map_loop_runs f s : forall p m,
  bytes_ok m -> cstr m p s ->
  exists m', runs (fun st : Z * bytes =>
    let (str, m) := st in
    if bool_decide (@None Z = Some str) then Ret (inr m)
    else
      let! ch := getc str m in
      if ch =? 0 then Ret (inr m)
      else let! m := putc str (f ch) m in Ret (inl (str + 1, m))) (p, m) (zlen s + 1) (Ret m') /\
    chars m' p (((fun c => s8 (f c)) <$> s) ++ [0]) /\
    forall x, x < p \/ p + zlen s <= x -> m' x = m x.
Proof.
  induction s as [|c s IH]; intros p m Hb Hs.
  - apply cstr_nil in Hs as E. exists m. split_and!; [|by apply cstr_nil in E as [? _]|done].
    apply runs_done. rewrite bool_decide_eq_false_2 by done. rewrite E. done.
  - apply cstr_mapped in Hs as Hm. apply cstr_cons in Hs as (E & Hc & Hs). rewrite zlen_cons in *.
    destruct (store8_ok p (f c) m) as (m1 & E1 & Hc1); [apply Hm; pose proof (zlen_nonneg s); lia|].
    destruct (IH (p + 1) m1) as (m' & Hr & Hch & Hk).
    { eapply changed_bytes_ok; [exact Hc1| |done]. intros x b _ [= <-]. apply Z.mod_pos_bound. lia. }
    { destruct Hs as (Hs & ?). split; [|done]. eapply chars_kept; [exact Hc1|lia|done]. }
    exists m'. split_and!.
    + eapply runs_step; [|exact Hr]. rewrite bool_decide_eq_false_2 by done. rewrite E. cbn [obind].
      rewrite (proj2 (Z.eqb_neq c 0)) by done. unfold putc. rewrite E1. done.
    + rewrite fmap_cons. apply chars_cons. split; [|done]. unfold getc, load8. rewrite Hk by lia.
      rewrite Hc1. destruct (Z.leb_spec p p), (Z.ltb_spec p (p + 1)); try lia. cbn. f_equal. unfold s8. mlia.
    + intros x Hx. pose proof (zlen_nonneg s). rewrite Hk by lia. rewrite Hc1.
      destruct (Z.leb_spec p x), (Z.ltb_spec x (p + 1)); try done; lia.
Qed.

(** [strlwr], [strupr] and [strset] change each character of the string and nothing else. *)
Lemma map_loop_ok f p m s :
  bytes_ok m -> cstr m p s ->
  exists m', map_loop f None p m = Ret m' /\ chars m' p (((fun c => s8 (f c)) <$> s) ++ [0]) /\
    forall x, x < p \/ p + zlen s <= x -> m' x = m x.
Proof.
  intros Hb Hs. destruct (map_loop_runs f s p m Hb Hs) as (m' & Hr & Hm'). exists m'. split; [|done].
  eapply runs_forever; [exact Hr|]. destruct Hs as (_ & _ & Hl). change (2 ^ 34) with 17179869184.
  change (2 ^ 32) with 4294967296 in Hl. lia.
Qed.

(** ** Tokens *)

(** Characters that do not hit are skipped. *)
Lemma find_tail_skip hit l h :
  Forall (fun x => forall k, hit (x :: k) = false) l ->
  find_tail hit (l ++ h) = Z.add (zlen l) <$> find_tail hit h.
Proof.
  induction 1 as [|x l Hx Hl IH]; [cbn [app]; by destruct (find_tail hit h)|].
  cbn [app find_tail]. rewrite Hx, IH, zlen_cons. destruct (find_tail hit h); cbn; [f_equal; lia|done].
Qed.

Lemma cstr_suffix m p d s : cstr m p (d ++ s) -> cstr m (p + zlen d) s.
Proof.
  intros (Hc & H0 & Hl). rewrite <- app_assoc in Hc. apply chars_app in Hc as [_ Hc].
  rewrite elem_of_app in H0. rewrite zlen_app in Hl. pose proof (zlen_nonneg d).
  split_and!; [done|tauto|lia].
Qed.

Lemma cstr_head m p s : cstr m p s -> s <> [] -> exists c, getc p m = Ret c /\ c <> 0.
Proof. destruct s as [|c s]; [done|]. intros Hs _. apply cstr_cons in Hs as (E & Hc & _). eauto. Qed.

Section Token.

Context (m : bytes) (p q : Z) (delim pre tok rest : list Z).
Context (Hq : 0 < q) (Hs : cstr m p (pre ++ tok ++ rest)) (Hd : cstr m q delim).
Context (Hpre : Forall (fun c => c ∈ delim) pre) (Htok : Forall (fun c => c ∉ delim) tok)
  (Hne : tok <> []) (Hrest : forall c, head rest = Some c -> c ∈ delim).

Lemma token_spn : libc_strspn p q m = Ret (zlen pre).
Proof.
  eapply libc_strspn_ok; [done|exact Hs|exact Hd|]. rewrite find_tail_skip.
  - destruct tok as [|x tok']; [done|]. apply Forall_cons in Htok as [Hx _].
    cbn [app find_tail out_set]. rewrite bool_decide_eq_true_2 by done. cbn. f_equal. lia.
  - eapply Forall_impl; [exact Hpre|]. intros x Hx k. cbn. apply bool_decide_eq_false_2. tauto.
Qed.

Lemma token_cspn : libc_strcspn (p + zlen pre) q m = Ret (zlen tok).
Proof.
  rewrite (libc_strcspn_ok m (p + zlen pre) q (tok ++ rest) delim) by (done || by apply cstr_suffix).
  f_equal. rewrite find_tail_skip, zlen_app.
  - destruct rest as [|c r]; cbn [find_tail in_set].
    + cbn. unfold zlen. cbn. lia.
    + rewrite bool_decide_eq_true_2 by (by apply Hrest). cbn. lia.
  - eapply Forall_impl; [exact Htok|]. intros x Hx k. cbn. by apply bool_decide_eq_false_2.
Qed.

End Token.

(** [strtok_r] skips delimiters, returns the token behind them with a NUL in the place of the
    delimiter that ends it, and continues behind that. *)
Theorem libc_strtok_r_ok m p q delim pre tok rest save :
  0 < p -> 0 < q -> cstr m p (pre ++ tok ++ rest) -> cstr m q delim ->
  Forall (fun c => c ∈ delim) pre -> Forall (fun c => c ∉ delim) tok -> tok <> [] ->
  (forall c, head rest = Some c -> c ∈ delim) ->
  exists m', cstr m' (p + zlen pre) tok /\ 
    match rest with
    | [] => m' = m /\ libc_strtok_r p q save m = Ret (p + zlen pre, p + zlen pre + zlen tok, m')
    | _ :: rest =>
        libc_strtok_r p q save m = Ret (p + zlen pre, p + zlen pre + zlen tok + 1, m') /\
        cstr m' (p + zlen pre + zlen tok + 1) rest /\
        forall x, x <> p + zlen pre + zlen tok -> m' x = m x
    end.
Proof.
  intros Hp Hq Hs Hd Hpre Htok Hne Hrest. pose proof (cstr_suffix _ _ _ _ Hs) as Htr.
  destruct (cstr_head _ _ _ Hs) as (c0 & E0 & Hc0); [destruct pre, tok; done|].
  destruct (cstr_head _ _ _ Htr) as (c1 & E1 & Hc1); [by destruct tok|].
  pose proof (cstr_suffix _ _ _ _ Htr) as He.
  assert (Hgo : libc_strtok_r p q save m =
    (let! c := getc (p + zlen pre + zlen tok) m in
     if c =? 0 then Ret (p + zlen pre, p + zlen pre + zlen tok, m)
     else let! m := putc (p + zlen pre + zlen tok) 0 m in
          Ret (p + zlen pre, p + zlen pre + zlen tok + 1, m))).
  { unfold libc_strtok_r. rewrite (proj2 (Z.eqb_neq p 0)) by lia. rewrite E0. cbn [obind].
    rewrite (proj2 (Z.eqb_neq c0 0)) by done.
    rewrite (token_spn m p q delim pre tok rest) by done. cbn [obind]. rewrite E1. cbn [obind].
    rewrite (proj2 (Z.eqb_neq c1 0)) by done.
    rewrite (token_cspn m p q delim pre tok rest) by done. done. }
  rewrite Hgo. destruct rest as [|c r].
  - exists m. rewrite app_nil_r in Htr. apply cstr_nil in He. rewrite He. done.
  - apply cstr_mapped in He as Hmap. apply cstr_cons in He as (Ec & Hc & He). rewrite Ec. cbn [obind].
    rewrite (proj2 (Z.eqb_neq c 0)) by done. unfold putc.
    destruct (store8_ok (p + zlen pre + zlen tok) 0 m) as (m' & E' & Hc').
    { apply Hmap. rewrite zlen_cons. pose proof (zlen_nonneg r). lia. }
    exists m'. rewrite E'. destruct Htr as (Htr & H0 & Hl). apply chars_app in Htr as [Htr _].
    rewrite zlen_app in Hl. pose proof (zlen_nonneg (c :: r)). rewrite elem_of_app in H0.
    apply chars_app in Htr as [Htr _]. split; [split; [|split; [tauto|lia]]|split_and!; [done| |]].
    + apply chars_app. split; [eapply chars_kept; [exact Hc'|lia|done]|].
      intros [|i] v Hi; [|done]. injection Hi as <-. unfold getc, load8. rewrite Z.add_0_r, Hc'.
      by rewrite Z.leb_refl, (proj2 (Z.ltb_lt _ _)) by lia.
    + destruct He as (He & ?). split; [|done]. eapply chars_kept; [exact Hc'|lia|done].
    + intros x Hx. rewrite Hc'. destruct (Z.leb_spec (p + zlen pre + zlen tok) x),
        (Z.ltb_spec x (p + zlen pre + zlen tok + 1)); try done; lia.
Qed.

(** ** Concrete runs *)

(** A buffer of 8 bytes with [ab], and [c,d;] as a source, [,;] as delimiters. *)
Definition sample : bytes :=
  image 0x1000 [97; 98; 0; 1; 1; 1; 1; 1; 99; 44; 100; 59; 0; 44; 59; 0].

Lemma image_bytes_ok p l : bytes_ok (image p l).
Proof.
  intros x b. unfold image. destruct (x <? p); [done|]. intros H. apply fmap_Some in H as (c & _ & ->).
  apply Z.mod_pos_bound. lia.
Qed.
Lemma sample_src : cstr sample 0x1008 [99; 44; 100; 59].
Proof. text_cstr. Qed.
Lemma sample_delim : cstr sample 0x100d [44; 59].
Proof. text_cstr. Qed.
Lemma sample_dst : cstr sample 0x1000 [97; 98].
Proof. text_cstr. Qed.
Lemma sample_mapped : mapped sample 0x1000 8.
Proof.
  intros x Hx. assert (Hc : x = 0x1000 \/ x = 0x1001 \/ x = 0x1002 \/ x = 0x1003 \/
    x = 0x1004 \/ x = 0x1005 \/ x = 0x1006 \/ x = 0x1007) by lia.
  repeat (destruct Hc as [-> |Hc]; [by eexists|]). subst x. by eexists.
Qed.

Lemma libc_str_s_ok_witness :
  (exists m', libc_strcat_s 0x1000 8 0x1008 sample = Ret (EOK, m') /\ cstr m' 0x1000 [97; 98; 99; 44; 100; 59]) /\
  libc_strcat_s 0x1000 6 0x1008 sample = Ret (ERANGE, sample).
Proof.
  pose proof (fun n => libc_str_s_ok sample 0x1000 n 0x1008 [97; 98] [99; 44; 100; 59] 0
    (image_bytes_ok _ _)) as Hw. split.
  - destruct (Hw 8) as (_ & _ & (m' & E & Hc & _) & _);
      [lia|lia|lia|reflexivity|reflexivity|lia|apply sample_mapped
      |apply cstr_upto_of; [lia|apply sample_dst]|apply sample_src|left; reflexivity|].
    exists m'. split; [exact E|exact Hc].
  - destruct (Hw 6) as (_ & _ & E & _);
      [lia|lia|lia|reflexivity|reflexivity|lia|eapply mapped_sub; [apply sample_mapped|lia|lia]
      |apply cstr_upto_of; [lia|apply sample_dst]|apply sample_src|left; discriminate|].
    exact E.
Defined.

Lemma libc_strtok_r_ok_witness :
  exists m', libc_strtok_r 0x1008 0x100d 0 sample = Ret (0x1008, 0x100a, m') /\ cstr m' 0x1008 [99] /\ cstr m' 0x100a [100; 59].
Proof.
  destruct (libc_strtok_r_ok sample 0x1008 0x100d [44; 59] [] [99] [44; 100; 59] 0) as (m' & Hc & E & Hr & _);
    [lia|lia|apply sample_src|apply sample_delim|constructor| |discriminate| |].
  - repeat constructor. rewrite !elem_of_cons, elem_of_nil. lia.
  - intros c [= <-]. apply elem_of_cons. by left.
  - exists m'. split; [exact E|]. split; [exact Hc|exact Hr].
Defined.

(** A string of delimiters only: the token comes from behind its NUL. *)
Lemma strtok_behind_end :
  let m := image 0x1000 [44; 0; 120; 121; 0; 44; 0] in
  (let! (tok, save, _) := libc_strtok_r 0x1000 0x1005 0 m in Ret (tok, save)) = Ret (0x1002, 0x1004).
Proof. vm_compute. reflexivity. Qed.

(** [memccpy] compares the byte with an [int]: (char)-1 is never found. *)
Lemma memccpy_negative :
  let m := image 0x1000 [-1; 7; 1; 1] in
  (let! (p, _) := libc_memccpy 0x1002 0x1000 (-1) 2 m in Ret p) = Ret 0 /\
  (let! (p, _) := libc_memccpy 0x1002 0x1000 255 2 m in Ret p) = Ret 0x1003.
Proof. vm_compute. split; reflexivity. Qed.
