(* ===== verification/LibcNum.v ===== *)
(** * libc: numbers in strings

    [strtou32], [strtou64], [strto32], [strto64], [ato32] and [ato64] of
    [libs/libc/templates/string.code], and the [ffs] family of string.c. *)
From stdpp Require Import base numbers list.
From S2P Require Import Prelude CMem LibcMem LibcStr.

(** ** Parsing *)

(** The prefix that selects the base when none is given: [0x], [0b] or [0]. *)
Definition tou_base (nptr base : Z) (m : bytes) : outcome (Z * Z) :=
  if base =? 0 then
    let! ch := getc nptr m in
    if ch =? 48 then
      let nptr := nptr + 1 in
      let! ch := getc nptr m in
      if (ch =? 120) || (ch =? 88) then Ret (nptr + 1, 16)
      else if (ch =? 98) || (ch =? 66) then Ret (nptr + 1, 2)
      else Ret (nptr, 8)
    else Ret (nptr, 10)
  else Ret (nptr, base).

(** The value of a digit or letter. *)
Definition digit_of (ch : Z) : option Z :=
  if (48 <=? ch) && (ch <=? 57) then Some (ch - 48)
  else if (97 <=? ch) && (ch <=? 122) then Some (10 + (ch - 97))
  else if (65 <=? ch) && (ch <=? 90) then Some (10 + (ch - 65))
  else None.

(** [strtou32] and [strtou64], with the width of the result: the result and [*endptr]. *)
Definition Xstr_tou (bits nptr base : Z) (m : bytes) : outcome (Z * Z) :=
  let! (nptr, base) := tou_base nptr base m in
  scan never (fun nptr ch result =>
    match digit_of ch with
    | None => Ret (inr (result, nptr))
    | Some temp =>
        if base mod 2 ^ bits <=? temp then Ret (inr (result, nptr))
        else Ret (inl ((result * base + temp) mod 2 ^ bits))
    end) m nptr 0.
Definition libc_strtou32 (nptr base : Z) (m : bytes) : outcome (Z * Z) := Xstr_tou 32 nptr base m.
Definition libc_strtou64 (nptr base : Z) (m : bytes) : outcome (Z * Z) := Xstr_tou 64 nptr base m.

Definition signed (bits x : Z) : Z := (x + 2 ^ (bits - 1)) mod 2 ^ bits - 2 ^ (bits - 1).

(** [strto32] and [strto64]: every leading minus changes the sign. *)
Definition Xstr_to (bits nptr base : Z) (m : bytes) : outcome (Z * Z) :=
  let! (is_neg, nptr) := scan never (fun nptr ch is_neg =>
    Ret (if ch =? 45 then inl (negb is_neg) else inr (is_neg, nptr))) m nptr false in
  let! (result, endptr) := Xstr_tou bits nptr base m in
  let result := signed bits result in
  Ret (if is_neg : bool then signed bits (- result) else result, endptr).
Definition libc_strto32 (nptr base : Z) (m : bytes) : outcome (Z * Z) := Xstr_to 32 nptr base m.
Definition libc_strto64 (nptr base : Z) (m : bytes) : outcome (Z * Z) := Xstr_to 64 nptr base m.
Definition libc_ato32 (nptr : Z) (m : bytes) : outcome Z :=
  let! (r, _) := libc_strto32 nptr 10 m in Ret r.
Definition libc_ato64 (nptr : Z) (m : bytes) : outcome Z :=
  let! (r, _) := libc_strto64 nptr 10 m in Ret r.

(** ** ffs *)

Definition DO_FFS (i : Z) : outcome Z :=
  if i =? 0 then Ret 0
  else forever (fun s : Z * Z =>
    let (result, i) := s in
    Ret (if Z.land i 1 =? 0 then inl (result + 1, Z.shiftr i 1) else inr result)) (1, i).
Definition libc_ffs8 (i : Z) : outcome Z := DO_FFS i.
Definition libc_ffs16 (i : Z) : outcome Z := DO_FFS i.
Definition libc_ffs32 (i : Z) : outcome Z := DO_FFS i.
Definition libc_ffs64 (i : Z) : outcome Z := DO_FFS i.

(** ** Parsing is right *)

(** What digits with these values stand for. *)
Definition value (base : Z) (ds : list Z) : Z := fold_left (fun a d => a * base + d) ds 0.

(** [c] stands for [d], and [c] ends a number. *)
Definition is_digit (base c d : Z) : Prop := digit_of c = Some d /\ d < base.
Definition ends_number (base c : Z) : Prop := forall d, digit_of c = Some d -> base <= d.

Lemma digit_nonneg c d : digit_of c = Some d -> 0 <= d < 36.
Proof. unfold digit_of. repeat bcase; intros [= <-]; lia. Qed.

Lemma tou_loop bits base cs ds c p acc :
  0 < base < 2 ^ bits -> Forall2 (is_digit base) cs ds -> ends_number base c ->
  scanl never (fun nptr ch result =>
    match digit_of ch with
    | None => Ret (inr (result, nptr))
    | Some temp =>
        if base mod 2 ^ bits <=? temp then Ret (inr (result, nptr))
        else Ret (inl ((result * base + temp) mod 2 ^ bits))
    end) p (acc mod 2 ^ bits) (cs ++ [c])
  = Ret (fold_left (fun a d => a * base + d) ds acc mod 2 ^ bits, p + zlen cs).
Proof.
  intros Hb Hd Hc. rewrite (Z.mod_small base) by lia.
  revert p acc. induction Hd as [|c0 d cs ds [Hc0 Hlt] Hd IH]; intros p acc; cbn [app scanl never fold_left].
  - replace (p + zlen []) with p by (unfold zlen; cbn; lia).
    destruct (digit_of c) as [d|] eqn:E; [|done]. rewrite (proj2 (Z.leb_le base d)) by (by apply Hc). done.
  - rewrite Hc0, (proj2 (Z.leb_gt base d)) by done. cbn [obind].
    assert (E : (acc mod 2 ^ bits * base + d) mod 2 ^ bits = (acc * base + d) mod 2 ^ bits).
    { rewrite Z.add_mod, Z.mul_mod_idemp_l, <- Z.add_mod by lia. done. }
    rewrite E, IH, zlen_cons. do 2 f_equal. lia.
Qed.

(** The digits of a number in a base that is given. *)
Lemma Xstr_tou_ok bits base m p cs ds c :
  (bits = 32 \/ bits = 64) -> 2 <= base <= 36 -> zlen cs < 2 ^ 32 -> chars m p (cs ++ [c]) ->
  Forall2 (is_digit base) cs ds -> ends_number base c ->
  Xstr_tou bits p base m = Ret (value base ds mod 2 ^ bits, p + zlen cs).
Proof.
  intros Hbits Hb Hl Hc Hd He. unfold Xstr_tou, tou_base. rewrite (proj2 (Z.eqb_neq base 0)) by lia.
  cbn [obind]. eapply scan_ok; [exact Hc| |].
  - unfold zlen in *. rewrite length_app. cbn [length]. change (2 ^ 33) with 8589934592.
    change (2 ^ 32) with 4294967296 in Hl. lia.
  - rewrite <- (Z.mod_0_l (2 ^ bits)) at 1;
      [|destruct Hbits as [-> | ->]; done].
    apply tou_loop; try done. split; [lia|]. destruct Hbits as [-> | ->];
      [change (2 ^ 32) with 4294967296|change (2 ^ 64) with 18446744073709551616]; lia.
Qed.

(** The prefixes: [0x], [0b], [0] and none. *)
Lemma tou_base_ok m p ch c :
  getc p m = Ret ch -> getc (p + 1) m = Ret c ->
  tou_base p 0 m = Ret (
    if ch =? 48 then
      if (c =? 120) || (c =? 88) then (p + 2, 16)
      else if (c =? 98) || (c =? 66) then (p + 2, 2) else (p + 1, 8)
    else (p, 10)).
Proof.
  intros E E'. unfold tou_base. cbn [Z.eqb]. rewrite E. cbn [obind]. destruct (ch =? 48); [|done].
  rewrite E'. cbn [obind]. replace (p + 1 + 1) with (p + 2) by lia.
  destruct ((c =? 120) || (c =? 88)); [done|]. by destruct ((c =? 98) || (c =? 66)).
Qed.

(** ** Printed numbers *)

(** The usual way to write a number in a base. *)
Definition digit_char (d : Z) : Z := if d <? 10 then 48 + d else 87 + d.
Fixpoint show (fuel : nat) (base n : Z) (acc : list Z) : list Z :=
  match fuel with
  | O => acc
  | S fuel =>
      if n <? base then digit_char n :: acc
      else show fuel base (n / base) (digit_char (n mod base) :: acc)
  end.
(** A number has at most as many digits as bits. *)
Definition printed (base n : Z) : list Z := show (S (Z.to_nat (Z.log2 n))) base n [].

Lemma digit_char_ok base d : 0 <= d < base -> base <= 36 -> is_digit base (digit_char d) d.
Proof.
  intros Hd Hb. split; [|lia]. unfold digit_of, digit_char. destruct (Z.ltb_spec d 10).
  - destruct (Z.leb_spec 48 (48 + d)), (Z.leb_spec (48 + d) 57); try lia. cbn. f_equal. lia.
  - destruct (Z.leb_spec 48 (87 + d)), (Z.leb_spec (87 + d) 57), (Z.leb_spec 97 (87 + d)),
      (Z.leb_spec (87 + d) 122); try lia. cbn. f_equal. lia.
Qed.

Lemma show_ok base fuel : forall n acc ds,
  2 <= base <= 36 -> 0 <= n < base ^ Z.of_nat fuel -> (0 < fuel)%nat -> Forall2 (is_digit base) acc ds ->
  exists ds', Forall2 (is_digit base) (show fuel base n acc) ds' /\
    value base ds' = fold_left (fun a d => a * base + d) ds n.
Proof.
  induction fuel as [|fuel IH]; intros n acc ds Hb Hn Hf Hd; [lia|]. cbn [show].
  destruct (Z.ltb_spec n base) as [Hlt|Hge].
  - exists (n :: ds). split; [constructor; [apply digit_char_ok; lia|done]|]. done.
  - replace (Z.of_nat (S fuel)) with (Z.succ (Z.of_nat fuel)) in Hn by lia.
    rewrite Z.pow_succ_r in Hn by lia.
    destruct (IH (n / base) (digit_char (n mod base) :: acc) (n mod base :: ds)) as (ds' & Hd' & Hv).
    + done.
    + split; [apply Z.div_pos; lia|]. apply Z.div_lt_upper_bound; lia.
    + destruct fuel; [change (base ^ Z.of_nat 0) with 1 in Hn; lia|lia].
    + constructor; [|done]. apply digit_char_ok; [apply Z.mod_pos_bound; lia|lia].
    + exists ds'. split; [done|]. rewrite Hv. cbn [fold_left]. f_equal.
      rewrite (Z.div_mod n base) at 3 by lia. lia.
Qed.

Lemma printed_ok base n :
  2 <= base <= 36 -> 0 <= n ->
  exists ds, Forall2 (is_digit base) (printed base n) ds /\ value base ds = n.
Proof.
  intros Hb Hn. apply (show_ok base _ n [] []); [done| |lia|constructor]. split; [done|].
  destruct (Z.eq_dec n 0) as [->|Hne]; [apply Z.pow_pos_nonneg; lia|].
  pose proof (Z.log2_spec n ltac:(lia)) as [_ Hlog]. pose proof (Z.log2_nonneg n).
  replace (Z.of_nat (S (Z.to_nat (Z.log2 n)))) with (Z.succ (Z.log2 n)) by lia.
  eapply Z.lt_le_trans; [exact Hlog|]. apply Z.pow_le_mono_l. lia.
Qed.

Lemma show_length fuel base : forall n acc, (length acc <= length (show fuel base n acc))%nat.
Proof.
  induction fuel as [|fuel IH]; intros n acc; cbn [show]; [done|]. bcase; cbn [length]; [lia|].
  etransitivity; [|apply IH]. cbn. lia.
Qed.
Lemma printed_head base n :
  2 <= base <= 36 -> 0 <= n -> exists c cs, printed base n = c :: cs /\ c <> 45.
Proof.
  intros Hb Hn. destruct (printed_ok base n Hb Hn) as (ds & Hd & _).
  assert (Hl : (0 < length (printed base n))%nat).
  { unfold printed. cbn [show]. bcase; [cbn; lia|].
    eapply Nat.lt_le_trans; [|apply show_length]. cbn. lia. }
  destruct (printed base n) as [|c cs]; [cbn in Hl; lia|]. exists c, cs. split; [done|].
  inversion Hd as [|? d ? ? [Hc _]]; subst. intros ->. discriminate Hc.
Qed.
Lemma printed_length base n : 0 <= n < 2 ^ 64 -> zlen (printed base n) <= 64.
Proof.
  intros Hn. assert (Hs : forall fuel k acc, (length (show fuel base k acc) <= fuel + length acc)%nat).
  { induction fuel as [|fuel IH]; intros k acc; cbn [show]; [done|]. bcase; cbn [length]; [lia|].
    etransitivity; [apply IH|]. cbn. lia. }
  unfold printed, zlen. specialize (Hs (S (Z.to_nat (Z.log2 n))) n []). cbn [length] in Hs.
  destruct (Z.eq_dec n 0) as [->|]; [change (Z.log2 0) with 0 in *; lia|].
  assert (Z.log2 n < 64) by (apply Z.log2_lt_pow2; lia). pose proof (Z.log2_nonneg n). lia.
Qed.

(** At most one minus in front of a number. *)
Lemma minus_ok m p neg l :
  chars m p ((if neg : bool then [45] else []) ++ l) -> (exists c cs, l = c :: cs /\ c <> 45) ->
  scan never (fun nptr ch is_neg => Ret (if ch =? 45 then inl (negb is_neg) else inr (is_neg, nptr)))
    m p false = Ret (neg, p + if neg then 1 else 0).
Proof.
  intros Hc (c & cs & -> & Hne). destruct neg; cbn [app] in Hc.
  - apply chars_cons in Hc as [E Hc]. apply chars_cons in Hc as [E' _].
    eapply (scan_ok _ _ m p false [45; c]); [|reflexivity|].
    + rewrite !chars_cons. split_and!; [done|done|]. intros i v Hi. done.
    + cbn. by rewrite (proj2 (Z.eqb_neq c 45)) by done.
  - apply chars_cons in Hc as [E _]. eapply (scan_ok _ _ m p false [c]); [|reflexivity|].
    + rewrite chars_cons. split; [done|]. intros i v Hi. done.
    + cbn [scanl never obind]. rewrite (proj2 (Z.eqb_neq c 45)) by done. by rewrite Z.add_0_r.
Qed.

(** C38: Parsing undoes printing: a number of 32 or 64 bits, written in any base of 2 to 36
    with a minus when negative, is read back by [strto32] or [strto64], and the end
    pointer is behind its last digit. *)
Theorem libc_strto_roundtrip bits base n m p c :
  bits = 32 \/ bits = 64 -> 2 <= base <= 36 -> - 2 ^ (bits - 1) <= n < 2 ^ (bits - 1) ->
  chars m p ((if n <? 0 then [45] else []) ++ printed base (Z.abs n) ++ [c]) -> ends_number base c ->
  Xstr_to bits p base m =
    Ret (n, p + (if n <? 0 then 1 else 0) + zlen (printed base (Z.abs n))).
Proof.
  intros Hbits Hb Hn Hc He.
  destruct (printed_head base (Z.abs n) Hb ltac:(lia)) as (c0 & cs & Ec & Hne).
  assert (Habs : Z.abs n < 2 ^ 64 /\ Z.abs n < 2 ^ bits /\ 2 ^ bits = 2 * 2 ^ (bits - 1)).
  { destruct Hbits as [-> | ->]; cbn in Hn |- *; lia. }
  unfold Xstr_to. rewrite (minus_ok m p (n <? 0) (printed base (Z.abs n) ++ [c]));
    [|done|rewrite Ec; by eexists _, _]. cbn [obind].
  destruct (printed_ok base (Z.abs n) Hb ltac:(lia)) as (ds & Hd & Hv).
  pose proof (printed_length base (Z.abs n) ltac:(lia)) as Hlen.
  rewrite (Xstr_tou_ok bits base m (p + if n <? 0 then 1 else 0) (printed base (Z.abs n)) ds c);
    [|done|done|change (2 ^ 32) with 4294967296; lia| |done|done].
  - cbn [obind]. rewrite Hv, Z.mod_small by lia. unfold signed.
    do 2 f_equal. destruct Hbits as [-> | ->];
      [change (2 ^ (32 - 1)) with 2147483648 in *; change (2 ^ 32) with 4294967296 in *
      |change (2 ^ (64 - 1)) with 9223372036854775808 in *; change (2 ^ 64) with 18446744073709551616 in *];
      destruct (Z.ltb_spec n 0); mlia.
  - destruct (n <? 0); cbn [app] in Hc; [by apply chars_cons in Hc as [_ ?]|by rewrite Z.add_0_r].
Qed.

(** ** ffs is right *)

Lemma ffs_runs k : forall i r, Z.odd i = true ->
  runs (fun s : Z * Z =>
    let (result, i) := s in
    Ret (if Z.land i 1 =? 0 then inl (result + 1, Z.shiftr i 1) else inr result))
    (r, i * 2 ^ Z.of_nat k) (Z.of_nat k + 1) (Ret (r + Z.of_nat k)).
Proof.
  induction k as [|k IH]; intros i r Hi.
  - rewrite Z.mul_1_r, !Z.add_0_r, Z.add_0_l. apply runs_done.
    rewrite (Z.land_ones i 1 ltac:(lia) : Z.land i 1 = i mod 2).
    rewrite Zmod_odd, Hi. done.
  - replace (Z.of_nat (S k)) with (Z.of_nat k + 1) by lia.
    replace (r + (Z.of_nat k + 1)) with (r + 1 + Z.of_nat k) by lia.
    eapply runs_step; [|by apply IH].
    rewrite (Z.land_ones _ 1 ltac:(lia) : Z.land (i * 2 ^ (Z.of_nat k + 1)) 1 = (i * 2 ^ (Z.of_nat k + 1)) mod 2).
    rewrite Z.pow_add_r, Z.mul_assoc, Z.pow_1_r by lia. rewrite Z.mod_mul by lia. cbn [Z.eqb].
    do 3 f_equal. rewrite Z.shiftr_div_pow2 by lia. change (2 ^ 1) with 2. by rewrite Z.div_mul by lia.
Qed.

(** [ffs] is the number of the lowest bit that is set, counted from 1. *)
Lemma DO_FFS_ok i k : 0 <= k <= 63 -> Z.odd i = true -> DO_FFS (i * 2 ^ k) = Ret (k + 1).
Proof.
  intros Hk Hi. unfold DO_FFS. rewrite (proj2 (Z.eqb_neq _ 0)).
  - pose proof (ffs_runs (Z.to_nat k) i 1 Hi) as Hr. rewrite Z2Nat.id in Hr by lia.
    replace (k + 1) with (1 + k) by lia. eapply runs_forever; [exact Hr|].
    change (2 ^ 34) with 17179869184. lia.
  - assert (2 ^ k <> 0) by (apply Z.pow_nonzero; lia). assert (i <> 0) by (by intros ->). lia.
Qed.

(** ** Concrete runs *)

(** [-7fff;] and [ 12]. *)
Definition number : bytes := image 0x1000 [45; 55; 102; 102; 102; 59; 32; 49; 50; 0].

Lemma libc_strto_roundtrip_witness : libc_strto32 0x1000 16 number = Ret (-0x7fff, 0x1005).
Proof.
  apply (libc_strto_roundtrip 32 16 (-0x7fff) number 0x1000 59); [by left|lia|lia| |].
  - intros i v Hi. repeat (destruct i as [|i]; [injection Hi as <-; reflexivity|]). done.
  - intros d [=].
Defined.

(** A blank in front of a number, or a plus, is not skipped. *)
Lemma strto32_no_blank : libc_strto32 0x1006 10 number = Ret (0, 0x1006).
Proof. vm_compute. reflexivity. Qed.
(** Too large a number wraps: [4294967297] is 1. *)
Lemma strtou32_wraps :
  libc_strtou32 0x1000 10 (image 0x1000 [52; 50; 57; 52; 57; 54; 55; 50; 57; 55; 0]) = Ret (1, 0x100a).
Proof. vm_compute. reflexivity. Qed.
(** [0x] with no digits behind consumes the prefix, and a given base 16 stops at its [x]. *)
Lemma strtou32_prefix :
  libc_strtou32 0x1000 16 (image 0x1000 [48; 120; 49; 48; 0]) = Ret (0, 0x1001).
Proof. vm_compute. reflexivity. Qed.
