(* ===== verification/LibcWild.v ===== *)
(** * libc: wildcards

    [libc_wildstrcmp] and [libc_wildstrcasecmp] of string.c.  The recursion is bounded by
    [fuel]; a call needs no more than the characters of both strings and one. *)
From stdpp Require Import base numbers list.
From S2P Require Import Prelude CMem LibcMem LibcStr LibcStrEdit.

Definition STAR : Z := 42.
Definition ANY : Z := 63.

(** [while ( *pattern == '*') ++pattern;] *)
Definition skip_stars (pattern : Z) (m : bytes) : outcome Z :=
  scan never (fun p ch _ => Ret (if ch =? STAR then inl () else inr p)) m pattern ().

(** [UNIFORM] is the identity for [wildstrcmp], [tolower] for [wildstrcasecmp].  The call
    behind a star has its arguments in the order of the source. *)
Fixpoint wild (UNIFORM : Z -> Z) (fuel : nat) (pattern string : Z) (m : bytes) : outcome Z :=
  match fuel with
  | O => Abort
  | S fuel =>
      let! sc := getc string m in
      if sc =? 0 then
        let! pattern := skip_stars pattern m in
        let! pc := getc pattern m in
        Ret (- UNIFORM pc)
      else
        let! pc := getc pattern m in
        if pc =? 0 then Ret sc
        else if pc =? STAR then
          let! pattern := skip_stars (pattern + 1) m in
          let! card_post := getc pattern m in
          let pattern := pattern + 1 in
          if card_post =? 0 then Ret 0
          else if card_post =? ANY then wild UNIFORM fuel (pattern + 1) (string + 1) m
          else
            let card_post := UNIFORM card_post in
            scan never (fun string ch _ =>
              if UNIFORM ch =? card_post then
                let! r := wild UNIFORM fuel (string + 1) pattern m in
                Ret (if r =? 0 then inr 0 else inl ())
              else Ret (if ch =? 0 then inr (- card_post) else inl ())) m string ()
        else if (UNIFORM pc =? UNIFORM sc) || (pc =? ANY)
        then wild UNIFORM fuel (pattern + 1) (string + 1) m
        else Ret (UNIFORM sc - UNIFORM pc)
  end.
Definition libc_wildstrcmp (fuel : nat) (pattern string : Z) (m : bytes) : outcome Z :=
  wild id fuel pattern string m.
Definition libc_wildstrcasecmp (fuel : nat) (pattern string : Z) (m : bytes) : outcome Z :=
  wild libc_tolower fuel pattern string m.

(** ** Termination *)

Fixpoint drop_stars (l : list Z) : list Z :=
  match l with [] => [] | c :: l' => if c =? STAR then drop_stars l' else l end.

Lemma skip_stars_ok m p s :
  cstr m p s ->
  skip_stars p m = Ret (p + (zlen s - zlen (drop_stars s))) /\
  cstr m (p + (zlen s - zlen (drop_stars s))) (drop_stars s) /\ (length (drop_stars s) <= length s)%nat.
Proof.
  intros Hs.
  assert (Hd : forall q s, cstr m q s ->
    scanl never (fun p ch (_ : ()) => Ret (if ch =? STAR then inl () else inr p)) q () (s ++ [0])
      = Ret (q + (zlen s - zlen (drop_stars s))) /\
    cstr m (q + (zlen s - zlen (drop_stars s))) (drop_stars s) /\ (length (drop_stars s) <= length s)%nat).
  { clear. intros q s. revert q. induction s as [|c s IH]; intros q Hs.
    - cbn [app scanl never obind drop_stars]. replace (q + (zlen [] - zlen [])) with q by lia. done.
    - cbn [app scanl never obind drop_stars]. destruct (c =? STAR) eqn:E.
      + apply cstr_cons in Hs as (_ & _ & Hs). destruct (IH _ Hs) as (E1 & E2 & E3).
        rewrite zlen_cons. replace (q + (zlen s + 1 - zlen (drop_stars s)))
          with (q + 1 + (zlen s - zlen (drop_stars s))) by lia.
        split_and!; [done|done|]. cbn [length]. lia.
      + replace (q + (zlen (c :: s) - zlen (c :: s))) with q by lia. done. }
  destruct (Hd p s Hs) as (E1 & E2 & E3). split_and!; [|done|done]. by eapply scan_cstr.
Qed.

(** The search for the character behind a star ends when the recursive calls do. *)
Lemma star_loop_ends (UNIFORM : Z -> Z) m card_post (call : Z -> outcome Z) s : forall string,
  cstr m string s -> UNIFORM 0 <> card_post ->
  (forall d c t, s = d ++ c :: t -> exists r, call (string + zlen d + 1) = Ret r) ->
  exists r, scan never (fun string ch (_ : ()) =>
    if UNIFORM ch =? card_post then
      let! r := call (string + 1) in Ret (if r =? 0 then inr 0 else inl ())
    else Ret (if ch =? 0 then inr (- card_post) else inl ())) m string () = Ret r.
Proof.
  intros string Hs H0 Hcall.
  enough (Hl : exists r, scanl never (fun string ch (_ : ()) =>
    if UNIFORM ch =? card_post then
      let! r := call (string + 1) in Ret (if r =? 0 then inr 0 else inl ())
    else Ret (if ch =? 0 then inr (- card_post) else inl ())) string () (s ++ [0]) = Ret r).
  { destruct Hl as [r Hr]. exists r. by eapply scan_cstr. }
  revert string Hs Hcall. induction s as [|c s IH]; intros string Hs Hcall; cbn [app scanl never].
  - rewrite (proj2 (Z.eqb_neq (UNIFORM 0) card_post)) by done. by eexists.
  - apply cstr_cons in Hs as (_ & Hc & Hs).
    assert (Hrest : forall d c' t, s = d ++ c' :: t -> exists r, call (string + 1 + zlen d + 1) = Ret r).
    { intros d c' t ->. destruct (Hcall (c :: d) c' t eq_refl) as [r Hr]. exists r. rewrite <- Hr.
      f_equal. rewrite zlen_cons. lia. }
    destruct (IH _ Hs Hrest) as [r0 Hr0]. destruct (UNIFORM c =? card_post).
    + destruct (Hcall [] c s eq_refl) as [r Hr]. unfold zlen in Hr. cbn in Hr. rewrite Z.add_0_r in Hr.
      rewrite Hr. cbn [obind]. destruct (r =? 0); [by eexists|]. by exists r0.
    + cbn [obind]. rewrite (proj2 (Z.eqb_neq c 0)) by done. by exists r0.
Qed.

Lemma drop_stars_elem c l : c ∈ drop_stars l -> c ∈ l.
Proof.
  induction l as [|x l IH]; cbn [drop_stars]; [done|]. bcase; [|done].
  rewrite elem_of_cons. tauto.
Qed.

Section Ends.

Context (UNIFORM : Z -> Z) (m : bytes).
Context (Hfold : forall c, s8 c = c -> UNIFORM c = UNIFORM 0 -> c = 0).

Lemma wild_star_ends fuel pattern string p s :
  (forall p' s' pt st, cstr m pt p' -> cstr m st s' -> (ANY ∉ p') -> (ANY ∉ s') ->
    (length p' + length s' < fuel)%nat -> exists r, wild UNIFORM fuel pt st m = Ret r) ->
  cstr m pattern p -> cstr m string s -> (ANY ∉ p) -> (ANY ∉ s) -> (length p + length s <= fuel)%nat ->
  exists r,
    (let! pattern := skip_stars pattern m in
     let! card_post := getc pattern m in
     let pattern := pattern + 1 in
     if card_post =? 0 then Ret 0
     else if card_post =? ANY then wild UNIFORM fuel (pattern + 1) (string + 1) m
     else
       let card_post := UNIFORM card_post in
       scan never (fun string ch _ =>
         if UNIFORM ch =? card_post then
           let! r := wild UNIFORM fuel (string + 1) pattern m in
           Ret (if r =? 0 then inr 0 else inl ())
         else Ret (if ch =? 0 then inr (- card_post) else inl ())) m string ()) = Ret r.
Proof.
  intros IH Hp Hs Ap As Hf. destruct (skip_stars_ok m pattern p Hp) as (E & Hd & Hl).
  rewrite E. cbn [obind]. set (pt := pattern + _) in *.
  destruct (drop_stars p) as [|c p'] eqn:Ed.
  - apply cstr_nil in Hd. rewrite Hd. cbn. by eexists.
  - apply cstr_cons in Hd as (Ec & Hc & Hd). rewrite Ec. cbn [obind].
    rewrite (proj2 (Z.eqb_neq c 0)) by done.
    assert (Ac : forall x, x ∈ c :: p' -> x ∈ p) by (intros x; rewrite <- Ed; apply drop_stars_elem).
    rewrite (proj2 (Z.eqb_neq c ANY)) by (intros ->; apply Ap, Ac, elem_of_cons; by left).
    apply (star_loop_ends UNIFORM m (UNIFORM c) (fun st => wild UNIFORM fuel st (pt + 1) m) s string Hs).
    { intros E0. apply Hc, Hfold; [by eapply getc_s8|done]. }
    intros d x t ->. cbn [length] in Hl. apply (IH t p').
    + replace (string + zlen d + 1) with (string + zlen (d ++ [x])) by (rewrite zlen_app; unfold zlen; cbn; lia).
      apply cstr_suffix. by rewrite <- app_assoc.
    + done.
    + intros Hin. apply As, elem_of_app. right. apply elem_of_cons. by right.
    + intros Hin. apply Ap, Ac, elem_of_cons. by right.
    + rewrite length_app in Hf. cbn [length] in Hf. lia.
Qed.

Lemma wild_ends fuel : forall p s pattern string,
  cstr m pattern p -> cstr m string s -> (ANY ∉ p) -> (ANY ∉ s) -> (length p + length s < fuel)%nat ->
  exists r, wild UNIFORM fuel pattern string m = Ret r.
Proof.
  induction fuel as [|fuel IH]; intros p s pattern string Hp Hs Ap As Hf; [lia|]. cbn [wild].
  destruct s as [|sc s].
  - apply cstr_nil in Hs. rewrite Hs. cbn [obind Z.eqb].
    destruct (skip_stars_ok m pattern p Hp) as (E & Hd & _). rewrite E. cbn [obind].
    destruct (drop_stars p) as [|c p'].
    + apply cstr_nil in Hd. rewrite Hd. by eexists.
    + apply cstr_cons in Hd as (Ec & _). rewrite Ec. by eexists.
  - pose proof Hs as Hs'. apply cstr_cons in Hs' as (Es & Hsc & Hs'). rewrite Es. cbn [obind].
    rewrite (proj2 (Z.eqb_neq sc 0)) by done. destruct p as [|pc p].
    { apply cstr_nil in Hp. rewrite Hp. by eexists. }
    apply cstr_cons in Hp as (Ep & Hpc & Hp). rewrite Ep. cbn [obind].
    rewrite (proj2 (Z.eqb_neq pc 0)) by done. rewrite not_elem_of_cons in Ap, As. cbn [length] in Hf.
    destruct (pc =? STAR).
    + eapply wild_star_ends; [intros; by eapply IH|exact Hp|exact Hs|tauto|rewrite not_elem_of_cons; tauto|cbn [length]; lia].
    + destruct (_ || _); [|by eexists]. eapply IH; [exact Hp|exact Hs'|tauto|tauto|lia].
Qed.

End Ends.

(** Without wildcards the pattern is compared as it is. *)
Lemma wild_literal m : forall p fuel s pattern string,
  cstr m pattern p -> cstr m string s -> (STAR ∉ p) -> (ANY ∉ p) -> (length p < fuel)%nat ->
  exists r, wild id fuel pattern string m = Ret r /\ (r = 0 <-> p = s).
Proof.
  induction p as [|pc p IH]; intros [|fuel] s pattern string Hp Hs A1 A2 Hf; try (cbn in Hf; lia);
    cbn [wild]; (destruct s as [|sc s];
      [apply cstr_nil in Hs; rewrite Hs; cbn [obind Z.eqb];
       destruct (skip_stars_ok m pattern _ Hp) as (E & Hd & _); rewrite E; cbn [obind]
      |apply cstr_cons in Hs as (Es & Hsc & Hs); rewrite Es; cbn [obind];
       rewrite (proj2 (Z.eqb_neq sc 0)) by done]).
  - cbn [drop_stars] in Hd |- *. apply cstr_nil in Hd. rewrite Hd. by exists 0.
  - apply cstr_nil in Hp. rewrite Hp. exists sc. split; [done|]. split; [lia|done].
  - rewrite not_elem_of_cons in A1. cbn [drop_stars] in Hd |- *.
    rewrite (proj2 (Z.eqb_neq pc STAR)) in Hd |- * by (intros ->; tauto).
    apply cstr_cons in Hd as (Ec & Hc & _). unfold id. eexists. rewrite Ec. split; [done|].
    split; [lia|done].
  - apply cstr_cons in Hp as (Ep & Hpc & Hp). rewrite Ep. cbn [obind]. rewrite not_elem_of_cons in A1, A2.
    rewrite (proj2 (Z.eqb_neq pc 0)) by done. rewrite (proj2 (Z.eqb_neq pc STAR)) by (intros ->; tauto).
    rewrite (proj2 (Z.eqb_neq pc ANY)) by (intros ->; tauto). rewrite orb_false_r. unfold id at 1 2.
    destruct (Z.eqb_spec pc sc) as [->|Hne].
    + destruct (IH fuel s (pattern + 1) (string + 1)) as (r & Hr & Hz); try tauto; [cbn in Hf; lia|].
      exists r. split; [done|]. rewrite Hz. split; [by intros ->|by intros [=]].
    + eexists. split; [done|]. unfold id. split; [lia|intros [=]; lia].
Qed.

(** [wildstrcmp] and [wildstrcasecmp] of strings without question marks end, within as
    many nested comparisons as the strings have characters, whatever stars they hold; without
    stars [wildstrcmp] returns 0 exactly for equal strings. *)
Theorem libc_wildstrcmp_ends m pattern string p s fuel :
  cstr m pattern p -> cstr m string s -> (ANY ∉ p) -> (ANY ∉ s) -> (length p + length s < fuel)%nat ->
  (exists r, libc_wildstrcmp fuel pattern string m = Ret r /\ ((STAR ∉ p) -> r = 0 <-> p = s)) /\
  (exists r, libc_wildstrcasecmp fuel pattern string m = Ret r).
Proof.
  intros Hp Hs Ap As Hf. split.
  - destruct (decide (STAR ∈ p)) as [Hst|Hst].
    + destruct (wild_ends id m) with (fuel := fuel) (p := p) (s := s) (pattern := pattern) (string := string)
        as [r Hr]; try done. exists r. done.
    + destruct (wild_literal m p fuel s pattern string) as (r & Hr & Hz); try done; [lia|]. by exists r.
  - apply (wild_ends libc_tolower m) with (p := p) (s := s); try done.
    intros c Hc. unfold libc_tolower. repeat bcase; lia.
Qed.

(** ** Concrete runs *)

Lemma libc_wildstrcmp_ends_witness : exists r, libc_wildstrcmp 10 0x1000 0x1007 text_mem = Ret r /\ r <> 0.
Proof.
  destruct (libc_wildstrcmp_ends text_mem 0x1000 0x1007 _ _ 10 text_long text_short) as [(r & E & Hr) _].
  - rewrite !elem_of_cons, elem_of_nil. unfold ANY. lia.
  - rewrite !elem_of_cons, elem_of_nil. unfold ANY. lia.
  - cbn. lia.
  - exists r. split; [exact E|]. intros H0. apply Hr in H0; [discriminate H0|].
    rewrite !elem_of_cons, elem_of_nil. unfold STAR. lia.
Defined.

(** [*b*] does not match [abc]: the rest of the string is taken for the pattern. *)
Lemma wild_second_star :
  let m := image 0x1000 [42; 98; 42; 0; 97; 98; 99; 0] in
  libc_wildstrcmp 20 0x1000 0x1004 m = Ret (-98).
Proof. vm_compute. reflexivity. Qed.
(** [*?x] matches [a], and [*?] reads behind its end. *)
Lemma wild_star_any :
  libc_wildstrcmp 20 0x1000 0x1004 (image 0x1000 [42; 63; 120; 0; 97; 0]) = Ret 0 /\
  libc_wildstrcmp 20 0x1003 0x1000 (image 0x1000 [97; 98; 0; 42; 63; 0]) = Abort.
Proof. vm_compute. split; reflexivity. Qed.
