(* ===== verification/FdMan.v ===== *)
(** * File descriptors

    The descriptor manager of [src/kernel/fs/fd.c] and [src/include/fs/fd.h], the copy that
    fork makes of it ([src/kernel/sched/unshare.c]) and the system calls that only work on
    the table.  The reference counters of the objects behind descriptors are part of the
    state, so that what the operations do to them can be counted. *)
From stdpp Require Import base numbers list.
From S2P Require Import Prelude Align.

(** [FD_TYPE_*] *)
Inductive fd_type : Set :=
| FD_TYPE_NULL | FD_TYPE_INODE | FD_TYPE_FILE | FD_TYPE_DENTRY | FD_TYPE_TASK | FD_TYPE_MMAN | FD_TYPE_STACK.
#[export] Instance fd_type_eq_dec : EqDecision fd_type.
Proof. solve_decision. Defined.

(** The operations, which give the type, share a word with the flags in the source. *)
Record fd : Set := Fd { fo_ops : fd_type; fo_flags : Z; fo_ptr : Z }.
#[export] Instance fd_eq_dec : EqDecision fd.
Proof. solve_decision. Defined.

Definition FD_CLOEXEC : Z := 1.
Definition FD_CLOFORK : Z := 2.
Definition FD_MASK : Z := 3.
Definition fd_invalid : fd := Fd FD_TYPE_NULL 0 0.
Definition FD_SAFE_ISNULL (f : fd) : bool := bool_decide (fo_ops f = FD_TYPE_NULL).
Definition FD_SAFE_ISTYPE (f : fd) (t : fd_type) : bool := bool_decide (fo_ops f = t).
Definition FD_IS_CLOFORK (f : fd) : bool := negb (Z.land (fo_flags f) FD_CLOFORK =? 0).
Definition set_flags (f : fd) (x : Z) : fd := Fd (fo_ops f) x (fo_ptr f).
(** [f.fo_flags &= ~FD_MASK] *)
Definition clear_flags (f : fd) : fd := set_flags f 0.

(** [struct fdman]; [fm_veca] is the length of the vector, [fm_writing] the write bit of the lock. *)
Record fdman : Set := Fdman {
  fm_writing : bool; fm_cwd : Z; fm_root : Z; fm_hint : Z;
  fm_vecc : Z; fm_vecm : Z; fm_vecv : list fd; fm_umask : Z }.
Definition fm_veca (m : fdman) : Z := zlen (fm_vecv m).

Definition with_lock (b : bool) (m : fdman) : fdman :=
  Fdman b (fm_cwd m) (fm_root m) (fm_hint m) (fm_vecc m) (fm_vecm m) (fm_vecv m) (fm_umask m).
Definition with_dirs (cwd root : Z) (m : fdman) : fdman :=
  Fdman (fm_writing m) cwd root (fm_hint m) (fm_vecc m) (fm_vecm m) (fm_vecv m) (fm_umask m).
Definition with_hint (h : Z) (m : fdman) : fdman :=
  Fdman (fm_writing m) (fm_cwd m) (fm_root m) h (fm_vecc m) (fm_vecm m) (fm_vecv m) (fm_umask m).
Definition with_vec (c : Z) (v : list fd) (m : fdman) : fdman :=
  Fdman (fm_writing m) (fm_cwd m) (fm_root m) (fm_hint m) c (fm_vecm m) v (fm_umask m).

(** Reference counters by type and object. *)
Definition counters : Type := fd_type -> Z -> Z.
Definition count_up (d : Z) (t : fd_type) (p : Z) (rf : counters) : counters :=
  fun t' p' => if bool_decide (t' = t) && (p' =? p) then rf t' p' + d else rf t' p'.
(** [fd_incref] and [fd_decref] of the type's operations: nothing for FD_TYPE_NULL. *)
Definition FD_SAFE_INCREF (f : fd) (rf : counters) : counters :=
  if FD_SAFE_ISNULL f then rf else count_up 1 (fo_ops f) (fo_ptr f) rf.
Definition FD_SAFE_DECREF (f : fd) (rf : counters) : counters :=
  if FD_SAFE_ISNULL f then rf else count_up (-1) (fo_ops f) (fo_ptr f) rf.

Record state : Type := State { man : fdman; refs : counters }.

Definition EOK : Z := 0.
Definition EINTR : Z := 4.
Definition EBADF : Z := 9.
Definition ENOMEM : Z := 12.
Definition ENOTDIR : Z := 20.
Definition EINVAL : Z := 22.
Definition ENFILE : Z := 23.
Definition EMFILE : Z := 24.
Definition AT_FDCWD : Z := -100.
Definition AT_FDROOT : Z := -101.
Definition AT_THIS_TASK : Z := -180.
Definition AT_THIS_MMAN : Z := -181.
Definition AT_THIS_STACK : Z := -182.
Definition FDMAN_VECTOR_THRESHOLD : Z := 8.
Definition FDMAN_PUT_RESCAN_START : Z := 3.

(** [(unsigned int)no] *)
Definition unsigned (no : Z) : Z := no mod 2 ^ 32.

(** What the code finds outside of the table. *)
Record context : Type := Context {
  this_task : Z; this_mman : Z;
  this_stack : Z;                 (** [t_ustack], 0 for NULL *)
  f_dent : Z -> Z;                (** [file->f_dent] *)
  can_realloc : Z -> bool;        (** whether [trealloc] gets a vector of this size *)
  behind : fd;                    (** the memory behind the vector *)
  lock_write : Z;                 (** what [rwlock_write] returns: 0 or -EINTR *)
  lock_read : Z                   (** and [rwlock_read] *)
}.

Section Operations.

Context (cx : context).

Definition vec_slot (m : fdman) (no : Z) : fd := default fd_invalid (fm_vecv m !! Z.to_nat no).
Definition set_slot (m : fdman) (no : Z) (f : fd) : list fd := <[Z.to_nat no := f]> (fm_vecv m).

Definition fdman_write (s : state) : Z * state :=
  if lock_write cx <? 0 then (lock_write cx, s)
  else (EOK, State (with_lock true (man s)) (refs s)).
(** [rwlock_endwrite] asserts that the lock is held. *)
Definition fdman_endwrite (s : state) : outcome state :=
  assert! fm_writing (man s) ;; Ret (State (with_lock false (man s)) (refs s)).

(** ** Lookup *)

Definition get_entry (m : fdman) (no : Z) : fd :=
  if unsigned no <? fm_veca m then clear_flags (vec_slot m (unsigned no))
  else if no =? AT_FDCWD then Fd FD_TYPE_DENTRY 0 (fm_cwd m)
  else if no =? AT_FDROOT then Fd FD_TYPE_DENTRY 0 (fm_root m)
  else if no =? AT_THIS_TASK then Fd FD_TYPE_TASK 0 (this_task cx)
  else if no =? AT_THIS_MMAN then Fd FD_TYPE_MMAN 0 (this_mman cx)
  else if no =? AT_THIS_STACK then
    if this_stack cx =? 0 then fd_invalid else Fd FD_TYPE_MMAN 0 (this_stack cx)
  else fd_invalid.
Definition fdman_get (no : Z) (s : state) : fd * state :=
  let result := get_entry (man s) no in
  (result, State (man s) (FD_SAFE_INCREF result (refs s))).

(** An error, or an object with a new reference. *)
Definition take_ref (t : fd_type) (p : Z) (s : state) : (Z + Z) * state :=
  (inr p, State (man s) (count_up 1 t p (refs s))).

Definition fdman_get_dentry (no : Z) (s : state) : (Z + Z) * state :=
  let m := man s in
  if lock_read cx <? 0 then (inl (lock_read cx), s) else
  if unsigned no <? fm_veca m then
    let entry := vec_slot m (unsigned no) in
    if FD_SAFE_ISTYPE entry FD_TYPE_DENTRY then take_ref FD_TYPE_DENTRY (fo_ptr entry) s
    else if FD_SAFE_ISTYPE entry FD_TYPE_FILE then take_ref FD_TYPE_DENTRY (f_dent cx (fo_ptr entry)) s
    else (inl (- ENOTDIR), s)
  else if no =? AT_FDCWD then take_ref FD_TYPE_DENTRY (fm_cwd m) s
  else if no =? AT_FDROOT then take_ref FD_TYPE_DENTRY (fm_root m) s
  else (inl (- EBADF), s).
Definition fdman_get_file (no : Z) (s : state) : (Z + Z) * state :=
  let m := man s in
  if lock_read cx <? 0 then (inl (lock_read cx), s) else
  if unsigned no <? fm_veca m then
    let entry := vec_slot m (unsigned no) in
    if FD_SAFE_ISTYPE entry FD_TYPE_FILE then take_ref FD_TYPE_FILE (fo_ptr entry) s
    else (inl (- ENOTDIR), s)
  else (inl (- EBADF), s).
Definition fdman_get_mman (no : Z) (s : state) : (Z + Z) * state :=
  let m := man s in
  if lock_read cx <? 0 then (inl (lock_read cx), s) else
  if unsigned no <? fm_veca m then
    let entry := vec_slot m (unsigned no) in
    if FD_SAFE_ISTYPE entry FD_TYPE_MMAN then take_ref FD_TYPE_MMAN (fo_ptr entry) s
    else (inl (- ENOTDIR), s)
  else (inl (- EBADF), s).

(** ** The vector *)

Definition grow (new_alloc : Z) (m : fdman) : outcome (Z * fdman) :=
  assert! fm_veca m <? new_alloc ;;
  Ret (EOK, with_vec (fm_vecc m) (fm_vecv m ++ replicate (Z.to_nat (new_alloc - fm_veca m)) fd_invalid) m).
Definition fdman_minsize_unlocked (cnt : Z) (m : fdman) : outcome (Z * fdman) :=
  assert! cnt <? fm_vecm m ;;
  if cnt <=? fm_veca m then Ret (EOK, m)
  else
    let new_alloc := Z.min (CEIL_ALIGN (2 ^ 32) cnt FDMAN_VECTOR_THRESHOLD) (fm_vecm m) in
    assert! fm_veca m <=? new_alloc ;;
    if can_realloc cx new_alloc then grow new_alloc m
    else if negb (new_alloc =? cnt) then
      assert! fm_veca m <=? cnt ;;
      if can_realloc cx cnt then grow cnt m else Ret (- ENOMEM, m)
    else Ret (- ENOMEM, m).

(** ** Setting *)

(** The special numbers: directories in place of descriptors. *)
Definition set_special (no : Z) (fp : fd) (s : state) : outcome (Z * state) :=
  let m := man s in
  let dent :=
    if FD_SAFE_ISTYPE fp FD_TYPE_DENTRY then Some (fo_ptr fp)
    else if FD_SAFE_ISTYPE fp FD_TYPE_FILE then Some (f_dent cx (fo_ptr fp)) else None in
  match dent with
  | None => let! s := fdman_endwrite s in Ret (- EINVAL, s)
  | Some dent =>
      let rf := count_up 1 FD_TYPE_DENTRY dent (refs s) in
      if no =? AT_FDCWD then
        let! s' := fdman_endwrite (State (with_dirs dent (fm_root m) m) rf) in
        Ret (EOK, State (man s') (count_up (-1) FD_TYPE_DENTRY (fm_cwd m) (refs s')))
      else if no =? AT_FDROOT then
        let! s' := fdman_endwrite (State (with_dirs (fm_cwd m) dent m) rf) in
        Ret (EOK, State (man s') (count_up (-1) FD_TYPE_DENTRY (fm_root m) (refs s')))
      else
        let rf := count_up (-1) FD_TYPE_DENTRY dent rf in
        assert! negb (rf FD_TYPE_DENTRY dent =? 0) ;;
        let! s := fdman_endwrite (State m rf) in Ret (- ENFILE, s)
  end.

Definition fdman_set (no : Z) (fp : fd) (s : state) : outcome (Z * state) :=
  assert! negb (FD_SAFE_ISNULL fp) ;;
  let (error, s) := fdman_write s in
  assert! fm_vecm (man s) <=? 2 ^ 31 - 1 ;;
  if error <? 0 then Ret (error, s)
  else if fm_vecm (man s) <=? unsigned no then set_special no fp s
  else if fm_vecm (man s) <=? unsigned no + 1 then
    let! s := fdman_endwrite s in Ret (- EBADF, s)
  else
    let! (error, m) := fdman_minsize_unlocked (unsigned no + 1) (man s) in
    if error <? 0 then let! s := fdman_endwrite (State m (refs s)) in Ret (error, s)
    else
      let old_fp := vec_slot m no in
      let vecc := if FD_SAFE_ISNULL old_fp then fm_vecc m + 1 else fm_vecc m in
      let m := with_vec vecc (set_slot m no fp) m in
      let! s := fdman_endwrite (State m (FD_SAFE_INCREF fp (refs s))) in
      Ret (error, State (man s) (FD_SAFE_DECREF old_fp (refs s))).

(** ** Removing *)

(** [while (no && FD_SAFE_ISNULL(self->fm_vecv[no-1])) --no;] *)
Fixpoint trim (v : list fd) (no : nat) : nat :=
  match no with
  | O => O
  | S no' => if FD_SAFE_ISNULL (default fd_invalid (v !! no')) then trim v no' else no
  end.

Definition shrink (no : Z) (m : fdman) : outcome fdman :=
  let no := Z.of_nat (trim (fm_vecv m) (Z.to_nat no)) in
  if no =? 0 then assert! fm_vecc m =? 0 ;; Ret (with_vec (fm_vecc m) [] m)
  else
    assert! negb (fm_vecc m =? 0) ;;
    let no := Z.min (CEIL_ALIGN (2 ^ 32) no FDMAN_VECTOR_THRESHOLD) (fm_veca m) in
    Ret (if (no <? fm_veca m) && can_realloc cx no
         then with_vec (fm_vecc m) (ztake no (fm_vecv m)) m else m).

(** The scan for descriptors behind the one removed looks at one more than there are. *)
Definition fdman_del_unlocked (no : Z) (s : state) : outcome (fd * state) :=
  let m := man s in
  assert! fm_writing m ;;
  if unsigned no <? fm_veca m then
    let old_fd := clear_flags (vec_slot m (unsigned no)) in
    if FD_SAFE_ISNULL old_fd then Ret (old_fd, s)
    else
      assert! negb (fm_vecc m =? 0) ;;
      let m := with_vec (fm_vecc m - 1) (set_slot m (unsigned no) fd_invalid) m in
      if fm_veca m <? unsigned no + FDMAN_VECTOR_THRESHOLD then Ret (old_fd, State m (refs s))
      else if forallb FD_SAFE_ISNULL (zdrop (unsigned no + 1) (fm_vecv m) ++ [behind cx]) then
        let! m := shrink (unsigned no) m in Ret (old_fd, State m (refs s))
      else Ret (old_fd, State m (refs s))
  else Ret (fd_invalid, s).

Definition fdman_del (no : Z) (s : state) : outcome (Z * state) :=
  let (error, s) := fdman_write s in
  if error <? 0 then Ret (error, s)
  else
    let! (old_fd, s) := fdman_del_unlocked no s in
    let! s := fdman_endwrite s in
    if FD_SAFE_ISNULL old_fd then Ret (- EBADF, s)
    else Ret (error, State (man s) (FD_SAFE_DECREF old_fd (refs s))).

(** ** Adding *)

(** The first unused slot of [n] ones from [hint]. *)
Fixpoint find_free (m : fdman) (n : nat) (hint : Z) : option Z :=
  match n with
  | O => None
  | S n => if FD_SAFE_ISNULL (vec_slot m hint) then Some hint else find_free m n (hint + 1)
  end.

Definition put_slot (hint : Z) (fp : fd) (s : state) : outcome (Z * state) :=
  let! (error, m) := fdman_minsize_unlocked (hint + 1) (man s) in
  if error <? 0 then Ret (error, State m (refs s))
  else
    let m := with_hint hint m in
    assert! hint <? fm_veca m ;;
    assert! FD_SAFE_ISNULL (vec_slot m hint) ;;
    Ret (hint, State (with_vec (fm_vecc m + 1) (set_slot m hint fp) m) (FD_SAFE_INCREF fp (refs s))).

Definition fdman_put_nearby_unlocked (hint : Z) (fp : fd) (s : state) : outcome (Z * state) :=
  let m := man s in
  assert! fm_vecc m <=? fm_veca m ;;
  match find_free m (Z.to_nat (fm_veca m - hint)) hint with
  | Some no => put_slot no fp s
  | None =>
      let low :=
        if negb (fm_vecc m =? fm_veca m) then
          find_free m (Z.to_nat (Z.min hint (fm_veca m) - FDMAN_PUT_RESCAN_START)) FDMAN_PUT_RESCAN_START
        else None in
      match low with
      | Some no => put_slot no fp s
      | None => if fm_veca m <? fm_vecm m then put_slot (fm_veca m) fp s else Ret (- EMFILE, s)
      end
  end.

(** The lock is released even when it was not taken. *)
Definition put_locked (hint : fdman -> Z) (fp : fd) (s : state) : outcome (Z * state) :=
  let (result, s) := fdman_write s in
  if result <? 0 then let! s := fdman_endwrite s in Ret (result, s)
  else
    let! (result, s) := fdman_put_nearby_unlocked (hint (man s)) fp s in
    let! s := fdman_endwrite s in Ret (result, s).
Definition fdman_put (fp : fd) (s : state) : outcome (Z * state) := put_locked fm_hint fp s.
Definition fdman_put_nearby (hint : Z) (fp : fd) (s : state) : outcome (Z * state) :=
  put_locked (fun _ => hint) fp s.

(** ** System calls *)

Definition O_CLOEXEC : Z := 0x80000.
Definition O_CLOFORK : Z := 0x100000.

Definition SYSC_dup3 (oldfd newfd flags : Z) (s : state) : outcome (Z * state) :=
  if negb (Z.land flags (Z.lnot (Z.lor O_CLOEXEC O_CLOFORK)) =? 0) then Ret (- EINVAL, s)
  else if oldfd =? newfd then Ret (- EINVAL, s)
  else
    let (f, s) := fdman_get oldfd s in
    if FD_SAFE_ISNULL f then Ret (- EBADF, s)
    else
      let fl := Z.lor (if negb (Z.land flags O_CLOEXEC =? 0) then FD_CLOEXEC else 0)
                      (if negb (Z.land flags O_CLOFORK =? 0) then FD_CLOFORK else 0) in
      let f := set_flags f (Z.lor (fo_flags f) fl) in
      let! (result, s) := fdman_set newfd f s in
      Ret (if 0 <=? result then newfd else result, State (man s) (FD_SAFE_DECREF f (refs s))).

Definition SYSC_dup (no : Z) (s : state) : outcome (Z * state) :=
  let (f, s) := fdman_get no s in
  if FD_SAFE_ISNULL f then Ret (- EBADF, s)
  else
    let! (result, s) := fdman_put f s in
    Ret (result, State (man s) (FD_SAFE_DECREF f (refs s))).

Definition SYSC_close (no : Z) (s : state) : outcome (Z * state) := fdman_del no s.

(** [fcntl(fd,F_DUPFD,arg)] and, with the flag, [F_DUPFD_CLOEXEC] *)
Definition fcntl_dupfd (cloexec : bool) (no arg : Z) (s : state) : outcome (Z * state) :=
  let (f, s) := fdman_get no s in
  if FD_SAFE_ISNULL f then Ret (- EBADF, s)
  else
    let f := if cloexec then set_flags f (Z.lor (fo_flags f) FD_CLOEXEC) else f in
    let! (result, s) := fdman_put_nearby (unsigned arg) f s in
    Ret (result, State (man s) (FD_SAFE_DECREF f (refs s))).
(** [fcntl(fd,FCNTL_KOS_TYPE,arg)], which looks at [arg] only *)
Definition type_number (t : fd_type) : Z :=
  match t with
  | FD_TYPE_NULL => 0 | FD_TYPE_INODE => 1 | FD_TYPE_FILE => 2 | FD_TYPE_DENTRY => 3
  | FD_TYPE_TASK => 4 | FD_TYPE_MMAN => 5 | FD_TYPE_STACK => 6
  end.
Definition fcntl_kos_type (arg : Z) (s : state) : Z :=
  if lock_read cx <? 0 then lock_read cx else
  let result :=
    if unsigned arg <? fm_veca (man s) then type_number (fo_ops (vec_slot (man s) (unsigned arg)))
    else if (arg =? AT_FDCWD) || (arg =? AT_FDROOT) then type_number FD_TYPE_DENTRY
    else if arg =? AT_THIS_TASK then type_number FD_TYPE_TASK
    else if arg =? AT_THIS_MMAN then type_number FD_TYPE_MMAN
    else if arg =? AT_THIS_STACK then type_number FD_TYPE_STACK
    else 0 in
  if result =? 0 then - EBADF else result.
Definition fcntl_getfd (no : Z) (s : state) : Z :=
  if lock_read cx <? 0 then lock_read cx else
  if fm_veca (man s) <=? unsigned no then - EBADF
  else Z.land (fo_flags (vec_slot (man s) (unsigned no))) FD_MASK.
(** The flags of a descriptor are changed under the lock. *)
Definition change_flags (no : Z) (f : Z -> Z) (s : state) : outcome (Z * state) :=
  let (error, s) := fdman_write s in
  if error <? 0 then Ret (error, s)
  else
    let m := man s in
    if fm_veca m <=? unsigned no then let! s := fdman_endwrite s in Ret (- EBADF, s)
    else
      let e := vec_slot m (unsigned no) in
      let m := with_vec (fm_vecc m) (set_slot m (unsigned no) (set_flags e (f (fo_flags e)))) m in
      let! s := fdman_endwrite (State m (refs s)) in Ret (EOK, s).
Definition fcntl_setfd (no arg : Z) (s : state) : outcome (Z * state) :=
  change_flags no (fun _ => Z.land arg FD_MASK) s.
(** [ioctl(fd,FIOCLEX)] and [FIONCLEX] *)
Definition ioctl_clex (on : bool) (no : Z) (s : state) : outcome (Z * state) :=
  change_flags no (fun fl => if on then Z.lor fl FD_CLOEXEC else Z.land fl (Z.lnot FD_CLOEXEC)) s.

Definition SYSC_umask (mask : Z) (s : state) : Z * state :=
  let m := man s in
  (fm_umask m,
   State (Fdman (fm_writing m) (fm_cwd m) (fm_root m) (fm_hint m) (fm_vecc m) (fm_vecm m) (fm_vecv m)
            (Z.land mask 0x1ff)) (refs s)).

(** ** Whole tables *)

Definition fdman_init (root : Z) (rf : counters) : state :=
  State (Fdman false root root 0 0 0xffff [] 0x12) (count_up 2 FD_TYPE_DENTRY root rf).
Definition fdman_destroy (s : state) : counters :=
  let m := man s in
  let rf := count_up (-1) FD_TYPE_DENTRY (fm_root m) (count_up (-1) FD_TYPE_DENTRY (fm_cwd m) (refs s)) in
  fold_left (fun rf f => FD_SAFE_DECREF f rf) (fm_vecv m) rf.

Fixpoint trim_fork (v : list fd) (n : nat) : nat :=
  match n with
  | O => O
  | S n' =>
      let f := default fd_invalid (v !! n') in
      if FD_SAFE_ISNULL f || FD_IS_CLOFORK f then trim_fork v n' else n
  end.
Fixpoint copy_fork (v : list fd) (vecc : Z) (rf : counters) : outcome (list fd * Z * counters) :=
  match v with
  | [] => Ret ([], vecc, rf)
  | f :: v =>
      if FD_IS_CLOFORK f then
        assert! negb (vecc =? 0) ;;
        let! (w, vecc, rf) := copy_fork v (vecc - 1) rf in Ret (fd_invalid :: w, vecc, rf)
      else
        let! (w, vecc, rf) := copy_fork v vecc (FD_SAFE_INCREF f rf) in Ret (f :: w, vecc, rf)
  end.
(** The copy of [src], which keeps its own table; [can_realloc] also stands for [memdup]. *)
Definition fdman_duplicate_table_unlocked (src : fdman) (rf : counters) : outcome (Z * fdman * counters) :=
  let veca := Z.of_nat (trim_fork (fm_vecv src) (length (fm_vecv src))) in
  assert! fm_vecc src <=? veca ;;
  if negb (veca =? 0) && negb (can_realloc cx veca) then Ret (- ENOMEM, src, rf)
  else
    let! (v, vecc, rf) := copy_fork (ztake veca (fm_vecv src)) (fm_vecc src) rf in
    let rf := count_up 1 FD_TYPE_DENTRY (fm_root src) (count_up 1 FD_TYPE_DENTRY (fm_cwd src) rf) in
    Ret (EOK, Fdman false (fm_cwd src) (fm_root src) (fm_hint src) vecc (fm_vecm src) v (fm_umask src), rf).

End Operations.

(** ** Counting *)

Definition total (g : fd -> Z) (v : list fd) : Z := foldr (fun f a => g f + a) 0 v.
(** Whether a slot is used, and whether it holds an object. *)
Definition g_used (f : fd) : Z := if FD_SAFE_ISNULL f then 0 else 1.
Definition g_hold (t : fd_type) (p : Z) (f : fd) : Z :=
  if FD_SAFE_ISNULL f then 0 else if bool_decide (t = fo_ops f) && (p =? fo_ptr f) then 1 else 0.

(** Slots that are not used count nothing. *)
Class Ignores (g : fd -> Z) : Prop := ignores : forall f, FD_SAFE_ISNULL f = true -> g f = 0.
#[export] Instance used_ignores : Ignores g_used.
Proof. intros f Hf. unfold g_used. by rewrite Hf. Qed.
#[export] Instance hold_ignores t p : Ignores (g_hold t p).
Proof. intros f Hf. unfold g_hold. by rewrite Hf. Qed.

Lemma total_app g v w : total g (v ++ w) = total g v + total g w.
Proof. induction v as [|f v IH]; cbn; [done|]. unfold total in *. lia. Qed.
Lemma total_null g `{Ignores g} v : forallb FD_SAFE_ISNULL v = true -> total g v = 0.
Proof.
  induction v as [|f v IH]; cbn; [done|]. intros Hv. apply andb_prop in Hv as [Hf Hv].
  unfold total in IH. rewrite (IH Hv), (ignores f Hf). done.
Qed.
Lemma null_replicate n : forallb FD_SAFE_ISNULL (replicate n fd_invalid) = true.
Proof. induction n; cbn; done. Qed.
Lemma total_insert g v i f e :
  v !! i = Some e -> total g (<[i := f]> v) = total g v - g e + g f.
Proof.
  revert i. induction v as [|x v IH]; intros [|i] Hi; cbn in Hi; simplify_eq; [cbn; lia|].
  change (g x + total g (<[i := f]> v) = g x + total g v - g e + g f). rewrite (IH i Hi). lia.
Qed.
Lemma total_take g `{Ignores g} n v :
  forallb FD_SAFE_ISNULL (drop n v) = true -> total g (take n v) = total g v.
Proof.
  intros Hd. rewrite <- (take_drop n v) at 2. rewrite total_app, (total_null g (drop n v)) by done. lia.
Qed.
Lemma used_nonneg v : 0 <= total g_used v <= zlen v.
Proof.
  unfold zlen. induction v as [|f v IH]; cbn; [lia|]. unfold total, g_used in *.
  destruct (FD_SAFE_ISNULL f); lia.
Qed.
Lemma used_full v f : total g_used v = zlen v -> f ∈ v -> FD_SAFE_ISNULL f = false.
Proof.
  intros Ht Hf. apply list_elem_of_split in Hf as (v1 & v2 & ->). rewrite total_app in Ht. unfold zlen in *. rewrite length_app in Ht.
  pose proof (used_nonneg v1) as H1. pose proof (used_nonneg v2) as H2. unfold zlen in *. cbn in Ht. unfold total in *.
  unfold g_used in Ht at 2. destruct (FD_SAFE_ISNULL f); [cbn in Ht; lia|done].
Qed.
Lemma used_zero v : total g_used v = 0 <-> forallb FD_SAFE_ISNULL v = true.
Proof.
  induction v as [|f v IH]; cbn; [done|]. pose proof (used_nonneg v).
  unfold total, g_used in *. destruct (FD_SAFE_ISNULL f); cbn; rewrite <- ?IH; split; intros; try done; lia.
Qed.

Lemma incref_hold f rf t p : FD_SAFE_INCREF f rf t p = rf t p + g_hold t p f.
Proof.
  unfold FD_SAFE_INCREF, g_hold, count_up. destruct (FD_SAFE_ISNULL f); [lia|].
  destruct (bool_decide (t = fo_ops f) && (p =? fo_ptr f)); lia.
Qed.
Lemma decref_hold f rf t p : FD_SAFE_DECREF f rf t p = rf t p - g_hold t p f.
Proof.
  unfold FD_SAFE_DECREF, g_hold, count_up. destruct (FD_SAFE_ISNULL f); [lia|].
  destruct (bool_decide (t = fo_ops f) && (p =? fo_ptr f)); lia.
Qed.
Lemma hold_flags t p f x : g_hold t p (set_flags f x) = g_hold t p f.
Proof. done. Qed.
Lemma used_flags f x : g_used (set_flags f x) = g_used f.
Proof. done. Qed.

(** ** What the table stands for *)

(** The descriptor behind a number. *)
Definition view (m : fdman) (no : Z) : option fd :=
  if no <? 0 then None
  else match fm_vecv m !! Z.to_nat no with
       | Some f => if FD_SAFE_ISNULL f then None else Some f
       | None => None
       end.
(** The references the manager has to an object. *)
Definition dir_hold (t : fd_type) (p d : Z) : Z := if bool_decide (t = FD_TYPE_DENTRY) && (p =? d) then 1 else 0.
Definition owned (m : fdman) (t : fd_type) (p : Z) : Z :=
  total (g_hold t p) (fm_vecv m) + dir_hold t p (fm_cwd m) + dir_hold t p (fm_root m).
(** What others have. *)
Definition others (s : state) (t : fd_type) (p : Z) : Z := refs s t p - owned (man s) t p.

Record fd_inv (m : fdman) : Prop := {
  inv_lock : fm_writing m = false;
  inv_size : fm_veca m <= fm_vecm m <= 2 ^ 31 - 1;
  inv_used : fm_vecc m = total g_used (fm_vecv m);
  inv_hint : 0 <= fm_hint m < 2 ^ 32 }.

Lemma veca_nonneg m : 0 <= fm_veca m.
Proof. apply zlen_nonneg. Qed.

(** Unused slots behind the others change nothing. *)
Lemma view_more m c k no :
  view (with_vec c (fm_vecv m ++ replicate k fd_invalid) m) no = view m no.
Proof.
  unfold view. cbn. destruct (no <? 0); [done|].
  destruct (fm_vecv m !! Z.to_nat no) as [f|] eqn:E.
  - by rewrite (lookup_app_l_Some _ _ _ _ E).
  - apply lookup_ge_None in E. rewrite lookup_app_r by done.
    destruct (replicate k fd_invalid !! _) as [f|] eqn:E'; [|done].
    apply lookup_replicate in E' as [-> _]. done.
Qed.
Lemma owned_more m c k t p : owned (with_vec c (fm_vecv m ++ replicate k fd_invalid) m) t p = owned m t p.
Proof.
  unfold owned. cbn [with_vec fm_vecv fm_cwd fm_root]. rewrite total_app, (total_null (g_hold t p) (replicate k fd_invalid)); [lia|].
  apply null_replicate.
Qed.

Lemma slot_lookup m no : 0 <= no < fm_veca m -> fm_vecv m !! Z.to_nat no = Some (vec_slot m no).
Proof.
  intros Hn. unfold vec_slot. destruct (lookup_lt_is_Some_2 (fm_vecv m) (Z.to_nat no)) as [f E].
  - unfold fm_veca, zlen in Hn. lia.
  - by rewrite E.
Qed.
Lemma view_slot m no : 0 <= no < fm_veca m -> view m no = if FD_SAFE_ISNULL (vec_slot m no) then None else Some (vec_slot m no).
Proof.
  intros Hn. unfold view. rewrite (proj2 (Z.ltb_ge no 0)) by lia. by rewrite slot_lookup.
Qed.
Lemma view_outside m no : no < 0 \/ fm_veca m <= no -> view m no = None.
Proof.
  intros Hn. unfold view. destruct (Z.ltb_spec no 0); [done|].
  rewrite (proj2 (lookup_ge_None _ _)); [done|]. unfold fm_veca, zlen in Hn. lia.
Qed.

(** One slot changed. *)
Definition put_view (w : Z -> option fd) (no : Z) (f : option fd) : Z -> option fd :=
  fun n => if n =? no then f else w n.

Lemma view_set m c no f n :
  0 <= no < fm_veca m ->
  view (with_vec c (set_slot m no f) m) n = put_view (view m) no (if FD_SAFE_ISNULL f then None else Some f) n.
Proof.
  intros Hn. unfold view, put_view, set_slot. cbn. destruct (Z.eqb_spec n no) as [->|Hne].
  - rewrite (proj2 (Z.ltb_ge no 0)) by lia. rewrite list_lookup_insert_eq by (unfold fm_veca, zlen in Hn; lia).
    done.
  - destruct (Z.ltb_spec n 0); [done|]. rewrite list_lookup_insert_ne by lia. done.
Qed.
Lemma owned_set m c no f t p :
  0 <= no < fm_veca m ->
  owned (with_vec c (set_slot m no f) m) t p = owned m t p - g_hold t p (vec_slot m no) + g_hold t p f.
Proof.
  intros Hn. unfold owned, set_slot. cbn [with_vec fm_vecv fm_cwd fm_root]. rewrite (total_insert _ _ _ f _ (slot_lookup m no Hn)). lia.
Qed.
Lemma used_set m no f :
  0 <= no < fm_veca m ->
  total g_used (set_slot m no f) = total g_used (fm_vecv m) - g_used (vec_slot m no) + g_used f.
Proof. intros Hn. apply (total_insert _ _ _ f _ (slot_lookup m no Hn)). Qed.
Lemma veca_set m c no f : fm_veca (with_vec c (set_slot m no f) m) = fm_veca m.
Proof. unfold fm_veca, zlen, set_slot. cbn. by rewrite length_insert. Qed.
