(* ===== verification/FdSpec.v ===== *)
(** * File descriptors: the operations are right

    Every operation of FdMan.v against the map from numbers to descriptors the table
    stands for ([view]) and against the references it owns. *)
From stdpp Require Import base numbers list.
From S2P Require Import Prelude Align FdMan.

Ltac fd_cbn := cbn [man refs with_hint with_vec with_lock with_dirs fm_writing fm_cwd fm_root
  fm_hint fm_vecc fm_vecm fm_vecv fm_umask].

Lemma with_vec_id m : with_vec (fm_vecc m) (fm_vecv m) m = m.
Proof. by destruct m. Qed.
Lemma unlock_lock m : fm_writing m = false -> with_lock false (with_lock true m) = m.
Proof. by destruct m; cbn; intros ->. Qed.
Lemma unsigned_id no : 0 <= no < 2 ^ 32 -> unsigned no = no.
Proof. apply Z.mod_small. Qed.
Lemma owned_nonneg m t p : 0 <= owned m t p.
Proof.
  assert (H : forall v, 0 <= total (g_hold t p) v).
  { induction v as [|f v IH]; cbn; [lia|]. unfold total, g_hold in *.
    destruct (FD_SAFE_ISNULL f), (bool_decide (t = fo_ops f) && (p =? fo_ptr f)); lia. }
  unfold owned, dir_hold. specialize (H (fm_vecv m)).
  destruct (bool_decide (t = FD_TYPE_DENTRY)), (p =? fm_cwd m), (p =? fm_root m); cbn [andb]; lia.
Qed.

(** More slots behind the others. *)
Definition more (m m' : fdman) : Prop :=
  exists k, m' = with_vec (fm_vecc m) (fm_vecv m ++ replicate k fd_invalid) m.
Lemma more_refl m : more m m.
Proof. exists 0%nat. cbn. by rewrite app_nil_r, with_vec_id. Qed.

Lemma minsize_ok cx cnt m :
  0 <= cnt < fm_vecm m -> fm_veca m <= fm_vecm m <= 2 ^ 31 - 1 ->
  exists e m', fdman_minsize_unlocked cx cnt m = Ret (e, m') /\
    ((e = EOK /\ more m m' /\ cnt <= fm_veca m' <= fm_vecm m) \/ (e = - ENOMEM /\ m' = m)).
Proof.
  intros Hc Hs. unfold fdman_minsize_unlocked. rewrite (proj2 (Z.ltb_lt _ _)) by lia. cbn [oassert].
  destruct (Z.leb_spec cnt (fm_veca m)) as [Hle|Hlt].
  { exists EOK, m. split; [done|]. left. split_and!; [done|apply more_refl|lia|lia]. }
  pose proof (veca_nonneg m). pose proof (CEIL_ALIGN_bounds (2 ^ 32) cnt 3 ltac:(lia) ltac:(lia)) as Hcl.
  change (2 ^ 3) with 8 in Hcl. change (2 ^ 31) with 2147483648 in Hs.
  specialize (Hcl ltac:(change (2 ^ 32) with 4294967296; lia)) as [Hcl _].
  unfold FDMAN_VECTOR_THRESHOLD. set (na := Z.min (CEIL_ALIGN (2 ^ 32) cnt 8) (fm_vecm m)).
  assert (Hg : forall n, cnt <= n <= fm_vecm m -> exists m', grow n m = Ret (EOK, m') /\ more m m' /\
    cnt <= fm_veca m' <= fm_vecm m).
  { intros n Hn. unfold grow. rewrite (proj2 (Z.ltb_lt _ _)) by lia. eexists. split; [done|].
    split; [by eexists|]. unfold fm_veca, zlen in *. cbn [with_vec fm_vecv].
    rewrite length_app, length_replicate. lia. }
  rewrite (proj2 (Z.leb_le _ _)) by lia. cbn [oassert].
  destruct (can_realloc cx na).
  { destruct (Hg na) as (m' & E & Hm); [lia|]. eauto 10. }
  destruct (Z.eqb_spec na cnt); cbn [negb]; [eauto 10|].
  rewrite (proj2 (Z.leb_le _ _)) by lia. cbn [oassert].
  destruct (can_realloc cx cnt); [|eauto 10]. destruct (Hg cnt) as (m' & E & Hm); [lia|]. eauto 10.
Qed.

Lemma more_view m m' n : more m m' -> view m' n = view m n.
Proof. intros [k ->]. apply view_more. Qed.
Lemma more_owned m m' t p : more m m' -> owned m' t p = owned m t p.
Proof. intros [k ->]. apply owned_more. Qed.
Lemma more_used m m' : more m m' -> total g_used (fm_vecv m') = total g_used (fm_vecv m).
Proof.
  intros [k ->]. cbn [with_vec fm_vecv]. rewrite total_app, (total_null g_used (replicate k fd_invalid)); [lia|].
  apply null_replicate.
Qed.

(** What holds of every operation: the table is well-formed again and nobody else's
    references have changed. *)
Definition sound (s s' : state) : Prop :=
  fd_inv (man s') /\ forall t p, others s' t p = others s t p.

Lemma sound_refl s : fd_inv (man s) -> sound s s.
Proof. done. Qed.

(** The slot of a grown table gets [fp], and its old descriptor is dropped. *)
Lemma fill_slot_ok s m' h no fp rf :
  fd_inv (man s) -> more (man s) m' -> 0 <= no < fm_veca m' -> fm_veca m' <= fm_vecm (man s) ->
  FD_SAFE_ISNULL fp = false -> 0 <= h < 2 ^ 32 ->
  (forall t p, rf t p = refs s t p + g_hold t p fp - g_hold t p (vec_slot m' no)) ->
  let m'' := with_hint h (with_vec (if FD_SAFE_ISNULL (vec_slot m' no) then fm_vecc m' + 1 else fm_vecc m')
                            (set_slot m' no fp) m') in
  sound s (State m'' rf) /\ (forall n, view m'' n = put_view (view (man s)) no (Some fp) n).
Proof.
  intros Hinv Hm Hn Hs Hf Hh Hrf m''. destruct Hinv as [Hl Hsz Hu Hhint].
  pose proof Hm as [k Ek]. split.
  - assert (Ew : fm_writing m' = fm_writing (man s) /\ fm_vecc m' = fm_vecc (man s) /\
      fm_vecm m' = fm_vecm (man s)) by (by rewrite Ek).
    destruct Ew as (Ew & Ec & Ev). split.
    + split; unfold m''; fd_cbn.
      * congruence.
      * pose proof (veca_set m' 0 no fp) as Hv. unfold fm_veca in *. cbn [with_vec fm_vecv] in Hv.
        fd_cbn. rewrite Hv, Ev. lia.
      * rewrite used_set by done. rewrite (more_used _ _ Hm), <- Hu, Ec. unfold g_used at 2. rewrite Hf.
        unfold g_used. destruct (FD_SAFE_ISNULL (vec_slot m' no)); lia.
      * done.
    + intros t p. unfold others. cbn [man refs]. rewrite Hrf.
      pose proof (owned_set m' 0 no fp t p Hn) as Ho. rewrite (more_owned _ _ t p Hm) in Ho.
      change (owned m'' t p) with (owned (with_vec 0 (set_slot m' no fp) m') t p). lia.
  - intros n. change (view m'' n) with (view (with_vec 0 (set_slot m' no fp) m') n).
    rewrite view_set by done. rewrite Hf. unfold put_view. by rewrite (more_view _ _ n Hm).
Qed.

(** ** Setting *)

Definition failed (s s' : state) : Prop := man s' = man s /\ forall t p, refs s' t p = refs s t p.

Lemma failed_sound s s' : fd_inv (man s) -> failed s s' -> sound s s'.
Proof.
  intros Hi [Em Er]. split; [by rewrite Em|]. intros t p. unfold others. by rewrite Em, Er.
Qed.

Section Set_.

Context (cx : context) (s : state) (Hinv : fd_inv (man s)) (fp : fd) (Hfp : FD_SAFE_ISNULL fp = false).

Lemma set_locked :
  lock_write cx = 0 -> fdman_write cx s = (EOK, State (with_lock true (man s)) (refs s)).
Proof. intros E. unfold fdman_write. by rewrite E. Qed.
Lemma locked_inv : fm_writing (man s) = false.
Proof. apply Hinv. Qed.

Lemma set_slot_number no :
  lock_write cx = 0 -> 0 <= no -> no + 1 < fm_vecm (man s) ->
  exists e s', fdman_set cx no fp s = Ret (e, s') /\ sound s s' /\
    ((e = EOK /\ (forall n, view (man s') n = put_view (view (man s)) no (Some fp) n) /\
      fm_cwd (man s') = fm_cwd (man s) /\ fm_root (man s') = fm_root (man s)) \/
     (e = - ENOMEM /\ failed s s')).
Proof.
  intros Hlk Hno Hlt. pose proof Hinv as [Hl Hsz Hu Hh]. unfold fdman_set. rewrite Hfp. cbn [negb oassert].
  rewrite set_locked by done. cbn [man]. rewrite (proj2 (Z.leb_le _ (2 ^ 31 - 1))) by (fd_cbn; lia).
  cbn [oassert]. change (EOK <? 0) with false. change (2 ^ 31) with 2147483648 in *.
  rewrite unsigned_id by (change (2 ^ 32) with 4294967296; lia). fd_cbn.
  rewrite !(proj2 (Z.leb_gt _ _)) by lia.
  destruct (minsize_ok cx (no + 1) (with_lock true (man s))) as (e & m' & E & Hc);
    [fd_cbn; lia|unfold fm_veca in *; fd_cbn; change (2 ^ 31) with 2147483648; lia|].
  rewrite E. cbn [obind]. destruct Hc as [(-> & Hm & Hv)|(-> & ->)].
  - change (EOK <? 0) with false. cbn iota.
    assert (Hm1 : more (man s) (with_lock false m')).
    { destruct Hm as [k ->]. exists k. destruct (man s). cbn in *. by rewrite Hl. }
    assert (Hf : fm_writing m' = true /\ fm_hint m' = fm_hint (man s) /\ fm_cwd m' = fm_cwd (man s) /\
      fm_root m' = fm_root (man s)) by (destruct Hm as [k ->]; done).
    destruct Hf as (Hw & Hh' & Hcw & Hrt). unfold fdman_endwrite. fd_cbn. rewrite Hw. cbn [oassert obind].
    destruct (fill_slot_ok s (with_lock false m') (fm_hint m') no fp
      (FD_SAFE_DECREF (vec_slot m' no) (FD_SAFE_INCREF fp (refs s)))) as [Hs1 Hs2]; try done.
    + unfold fm_veca in *. fd_cbn. lia.
    + unfold fm_veca in *. fd_cbn. change (fm_vecm (with_lock true (man s))) with (fm_vecm (man s)) in Hv. lia.
    + by rewrite Hh'.
    + intros t p. rewrite decref_hold, incref_hold. done.
    + eexists EOK, _. split; [done|]. split; [exact Hs1|]. left. split_and!; [done|exact Hs2|done|done].
  - change (- ENOMEM <? 0) with true. cbn iota. unfold fdman_endwrite. fd_cbn. cbn [oassert obind].
    eexists (- ENOMEM), _. split; [done|].
    assert (Hfl : failed s (State (with_lock false (with_lock true (man s))) (refs s))).
    { split; [by apply unlock_lock|done]. }
    split; [by apply failed_sound|]. by right.
Qed.

(** The numbers of directories, and the ones out of range. *)
Lemma dir_owned cwd root t p :
  owned (with_dirs cwd root (man s)) t p =
  owned (man s) t p - dir_hold t p (fm_cwd (man s)) - dir_hold t p (fm_root (man s))
    + dir_hold t p cwd + dir_hold t p root.
Proof. unfold owned. fd_cbn. lia. Qed.
Lemma count_up_dir d t p x rf : count_up d FD_TYPE_DENTRY x rf t p = rf t p + d * dir_hold t p x.
Proof. unfold count_up, dir_hold. destruct (bool_decide (t = FD_TYPE_DENTRY) && (p =? x)); lia. Qed.

(** The directory a descriptor stands for. *)
Definition dent_of : option Z :=
  match fo_ops fp with
  | FD_TYPE_DENTRY => Some (fo_ptr fp)
  | FD_TYPE_FILE => Some (f_dent cx (fo_ptr fp))
  | _ => None
  end.

Lemma set_other_number no :
  lock_write cx = 0 -> fm_vecm (man s) <= unsigned no ->
  (forall d, dent_of = Some d -> 0 < refs s FD_TYPE_DENTRY d) ->
  exists e s', fdman_set cx no fp s = Ret (e, s') /\ sound s s' /\
    (forall n, view (man s') n = view (man s) n) /\
    match dent_of with
    | None => e = - EINVAL /\ failed s s'
    | Some d =>
        if no =? AT_FDCWD then e = EOK /\ fm_cwd (man s') = d /\ fm_root (man s') = fm_root (man s)
        else if no =? AT_FDROOT then e = EOK /\ fm_root (man s') = d /\ fm_cwd (man s') = fm_cwd (man s)
        else e = - ENFILE /\ failed s s'
    end.
Proof.
  intros Hlk Hno Hd. pose proof Hinv as [Hl Hsz Hu Hh]. unfold fdman_set. rewrite Hfp. cbn [negb oassert].
  rewrite set_locked by done. cbn [man]. rewrite (proj2 (Z.leb_le _ (2 ^ 31 - 1))) by (fd_cbn; lia).
  cbn [oassert]. change (EOK <? 0) with false. fd_cbn. rewrite (proj2 (Z.leb_le _ _)) by done.
  assert (Hul : with_lock false (with_lock true (man s)) = man s) by (by apply unlock_lock).
  unfold set_special, FD_SAFE_ISTYPE. fd_cbn.
  match goal with |- context [match ?x with Some _ => _ | None => _ end] =>
    replace x with dent_of by (unfold dent_of; by destruct (fo_ops fp)) end.
  destruct dent_of as [d|] eqn:Ed.
  - specialize (Hd d eq_refl). unfold fdman_endwrite. fd_cbn. cbn [oassert obind].
    assert (Hdir : forall cwd root, with_lock false (with_dirs cwd root (with_lock true (man s))) =
      with_dirs cwd root (man s)) by (intros; destruct (man s); cbn in *; by rewrite Hl).
    rewrite !Hdir. destruct (no =? AT_FDCWD); [|destruct (no =? AT_FDROOT)].
    1,2: eexists EOK, _; split; [done|]; split; [|done]; split; [by destruct (man s)|];
      intros t p; unfold others; fd_cbn; rewrite dir_owned, !count_up_dir; lia.
    assert (Hrf : forall t p, count_up (-1) FD_TYPE_DENTRY d (count_up 1 FD_TYPE_DENTRY d (refs s)) t p = refs s t p).
    { intros t p. rewrite !count_up_dir. lia. }
    rewrite Hrf, (proj2 (Z.eqb_neq _ 0)) by lia. cbn [negb oassert]. rewrite Hul.
    eexists (- ENFILE), _. split; [done|]. assert (Hf : failed s (State (man s) (count_up (-1) FD_TYPE_DENTRY d
      (count_up 1 FD_TYPE_DENTRY d (refs s))))) by done. split; [by apply failed_sound|]. done.
  - unfold fdman_endwrite. fd_cbn. cbn [oassert obind]. rewrite Hul. eexists (- EINVAL), _. split; [done|].
    assert (Hf : failed s (State (man s) (refs s))) by done. split; [by apply failed_sound|]. done.
Qed.

End Set_.

(** ** Removing *)

Lemma null_from v k i f :
  forallb FD_SAFE_ISNULL (drop k v) = true -> (k <= i)%nat -> v !! i = Some f -> FD_SAFE_ISNULL f = true.
Proof.
  intros Hn Hk Hi. rewrite forallb_forall in Hn. apply Hn. apply list_elem_of_In.
  apply list_elem_of_lookup. exists (i - k)%nat. rewrite lookup_drop. by replace (k + (i - k))%nat with i by lia.
Qed.

Lemma fd_trim_ok v n :
  forallb FD_SAFE_ISNULL (drop n v) = true -> (n <= length v)%nat ->
  forallb FD_SAFE_ISNULL (drop (trim v n) v) = true /\ (trim v n <= n)%nat /\
  (trim v n = 0%nat \/ exists f, v !! pred (trim v n) = Some f /\ FD_SAFE_ISNULL f = false).
Proof.
  induction n as [|n IH]; intros Hd Hl; cbn [trim]; [auto|].
  destruct (lookup_lt_is_Some_2 v n) as [f Hf]; [lia|]. rewrite Hf. cbn [default from_option id].
  destruct (FD_SAFE_ISNULL f) eqn:E.
  - destruct IH as (H1 & H2 & H3); [|lia|auto].
    rewrite (drop_S _ _ _ Hf). cbn. by rewrite E.
  - split_and!; [done|lia|]. right. exists f. done.
Qed.

Section Cut.

Context (m : fdman) (k : nat) (Hk : forallb FD_SAFE_ISNULL (drop k (fm_vecv m)) = true).

Lemma view_cut c n : view (with_vec c (take k (fm_vecv m)) m) n = view m n.
Proof.
  unfold view. fd_cbn. destruct (n <? 0); [done|]. rewrite lookup_take.
  destruct (decide (Z.to_nat n < k)%nat) as [Hlt|Hge]; [done|].
  destruct (fm_vecv m !! Z.to_nat n) as [f|] eqn:E; [|done].
  by rewrite (null_from (fm_vecv m) k (Z.to_nat n) f Hk ltac:(lia) E).
Qed.
Lemma owned_cut c t p : owned (with_vec c (take k (fm_vecv m)) m) t p = owned m t p.
Proof. unfold owned. fd_cbn. by rewrite (total_take (g_hold t p) k _ Hk). Qed.
Lemma used_cut : total g_used (take k (fm_vecv m)) = total g_used (fm_vecv m).
Proof. exact (total_take g_used k _ Hk). Qed.

End Cut.

(** The vector may end before unused slots. *)
Definition cut (m m' : fdman) : Prop :=
  exists k, m' = with_vec (fm_vecc m) (take k (fm_vecv m)) m /\
    forallb FD_SAFE_ISNULL (drop k (fm_vecv m)) = true.
Lemma cut_refl m : cut m m.
Proof.
  exists (length (fm_vecv m)). rewrite take_ge, drop_ge by lia. by rewrite with_vec_id.
Qed.

Lemma fd_shrink_ok cx no m :
  0 <= no <= fm_veca m -> fm_veca m <= 2 ^ 31 - 1 -> fm_vecc m = total g_used (fm_vecv m) ->
  forallb FD_SAFE_ISNULL (zdrop no (fm_vecv m)) = true ->
  exists m', shrink cx no m = Ret m' /\ cut m m'.
Proof.
  intros Hno Hsz Hu Hd. unfold shrink, zdrop in *. unfold fm_veca, zlen in Hno, Hsz.
  destruct (fd_trim_ok (fm_vecv m) (Z.to_nat no) Hd ltac:(lia)) as (Ht & Hle & Hc).
  set (k := trim (fm_vecv m) (Z.to_nat no)) in *.
  destruct (Z.eqb_spec (Z.of_nat k) 0) as [E|E].
  - assert (k = 0%nat) as Ek by lia. rewrite Ek, drop_0 in Ht.
    assert (Hz : fm_vecc m = 0) by (rewrite Hu; by apply used_zero).
    rewrite (proj2 (Z.eqb_eq _ _) Hz). cbn [oassert].
    eexists. split; [done|]. exists 0%nat. by rewrite drop_0.
  - destruct Hc as [?|(f & Hf & Hn)]; [lia|].
    assert (Hne : fm_vecc m <> 0).
    { rewrite Hu. intros H0. apply used_zero in H0.
      enough (FD_SAFE_ISNULL f = true) by congruence.
      eapply (null_from _ 0); [by rewrite drop_0|lia|exact Hf]. }
    rewrite (proj2 (Z.eqb_neq _ 0)) by done. cbn [negb oassert].
    eexists. split; [done|]. destruct (_ && _); [|apply cut_refl]. eexists. split; [done|].
    pose proof (CEIL_ALIGN_bounds (2 ^ 32) (Z.of_nat k) 3 ltac:(lia) ltac:(lia)) as Hcl.
    change (2 ^ 3) with 8 in Hcl. change (2 ^ 31) with 2147483648 in Hsz.
    specialize (Hcl ltac:(change (2 ^ 32) with 4294967296; lia)) as [Hcl _].
    unfold FDMAN_VECTOR_THRESHOLD, fm_veca, zlen. apply forallb_forall. intros x Hx.
    apply list_elem_of_In, list_elem_of_lookup in Hx as [i Hi]. rewrite lookup_drop in Hi.
    pose proof (lookup_lt_Some _ _ _ Hi). eapply (null_from _ k); [exact Ht| |exact Hi]. lia.
Qed.

Lemma cut_facts m m' :
  cut m m' ->
  (forall n, view m' n = view m n) /\ (forall t p, owned m' t p = owned m t p) /\
  total g_used (fm_vecv m') = total g_used (fm_vecv m) /\ fm_veca m' <= fm_veca m /\
  fm_vecc m' = fm_vecc m /\ fm_vecm m' = fm_vecm m /\ fm_writing m' = fm_writing m /\
  fm_hint m' = fm_hint m /\ fm_cwd m' = fm_cwd m /\ fm_root m' = fm_root m.
Proof.
  intros (k & -> & Hk). split_and!; try done.
  - intros n. by apply view_cut.
  - intros t p. by apply owned_cut.
  - by apply used_cut.
  - unfold fm_veca, zlen. fd_cbn. rewrite length_take. lia.
Qed.

Section Del.

Context (cx : context) (s : state) (Hinv : fd_inv (man s)) (no : Z).

(** What the removal of the descriptor leaves of the table, before the lock is given back. *)
Lemma del_unlocked_ok f :
  view (man s) (unsigned no) = Some f ->
  exists m', fdman_del_unlocked cx no (State (with_lock true (man s)) (refs s))
      = Ret (clear_flags f, State m' (refs s)) /\
    cut (with_vec (fm_vecc (man s) - 1) (set_slot (man s) (unsigned no) fd_invalid) (with_lock true (man s))) m'.
Proof.
  intros Hv. pose proof Hinv as [Hl Hsz Hu Hh].
  assert (Hr : 0 <= unsigned no) by (apply Z.mod_pos_bound; lia).
  destruct (Z.lt_ge_cases (unsigned no) (fm_veca (man s))) as [Hlt|Hge];
    [|rewrite view_outside in Hv by lia; discriminate Hv].
  rewrite view_slot in Hv by lia. destruct (FD_SAFE_ISNULL (vec_slot (man s) (unsigned no))) eqn:En; [discriminate Hv|].
  injection Hv as Hv. unfold fdman_del_unlocked. fd_cbn. cbn [oassert].
  change (fm_veca (with_lock true (man s))) with (fm_veca (man s)).
  rewrite (proj2 (Z.ltb_lt _ _)) by done.
  change (vec_slot (with_lock true (man s)) (unsigned no)) with (vec_slot (man s) (unsigned no)).
  change (FD_SAFE_ISNULL (clear_flags (vec_slot (man s) (unsigned no)))) with (FD_SAFE_ISNULL (vec_slot (man s) (unsigned no))).
  rewrite En, Hv.
  pose proof (used_set (man s) (unsigned no) fd_invalid ltac:(lia)) as Hus.
  assert (Hcn : fm_vecc (man s) <> 0).
  { rewrite Hu. intros H0. apply used_zero in H0.
    enough (FD_SAFE_ISNULL (vec_slot (man s) (unsigned no)) = true) by congruence.
    eapply (null_from _ 0); [by rewrite drop_0|lia|by apply slot_lookup]. }
  rewrite (proj2 (Z.eqb_neq _ 0)) by done. cbn [negb oassert].
  change (set_slot (with_lock true (man s)) (unsigned no) fd_invalid) with (set_slot (man s) (unsigned no) fd_invalid).
  set (m1 := with_vec _ _ _).
  destruct (fm_veca m1 <? unsigned no + FDMAN_VECTOR_THRESHOLD); [eexists; split; [done|apply cut_refl]|].
  destruct (forallb _ _) eqn:Ef; [|eexists; split; [done|apply cut_refl]].
  rewrite forallb_app in Ef. apply andb_prop in Ef as [Ef _].
  assert (Hva : fm_veca m1 = fm_veca (man s)) by apply (veca_set (man s) 0 (unsigned no) fd_invalid).
  destruct (fd_shrink_ok cx (unsigned no) m1) as (m' & E & Hc).
  - lia.
  - change (2 ^ 31) with 2147483648 in *. lia.
  - unfold m1. fd_cbn. rewrite Hus, <- Hu. assert (g_used fd_invalid = 0) by done.
    assert (g_used (vec_slot (man s) (unsigned no)) = 1) by (unfold g_used; by rewrite En). lia.
  - unfold zdrop in *. assert (Hs0 : fm_vecv m1 !! Z.to_nat (unsigned no) = Some fd_invalid).
    { unfold m1, set_slot. fd_cbn. apply list_lookup_insert_eq. unfold fm_veca, zlen in Hlt. lia. }
    rewrite (drop_S _ _ _ Hs0). cbn. by replace (S (Z.to_nat (unsigned no))) with (Z.to_nat (unsigned no + 1)) by lia.
  - exists m'. rewrite E. done.
Qed.

(** What the table is like once the descriptor [f] has been taken out of it. *)
Definition removed (f : fd) (s' : state) : Prop :=
  (forall n, view (man s') n = put_view (view (man s)) (unsigned no) None n) /\
  (forall t p, refs s' t p = refs s t p - g_hold t p f) /\
  fm_cwd (man s') = fm_cwd (man s) /\ fm_root (man s') = fm_root (man s) /\
  fm_hint (man s') = fm_hint (man s).

Definition emptied : fdman := with_vec 0 (set_slot (man s) (unsigned no) fd_invalid) (man s).

Lemma removed_ok m' (f := vec_slot (man s) (unsigned no)) :
  unsigned no < fm_veca (man s) -> FD_SAFE_ISNULL f = false ->
  cut (with_vec (fm_vecc (man s) - 1) (set_slot (man s) (unsigned no) fd_invalid) (with_lock true (man s))) m' ->
  let s' := State (with_lock false m') (FD_SAFE_DECREF (clear_flags f) (refs s)) in sound s s' /\ removed f s'.
Proof.
  intros Hlt En Hc. pose proof Hinv as [Hl Hsz Hu Hh]. assert (Hr : 0 <= unsigned no) by (apply Z.mod_pos_bound; lia).
  apply cut_facts in Hc as (Hv & Ho & Hus & Hva & Hcc & Hvm & Hw & Hh' & Hcw & Hrt).
  assert (Hd : forall t p, FD_SAFE_DECREF (clear_flags f) (refs s) t p = refs s t p - g_hold t p f).
  { intros t p. by rewrite decref_hold. }
  split; [split|].
  - split; fd_cbn; try done.
    + change (fm_veca (with_lock false m')) with (fm_veca m'). rewrite Hvm. fd_cbn.
      pose proof (veca_set (man s) 0 (unsigned no) fd_invalid) as Hvs. change (fm_veca m' <= fm_veca emptied) in Hva.
      unfold emptied in Hva. lia.
    + rewrite Hcc, Hus. fd_cbn. rewrite used_set by lia. assert (g_used fd_invalid = 0) by done.
      fold f. assert (g_used f = 1) by (unfold g_used; by rewrite En). lia.
    + rewrite Hh'. done.
  - intros t p. unfold others. fd_cbn. rewrite Hd. change (owned (with_lock false m') t p) with (owned m' t p). rewrite Ho.
    pose proof (owned_set (man s) 0 (unsigned no) fd_invalid t p ltac:(lia)) as Hos. fold f in Hos.
    match goal with |- _ - _ - ?o = _ => change o with (owned emptied t p) end.
    unfold emptied. rewrite Hos. assert (g_hold t p fd_invalid = 0) by done. lia.
  - split_and!; [|done|done|done|done]. intros n. fd_cbn. change (view (with_lock false m') n) with (view m' n). rewrite Hv.
    match goal with |- ?v = _ => change v with (view emptied n) end. unfold emptied. by rewrite view_set by lia.
Qed.

Lemma del_absent :
  view (man s) (unsigned no) = None ->
  exists f, fdman_del_unlocked cx no (State (with_lock true (man s)) (refs s)) =
    Ret (f, State (with_lock true (man s)) (refs s)) /\ FD_SAFE_ISNULL f = true.
Proof.
  intros Ev. assert (Hr : 0 <= unsigned no) by (apply Z.mod_pos_bound; lia).
  unfold fdman_del_unlocked. fd_cbn. cbn [oassert].
  change (fm_veca (with_lock true (man s))) with (fm_veca (man s)).
  destruct (Z.ltb_spec (unsigned no) (fm_veca (man s))); [|by eexists].
  rewrite view_slot in Ev by lia. destruct (FD_SAFE_ISNULL (vec_slot (man s) (unsigned no))) eqn:En; [|discriminate Ev].
  change (vec_slot (with_lock true (man s)) (unsigned no)) with (vec_slot (man s) (unsigned no)).
  change (FD_SAFE_ISNULL (clear_flags (vec_slot (man s) (unsigned no)))) with (FD_SAFE_ISNULL (vec_slot (man s) (unsigned no))).
  rewrite En. by eexists.
Qed.

Lemma del_ok :
  lock_write cx = 0 ->
  exists e s', fdman_del cx no s = Ret (e, s') /\ sound s s' /\
    match view (man s) (unsigned no) with
    | Some f => e = EOK /\ removed f s'
    | None => e = - EBADF /\ failed s s'
    end.
Proof.
  intros Hlk. pose proof Hinv as [Hl Hsz Hu Hh]. unfold fdman_del. rewrite set_locked by done.
  change (EOK <? 0) with false. cbn iota. assert (Hr : 0 <= unsigned no) by (apply Z.mod_pos_bound; lia).
  destruct (view (man s) (unsigned no)) as [f|] eqn:Ev.
  - destruct (del_unlocked_ok f Ev) as (m' & E & Hc). rewrite E. cbn [obind].
    pose proof (cut_facts _ _ Hc) as (_ & _ & _ & _ & _ & _ & Hw & _).
    destruct (Z.lt_ge_cases (unsigned no) (fm_veca (man s))) as [Hlt|Hge];
      [|rewrite view_outside in Ev by lia; discriminate Ev].
    pose proof (view_slot (man s) (unsigned no) ltac:(lia)) as Evs. rewrite Ev in Evs.
    destruct (FD_SAFE_ISNULL (vec_slot (man s) (unsigned no))) eqn:En; [discriminate Evs|]. injection Evs as ->.
    unfold fdman_endwrite. fd_cbn. rewrite Hw. fd_cbn. cbn [oassert obind].
    change (FD_SAFE_ISNULL (clear_flags (vec_slot (man s) (unsigned no)))) with (FD_SAFE_ISNULL (vec_slot (man s) (unsigned no))).
    rewrite En. destruct (removed_ok m' Hlt En Hc) as [Hs Hrm]. by eexists EOK, _.
  - destruct (del_absent Ev) as (f & E & En). rewrite E. cbn [obind]. unfold fdman_endwrite. fd_cbn. cbn [oassert obind].
    rewrite En. eexists (- EBADF), _. split; [done|].
    assert (Hf : failed s (State (with_lock false (with_lock true (man s))) (refs s))).
    { split; [by apply unlock_lock|done]. }
    split; [by apply failed_sound|done].
Qed.

End Del.

(** ** Adding *)

Lemma find_free_ok m n : forall hint,
  match find_free m n hint with
  | Some i => hint <= i < hint + Z.of_nat n /\ FD_SAFE_ISNULL (vec_slot m i) = true /\
      forall j, hint <= j < i -> FD_SAFE_ISNULL (vec_slot m j) = false
  | None => forall j, hint <= j < hint + Z.of_nat n -> FD_SAFE_ISNULL (vec_slot m j) = false
  end.
Proof.
  induction n as [|n IH]; intros hint; cbn [find_free]; [intros j; lia|].
  destruct (FD_SAFE_ISNULL (vec_slot m hint)) eqn:E; [split_and!; [lia|lia|done|lia]|].
  specialize (IH (hint + 1)). destruct (find_free m n (hint + 1)) as [i|].
  - destruct IH as (Hi & Hn & Hj). split_and!; [lia|lia|done|]. intros j Hj'.
    destruct (Z.eq_dec j hint) as [->|]; [done|]. apply Hj. lia.
  - intros j Hj. destruct (Z.eq_dec j hint) as [->|]; [done|]. apply IH. lia.
Qed.

Section Put.

Context (cx : context) (s : state) (Hinv : fd_inv (man s)) (fp : fd) (Hfp : FD_SAFE_ISNULL fp = false).

(** The number [no] is [fp]'s now, or there was no memory. *)
Definition put_at (e no : Z) (s' : state) : Prop :=
  sound s s' /\
  ((e = no /\ (forall n, view (man s') n = put_view (view (man s)) no (Some fp) n) /\
    (forall t p, refs s' t p = refs s t p + g_hold t p fp) /\ fm_hint (man s') = no /\
    fm_cwd (man s') = fm_cwd (man s) /\ fm_root (man s') = fm_root (man s)) \/
   (e = - ENOMEM /\ failed s s')).

Lemma slot_none no : 0 <= no -> view (man s) no = None -> FD_SAFE_ISNULL (vec_slot (man s) no) = true.
Proof.
  intros Hno Hv. unfold vec_slot. destruct (fm_vecv (man s) !! Z.to_nat no) as [f|] eqn:E; [|done].
  unfold view in Hv. rewrite (proj2 (Z.ltb_ge no 0)), E in Hv by lia. cbn. by destruct (FD_SAFE_ISNULL f).
Qed.

Lemma put_slot_ok no :
  0 <= no <= fm_veca (man s) -> no + 1 < fm_vecm (man s) -> view (man s) no = None ->
  exists e m1 rf1, put_slot cx no fp (State (with_lock true (man s)) (refs s)) = Ret (e, State m1 rf1) /\
    fm_writing m1 = true /\ put_at e no (State (with_lock false m1) rf1).
Proof.
  intros Hno Hvm Hv. pose proof Hinv as [Hl Hsz Hu Hh]. unfold put_slot. fd_cbn.
  destruct (minsize_ok cx (no + 1) (with_lock true (man s))) as (e & m' & E & Hc);
    [fd_cbn; lia|unfold fm_veca in *; fd_cbn; lia|].
  rewrite E. cbn [obind]. destruct Hc as [(-> & Hm & Hva)|(-> & ->)].
  - change (EOK <? 0) with false. cbn iota.
    assert (Hm1 : more (man s) (with_lock false m')).
    { destruct Hm as [k ->]. exists k. destruct (man s). cbn in *. by rewrite Hl. }
    assert (Hf : fm_writing m' = true /\ fm_cwd m' = fm_cwd (man s) /\ fm_root m' = fm_root (man s))
      by (destruct Hm as [k ->]; done).
    destruct Hf as (Hw & Hcw & Hrt).
    change (fm_veca (with_hint no m')) with (fm_veca m'). rewrite (proj2 (Z.ltb_lt _ _)) by lia. cbn [oassert].
    change (vec_slot (with_hint no m') no) with (vec_slot (with_lock false m') no).
    assert (Hn : FD_SAFE_ISNULL (vec_slot (with_lock false m') no) = true).
    { pose proof (more_view _ _ no Hm1) as Hv'. rewrite Hv in Hv'.
      rewrite view_slot in Hv' by (change (fm_veca (with_lock false m')) with (fm_veca m'); lia).
      by destruct (FD_SAFE_ISNULL (vec_slot (with_lock false m') no)). }
    rewrite Hn. cbn [oassert].
    change (2 ^ 31) with 2147483648 in Hsz.
    destruct (fill_slot_ok s (with_lock false m') no no fp (FD_SAFE_INCREF fp (refs s))) as [Hs1 Hs2]; try done.
    + change (fm_veca (with_lock false m')) with (fm_veca m'). lia.
    + change (fm_veca (with_lock false m')) with (fm_veca m').
      change (fm_vecm (with_lock true (man s))) with (fm_vecm (man s)) in Hva. lia.
    + change (2 ^ 32) with 4294967296. lia.
    + intros t p. rewrite incref_hold, (ignores (vec_slot (with_lock false m') no) Hn). lia.
    + eexists no, _, _. split; [done|]. split; [done|]. rewrite Hn in Hs1, Hs2. split; [exact Hs1|].
      left. split_and!; [done|exact Hs2| |done|done|done]. intros t p. apply incref_hold.
  - change (- ENOMEM <? 0) with true. cbn iota. eexists _, _, _. split; [done|]. split; [done|].
    assert (Hfl : failed s (State (with_lock false (with_lock true (man s))) (refs s))).
    { split; [by apply unlock_lock|done]. }
    split; [by apply failed_sound|]. by right.
Qed.

(** The number is free; it is the first free one from [hint] on when the vector has one, else the
    first free one below it from [FDMAN_PUT_RESCAN_START] on, else the end of the vector. *)
Definition chosen (hint no : Z) : Prop :=
  0 <= no <= fm_veca (man s) /\ view (man s) no = None /\
  (forall j, hint <= j < no -> is_Some (view (man s) j)) /\
  (no < hint -> forall j, hint <= j < fm_veca (man s) -> is_Some (view (man s) j)) /\
  (no < hint -> no = fm_veca (man s) \/ FDMAN_PUT_RESCAN_START <= no) /\
  (no < hint \/ no = fm_veca (man s) -> forall j, FDMAN_PUT_RESCAN_START <= j < Z.min hint no -> is_Some (view (man s) j)).

Lemma used_view j : 0 <= j < fm_veca (man s) -> FD_SAFE_ISNULL (vec_slot (man s) j) = false -> is_Some (view (man s) j).
Proof. intros Hj Hn. rewrite view_slot by done. rewrite Hn. by eexists. Qed.

Lemma put_nearby_ok hint :
  0 <= hint -> fm_veca (man s) + 1 < fm_vecm (man s) ->
  exists no e m1 rf1, chosen hint no /\
    fdman_put_nearby_unlocked cx hint fp (State (with_lock true (man s)) (refs s)) = Ret (e, State m1 rf1) /\
    fm_writing m1 = true /\ put_at e no (State (with_lock false m1) rf1).
Proof.
  intros Hh Hroom. pose proof Hinv as [Hl Hsz Hu Hh']. unfold fdman_put_nearby_unlocked. fd_cbn.
  change (fm_veca (with_lock true (man s))) with (fm_veca (man s)).
  pose proof (used_nonneg (fm_vecv (man s))) as Hun. pose proof (veca_nonneg (man s)).
  rewrite (proj2 (Z.leb_le (fm_vecc (man s)) _)) by (unfold fm_veca; lia). cbn [oassert].
  assert (Hff : forall n h, find_free (with_lock true (man s)) n h = find_free (man s) n h).
  { induction n as [|n IHn]; intros h; cbn [find_free]; [done|]. by rewrite IHn. }
  rewrite !Hff. clear Hff.
  assert (Hgo : forall no, chosen hint no -> exists no' e m1 rf1, chosen hint no' /\
    put_slot cx no fp (State (with_lock true (man s)) (refs s)) = Ret (e, State m1 rf1) /\
    fm_writing m1 = true /\ put_at e no' (State (with_lock false m1) rf1)).
  { intros no Hc. exists no. destruct Hc as (Hc1 & Hc2 & Hc3).
    destruct (put_slot_ok no) as (e & m1 & rf1 & Hp); [lia|lia|done|]. by exists e, m1, rf1. }
  pose proof (find_free_ok (man s) (Z.to_nat (fm_veca (man s) - hint)) hint) as Hf1.
  destruct (find_free _ _ hint) as [no|].
  { destruct Hf1 as (Hi & Hn & Hj). apply Hgo. split_and!; [lia|lia| | |lia|lia|lia].
    - rewrite view_slot by lia. by rewrite Hn.
    - intros j Hj'. apply used_view; [lia|]. by apply Hj. }
  assert (Hall : forall j, hint <= j < fm_veca (man s) -> is_Some (view (man s) j)).
  { intros j Hj. apply used_view; [lia|]. apply Hf1. lia. }
  assert (Hend : (forall j, FDMAN_PUT_RESCAN_START <= j < Z.min hint (fm_veca (man s)) -> is_Some (view (man s) j)) -> chosen hint (fm_veca (man s))).
  { intros Hlow. split_and!; [lia|lia|apply view_outside; lia|exact Hall|done|by left|done]. }
  assert (Hmem : (fm_veca (man s) <? fm_vecm (man s)) = true) by lia.
  destruct (Z.eqb_spec (fm_vecc (man s)) (fm_veca (man s))) as [Hfull|_]; cbn [negb].
  { rewrite Hmem. apply Hgo, Hend. intros j Hj. unfold FDMAN_PUT_RESCAN_START in Hj. apply used_view; [lia|].
    apply (used_full (fm_vecv (man s))); [by rewrite <- Hu|]. eapply list_elem_of_lookup_2, slot_lookup. lia. }
  pose proof (find_free_ok (man s) (Z.to_nat (Z.min hint (fm_veca (man s)) - FDMAN_PUT_RESCAN_START))
    FDMAN_PUT_RESCAN_START) as Hf2.
  destruct (find_free _ _ FDMAN_PUT_RESCAN_START) as [no|].
  - destruct Hf2 as (Hi & Hn & Hj). unfold FDMAN_PUT_RESCAN_START in *. apply Hgo. split_and!; [lia|lia| |lia|done|intros _; right; apply Hi|].
    + rewrite view_slot by lia. by rewrite Hn.
    + intros _ j Hj'. unfold FDMAN_PUT_RESCAN_START in *. apply used_view; [lia|]. apply Hj. lia.
  - rewrite Hmem. apply Hgo, Hend. intros j Hj. unfold FDMAN_PUT_RESCAN_START in *. apply used_view; [lia|]. apply Hf2. lia.
Qed.

End Put.
