(* ===== verification/FdTheorems.v ===== *)
(** * File descriptors: the system calls

    What dup, dup3, close, fcntl and fork do, for a table that satisfies [fd_inv], and what
    holds of every table that calls can lead to. *)
From stdpp Require Import base numbers list sets relations.
From S2P Require Import Prelude Align FdMan FdSpec.

(** A vector with a slot to add. *)
Definition room (m : fdman) : Prop := fm_veca m + 1 < fm_vecm m.

Lemma put_locked_ok cx s h fp :
  fd_inv (man s) -> FD_SAFE_ISNULL fp = false -> lock_write cx = 0 -> room (man s) ->
  0 <= h (man s) -> h (with_lock true (man s)) = h (man s) ->
  exists no e s', put_locked cx h fp s = Ret (e, s') /\ chosen s (h (man s)) no /\ put_at s fp e no s'.
Proof.
  intros Hinv Hfp Hlk Hroom Hh He. unfold put_locked. rewrite set_locked by done.
  change (EOK <? 0) with false. cbn iota. cbn [man]. rewrite He.
  destruct (put_nearby_ok cx s Hinv fp Hfp (h (man s)) Hh Hroom) as (no & e & m1 & rf1 & Hc & E & Hw & Hp).
  rewrite E. cbn [obind]. unfold fdman_endwrite. cbn [man refs]. rewrite Hw. cbn [oassert obind].
  by exists no, e, (State (with_lock false m1) rf1).
Qed.

Section Calls.

Context (cx : context) (s : state) (Hinv : fd_inv (man s)).

(** A call holds a reference of its own to the descriptor it works with. *)
Lemma borrow_sound f g s2 :
  (forall t p, g_hold t p g = g_hold t p f) ->
  sound (State (man s) (FD_SAFE_INCREF f (refs s))) s2 -> sound s (State (man s2) (FD_SAFE_DECREF g (refs s2))).
Proof.
  intros Hg [Hi Ho]. split; [done|]. intros t p. specialize (Ho t p). unfold others in *. cbn [man refs] in *.
  rewrite decref_hold, Hg. rewrite incref_hold in Ho. lia.
Qed.
Lemma borrow_failed f g s2 :
  (forall t p, g_hold t p g = g_hold t p f) ->
  failed (State (man s) (FD_SAFE_INCREF f (refs s))) s2 -> failed s (State (man s2) (FD_SAFE_DECREF g (refs s2))).
Proof.
  intros Hg [Em Er]. split; [done|]. intros t p. cbn [refs]. rewrite decref_hold, Hg, Er. cbn [refs].
  rewrite incref_hold. lia.
Qed.

(** A free number has [f] now, or there was no memory and nothing has changed. *)
Definition duplicated (hint : Z) (f : fd) (e : Z) (s' : state) : Prop :=
  sound s s' /\
  ((chosen s hint e /\ (forall n, view (man s') n = put_view (view (man s)) e (Some f) n) /\
    (forall t p, refs s' t p = refs s t p + g_hold t p f)) \/
   (e = - ENOMEM /\ failed s s')).

Lemma put_borrowed h f g :
  FD_SAFE_ISNULL g = false -> (forall t p, g_hold t p g = g_hold t p f) ->
  lock_write cx = 0 -> room (man s) -> 0 <= h (man s) -> h (with_lock true (man s)) = h (man s) ->
  exists e s', (let! (result, s1) := put_locked cx h g (State (man s) (FD_SAFE_INCREF f (refs s))) in
      Ret (result, State (man s1) (FD_SAFE_DECREF g (refs s1)))) = Ret (e, s') /\
    duplicated (h (man s)) g e s'.
Proof.
  intros Hn Hg Hlk Hroom Hh He. set (s1 := State (man s) (FD_SAFE_INCREF f (refs s))).
  destruct (put_locked_ok cx s1 h g Hinv Hn Hlk Hroom Hh He) as (no & e & s2 & E & Hc & Hs & Hp).
  rewrite E. cbn [obind]. eexists e, _. split; [done|]. split; [by apply (borrow_sound f g)|].
  destruct Hp as [(-> & Hv & Hr & _)|[-> Hf]]; [left|right; split; [done|by apply (borrow_failed f g)]].
  split_and!; [done|done|]. intros t p. cbn [refs]. rewrite decref_hold, Hr. unfold s1. cbn [refs].
  rewrite incref_hold, Hg. lia.
Qed.

(** What a call is given instead of the number. *)
Definition seen (no : Z) : fd := get_entry cx (man s) no.

Lemma seen_view no : 0 <= no < 2 ^ 31 ->
  FD_SAFE_ISNULL (seen no) = negb (bool_decide (is_Some (view (man s) no))) /\
  (forall f, view (man s) no = Some f -> seen no = clear_flags f).
Proof.
  intros Hno. change (2 ^ 31) with 2147483648 in Hno. unfold seen, get_entry.
  rewrite unsigned_id by (change (2 ^ 32) with 4294967296; lia). destruct (Z.ltb_spec no (fm_veca (man s))) as [Hlt|Hge].
  - rewrite view_slot by lia. change (FD_SAFE_ISNULL (clear_flags (vec_slot (man s) no))) with (FD_SAFE_ISNULL (vec_slot (man s) no)).
    destruct (FD_SAFE_ISNULL (vec_slot (man s) no)) eqn:E; split.
    + by rewrite bool_decide_false by (intros [? ?]; done).
    + done.
    + by rewrite bool_decide_true by by eexists.
    + by intros f [= <-].
  - rewrite view_outside by lia. unfold AT_FDCWD, AT_FDROOT, AT_THIS_TASK, AT_THIS_MMAN, AT_THIS_STACK.
    rewrite !(proj2 (Z.eqb_neq _ _)) by lia. split; [|done].
    by rewrite bool_decide_false by (intros [? ?]; done).
Qed.

Lemma dup_ok no :
  lock_write cx = 0 -> room (man s) ->
  exists e s', SYSC_dup cx no s = Ret (e, s') /\
    if FD_SAFE_ISNULL (seen no) then e = - EBADF /\ failed s s'
    else duplicated (fm_hint (man s)) (seen no) e s'.
Proof.
  intros Hlk Hroom. unfold SYSC_dup, fdman_get. fold (seen no).
  destruct (FD_SAFE_ISNULL (seen no)) eqn:E.
  - eexists _, _. split; [done|]. split; [done|]. split; [done|]. intros t p. cbn [refs].
    by rewrite incref_hold, (ignores _ E), Z.add_0_r.
  - apply put_borrowed; try done. apply Hinv.
Qed.

Lemma dupfd_ok b no arg :
  lock_write cx = 0 -> room (man s) ->
  exists e s', fcntl_dupfd cx b no arg s = Ret (e, s') /\
    if FD_SAFE_ISNULL (seen no) then e = - EBADF /\ failed s s'
    else duplicated (unsigned arg) (set_flags (seen no) (if b then FD_CLOEXEC else 0)) e s'.
Proof.
  intros Hlk Hroom. unfold fcntl_dupfd, fdman_get. fold (seen no).
  destruct (FD_SAFE_ISNULL (seen no)) eqn:E.
  - eexists _, _. split; [done|]. split; [done|]. split; [done|]. intros t p. cbn [refs].
    by rewrite incref_hold, (ignores _ E), Z.add_0_r.
  - assert (Hfl : fo_flags (seen no) = 0).
    { unfold seen, get_entry. repeat case_match; done. }
    replace (if b then set_flags (seen no) (Z.lor (fo_flags (seen no)) FD_CLOEXEC) else seen no)
      with (set_flags (seen no) (if b then FD_CLOEXEC else 0)).
    2:{ rewrite Hfl. destruct b; [done|]. rewrite <- Hfl. by destruct (seen no). }
    apply (put_borrowed (fun _ => unsigned arg)); try done. apply Z.mod_pos_bound. lia.
Qed.

End Calls.

(** ** Setting a number *)

Section Assign.

Context (cx : context) (s : state) (Hinv : fd_inv (man s)).

(** A number of the table has [f] now, the last one is refused, and the others stand for directories. *)
Definition assigned (no : Z) (f : fd) (e : Z) (s' : state) : Prop :=
  sound s s' /\
  if unsigned no + 1 <? fm_vecm (man s) then
    (e = EOK /\ (forall n, view (man s') n = put_view (view (man s)) no (Some f) n) /\
     fm_cwd (man s') = fm_cwd (man s) /\ fm_root (man s') = fm_root (man s)) \/
    (e = - ENOMEM /\ failed s s')
  else if unsigned no + 1 =? fm_vecm (man s) then e = - EBADF /\ failed s s'
  else (forall n, view (man s') n = view (man s) n) /\
    match dent_of cx f with
    | None => e = - EINVAL /\ failed s s'
    | Some d =>
        if no =? AT_FDCWD then e = EOK /\ fm_cwd (man s') = d /\ fm_root (man s') = fm_root (man s)
        else if no =? AT_FDROOT then e = EOK /\ fm_root (man s') = d /\ fm_cwd (man s') = fm_cwd (man s)
        else e = - ENFILE /\ failed s s'
    end.

Lemma set_edge no f :
  FD_SAFE_ISNULL f = false -> lock_write cx = 0 -> unsigned no + 1 = fm_vecm (man s) ->
  exists s', fdman_set cx no f s = Ret (- EBADF, s') /\ failed s s'.
Proof.
  intros Hf Hlk He. pose proof Hinv as [Hl Hsz Hu Hh]. unfold fdman_set. rewrite Hf. cbn [negb oassert].
  rewrite set_locked by done. cbn [man]. rewrite (proj2 (Z.leb_le _ (2 ^ 31 - 1))) by (fd_cbn; lia).
  cbn [oassert]. change (EOK <? 0) with false. fd_cbn. rewrite (proj2 (Z.leb_gt _ _)) by lia.
  rewrite (proj2 (Z.leb_le _ _)) by lia. unfold fdman_endwrite. fd_cbn. cbn [oassert obind].
  eexists. split; [done|]. split; [by apply unlock_lock|done].
Qed.

Lemma set_ok no f :
  FD_SAFE_ISNULL f = false -> lock_write cx = 0 -> - 2 ^ 31 <= no < 2 ^ 31 ->
  (forall d, dent_of cx f = Some d -> 0 < refs s FD_TYPE_DENTRY d) ->
  exists e s', fdman_set cx no f s = Ret (e, s') /\ assigned no f e s'.
Proof.
  intros Hf Hlk Hno Hd. unfold assigned.
  assert (Hun : unsigned no = if no <? 0 then no + 4294967296 else no).
  { unfold unsigned. change (2 ^ 31) with 2147483648 in *. change (2 ^ 32) with 4294967296.
    destruct (Z.ltb_spec no 0); [|apply Z.mod_small; lia].
    rewrite <- (Z.mod_add _ 1) by lia. rewrite Z.mod_small; lia. }
  pose proof Hinv as [_ Hsz _ _]. change (2 ^ 31) with 2147483648 in *.
  destruct (Z.ltb_spec (unsigned no + 1) (fm_vecm (man s))) as [Hlt|Hge].
  - destruct (Z.ltb_spec no 0); [lia|]. destruct (set_slot_number cx s Hinv f Hf no Hlk) as (e & s' & E & Hs); [lia|lia|].
    by exists e, s'.
  - destruct (Z.eqb_spec (unsigned no + 1) (fm_vecm (man s))) as [He|Hne].
    + destruct (set_edge no f Hf Hlk He) as (s' & E & Hs). exists (- EBADF), s'. split; [done|].
      split; [by apply failed_sound|done].
    + destruct (set_other_number cx s Hinv f Hf no Hlk) as (e & s' & E & Hs); [lia|exact Hd|].
      by exists e, s'.
Qed.

End Assign.

(** The flags dup3 takes. *)
Definition dup3_flags (flags : Z) : Z :=
  Z.lor (if negb (Z.land flags O_CLOEXEC =? 0) then FD_CLOEXEC else 0)
        (if negb (Z.land flags O_CLOFORK =? 0) then FD_CLOFORK else 0).
Definition dup3_refused (oldfd newfd flags : Z) : bool :=
  negb (Z.land flags (Z.lnot (Z.lor O_CLOEXEC O_CLOFORK)) =? 0) || (oldfd =? newfd).

Lemma seen_flags cx s no : fo_flags (seen cx s no) = 0.
Proof. unfold seen, get_entry. repeat case_match; done. Qed.

(** The result of [fdman_set] as dup3 returns it, for the descriptor [f]. *)
Definition replaced (cx : context) (s : state) (newfd : Z) (f : fd) (e : Z) (s' : state) : Prop :=
  sound s s' /\
  if unsigned newfd + 1 <? fm_vecm (man s) then
    (e = newfd /\ (forall n, view (man s') n = put_view (view (man s)) newfd (Some f) n)) \/
    (e = - ENOMEM /\ failed s s')
  else if unsigned newfd + 1 =? fm_vecm (man s) then e = - EBADF /\ failed s s'
  else (forall n, view (man s') n = view (man s) n) /\
    match dent_of cx f with
    | None => e = - EINVAL /\ failed s s'
    | Some d =>
        if newfd =? AT_FDCWD then e = newfd /\ fm_cwd (man s') = d /\ fm_root (man s') = fm_root (man s)
        else if newfd =? AT_FDROOT then e = newfd /\ fm_root (man s') = d /\ fm_cwd (man s') = fm_cwd (man s)
        else e = - ENFILE /\ failed s s'
    end.

Lemma assigned_replaced cx s newfd f g e s' :
  (forall t p, g_hold t p g = g_hold t p f) ->
  assigned cx (State (man s) (FD_SAFE_INCREF f (refs s))) newfd g e s' ->
  replaced cx s newfd g (if 0 <=? e then newfd else e) (State (man s') (FD_SAFE_DECREF g (refs s'))).
Proof.
  intros Hg [Hs Ha]. split; [by apply (borrow_sound s f g)|]. cbn [man refs] in Ha |- *.
  destruct (unsigned newfd + 1 <? fm_vecm (man s)).
  { destruct Ha as [(-> & Hv & _)|[-> Hf]]; [left; split; [done|exact Hv]|right].
    split; [done|by apply (borrow_failed s f g)]. }
  destruct (unsigned newfd + 1 =? fm_vecm (man s)).
  { destruct Ha as [-> Hf]. split; [done|by apply (borrow_failed s f g)]. }
  destruct Ha as [Hv Ha]. split; [exact Hv|]. destruct (dent_of cx g).
  - destruct (newfd =? AT_FDCWD); [by destruct Ha as (-> & ? & ?)|].
    destruct (newfd =? AT_FDROOT); [by destruct Ha as (-> & ? & ?)|].
    destruct Ha as [-> Hf]. split; [done|by apply (borrow_failed s f g)].
  - destruct Ha as [-> Hf]. split; [done|by apply (borrow_failed s f g)].
Qed.

(** The directory of a file is there as long as the file is. *)
Definition files_have_dentries (cx : context) (s : state) : Prop :=
  (forall t p, 0 <= refs s t p) /\
  forall n f, view (man s) n = Some f -> fo_ops f = FD_TYPE_FILE -> 0 < refs s FD_TYPE_DENTRY (f_dent cx (fo_ptr f)).

Lemma seen_dentry cx s no x d :
  files_have_dentries cx s -> FD_SAFE_ISNULL (seen cx s no) = false ->
  dent_of cx (set_flags (seen cx s no) x) = Some d ->
  0 < refs (State (man s) (FD_SAFE_INCREF (seen cx s no) (refs s))) FD_TYPE_DENTRY d.
Proof.
  intros [Hnn Hd] Hn He. cbn [refs]. rewrite incref_hold. unfold g_hold. rewrite Hn.
  unfold dent_of, set_flags in He. cbn [fo_ops fo_ptr] in He. specialize (Hnn FD_TYPE_DENTRY d).
  destruct (fo_ops (seen cx s no)) eqn:Eo; try discriminate He; injection He as <-.
  - assert (Hf : unsigned no < fm_veca (man s)).
    { unfold seen, get_entry in Eo. destruct (Z.ltb_spec (unsigned no) (fm_veca (man s))); [done|].
      repeat case_match; discriminate Eo. }
    assert (Hs : seen cx s no = clear_flags (vec_slot (man s) (unsigned no))).
    { unfold seen, get_entry. by rewrite (proj2 (Z.ltb_lt _ _) Hf). }
    rewrite Hs in *. pose proof (Z.mod_pos_bound no (2 ^ 32) ltac:(lia)).
    pose proof (Hd (unsigned no) (vec_slot (man s) (unsigned no))) as Hd'.
    rewrite view_slot in Hd' by (unfold unsigned in *; lia).
    change (FD_SAFE_ISNULL (clear_flags (vec_slot (man s) (unsigned no)))) with (FD_SAFE_ISNULL (vec_slot (man s) (unsigned no))) in Hn.
    rewrite Hn in Hd'. cbn [clear_flags set_flags fo_ptr fo_ops] in *. specialize (Hd' eq_refl Eo).
    case_match; lia.
  - rewrite Z.eqb_refl. rewrite bool_decide_true by done. cbn [andb]. lia.
Qed.

Lemma dup3_ok cx s oldfd newfd flags :
  fd_inv (man s) -> lock_write cx = 0 -> - 2 ^ 31 <= newfd < 2 ^ 31 -> files_have_dentries cx s ->
  exists e s', SYSC_dup3 cx oldfd newfd flags s = Ret (e, s') /\
    if dup3_refused oldfd newfd flags then e = - EINVAL /\ s' = s
    else if FD_SAFE_ISNULL (seen cx s oldfd) then e = - EBADF /\ failed s s'
    else replaced cx s newfd (set_flags (seen cx s oldfd) (dup3_flags flags)) e s'.
Proof.
  intros Hinv Hlk Hr Hd. unfold SYSC_dup3, dup3_refused, fdman_get. fold (seen cx s oldfd).
  destruct (negb _); [by eexists _, _|]. destruct (oldfd =? newfd); [by eexists _, _|]. cbn [orb].
  destruct (FD_SAFE_ISNULL (seen cx s oldfd)) eqn:E.
  { eexists _, _. split; [done|]. split; [done|]. split; [done|]. intros t p. cbn [refs].
    by rewrite incref_hold, (ignores _ E), Z.add_0_r. }
  rewrite seen_flags, Z.lor_0_l. fold (dup3_flags flags).
  set (g := set_flags (seen cx s oldfd) (dup3_flags flags)).
  destruct (set_ok cx (State (man s) (FD_SAFE_INCREF (seen cx s oldfd) (refs s))) Hinv newfd g)
    as (e & s2 & E2 & Ha); try done.
  - intros d Hde. exact (seen_dentry _ _ _ _ _ Hd E Hde).
  - rewrite E2. cbn [obind]. eexists _, _. split; [done|]. by apply assigned_replaced with (f := seen cx s oldfd).
Qed.

(** ** Flags *)

Lemma change_flags_ok cx s no (f : Z -> Z) :
  fd_inv (man s) -> lock_write cx = 0 ->
  exists e s', change_flags cx no f s = Ret (e, s') /\
    if unsigned no <? fm_veca (man s) then
      e = EOK /\ sound s s' /\
      forall n, view (man s') n =
        if n =? unsigned no then (fun x => set_flags x (f (fo_flags x))) <$> view (man s) n else view (man s) n
    else e = - EBADF /\ failed s s'.
Proof.
  intros Hinv Hlk. pose proof Hinv as [Hl Hsz Hu Hh]. unfold change_flags. rewrite set_locked by done.
  change (EOK <? 0) with false. cbn iota. fd_cbn.
  change (fm_veca (with_lock true (man s))) with (fm_veca (man s)).
  change (vec_slot (with_lock true (man s))) with (vec_slot (man s)).
  change (set_slot (with_lock true (man s))) with (set_slot (man s)).
  pose proof (Z.mod_pos_bound no (2 ^ 32) ltac:(lia)) as Hb. fold (unsigned no) in Hb.
  destruct (Z.leb_spec (fm_veca (man s)) (unsigned no)) as [Hge|Hlt].
  - rewrite (proj2 (Z.ltb_ge _ _)) by done. unfold fdman_endwrite. fd_cbn. cbn [oassert obind].
    eexists _, _. split; [done|]. split; [done|]. split; [by apply unlock_lock|done].
  - rewrite (proj2 (Z.ltb_lt _ _)) by done. unfold fdman_endwrite. fd_cbn. cbn [oassert obind].
    set (e := vec_slot (man s) (unsigned no)). set (g := set_flags e (f (fo_flags e))).
    assert (Hg : FD_SAFE_ISNULL g = FD_SAFE_ISNULL e) by done.
    eexists _, _. split; [done|]. split; [done|]. split; [split|].
    + pose proof (veca_set (man s) 0 (unsigned no) g) as Hv. split; fd_cbn; [done| | |done].
      * unfold fm_veca in *. cbn [with_vec fm_vecv] in Hv. fd_cbn. lia.
      * rewrite used_set by lia. fold e. unfold g_used at 2 3. rewrite Hg. lia.
    + intros t p. unfold others. fd_cbn.
      pose proof (owned_set (man s) 0 (unsigned no) g t p ltac:(lia)) as Ho. fold e in Ho.
      unfold owned in *. fd_cbn. cbn [with_vec fm_vecv fm_cwd fm_root] in Ho.
      unfold g in Ho. rewrite hold_flags in Ho. fold g in Ho. cbn [with_lock with_vec fm_vecv fm_cwd fm_root]. lia.
    + intros n. change (view (with_vec 0 (set_slot (man s) (unsigned no) g) (man s)) n =
        if n =? unsigned no then (fun x => set_flags x (f (fo_flags x))) <$> view (man s) n else view (man s) n).
      rewrite view_set by lia. unfold put_view. destruct (Z.eqb_spec n (unsigned no)) as [->|]; [|done].
      rewrite view_slot by lia. fold e. rewrite Hg. by destruct (FD_SAFE_ISNULL e).
Qed.

(** ** The end of a table *)

Lemma destroy_vec v rf t p :
  fold_left (fun rf f => FD_SAFE_DECREF f rf) v rf t p = rf t p - total (g_hold t p) v.
Proof.
  revert rf. induction v as [|f v IH]; intros rf; cbn [fold_left]; [cbn; lia|].
  rewrite IH, decref_hold. cbn. unfold total. lia.
Qed.
Lemma destroy_ok s t p : fdman_destroy s t p = others s t p.
Proof.
  unfold fdman_destroy, others, owned. rewrite destroy_vec, !count_up_dir. lia.
Qed.

(** ** Tables that calls lead to *)

Inductive fd_syscall : Set :=
| C_dup (no : Z) | C_dup3 (oldfd newfd flags : Z) | C_close (no : Z)
| C_dupfd (cloexec : bool) (no arg : Z) | C_setfd (no arg : Z) | C_clex (on : bool) (no : Z) | C_umask (mask : Z).
Definition exec (cx : context) (c : fd_syscall) (s : state) : outcome (Z * state) :=
  match c with
  | C_dup no => SYSC_dup cx no s
  | C_dup3 oldfd newfd flags => SYSC_dup3 cx oldfd newfd flags s
  | C_close no => SYSC_close cx no s
  | C_dupfd b no arg => fcntl_dupfd cx b no arg s
  | C_setfd no arg => fcntl_setfd cx no arg s
  | C_clex on no => ioctl_clex cx on no s
  | C_umask mask => Ret (SYSC_umask mask s)
  end.
(** The lock is got, a call that adds a descriptor finds the vector below its limit, and
    dup3 files that have their directories. *)
Definition ready (cx : context) (c : fd_syscall) (s : state) : Prop :=
  lock_write cx = 0 /\
  match c with
  | C_dup _ | C_dupfd _ _ _ => room (man s)
  | C_dup3 _ newfd _ => - 2 ^ 31 <= newfd < 2 ^ 31 /\ files_have_dentries cx s
  | _ => True
  end.

Lemma exec_sound cx c s :
  fd_inv (man s) -> ready cx c s -> exists e s', exec cx c s = Ret (e, s') /\ sound s s'.
Proof.
  intros Hinv [Hlk Hr]. destruct c as [no|o n fl|no|b no arg|no arg|on no|mask]; cbn [exec].
  - destruct (dup_ok cx s Hinv no Hlk Hr) as (e & s' & E & H). exists e, s'. split; [done|].
    destruct (FD_SAFE_ISNULL _); [apply failed_sound; [done|apply H]|apply H].
  - destruct Hr as [Hn Hf]. destruct (dup3_ok cx s o n fl Hinv Hlk Hn Hf) as (e & s' & E & H). exists e, s'.
    split; [done|]. destruct (dup3_refused o n fl); [by destruct H as [_ ->]|].
    destruct (FD_SAFE_ISNULL _); [apply failed_sound; [done|apply H]|apply H].
  - destruct (del_ok cx s Hinv no Hlk) as (e & s' & E & H & _). by exists e, s'.
  - destruct (dupfd_ok cx s Hinv b no arg Hlk Hr) as (e & s' & E & H). exists e, s'. split; [done|].
    destruct (FD_SAFE_ISNULL _); [apply failed_sound; [done|apply H]|apply H].
  - destruct (change_flags_ok cx s no (fun _ => Z.land arg FD_MASK) Hinv Hlk) as (e & s' & E & H).
    exists e, s'. split; [done|]. destruct (_ <? _); [apply H|apply failed_sound; [done|apply H]].
  - unfold ioctl_clex. match goal with |- context [change_flags cx no ?f s] =>
      destruct (change_flags_ok cx s no f Hinv Hlk) as (e & s' & E & H) end.
    exists e, s'. split; [done|]. destruct (_ <? _); [apply H|apply failed_sound; [done|apply H]].
  - eexists _, _. split; [done|]. split; [|done]. destruct Hinv as [Hl Hs Hu Hh]. by split.
Qed.

(** One call, with whatever the rest of the system is like at that moment. *)
Inductive fd_step : state -> state -> Prop :=
| fd_call cx c s e s' : ready cx c s -> exec cx c s = Ret (e, s') -> fd_step s s'.

Lemma fd_init_inv root rf : fd_inv (man (fdman_init root rf)).
Proof. split; [done|by split; vm_compute|done|by split; vm_compute]. Qed.
Lemma init_others root rf t p : others (fdman_init root rf) t p = rf t p.
Proof.
  unfold others, owned, fdman_init. fd_cbn. rewrite count_up_dir. cbn. lia.
Qed.
Lemma steps_sound s s' : fd_inv (man s) -> rtc fd_step s s' -> sound s s'.
Proof.
  intros Hinv Hr. induction Hr as [|s1 s2 s3 Hs _ IH]; [by apply sound_refl|].
  destruct Hs as [cx c s1 e s2 Hrd E]. destruct (exec_sound cx c s1 Hinv Hrd) as (e' & s2' & E' & Hs).
  rewrite E in E'. injection E' as <- <-. destruct (IH (proj1 Hs)) as [Hi Ho]. split; [done|].
  intros t p. rewrite Ho. apply Hs.
Qed.

(** ** Fork *)

(** What the copy has in place of a slot. *)
Definition kept (f : fd) : fd := if FD_IS_CLOFORK f then fd_invalid else f.
Definition marks_used (v : list fd) : Prop := forall f, f ∈ v -> FD_SAFE_ISNULL f = true -> FD_IS_CLOFORK f = false.

Lemma copy_fork_ok v : forall c rf,
  marks_used v -> total g_used v <= c ->
  exists rf', copy_fork v c rf = Ret (kept <$> v, c - total g_used v + total g_used (kept <$> v), rf') /\
    forall t p, rf' t p = rf t p + total (g_hold t p) (kept <$> v).
Proof.
  induction v as [|f v IH]; intros c rf Hm Hc; cbn [copy_fork fmap list_fmap].
  { exists rf. cbn. split; [by rewrite Z.sub_0_r, Z.add_0_r|]. intros t p. lia. }
  assert (Hm' : marks_used v) by (intros g Hg; apply Hm; by right).
  specialize (Hm f ltac:(left)). pose proof (used_nonneg v) as Hp.
  change (total g_used (f :: v)) with (g_used f + total g_used v) in *.
  change (total g_used (kept f :: (kept <$> v))) with (g_used (kept f) + total g_used (kept <$> v)).
  assert (Ht : forall t p, total (g_hold t p) (kept f :: (kept <$> v)) =
    g_hold t p (kept f) + total (g_hold t p) (kept <$> v)) by done.
  change ((kept <$> f :: v)) with (kept f :: (kept <$> v)). setoid_rewrite Ht. unfold kept at 1 3 5.
  destruct (FD_IS_CLOFORK f).
  - assert (Hu : g_used f = 1) by (unfold g_used; by destruct (FD_SAFE_ISNULL f); [specialize (Hm eq_refl)|]).
    rewrite Hu in *. rewrite (proj2 (Z.eqb_neq c 0)) by lia. cbn [negb oassert].
    destruct (IH (c - 1) rf Hm' ltac:(lia)) as (rf' & E & Hr). rewrite E. cbn [obind]. exists rf'.
    split; [do 3 f_equal; change (g_used fd_invalid) with 0; lia|]. intros t p. by rewrite Hr.
  - assert (Hg : 0 <= g_used f <= 1) by (unfold g_used; case_match; lia).
    destruct (IH c (FD_SAFE_INCREF f rf) Hm' ltac:(lia)) as (rf' & E & Hr). rewrite E. cbn [obind]. exists rf'.
    split; [do 3 f_equal; lia|]. intros t p. rewrite Hr, incref_hold. lia.
Qed.

Lemma elem_take {A} k (v : list A) x : x ∈ take k v -> x ∈ v.
Proof. rewrite <- (take_drop k v) at 2. set_solver. Qed.
Lemma trim_fork_le v n : (trim_fork v n <= n)%nat.
Proof. induction n as [|n IH]; cbn [trim_fork]; [lia|]. destruct (_ || _); lia. Qed.

(** The copy that fork makes, when the last descriptor is not one to be closed. *)
Definition forked (src : fdman) (rf : counters) (m : fdman) (rf' : counters) : Prop :=
  fd_inv m /\
  (forall n, view m n = if bool_decide (FD_IS_CLOFORK <$> view src n = Some true) then None else view src n) /\
  (forall t p, rf' t p = rf t p + owned m t p) /\
  fm_cwd m = fm_cwd src /\ fm_root m = fm_root src /\ fm_umask m = fm_umask src.

Lemma kept_lookup v k i :
  forallb FD_SAFE_ISNULL (drop k v) = true ->
  (kept <$> take k v) !! i = if decide (i < k)%nat then kept <$> (v !! i) else None.
Proof. intros Hd. rewrite list_lookup_fmap, lookup_take. by destruct (decide (i < k)%nat). Qed.

Lemma kept_view src k c :
  forallb FD_SAFE_ISNULL (drop k (fm_vecv src)) = true -> forall n,
  view (Fdman false (fm_cwd src) (fm_root src) (fm_hint src) c (fm_vecm src) (kept <$> take k (fm_vecv src))
    (fm_umask src)) n = if bool_decide (FD_IS_CLOFORK <$> view src n = Some true) then None else view src n.
Proof.
  intros Hd n. unfold view. fd_cbn. destruct (n <? 0); [by rewrite bool_decide_false|].
  rewrite kept_lookup by done. destruct (fm_vecv src !! Z.to_nat n) as [f|] eqn:E; cbn [fmap option_fmap option_map].
  2:{ rewrite bool_decide_false by done. by destruct (decide _). }
  destruct (decide (Z.to_nat n < k)%nat) as [Hlt|Hge].
  - unfold kept. destruct (FD_IS_CLOFORK f) eqn:Ec, (FD_SAFE_ISNULL f) eqn:En; cbn [fmap option_fmap option_map];
      rewrite ?Ec, ?bool_decide_true by done; try done; rewrite ?bool_decide_false by done; done.
  - rewrite (null_from _ k (Z.to_nat n) f Hd ltac:(lia) E). by rewrite bool_decide_false.
Qed.

Lemma fork_ok cx src rf :
  fd_inv src -> marks_used (fm_vecv src) ->
  forallb FD_SAFE_ISNULL (drop (trim_fork (fm_vecv src) (length (fm_vecv src))) (fm_vecv src)) = true ->
  fdman_duplicate_table_unlocked cx src rf = Ret (- ENOMEM, src, rf) \/
  exists m rf', fdman_duplicate_table_unlocked cx src rf = Ret (EOK, m, rf') /\ forked src rf m rf'.
Proof.
  intros [Hl Hsz Hu Hh] Hm Hd. unfold fdman_duplicate_table_unlocked.
  set (k := trim_fork (fm_vecv src) (length (fm_vecv src))) in *.
  pose proof (trim_fork_le (fm_vecv src) (length (fm_vecv src))) as Hk. fold k in Hk.
  pose proof (total_take g_used k _ Hd) as Hut. pose proof (used_nonneg (take k (fm_vecv src))) as Hun.
  unfold zlen in Hun. rewrite length_take_le in Hun by done.
  rewrite (proj2 (Z.leb_le _ _)) by lia. cbn [oassert]. destruct (negb _ && negb _); [by left|right].
  unfold ztake. rewrite Nat2Z.id.
  assert (Hm' : marks_used (take k (fm_vecv src))) 
    by (intros f Hf; apply Hm; by apply (elem_take k)).
  destruct (copy_fork_ok (take k (fm_vecv src)) (fm_vecc src) rf Hm' ltac:(lia)) as (rf' & E & Hr).
  rewrite E. cbn [obind]. eexists _, _. split; [done|]. split_and!; [split| | |done|done|done].
  - done.
  - unfold fm_veca, zlen in *. fd_cbn. rewrite length_fmap, length_take. lia.
  - fd_cbn. lia.
  - done.
  - by apply kept_view.
  - intros t p. rewrite !count_up_dir, Hr. unfold owned. fd_cbn. lia.
Qed.

(** ** Theorems *)

(** C9: Whatever calls a process makes (dup, dup3, close, fcntl, the close-on-exec ioctl, umask),
    its descriptor table stays well-formed (not locked, not longer than its limit, the counter
    of used slots right), the counter of every object is exactly what it was before the table
    existed plus what the table holds, no call that finds the lock and room for a descriptor
    runs into an assertion, and destroying the table gives back every reference. *)
Theorem fd_calls_invariant root rf s :
  rtc fd_step (fdman_init root rf) s ->
  fd_inv (man s) /\
  (forall t p, refs s t p = rf t p + owned (man s) t p) /\
  (forall cx c, ready cx c s -> exists e s', exec cx c s = Ret (e, s')) /\
  (forall t p, fdman_destroy s t p = rf t p).
Proof.
  intros Hr. destruct (steps_sound _ _ (fd_init_inv root rf) Hr) as [Hi Ho].
  assert (Hoth : forall t p, others s t p = rf t p) by (intros t p; by rewrite Ho, init_others).
  split_and!; [done| | |].
  - intros t p. rewrite <- Hoth. unfold others. lia.
  - intros cx c Hrd. destruct (exec_sound cx c s Hi Hrd) as (e & s' & E & _). by exists e, s'.
  - intros t p. by rewrite destroy_ok.
Qed.

(** C21: dup in a table that is well formed, when the lock is got and one more slot stays below the
    limit ([put_interrupted], [put_at_limit]): it gives the descriptor a number that was free, with
    the flags clear, and changes no other number; after closing that number every number
    has what it had before, and so have the counters. The number is the first free one from the hint on if the vector has one,
    where the hint is the number chosen last itself (fd.h promises the numbers behind it, and none
    of the first three; see [closed_number_reused]), else the first free one from three on below the
    hint, else the end of the vector. A number without a descriptor is EBADF and no memory ENOMEM,
    and then nothing has changed. *)
Theorem fd_dup_close cx s no :
  fd_inv (man s) -> lock_write cx = 0 -> room (man s) ->
  exists e s1, SYSC_dup cx no s = Ret (e, s1) /\
    if FD_SAFE_ISNULL (seen cx s no) then e = - EBADF /\ failed s s1
    else (e = - ENOMEM /\ failed s s1) \/
      (chosen s (fm_hint (man s)) e /\
       (forall n, view (man s1) n = put_view (view (man s)) e (Some (seen cx s no)) n) /\
       exists s2, SYSC_close cx e s1 = Ret (EOK, s2) /\
         (forall n, view (man s2) n = view (man s) n) /\ forall t p, refs s2 t p = refs s t p).
Proof.
  intros Hinv Hlk Hroom. destruct (dup_ok cx s Hinv no Hlk Hroom) as (e & s1 & E & H).
  exists e, s1. split; [done|]. destruct (FD_SAFE_ISNULL (seen cx s no)) eqn:En; [done|].
  destruct H as [[Hi1 Ho1] [(Hc & Hv & Hr)|H]]; [right|by left]. split; [done|]. split; [done|].
  pose proof Hinv as [_ Hsz _ _]. destruct Hc as (Hb & Hfree & _). change (2 ^ 31) with 2147483648 in Hsz.
  destruct (del_ok cx s1 Hi1 e Hlk) as (e2 & s2 & E2 & _ & H2).
  assert (Hue : unsigned e = e) by (apply unsigned_id; change (2 ^ 32) with 4294967296; lia).
  unfold removed in H2. rewrite Hue in H2.
  rewrite Hv in H2. unfold put_view in H2 at 1. rewrite Z.eqb_refl in H2.
  destruct H2 as (-> & Hv2 & Hr2 & _). exists s2. split_and!; [done| |].
  - intros n. rewrite Hv2. unfold put_view at 1. rewrite Hv. unfold put_view.
    by destruct (Z.eqb_spec n e) as [->|].
  - intros t p. rewrite Hr2, Hr. lia.
Qed.

(** C32: dup3 puts the descriptor, with the flags asked for, behind the new number, drops the
    one that was there and changes no other number; for AT_FDCWD and AT_FDROOT it changes the
    directory.  Wrong flags and equal numbers are EINVAL, a number without a descriptor or one
    out of range EBADF, and every error leaves the table and the counters as they were. *)
Theorem fd_dup3_ok cx s oldfd newfd flags :
  fd_inv (man s) -> lock_write cx = 0 -> - 2 ^ 31 <= newfd < 2 ^ 31 -> files_have_dentries cx s ->
  exists e s', SYSC_dup3 cx oldfd newfd flags s = Ret (e, s') /\
    if dup3_refused oldfd newfd flags then e = - EINVAL /\ s' = s
    else if FD_SAFE_ISNULL (seen cx s oldfd) then e = - EBADF /\ failed s s'
    else replaced cx s newfd (set_flags (seen cx s oldfd) (dup3_flags flags)) e s'.
Proof. apply dup3_ok. Qed.

(** The table fork copies has the same descriptors but the ones to be closed by it, the
    counter of used slots is right again, the counters have gone up by exactly what the copy
    holds, and the directories and the file mode mask are the same.  That needs a last
    descriptor that is not one to be closed. *)
Theorem fd_fork_ok cx src rf :
  fd_inv src -> marks_used (fm_vecv src) ->
  forallb FD_SAFE_ISNULL (drop (trim_fork (fm_vecv src) (length (fm_vecv src))) (fm_vecv src)) = true ->
  fdman_duplicate_table_unlocked cx src rf = Ret (- ENOMEM, src, rf) \/
  exists m rf', fdman_duplicate_table_unlocked cx src rf = Ret (EOK, m, rf') /\ forked src rf m rf'.
Proof. apply fork_ok. Qed.

(** ** What the code does not do *)

(** The lock is given back although it was not got. *)
Theorem put_interrupted cx fp s :
  lock_write cx = - EINTR -> fm_writing (man s) = false -> fdman_put cx fp s = Abort.
Proof.
  intros El Hw. unfold fdman_put, put_locked, fdman_write. rewrite El. change (- EINTR <? 0) with true. cbn iota.
  change (- EINTR <? 0) with true. cbn iota. unfold fdman_endwrite. rewrite Hw. done.
Qed.

(** At the limit there is no EMFILE: the next descriptor violates an assertion. *)
Theorem put_at_limit cx fp m rf :
  lock_write cx = 0 -> fd_inv m -> fm_hint m = fm_veca m -> fm_vecc m = fm_veca m -> fm_veca m + 1 = fm_vecm m ->
  fdman_put cx fp (State m rf) = Abort.
Proof.
  intros El Hinv Eh Ec Ev. unfold fdman_put, put_locked. rewrite set_locked by done.
  change (EOK <? 0) with false. cbn iota. cbn [man]. unfold fdman_put_nearby_unlocked. fd_cbn.
  change (fm_veca (with_lock true m)) with (fm_veca m). rewrite Ec, Z.leb_refl. cbn [oassert].
  rewrite Eh, Z.sub_diag. cbn [Z.to_nat find_free]. rewrite Z.eqb_refl. cbn [negb].
  rewrite (proj2 (Z.ltb_lt _ _)) by lia. unfold put_slot, fdman_minsize_unlocked. fd_cbn.
  rewrite (proj2 (Z.ltb_ge _ _)) by lia. done.
Qed.

Definition ex_cx : context := Context 1 2 3 (fun p => p) (fun _ => true) fd_invalid 0 0.
Definition ex_file (n fl : Z) : fd := Fd FD_TYPE_FILE fl n.
Definition ex_man (v : list fd) : fdman := Fdman false 7 7 0 (total g_used v) 0xffff v 0x12.

(** A last descriptor that fork is to close stops fork. *)
Theorem fork_last_closed :
  fdman_duplicate_table_unlocked ex_cx (ex_man [ex_file 1 0; ex_file 1 FD_CLOFORK]) (fun _ _ => 1) = Abort.
Proof. reflexivity. Qed.
(** The flags of a number without a descriptor can be set. *)
Theorem flags_of_nothing :
  exists s', fcntl_setfd ex_cx 1 FD_CLOFORK (State (ex_man [ex_file 1 0; fd_invalid; ex_file 2 0]) (fun _ _ => 1)) = Ret (EOK, s') /\
    fcntl_getfd ex_cx 1 s' = FD_CLOFORK /\ view (man s') 1 = None /\
    exists m rf, fdman_duplicate_table_unlocked ex_cx (man s') (refs s') = Ret (EOK, m, rf) /\
      fm_vecc m = 1 /\ total g_used (fm_vecv m) = 2.
Proof. eexists. split; [reflexivity|]. split_and!; [done|done|]. eexists _, _. split; [reflexivity|]. done. Qed.

(** The number chosen last is looked at first, also among the first three: 1 is closed and the next dup
    takes it again, although fd.h says that numbers behind the last one are taken and 0, 1 and 2 are
    not used again. *)
Theorem closed_number_reused :
  (let! (a, s) := SYSC_dup ex_cx AT_FDCWD (fdman_init 7 (fun _ _ => 1)) in
   let! (b, s) := SYSC_dup ex_cx AT_FDCWD s in
   let! (e, s) := SYSC_close ex_cx b s in
   let! (c, _) := SYSC_dup ex_cx AT_FDCWD s in Ret (a, b, e, c)) = Ret (0, 1, EOK, 1).
Proof. vm_compute. reflexivity. Qed.

(** The number for the stack of the thread gets the operations of an address space. *)
Theorem stack_as_mman : get_entry ex_cx (ex_man []) AT_THIS_STACK = Fd FD_TYPE_MMAN 0 3.
Proof. reflexivity. Qed.

(** ** Witnesses *)

Definition ex_state : state := State (ex_man [ex_file 1 0; fd_invalid; ex_file 2 0]) (fun _ _ => 5).
Lemma ex_state_inv : fd_inv (man ex_state).
Proof. split; [done|by split; vm_compute|done|by split; vm_compute]. Qed.
Lemma ex_has_dentries v : files_have_dentries ex_cx (State (ex_man v) (fun _ _ => 5)).
Proof. by split. Qed.

Lemma fd_calls_invariant_witness :
  exists s, rtc fd_step (fdman_init 7 (fun _ _ => 1)) s /\ is_Some (view (man s) 0) /\ fd_inv (man s).
Proof.
  eexists. match goal with |- ?A /\ _ => assert (Hr : A) end.
  { apply rtc_once. eapply (fd_call ex_cx (C_dup AT_FDCWD)); [|reflexivity]. split; [done|]. by vm_compute. }
  split; [exact Hr|]. split; [by eexists|]. apply (fd_calls_invariant 7 (fun _ _ => 1) _ Hr).
Defined.
Lemma fd_dup_close_witness :
  exists e s1, SYSC_dup ex_cx 0 ex_state = Ret (e, s1) /\ e = 1.
Proof.
  destruct (fd_dup_close ex_cx ex_state 0 ex_state_inv eq_refl) as (e & s1 & E & _); [by vm_compute|].
  exists e, s1. split; [exact E|]. vm_compute in E. by injection E as <- _.
Defined.
Lemma fd_dup3_ok_witness :
  exists e s', SYSC_dup3 ex_cx 0 9 O_CLOEXEC ex_state = Ret (e, s') /\ e = 9.
Proof.
  destruct (fd_dup3_ok ex_cx ex_state 0 9 O_CLOEXEC ex_state_inv eq_refl) as (e & s' & E & _);
    [by split; vm_compute|apply ex_has_dentries|].
  exists e, s'. split; [exact E|]. vm_compute in E. by injection E as <- _.
Defined.
Lemma fd_fork_ok_witness :
  exists m rf', fdman_duplicate_table_unlocked ex_cx (ex_man [ex_file 1 FD_CLOFORK; fd_invalid; ex_file 2 0]) (fun _ _ => 5)
    = Ret (EOK, m, rf') /\ fm_vecc m = 1.
Proof.
  destruct (fd_fork_ok ex_cx (ex_man [ex_file 1 FD_CLOFORK; fd_invalid; ex_file 2 0]) (fun _ _ => 5)) as [E|(m & rf' & E & _)].
  - split; [done|by split; vm_compute|done|by split; vm_compute].
  - intros f Hf. cbn [ex_man fm_vecv] in Hf.
    rewrite !elem_of_cons in Hf. by destruct Hf as [->|[->|[->|Hf%not_elem_of_nil]]].
  - reflexivity.
  - vm_compute in E. discriminate E.
  - exists m, rf'. split; [exact E|]. vm_compute in E. by injection E as <- _.
Defined.
