(* ===== verification/Heap.v ===== *)
(** * The kernel heap (src/kernel/memory/malloc.c)

    Free memory of a heap is in an address tree (ATree.v) and in lists by size.  The
    controller of a free range, [struct mfree], is at its start; the model keeps the
    controllers by address and, of the memory itself, what every byte holds, [None]
    where that is data of a controller.  Whole pages come from [core_page_alloc] and
    its companions, which are the operations of a class here: the heap of physical
    memory has them from the page allocator (HeapPages.v). *)
From stdpp Require Import base numbers list.
From S2P Require Import Prelude Align ATree.

(** ** Data *)

Definition HEAP_ALIGNMENT : Z := 8.
Definition sizeof_mfree : Z := 20.
Definition HEAP_MIN_MALLOC : Z := CEIL_ALIGN (2 ^ 32) sizeof_mfree HEAP_ALIGNMENT.
Definition HEAP_BUCKET_OFFSET : Z := 4.
(** [CLZ], of a size that is not 0 *)
Definition CLZ (x : Z) : Z := 31 - Z.log2 x.
Definition HEAP_BUCKET_OF (size : Z) : Z := 32 - CLZ size - HEAP_BUCKET_OFFSET.
Definition HEAP_BUCKET_COUNT : Z := 32 - HEAP_BUCKET_OFFSET - 1.

Definition PAGEATTR_ZERO : Z := 1.
Definition MFREE_ATTRMASK : Z := 1.
Definition GFP_CALLOC : Z := 0x10.
Definition GFP_MASK_TYPE : Z := 7.
Definition GFP_MASK_MPTR : Z := 7.
Definition GFP_MASK_FREE : Z := 0xf0.
Definition GFP_GTPAGEATTR (f : Z) : Z := Z.shiftr (Z.land f GFP_MASK_FREE) 4.
Definition GFP_STPAGEATTR (f : Z) : Z := Z.shiftl f 4.
Definition wants_zero (f : Z) : bool := negb (Z.land f GFP_CALLOC =? 0).
Definition no_calloc (f : Z) : Z := Z.land f (Z.lnot GFP_CALLOC).
Definition is_zero (attr : Z) : bool := negb (Z.land attr PAGEATTR_ZERO =? 0).

(** [uintptr_t] arithmetic *)
Definition uptr (x : Z) : Z := x mod 2 ^ 32.

(** The size and the attributes in [struct mfree], which share a word. *)
Record mfree : Set := Mfree { mf_size : Z; mf_attr : Z }.

(** [mh_lock] is how often the caller holds the lock; [mh_size] has the addresses of
    the free ranges in each list. *)
Record mheap : Type := Mheap {
  mh_lock : Z; mh_addr : atree unit; mh_size : list (list Z); mh_overalloc : Z; mh_freethresh : Z }.

(** [MHEAP_INIT] *)
Definition MHEAP_INIT (overalloc freethresh : Z) : mheap :=
  Mheap 0 ATREE_NULL (replicate (Z.to_nat HEAP_BUCKET_COUNT) []) overalloc freethresh.

(** What the bytes of memory hold. *)
Definition contents : Type := Z -> option Z.
Definition fill (p n : Z) (v : option Z) (c : contents) : contents :=
  fun x => if (p <=? x) && (x <? p + n) then v else c x.

(** [core_page_alloc], [core_page_allocat] and [core_page_free] over a state [P];
    no address is [PAGE_ERROR]. *)
Class PageOps (P : Type) : Type := {
  core_page_alloc : Z -> Z -> P -> contents -> outcome (option Z * P * contents);
  core_page_allocat : Z -> Z -> Z -> P -> contents -> outcome (option Z * P * contents);
  core_page_free : Z -> Z -> Z -> P -> contents -> outcome (P * contents) }.

Section Heap.

Context {P : Type} `{!PageOps P}.
(** [CONFIG_MALLOC_DEBUG_INIT], when defined *)
Context (debug_init : option Z).

Record state : Type := State { heap : mheap; hdr : Z -> mfree; src : P; cont : contents }.

Definition set_heap (h : mheap) (k : state) : state := State h (hdr k) (src k) (cont k).
Definition set_cont (c : contents) (k : state) : state := State (heap k) (hdr k) (src k) c.
Definition set_addr (t : atree unit) (k : state) : state :=
  set_heap (Mheap (mh_lock (heap k)) t (mh_size (heap k)) (mh_overalloc (heap k)) (mh_freethresh (heap k))) k.
Definition set_size (l : list (list Z)) (k : state) : state :=
  set_heap (Mheap (mh_lock (heap k)) (mh_addr (heap k)) l (mh_overalloc (heap k)) (mh_freethresh (heap k))) k.
Definition set_lock (n : Z) (k : state) : state :=
  set_heap (Mheap n (mh_addr (heap k)) (mh_size (heap k)) (mh_overalloc (heap k)) (mh_freethresh (heap k))) k.

(** [memset(p,0,n)], and [MEMPATX(p,CONFIG_MALLOC_DEBUG_INIT,n)] where it is compiled *)
Definition clear (p n : Z) (k : state) : state := set_cont (fill p n (Some 0) (cont k)) k.
Definition pattern (p n : Z) (k : state) : state :=
  match debug_init with
  | Some b => set_cont (fill p n (Some b) (cont k)) k
  | None => k
  end.

Definition mheap_writing (k : state) : bool := 0 <? mh_lock (heap k).
Definition mheap_endwrite (k : state) : outcome state :=
  assert! mheap_writing k ;; Ret (set_lock (mh_lock (heap k) - 1) k).
Definition end_if (unlock_heap : bool) (k : state) : outcome state :=
  if unlock_heap then mheap_endwrite k else Ret k.

(** ** Free ranges *)

Definition MFREE_SIZE (k : state) (a : Z) : Z := mf_size (hdr k a).
Definition MFREE_ATTR (k : state) (a : Z) : Z := mf_attr (hdr k a).
Definition MFREE_END (k : state) (a : Z) : Z := uptr (a + MFREE_SIZE k a).
Definition node (k : state) (a : Z) : leaf unit := Leaf a (uptr (a + MFREE_SIZE k a - 1)) tt.

(** The controller is written to the memory it is for. *)
Definition MFREE_SETUP (a size attr : Z) (k : state) : outcome state :=
  assert! IS_ALIGNED size HEAP_ALIGNMENT ;;
  assert! HEAP_MIN_MALLOC <=? size ;;
  assert! Z.land attr MFREE_ATTRMASK =? attr ;;
  Ret (State (heap k) (fun x => if x =? a then Mfree size attr else hdr k x) (src k)
         (fill a sizeof_mfree None (cont k))).

(** Lists: [LIST_REMOVE_EX], and the insertion in front of the first range that is not smaller. *)
Definition list_remove (a : Z) (l : list (list Z)) : list (list Z) :=
  map (fun b => filter (fun x => x <> a) b) l.
Fixpoint list_place (size : Z -> Z) (n a : Z) (l : list Z) : list Z :=
  match l with
  | [] => [a]
  | iter :: next => if size iter <? n then iter :: list_place size n a next else a :: l
  end.
(** A range that has grown is moved behind the smaller ones that follow it. *)
Fixpoint list_fix (size : Z -> Z) (a : Z) (l : list Z) : list Z :=
  match l with
  | [] => []
  | x :: l =>
      if x =? a then
        match l with
        | iter :: next => if size iter <? size a then iter :: list_place size (size a) a next else a :: l
        | [] => [a]
        end
      else x :: list_fix size a l
  end.
(** [*free_slot->mf_lsize.le_pself = free_slot] *)
Definition list_rename (a b : Z) (l : list (list Z)) : list (list Z) :=
  map (map (fun x => if x =? a then b else x)) l.

(** The address tree, at the root of the addresses. *)
Definition plocate (k : state) (key : Z) : outcome (option (list link * Z * Z)) :=
  plocate_at 32 (mh_addr (heap k)) key (ATREE_SEMI0 32) (ATREE_LEVEL0 32).
Definition slot_at (k : state) (p : list link) : option Z :=
  match slot_get (mh_addr (heap k)) p with Node l _ _ => Some (a_vmin l) | ATREE_NULL => None end.
Definition tree_pop (p : list link) (semi level : Z) (k : state) : outcome state :=
  let! (_, s) := pop_at 32 (slot_get (mh_addr (heap k)) p) semi level in
  Ret (set_addr (slot_set (mh_addr (heap k)) p s) k).

(** ** Releasing memory *)

Definition mheap_release_nomerge (p n_bytes flags : Z) (k : state) : outcome state :=
  assert! IS_ALIGNED p HEAP_ALIGNMENT ;;
  assert! IS_ALIGNED n_bytes HEAP_ALIGNMENT ;;
  assert! HEAP_MIN_MALLOC <=? n_bytes ;;
  assert! PAGESIZE <=? p ;;
  assert! mheap_writing k ;;
  let! k := MFREE_SETUP p n_bytes (GFP_GTPAGEATTR flags) k in
  let! t := insert 32 (mh_addr (heap k)) (node k p) in
  let k := set_addr t k in
  let i := HEAP_BUCKET_OF n_bytes in
  assert! (0 <=? i) && (i <? HEAP_BUCKET_COUNT) ;;
  Ret (set_size (alter (list_place (MFREE_SIZE k) n_bytes p) (Z.to_nat i) (mh_size (heap k))) k).

(** The end of [mheap_unmapfree]: the range is taken out of the heap, its ends are put back
    and the pages between them are given back. *)
Definition unmap_pages (slot : Z) (path : list link) (addr_semi addr_level flags lo_size page_begin page_end hi_size : Z)
    (unlock_heap : bool) (k : state) : outcome state :=
  let page_flags := Z.lor (GFP_STPAGEATTR (MFREE_ATTR k slot)) (no_calloc flags) in
  let k := set_size (list_remove slot (mh_size (heap k))) k in
  let! k := tree_pop path addr_semi addr_level k in
  let k := if wants_zero page_flags then clear slot sizeof_mfree k else k in
  let! k := if lo_size =? 0 then Ret k else mheap_release_nomerge slot lo_size page_flags k in
  let! k := if hi_size =? 0 then Ret k else mheap_release_nomerge page_end hi_size page_flags k in
  let! k := end_if unlock_heap k in
  let! (s, c) := core_page_free page_begin (page_end - page_begin) page_flags (src k) (cont k) in
  Ret (State (heap k) (hdr k) s c).

Definition mheap_unmapfree (path : list link) (addr_semi addr_level flags : Z) (unlock_heap : bool)
    (k : state) : outcome state :=
  assert! mheap_writing k ;;
  match slot_at k path with
  | None => Abort
  | Some slot =>
      assert! IS_ALIGNED slot HEAP_ALIGNMENT ;;
      assert! IS_ALIGNED (MFREE_SIZE k slot) HEAP_ALIGNMENT ;;
      if mh_freethresh (heap k) <=? MFREE_SIZE k slot then
        let page_begin := CEIL_ALIGN (2 ^ 32) slot PAGESIZE in
        let page_end := FLOOR_ALIGN (MFREE_END k slot) PAGESIZE in
        assert! page_begin <=? page_end ;;
        assert! slot <=? page_begin ;;
        assert! page_end <=? MFREE_END k slot ;;
        if page_begin =? page_end then end_if unlock_heap k
        else
          let lo_size := page_begin - slot in
          let hi_size := MFREE_END k slot - page_end in
          assert! IS_ALIGNED lo_size HEAP_ALIGNMENT ;;
          assert! IS_ALIGNED hi_size HEAP_ALIGNMENT ;;
          let (lo_size, page_begin) :=
            if negb (lo_size =? 0) && (lo_size <? HEAP_MIN_MALLOC)
            then (lo_size + PAGESIZE, page_begin + PAGESIZE) else (lo_size, page_begin) in
          if page_begin =? page_end then end_if unlock_heap k
          else
            let (hi_size, page_end) :=
              if negb (hi_size =? 0) && (hi_size <? HEAP_MIN_MALLOC)
              then (hi_size + PAGESIZE, page_end - PAGESIZE) else (hi_size, page_end) in
            if page_begin =? page_end then end_if unlock_heap k
            else
              assert! page_begin <=? page_end ;;
              unmap_pages slot path addr_semi addr_level flags lo_size page_begin page_end hi_size unlock_heap k
      else end_if unlock_heap k
  end.

(** Inserts a range whose controller has been written, puts it right in its list and gives
    back whole pages of it. *)
Definition reinsert (slot flags : Z) (unlock_heap : bool) (k : state) : outcome state :=
  let! (path, semi, level, t) :=
    pinsert_at 32 (mh_addr (heap k)) (node k slot) (ATREE_SEMI0 32) (ATREE_LEVEL0 32) in
  let k := set_addr t k in
  let k := set_size (map (list_fix (MFREE_SIZE k) slot) (mh_size (heap k))) k in
  mheap_unmapfree path semi level flags unlock_heap k.

(** The memory continues the free range [slot] below it. *)
Definition extend_above (path : list link) (semi level p n_bytes flags : Z) (unlock_heap : bool)
    (k : state) : outcome state :=
  match slot_at k path with
  | None => Abort
  | Some slot =>
      assert! MFREE_END k slot =? p ;;
      let! k := tree_pop path semi level k in
      let attr := MFREE_ATTR k slot in
      let k := if is_zero attr && negb (wants_zero flags)
               then pattern (slot + sizeof_mfree) (MFREE_SIZE k slot - sizeof_mfree) k else k in
      let k := if wants_zero flags && negb (is_zero attr) then pattern p n_bytes k else k in
      let flags := if is_zero attr then flags else no_calloc flags in
      let! k := MFREE_SETUP slot (uptr (MFREE_SIZE k slot + n_bytes)) (GFP_GTPAGEATTR flags) k in
      reinsert slot flags unlock_heap k
  end.

(** The memory is continued by the free range [slot], whose controller moves down. *)
Definition extend_below (path : list link) (semi level p n_bytes flags : Z) (unlock_heap : bool)
    (k : state) : outcome state :=
  match slot_at k path with
  | None => Abort
  | Some slot =>
      assert! slot =? uptr (p + n_bytes) ;;
      assert! HEAP_MIN_MALLOC <=? MFREE_SIZE k slot ;;
      let! k := tree_pop path semi level k in
      let attr := MFREE_ATTR k slot in
      let size := MFREE_SIZE k slot in
      let k := set_cont (fill p sizeof_mfree None (cont k)) k in
      let k := if is_zero attr && negb (wants_zero flags)
               then pattern (slot + sizeof_mfree) (size - sizeof_mfree) k else k in
      let k := if wants_zero flags && negb (is_zero attr) then pattern (p + sizeof_mfree) n_bytes k else k in
      let flags := if is_zero attr then flags else no_calloc flags in
      let! k := MFREE_SETUP p (uptr (size + n_bytes)) (GFP_GTPAGEATTR flags) k in
      let k := set_size (list_rename slot p (mh_size (heap k))) k in
      assert! IS_ALIGNED (MFREE_SIZE k p) HEAP_ALIGNMENT ;;
      let old := if n_bytes <? sizeof_mfree then (slot + (sizeof_mfree - n_bytes), n_bytes) else (slot, sizeof_mfree) in
      let k := if is_zero (MFREE_ATTR k p) then clear old.1 old.2 k else pattern old.1 old.2 k in
      reinsert p flags unlock_heap k
  end.

Definition mheap_release (p n_bytes flags : Z) (unlock_heap : bool) (k : state) : outcome (bool * state) :=
  assert! mheap_writing k ;;
  assert! IS_ALIGNED p HEAP_ALIGNMENT ;;
  assert! IS_ALIGNED n_bytes HEAP_ALIGNMENT ;;
  if n_bytes =? 0 then let! k := end_if unlock_heap k in Ret (true, k)
  else
    assert! Z.land (GFP_GTPAGEATTR flags) (Z.lnot MFREE_ATTRMASK) =? 0 ;;
    let! above := plocate k (uptr (p - 1)) in
    match above with
    | Some (path, semi, level) =>
        let! k := extend_above path semi level p n_bytes flags unlock_heap k in Ret (true, k)
    | None =>
        let! below := plocate k (uptr (p + n_bytes)) in
        match below with
        | Some (path, semi, level) =>
            let! k := extend_below path semi level p n_bytes flags unlock_heap k in Ret (true, k)
        | None =>
            if n_bytes <? HEAP_MIN_MALLOC then
              let! k := end_if unlock_heap k in Ret (false, k)
            else
              let! k := mheap_release_nomerge p n_bytes flags k in
              let! k := end_if unlock_heap k in Ret (true, k)
        end
    end.

(** ** Acquiring memory *)

(** The first range that is large enough, from the list for the size on. *)
Definition find_chain (k : state) (n_bytes : Z) (buckets : list (list Z)) : option Z :=
  list_find (fun a => n_bytes <= MFREE_SIZE k a) (concat buckets) ≫= fun r => Some r.2.

(** A free range is taken; what is left of it is free again when it is large enough. *)
Definition take_chain (chain n_bytes flags : Z) (k : state) : outcome (Z * state) :=
  let chain_attr := MFREE_ATTR k chain in
  let size := MFREE_SIZE k chain in
  let! (del_entry, t) := remove 32 (mh_addr (heap k)) chain in
  assert! match del_entry with Some l => a_vmin l =? chain | None => false end ;;
  let k := set_addr t k in
  let k := set_size (list_remove chain (mh_size (heap k))) k in
  let unused_size := size - n_bytes in
  let! (n_bytes, k) :=
    if unused_size <? HEAP_MIN_MALLOC then Ret (n_bytes + unused_size, k)
    else
      let unused_begin := uptr (chain + n_bytes) in
      assert! IS_ALIGNED unused_begin HEAP_ALIGNMENT ;;
      assert! IS_ALIGNED unused_size HEAP_ALIGNMENT ;;
      assert! unused_size <? size ;;
      let! k := mheap_release_nomerge unused_begin unused_size
                  (Z.lor (no_calloc flags) (GFP_STPAGEATTR chain_attr)) k in
      Ret (n_bytes, k) in
  let k :=
    if wants_zero flags then
      if is_zero chain_attr then clear chain (Z.min sizeof_mfree n_bytes) k else clear chain n_bytes k
    else if is_zero chain_attr then pattern chain n_bytes k else k in
  assert! IS_ALIGNED chain HEAP_ALIGNMENT ;;
  Ret (n_bytes, k).

(** Whole pages are got, with some more than are needed if there are any. *)
Definition alloc_pages (page_bytes n_bytes flags : Z) (k : state) : outcome (option (Z * Z) * state) :=
  let! (r, s, c) := core_page_alloc page_bytes flags (src k) (cont k) in
  let k := State (heap k) (hdr k) s c in
  match r with
  | Some p => Ret (Some (p, page_bytes), k)
  | None =>
      let less := CEIL_ALIGN (2 ^ 32) n_bytes PAGESIZE in
      if page_bytes =? less then Ret (None, k)
      else
        let! (r, s, c) := core_page_alloc less flags (src k) (cont k) in
        let k := State (heap k) (hdr k) s c in
        match r with Some p => Ret (Some (p, less), k) | None => Ret (None, k) end
  end.

(** The result and [*alloc_bytes] *)
Definition mheap_acquire (n_bytes flags : Z) (unlock_heap : bool) (k : state)
    : outcome (option (Z * Z) * state) :=
  assert! IS_ALIGNED n_bytes HEAP_ALIGNMENT ;;
  assert! mheap_writing k ;;
  let n_bytes := if n_bytes <? HEAP_MIN_MALLOC then HEAP_MIN_MALLOC else n_bytes in
  let i := HEAP_BUCKET_OF n_bytes in
  assert! i <=? HEAP_BUCKET_COUNT ;;
  match find_chain k n_bytes (drop (Z.to_nat i) (mh_size (heap k))) with
  | Some chain =>
      let! (alloc_bytes, k) := take_chain chain n_bytes flags k in
      let! k := end_if unlock_heap k in
      Ret (Some (chain, alloc_bytes), k)
  | None =>
      let page_bytes := uptr (CEIL_ALIGN (2 ^ 32) n_bytes PAGESIZE + mh_overalloc (heap k)) in
      let! (r, k) := alloc_pages page_bytes n_bytes flags k in
      match r with
      | None => let! k := end_if unlock_heap k in Ret (None, k)
      | Some (result, page_bytes) =>
          if page_bytes =? n_bytes then
            let! k := end_if unlock_heap k in Ret (Some (result, n_bytes), k)
          else
            let! (ok, k) := mheap_release (uptr (result + n_bytes)) (uptr (page_bytes - n_bytes)) flags unlock_heap k in
            Ret (Some (result, if (ok : bool) then n_bytes else page_bytes), k)
      end
  end.

Definition mheap_acquire_al (alignment offset n_bytes flags : Z) (unlock_heap : bool) (k : state)
    : outcome (option (Z * Z) * state) :=
  assert! negb (alignment =? 0) ;;
  assert! Z.land alignment (uptr (alignment - 1)) =? 0 ;;
  assert! IS_ALIGNED alignment HEAP_ALIGNMENT ;;
  assert! IS_ALIGNED n_bytes HEAP_ALIGNMENT ;;
  let n_bytes := if n_bytes <? HEAP_MIN_MALLOC then HEAP_MIN_MALLOC else n_bytes in
  let! (r, k) := mheap_acquire (uptr (n_bytes + alignment + HEAP_MIN_MALLOC)) flags false k in
  match r with
  | None => let! k := end_if unlock_heap k in Ret (None, k)
  | Some (alloc_base, alloc_size) =>
      assert! uptr (n_bytes + alignment + HEAP_MIN_MALLOC) <=? alloc_size ;;
      let result := uptr (CEIL_ALIGN (2 ^ 32) (uptr (alloc_base + HEAP_MIN_MALLOC + offset)) alignment - offset) in
      assert! uptr (result + n_bytes) <=? uptr (alloc_base + alloc_size) ;;
      let nouse_size := uptr (result - alloc_base) in
      assert! uptr (nouse_size + n_bytes) <=? alloc_size ;;
      assert! HEAP_MIN_MALLOC <=? nouse_size ;;
      let! (ok, k) := mheap_release alloc_base nouse_size flags false k in
      assert! ok ;;
      let alloc_size := alloc_size - nouse_size in
      assert! n_bytes <=? alloc_size ;;
      let nouse_size := alloc_size - n_bytes in
      let! (ok, k) := mheap_release (uptr (result + n_bytes)) nouse_size flags unlock_heap k in
      let alloc_size := if (ok : bool) then alloc_size - nouse_size else alloc_size in
      assert! n_bytes <=? alloc_size ;;
      assert! IS_ALIGNED (uptr (result + offset)) alignment ;;
      Ret (Some (result, alloc_size), k)
  end.

(** ** Acquiring memory at an address *)

(** What the function itself does, with [rec] for its recursive calls: the result, the
    value of [*alloc_bytes] and the state. *)
Section At.

Context (rec : Z -> Z -> Z -> Z -> state -> outcome (option Z * Z * state)).

(** The free range at [p] with everything that is free behind it up to [n_bytes]: where it is in
    the tree and how much there is. *)
Definition grow_slot (slot p n_bytes flags avail : Z) (at_ : list link * Z * Z) (k : state)
    : outcome (option (list link * Z * Z * Z) * state) :=
  if avail <? n_bytes then
    let missing_addr := MFREE_END k slot in
    let missing_size := n_bytes - avail in
    assert! IS_ALIGNED missing_addr HEAP_ALIGNMENT ;;
    assert! IS_ALIGNED missing_size HEAP_ALIGNMENT ;;
    let attr := MFREE_ATTR k slot in
    let! (r, missing_alloc, k) := rec missing_addr missing_size flags 0 k in
    match r with
    | None => Ret (None, k)
    | Some _ =>
        let! found := plocate k p in
        match found with
        | None => Abort
        | Some (path, semi, level) =>
            assert! bool_decide (slot_at k path = Some slot) ;;
            assert! attr =? MFREE_ATTR k slot ;;
            Ret (Some (path, semi, level, avail + missing_size), k)
        end
    end
  else Ret (Some (at_.1.1, at_.1.2, at_.2, avail), k).

(** The start of the memory that has been got, how much there is from [p] on, and the flags
    that say whether it is zero. *)
Definition get_slot (p n_bytes flags : Z) (k : state) : outcome (option (Z * Z * Z) * state) :=
  let! found := plocate k p in
  match found with
  | None =>
      let ptr_page := FLOOR_ALIGN p PAGESIZE in
      let ptr_size := CEIL_ALIGN (2 ^ 32) (uptr (p - ptr_page + n_bytes)) PAGESIZE in
      assert! IS_ALIGNED ptr_size HEAP_ALIGNMENT ;;
      let! (r, s, c) := core_page_allocat ptr_page ptr_size flags (src k) (cont k) in
      let k := State (heap k) (hdr k) s c in
      match r with
      | None => Ret (None, k)
      | Some slot =>
          assert! IS_ALIGNED slot HEAP_ALIGNMENT ;;
          let avail := uptr (ptr_size - (p - slot)) in
          assert! IS_ALIGNED avail HEAP_ALIGNMENT ;;
          Ret (Some (slot, avail, flags), k)
      end
  | Some at_ =>
      match slot_at k at_.1.1 with
      | None => Abort
      | Some slot =>
          assert! slot <=? p ;;
          assert! HEAP_MIN_MALLOC <=? MFREE_SIZE k slot ;;
          assert! p - slot <? MFREE_SIZE k slot ;;
          assert! IS_ALIGNED slot HEAP_ALIGNMENT ;;
          let avail := MFREE_SIZE k slot - (p - slot) in
          let attr := MFREE_ATTR k slot in
          assert! IS_ALIGNED avail HEAP_ALIGNMENT ;;
          let! (r, k) := grow_slot slot p n_bytes flags avail at_ k in
          match r with
          | None => Ret (None, k)
          | Some (path, semi, level, avail) =>
              let! k := tree_pop path semi level k in
              let k := set_size (list_remove slot (mh_size (heap k))) k in
              let k := if is_zero attr then clear slot sizeof_mfree k else pattern slot sizeof_mfree k in
              Ret (Some (slot, avail, Z.lor (no_calloc flags) (GFP_STPAGEATTR attr)), k)
          end
      end
  end.

(** What is in front of [p] is free again, together with some more memory when it is too
    small to be a range of its own. *)
Definition free_before (p slot avail slot_flags : Z) (k : state) : outcome (bool * state) :=
  let unused_before := p - slot in
  assert! IS_ALIGNED unused_before HEAP_ALIGNMENT ;;
  if unused_before =? 0 then Ret (true, k)
  else if unused_before <? HEAP_MIN_MALLOC then
    let slot_before_size := HEAP_MIN_MALLOC - unused_before in
    assert! IS_ALIGNED slot_before_size HEAP_ALIGNMENT ;;
    let slot_before_addr := uptr (slot - slot_before_size) in
    let! (r, slot_before_alloc, k) := rec slot_before_addr slot_before_size slot_flags 0 k in
    match r with
    | None =>
        let! (ok, k) := mheap_release slot (uptr (avail + (p - slot))) slot_flags false k in
        assert! ok ;; Ret (false, k)
    | Some _ =>
        assert! slot_before_alloc =? slot_before_size ;;
        let! k := mheap_release_nomerge slot_before_addr (unused_before + slot_before_alloc) slot_flags k in
        Ret (true, k)
    end
  else let! k := mheap_release_nomerge slot unused_before slot_flags k in Ret (true, k).

Definition acquire_at_body (p n_bytes flags alloc_bytes : Z) (k : state) : outcome (option Z * Z * state) :=
  assert! IS_ALIGNED p HEAP_ALIGNMENT ;;
  assert! IS_ALIGNED n_bytes HEAP_ALIGNMENT ;;
  assert! mheap_writing k ;;
  if n_bytes =? 0 then Ret (Some p, alloc_bytes, k)
  else
    let! (r, k) := get_slot p n_bytes flags k in
    match r with
    | None => Ret (None, alloc_bytes, k)
    | Some (slot, avail, slot_flags) =>
        let! (ok, k) := free_before p slot avail slot_flags k in
        if negb ok then Ret (None, alloc_bytes, k)
        else
          assert! IS_ALIGNED avail HEAP_ALIGNMENT ;;
          assert! n_bytes <=? avail ;;
          let unused_size := avail - n_bytes in
          let! (avail, k) :=
            if unused_size =? 0 then Ret (avail, k)
            else
              let! (ok, k) := mheap_release (uptr (p + n_bytes)) unused_size slot_flags false k in
              Ret (if (ok : bool) then avail - unused_size else avail, k) in
          let k :=
            if wants_zero flags then if wants_zero slot_flags then k else clear p avail k
            else if wants_zero slot_flags then pattern p avail k else k in
          Ret (Some p, avail, k)
    end.

End At.

Fixpoint mheap_acquire_at (fuel : nat) (p n_bytes flags alloc_bytes : Z) (k : state)
    : outcome (option Z * Z * state) :=
  match fuel with
  | O => Abort
  | S fuel => acquire_at_body (mheap_acquire_at fuel) p n_bytes flags alloc_bytes k
  end.

End Heap.
