(* ===== verification/HeapSpec.v ===== *)
(** * The kernel heap: what its operations promise

    The memory in the hands of the heap's clients is what is mapped and not free ([used]).
    Every operation is described by what it does to that set and to the contents of it. *)
From stdpp Require Import base numbers list sorting.
From S2P Require Import Prelude Align ATree Heap.

(** ** Flags *)

(** No attributes but the one for zero memory. *)
Definition plain (f : Z) : Prop := Z.land f 0xe0 = 0.
Definition bit_attr (a : Z) : Prop := a = 0 \/ a = 1.

Lemma land_16 f : Z.land f 16 = if Z.testbit f 4 then 16 else 0.
Proof.
  apply Z.bits_inj'. intros n Hn. rewrite Z.land_spec. destruct (Z.eq_dec n 4) as [->|Hne].
  - change (Z.testbit 16 4) with true. rewrite andb_true_r. by destruct (Z.testbit f 4).
  - assert (E : Z.testbit 16 n = false).
    { change 16 with (2 ^ 4). apply Z.pow2_bits_false. lia. }
    rewrite E, andb_false_r. destruct (Z.testbit f 4); [by rewrite E|by rewrite Z.bits_0].
Qed.
Lemma wants_zero_bit f : wants_zero f = Z.testbit f 4.
Proof. unfold wants_zero, GFP_CALLOC. rewrite land_16. by destruct (Z.testbit f 4). Qed.

Lemma gt_attr f : plain f -> GFP_GTPAGEATTR f = if wants_zero f then 1 else 0.
Proof.
  intros Hp. unfold GFP_GTPAGEATTR, GFP_MASK_FREE. change 0xf0 with (Z.lor 16 0xe0).
  rewrite Z.land_lor_distr_r, Hp, Z.lor_0_r, land_16, wants_zero_bit. by destruct (Z.testbit f 4).
Qed.
Lemma plain_no_calloc f : plain f -> plain (no_calloc f).
Proof.
  unfold plain, no_calloc. intros Hp. rewrite <- Z.land_assoc, (Z.land_comm (Z.lnot _)), Z.land_assoc, Hp. done.
Qed.
Lemma wants_no_calloc f : wants_zero (no_calloc f) = false.
Proof.
  rewrite wants_zero_bit. unfold no_calloc. rewrite Z.land_spec. change (Z.testbit (Z.lnot GFP_CALLOC) 4) with false.
  apply andb_false_r.
Qed.
(** The flags a range of memory with the attributes [a] is passed on with. *)
Lemma mix_flags f a :
  plain f -> bit_attr a ->
  plain (Z.lor (no_calloc f) (GFP_STPAGEATTR a)) /\
  wants_zero (Z.lor (no_calloc f) (GFP_STPAGEATTR a)) = is_zero a.
Proof.
  intros Hp Ha. assert (Hs : Z.land (GFP_STPAGEATTR a) 0xe0 = 0) by (by destruct Ha as [->| ->]).
  split.
  - unfold plain. rewrite Z.land_lor_distr_l, Hs, Z.lor_0_r. by apply plain_no_calloc.
  - pose proof (wants_no_calloc f) as Hn. rewrite wants_zero_bit in *. rewrite Z.lor_spec, Hn. by destruct Ha as [->| ->].
Qed.

Lemma mix_attr f a :
  plain f -> bit_attr a -> a = GFP_GTPAGEATTR (Z.lor (no_calloc f) (GFP_STPAGEATTR a)).
Proof. intros Hp Ha. destruct (mix_flags f a Hp Ha) as [H1 H2]. rewrite gt_attr, H2 by done. by destruct Ha as [->| ->]. Qed.

Lemma attr_cases f : plain f -> bit_attr (GFP_GTPAGEATTR f) /\ is_zero (GFP_GTPAGEATTR f) = wants_zero f.
Proof. intros Hp. rewrite gt_attr by done. destruct (wants_zero f); split; try done; [by right|by left]. Qed.

(** ** Where pages come from *)

Definition inside (p n x : Z) : Prop := p <= x < p + n.
Definition zero (c : contents) (p n : Z) : Prop := forall x, inside p n x -> c x = Some 0.

(** What the heap relies on of [core_page_alloc] and its companions: whole pages that nobody
    has, zero if asked for, with everything that is mapped left alone. *)
Class PageSource (P : Type) `{!PageOps P} : Type := {
  source_ok : P -> Prop;
  mapped : P -> Z -> Prop;
  (** memory for a request of that size, without which [core_page_alloc] need not return *)
  enough : P -> Z -> bool;
  accepts : Z -> Prop;
  accepts_type f g : Z.land f GFP_MASK_TYPE = Z.land g GFP_MASK_TYPE -> accepts f -> accepts g;
  mapped_bounds s x : source_ok s -> mapped s x -> 4096 <= x < 2 ^ 32 - 4096;
  page_alloc_ok n f s c :
    source_ok s -> accepts f -> 0 < n -> n mod 4096 = 0 -> n < 2 ^ 32 -> enough s n = true ->
    exists p s' c', core_page_alloc n f s c = Ret (Some p, s', c') /\ source_ok s' /\
      (forall x, mapped s x -> c' x = c x) /\
      p mod 4096 = 0 /\ (forall x, inside p n x -> ~ mapped s x) /\
      (forall x, mapped s' x <-> mapped s x \/ inside p n x) /\
      (wants_zero f = true -> zero c' p n);
  page_free_ok p n f s c :
    source_ok s -> accepts f -> 0 < n -> p mod 4096 = 0 -> n mod 4096 = 0 ->
    (forall x, inside p n x -> mapped s x) -> (wants_zero f = true -> zero c p n) ->
    exists s' c', core_page_free p n f s c = Ret (s', c') /\ source_ok s' /\
      (forall x, mapped s' x <-> mapped s x /\ ~ inside p n x) /\
      (forall x, mapped s' x -> c' x = c x) }.

Lemma type_bits f g :
  (forall n, 0 <= n < 3 -> Z.testbit f n = Z.testbit g n) -> Z.land f GFP_MASK_TYPE = Z.land g GFP_MASK_TYPE.
Proof.
  intros H. apply Z.bits_inj'. intros n Hn. rewrite !Z.land_spec. change GFP_MASK_TYPE with (Z.ones 3).
  destruct (Z.lt_ge_cases n 3); [by rewrite H by lia|]. rewrite Z.ones_spec_high by lia. by rewrite !andb_false_r.
Qed.
Lemma accepts_mix {P} `{!PageOps P, !PageSource P} f a :
  accepts f -> bit_attr a -> accepts (Z.lor (no_calloc f) (GFP_STPAGEATTR a)).
Proof.
  intros Hf Ha. apply (accepts_type f); [|done]. apply type_bits. intros n Hn. unfold no_calloc.
  rewrite Z.lor_spec, Z.land_spec, Z.lnot_spec by lia. change GFP_CALLOC with (2 ^ 4). rewrite Z.pow2_bits_false by lia.
  unfold GFP_STPAGEATTR. rewrite (Z.shiftl_spec_low _ 4) by lia. by rewrite andb_true_r, orb_false_r.
Qed.

(** ** Free ranges *)

Record slot : Set := Slot { s_addr : Z; s_size : Z; s_attr : Z }.
#[export] Instance slot_eq_dec : EqDecision slot.
Proof. solve_decision. Defined.
Definition leaf_of (s : slot) : leaf unit := Leaf (s_addr s) (s_addr s + s_size s - 1) tt.
Definition in_slot (s : slot) (x : Z) : Prop := inside (s_addr s) (s_size s) x.
Definition slot_ok (s : slot) : Prop :=
  s_addr s mod 8 = 0 /\ s_size s mod 8 = 0 /\ 24 <= s_size s /\ bit_attr (s_attr s) /\
  4096 <= s_addr s /\ s_addr s + s_size s <= 2 ^ 32 - 4096.
Definition far (s1 s2 : slot) : Prop :=
  s_addr s1 + s_size s1 <= s_addr s2 \/ s_addr s2 + s_size s2 <= s_addr s1.

Lemma MIN_24 : HEAP_MIN_MALLOC = 24.
Proof. reflexivity. Qed.
Lemma slot_fits s : slot_ok s -> fits 32 (leaf_of s).
Proof.
  intros (Ha & Hs & Hm & _ & Hl & Hh). unfold fits, leaf_ok, leaf_of. cbn [a_vmin a_vmax].
  change (2 ^ 32) with 4294967296 in *. split; [|lia]. split; [lia|]. split.
  - apply Z.even_spec. exists (s_addr s / 2). mlia.
  - apply Z.odd_spec. exists ((s_addr s + s_size s - 1) / 2). mlia.
Qed.
Lemma covers_slot s x : covers (leaf_of s) x = true <-> in_slot s x.
Proof. rewrite covers_spec. unfold in_slot, inside, leaf_of. cbn [a_vmin a_vmax]. lia. Qed.
Lemma far_disjoint s1 s2 : disjoint_leaf (leaf_of s1) (leaf_of s2) <-> far s1 s2.
Proof. unfold disjoint_leaf, far, leaf_of. cbn [a_vmin a_vmax]. lia. Qed.
Lemma far_in s1 s2 x : far s1 s2 -> in_slot s1 x -> ~ in_slot s2 x.
Proof. unfold far, in_slot, inside. lia. Qed.
Lemma far_sym s1 s2 : far s1 s2 -> far s2 s1.
Proof. unfold far. lia. Qed.

(** A tree of free ranges. *)
Definition tree_of (t : atree unit) (S : list slot) : Prop :=
  tree_ok 32 t /\ elements t ≡ₚ map leaf_of S.

Lemma tree_of_perm t S S' : tree_of t S -> S ≡ₚ S' -> tree_of t S'.
Proof. intros [Ht He] Hp. split; [done|]. by rewrite He, Hp. Qed.

Lemma tree_head t s S : tree_of t (s :: S) -> forall s', s' ∈ S -> far s s'.
Proof.
  intros [Ht He] s' Hs'. assert (Ha : apart t) by (eapply wf_apart; [exact Ht|unfold ATREE_LEVEL0; lia]).
  apply far_disjoint. cbn [map] in He. revert He. generalize (leaf_of s) as l. intros l He.
  assert (Hl : l ∈ elements t) by (rewrite He; by left).
  assert (Hl' : exists t', elements t ≡ₚ l :: t' /\ Forall (disjoint_leaf l) t').
  { clear He Ht. induction t as [|l0 mn IHn mx IHx]; [by apply elem_of_nil in Hl|].
    destruct Ha as (Hn & Hx & Hnx & Ha1 & Ha2). cbn [elements] in *.
    apply elem_of_cons in Hl as [->|Hl].
    - eexists. split; [done|]. by apply Forall_app.
    - apply elem_of_app in Hl as [Hl|Hl].
      + destruct (IHn Ha1 Hl) as (r & Er & Fr). exists (l0 :: r ++ elements mx). split.
        * rewrite Er. by rewrite <- app_comm_cons, perm_swap.
        * unfold clear_of in Hn. rewrite Er in Hn. apply Forall_cons in Hn as [Hn _].
          rewrite Forall_forall in Hnx. constructor; [by apply disjoint_leaf_sym|].
          apply Forall_app. split; [done|]. by apply Hnx.
      + destruct (IHx Ha2 Hl) as (r & Er & Fr). exists (l0 :: elements mn ++ r). split.
        * rewrite Er. by rewrite <- Permutation_middle, perm_swap.
        * unfold clear_of in Hx. rewrite Er in Hx. apply Forall_cons in Hx as [Hx _].
          constructor; [by apply disjoint_leaf_sym|]. apply Forall_app. split; [|done].
          apply Forall_forall. intros y Hy. rewrite Forall_forall in Hnx. specialize (Hnx y Hy).
          unfold clear_of in Hnx. rewrite Er in Hnx. apply Forall_cons in Hnx as [Hnx _].
          by apply disjoint_leaf_sym. }
  destruct Hl' as (t' & Et & Ft). rewrite Et in He. apply Permutation_cons_inv in He.
  rewrite He in Ft. rewrite Forall_forall in Ft. apply Ft. by apply list_elem_of_In, in_map, list_elem_of_In.
Qed.

Lemma semi_root : semi_ok 32 (ATREE_SEMI0 32) (ATREE_LEVEL0 32).
Proof. by apply semi_ok_root. Qed.

(** A free range is at the end of a path. *)
Definition located (t : atree unit) (path : list link) (semi level : Z) (s : slot) : Prop :=
  (exists mn mx, slot_get t path = Node (leaf_of s) mn mx) /\
  slot_semi (ATREE_SEMI0 32) (ATREE_LEVEL0 32) path = (semi, level).

Lemma pop_located t S path semi level s :
  tree_of t (s :: S) -> located t path semi level s ->
  exists sub, pop_at 32 (slot_get t path) semi level = Ret (leaf_of s, sub) /\ tree_of (slot_set t path sub) S.
Proof.
  intros [Ht He] [(mn & mx & Hg) Hss]. pose proof (slot_semi_ok 32 _ _ _ _ _ _ _ semi_root Ht Hg) as Hs.
  rewrite Hss in Hs. destruct Hs as [Hs Hw]. rewrite Hg.
  destruct (pop_at_ok 32 _ _ _ _ _ Hs Hw) as (sub & E & Hw' & Hp). exists sub. split; [done|].
  destruct (slot_set_ok _ _ t path semi level (leaf_of s) (slot_get t path) sub Ht eq_refl Hss) as [H1 H2];
    [by rewrite Hg; cbn [elements]; rewrite Hp|done|].
  split; [done|]. rewrite He in H2. cbn [map] in H2. symmetry. by apply Permutation_cons_inv in H2.
Qed.

Lemma elem_slot S l : l ∈ map leaf_of S -> exists s S', leaf_of s = l /\ S ≡ₚ s :: S'.
Proof.
  intros Hl. apply list_elem_of_In, in_map_iff in Hl as (s & Es & Hin). apply list_elem_of_In in Hin.
  apply elem_of_Permutation in Hin as [S' HS']. by exists s, S'.
Qed.

Lemma plocate_ok t S key :
  tree_of t S -> 0 <= key < 2 ^ 32 ->
  (exists path semi level s S',
     plocate_at 32 t key (ATREE_SEMI0 32) (ATREE_LEVEL0 32) = Ret (Some (path, semi, level)) /\
     located t path semi level s /\ S ≡ₚ s :: S' /\ in_slot s key) \/
  (plocate_at 32 t key (ATREE_SEMI0 32) (ATREE_LEVEL0 32) = Ret None /\ forall s, s ∈ S -> ~ in_slot s key).
Proof.
  intros [Ht He] Hk. pose proof (key_root 32 key ltac:(lia) Hk) as Hki.
  destruct (plocate_at_ok 32 _ _ _ _ semi_root Ht Hki) as [(p & l & mn & mx & E & _ & Hg & Hc)|(E & _ & Hf)].
  - left. pose proof (slot_get_elem _ _ _ _ _ Hg) as Hin. rewrite He in Hin.
    apply elem_slot in Hin as (s & S' & <- & HS). destruct (slot_semi _ _ p) as [sm lv] eqn:Es.
    exists p, sm, lv, s, S'. split; [exact E|]. split; [split; [by do 2 eexists|done]|].
    split; [done|]. by apply covers_slot.
  - right. split; [done|]. intros s Hs Hi. rewrite He in Hf. rewrite Forall_forall in Hf.
    apply covers_slot in Hi. rewrite Hf in Hi; [done|]. by apply list_elem_of_In, in_map, list_elem_of_In.
Qed.

Lemma clear_far t S s : tree_of t S -> (forall s', s' ∈ S -> far s s') -> clear_of (leaf_of s) t.
Proof.
  intros [_ He] Hf. unfold clear_of. rewrite He. apply Forall_forall. intros l Hl.
  apply elem_slot in Hl as (s' & S' & <- & HS). apply far_disjoint, Hf. rewrite HS. by left.
Qed.

Lemma pinsert_slot t S s :
  tree_of t S -> slot_ok s -> (forall s', s' ∈ S -> far s s') ->
  exists path semi level t',
    pinsert_at 32 t (leaf_of s) (ATREE_SEMI0 32) (ATREE_LEVEL0 32) = Ret (path, semi, level, t') /\
    located t' path semi level s /\ tree_of t' (s :: S).
Proof.
  intros Ht Hs Hf. pose proof Ht as [Hok He].
  destruct (pinsert_at_ok 32 _ _ t (leaf_of s) semi_root) as (p & t' & E & [Hw Hp] & mn & mx & Hg).
  { apply fits_pre; [lia|done|by apply slot_fits|by eapply clear_far]. }
  destruct (slot_semi _ _ p) as [sm lv] eqn:Es. exists p, sm, lv, t'. split; [exact E|].
  split; [split; [by do 2 eexists|done]|]. split; [done|]. cbn [map]. by rewrite Hp, He.
Qed.

Lemma insert_slot t S s :
  tree_of t S -> slot_ok s -> (forall s', s' ∈ S -> far s s') ->
  exists t', insert 32 t (leaf_of s) = Ret t' /\ tree_of t' (s :: S).
Proof.
  intros Ht Hs Hf. pose proof Ht as [Hok He].
  destruct (insert_at_inserts 32 (ATREE_LEVEL0 32) (ATREE_SEMI0 32) t (leaf_of s)) as (t' & E & Hw & Hp);
    [apply semi_root|apply fits_pre; [lia|done|by apply slot_fits|by eapply clear_far]|].
  exists t'. split; [exact E|]. split; [done|]. cbn [map]. by rewrite Hp, He.
Qed.

Lemma remove_slot t S s :
  tree_of t (s :: S) -> slot_ok s ->
  exists t', remove 32 t (s_addr s) = Ret (Some (leaf_of s), t') /\ tree_of t' S.
Proof.
  intros Ht Hs. pose proof Ht as [Hok He]. pose proof Hs as (_ & _ & Hm & _ & Hl & Hh).
  change (2 ^ 32) with 4294967296 in Hh.
  assert (Hk : key_in (ATREE_SEMI0 32) (ATREE_LEVEL0 32) (s_addr s)).
  { apply key_root; [lia|]. change (2 ^ 32) with 4294967296. lia. }
  assert (Hc : covers (leaf_of s) (s_addr s) = true) by (apply covers_slot; unfold in_slot, inside; lia).
  destruct (remove_at_ok 32 _ _ t (s_addr s) semi_root Hok Hk) as [(l & t' & E & Hcl & Hw & Hp)|[_ Hf]].
  - assert (l = leaf_of s) as ->.
    { eapply (apart_unique t); [eapply wf_apart; [exact Hok|unfold ATREE_LEVEL0; lia]| | |exact Hcl|exact Hc].
      - rewrite Hp. by left.
      - rewrite He. by left. }
    exists t'. split; [exact E|]. split; [done|]. rewrite He in Hp. cbn [map] in Hp.
    symmetry. by apply Permutation_cons_inv in Hp.
  - rewrite He in Hf. cbn [map] in Hf. apply Forall_cons in Hf as [Hf _]. congruence.
Qed.
