(* ===== verification/HeapInv.v ===== *)
(** * The kernel heap: its invariant

    The free ranges of a heap are a list of slots that the tree, the lists by size, the
    controllers and the memory agree on. *)
From stdpp Require Import base numbers list sets sorting.
From S2P Require Import Prelude Align ATree Heap HeapSpec.

(** ** Lists by size *)

Section Lists.

Context (size : Z -> Z).

Definition by_size (a b : Z) : Prop := size a <= size b.
Definition sorted (l : list Z) : Prop := StronglySorted by_size l.

Lemma place_perm n a l : list_place size n a l ≡ₚ a :: l.
Proof.
  induction l as [|x l IH]; cbn [list_place]; [done|]. destruct (size x <? n); [|done].
  rewrite IH. apply perm_swap.
Qed.
Lemma place_sorted n a l : size a = n -> sorted l -> sorted (list_place size n a l).
Proof.
  intros Ha. induction 1 as [|x l Hs IH Hf]; cbn [list_place]; [by repeat constructor|].
  destruct (Z.ltb_spec (size x) n) as [Hlt|Hge].
  - constructor; [done|]. rewrite place_perm. constructor; [unfold by_size; lia|done].
  - constructor; [by constructor|]. constructor; [unfold by_size; lia|].
    eapply Forall_impl; [exact Hf|]. intros y Hy. unfold by_size in *. lia.
Qed.

(** The range [a] has grown: the list was sorted before it did. *)
Lemma fix_spec a l :
  list_fix size a l = l \/
  (exists l1 l2, l = l1 ++ a :: l2 /\ (a ∉ l1) /\ list_fix size a l = l1 ++ list_place size (size a) a l2).
Proof.
  induction l as [|x l IH]; cbn [list_fix]; [by left|]. destruct (Z.eqb_spec x a) as [->|Hne].
  - right. exists [], l. split; [done|]. split; [apply not_elem_of_nil|]. cbn [app].
    destruct l as [|y l]; [done|]. cbn [list_place]. by destruct (size y <? size a).
  - destruct IH as [->|(l1 & l2 & -> & Hn & E)]; [by left|]. right. exists (x :: l1), l2.
    split; [done|]. split; [|by rewrite E]. rewrite elem_of_cons. intros [->|?]; done.
Qed.
Lemma fix_perm a l : list_fix size a l ≡ₚ l.
Proof.
  destruct (fix_spec a l) as [->|(l1 & l2 & -> & _ & ->)]; [done|]. by rewrite place_perm.
Qed.
Lemma fix_not_in a l : a ∉ l -> list_fix size a l = l.
Proof.
  intros Hn. destruct (fix_spec a l) as [E|(l1 & l2 & -> & _)]; [done|]. exfalso. apply Hn.
  apply elem_of_app. right. by left.
Qed.
Lemma by_size_app l1 l2 :
  sorted (l1 ++ l2) <-> sorted l1 /\ sorted l2 /\ forall x y, x ∈ l1 -> y ∈ l2 -> size x <= size y.
Proof.
  induction l1 as [|a l1 IH]; cbn [app].
  - split; [|tauto]. intros H. split; [constructor|]. split; [done|]. intros x y Hx. by apply elem_of_nil in Hx.
  - split.
    + intros H. inversion_clear H as [|? ? Hs Hf]. apply IH in Hs as (H1 & H2 & H3).
      apply Forall_app in Hf as [Hf1 Hf2]. split; [by constructor|]. split; [done|].
      intros x y Hx Hy. apply elem_of_cons in Hx as [->|Hx]; [|by apply H3].
      rewrite Forall_forall in Hf2. by apply Hf2.
    + intros (H1 & H2 & H3). inversion_clear H1 as [|? ? Hs Hf]. constructor.
      * apply IH. split_and!; [done|done|]. intros x y Hx Hy. apply H3; [by right|done].
      * apply Forall_app. split; [done|]. apply Forall_forall. intros y Hy. apply H3; [by left|done].
Qed.
(** All but [a] are in order, and those in front of [a] are not larger. *)
Lemma fix_sorted a l1 l2 :
  sorted (l1 ++ l2) -> (forall x, x ∈ l1 -> size x <= size a) -> a ∉ l1 ->
  sorted (list_fix size a (l1 ++ a :: l2)).
Proof.
  intros Hs H1 Hn.
  assert (E : list_fix size a (l1 ++ a :: l2) = l1 ++ list_place size (size a) a l2).
  { clear Hs H1. induction l1 as [|x l1 IH]; cbn [app list_fix].
    - rewrite Z.eqb_refl. destruct l2 as [|y l2]; [done|]. cbn [list_place]. by destruct (size y <? size a).
    - destruct (Z.eqb_spec x a) as [->|]; [exfalso; apply Hn; by left|]. f_equal. apply IH.
      intros ?. apply Hn. by right. }
  rewrite E. apply by_size_app in Hs as (S1 & S2 & S3). apply by_size_app. split; [done|].
  split; [by apply place_sorted|]. intros x y Hx Hy. rewrite place_perm in Hy.
  apply elem_of_cons in Hy as [->|Hy]; [by apply H1|by apply S3].
Qed.
Lemma filter_sorted (Q : Z -> Prop) `{forall x, Decision (Q x)} l : sorted l -> sorted (filter Q l).
Proof.
  induction 1 as [|x l Hs IH Hf]; [constructor|]. rewrite filter_cons. destruct (decide (Q x)); [|done].
  constructor; [done|]. apply Forall_forall. intros y Hy. apply list_elem_of_filter in Hy as [_ Hy].
  rewrite Forall_forall in Hf. by apply Hf.
Qed.

End Lists.

Lemma sorted_ext size size' l : (forall x, x ∈ l -> size' x = size x) -> sorted size l -> sorted size' l.
Proof.
  intros He. induction 1 as [|x l Hs IH Hf]; [constructor|].
  constructor; [apply IH; intros y Hy; apply He; by right|]. apply Forall_forall. intros y Hy.
  unfold by_size. rewrite !He by (by left || by right). rewrite Forall_forall in Hf. by apply Hf.
Qed.

(** The lists have the free ranges, each one in the order of sizes. *)
Definition lists_of (size : Z -> Z) (L : list (list Z)) (S : list slot) : Prop :=
  length L = 27%nat /\ concat L ≡ₚ map s_addr S /\ Forall (sorted size) L.

Lemma concat_perm {A} (L L' : list (list A)) : Forall2 Permutation L L' -> concat L ≡ₚ concat L'.
Proof. induction 1 as [|l l' L L' Hl _ IH]; cbn [concat]; [done|]. by rewrite Hl, IH. Qed.

Lemma lists_perm size L S S' : lists_of size L S -> S ≡ₚ S' -> lists_of size L S'.
Proof. intros (Hl & Hp & Hs) HS. split_and!; [done| |done]. by rewrite Hp, HS. Qed.
Lemma lists_ext size size' L S :
  (forall s, s ∈ S -> size' (s_addr s) = size (s_addr s)) -> lists_of size L S -> lists_of size' L S.
Proof.
  intros He (Hl & Hp & Hs). split_and!; [done|done|]. rewrite Forall_forall in Hs |- *. intros l Hin.
  apply (sorted_ext size); [|by apply Hs]. intros x Hx.
  assert (Hx' : x ∈ map s_addr S) by (rewrite <- Hp; apply list_elem_of_In, in_concat; exists l; by rewrite <- !list_elem_of_In).
  apply list_elem_of_In, in_map_iff in Hx' as (s & <- & Hs'). by apply He, list_elem_of_In.
Qed.

Lemma concat_remove a L : concat (list_remove a L) = filter (fun x => x <> a) (concat L).
Proof. induction L as [|l L IH]; cbn; [done|]. by rewrite filter_app, <- IH. Qed.
Lemma filter_id {A} (Q : A -> Prop) `{forall x, Decision (Q x)} l : Forall Q l -> filter Q l = l.
Proof. induction 1 as [|x l Hx _ IH]; [done|]. rewrite filter_cons_True by done. by rewrite IH. Qed.

Lemma remove_lists size L s S :
  lists_of size L (s :: S) -> s_addr s ∉ map s_addr S -> lists_of size (list_remove (s_addr s) L) S.
Proof.
  intros (Hl & Hp & Hs) Hn. split_and!.
  - unfold list_remove. by rewrite length_map.
  - rewrite concat_remove, Hp. cbn [map]. rewrite filter_cons_False by auto.
    rewrite filter_id; [done|]. apply Forall_forall. intros x Hx ->. done.
  - unfold list_remove. rewrite Forall_forall in Hs |- *. intros l Hin.
    apply list_elem_of_In, in_map_iff in Hin as (l' & <- & Hin). apply filter_sorted, Hs. by apply list_elem_of_In.
Qed.

Lemma place_lists size L s S i :
  lists_of size L S -> (i < 27)%nat -> size (s_addr s) = s_size s ->
  lists_of size (alter (list_place size (s_size s) (s_addr s)) i L) (s :: S).
Proof.
  intros (Hl & Hp & Hs) Hi He. destruct (lookup_lt_is_Some_2 L i) as [l El]; [lia|].
  pose proof (take_drop_middle L i l El) as Hd. split_and!.
  - by rewrite length_alter.
  - cbn [map]. rewrite <- Hp. rewrite <- Hd at 1. rewrite alter_app_r_alt by (rewrite length_take; lia).
    rewrite length_take_le by lia. rewrite Nat.sub_diag. cbn [alter list_alter].
    rewrite <- Hd at 3. rewrite !concat_app. cbn [concat]. rewrite place_perm.
    by rewrite <- app_comm_cons, <- Permutation_middle.
  - rewrite Forall_lookup in Hs |- *. intros j x Hx. destruct (Nat.eq_dec j i) as [->|Hne].
    + rewrite list_lookup_alter_eq, El in Hx. cbn in Hx. injection Hx as <-. apply place_sorted; [done|]. by apply (Hs i).
    + rewrite list_lookup_alter_ne in Hx by done. by apply (Hs j).
Qed.

Lemma bucket_split (a : Z) (l : list Z) :
  a ∈ l -> NoDup l -> exists l1 l2, l = l1 ++ a :: l2 /\ (a ∉ l1) /\ (a ∉ l2).
Proof.
  intros Hin Hn. apply list_elem_of_split in Hin as (l1 & l2 & ->). exists l1, l2. split; [done|].
  rewrite NoDup_app in Hn. destruct Hn as (_ & Hd & Hn2). inversion_clear Hn2 as [|? ? Hnot _].
  split; [|done]. intros Hin. apply (Hd a Hin). by left.
Qed.

Lemma bucket_nodup (L : list (list Z)) l : NoDup (concat L) -> l ∈ L -> NoDup l.
Proof.
  intros Hn Hl. apply list_elem_of_split in Hl as (L1 & L2 & ->). rewrite concat_app in Hn. cbn [concat] in Hn.
  apply NoDup_app in Hn as (_ & _ & Hn). by apply NoDup_app in Hn as (Hn & _).
Qed.

(** The range at the address of [s] has grown. *)
Lemma fix_lists size0 size L s0 s S :
  lists_of size0 L (s0 :: S) -> s_addr s0 = s_addr s -> NoDup (map s_addr (s :: S)) ->
  (forall s', s' ∈ S -> size (s_addr s') = size0 (s_addr s')) -> size0 (s_addr s) <= size (s_addr s) ->
  lists_of size (map (list_fix size (s_addr s)) L) (s :: S).
Proof.
  intros (Hl & Hp & Hs) Ea Hn He Hle.
  assert (Hc : map s_addr (s0 :: S) = map s_addr (s :: S)) by (cbn [map]; by rewrite Ea).
  rewrite Hc in Hp. split_and!; [by rewrite length_map| |].
  - rewrite <- Hp. apply concat_perm. clear. induction L as [|l L IH]; constructor; [apply fix_perm|done].
  - rewrite <- Hp in Hn. apply Forall_forall. intros l' Hin.
    apply list_elem_of_In, in_map_iff in Hin as (l & <- & Hin). apply list_elem_of_In in Hin.
    rewrite Forall_forall in Hs. specialize (Hs l Hin). pose proof (bucket_nodup L l Hn Hin) as Hnl.
    assert (Hx : forall x, x ∈ l -> x <> s_addr s -> size x = size0 x).
    { intros x Hxl Hne. assert (Hx' : x ∈ map s_addr (s :: S)).
      { rewrite <- Hp. apply list_elem_of_In, in_concat. exists l. by rewrite <- !list_elem_of_In. }
      cbn [map] in Hx'. apply elem_of_cons in Hx' as [?|Hx']; [done|].
      apply list_elem_of_In, in_map_iff in Hx' as (s' & <- & Hs'). by apply He, list_elem_of_In. }
    destruct (decide (s_addr s ∈ l)) as [Ha|Ha].
    + destruct (bucket_split _ _ Ha Hnl) as (l1 & l2 & -> & N1 & N2). apply by_size_app in Hs as (S1 & S2 & S3).
      inversion_clear S2 as [|? ? S2' S4].
      assert (Hext : forall x, x ∈ l1 ++ l2 -> size x = size0 x).
      { intros x Hxl. apply elem_of_app in Hxl as [Hxl|Hxl]; (apply Hx; [apply elem_of_app|by intros ->]);
          [by left|right; by right]. }
      apply fix_sorted; [|intros x Hx1|done].
      * apply (sorted_ext size0); [done|]. apply by_size_app. split_and!; [done|done|].
        intros x y Hx1 Hy. apply S3; [done|]. by right.
      * rewrite Hext by (apply elem_of_app; by left). specialize (S3 x (s_addr s) Hx1 ltac:(by left)). lia.
    + rewrite fix_not_in by done. apply (sorted_ext size0); [|done]. intros x Hxl. apply Hx; [done|]. by intros ->.
Qed.

(** The range at [a] is at [b] now. *)
Lemma rename_lists size L s0 s S :
  lists_of size L (s0 :: S) -> s_addr s0 ∉ map s_addr S -> s_addr s ∉ map s_addr S ->
  lists_of (fun x => if x =? s_addr s then size (s_addr s0) else size x)
    (list_rename (s_addr s0) (s_addr s) L) (s :: S).
Proof.
  intros (Hl & Hp & Hs) Hn0 Hn. set (a := s_addr s0) in *. set (b := s_addr s) in *.
  set (r := fun x => if x =? a then b else x). unfold list_rename. split_and!; [by rewrite length_map| |].
  - rewrite <- concat_map, Hp. cbn [map]. fold a b. rewrite Z.eqb_refl. f_equiv.
    rewrite (map_ext_in _ (fun x => x)); [by rewrite map_id|]. intros x Hx.
    destruct (Z.eqb_spec x a) as [->|]; [|done]. exfalso. by apply Hn0, list_elem_of_In.
  - apply Forall_forall. intros l' Hin. apply list_elem_of_In, in_map_iff in Hin as (l & <- & Hin).
    apply list_elem_of_In in Hin. rewrite Forall_forall in Hs. specialize (Hs l Hin).
    assert (Hb : forall x, x ∈ l -> x = b -> x = a).
    { intros x Hxl ->. assert (Hx' : b ∈ map s_addr (s0 :: S)).
      { rewrite <- Hp. apply list_elem_of_In, in_concat. exists l. by rewrite <- !list_elem_of_In. }
      cbn [map] in Hx'. apply elem_of_cons in Hx' as [?|Hx']; done. }
    clear Hin. induction Hs as [|x l Hs IH Hf]; cbn [map]; [constructor|]. constructor; [set_solver|].
    apply Forall_forall. intros y Hy. apply list_elem_of_In, in_map_iff in Hy as (z & <- & Hz).
    apply list_elem_of_In in Hz. rewrite Forall_forall in Hf. specialize (Hf z Hz). unfold by_size in *.
    pose proof (Hb x ltac:(by left)) as Hb1. pose proof (Hb z ltac:(by right)) as Hb2.
    destruct (Z.eqb_spec x a) as [->|], (Z.eqb_spec z a) as [->|]; rewrite ?Z.eqb_refl; try done.
    + destruct (Z.eqb_spec z b) as [->|]; [by destruct (Hb2 eq_refl)|done].
    + destruct (Z.eqb_spec x b) as [->|]; [by destruct (Hb1 eq_refl)|done].
    + destruct (Z.eqb_spec x b) as [->|]; [by destruct (Hb1 eq_refl)|].
      destruct (Z.eqb_spec z b) as [->|]; [by destruct (Hb2 eq_refl)|done].
Qed.

(** ** The invariant *)

(** No two free ranges overlap. *)
Definition apart_slots (S : list slot) : Prop :=
  forall s S', S ≡ₚ s :: S' -> forall s', s' ∈ S' -> far s s'.

Lemma apart_perm S S' : apart_slots S -> S ≡ₚ S' -> apart_slots S'.
Proof. intros Ha HS s T HT. apply Ha. by rewrite HS. Qed.
Lemma apart_cons s S : apart_slots S -> (forall s', s' ∈ S -> far s s') -> apart_slots (s :: S).
Proof.
  intros Ha Hf r T HT. destruct (decide (s ∈ T)) as [Hin|Hin].
  - apply elem_of_Permutation in Hin as [T' HT']. rewrite HT', perm_swap in HT. apply Permutation_cons_inv in HT.
    intros s' Hs'. rewrite HT' in Hs'. apply elem_of_cons in Hs' as [->|Hs'].
    + apply far_sym, Hf. rewrite HT. by left.
    + by apply (Ha r T').
  - assert (r = s) as ->.
    { assert (Hs : s ∈ r :: T) by (rewrite <- HT; by left). apply elem_of_cons in Hs as [->|?]; done. }
    apply Permutation_cons_inv in HT. intros s' Hs'. apply Hf. by rewrite HT.
Qed.
Lemma apart_tail s S : apart_slots (s :: S) -> apart_slots S /\ forall s', s' ∈ S -> far s s'.
Proof.
  intros Ha. split; [|by apply Ha]. intros r T HT s' Hs'. apply (Ha r (s :: T)); [|by right].
  rewrite HT. apply perm_swap.
Qed.
Lemma apart_addr S : apart_slots S -> Forall slot_ok S -> NoDup (map s_addr S).
Proof.
  induction S as [|s S IH]; intros Ha Ho; cbn [map]; [constructor|]. apply Forall_cons in Ho as [Hs Ho].
  apply apart_tail in Ha as [Ha Hf]. constructor; [|by apply IH]. intros Hin.
  apply list_elem_of_In, in_map_iff in Hin as (s' & E & Hin). apply list_elem_of_In in Hin.
  specialize (Hf s' Hin). rewrite Forall_forall in Ho. destruct (Ho s' Hin) as (_ & _ & H1 & _).
  destruct Hs as (_ & _ & H2 & _). unfold far in Hf. lia.
Qed.

Definition free_in (S : list slot) (x : Z) : Prop := exists s, s ∈ S /\ in_slot s x.

Lemma free_cons s S x : free_in (s :: S) x <-> in_slot s x \/ free_in S x.
Proof.
  unfold free_in. setoid_rewrite elem_of_cons. split.
  - intros (s' & [->|Hs] & Hi); eauto.
  - intros [Hi|(s' & Hs & Hi)]; eauto.
Qed.
Lemma free_perm S S' x : S ≡ₚ S' -> free_in S x <-> free_in S' x.
Proof. intros HS. unfold free_in. by setoid_rewrite HS. Qed.

Section Inv.

Context {P : Type} `{!PageOps P, !PageSource P}.
Implicit Types k : state (P := P).

Definition small (s : slot) : Prop := s_size s < 2 ^ 30.
Definition conf (h : mheap) : Prop :=
  0 <= mh_overalloc h < 2 ^ 29 /\ mh_overalloc h mod 4096 = 0 /\ 4096 <= mh_freethresh h <= 2 ^ 30 /\ 0 <= mh_lock h.

(** What holds of free ranges wherever they are linked. *)
Record body k (S : list slot) : Prop := {
  b_hdr s : s ∈ S -> hdr k (s_addr s) = Mfree (s_size s) (s_attr s);
  b_ok : Forall slot_ok S;
  b_far : apart_slots S;
  b_zero s : s ∈ S -> is_zero (s_attr s) = true -> zero (cont k) (s_addr s + 20) (s_size s - 20);
  b_mapped x : free_in S x -> mapped (src k) x;
  b_src : source_ok (src k);
  b_conf : conf (heap k) }.

Record good k (S : list slot) : Prop := {
  g_body : body k S;
  g_tree : tree_of (mh_addr (heap k)) S;
  g_lists : lists_of (MFREE_SIZE k) (mh_size (heap k)) S }.

Definition heap_inv k : Prop := exists S, good k S /\ Forall small S.

(** Memory that clients have. *)
Definition free k x : Prop := exists l, l ∈ elements (mh_addr (heap k)) /\ covers l x = true.
Definition used k x : Prop := mapped (src k) x /\ ~ free k x.

Lemma tree_free t S x : tree_of t S -> (exists l, l ∈ elements t /\ covers l x = true) <-> free_in S x.
Proof.
  intros [_ He]. split.
  - intros (l & Hl & Hc). rewrite He in Hl. apply elem_slot in Hl as (s & S' & <- & HS).
    exists s. split; [rewrite HS; by left|]. by apply covers_slot.
  - intros (s & Hs & Hi). exists (leaf_of s). split; [|by apply covers_slot]. rewrite He.
    by apply list_elem_of_In, in_map, list_elem_of_In.
Qed.
Lemma used_slots k S x : tree_of (mh_addr (heap k)) S -> used k x <-> mapped (src k) x /\ ~ free_in S x.
Proof. intros Ht. unfold used, free. by rewrite (tree_free _ S x Ht). Qed.

Lemma body_perm k S S' : body k S -> S ≡ₚ S' -> body k S'.
Proof.
  intros [H1 H2 H3 H4 H5 H6 H7] HS. split; try done.
  - intros s Hs. apply H1. by rewrite HS.
  - by rewrite <- HS.
  - by eapply apart_perm.
  - intros s Hs. apply H4. by rewrite HS.
  - intros x Hx. apply H5. by rewrite (free_perm S S').
Qed.
Lemma good_perm k S S' : good k S -> S ≡ₚ S' -> good k S'.
Proof.
  intros [H1 H2 H3] HS. split; [by eapply body_perm|by eapply tree_of_perm|by eapply lists_perm].
Qed.
Lemma body_tail k s S : body k (s :: S) -> body k S.
Proof.
  intros [H1 H2 H3 H4 H5 H6 H7]. apply Forall_cons in H2 as [_ H2]. apply apart_tail in H3 as [H3 _]. split; try done.
  - intros s' Hs. apply H1. by right.
  - intros s' Hs. apply H4. by right.
  - intros x Hx. apply H5. apply free_cons. by right.
Qed.
Lemma body_nodup k S : body k S -> NoDup (map s_addr S).
Proof. intros [_ Ho Hf _ _ _ _]. by apply apart_addr. Qed.
Lemma addr_fresh k s S : body k (s :: S) -> s_addr s ∉ map s_addr S.
Proof. intros Hb. apply body_nodup in Hb. cbn [map] in Hb. by inversion_clear Hb. Qed.

(** Memory and controllers change outside of the free ranges only. *)
Lemma body_frame k k' S :
  body k S -> (forall s, s ∈ S -> hdr k' (s_addr s) = hdr k (s_addr s)) ->
  (forall x, free_in S x -> cont k' x = cont k x) -> src k' = src k -> conf (heap k') -> body k' S.
Proof.
  intros [H1 H2 H3 H4 H5 H6 H7] Hh Hc Hs Hcf. split; try done.
  - intros s Hin. rewrite Hh by done. by apply H1.
  - intros s Hin Hz x Hx. rewrite Hc; [by apply (H4 s Hin Hz)|]. exists s. split; [done|].
    rewrite Forall_forall in H2. destruct (H2 s Hin) as (_ & _ & H & _). unfold in_slot, inside in *. lia.
  - by rewrite Hs.
  - by rewrite Hs.
Qed.
Lemma body_cons k s S :
  body k S -> hdr k (s_addr s) = Mfree (s_size s) (s_attr s) -> slot_ok s -> (forall s', s' ∈ S -> far s s') ->
  (is_zero (s_attr s) = true -> zero (cont k) (s_addr s + 20) (s_size s - 20)) ->
  (forall x, in_slot s x -> mapped (src k) x) -> body k (s :: S).
Proof.
  intros [H1 H2 H3 H4 H5 H6 H7] Hh Hs Hf Hz Hm. split; try done.
  - intros s' Hin. apply elem_of_cons in Hin as [->|Hin]; [done|by apply H1].
  - by constructor.
  - by apply apart_cons.
  - intros s' Hin. apply elem_of_cons in Hin as [->|Hin]; [done|by apply H4].
  - intros x Hx. apply free_cons in Hx as [Hx|Hx]; [by apply Hm|by apply H5].
Qed.

End Inv.
