(* ===== verification/HeapOps.v ===== *)
(** * The kernel heap: releasing memory *)
From stdpp Require Import base numbers list sorting.
From S2P Require Import Prelude Align ATree Heap HeapSpec HeapInv.

Lemma uptr_id x : 0 <= x < 2 ^ 32 -> uptr x = x.
Proof. apply Z.mod_small. Qed.
Lemma aligned8 x : IS_ALIGNED x HEAP_ALIGNMENT = true <-> x mod 8 = 0.
Proof. apply Z.eqb_eq. Qed.
Lemma fill_out p n v c x : ~ inside p n x -> fill p n v c x = c x.
Proof. intros Hx. unfold fill, inside in *. destruct (Z.leb_spec p x), (Z.ltb_spec x (p + n)); cbn [andb]; try done; lia. Qed.
Lemma fill_in p n v c x : inside p n x -> fill p n v c x = v.
Proof.
  intros Hx. unfold fill, inside in *. rewrite (proj2 (Z.leb_le _ _)), (proj2 (Z.ltb_lt _ _)) by lia. done.
Qed.
Lemma bucket_bounds n : 24 <= n < 2 ^ 30 -> 0 <= HEAP_BUCKET_OF n < 27.
Proof.
  intros Hn. unfold HEAP_BUCKET_OF, CLZ, HEAP_BUCKET_OFFSET.
  assert (4 <= Z.log2 n <= 29); [|lia]. split.
  - change 4 with (Z.log2 24). apply Z.log2_le_mono. lia.
  - apply Z.lt_succ_r. apply Z.log2_lt_pow2; [lia|]. exact (proj2 Hn).
Qed.

Lemma obind_ret {A B C} (m : outcome A) (f : A -> outcome B) (g : B -> outcome C) y :
  obind m f = Ret y -> obind m (fun x => obind (f x) g) = g y.
Proof. destruct m as [a|]; [|done]. cbn [obind]. by intros ->. Qed.

(** 2 ^ 32 and its friends as numbers. *)
Ltac pow_num :=
  change (2 ^ 32) with 4294967296 in *; change (2 ^ 30) with 1073741824 in *; change (2 ^ 29) with 536870912 in *.

Section Release.

Context {P : Type} `{!PageOps P, !PageSource P} (debug_init : option Z).
Implicit Types k : state (P := P).

(** A controller is written. *)
Definition with_ctrl (s : slot) k : state (P := P) :=
  State (heap k) (fun x => if x =? s_addr s then Mfree (s_size s) (s_attr s) else hdr k x) (src k)
    (fill (s_addr s) sizeof_mfree None (cont k)).

Lemma setup_ok s k : slot_ok s -> MFREE_SETUP (s_addr s) (s_size s) (s_attr s) k = Ret (with_ctrl s k).
Proof.
  intros (Ha & Hs & Hm & Hb & _). unfold MFREE_SETUP. rewrite (proj2 (aligned8 _)) by done. cbn [oassert].
  rewrite MIN_24, (proj2 (Z.leb_le _ _)) by done. cbn [oassert].
  assert (E : (Z.land (s_attr s) MFREE_ATTRMASK =? s_attr s) = true) by (by destruct Hb as [->| ->]). by rewrite E.
Qed.

Lemma node_leaf k s : slot_ok s -> MFREE_SIZE k (s_addr s) = s_size s -> node k (s_addr s) = leaf_of s.
Proof.
  intros (_ & _ & Hm & _ & Hl & Hh) E. unfold node, leaf_of. rewrite E. f_equal. apply uptr_id. pow_num. lia.
Qed.

(** Only the controller of [s], the tree and the lists have changed. *)
Definition linked (s : slot) k k' : Prop :=
  src k' = src k /\ mh_lock (heap k') = mh_lock (heap k) /\
  mh_overalloc (heap k') = mh_overalloc (heap k) /\ mh_freethresh (heap k') = mh_freethresh (heap k) /\
  (forall x, ~ inside (s_addr s) 20 x -> cont k' x = cont k x).

Lemma body_ctrl k s S :
  body k S -> slot_ok s -> (forall s', s' ∈ S -> far s s') ->
  (is_zero (s_attr s) = true -> zero (cont k) (s_addr s + 20) (s_size s - 20)) ->
  (forall x, in_slot s x -> mapped (src k) x) -> body (with_ctrl s k) (s :: S).
Proof.
  intros Hb Hs Hf Hz Hm. pose proof (b_ok k S Hb) as Ho. rewrite Forall_forall in Ho. apply body_cons; try done.
  - apply (body_frame k); try done.
    + intros s' Hs'. cbn. rewrite (proj2 (Z.eqb_neq _ _)); [done|]. intros E.
      specialize (Hf s' Hs'). destruct (Ho s' Hs') as (_ & _ & H1 & _), Hs as (_ & _ & H2 & _). unfold far in Hf. lia.
    + intros x (s' & Hs' & Hi). cbn. apply fill_out. intros Hx. apply (far_in _ _ x (Hf s' Hs')); [|done].
      destruct Hs as (_ & _ & H2 & _). unfold in_slot, inside, sizeof_mfree in *. lia.
    + apply Hb.
  - cbn. by rewrite Z.eqb_refl.
  - intros H x Hx. cbn. rewrite fill_out; [by apply Hz|]. unfold inside, sizeof_mfree in *. lia.
Qed.

Lemma nomerge_ok k S s flags :
  good k S -> 0 < mh_lock (heap k) -> slot_ok s -> small s -> plain flags -> s_attr s = GFP_GTPAGEATTR flags ->
  (forall s', s' ∈ S -> far s s') ->
  (wants_zero flags = true -> zero (cont k) (s_addr s + 20) (s_size s - 20)) ->
  (forall x, in_slot s x -> mapped (src k) x) ->
  exists k', mheap_release_nomerge (s_addr s) (s_size s) flags k = Ret k' /\ good k' (s :: S) /\ linked s k k'.
Proof.
  intros [Hb Ht Hli] Hlk Hs Hsm Hp Hat Hf Hz Hm. pose proof Hs as (Ha & Hn & Hm24 & Hbit & Hlo & Hhi).
  unfold mheap_release_nomerge. rewrite !(proj2 (aligned8 _)) by done. cbn [oassert].
  rewrite MIN_24, !(proj2 (Z.leb_le _ _)) by (unfold PAGESIZE; lia). cbn [oassert].
  unfold mheap_writing. rewrite (proj2 (Z.ltb_lt _ _)) by done. cbn [oassert]. rewrite <- Hat.
  rewrite setup_ok by done. cbn [obind].
  change (mh_addr (heap (with_ctrl s k))) with (mh_addr (heap k)).
  assert (Hsz : MFREE_SIZE (with_ctrl s k) (s_addr s) = s_size s) by (unfold MFREE_SIZE; cbn; by rewrite Z.eqb_refl).
  rewrite (node_leaf _ s Hs Hsz).
  destruct (insert_slot _ S s Ht Hs Hf) as (t' & E & Ht'). rewrite E. cbn [obind].
  pose proof (bucket_bounds (s_size s)) as Hbk. unfold small in Hsm. specialize (Hbk ltac:(lia)).
  unfold HEAP_BUCKET_COUNT, HEAP_BUCKET_OFFSET. rewrite (proj2 (Z.leb_le _ _)), (proj2 (Z.ltb_lt _ _)) by lia.
  cbn [andb oassert]. eexists. split; [done|].
  assert (Hbody : body (with_ctrl s k) (s :: S)).
  { apply body_ctrl; try done. intros Hzz. apply Hz. by rewrite <- (proj2 (attr_cases flags Hp)), <- Hat. }
  split; [split|].
  - apply (body_frame (with_ctrl s k)); try done. apply Hb.
  - exact Ht'.
  - apply (place_lists _ _ s S (Z.to_nat (HEAP_BUCKET_OF (s_size s)))); [|lia|exact Hsz].
    apply (lists_ext (MFREE_SIZE k)); [|exact Hli]. intros s' Hs'. unfold MFREE_SIZE. cbn.
    rewrite (proj2 (Z.eqb_neq _ _)); [done|]. intros E'. apply (addr_fresh _ _ _ Hbody). rewrite <- E'.
    by apply list_elem_of_In, in_map, list_elem_of_In.
  - split_and!; try done. intros x Hx. cbn. by apply fill_out.
Qed.

(** ** Giving back pages *)

Lemma end_if_ok (u : bool) k :
  0 < mh_lock (heap k) -> end_if u k = Ret (set_lock (mh_lock (heap k) - Z.b2z u) k).
Proof.
  intros Hl. destruct u; cbn [end_if Z.b2z].
  - unfold mheap_endwrite, mheap_writing. by rewrite (proj2 (Z.ltb_lt _ _)).
  - rewrite Z.sub_0_r. by destruct k as [[] ? ? ?].
Qed.
Lemma good_lock k S n : good k S -> 0 <= n -> good (set_lock n k) S.
Proof.
  intros [Hb Ht Hl] Hn. split; [|done|done]. apply (body_frame k); try done. destruct (b_conf k S Hb) as (H1 & H2 & H3 & _).
  split_and!; try done; apply H1 || apply H3.
Qed.

(** What an operation leaves: [U] is the memory in use, and its contents are as before. *)
Definition settled (u : bool) k (U : Z -> Prop) k' : Prop :=
  heap_inv k' /\ mh_lock (heap k') = mh_lock (heap k) - Z.b2z u /\
  (forall x, used k' x <-> U x) /\ (forall x, U x -> cont k' x = cont k x).

(** [lo..hi) is one of the free ranges. *)
Definition free_range k (lo hi : Z) : Prop := Leaf lo (hi - 1) tt ∈ elements (mh_addr (heap k)).

(** What has become of the memory [lo..hi) that belongs to one free range: it still is one, or the
    pages [pb..pe) have gone back to where pages come from and the ends are free ranges.  From the
    threshold on, and from four pages on, all its pages have gone but at most one at each end. *)
Definition returned (thresh : Z) k (lo hi : Z) k' : Prop :=
  exists pb pe, lo <= pb <= pe /\ pe <= hi /\
    (forall x, mapped (src k') x <-> mapped (src k) x /\ ~ inside pb (pe - pb) x) /\
    (pb = pe -> free_range k' lo hi) /\
    (pb < pe -> pb mod 4096 = 0 /\ pe mod 4096 = 0 /\ thresh <= hi - lo /\
       (lo < pb -> free_range k' lo pb) /\ (pe < hi -> free_range k' pe hi)) /\
    (thresh <= hi - lo -> 4 * 4096 <= hi - lo -> pb < lo + 4120 /\ hi - 4120 < pe).

Lemma range_of k S s : tree_of (mh_addr (heap k)) S -> s ∈ S -> free_range k (s_addr s) (s_addr s + s_size s).
Proof. intros [_ He] Hs. unfold free_range. rewrite He. by apply list_elem_of_In, (in_map leaf_of), list_elem_of_In. Qed.

(** A part of a range: none when it is empty. *)
Definition part (p n a : Z) : list slot := if n =? 0 then [] else [Slot p n a].
Lemma free_part p n a S x : 0 <= n -> free_in (part p n a ++ S) x <-> inside p n x \/ free_in S x.
Proof.
  intros Hn. unfold part. destruct (Z.eqb_spec n 0) as [->|]; cbn [app].
  - unfold inside. split; [tauto|intros [?|?]; [lia|done]].
  - by rewrite free_cons.
Qed.

Lemma part_ok k S p n a flags :
  good k S -> 0 < mh_lock (heap k) -> (n = 0 \/ slot_ok (Slot p n a) /\ small (Slot p n a)) -> plain flags ->
  a = GFP_GTPAGEATTR flags -> (forall s', s' ∈ S -> far (Slot p n a) s') ->
  (wants_zero flags = true -> zero (cont k) (p + 20) (n - 20)) -> (forall x, inside p n x -> mapped (src k) x) ->
  exists k', (if n =? 0 then Ret k else mheap_release_nomerge p n flags k) = Ret k' /\
    good k' (part p n a ++ S) /\ linked (Slot p n a) k k'.
Proof.
  intros Hg Hlk Hs Hp Ha Hf Hz Hm. unfold part. destruct (Z.eqb_spec n 0) as [->|Hne].
  - exists k. split; [done|]. split; [exact Hg|]. by split_and!.
  - destruct Hs as [?|[Hs Hsm]]; [done|]. by apply (nomerge_ok k S (Slot p n a) flags).
Qed.

Lemma body_src k S s' c' :
  body k S -> source_ok s' -> (forall x, free_in S x -> mapped s' x /\ c' x = cont k x) ->
  body (State (heap k) (hdr k) s' c') S.
Proof.
  intros [H1 H2 H3 H4 H5 H6 H7] Hs Hm. split; try done.
  - intros s Hin Hz x Hx. cbn. assert (Hf : free_in S x).
    { exists s. split; [done|]. rewrite Forall_forall in H2. destruct (H2 s Hin) as (_ & _ & H & _).
      unfold in_slot, inside in *. lia. }
    rewrite (proj2 (Hm x Hf)). by apply (H4 s Hin Hz).
  - intros x Hx. by apply Hm.
Qed.

(** The range leaves the tree and the lists. *)
Lemma unlink_ok k s S path semi level :
  good k (s :: S) -> located (mh_addr (heap k)) path semi level s ->
  exists t', tree_pop path semi level (set_size (list_remove (s_addr s) (mh_size (heap k))) k) =
      Ret (set_addr t' (set_size (list_remove (s_addr s) (mh_size (heap k))) k)) /\
    good (set_addr t' (set_size (list_remove (s_addr s) (mh_size (heap k))) k)) S.
Proof.
  intros [Hb Ht Hl] Hloc. destruct (pop_located _ _ _ _ _ _ Ht Hloc) as (sub & E & Ht').
  unfold tree_pop.
  cbn [set_size set_heap heap mh_addr]. rewrite E. cbn [obind]. eexists. split; [done|]. split.
  - apply (body_frame k); try done; [by eapply body_tail|apply Hb].
  - exact Ht'.
  - apply (remove_lists _ _ s S); [exact Hl|]. by eapply addr_fresh.
Qed.

(** The cleared controller of a zero range completes it. *)
Lemma cleared_zero k s S z :
  body k (s :: S) -> is_zero (s_attr s) = z ->
  z = true -> zero (cont (if z then clear (s_addr s) sizeof_mfree k else k)) (s_addr s) (s_size s).
Proof.
  intros Hb Hz ->. intros x Hx. cbn. destruct (decide (inside (s_addr s) sizeof_mfree x)) as [Hi|Hi].
  - by rewrite fill_in.
  - rewrite fill_out by done. apply (b_zero k (s :: S) Hb s ltac:(by left) Hz). unfold inside, sizeof_mfree in *. lia.
Qed.

Definition page_split (s : slot) (lo pb pe hi : Z) : Prop :=
  (lo = 0 \/ 24 <= lo < 8192) /\ (hi = 0 \/ 24 <= hi < 8192) /\ lo mod 8 = 0 /\ hi mod 8 = 0 /\
  s_addr s + lo = pb /\ pe + hi = s_addr s + s_size s /\ pb < pe /\ pb mod 4096 = 0 /\ pe mod 4096 = 0.

Lemma part_slot s p n :
  slot_ok s -> s_addr s <= p -> p + n <= s_addr s + s_size s -> p mod 8 = 0 -> n mod 8 = 0 ->
  (n = 0 \/ 24 <= n < 8192) -> n = 0 \/ slot_ok (Slot p n (s_attr s)) /\ small (Slot p n (s_attr s)).
Proof.
  intros (Ha & Hs & Hm & Hb & Hl & Hh) H1 H2 H3 H4 [->|H5]; [by left|right]. split; [|cbv [small s_size]; pow_num; lia].
  split_and!; cbn [s_addr s_size s_attr]; try done; lia.
Qed.

Lemma far_sub s p n a s' : s_addr s <= p -> p + n <= s_addr s + s_size s -> far s s' -> far (Slot p n a) s'.
Proof. unfold far. cbn [s_addr s_size]. lia. Qed.
Lemma good_cont k S c : good k S -> (forall x, free_in S x -> c x = cont k x) -> good (set_cont c k) S.
Proof. intros [Hb Ht Hl] Hc. split; [|done|done]. apply (body_frame k); try done. apply Hb. Qed.

(** The two ends of the range are put back. *)
Lemma ends_ok k s S pf lo pb pe hi :
  good k S -> Forall small S -> 0 < mh_lock (heap k) -> slot_ok s -> (forall s', s' ∈ S -> far s s') ->
  page_split s lo pb pe hi -> plain pf -> s_attr s = GFP_GTPAGEATTR pf ->
  (wants_zero pf = true -> zero (cont k) (s_addr s) (s_size s)) -> (forall x, in_slot s x -> mapped (src k) x) ->
  exists k' S', (let! k := if lo =? 0 then Ret k else mheap_release_nomerge (s_addr s) lo pf k in
      if hi =? 0 then Ret k else mheap_release_nomerge pe hi pf k) = Ret k' /\
    good k' S' /\ Forall small S' /\ src k' = src k /\ mh_lock (heap k') = mh_lock (heap k) /\
    (forall x, free_in S' x <-> inside (s_addr s) lo x \/ inside pe hi x \/ free_in S x) /\
    (forall x, ~ inside (s_addr s) lo x -> ~ inside pe hi x -> cont k' x = cont k x) /\
    (lo <> 0 -> Slot (s_addr s) lo (s_attr s) ∈ S') /\ (hi <> 0 -> Slot pe hi (s_attr s) ∈ S').
Proof.
  intros Hg Hsm Hlk Hs Hfar (Hlo & Hhi & Hlo8 & Hhi8 & Hpb & Hpe & Hlt & Hpbm & Hpem) Hp Hat Hz Hm.
  pose proof Hs as (Ha8 & Hs8 & _).
  destruct (part_ok k S (s_addr s) lo (s_attr s) pf Hg Hlk) as (k1 & E1 & Hg1 & Hl1); try done.
  { apply part_slot; try done; lia. }
  { intros s' Hs'. apply (far_sub s); [lia|lia|by apply Hfar]. }
  { intros Hw x Hx. apply (Hz Hw). unfold inside in *. lia. }
  { intros x Hx. apply Hm. unfold in_slot, inside in *. lia. }
  rewrite E1. cbn [obind]. destruct Hl1 as (Hsr1 & Hlk1 & _ & _ & Hc1). cbn [s_addr] in Hc1.
  assert (Hc1' : forall x, ~ inside (s_addr s) lo x -> cont k1 x = cont k x).
  { intros x Hx. destruct (Z.eq_dec lo 0) as [->|].
    - rewrite Z.eqb_refl in E1. by injection E1 as <-.
    - apply Hc1. unfold inside in *. lia. }
  destruct (part_ok k1 (part (s_addr s) lo (s_attr s) ++ S) pe hi (s_attr s) pf Hg1) as (k2 & E2 & Hg2 & Hl2); try done.
  { by rewrite Hlk1. }
  { apply part_slot; try done; try lia. mlia. }
  { intros s' Hs'. unfold part in Hs'. apply elem_of_app in Hs' as [Hs'|Hs'].
    - destruct (Z.eqb_spec lo 0); [by apply elem_of_nil in Hs'|]. apply elem_of_cons in Hs' as [->|Hs']; [|by apply elem_of_nil in Hs'].
      right. cbn [s_addr s_size]. lia.
    - apply (far_sub s); [lia|lia|by apply Hfar]. }
  { intros Hw x Hx. rewrite Hc1' by (unfold inside in *; lia). apply (Hz Hw). unfold inside in *. lia. }
  { intros x Hx. rewrite Hsr1. apply Hm. unfold in_slot, inside in *. lia. }
  destruct Hl2 as (Hsr2 & Hlk2 & _ & _ & Hc2). cbn [s_addr] in Hc2.
  eexists k2, _. split; [exact E2|]. split; [exact Hg2|]. split_and!.
  - assert (Hpt : forall p n, (n = 0 \/ 24 <= n < 8192) -> Forall small (part p n (s_attr s))).
    { intros p n Hn. unfold part. destruct (Z.eqb_spec n 0); [constructor|]. constructor; [|constructor].
      cbv [small s_size]. pow_num. lia. }
    apply Forall_app. split; [by apply Hpt|]. apply Forall_app. split; [by apply Hpt|done].
  - congruence.
  - congruence.
  - intros x. rewrite !free_part by lia. tauto.
  - intros x Hx1 Hx2. rewrite <- Hc1' by done. destruct (Z.eq_dec hi 0) as [->|].
    + rewrite Z.eqb_refl in E2. by injection E2 as <-.
    + apply Hc2. unfold inside in *. lia.
  - intros Hne. apply elem_of_app. right. apply elem_of_app. left. unfold part. apply Z.eqb_neq in Hne. rewrite Hne. by left.
  - intros Hne. apply elem_of_app. left. unfold part. apply Z.eqb_neq in Hne. rewrite Hne. by left.
Qed.

Lemma free_far s S x : (forall s', s' ∈ S -> far s s') -> free_in S x -> ~ in_slot s x.
Proof. intros Hf (s' & Hs' & Hi) Hx. by apply (far_in s s' x (Hf s' Hs')). Qed.

(** The range is out of the heap, and its controller cleared if it is to be zero. *)
Lemma unlink_clear k s S path semi level z :
  good k (s :: S) -> located (mh_addr (heap k)) path semi level s -> (z = true -> is_zero (s_attr s) = true) ->
  exists k1, tree_pop path semi level (set_size (list_remove (s_addr s) (mh_size (heap k))) k) = Ret k1 /\
    let k2 := if z then clear (s_addr s) sizeof_mfree k1 else k1 in
    good k2 S /\ src k2 = src k /\ mh_lock (heap k2) = mh_lock (heap k) /\
    (forall x, ~ in_slot s x -> cont k2 x = cont k x) /\ (z = true -> zero (cont k2) (s_addr s) (s_size s)).
Proof.
  intros Hg Hloc Hz. pose proof (g_body _ _ Hg) as Hb. pose proof (b_ok _ _ Hb) as Ho. apply Forall_cons in Ho as [Hs Ho].
  pose proof (apart_tail _ _ (b_far _ _ Hb)) as [_ Hfar]. destruct Hs as (_ & _ & H24 & _).
  destruct (unlink_ok k s S path semi level Hg Hloc) as (t' & E & Hg1). eexists. split; [exact E|]. cbv zeta.
  destruct z; [|done].
  assert (Hh : forall x, inside (s_addr s) sizeof_mfree x -> in_slot s x).
  { intros x. unfold in_slot, inside, sizeof_mfree. lia. }
  split_and!; try done.
  - apply good_cont; [done|]. intros x Hx. apply fill_out. intros Hi. by apply (free_far s S x Hfar Hx), Hh.
  - intros x Hx. apply fill_out. intros Hi. by apply Hx, Hh.
  - intros _. apply (cleared_zero k s S true); auto.
Qed.

(** Pages that are no longer free are given back. *)
Lemma give_pages_ok k S pb n pf u :
  good k S -> Forall small S -> 0 < mh_lock (heap k) -> accepts pf -> 0 < n -> pb mod 4096 = 0 -> n mod 4096 = 0 ->
  (forall x, inside pb n x -> mapped (src k) x /\ ~ free_in S x) -> (wants_zero pf = true -> zero (cont k) pb n) ->
  exists k', (let! k := end_if u k in
      let! (s, c) := core_page_free pb n pf (src k) (cont k) in Ret (State (heap k) (hdr k) s c)) = Ret k' /\
    settled u k (fun x => used k x /\ ~ inside pb n x) k' /\
    mh_addr (heap k') = mh_addr (heap k) /\ forall x, mapped (src k') x <-> mapped (src k) x /\ ~ inside pb n x.
Proof.
  intros Hg Hsm Hlk Hacc Hn Hpb Hnm Hm Hz. rewrite end_if_ok by lia. cbn [obind].
  destruct (page_free_ok pb n pf (src k) (cont k)) as (s' & c' & E4 & Hso & Hm4 & Hc4); try done.
  { apply (g_body _ _ Hg). }
  { intros x Hx. by apply Hm. }
  cbn [set_lock set_heap src cont hdr heap]. rewrite E4. cbn [obind]. eexists. split; [done|].
  assert (Hg4 : good (State (heap (set_lock (mh_lock (heap k) - Z.b2z u) k)) (hdr k) s' c') S).
  { destruct (good_lock k S (mh_lock (heap k) - Z.b2z u) Hg) as [Hb4 Ht4 Hl4]; [destruct u; cbn [Z.b2z]; lia|].
    split; [|exact Ht4|exact Hl4].
    apply (body_src (set_lock (mh_lock (heap k) - Z.b2z u) k)); [exact Hb4|done|].
    intros x Hx. assert (Hmx : mapped s' x); [|split; [done|by apply Hc4]].
    apply Hm4. split; [by apply (b_mapped _ _ (g_body _ _ Hg))|]. intros Hi. by apply (Hm x Hi). }
  split; [|split; [done|exact Hm4]]. split; [by exists S|]. split; [done|].
  assert (Hu : forall x, used (State (heap (set_lock (mh_lock (heap k) - Z.b2z u) k)) (hdr k) s' c') x <->
    used k x /\ ~ inside pb n x).
  { intros x. rewrite (used_slots _ _ _ (g_tree _ _ Hg4)), (used_slots _ _ _ (g_tree _ _ Hg)). cbn [src].
    rewrite Hm4. tauto. }
  split; [done|]. intros x Hx. apply Hu in Hx as [Hx _]. by apply Hc4.
Qed.

Lemma attr_of k s S : good k (s :: S) -> MFREE_ATTR k (s_addr s) = s_attr s /\ MFREE_SIZE k (s_addr s) = s_size s.
Proof. intros Hg. unfold MFREE_ATTR, MFREE_SIZE. by rewrite (b_hdr _ _ (g_body _ _ Hg) s ltac:(by left)). Qed.

Lemma unmap_pages_ok k s S path semi level flags lo pb pe hi u :
  good k (s :: S) -> Forall small S -> located (mh_addr (heap k)) path semi level s ->
  0 < mh_lock (heap k) -> plain flags -> accepts flags -> page_split s lo pb pe hi ->
  exists k', unmap_pages (s_addr s) path semi level flags lo pb pe hi u k = Ret k' /\ settled u k (used k) k' /\
    (forall x, mapped (src k') x <-> mapped (src k) x /\ ~ inside pb (pe - pb) x) /\
    (lo <> 0 -> free_range k' (s_addr s) pb) /\ (hi <> 0 -> free_range k' pe (pe + hi)).
Proof.
  intros Hg Hsm Hloc Hlk Hp Hacc Hsp. pose proof (g_body _ _ Hg) as Hb.
  pose proof (b_ok _ _ Hb) as Ho. apply Forall_cons in Ho as [Hs Ho]. pose proof Hs as (_ & _ & _ & Hbit & _).
  pose proof (apart_tail _ _ (b_far _ _ Hb)) as [_ Hfar].
  assert (Hmap : forall x, in_slot s x -> mapped (src k) x).
  { intros x Hx. apply (b_mapped _ _ Hb). apply free_cons. by left. }
  unfold unmap_pages. rewrite (proj1 (attr_of _ _ _ Hg)), Z.lor_comm.
  set (pf := Z.lor (no_calloc flags) (GFP_STPAGEATTR (s_attr s))).
  destruct (mix_flags flags (s_attr s) Hp Hbit) as [Hpp Hpz]. fold pf in Hpp, Hpz.
  assert (Hgt : s_attr s = GFP_GTPAGEATTR pf) by (by apply mix_attr).
  destruct (unlink_clear k s S path semi level (wants_zero pf) Hg Hloc) as (k1 & E1 & Hg2 & Hsr2 & Hlk2 & Hct2 & Hz2);
    [by rewrite Hpz|]. rewrite E1. cbn [obind]. cbv zeta. set (k2 := if wants_zero pf then _ else _) in *.
  destruct (ends_ok k2 s S pf lo pb pe hi) as (k3 & S' & E3 & Hg3 & Hsm3 & Hsr3 & Hlk3 & Hf3 & Hc3 & Hlo3 & Hhi3); try done.
  { by rewrite Hlk2. }
  { by rewrite Hsr2. }
  erewrite obind_ret by exact E3. destruct Hsp as (Hlo & Hhi & Hlo8 & Hhi8 & Hpb & Hpe & Hlt & Hpbm & Hpem).
  assert (Hsplit : forall x, in_slot s x <-> inside (s_addr s) lo x \/ inside pb (pe - pb) x \/ inside pe hi x).
  { intros x. unfold in_slot, inside. lia. }
  assert (Hdis : forall x, inside pb (pe - pb) x -> ~ inside (s_addr s) lo x /\ ~ inside pe hi x).
  { intros x. unfold inside. lia. }
  destruct (give_pages_ok k3 S' pb (pe - pb) pf u) as (k4 & E4 & (Hi4 & Hl4 & Hu4 & Hc4) & Ha4 & Hm4);
    try done; try lia; try mlia.
  { by apply accepts_mix. }
  { intros x Hx. destruct (Hdis x Hx) as [H1 H2]. rewrite Hsr3, Hsr2, Hf3. split.
    - apply Hmap, Hsplit. tauto.
    - intros [?|[?|?]]; [done|done|]. eapply free_far; [done|done|]. apply Hsplit. tauto. }
  { intros Hz x Hx. destruct (Hdis x Hx) as [H1 H2]. rewrite Hc3 by done. apply (Hz2 Hz). apply Hsplit. tauto. }
  exists k4. split; [exact E4|].
  assert (Hu : forall x, used k3 x /\ ~ inside pb (pe - pb) x <-> used k x).
  { intros x. rewrite (used_slots _ _ _ (g_tree _ _ Hg3)), (used_slots _ _ _ (g_tree _ _ Hg)).
    rewrite Hsr3, Hsr2, Hf3, free_cons, Hsplit. tauto. }
  split; [|split; [intros x; by rewrite Hm4, Hsr3, Hsr2|]].
  2: { unfold free_range. rewrite Ha4. split; intros Hne; [rewrite <- Hpb|];
         [apply (range_of k3 S' (Slot (s_addr s) lo (s_attr s)))|apply (range_of k3 S' (Slot pe hi (s_attr s)))];
         (apply Hg3 || auto). }
  split_and!; [done|lia|intros x; by rewrite Hu4, Hu|].
  intros x Hx. rewrite Hc4 by (by apply Hu). rewrite (used_slots _ _ _ (g_tree _ _ Hg)), free_cons, Hsplit in Hx.
  rewrite Hc3 by tauto. apply Hct2. rewrite Hsplit. tauto.
Qed.

Lemma end_settled k S u :
  good k S -> Forall small S -> 0 < mh_lock (heap k) ->
  exists k', end_if u k = Ret k' /\ settled u k (used k) k'.
Proof.
  intros Hg Hsm Hlk. rewrite end_if_ok by done. eexists. split; [done|]. split_and!; try done.
  exists S. split; [|done]. apply good_lock; [done|]. destruct u; cbn [Z.b2z]; lia.
Qed.

Lemma located_slot k path semi level s : located (mh_addr (heap k)) path semi level s -> slot_at k path = Some (s_addr s).
Proof. intros [(mn & mx & E) _]. unfold slot_at. by rewrite E. Qed.
Lemma end_of k s S : good k (s :: S) -> MFREE_END k (s_addr s) = s_addr s + s_size s.
Proof.
  intros Hg. unfold MFREE_END. rewrite (proj2 (attr_of _ _ _ Hg)). apply uptr_id.
  pose proof (b_ok _ _ (g_body _ _ Hg)) as Ho. apply Forall_cons in Ho as [(_ & _ & ? & _ & ? & ?) _]. pow_num. lia.
Qed.

Lemma unmapfree_ok k s S path semi level flags u :
  good k (s :: S) -> Forall small S -> located (mh_addr (heap k)) path semi level s ->
  0 < mh_lock (heap k) -> plain flags -> accepts flags ->
  exists k', mheap_unmapfree path semi level flags u k = Ret k' /\ settled u k (used k) k' /\
    returned (mh_freethresh (heap k)) k (s_addr s) (s_addr s + s_size s) k'.
Proof.
  intros Hg Hsm Hloc Hlk Hp Hacc. pose proof (b_ok _ _ (g_body _ _ Hg)) as Ho.
  apply Forall_cons in Ho as [(Ha & Hs & H24 & _ & Hl & Hh) _]. pow_num.
  destruct (b_conf _ _ (g_body _ _ Hg)) as (_ & _ & Hth & _).
  assert (Hend : s_size s < 2 ^ 30 -> s_size s < mh_freethresh (heap k) \/ s_size s < 4 * 4096 ->
    exists k', end_if u k = Ret k' /\ settled u k (used k) k' /\
      returned (mh_freethresh (heap k)) k (s_addr s) (s_addr s + s_size s) k').
  { intros Hsz Hno. destruct (end_settled k (s :: S) u) as (k' & E & Hse); [done|by constructor|done|].
    exists k'. split; [done|]. split; [done|]. rewrite end_if_ok in E by done. injection E as <-.
    exists (s_addr s), (s_addr s). split_and!; try lia.
    - intros x. cbn. unfold inside. split; [|tauto]. split; [done|lia].
    - intros _. apply (range_of _ (s :: S)); [apply Hg|by left]. }
  pow_num. unfold mheap_unmapfree, mheap_writing. rewrite (proj2 (Z.ltb_lt _ _)) by done. cbn [oassert].
  rewrite (located_slot _ _ _ _ _ Hloc), (proj2 (attr_of _ _ _ Hg)), (end_of _ _ _ Hg).
  rewrite !(proj2 (aligned8 _)) by done. cbn [oassert].
  destruct (Z.leb_spec (mh_freethresh (heap k)) (s_size s)) as [Hge|]; [|apply Hend; lia].
  destruct (ceil_page (2 ^ 32) (s_addr s)) as [Hpb Hpb']; [lia|pow_num; unfold PAGESIZE; lia|].
  destruct (floor_page (s_addr s + s_size s)) as (Hpe & Hpe' & _); [lia|]. pow_num.
  set (pb := CEIL_ALIGN _ _ _) in *. set (pe := FLOOR_ALIGN _ _) in *.
  assert (pb <= pe) by mlia. rewrite !(proj2 (Z.leb_le _ _)) by lia. cbn [oassert].
  destruct (Z.eqb_spec pb pe) as [|Hne]; [apply Hend; lia|].
  rewrite !(proj2 (aligned8 _)) by mlia. cbn [oassert]. rewrite MIN_24. unfold PAGESIZE.
  assert (pb + 4096 <= pe) by mlia.
  destruct (negb (pb - s_addr s =? 0) && (pb - s_addr s <? 24)) eqn:El; cbv iota zeta.
  all: match goal with |- context [if ?a =? ?b then _ else _] => destruct (Z.eqb_spec a b); [first [lia|apply Hend; lia]|] end.
  all: destruct (negb (s_addr s + s_size s - pe =? 0) && (s_addr s + s_size s - pe <? 24)) eqn:Eh; cbv iota zeta.
  all: match goal with |- context [if ?a =? ?b then _ else _] => destruct (Z.eqb_spec a b); [first [lia|apply Hend; lia]|] end.
  all: rewrite (proj2 (Z.leb_le _ _)) by mlia; cbn [oassert].
  all: match goal with |- context [unmap_pages _ _ _ _ _ ?lo ?pb ?pe ?hi] =>
    destruct (unmap_pages_ok k s S path semi level flags lo pb pe hi u) as (k' & E & Hse & Hm & Hlo & Hhi); try done;
      [split_and!; [lia|lia|mlia|mlia|lia|lia|mlia|mlia|mlia]|]; exists k'; split; [exact E|]; split; [exact Hse|];
      exists pb, pe; assert (pb <= pe) by mlia; replace (pe + hi) with (s_addr s + s_size s) in Hhi by lia end.
  all: split_and!; [lia|lia|lia|exact Hm|lia| |lia].
  all: intros Hlt; split_and!; [mlia|mlia|lia|intros ?; apply Hlo; lia|intros ?; apply Hhi; lia].
Qed.

(** ** Merging *)

Definition outside (s : slot) (S : list slot) k x : Prop := mapped (src k) x /\ ~ free_in (s :: S) x.

Lemma settled_used u k U V k' : settled u k U k' -> (forall x, U x <-> V x) -> settled u k V k'.
Proof.
  intros (H1 & H2 & H3 & H4) H. split_and!; try done.
  - intros x. by rewrite H3, H.
  - intros x Hx. by apply H4, H.
Qed.

(** The controller of [s] says what it should; [s] is in the lists where it was when it was smaller. *)
Lemma reinsert_ok k s s0 S size0 flags u :
  body k (s :: S) -> tree_of (mh_addr (heap k)) S -> lists_of size0 (mh_size (heap k)) (s0 :: S) ->
  s_addr s0 = s_addr s -> (forall s', s' ∈ S -> MFREE_SIZE k (s_addr s') = size0 (s_addr s')) ->
  size0 (s_addr s) <= s_size s -> Forall small S -> 0 < mh_lock (heap k) -> plain flags -> accepts flags ->
  exists k', reinsert (s_addr s) flags u k = Ret k' /\ settled u k (outside s S k) k' /\
    returned (mh_freethresh (heap k)) k (s_addr s) (s_addr s + s_size s) k'.
Proof.
  intros Hb Ht Hl Ha0 Hsz Hle Hsm Hlk Hp Hacc. pose proof (b_ok _ _ Hb) as Ho. apply Forall_cons in Ho as [Hs Ho].
  pose proof (apart_tail _ _ (b_far _ _ Hb)) as [_ Hfar].
  assert (Hme : MFREE_SIZE k (s_addr s) = s_size s) by (unfold MFREE_SIZE; by rewrite (b_hdr _ _ Hb s ltac:(by left))).
  unfold reinsert. rewrite (node_leaf k s Hs Hme).
  destruct (pinsert_slot _ S s Ht Hs Hfar) as (path & semi & level & t' & E & Hloc & Ht'). rewrite E. cbn [obind].
  set (k1 := set_size _ _).
  assert (Hg : good k1 (s :: S)).
  { split; [|exact Ht'|].
    - apply (body_frame k); try done. apply Hb.
    - apply (fix_lists size0 _ _ s0 s S); try done; [by eapply body_nodup|].
      change (MFREE_SIZE k1 (s_addr s)) with (MFREE_SIZE k (s_addr s)). by rewrite Hme. }
  destruct (unmapfree_ok k1 s S path semi level flags u) as (k' & E' & Hse & Hret); try done.
  exists k'. split; [exact E'|]. split; [|exact Hret].
  destruct Hse as (H1 & H2 & H3 & H4). split_and!; try done.
  - intros x. rewrite H3. by rewrite (used_slots _ _ _ (g_tree _ _ Hg)).
  - intros x Hx. rewrite H4; [done|]. by rewrite (used_slots _ _ _ (g_tree _ _ Hg)).
Qed.

Lemma pattern_rest p n k :
  heap (pattern debug_init p n k) = heap k /\ hdr (pattern debug_init p n k) = hdr k /\
  src (pattern debug_init p n k) = src k /\ forall x, ~ inside p n x -> cont (pattern debug_init p n k) x = cont k x.
Proof.
  unfold pattern. destruct debug_init; [|done]. split_and!; try done. intros x Hx. by apply fill_out.
Qed.

(** Memory that stops to be zero is overwritten. *)
Lemma patterns_ok (z w : bool) q1 n1 q2 n2 k :
  let k2 := if z && negb w then pattern debug_init q1 n1 k else k in
  let k3 := if w && negb z then pattern debug_init q2 n2 k2 else k2 in
  heap k3 = heap k /\ hdr k3 = hdr k /\ src k3 = src k /\
  (forall x, ~ inside q1 n1 x -> ~ inside q2 n2 x -> cont k3 x = cont k x) /\ (z && w = true -> k3 = k).
Proof.
  destruct (pattern_rest q1 n1 k) as (H1 & H2 & H3 & H4), (pattern_rest q2 n2 k) as (I1 & I2 & I3 & I4).
  destruct z, w; cbn [negb andb]; split_and!; auto; done.
Qed.

Lemma far_points s1 s2 :
  0 < s_size s1 -> 0 < s_size s2 -> (forall x, in_slot s1 x -> ~ in_slot s2 x) -> far s1 s2.
Proof.
  intros H1 H2 H. unfold far. specialize (H (Z.max (s_addr s1) (s_addr s2))). unfold in_slot, inside in H. lia.
Qed.

(** A range [s0] has become [s] with the memory at [p]. *)
Lemma merge_body k k' s0 s S p n :
  body k (s0 :: S) -> (forall x, inside p n x -> mapped (src k) x /\ ~ free_in (s0 :: S) x) -> slot_ok s ->
  (forall x, in_slot s x <-> in_slot s0 x \/ inside p n x) ->
  hdr k' (s_addr s) = Mfree (s_size s) (s_attr s) -> (forall s', s' ∈ S -> hdr k' (s_addr s') = hdr k (s_addr s')) ->
  src k' = src k -> conf (heap k') -> (forall x, ~ in_slot s x -> cont k' x = cont k x) ->
  (is_zero (s_attr s) = true -> zero (cont k') (s_addr s + 20) (s_size s - 20)) -> body k' (s :: S).
Proof.
  intros Hb Hm Hs Hin Hh Hhr Hsr Hcf Hc Hz. pose proof (b_ok _ _ Hb) as Ho. apply Forall_cons in Ho as [_ Ho].
  rewrite Forall_forall in Ho. pose proof (apart_tail _ _ (b_far _ _ Hb)) as [_ Hfar].
  assert (Hdis : forall x, free_in S x -> ~ in_slot s x).
  { intros x Hx. rewrite Hin. intros [Hi|Hi]; [by eapply free_far|]. apply (Hm x Hi), free_cons. by right. }
  apply body_cons; try done.
  - apply (body_frame k); try done; [by eapply body_tail|]. intros x Hx. by apply Hc, Hdis.
  - intros s' Hs'. apply far_points.
    + destruct Hs as (_ & _ & ? & _). lia.
    + destruct (Ho s' Hs') as (_ & _ & ? & _). lia.
    + intros x Hi Hi'. apply (Hdis x); [by exists s'|done].
  - intros x. rewrite Hin, Hsr. intros [Hi|Hi]; [|by apply Hm]. apply (b_mapped _ _ Hb), free_cons. by left.
Qed.
Lemma merge_used k k' s0 s S p n x :
  good k (s0 :: S) -> src k' = src k -> (forall x, in_slot s x <-> in_slot s0 x \/ inside p n x) ->
  outside s S k' x <-> used k x /\ ~ inside p n x.
Proof.
  intros Hg Hsr Hin. unfold outside. rewrite (used_slots _ _ _ (g_tree _ _ Hg)), Hsr, !free_cons, Hin. tauto.
Qed.

(** The flags of memory that is merged with a range with the attributes [a]. *)
Lemma merge_flags flags a :
  plain flags -> accepts flags -> bit_attr a -> let f := if is_zero a then flags else no_calloc flags in
  plain f /\ accepts f /\ bit_attr (GFP_GTPAGEATTR f) /\ is_zero (GFP_GTPAGEATTR f) = is_zero a && wants_zero flags.
Proof.
  intros Hp Hacc Ha. cbv zeta. destruct Ha as [->| ->]; cbn [is_zero].
  - change (is_zero 0) with false. cbn [andb]. pose proof (plain_no_calloc _ Hp) as Hp'.
    destruct (attr_cases _ Hp') as [H1 H2]. rewrite wants_no_calloc in H2. split_and!; try done.
    pose proof (accepts_mix flags 0 Hacc ltac:(by left)) as H. by rewrite Z.lor_0_r in H.
  - change (is_zero 1) with true. cbn [andb]. destruct (attr_cases _ Hp). by split_and!.
Qed.

Lemma used_range k p n :
  heap_inv k -> 0 < n -> (forall x, inside p n x -> used k x) -> 4096 <= p /\ p + n <= 2 ^ 32 - 4096.
Proof.
  intros (S & Hg & _) Hn Hu. pose proof (b_src _ _ (g_body _ _ Hg)) as Hso.
  destruct (Hu p) as [H1 _]; [unfold inside; lia|]. destruct (Hu (p + n - 1)) as [H2 _]; [unfold inside; lia|].
  apply mapped_bounds in H1, H2; try done. pow_num. lia.
Qed.
Lemma used_in k S p n : good k S -> (forall x, inside p n x -> used k x) ->
  forall x, inside p n x -> mapped (src k) x /\ ~ free_in S x.
Proof. intros Hg Hu x Hx. apply (used_slots _ _ _ (g_tree _ _ Hg)). by apply Hu. Qed.

Lemma in_addr (s : slot) S : s ∈ S -> s_addr s ∈ map s_addr S.
Proof. intros Hs. by apply list_elem_of_In, in_map, list_elem_of_In. Qed.

Lemma merged_ok k k' s0 s1 s S p n size0 flags u :
  good k (s0 :: S) -> (forall x, inside p n x -> used k x) -> slot_ok s ->
  (forall x, in_slot s x <-> in_slot s0 x \/ inside p n x) ->
  hdr k' (s_addr s) = Mfree (s_size s) (s_attr s) -> (forall s', s' ∈ S -> hdr k' (s_addr s') = hdr k (s_addr s')) ->
  src k' = src k -> conf (heap k') -> (forall x, ~ in_slot s x -> cont k' x = cont k x) ->
  (is_zero (s_attr s) = true -> zero (cont k') (s_addr s + 20) (s_size s - 20)) ->
  tree_of (mh_addr (heap k')) S -> lists_of size0 (mh_size (heap k')) (s1 :: S) -> s_addr s1 = s_addr s ->
  (forall s', s' ∈ S -> size0 (s_addr s') = MFREE_SIZE k (s_addr s')) -> size0 (s_addr s) <= s_size s ->
  mh_lock (heap k') = mh_lock (heap k) -> mh_freethresh (heap k') = mh_freethresh (heap k) -> 0 < mh_lock (heap k) ->
  Forall small S -> plain flags -> accepts flags ->
  exists k'', reinsert (s_addr s) flags u k' = Ret k'' /\ settled u k (fun x => used k x /\ ~ inside p n x) k'' /\
    returned (mh_freethresh (heap k)) k (s_addr s) (s_addr s + s_size s) k''.
Proof.
  intros Hg Hu Hs Hin Hh Hhr Hsr Hcf Hc Hz Ht Hl Ha Hsz Hle Hlk Hth Hlk0 Hsm Hp Hacc.
  assert (Hb' : body k' (s :: S)).
  { apply (merge_body k _ s0 s S p n); try done; [apply Hg|by eapply used_in]. }
  destruct (reinsert_ok k' s s1 S size0 flags u) as (k'' & E' & (H1 & H2 & H3 & H4) & Hret); try done.
  { intros s2 Hs2. unfold MFREE_SIZE. rewrite Hhr, Hsz; done. }
  { by rewrite Hlk. }
  assert (Hmu : forall x, outside s S k' x <-> used k x /\ ~ inside p n x).
  { intros x. by apply (merge_used k k' s0 s S p n). }
  exists k''. split; [done|]. split; [|rewrite Hth in Hret; unfold returned in *; by rewrite Hsr in Hret].
  split_and!; [done|by rewrite H2, Hlk|intros x; by rewrite H3, Hmu|].
  intros x Hx. apply Hmu in Hx. rewrite H4 by done. apply Hc. intros Hi. apply Hx, free_cons. by left.
Qed.

(** The memory continues a range below. *)
Lemma extend_above_ok k s S path semi level p n flags u :
  good k (s :: S) -> Forall small (s :: S) -> located (mh_addr (heap k)) path semi level s ->
  s_addr s + s_size s = p -> 0 < n -> n mod 8 = 0 ->
  (forall x, inside p n x -> used k x) -> (wants_zero flags = true -> zero (cont k) p n) ->
  0 < mh_lock (heap k) -> plain flags -> accepts flags ->
  exists k', extend_above debug_init path semi level p n flags u k = Ret k' /\
    settled u k (fun x => used k x /\ ~ inside p n x) k' /\
    returned (mh_freethresh (heap k)) k (s_addr s) (p + n) k'.
Proof.
  intros Hg Hsm Hloc Hp Hn Hn8 Hu Hz Hlk Hpl Hacc. pose proof (g_body _ _ Hg) as Hb.
  destruct (attr_of _ _ _ Hg) as [Hat Hsz]. pose proof (end_of _ _ _ Hg) as Hend.
  pose proof (b_ok _ _ Hb) as Ho. apply Forall_cons in Ho as [(Ha & Hs8 & H24 & Hbit & Hl & Hh) _].
  destruct (used_range k p n) as [_ Htop]; [by exists (s :: S)|done|done|].
  destruct (merge_flags flags (s_attr s) Hpl Hacc Hbit) as (Hfp & Hfa & Hfb & Hfz).
  unfold extend_above. rewrite (located_slot _ _ _ _ _ Hloc), Hend, Hp, Z.eqb_refl. cbn [oassert].
  destruct (pop_located _ _ _ _ _ _ (g_tree _ _ Hg) Hloc) as (sub & E & Ht').
  unfold tree_pop. rewrite E. cbn [obind]. cbv zeta. set (k1 := set_addr _ k).
  change (MFREE_ATTR k1 (s_addr s)) with (MFREE_ATTR k (s_addr s)). rewrite Hat.
  set (f := if is_zero (s_attr s) then flags else no_calloc flags) in *.
  change (MFREE_SIZE k1 (s_addr s)) with (MFREE_SIZE k (s_addr s)). rewrite Hsz.
  destruct (patterns_ok (is_zero (s_attr s)) (wants_zero flags) (s_addr s + sizeof_mfree) (s_size s - sizeof_mfree) p n k1)
    as (P1 & P2 & P3 & P4 & P5). set (k3 := if wants_zero flags && negb (is_zero (s_attr s)) then _ else _) in *.
  assert (Hsz3 : MFREE_SIZE k3 (s_addr s) = s_size s) by (unfold MFREE_SIZE; by rewrite P2).
  rewrite Hsz3, uptr_id by (pow_num; lia).
  pose (s' := Slot (s_addr s) (s_size s + n) (GFP_GTPAGEATTR f)).
  assert (Hs' : slot_ok s') by (split_and!; cbn [s_addr s_size s_attr s']; try done; mlia).
  pose proof (setup_ok s' k3 Hs') as Es. cbn [s_addr s_size s_attr s'] in Es. rewrite Es. cbn [obind].
  assert (Hin : forall x, in_slot s' x <-> in_slot s x \/ inside p n x).
  { intros x. unfold in_slot, inside, s'. cbn [s_addr s_size]. lia. }
  assert (Hne : forall s2, s2 ∈ S -> s_addr s2 <> s_addr s).
  { intros s2 Hs2 Eq. apply (addr_fresh _ _ _ Hb). rewrite <- Eq. by apply in_addr. }
  replace (p + n) with (s_addr s' + s_size s') by (cbn [s_addr s_size s']; lia).
  apply (merged_ok k (with_ctrl s' k3) s s s' S p n (MFREE_SIZE k)); try done.
  - cbn. by rewrite Z.eqb_refl.
  - intros s2 Hs2. cbn. by rewrite (proj2 (Z.eqb_neq _ _) (Hne s2 Hs2)), P2.
  - cbn. rewrite P1. apply Hb.
  - intros x Hx. rewrite Hin in Hx. unfold in_slot, inside in Hx. cbn [with_ctrl cont s_addr s'].
    rewrite fill_out, P4; [done|..]; unfold inside, sizeof_mfree; lia.
  - cbn [s_attr s']. rewrite Hfz. intros Hzz. apply andb_prop in Hzz as Hzz'. destruct Hzz' as [Hz1 Hz2].
    rewrite (P5 Hzz). intros x Hx. cbn [with_ctrl cont]. rewrite fill_out by (unfold inside, sizeof_mfree in *; lia).
    cbn [s_addr s_size s'] in Hx. unfold inside in Hx. destruct (Z.lt_ge_cases x p) as [Hlt|Hge].
    + apply (b_zero _ _ Hb s ltac:(by left) Hz1). unfold inside. lia.
    + apply (Hz Hz2). unfold inside. lia.
  - cbn [with_ctrl heap]. by rewrite P1.
  - cbn [with_ctrl heap]. rewrite P1. apply Hg.
  - cbn [s_addr s_size s']. lia.
  - cbn [with_ctrl heap]. by rewrite P1.
  - cbn [with_ctrl heap]. by rewrite P1.
  - by apply Forall_cons in Hsm as [_ Hsm].
Qed.

(** What is left of the old controller is overwritten. *)
Lemma wipe_ok (z : bool) a n k :
  0 < n -> let old := if n <? sizeof_mfree then (a + (sizeof_mfree - n), n) else (a, sizeof_mfree) in
  let k' := if z then clear old.1 old.2 k else pattern debug_init old.1 old.2 k in
  heap k' = heap k /\ hdr k' = hdr k /\ src k' = src k /\
  (forall x, ~ inside a 24 x -> cont k' x = cont k x) /\
  (z = true -> forall x, cont k' x = if decide (Z.max a (a - n + 20) <= x < a + 20) then Some 0 else cont k x).
Proof.
  intros Hn old k'.
  assert (Hi : forall x, inside old.1 old.2 x <-> Z.max a (a - n + 20) <= x < a + 20).
  { intros x. unfold old, inside, sizeof_mfree. destruct (Z.ltb_spec n 20); cbn; lia. }
  assert (Ho : forall x, ~ inside a 24 x -> ~ inside old.1 old.2 x) by (intros x; rewrite Hi; unfold inside; lia).
  unfold k'. destruct z.
  - split_and!; try done.
    + intros x Hx. apply fill_out. auto.
    + intros _ x. cbn. destruct (decide _) as [Hd|Hd]; [apply fill_in; by apply Hi|apply fill_out; by rewrite Hi].
  - destruct (pattern_rest old.1 old.2 k) as (-> & -> & -> & H). split_and!; try done. intros x Hx. apply H. auto.
Qed.

(** The controller of the range [s] moves down to [p]. *)
Lemma extend_below_state k s S path semi level p n flags u :
  good k (s :: S) -> located (mh_addr (heap k)) path semi level s -> s_addr s = p + n -> 0 < n -> n mod 8 = 0 -> 4096 <= p ->
  (wants_zero flags = true -> zero (cont k) p n) -> plain flags -> accepts flags ->
  let f := if is_zero (s_attr s) then flags else no_calloc flags in
  exists k' sub, extend_below debug_init path semi level p n flags u k = reinsert p f u k' /\
    tree_of (slot_set (mh_addr (heap k)) path sub) S /\
    heap k' = heap (set_size (list_rename (s_addr s) p (mh_size (heap k))) (set_addr (slot_set (mh_addr (heap k)) path sub) k)) /\
    (forall x, hdr k' x = if x =? p then Mfree (s_size s + n) (GFP_GTPAGEATTR f) else hdr k x) /\ src k' = src k /\
    (forall x, ~ inside p (s_size s + n) x -> cont k' x = cont k x) /\
    (is_zero (GFP_GTPAGEATTR f) = true -> zero (cont k') (p + 20) (s_size s + n - 20)).
Proof.
  intros Hg Hloc Hp Hn Hn8 Hbot Hz Hpl Hacc f. pose proof (g_body _ _ Hg) as Hb. destruct (attr_of _ _ _ Hg) as [Hat Hsz].
  pose proof (b_ok _ _ Hb) as Ho. apply Forall_cons in Ho as [(Ha & Hs8 & H24 & Hbit & Hl & Hh) _].
  destruct (merge_flags flags (s_attr s) Hpl Hacc Hbit) as (Hfp & Hfa & Hfb & Hfz). fold f in Hfp, Hfa, Hfb, Hfz.
  unfold extend_below. rewrite (located_slot _ _ _ _ _ Hloc), Hsz, uptr_id, (proj2 (Z.eqb_eq _ _)) by (pow_num; lia).
  cbn [oassert]. rewrite MIN_24, (proj2 (Z.leb_le _ _)) by lia. cbn [oassert].
  destruct (pop_located _ _ _ _ _ _ (g_tree _ _ Hg) Hloc) as (sub & E & Ht').
  unfold tree_pop. rewrite E. cbn [obind]. cbv zeta. set (k1 := set_addr _ k).
  change (MFREE_ATTR k1 (s_addr s)) with (MFREE_ATTR k (s_addr s)). rewrite Hat.
  change (MFREE_SIZE k1 (s_addr s)) with (MFREE_SIZE k (s_addr s)). rewrite Hsz. fold f. set (k1' := set_cont _ k1).
  destruct (patterns_ok (is_zero (s_attr s)) (wants_zero flags) (s_addr s + sizeof_mfree) (s_size s - sizeof_mfree)
    (p + sizeof_mfree) n k1') as (P1 & P2 & P3 & P4 & P5).
  set (k3 := if wants_zero flags && negb (is_zero (s_attr s)) then _ else _) in *. rewrite uptr_id by (pow_num; lia).
  assert (Hs' : slot_ok (Slot p (s_size s + n) (GFP_GTPAGEATTR f))).
  { split_and!; cbn [s_addr s_size s_attr]; try done; try lia; mlia. }
  pose proof (setup_ok _ k3 Hs') as Es. cbn [s_addr s_size s_attr] in Es. rewrite Es. cbn [obind]. set (k4 := set_size _ _).
  assert (H4 : MFREE_SIZE k4 p = s_size s + n /\ MFREE_ATTR k4 p = GFP_GTPAGEATTR f).
  { unfold MFREE_SIZE, MFREE_ATTR. cbn. by rewrite Z.eqb_refl. }
  destruct H4 as [-> ->]. rewrite (proj2 (aligned8 _)) by mlia. cbn [oassert].
  destruct (wipe_ok (is_zero (GFP_GTPAGEATTR f)) (s_addr s) n k4 ltac:(lia)) as (W1 & W2 & W3 & W4 & W5).
  set (k5 := if is_zero (GFP_GTPAGEATTR f) then _ else _) in *. rewrite Hp in W4, W5. exists k5, sub.
  split; [done|]. split; [done|]. split; [rewrite W1; cbn; by rewrite P1|]. split; [intros x; rewrite W2; cbn; by rewrite P2|].
  split; [rewrite W3; exact P3|]. cbn [k4 set_size set_heap with_ctrl cont s_addr s_size] in *. split.
  - intros x Hx. unfold inside in Hx. rewrite W4 by (unfold inside; lia).
    rewrite fill_out, P4 by (unfold inside, sizeof_mfree; lia). cbn. apply fill_out. unfold inside, sizeof_mfree. lia.
  - intros Hzz x Hx. rewrite W5 by done. rewrite Hfz in Hzz. destruct (decide _) as [|Ho]; [done|].
    rewrite fill_out by (unfold inside, sizeof_mfree in *; lia). rewrite (P5 Hzz). cbn.
    rewrite fill_out by (unfold inside, sizeof_mfree in *; lia). apply andb_prop in Hzz as [Hz1 Hz2].
    destruct (Z.lt_ge_cases x (p + n)) as [Hlt|Hge].
    + apply (Hz Hz2). unfold inside in *. lia.
    + apply (b_zero _ _ Hb s ltac:(by left) Hz1). unfold inside in *. lia.
Qed.

(** The memory is continued by a range. *)
Lemma extend_below_ok k s S path semi level p n flags u :
  good k (s :: S) -> Forall small (s :: S) -> located (mh_addr (heap k)) path semi level s ->
  s_addr s = p + n -> 0 < n -> n mod 8 = 0 ->
  (forall x, inside p n x -> used k x) -> (wants_zero flags = true -> zero (cont k) p n) ->
  0 < mh_lock (heap k) -> plain flags -> accepts flags ->
  exists k', extend_below debug_init path semi level p n flags u k = Ret k' /\
    settled u k (fun x => used k x /\ ~ inside p n x) k' /\
    returned (mh_freethresh (heap k)) k p (s_addr s + s_size s) k'.
Proof.
  intros Hg Hsm Hloc Hp Hn Hn8 Hu Hz Hlk Hpl Hacc. pose proof (g_body _ _ Hg) as Hb. pose proof (b_ok _ _ Hb) as Ho.
  apply Forall_cons in Ho as [(Ha & Hs8 & H24 & Hbit & Hl & Hh) Ho]. rewrite Forall_forall in Ho.
  destruct (used_range k p n) as [Hbot _]; [by exists (s :: S)|done|done|].
  destruct (merge_flags flags (s_attr s) Hpl Hacc Hbit) as (Hfp & Hfa & Hfb & Hfz).
  destruct (extend_below_state k s S path semi level p n flags u Hg Hloc Hp Hn Hn8 Hbot Hz Hpl Hacc)
    as (k' & sub & -> & Ht & Eh & Ed & Es & Hc & Hzz).
  set (f := if is_zero (s_attr s) then flags else no_calloc flags) in *.
  pose (s' := Slot p (s_size s + n) (GFP_GTPAGEATTR f)).
  assert (Hin : forall x, in_slot s' x <-> in_slot s x \/ inside p n x).
  { intros x. unfold in_slot, inside, s'. cbn [s_addr s_size]. lia. }
  assert (Hne' : forall s2, s2 ∈ S -> s_addr s2 <> p).
  { intros s2 Hs2 Eq. destruct (used_in _ _ p n Hg Hu p ltac:(unfold inside; lia)) as [_ Hf]. apply Hf, free_cons. right.
    exists s2. split; [done|]. destruct (Ho s2 Hs2) as (_ & _ & ? & _). unfold in_slot, inside. lia. }
  replace (s_addr s + s_size s) with (s_addr s' + s_size s') by (cbn [s_addr s_size s']; lia).
  change p with (s_addr s') at 1 3.
  apply (merged_ok k k' s s' s' S p n (fun x => if x =? p then MFREE_SIZE k (s_addr s) else MFREE_SIZE k x)); try done.
  - split_and!; cbn [s_addr s_size s_attr s']; try done; try lia; mlia.
  - rewrite Ed. cbn [s_addr s']. by rewrite Z.eqb_refl.
  - intros s2 Hs2. by rewrite Ed, (proj2 (Z.eqb_neq _ _) (Hne' s2 Hs2)).
  - rewrite Eh. apply Hb.
  - by rewrite Eh.
  - rewrite Eh. apply (rename_lists (MFREE_SIZE k) _ s s' S); [apply Hg|by eapply addr_fresh|].
    intros Hx. apply list_elem_of_In, in_map_iff in Hx as (s2 & Eq & Hs2). apply list_elem_of_In in Hs2. by apply (Hne' s2).
  - intros s2 Hs2. by rewrite (proj2 (Z.eqb_neq _ _) (Hne' s2 Hs2)).
  - cbn [s_addr s_size s']. rewrite Z.eqb_refl, (proj2 (attr_of _ _ _ Hg)). lia.
  - by rewrite Eh.
  - by rewrite Eh.
  - by apply Forall_cons in Hsm as [_ Hsm].
Qed.

(** ** Releasing *)

Lemma attr_mask flags : plain flags -> (Z.land (GFP_GTPAGEATTR flags) (Z.lnot MFREE_ATTRMASK) =? 0) = true.
Proof. intros Hp. destruct (attr_cases flags Hp) as [[->| ->] _]; done. Qed.

Lemma release_new k S p n flags u :
  good k S -> Forall small S -> 24 <= n < 2 ^ 30 -> p mod 8 = 0 -> n mod 8 = 0 ->
  (forall x, inside p n x -> used k x) -> (wants_zero flags = true -> zero (cont k) p n) ->
  0 < mh_lock (heap k) -> plain flags ->
  exists k', (let! k := mheap_release_nomerge p n flags k in end_if u k) = Ret k' /\
    settled u k (fun x => used k x /\ ~ inside p n x) k' /\ src k' = src k /\ free_range k' p (p + n).
Proof.
  intros Hg Hsm Hn Hp8 Hn8 Hu Hz Hlk Hpl. pose (s := Slot p n (GFP_GTPAGEATTR flags)).
  destruct (used_range k p n) as [Hbot Htop]; [by exists S|lia|done|].
  assert (Hs : slot_ok s) by (split_and!; cbn [s_addr s_size s_attr s]; try done; try lia; by apply attr_cases).
  pose proof (used_in _ _ _ _ Hg Hu) as Hui.
  assert (Hsms : small s) by apply Hn.
  pose proof (b_ok _ _ (g_body _ _ Hg)) as Ho. rewrite Forall_forall in Ho.
  destruct (nomerge_ok k S s flags) as (k1 & E1 & Hg1 & Hl1); try done.
  { intros s' Hs'. destruct (Ho s' Hs') as (_ & _ & ? & _). apply far_points; [cbn [s_size s]; lia|lia|].
    intros x Hx Hx'. apply (Hui x Hx). by exists s'. }
  { intros Hw x Hx. apply (Hz Hw). unfold inside in *. cbn [s_addr s_size s] in Hx. lia. }
  { intros x Hx. by apply Hui. }
  cbn [s_addr s_size s] in E1. rewrite E1. cbn [obind]. destruct Hl1 as (L1 & L2 & _ & _ & L3).
  destruct (end_settled k1 (s :: S) u Hg1) as (k' & E' & H1 & H2 & H3 & H4); [by constructor|by rewrite L2|].
  exists k'. split; [done|].
  split; [|rewrite end_if_ok in E' by (by rewrite L2); injection E' as <-; split; [exact L1|]].
  2: { apply (range_of _ (s :: S) s); [apply Hg1|by left]. }
  assert (Hus : forall x, used k1 x <-> used k x /\ ~ inside p n x).
  { intros x. rewrite (used_slots _ _ _ (g_tree _ _ Hg1)), (used_slots _ _ _ (g_tree _ _ Hg)), L1, free_cons.
    unfold in_slot. cbn [s_addr s_size s]. tauto. }
  split_and!; [done|by rewrite H2, L2|intros x; by rewrite H3, Hus|].
  intros x Hx. rewrite H4 by (by apply Hus). apply L3. destruct Hx as [_ Hx]. unfold inside in *. cbn [s_addr s]. lia.
Qed.

Definition released (u : bool) k (p n : Z) (b : bool) k' : Prop :=
  settled u k (fun x => used k x /\ (b = true -> ~ inside p n x)) k' /\ (b = false -> n < 24).

Lemma settled_released u k p n k' : settled u k (fun x => used k x /\ ~ inside p n x) k' -> released u k p n true k'.
Proof. intros Hs. split; [|done]. eapply settled_used; [exact Hs|]. cbn. tauto. Qed.

(** Where the memory has gone: into the free range in front of it, else into the one behind it, else
    it is a free range of its own; it is refused only where there is neither. *)
Definition merged (k k' : state (P := P)) (p n : Z) (b : bool) : Prop :=
  if b then
    (exists lo, free_range k lo p /\ returned (mh_freethresh (heap k)) k lo (p + n) k') \/
    ~ free k (p - 1) /\ ((exists hi, free_range k (p + n) hi /\ returned (mh_freethresh (heap k)) k p hi k') \/
      ~ free k (p + n) /\ free_range k' p (p + n) /\ forall x, mapped (src k') x <-> mapped (src k) x)
  else ~ free k (p - 1) /\ ~ free k (p + n).

Lemma not_free k S x : good k S -> (forall s, s ∈ S -> ~ in_slot s x) -> ~ free k x.
Proof. intros Hg Hno. unfold free. rewrite (tree_free _ S x (g_tree _ _ Hg)). intros (s & Hs & Hi). by apply (Hno s). Qed.

(** The operation takes the memory back, or leaves it to the caller if it is too small to be free. *)
Lemma release_merges k p n flags u :
  heap_inv k -> 0 < mh_lock (heap k) -> p mod 8 = 0 -> n mod 8 = 0 -> 0 <= n < 2 ^ 30 ->
  (forall x, inside p n x -> used k x) -> (wants_zero flags = true -> zero (cont k) p n) ->
  plain flags -> accepts flags ->
  exists b k', mheap_release debug_init p n flags u k = Ret (b, k') /\ released u k p n b k' /\ (0 < n -> merged k k' p n b).
Proof.
  intros Hinv Hlk Hp8 Hn8 Hn Hu Hz Hpl Hacc. pose proof Hinv as (S & Hg & Hsm).
  unfold mheap_release, mheap_writing. rewrite (proj2 (Z.ltb_lt _ _)) by done. cbn [oassert].
  rewrite !(proj2 (aligned8 _)) by done. cbn [oassert].
  destruct (Z.eqb_spec n 0) as [->|Hne].
  { destruct (end_settled k S u Hg Hsm Hlk) as (k' & -> & Hse). exists true, k'. split; [done|].
    split; [|lia]. apply settled_released. eapply settled_used; [exact Hse|]. intros x. unfold inside. split; [|tauto]. split; [done|lia]. }
  rewrite attr_mask by done. cbn [oassert]. destruct (used_range k p n Hinv ltac:(lia) Hu) as [Hbot Htop].
  pose proof (used_in _ _ _ _ Hg Hu) as Hui. unfold plocate. rewrite !uptr_id by (pow_num; lia).
  destruct (plocate_ok _ _ (p - 1) (g_tree _ _ Hg)) as [(path & semi & level & s & S' & -> & Hloc & HS & Hi)|(-> & Hno)];
    [pow_num; lia| |]; cbn [obind].
  { rewrite HS in Hsm. apply (good_perm _ _ (s :: S')) in Hg; [|done].
    assert (Hend : s_addr s + s_size s = p).
    { destruct (Hui p ltac:(unfold inside; lia)) as [_ Hf]. rewrite (free_perm _ _ _ HS), free_cons in Hf.
      unfold in_slot, inside in Hi, Hf. lia. }
    destruct (extend_above_ok k s S' path semi level p n flags u) as (k' & -> & Hse & Hret); try done; [lia|].
    exists true, k'. split; [done|]. split; [by apply settled_released|]. intros _. left. exists (s_addr s). split; [|done].
    rewrite <- Hend. apply (range_of k (s :: S')); [apply Hg|by left]. }
  pose proof (not_free k S _ Hg Hno) as Hnf.
  destruct (plocate_ok _ _ (p + n) (g_tree _ _ Hg)) as [(path & semi & level & s & S' & -> & Hloc & HS & Hi)|(-> & Hno2)];
    [pow_num; lia| |]; cbn [obind].
  { rewrite HS in Hsm. apply (good_perm _ _ (s :: S')) in Hg; [|done].
    assert (Hbeg : s_addr s = p + n).
    { destruct (Hui (p + n - 1) ltac:(unfold inside; lia)) as [_ Hf]. rewrite (free_perm _ _ _ HS), free_cons in Hf.
      unfold in_slot, inside in Hi, Hf. lia. }
    destruct (extend_below_ok k s S' path semi level p n flags u) as (k' & -> & Hse & Hret); try done; [lia|].
    exists true, k'. split; [done|]. split; [by apply settled_released|]. intros _. right. split; [done|]. left.
    exists (s_addr s + s_size s). split; [|done]. rewrite <- Hbeg. apply (range_of k (s :: S')); [apply Hg|by left]. }
  pose proof (not_free k S _ Hg Hno2) as Hnf2.
  rewrite MIN_24. destruct (Z.ltb_spec n 24) as [Hlt|Hge].
  - destruct (end_settled k S u Hg Hsm Hlk) as (k' & -> & Hse). exists false, k'. split; [done|]. split; [|done]. split; [|done].
    eapply settled_used; [exact Hse|]. cbn. intros x. split; [by split|tauto].
  - destruct (release_new k S p n flags u) as (k' & E & Hse & Hsr & Hfr); try done; [lia|].
    exists true, k'. split; [|split; [by apply settled_released|intros _; right; split; [done|]; right; by rewrite Hsr]].
    destruct (mheap_release_nomerge p n flags k) as [k1|]; [|done]. cbn [obind] in *. by rewrite E.
Qed.

Lemma release_ok k p n flags u :
  heap_inv k -> 0 < mh_lock (heap k) -> p mod 8 = 0 -> n mod 8 = 0 -> 0 <= n < 2 ^ 30 ->
  (forall x, inside p n x -> used k x) -> (wants_zero flags = true -> zero (cont k) p n) ->
  plain flags -> accepts flags ->
  exists b k', mheap_release debug_init p n flags u k = Ret (b, k') /\ released u k p n b k'.
Proof.
  intros H1 H2 H3 H4 H5 H6 H7 H8 H9. destruct (release_merges k p n flags u) as (b & k' & E & Hr & _); try done.
  by exists b, k'.
Qed.

End Release.
