(* ===== verification/HeapAcquire.v ===== *)
(** * The kernel heap: acquiring memory *)
From stdpp Require Import base numbers list sorting.
From S2P Require Import Prelude Align ATree Heap HeapSpec HeapInv HeapOps.

Section Acquire.

Context {P : Type} `{!PageOps P, !PageSource P} (debug_init : option Z).
Implicit Types k : state (P := P).

(** The memory [A] is in use that was not, and zero if that was asked for. *)
Record got (u : bool) k (flags : Z) (A : Z -> Prop) k' : Prop := {
  a_inv : heap_inv k';
  a_lock : mh_lock (heap k') = mh_lock (heap k) - Z.b2z u;
  a_fresh x : A x -> ~ used k x;
  a_used x : used k' x <-> used k x \/ A x;
  a_cont x : used k x -> cont k' x = cont k x;
  a_zero x : wants_zero flags = true -> A x -> cont k' x = Some 0 }.

(** [m] bytes at [p], for [n] that were asked for. *)
Definition acquired (u : bool) k (n flags p m : Z) k' : Prop :=
  Z.max 24 n <= m < Z.max 24 n + 24 /\ p mod 8 = 0 /\ m mod 8 = 0 /\ got u k flags (inside p m) k'.

Lemma got_iff u k flags A B k' : (forall x, A x <-> B x) -> got u k flags A k' -> got u k flags B k'.
Proof.
  intros HAB [H1 H2 H3 H4 H5 H6]. split; try done.
  - intros x Hx. by apply H3, HAB.
  - intros x. by rewrite H4, HAB.
  - intros x Hw Hx. by apply H6, HAB.
Qed.
(** A part of it is released again, or the lock. *)
Lemma got_settled u k flags A B k1 k' :
  got false k flags A k1 -> (forall x, B x -> A x) ->
  settled u k1 (fun x => used k1 x /\ ~ B x) k' -> got u k flags (fun x => A x /\ ~ B x) k'.
Proof.
  intros [H1 H2 H3 H4 H5 H6] HB (I1 & I2 & I3 & I4). cbn [Z.b2z] in H2.
  assert (HuB : forall x, used k x -> ~ B x) by (intros x Hx Hb; by apply (H3 x (HB x Hb))).
  split; try done.
  - lia.
  - intros x [Hx _]. by apply H3.
  - intros x. rewrite I3, H4. specialize (HuB x). tauto.
  - intros x Hx. rewrite I4, H5; try done. split; [apply H4; by left|by apply HuB].
  - intros x Hw [Hx Hx']. rewrite I4, H6; try done. split; [apply H4; by right|done].
Qed.

Lemma find_chain_ok k S n i chain :
  good k S -> find_chain k n (drop i (mh_size (heap k))) = Some chain ->
  exists s S', S ≡ₚ s :: S' /\ s_addr s = chain /\ n <= s_size s.
Proof.
  intros Hg Hf. unfold find_chain in Hf.
  destruct (list_find _ _) as [[j a]|] eqn:E; [|done]. cbn in Hf. injection Hf as ->.
  apply list_find_Some in E as (Hl & Hn & _). apply list_elem_of_lookup_2 in Hl.
  assert (Hin : chain ∈ concat (mh_size (heap k))).
  { rewrite <- (take_drop i (mh_size (heap k))), concat_app. apply elem_of_app. by right. }
  destruct (g_lists _ _ Hg) as (_ & Hp & _). rewrite Hp in Hin.
  apply list_elem_of_In, in_map_iff in Hin as (s & Es & Hs). apply list_elem_of_In in Hs.
  apply elem_of_Permutation in Hs as [S' HS]. exists s, S'. split_and!; try done.
  rewrite <- Es in Hn. by rewrite (proj2 (attr_of k s S' (good_perm _ _ _ Hg HS))) in Hn.
Qed.

(** The range leaves the tree and the lists, by its address. *)
Lemma unlink_addr k s S :
  good k (s :: S) ->
  exists t', remove 32 (mh_addr (heap k)) (s_addr s) = Ret (Some (leaf_of s), t') /\
    good (set_size (list_remove (s_addr s) (mh_size (heap k))) (set_addr t' k)) S.
Proof.
  intros Hg. pose proof Hg as [Hb Ht Hl]. pose proof (b_ok _ _ Hb) as Ho. apply Forall_cons in Ho as [Hs _].
  destruct (remove_slot _ _ _ Ht Hs) as (t' & E & Ht'). exists t'. split; [done|]. split.
  - apply (body_frame k); try done; [by eapply body_tail|apply Hb].
  - exact Ht'.
  - apply (remove_lists _ _ s S); [exact Hl|]. by eapply addr_fresh.
Qed.

(** What is left of a range is free again, or goes with what is taken. *)
Lemma rest_ok k s S n flags :
  good k S -> 0 < mh_lock (heap k) -> slot_ok s -> small s -> (forall s', s' ∈ S -> far s s') ->
  (forall x, in_slot s x -> mapped (src k) x) -> 24 <= n <= s_size s -> n mod 8 = 0 -> plain flags ->
  (is_zero (s_attr s) = true -> zero (cont k) (s_addr s + 20) (s_size s - 20)) -> Forall small S ->
  exists m k' S', (if s_size s - n <? HEAP_MIN_MALLOC then Ret (n + (s_size s - n), k)
    else
      let unused_begin := uptr (s_addr s + n) in
      assert! IS_ALIGNED unused_begin HEAP_ALIGNMENT ;;
      assert! IS_ALIGNED (s_size s - n) HEAP_ALIGNMENT ;;
      assert! s_size s - n <? s_size s ;;
      let! k := mheap_release_nomerge unused_begin (s_size s - n)
                  (Z.lor (no_calloc flags) (GFP_STPAGEATTR (s_attr s))) k in
      Ret (n, k)) = Ret (m, k') /\
    n <= m <= s_size s /\ m < n + 24 /\ m mod 8 = 0 /\ good k' S' /\ Forall small S' /\ src k' = src k /\
    mh_lock (heap k') = mh_lock (heap k) /\
    (forall x, free_in S' x <-> inside (s_addr s + m) (s_size s - m) x \/ free_in S x) /\
    (forall x, ~ inside (s_addr s + m) (s_size s - m) x -> cont k' x = cont k x).
Proof.
  intros Hg Hlk Hs Hsms Hfar Hm Hn Hn8 Hp Hz Hsm. pose proof Hs as (Ha8 & Hs8 & H24 & Hbit & Hl & Hh). pow_num.
  rewrite MIN_24. destruct (Z.ltb_spec (s_size s - n) 24).
  { exists (s_size s), k, S. replace (n + (s_size s - n)) with (s_size s) by lia. split_and!; try done; try lia.
    intros x. unfold inside. split; [by right|]. intros [?|?]; [lia|done]. }
  cbv zeta. rewrite uptr_id by (pow_num; lia). rewrite !(proj2 (aligned8 _)), (proj2 (Z.ltb_lt _ _)) by first [lia|mlia]. cbn [oassert].
  destruct (mix_flags flags (s_attr s) Hp Hbit) as [Hpp Hpz]. set (pf := Z.lor _ _) in *.
  pose (s' := Slot (s_addr s + n) (s_size s - n) (s_attr s)).
  assert (Hs' : slot_ok s') by (split_and!; cbn [s_addr s_size s_attr s']; try done; try lia; try mlia; pow_num; lia).
  assert (Hin : forall x, in_slot s' x -> in_slot s x) by (intros x; unfold in_slot, inside, s'; cbn [s_addr s_size]; lia).
  destruct (nomerge_ok k S s' pf) as (k1 & E1 & Hg1 & L1 & L2 & _ & _ & L3); try done.
  { unfold small in *. cbn [s_size s']. lia. }
  { by apply mix_attr. }
  { intros s2 Hs2. apply (far_sub s); [lia|lia|by apply Hfar]. }
  { rewrite Hpz. intros Hzz x Hx. apply (Hz Hzz). unfold inside in *. cbn [s_addr s_size s'] in Hx. lia. }
  { intros x Hx. by apply Hm, Hin. }
  cbn [s_addr s_size s'] in E1. rewrite E1. cbn [obind]. exists n, k1, (s' :: S). split_and!; try done; try lia.
  - constructor; [|done]. unfold small in *. cbn [s_size s']. lia.
  - intros x. rewrite free_cons. done.
  - intros x Hx. apply L3. unfold inside in *. cbn [s_addr s']. lia.
Qed.

(** The memory is cleared if that is asked for. *)
Lemma prepare_ok p m (z w : bool) k :
  (z = true -> zero (cont k) (p + 20) (m - 20)) -> 24 <= m ->
  let k' := if w then if z then clear p (Z.min sizeof_mfree m) k else clear p m k
            else if z then pattern debug_init p m k else k in
  heap k' = heap k /\ hdr k' = hdr k /\ src k' = src k /\ (forall x, ~ inside p m x -> cont k' x = cont k x) /\
  (w = true -> zero (cont k') p m).
Proof.
  intros Hz Hm. cbv zeta. rewrite Z.min_l by (unfold sizeof_mfree; lia). destruct w, z; split_and!; try done.
  - intros x Hx. apply fill_out. unfold inside, sizeof_mfree in *. lia.
  - intros _ x Hx. cbn. destruct (decide (inside p sizeof_mfree x)); [by apply fill_in|]. rewrite fill_out by done.
    apply Hz; [done|]. unfold inside, sizeof_mfree in *. lia.
  - intros x Hx. by apply fill_out.
  - intros _ x Hx. by apply fill_in.
  - by destruct (pattern_rest debug_init p m k).
  - by destruct (pattern_rest debug_init p m k) as (_ & ? & _).
  - by destruct (pattern_rest debug_init p m k) as (_ & _ & ? & _).
  - by destruct (pattern_rest debug_init p m k) as (_ & _ & _ & ?).
Qed.

Lemma good_same k k' S :
  good k S -> heap k' = heap k -> hdr k' = hdr k -> src k' = src k ->
  (forall x, free_in S x -> cont k' x = cont k x) -> good k' S.
Proof.
  intros Hg Hh Hd Hs Hc. destruct k' as [h' d' s' c'], k as [h d s c]. cbn [heap hdr src cont] in *. subst. by apply (good_cont _ S c' Hg).
Qed.

Lemma take_chain_ok k s S n flags :
  good k (s :: S) -> Forall small (s :: S) -> 0 < mh_lock (heap k) -> 24 <= n <= s_size s -> n mod 8 = 0 -> plain flags ->
  exists m k', take_chain debug_init (s_addr s) n flags k = Ret (m, k') /\
    acquired false k n flags (s_addr s) m k'.
Proof.
  intros Hg Hsm Hlk Hn Hn8 Hp. pose proof (g_body _ _ Hg) as Hb. apply Forall_cons in Hsm as [Hsms Hsm].
  pose proof (b_ok _ _ Hb) as Ho. apply Forall_cons in Ho as [Hs _].
  pose proof (apart_tail _ _ (b_far _ _ Hb)) as [_ Hfar]. pose proof Hs as (Ha & _).
  unfold take_chain. destruct (attr_of _ _ _ Hg) as [-> ->].
  destruct (unlink_addr k s S Hg) as (t' & -> & Hg1). cbn [obind a_vmin leaf_of]. rewrite Z.eqb_refl. cbn [oassert].
  change (mh_size (heap (set_addr t' k))) with (mh_size (heap k)). set (k1 := set_size _ _) in *. cbv zeta.
  destruct (rest_ok k1 s S n flags) as (m & k2 & S' & E & Hm & Hm24 & Hm8 & Hg2 & Hsm2 & Hsr & Hlk2 & Hf & Hc); try done.
  { intros x Hx. apply (b_mapped _ _ Hb), free_cons. by left. }
  { intros Hz. by apply (b_zero _ _ Hb s ltac:(by left)). }
  cbv zeta in E. rewrite E. cbn [obind].
  destruct (prepare_ok (s_addr s) m (is_zero (s_attr s)) (wants_zero flags) k2) as (Q1 & Q2 & Q3 & Q4 & Q5); [|lia|].
  { intros Hz x Hx. rewrite Hc by (unfold inside in *; lia). apply (b_zero _ _ Hb s ltac:(by left) Hz).
    unfold inside in *. lia. }
  set (k3 := if wants_zero flags then _ else _) in *.
  rewrite (proj2 (aligned8 _)) by done. cbn [oassert]. exists m, k3. split; [done|].
  assert (Hspl : forall x, in_slot s x <-> inside (s_addr s) m x \/ inside (s_addr s + m) (s_size s - m) x).
  { intros x. unfold in_slot, inside. lia. }
  assert (Hfm : forall x, free_in S' x -> ~ inside (s_addr s) m x).
  { intros x. rewrite Hf. intros [Hx|Hx] Hi; [unfold inside in *; lia|]. eapply free_far; [done|done|]. apply Hspl. tauto. }
  assert (Hg3 : good k3 S').
  { apply (good_same k2); try done. intros x Hx. by apply Q4, Hfm. }
  assert (Hsf : forall x, in_slot s x -> mapped (src k) x /\ ~ free_in S x).
  { intros x Hx. split; [apply (b_mapped _ _ Hb), free_cons; by left|]. intros Hx'. by eapply free_far. }
  split; [lia|]. split; [done|]. split; [done|]. split; try done.
  - by exists S'.
  - rewrite Q1, Hlk2. cbn. lia.
  - intros x Hx. rewrite (used_slots _ _ _ (g_tree _ _ Hg)), free_cons, Hspl. tauto.
  - intros x. rewrite (used_slots _ _ _ (g_tree _ _ Hg)), (used_slots _ _ _ (g_tree _ _ Hg3)), free_cons.
    rewrite Q3, Hsr, Hf. change (src k1) with (src k). pose proof (Hspl x). pose proof (Hsf x). pose proof (Hfm x) as H1.
    rewrite Hf in H1. destruct (decide (inside (s_addr s) m x)); tauto.
  - intros x Hx. rewrite (used_slots _ _ _ (g_tree _ _ Hg)), free_cons, Hspl in Hx. rewrite Q4, Hc; tauto.
  - intros x Hw Hx. by apply Q5.
Qed.

(** ** Pages *)

Lemma good_src k S s c :
  good k S -> source_ok s -> (forall x, mapped (src k) x -> mapped s x /\ c x = cont k x) ->
  good (State (heap k) (hdr k) s c) S.
Proof.
  intros [Hb Ht Hl] Hso Hm. split; [|done|done]. apply body_src; [done|done|]. intros x Hx. apply Hm.
  by apply (b_mapped _ _ Hb).
Qed.

Lemma alloc_pages_ok k S pb n flags :
  good k S -> accepts flags -> 24 <= n < 2 ^ 31 -> 0 < pb < 2 ^ 32 -> pb mod 4096 = 0 -> n <= pb ->
  enough (src k) pb = true ->
  exists p m k', alloc_pages pb n flags k = Ret (Some (p, m), k') /\ good k' S /\ heap k' = heap k /\
    (forall x, mapped (src k) x -> cont k' x = cont k x) /\
    p mod 4096 = 0 /\ n <= m /\ m mod 4096 = 0 /\ m <= Z.max pb (n + 4095) /\
    (forall x, inside p m x -> ~ mapped (src k) x) /\
    (forall x, mapped (src k') x <-> mapped (src k) x \/ inside p m x) /\ (wants_zero flags = true -> zero (cont k') p m).
Proof.
  intros Hg Hacc Hn Hpb Hpb8 Hle Hen. pose proof (b_src _ _ (g_body _ _ Hg)) as Hso. unfold alloc_pages.
  destruct (page_alloc_ok pb flags (src k) (cont k)) as (p & s1 & c1 & -> & Hs1 & Hc1 & H1 & H2 & H3 & H4); try done; try lia.
  cbn [obind]. do 3 eexists. split; [done|]. split_and!; try done; try lia.
  apply good_src; [done|done|]. intros x Hx. split; [|by apply Hc1]. apply H3. by left.
Qed.

Lemma fresh_pages k k1 S p m :
  good k S -> good k1 S -> (forall x, inside p m x -> ~ mapped (src k) x) ->
  (forall x, mapped (src k1) x <-> mapped (src k) x \/ inside p m x) ->
  forall x, used k1 x <-> used k x \/ inside p m x.
Proof.
  intros Hg Hg1 Hf Hm x. rewrite (used_slots _ _ _ (g_tree _ _ Hg)), (used_slots _ _ _ (g_tree _ _ Hg1)), Hm.
  specialize (Hf x). pose proof (b_mapped _ _ (g_body _ _ Hg) x). tauto.
Qed.

(** What there is too much at the end is released. *)
Lemma cut_end_ok k k1 p m n flags u :
  got false k flags (inside p m) k1 -> 0 < mh_lock (heap k) -> p mod 8 = 0 -> n mod 8 = 0 -> m mod 8 = 0 ->
  24 <= n <= m -> m - n < 2 ^ 30 -> plain flags -> accepts flags ->
  exists b k', mheap_release debug_init (uptr (p + n)) (uptr (m - n)) flags u k1 = Ret (b, k') /\
    acquired u k n flags p (if b then n else m) k'.
Proof.
  intros Hgot Hlk Hp8 Hn8 Hm8 Hn Hmn Hpl Hacc. pose proof Hgot as [G1 G2 G3 G4 G5 G6].
  destruct (used_range k1 p m) as [Hbot Htop]; [done|lia|intros x Hx; apply G4; by right|].
  rewrite !uptr_id by (pow_num; lia). cbn [Z.b2z] in G2.
  destruct (release_ok debug_init k1 (p + n) (m - n) flags u) as (b & k' & E & Hs & Hb); try done; try lia.
  - mlia.
  - mlia.
  - intros x Hx. apply G4. right. unfold inside in *. lia.
  - intros Hw x Hx. apply (G6 x Hw). unfold inside in *. lia.
  - exists b, k'. split; [done|]. split; [destruct b; [lia|specialize (Hb eq_refl); lia]|]. split; [done|].
    split; [by destruct b|].
    eapply (got_iff u k flags (fun x => inside p m x /\ ~ (b = true /\ inside (p + n) (m - n) x))).
    + intros x. unfold inside. destruct b; split; intros; lia.
    + apply (got_settled u k flags _ _ k1); [done| |].
      * intros x [_ Hx]. unfold inside in *. lia.
      * eapply settled_used; [exact Hs|]. intros x. tauto.
Qed.

Lemma got_end k flags A k1 u :
  got false k flags A k1 -> 0 < mh_lock (heap k) -> exists k', end_if u k1 = Ret k' /\ got u k flags A k'.
Proof.
  intros Hgot Hlk. pose proof Hgot as [(S & Hg & Hsm) H2 _ _ _ _]. cbn [Z.b2z] in H2.
  destruct (end_settled k1 S u Hg Hsm) as (k' & E & Hs); [lia|]. exists k'. split; [done|].
  eapply (got_iff _ _ _ (fun x => A x /\ ~ False)); [tauto|]. apply (got_settled u k flags A _ k1); [done|done|].
  eapply settled_used; [exact Hs|]. tauto.
Qed.

Lemma trim_pages k k1 p m n flags u :
  got false k flags (inside p m) k1 -> 0 < mh_lock (heap k) -> p mod 4096 = 0 -> m mod 4096 = 0 ->
  24 <= n <= m -> m - n < 2 ^ 30 -> n mod 8 = 0 -> plain flags -> accepts flags ->
  exists m' k', (if m =? n then let! k := end_if u k1 in Ret (Some (p, n), k)
      else
        let! (ok, k) := mheap_release debug_init (uptr (p + n)) (uptr (m - n)) flags u k1 in
        Ret (Some (p, if (ok : bool) then n else m), k)) = Ret (Some (p, m'), k') /\
    acquired u k n flags p m' k'.
Proof.
  intros Hgot Hlk Hp Hm Hn Hmn Hn8 Hpl Hacc. destruct (Z.eqb_spec m n) as [->|Hne].
  - destruct (got_end _ _ _ _ u Hgot Hlk) as (k' & -> & Hgot'). cbn [obind]. exists n, k'. split; [done|].
    split_and!; try done; [lia|lia|mlia].
  - destruct (cut_end_ok k k1 p m n flags u) as (b & k' & -> & Ha); try done; [mlia|mlia|]. cbn [obind].
    by exists (if b then n else m), k'.
Qed.

(** ** Acquiring *)

Lemma bucket_le n : 24 <= n < 2 ^ 31 -> HEAP_BUCKET_OF n <= 27.
Proof.
  intros Hn. unfold HEAP_BUCKET_OF, CLZ, HEAP_BUCKET_OFFSET.
  assert (Z.log2 n < 31); [|lia]. apply Z.log2_lt_pow2; [lia|]. exact (proj2 Hn).
Qed.

Lemma acquired_min u k n flags p m k' : acquired u k (Z.max 24 n) flags p m k' -> acquired u k n flags p m k'.
Proof. intros [H1 H2]. split; [lia|done]. Qed.

(** There is a free range for a request, or memory for the pages it takes. *)
Definition supply k (n : Z) : Prop :=
  find_chain k (Z.max 24 n) (drop (Z.to_nat (HEAP_BUCKET_OF (Z.max 24 n))) (mh_size (heap k))) = None ->
  enough (src k) (CEIL_ALIGN (2 ^ 32) (Z.max 24 n) PAGESIZE + mh_overalloc (heap k)) = true.

Lemma acquire_ok k n flags u :
  heap_inv k -> supply k n -> 0 < mh_lock (heap k) -> n mod 8 = 0 -> 0 <= n < 2 ^ 31 -> plain flags -> accepts flags ->
  exists p m k', mheap_acquire debug_init n flags u k = Ret (Some (p, m), k') /\ acquired u k n flags p m k'.
Proof.
  intros (S & Hg & Hsm) Hsup Hlk Hn8 Hn Hp Hacc. unfold supply in Hsup. unfold mheap_acquire, mheap_writing.
  rewrite (proj2 (aligned8 _)), (proj2 (Z.ltb_lt _ _)) by done. cbn [oassert]. rewrite MIN_24.
  replace (if n <? 24 then 24 else n) with (Z.max 24 n) by (destruct (Z.ltb_spec n 24); lia).
  assert (Hmin : forall p m k', acquired u k (Z.max 24 n) flags p m k' -> acquired u k n flags p m k') by apply acquired_min.
  assert (Hn8' : Z.max 24 n mod 8 = 0) by (destruct (Z.max_spec 24 n) as [[_ ->]|[_ ->]]; done).
  assert (Hn' : 24 <= Z.max 24 n < 2 ^ 31) by (change (2 ^ 31) with 2147483648 in *; lia).
  clear Hn Hn8. set (q := Z.max 24 n) in *. clearbody q.
  rewrite (proj2 (Z.leb_le _ HEAP_BUCKET_COUNT)) by (by apply bucket_le). cbn [oassert].
  destruct (find_chain k q _) as [chain|] eqn:Ef.
  { apply (find_chain_ok k S) in Ef as (s & S' & HS & <- & Hq); [|done]. rewrite HS in Hsm.
    apply (good_perm _ _ (s :: S')) in Hg; [|done].
    destruct (take_chain_ok k s S' q flags) as (m & k1 & -> & Ha); try done; [lia|]. cbn [obind].
    destruct Ha as (A1 & A2 & A3 & Ha). destruct (got_end _ _ _ _ u Ha Hlk) as (k' & -> & Ha'). cbn [obind].
    eexists _, _, k'. split; [done|]. by apply Hmin. }
  destruct (b_conf _ _ (g_body _ _ Hg)) as ([Ho1 Ho2] & Ho3 & _).
  destruct (ceil_page (2 ^ 32) q) as [Hce Hce']; [lia|pow_num; change (2 ^ 31) with 2147483648 in *; unfold PAGESIZE; lia|].
  cbv zeta. set (ce := CEIL_ALIGN (2 ^ 32) q PAGESIZE) in *. change (2 ^ 31) with 2147483648 in *. pow_num.
  rewrite uptr_id by (pow_num; lia).
  destruct (alloc_pages_ok k S (ce + mh_overalloc (heap k)) q flags)
    as (p & m & k1 & -> & Hg1 & Hh & Hc & R1 & R2 & R3 & R4 & R5 & R6 & R7); try done; try (pow_num; lia).
  { rewrite Z.add_mod, Hce', Ho3 by lia. done. }
  { by apply Hsup. }
  cbn [obind].
  assert (Hgot : got false k flags (inside p m) k1).
  { split; try done.
    - by exists S.
    - rewrite Hh. cbn. lia.
    - intros x Hx [Hmx _]. by apply (R5 x).
    - by apply (fresh_pages _ _ S).
    - intros x Hx. apply Hc, Hx.
    - intros x Hw Hx. by apply R7. }
  destruct (trim_pages k k1 p m q flags u) as (m' & k' & E & Ha); try done; try lia.
  rewrite E. eexists _, _, k'. split; [done|]. by apply Hmin.
Qed.

(** ** Alignment *)

Lemma pow2_mask j : 0 <= j < 32 -> (Z.land (2 ^ j) (uptr (2 ^ j - 1)) =? 0) = true.
Proof.
  intros Hj. assert (0 < 2 ^ j) by lia. assert (2 ^ j < 2 ^ 32) by (apply Z.pow_lt_mono_r; lia).
  rewrite uptr_id by lia. replace (2 ^ j - 1) with (Z.ones j) by (rewrite Z.ones_equiv; lia).
  rewrite Z.land_ones by lia. rewrite Z.mod_same by lia. done.
Qed.
Lemma pow2_mod8 j : 3 <= j -> 2 ^ j mod 8 = 0.
Proof. intros Hj. replace j with (j - 3 + 3) by lia. rewrite Z.pow_add_r by lia. apply Z.mod_mul. done. Qed.
Lemma mod_mod8 j x : 3 <= j -> x mod 2 ^ j = 0 -> x mod 8 = 0.
Proof.
  intros Hj Hx. apply Z.mod_divide in Hx; [|lia]. apply Z.mod_divide; [lia|]. etrans; [|exact Hx].
  apply Z.mod_divide; [lia|]. by apply pow2_mod8.
Qed.

(** The start and the end of the memory are released. *)
Lemma cut_ok k k1 base size result n flags u :
  got false k flags (inside base size) k1 -> 0 < mh_lock (heap k) ->
  base mod 8 = 0 -> size mod 8 = 0 -> result mod 8 = 0 -> n mod 8 = 0 -> 24 <= n -> size < 2 ^ 30 ->
  24 <= result - base -> result + n <= base + size -> plain flags -> accepts flags ->
  exists b k2 k', mheap_release debug_init base (result - base) flags false k1 = Ret (true, k2) /\
    mheap_release debug_init (uptr (result + n)) (uptr (size - (result - base) - n)) flags u k2 = Ret (b, k') /\
    acquired u k n flags result (if b then n else size - (result - base)) k'.
Proof.
  intros Hgot Hlk Hb8 Hs8 Hr8 Hn8 Hn Hsz Hlo Hhi Hpl Hacc. pose proof Hgot as [G1 G2 G3 G4 G5 G6]. cbn [Z.b2z] in G2.
  destruct (release_ok debug_init k1 base (result - base) flags false) as (b & k2 & E2 & Hs & Hb); try done; try lia.
  { mlia. }
  { intros x Hx. apply G4. right. unfold inside in *. lia. }
  { intros Hw x Hx. apply (G6 x Hw). unfold inside in *. lia. }
  destruct b; [|specialize (Hb eq_refl); lia].
  assert (Hgot2 : got false k flags (inside result (size - (result - base))) k2).
  { eapply (got_iff _ _ _ (fun x => inside base size x /\ ~ inside base (result - base) x)).
    - intros x. unfold inside. lia.
    - apply (got_settled false k flags _ _ k1); [done|unfold inside; lia|].
      eapply settled_used; [exact Hs|]. intros x. tauto. }
  destruct (cut_end_ok k k2 result (size - (result - base)) n flags u) as (b & k' & E' & Ha); try done; try lia; [mlia|].
  by exists b, k2, k'.
Qed.

Lemma acquire_al_ok k j offset n flags u :
  heap_inv k -> supply k (Z.max 24 n + 2 ^ j + 24) -> 0 < mh_lock (heap k) -> 3 <= j -> n mod 8 = 0 -> 0 <= n -> n + 2 ^ j < 2 ^ 30 - 96 ->
  0 <= offset <= 4096 -> offset mod 8 = 0 -> plain flags -> accepts flags ->
  exists p m k', mheap_acquire_al debug_init (2 ^ j) offset n flags u k = Ret (Some (p, m), k') /\
    acquired u k n flags p m k' /\ (p + offset) mod 2 ^ j = 0.
Proof.
  intros Hinv Hsup Hlk Hj Hn8 Hn Hbd Hoff Hoff8 Hpl Hacc. unfold mheap_acquire_al.
  assert (Hj32 : j < 32).
  { destruct (Z.lt_ge_cases j 32); [done|]. assert (2 ^ 32 <= 2 ^ j) by (apply Z.pow_le_mono_r; lia). pow_num. lia. }
  pose proof (pow2_mod8 j Hj) as Hal8. assert (Hpos : 8 <= 2 ^ j).
  { change 8 with (2 ^ 3). apply Z.pow_le_mono_r; lia. }
  rewrite (proj2 (Z.eqb_neq _ _)), pow2_mask, !(proj2 (aligned8 _)) by (try done; lia). cbn [oassert negb].
  rewrite MIN_24. replace (if n <? 24 then 24 else n) with (Z.max 24 n) by (destruct (Z.ltb_spec n 24); lia).
  assert (Hn8' : Z.max 24 n mod 8 = 0) by (destruct (Z.max_spec 24 n) as [[_ ->]|[_ ->]]; done).
  assert (Hq : 24 <= Z.max 24 n < 2 ^ 30 - 72 - 2 ^ j) by (pow_num; lia).
  assert (Hmin : forall p m k', acquired u k (Z.max 24 n) flags p m k' -> acquired u k n flags p m k') by apply acquired_min.
  set (q := Z.max 24 n) in *. clearbody q. pow_num. rewrite uptr_id by (pow_num; lia).
  destruct (acquire_ok k (q + 2 ^ j + 24) flags false) as (base & size & k1 & -> & A1 & A2 & A3 & Hgot); try done; try (pow_num; lia).
  { mlia. }
  cbn [obind]. pose proof Hgot as [G1 G2 G3 G4 G5 G6].
  destruct (used_range k1 base size) as [Hbot Htop]; [done|lia|intros x Hx; apply G4; by right|]. pow_num.
  rewrite (uptr_id (base + 24 + offset)) by (pow_num; lia).
  destruct (CEIL_ALIGN_bounds (2 ^ 32) (base + 24 + offset) j) as [Hce Hce']; [lia|lia|pow_num; lia|].
  cbv zeta. pow_num. set (ce := CEIL_ALIGN 4294967296 (base + 24 + offset) (2 ^ j)) in *.
  rewrite (uptr_id (ce - offset)) by (pow_num; lia). set (result := ce - offset).
  assert (Hce8 : ce mod 8 = 0) by (by eapply mod_mod8).
  rewrite (uptr_id (result + q)), (uptr_id (base + size)), (uptr_id (result - base)), (uptr_id (result - base + q))
    by (unfold result; pow_num; lia).
  rewrite !(proj2 (Z.leb_le _ _)) by (unfold result; lia). cbn [oassert].
  destruct (cut_ok k k1 base size result q flags u) as (b & k2 & k' & -> & E2 & Ha); try done; try (unfold result; lia).
  { unfold result. mlia. }
  cbn [obind oassert].
  rewrite (uptr_id (size - _ - q)), (uptr_id (result + q)) in E2 by (unfold result; pow_num; lia). rewrite E2. cbn [obind].
  rewrite (proj2 (Z.leb_le _ _)) by (unfold result; destruct b; lia). cbn [oassert].
  rewrite uptr_id by (unfold result; pow_num; lia). unfold IS_ALIGNED. replace (result + offset) with ce by (unfold result; lia).
  rewrite Hce', Z.eqb_refl. cbn [oassert].
  exists result, (if b then q else size - (result - base)), k'. split.
  { destruct b; do 4 f_equal; lia. }
  split; [by apply Hmin|]. by replace (result + offset) with ce by (unfold result; lia).
Qed.

End Acquire.
