(* ===== verification/HeapMalloc.v ===== *)
(** * The kernel heap: kmalloc() and kfree()

    A block of memory has a header, [struct mptr], in front of what its owner sees.  This
    is the build without the debug API, in which the header has the size and the type of
    the block in one word (and the padding in front of it). *)
From stdpp Require Import base numbers list sorting.
From S2P Require Import Prelude Align ATree Heap HeapSpec HeapInv HeapOps HeapAcquire.

(** ** The code *)

Definition sizeof_mptr : Z := 8.
Definition MPTR_SIZEOF (s : Z) : Z := uptr (sizeof_mptr + s).
Definition __GFP_HEAPCOUNT : Z := 5.

Section Malloc.

Context {P : Type} `{!PageOps P} (debug_init : option Z).

(** [m_data] of the headers, by the address of the header *)
Record world : Type := World { wk : state (P := P); m_data : Z -> Z }.

Definition MPTR_FLAGS (w : world) (p : Z) : Z := Z.land (m_data w p) GFP_MASK_MPTR.
Definition MPTR_TYPE (w : world) (p : Z) : Z := Z.land (m_data w p) GFP_MASK_TYPE.
Definition MPTR_SIZE (w : world) (p : Z) : Z := Z.land (m_data w p) (Z.lnot GFP_MASK_MPTR).
Definition MPTR_SETUP (self type size : Z) (w : world) : world :=
  World (set_cont (fill (self + 4) 4 None (cont (wk w))) (wk w))
    (fun x => if x =? self then Z.lor type size else m_data w x).
Definition MPTR_ISOK (w : world) (p : Z) : bool :=
  (MPTR_TYPE w p <? __GFP_HEAPCOUNT) && (HEAP_MIN_MALLOC <=? MPTR_SIZE w p).

Definition mheap_write (k : state (P := P)) : state := set_lock (mh_lock (heap k) + 1) k.

(** [None] for [MPTR_OF(NULL)] *)
Definition mheap_malloc (size flags : Z) (w : world) : outcome (option Z * world) :=
  let k := mheap_write (wk w) in
  let! (r, k) := mheap_acquire debug_init (CEIL_ALIGN (2 ^ 32) (MPTR_SIZEOF size) HEAP_ALIGNMENT) flags true k in
  let w := World k (m_data w) in
  match r with
  | None => Ret (None, w)
  | Some (result, alloc_size) =>
      assert! size <=? alloc_size ;;
      let w := MPTR_SETUP result (Z.land flags GFP_MASK_MPTR) alloc_size w in
      assert! MPTR_ISOK w result ;;
      Ret (Some result, w)
  end.

Definition mheap_memalign (alignment size flags : Z) (w : world) : outcome (option Z * world) :=
  let k := mheap_write (wk w) in
  let! (r, k) := mheap_acquire_al debug_init alignment sizeof_mptr
                   (CEIL_ALIGN (2 ^ 32) (MPTR_SIZEOF size) HEAP_ALIGNMENT) flags true k in
  let w := World k (m_data w) in
  match r with
  | None => Ret (None, w)
  | Some (result, alloc_size) =>
      assert! IS_ALIGNED (uptr (result + sizeof_mptr)) alignment ;;
      let w := MPTR_SETUP result (Z.land flags GFP_MASK_MPTR) alloc_size w in
      assert! MPTR_ISOK w result ;;
      Ret (Some result, w)
  end.

Definition mheap_free (ptr flags : Z) (w : world) : outcome world :=
  let alloc_size := MPTR_SIZE w ptr in
  assert! MPTR_SIZEOF 0 <=? alloc_size ;;
  let k := if wants_zero flags then clear ptr sizeof_mptr (wk w) else pattern debug_init ptr alloc_size (wk w) in
  let! (ok, k) := mheap_release debug_init ptr alloc_size flags true (mheap_write k) in
  assert! ok ;;
  Ret (World k (m_data w)).

(** [MPTR_USERADDR], which is [NULL] of [MPTR_OF(NULL)] *)
Definition MPTR_USERADDR (p : option Z) : Z := match p with Some p => uptr (p + sizeof_mptr) | None => 0 end.
Definition MPTR_USERSIZE (w : world) (p : Z) : Z := uptr (MPTR_SIZE w p - sizeof_mptr).

Definition kmalloc (size flags : Z) (w : world) : outcome (Z * world) :=
  assert! Z.land flags GFP_MASK_TYPE <? __GFP_HEAPCOUNT ;;
  let! (p, w) := mheap_malloc size flags w in
  Ret (MPTR_USERADDR p, w).
Definition kmemalign (alignment size flags : Z) (w : world) : outcome (Z * world) :=
  assert! Z.land flags GFP_MASK_TYPE <? __GFP_HEAPCOUNT ;;
  let! (p, w) := if alignment <=? HEAP_ALIGNMENT then mheap_malloc size flags w
                 else mheap_memalign alignment size flags w in
  Ret (MPTR_USERADDR p, w).
Definition MPTR_GET (ptr : Z) (w : world) : outcome Z :=
  let p := uptr (ptr - sizeof_mptr) in assert! MPTR_ISOK w p ;; Ret p.
Definition kffree (ptr flags : Z) (w : world) : outcome world :=
  if ptr =? 0 then Ret w
  else let! p := MPTR_GET ptr w in
    mheap_free p (Z.lor (MPTR_FLAGS w p) (Z.land flags (Z.lnot GFP_MASK_MPTR))) w.
Definition kfree (ptr : Z) (w : world) : outcome world :=
  if ptr =? 0 then Ret w
  else let! p := MPTR_GET ptr w in mheap_free p (MPTR_FLAGS w p) w.
Definition kmalloc_usable_size (ptr : Z) (w : world) : outcome Z :=
  if ptr =? 0 then Ret 0 else let! p := MPTR_GET ptr w in Ret (MPTR_USERSIZE w p).

End Malloc.
