(* ===== verification/HeapClient.v ===== *)
(** * The kernel heap: what the owners of memory see

    For its clients the heap is a list of arrays that do not overlap; memory that one of
    them has is changed by nobody else.  The calls of HeapMalloc.v implement that. *)
From stdpp Require Import base numbers list sorting.
From S2P Require Import Prelude Align ATree Heap HeapSpec HeapInv HeapOps HeapAcquire HeapMalloc.

Lemma word_parts f m :
  0 <= f < 8 -> m mod 8 = 0 ->
  Z.land (Z.lor f m) GFP_MASK_MPTR = f /\ Z.land (Z.lor f m) (Z.lnot GFP_MASK_MPTR) = m.
Proof.
  intros Hf Hm.
  assert (E : Z.lor f m = f + m).
  { symmetry. apply Z.add_nocarry_lor. apply Z.bits_inj'. intros n Hn. rewrite Z.land_spec, Z.bits_0.
    destruct (Z.lt_ge_cases n 3).
    - replace m with (m / 8 * 2 ^ 3) by (change (2 ^ 3) with 8; mlia). rewrite Z.mul_pow2_bits_low by lia. apply andb_false_r.
    - replace f with (f mod 2 ^ 3) by (apply Z.mod_small; done). by rewrite Z.mod_pow2_bits_high by lia. }
  rewrite E. split.
  - change GFP_MASK_MPTR with (Z.ones 3). rewrite Z.land_ones by lia. change (2 ^ 3) with 8. mlia.
  - change (Z.land (f + m) (Z.lnot GFP_MASK_MPTR)) with (FLOOR_ALIGN (f + m) (2 ^ 3)).
    rewrite FLOOR_ALIGN_pow2 by lia. change (2 ^ 3) with 8. mlia.
Qed.
Lemma type_bounds f : 0 <= Z.land f GFP_MASK_TYPE < 8.
Proof. change GFP_MASK_TYPE with (Z.ones 3). rewrite Z.land_ones by lia. apply Z.mod_pos_bound. lia. Qed.

Section Client.

Context {P : Type} `{!PageOps P, !PageSource P} (debug_init : option Z).
Implicit Types w : world (P := P).

(** A block: the header and what its owner has; [s_attr] is its type. *)
Definition block_ok w (b : slot) : Prop :=
  s_addr b mod 8 = 0 /\ s_size b mod 8 = 0 /\ 24 <= s_size b < 2 ^ 30 /\ 0 <= s_attr b < 5 /\
  accepts (s_attr b) /\ m_data w (s_addr b) = Z.lor (s_attr b) (s_size b).

(** The blocks [B] are in use, and besides them the memory [base] that has other owners. *)
Record world_inv (base : Z -> Prop) w (B : list slot) : Prop := {
  w_heap : heap_inv (wk w);
  w_used x : used (wk w) x <-> base x \/ free_in B x;
  w_blocks : Forall (block_ok w) B;
  w_apart : apart_slots B;
  w_base x : base x -> ~ free_in B x }.

(** Memory in use may be written. *)
Lemma write_inv k c : heap_inv k -> (forall x, ~ used k x -> c x = cont k x) -> heap_inv (set_cont c k).
Proof.
  intros (S & Hg & Hsm) Hc. exists S. split; [|done]. apply good_cont; [done|]. intros x Hx. apply Hc.
  rewrite (used_slots _ _ _ (g_tree _ _ Hg)). tauto.
Qed.
Lemma lock_inv k : heap_inv k -> heap_inv (mheap_write k) /\ 0 < mh_lock (heap (mheap_write k)).
Proof.
  intros (S & Hg & Hsm). destruct (b_conf _ _ (g_body _ _ Hg)) as (_ & _ & _ & Hl). split; [|cbn; lia].
  exists S. split; [|done]. apply good_lock; [done|lia].
Qed.

Definition kept w w' : Prop := forall x, used (wk w) x -> cont (wk w') x = cont (wk w) x.

Lemma block_same w w' b : m_data w' (s_addr b) = m_data w (s_addr b) -> block_ok w b -> block_ok w' b.
Proof. intros E (H1 & H2 & H3 & H4 & H5 & H6). rewrite <- E in H6. by split_and!; try lia. Qed.

Lemma new_block base w B k' n flags p m :
  world_inv base w B -> acquired true (mheap_write (wk w)) n flags p m k' -> m < 2 ^ 30 ->
  Z.land flags GFP_MASK_TYPE < 5 -> accepts flags ->
  let w' := MPTR_SETUP p (Z.land flags GFP_MASK_MPTR) m (World k' (m_data w)) in
  world_inv base w' (Slot p m (Z.land flags GFP_MASK_MPTR) :: B) /\ MPTR_ISOK w' p = true /\ kept w w' /\
  (wants_zero flags = true -> zero (cont (wk w')) (p + 8) (m - 8)).
Proof.
  intros [W1 W2 W3 W4 W5] (A1 & Hp8 & Hm8 & [G1 _ G3 G4 G5 G6]) Hm Hty Hacc w'.
  change (used (mheap_write (wk w))) with (used (wk w)) in *. change (cont (mheap_write (wk w))) with (cont (wk w)) in *.
  pose proof (type_bounds flags) as Htb. set (ty := Z.land flags GFP_MASK_MPTR) in *.
  change (Z.land flags GFP_MASK_TYPE) with ty in *. destruct (word_parts ty m Htb Hm8) as [P1 P2].
  assert (Hd : m_data w' p = Z.lor ty m) by (cbn; by rewrite Z.eqb_refl).
  assert (Hne : forall b, b ∈ B -> ~ inside p m (s_addr b)).
  { intros b Hb Hi. rewrite Forall_forall in W3. destruct (W3 b Hb) as (_ & _ & ? & _). apply (G3 _ Hi), W2. right.
    exists b. split; [done|]. unfold in_slot, inside. lia. }
  split; [split|split; [|split]].
  - apply write_inv; [done|]. intros x Hx. apply fill_out. intros Hi. apply Hx, G4. right. unfold inside in *. lia.
  - intros x. change (used (wk w') x) with (used k' x). rewrite G4, W2, free_cons. unfold in_slot. cbn [s_addr s_size]. tauto.
  - constructor.
    + split_and!; cbn [s_addr s_size s_attr]; try done; try lia. apply (accepts_type flags); [|done].
      unfold ty, GFP_MASK_MPTR, GFP_MASK_TYPE. by rewrite <- Z.land_assoc.
    + apply Forall_forall. intros b Hb. rewrite Forall_forall in W3. apply (block_same w); [|by apply W3].
      cbn. rewrite (proj2 (Z.eqb_neq _ _)); [done|]. intros E. apply (Hne b Hb). rewrite E. unfold inside. lia.
  - apply apart_cons; [done|]. intros b Hb. rewrite Forall_forall in W3. destruct (W3 b Hb) as (_ & _ & ? & _).
    apply far_points; cbn [s_size]; [lia|lia|]. intros x Hx Hx'. apply (G3 x Hx), W2. right. by exists b.
  - intros x Hx. rewrite free_cons. intros [Hi|Hi]; [|by apply (W5 x)]. apply (G3 x Hi), W2. by left.
  - unfold MPTR_ISOK, MPTR_TYPE, MPTR_SIZE. rewrite Hd. change GFP_MASK_TYPE with GFP_MASK_MPTR. rewrite P1, P2, MIN_24.
    rewrite (proj2 (Z.ltb_lt _ _)), (proj2 (Z.leb_le _ _)); [done|lia|unfold __GFP_HEAPCOUNT; lia].
  - intros x Hx. cbn. rewrite fill_out; [by apply G5|]. intros Hi. apply (G3 x); [unfold inside in *; lia|done].
  - intros Hw x Hx. cbn. rewrite fill_out by (unfold inside in *; lia). apply (G6 x Hw). unfold inside in *. lia.
Qed.

(** What an allocation comes to: a block of its own. *)
Definition allocated (base : Z -> Prop) w (B : list slot) (n flags p : Z) w' : Prop :=
  kept w w' /\
  exists m, world_inv base w' (Slot p m (Z.land flags GFP_MASK_MPTR) :: B) /\ n <= m < Z.max 24 n + 24 /\
    (wants_zero flags = true -> zero (cont (wk w')) (p + 8) (m - 8)).

(** The size of the block for a request. *)
Definition block_size (size : Z) : Z := CEIL_ALIGN (2 ^ 32) (MPTR_SIZEOF size) HEAP_ALIGNMENT.

Lemma request_size size : 0 <= size < 2 ^ 30 - 128 ->
  size + 8 <= block_size size < size + 16 /\ block_size size mod 8 = 0.
Proof.
  intros Hs. unfold block_size, MPTR_SIZEOF, sizeof_mptr. rewrite uptr_id by (pow_num; lia).
  destruct (CEIL_ALIGN_bounds (2 ^ 32) (8 + size) 3) as [H1 H2]; [lia|lia|pow_num; lia|].
  change (2 ^ 3) with 8 in *. unfold HEAP_ALIGNMENT. lia.
Qed.

Lemma malloc_block base w B size flags :
  world_inv base w B -> supply (wk w) (block_size size) -> 0 <= size < 2 ^ 30 - 128 -> plain flags -> accepts flags ->
  Z.land flags GFP_MASK_TYPE < 5 ->
  exists p w', mheap_malloc debug_init size flags w = Ret (Some p, w') /\ allocated base w B (block_size size) flags p w'.
Proof.
  intros HW Hsup Hs Hpl Hacc Hty. pose proof (request_size size Hs) as [Hn Hn8].
  unfold mheap_malloc. fold (block_size size). set (n := block_size size) in *. clearbody n. pow_num.
  destruct (lock_inv (wk w) (w_heap _ _ _ HW)) as [Hi Hl].
  destruct (acquire_ok debug_init (mheap_write (wk w)) n flags true) as (p & m & k' & -> & Hr); try done.
  { change (2 ^ 31) with 2147483648. lia. }
  cbn [obind]. pose proof Hr as (A1 & _). rewrite (proj2 (Z.leb_le _ _)) by lia. cbn [oassert].
  destruct (new_block base w B k' n flags p m) as (N1 & N2 & N3 & N4); try done; [pow_num; lia|].
  rewrite N2. cbn [oassert]. do 2 eexists. split; [done|]. split; [done|]. exists m. split; [done|split; [lia|done]].
Qed.

Lemma memalign_block base w B j size flags :
  world_inv base w B -> supply (wk w) (Z.max 24 (block_size size) + 2 ^ j + 24) -> 3 <= j ->
  0 <= block_size size -> block_size size mod 8 = 0 -> block_size size + 2 ^ j < 2 ^ 30 - 112 ->
  plain flags -> accepts flags -> Z.land flags GFP_MASK_TYPE < 5 ->
  exists p w', mheap_memalign debug_init (2 ^ j) size flags w = Ret (Some p, w') /\
    allocated base w B (block_size size) flags p w' /\ (p + 8) mod 2 ^ j = 0.
Proof.
  intros HW Hsup Hj Hn Hn8 Hsj Hpl Hacc Hty. pose proof (Z.pow_pos_nonneg 2 j ltac:(lia) ltac:(lia)) as Hpos.
  unfold mheap_memalign. fold (block_size size). set (n := block_size size) in *. clearbody n. pow_num.
  destruct (lock_inv (wk w) (w_heap _ _ _ HW)) as [Hi Hl].
  destruct (acquire_al_ok debug_init (mheap_write (wk w)) j sizeof_mptr n flags true) as (p & m & k' & -> & Hr & Hal);
    try (pow_num; lia); try done.
  cbn [obind]. pose proof Hr as (A1 & _ & _ & HG). unfold sizeof_mptr in *.
  destruct (used_range k' p m) as [Hbot Htop]; [by destruct HG|lia|intros x Hx; destruct HG as [_ _ _ G4 _ _]; apply G4; by right|].
  pow_num. rewrite uptr_id by (pow_num; lia). unfold IS_ALIGNED. rewrite Hal. cbn [Z.eqb oassert].
  destruct (new_block base w B k' n flags p m) as (N1 & N2 & N3 & N4); try done; [pow_num; lia|].
  rewrite N2. cbn [oassert]. do 2 eexists. split; [done|]. split; [|done]. split; [done|].
  exists m. split; [done|split; [lia|done]].
Qed.

(** ** Freeing *)

Lemma header_parts w b : block_ok w b ->
  MPTR_SIZE w (s_addr b) = s_size b /\ MPTR_FLAGS w (s_addr b) = s_attr b /\ MPTR_ISOK w (s_addr b) = true.
Proof.
  intros (H1 & H2 & H3 & H4 & H5 & H6). destruct (word_parts (s_attr b) (s_size b) ltac:(lia) H2) as [P1 P2].
  unfold MPTR_ISOK, MPTR_SIZE, MPTR_FLAGS, MPTR_TYPE. change GFP_MASK_TYPE with GFP_MASK_MPTR. rewrite H6, P1, P2, MIN_24.
  split_and!; try done. by rewrite (proj2 (Z.ltb_lt _ _)), (proj2 (Z.leb_le _ _)) by (unfold __GFP_HEAPCOUNT; lia).
Qed.

Lemma pattern_inv k p n : heap_inv k -> (forall x, inside p n x -> used k x) -> heap_inv (pattern debug_init p n k).
Proof.
  intros Hk Hu. unfold pattern. destruct debug_init; [|done]. apply write_inv; [done|]. intros x Hx. apply fill_out. auto.
Qed.

(** The header and, if it was asked for, the rest are overwritten before memory is released. *)
Lemma wiped_ok k p m (z : bool) :
  heap_inv k -> (forall x, inside p m x -> used k x) -> 24 <= m -> (z = true -> zero (cont k) (p + 8) (m - 8)) ->
  let k1 := if z then clear p sizeof_mptr k else pattern debug_init p m k in
  heap_inv k1 /\ (forall x, used k1 x <-> used k x) /\ (forall x, ~ inside p m x -> cont k1 x = cont k x) /\
  (z = true -> zero (cont k1) p m) /\ mh_lock (heap k1) = mh_lock (heap k).
Proof.
  intros Hk Hu Hm Hz. cbv zeta. destruct z; split_and!; try done.
  - apply write_inv; [done|]. intros x Hx. apply fill_out. intros Hi. apply Hx, Hu. unfold inside, sizeof_mptr in *. lia.
  - intros x Hx. apply fill_out. unfold inside, sizeof_mptr in *. lia.
  - intros _ x Hx. cbn. destruct (decide (inside p sizeof_mptr x)); [by apply fill_in|]. rewrite fill_out by done.
    apply Hz; [done|]. unfold inside, sizeof_mptr in *. lia.
  - by apply pattern_inv.
  - intros x. unfold used, free. by destruct (pattern_rest debug_init p m k) as (-> & _ & -> & _).
  - apply pattern_rest.
  - by destruct (pattern_rest debug_init p m k) as (-> & _).
Qed.

Lemma free_block base w b B flags :
  world_inv base w (b :: B) -> plain flags -> accepts flags ->
  (wants_zero flags = true -> zero (cont (wk w)) (s_addr b + 8) (s_size b - 8)) ->
  exists w', mheap_free debug_init (s_addr b) flags w = Ret w' /\ world_inv base w' B /\
    forall x, base x \/ free_in B x -> cont (wk w') x = cont (wk w) x.
Proof.
  intros [W1 W2 W3 W4 W5] Hpl Hacc Hz. apply Forall_cons in W3 as [Hb W3]. destruct (header_parts w b Hb) as (E1 & _ & _).
  destruct Hb as (Ha8 & Hs8 & Hs & _). unfold mheap_free. rewrite E1. change (MPTR_SIZEOF 0) with 8.
  rewrite (proj2 (Z.leb_le _ _)) by lia. cbn [oassert].
  assert (Hin : forall x, inside (s_addr b) (s_size b) x -> used (wk w) x).
  { intros x Hx. apply W2. right. apply free_cons. by left. }
  destruct (wiped_ok (wk w) (s_addr b) (s_size b) (wants_zero flags)) as (K1 & K2 & K3 & K4 & K5); try done; [lia|].
  cbv zeta. set (k1 := if wants_zero flags then _ else _) in *. destruct (lock_inv k1 K1) as [L1 L2].
  destruct (release_ok debug_init (mheap_write k1) (s_addr b) (s_size b) flags true)
    as (ok & k' & -> & (S1 & S2 & S3 & S4) & Hok); try done; [lia|intros x Hx; by apply K2, Hin|].
  destruct ok; [|specialize (Hok eq_refl); lia]. cbn [obind oassert]. eexists. split; [done|].
  assert (Hfar : forall x, base x \/ free_in B x -> ~ inside (s_addr b) (s_size b) x).
  { intros x [Hx|Hx] Hi; [apply (W5 x Hx), free_cons; by left|]. apply apart_tail in W4 as [_ Hf].
    by apply (free_far b B x Hf Hx). }
  change (used (mheap_write k1)) with (used k1) in *.
  assert (Hus : forall x, used k' x <-> base x \/ free_in B x).
  { intros x. rewrite S3, K2, W2, free_cons. unfold in_slot. specialize (Hfar x). tauto. }
  split; [split|].
  - exact S1.
  - exact Hus.
  - done.
  - by apply apart_tail in W4 as [? _].
  - intros x Hx Hf. apply (W5 x Hx), free_cons. by right.
  - intros x Hx. cbn [wk]. rewrite S4 by (by apply S3, Hus). cbn. apply K3. by apply Hfar.
Qed.

(** ** Clients *)

(** An array a client has, with what it knows of its bytes. *)
Record array : Type := Array { ar_addr : Z; ar_size : Z; ar_val : Z -> option Z }.

Inductive hcall : Type :=
  | HMalloc (size flags : Z)
  | HMemalign (j size flags : Z)
  | HUsable (i : nat)
  | HWrite (i : nat) (off v : Z)
  | HRead (i : nat) (off : Z)
  | HFree (i : nat)
  | HFreeZero (i : nat).
Inductive output : Type := OPtr (p : Z) | OSize (n : Z) | OByte (b : option Z) | ODone.

Definition new_ptr (p : Z) (ps : list Z) : list Z := if p =? 0 then ps else p :: ps.
Definition store (x v : Z) w : world := World (set_cont (fill x 1 (Some v) (cont (wk w))) (wk w)) (m_data w).

(** A call, on the kernel and the pointers the client has. *)
Definition hstep (c : hcall) w (ps : list Z) : outcome (output * world * list Z) :=
  match c with
  | HMalloc size flags => let! (p, w) := kmalloc debug_init size flags w in Ret (OPtr p, w, new_ptr p ps)
  | HMemalign j size flags => let! (p, w) := kmemalign debug_init (2 ^ j) size flags w in Ret (OPtr p, w, new_ptr p ps)
  | HUsable i =>
      match ps !! i with
      | Some p => let! n := kmalloc_usable_size p w in Ret (OSize n, w, ps)
      | None => Ret (ODone, w, ps)
      end
  | HWrite i off v =>
      match ps !! i with Some p => Ret (ODone, store (p + off) v w, ps) | None => Ret (ODone, w, ps) end
  | HRead i off =>
      match ps !! i with Some p => Ret (OByte (cont (wk w) (p + off)), w, ps) | None => Ret (ODone, w, ps) end
  | HFree i =>
      match ps !! i with
      | Some p => let! w := kfree debug_init p w in Ret (ODone, w, delete i ps)
      | None => Ret (ODone, w, ps)
      end
  | HFreeZero i =>
      match ps !! i with
      | Some p => let! w := kffree debug_init p GFP_CALLOC w in Ret (ODone, w, delete i ps)
      | None => Ret (ODone, w, ps)
      end
  end.

(** What a client may ask for. *)
Definition request (size flags : Z) : Prop :=
  0 <= size < 2 ^ 30 - 128 /\ plain flags /\ accepts flags /\ Z.land flags GFP_MASK_TYPE < 5.
Definition admissible (c : hcall) (A : list array) : Prop :=
  match c with
  | HMalloc size flags => request size flags
  | HMemalign j size flags => request size flags /\ 0 <= j /\ size + 2 ^ j < 2 ^ 30 - 128
  | HWrite i off _ | HRead i off => forall a, A !! i = Some a -> 0 <= off < ar_size a
  | HFreeZero i => forall a, A !! i = Some a -> forall off, 0 <= off < ar_size a -> ar_val a off = Some 0
  | _ => True
  end.

(** There is memory for a call. *)
Definition align_need (j size : Z) : Z :=
  if 2 ^ j <=? HEAP_ALIGNMENT then block_size size else Z.max 24 (block_size size) + 2 ^ j + 24.
Definition supplied (c : hcall) w : Prop :=
  match c with
  | HMalloc size _ => supply (wk w) (block_size size)
  | HMemalign j size _ => supply (wk w) (align_need j size)
  | _ => True
  end.

(** What it gets: arrays that are its own. *)
Definition fresh_array (size flags align : Z) (A : list array) (o : output) (A' : list array) : Prop :=
  exists p n, o = OPtr p /\ p <> 0 /\ p mod align = 0 /\ size <= n /\
    (forall a, a ∈ A -> p + n <= ar_addr a \/ ar_addr a + ar_size a <= p) /\
    A' = Array p n (fun _ => if wants_zero flags then Some 0 else None) :: A.
Definition write_array (off v : Z) (a : array) : array :=
  Array (ar_addr a) (ar_size a) (fun x => if x =? off then Some v else ar_val a x).
Definition aspec (c : hcall) (A : list array) (o : output) (A' : list array) : Prop :=
  match c with
  | HMalloc size flags => fresh_array size flags 8 A o A'
  | HMemalign j size flags => fresh_array size flags (2 ^ j) A o A'
  | HUsable i => A' = A /\ forall a, A !! i = Some a -> o = OSize (ar_size a)
  | HWrite i off v => A' = alter (write_array off v) i A
  | HRead i off => A' = A /\ forall a v, A !! i = Some a -> ar_val a off = Some v -> o = OByte (Some v)
  | HFree i | HFreeZero i => A' = delete i A
  end.

(** The arrays are the blocks of the heap without their headers. *)
Definition array_of w (b : slot) (a : array) : Prop :=
  ar_addr a = s_addr b + 8 /\ ar_size a = s_size b - 8 /\
  forall off v, 0 <= off < ar_size a -> ar_val a off = Some v -> cont (wk w) (ar_addr a + off) = Some v.
Definition client_inv (base : Z -> Prop) w (ps : list Z) (A : list array) : Prop :=
  exists B, world_inv base w B /\ Forall2 (array_of w) B A /\ ps = map ar_addr A.

Lemma kept_arrays w w' B A :
  Forall (block_ok w) B -> (forall x, free_in B x -> cont (wk w') x = cont (wk w) x) ->
  Forall2 (array_of w) B A -> Forall2 (array_of w') B A.
Proof.
  intros Hb Hc H. induction H as [|b a B A (H1 & H2 & H3) _ IH]; constructor.
  - split_and!; try done. intros off v Ho Hv. rewrite Hc; [by apply H3|]. apply free_cons. left.
    apply Forall_cons in Hb as [(_ & _ & Hs & _) _]. unfold in_slot, inside. lia.
  - apply Forall_cons in Hb as [_ Hb]. apply IH; [done|]. intros x Hx. apply Hc, free_cons. by right.
Qed.

Lemma block_far w b B A a :
  (forall b', b' ∈ B -> far b b') -> Forall2 (array_of w) B A -> a ∈ A -> s_addr b + 8 + (s_size b - 8) <= ar_addr a \/
    ar_addr a + ar_size a <= s_addr b + 8.
Proof.
  intros Hf HA Ha. apply list_elem_of_lookup in Ha as [i Hi].
  destruct (Forall2_lookup_r _ _ _ _ _ HA Hi) as (b' & Hb' & H1 & H2 & _).
  specialize (Hf b' (list_elem_of_lookup_2 _ _ _ Hb')). unfold far in Hf. lia.
Qed.

(** The result of an allocation, as the client sees it. *)
Lemma alloc_client base w B A size flags p w' align :
  world_inv base w B -> Forall2 (array_of w) B A -> 0 <= size < 2 ^ 30 - 128 ->
  allocated base w B (block_size size) flags p w' -> (p + 8) mod align = 0 ->
  exists A', fresh_array size flags align A (OPtr (MPTR_USERADDR (Some p))) A' /\
    client_inv base w' (new_ptr (MPTR_USERADDR (Some p)) (map ar_addr A)) A'.
Proof.
  intros HW HA Hsz [Hk Hr] Hal. destruct (request_size size Hsz) as [Hbs _]. pose proof HW as [W1 W2 W3 W4 W5].
  assert (HA' : Forall2 (array_of w') B A).
  { apply (kept_arrays w); [done| |done]. intros x Hx. apply Hk, W2. by right. }
  cbn [MPTR_USERADDR]. destruct Hr as (m & HW' & Hm & Hz). pose proof HW' as [V1 V2 V3 V4 V5].
  apply Forall_cons in V3 as [(_ & _ & Hm24 & _) _]. cbn [s_size] in Hm24.
  destruct (used_range (wk w') p m V1) as [Hbot Htop]; [lia| |].
  { intros x Hx. apply V2. right. apply free_cons. by left. }
  unfold sizeof_mptr. rewrite uptr_id by (pow_num; lia).
  exists (Array (p + 8) (m - 8) (fun _ => if wants_zero flags then Some 0 else None) :: A). split.
  - exists (p + 8), (m - 8). split_and!; try done; try lia. intros a Ha.
    apply apart_tail in V4 as [_ Hf]. by apply (block_far w' _ B A a Hf).
  - exists (Slot p m (Z.land flags GFP_MASK_MPTR) :: B). split; [done|]. split.
    + constructor; [|done]. split_and!; try done. cbn [ar_addr ar_size ar_val]. intros off v Ho Hv.
      destruct (wants_zero flags); [|done]. injection Hv as <-. apply (Hz eq_refl). unfold inside. lia.
    + unfold new_ptr. rewrite (proj2 (Z.eqb_neq _ _)) by lia. done.
Qed.

Lemma world_perm base w B B' : world_inv base w B -> B ≡ₚ B' -> world_inv base w B'.
Proof.
  intros [W1 W2 W3 W4 W5] HB. split; try done.
  - intros x. by rewrite W2, (free_perm B B').
  - by rewrite <- HB.
  - by eapply apart_perm.
  - intros x Hx. rewrite <- (free_perm B B') by done. by apply W5.
Qed.

(** The block of a pointer. *)
Lemma client_block base w B A i a :
  world_inv base w B -> Forall2 (array_of w) B A -> A !! i = Some a ->
  exists b, B !! i = Some b /\ block_ok w b /\ array_of w b a /\ world_inv base w (b :: delete i B) /\
    ar_addr a <> 0 /\ MPTR_GET (ar_addr a) w = Ret (s_addr b).
Proof.
  intros HW HA Ha. destruct (Forall2_lookup_r _ _ _ _ _ HA Ha) as (b & Hb & Hab). exists b.
  pose proof (w_blocks _ _ _ HW) as Hbs. rewrite Forall_forall in Hbs.
  pose proof (Hbs b (list_elem_of_lookup_2 _ _ _ Hb)) as Hok. pose proof Hok as (_ & _ & Hs & _).
  destruct (used_range (wk w) (s_addr b) (s_size b) (w_heap _ _ _ HW)) as [Hbot Htop]; [lia| |].
  { intros x Hx. apply (w_used _ _ _ HW). right. exists b. split; [by eapply list_elem_of_lookup_2|done]. }
  split_and!; try done.
  - eapply world_perm; [exact HW|]. by apply delete_Permutation.
  - destruct Hab as (-> & _). lia.
  - destruct Hab as (-> & _). unfold MPTR_GET, sizeof_mptr. replace (s_addr b + 8 - 8) with (s_addr b) by lia.
    rewrite uptr_id by (pow_num; lia). by destruct (header_parts w b Hok) as (_ & _ & ->).
Qed.

Lemma delete_map {X Y} (f : X -> Y) i l : map f (delete i l) = delete i (map f l).
Proof. revert i. induction l as [|x l IH]; intros [|i]; cbn; try done. f_equal. apply IH. Qed.

Lemma free_client base w B A i a flags :
  world_inv base w B -> Forall2 (array_of w) B A -> A !! i = Some a ->
  (wants_zero flags = true -> forall off, 0 <= off < ar_size a -> ar_val a off = Some 0) -> plain flags ->
  exists w', kffree debug_init (ar_addr a) flags w = Ret w' /\
    (forall x, base x -> cont (wk w') x = cont (wk w) x) /\
    client_inv base w' (delete i (map ar_addr A)) (delete i A).
Proof.
  intros HW HA Ha Hz Hpl. destruct (client_block _ _ _ _ _ _ HW HA Ha) as (b & Hb & Hok & Hab & HW' & Hne & Hget).
  unfold kffree. rewrite (proj2 (Z.eqb_neq _ _)), Hget by done. cbn [obind].
  destruct (header_parts w b Hok) as (_ & -> & _). pose proof Hok as (_ & _ & _ & Hty & Hacc & _).
  set (f := Z.lor (s_attr b) (Z.land flags (Z.lnot GFP_MASK_MPTR))).
  assert (Hbits : forall n, 3 <= n -> Z.testbit f n = Z.testbit flags n).
  { intros n Hn. unfold f. rewrite Z.lor_spec, Z.land_spec, Z.lnot_spec by lia. change GFP_MASK_MPTR with (Z.ones 3).
    rewrite Z.ones_spec_high, andb_true_r by lia. replace (s_attr b) with (s_attr b mod 2 ^ 3) by (apply Z.mod_small; lia).
    by rewrite Z.mod_pow2_bits_high by lia. }
  assert (Hwz : wants_zero f = wants_zero flags) by (rewrite !wants_zero_bit; apply Hbits; lia).
  destruct (free_block base w b (delete i B) f HW') as (w' & -> & HW2 & Hc).
  - unfold plain in *. rewrite <- Hpl. apply Z.bits_inj'. intros n Hn. rewrite !Z.land_spec.
    destruct (Z.lt_ge_cases n 3); [|by rewrite Hbits by lia].
    assert (Z.testbit 0xe0 n = false) as ->; [|by rewrite !andb_false_r].
    change 0xe0 with (7 * 2 ^ 5). by rewrite Z.mul_pow2_bits_low by lia.
  - apply (accepts_type (s_attr b)); [|done]. apply type_bits. intros n Hn. unfold f.
    rewrite Z.lor_spec, Z.land_spec, Z.lnot_spec by lia. change GFP_MASK_MPTR with (Z.ones 3).
    rewrite Z.ones_spec_low by lia. cbn [negb]. by rewrite andb_false_r, orb_false_r.
  - rewrite Hwz. intros Hw x Hx. destruct Hab as (H1 & H2 & H3). unfold inside in Hx.
    replace x with (ar_addr a + (x - ar_addr a)) by lia. apply H3; [lia|]. apply (Hz Hw). lia.
  - exists w'. split; [done|]. split; [intros x Hx; apply Hc; by left|]. exists (delete i B). split; [done|]. split.
    + apply (kept_arrays w); [|intros x Hx; apply Hc; by right|by apply Forall2_delete].
      pose proof (w_blocks _ _ _ HW') as Hbs. by apply Forall_cons in Hbs as [_ Hbs].
    + by rewrite delete_map.
Qed.

Lemma kfree_flags p w : kfree debug_init p w = kffree debug_init p 0 w.
Proof.
  unfold kfree, kffree. destruct (p =? 0); [done|]. destruct (MPTR_GET p w) as [q|]; [|done]. cbn [obind].
  by rewrite Z.land_0_l, Z.lor_0_r.
Qed.

Lemma alter_none {X} (f : X -> X) i (l : list X) : l !! i = None -> alter f i l = l.
Proof. revert i. induction l as [|x l IH]; intros [|i] H; cbn in *; try done. f_equal. auto. Qed.
Lemma delete_none {X} i (l : list X) : l !! i = None -> delete i l = l.
Proof. revert i. induction l as [|x l IH]; intros [|i] H; cbn in *; try done. f_equal. auto. Qed.
Lemma alter_map {X Y} (f : X -> X) (g : X -> Y) i l : (forall x, g (f x) = g x) -> map g (alter f i l) = map g l.
Proof. intros Hg. revert i. induction l as [|x l IH]; intros [|i]; cbn; try done; f_equal; auto. Qed.

Lemma write_client base w B A i a off v :
  world_inv base w B -> Forall2 (array_of w) B A -> A !! i = Some a -> 0 <= off < ar_size a ->
  (forall x, base x -> cont (wk (store (ar_addr a + off) v w)) x = cont (wk w) x) /\
  client_inv base (store (ar_addr a + off) v w) (map ar_addr A) (alter (write_array off v) i A).
Proof.
  intros HW HA Ha Ho. destruct (client_block _ _ _ _ _ _ HW HA Ha) as (b & Hb & Hok & (H1 & H2 & H3) & HW' & _ & _).
  set (x0 := ar_addr a + off). assert (Hin : in_slot b x0) by (unfold in_slot, inside, x0; lia).
  pose proof HW as [W1 W2 W3 W4 W5]. pose proof (w_apart _ _ _ HW') as Hap. apply apart_tail in Hap as [_ Hfar].
  assert (Hfree : free_in B x0) by (exists b; split; [by eapply list_elem_of_lookup_2|done]).
  assert (Hout : forall x, x <> x0 -> cont (wk (store x0 v w)) x = cont (wk w) x).
  { intros x Hx. cbn. apply fill_out. unfold inside. lia. }
  split; [intros x Hx; apply Hout; intros ->; by apply (W5 x0 Hx)|].
  exists B. split; [|split].
  - split; try done. apply write_inv; [done|]. intros x Hx. apply Hout. intros ->. apply Hx, W2. by right.
  - apply Forall2_same_length_lookup_2; [rewrite length_alter; by eapply Forall2_length|].
    intros j b' a' Hb' Ha'. rewrite list_lookup_alter in Ha'. destruct (decide (i = j)) as [<-|Hne].
    + rewrite Ha in Ha'. injection Ha' as <-. rewrite Hb in Hb'. injection Hb' as <-. split_and!; try done.
      cbn [ar_addr ar_size ar_val write_array]. intros o u Ho'. destruct (Z.eqb_spec o off) as [->|Hne].
      * intros [= <-]. apply fill_in. unfold inside, x0. lia.
      * intros Hv. rewrite Hout by (unfold x0; lia). by apply H3.
    + destruct (Forall2_lookup_lr _ _ _ _ _ _ HA Hb' Ha') as (I1 & I2 & I3). split_and!; try done.
      intros o u Ho' Hv. rewrite Hout; [by apply I3|]. intros E. apply (far_in b b' x0); [|done|].
      * apply Hfar. apply list_elem_of_lookup. 
        destruct (decide (j < i)%nat) as [Hlt|Hge].
        -- exists j. by rewrite list_lookup_delete_lt.
        -- exists (j - 1)%nat. rewrite list_lookup_delete_ge by lia. by replace (S (j - 1)) with j by lia.
      * rewrite <- E. unfold in_slot, inside. lia.
  - by rewrite alter_map.
Qed.

Definition base_kept (base : Z -> Prop) w w' : Prop := forall x, base x -> cont (wk w') x = cont (wk w) x.

Lemma alloc_kept base w B size flags r w' :
  world_inv base w B -> allocated base w B size flags r w' -> base_kept base w w'.
Proof. intros HW [Hk _] x Hx. apply Hk, (w_used _ _ _ HW). by left. Qed.

Lemma mod_small_pow p j : 0 <= j <= 3 -> p mod 8 = 0 -> p mod 2 ^ j = 0.
Proof.
  intros Hj Hp. assert (j = 0 \/ j = 1 \/ j = 2 \/ j = 3) as [->|[->|[->| ->]]] by lia; cbn [Z.pow Z.pow_pos Pos.iter]; mlia.
Qed.
Lemma align_block base w B j size flags :
  world_inv base w B -> supply (wk w) (align_need j size) -> 0 <= j -> 0 <= size < 2 ^ 30 - 128 -> size + 2 ^ j < 2 ^ 30 - 128 -> plain flags -> accepts flags ->
  Z.land flags GFP_MASK_TYPE < 5 ->
  exists p w', (if 2 ^ j <=? HEAP_ALIGNMENT then mheap_malloc debug_init size flags w
    else mheap_memalign debug_init (2 ^ j) size flags w) = Ret (Some p, w') /\
    allocated base w B (block_size size) flags p w' /\ (p + 8) mod 2 ^ j = 0.
Proof.
  intros HW Hsup Hj Hs Hsj Hpl Hacc Hty. unfold align_need in Hsup. unfold HEAP_ALIGNMENT in *. destruct (Z.leb_spec (2 ^ j) 8) as [Hle|Hgt].
  - destruct (malloc_block base w B size flags) as (p & w' & -> & Hr); try done. exists p, w'. split; [done|]. split; [done|].
    destruct Hr as [_ (m & HW' & _)]. pose proof (w_blocks _ _ _ HW') as Hb.
    apply Forall_cons in Hb as [(Hp & _) _]. cbn [s_addr] in Hp. apply mod_small_pow; [|mlia].
    split; [done|]. apply (Z.pow_le_mono_r_iff 2); [lia|lia|exact Hle].
  - destruct (request_size size Hs) as [Hbs Hbs8]. apply memalign_block; [exact HW|exact Hsup| |lia|exact Hbs8|lia|done..].
    change 8 with (2 ^ 3) in Hgt. apply Z.pow_lt_mono_r_iff in Hgt; lia.
Qed.

(** Every call returns, does what it promises and leaves the memory of others alone. *)
Lemma client_step_ok base w ps A c :
  client_inv base w ps A -> admissible c A -> supplied c w ->
  exists o w' ps' A', hstep c w ps = Ret (o, w', ps') /\ aspec c A o A' /\ client_inv base w' ps' A' /\ base_kept base w w'.
Proof.
  intros (B & HW & HA & ->) Had Hsup. pose proof (fun i => list_lookup_fmap ar_addr A i) as Hlk. unfold hstep.
  assert (Hsame : client_inv base w (map ar_addr A) A) by (by exists B).
  destruct c as [size flags|j size flags|i|i off v|i off|i|i]; cbn [admissible aspec supplied] in *.
  - destruct Had as (H1 & H2 & H3 & H4). unfold kmalloc. rewrite (proj2 (Z.ltb_lt _ _)) by done. cbn [oassert].
    destruct (malloc_block base w B size flags) as (p & w' & -> & Hr); try done. cbn [obind].
    destruct (alloc_client base w B A size flags p w' 8) as (A' & Hf & Hi); try done.
    { destruct Hr as [_ (m & HW' & _)]. pose proof (w_blocks _ _ _ HW') as Hb.
      apply Forall_cons in Hb as [(Hp & _) _]. cbn [s_addr] in Hp. mlia. }
    do 4 eexists. split; [done|]. split; [done|]. split; [done|]. by eapply alloc_kept.
  - destruct Had as ((H1 & H2 & H3 & H4) & Hj & Hsj). unfold kmemalign. rewrite (proj2 (Z.ltb_lt _ _)) by done. cbn [oassert].
    destruct (align_block base w B j size flags) as (p & w' & -> & Hr & Hal); try done. cbn [obind].
    destruct (alloc_client base w B A size flags p w' (2 ^ j)) as (A' & Hf & Hi); try done.
    do 4 eexists. split; [done|]. split; [done|]. split; [done|]. by eapply alloc_kept.
  - rewrite Hlk. destruct (A !! i) as [a|] eqn:Ea; cbn [fmap option_fmap option_map].
    + destruct (client_block _ _ _ _ _ _ HW HA Ea) as (b & Hb & Hok & (R1 & R2 & R3) & _ & Hne & Hget).
      unfold kmalloc_usable_size. rewrite (proj2 (Z.eqb_neq _ _)), Hget by done. cbn [obind]. unfold MPTR_USERSIZE.
      destruct (header_parts w b Hok) as (-> & _). destruct Hok as (_ & _ & Hs & _). rewrite uptr_id by (unfold sizeof_mptr; pow_num; lia).
      do 4 eexists. split; [done|]. split_and!; try done. intros a' [= <-]. by rewrite R2.
    + do 4 eexists. split; [done|]. by split_and!.
  - rewrite Hlk. destruct (A !! i) as [a|] eqn:Ea; cbn [fmap option_fmap option_map].
    + destruct (write_client base w B A i a off v HW HA Ea (Had a eq_refl)) as [Hk Hi].
      do 4 eexists. split; [done|]. by split_and!.
    + do 4 eexists. split; [done|]. split; [done|]. by rewrite alter_none.
  - rewrite Hlk. destruct (A !! i) as [a|] eqn:Ea; cbn [fmap option_fmap option_map].
    + destruct (client_block _ _ _ _ _ _ HW HA Ea) as (b & Hb & Hok & (R1 & R2 & R3) & _).
      do 4 eexists. split; [done|]. split_and!; try done. intros a' v [= <-] Hv. f_equal. apply R3; [by apply Had|done].
    + do 4 eexists. split; [done|]. by split_and!.
  - rewrite Hlk. destruct (A !! i) as [a|] eqn:Ea; cbn [fmap option_fmap option_map].
    + rewrite kfree_flags. destruct (free_client base w B A i a 0) as (w' & -> & Hk & Hi); try done. cbn [obind].
      do 4 eexists. split; [done|]. by split_and!.
    + do 4 eexists. split; [done|]. split; [done|]. by rewrite delete_none.
  - rewrite Hlk. destruct (A !! i) as [a|] eqn:Ea; cbn [fmap option_fmap option_map].
    + destruct (free_client base w B A i a GFP_CALLOC) as (w' & -> & Hk & Hi); try done; [by intros _; apply Had|].
      cbn [obind]. do 4 eexists. split; [done|]. by split_and!.
    + do 4 eexists. split; [done|]. split; [done|]. by rewrite delete_none.
Qed.

(** ** Runs *)

Fixpoint hrun (cs : list hcall) w (ps : list Z) : outcome (list output * world * list Z) :=
  match cs with
  | [] => Ret ([], w, ps)
  | c :: cs =>
      let! (o, w, ps) := hstep c w ps in
      let! (os, w, ps) := hrun cs w ps in
      Ret (o :: os, w, ps)
  end.

Inductive aspecs : list hcall -> list array -> list output -> list array -> Prop :=
  | aspecs_nil A : aspecs [] A [] A
  | aspecs_cons c cs A o A1 os A2 : aspec c A o A1 -> aspecs cs A1 os A2 -> aspecs (c :: cs) A (o :: os) A2.

(** A client that stays inside its arrays, whatever it is given. *)
Fixpoint safe (cs : list hcall) (A : list array) : Prop :=
  match cs with
  | [] => True
  | c :: cs => admissible c A /\ forall o A', aspec c A o A' -> safe cs A'
  end.

#[export] Instance supplied_dec c w : Decision (supplied c w).
Proof. destruct c; cbn [supplied]; unfold supply; apply _. Defined.

(** The calls [cs] return and do what they promise. *)
Definition serves (base : Z -> Prop) (cs : list hcall) w (ps : list Z) (A : list array) w' : Prop :=
  exists os ps' A', hrun cs w ps = Ret (os, w', ps') /\ aspecs cs A os A' /\ client_inv base w' ps' A' /\ base_kept base w w'.

Lemma client_run_ok base cs w ps A :
  client_inv base w ps A -> safe cs A ->
  exists cs1 cs2 w', cs = cs1 ++ cs2 /\ serves base cs1 w ps A w' /\
    match cs2 with [] => True | c :: _ => ~ supplied c w' end.
Proof.
  revert w ps A. induction cs as [|c cs IH]; intros w ps A HI Hs.
  { exists [], [], w. split; [done|]. split; [|done]. exists [], ps, A. split_and!; try done. constructor. }
  destruct (decide (supplied c w)) as [Hsup|Hno].
  2: { exists [], (c :: cs), w. split; [done|]. split; [|done]. exists [], ps, A. split_and!; try done. constructor. }
  destruct Hs as [Had Hs]. destruct (client_step_ok base w ps A c HI Had Hsup) as (o & w1 & ps1 & A1 & E & Hsp & HI1 & Hk).
  destruct (IH w1 ps1 A1 HI1 (Hs o A1 Hsp)) as (cs1 & cs2 & w' & -> & (os & ps' & A' & E' & Hsp' & HI' & Hk') & Hend).
  exists (c :: cs1), cs2, w'. split; [done|]. split; [|done]. exists (o :: os), ps', A'. split_and!; try done.
  - cbn [hrun]. rewrite E. cbn [obind]. by rewrite E'.
  - by econstructor.
  - intros x Hx. by rewrite Hk', Hk.
Qed.

End Client.
