(* ===== verification/HeapPages.v ===== *)
(** * The heap of physical memory

    [core_page_alloc] and its companions for [GFP_MEMORY] take pages from the page
    allocator (PageAlloc.v).  They meet what the heap relies on (the class of HeapSpec.v),
    so that what is shown of the heap there holds of kmalloc(GFP_MEMORY). *)
From stdpp Require Import base numbers list sorting.
From S2P Require Import Prelude Align PageAlloc ATree Heap HeapSpec HeapInv HeapOps HeapAcquire HeapMalloc HeapClient.

(** ** The code *)

Definition GFP_MEMORY : Z := 4.
Definition MEMORY_PHYS_ZONE : nat := 1.

(** No heap is trimmed yet. *)
Definition kmalloc_trim (max_free : Z) : Z := 0.

(** The cache of dentries by their reference counts.  A dentry is destroyed with its last
    reference. *)
Definition sizeof_dentry : Z := 56.
Fixpoint clearcache_loop (dentry_cache : list Z) : Z :=
  match dentry_cache with
  | [] => 0
  | d_refcnt :: dentry_cache => (if d_refcnt - 1 =? 0 then sizeof_dentry else 0) + clearcache_loop dentry_cache
  end.
(** [upgraded]: the lock of the cache could be had for writing. *)
Definition dentry_clearcache_freemem (upgraded : bool) (dentry_cache : list Z) : Z * list Z :=
  if (zlen dentry_cache =? 0) || negb upgraded then (0, dentry_cache) else (clearcache_loop dentry_cache, []).
Definition SSIZE_MAX : Z := 0x7fffffff.
Definition mman_swapmem (upgraded : bool) (dentry_cache : list Z) (max_swap flags : Z) : Z * list Z :=
  let result := kmalloc_trim max_swap in
  let '(result, dentry_cache) :=
    if max_swap <=? result then (result, dentry_cache)
    else let '(freed, dentry_cache) := dentry_clearcache_freemem upgraded dentry_cache in (result + freed, dentry_cache) in
  (if SSIZE_MAX <? result then SSIZE_MAX else result, dentry_cache).
Definition EAGAIN : Z := 11.
Definition E_ISOK (x : Z) : bool := uptr x <? 0xfffffc00.
Definition MMAN_SWAPOK (e : Z) : bool := E_ISOK e || (e =? - EAGAIN).

Section Pages.

Context (debug_init : option Z) (REF : Z) (spec : mzonespec).
(** How many attempts to get memory are looked at. *)
Context (fuel : nat).

Fixpoint page_malloc_swap (fuel : nat) (dentry_cache : list Z) (n_bytes flags : Z) (st : pages) : outcome (option Z * pages) :=
  match fuel with
  | O => Abort
  | S fuel =>
      let! (result, st) := page_malloc (2 ^ 32) REF st n_bytes (GFP_GTPAGEATTR flags) MEMORY_PHYS_ZONE in
      match result with
      | Some p => Ret (Some p, st)
      | None =>
          let '(error, dentry_cache) := mman_swapmem true dentry_cache n_bytes flags in
          if MMAN_SWAPOK error then page_malloc_swap fuel dentry_cache n_bytes flags st else Ret (None, st)
      end
  end.

(** The memory the page allocator hands out: its pages are zero where it says so. *)
Definition page_of (x : Z) : Z := x / 4096 * 4096.
Definition handed_out (p n : Z) (st : pages) (c : contents) : contents :=
  fun x => if (p <=? x) && (x <? p + n) && ctrl_zero (mem st (page_of x)) && body_zero (mem st (page_of x))
           then Some 0 else c x.
(** The pages it gets back are zero if all their bytes are. *)
Definition all_zero (c : contents) (a : Z) : bool :=
  forallb (fun i => match c (a + i) with Some 0 => true | _ => false end) (seqZ 0 4096).
Definition taken_back (p n : Z) (c : contents) (st : pages) : pages :=
  set_mem st (fun a => if (p <=? a) && (a <? p + n) then if all_zero c a then zero_page else dirty_page else mem st a).

(** No dentry is in the cache: what destroying one gives back to the heaps is not followed. *)
Definition mem_page_alloc (n_bytes flags : Z) (st : pages) (c : contents) : outcome (option Z * pages * contents) :=
  let! (result, st) := page_malloc_swap fuel [] n_bytes flags st in
  match result with
  | None => Ret (None, st, c)
  | Some p =>
      let c := handed_out p n_bytes st c in
      let c := match debug_init with
               | Some b => if wants_zero flags then c else fill p n_bytes (Some b) c
               | None => c
               end in
      Ret (Some p, st, c)
  end.
Definition mem_page_allocat (start n_bytes flags : Z) (st : pages) (c : contents) : outcome (option Z * pages * contents) :=
  assert! IS_ALIGNED start PAGESIZE ;;
  let! (result, st) := page_malloc_at (2 ^ 32) REF spec st start n_bytes (GFP_GTPAGEATTR flags) in
  match result with
  | None => Ret (None, st, c)
  | Some p =>
      let c := handed_out p n_bytes st c in
      let c := match debug_init with
               | Some b => if wants_zero flags then c else fill p PAGESIZE (Some b) c
               | None => c
               end in
      Ret (Some p, st, c)
  end.
Definition mem_page_free (ptr n_bytes flags : Z) (st : pages) (c : contents) : outcome (pages * contents) :=
  assert! IS_ALIGNED ptr PAGESIZE ;;
  assert! ptr <=? uptr (ptr + CEIL_ALIGN (2 ^ 32) n_bytes PAGESIZE) ;;
  let! st := page_ffree (2 ^ 32) REF spec (taken_back ptr n_bytes c st) ptr n_bytes (GFP_GTPAGEATTR flags) in
  Ret (st, c).

#[global] Instance mem_pages : PageOps pages :=
  { core_page_alloc := mem_page_alloc; core_page_allocat := mem_page_allocat; core_page_free := mem_page_free }.

End Pages.

(** ** What the heap relies on *)

Section Source.

Context (debug_init : option Z) (REF : Z) (more : nat).
#[local] Existing Instance mem_pages.
#[local] Abbreviation spec := mzone_spec_i386.
#[local] Abbreviation mem_end := (phys_end spec).

(** The first page is never handed out. *)
Definition mem_ok (st : pages) : Prop := pages_inv spec st /\ forall x, is_free st x -> 4096 <= x.
Definition mem_mapped (st : pages) (x : Z) : Prop := 4096 <= x < mem_end /\ ~ is_free st x.
Definition mem_enough (st : pages) (n : Z) : bool :=
  existsb (fun z => existsb (fun r => n <=? p_size r) (z_root z)) (page_zones st).
Definition mem_accepts (f : Z) : Prop := Z.land f GFP_MASK_TYPE = GFP_MEMORY.

Lemma mem_end_bound : mem_end <= 2 ^ 32 - 4096.
Proof. pose proof (phys_end_W (2 ^ 32) spec). unfold PAGESIZE in *. lia. Qed.
Lemma attr_zero f : has_zero (GFP_GTPAGEATTR f) = wants_zero f.
Proof.
  rewrite (has_zero_odd _), wants_zero_bit, <- Z.bit0_odd. unfold GFP_GTPAGEATTR. rewrite Z.shiftr_spec by lia.
  rewrite Z.land_spec. change (Z.testbit GFP_MASK_FREE (0 + 4)) with true. apply andb_true_r.
Qed.
Lemma pages_2 st i z : pages_inv spec st -> page_zones st !! i = Some z -> (i <= 1)%nat.
Proof. intros Hi Hz. pose proof (zone_index spec st i z Hi Hz). cbn in *. lia. Qed.

Lemma swap_ok n f st :
  mem_ok st -> 0 < n -> n mod 4096 = 0 -> n < 2 ^ 32 -> mem_enough st n = true ->
  exists p st', page_malloc_swap REF (S more) [] n f st = Ret (Some p, st') /\ taken spec st st' p n (GFP_GTPAGEATTR f).
Proof.
  intros [Hi H0] Hn Hn8 Hlt Hen. cbn [page_malloc_swap].
  destruct (malloc_ok (2 ^ 32) REF spec st n (GFP_GTPAGEATTR f) MEMORY_PHYS_ZONE Hi) as (r & st' & -> & Hr);
    [lia|unfold MEMORY_PHYS_ZONE; cbn; lia|]. cbn [obind]. destruct r as [p|].
  - destruct Hr as (Ht & _). rewrite ceil_page_id in Ht; [by exists p, st'|lia|unfold PAGESIZE; pow_num; mlia|done].
  - exfalso. destruct Hr as [_ Hr]. apply existsb_exists in Hen as (z & Hz & Hen).
    apply existsb_exists in Hen as (r & Hr' & Hle). apply list_elem_of_In, list_elem_of_lookup in Hz as [i Hz].
    apply list_elem_of_In in Hr'. apply Z.leb_le in Hle. specialize (Hr i z r).
    pose proof (pages_2 _ _ _ Hi Hz). unfold MEMORY_PHYS_ZONE in Hr. specialize (Hr ltac:(lia) Hz Hr'). lia.
Qed.

Lemma page_of_in p n x : p mod 4096 = 0 -> n mod 4096 = 0 -> PageAlloc.inside p n x ->
  PageAlloc.inside p n (page_of x) /\ page_of x mod 4096 = 0.
Proof. intros Hp Hn Hx. unfold PageAlloc.inside, page_of in *. split; [mlia|]. apply Z.mod_mul. lia. Qed.

Lemma mem_alloc_ok n f st c :
  mem_ok st -> mem_accepts f -> 0 < n -> n mod 4096 = 0 -> n < 2 ^ 32 -> mem_enough st n = true ->
  exists p s' c', mem_page_alloc debug_init REF (S more) n f st c = Ret (Some p, s', c') /\ mem_ok s' /\
    (forall x, mem_mapped st x -> c' x = c x) /\
    p mod 4096 = 0 /\ (forall x, inside p n x -> ~ mem_mapped st x) /\
    (forall x, mem_mapped s' x <-> mem_mapped st x \/ inside p n x) /\ (wants_zero f = true -> zero c' p n).
Proof.
  intros Hok _ Hn Hn8 Hlt Hen. unfold mem_page_alloc.
  destruct (swap_ok n f st Hok Hn Hn8 Hlt Hen) as (p & st' & -> & (T1 & T2 & T3 & T4 & T5 & T6)). cbn [obind].
  destruct Hok as [Hi H0]. set (c1 := handed_out p n st' c).
  set (c2 := match debug_init with Some b => if wants_zero f then c1 else fill p n (Some b) c1 | None => c1 end).
  assert (Hout : forall x, ~ inside p n x -> c2 x = c x).
  { intros x Hx. assert (E : c1 x = c x).
    { unfold c1, handed_out. unfold inside in Hx. destruct (Z.leb_spec p x), (Z.ltb_spec x (p + n)); cbn [andb]; try done; lia. }
    unfold c2. destruct debug_init; [|done]. destruct (wants_zero f); [done|]. by rewrite fill_out. }
  assert (Hnew : forall x, inside p n x -> is_free st x) by exact T3.
  do 3 eexists. split; [done|]. split; [split; [done|]|split; [|split; [done|split; [|split]]]].
  - intros x Hx. apply T4 in Hx as [Hx _]. by apply H0.
  - intros x [_ Hx]. apply Hout. intros Hi'. by apply Hx, Hnew.
  - intros x Hx [_ Hf]. by apply Hf, Hnew.
  - intros x. unfold mem_mapped. rewrite T4. change (PageAlloc.inside p n x) with (inside p n x). split.
    + intros [Hb Hf]. destruct (decide (inside p n x)); [by right|]. left. split; [done|]. tauto.
    + intros [[Hb Hf]|Hx]; [tauto|]. pose proof (Hnew x Hx) as Hf. split; [|tauto].
      pose proof (free_below_end (2 ^ 32) spec st x Hi Hf). specialize (H0 x Hf). lia.
  - intros Hw x Hx. assert (E : c1 x = Some 0).
    { destruct (page_of_in p n x T2 Hn8 Hx) as [P1 P2]. rewrite attr_zero in T5. pose proof (T5 Hw _ P2 P1) as Ez.
      unfold c1, handed_out. rewrite Ez. unfold inside in Hx. by rewrite (proj2 (Z.leb_le _ _)), (proj2 (Z.ltb_lt _ _)) by lia. }
    unfold c2. destruct debug_init; [|done]. by rewrite Hw.
Qed.

Lemma all_zero_ok c a : (forall x, inside a 4096 x -> c x = Some 0) -> all_zero c a = true.
Proof.
  intros H. unfold all_zero. apply forallb_forall. intros i Hi. apply list_elem_of_In, elem_of_seqZ in Hi.
  rewrite H; [done|]. unfold inside. lia.
Qed.
Lemma taken_back_inv p n c st :
  mem_ok st -> (forall x, inside p n x -> ~ is_free st x) -> mem_ok (taken_back p n c st).
Proof.
  intros [[H1 H2 H3] H0] Hf. split; [|exact H0]. split; [done|done|]. intros i z Hz. cbn [taken_back set_mem mem].
  apply (clean_frames (mem st)); [|by apply (H3 i)]. intros a Ha.
  destruct (Z.leb_spec p a), (Z.ltb_spec a (p + n)); cbn [andb]; try done. exfalso. apply (Hf a); [unfold inside; lia|].
  by exists i, z.
Qed.

Lemma mem_free_ok p n f st c :
  mem_ok st -> mem_accepts f -> 0 < n -> p mod 4096 = 0 -> n mod 4096 = 0 ->
  (forall x, inside p n x -> mem_mapped st x) -> (wants_zero f = true -> zero c p n) ->
  exists s' c', mem_page_free REF spec p n f st c = Ret (s', c') /\ mem_ok s' /\
    (forall x, mem_mapped s' x <-> mem_mapped st x /\ ~ inside p n x) /\ (forall x, mem_mapped s' x -> c' x = c x).
Proof.
  intros Hok _ Hn Hp Hn8 Hm Hz. pose proof mem_end_bound as Hend. pow_num.
  destruct (Hm p) as [Hb1 _]; [unfold inside; lia|]. destruct (Hm (p + n - 1)) as [Hb2 _]; [unfold inside; lia|].
  unfold mem_page_free. rewrite (proj2 (aligned_page _)) by done. cbn [oassert].
  rewrite ceil_page_id by (unfold PAGESIZE; pow_num; first [lia|done]).
  rewrite uptr_id, (proj2 (Z.leb_le _ _)) by (pow_num; lia). cbn [oassert].
  destruct (taken_back_inv p n c st Hok) as [Hi' H0']; [intros x Hx; by apply Hm|].
  destruct (ffree_ok (2 ^ 32) REF spec (taken_back p n c st) p n (GFP_GTPAGEATTR f)) as (st' & -> & G1 & G2 & G3);
    try done; try lia; rewrite ?ceil_page_id by (unfold PAGESIZE; pow_num; first [lia|done]).
  { intros x Hx. by apply Hm. }
  { rewrite attr_zero. intros Hw a Ha Hin. cbn [taken_back set_mem mem]. unfold PageAlloc.inside in Hin.
    rewrite (proj2 (Z.leb_le _ _)), (proj2 (Z.ltb_lt _ _)) by lia. cbn [andb]. rewrite all_zero_ok; [done|].
    intros x Hx. apply (Hz Hw). unfold inside in *. mlia. }
  cbn [obind]. rewrite ceil_page_id in G2 by (unfold PAGESIZE; pow_num; first [lia|done]).
  change (PageAlloc.inside p n) with (inside p n) in G2. exists st', c. split; [done|]. split; [split; [done|]|split; [|done]].
  - intros x Hx. apply G2 in Hx as [Hx|Hx]; [by apply H0'|]. unfold inside in Hx. lia.
  - intros x. unfold mem_mapped. rewrite G2. change (is_free (taken_back p n c st) x) with (is_free st x). tauto.
Qed.

#[global] Instance mem_source : @PageSource pages (mem_pages debug_init REF spec (S more)).
Proof.
  refine {| source_ok := mem_ok; mapped := mem_mapped; enough := mem_enough; accepts := mem_accepts |}.
  - intros f g E Hf. unfold mem_accepts in *. congruence.
  - intros s x _ [Hx _]. pose proof mem_end_bound. lia.
  - exact mem_alloc_ok.
  - exact mem_free_ok.
Defined.

End Source.
