(* ===== verification/HeapTheorems.v ===== *)
(** * The kernel heap: its guarantees

    What the heap promises to the owners of memory, and where the code does not keep what
    its documentation says. *)
From stdpp Require Import base numbers list sorting.
From S2P Require Import Prelude Align PageAlloc ATree Heap HeapSpec HeapInv HeapOps HeapAcquire HeapMalloc HeapClient HeapPages.

(** ** The heap at boot *)

Section Boot.

Context {P : Type} `{!PageOps P, !PageSource P}.

Definition boot_state (overalloc freethresh : Z) (s : P) (c : contents) : state :=
  State (MHEAP_INIT overalloc freethresh) (fun _ => Mfree 0 0) s c.

Lemma boot_inv overalloc freethresh s c :
  source_ok s -> 0 <= overalloc < 2 ^ 29 -> overalloc mod 4096 = 0 -> 4096 <= freethresh <= 2 ^ 30 ->
  heap_inv (boot_state overalloc freethresh s c).
Proof.
  intros Hs Ho Ho8 Hf. exists []. split; [|constructor].
  assert (Hno : forall x, ~ free_in [] x) by (intros x (sl & Hsl & _); by apply elem_of_nil in Hsl).
  split; [split|..]; try done.
  - intros sl Hsl. by apply elem_of_nil in Hsl.
  - intros sl S' HS. by apply Permutation_nil_cons in HS.
  - intros sl Hsl. by apply elem_of_nil in Hsl.
  - intros x Hx. by apply Hno in Hx.
  - split; [done|]. split; [done|]. apply Forall_replicate. constructor.
Qed.

End Boot.

(** [mheaps[GFP_MEMORY]] of a kernel that has the memory [st]. *)
Definition HEAP_DEFAULT_OVERALLOC_MEMORY : Z := 0.
Definition HEAP_DEFAULT_FREETHRESH_MEMORY : Z := PAGESIZE.
Definition boot_world (st : pages) (c : contents) : world :=
  World (boot_state HEAP_DEFAULT_OVERALLOC_MEMORY HEAP_DEFAULT_FREETHRESH_MEMORY st c) (fun _ => 0).

Section Memory.

Context (debug_init : option Z) (REF : Z) (more : nat).
#[local] Instance ops : PageOps pages := mem_pages debug_init REF mzone_spec_i386 (S more).
#[local] Instance source : PageSource pages := mem_source debug_init REF more.

Lemma boot_client st c : mem_ok st -> client_inv (mem_mapped st) (boot_world st c) [] [].
Proof.
  intros Hok. exists []. split; [|by split; [constructor|]].
  assert (Hh : heap_inv (wk (boot_world st c))) by (by apply boot_inv).
  assert (Hno : forall x, ~ free_in [] x) by (intros x (sl & Hsl & _); by apply elem_of_nil in Hsl).
  split; try done.
  - intros x. split; [intros [Hx _]; by left|]. intros [Hx|Hx]; [|by apply Hno in Hx]. split; [exact Hx|].
    intros (l & Hl & _). by apply elem_of_nil in Hl.
  - intros sl S' HS. by apply Permutation_nil_cons in HS.
Qed.

(** C3: kmalloc() and its companions for physical memory, on the page allocator.  For
    clients that stay inside the arrays they are given, any sequence of allocations,
    writes, reads and frees from boot on returns and behaves as if every array were
    memory of its own: arrays never overlap each other or memory that was in use before,
    are aligned and large enough, hold zeros if they were asked for, and keep what was
    written to them; nobody else's memory is changed.  The only way not to get there is a
    call for which there is no free range and the page allocator has not enough memory. *)
Theorem kmalloc_refines st c cs :
  mem_ok st -> safe cs [] ->
  exists cs1 cs2 w', cs = cs1 ++ cs2 /\ serves debug_init (mem_mapped st) cs1 (boot_world st c) [] [] w' /\
    match cs2 with [] => True | call :: _ => ~ supplied call w' end.
Proof. intros Hok Hs. apply client_run_ok; [by apply boot_client|done]. Qed.

End Memory.

(** ** Without memory *)

Lemma search_none W n attr l res :
  Forall (fun r => p_size r < n) l -> search_zone W n attr l None = Ret res -> res = None.
Proof.
  induction l as [|r l IH]; intros Hl E; [by injection E as <-|]. apply Forall_cons in Hl as [Hr Hl].
  cbn [search_zone] in E. destruct (ASSERT_FREEPAGE r); [|done]. cbn [oassert] in E.
  destruct (match l with [] => true | p :: _ => _ end); [|done]. cbn [oassert] in E.
  rewrite (proj2 (Z.ltb_lt _ _)) in E by done. by apply IH.
Qed.
Lemma malloc_none W REF st n attr zone res st' :
  mem_enough st n = false -> page_malloc W REF st n attr zone = Ret (res, st') -> res = None.
Proof.
  intros Hen. induction zone as [|zone IH]; cbn [page_malloc]; unfold PAGEZONE;
    (destruct (page_zones st !! _) as [z|] eqn:Hz; [|done]); cbn [obind];
    (destruct (search_zone W n attr (z_root z) None) as [best|] eqn:E; [|done]); cbn [obind].
  all: apply search_none in E as ->; [by first [intros [= <- <-]|apply IH]|].
  all: apply Forall_forall; intros r Hr; apply Z.lt_nge; intros Hle; apply not_true_iff_false in Hen; apply Hen.
  all: apply existsb_exists; exists z; split; [by eapply list_elem_of_In, list_elem_of_lookup_2|].
  all: apply existsb_exists; exists r; split; [by apply list_elem_of_In|by apply Z.leb_le].
Qed.

(** [mman_swapmem] is documented to fail with [-ENOMEM] when it could free nothing; it never fails,
    whatever is in the cache of dentries. *)
Lemma swapmem_never_fails upgraded cache n f : MMAN_SWAPOK (mman_swapmem upgraded cache n f).1 = true.
Proof.
  assert (Hl : forall l, 0 <= clearcache_loop l).
  { intros l. induction l as [|d l IH]; cbn [clearcache_loop]; [done|]. unfold sizeof_dentry. destruct (d - 1 =? 0); lia. }
  assert (Hr : 0 <= (mman_swapmem upgraded cache n f).1 <= SSIZE_MAX).
  { unfold mman_swapmem, kmalloc_trim, dentry_clearcache_freemem. specialize (Hl cache).
    destruct (n <=? 0); [done|]. destruct (_ || _); [done|]. cbn [fst]. destruct (Z.ltb_spec SSIZE_MAX (0 + clearcache_loop cache)); [done|lia]. }
  unfold MMAN_SWAPOK, E_ISOK. unfold SSIZE_MAX in Hr. rewrite uptr_id by (pow_num; lia). by rewrite (proj2 (Z.ltb_lt _ _)) by lia.
Qed.

Lemma swap_forever REF fuel n f st :
  mem_ok st -> 0 <= n -> mem_enough st n = false -> page_malloc_swap REF fuel [] n f st = Abort.
Proof.
  intros [Hi _] Hn Hen. induction fuel as [|fuel IH]; [done|]. cbn [page_malloc_swap].
  destruct (malloc_ok (2 ^ 32) REF mzone_spec_i386 st n (GFP_GTPAGEATTR f) MEMORY_PHYS_ZONE Hi) as (r & st' & E & Hr);
    [done|unfold MEMORY_PHYS_ZONE; cbn; lia|]. rewrite E. cbn [obind].
  pose proof (malloc_none _ _ _ _ _ _ _ _ Hen E) as ->. destruct Hr as [-> _].
  assert (mman_swapmem true [] n f = (0, [])) as -> by (unfold mman_swapmem, kmalloc_trim; by destruct (n <=? 0)). done.
Qed.

(** What kmalloc() does when memory has run out, no dentry is cached and nobody else gives memory back.
    It is documented to return NULL; but [core_page_alloc] tries again for as long as
    mman_swapmem() does not fail: with no free range for the block and no pages for it, however
    many attempts are looked at ([fuel]), the call has not returned. *)
Theorem kmalloc_never_null debug_init REF fuel size flags (w : world (P := pages)) :
  mem_ok (src (wk w)) -> 0 <= mh_lock (heap (wk w)) -> 0 <= size < 2 ^ 30 - 128 -> Z.land flags GFP_MASK_TYPE = GFP_MEMORY ->
  mh_overalloc (heap (wk w)) = HEAP_DEFAULT_OVERALLOC_MEMORY ->
  let n := Z.max 24 (block_size size) in
  find_chain (wk w) n (drop (Z.to_nat (HEAP_BUCKET_OF n)) (mh_size (heap (wk w)))) = None ->
  mem_enough (src (wk w)) (CEIL_ALIGN (2 ^ 32) n PAGESIZE) = false ->
  @kmalloc pages (mem_pages debug_init REF mzone_spec_i386 fuel) debug_init size flags w = Abort.
Proof.
  intros Hok Hlk Hs Hty Hov n Hf Hen. destruct (request_size size Hs) as [Hb Hb8].
  assert (Hn : 24 <= n < 2 ^ 30) by (unfold n; pow_num; lia).
  unfold kmalloc. rewrite Hty. change (GFP_MEMORY <? __GFP_HEAPCOUNT) with true. cbn [oassert].
  unfold mheap_malloc, mheap_acquire. fold (block_size size).
  rewrite (proj2 (aligned8 _)) by done. cbn [oassert]. unfold mheap_writing.
  change (mh_lock (heap (mheap_write (wk w)))) with (mh_lock (heap (wk w)) + 1).
  rewrite (proj2 (Z.ltb_lt _ _)) by lia. cbn [oassert]. rewrite MIN_24.
  replace (if block_size size <? 24 then 24 else block_size size) with n
    by (unfold n; destruct (Z.ltb_spec (block_size size) 24); lia).
  rewrite (proj2 (Z.leb_le _ HEAP_BUCKET_COUNT)) by (apply bucket_le; change (2 ^ 31) with 2147483648; pow_num; lia).
  cbn [oassert]. change (find_chain (mheap_write (wk w))) with (find_chain (wk w)).
  change (mh_size (heap (mheap_write (wk w)))) with (mh_size (heap (wk w))). rewrite Hf.
  change (mh_overalloc (heap (mheap_write (wk w)))) with (mh_overalloc (heap (wk w))). rewrite Hov.
  destruct (ceil_page (2 ^ 32) n) as [Hce _]; [lia|pow_num; unfold PAGESIZE; lia|].
  unfold HEAP_DEFAULT_OVERALLOC_MEMORY. rewrite Z.add_0_r, uptr_id by (pow_num; lia).
  unfold alloc_pages. cbn [core_page_alloc mem_pages]. unfold mem_page_alloc.
  change (src (mheap_write (wk w))) with (src (wk w)). by rewrite swap_forever by (done || lia).
Qed.

(** ** The operations of the heap *)

Section Operations.

Context {P : Type} `{!PageOps P, !PageSource P} (debug_init : option Z).

(** C16: releasing memory.  Memory in use that is aligned, and zero if that is promised, is taken
    back.  It becomes part of the free range in front of it if there is one, else of the one behind
    it, else a free range of its own.  A range that has grown, to the threshold of the heap and four
    pages, goes back to where pages come from, but for its ends of less than 4120 bytes, which are
    free ranges.  Exactly the memory released stops to be in use, and what is still in use keeps its
    contents.  The heap refuses only less than 24 bytes without a free neighbour, and then nothing
    changes.  The lock is released if asked for. *)
Theorem mheap_release_ok (k : state (P := P)) p n flags u :
  heap_inv k -> 0 < mh_lock (heap k) -> p mod 8 = 0 -> n mod 8 = 0 -> 0 <= n < 2 ^ 30 ->
  (forall x, inside p n x -> used k x) -> (wants_zero flags = true -> zero (cont k) p n) ->
  plain flags -> accepts flags ->
  exists b k', mheap_release debug_init p n flags u k = Ret (b, k') /\ heap_inv k' /\
    mh_lock (heap k') = mh_lock (heap k) - Z.b2z u /\ (b = false -> n < 24) /\
    (forall x, used k' x <-> used k x /\ (b = true -> ~ inside p n x)) /\
    (forall x, used k' x -> cont k' x = cont k x) /\ (0 < n -> merged k k' p n b).
Proof.
  intros H1 H2 H3 H4 H5 H6 H7 H8 H9.
  destruct (release_merges debug_init k p n flags u) as (b & k' & E & ((S1 & S2 & S3 & S4) & Hb) & Hm); try done.
  exists b, k'. split_and!; try done. intros x Hx. by apply S4, S3.
Qed.

(** C19: acquiring aligned memory.  If there is a free range for the request with its alignment and
    24 bytes more, or the page source has enough memory for the pages that takes, the call returns
    memory that nobody used, of the size that was asked for (24 bytes at least) or less than 24
    bytes more, zero if asked for, that starts [offset] bytes in front of a multiple of the
    alignment.  What was acquired around it is free again; all memory in use keeps its contents.
    The lock is released if asked for. *)
Theorem mheap_acquire_al_ok (k : state (P := P)) j offset n flags u :
  heap_inv k -> supply k (Z.max 24 n + 2 ^ j + 24) -> 0 < mh_lock (heap k) -> 3 <= j -> n mod 8 = 0 -> 0 <= n ->
  n + 2 ^ j < 2 ^ 30 - 96 -> 0 <= offset <= 4096 -> offset mod 8 = 0 -> plain flags -> accepts flags ->
  exists p m k', mheap_acquire_al debug_init (2 ^ j) offset n flags u k = Ret (Some (p, m), k') /\ heap_inv k' /\
    mh_lock (heap k') = mh_lock (heap k) - Z.b2z u /\
    (forall x, used k x -> cont k' x = cont k x) /\
    (p + offset) mod 2 ^ j = 0 /\ Z.max 24 n <= m < Z.max 24 n + 24 /\
    (forall x, inside p m x -> ~ used k x) /\ (forall x, used k' x <-> used k x \/ inside p m x) /\
    (wants_zero flags = true -> zero (cont k') p m).
Proof.
  intros H1 H2 H3 H4 H5 H6 H7 H8 H9 H10 H11.
  destruct (acquire_al_ok debug_init k j offset n flags u) as (p & m & k' & E & (A1 & _ & _ & [G1 G2 G3 G4 G5 G6]) & Hal); try done.
  exists p, m, k'. split_and!; try (done || lia). intros Hw x Hx. by apply G6.
Qed.

(** requests of nearly 4 GiB.  [MPTR_SIZEOF] of the size wraps around, and unlike
    kmalloc(), kmemalign() does not compare what it has got with what it was asked for: it
    returns a block of less than 48 bytes. *)
Theorem kmemalign_overflow base (w : world (P := P)) B j size flags :
  world_inv base w B -> supply (wk w) (align_need j size) -> 3 < j -> 2 ^ j < 2 ^ 30 - 128 -> 2 ^ 32 - 8 <= size < 2 ^ 32 ->
  plain flags -> accepts flags -> Z.land flags GFP_MASK_TYPE < 5 ->
  exists p w', kmemalign debug_init (2 ^ j) size flags w = Ret (p, w') /\
    (p <> 0 -> 16 <= MPTR_USERSIZE w' (p - 8) < 40).
Proof.
  intros HW Hsup Hj Hj2 Hs Hpl Hacc Hty. unfold kmemalign. rewrite (proj2 (Z.ltb_lt _ _)) by done. cbn [oassert].
  assert (Hal : (2 ^ j <=? HEAP_ALIGNMENT) = false).
  { apply Z.leb_gt. change HEAP_ALIGNMENT with (2 ^ 3). apply Z.pow_lt_mono_r; lia. }
  unfold align_need in Hsup. rewrite Hal in *.
  assert (Hbs : (block_size size = 0 \/ block_size size = 8) /\ block_size size mod 8 = 0).
  { assert (E : MPTR_SIZEOF size = size + 8 - 2 ^ 32).
    { unfold MPTR_SIZEOF, sizeof_mptr, uptr. symmetry. apply (Z.mod_unique_pos _ _ 1); pow_num; lia. }
    destruct (CEIL_ALIGN_bounds (2 ^ 32) (MPTR_SIZEOF size) 3) as [C1 C2]; [lia|lia|pow_num; lia|].
    unfold block_size. change HEAP_ALIGNMENT with (2 ^ 3). set (v := CEIL_ALIGN _ _ _) in *. clearbody v.
    change (2 ^ 3) with 8 in *. split; [|done]. mlia. }
  destruct Hbs as [Hbs Hbs8].
  destruct (memalign_block debug_init base w B j size flags HW Hsup) as (p & w' & -> & (_ & Hr) & _);
    try done; try lia. cbn [obind]. do 2 eexists. split; [done|].
  cbn [MPTR_USERADDR]. intros _. destruct Hr as (m & HW' & Hm & _).
  pose proof (w_blocks _ _ _ HW') as Hb. apply Forall_cons in Hb as [Hb _]. pose proof (header_parts w' _ Hb) as (Hsz & _).
  cbn [s_addr s_size] in Hsz. destruct Hb as (_ & _ & Hb & _). cbn [s_size] in Hb.
  destruct (used_range (wk w') p m) as [Hbot Htop]; [apply HW'|lia| |].
  { intros x Hx. apply (w_used _ _ _ HW'). right. apply free_cons. by left. }
  unfold sizeof_mptr. rewrite uptr_id by (pow_num; lia). replace (p + 8 - 8) with p by lia.
  unfold MPTR_USERSIZE, sizeof_mptr. rewrite Hsz, uptr_id by (pow_num; lia). lia.
Qed.

End Operations.

(** ** The theorems at work *)

Lemma sample_ok : mem_ok sample_pages.
Proof. split; [apply sample_pages_inv|]. intros x Hx. apply sample_free in Hx. lia. Qed.

#[local] Instance sample_ops : PageOps pages := mem_pages None (2 ^ 32) mzone_spec_i386 1.
#[local] Instance sample_source : PageSource pages := mem_source None (2 ^ 32) 0.
Definition sample_world : world := boot_world sample_pages (fun _ => Some 0xc3).
Definition sample_state : state := mheap_write (wk sample_world).
Lemma sample_world_inv : world_inv (mem_mapped sample_pages) sample_world [].
Proof.
  destruct (boot_client None (2 ^ 32) 0 sample_pages (fun _ => Some 0xc3) sample_ok) as (B & HW & HA & _).
  apply Forall2_nil_inv_r in HA as ->. exact HW.
Qed.
Lemma sample_state_inv : heap_inv sample_state.
Proof. apply lock_inv. apply sample_world_inv. Qed.
Lemma sample_used x : 0x300000 <= x < 0x400000 -> used sample_state x.
Proof.
  intros Hx. apply (w_used _ _ _ sample_world_inv). left. split.
  - change (phys_end mzone_spec_i386) with 0xc0000000. lia.
  - intros Hf. apply sample_free in Hf. lia.
Qed.

(** ** Two things that go wrong *)

(** The lists of free ranges end before sizes do: a range of 1 GiB or more belongs to a list
    there is none for. *)
Lemma bucket_count_short n : 2 ^ 30 <= n < 2 ^ 31 -> HEAP_BUCKET_OF n = HEAP_BUCKET_COUNT.
Proof.
  intros Hn. unfold HEAP_BUCKET_OF, HEAP_BUCKET_COUNT, CLZ, HEAP_BUCKET_OFFSET.
  assert (Z.log2 n = 30) as ->; [|done]. apply Z.log2_unique; [lia|exact Hn].
Qed.

(** A free range is to grow by 4080 bytes of the page behind it: the 16 bytes that are left of
    the page are too small to be free, go with it, and are forgotten. *)
Definition leak_before : outcome (bool * state) := mheap_release None 0xfffe0 32 GFP_MEMORY false sample_state.
Lemma acquire_at_leaks :
  match leak_before with
  | Ret (_, k) =>
      match mheap_acquire_at None 2 0xfffe0 (32 + 4080) GFP_MEMORY 0 k with
      | Ret (r, alloc_bytes, k') =>
          (r, alloc_bytes, mh_addr (heap k'), map z_root (page_zones (src k'))) =
          (Some 0xfffe0, 0x1010, ATREE_NULL, [[]; [mk_range 0x101000 0x7000 0; mk_range 0x200000 0x4000 1]])
      | Abort => False
      end
  | Abort => False
  end.
Proof. vm_compute. reflexivity. Qed.

(** A client: an array of zeros, a byte written to it and read back, and another array. *)
Definition sample_client : list hcall :=
  [HMalloc 100 (GFP_MEMORY + GFP_CALLOC); HWrite 0 5 7; HMemalign 6 200 GFP_MEMORY; HRead 1 5; HFree 0; HFree 0].

Lemma sample_client_safe : safe sample_client [].
Proof.
  cbn [safe sample_client]. split; [by vm_compute|]. intros o1 A1 (p & n & _ & _ & _ & Hn & _ & ->).
  split; [intros a [= <-]; cbn [ar_size]; lia|]. intros o2 A2 H2. cbn [aspec] in H2. subst A2.
  split; [by vm_compute|]. intros o3 A3 (p' & n' & _ & _ & _ & Hn' & _ & ->).
  split; [|by repeat split]. cbn [admissible]. intros a [= <-]. cbn [ar_size write_array]. lia.
Qed.

Lemma kmalloc_refines_witness :
  exists cs1 cs2 w', sample_client = cs1 ++ cs2 /\
    serves None (mem_mapped sample_pages) cs1 sample_world [] [] w' /\
    match cs2 with [] => True | call :: _ => ~ supplied call w' end.
Proof. exact (kmalloc_refines None (2 ^ 32) 0 sample_pages (fun _ => Some 0xc3) sample_client sample_ok sample_client_safe). Defined.

Lemma kmalloc_never_null_witness :
  @kmalloc pages (mem_pages None (2 ^ 32) mzone_spec_i386 1000) None 100000 GFP_MEMORY sample_world = Abort.
Proof.
  apply (kmalloc_never_null None (2 ^ 32) 1000%nat 100000 GFP_MEMORY sample_world).
  - exact sample_ok.
  - by vm_compute.
  - by vm_compute.
  - reflexivity.
  - reflexivity.
  - vm_compute. reflexivity.
  - vm_compute. reflexivity.
Defined.

(** 64 bytes are released, and then the rest of five pages behind them: the pages are returned. *)
Lemma mheap_release_ok_witness :
  exists k1 k2, mheap_release None 0x300000 64 GFP_MEMORY false sample_state = Ret (true, k1) /\
    free_range k1 0x300000 0x300040 /\
    mheap_release None 0x300040 0x4fc0 GFP_MEMORY true k1 = Ret (true, k2) /\ ~ mapped (src k2) 0x302000.
Proof.
  destruct (mheap_release_ok None sample_state 0x300000 64 GFP_MEMORY false) as (b & k1 & E & Hi & Hl & Hb & Hu & _);
    [exact sample_state_inv|by vm_compute|reflexivity|reflexivity|by vm_compute| |discriminate|reflexivity|reflexivity|].
  { intros x Hx. apply sample_used. unfold inside in Hx. lia. }
  destruct b; [|specialize (Hb eq_refl); discriminate Hb].
  assert (Hel : elements (mh_addr (heap k1)) = [Leaf 0x300000 0x30003f tt] /\ mh_freethresh (heap k1) = 4096).
  { assert (Hc : match mheap_release None 0x300000 64 GFP_MEMORY false sample_state with
      | Ret (_, k) => elements (mh_addr (heap k)) = [Leaf 0x300000 0x30003f tt] /\ mh_freethresh (heap k) = 4096
      | Abort => False end) by (vm_compute; split; reflexivity). rewrite E in Hc. exact Hc. }
  destruct Hel as [Hel Hth].
  assert (Hf1 : free_range k1 0x300000 0x300040) by (unfold free_range; rewrite Hel; by apply list_elem_of_singleton).
  destruct (mheap_release_ok None k1 0x300040 0x4fc0 GFP_MEMORY true) as (b & k2 & E2 & _ & _ & Hb2 & _ & _ & Hm2);
    [exact Hi|rewrite Hl; by vm_compute|reflexivity|reflexivity|by vm_compute| |discriminate|reflexivity|reflexivity|].
  { intros x Hx. apply Hu. unfold inside in *. split; [apply sample_used; lia|lia]. }
  destruct b; [|specialize (Hb2 eq_refl); discriminate Hb2].
  exists k1, k2. split; [exact E|]. split; [exact Hf1|]. split; [exact E2|].
  destruct (Hm2 eq_refl) as [(lo & Hlo & pb & pe & H1 & H2 & H3 & _ & H4 & H5)|(Hno & _)].
  2: { exfalso. apply Hno. exists (Leaf 0x300000 0x30003f tt). split; [exact Hf1|reflexivity]. }
  assert (lo = 0x300000) as ->.
  { unfold free_range in Hlo. rewrite Hel in Hlo. by apply list_elem_of_singleton in Hlo as [= ->]. }
  rewrite H3. intros [_ Hx]. apply Hx. unfold inside.
  destruct H5 as [H6 H7]; [rewrite Hth; lia|lia|]. lia.
Defined.

Lemma mheap_acquire_al_ok_witness :
  exists p m k', mheap_acquire_al None (2 ^ 6) 8 128 GFP_MEMORY true sample_state = Ret (Some (p, m), k') /\
    heap_inv k' /\ (p + 8) mod 64 = 0 /\ 128 <= m < 152.
Proof.
  destruct (mheap_acquire_al_ok None sample_state 6 8 128 GFP_MEMORY true) as (p & m & k' & E & Hi & _ & _ & Ha & Hm & _).
  - exact sample_state_inv.
  - by vm_compute.
  - by vm_compute.
  - lia.
  - reflexivity.
  - lia.
  - by vm_compute.
  - lia.
  - reflexivity.
  - reflexivity.
  - reflexivity.
  - exists p, m, k'. split; [exact E|]. split; [exact Hi|]. split; [exact Ha|exact Hm].
Defined.

Lemma kmemalign_overflow_witness :
  exists p w', kmemalign None (2 ^ 6) (2 ^ 32 - 1) GFP_MEMORY sample_world = Ret (p, w') /\
    (p <> 0 -> 16 <= MPTR_USERSIZE w' (p - 8) < 40).
Proof.
  apply (kmemalign_overflow None (mem_mapped sample_pages) sample_world [] 6 (2 ^ 32 - 1) GFP_MEMORY).
  - exact sample_world_inv.
  - by vm_compute.
  - lia.
  - by vm_compute.
  - by vm_compute.
  - reflexivity.
  - reflexivity.
  - by vm_compute.
Defined.
