(* ===== verification/Mman.v ===== *)
(** * Address spaces (src/kernel/mman/mman.c)

    A memory manager keeps its branches, the mapped address ranges, in an address tree and in
    a list in the order of their addresses.  Branches are objects at addresses of a store, which
    the tree and the list refer to.  What branches map, regions, and what happens to pages,
    directories and the memory of the branches themselves, is behind the interface
    [BranchOps]. *)
From stdpp Require Import base numbers list gmap.
From S2P Require Import Prelude Align ATree.

Definition uintptr (x : Z) : Z := x mod 2 ^ 32.

Definition EOK : Z := 0.
Definition ENOMEM : Z := 12.
Definition E_ISERR (x : Z) : bool := 0xfffffc00 <=? uintptr x.

(** [struct mbranch], [struct mman]; links in the objects are the tree and the list. *)
Record mbranch : Type := MBranch {
  mb_vmin : Z; mb_vmax : Z; mb_prot : Z; mb_start : Z; mb_region : Z; mb_notify : Z; mb_closure : Z }.
Record mman : Type := MMan { m_map : atree Z; m_order : list Z; branches : gmap Z mbranch }.

Definition MBRANCH_END (b : mbranch) : Z := uintptr (mb_vmax b + 1).
Definition MBRANCH_SIZE (b : mbranch) : Z := uintptr (mb_vmax b - mb_vmin b + 1).

Definition set_vmax (v : Z) (b : mbranch) : mbranch :=
  MBranch (mb_vmin b) v (mb_prot b) (mb_start b) (mb_region b) (mb_notify b) (mb_closure b).
Definition set_prot (p : Z) (b : mbranch) : mbranch :=
  MBranch (mb_vmin b) (mb_vmax b) p (mb_start b) (mb_region b) (mb_notify b) (mb_closure b).

Definition MREGION_TYPE_LOGUARD : Z := 2.
Definition MREGION_TYPE_HIGUARD : Z := 3.

Definition MNOTIFY_INCREF : Z := 0.
Definition MNOTIFY_DECREF : Z := 1.
Definition MNOTIFY_UNMAP : Z := 28.

Definition MMAN_MUNMAP_ALL : Z := 0.
Definition MMAN_MUNMAP_CLEAR : Z := 1.
Definition MMAN_MUNMAP_TAG : Z := 16.

Definition has (mode flag : Z) : bool := negb (Z.land mode flag =? 0).

(** What address spaces use of the other parts of the kernel: kmalloc() and kffree() of a
    branch, the regions, the page directory, and the function a branch has in [mb_notify],
    called with the event, [mb_closure] and a range. *)
Class BranchOps (E : Type) : Type := {
  mr_size : E -> Z -> Z;
  mr_type : E -> Z -> Z;
  kmalloc_branch : E -> option Z * E;
  kffree_branch : Z -> E -> E;
  MREGION_INCREF : Z -> E -> E;
  region_decfetch : Z -> E -> outcome E;
  mregion_incref : Z -> Z -> Z -> E -> outcome (Z * E);
  mregion_decref : Z -> Z -> Z -> E -> outcome (Z * E);
  mregion_decref_clr : Z -> Z -> Z -> E -> outcome (Z * E);
  mbranch_remap : mbranch -> bool -> E -> outcome (Z * E);
  mbranch_unmap : mbranch -> E -> outcome (Z * E);
  notify : Z -> Z -> Z -> Z -> Z -> E -> Z * E
}.

(** Following a pointer to a branch. *)
Definition branch_at (s : gmap Z mbranch) (p : Z) : outcome mbranch :=
  match s !! p with Some b => Ret b | None => Abort end.

Definition nonnull {T} (t : atree T) : bool := match t with ATREE_NULL => false | _ => true end.

(** A leaf of the tree and the range [addr_min .. addr_max]. *)
Definition hits (l : leaf Z) (addr_min addr_max : Z) : bool :=
  (addr_min <=? a_vmax l) && (a_vmin l <=? addr_max).

(** ** Looking for branches *)

Definition mman_getbranch_unlocked (self : mman) (addr : Z) : outcome (option Z) :=
  let! l := locate 32 (m_map self) addr in Ret (a_obj <$> l).

Fixpoint mman_findany (branch : atree Z) (addr_min addr_max addr_semi addr_level : Z)
    : outcome (option Z) :=
  match branch with
  | ATREE_NULL => Abort
  | Node l mn mx =>
      if hits l addr_min addr_max then Ret (Some (a_obj l)) else
      let walk_min := (addr_min <? addr_semi) && nonnull mn in
      let walk_max := (addr_semi <=? addr_max) && nonnull mx in
      let search_max :=
        let! (semi, level) := ATREE_WALKMAX addr_semi addr_level in
        mman_findany mx addr_min addr_max semi level in
      if walk_min then
        let! result := if walk_max then search_max else Ret None in
        match result with
        | Some _ => Ret result
        | None =>
            let! (semi, level) := ATREE_WALKMIN 32 addr_semi addr_level in
            mman_findany mn addr_min addr_max semi level
        end
      else if walk_max then search_max else Ret None
  end.

Definition mman_inuse_unlocked (self : mman) (start n_bytes : Z) : outcome bool :=
  if nonnull (m_map self) then
    let! r := mman_findany (m_map self) start (uintptr (start + n_bytes - 1)) (ATREE_SEMI0 32) (ATREE_LEVEL0 32) in
    Ret (match r with Some _ => true | None => false end)
  else Ret false.

(** The branches from [p] on, upwards and downwards: the links [mb_order.le_next] and
    [mb_order.le_pself]. *)
Fixpoint order_from (p : Z) (l : list Z) : list Z :=
  match l with [] => [] | x :: l' => if x =? p then l else order_from p l' end.
Definition order_to (p : Z) (l : list Z) : list Z := order_from p (reverse l).

Fixpoint valid_loop (s : gmap Z mbranch) (chain : list Z) (valid_end mask prot : Z) : outcome bool :=
  match chain with
  | [] => Ret false
  | iter :: chain =>
      let! b := branch_at s iter in
      if negb (Z.land (mb_prot b) mask =? prot) then Ret false
      else if valid_end <=? mb_vmax b then Ret true
      else match chain with
           | [] => Ret false
           | next :: _ =>
               let! n := branch_at s next in
               if mb_vmin n =? MBRANCH_END b then valid_loop s chain valid_end mask prot else Ret false
           end
  end.

Definition mman_valid_unlocked (self : mman) (start n_bytes mask prot : Z) : outcome bool :=
  if negb (nonnull (m_map self)) then Ret false else
  let valid_end := uintptr (start + n_bytes) in
  if valid_end <=? start then Ret false else
  let! iter := mman_getbranch_unlocked self start in
  match iter with
  | None => Ret false
  | Some iter => valid_loop (branches self) (order_from iter (m_order self)) (valid_end - 1) mask prot
  end.

(** ** Finding free address space *)

Definition VM_USER_BASE : Z := 0.
Definition VM_USER_MAX : Z := 0xbfffffff.
Definition VM_HOST_BASE : Z := 0xc0000000.
Definition VM_HOST_MAX : Z := 0xffffffff.
Definition PAGE_ERROR : Z := 0xffffffff.

Definition addr_isuser (ptr : Z) : bool := ptr <=? VM_USER_MAX.
Definition addr_isuser_r (ptr size : Z) : bool := uintptr (ptr + size) <=? VM_USER_MAX + 1.
Definition addr_ishost_r (ptr size : Z) : bool := VM_HOST_BASE <=? ptr.

Definition MMAN_FINDSPACE_ABOVE : Z := 0.
Definition MMAN_FINDSPACE_BELOW : Z := 1.
Definition MMAN_FINDSPACE_FORCEGAP : Z := 2.
Definition MMAN_FINDSPACE_TRYHARD : Z := 0x4000.
Definition MMAN_FINDSPACE_PRIVATE : Z := 0x8000.

Record branch_info : Type := BranchInfo {
  bi_min : option Z; bi_max : option Z; bi_min_min : Z; bi_max_max : Z }.

(** A branch that the range meets, seen by [mman_findbranches]. *)
Definition found_branch (l : leaf Z) (info : branch_info) : branch_info :=
  let info :=
    match bi_min info with
    | Some _ => if a_vmin l <? bi_min_min info
                then BranchInfo (Some (a_obj l)) (bi_max info) (a_vmin l) (bi_max_max info) else info
    | None => BranchInfo (Some (a_obj l)) (bi_max info) (a_vmin l) (bi_max_max info)
    end in
  match bi_max info with
  | Some _ => if a_vmax l <? bi_max_max info
              then BranchInfo (bi_min info) (Some (a_obj l)) (bi_min_min info) (a_vmax l) else info
  | None => BranchInfo (bi_min info) (Some (a_obj l)) (bi_min_min info) (a_vmax l)
  end.

Fixpoint mman_findbranches (info : branch_info) (branch : atree Z)
    (addr_min addr_max addr_semi addr_level : Z) : outcome branch_info :=
  match branch with
  | ATREE_NULL => Abort
  | Node l mn mx =>
      let info := if hits l addr_min addr_max then found_branch l info else info in
      let walk_min := (addr_min <? addr_semi) && nonnull mn in
      let walk_max := (addr_semi <=? addr_max) && nonnull mx in
      let search_max :=
        let! (semi, level) := ATREE_WALKMAX addr_semi addr_level in
        mman_findbranches info mx addr_min addr_max semi level in
      if walk_min then
        let! info := if walk_max then search_max else Ret info in
        let! (semi, level) := ATREE_WALKMIN 32 addr_semi addr_level in
        mman_findbranches info mn addr_min addr_max semi level
      else if walk_max then search_max else Ret info
  end.

Section Findspace.

Context {E : Type} `{BranchOps E}.
Variables (e : E) (self : mman) (n_bytes alignment : Z).

(** Whether padding applies next to a branch. *)
Definition padded (mode type : Z) (b : mbranch) : bool :=
  has mode MMAN_FINDSPACE_FORCEGAP || (mr_type e (mb_region b) =? type).

(** Step 2 of [mman_findspace_unlocked], downwards: the candidate of [goto winner]. *)
Fixpoint space_below (chain : list Z) (pad_size mode : Z) : outcome (option Z) :=
  match chain with
  | [] => Abort
  | iter :: chain =>
      let! b := branch_at (branches self) iter in
      let! prev_end :=
        match chain with
        | [] => Ret 0
        | prev :: _ =>
            let! p := branch_at (branches self) prev in
            Ret (if padded mode MREGION_TYPE_HIGUARD p then uintptr (MBRANCH_END p + pad_size) else MBRANCH_END p)
        end in
      let candidate := mb_vmin b in
      let candidate := if padded mode MREGION_TYPE_HIGUARD b then uintptr (candidate - pad_size) else candidate in
      if mb_vmin b <? candidate then Ret None else
      let candidate := uintptr (candidate - n_bytes) in
      if mb_vmin b <? candidate then Ret None else
      let candidate := FLOOR_ALIGN candidate alignment in
      if prev_end <=? candidate then Ret (Some candidate) else
      match chain with [] => Ret None | _ => space_below chain pad_size mode end
  end.

(** The same upwards. *)
Fixpoint space_above (chain : list Z) (pad_size mode : Z) : outcome (option Z) :=
  match chain with
  | [] => Abort
  | iter :: chain =>
      let! b := branch_at (branches self) iter in
      let! next_begin :=
        match chain with
        | [] => Ret 0
        | next :: _ =>
            let! n := branch_at (branches self) next in
            Ret (if padded mode MREGION_TYPE_LOGUARD n then uintptr (mb_vmin n - pad_size) else mb_vmin n)
        end in
      let candidate := MBRANCH_END b in
      let candidate := if padded mode MREGION_TYPE_HIGUARD b then uintptr (candidate + pad_size) else candidate in
      let candidate := CEIL_ALIGN (2 ^ 32) candidate alignment in
      if n_bytes <=? uintptr (next_begin - candidate) then Ret (Some candidate) else
      match chain with [] => Ret None | _ => space_above chain pad_size mode end
  end.

(** Where [MMAN_FINDSPACE_TRYHARD] starts over. *)
Definition max_hint (hint mode : Z) : Z :=
  match has mode MMAN_FINDSPACE_PRIVATE, has mode MMAN_FINDSPACE_BELOW with
  | true, false => if addr_isuser hint then VM_USER_BASE else VM_HOST_BASE
  | true, true => if addr_isuser hint then uintptr (VM_USER_MAX + 1 - n_bytes) else uintptr (VM_HOST_MAX + 1 - n_bytes)
  | false, false => 0
  | false, true => uintptr (0 - n_bytes)
  end.

(** The check at the label [winner]. *)
Definition winner_ok (hint candidate mode : Z) : bool :=
  negb (has mode MMAN_FINDSPACE_PRIVATE) ||
  (if addr_isuser hint then addr_isuser_r candidate n_bytes else addr_ishost_r candidate n_bytes).

(** From the label [again] on; every [goto again] costs one unit of [fuel]. *)
Fixpoint findspace_again (fuel : nat) (hint pad_size mode : Z) : outcome Z :=
  match fuel with
  | O => Abort
  | S fuel =>
      let addr_max := uintptr (hint + n_bytes - 1) in
      if addr_max <? hint then findspace_again fuel (uintptr (0 - n_bytes)) pad_size mode else
      let! info := mman_findbranches (BranchInfo None None 0 0) (m_map self) hint addr_max
                     (ATREE_SEMI0 32) (ATREE_LEVEL0 32) in
      match bi_min info, bi_max info with
      | None, None => Ret hint
      | Some lo, Some hi =>
          assert! bi_min_min info <? addr_max;;
          assert! hint <? bi_max_max info;;
          let! candidate :=
            if has mode MMAN_FINDSPACE_BELOW then space_below (order_to lo (m_order self)) pad_size mode
            else space_above (order_from hi (m_order self)) pad_size mode in
          let fail :=
            if has mode MMAN_FINDSPACE_TRYHARD then
              if negb (hint =? max_hint hint mode) then findspace_again fuel (max_hint hint mode) pad_size mode
              else if negb (pad_size =? 0)
              then findspace_again fuel hint 0 (Z.ldiff mode MMAN_FINDSPACE_FORCEGAP)
              else Ret PAGE_ERROR
            else Ret PAGE_ERROR in
          match candidate with
          | Some candidate => if winner_ok hint candidate mode then Ret candidate else fail
          | None => fail
          end
      | _, _ => Abort
      end
  end.

End Findspace.

Definition mman_findspace_unlocked {E} `{BranchOps E} (fuel : nat) (e : E) (self : mman)
    (hint n_bytes alignment pad_size mode : Z) : outcome Z :=
  assert! IS_ALIGNED hint PAGESIZE;;
  assert! Z.land alignment (uintptr (alignment - 1)) =? 0;;
  if (n_bytes =? 0) || negb (nonnull (m_map self)) then Ret hint else
  findspace_again e self (CEIL_ALIGN (2 ^ 32) n_bytes PAGESIZE) alignment fuel hint pad_size mode.

(** ** Changing the map *)

(** The list in [mman_insbranch_unlocked]: the new branch goes before the first one above it. *)
Fixpoint order_insert (s : gmap Z mbranch) (branch vmax : Z) (order : list Z) : outcome (list Z) :=
  match order with
  | [] => Ret [branch]
  | x :: order' =>
      let! b := branch_at s x in
      if vmax <? mb_vmin b then Ret (branch :: order)
      else let! order' := order_insert s branch vmax order' in Ret (x :: order')
  end.

(** [LIST_INSERT_AFTER] and [LIST_REMOVE]. *)
Fixpoint insert_after (p q : Z) (l : list Z) : list Z :=
  match l with [] => [] | x :: l => if x =? p then x :: q :: l else x :: insert_after p q l end.
Fixpoint list_remove (p : Z) (l : list Z) : list Z :=
  match l with [] => [] | x :: l => if x =? p then l else x :: list_remove p l end.

(** The slot [T **] a path leads to: [&m_map], or a link of a branch. *)
Fixpoint slot_owner (t : atree Z) (p : list link) : option (Z * link) :=
  match t, p with
  | Node l _ _, [d] => Some (a_obj l, d)
  | Node _ mn _, MIN :: p => slot_owner mn p
  | Node _ _ mx, MAX :: p => slot_owner mx p
  | _, _ => None
  end.

(** Where a branch is in a tree. *)
Fixpoint find_node (o : Z) (t : atree Z) : option (list link) :=
  match t with
  | ATREE_NULL => None
  | Node l mn mx =>
      if a_obj l =? o then Some []
      else match find_node o mn with
           | Some p => Some (MIN :: p)
           | None => (fun p => MAX :: p) <$> find_node o mx
           end
  end.

(** Where a slot is after the tree has changed: branches keep their links, so a link moves
    with its branch. *)
Definition slot_path (t : atree Z) (slot : option (Z * link)) : option (list link) :=
  match slot with
  | None => Some []
  | Some (o, d) => (fun p => p ++ [d]) <$> find_node o t
  end.

Section Changes.

Context {E : Type} `{BranchOps E}.

Definition mman_insbranch_unlocked (self : mman) (branch : Z) (b : mbranch) (e : E) : outcome mman :=
  assert! IS_ALIGNED (mb_vmin b) PAGESIZE;;
  assert! IS_ALIGNED (MBRANCH_END b) PAGESIZE;;
  assert! mb_vmin b <? mb_vmax b;;
  let! used := mman_inuse_unlocked self (mb_vmin b) (MBRANCH_SIZE b) in
  assert! negb used;;
  assert! mb_start b <? mr_size e (mb_region b);;
  let! m := insert 32 (m_map self) (Leaf (mb_vmin b) (mb_vmax b) branch) in
  let! order := order_insert (branches self) branch (mb_vmax b) (m_order self) in
  Ret (MMan m order (<[branch := b]> (branches self))).

Definition mman_insbranch_map_unlocked (self : mman) (branch : Z) (b : mbranch) (e : E)
    : outcome (Z * mman * E) :=
  let! (error, e) := mbranch_remap b false e in
  if E_ISERR error then Ret (error, self, e) else
  let! self := mman_insbranch_unlocked self branch b e in Ret (error, self, e).

Definition MBRANCH_INCREF (b : mbranch) (e : E) : Z * E :=
  if mb_notify b =? 0 then (- EOK, e) else notify (mb_notify b) MNOTIFY_INCREF (mb_closure b) 0 0 e.
Definition MBRANCH_DECREF (b : mbranch) (e : E) : E :=
  if mb_notify b =? 0 then e else (notify (mb_notify b) MNOTIFY_DECREF (mb_closure b) 0 0 e).2.

(** The upper half [mman_split_branch_unlocked] makes of [lo]. *)
Definition hi_of (start : Z) (lo : mbranch) : mbranch :=
  MBranch start (mb_vmax lo) (mb_prot lo) (uintptr (mb_start lo + (start - mb_vmin lo)))
    (mb_region lo) (mb_notify lo) (mb_closure lo).

Definition mman_split_branch_unlocked (self : mman) (start : Z) (e : E) : outcome (Z * mman * E) :=
  assert! IS_ALIGNED start PAGESIZE;;
  let! plo_branch := plocate_at 32 (m_map self) start (ATREE_SEMI0 32) (ATREE_LEVEL0 32) in
  match plo_branch with
  | None => Ret (- EOK, self, e)
  | Some (plo, semi, level) =>
    match slot_get (m_map self) plo with
    | ATREE_NULL => Abort
    | Node l _ _ =>
      let lo := a_obj l in
      let! lo_branch := branch_at (branches self) lo in
      if mb_vmin lo_branch =? start then Ret (- EOK, self, e) else
      let (hi, e) := kmalloc_branch e in
      match hi with
      | None => Ret (- ENOMEM, self, e)
      | Some hi =>
        let (error, e) := MBRANCH_INCREF lo_branch e in
        if E_ISERR error then Ret (error, self, kffree_branch hi e) else
        let! (_, t) := pop_at 32 (slot_get (m_map self) plo) semi level in
        let m := slot_set (m_map self) plo t in
        let hi_branch := hi_of start lo_branch in
        let lo_branch := set_vmax (start - 1) lo_branch in
        let e := MREGION_INCREF (mb_region lo_branch) e in
        let order := insert_after lo hi (m_order self) in
        let! m := insert 32 m (Leaf (mb_vmin lo_branch) (mb_vmax lo_branch) lo) in
        let! m := insert 32 m (Leaf (mb_vmin hi_branch) (mb_vmax hi_branch) hi) in
        Ret (- EOK, MMan m order (<[hi := hi_branch]> (<[lo := lo_branch]> (branches self))), e)
      end
    end
  end.

(** The end of [mman_merge_branch_unlocked], once the branches match.  The slot of [lo] was
    located before [hi] is popped; a slot inside [hi] itself is not in the tree any more, [lo]
    stays in the tree, and inserting it a second time is an overlap. *)
Definition merge_leafs (self : mman) (plo phi : list link) (lo_semi lo_level hi_semi hi_level lo hi : Z)
    (lo_branch hi_branch : mbranch) (e : E) : outcome (bool * mman * E) :=
  let! (_, t) := pop_at 32 (slot_get (m_map self) phi) hi_semi hi_level in
  let m := slot_set (m_map self) phi t in
  match slot_path m (slot_owner (m_map self) plo) with
  | None => Abort
  | Some plo =>
      let! (_, t) := pop_at 32 (slot_get m plo) lo_semi lo_level in
      let m := slot_set m plo t in
      let lo_branch := set_vmax (mb_vmax hi_branch) lo_branch in
      let e := MBRANCH_DECREF hi_branch e in
      let order := list_remove hi (m_order self) in
      let e := kffree_branch hi e in
      let! e := region_decfetch (mb_region lo_branch) e in
      let! m := insert 32 m (Leaf (mb_vmin lo_branch) (mb_vmax lo_branch) lo) in
      Ret (false, MMan m order (<[lo := lo_branch]> (delete hi (branches self))), e)
  end.

(** [lo_region] and [hi_region] are both the region of [lo_branch]; what follows for regions
    that differ returns false. *)
Definition mman_merge_branch_unlocked (self : mman) (start : Z) (e : E) : outcome (bool * mman * E) :=
  assert! IS_ALIGNED start PAGESIZE;;
  let! plo_branch := plocate_at 32 (m_map self) (uintptr (start - 1)) (ATREE_SEMI0 32) (ATREE_LEVEL0 32) in
  match plo_branch with
  | None => Ret (false, self, e)
  | Some (plo, lo_semi, lo_level) =>
    match slot_get (m_map self) plo with
    | ATREE_NULL => Abort
    | Node l _ _ =>
      let lo := a_obj l in
      let! lo_branch := branch_at (branches self) lo in
      if negb (mb_vmax lo_branch =? uintptr (start - 1)) then Ret (false, self, e) else
      let! phi_branch := plocate_at 32 (m_map self) start (ATREE_SEMI0 32) (ATREE_LEVEL0 32) in
      match phi_branch with
      | None => Ret (false, self, e)
      | Some (phi, hi_semi, hi_level) =>
        match slot_get (m_map self) phi with
        | ATREE_NULL => Abort
        | Node l _ _ =>
          let hi := a_obj l in
          let! hi_branch := branch_at (branches self) hi in
          assert! negb (lo =? hi);;
          assert! MBRANCH_END lo_branch =? mb_vmin hi_branch;;
          if negb (mb_prot lo_branch =? mb_prot hi_branch) || negb (mb_notify lo_branch =? mb_notify hi_branch)
             || negb (mb_closure lo_branch =? mb_closure hi_branch) then Ret (false, self, e) else
          let lo_region := mb_region lo_branch in
          let hi_region := mb_region lo_branch in
          if negb (lo_region =? hi_region) then Ret (false, self, e) else
          if negb (uintptr (mb_start lo_branch + MBRANCH_SIZE lo_branch) =? mb_start hi_branch)
          then Ret (false, self, e) else
          merge_leafs self plo phi lo_semi lo_level hi_semi hi_level lo hi lo_branch hi_branch e
        end
      end
    end
  end.

(** Leaving one branch out in [mman_munmap_impl]: the page directory, the region, the function
    to notify.  A value that is an error leaves the branch where it is. *)
Definition unmap_one (b : mbranch) (mode : Z) (e : E) : outcome (Z * E) :=
  let! (temp, e) := mbranch_unmap b e in
  if E_ISERR temp then Ret (temp, e) else
  let! (temp, e) := (if has mode MMAN_MUNMAP_CLEAR then mregion_decref_clr else mregion_decref)
                      (mb_region b) (mb_start b) (MBRANCH_SIZE b) e in
  if E_ISERR temp then Ret (temp, e) else
  let e := if mb_notify b =? 0 then e
           else (notify (mb_notify b) MNOTIFY_UNMAP (mb_closure b) (mb_vmin b) (MBRANCH_SIZE b) e).2 in
  Ret (temp, MBRANCH_DECREF b e).

(** [mman_munmap_impl] on the slot [pbranch], with [result] so far; the tree in the slot, the
    list and the branches are returned.  Every round pops a branch or goes down, so the number of
    branches bounds [fuel]. *)
Fixpoint mman_munmap_impl (fuel : nat) (pbranch : atree Z) (order : list Z) (s : gmap Z mbranch)
    (addr_min addr_max addr_semi addr_level mode tag result : Z) (e : E)
    : outcome (Z * atree Z * list Z * gmap Z mbranch * E) :=
  match fuel with
  | O => Abort
  | S fuel =>
    match pbranch with
    | ATREE_NULL => Ret (result, pbranch, order, s, e)
    | Node l mn mx =>
      let! branch := branch_at s (a_obj l) in
      assert! IS_ALIGNED addr_min PAGESIZE;;
      assert! IS_ALIGNED (uintptr (addr_max + 1)) PAGESIZE;;
      assert! addr_min <=? addr_max;;
      if hits l addr_min addr_max && negb (has mode MMAN_MUNMAP_TAG && negb (mb_closure branch =? tag)) then
        let! (temp, e) := unmap_one branch mode e in
        if E_ISERR temp then Ret (temp, pbranch, order, s, e) else
        let! (_, t) := pop_at 32 pbranch addr_semi addr_level in
        mman_munmap_impl fuel t (list_remove (a_obj l) order) (delete (a_obj l) s)
          addr_min addr_max addr_semi addr_level mode tag (uintptr (result + MBRANCH_SIZE branch))
          (kffree_branch (a_obj l) e)
      else
        let walk_min := (addr_min <? addr_semi) && nonnull mn in
        let walk_max := (addr_semi <=? addr_max) && nonnull mx in
        let search_max result order s e :=
          let! (semi, level) := ATREE_WALKMAX addr_semi addr_level in
          mman_munmap_impl fuel mx order s addr_min addr_max semi level mode tag result e in
        if walk_min then
          let! (temp, mx, order, s, e) := if walk_max then search_max 0 order s e else Ret (0, mx, order, s, e) in
          if E_ISERR temp then Ret (temp, Node l mn mx, order, s, e) else
          let! (semi, level) := ATREE_WALKMIN 32 addr_semi addr_level in
          let! (result, mn, order, s, e) :=
            mman_munmap_impl fuel mn order s addr_min addr_max semi level mode tag (uintptr (result + temp)) e in
          Ret (result, Node l mn mx, order, s, e)
        else if walk_max then
          let! (result, mx, order, s, e) := search_max result order s e in
          Ret (result, Node l mn mx, order, s, e)
        else Ret (result, pbranch, order, s, e)
    end
  end.

(** Both ends of a range, before the branches in between are changed. *)
Definition split_ends (self : mman) (addr n_bytes : Z) (e : E) : outcome (Z * mman * E) :=
  let! (error, self, e) := mman_split_branch_unlocked self addr e in
  if E_ISERR error then Ret (error, self, e)
  else mman_split_branch_unlocked self (uintptr (addr + n_bytes)) e.

Definition mman_munmap_unlocked (self : mman) (addr n_bytes mode tag : Z) (e : E) : outcome (Z * mman * E) :=
  assert! addr <=? uintptr (addr + n_bytes);;
  if n_bytes =? 0 then Ret (0, self, e) else
  let n_bytes := CEIL_ALIGN (2 ^ 32) n_bytes PAGESIZE in
  let! (error, self, e) := split_ends self addr n_bytes e in
  if E_ISERR error then Ret (- ENOMEM, self, e) else
  let! (result, m, order, s, e) :=
    mman_munmap_impl (S (length (elements (m_map self)))) (m_map self) (m_order self) (branches self)
      addr (uintptr (addr + n_bytes - 1)) (ATREE_SEMI0 32) (ATREE_LEVEL0 32) mode tag 0 e in
  Ret (result, MMan m order s, e).

Fixpoint mman_mprotect_impl (branch : atree Z) (s : gmap Z mbranch)
    (addr_min addr_max addr_semi addr_level prot_amask prot_omask : Z) (e : E)
    : outcome (Z * gmap Z mbranch * E) :=
  match branch with
  | ATREE_NULL => Abort
  | Node l mn mx =>
      assert! IS_ALIGNED addr_min PAGESIZE;;
      assert! IS_ALIGNED (uintptr (addr_max + 1)) PAGESIZE;;
      assert! addr_min <=? addr_max;;
      let! (result, s, e) :=
        if hits l addr_min addr_max then
          let! b := branch_at s (a_obj l) in
          let b := set_prot (Z.lor (Z.land (mb_prot b) prot_amask) prot_omask) b in
          let s := <[a_obj l := b]> s in
          let! (temp, e) := mbranch_remap b true e in
          Ret (if E_ISERR temp then temp else MBRANCH_SIZE b, s, e)
        else Ret (0, s, e) in
      if E_ISERR result then Ret (result, s, e) else
      let walk_min := (addr_min <? addr_semi) && nonnull mn in
      let walk_max := (addr_semi <=? addr_max) && nonnull mx in
      let! (temp, s, e) :=
        if walk_max then
          let! (semi, level) := ATREE_WALKMAX addr_semi addr_level in
          mman_mprotect_impl mx s addr_min addr_max semi level prot_amask prot_omask e
        else Ret (0, s, e) in
      if E_ISERR temp then Ret (temp, s, e) else
      let result := uintptr (result + temp) in
      if walk_min then
        let! (semi, level) := ATREE_WALKMIN 32 addr_semi addr_level in
        let! (temp, s, e) := mman_mprotect_impl mn s addr_min addr_max semi level prot_amask prot_omask e in
        Ret (if E_ISERR temp then temp else uintptr (result + temp), s, e)
      else Ret (result, s, e)
  end.

(** Merging at both ends of a range. *)
Definition merge_ends (self : mman) (addr n_bytes : Z) (e : E) : outcome (mman * E) :=
  let! (_, self, e) := mman_merge_branch_unlocked self addr e in
  let! (_, self, e) := mman_merge_branch_unlocked self (uintptr (addr + n_bytes)) e in
  Ret (self, e).

Definition mman_mprotect_unlocked (self : mman) (addr n_bytes prot_amask prot_omask : Z) (e : E)
    : outcome (Z * mman * E) :=
  if n_bytes =? 0 then Ret (0, self, e) else
  let n_bytes := CEIL_ALIGN (2 ^ 32) n_bytes PAGESIZE in
  let! (error, self, e) := split_ends self addr n_bytes e in
  if E_ISERR error then Ret (error, self, e) else
  if negb (nonnull (m_map self)) then Ret (0, self, e) else
  let! (result, s, e) :=
    mman_mprotect_impl (m_map self) (branches self) addr (uintptr (addr + n_bytes - 1))
      (ATREE_SEMI0 32) (ATREE_LEVEL0 32) prot_amask prot_omask e in
  let self := MMan (m_map self) (m_order self) s in
  if E_ISERR result then Ret (result, self, e) else
  let! (self, e) := merge_ends self addr n_bytes e in
  Ret (result, self, e).

(** The labels [err3], [err2] and [err1] of [mman_mmap_unlocked]. *)
Definition mmap_undo (newleaf : Z) (b : mbranch) (notified : bool) (e : E) : outcome E :=
  let e := if notified then MBRANCH_DECREF b e else e in
  let! (_, e) := mregion_decref (mb_region b) (mb_start b) (MBRANCH_SIZE b) e in
  Ret (kffree_branch newleaf e).

Definition mman_mmap_unlocked (self : mman) (addr n_bytes start region prot notify closure : Z) (e : E)
    : outcome (Z * mman * E) :=
  assert! IS_ALIGNED start PAGESIZE;;
  if n_bytes =? 0 then Ret (- EOK, self, e) else
  let n_bytes := CEIL_ALIGN (2 ^ 32) n_bytes PAGESIZE in
  assert! negb (mr_size e region =? 0);;
  assert! start <? uintptr (start + n_bytes);;
  assert! uintptr (start + n_bytes) <=? mr_size e region;;
  let (newleaf, e) := kmalloc_branch e in
  match newleaf with
  | None => Ret (- ENOMEM, self, e)
  | Some newleaf =>
      let b := MBranch addr (uintptr (addr + n_bytes - 1)) prot start region notify closure in
      let! (error, e) := mregion_incref region start n_bytes e in
      if E_ISERR error then Ret (error, self, kffree_branch newleaf e) else
      let (error, e) := MBRANCH_INCREF b e in
      if E_ISERR error then let! e := mmap_undo newleaf b false e in Ret (error, self, e) else
      let! (error, self, e) := mman_munmap_unlocked self addr n_bytes MMAN_MUNMAP_ALL 0 e in
      if E_ISERR error then let! e := mmap_undo newleaf b true e in Ret (error, self, e) else
      let! (error, e) := mbranch_remap b false e in
      if E_ISERR error then let! e := mmap_undo newleaf b true e in Ret (error, self, e) else
      let! self := mman_insbranch_unlocked self newleaf b e in
      let! (self, e) := merge_ends self addr n_bytes e in
      Ret (error, self, e)
  end.

End Changes.
