(* ===== verification/MmanSpec.v ===== *)
(** * Address spaces: what they promise

    The abstract address space is a map from addresses to what is mapped there; [mapped] relates
    it to the branches.  The invariant ties the tree, the list and the branches together, and
    [BranchLaws] is what the rest of the kernel promises to an address space. *)
From stdpp Require Import base numbers list gmap.
From S2P Require Import Prelude Align ATree Mman.

(** What an address is mapped to: a byte of a region and the rights of the mapping. *)
Record mapping : Type := Mapping {
  mg_region : Z; mg_off : Z; mg_prot : Z; mg_notify : Z; mg_closure : Z }.

Definition maps_at (b : mbranch) (a : Z) : mapping :=
  Mapping (mb_region b) (mb_start b + (a - mb_vmin b)) (mb_prot b) (mb_notify b) (mb_closure b).

Definition in_branch (b : mbranch) (a : Z) : Prop := mb_vmin b <= a <= mb_vmax b.

Definition mapped_in (s : gmap Z mbranch) (a : Z) (m : mapping) : Prop :=
  exists p b, s !! p = Some b /\ in_branch b a /\ m = maps_at b a.
Abbreviation mapped self := (mapped_in (branches self)).

Definition branch_wf (b : mbranch) : Prop :=
  mb_vmin b mod 4096 = 0 /\ (mb_vmax b + 1) mod 4096 = 0 /\ 0 <= mb_vmin b < mb_vmax b /\
  mb_vmax b < 2 ^ 32 /\ 0 <= mb_start b /\ mb_start b mod 4096 = 0 /\
  mb_start b + (mb_vmax b - mb_vmin b + 1) < 2 ^ 32.

Definition leaf_of (p : Z) (b : mbranch) : leaf Z := Leaf (mb_vmin b) (mb_vmax b) p.
Definition leaves (s : gmap Z mbranch) : list (leaf Z) := (fun pb => leaf_of pb.1 pb.2) <$> map_to_list s.

(** The list goes through the branches upwards, from [lo] on. *)
Fixpoint ordered (s : gmap Z mbranch) (lo : Z) (order : list Z) : Prop :=
  match order with
  | [] => True
  | p :: order => exists b, s !! p = Some b /\ lo <= mb_vmin b /\ ordered s (mb_vmax b + 1) order
  end.

Record mman_inv (self : mman) : Prop := {
  inv_tree : tree_ok 32 (m_map self);
  inv_leaves : elements (m_map self) ≡ₚ leaves (branches self);
  inv_order : ordered (branches self) 0 (m_order self);
  inv_listed : forall p, is_Some (branches self !! p) -> p ∈ m_order self;
  inv_wf : map_Forall (fun _ => branch_wf) (branches self)
}.

(** The promises.  [env_ok e B] says that the regions of [e] have the references that the
    branches [B] hold, [allocated e p] that kmalloc() has returned [p], [takes b] that the page
    directory can hold the branch [b].  The functions branches are notified with do not take part in
    memory management. *)
Class BranchLaws (E : Type) `{BranchOps E} : Type := {
  env_ok : E -> gmap Z mbranch -> Prop;
  allocated : E -> Z -> Prop;
  takes : mbranch -> Prop;
  env_takes e B p b : env_ok e B -> B !! p = Some b -> takes b;
  env_fits e B p b : env_ok e B -> B !! p = Some b ->
    mb_start b + (mb_vmax b - mb_vmin b + 1) <= mr_size e (mb_region b);
  kmalloc_ok e B r e' : env_ok e B -> kmalloc_branch e = (r, e') ->
    env_ok e' B /\ (forall q, mr_size e' q = mr_size e q) /\ (forall p, r = Some p -> B !! p = None /\ allocated e' p);
  kffree_ok e B p : env_ok e B -> B !! p = None -> env_ok (kffree_branch p e) B;
  notify_ok e B f ev cl a n : env_ok e B -> env_ok (notify f ev cl a n e).2 B;
  notify_allocated e f ev cl a n p : allocated e p -> allocated (notify f ev cl a n e).2 p;
  split_region_ok e B lo hi b start : env_ok e B -> B !! lo = Some b -> B !! hi = None -> allocated e hi ->
    branch_wf b -> mb_vmin b < start <= mb_vmax b ->
    env_ok (MREGION_INCREF (mb_region b) e) (<[hi := hi_of start b]> (<[lo := set_vmax (start - 1) b]> B));
  merge_region_ok e B lo hi b h : env_ok e B -> B !! lo = Some b -> B !! hi = Some h -> lo <> hi ->
    branch_wf b -> branch_wf h -> h = hi_of (mb_vmin h) (set_vmax (mb_vmax h) b) -> mb_vmin h = mb_vmax b + 1 ->
    exists e', region_decfetch (mb_region b) (kffree_branch hi e) = Ret e' /\
      env_ok e' (<[lo := set_vmax (mb_vmax h) b]> (delete hi B));
  incref_ok e B b p : env_ok e B -> B !! p = None -> allocated e p -> branch_wf b -> takes b ->
    mb_start b + (mb_vmax b - mb_vmin b + 1) <= mr_size e (mb_region b) ->
    exists r e', mregion_incref (mb_region b) (mb_start b) (mb_vmax b - mb_vmin b + 1) e = Ret (r, e') /\
      env_ok e' (if E_ISERR r then B else <[p := b]> B);
  decref_ok e B b p (clr : bool) : env_ok e B -> B !! p = Some b -> branch_wf b ->
    exists r e', (if clr then mregion_decref_clr else mregion_decref)
        (mb_region b) (mb_start b) (mb_vmax b - mb_vmin b + 1) e = Ret (r, e') /\
      env_ok e' (if E_ISERR r then B else delete p B);
  remap_ok e B b p pr u : env_ok e B -> B !! p = Some b -> branch_wf b -> takes (set_prot pr b) ->
    exists r e', mbranch_remap (set_prot pr b) u e = Ret (r, e') /\ env_ok e' (<[p := set_prot pr b]> B);
  unmap_ok e B b p : env_ok e B -> B !! p = Some b -> branch_wf b ->
    exists r e', mbranch_unmap b e = Ret (r, e') /\ env_ok e' B
}.

(** ** Branches as leaves *)

Lemma uintptr_id x : 0 <= x < 2 ^ 32 -> uintptr x = x.
Proof. apply Z.mod_small. Qed.

Lemma uintptr_wrap x : 2 ^ 32 <= x < 2 * 2 ^ 32 -> uintptr x = x - 2 ^ 32.
Proof. intros. symmetry. apply Z.mod_unique with 1; lia. Qed.

Lemma uintptr_neg x : - 2 ^ 32 <= x < 0 -> uintptr x = x + 2 ^ 32.
Proof. intros. symmetry. apply Z.mod_unique with (-1); lia. Qed.

Lemma uintptr_range x : 0 <= uintptr x < 2 ^ 32.
Proof. apply Z.mod_pos_bound. lia. Qed.

Lemma branch_size b : branch_wf b -> MBRANCH_SIZE b = mb_vmax b - mb_vmin b + 1.
Proof. intros (? & ? & ? & ? & ? & ? & ?). apply uintptr_id. lia. Qed.

Lemma leaves_elem s l : l ∈ leaves s <-> exists b, s !! a_obj l = Some b /\ l = leaf_of (a_obj l) b.
Proof.
  unfold leaves. rewrite list_elem_of_fmap. split.
  - intros ([p b] & -> & Hin). apply elem_of_map_to_list in Hin. simpl. eauto.
  - intros (b & Hb & ->). exists (a_obj l, b). split; [done|]. by apply elem_of_map_to_list.
Qed.

Lemma leaves_insert s p b : s !! p = None -> leaves (<[p := b]> s) ≡ₚ leaf_of p b :: leaves s.
Proof. intros Hp. unfold leaves. by rewrite map_to_list_insert. Qed.

Lemma leaves_delete s p b : s !! p = Some b -> leaves s ≡ₚ leaf_of p b :: leaves (delete p s).
Proof. intros Hp. unfold leaves. by rewrite <- (map_to_list_delete s p b Hp). Qed.

Lemma leaf_of_fits p b : branch_wf b -> fits 32 (leaf_of p b).
Proof.
  intros (Hmin & Hmax & ? & ? & _). unfold fits, leaf_ok, leaf_of. simpl.
  split; [|lia]. split; [lia|]. split; [apply Z.even_spec|apply Z.odd_spec].
  - exists (mb_vmin b / 2). mlia.
  - exists ((mb_vmax b - 1) / 2). mlia.
Qed.

(** ** The ordered list *)

Abbreviation all_wf := (map_Forall (fun _ : Z => branch_wf)).

Lemma ordered_weaken s lo lo' o : lo' <= lo -> ordered s lo o -> ordered s lo' o.
Proof. intros Hle. destruct o as [|p o]; [done|]. intros (b & ? & ? & ?). exists b. split_and!; [done|lia|done]. Qed.

Lemma ordered_in s lo o p : all_wf s -> ordered s lo o -> p ∈ o -> exists b, s !! p = Some b /\ lo <= mb_vmin b.
Proof.
  intros Hw. revert lo. induction o as [|q o IH]; intros lo; [by intros _ ?%not_elem_of_nil|].
  intros (b & Hb & Hlo & Ho) [->|Hin]%elem_of_cons; [eauto|].
  destruct (IH _ Ho Hin) as (b' & ? & ?). pose proof (Hw _ _ Hb) as (? & ? & ? & _). exists b'. split; [done|lia].
Qed.

Lemma ordered_nodup s lo o : all_wf s -> ordered s lo o -> NoDup o.
Proof.
  intros Hw. revert lo. induction o as [|p o IH]; intros lo; [constructor|]. intros (b & Hb & _ & Ho).
  constructor; [|by eapply IH]. intros Hin. destruct (ordered_in _ _ _ _ Hw Ho Hin) as (b' & Hb' & Hle).
  simplify_eq. pose proof (Hw _ _ Hb) as (? & ? & ? & _). lia.
Qed.

(** Branches of the list lie apart. *)
Definition below (b c : mbranch) : Prop := mb_vmax b < mb_vmin c.
Definition branches_apart (s : gmap Z mbranch) : Prop := forall p q b c,
  s !! p = Some b -> s !! q = Some c -> p <> q -> below b c \/ below c b.

Lemma ordered_apart s lo o p q b c : all_wf s -> ordered s lo o ->
  p ∈ o -> q ∈ o -> s !! p = Some b -> s !! q = Some c -> p <> q -> below b c \/ below c b.
Proof.
  intros Hw. revert lo. induction o as [|x o IH]; intros lo; [by intros _ ?%not_elem_of_nil|].
  intros (bx & Hx & _ & Ho) Hp Hq Hb Hc Hne. unfold below in *.
  apply elem_of_cons in Hp as [->|Hp], Hq as [->|Hq]; [done| | |by eapply IH]; simplify_eq.
  - destruct (ordered_in _ _ _ _ Hw Ho Hq) as (? & ? & ?). simplify_eq. lia.
  - destruct (ordered_in _ _ _ _ Hw Ho Hp) as (? & ? & ?). simplify_eq. lia.
Qed.

Lemma inv_apart self : mman_inv self -> branches_apart (branches self).
Proof. intros [Ht Hl Ho Hi Hw] p q b c Hb Hc. eapply ordered_apart; eauto. Qed.

Lemma apart_mapped s a m1 m2 : branches_apart s -> mapped_in s a m1 -> mapped_in s a m2 -> m1 = m2.
Proof.
  intros Ha (p & b & Hb & Hin & ->) (q & c & Hc & Hin' & ->). destruct (decide (p = q)) as [->|Hne].
  - by simplify_eq.
  - unfold in_branch in *. destruct (Ha _ _ _ _ Hb Hc Hne); unfold below in *; lia.
Qed.

(** The list only depends on the branches in it. *)
Lemma ordered_frame s s' lo o :
  (forall p b, p ∈ o -> s !! p = Some b -> exists b', s' !! p = Some b' /\ mb_vmin b' = mb_vmin b /\ mb_vmax b' = mb_vmax b) ->
  ordered s lo o -> ordered s' lo o.
Proof.
  revert lo. induction o as [|p o IH]; intros lo Hf; [done|]. intros (b & Hb & Hlo & Ho).
  destruct (Hf p b) as (b' & Hb' & E1 & E2); [by left|done|].
  exists b'. rewrite E1, E2. split_and!; [done..|]. apply IH; [|done]. intros q c Hq. apply Hf. by right.
Qed.

Lemma ordered_insert_frame s lo o p b : p ∉ o -> ordered s lo o -> ordered (<[p := b]> s) lo o.
Proof.
  intros Hp. apply ordered_frame. intros q c Hq Hc. exists c.
  rewrite lookup_insert_ne by (intros ->; done). done.
Qed.

Lemma order_insert_ok s lo o p b : all_wf s -> ordered s lo o -> p ∉ o -> lo <= mb_vmin b -> branch_wf b ->
  (forall q c, q ∈ o -> s !! q = Some c -> below b c \/ below c b) ->
  exists o', order_insert s p (mb_vmax b) o = Ret o' /\ ordered (<[p := b]> s) lo o' /\ o' ≡ₚ p :: o.
Proof.
  intros Hw. revert lo. induction o as [|x o IH]; intros lo Ho Hp Hlo Hb Hap; simpl.
  { exists [p]. split; [done|]. split; [|done]. exists b. rewrite lookup_insert_eq. done. }
  destruct Ho as (c & Hc & Hlc & Ho). unfold branch_at. rewrite Hc. cbn [obind].
  assert (Hne : p <> x) by (intros ->; apply Hp; by left).
  assert (Hpo : p ∉ o) by (intros ?; apply Hp; by right).
  pose proof Hb as (_ & _ & Hb1 & _). pose proof (Hw _ _ Hc) as (_ & _ & Hc1 & _).
  destruct (Z.ltb_spec (mb_vmax b) (mb_vmin c)) as [Hlt|Hge].
  - exists (p :: x :: o). split; [done|]. split; [|done]. exists b. rewrite lookup_insert_eq.
    split_and!; [done..|]. exists c. rewrite lookup_insert_ne by done. split_and!; [done|lia|].
    by apply ordered_insert_frame.
  - destruct (Hap x c) as [?|Hbc]; [by left|done|unfold below in *; lia|]. unfold below in Hbc.
    destruct (IH (mb_vmax c + 1)) as (o' & -> & Ho' & Hperm); [done..|lia|done| |].
    { intros q d Hq. apply Hap. by right. }
    cbn [obind]. exists (x :: o'). split; [done|]. split; [|rewrite Hperm; apply perm_swap].
    exists c. rewrite lookup_insert_ne by done. done.
Qed.

Lemma list_remove_perm p o : p ∈ o -> o ≡ₚ p :: list_remove p o.
Proof.
  induction o as [|x o IH]; [by intros ?%not_elem_of_nil|]. intros Hin. simpl.
  destruct (Z.eqb_spec x p) as [->|Hne]; [done|]. apply elem_of_cons in Hin as [->|Hin]; [done|].
  rewrite perm_swap, <- (IH Hin). done.
Qed.

Lemma ordered_remove s lo o p : all_wf s -> ordered s lo o -> ordered s lo (list_remove p o).
Proof.
  intros Hw. revert lo. induction o as [|x o IH]; intros lo; [done|]. intros (b & Hb & Hlo & Ho). simpl.
  destruct (Z.eqb_spec x p) as [->|Hne]; [|exists b; eauto].
  eapply ordered_weaken; [|exact Ho]. pose proof (Hw _ _ Hb) as (_ & _ & ? & _). lia.
Qed.

Lemma insert_after_perm p q o : p ∈ o -> insert_after p q o ≡ₚ q :: o.
Proof.
  induction o as [|x o IH]; [by intros ?%not_elem_of_nil|]. intros Hin. simpl.
  destruct (Z.eqb_spec x p) as [->|Hne]; [apply perm_swap|]. apply elem_of_cons in Hin as [->|Hin]; [done|].
  rewrite (IH Hin). apply perm_swap.
Qed.
