(* ===== verification/MmanFind.v ===== *)
(** * Address spaces: searches

    What [mman_inuse_unlocked], [mman_valid_unlocked] and [mman_findspace_unlocked] find. *)
From stdpp Require Import base numbers list gmap.
From S2P Require Import Prelude Align ATree Mman MmanSpec.

(** ** Walking both halves of a tree *)

Section Walk.

Context (semi level : Z) (l : leaf Z) (mn mx : atree Z).
Hypothesis Hs : semi_ok 32 semi level.
Hypothesis Hwf : wf semi level (Node l mn mx).

Lemma wf_min_below : Forall (fun x => a_vmax x < semi) (elements mn).
Proof.
  destruct Hwf as (_ & _ & _ & _ & H0 & Hn & _). destruct (Z.eq_dec level 0) as [->|].
  { destruct H0 as [-> _]; [done|]. constructor. }
  assert (1 <= level) by (destruct Hs as [? _]; lia).
  eapply Forall_impl; [apply (wf_elements _ _ _ Hn); lia|]. intros x [_ [_ Hx]]. lia.
Qed.

Lemma wf_max_above : Forall (fun x => semi <= a_vmin x) (elements mx).
Proof.
  destruct Hwf as (_ & _ & _ & _ & H0 & _ & Hx). destruct (Z.eq_dec level 0) as [->|].
  { destruct H0 as [_ ->]; [done|]. constructor. }
  assert (1 <= level) by (destruct Hs as [? _]; lia).
  eapply Forall_impl; [apply (wf_elements _ _ _ Hx); lia|]. intros x [_ [Hx' _]]. lia.
Qed.

(** A half that is not searched has nothing in the range. *)
Lemma skip_min lo hi : (lo <? semi) && nonnull mn = false -> Forall (fun x => hits x lo hi = false) (elements mn).
Proof.
  intros Hc. pose proof wf_min_below as Hb. destruct (nonnull mn) eqn:Hn; [|by destruct mn].
  rewrite andb_true_r in Hc. bsimp. eapply Forall_impl; [exact Hb|]. intros x Hx. simpl in Hx. unfold hits.
  apply andb_false_iff. left. apply Z.leb_gt. lia.
Qed.

Lemma skip_max lo hi : (semi <=? hi) && nonnull mx = false -> Forall (fun x => hits x lo hi = false) (elements mx).
Proof.
  intros Hc. pose proof wf_max_above as Hb. destruct (nonnull mx) eqn:Hn; [|by destruct mx].
  rewrite andb_true_r in Hc. bsimp. eapply Forall_impl; [exact Hb|]. intros x Hx. simpl in Hx. unfold hits.
  apply andb_false_iff. right. apply Z.leb_gt. lia.
Qed.

(** Going down is possible where there is a branch. *)
Lemma walk_max_ok : nonnull mx = true ->
  ATREE_WALKMAX semi level = Ret (semi + 2 ^ (level - 1), level - 1) /\
  semi_ok 32 (semi + 2 ^ (level - 1)) (level - 1) /\ wf (semi + 2 ^ (level - 1)) (level - 1) mx.
Proof.
  intros Hn. pose proof Hwf as (_ & _ & _ & _ & H0 & _ & Hx).
  assert (1 <= level).
  { destruct Hs as [? _]. destruct (Z.eq_dec level 0) as [->|]; [|lia]. destruct H0 as [_ ->]; [done|]. done. }
  split_and!; [by eapply ATREE_WALKMAX_eq|by apply semi_ok_walkmax|done].
Qed.

Lemma walk_min_ok : nonnull mn = true ->
  ATREE_WALKMIN 32 semi level = Ret (semi - 2 ^ (level - 1), level - 1) /\
  semi_ok 32 (semi - 2 ^ (level - 1)) (level - 1) /\ wf (semi - 2 ^ (level - 1)) (level - 1) mn.
Proof.
  intros Hn. pose proof Hwf as (_ & _ & _ & _ & H0 & Hx & _).
  assert (1 <= level).
  { destruct Hs as [? _]. destruct (Z.eq_dec level 0) as [->|]; [|lia]. destruct H0 as [-> _]; [done|]. done. }
  split_and!; [by eapply ATREE_WALKMIN_eq|by apply semi_ok_walkmin|done].
Qed.

End Walk.

(** The conditions [walk_min] and [walk_max]; the case that a half is not searched leaves what
    that half does not have. *)
Ltac walk_halves Hs Hwf :=
  match type of Hwf with
  | wf ?semi ?level (Node ?l ?mn ?mx) =>
    match goal with
    | |- context [(?lo <? semi) && nonnull mn] =>
      match goal with
      | |- context [(semi <=? ?hi) && nonnull mx] =>
        let En := fresh "En" in let Ex := fresh "Ex" in
        destruct ((lo <? semi) && nonnull mn) eqn:En;
        [apply andb_prop in En as [_ En]; destruct (walk_min_ok semi level l mn mx Hs Hwf En) as (-> & ? & ?)
        |apply (skip_min semi level l mn mx Hs Hwf lo hi) in En];
        (destruct ((semi <=? hi) && nonnull mx) eqn:Ex;
        [apply andb_prop in Ex as [_ Ex]; destruct (walk_max_ok semi level l mn mx Hs Hwf Ex) as (-> & ? & ?)
        |apply (skip_max semi level l mn mx Hs Hwf lo hi) in Ex]);
        cbn [obind]
      end
    end
  end.

Abbreviation misses lo hi := (Forall (fun x => hits x lo hi = false)).

Lemma findany_ok t semi level lo hi : semi_ok 32 semi level -> wf semi level t -> nonnull t = true ->
  exists r, mman_findany t lo hi semi level = Ret r /\
    match r with
    | Some p => exists l, l ∈ elements t /\ a_obj l = p /\ hits l lo hi = true
    | None => misses lo hi (elements t)
    end.
Proof.
  revert semi level. induction t as [|l mn IHn mx IHx]; intros semi level Hs Hwf; [done|]. intros _.
  cbn [mman_findany elements]. destruct (hits l lo hi) eqn:Hh.
  { exists (Some (a_obj l)). split; [done|]. exists l. split; [by left|done]. }
  assert (Hall : misses lo hi (elements mn) -> misses lo hi (elements mx) ->
    misses lo hi (l :: elements mn ++ elements mx)).
  { intros. constructor; [done|]. by apply Forall_app. }
  walk_halves Hs Hwf.
  - destruct (IHx _ _ H1 H2 Ex) as ([p|] & -> & Hr); cbn [obind].
    { exists (Some p). split; [done|]. destruct Hr as (l' & Hin & ?). exists l'. rewrite elem_of_cons, elem_of_app. auto. }
    destruct (IHn _ _ H H0 En) as ([p|] & -> & Hr'); eexists; (split; [done|]); [|by apply Hall].
    destruct Hr' as (l' & Hin & ?). exists l'. rewrite elem_of_cons, elem_of_app. auto.
  - destruct (IHn _ _ H H0 En) as ([p|] & -> & Hr'); eexists; (split; [done|]); [|by apply Hall].
    destruct Hr' as (l' & Hin & ?). exists l'. rewrite elem_of_cons, elem_of_app. auto.
  - destruct (IHx _ _ H H0 Ex) as ([p|] & -> & Hr); eexists; (split; [done|]); [|by apply Hall].
    destruct Hr as (l' & Hin & ?). exists l'. rewrite elem_of_cons, elem_of_app. auto.
  - exists None. split; [done|]. by apply Hall.
Qed.

(** ** Looking up and testing ranges *)

Lemma hits_spec p b lo hi : branch_wf b -> lo <= hi ->
  hits (leaf_of p b) lo hi = true <-> exists a, lo <= a <= hi /\ in_branch b a.
Proof.
  intros (_ & _ & ? & _) Hle. unfold hits, in_branch. rewrite andb_true_iff, !Z.leb_le. simpl. split.
  - intros [? ?]. exists (Z.max lo (mb_vmin b)). lia.
  - intros (a & ? & ?). lia.
Qed.

Lemma inv_leaf self l : mman_inv self -> l ∈ elements (m_map self) ->
  exists b, branches self !! a_obj l = Some b /\ l = leaf_of (a_obj l) b /\ branch_wf b.
Proof.
  intros Hi Hl. rewrite (inv_leaves _ Hi) in Hl. apply leaves_elem in Hl as (b & Hb & ->).
  exists b. split_and!; [done..|]. by apply (inv_wf _ Hi (a_obj l)).
Qed.

Lemma inv_leaf_in self p b : mman_inv self -> branches self !! p = Some b -> leaf_of p b ∈ elements (m_map self).
Proof. intros Hi Hb. rewrite (inv_leaves _ Hi). apply leaves_elem. eauto. Qed.

Lemma no_branches self : mman_inv self -> nonnull (m_map self) = false -> branches self = ∅.
Proof.
  intros Hi Hn. destruct (m_map self) eqn:Em; [|done]. apply map_empty. intros p.
  destruct (branches self !! p) as [b|] eqn:Hb; [|done].
  apply inv_leaf_in in Hb; [|done]. rewrite Em in Hb. by apply not_elem_of_nil in Hb.
Qed.

Lemma branches_miss self lo hi : mman_inv self -> lo <= hi -> misses lo hi (elements (m_map self)) ->
  forall a m, lo <= a <= hi -> ~ mapped self a m.
Proof.
  intros Hi Hle Hm a m Ha (p & b & Hb & Hin & _). rewrite Forall_forall in Hm.
  specialize (Hm _ (inv_leaf_in _ _ _ Hi Hb)). apply not_true_iff_false in Hm. apply Hm.
  apply hits_spec; [by apply (inv_wf _ Hi p)|done|eauto].
Qed.

Lemma getbranch_ok self addr : mman_inv self -> 0 <= addr < 2 ^ 32 ->
  exists r, mman_getbranch_unlocked self addr = Ret r /\
    match r with
    | Some p => exists b, branches self !! p = Some b /\ in_branch b addr
    | None => forall m, ~ mapped self addr m
    end.
Proof.
  intros Hi Ha. unfold mman_getbranch_unlocked.
  pose proof (plocate_at_ok 32 _ _ _ addr (semi_ok_root 32 eq_refl) (inv_tree _ Hi) (key_root 32 addr eq_refl Ha))
    as [(p & l & mn & mx & _ & Hl & Hg & Hc)|(_ & Hl & Hf)]; unfold locate; rewrite Hl; cbn [obind].
  - exists (Some (a_obj l)). split; [done|]. apply slot_get_elem in Hg.
    destruct (inv_leaf _ _ Hi Hg) as (b & Hb & El & _). exists b. split; [done|].
    rewrite El in Hc. by apply covers_spec in Hc.
  - exists None. split; [done|]. intros m (p & b & Hb & Hin & _). rewrite Forall_forall in Hf.
    specialize (Hf _ (inv_leaf_in _ _ _ Hi Hb)). apply covers_false in Hf. unfold in_branch in Hin. simpl in Hf. lia.
Qed.

Lemma inuse_ok self start n : mman_inv self -> 0 <= start -> 0 < n -> start + n <= 2 ^ 32 ->
  exists r, mman_inuse_unlocked self start n = Ret r /\
    (r = true <-> exists a m, start <= a < start + n /\ mapped self a m).
Proof.
  intros Hi Hs Hn Hw. unfold mman_inuse_unlocked. destruct (nonnull (m_map self)) eqn:Hnn.
  - rewrite uintptr_id by lia.
    destruct (findany_ok _ _ _ start (start + n - 1) (semi_ok_root 32 eq_refl) (inv_tree _ Hi) Hnn)
      as ([p|] & -> & Hr); cbn [obind]; eexists; (split; [done|]).
    + split; [|done]. intros _. destruct Hr as (l & Hl & <- & Hh).
      destruct (inv_leaf _ _ Hi Hl) as (b & Hb & El & Hwf). rewrite El in Hh.
      apply hits_spec in Hh as (a & Ha & Hin); [|done|lia]. exists a, (maps_at b a). split; [lia|].
      exists (a_obj l), b. done.
    + split; [done|]. intros (a & m & Ha & Hm). exfalso.
      eapply branches_miss; [done| |exact Hr| |exact Hm]; lia.
  - exists false. split; [done|]. split; [done|]. intros (a & m & _ & (p & b & Hb & _)).
    rewrite (no_branches _ Hi Hnn) in Hb. done.
Qed.

(** The list from a branch on. *)
Lemma order_from_ok s lo o p b : all_wf s -> ordered s lo o -> p ∈ o -> s !! p = Some b ->
  exists o', order_from p o = p :: o' /\ ordered s (mb_vmin b) (p :: o') /\
    forall q c, q ∈ o -> s !! q = Some c -> mb_vmin b <= mb_vmax c -> q ∈ p :: o'.
Proof.
  intros Hw. revert lo. induction o as [|x o IH]; intros lo Ho Hin Hb; [by apply not_elem_of_nil in Hin|].
  simpl. destruct (Z.eqb_spec x p) as [->|Hne].
  - exists o. split; [done|]. split; [|done]. destruct Ho as (c & Hc & Hlo & Ho). simplify_eq.
    exists c. split_and!; [done|lia|done].
  - apply elem_of_cons in Hin as [->|Hin]; [done|]. destruct Ho as (c & Hc & Hlo & Ho).
    destruct (IH _ Ho Hin Hb) as (o' & -> & Ho' & Hq). exists o'. split; [done|]. split; [done|].
    intros q d [->|Hq']%elem_of_cons Hd Hle; [|by eapply Hq]. exfalso. simplify_eq.
    destruct (ordered_in _ _ _ _ Hw Ho Hin) as (b' & Hb' & ?). simplify_eq. lia.
Qed.

(** Every address from [lo] to [hi] is mapped with rights that match. *)
Definition valid_range (s : gmap Z mbranch) (lo hi mask prot : Z) : Prop :=
  forall a, lo <= a <= hi -> exists m, mapped_in s a m /\ Z.land (mg_prot m) mask = prot.

Lemma valid_loop_cons s p o hi mask prot b : s !! p = Some b ->
  valid_loop s (p :: o) hi mask prot =
    if negb (Z.land (mb_prot b) mask =? prot) then Ret false
    else if hi <=? mb_vmax b then Ret true
    else match o with
         | [] => Ret false
         | next :: _ => let! n := branch_at s next in
             if mb_vmin n =? MBRANCH_END b then valid_loop s o hi mask prot else Ret false
         end.
Proof. intros Hb. simpl. unfold branch_at at 1. rewrite Hb. by destruct o. Qed.

Lemma valid_gap s o p b lo cur hi mask prot :
  all_wf s -> ordered s lo (p :: o) -> s !! p = Some b -> cur <= mb_vmax b < hi ->
  (forall q c, s !! q = Some c -> cur <= mb_vmax c -> q ∈ p :: o) ->
  (forall x n, head o = Some x -> s !! x = Some n -> mb_vmin n <> mb_vmax b + 1) ->
  ~ valid_range s cur hi mask prot.
Proof.
  intros Hw (b' & Hb' & _ & Ho) Hb Hcur Hall Hgap Hv. assert (b' = b) as -> by congruence.
  destruct (Hv (mb_vmax b + 1)) as (m & (q & c & Hc & Hin & _) & _); [lia|]. unfold in_branch in Hin.
  assert (Hq : q ∈ p :: o) by (apply (Hall q c Hc); lia).
  apply elem_of_cons in Hq as [->|Hq]; [simplify_eq; lia|].
  destruct o as [|x o]; [by apply not_elem_of_nil in Hq|]. destruct Ho as (n & Hn & Hlo & Ho).
  specialize (Hgap x n eq_refl Hn). pose proof (Hw _ _ Hn) as (_ & _ & Hn1 & _).
  apply elem_of_cons in Hq as [->|Hq]; [simplify_eq; lia|].
  destruct (ordered_in _ _ _ _ Hw Ho Hq) as (c' & Hc' & ?). simplify_eq. lia.
Qed.

Lemma valid_loop_ok s o cur hi mask prot p b :
  all_wf s -> branches_apart s -> ordered s (mb_vmin b) (p :: o) -> s !! p = Some b -> in_branch b cur ->
  cur <= hi < 2 ^ 32 -> (forall q c, s !! q = Some c -> cur <= mb_vmax c -> q ∈ p :: o) ->
  exists r, valid_loop s (p :: o) hi mask prot = Ret r /\ (r = true <-> valid_range s cur hi mask prot).
Proof.
  intros Hw Hap. revert cur p b. induction o as [|x o IH]; intros cur p b Ho Hb Hin Hle Hall;
    rewrite (valid_loop_cons _ _ _ _ _ _ _ Hb); unfold in_branch in Hin.
  all: destruct (Z.eqb_spec (Z.land (mb_prot b) mask) prot) as [Hp|Hp]; cbn [negb];
    [|exists false; split; [done|]; split; [done|]; intros Hv; destruct (Hv cur) as (m & Hm & Hpr); [lia|];
      rewrite (apart_mapped s cur m (maps_at b cur) Hap Hm) in Hpr; [done|exists p, b; done]].
  all: assert (Hmine : forall a, in_branch b a -> exists m, mapped_in s a m /\ Z.land (mg_prot m) mask = prot)
    by (intros a Ha; exists (maps_at b a); split; [exists p, b; done|done]).
  all: destruct (Z.leb_spec hi (mb_vmax b)) as [Hhi|Hhi];
    [exists true; split; [done|]; split; [|done]; intros _ a Ha; apply Hmine; unfold in_branch; lia|].
  { exists false. split; [done|]. split; [done|]. intros Hv. exfalso. revert Hv. eapply valid_gap; eauto; lia. }
  pose proof Ho as (b' & Hb' & _ & Hx). assert (b' = b) as -> by congruence. pose proof Hx as (n & Hn & Hbn & Ho').
  unfold branch_at. rewrite Hn. cbn [obind]. pose proof (Hw _ _ Hb) as (_ & _ & Hb1 & Hb2 & _).
  unfold MBRANCH_END. rewrite uintptr_id by lia. destruct (Z.eqb_spec (mb_vmin n) (mb_vmax b + 1)) as [He|He].
  - pose proof (Hw _ _ Hn) as (_ & _ & Hn1 & _).
    destruct (IH (mb_vmin n) x n) as (r & -> & Hr); [exists n; done|done|unfold in_branch; lia|lia| |].
    { intros q c Hc Hqc. assert (Hq : q ∈ p :: x :: o) by (apply (Hall q c Hc); lia).
      apply elem_of_cons in Hq as [->|Hq]; [|done]. simplify_eq. lia. }
    exists r. split; [done|]. rewrite Hr. split; intros Hv a Ha; [|apply Hv; lia].
    destruct (Z_le_gt_dec a (mb_vmax b)) as [Hab|Hab]; [apply Hmine; unfold in_branch; lia|apply Hv; lia].
  - exists false. split; [done|]. split; [done|]. intros Hv. exfalso. revert Hv.
    eapply (valid_gap s (x :: o) p b); eauto; [lia|]. cbn [head]. intros y n0 [= <-] Hn0. congruence.
Qed.

Lemma valid_ok self start n mask prot : mman_inv self -> 0 <= start < 2 ^ 32 -> 0 <= n < 2 ^ 32 ->
  exists r, mman_valid_unlocked self start n mask prot = Ret r /\
    (r = true <-> 0 < n /\ start + n < 2 ^ 32 /\ valid_range (branches self) start (start + n - 1) mask prot).
Proof.
  intros Hi Hs Hn. unfold mman_valid_unlocked. destruct (nonnull (m_map self)) eqn:Hnn; cbn [negb].
  2:{ exists false. split; [done|]. split; [done|]. intros (? & ? & Hv).
      destruct (Hv start) as (m & (p & b & Hb & _) & _); [lia|]. by rewrite (no_branches _ Hi Hnn) in Hb. }
  destruct (Z.leb_spec (uintptr (start + n)) start) as [Hw|Hw].
  { exists false. split; [done|]. split; [done|]. intros (? & ? & _). rewrite uintptr_id in Hw by lia. lia. }
  assert (Hlt : start + n < 2 ^ 32).
  { destruct (Z.lt_ge_cases (start + n) (2 ^ 32)); [done|]. rewrite uintptr_wrap in Hw by lia. lia. }
  rewrite uintptr_id in Hw |- * by lia. destruct (getbranch_ok self start Hi Hs) as ([p|] & -> & Hg); cbn [obind].
  - destruct Hg as (b & Hb & Hin). pose proof (inv_wf _ Hi) as Hwf.
    assert (Hp : p ∈ m_order self) by (apply (inv_listed _ Hi); eauto).
    destruct (order_from_ok _ _ _ _ _ Hwf (inv_order _ Hi) Hp Hb) as (o' & -> & Ho & Hq).
    destruct (valid_loop_ok (branches self) o' start (start + n - 1) mask prot p b) as (r & -> & Hr); eauto;
      [by apply inv_apart|lia| |].
    { intros q c Hc Hle. destruct (decide (q = p)) as [->|Hne]; [by left|]. eapply Hq; [apply (inv_listed _ Hi); eauto|done|].
      unfold in_branch in Hin. lia. }
    exists r. split; [done|]. rewrite Hr. split; [|tauto]. intros. split_and!; [lia|lia|done].
  - exists false. split; [done|]. split; [done|]. intros (? & _ & Hv).
    destruct (Hv start) as (m & Hm & _); [lia|]. by apply Hg in Hm.
Qed.
