(* ===== verification/MmanSpace.v ===== *)
(** * Address spaces: finding free space

    [mman_findspace_unlocked] returns free ranges, downwards with any alignment and padding, upwards with
    none beyond pages; other requests upwards may be answered with memory in use. *)
From stdpp Require Import base numbers list gmap.
From S2P Require Import Prelude Align ATree Mman MmanSpec MmanFind.

(** ** The branches at the hint *)

Definition info_in (P : leaf Z -> Prop) (info : branch_info) : Prop := exists l1 l2, P l1 /\ P l2 /\
  info = BranchInfo (Some (a_obj l1)) (Some (a_obj l2)) (a_vmin l1) (a_vmax l2).

Definition info0 : branch_info := BranchInfo None None 0 0.

Lemma found_branch_ok (P : leaf Z -> Prop) l info : P l -> info = info0 \/ info_in P info -> info_in P (found_branch l info).
Proof.
  intros Hl [->|(l1 & l2 & H1 & H2 & ->)]; unfold found_branch; simpl.
  - exists l, l. done.
  - destruct (a_vmin l <? a_vmin l1); simpl; destruct (a_vmax l <? a_vmax l2); simpl;
      unfold info_in; [exists l, l|exists l, l2|exists l1, l|exists l1, l2]; done.
Qed.

Lemma findbranches_ok (P : leaf Z -> Prop) t info semi level lo hi :
  semi_ok 32 semi level -> wf semi level t -> nonnull t = true ->
  (forall l, l ∈ elements t -> hits l lo hi = true -> P l) -> info = info0 \/ info_in P info ->
  exists info', mman_findbranches info t lo hi semi level = Ret info' /\
    (info' = info /\ misses lo hi (elements t) \/ info_in P info').
Proof.
  revert info semi level. induction t as [|l mn IHn mx IHx]; intros info semi level Hs Hwf; [done|]. intros _ HP Hinfo.
  cbn [mman_findbranches elements].
  set (info1 := if hits l lo hi then found_branch l info else info).
  assert (Hinfo1 : info1 = info /\ hits l lo hi = false \/ info_in P info1).
  { unfold info1. destruct (hits l lo hi) eqn:Hh; [right|by left]. apply found_branch_ok; [|done].
    apply HP; [by left|done]. }
  assert (HPn : forall x, x ∈ elements mn -> hits x lo hi = true -> P x)
    by (intros x Hx; apply HP; simpl; rewrite elem_of_cons, elem_of_app; auto).
  assert (HPx : forall x, x ∈ elements mx -> hits x lo hi = true -> P x)
    by (intros x Hx; apply HP; simpl; rewrite elem_of_cons, elem_of_app; auto).
  assert (Hor : forall i, i = info1 \/ info_in P i -> i = info0 \/ info_in P i).
  { intros i [->|?]; [|by right]. destruct Hinfo1 as [[-> _]|?]; [done|by right]. }
  assert (Hall : forall i, i = info1 -> misses lo hi (elements mn) -> misses lo hi (elements mx) ->
    i = info /\ misses lo hi (l :: elements mn ++ elements mx) \/ info_in P i).
  { intros i -> Hn Hx. destruct Hinfo1 as [[E Hh]|?]; [left|by right]. split; [done|].
    constructor; [done|]. by apply Forall_app. }
  walk_halves Hs Hwf.
  - destruct (IHx info1 _ _ H1 H2 Ex HPx) as (i & -> & Hi); [apply Hor; by left|]. cbn [obind].
    destruct (IHn i _ _ H H0 En HPn) as (j & -> & Hj); [apply Hor; tauto|].
    exists j. split; [done|]. destruct Hj as [[-> ?]|?]; [|by right]. destruct Hi as [[-> ?]|?]; [by apply Hall|by right].
  - destruct (IHn info1 _ _ H H0 En HPn) as (j & -> & Hj); [apply Hor; by left|].
    exists j. split; [done|]. destruct Hj as [[-> ?]|?]; [by apply Hall|by right].
  - destruct (IHx info1 _ _ H H0 Ex HPx) as (i & -> & Hi); [apply Hor; by left|].
    exists i. split; [done|]. destruct Hi as [[-> ?]|?]; [by apply Hall|by right].
  - exists info1. split; [done|]. by apply Hall.
Qed.

(** ** Gaps between branches *)

Definition free_at (s : gmap Z mbranch) (r n : Z) : Prop :=
  0 <= r /\ r + n <= 2 ^ 32 /\ forall p b, s !! p = Some b -> mb_vmax b < r \/ r + n <= mb_vmin b.

(** The list downwards. *)
Fixpoint descending (s : gmap Z mbranch) (hi : Z) (chain : list Z) : Prop :=
  match chain with
  | [] => True
  | p :: chain => exists b, s !! p = Some b /\ mb_vmax b < hi /\ descending s (mb_vmin b) chain
  end.

Lemma descending_app s hi c p b : descending s hi c -> s !! p = Some b ->
  (forall q d, q ∈ c -> s !! q = Some d -> mb_vmax b < mb_vmin d) -> (c = [] -> mb_vmax b < hi) ->
  descending s hi (c ++ [p]).
Proof.
  revert hi. induction c as [|q c IH]; intros hi Hc Hb Hlt Hhi; simpl.
  { exists b. auto. }
  destruct Hc as (d & Hd & Hdh & Hc). exists d. split_and!; [done..|]. apply IH; [done..| |].
  - intros x y Hx. apply Hlt. by right.
  - intros _. apply (Hlt q d); [by left|done].
Qed.

Lemma ordered_descending s lo o : all_wf s -> ordered s lo o -> descending s (2 ^ 32) (reverse o).
Proof.
  intros Hw. revert lo. induction o as [|p o IH]; intros lo; [done|]. intros (b & Hb & _ & Ho).
  rewrite reverse_cons. eapply descending_app; eauto.
  - intros q d Hq Hd. rewrite elem_of_reverse in Hq. destruct (ordered_in _ _ _ _ Hw Ho Hq) as (d' & ? & ?).
    simplify_eq. lia.
  - intros _. by pose proof (Hw _ _ Hb) as (_ & _ & _ & ? & _).
Qed.

Lemma descending_in s hi c p : all_wf s -> descending s hi c -> p ∈ c -> exists b, s !! p = Some b /\ mb_vmax b < hi.
Proof.
  intros Hw. revert hi. induction c as [|q c IH]; intros hi; [by intros _ ?%not_elem_of_nil|].
  intros (b & Hb & Hlt & Hc) [->|Hin]%elem_of_cons; [eauto|].
  destruct (IH _ Hc Hin) as (b' & ? & ?). pose proof (Hw _ _ Hb) as (_ & _ & ? & _). exists b'. split; [done|lia].
Qed.

Lemma order_to_ok s hi o p b : all_wf s -> descending s hi o -> p ∈ o -> s !! p = Some b ->
  exists o', order_from p o = p :: o' /\ descending s (mb_vmax b + 1) (p :: o') /\
    forall q c, q ∈ o -> s !! q = Some c -> mb_vmin c <= mb_vmax b -> q ∈ p :: o'.
Proof.
  intros Hw. revert hi. induction o as [|x o IH]; intros hi Ho Hin Hb; [by apply not_elem_of_nil in Hin|].
  simpl. destruct (Z.eqb_spec x p) as [->|Hne].
  - exists o. split; [done|]. split; [|done]. destruct Ho as (c & Hc & Hlo & Ho). simplify_eq.
    exists c. split_and!; [done|lia|done].
  - apply elem_of_cons in Hin as [->|Hin]; [done|]. destruct Ho as (c & Hc & Hlo & Ho).
    destruct (IH _ Ho Hin Hb) as (o' & -> & Ho' & Hq). exists o'. split; [done|]. split; [done|].
    intros q d [->|Hq']%elem_of_cons Hd Hle; [|by eapply Hq]. exfalso. simplify_eq.
    destruct (descending_in _ _ _ _ Hw Ho Hin) as (b' & Hb' & ?). simplify_eq. lia.
Qed.

Lemma ceil_small k c : 0 <= k <= 12 -> 0 <= c < 2 ^ 32 -> c mod 4096 = 0 ->
  CEIL_ALIGN (2 ^ 32) c (2 ^ k) = c /\ c mod 2 ^ k = 0.
Proof.
  intros Hk Hc Hc0. pose proof (Z.pow_pos_nonneg 2 k ltac:(lia) ltac:(lia)) as Hp.
  assert (E12 : 4096 = 2 ^ k * 2 ^ (12 - k)).
  { rewrite <- Z.pow_add_r by lia. by replace (k + (12 - k)) with 12 by lia. }
  assert (Hle : 2 ^ k <= 4096) by (change 4096 with (2 ^ 12); apply Z.pow_le_mono_r; lia).
  apply Z.mod_divide in Hc0 as [z Hz]; [|lia].
  assert (Hck : c = z * 2 ^ (12 - k) * 2 ^ k) by (rewrite Hz, E12; ring).
  assert (Hcm : c mod 2 ^ k = 0) by (rewrite Hck; apply Z.mod_mul; lia).
  split; [|done]. rewrite CEIL_ALIGN_pow2 by lia. rewrite Hck at 1.
  rewrite <- Z.add_sub_assoc, Z.div_add_l, Z.div_small by lia. lia.
Qed.

Lemma floor_small k c : 0 <= k <= 12 -> 0 <= c < 2 ^ 32 -> c mod 4096 = 0 -> FLOOR_ALIGN c (2 ^ k) = c.
Proof.
  intros Hk Hc Hc0. destruct (ceil_small k c Hk Hc Hc0) as [_ Hm]. destruct (FLOOR_ALIGN_bounds c k) as (Hf & Hfm & _); [lia..|].
  pose proof (Z.pow_pos_nonneg 2 k ltac:(lia) ltac:(lia)). apply Z.mod_divide in Hm as [z Hz]; [|lia]. apply Z.mod_divide in Hfm as [y Hy]; [|lia].
  assert (y = z) by nia. lia.
Qed.

Lemma page_sub x y : x mod 4096 = 0 -> y mod 4096 = 0 -> (x - y) mod 4096 = 0.
Proof. intros. mlia. Qed.

Lemma branch_end b : branch_wf b -> MBRANCH_END b mod 4096 = 0 /\
  (MBRANCH_END b = mb_vmax b + 1 \/ MBRANCH_END b = 0 /\ mb_vmax b + 1 = 2 ^ 32).
Proof.
  intros (_ & Hb & ? & ? & _). unfold MBRANCH_END. destruct (Z.eq_dec (mb_vmax b + 1) (2 ^ 32)) as [->|].
  - split; [done|]. by right.
  - rewrite uintptr_id by lia. auto.
Qed.

Lemma unpadded (c : bool) x y : x = y -> 0 <= x < 2 ^ 32 -> (if c then uintptr (x + 0) else x) = y /\ (if c then uintptr (x - 0) else x) = y.
Proof. intros <- Hx. rewrite Z.add_0_r, Z.sub_0_r, uintptr_id by done. by destruct c. Qed.

Lemma END_range b : 0 <= MBRANCH_END b < 2 ^ 32.
Proof. apply uintptr_range. Qed.

Section Gaps.

Context {E : Type} `{BranchOps E}.
Variables (e : E) (self : mman) (n : Z).
Hypothesis Hi : mman_inv self.
Hypothesis Hn : 0 < n /\ n mod 4096 = 0 /\ n < 2 ^ 32.

(** A free range does not go across a branch. *)
Lemma free_apart x p b : free_at (branches self) x n -> branches self !! p = Some b -> mb_vmax b < x \/ x + n <= mb_vmin b.
Proof. intros (_ & _ & Hf) Hb. destruct (Hf p b Hb); lia. Qed.

(** One step upwards without padding. *)
Lemma space_above_cons k mode p o b : 0 <= k <= 12 -> branches self !! p = Some b ->
  (forall x, head o = Some x -> is_Some (branches self !! x)) ->
  space_above e self n (2 ^ k) (p :: o) 0 mode =
    let next := match o with
                | x :: _ => default 0 (mb_vmin <$> branches self !! x)
                | [] => 0 end in
    if n <=? uintptr (next - MBRANCH_END b) then Ret (Some (MBRANCH_END b)) else
    match o with [] => Ret None | _ => space_above e self n (2 ^ k) o 0 mode end.
Proof.
  intros Hk Hb Hx. pose proof (inv_wf _ Hi _ _ Hb) as Hw. pose proof (branch_end b Hw) as [He _].
  pose proof (END_range b) as Hr. simpl. unfold branch_at at 1. rewrite Hb. cbn [obind].
  destruct (unpadded (padded e mode MREGION_TYPE_HIGUARD b) _ _ eq_refl Hr) as [-> _].
  rewrite (proj1 (ceil_small k _ Hk Hr He)). destruct o as [|x o]; [done|].
  destruct (Hx x eq_refl) as [c Hc]. unfold branch_at at 1. rewrite Hc. cbn [obind default fmap option_fmap option_map].
  pose proof (inv_wf _ Hi _ _ Hc) as (_ & _ & ? & ? & _).
  destruct (unpadded (padded e mode MREGION_TYPE_LOGUARD c) (mb_vmin c) _ eq_refl) as [_ ->]; [lia|]. done.
Qed.

(** Upwards, with pages as alignment and no padding: the range between two branches, or above
    the last; or there is no free range. *)
Lemma space_above_ok k mode lo o p b : 0 <= k <= 12 ->
  ordered (branches self) lo (p :: o) -> branches self !! p = Some b ->
  (forall q c, branches self !! q = Some c -> q ∈ p :: o \/ mb_vmax c < mb_vmin b) ->
  exists r, space_above e self n (2 ^ k) (p :: o) 0 mode = Ret r /\
    match r with Some c => free_at (branches self) c n /\ c mod 2 ^ k = 0
    | None => forall y, mb_vmax b < y -> ~ free_at (branches self) y n end.
Proof.
  intros Hk. pose proof (inv_wf _ Hi) as Hw. revert lo p b. induction o as [|x o IH]; intros lo p b Ho Hb Hall.
  all: pose proof (branch_end b (Hw _ _ Hb)) as [He Hee]; pose proof (END_range b) as Hr;
    pose proof (Hw _ _ Hb) as (_ & _ & Hb2 & _); pose proof (proj2 (ceil_small k _ Hk Hr He)) as Hal.
  - rewrite (space_above_cons k mode p [] b) by done. cbv zeta.
    destruct (Z.leb_spec n (uintptr (0 - MBRANCH_END b))) as [Hle|Hgt].
    2: { exists None. split; [done|]. intros y Hy (? & ? & _). destruct Hee as [Hee|[_ Hee]]; [|lia]. rewrite uintptr_neg in Hgt by lia. lia. }
    exists (Some (MBRANCH_END b)). split; [done|]. split; [|done]. destruct Hee as [Hee|[Hee _]]; [|rewrite Hee in Hle; change (uintptr (0 - 0)) with 0 in Hle; lia].
    rewrite uintptr_neg in Hle by lia. split_and!; [lia|lia|].
    intros q c Hc. left. destruct (Hall q c Hc) as [->%list_elem_of_singleton|?]; [simplify_eq|]; lia.
  - pose proof Ho as (b' & Hb' & _ & Hx). assert (b' = b) as -> by congruence. pose proof Hx as (c & Hc & Hbc & Ho').
    rewrite (space_above_cons k mode p (x :: o) b) by (try done; intros y [= <-]; eauto). cbv beta iota zeta. rewrite Hc. cbn [default fmap option_fmap option_map id].
    pose proof (Hw _ _ Hc) as (_ & _ & Hc2 & Hc3 & _). destruct Hee as [Hee|[_ Hee]]; [|lia].
    rewrite uintptr_id by lia. destruct (Z.leb_spec n (mb_vmin c - MBRANCH_END b)) as [Hle|Hgt].
    + exists (Some (MBRANCH_END b)). split; [done|]. split; [|done]. split_and!; [lia|lia|]. intros q d Hd.
      destruct (Hall q d Hd) as [[->|Hq]%elem_of_cons|?]; [simplify_eq; lia| |lia]. right.
      destruct (decide (q = x)) as [->|Hne]; [simplify_eq; lia|]. apply elem_of_cons in Hq as [->|Hq]; [done|].
      destruct (ordered_in _ _ _ _ Hw Ho' Hq) as (d' & ? & ?). simplify_eq. lia.
    + destruct (IH (mb_vmax b + 1) x c Hx Hc) as (r & -> & Hnone).
      { intros q d Hd. destruct (Hall q d Hd) as [[->|Hq]%elem_of_cons|?]; [right|by left|right]; simplify_eq; lia. }
      exists r. split; [done|]. destruct r; [done|]. intros y Hy Hf. destruct (free_apart y x c Hf Hc); [|lia]. by apply (Hnone y).
Qed.

(** Padding above a branch that is not the last one stays in the address space. *)
Definition pad_fits (s : gmap Z mbranch) (pad : Z) : Prop := 0 <= pad < 2 ^ 32 /\
  forall p q b c, s !! p = Some b -> s !! q = Some c -> below b c -> mb_vmax b + 1 + pad < 2 ^ 32.

(** The candidate below a branch at [v]: it wraps around, or there is room for [n] bytes. *)
Lemma below_candidate (c : bool) v pad : 0 <= v < 2 ^ 32 -> 0 <= pad -> pad + n < 2 ^ 32 ->
  let c0 := if c then uintptr (v - pad) else v in
  (v <? c0) = true /\ pad <> 0 \/ (v <? c0) = false /\ (pad = 0 -> c0 = v) /\
    ((v <? uintptr (c0 - n)) = true /\ c0 < n \/ (v <? uintptr (c0 - n)) = false /\ uintptr (c0 - n) = c0 - n /\ 0 <= c0 - n /\ c0 <= v).
Proof.
  intros Hv Hpad Hpn c0.
  assert (Hc0 : v < c0 /\ pad <> 0 \/ 0 <= c0 <= v /\ v - pad <= c0).
  { unfold c0. destruct c; [|lia]. destruct (Z.lt_ge_cases v pad); [rewrite uintptr_neg by lia|rewrite uintptr_id by lia]; lia. }
  clearbody c0. destruct (Z.ltb_spec v c0); [left; split; [done|lia]|right; split; [done|split; [lia|]]]. destruct Hc0 as [?|[Hc0 Hc1]]; [lia|].
  destruct (Z.lt_ge_cases c0 n).
  - left. rewrite uintptr_neg by lia. split; [apply Z.ltb_lt|]; lia.
  - right. rewrite uintptr_id by lia. split; [apply Z.ltb_ge|]; lia.
Qed.

(** One step downwards. *)
Lemma space_below_cons k pad mode p o b : 0 <= k -> 0 <= pad -> pad + n < 2 ^ 32 -> branches self !! p = Some b ->
  (forall x, head o = Some x -> exists c, branches self !! x = Some c /\ below c b /\ mb_vmax c + 1 + pad < 2 ^ 32) ->
  space_below e self n (2 ^ k) (p :: o) pad mode = Ret None /\ (pad = 0 -> mb_vmin b < n) \/
  exists c, 0 <= c /\ c + n <= mb_vmin b /\ c mod 2 ^ k = 0 /\
    ((forall x d, head o = Some x -> branches self !! x = Some d -> mb_vmax d < c) /\
      space_below e self n (2 ^ k) (p :: o) pad mode = Ret (Some c) \/
     o <> [] /\ space_below e self n (2 ^ k) (p :: o) pad mode = space_below e self n (2 ^ k) o pad mode /\
      (k <= 12 -> pad = 0 -> forall x d, head o = Some x -> branches self !! x = Some d -> mb_vmin b <= mb_vmax d + n)).
Proof.
  intros Hk Hpad Hpn Hb Hx. pose proof (inv_wf _ Hi _ _ Hb) as (_ & _ & Hb2 & Hb3 & _).
  remember (space_below e self n (2 ^ k) (p :: o) pad mode) as r eqn:Er.
  cbn [space_below] in Er. unfold branch_at at 1 in Er. rewrite Hb in Er. cbn [obind] in Er.
  pose proof (below_candidate (padded e mode MREGION_TYPE_HIGUARD b) (mb_vmin b) pad ltac:(lia) Hpad Hpn) as Hc.
  cbv zeta in Hc. set (c0 := if padded e mode MREGION_TYPE_HIGUARD b then uintptr (mb_vmin b - pad) else mb_vmin b) in *.
  destruct o as [|x o]; cbn [obind] in Er.
  - destruct Hc as [[Hc Hp0]|(Hc & Hp0 & [[Hc' Hcn]|(Hc' & Hcn & Hc0 & Hcv)])]; rewrite ?Hc, ?Hc', ?Hcn in Er;
      [left; split; [done|lia]..|right].
    destruct (FLOOR_ALIGN_bounds (c0 - n) k Hk Hc0) as (Hf & Hfm & Hf0).
    exists (FLOOR_ALIGN (c0 - n) (2 ^ k)). split_and!; [done|lia|done|]. left. split; [done|].
    by rewrite (proj2 (Z.leb_le _ _) Hf0) in Er.
  - destruct (Hx x eq_refl) as (d & Hd & Hdb & Hdp). pose proof (inv_wf _ Hi _ _ Hd) as (_ & _ & Hd2 & _).
    unfold below in Hdb. unfold branch_at at 1 in Er. rewrite Hd in Er. cbn [obind] in Er. unfold MBRANCH_END in Er.
    rewrite (uintptr_id (mb_vmax d + 1)), (uintptr_id (mb_vmax d + 1 + pad)) in Er by lia.
    destruct Hc as [[Hc Hp0]|(Hc & Hp0 & [[Hc' Hcn]|(Hc' & Hcn & Hc0 & Hcv)])]; rewrite ?Hc, ?Hc', ?Hcn in Er;
      [left; split; [done|lia]..|right].
    destruct (FLOOR_ALIGN_bounds (c0 - n) k Hk Hc0) as (Hf & Hfm & Hf0).
    exists (FLOOR_ALIGN (c0 - n) (2 ^ k)). split_and!; [done|lia|done|].
    match type of Er with context [?l <=? _] => set (lo := l) in * end.
    assert (Hlo : mb_vmax d < lo) by (unfold lo; destruct (padded e mode MREGION_TYPE_HIGUARD d); lia).
    destruct (Z.leb_spec lo (FLOOR_ALIGN (c0 - n) (2 ^ k))) as [Hle|Hgt]; [left|right].
    + split; [|done]. intros y d' [= <-] Hd'. simplify_eq. lia.
    + split_and!; [done..|]. intros Hk12 -> y d' [= <-] Hd'. simplify_eq. rewrite Hp0 in Hgt by done.
      pose proof (inv_wf _ Hi _ _ Hb) as (Hb1 & _). rewrite floor_small in Hgt by (lia || (apply page_sub; [done|apply Hn])).
      unfold lo in Hgt. destruct (padded e mode MREGION_TYPE_HIGUARD d); lia.
Qed.

(** Downwards: the range below a branch, with its alignment and padding. *)
Lemma space_below_ok k pad mode hi o p b : 0 <= k -> pad_fits (branches self) pad -> pad + n < 2 ^ 32 ->
  descending (branches self) hi (p :: o) -> branches self !! p = Some b ->
  (forall q c, branches self !! q = Some c -> q ∈ p :: o \/ mb_vmax b < mb_vmin c) ->
  exists r, space_below e self n (2 ^ k) (p :: o) pad mode = Ret r /\
    match r with Some c => free_at (branches self) c n /\ c mod 2 ^ k = 0
    | None => k <= 12 -> pad = 0 -> forall y, y < mb_vmin b -> ~ free_at (branches self) y n end.
Proof.
  intros Hk [Hpad Hpf] Hpn. pose proof (inv_wf _ Hi) as Hw. revert hi p b. induction o as [|x o IH]; intros hi p b Ho Hb Hall.
  all: pose proof (Hw _ _ Hb) as (_ & _ & Hb2 & Hb3 & _).
  all: destruct Ho as (b' & Hb' & Hlt & Ho); assert (b' = b) as -> by congruence.
  - destruct (space_below_cons k pad mode p [] b) as [[-> Hp0]|(c & Hc0 & Hc1 & Hcm & [[_ ->]|[? _]])]; try done; [lia| |].
    { exists None. split; [done|]. intros _ Hp y Hy Hf. specialize (Hp0 Hp). pose proof (free_apart y p b Hf Hb). destruct Hf. lia. }
    exists (Some c). split; [done|]. split; [|done]. split_and!; [lia|lia|]. intros q d Hd. right.
    destruct (Hall q d Hd) as [->%list_elem_of_singleton|?]; simplify_eq; lia.
  - pose proof Ho as (c & Hc & Hcb & Ho').
    assert (Hxc : forall q d, q ∈ x :: o -> branches self !! q = Some d -> mb_vmax d <= mb_vmax c).
    { intros q d [->|Hq]%elem_of_cons Hd; [simplify_eq; lia|]. pose proof (Hw _ _ Hc) as (_ & _ & ? & _).
      destruct (descending_in _ _ _ _ Hw Ho' Hq) as (d' & ? & ?). simplify_eq. lia. }
    destruct (space_below_cons k pad mode p (x :: o) b) as [[-> Hp0]|(cd & Hc0 & Hc1 & Hcm & [[Hlo ->]|(_ & -> & Hgap)])]; try done; [lia| | | |].
    { intros y [= <-]. exists c. split_and!; [done..|]. by apply (Hpf x p c b). }
    + exists None. split; [done|]. intros _ Hp y Hy Hf. specialize (Hp0 Hp). pose proof (free_apart y p b Hf Hb). destruct Hf. lia.
    + exists (Some cd). split; [done|]. split; [|done]. specialize (Hlo x c eq_refl Hc). split_and!; [lia|lia|]. intros q d Hd.
      destruct (Hall q d Hd) as [[->|Hq]%elem_of_cons|?]; [simplify_eq; lia| |lia]. left. specialize (Hxc q d Hq Hd). lia.
    + destruct (IH (mb_vmin b) x c Ho Hc) as (r & -> & Hr).
      { intros q d Hd. destruct (Hall q d Hd) as [[->|Hq]%elem_of_cons|?]; [right|by left|right]; simplify_eq; lia. }
      exists r. split; [done|]. destruct r; [done|]. intros Hk12 Hp y Hy Hf. apply (Hr Hk12 Hp y); [|done].
      specialize (Hgap Hk12 Hp x c eq_refl Hc). pose proof (free_apart y p b Hf Hb). pose proof (free_apart y x c Hf Hc). lia.
Qed.

End Gaps.

(** ** The search *)

Lemma has_ldiff mode f g : Z.land f g = 0 -> has (Z.ldiff mode g) f = has mode f.
Proof.
  intros Hfg. unfold has. do 2 f_equal. apply Z.bits_inj'. intros i Hi.
  rewrite !Z.land_spec, Z.ldiff_spec. assert (Hb : Z.testbit f i && Z.testbit g i = false)
    by (rewrite <- Z.land_spec, Hfg; apply Z.bits_0).
  destruct (Z.testbit mode i), (Z.testbit f i), (Z.testbit g i); done.
Qed.

Section Search.

Context {E : Type} `{BranchOps E}.
Variables (e : E) (self : mman) (n k : Z).
Hypothesis Hi : mman_inv self.
Hypothesis Hn : 0 < n <= 2 ^ 30 /\ n mod 4096 = 0.
Hypothesis Hk : 0 <= k.
Hypothesis Hmap : nonnull (m_map self) = true.

(** The requests the search is right for. *)
Definition search_ok (pad mode : Z) : Prop :=
  has mode MMAN_FINDSPACE_BELOW = true /\ pad_fits (branches self) pad /\ pad + 2 ^ 30 < 2 ^ 32 \/ k <= 12 /\ pad = 0.

Lemma search_ok_nogap pad mode : search_ok pad mode -> search_ok 0 (Z.ldiff mode MMAN_FINDSPACE_FORCEGAP).
Proof.
  intros [(Hb & [_ Hp] & _)|[Hk12 _]]; [left|by right]. rewrite has_ldiff by done. split; [done|]. split; [|lia].
  split; [lia|]. intros p q b c Hb' Hc Hbc. pose proof (inv_wf _ Hi _ _ Hc) as (_ & _ & ? & ? & _). unfold below in Hbc. lia.
Qed.

(** What follows the label [fail]. *)
Definition retry (fuel : nat) (hint pad mode : Z) : outcome Z :=
  if has mode MMAN_FINDSPACE_TRYHARD then
    if negb (hint =? max_hint n hint mode) then findspace_again e self n (2 ^ k) fuel (max_hint n hint mode) pad mode
    else if negb (pad =? 0) then findspace_again e self n (2 ^ k) fuel hint 0 (Z.ldiff mode MMAN_FINDSPACE_FORCEGAP)
    else Ret PAGE_ERROR
  else Ret PAGE_ERROR.

(** No free range begins at the hint or, in the direction of the search, behind it. *)
Definition out_of_reach (mode h : Z) : Prop :=
  forall x, free_at (branches self) x n -> if has mode MMAN_FINDSPACE_BELOW then h < x else x < h.

(** Step 2 from the branches that [mman_findbranches] has found. *)
Lemma gap_ok lo hi pad mode b c : search_ok pad mode -> branches self !! lo = Some b -> branches self !! hi = Some c ->
  exists r, (if has mode MMAN_FINDSPACE_BELOW then space_below e self n (2 ^ k) (order_to lo (m_order self)) pad mode
             else space_above e self n (2 ^ k) (order_from hi (m_order self)) pad mode) = Ret r /\
    match r with
    | Some r => free_at (branches self) r n
    | None => k <= 12 -> pad = 0 -> forall y, (if has mode MMAN_FINDSPACE_BELOW then y < mb_vmin b else mb_vmax c < y) -> ~ free_at (branches self) y n
    end.
Proof.
  intros Hok Hb Hc. pose proof (inv_wf _ Hi) as Hw.
  assert (Hlisted : forall p d, branches self !! p = Some d -> p ∈ m_order self) by (intros p d Hd; apply (inv_listed _ Hi); eauto).
  assert (Hn' : 0 < n /\ n mod 4096 = 0 /\ n < 2 ^ 32) by lia.
  assert (Hpad : has mode MMAN_FINDSPACE_BELOW = true -> pad_fits (branches self) pad /\ pad + n < 2 ^ 32).
  { intros Hbl. destruct Hok as [(_ & ? & ?)|[_ ->]]; [split; [done|lia]|]. split; [|lia]. split; [lia|].
    intros p q b' c' _ Hc' Hbc. pose proof (Hw _ _ Hc') as (_ & _ & ? & ? & _). unfold below in Hbc. lia. }
  destruct (has mode MMAN_FINDSPACE_BELOW) eqn:Hbl.
  - destruct (Hpad eq_refl) as [Hpf Hpn].
    destruct (order_to_ok (branches self) (2 ^ 32) (reverse (m_order self)) lo b) as (o' & Eo & Ho & Hq);
      [done|by eapply ordered_descending, inv_order|by apply elem_of_reverse, (Hlisted lo b)|done|].
    unfold order_to. rewrite Eo. destruct (space_below_ok e self n Hi Hn' k pad mode (mb_vmax b + 1) o' lo b) as (r & -> & Hr); eauto.
    + intros q d Hd. destruct (Z_le_gt_dec (mb_vmin d) (mb_vmax b)); [left|lia]. eapply Hq; [|done|done].
      by apply elem_of_reverse, (Hlisted q d).
    + exists r. split; [done|]. by destruct r as [r|]; [destruct Hr|].
  - destruct Hok as [(? & _)|[Hk12 ->]]; [congruence|].
    destruct (order_from_ok (branches self) 0 (m_order self) hi c Hw (inv_order _ Hi) (Hlisted _ _ Hc) Hc) as (o' & -> & Ho & Hq).
    destruct (space_above_ok e self n Hi Hn' k mode (mb_vmin c) o' hi c) as (r & -> & Hr); [lia|done..| |].
    + intros q d Hd. destruct (Z_le_gt_dec (mb_vmin c) (mb_vmax d)); [left|lia]. eapply Hq; eauto.
    + exists r. split; [done|]. by destruct r as [r|]; [destruct Hr|].
Qed.

(** One attempt at a hint that does not overflow. *)
Lemma attempt_ok f hint pad mode : search_ok pad mode -> 0 <= hint -> hint mod 4096 = 0 -> hint + n <= 2 ^ 32 ->
  (exists r, findspace_again e self n (2 ^ k) (S f) hint pad mode = Ret r /\ free_at (branches self) r n /\ (free_at (branches self) hint n -> r = hint)) \/
  findspace_again e self n (2 ^ k) (S f) hint pad mode = retry f hint pad mode /\ ~ free_at (branches self) hint n /\
    (k <= 12 -> pad = 0 -> has mode MMAN_FINDSPACE_PRIVATE = false -> out_of_reach mode hint).
Proof.
  intros Hok Hh Hha Hhn. cbn [findspace_again]. rewrite uintptr_id by lia. rewrite (proj2 (Z.ltb_ge _ _)) by lia.
  destruct (findbranches_ok (fun l => l ∈ elements (m_map self) /\ hits l hint (hint + n - 1) = true) (m_map self)
    info0 _ _ hint (hint + n - 1) (semi_ok_root 32 eq_refl) (inv_tree _ Hi) Hmap) as (info & Eq & Hinfo); [done|by left|].
  unfold info0 in Eq at 1. rewrite Eq. cbn [obind]. destruct Hinfo as [[-> Hm]|(l1 & l2 & [H1 Hh1] & [H2 Hh2] & ->)].
  { left. exists hint. split; [done|]. split; [|done]. split_and!; [lia|lia|]. intros p b Hb. rewrite Forall_forall in Hm.
    specialize (Hm _ (inv_leaf_in _ _ _ Hi Hb)). unfold hits in Hm. simpl in Hm. bsimp.
    destruct Hm as [Hm|Hm]; bsimp; lia. }
  cbn [bi_min bi_max bi_min_min bi_max_max].
  destruct (inv_leaf _ _ Hi H1) as (b1 & Hb1 & E1 & Hw1), (inv_leaf _ _ Hi H2) as (b2 & Hb2 & E2 & Hw2).
  pose proof Hw1 as (W1 & _ & W1' & _). pose proof Hw2 as (_ & W2 & W2' & _).
  rewrite E1 in Hh1 |- *. rewrite E2 in Hh2 |- *. unfold hits in Hh1, Hh2. simpl in Hh1, Hh2 |- *. bsimp.
  rewrite (proj2 (Z.ltb_lt (mb_vmin b1) _)) by mlia. rewrite (proj2 (Z.ltb_lt hint _)) by mlia. cbn [oassert].
  destruct (gap_ok (a_obj l1) (a_obj l2) pad mode b1 b2 Hok Hb1 Hb2) as (r & -> & Hr). cbn [obind].
  assert (Hused : ~ free_at (branches self) hint n) by (intros Hf; pose proof (free_apart self n hint _ b1 Hf Hb1); lia).
  destruct r as [r|].
  - destruct (winner_ok n hint r mode) eqn:Hwin; [left; exists r; split_and!; done|right]. split_and!; [done..|].
    intros _ _ Hp. unfold winner_ok in Hwin. by rewrite Hp in Hwin.
  - right. split_and!; [done..|]. intros Hk12 Hp0 _ x Hf. specialize (Hr Hk12 Hp0 x).
    pose proof (free_apart self n x _ b1 Hf Hb1). pose proof (free_apart self n x _ b2 Hf Hb2).
    destruct (has mode MMAN_FINDSPACE_BELOW); apply Z.nle_gt; intros Hx; apply Hr; (done || lia).
Qed.

Lemma max_hint_ok hint mode : let h := max_hint n hint mode in
  0 <= h /\ h mod 4096 = 0 /\ h + n <= 2 ^ 32 /\ max_hint n h mode = h.
Proof.
  unfold max_hint, addr_isuser, VM_USER_BASE, VM_USER_MAX, VM_HOST_BASE, VM_HOST_MAX. change (2 ^ 30) with 1073741824 in Hn.
  destruct (has mode MMAN_FINDSPACE_PRIVATE), (has mode MMAN_FINDSPACE_BELOW).
  - rewrite (uintptr_id (_ + 1 - n)) by lia. rewrite (uintptr_id (_ + 1 - n)) by lia.
    destruct (Z.leb_spec hint 0xbfffffff); split_and!; try lia; try mlia.
    + rewrite (proj2 (Z.leb_le _ _)) by lia. done.
    + rewrite (proj2 (Z.leb_gt _ _)) by lia. done.
  - destruct (Z.leb_spec hint 0xbfffffff); simpl; split_and!; lia || done.
  - rewrite (uintptr_neg (0 - n)) by lia. split_and!; try lia. mlia.
  - split_and!; lia || done.
Qed.

(** What a search returns: a free range, or an error.  With the alignment of pages and without
    [MMAN_FINDSPACE_PRIVATE], an error means that there is none: in the direction of the search,
    if there is no padding, and nowhere with [MMAN_FINDSPACE_TRYHARD]. *)
Definition search_result (h pad mode r : Z) : Prop :=
  free_at (branches self) r n \/
  r = PAGE_ERROR /\ (k <= 12 -> has mode MMAN_FINDSPACE_PRIVATE = false ->
    (pad = 0 -> out_of_reach mode h) /\ (has mode MMAN_FINDSPACE_TRYHARD = true -> forall x, ~ free_at (branches self) x n)).

(** From where [MMAN_FINDSPACE_TRYHARD] starts over everything is in reach. *)
Lemma max_hint_reach h mode : has mode MMAN_FINDSPACE_PRIVATE = false -> max_hint n h mode = h -> out_of_reach mode h ->
  forall x, ~ free_at (branches self) x n.
Proof.
  intros Hp Hm Hout x Hf. specialize (Hout x Hf). unfold max_hint in Hm. rewrite Hp in Hm. destruct Hf as (? & ? & _).
  destruct (has mode MMAN_FINDSPACE_BELOW); [rewrite uintptr_neg in Hm by lia|]; lia.
Qed.

(** The last attempt, without padding. *)
Lemma last_attempt f h mode : search_ok 0 mode -> 0 <= h -> h mod 4096 = 0 -> h + n <= 2 ^ 32 -> max_hint n h mode = h ->
  exists r, findspace_again e self n (2 ^ k) (S f) h 0 mode = Ret r /\ search_result h 0 mode r.
Proof.
  intros Hok H0 H1 H2 H3. destruct (attempt_ok f h 0 mode Hok H0 H1 H2) as [(r & -> & ? & _)|(-> & _ & Hout)]; [exists r; by split; [|left]|].
  unfold retry. rewrite H3, Z.eqb_refl. cbn [negb]. change (negb (0 =? 0)) with false. exists PAGE_ERROR. split; [destruct (has mode MMAN_FINDSPACE_TRYHARD); reflexivity|].
  right. split; [done|]. intros Hk12 Hp. split; [auto|]. intros _. eapply max_hint_reach; eauto.
Qed.

(** The one before, from where nothing is out of reach. *)
Lemma padded_attempt f h pad mode : search_ok pad mode -> 0 <= h -> h mod 4096 = 0 -> h + n <= 2 ^ 32 -> max_hint n h mode = h ->
  exists r, findspace_again e self n (2 ^ k) (S (S f)) h pad mode = Ret r /\ search_result h pad mode r.
Proof.
  intros Hok H0 H1 H2 H3. destruct (Z.eq_dec pad 0) as [->|Hpad]; [by apply last_attempt|].
  destruct (attempt_ok (S f) h pad mode Hok H0 H1 H2) as [(r & -> & ? & _)|(-> & _)]; [exists r; by split; [|left]|].
  unfold retry. rewrite H3, Z.eqb_refl, (proj2 (Z.eqb_neq _ _) Hpad). cbn [negb].
  destruct (has mode MMAN_FINDSPACE_TRYHARD) eqn:Ht; [|exists PAGE_ERROR; split; [done|]; right; split; [done|]; intros; split; [lia|congruence]].
  destruct (last_attempt f h (Z.ldiff mode MMAN_FINDSPACE_FORCEGAP)) as (r & -> & Hr); [by eapply search_ok_nogap|done..| |].
  { unfold max_hint. rewrite !has_ldiff by done. exact H3. }
  exists r. split; [done|]. destruct Hr as [?|[-> Hr]]; [by left|right]. split; [done|]. rewrite !has_ldiff in Hr by done.
  intros Hk12 Hp. destruct (Hr Hk12 Hp) as [_ Hnone]. split; [lia|done].
Qed.

(** An attempt at any hint. *)
Lemma first_attempt f h pad mode : search_ok pad mode -> 0 <= h -> h mod 4096 = 0 -> h + n <= 2 ^ 32 ->
  exists r, findspace_again e self n (2 ^ k) (S (S (S f))) h pad mode = Ret r /\ search_result h pad mode r /\ (free_at (branches self) h n -> r = h).
Proof.
  intros Hok H0 H1 H2. destruct (attempt_ok (S (S f)) h pad mode Hok H0 H1 H2) as [(r & -> & ? & ?)|(Er & Hused & Hout)]; [exists r; split_and!; [done|by left|done]|].
  destruct (Z.eqb_spec h (max_hint n h mode)) as [Eh|Eh].
  { destruct (padded_attempt (S f) h pad mode Hok H0 H1 H2) as (r & -> & Hr); [done|]. exists r. split_and!; done. }
  rewrite Er. unfold retry. rewrite (proj2 (Z.eqb_neq _ _) Eh). cbn [negb]. destruct (has mode MMAN_FINDSPACE_TRYHARD) eqn:Ht.
  - destruct (max_hint_ok h mode) as (M0 & M1 & M2 & M3). destruct (padded_attempt f (max_hint n h mode) pad mode) as (r & -> & Hr); try done.
    exists r. split_and!; [done| |done]. destruct Hr as [?|[-> Hr]]; [by left|right]. split; [done|]. intros Hk12 Hp.
    destruct (Hr Hk12 Hp) as [_ Hnone]. split; [auto|done].
  - exists PAGE_ERROR. split_and!; [done| |done]. right. split; [done|]. intros Hk12 Hp. split; [auto|congruence].
Qed.

End Search.

Lemma again_overflow {E} `{BranchOps E} (e : E) self n al f hint pad mode : uintptr (hint + n - 1) < hint ->
  findspace_again e self n al (S f) hint pad mode = findspace_again e self n al f (uintptr (0 - n)) pad mode.
Proof. intros Hlt%Z.ltb_lt. cbn [findspace_again]. by rewrite Hlt. Qed.

(** The attempts: a hint that overflows, the hint, the hint [MMAN_FINDSPACE_TRYHARD] starts
    over with, and that one without padding. *)
Lemma again_ok {E} `{BranchOps E} (e : E) self n k hint pad mode : mman_inv self ->
  0 < n <= 2 ^ 30 /\ n mod 4096 = 0 -> 0 <= k -> nonnull (m_map self) = true -> search_ok self k pad mode ->
  0 <= hint < 2 ^ 32 -> hint mod 4096 = 0 ->
  exists r, findspace_again e self n (2 ^ k) 4 hint pad mode = Ret r /\ search_result self n k hint pad mode r /\
    (free_at (branches self) hint n -> r = hint).
Proof.
  intros Hi Hn Hk Hmap Hok Hh Hha. destruct (Z.le_gt_cases (hint + n) (2 ^ 32)) as [Hle|Hgt]; [apply first_attempt; (done || lia)|].
  rewrite again_overflow by (rewrite uintptr_wrap by lia; lia). rewrite uintptr_neg by lia.
  destruct (first_attempt e self n k Hi Hn Hk Hmap 0 (0 - n + 2 ^ 32) pad mode) as (r & -> & Hr & _); [done|lia|mlia|lia|].
  exists r. split; [done|]. split; [|intros (_ & ? & _); lia]. destruct Hr as [?|[-> Hr]]; [by left|right]. split; [done|].
  intros Hk12 Hp. destruct (Hr Hk12 Hp) as [H0 Hnone]. split; [|done]. intros Hp0 x Hf. specialize (H0 Hp0 x Hf). destruct Hf as (? & ? & _).
  destruct (has mode MMAN_FINDSPACE_BELOW); lia.
Qed.

Lemma pow2_aligned k : 0 <= k < 32 -> Z.land (2 ^ k) (uintptr (2 ^ k - 1)) = 0.
Proof.
  intros Hk. pose proof (Z.pow_pos_nonneg 2 k ltac:(lia) ltac:(lia)).
  pose proof (Z.pow_lt_mono_r 2 k 32 ltac:(lia) ltac:(lia) ltac:(lia)). rewrite uintptr_id by lia.
  replace (2 ^ k - 1) with (Z.ones k) by (rewrite Z.ones_equiv; lia). rewrite Z.land_ones by lia. apply Z.mod_same. lia.
Qed.
