(* ===== verification/MmanOps.v ===== *)
(** * Address spaces: inserting, splitting and merging branches *)
From stdpp Require Import base numbers list gmap.
From S2P Require Import Prelude Align ATree Mman MmanSpec MmanFind.

Lemma oassert_true {B} (k : outcome B) : oassert true k = k.
Proof. done. Qed.

(** ** Trees of branches *)

Lemma insert_leaf_ok (t : atree Z) nl : tree_ok 32 t -> fits 32 nl -> clear_of nl t ->
  exists t', insert 32 t nl = Ret t' /\ tree_ok 32 t' /\ elements t' ≡ₚ nl :: elements t.
Proof. intros Ht Hf Hc. apply insert_at_inserts; [by apply semi_ok_root|]. by apply fits_pre. Qed.

(** Popping the branch in the slot of a path. *)
Lemma pop_slot_ok (t : atree Z) p l mn mx : tree_ok 32 t -> slot_get t p = Node l mn mx ->
  exists t', pop_at 32 (slot_get t p) (slot_semi (ATREE_SEMI0 32) (ATREE_LEVEL0 32) p).1
               (slot_semi (ATREE_SEMI0 32) (ATREE_LEVEL0 32) p).2 = Ret (l, t') /\
    tree_ok 32 (slot_set t p t') /\ elements t ≡ₚ l :: elements (slot_set t p t').
Proof.
  intros Ht Hg. pose proof (slot_semi_ok 32 _ _ _ _ _ _ _ (semi_ok_root 32 eq_refl) Ht Hg) as Hss.
  destruct (slot_semi (ATREE_SEMI0 32) (ATREE_LEVEL0 32) p) as [sm lv] eqn:Es. destruct Hss as [Hss Hsw].
  rewrite Hg. cbn [fst snd]. destruct (pop_at_ok 32 _ _ _ _ _ Hss Hsw) as (t' & -> & Hw' & Hp).
  exists t'. split; [done|]. eapply slot_set_ok; eauto. simpl. by rewrite Hp.
Qed.

(** [plocate_at] at the root of the tree of an address space. *)
Lemma plocate_branch self key : mman_inv self -> 0 <= key < 2 ^ 32 ->
  (exists p l mn mx b, plocate_at 32 (m_map self) key (ATREE_SEMI0 32) (ATREE_LEVEL0 32) =
      Ret (Some (p, (slot_semi (ATREE_SEMI0 32) (ATREE_LEVEL0 32) p).1, (slot_semi (ATREE_SEMI0 32) (ATREE_LEVEL0 32) p).2)) /\
    slot_get (m_map self) p = Node l mn mx /\ branches self !! a_obj l = Some b /\ l = leaf_of (a_obj l) b /\
    branch_wf b /\ in_branch b key) \/
  plocate_at 32 (m_map self) key (ATREE_SEMI0 32) (ATREE_LEVEL0 32) = Ret None /\ forall m, ~ mapped self key m.
Proof.
  intros Hi Hk.
  destruct (plocate_at_ok 32 _ _ _ key (semi_ok_root 32 eq_refl) (inv_tree _ Hi) (key_root 32 key eq_refl Hk))
    as [(p & l & mn & mx & Hp & _ & Hg & Hc)|(Hp & _ & Hf)]; [left|right].
  - destruct (inv_leaf _ _ Hi (slot_get_elem _ _ _ _ _ Hg)) as (b & Hb & El & Hw).
    exists p, l, mn, mx, b. split_and!; [done..|]. rewrite El in Hc. by apply covers_spec in Hc.
  - split; [done|]. intros m (p & b & Hb & Hin & _). rewrite Forall_forall in Hf.
    specialize (Hf _ (inv_leaf_in _ _ _ Hi Hb)). apply covers_false in Hf. unfold in_branch in Hin. simpl in Hf. lia.
Qed.

(** A branch apart from those of a tree. *)
Lemma clear_of_leaves p b s t : elements t ≡ₚ leaves s ->
  (forall q c, s !! q = Some c -> below b c \/ below c b) -> clear_of (leaf_of p b) t.
Proof.
  intros He Hap. unfold clear_of. rewrite He. apply Forall_forall. intros l Hl.
  apply leaves_elem in Hl as (c & Hc & ->). specialize (Hap _ _ Hc). unfold below, disjoint_leaf in *. simpl. lia.
Qed.

(** ** Slots of a tree that has changed *)

Lemma slot_owner_snoc (t : atree Z) q d o mn mx : slot_get t q = Node o mn mx -> slot_owner t (q ++ [d]) = Some (a_obj o, d).
Proof.
  revert t. induction q as [|x q IH]; intros t Hg.
  { simpl in Hg. subst t. by destruct d. }
  destruct t as [|l a b]; [by destruct x|]. destruct x; simpl in *.
  - specialize (IH a Hg). destruct (q ++ [d]) eqn:Eq; [by destruct q|]. exact IH.
  - specialize (IH b Hg). destruct (q ++ [d]) eqn:Eq; [by destruct q|]. exact IH.
Qed.

Lemma slot_get_set_other (t : atree Z) phi q x o mn mx : ~ phi `prefix_of` q -> slot_get t q = Node o mn mx ->
  exists mn' mx', slot_get (slot_set t phi x) q = Node o mn' mx'.
Proof.
  revert t q. induction phi as [|d phi IH]; intros t q Hnp Hg; [exfalso; apply Hnp, prefix_nil|].
  destruct q as [|d' q]; simpl in Hg.
  { subst t. destruct d; simpl; eauto. }
  destruct t as [|l a b]; [by destruct d'|].
  destruct d, d'; simpl in *; eauto; (eapply IH; [|exact Hg]); intros Hp; by apply Hnp, prefix_cons.
Qed.

Lemma find_node_none o (t : atree Z) : o ∉ a_obj <$> elements t -> find_node o t = None.
Proof.
  induction t as [|l mn IHn mx IHx]; [done|]. simpl. rewrite fmap_app, not_elem_of_cons, not_elem_of_app. intros (Hne & Hn & Hx).
  rewrite (proj2 (Z.eqb_neq _ _)) by congruence. by rewrite IHn, IHx.
Qed.

Lemma find_node_unique (t : atree Z) q o mn mx : NoDup (a_obj <$> elements t) -> slot_get t q = Node o mn mx ->
  find_node (a_obj o) t = Some q.
Proof.
  revert q. induction t as [|l a IHa b IHb]; intros q Hnd Hg; [by destruct q as [|[] ?]|]. simpl in Hnd. rewrite fmap_app in Hnd.
  apply NoDup_cons in Hnd as [Hl Hnd]. apply NoDup_app in Hnd as (Hna & Hab & Hnb). rewrite not_elem_of_app in Hl.
  destruct q as [|[] q]; simpl in Hg |- *.
  - injection Hg as -> _ _. by rewrite Z.eqb_refl.
  - assert (Ho : a_obj o ∈ a_obj <$> elements a) by (apply list_elem_of_fmap; eauto using slot_get_elem).
    rewrite (proj2 (Z.eqb_neq _ _)) by (intros Heq; apply (proj1 Hl); by rewrite Heq). by rewrite (IHa q Hna Hg).
  - assert (Ho : a_obj o ∈ a_obj <$> elements b) by (apply list_elem_of_fmap; eauto using slot_get_elem).
    rewrite (proj2 (Z.eqb_neq _ _)) by (intros Heq; apply (proj2 Hl); by rewrite Heq).
    rewrite find_node_none by (intros Hin; by apply (Hab _ Hin)). by rewrite (IHb q Hnb Hg).
Qed.

(** A slot that is not inside the branch that has been replaced stays where it was. *)
Lemma slot_path_stable (t : atree Z) phi plo x l mn mx : ~ phi `prefix_of` plo -> slot_get t plo = Node l mn mx ->
  NoDup (a_obj <$> elements (slot_set t phi x)) ->
  slot_path (slot_set t phi x) (slot_owner t plo) = Some plo.
Proof.
  intros Hnp Hg Hnd. destruct plo as [|d q _] using rev_ind.
  { destruct t; [done|]. done. }
  assert (Ho : exists o a b, slot_get t q = Node o a b).
  { clear -Hg. revert t Hg. induction q as [|y q IH]; intros t Hg; destruct t as [|o a b]; try (by destruct d); try (by destruct y); eauto.
    destruct y; simpl in Hg |- *; eauto. }
  destruct Ho as (o & a & b & Ho). rewrite (slot_owner_snoc _ _ _ _ _ _ Ho). unfold slot_path.
  assert (Hnq : ~ phi `prefix_of` q) by (intros Hp; by apply Hnp, prefix_app_r).
  destruct (slot_get_set_other t phi q x o a b Hnq Ho) as (a' & b' & Ho').
  by rewrite (find_node_unique _ _ _ _ _ Hnd Ho').
Qed.

(** ** The map of a set of branches *)

Lemma mapped_insert s p b a m : s !! p = None ->
  mapped_in (<[p := b]> s) a m <-> in_branch b a /\ m = maps_at b a \/ mapped_in s a m.
Proof.
  intros Hp. split.
  - intros (q & c & Hc & Hin & ->). apply lookup_insert_Some in Hc as [[-> ->]|[? Hc]]; [by left|right].
    exists q, c. done.
  - intros [[? ->]|(q & c & Hc & Hin & ->)].
    + exists p, b. by rewrite lookup_insert_eq.
    + exists q, c. rewrite lookup_insert_ne by congruence. done.
Qed.

Lemma mapped_delete s p b a m : s !! p = Some b ->
  mapped_in s a m <-> in_branch b a /\ m = maps_at b a \/ mapped_in (delete p s) a m.
Proof. intros Hp. rewrite <- (mapped_insert (delete p s) p b a m) by apply lookup_delete_eq. by rewrite insert_delete_id. Qed.

Lemma maps_set_vmax v b a : maps_at (set_vmax v b) a = maps_at b a.
Proof. done. Qed.

Lemma maps_hi_of start b a : branch_wf b -> in_branch b start -> maps_at (hi_of start b) a = maps_at b a.
Proof.
  intros (_ & _ & ? & ? & ? & _ & ?) Hin. unfold in_branch in Hin. unfold maps_at, hi_of. cbn.
  rewrite uintptr_id by lia. f_equal. lia.
Qed.

Lemma hi_of_wf start b : branch_wf b -> mb_vmin b < start <= mb_vmax b -> start mod 4096 = 0 ->
  branch_wf (hi_of start b) /\ branch_wf (set_vmax (start - 1) b).
Proof.
  intros (? & ? & ? & ? & ? & ? & ?) Hs Ha. unfold branch_wf, hi_of, set_vmax. cbn. rewrite uintptr_id by lia.
  split; split_and!; try lia; mlia.
Qed.

(** ** The bytes that are mapped *)

Definition zsum (l : list Z) : Z := foldr Z.add 0 l.

Lemma zsum_perm l l' : l ≡ₚ l' -> zsum l = zsum l'.
Proof. induction 1; simpl; lia. Qed.

(** A sum over branches. *)
Definition tally (f : mbranch -> Z) (s : gmap Z mbranch) : Z := zsum ((fun pb => f pb.2) <$> map_to_list s).

Lemma tally_delete f s p b : s !! p = Some b -> tally f s = f b + tally f (delete p s).
Proof. intros Hp. unfold tally. by rewrite (zsum_perm _ _ (fmap_Permutation _ _ _ (symmetry (map_to_list_delete s p b Hp)))). Qed.

Lemma tally_insert f s p b : s !! p = None -> tally f (<[p := b]> s) = f b + tally f s.
Proof. intros Hp. rewrite (tally_delete _ _ p b) by apply lookup_insert_eq. by rewrite delete_insert_id. Qed.

Lemma tally_change f s p b b' : s !! p = Some b -> tally f (<[p := b']> s) = tally f s + (f b' - f b).
Proof. intros Hp. rewrite (tally_delete f s p b Hp), <- insert_delete_eq, tally_insert by apply lookup_delete_eq. lia. Qed.

Lemma tally_le f g s : (forall b, f b <= g b) -> tally f s <= tally g s.
Proof.
  intros Hfg. unfold tally. induction (map_to_list s) as [|x l IH]; [done|]. rewrite !fmap_cons. unfold zsum in *. cbn [foldr].
  specialize (Hfg x.2). lia.
Qed.

Lemma tally_nonneg f s : (forall b, 0 <= f b) -> 0 <= tally f s.
Proof.
  intros Hf. replace 0 with (tally (fun _ => 0) s); [by apply tally_le|].
  unfold tally. induction (map_to_list s) as [|x l IH]; [done|]. rewrite fmap_cons. unfold zsum in *. cbn [foldr]. lia.
Qed.

Definition total : gmap Z mbranch -> Z := tally (fun b => mb_vmax b - mb_vmin b + 1).

Lemma total_delete s p b : s !! p = Some b -> total s = mb_vmax b - mb_vmin b + 1 + total (delete p s).
Proof. apply tally_delete. Qed.

(** The list after a branch has been split in two. *)
Lemma ordered_split s lo o p q b bl bh : all_wf s -> ordered s lo o -> p ∈ o -> q ∉ o -> s !! p = Some b ->
  mb_vmin bl = mb_vmin b -> mb_vmax bl + 1 <= mb_vmin bh -> mb_vmax bh = mb_vmax b ->
  ordered (<[q := bh]> (<[p := bl]> s)) lo (insert_after p q o).
Proof.
  intros Hw. revert lo. induction o as [|x o IH]; intros lo Ho Hp Hq Hb El Em Eh; [by apply not_elem_of_nil in Hp|].
  pose proof (ordered_nodup _ _ _ Hw Ho) as Hnd. apply NoDup_cons in Hnd as [Hxo _].
  destruct Ho as (c & Hc & Hlo & Ho). apply not_elem_of_cons in Hq as [Hqx Hqo]. simpl.
  destruct (Z.eqb_spec x p) as [->|Hne].
  - assert (c = b) as -> by congruence. exists bl. rewrite lookup_insert_ne, lookup_insert_eq by done.
    split_and!; [done|lia|]. exists bh. rewrite lookup_insert_eq. split_and!; [done|lia|]. rewrite Eh.
    apply ordered_insert_frame; [done|]. by apply ordered_insert_frame.
  - apply elem_of_cons in Hp as [->|Hp]; [done|]. exists c. rewrite !lookup_insert_ne by congruence. split_and!; [done..|].
    by apply IH.
Qed.

(** The branches after a split: the same map. *)
Lemma mapped_split s p q b start a m : s !! p = Some b -> s !! q = None -> branch_wf b -> mb_vmin b < start <= mb_vmax b ->
  mapped_in (<[q := hi_of start b]> (<[p := set_vmax (start - 1) b]> s)) a m <-> mapped_in s a m.
Proof.
  intros Hp Hq Hw Hs. assert (Hne : p <> q) by congruence.
  rewrite mapped_insert by (by rewrite lookup_insert_ne). rewrite <- (insert_delete_eq s p), mapped_insert by apply lookup_delete_eq.
  rewrite (mapped_delete s p b) by done. rewrite maps_set_vmax, maps_hi_of by (unfold in_branch; lia || done).
  unfold in_branch. simpl. split; [intros [[? ?]|[[? ?]|?]]|intros [[? ?]|?]]; [left; split; [lia|done]..|by right| |by right; right].
  destruct (Z_lt_ge_dec a start); [right; left|left]; (split; [lia|done]).
Qed.

Lemma total_split s p q b start : s !! p = Some b -> s !! q = None ->
  total (<[q := hi_of start b]> (<[p := set_vmax (start - 1) b]> s)) = total s.
Proof.
  intros Hp Hq. assert (Hne : p <> q) by congruence.
  rewrite (total_delete _ q (hi_of start b)) by apply lookup_insert_eq. rewrite delete_insert_id by (by rewrite lookup_insert_ne).
  rewrite (total_delete _ p (set_vmax (start - 1) b)) by apply lookup_insert_eq. rewrite delete_insert_eq.
  rewrite (total_delete s p b Hp). simpl. lia.
Qed.

Section Ops.

Context {E : Type} `{BranchLaws E}.

(** An address space in its environment; [X] are branches that hold references and are not
    in the address space. *)
Record mm_ok (X : gmap Z mbranch) (self : mman) (e : E) : Prop := {
  mm_inv : mman_inv self;
  mm_env : env_ok e (branches self ∪ X);
  mm_disj : branches self ##ₘ X
}.

Lemma mm_none X self e p : mm_ok X self e -> (branches self ∪ X) !! p = None -> branches self !! p = None /\ X !! p = None.
Proof. intros _ Hp. by apply lookup_union_None in Hp. Qed.

(** Adding a branch where nothing is mapped. *)
Lemma insbranch_ok X self e p b : mman_inv self -> branches self ##ₘ X ->
  X !! p = Some b -> env_ok e (branches self ∪ X) -> branch_wf b ->
  (forall a m, in_branch b a -> ~ mapped self a m) ->
  exists self', mman_insbranch_unlocked self p b e = Ret self' /\ branches self' = <[p := b]> (branches self) /\
    mm_ok (delete p X) self' e.
Proof.
  intros Hi Hd HX He Hw Hfree. pose proof (inv_wf _ Hi) as Hwf. pose proof Hw as (Hw0 & Hw1 & Hw2 & Hw3 & Hw4 & _ & Hw5).
  assert (Hp : branches self !! p = None) by (by eapply map_disjoint_Some_l).
  assert (Hap : forall q c, branches self !! q = Some c -> below b c \/ below c b).
  { intros q c Hc. pose proof (Hwf _ _ Hc) as (_ & _ & Hc2 & _). unfold below.
    destruct (Z.lt_ge_cases (mb_vmax b) (mb_vmin c)); [by left|]. destruct (Z.lt_ge_cases (mb_vmax c) (mb_vmin b)); [by right|].
    exfalso. apply (Hfree (Z.max (mb_vmin b) (mb_vmin c)) (maps_at c (Z.max (mb_vmin b) (mb_vmin c)))); [unfold in_branch; lia|].
    exists q, c. unfold in_branch. split_and!; [done|lia|lia|done]. }
  unfold mman_insbranch_unlocked. unfold MBRANCH_END. rewrite (proj2 (aligned_page _) Hw0). rewrite oassert_true.
  replace (IS_ALIGNED (uintptr (mb_vmax b + 1)) PAGESIZE) with true
    by (symmetry; apply aligned_page; destruct (Z.eq_dec (mb_vmax b + 1) (2 ^ 32)) as [->|]; [done|by rewrite uintptr_id by lia]).
  rewrite oassert_true. rewrite (proj2 (Z.ltb_lt _ _)) by lia. rewrite oassert_true. rewrite branch_size by done.
  destruct (inuse_ok self (mb_vmin b) (mb_vmax b - mb_vmin b + 1) Hi) as (r & -> & Hr); [lia..|]. cbn [obind].
  destruct r. { exfalso. destruct (proj1 Hr eq_refl) as (a & m & Ha & Hm). apply (Hfree a m); [unfold in_branch; lia|done]. }
  change (negb false) with true. rewrite oassert_true. pose proof (env_fits e _ p b He (lookup_union_Some_r _ _ _ _ Hd HX)) as Hfit.
  assert (Hsz : mb_start b < mr_size e (mb_region b)) by (clear - Hfit Hw2; lia).
  rewrite (proj2 (Z.ltb_lt _ _) Hsz). rewrite oassert_true.
  destruct (insert_leaf_ok (m_map self) (leaf_of p b)) as (t' & Et & Ht' & Hel);
    [apply Hi|by apply leaf_of_fits|eapply clear_of_leaves; [apply Hi|done]|].
  unfold leaf_of in Et. rewrite Et. cbn [obind].
  assert (Hpo : p ∉ m_order self).
  { intros Hin. destruct (ordered_in _ _ _ _ Hwf (inv_order _ Hi) Hin) as (c & Hc & _). congruence. }
  destruct (order_insert_ok (branches self) 0 (m_order self) p b Hwf (inv_order _ Hi) Hpo) as (o' & -> & Ho' & Hperm); [lia|done|by eauto|].
  cbn [obind]. eexists. split; [done|]. split; [done|]. split; [split|..]; cbn [m_map m_order branches].
  - done.
  - rewrite Hel, leaves_insert by done. by rewrite (inv_leaves _ Hi).
  - done.
  - intros q Hq. rewrite Hperm. apply elem_of_cons. destruct (decide (q = p)) as [->|Hne]; [by left|right].
    rewrite lookup_insert_ne in Hq by done. by apply (inv_listed _ Hi).
  - by apply map_Forall_insert_2.
  - rewrite <- insert_union_l, (insert_union_r _ _ _ _ Hp), insert_delete_id; done.
  - apply map_disjoint_insert_l_2; [apply lookup_delete_eq|]. by apply map_disjoint_delete_r.
Qed.

Lemma INCREF_ok B b (e : E) : env_ok e B -> exists r e', MBRANCH_INCREF b e = (r, e') /\ env_ok e' B /\
  forall p, allocated e p -> allocated e' p.
Proof.
  intros He. unfold MBRANCH_INCREF. destruct (mb_notify b =? 0); [eauto|].
  pose proof (notify_ok e B (mb_notify b) MNOTIFY_INCREF (mb_closure b) 0 0 He) as Hn.
  pose proof (notify_allocated e (mb_notify b) MNOTIFY_INCREF (mb_closure b) 0 0) as Ha.
  destruct (notify (mb_notify b) MNOTIFY_INCREF (mb_closure b) 0 0 e) as [r e']. eauto.
Qed.

Lemma DECREF_ok B b (e : E) : env_ok e B -> env_ok (MBRANCH_DECREF b e) B.
Proof. intros He. unfold MBRANCH_DECREF. destruct (mb_notify b =? 0); [done|]. by apply notify_ok. Qed.

(** No branch goes across an address. *)
Definition no_straddle (s : gmap Z mbranch) (start : Z) : Prop :=
  forall p b, s !! p = Some b -> ~ mb_vmin b < start <= mb_vmax b.

(** The branches of [s'] are parts of those of [s]. *)
Definition finer (s' s : gmap Z mbranch) : Prop := forall p b, s' !! p = Some b ->
  exists q c, s !! q = Some c /\ mb_vmin c <= mb_vmin b /\ mb_vmax b <= mb_vmax c.

(** The state after the branch [b] at [lo] has been split. *)
Lemma split_state X self e lo hi b start m : mm_ok X self e ->
  branches self !! lo = Some b -> (branches self ∪ X) !! hi = None -> allocated e hi -> mb_vmin b < start <= mb_vmax b -> start mod 4096 = 0 ->
  tree_ok 32 m -> elements (m_map self) ≡ₚ leaf_of lo b :: elements m ->
  exists m1 m2, insert 32 m (Leaf (mb_vmin b) (start - 1) lo) = Ret m1 /\
    insert 32 m1 (Leaf start (mb_vmax b) hi) = Ret m2 /\
    let self' := MMan m2 (insert_after lo hi (m_order self))
                   (<[hi := hi_of start b]> (<[lo := set_vmax (start - 1) b]> (branches self))) in
    mm_ok X self' (MREGION_INCREF (mb_region b) e).
Proof.
  intros [Hi He Hd] Hb Hhi Hal Hs Ha Ht Hel. pose proof (inv_wf _ Hi) as Hwf. pose proof (Hwf _ _ Hb) as Hw.
  apply lookup_union_None in Hhi as [Hhi HX]. assert (HXlo : X !! lo = None) by (by eapply map_disjoint_Some_r).
  destruct (hi_of_wf start b Hw Hs Ha) as [Hwh Hwl]. pose proof (inv_apart _ Hi) as Hap.
  assert (Hdel : elements m ≡ₚ leaves (delete lo (branches self))).
  { apply (Permutation_cons_inv (a := leaf_of lo b)). rewrite <- Hel, (inv_leaves _ Hi). by apply leaves_delete. }
  set (bl := set_vmax (start - 1) b) in *. set (bh := hi_of start b) in *.
  assert (Hout : forall q c, delete lo (branches self) !! q = Some c -> below b c \/ below c b).
  { intros q c [Hne Hc]%lookup_delete_Some. by apply (Hap lo q). }
  destruct (insert_leaf_ok m (leaf_of lo bl)) as (m1 & E1 & Ht1 & Hel1); [done|by apply leaf_of_fits| |].
  { eapply clear_of_leaves; [exact Hdel|]. intros q c Hc. destruct (Hout q c Hc); [left|right]; unfold below in *; simpl; lia. }
  assert (Hel1' : elements m1 ≡ₚ leaves (<[lo := bl]> (branches self))).
  { rewrite Hel1, Hdel, <- (insert_delete_eq (branches self) lo bl), leaves_insert by apply lookup_delete_eq. done. }
  destruct (insert_leaf_ok m1 (leaf_of hi bh)) as (m2 & E2 & Ht2 & Hel2); [done|by apply leaf_of_fits| |].
  { eapply clear_of_leaves; [exact Hel1'|]. intros q c [[-> <-]|[Hne Hc]]%lookup_insert_Some; [right; unfold below; simpl; lia|].
    destruct (Hap lo q b c Hb Hc Hne); [left|right]; unfold below in *; simpl; lia. }
  exists m1, m2. split; [exact E1|]. split; [exact E2|]. cbv zeta.
  assert (Hlo : lo ∈ m_order self) by (apply (inv_listed _ Hi); eauto).
  assert (Hho : hi ∉ m_order self).
  { intros Hin. destruct (ordered_in _ _ _ _ Hwf (inv_order _ Hi) Hin) as (c & Hc & _). congruence. }
  split; [split|..]; cbn [m_map m_order branches].
  - done.
  - rewrite Hel2, Hel1'. symmetry. apply leaves_insert. by rewrite lookup_insert_ne by congruence.
  - eapply ordered_split; eauto; [by apply Hi|simpl; lia].
  - intros q Hq. rewrite insert_after_perm by done. apply elem_of_cons. destruct (decide (q = hi)) as [->|Hne]; [by left|right].
    rewrite lookup_insert_ne in Hq by done. destruct (decide (q = lo)) as [->|Hne']; [done|].
    rewrite lookup_insert_ne in Hq by done. by apply (inv_listed _ Hi).
  - by apply map_Forall_insert_2; [|apply map_Forall_insert_2].
  - rewrite <- !insert_union_l. apply split_region_ok; try done; [by apply lookup_union_Some_l|by apply lookup_union_None].
  - apply map_disjoint_insert_l_2; [done|]. by apply map_disjoint_insert_l_2.
Qed.

Lemma split_ok X self e start : mm_ok X self e -> 0 <= start < 2 ^ 32 -> start mod 4096 = 0 ->
  exists r self' e', mman_split_branch_unlocked self start e = Ret (r, self', e') /\ mm_ok X self' e' /\
    (forall a m, mapped self' a m <-> mapped self a m) /\ finer (branches self') (branches self) /\
    total (branches self') = total (branches self) /\
    (E_ISERR r = true /\ self' = self \/ r = 0 /\ no_straddle (branches self') start).
Proof.
  intros Hok Hs Ha. pose proof Hok as [Hi He Hd]. unfold mman_split_branch_unlocked.
  rewrite (proj2 (aligned_page _) Ha), oassert_true.
  assert (Hsame : finer (branches self) (branches self)) by (intros p b Hb; exists p, b; split_and!; [done|lia..]).
  destruct (plocate_branch self start Hi Hs) as [(p & l & mn & mx & b & -> & Hg & Hb & El & Hw & Hin)|[-> Hno]]; cbn [obind].
  2:{ exists (- EOK), self, e. split_and!; try done. right. split; [done|]. intros p b Hb Hst.
      apply (Hno (maps_at b start)). exists p, b. unfold in_branch. split_and!; [done|lia..|done]. }
  rewrite Hg. unfold branch_at. rewrite Hb. cbn [obind].
  destruct (Z.eqb_spec (mb_vmin b) start) as [Hvs|Hvs].
  { exists (- EOK), self, e. split_and!; try done. right. split; [done|]. intros q c Hc Hst.
    destruct (decide (q = a_obj l)) as [->|Hne]; [simplify_eq; lia|].
    unfold in_branch in Hin. destruct (inv_apart _ Hi _ _ _ _ Hc Hb Hne); unfold below in *; lia. }
  assert (Hst : mb_vmin b < start <= mb_vmax b) by (unfold in_branch in Hin; lia).
  destruct (kmalloc_branch e) as [hi e1] eqn:Em. destruct (kmalloc_ok _ _ _ _ He Em) as (He1 & _ & Hnew).
  destruct hi as [hi|]; [|exists (- ENOMEM), self, e1; split_and!; try done; by left].
  destruct (Hnew hi eq_refl) as [Hhi Hal].
  destruct (INCREF_ok _ b _ He1) as (r & e2 & -> & He2 & Hal2).
  destruct (E_ISERR r) eqn:Er.
  { exists r, self, (kffree_branch hi e2). split_and!; try done; [split; try done; by apply kffree_ok|by left]. }
  destruct (pop_slot_ok (m_map self) p l mn mx (inv_tree _ Hi) Hg) as (t & Hpop & Ht & Hel). rewrite Hg in Hpop. rewrite Hpop.
  cbn [obind]. rewrite El in Hel.
  destruct (split_state X self e2 (a_obj l) hi b start (slot_set (m_map self) p t)) as (m1 & m2 & E1 & E2 & Hok'); try done; [by apply Hal2|].
  cbn [mb_vmin mb_vmax set_vmax hi_of] in *. rewrite E1. cbn [obind]. rewrite E2. cbn [obind].
  eexists _, _, _. split; [done|]. split; [exact Hok'|]. apply lookup_union_None in Hhi as [Hhi _].
  cbn [branches]. split; [intros a m; by apply mapped_split|]. split; [|split; [by apply total_split|right; split; [done|]]].
  - intros q c [[<- <-]|[Hne [[<- <-]|[Hne' Hc]]%lookup_insert_Some]]%lookup_insert_Some.
    + exists (a_obj l), b. simpl. split_and!; [done|lia..].
    + exists (a_obj l), b. simpl. split_and!; [done|lia..].
    + exists q, c. split_and!; [done|lia..].
  - intros q c [[<- <-]|[Hne [[<- <-]|[Hne' Hc]]%lookup_insert_Some]]%lookup_insert_Some; simpl; [lia..|].
    destruct (inv_apart _ Hi _ _ _ _ Hc Hb ltac:(congruence)); unfold below in *; lia.
Qed.

End Ops.
