(* ===== verification/MmanUnmap.v ===== *)
(** * Address spaces: unmapping ranges *)
From stdpp Require Import base numbers list gmap.
From S2P Require Import Prelude Align ATree Mman MmanSpec MmanFind MmanOps.

Lemma branch_size_page b : branch_wf b -> (mb_vmax b - mb_vmin b + 1) mod 4096 = 0.
Proof. intros (? & ? & _). mlia. Qed.

Lemma total_page s : all_wf s -> total s mod 4096 = 0.
Proof.
  intros Hw. unfold total, tally. assert (Hl : Forall (fun pb => branch_wf pb.2) (map_to_list s)).
  { apply Forall_forall. intros [p b] Hin. apply elem_of_map_to_list in Hin. by apply (Hw p). }
  induction Hl as [|[p b] l Hb Hl IH]; [done|]. pose proof (branch_size_page b Hb) as Hs.
  rewrite fmap_cons. cbn [zsum foldr snd]. fold (zsum ((fun pb => mb_vmax pb.2 - mb_vmin pb.2 + 1) <$> l)).
  set (x := zsum _) in *. clearbody x. mlia.
Qed.

Lemma page_no_error x : x mod 4096 = 0 -> E_ISERR x = false /\ uintptr x mod 4096 = 0.
Proof. intros Hx. unfold E_ISERR, uintptr. change (2 ^ 32) with 4294967296. split; [apply Z.leb_gt|]; mlia. Qed.

Lemma uintptr_add_l x y : uintptr (uintptr x + y) = uintptr (x + y).
Proof. apply Zplus_mod_idemp_l. Qed.

Lemma uintptr_add_r x y : uintptr (x + uintptr y) = uintptr (x + y).
Proof. apply Zplus_mod_idemp_r. Qed.

(** ** The walk *)

(** A branch that [mman_munmap_impl] removes. *)
Definition doomed (lo hi mode tag : Z) (b : mbranch) : Prop :=
  lo <= mb_vmax b /\ mb_vmin b <= hi /\ (has mode MMAN_MUNMAP_TAG = true -> mb_closure b = tag).

#[export] Instance doomed_dec lo hi mode tag b : Decision (doomed lo hi mode tag b).
Proof. unfold doomed. apply _. Defined.

Lemma doomed_true lo hi mode tag p b :
  hits (leaf_of p b) lo hi && negb (has mode MMAN_MUNMAP_TAG && negb (mb_closure b =? tag)) = true <-> doomed lo hi mode tag b.
Proof.
  unfold hits, doomed, leaf_of. simpl. rewrite andb_true_iff, andb_true_iff, !Z.leb_le, negb_true_iff.
  destruct (has mode MMAN_MUNMAP_TAG); simpl; [rewrite negb_false_iff, Z.eqb_eq|]; intuition congruence.
Qed.

(** A tree whose half has lost branches. *)
Lemma wf_halves semi level l (mn mx mn' mx' : atree Z) : semi_ok 32 semi level -> wf semi level (Node l mn mx) ->
  (mn' = mn \/ nonnull mn = true /\ wf (semi - 2 ^ (level - 1)) (level - 1) mn' /\ elements mn' ⊆ elements mn) ->
  (mx' = mx \/ nonnull mx = true /\ wf (semi + 2 ^ (level - 1)) (level - 1) mx' /\ elements mx' ⊆ elements mx) ->
  wf semi level (Node l mn' mx').
Proof.
  intros Hs (Hok & Hm & Hcn & Hcx & H0 & Hn & Hx) Hmn Hmx.
  assert (Hsub : forall t t' : atree Z, elements t' ⊆ elements t -> clear_of l t -> clear_of l t').
  { intros t t' Ht Hc. unfold clear_of in *. rewrite Forall_forall in Hc |- *. auto. }
  assert (Hnz : nonnull mn = true \/ nonnull mx = true -> level <> 0).
  { intros Hnn ->. destruct H0 as [-> ->]; [done|]. by destruct Hnn. }
  destruct Hmn as [->|(Nn & Wn & Sn)], Hmx as [->|(Nx & Wx & Sx)]; (split; [exact Hok|]; split; [exact Hm|]; split_and!);
    eauto; intros Hl; exfalso; apply Hnz; auto.
Qed.

Section Unmap.

Context {E : Type} `{BranchLaws E}.
Variables (X : gmap Z mbranch) (lo hi mode tag : Z).
Hypothesis Hlo : lo mod 4096 = 0.
Hypothesis Hhi : uintptr (hi + 1) mod 4096 = 0.
Hypothesis Hle : lo <= hi.

Abbreviation dead := (doomed lo hi mode tag).

Lemma unmap_one_ok B (e : E) p b : env_ok e B -> B !! p = Some b -> branch_wf b ->
  exists r e', unmap_one b mode e = Ret (r, e') /\ env_ok e' (if E_ISERR r then B else delete p B).
Proof.
  intros He Hb Hw. unfold unmap_one. destruct (unmap_ok e B b p He Hb Hw) as (r & e1 & -> & He1). cbn [obind].
  destruct (E_ISERR r) eqn:Er; [exists r, e1; by rewrite Er|]. rewrite branch_size by done.
  destruct (decref_ok e1 B b p (has mode MMAN_MUNMAP_CLEAR) He1 Hb Hw) as (r2 & e2 & -> & He2). cbn [obind].
  destruct (E_ISERR r2) eqn:Er2; [exists r2, e2; by rewrite Er2|]. eexists r2, _. split; [done|]. rewrite Er2.
  apply DECREF_ok. destruct (mb_notify b =? 0); [done|]. by apply notify_ok.
Qed.

(** The branches [s] with the list [order]; the leaves [t] are in the slot, [R] elsewhere. *)
Record part_ok (t : list (leaf Z)) (R : list (leaf Z)) (order : list Z) (s : gmap Z mbranch) (e : E) : Prop := {
  part_leaves : t ++ R ≡ₚ leaves s;
  part_order : ordered s 0 order;
  part_listed : forall p, is_Some (s !! p) -> p ∈ order;
  part_wf : all_wf s;
  part_env : env_ok e (s ∪ X);
  part_disj : s ##ₘ X
}.

Lemma part_leaf t R order s e l : part_ok t R order s e -> l ∈ t ->
  exists b, s !! a_obj l = Some b /\ l = leaf_of (a_obj l) b /\ branch_wf b.
Proof.
  intros Hp Hl. assert (Hl' : l ∈ leaves s) by (rewrite <- (part_leaves _ _ _ _ _ Hp); apply elem_of_app; by left).
  apply leaves_elem in Hl' as (b & Hb & ->). exists b. split_and!; [done..|]. by apply (part_wf _ _ _ _ _ Hp (a_obj l)).
Qed.

(** What one call does: it removes branches of the slot that are doomed, and, without an error,
    all of them. *)
Definition cleared (t t' R : list (leaf Z)) (order' : list Z) (s s' : gmap Z mbranch) (e' : E) (result r : Z) : Prop :=
  part_ok t' R order' s' e' /\ s' ⊆ s /\ t' ⊆ t /\
  (forall p b, s !! p = Some b -> s' !! p = None -> leaf_of p b ∈ t /\ dead b) /\
  (E_ISERR r = true \/
   r = uintptr (result + (total s - total s')) /\ forall p b, leaf_of p b ∈ t' -> s' !! p = Some b -> ~ dead b).

(** Removing one branch. *)
Lemma part_pop l t R order s e e' b : part_ok (l :: t) R order s e -> s !! a_obj l = Some b -> l = leaf_of (a_obj l) b ->
  env_ok e' (delete (a_obj l) (s ∪ X)) ->
  part_ok t R (list_remove (a_obj l) order) (delete (a_obj l) s) (kffree_branch (a_obj l) e').
Proof.
  intros [Hl Ho Hli Hw He Hd] Hb El He'. set (p := a_obj l) in *.
  assert (HX : X !! p = None) by (by eapply map_disjoint_Some_r).
  assert (Hp : p ∈ order) by (apply Hli; eauto).
  assert (Hnd : NoDup order) by (by eapply ordered_nodup).
  rewrite (list_remove_perm p order Hp) in Hnd. apply NoDup_cons in Hnd as [Hpr _].
  rewrite delete_union, (delete_id X) in He' by done. split.
  - apply (Permutation_cons_inv (a := l)). simpl in Hl. rewrite Hl, El. by apply leaves_delete.
  - eapply ordered_frame; [|by apply ordered_remove]. intros q c Hq Hc. exists c.
    rewrite lookup_delete_ne by (intros <-; done). done.
  - intros q [c [Hne Hc]%lookup_delete_Some]. assert (Hq : q ∈ order) by (apply Hli; eauto).
    rewrite (list_remove_perm p order Hp) in Hq. apply elem_of_cons in Hq as [->|Hq]; done.
  - by apply map_Forall_delete.
  - apply kffree_ok; [done|]. apply lookup_union_None. split; [apply lookup_delete_eq|done].
  - by apply map_disjoint_delete_l.
Qed.

Lemma part_perm t R t2 R2 order s e : t ++ R ≡ₚ t2 ++ R2 -> part_ok t R order s e -> part_ok t2 R2 order s e.
Proof. intros Hp [Hl ? ? ? ? ?]. split; try done. by rewrite <- Hp. Qed.

(** Nothing to remove. *)
Lemma cleared_refl t R order s e result : part_ok t R order s e -> 0 <= result < 2 ^ 32 ->
  (forall p b, leaf_of p b ∈ t -> s !! p = Some b -> ~ dead b) -> cleared t t R order s s e result result.
Proof.
  intros Hp Hr Hd. split_and!; [done..| |right]; [congruence|]. split; [|done].
  rewrite Z.sub_diag, Z.add_0_r, uintptr_id; done.
Qed.

Lemma cleared_error t R order s e result r : part_ok t R order s e -> E_ISERR r = true -> cleared t t R order s s e result r.
Proof. intros Hp Hr. split_and!; [done..| |by left]. congruence. Qed.

(** One branch removed, then more of them. *)
Lemma cleared_pop l t t1 t' R order s s' e' result r b : s !! a_obj l = Some b -> l = leaf_of (a_obj l) b -> dead b ->
  t1 ≡ₚ t -> cleared t1 t' R order (delete (a_obj l) s) s' e' (uintptr (result + (mb_vmax b - mb_vmin b + 1))) r ->
  cleared (l :: t) t' R order s s' e' result r.
Proof.
  intros Hb El Hdb Ht (Hp & Hsub & Ht' & Hrm & Hres). split; [done|]. split; [|split; [|split]].
  - etrans; [exact Hsub|]. apply delete_subseteq.
  - intros x Hx. apply elem_of_cons. right. apply Ht' in Hx. by rewrite <- Ht.
  - intros p c Hc Hnone. destruct (decide (p = a_obj l)) as [->|Hne].
    + simplify_eq. split; [rewrite El at 2; by left|done].
    + destruct (Hrm p c) as [Hin ?]; [by rewrite lookup_delete_ne|done|]. split; [|done]. right. by rewrite <- Ht.
  - destruct Hres as [?|[-> Hd]]; [by left|right]. split; [|done]. rewrite uintptr_add_l. f_equal.
    rewrite (total_delete s _ _ Hb). lia.
Qed.

(** The larger half, then the smaller half. *)
Lemma cleared_both l mn mx mn' mx' R o1 o2 s s1 s2 e1 e2 result temp r b :
  s !! a_obj l = Some b -> l = leaf_of (a_obj l) b -> ~ dead b ->
  cleared mx mx' (l :: mn ++ R) o1 s s1 e1 0 temp -> E_ISERR temp = false ->
  cleared mn mn' (l :: mx' ++ R) o2 s1 s2 e2 (uintptr (result + temp)) r ->
  cleared (l :: mn ++ mx) (l :: mn' ++ mx') R o2 s s2 e2 result r.
Proof.
  intros Hb El Hnd (Hp1 & Hs1 & Ht1 & Hr1 & Hres1) Herr (Hp2 & Hs2 & Ht2 & Hr2 & Hres2). split; [|split; [|split; [|split]]].
  - eapply part_perm; [|exact Hp2]. simpl. rewrite <- Permutation_middle, app_assoc. done.
  - by trans s1.
  - intros x. rewrite !elem_of_cons, !elem_of_app. intros [?|[?%Ht2|?%Ht1]]; auto.
  - intros p c Hc Hnone. rewrite elem_of_cons, elem_of_app. destruct (s1 !! p) as [c'|] eqn:Hc1.
    + assert (c' = c) as -> by (eapply lookup_weaken in Hs1; eauto; congruence).
      destruct (Hr2 p c Hc1 Hnone). auto.
    + destruct (Hr1 p c Hc Hc1). auto.
  - destruct Hres2 as [?|[-> Hd2]]; [by left|right]. destruct Hres1 as [?|[-> Hd1]]; [congruence|]. split.
    + rewrite uintptr_add_r, uintptr_add_l. f_equal. lia.
    + intros p c Hin Hc. rewrite elem_of_cons, elem_of_app in Hin. destruct Hin as [Hin|[Hin|Hin]]; [|by eapply Hd2|].
      * assert (p = a_obj l) as -> by (by rewrite <- Hin).
        assert (Hcs : s !! a_obj l = Some c) by (by apply (lookup_weaken s2), (transitivity Hs2 Hs1)). congruence.
      * apply (Hd1 p c Hin). by apply (lookup_weaken s2).
Qed.

(** Only the larger half. *)
Lemma cleared_max l mn mx mx' R o1 s s1 e1 result r b :
  s !! a_obj l = Some b -> l = leaf_of (a_obj l) b -> ~ dead b ->
  cleared mx mx' (l :: mn ++ R) o1 s s1 e1 result r ->
  (forall p c, leaf_of p c ∈ mn -> s !! p = Some c -> ~ dead c) ->
  cleared (l :: mn ++ mx) (l :: mn ++ mx') R o1 s s1 e1 result r.
Proof.
  intros Hb El Hnd (Hp1 & Hs1 & Ht1 & Hr1 & Hres1) Hmn. split; [|split; [|split; [|split]]].
  - eapply part_perm; [|exact Hp1]. simpl. rewrite <- Permutation_middle, !app_assoc, (Permutation_app_comm mx'). done.
  - done.
  - intros x. rewrite !elem_of_cons, !elem_of_app. intros [?|[?|?%Ht1]]; auto.
  - intros p c Hc Hnone. rewrite elem_of_cons, elem_of_app. destruct (Hr1 p c Hc Hnone). auto.
  - destruct Hres1 as [?|[-> Hd1]]; [by left|right]. split; [done|]. intros p c Hin Hc. rewrite elem_of_cons, elem_of_app in Hin.
    assert (Hcs : s !! p = Some c) by (by apply (lookup_weaken s1)).
    destruct Hin as [Hin|[Hin|Hin]]; [|by eapply Hmn|by eapply Hd1].
    assert (p = a_obj l) as -> by (by rewrite <- Hin). congruence.
Qed.

Lemma misses_alive (s : gmap Z mbranch) t p c : misses lo hi t -> leaf_of p c ∈ t -> s !! p = Some c -> ~ dead c.
Proof.
  intros Hm Hin _ (? & ? & _). rewrite Forall_forall in Hm. specialize (Hm _ Hin). unfold hits in Hm. simpl in Hm. bsimp.
  destruct Hm; bsimp; lia.
Qed.

(** An error in the larger half. *)
Lemma cleared_fail l mn mx mx' R o1 s s1 e1 result temp : E_ISERR temp = true ->
  cleared mx mx' (l :: mn ++ R) o1 s s1 e1 0 temp -> cleared (l :: mn ++ mx) (l :: mn ++ mx') R o1 s s1 e1 result temp.
Proof.
  intros Ht (Hp1 & Hs1 & Ht1 & Hr1 & _). split; [|split; [|split; [|split]]].
  - eapply part_perm; [|exact Hp1]. simpl. rewrite <- Permutation_middle, !app_assoc, (Permutation_app_comm mx'). done.
  - done.
  - intros x. rewrite !elem_of_cons, !elem_of_app. intros [?|[?|?%Ht1]]; auto.
  - intros p c Hc Hnone. rewrite elem_of_cons, elem_of_app. destruct (Hr1 p c Hc Hnone). auto.
  - by left.
Qed.

(** The bytes of the larger half are whole pages. *)
Lemma temp_page t t' R order s s' e e' result temp o : part_ok t R o s e -> cleared t t' R order s s' e' 0 temp ->
  E_ISERR temp = false -> result mod 4096 = 0 -> uintptr (result + temp) mod 4096 = 0.
Proof.
  intros Hp (Hp' & _ & _ & _ & [?|[-> _]]) He Hr; [congruence|]. rewrite uintptr_add_r.
  apply page_no_error. pose proof (total_page s (part_wf _ _ _ _ _ Hp)). pose proof (total_page s' (part_wf _ _ _ _ _ Hp')). mlia.
Qed.

(** What the induction on [fuel] shows. *)
Definition clears (fuel : nat) : Prop := forall t R order s e result semi level,
  semi_ok 32 semi level -> wf semi level t -> (length (elements t) < fuel)%nat ->
  part_ok (elements t) R order s e -> 0 <= result < 2 ^ 32 -> result mod 4096 = 0 ->
  exists r t' order' s' e', mman_munmap_impl fuel t order s lo hi semi level mode tag result e = Ret (r, t', order', s', e') /\
    wf semi level t' /\ cleared (elements t) (elements t') R order' s s' e' result r.

Section Step.

Context (fuel : nat) (IH : clears fuel) (l : leaf Z) (mn mx : atree Z) (R : list (leaf Z)) (order : list Z).
Context (s : gmap Z mbranch) (e : E) (result semi level : Z) (b : mbranch).
Hypothesis Hs : semi_ok 32 semi level.
Hypothesis Hwf : wf semi level (Node l mn mx).
Hypothesis Hf : (length (elements mn) + length (elements mx) < fuel)%nat.
Hypothesis Hp : part_ok (l :: elements mn ++ elements mx) R order s e.
Hypothesis Hr : 0 <= result < 2 ^ 32.
Hypothesis Hra : result mod 4096 = 0.
Hypothesis Hb : s !! a_obj l = Some b.
Hypothesis El : l = leaf_of (a_obj l) b.
Hypothesis Hw : branch_wf b.

(** The conditional of [mman_munmap_impl], with the assertions that hold. *)
Lemma munmap_cond :
  (hits l lo hi && negb (has mode MMAN_MUNMAP_TAG && negb (mb_closure b =? tag)) = true <-> dead b) /\
  IS_ALIGNED lo PAGESIZE = true /\ IS_ALIGNED (uintptr (hi + 1)) PAGESIZE = true /\ (lo <=? hi) = true.
Proof. split; [rewrite El; apply doomed_true|]. split_and!; [by apply aligned_page..|by apply Z.leb_le]. Qed.

Lemma munmap_pop_ok : dead b -> exists r t' order' s' e', mman_munmap_impl (S fuel) (Node l mn mx) order s lo hi semi level mode tag result e = Ret (r, t', order', s', e') /\
    wf semi level t' /\ cleared (l :: elements mn ++ elements mx) (elements t') R order' s s' e' result r.
Proof.
  intros Hdb. destruct munmap_cond as (Hdead & A1 & A2 & A3). cbn [mman_munmap_impl]. unfold branch_at. rewrite Hb. cbn [obind].
  rewrite A1, A2, A3, !oassert_true, (proj2 Hdead Hdb). clear Hdead A1 A2 A3.
  destruct (unmap_one_ok (s ∪ X) e (a_obj l) b (part_env _ _ _ _ _ Hp)) as (r & e1 & -> & He1);
    [by apply lookup_union_Some_l|done|]. cbn [obind].
  destruct (E_ISERR r) eqn:Er.
  { eexists _, _, _, _, _. split; [done|]. split; [done|]. apply cleared_error; [|done]. destruct Hp. by split. }
  destruct (pop_at_ok 32 semi level l mn mx Hs Hwf) as (t1 & -> & Hw1 & Hel1). cbn [obind].
  pose proof (part_pop _ _ _ _ _ _ _ _ Hp Hb El He1) as Hp1. rewrite branch_size by done.
  pose proof (page_no_error (result + (mb_vmax b - mb_vmin b + 1))) as [_ Hpg].
  { pose proof (branch_size_page b Hw). mlia. }
  destruct (IH t1 R (list_remove (a_obj l) order) (delete (a_obj l) s) (kffree_branch (a_obj l) e1)
    (uintptr (result + (mb_vmax b - mb_vmin b + 1))) semi level)
    as (r' & t' & o' & s' & e' & -> & Hwt & Hcl); [done..| | |apply uintptr_range|done|].
  { rewrite Hel1, length_app. lia. }
  { eapply part_perm; [|exact Hp1]. by rewrite Hel1. }
  eexists _, _, _, _, _. split; [done|]. split; [done|]. eapply cleared_pop; eauto.
Qed.

Lemma munmap_walk_ok : ~ dead b -> exists r t' order' s' e', mman_munmap_impl (S fuel) (Node l mn mx) order s lo hi semi level mode tag result e = Ret (r, t', order', s', e') /\
    wf semi level t' /\ cleared (l :: elements mn ++ elements mx) (elements t') R order' s s' e' result r.
Proof.
  intros Hdb. destruct munmap_cond as (Hdead & A1 & A2 & A3). cbn [mman_munmap_impl]. unfold branch_at. rewrite Hb. cbn [obind].
  rewrite A1, A2, A3, !oassert_true. rewrite (not_true_is_false _ (fun h => Hdb (proj1 Hdead h))). clear Hdead A1 A2 A3.
  pose proof (fun t Hm p c => misses_alive s t p c Hm) as Hmiss.
  assert (Hpx : part_ok (elements mx) (l :: elements mn ++ R) order s e).
  { eapply part_perm; [|exact Hp]. simpl. rewrite <- Permutation_middle, !app_assoc, (Permutation_app_comm (elements mn)). done. }
  assert (Hpn : part_ok (elements mn) (l :: elements mx ++ R) order s e).
  { eapply part_perm; [|exact Hp]. simpl. rewrite <- Permutation_middle, !app_assoc. done. }
  walk_halves Hs Hwf.
  + destruct (IH mx (l :: elements mn ++ R) order s e 0 _ _ H3 H4) as (temp & mx' & o1 & s1 & e1 & -> & Wx & Cx); [lia|done..|].
    cbn [obind]. destruct (E_ISERR temp) eqn:Et.
    { eexists _, _, _, _, _. split; [done|]. split; [eapply wf_halves; eauto; right; split_and!; [done..|apply Cx]|].
      eapply cleared_fail; eauto. }
    destruct (IH mn (l :: elements mx' ++ R) o1 s1 e1 (uintptr (result + temp)) _ _ H1 H2)
      as (r & mn' & o2 & s2 & e2 & -> & Wn & Cn); [lia| |apply uintptr_range|exact (temp_page _ _ _ _ _ _ _ _ _ _ _ Hpx Cx Et Hra)|].
    { eapply part_perm; [|apply Cx]. rewrite <- !Permutation_middle, !app_assoc, (Permutation_app_comm (elements mx')). done. }
    cbn [obind]. eexists _, _, _, _, _. split; [done|]. split; [|by eapply cleared_both].
    eapply wf_halves; eauto; right; split_and!; try done; [apply Cn|apply Cx].
  + cbn [obind]. change (E_ISERR 0) with false. cbv iota. rewrite Z.add_0_r, uintptr_id by done.
    destruct (IH mn (l :: elements mx ++ R) order s e result _ _ H1 H2) as (r & mn' & o2 & s2 & e2 & -> & Wn & Cn); [lia|done..|].
    cbn [obind]. eexists _, _, _, _, _. split; [done|].
    split; [eapply wf_halves; eauto; right; split_and!; [done..|apply Cn]|].
    eapply (cleared_both _ _ _ _ _ _ order o2 s s s2 e e2 result 0); eauto;
      [apply cleared_refl; eauto; lia|by rewrite Z.add_0_r, uintptr_id].
  + destruct (IH mx (l :: elements mn ++ R) order s e result _ _ H1 H2) as (r & mx' & o1 & s1 & e1 & -> & Wx & Cx); [lia|done..|].
    cbn [obind]. eexists _, _, _, _, _. split; [done|].
    split; [eapply wf_halves; eauto; right; split_and!; [done..|apply Cx]|]. eapply cleared_max; eauto.
  + eexists _, _, _, _, _. split; [done|]. split; [done|]. apply cleared_refl; [done..|].
    intros p c Hin Hc. simpl in Hin. rewrite elem_of_cons, elem_of_app in Hin. destruct Hin as [Hin|[Hin|Hin]]; eauto.
    assert (p = a_obj l) as -> by (by rewrite <- Hin). congruence.
Qed.

End Step.

Lemma munmap_impl_ok fuel : clears fuel.
Proof.
  induction fuel as [|fuel IH]; intros t R order s e result semi level Hs Hwf Hf Hp Hr Hra; [lia|].
  destruct t as [|l mn mx].
  { eexists _, _, _, _, _. split; [done|]. split; [done|]. apply cleared_refl; [done..|]. intros ? ? ?%not_elem_of_nil. done. }
  destruct (part_leaf _ _ _ _ _ l Hp) as (b & Hb & El & Hw); [by left|]. simpl in Hf, Hp |- *. rewrite length_app in Hf.
  destruct (decide (dead b)) as [Hd|Hd]; [eapply munmap_pop_ok|eapply munmap_walk_ok]; eauto; lia.
Qed.

End Unmap.

(** ** Whole ranges *)

Section Ranges.

Context {E : Type} `{BranchLaws E}.

Lemma finer_straddle s' s x : finer s' s -> no_straddle s x -> no_straddle s' x.
Proof. intros Hf Hn p b Hb Hst. destruct (Hf p b Hb) as (q & c & Hc & ? & ?). apply (Hn q c Hc). lia. Qed.

Lemma finer_trans s1 s2 s3 : finer s1 s2 -> finer s2 s3 -> finer s1 s3.
Proof.
  intros H12 H23 p b Hb. destruct (H12 p b Hb) as (q & c & Hc & ? & ?). destruct (H23 q c Hc) as (x & d & Hd & ? & ?).
  exists x, d. split_and!; [done|lia..].
Qed.

(** A page-aligned range of whole pages. *)
Definition page_range (addr n : Z) : Prop := 0 <= addr /\ addr mod 4096 = 0 /\ 0 < n /\ n mod 4096 = 0 /\ addr + n <= 2 ^ 32.

Lemma split_ends_ok X self e addr n : mm_ok X self e -> page_range addr n ->
  exists r self' e', split_ends self addr n e = Ret (r, self', e') /\ mm_ok X self' e' /\
    (forall a m, mapped self' a m <-> mapped self a m) /\ total (branches self') = total (branches self) /\
    (E_ISERR r = true \/ r = 0 /\ no_straddle (branches self') addr /\ no_straddle (branches self') (addr + n)).
Proof.
  intros Hok (Ha & Haa & Hn & Hna & Hend). unfold split_ends.
  destruct (split_ok X self e addr Hok) as (r1 & self1 & e1 & -> & Hok1 & Hm1 & Hf1 & Ht1 & Hr1); [lia|done|]. cbn [obind].
  destruct (E_ISERR r1) eqn:Er1; [exists r1, self1, e1; split_and!; try done; by left|].
  destruct Hr1 as [[? _]|[_ Hn1]]; [congruence|].
  destruct (split_ok X self1 e1 (uintptr (addr + n)) Hok1) as (r2 & self2 & e2 & -> & Hok2 & Hm2 & Hf2 & Ht2 & Hr2).
  { apply uintptr_range. }
  { apply page_no_error. mlia. }
  exists r2, self2, e2. split_and!; [done..|intros a m; by rewrite Hm2|congruence|].
  destruct Hr2 as [[? _]|[-> Hn2]]; [by left|right]. split; [done|]. split; [by eapply finer_straddle|].
  destruct (Z.eq_dec (addr + n) (2 ^ 32)) as [->|]; [|by rewrite uintptr_id in Hn2 by lia].
  intros p b Hb Hst. pose proof (inv_wf _ (mm_inv _ _ _ Hok2) _ _ Hb) as (_ & _ & _ & ? & _). lia.
Qed.

(** The mappings that [mman_munmap_unlocked] takes away. *)
Definition unmaps (addr n mode tag a : Z) (m : mapping) : Prop :=
  addr <= a < addr + n /\ (has mode MMAN_MUNMAP_TAG = true -> mg_closure m = tag).

(** Branches that do not go across the ends are in the range or not. *)
Lemma doomed_inside s addr n mode tag p b a : no_straddle s addr -> no_straddle s (addr + n) ->
  s !! p = Some b -> in_branch b a -> 0 < n -> doomed addr (addr + n - 1) mode tag b <-> unmaps addr n mode tag a (maps_at b a).
Proof.
  intros H1 H2 Hb Hin Hn. specialize (H1 p b Hb). specialize (H2 p b Hb). unfold doomed, unmaps, in_branch in *. simpl.
  split; [intros (? & ? & ?)|intros (? & ?)]; split_and!; try done; lia.
Qed.

Lemma munmap_range_ok X self e addr n mode tag : mm_ok X self e -> page_range addr n ->
  no_straddle (branches self) addr -> no_straddle (branches self) (addr + n) ->
  exists r m' o' s' e', mman_munmap_impl (S (length (elements (m_map self)))) (m_map self) (m_order self) (branches self)
      addr (addr + n - 1) (ATREE_SEMI0 32) (ATREE_LEVEL0 32) mode tag 0 e = Ret (r, m', o', s', e') /\
    mm_ok X (MMan m' o' s') e' /\ s' ⊆ branches self /\
    (forall a m, mapped self a m -> mapped_in s' a m \/ unmaps addr n mode tag a m) /\
    (E_ISERR r = true \/ r = uintptr (total (branches self) - total s') /\
      forall a m, mapped_in s' a m -> ~ unmaps addr n mode tag a m).
Proof.
  intros [Hi He Hd] (Ha & Haa & Hn & Hna & Hend) Hs1 Hs2.
  assert (Hhi : uintptr (addr + n - 1 + 1) mod 4096 = 0) by (apply page_no_error; mlia).
  destruct (munmap_impl_ok X addr (addr + n - 1) mode tag Haa Hhi ltac:(lia) (S (length (elements (m_map self))))
    (m_map self) [] (m_order self) (branches self) e 0 _ _ (semi_ok_root 32 eq_refl) (inv_tree _ Hi))
    as (r & m' & o' & s' & e' & -> & Hw & Hp & Hsub & _ & Hrm & Hr); [lia| |lia|done|].
  { destruct Hi. split; rewrite ?app_nil_r; done. }
  exists r, m', o', s', e'. destruct Hp as [Pl Po Pi Pw Pe Pd]. rewrite app_nil_r in Pl.
  split; [done|]. split; [by split|]. split; [done|]. split.
  - intros a m (p & b & Hb & Hin & ->). destruct (s' !! p) as [c|] eqn:Hc; [left|right].
    { exists p, c. assert (c = b) as -> by (apply (lookup_weaken _ _ _ _ Hc) in Hsub; congruence). done. }
    eapply doomed_inside; [exact Hs1|exact Hs2|exact Hb|exact Hin|lia|]. by apply (Hrm p b).
  - destruct Hr as [?|[-> Hr]]; [by left|right]. split; [done|]. intros a m (p & b & Hb & Hin & ->) Hun.
    apply (Hr p b); [rewrite Pl; apply leaves_elem; eauto|done|].
    eapply (doomed_inside (branches self)); eauto. by apply (lookup_weaken s').
Qed.

(** [mman_munmap_unlocked] of bytes in [addr .. addr + size). *)
Lemma space_munmap_ok X self e addr n mode tag : let size := CEIL_ALIGN (2 ^ 32) n PAGESIZE in
  mm_ok X self e -> 0 < n -> addr + n < 2 ^ 32 -> page_range addr size ->
  exists r self' e', mman_munmap_unlocked self addr n mode tag e = Ret (r, self', e') /\ mm_ok X self' e' /\
    (forall a m, mapped self' a m -> mapped self a m) /\
    (forall a m, mapped self a m -> mapped self' a m \/ unmaps addr size mode tag a m) /\
    (E_ISERR r = true \/ E_ISERR r = false /\ r = uintptr (total (branches self) - total (branches self')) /\
      forall a m, mapped self' a m -> ~ unmaps addr size mode tag a m).
Proof.
  intros size Hok Hn Hend Hpr. pose proof Hpr as (Ha & Haa & Hsz & Hsa & Hse). unfold mman_munmap_unlocked. fold size.
  rewrite uintptr_id by lia. rewrite (proj2 (Z.leb_le _ _)), oassert_true by lia. rewrite (proj2 (Z.eqb_neq _ _)) by lia.
  destruct (split_ends_ok X self e addr size Hok Hpr) as (r1 & self1 & e1 & -> & Hok1 & Hm1 & Ht1 & Hr1). cbn [obind].
  destruct (E_ISERR r1) eqn:Er1.
  { exists (- ENOMEM), self1, e1. split_and!; try done; [intros a m; apply Hm1| |by left]. intros a m Hm. left. by apply Hm1. }
  destruct Hr1 as [?|(_ & Hs1 & Hs2)]; [congruence|]. rewrite uintptr_id by lia.
  destruct (munmap_range_ok X self1 e1 addr size mode tag Hok1 Hpr Hs1 Hs2) as (r & m' & o' & s' & e' & -> & Hok' & Hsub & Hrm & Hr).
  cbn [obind]. exists r, (MMan m' o' s'), e'. cbn [branches]. split_and!; [done..| | |].
  - intros a m (p & b & Hb & Hin & ->). apply Hm1. exists p, b. split; [by apply (lookup_weaken s')|done].
  - intros a m Hm. apply Hrm. by apply Hm1.
  - destruct Hr as [?|[-> Hr]]; [by left|right]. rewrite Ht1. split; [|done]. apply page_no_error.
    pose proof (total_page _ (inv_wf _ (mm_inv _ _ _ Hok1))). pose proof (total_page _ (inv_wf _ (mm_inv _ _ _ Hok'))).
    apply page_no_error. simpl in *. mlia.
Qed.

End Ranges.
