(* ===== verification/MmanMap.v ===== *)
(** * Address spaces: rights, merging and mapping *)
From stdpp Require Import base numbers list gmap.
From S2P Require Import Prelude Align ATree Mman MmanSpec MmanFind MmanOps MmanUnmap.

(** ** Changing the rights *)

Definition new_prot (am om : Z) (b : mbranch) : mbranch := set_prot (Z.lor (Z.land (mb_prot b) am) om) b.

Lemma new_prot_idem am om b : new_prot am om (new_prot am om b) = new_prot am om b.
Proof.
  unfold new_prot, set_prot. simpl. f_equal. apply Z.bits_inj'. intros i _.
  rewrite !Z.lor_spec, !Z.land_spec, Z.lor_spec, Z.land_spec.
  destruct (Z.testbit (mb_prot b) i), (Z.testbit am i), (Z.testbit om i); done.
Qed.

Lemma new_prot_wf am om b : branch_wf b -> branch_wf (new_prot am om b).
Proof. done. Qed.

(** The branches of [t] that the range hits may have the new rights, the others are as before. *)
Definition reprot (lo hi am om : Z) (t : list (leaf Z)) (s s' : gmap Z mbranch) : Prop :=
  (forall p, s !! p = None -> s' !! p = None) /\
  forall p b, s !! p = Some b -> s' !! p = Some b \/
    leaf_of p b ∈ t /\ hits (leaf_of p b) lo hi = true /\ s' !! p = Some (new_prot am om b).

(** All of them have. *)
Definition reprot_all (lo hi am om : Z) (t : list (leaf Z)) (s s' : gmap Z mbranch) : Prop :=
  forall p b, leaf_of p b ∈ t -> hits (leaf_of p b) lo hi = true -> s !! p = Some b -> s' !! p = Some (new_prot am om b).

Lemma reprot_refl lo hi am om t s : reprot lo hi am om t s s.
Proof. split; [done|]. by left. Qed.

Lemma reprot_trans lo hi am om t1 t2 t s1 s2 s3 : t1 ⊆ t -> t2 ⊆ t ->
  reprot lo hi am om t1 s1 s2 -> reprot lo hi am om t2 s2 s3 -> reprot lo hi am om t s1 s3.
Proof.
  intros Hs1 Hs2 [N1 R1] [N2 R2]. split; [auto|]. intros p b Hb. destruct (R1 p b Hb) as [Hb2|(Hin & Hh & Hb2)].
  - destruct (R2 p b Hb2) as [Hb3|(Hin & Hh & Hb3)]; [by left|right]. auto.
  - right. destruct (R2 p _ Hb2) as [Hb3|(_ & _ & Hb3)]; [by auto|]. rewrite new_prot_idem in Hb3. auto.
Qed.

Lemma reprot_all_app lo hi am om t1 t2 s1 s2 s3 :
  reprot lo hi am om t1 s1 s2 -> reprot_all lo hi am om t1 s1 s2 ->
  reprot lo hi am om t2 s2 s3 -> reprot_all lo hi am om t2 s2 s3 -> reprot_all lo hi am om (t1 ++ t2) s1 s3.
Proof.
  intros [_ R1] A1 [_ R2] A2 p b Hin Hh Hb. apply elem_of_app in Hin as [Hin|Hin].
  - destruct (R2 p _ (A1 p b Hin Hh Hb)) as [Hb3|(_ & _ & Hb3)]; [done|]. by rewrite new_prot_idem in Hb3.
  - destruct (R1 p b Hb) as [Hb2|(_ & _ & Hb2)]; [by apply A2|].
    rewrite <- new_prot_idem. by apply A2.
Qed.

Lemma reprot_all_misses lo hi am om t s : misses lo hi t -> reprot_all lo hi am om t s s.
Proof. intros Hm p b Hin Hh. rewrite Forall_forall in Hm. specialize (Hm _ Hin). simpl in Hm. congruence. Qed.

Section Protect.

Context {E : Type} `{BranchLaws E}.
Variables (X : gmap Z mbranch) (lo hi am om : Z).
Hypothesis Hlo : lo mod 4096 = 0.
Hypothesis Hhi : uintptr (hi + 1) mod 4096 = 0.
Hypothesis Hle : lo <= hi.
Hypothesis Htakes : forall b, takes b -> takes (new_prot am om b).

(** The branches during the walk. *)
Definition store_ok (t : list (leaf Z)) (s : gmap Z mbranch) (e : E) : Prop :=
  (forall l, l ∈ t -> exists b, s !! a_obj l = Some b /\ l = leaf_of (a_obj l) b) /\ all_wf s /\ s ##ₘ X /\ env_ok e (s ∪ X).

Lemma store_sub t t' s e : t' ⊆ t -> store_ok t s e -> store_ok t' s e.
Proof. intros Hs (Hl & ? & ? & ?). split_and!; try done. auto. Qed.

Lemma store_reprot t t' s s' e' : (forall l, l ∈ t -> exists b, s !! a_obj l = Some b /\ l = leaf_of (a_obj l) b) ->
  reprot lo hi am om t' s s' -> all_wf s' -> s' ##ₘ X -> env_ok e' (s' ∪ X) -> store_ok t s' e'.
Proof.
  intros Hl [_ Hr] ? ? ?. split_and!; try done. intros l Hin. destruct (Hl l Hin) as (b & Hb & El).
  destruct (Hr _ b Hb) as [?|(_ & _ & ?)]; [eauto|]. exists (new_prot am om b). done.
Qed.

(** The result of the walk over [t]. *)
Definition protects (t : list (leaf Z)) (s s' : gmap Z mbranch) (e' : E) (r : Z) : Prop :=
  all_wf s' /\ s' ##ₘ X /\ env_ok e' (s' ∪ X) /\ reprot lo hi am om t s s' /\
  (E_ISERR r = true \/ r mod 4096 = 0 /\ reprot_all lo hi am om t s s').

Lemma protects_refl t s e : store_ok t s e -> misses lo hi t -> protects t s s e 0.
Proof. intros (_ & ? & ? & ?) Hm. split_and!; try done; [apply reprot_refl|right]. split; [done|]. by apply reprot_all_misses. Qed.

(** One walk after another. *)
Lemma protects_app t1 t2 t s1 s2 s3 e2 e3 r1 r2 : t ≡ₚ t1 ++ t2 ->
  protects t1 s1 s2 e2 r1 -> E_ISERR r1 = false -> protects t2 s2 s3 e3 r2 ->
  protects t s1 s3 e3 (if E_ISERR r2 then r2 else uintptr (r1 + r2)).
Proof.
  intros Ht (_ & _ & _ & R1 & [?|[P1 A1]]) He1 (W & D & En & R2 & A2); [congruence|].
  assert (HR : reprot lo hi am om t s1 s3).
  { eapply reprot_trans; [| |exact R1|exact R2]; intros x Hx; rewrite Ht, elem_of_app; auto. }
  split_and!; try done. destruct (E_ISERR r2) eqn:Er2; [by left|right]. destruct A2 as [?|[P2 A2]]; [congruence|].
  split; [apply page_no_error; mlia|]. intros p b Hin. rewrite Ht in Hin. revert p b Hin. change (reprot_all lo hi am om (t1 ++ t2) s1 s3).
  by eapply reprot_all_app.
Qed.

Lemma protects_fail t1 t s1 s2 e2 r : t1 ⊆ t -> protects t1 s1 s2 e2 r -> E_ISERR r = true -> protects t s1 s2 e2 r.
Proof.
  intros Ht (? & ? & ? & R & _) Hr. split_and!; try done; [|by left]. eapply reprot_trans; [exact Ht|exact Ht|exact R|apply reprot_refl].
Qed.

(** The branch at the root. *)
Lemma protect_one l s e : store_ok [l] s e ->
  exists r s' e',
    (if hits l lo hi then
       let! b := branch_at s (a_obj l) in
       let! (temp, e) := mbranch_remap (new_prot am om b) true e in
       Ret (if E_ISERR temp then temp else MBRANCH_SIZE (new_prot am om b), <[a_obj l := new_prot am om b]> s, e)
     else Ret (0, s, e)) = Ret (r, s', e') /\ protects [l] s s' e' r.
Proof.
  intros Hok. pose proof Hok as (Hl & Hw & Hd & He). destruct (hits l lo hi) eqn:Hh.
  2:{ exists 0, s, e. split; [done|]. apply protects_refl; [done|]. by constructor. }
  destruct (Hl l) as (b & Hb & El); [by left|]. unfold branch_at. rewrite Hb. cbn [obind]. pose proof (Hw _ _ Hb) as Hwb.
  destruct (remap_ok e (s ∪ X) b (a_obj l) (Z.lor (Z.land (mb_prot b) am) om) true He) as (r & e1 & Er & He1);
    [by apply lookup_union_Some_l|done|by eapply Htakes, env_takes, lookup_union_Some_l|].
  unfold new_prot at 1. rewrite Er. cbn [obind]. eexists _, _, _. split; [done|].
  rewrite insert_union_l in He1. split_and!; [by apply map_Forall_insert_2| |done| |].
  - apply map_disjoint_insert_l_2; [by eapply map_disjoint_Some_r|done].
  - split; [intros p Hp; rewrite lookup_insert_ne by congruence; done|]. intros p c Hc.
    destruct (decide (p = a_obj l)) as [->|Hne]; [right|left; by rewrite lookup_insert_ne].
    assert (c = b) as -> by congruence. rewrite <- El, lookup_insert_eq. split_and!; [by left|done..].
  - destruct (E_ISERR r) eqn:Err; [by left|right]. split.
    + rewrite branch_size by done. by apply branch_size_page.
    + intros p c Hin _ Hc. apply list_elem_of_singleton in Hin. assert (p = a_obj l) as -> by (by rewrite <- Hin).
      rewrite lookup_insert_eq. congruence.
Qed.

Lemma mprotect_impl_ok t : forall s e semi level,
  semi_ok 32 semi level -> wf semi level t -> nonnull t = true -> store_ok (elements t) s e ->
  exists r s' e', mman_mprotect_impl t s lo hi semi level am om e = Ret (r, s', e') /\ protects (elements t) s s' e' r.
Proof.
  induction t as [|l mn IHn mx IHx]; intros s e semi level Hs Hwf; [done|]. intros _ Hok. cbn [mman_mprotect_impl elements].
  rewrite (proj2 (aligned_page _) Hlo), (proj2 (aligned_page _) Hhi), (proj2 (Z.leb_le _ _) Hle), !oassert_true.
  simpl in Hok. pose proof Hok as (Hl & _).
  destruct (protect_one l s e) as (r1 & s1 & e1 & E1 & P1).
  { eapply store_sub; [|exact Hok]. intros x Hx%list_elem_of_singleton. subst. by left. }
  unfold new_prot in E1. rewrite E1. cbn [obind]. clear E1.
  assert (Hsx : elements mx ⊆ l :: elements mn ++ elements mx) by (intros x; rewrite elem_of_cons, elem_of_app; auto).
  assert (Hsn : elements mn ⊆ l :: elements mn ++ elements mx) by (intros x; rewrite elem_of_cons, elem_of_app; auto).
  destruct (E_ISERR r1) eqn:Er1.
  { eexists _, _, _. split; [done|]. eapply protects_fail; [|exact P1|done]. intros x Hx%list_elem_of_singleton. subst. by left. }
  assert (Hmax : exists temp s2 e2,
    (if (semi <=? hi) && nonnull mx then
       let! (sm, lv) := ATREE_WALKMAX semi level in mman_mprotect_impl mx s1 lo hi sm lv am om e1
     else Ret (0, s1, e1)) = Ret (temp, s2, e2) /\ protects (elements mx) s1 s2 e2 temp).
  { assert (Hok1 : store_ok (elements mx) s1 e1).
    { destruct P1 as (? & ? & ? & R1 & _). eapply store_reprot; [intros x Hx; apply Hl; auto|exact R1|done..]. }
    destruct ((semi <=? hi) && nonnull mx) eqn:Ex.
    - apply andb_prop in Ex as [_ Ex]. destruct (walk_max_ok semi level l mn mx Hs Hwf Ex) as (-> & Hs' & Hw'). cbn [obind]. eauto.
    - apply (skip_max semi level l mn mx Hs Hwf lo hi) in Ex. exists 0, s1, e1. split; [done|]. by apply protects_refl. }
  destruct Hmax as (temp & s2 & e2 & -> & P2). cbn [obind].
  pose proof (protects_app [l] (elements mx) (l :: elements mx) _ _ _ _ _ _ _ ltac:(done) P1 Er1 P2) as P12.
  destruct (E_ISERR temp) eqn:Et.
  { eexists _, _, _. split; [done|]. eapply protects_fail; [|exact P12|done]. intros x. rewrite !elem_of_cons, elem_of_app. tauto. }
  assert (Er12 : E_ISERR (uintptr (r1 + temp)) = false).
  { destruct P1 as (_ & _ & _ & _ & [?|[? _]]); [congruence|]. destruct P2 as (_ & _ & _ & _ & [?|[? _]]); [congruence|].
    apply page_no_error, page_no_error. mlia. }
  assert (Hok2 : store_ok (elements mn) s2 e2).
  { destruct P12 as (? & ? & ? & R & _). eapply store_reprot; [intros x Hx; apply Hl; auto|exact R|done..]. }
  destruct ((lo <? semi) && nonnull mn) eqn:En.
  - apply andb_prop in En as [_ En]. destruct (walk_min_ok semi level l mn mx Hs Hwf En) as (-> & Hs' & Hw'). cbn [obind].
    destruct (IHn s2 e2 _ _ Hs' Hw' En Hok2) as (r3 & s3 & e3 & -> & P3). cbn [obind]. eexists _, _, _. split; [done|].
    eapply protects_app; [|exact P12|done|exact P3]. simpl. by rewrite (Permutation_app_comm (elements mn)).
  - apply (skip_min semi level l mn mx Hs Hwf lo hi) in En. eexists _, _, _. split; [done|].
    pose proof (protects_app (l :: elements mx) (elements mn) (l :: elements mn ++ elements mx) _ _ _ _ _ _ _
      ltac:(simpl; by rewrite (Permutation_app_comm (elements mn))) P12 Er12 (protects_refl _ _ _ Hok2 En)) as P.
    change (E_ISERR 0) with false in P. cbv iota in P. rewrite Z.add_0_r, uintptr_id in P by apply uintptr_range. exact P.
Qed.

End Protect.

(** ** Merging *)

(** The mappings below and at [x] continue each other, as far as the code compares them: the
    regions are not compared. *)
Definition joinable (m1 m2 : mapping) : Prop :=
  mg_prot m1 = mg_prot m2 /\ mg_notify m1 = mg_notify m2 /\ mg_closure m1 = mg_closure m2 /\ mg_off m1 + 1 = mg_off m2.
Definition joins_at (self : mman) (x : Z) : Prop :=
  exists m1 m2, mapped self (uintptr (x - 1)) m1 /\ mapped self x m2 /\ joinable m1 m2.

(** A branch begins at [x]. *)
Definition boundary (self : mman) (x : Z) : Prop := exists p b, branches self !! p = Some b /\ mb_vmin b = x.

Lemma joins_at_branches self x p q b c : mman_inv self -> joins_at self x -> branches self !! p = Some b -> branches self !! q = Some c ->
  in_branch b (uintptr (x - 1)) -> in_branch c x -> joinable (maps_at b (uintptr (x - 1))) (maps_at c x).
Proof.
  intros Hi (m1 & m2 & H1 & H2 & Hj) Hb Hc Hib Hic. pose proof (inv_apart _ Hi) as Hap.
  rewrite (apart_mapped _ _ _ m1 Hap (ex_intro _ p (ex_intro _ b (conj Hb (conj Hib eq_refl)))) H1).
  by rewrite (apart_mapped _ _ _ m2 Hap (ex_intro _ q (ex_intro _ c (conj Hc (conj Hic eq_refl)))) H2).
Qed.

Section Merge.

Context {E : Type} `{BranchLaws E}.

(** How far [mman_merge_branch_unlocked] gets. *)
Lemma merge_cases self x (e : E) : mman_inv self -> 0 <= x < 2 ^ 32 -> x mod 4096 = 0 ->
  mman_merge_branch_unlocked self x e = Ret (false, self, e) /\ ~ (joins_at self x /\ boundary self x) \/
  exists plo phi l h mn mx mn' mx' b c, let sl := slot_semi (ATREE_SEMI0 32) (ATREE_LEVEL0 32) in
    slot_get (m_map self) plo = Node l mn mx /\ slot_get (m_map self) phi = Node h mn' mx' /\
    branches self !! a_obj l = Some b /\ branches self !! a_obj h = Some c /\
    l = leaf_of (a_obj l) b /\ h = leaf_of (a_obj h) c /\
    a_obj l <> a_obj h /\ mb_vmax b = uintptr (x - 1) /\ mb_vmin c = x /\
    joinable (maps_at b (mb_vmax b)) (maps_at c x) /\
    plocate_at 32 (m_map self) (uintptr (x - 1)) (ATREE_SEMI0 32) (ATREE_LEVEL0 32) = Ret (Some (plo, (sl plo).1, (sl plo).2)) /\
    plocate_at 32 (m_map self) x (ATREE_SEMI0 32) (ATREE_LEVEL0 32) = Ret (Some (phi, (sl phi).1, (sl phi).2)) /\
    mman_merge_branch_unlocked self x e =
      merge_leafs self plo phi (sl plo).1 (sl plo).2 (sl phi).1 (sl phi).2 (a_obj l) (a_obj h) b c e.
Proof.
  intros Hi Hx Ha. unfold mman_merge_branch_unlocked. rewrite (proj2 (aligned_page _) Ha), oassert_true.
  destruct (plocate_branch self (uintptr (x - 1)) Hi (uintptr_range _)) as [(plo & l & mn & mx & b & Hpl & Hg & Hb & El & Hw & Hin)|[-> Hno]];
    [rewrite Hpl|]; cbn [obind]; [|left; split; [done|]; intros [(? & ? & Hm & _) _]; by apply Hno in Hm].
  rewrite Hg. unfold branch_at. rewrite Hb. cbn [obind].
  pose proof Hw as (_ & _ & Hb1 & Hb2 & Hb3 & _ & Hb4).
  assert (Hx1 : x = 0 /\ uintptr (x - 1) = 2 ^ 32 - 1 \/ 0 < x /\ uintptr (x - 1) = x - 1).
  { destruct (Z.eq_dec x 0) as [->|]; [left; done|right; split; [lia|]]. apply uintptr_id. lia. }
  destruct (Z.eqb_spec (mb_vmax b) (uintptr (x - 1))) as [Ev|Hev]; cbn [negb].
  2:{ left. split; [done|]. intros [_ (p & d & Hd & Hdx)]. unfold in_branch in Hin. pose proof (inv_wf _ Hi _ _ Hd) as (_ & _ & ? & _).
      destruct (decide (p = a_obj l)) as [->|Hne]; [assert (d = b) as -> by congruence; lia|].
      destruct (inv_apart _ Hi _ _ _ _ Hd Hb Hne); unfold below in *; lia. }
  destruct (plocate_branch self x Hi Hx) as [(phi & h & mn' & mx' & c & Hph & Hg' & Hc & Eh & Hw' & Hin')|[-> Hno]];
    [rewrite Hph|]; cbn [obind]; [|left; split; [done|]; intros [(? & ? & _ & Hm & _) _]; by apply Hno in Hm].
  rewrite Hg', Hc. cbn [obind]. pose proof Hw' as (_ & _ & Hc1 & Hc2 & _).
  assert (Hjn : joins_at self x -> joinable (maps_at b (mb_vmax b)) (maps_at c x)).
  { intros Hj. rewrite Ev. by eapply joins_at_branches. }
  unfold in_branch in *. unfold joinable in Hjn. simpl in Hjn.
  assert (Hne : a_obj l <> a_obj h).
  { intros Heq. assert (b = c) as -> by congruence. lia. }
  assert (Hvc : mb_vmin c = x).
  { destruct (inv_apart _ Hi _ _ _ _ Hb Hc Hne) as [Hbc|Hbc]; unfold below in Hbc; lia. }
  rewrite (proj2 (Z.eqb_neq _ _) Hne). cbn [negb]. rewrite oassert_true.
  replace (MBRANCH_END b =? mb_vmin c) with true; [rewrite oassert_true|].
  2:{ symmetry. apply Z.eqb_eq. unfold MBRANCH_END. rewrite Ev, uintptr_add_l. rewrite Hvc. replace (x - 1 + 1) with x by lia. by rewrite uintptr_id. }
  destruct (_ || _ || _) eqn:Hcmp; [left; split; [done|]; intros [(? & ? & ? & _)%Hjn _];
    rewrite !orb_true_iff, !negb_true_iff, !Z.eqb_neq in Hcmp; intuition|].
  bsimp. rewrite Z.eqb_refl. cbn [negb]. rewrite branch_size by done. rewrite uintptr_id by lia.
  destruct (Z.eqb_spec (mb_start b + (mb_vmax b - mb_vmin b + 1)) (mb_start c)) as [Hst|]; cbn [negb].
  2:{ left. split; [done|]. intros [Hj%Hjn _]. lia. }
  right. exists plo, phi, l, h, mn, mx, mn', mx', b, c. cbv zeta. split_and!; try done. unfold joinable. simpl. split_and!; [done..|lia].
Qed.

Lemma merge_skip self x (e : E) : mman_inv self -> 0 <= x < 2 ^ 32 -> x mod 4096 = 0 -> ~ joins_at self x ->
  mman_merge_branch_unlocked self x e = Ret (false, self, e).
Proof.
  intros Hi Hx Ha Hno. destruct (merge_cases self x e Hi Hx Ha) as [[? _]|(plo & phi & l & h & mn & mx & mn' & mx' & b & c & Hm)]; [done|].
  cbv zeta in Hm. destruct Hm as (_ & _ & Hb & Hc & _ & _ & _ & Ev & Evc & Hj & _ & _ & _). exfalso. apply Hno.
  pose proof (inv_wf _ Hi _ _ Hb) as (_ & _ & ? & _). pose proof (inv_wf _ Hi _ _ Hc) as (_ & _ & ? & _).
  eexists _, _. split_and!; [exists (a_obj l), b|exists (a_obj h), c|exact Hj]; (split_and!; [done| |]).
  all: unfold in_branch; rewrite <- ?Ev; lia || done.
Qed.

(** The branch at [x] is not above the one below [x] in the tree. *)
Definition not_above (self : mman) (x : Z) : Prop := forall plo phi s1 l1 s2 l2,
  plocate_at 32 (m_map self) (x - 1) (ATREE_SEMI0 32) (ATREE_LEVEL0 32) = Ret (Some (plo, s1, l1)) ->
  plocate_at 32 (m_map self) x (ATREE_SEMI0 32) (ATREE_LEVEL0 32) = Ret (Some (phi, s2, l2)) -> ~ phi `prefix_of` plo.

(** Removing the upper of two branches from the list and letting the lower one end where it did. *)
Lemma ordered_join s lo o p q b c v : all_wf s -> ordered s lo o -> s !! p = Some b -> s !! q = Some c -> p <> q ->
  mb_vmin c = mb_vmax b + 1 -> v = mb_vmax c -> q ∈ o ->
  ordered (<[p := set_vmax v b]> (delete q s)) lo (list_remove q o).
Proof.
  intros Hw. revert lo. induction o as [|x o IH]; intros lo Ho Hb Hc Hne Hadj -> Hq; [by apply not_elem_of_nil in Hq|].
  pose proof (ordered_nodup _ _ _ Hw Ho) as Hnd. apply NoDup_cons in Hnd as [Hxo Hno]. destruct Ho as (d & Hd & Hlo & Ho).
  pose proof (Hw _ _ Hb) as (_ & _ & Hb1 & _). pose proof (Hw _ _ Hc) as (_ & _ & Hc1 & _). simpl.
  assert (Hframe : forall l lo', ordered s lo' l -> q ∉ l -> p ∉ l -> ordered (<[p := set_vmax (mb_vmax c) b]> (delete q s)) lo' l).
  { intros l lo' Hl Hql Hpl. eapply ordered_frame; [|exact Hl]. intros y z Hy Hz. exists z.
    rewrite lookup_insert_ne, lookup_delete_ne by (intros <-; done). done. }
  destruct (Z.eqb_spec x q) as [->|Hxq].
  - assert (d = c) as -> by congruence. eapply ordered_weaken; [|apply Hframe; [exact Ho|done|]]; [lia|].
    intros Hp. destruct (ordered_in _ _ _ _ Hw Ho Hp) as (b' & Hb' & ?). assert (b' = b) as -> by congruence. lia.
  - apply elem_of_cons in Hq as [->|Hq]; [done|]. destruct (decide (x = p)) as [->|Hxp].
    + assert (d = b) as -> by congruence. exists (set_vmax (mb_vmax c) b). rewrite lookup_insert_eq. split_and!; [done..|].
      destruct o as [|y o]; [done|]. simpl in Hq |- *. destruct Ho as (z & Hz & Hbz & Ho).
      assert (y = q) as ->.
      { apply elem_of_cons in Hq as [->|Hq]; [done|]. destruct (ordered_in _ _ _ _ Hw Ho Hq) as (c' & Hc' & ?).
        assert (c' = c) as -> by congruence. pose proof (Hw _ _ Hz) as (_ & _ & ? & _). lia. }
      rewrite Z.eqb_refl. assert (z = c) as -> by congruence. apply NoDup_cons in Hno as [Hqo _].
      apply Hframe; [done..|]. intros Hp. apply Hxo. by right.
    + exists d. rewrite lookup_insert_ne, lookup_delete_ne by done. split_and!; [done..|]. by apply IH.
Qed.

Lemma mapped_join s p q b c a m : s !! p = Some b -> s !! q = Some c -> p <> q -> branch_wf b -> branch_wf c ->
  mb_vmin c = mb_vmax b + 1 -> mb_region b = mb_region c -> joinable (maps_at b (mb_vmax b)) (maps_at c (mb_vmin c)) ->
  mapped_in (<[p := set_vmax (mb_vmax c) b]> (delete q s)) a m <-> mapped_in s a m.
Proof.
  intros Hb Hc Hne (_ & _ & Wb & _) (_ & _ & Wc & _) Hadj Hreg (Hp & Hn & Hcl & Hoff). simpl in *.
  rewrite (mapped_delete s q c) by done.
  rewrite (mapped_delete (delete q s) p b) by (by rewrite lookup_delete_ne).
  rewrite <- insert_delete_eq, mapped_insert by apply lookup_delete_eq. rewrite maps_set_vmax. unfold in_branch. simpl.
  assert (Hmaps : mb_vmin c <= a -> maps_at c a = maps_at b a).
  { intros Ha. unfold maps_at. rewrite Hp, Hn, Hcl, Hreg. f_equal. lia. }
  split.
  - intros [[Hin ->]|?]; [|by right; right]. destruct (Z_le_gt_dec a (mb_vmax b)); [right; left; split; [lia|done]|left].
    split; [lia|]. rewrite Hmaps; [done|lia].
  - intros [[Hin ->]|[[Hin ->]|?]]; [left|left|by right]; (split; [lia|]); [|done]. apply Hmaps. lia.
Qed.

(** The invariant and the environment after a merge. *)
Lemma join_state X self (e : E) p q b c m : mm_ok X self e -> branches self !! p = Some b -> branches self !! q = Some c ->
  p <> q -> mb_vmin c = mb_vmax b + 1 -> mb_region b = mb_region c -> joinable (maps_at b (mb_vmax b)) (maps_at c (mb_vmin c)) ->
  tree_ok 32 m -> leaf_of p b :: leaf_of q c :: elements m ≡ₚ elements (m_map self) ->
  exists m' e', insert 32 m (Leaf (mb_vmin b) (mb_vmax c) p) = Ret m' /\
    region_decfetch (mb_region b) (kffree_branch q e) = Ret e' /\
    mm_ok X (MMan m' (list_remove q (m_order self)) (<[p := set_vmax (mb_vmax c) b]> (delete q (branches self)))) e'.
Proof.
  intros [Hi He Hd] Hb Hc Hne Hadj Hreg (Hp & Hn & Hcl & Hoff) Ht Hel. simpl in Hp, Hn, Hcl, Hoff.
  pose proof (inv_wf _ Hi) as Hwf. pose proof (Hwf _ _ Hb) as Hwb. pose proof (Hwf _ _ Hc) as Hwc. pose proof (inv_apart _ Hi) as Hap.
  set (s := branches self) in *. set (b' := set_vmax (mb_vmax c) b).
  assert (Hwb' : branch_wf b').
  { destruct Hwb as (? & ? & ? & ? & ? & ? & ?), Hwc as (? & ? & ? & ? & ? & ? & ?). unfold branch_wf. simpl. split_and!; lia. }
  assert (Hc' : delete p s !! q = Some c) by (by rewrite lookup_delete_ne).
  assert (Hdel : elements m ≡ₚ leaves (delete q (delete p s))).
  { apply (Permutation_cons_inv (a := leaf_of q c)), (Permutation_cons_inv (a := leaf_of p b)). unfold s in *.
    rewrite Hel, (inv_leaves _ Hi), <- (leaves_delete _ q c Hc'). by apply leaves_delete. }
  destruct (insert_leaf_ok m (leaf_of p b')) as (m' & Em & Ht' & Hel'); [done|by apply leaf_of_fits| |].
  { eapply clear_of_leaves; [exact Hdel|]. intros x d [Hx [Hx' Hd']%lookup_delete_Some]%lookup_delete_Some.
    pose proof (Hap _ _ _ _ Hb Hd' Hx'). pose proof (Hap _ _ _ _ Hc Hd' Hx). pose proof (Hwf _ _ Hd') as (_ & _ & ? & _).
    destruct Hwb as (_ & _ & ? & _), Hwc as (_ & _ & ? & _). unfold below in *. simpl. lia. }
  assert (Hwx : (branches self ∪ X) !! p = Some b /\ (branches self ∪ X) !! q = Some c) by (split; by apply lookup_union_Some_l).
  destruct Hwx as [Hbx Hcx].
  destruct (merge_region_ok e _ p q b c He Hbx Hcx Hne Hwb Hwc) as (e' & Ee & He'); [|done|].
  { destruct Hwb as (_ & _ & ? & ? & ? & _ & ?). destruct c. unfold hi_of. simpl in *. subst. rewrite uintptr_id by lia. f_equal; lia. }
  exists m', e'. split; [exact Em|]. split; [exact Ee|]. assert (HXp : X !! p = None /\ X !! q = None) by (split; by eapply map_disjoint_Some_r).
  destruct HXp as [HXp HXq]. split; [split|..]; cbn [m_map m_order branches].
  - done.
  - rewrite Hel', Hdel, delete_delete, <- (insert_delete_eq (delete q s)), leaves_insert by apply lookup_delete_eq. done.
  - eapply ordered_join; try done; [by apply Hi|]. apply (inv_listed _ Hi). eauto.
  - intros x Hx. assert (Hxq : x <> q). { intros ->. rewrite lookup_insert_ne, lookup_delete_eq in Hx by done. by destruct Hx. }
    assert (Hxs : x ∈ m_order self).
    { apply (inv_listed _ Hi). destruct (decide (x = p)) as [->|]; [eauto|]. by rewrite lookup_insert_ne, lookup_delete_ne in Hx by done. }
    rewrite (list_remove_perm q) in Hxs by (apply (inv_listed _ Hi); eauto). by apply elem_of_cons in Hxs as [?|?].
  - apply map_Forall_insert_2; [done|]. by apply map_Forall_delete.
  - rewrite <- insert_union_l. rewrite delete_union, (delete_id X) in He' by done. exact He'.
  - apply map_disjoint_insert_l_2; [done|]. by apply map_disjoint_delete_l.
Qed.

Lemma leaves_objs s : NoDup (a_obj <$> leaves s).
Proof. unfold leaves. rewrite <- list_fmap_compose. exact (NoDup_fst_map_to_list s). Qed.

(** Popping both branches. *)
Lemma pop_both self plo phi l h mn mx mn' mx' : mman_inv self -> ~ phi `prefix_of` plo ->
  slot_get (m_map self) plo = Node l mn mx -> slot_get (m_map self) phi = Node h mn' mx' ->
  let sl := slot_semi (ATREE_SEMI0 32) (ATREE_LEVEL0 32) in
  exists t t', pop_at 32 (slot_get (m_map self) phi) (sl phi).1 (sl phi).2 = Ret (h, t) /\
    let m := slot_set (m_map self) phi t in
    slot_path m (slot_owner (m_map self) plo) = Some plo /\
    pop_at 32 (slot_get m plo) (sl plo).1 (sl plo).2 = Ret (l, t') /\ tree_ok 32 (slot_set m plo t') /\
    l :: h :: elements (slot_set m plo t') ≡ₚ elements (m_map self).
Proof.
  intros Hi Hnp Hgl Hgh sl. destruct (pop_slot_ok _ _ _ _ _ (inv_tree _ Hi) Hgh) as (t & Hpop & Ht & Hel).
  destruct (slot_get_set_other _ phi plo t _ _ _ Hnp Hgl) as (mn2 & mx2 & Hgl').
  destruct (pop_slot_ok _ _ _ _ _ Ht Hgl') as (t' & Hpop' & Ht' & Hel').
  exists t, t'. split; [exact Hpop|]. split; [|split_and!; [done..|rewrite Hel, Hel'; apply perm_swap]].
  eapply slot_path_stable; [done..|]. pose proof (leaves_objs (branches self)) as Hnd.
  rewrite <- (inv_leaves _ Hi), Hel in Hnd. by apply NoDup_cons in Hnd as [_ ?].
Qed.

(** Merging at [x]: the map is the same, and branches that can be one are one. *)
Lemma space_merge_ok X self (e : E) x : mm_ok X self e -> 0 < x < 2 ^ 32 -> x mod 4096 = 0 -> not_above self x ->
  (forall m1 m2, mapped self (x - 1) m1 -> mapped self x m2 -> joinable m1 m2 -> mg_region m1 = mg_region m2) ->
  exists self' e', mman_merge_branch_unlocked self x e = Ret (false, self', e') /\ mm_ok X self' e' /\
    (forall a m, mapped self' a m <-> mapped self a m) /\ (joins_at self x -> ~ boundary self' x).
Proof.
  intros Hok Hx Ha Hna Hreg. pose proof (mm_inv _ _ _ Hok) as Hi.
  destruct (merge_cases self x e Hi) as [[-> Hj]|(plo & phi & l & h & mn & mx & mn' & mx' & b & c & Hm)]; [lia|done| |].
  { exists self, e. split_and!; try done. intuition. }
  cbv zeta in Hm. destruct Hm as (Hgl & Hgh & Hb & Hc & El & Eh & Hne & Hvb & Hvc & Hj & Hpl & Hph & ->).
  rewrite uintptr_id in * by lia. specialize (Hna _ _ _ _ _ _ Hpl Hph). pose proof (inv_wf _ Hi _ _ Hb) as Hwb. pose proof (inv_wf _ Hi _ _ Hc) as Hwc.
  pose proof Hwb as (_ & _ & Hb1 & _). pose proof Hwc as (_ & _ & Hc1 & _).
  assert (Hr : mb_region b = mb_region c).
  { rewrite Hvb in Hj. apply (Hreg (maps_at b (x - 1)) (maps_at c x)); [exists (a_obj l), b|exists (a_obj h), c|done];
      unfold in_branch; (split_and!; [done|lia..|done]). }
  destruct (pop_both self plo phi l h mn mx mn' mx' Hi Hna Hgl Hgh) as (t & t' & Hp1 & Hsp & Hp2 & Ht & Hel).
  rewrite <- Hvc in Hj.
  destruct (join_state X self (MBRANCH_DECREF c e) (a_obj l) (a_obj h) b c (slot_set (slot_set (m_map self) phi t) plo t'))
    as (m' & e' & Em & Ee & Hok'); try done; [|lia|by rewrite <- El, <- Eh|].
  { destruct Hok. split; try done. by apply DECREF_ok. }
  unfold merge_leafs. rewrite Hp1. cbn [obind]. rewrite Hsp, Hp2. cbn [obind]. cbn [mb_region set_vmax mb_vmin mb_vmax]. rewrite Ee. cbn [obind].
  rewrite Em. cbn [obind]. eexists _, _. split; [done|]. split; [exact Hok'|]. cbn [branches]. split.
  - intros a m. apply mapped_join; try done. lia.
  - intros _ (q & d & Hd & Hdx). cbn [branches] in Hd. apply lookup_insert_Some in Hd as [[_ <-]|[Hq [Hq' Hd]%lookup_delete_Some]]; [simpl in *; lia|].
    pose proof (inv_wf _ Hi _ _ Hd) as (_ & _ & ? & _). destruct (inv_apart _ Hi _ _ _ _ Hd Hc ltac:(congruence)); unfold below in *; lia.
Qed.

End Merge.

(** ** Whole ranges *)

Section Whole.

Context {E : Type} `{BranchLaws E}.

Definition in_range (addr n a : Z) : bool := (addr <=? a) && (a <? addr + n).

(** A mapping after [mman_mprotect_unlocked]. *)
Definition rights_at (addr n am om a : Z) (m : mapping) : mapping :=
  if in_range addr n a
  then Mapping (mg_region m) (mg_off m) (Z.lor (Z.land (mg_prot m) am) om) (mg_notify m) (mg_closure m) else m.

(** No merge is attempted at [x] when mappings are [f] of what they were. *)
Definition stays_apart (self : mman) (f : Z -> mapping -> mapping) (x : Z) : Prop :=
  forall m1 m2, mapped self (uintptr (x - 1)) m1 -> mapped self x m2 -> ~ joinable (f (uintptr (x - 1)) m1) (f x m2).

Lemma hits_in_range s p b addr n a : no_straddle s addr -> no_straddle s (addr + n) -> s !! p = Some b -> branch_wf b ->
  in_branch b a -> 0 < n -> hits (leaf_of p b) addr (addr + n - 1) = in_range addr n a.
Proof.
  intros H1 H2 Hb (_ & _ & ? & _) Hin Hn. specialize (H1 p b Hb). specialize (H2 p b Hb). unfold in_branch in Hin.
  unfold hits, in_range. simpl. destruct (Z.leb_spec addr (mb_vmax b)), (Z.leb_spec (mb_vmin b) (addr + n - 1)),
    (Z.leb_spec addr a), (Z.ltb_spec a (addr + n)); try done; lia.
Qed.

Lemma reprot_map s s' addr n am om t : no_straddle s addr -> no_straddle s (addr + n) -> all_wf s -> 0 < n ->
  reprot addr (addr + n - 1) am om t s s' ->
  (forall a m', mapped_in s' a m' -> exists m, mapped_in s a m /\ (m' = m \/ m' = rights_at addr n am om a m)) /\
  (forall a m, mapped_in s a m -> exists m', mapped_in s' a m') /\
  (reprot_all addr (addr + n - 1) am om t s s' -> leaves s ⊆ t ->
   forall a m', mapped_in s' a m' <-> exists m, mapped_in s a m /\ m' = rights_at addr n am om a m).
Proof.
  intros H1 H2 Hw Hn [Hnone Hr].
  assert (Hnew : forall p b a, s !! p = Some b -> in_branch b a -> hits (leaf_of p b) addr (addr + n - 1) = true ->
    maps_at (new_prot am om b) a = rights_at addr n am om a (maps_at b a)).
  { intros p b a Hb Hin Hh. unfold rights_at. by rewrite <- (hits_in_range s p b addr n a), Hh by eauto. }
  assert (Hbk : forall p b', s' !! p = Some b' -> exists b, s !! p = Some b /\ (b' = b \/ hits (leaf_of p b) addr (addr + n - 1) = true /\ b' = new_prot am om b)).
  { intros p b' Hb'. destruct (s !! p) as [b|] eqn:Hb; [|rewrite (Hnone p Hb) in Hb'; done]. exists b. split; [done|].
    destruct (Hr p b Hb) as [?|(_ & ? & ?)]; [left|right]; [congruence|split; [done|congruence]]. }
  split; [|split].
  - intros a m' (p & b' & Hb' & Hin & ->). destruct (Hbk p b' Hb') as (b & Hb & [->|[Hh ->]]); exists (maps_at b a).
    + split; [exists p, b; done|by left].
    + split; [exists p, b; done|right]. by apply (Hnew p).
  - intros a m (p & b & Hb & Hin & ->). destruct (Hr p b Hb) as [?|(_ & _ & ?)]; eexists; eexists p, _; done.
  - intros Hall Hsub a m'. split.
    + intros (p & b' & Hb' & Hin & ->). destruct (Hbk p b' Hb') as (b & Hb & [->|[Hh ->]]); exists (maps_at b a).
      * split; [exists p, b; done|]. destruct (hits (leaf_of p b) addr (addr + n - 1)) eqn:Hh.
        -- rewrite <- (Hnew p b a Hb Hin Hh). f_equal. assert (Hin' : leaf_of p b ∈ t) by (apply Hsub, leaves_elem; eauto).
           specialize (Hall p b Hin' Hh Hb). congruence.
        -- unfold rights_at. by rewrite <- (hits_in_range s p b addr n a), Hh by eauto.
      * split; [exists p, b; done|]. by apply (Hnew p).
    + intros (m & (p & b & Hb & Hin & ->) & ->). destruct (hits (leaf_of p b) addr (addr + n - 1)) eqn:Hh.
      * exists p, (new_prot am om b). split_and!; [|done|by rewrite (Hnew p)]. apply Hall; [apply Hsub, leaves_elem; eauto|done..].
      * exists p, b. unfold rights_at. rewrite <- (hits_in_range s p b addr n a), Hh by eauto. split_and!; [|done..].
        destruct (Hr p b Hb) as [?|(_ & ? & _)]; [done|congruence].
Qed.

(** New rights keep the tree and the list. *)
Lemma reprot_inv X self (e' : E) s' lo hi am om t : mman_inv self -> reprot lo hi am om t (branches self) s' ->
  all_wf s' -> s' ##ₘ X -> env_ok e' (s' ∪ X) -> mm_ok X (MMan (m_map self) (m_order self) s') e'.
Proof.
  intros Hi [Hnone Hr] Hw Hd He. split; [|done..]. destruct Hi as [It Il Io Ii Iw]. split; cbn [m_map m_order branches]; try done.
  - rewrite Il.
    assert (Hl : forall l, l ∈ leaves (branches self) <-> l ∈ leaves s').
    { intros l. rewrite !leaves_elem. split; intros (b & Hb & El).
      - destruct (Hr _ b Hb) as [?|(_ & _ & ?)]; [eauto|]. exists (new_prot am om b). done.
      - destruct (branches self !! a_obj l) as [c|] eqn:Hc; [|rewrite (Hnone _ Hc) in Hb; done]. exists c. split; [done|].
        destruct (Hr _ c Hc) as [?|(_ & _ & ?)]; [congruence|]. assert (b = new_prot am om c) as -> by congruence. done. }
    assert (Hnd : forall s, NoDup (leaves s)).
    { intros s. unfold leaves. apply NoDup_fmap_2_strong; [|apply NoDup_map_to_list].
      intros [p b] [q c] Hp Hq Heq. injection Heq as ? ? ->. apply elem_of_map_to_list in Hp, Hq. simpl in *. congruence. }
    apply NoDup_Permutation; [apply Hnd..|exact Hl].
  - eapply ordered_frame; [|exact Io]. intros p b _ Hb. destruct (Hr p b Hb) as [?|(_ & _ & ?)]; eauto.
  - intros p [b Hb]. apply Ii. destruct (branches self !! p) eqn:Hp; [eauto|]. rewrite (Hnone _ Hp) in Hb. done.
Qed.

Lemma merge_ends_skip self addr n (e : E) : mman_inv self -> page_range addr n ->
  ~ joins_at self addr -> ~ joins_at self (uintptr (addr + n)) -> merge_ends self addr n e = Ret (self, e).
Proof.
  intros Hi (Ha & Haa & Hn & Hna & Hend) H1 H2. unfold merge_ends. rewrite merge_skip by (lia || done). cbn [obind].
  rewrite merge_skip; try done; [apply uintptr_range|]. apply page_no_error. mlia.
Qed.

Lemma space_mprotect_ok X self e addr n am om : let size := CEIL_ALIGN (2 ^ 32) n PAGESIZE in
  mm_ok X self e -> 0 < n -> page_range addr size -> (forall b, takes b -> takes (new_prot am om b)) ->
  stays_apart self (rights_at addr size am om) addr -> stays_apart self (rights_at addr size am om) (uintptr (addr + size)) ->
  exists r self' e', mman_mprotect_unlocked self addr n am om e = Ret (r, self', e') /\ mm_ok X self' e' /\
    (forall a m', mapped self' a m' -> exists m, mapped self a m /\ (m' = m \/ m' = rights_at addr size am om a m)) /\
    (forall a m, mapped self a m -> exists m', mapped self' a m') /\
    (E_ISERR r = true \/ E_ISERR r = false /\
      forall a m', mapped self' a m' <-> exists m, mapped self a m /\ m' = rights_at addr size am om a m).
Proof.
  intros size Hok Hn Hpr Htakes Hj1 Hj2. pose proof Hpr as (Ha & Haa & Hsz & Hsa & Hse). unfold mman_mprotect_unlocked. fold size.
  rewrite (proj2 (Z.eqb_neq _ _)) by lia.
  destruct (split_ends_ok X self e addr size Hok Hpr) as (r1 & self1 & e1 & -> & Hok1 & Hm1 & _ & Hr1). cbn [obind].
  destruct (E_ISERR r1) eqn:Er1.
  { exists r1, self1, e1. split_and!; try done; [| |by left]; intros a m Hm; exists m; apply Hm1 in Hm; auto. }
  destruct Hr1 as [?|(_ & Hs1 & Hs2)]; [congruence|]. pose proof (mm_inv _ _ _ Hok1) as Hi1.
  destruct (nonnull (m_map self1)) eqn:Hnn; cbn [negb].
  2:{ assert (Hempty : forall a m, ~ mapped self1 a m) by (intros a m (p & b & Hb & _); by rewrite (no_branches _ Hi1 Hnn) in Hb).
      exists 0, self1, e1. split_and!; try done; [intros a m Hm; by apply Hempty in Hm|intros a m Hm%Hm1; by apply Hempty in Hm|right].
      split; [done|]. intros a m'. split; [intros Hm; by apply Hempty in Hm|intros (m & Hm%Hm1 & _); by apply Hempty in Hm]. }
  rewrite uintptr_id by lia. assert (Hhi : uintptr (addr + size - 1 + 1) mod 4096 = 0) by (apply page_no_error; mlia).
  destruct (mprotect_impl_ok X addr (addr + size - 1) am om Haa Hhi ltac:(lia) Htakes (m_map self1) (branches self1) e1 _ _
    (semi_ok_root 32 eq_refl) (inv_tree _ Hi1) Hnn) as (r & s' & e' & -> & Hw & Hd & He & HR & Hr).
  { split_and!; [|apply Hi1|apply Hok1|apply Hok1]. intros l Hl. destruct (inv_leaf _ _ Hi1 Hl) as (b & ? & ? & _). eauto. }
  cbn [obind]. pose proof (reprot_inv X self1 e' s' _ _ _ _ _ Hi1 HR Hw Hd He) as Hok'.
  destruct (reprot_map (branches self1) s' addr size am om _ Hs1 Hs2 (inv_wf _ Hi1) Hsz HR) as (M1 & M2 & M3).
  destruct (E_ISERR r) eqn:Er.
  { eexists r, _, e'. split; [done|]. split; [done|]. cbn [branches]. split_and!; [| |by left].
    - intros a m' Hm. destruct (M1 a m' Hm) as (m & Hm' & Hor). exists m. split; [by apply Hm1|done].
    - intros a m Hm%Hm1. by apply M2 in Hm. }
  destruct Hr as [?|[_ Hall]]; [congruence|].
  assert (Hiff : forall a m', mapped_in s' a m' <-> exists m, mapped self a m /\ m' = rights_at addr size am om a m).
  { intros a m'. rewrite M3; [|done|intros l Hl; by rewrite (inv_leaves _ Hi1)]. split; intros (m & Hm & ->); exists m; (split; [by apply Hm1|done]). }
  assert (Hapart : forall x, stays_apart self (rights_at addr size am om) x -> ~ joins_at (MMan (m_map self1) (m_order self1) s') x).
  { intros x Hx (m1 & m2 & Hx1%Hiff & Hx2%Hiff & Hj). destruct Hx1 as (m1' & Hx1 & ->), Hx2 as (m2' & Hx2 & ->). by apply (Hx m1' m2'). }
  rewrite merge_ends_skip; [|apply Hok'|done|by apply Hapart..]. cbn [obind].
  eexists r, _, e'. split; [done|]. split; [done|]. cbn [branches]. split_and!; [| |by right].
  - intros a m' (m & Hm & ->)%Hiff. eauto.
  - intros a m Hm%Hm1. by apply M2 in Hm.
Qed.

(** The reference of a branch that is not mapped after all: it is dropped, unless that fails. *)
Definition undone (X : gmap Z mbranch) (self : mman) (e' : E) : Prop :=
  mman_inv self /\ (mm_ok X self e' \/ exists rg st n e1 B r e2, env_ok e1 B /\ mregion_decref rg st n e1 = Ret (r, e2) /\ E_ISERR r = true).

Lemma mmap_undo_ok X self (e : E) p b notified : mm_ok (<[p := b]> X) self e -> X !! p = None -> branch_wf b ->
  exists e', mmap_undo p b notified e = Ret e' /\ undone X self e'.
Proof.
  intros [Hi He Hd] HX Hw. unfold mmap_undo.
  assert (Hp : branches self !! p = None) by (eapply map_disjoint_Some_r; [exact Hd|apply lookup_insert_eq]).
  set (e0 := if notified then MBRANCH_DECREF b e else e).
  assert (He0 : env_ok e0 (branches self ∪ <[p := b]> X)) by (unfold e0; destruct notified; [by apply DECREF_ok|done]).
  rewrite branch_size by done.
  destruct (decref_ok e0 _ b p false He0) as (r & e1 & Er & He1); [|done|].
  { apply lookup_union_Some_r; [done|apply lookup_insert_eq]. }
  cbv iota in Er. rewrite Er. cbn [obind]. eexists. split; [done|]. split; [done|]. destruct (E_ISERR r) eqn:Err; [right|left].
  - eexists _, _, _, _, _, _, _. eauto.
  - rewrite delete_union, delete_insert_id, (delete_id (branches self)) in He1 by done. split; [done| |].
    + apply kffree_ok; [done|]. by apply lookup_union_None.
    + by apply map_disjoint_insert_r in Hd as [_ ?].
Qed.

(** What [mman_mmap_unlocked] leaves of an address space when it fails. *)
Definition mmap_failed (X : gmap Z mbranch) (self self' : mman) (e' : E) (addr n : Z) : Prop :=
  undone X self' e' /\ (forall a m, mapped self' a m -> mapped self a m) /\
  (forall a m, mapped self a m -> in_range addr n a = false -> mapped self' a m).

Lemma in_range_spec addr n a : in_range addr n a = true <-> addr <= a < addr + n.
Proof. unfold in_range. rewrite andb_true_iff, Z.leb_le, Z.ltb_lt. done. Qed.

(** The end of [mman_mmap_unlocked]: nothing is mapped in the range of the new branch. *)
Lemma mmap_install X self e p b addr n : mm_ok (<[p := b]> X) self e -> X !! p = None -> branch_wf b -> page_range addr n ->
  mb_vmin b = addr -> mb_vmax b = addr + n - 1 -> addr + n < 2 ^ 32 ->
  (forall a m, in_branch b a -> ~ mapped self a m) ->
  (forall m, mapped self (uintptr (addr - 1)) m -> ~ joinable m (maps_at b addr)) ->
  (forall m, mapped self (addr + n) m -> ~ joinable (maps_at b (addr + n - 1)) m) ->
  exists r self' e',
    (let! (error, e) := mbranch_remap b false e in
     if E_ISERR error then let! e := mmap_undo p b true e in Ret (error, self, e) else
     let! self := mman_insbranch_unlocked self p b e in
     let! (self, e) := merge_ends self addr n e in Ret (error, self, e)) = Ret (r, self', e') /\
    (E_ISERR r = true /\ self' = self /\ undone X self e' \/
     E_ISERR r = false /\ mm_ok X self' e' /\ branches self' = <[p := b]> (branches self) /\ branches self !! p = None).
Proof.
  intros [Hi He Hd] HpX Hwb Hpr Emin Emax Hend Hfree Hj1 Hj2. pose proof Hpr as (Ha & Haa & Hsz & Hsa & _).
  assert (Hp : branches self !! p = None) by (eapply map_disjoint_Some_r; [exact Hd|apply lookup_insert_eq]).
  assert (HB : (branches self ∪ <[p := b]> X) !! p = Some b) by (apply lookup_union_Some_r; [done|apply lookup_insert_eq]).
  destruct (remap_ok e _ b p (mb_prot b) false He HB Hwb) as (r & e1 & Er & He1).
  { replace (set_prot (mb_prot b) b) with b by (by destruct b). by eapply env_takes. }
  replace (set_prot (mb_prot b) b) with b in Er, He1 by (by destruct b). rewrite insert_id in He1 by done.
  rewrite Er. cbn [obind]. destruct (E_ISERR r) eqn:Err.
  { destruct (mmap_undo_ok X self e1 p b true) as (e2 & -> & Hu); [by split|done..|]. cbn [obind].
    exists r, self, e2. split; [done|]. left. done. }
  destruct (insbranch_ok (<[p := b]> X) self e1 p b Hi Hd) as (self' & -> & Hbr & Hok'); [apply lookup_insert_eq|done..|].
  cbn [obind]. rewrite delete_insert_id in Hok' by done. pose proof (mm_inv _ _ _ Hok') as Hi'.
  assert (Hm : forall a m, mapped self' a m <-> in_branch b a /\ m = maps_at b a \/ mapped self a m)
    by (intros a m; rewrite Hbr; by apply mapped_insert).
  rewrite merge_ends_skip; [|done..| |].
  - cbn [obind]. exists r, self', e1. split; [done|right]. done.
  - intros (m1 & m2 & H1%Hm & H2%Hm & Hj). destruct H2 as [[_ ->]|H2]; [|by apply (Hfree addr m2); [unfold in_branch; lia|]].
    destruct H1 as [[H1 _]|H1]; [|by apply (Hj1 m1)]. unfold in_branch in H1.
    destruct (Z.eq_dec addr 0) as [->|]; [rewrite uintptr_neg in H1 by lia; lia|rewrite uintptr_id in H1 by lia; lia].
  - rewrite (uintptr_id (addr + n)) by lia. intros (m1 & m2 & H1%Hm & H2%Hm & Hj). rewrite uintptr_id in H1 by lia.
    destruct H1 as [[_ ->]|H1]; [|by apply (Hfree (addr + n - 1) m1); [unfold in_branch; lia|]].
    destruct H2 as [[H2 _]|H2]; [unfold in_branch in H2; lia|]. by apply (Hj2 m2).
Qed.

Lemma space_mmap_ok X self e addr n start region prot ntf cl : let size := CEIL_ALIGN (2 ^ 32) n PAGESIZE in
  let b := MBranch addr (addr + size - 1) prot start region ntf cl in
  mm_ok X self e -> 0 < n -> page_range addr size -> addr + size < 2 ^ 32 ->
  0 <= start -> start mod 4096 = 0 -> start + size < 2 ^ 32 -> start + size <= mr_size e region -> takes b ->
  (forall m, mapped self (uintptr (addr - 1)) m -> ~ joinable m (maps_at b addr)) ->
  (forall m, mapped self (addr + size) m -> ~ joinable (maps_at b (addr + size - 1)) m) ->
  exists r self' e', mman_mmap_unlocked self addr n start region prot ntf cl e = Ret (r, self', e') /\
    (E_ISERR r = true /\ mmap_failed X self self' e' addr size \/
     E_ISERR r = false /\ mm_ok X self' e' /\
      forall a m, mapped self' a m <-> if in_range addr size a then m = maps_at b a else mapped self a m).
Proof.
  intros size b Hok Hn Hpr Hend Hst0 Hsta Hst1 Hst2 Htk Hj1 Hj2. pose proof Hpr as (Ha & Haa & Hsz & Hsa & _).
  pose proof Hok as [Hi He Hd].
  assert (Hwb : branch_wf b) by (unfold b, branch_wf; cbn; split_and!; try lia; mlia).
  assert (Hsame : forall e', mm_ok X self e' -> mmap_failed X self self e' addr size).
  { intros e' Hok'. split; [split; [done|by left]|]. done. }
  unfold mman_mmap_unlocked. fold size. rewrite (proj2 (aligned_page _) Hsta), oassert_true.
  rewrite (proj2 (Z.eqb_neq n 0)), (proj2 (Z.eqb_neq (mr_size e region) 0)) by lia. cbn [negb]. rewrite oassert_true.
  rewrite !uintptr_id by lia. rewrite (proj2 (Z.ltb_lt _ _)), (proj2 (Z.leb_le _ _)), !oassert_true by lia. fold b.
  destruct (kmalloc_branch e) as [p e1] eqn:Em. destruct (kmalloc_ok _ _ _ _ He Em) as (He1 & Hsz1 & Hnew).
  destruct p as [p|]; [|exists (- ENOMEM), self, e1; split; [done|left]; split; [done|]; apply Hsame; by split].
  destruct (Hnew p eq_refl) as [Hp1 Hal]. pose proof Hp1 as [Hps HpX]%lookup_union_None.
  destruct (incref_ok e1 _ b p He1 Hp1 Hal Hwb Htk) as (r1 & e2 & Er1 & He2); [cbn; rewrite Hsz1; lia|].
  replace (mb_vmax b - mb_vmin b + 1) with size in Er1 by (cbn; lia). cbn in Er1. rewrite Er1. cbn [obind]. clear Er1.
  destruct (E_ISERR r1) eqn:Err1.
  { eexists _, _, _. split; [done|]. left. split; [done|]. apply Hsame. split; [done| |done]. by apply kffree_ok. }
  destruct (INCREF_ok _ b _ He2) as (r2 & e3 & -> & He3 & _). rewrite (insert_union_r _ _ _ _ Hps) in He3.
  assert (Hok3 : mm_ok (<[p := b]> X) self e3) by (split; [done..|]; by apply map_disjoint_insert_r_2).
  destruct (E_ISERR r2) eqn:Err2.
  { destruct (mmap_undo_ok X self e3 p b false Hok3 HpX Hwb) as (e4 & -> & Hu). cbn [obind].
    eexists _, _, _. split; [done|]. left. split; [done|]. split; done. }
  assert (Hcs : CEIL_ALIGN (2 ^ 32) size PAGESIZE = size) by (apply ceil_page_id; [lia|unfold PAGESIZE; mlia|done]).
  destruct (space_munmap_ok (<[p := b]> X) self e3 addr size MMAN_MUNMAP_ALL 0) as (r4 & self4 & e4 & -> & Hok4 & Hsub & Hrm & Hr4);
    rewrite ?Hcs; try done. rewrite Hcs in Hrm, Hr4. cbn [obind].
  assert (Hkeep : forall a m, mapped self a m -> in_range addr size a = false -> mapped self4 a m).
  { intros a m Hm Hr. destruct (Hrm a m Hm) as [?|[Hu _]]; [done|]. apply in_range_spec in Hu. congruence. }
  destruct (E_ISERR r4) eqn:Err4.
  { destruct (mmap_undo_ok X self4 e4 p b true Hok4 HpX Hwb) as (e5 & -> & Hu). cbn [obind].
    eexists _, _, _. split; [done|]. left. split; [done|]. split; done. }
  destruct Hr4 as [?|(_ & _ & Hclr)]; [congruence|].
  destruct (mmap_install X self4 e4 p b addr size Hok4 HpX Hwb Hpr) as (r & self' & e' & -> & Hres); try done.
  { intros a m Hin Hm. apply (Hclr a m Hm). split; [|done]. unfold in_branch, b in Hin. simpl in Hin. lia. }
  { intros m Hm. apply Hj1. by apply Hsub. }
  { intros m Hm. apply Hj2. by apply Hsub. }
  exists r, self', e'. split; [done|]. destruct Hres as [(? & -> & Hu)|(? & Hok' & Hbr & Hp4)]; [left|right].
  - split; [done|]. split; done.
  - split; [done|]. split; [done|]. intros a m. rewrite Hbr, mapped_insert by done. unfold in_branch. cbn [mb_vmin mb_vmax].
    destruct (in_range addr size a) eqn:Hr.
    + apply in_range_spec in Hr. split; [intros [[_ ?]|Hm]|intros ->; left; split; [|done]]; [done| |unfold b; simpl; lia].
      exfalso. by apply (Hclr a m Hm).
    + split; [intros [[Hin _]|Hm]|intros Hm; right; by apply Hkeep]; [|by apply Hsub].
      exfalso. apply not_true_iff_false in Hr. apply Hr, in_range_spec. unfold b in Hin. simpl in Hin. lia.
Qed.

End Whole.
