(* ===== verification/MmanTheorems.v ===== *)
(** * Address spaces: results

    What mapping, unmapping, protecting, splitting, merging and searching do to an address space,
    for every environment that keeps the promises of [BranchLaws], and a small environment that
    does: regions that count their references. *)
From stdpp Require Import base numbers list gmap.
From S2P Require Import Prelude Align ATree Mman MmanSpec MmanFind MmanSpace MmanOps MmanUnmap MmanMap.

(** ** Regions that count references *)

Module Counted.

(** Size and reference counter of every region, and the next address kmalloc() returns. *)
Record world : Type := World { regions : gmap Z (Z * Z); next : Z }.

Definition add_refs (r k : Z) (e : world) : world := World (alter (prod_map id (Z.add k)) r (regions e)) (next e).

Definition drop (r : Z) (e : world) : outcome (Z * world) :=
  match regions e !! r with
  | Some (_, c) => assert! 0 <? c;; Ret (0, if c =? 1 then World (delete r (regions e)) (next e) else add_refs r (-1) e)
  | None => Abort
  end.

#[export] Instance ops : BranchOps world := {
  mr_size e r := from_option fst 0 (regions e !! r);
  mr_type _ _ := 0;
  kmalloc_branch e := (Some (next e), World (regions e) (next e + 1));
  kffree_branch _ e := e;
  MREGION_INCREF r e := add_refs r 1 e;
  region_decfetch r e := match regions e !! r with
                         | Some (_, c) => assert! 2 <=? c;; Ret (add_refs r (-1) e)
                         | None => Abort
                         end;
  mregion_incref r _ _ e := Ret (0, add_refs r 1 e);
  mregion_decref r _ _ e := drop r e;
  mregion_decref_clr r _ _ e := drop r e;
  mbranch_remap _ _ e := Ret (0, e);
  mbranch_unmap _ e := Ret (0, e);
  notify _ _ _ _ _ e := (0, e)
}.

(** The references branches hold to a region. *)
Definition refs (B : gmap Z mbranch) (r : Z) : Z := tally (fun b => if mb_region b =? r then 1 else 0) B.

Lemma refs_delete B p b r : B !! p = Some b -> refs B r = (if mb_region b =? r then 1 else 0) + refs (delete p B) r.
Proof. apply tally_delete. Qed.

Lemma refs_insert B p b r : B !! p = None -> refs (<[p := b]> B) r = (if mb_region b =? r then 1 else 0) + refs B r.
Proof. apply tally_insert. Qed.

Lemma refs_change B p b b' r : B !! p = Some b -> mb_region b' = mb_region b -> refs (<[p := b']> B) r = refs B r.
Proof. intros Hp Hr. unfold refs. rewrite (tally_change _ _ _ b) by done. rewrite Hr. lia. Qed.

Lemma refs_nonneg B r : 0 <= refs B r.
Proof. apply tally_nonneg. intros b. by destruct (mb_region b =? r). Qed.

Lemma refs_pos B p b : B !! p = Some b -> 1 <= refs B (mb_region b).
Proof. intros Hp. rewrite (refs_delete _ _ _ _ Hp), Z.eqb_refl. pose proof (refs_nonneg (delete p B) (mb_region b)). lia. Qed.

(** The region of a branch exists, is large enough, and has a reference for every branch. *)
Record world_ok (e : world) (B : gmap Z mbranch) : Prop := {
  ok_next p : next e <= p -> B !! p = None;
  ok_fits p b : B !! p = Some b -> exists n c, regions e !! mb_region b = Some (n, c) /\ mb_start b + (mb_vmax b - mb_vmin b + 1) <= n;
  ok_refs r n c : regions e !! r = Some (n, c) -> refs B r <= c
}.

Lemma add_refs_Some r k e q n c : regions (add_refs r k e) !! q = Some (n, c) <->
  exists c', regions e !! q = Some (n, c') /\ c = (if q =? r then k else 0) + c'.
Proof.
  unfold add_refs. cbn [regions]. destruct (Z.eqb_spec q r) as [->|Hne].
  - rewrite lookup_alter_eq. destruct (regions e !! r) as [[n' c']|]; simpl; split; [intros [= <- <-]|intros (? & [= <- <-] & ->)|done|intros (? & ? & _)]; eauto; done.
  - rewrite lookup_alter_ne by congruence. split; [intros ->; eauto|]. intros (? & -> & ->). done.
Qed.

Definition fits_in (e : world) (b : mbranch) : Prop :=
  exists n c, regions e !! mb_region b = Some (n, c) /\ mb_start b + (mb_vmax b - mb_vmin b + 1) <= n.

(** Other branches and as many more references. *)
Lemma ok_change e B B' r k : world_ok e B -> (forall p, next e <= p -> B' !! p = None) ->
  (forall p b, B' !! p = Some b -> fits_in e b) -> (forall q, refs B' q <= (if q =? r then k else 0) + refs B q) ->
  world_ok (add_refs r k e) B'.
Proof.
  intros [Hn Hf Hr] Hn' Hf' Hr'. split; [done| |].
  - intros p b Hb. destruct (Hf' p b Hb) as (n & c & Hreg & Hle). eexists n, _. split; [|done]. apply add_refs_Some. eauto.
  - intros q n c (c' & Hc' & ->)%add_refs_Some. specialize (Hr' q). specialize (Hr _ _ _ Hc'). lia.
Qed.

Lemma ok_below e B p b : world_ok e B -> B !! p = Some b -> p < next e.
Proof. intros Hok Hb. destruct (Z.lt_ge_cases p (next e)) as [|Hge]; [done|]. rewrite (ok_next _ _ Hok p Hge) in Hb. done. Qed.

Lemma drop_ok e B p b : world_ok e B -> B !! p = Some b -> exists e', drop (mb_region b) e = Ret (0, e') /\ world_ok e' (delete p B).
Proof.
  intros Hok Hb. destruct (ok_fits _ _ Hok p b Hb) as (n & c & Hreg & Hle). unfold drop. rewrite Hreg.
  pose proof (ok_refs _ _ Hok _ _ _ Hreg) as Hc. pose proof (refs_pos _ _ _ Hb) as Hp.
  rewrite (proj2 (Z.ltb_lt 0 c)), oassert_true by lia. eexists. split; [done|].
  assert (Hdel : forall q d, delete p B !! q = Some d -> fits_in e d) by (intros q d [_ Hd]%lookup_delete_Some; by eapply ok_fits).
  assert (Hkey : forall q, next e <= q -> delete p B !! q = None).
  { intros q Hq. apply lookup_delete_None. right. by apply (ok_next _ _ Hok). }
  destruct (Z.eqb_spec c 1) as [->|Hne]; [|apply (ok_change e B); try done].
  2:{ intros q. rewrite (refs_delete B p b q Hb), (Z.eqb_sym q). destruct (_ =? q); lia. }
  assert (Hz : refs (delete p B) (mb_region b) = 0).
  { rewrite (refs_delete _ _ _ _ Hb), Z.eqb_refl in Hc. pose proof (refs_nonneg (delete p B) (mb_region b)). lia. }
  split; cbn [regions next]; [done| |].
  - intros q d Hd. destruct (Hdel q d Hd) as (n' & c' & Hreg' & Hle'). exists n', c'. split; [|done].
    rewrite lookup_delete_ne; [done|]. intros Heq. pose proof (refs_pos _ _ _ Hd). rewrite <- Heq, Hz in *. lia.
  - intros q n' c' [Hq Hreg']%lookup_delete_Some. pose proof (ok_refs _ _ Hok _ _ _ Hreg') as Hr.
    rewrite (refs_delete B p b q Hb), (proj2 (Z.eqb_neq _ _) Hq) in Hr. done.
Qed.

(** A branch that is cut or extended. *)
Lemma fits_split e b start : branch_wf b -> mb_vmin b < start <= mb_vmax b -> fits_in e b ->
  fits_in e (hi_of start b) /\ fits_in e (set_vmax (start - 1) b).
Proof.
  intros (_ & _ & ? & ? & ? & _ & ?) Hs (n & c & Hreg & Hle). unfold fits_in. cbn. rewrite uintptr_id by lia.
  split; exists n, c; (split; [done|lia]).
Qed.

Lemma counted_split e B lo hi b start : world_ok e B -> B !! lo = Some b -> B !! hi = None -> hi < next e -> branch_wf b ->
  mb_vmin b < start <= mb_vmax b ->
  world_ok (add_refs (mb_region b) 1 e) (<[hi := hi_of start b]> (<[lo := set_vmax (start - 1) b]> B)).
Proof.
  intros Hok Hb Hh Hnx Hw Hs. pose proof (ok_below _ _ _ _ Hok Hb) as Hlo. assert (Hne : lo <> hi) by congruence.
  destruct (fits_split e b start Hw Hs (ok_fits _ _ Hok _ _ Hb)) as [Hfh Hfl]. apply (ok_change e B); [done|..].
  - intros p Hp. rewrite !lookup_insert_ne by lia. by apply (ok_next _ _ Hok).
  - intros p d [[_ <-]|[_ [[_ <-]|[_ Hd]]%lookup_insert_Some]]%lookup_insert_Some; [done..|by eapply ok_fits].
  - intros q. rewrite refs_insert, (refs_change B lo b) by (rewrite ?lookup_insert_ne; done). simpl. rewrite (Z.eqb_sym q). lia.
Qed.

Lemma counted_merge e B lo hi b h : world_ok e B -> B !! lo = Some b -> B !! hi = Some h -> lo <> hi -> branch_wf b -> branch_wf h ->
  h = hi_of (mb_vmin h) (set_vmax (mb_vmax h) b) -> mb_vmin h = mb_vmax b + 1 ->
  exists e', region_decfetch (mb_region b) e = Ret e' /\ world_ok e' (<[lo := set_vmax (mb_vmax h) b]> (delete hi B)).
Proof.
  intros Hok Hb Hh Hne (_ & _ & ? & ? & ? & _ & ?) _ Eh Hadj.
  assert (Hst : mb_start h = mb_start b + (mb_vmin h - mb_vmin b)) by (rewrite Eh at 1; simpl; apply uintptr_id; lia).
  assert (Hreg : mb_region h = mb_region b) by (by rewrite Eh).
  destruct (ok_fits _ _ Hok _ _ Hh) as (n & c & Hr & Hle). rewrite Hreg in Hr. simpl. rewrite Hr.
  assert (Hb' : delete hi B !! lo = Some b) by (by rewrite lookup_delete_ne).
  assert (Hc : 2 <= c).
  { pose proof (ok_refs _ _ Hok _ _ _ Hr) as Hc. rewrite (refs_delete _ _ _ _ Hh), Hreg, Z.eqb_refl in Hc. pose proof (refs_pos _ _ _ Hb'). lia. }
  rewrite (proj2 (Z.leb_le 2 c) Hc), oassert_true. eexists. split; [done|].
  apply (ok_change e B); [done|..].
  - intros p Hp. pose proof (ok_below _ _ _ _ Hok Hb). rewrite lookup_insert_ne by lia. apply lookup_delete_None. right. by apply (ok_next _ _ Hok).
  - intros p d [[_ <-]|[_ [_ Hd]%lookup_delete_Some]]%lookup_insert_Some; [|by eapply ok_fits]. exists n, c. simpl. split; [done|lia].
  - intros q. rewrite (refs_change _ _ b) by done. rewrite (refs_delete B hi h q Hh), Hreg, (Z.eqb_sym q). destruct (_ =? q); lia.
Qed.

#[export, refine] Instance laws : BranchLaws world := {
  env_ok := world_ok;
  allocated e p := p < next e;
  takes _ := True
}.
Proof.
  - done.
  - intros e B p b Hok Hb. destruct (ok_fits _ _ Hok p b Hb) as (n & c & Hr & ?). simpl. by rewrite Hr.
  - intros e B r e' [Hn Hf Hr] [= <- <-]. split; [split; cbn [regions next]|split]; [|done..|].
    + intros p Hp. apply Hn. lia.
    + intros p [= <-]. cbn [next]. split; [by apply Hn|lia].
  - done.
  - done.
  - done.
  - intros e B lo hi b start Hok Hb Hh Hal Hw Hs. by apply counted_split.
  - intros e B lo hi b h Hok Hb Hh Hne Hw Hw' Eh Hv. by eapply counted_merge.
  - intros e B b p Hok Hp Hal Hw _ Hle. exists 0. eexists. split; [done|]. simpl in Hle |- *. apply (ok_change e B); [done|..].
    + intros q Hq. rewrite lookup_insert_ne by lia. by apply (ok_next _ _ Hok).
    + intros q d [[_ <-]|[_ Hd]]%lookup_insert_Some; [|by eapply ok_fits].
      destruct Hw as (_ & _ & ? & _ & ? & _). unfold fits_in. destruct (regions e !! mb_region b) as [[n c]|]; simpl in Hle; [eauto|lia].
    + intros q. rewrite refs_insert by done. rewrite (Z.eqb_sym q). lia.
  - intros e B b p clr Hok Hb Hw. destruct (drop_ok e B p b Hok Hb) as (e' & He' & Hok').
    exists 0, e'. split; [by destruct clr|done].
  - intros e B b p pr u Hok Hb Hw _. exists 0, e. split; [done|]. pose proof (ok_below _ _ _ _ Hok Hb). destruct Hok as [Hn Hf Hr]. split.
    + intros q Hq. rewrite lookup_insert_ne by lia. by apply Hn.
    + intros q d [[_ <-]|[_ Hd]]%lookup_insert_Some; [by apply (Hf p b)|by eapply Hf].
    + intros r n c Hc. rewrite (refs_change _ _ b) by done. by eapply Hr.
  - intros e B b p Hok Hb Hw. exists 0, e. done.
Defined.

End Counted.
Import Counted.

(** ** Changing the map *)

Section Results.

Context {E : Type} `{BranchLaws E}.
Variables (X : gmap Z mbranch) (self : mman) (e : E).
Hypothesis Hok : mm_ok X self e.

(** C11: [mman_mmap_unlocked] of whole pages of the address space (not up to its very end) and of a
    region that is large enough, where what is mapped next to the range does not continue it (same
    rights, notification and closure and the next offset; [merge_mixes_regions] and
    [merge_below_fails] show what merging does otherwise): the call returns.  On success exactly the
    range is mapped to the region from [start] on, with the rights given, and all other addresses
    are mapped as before.  On failure nothing is mapped that was not, and nothing outside the range
    is lost; the references are in order unless giving one back has failed as well. *)
Theorem mman_mmap_correct addr n start region prot ntf cl : let size := CEIL_ALIGN (2 ^ 32) n PAGESIZE in
  let b := MBranch addr (addr + size - 1) prot start region ntf cl in
  0 < n -> page_range addr size -> addr + size < 2 ^ 32 ->
  0 <= start -> start mod 4096 = 0 -> start + size < 2 ^ 32 -> start + size <= mr_size e region -> takes b ->
  (forall m, mapped self (uintptr (addr - 1)) m -> ~ joinable m (maps_at b addr)) ->
  (forall m, mapped self (addr + size) m -> ~ joinable (maps_at b (addr + size - 1)) m) ->
  exists r self' e', mman_mmap_unlocked self addr n start region prot ntf cl e = Ret (r, self', e') /\
    (E_ISERR r = true /\ mmap_failed X self self' e' addr size \/
     E_ISERR r = false /\ mm_ok X self' e' /\
      forall a m, mapped self' a m <-> if in_range addr size a then m = maps_at b a else mapped self a m).
Proof. intros size b. by apply space_mmap_ok. Qed.

(** C12: [mman_munmap_unlocked] returns and keeps the address space well formed.  It never
    maps anything and only unmaps addresses of the range, only those with the tag when one is
    asked for; on success all of them, and the result is the number of bytes unmapped. *)
Theorem mman_munmap_correct addr n mode tag : let size := CEIL_ALIGN (2 ^ 32) n PAGESIZE in
  0 < n -> addr + n < 2 ^ 32 -> page_range addr size ->
  exists r self' e', mman_munmap_unlocked self addr n mode tag e = Ret (r, self', e') /\ mm_ok X self' e' /\
    (forall a m, mapped self' a m -> mapped self a m) /\
    (forall a m, mapped self a m -> mapped self' a m \/ unmaps addr size mode tag a m) /\
    (E_ISERR r = true \/ E_ISERR r = false /\ r = uintptr (total (branches self) - total (branches self')) /\
      forall a m, mapped self' a m -> ~ unmaps addr size mode tag a m).
Proof. intros size. by apply space_munmap_ok. Qed.

(** C20: [mman_mprotect_unlocked] of whole pages returns, where the new rights do not make the
    mappings at either end of the range continue those next to them (the code would merge them, see
    [merge_mixes_regions] and [merge_below_fails]).  Every address stays mapped to the same byte.
    On success exactly the addresses of the range have the new rights; on failure each of them has
    the old or the new ones. *)
Theorem mman_mprotect_correct addr n am om : let size := CEIL_ALIGN (2 ^ 32) n PAGESIZE in
  0 < n -> page_range addr size -> (forall b, takes b -> takes (new_prot am om b)) ->
  stays_apart self (rights_at addr size am om) addr -> stays_apart self (rights_at addr size am om) (uintptr (addr + size)) ->
  exists r self' e', mman_mprotect_unlocked self addr n am om e = Ret (r, self', e') /\ mm_ok X self' e' /\
    (forall a m', mapped self' a m' -> exists m, mapped self a m /\ (m' = m \/ m' = rights_at addr size am om a m)) /\
    (forall a m, mapped self a m -> exists m', mapped self' a m') /\
    (E_ISERR r = true \/ E_ISERR r = false /\
      forall a m', mapped self' a m' <-> exists m, mapped self a m /\ m' = rights_at addr size am om a m).
Proof. intros size. by apply space_mprotect_ok. Qed.

(** [mman_split_branch_unlocked] does not change what is mapped.  Unless it fails, and then
    nothing has happened, no branch goes across the address afterwards. *)
Theorem mman_split_correct start : 0 <= start < 2 ^ 32 -> start mod 4096 = 0 ->
  exists r self' e', mman_split_branch_unlocked self start e = Ret (r, self', e') /\ mm_ok X self' e' /\
    (forall a m, mapped self' a m <-> mapped self a m) /\ finer (branches self') (branches self) /\
    total (branches self') = total (branches self) /\
    (E_ISERR r = true /\ self' = self \/ r = 0 /\ no_straddle (branches self') start).
Proof. by apply split_ok. Qed.

(** C31: [mman_merge_branch_unlocked] does not change what is mapped either, where branches that
    match are of the same region and the upper one is not above the lower one in the tree.
    Branches that continue each other are one afterwards. *)
Theorem mman_merge_correct x : 0 < x < 2 ^ 32 -> x mod 4096 = 0 -> not_above self x ->
  (forall m1 m2, mapped self (x - 1) m1 -> mapped self x m2 -> joinable m1 m2 -> mg_region m1 = mg_region m2) ->
  exists self' e', mman_merge_branch_unlocked self x e = Ret (false, self', e') /\ mm_ok X self' e' /\
    (forall a m, mapped self' a m <-> mapped self a m) /\ (joins_at self x -> ~ boundary self' x).
Proof. by apply space_merge_ok. Qed.

End Results.

(** ** Asking *)

(** C34: For ranges that are not empty and end below the last address, [mman_valid_unlocked] is true
    exactly if every address is mapped with the given rights, and [mman_inuse_unlocked] exactly if
    some address is mapped; no assertion fails. *)
Theorem mman_queries_correct self start n mask prot : mman_inv self -> 0 <= start -> 0 < n -> start + n < 2 ^ 32 ->
  (exists r, mman_valid_unlocked self start n mask prot = Ret r /\
    (r = true <-> valid_range (branches self) start (start + n - 1) mask prot)) /\
  exists r, mman_inuse_unlocked self start n = Ret r /\ (r = true <-> exists a m, start <= a < start + n /\ mapped self a m).
Proof.
  intros Hi Hs Hn Hle. split; [|apply inuse_ok; (done || lia)].
  destruct (valid_ok self start n mask prot Hi) as (r & Hr & Hiff); [lia..|]. exists r. split; [done|]. rewrite Hiff. intuition.
Qed.


(** ** Examples *)

Definition empty_space : mman := MMan ATREE_NULL [] ∅.
Definition two_regions : world := World (<[1 := (0x100000, 1)]> (<[2 := (0x100000, 1)]> ∅)) 0x1000.

Definition then_mmap (o : outcome (Z * mman * world)) (addr n start region : Z) : outcome (Z * mman * world) :=
  let! (_, self, e) := o in mman_mmap_unlocked self addr n start region 3 0 0 e.

(** Mapping page 1 of region 2 behind page 0 of region 1 maps page 1 of region 1: the branches
    are merged, because the code compares the region of the lower branch with itself. *)
Theorem merge_mixes_regions :
  exists self e, then_mmap (mman_mmap_unlocked empty_space 0x10000 0x1000 0 1 3 0 0 two_regions) 0x11000 0x1000 0x1000 2 =
      Ret (0, self, e) /\
    mapped self 0x11000 (Mapping 1 0x1000 3 0 0) /\ regions e !! 1 = Some (0x100000, 1) /\ regions e !! 2 = Some (0x100000, 2).
Proof.
  eexists _, _. split; [vm_compute; reflexivity|]. split; [|done].
  eexists 0x1000, (MBranch 0x10000 0x11fff 3 0 1 0 0). split; [reflexivity|]. split; [split; cbn; lia|done].
Qed.

(** Mapping the page below a mapping that it continues: the branch above is the root of the tree,
    the slot located for the lower one is inside it, and the tree is corrupted. *)
Theorem merge_below_fails :
  then_mmap (mman_mmap_unlocked empty_space 0x80000000 0x1000 0x1000 1 3 0 0 two_regions) 0x7ffff000 0x1000 0 1 = Abort.
Proof. vm_compute. reflexivity. Qed.

(** Two branches with a gap of a page between them. *)
Definition gap_space : outcome (Z * mman * world) :=
  then_mmap (mman_mmap_unlocked empty_space 0x10000 0x1000 0 1 3 0 0 two_regions) 0x12000 0x4000 0x1000 2.

(** Searching upwards with an alignment, or with padding, the code takes a candidate behind the
    next branch for one with much space before it: what it returns is in use. *)
Theorem findspace_in_use :
  exists self e, gap_space = Ret (0, self, e) /\
    mman_findspace_unlocked 4 e self 0x10000 0x1000 0x4000 0 MMAN_FINDSPACE_ABOVE = Ret 0x14000 /\
    mman_findspace_unlocked 4 e self 0x10000 0x1000 0x1000 0x2000 MMAN_FINDSPACE_FORCEGAP = Ret 0x13000 /\
    mman_inuse_unlocked self 0x14000 0x1000 = Ret true /\ mman_inuse_unlocked self 0x13000 0x1000 = Ret true.
Proof. eexists _, _. split; [vm_compute; reflexivity|]. split_and!; vm_compute; reflexivity. Qed.

Definition kernel_space : mman :=
  MMan (Node (Leaf 0xc0100000 0xc01fffff 1) ATREE_NULL ATREE_NULL) [1] {[1 := MBranch 0xc0100000 0xc01fffff 3 0 1 0 0]}.
Definition PRIVATE_BELOW_TRYHARD : Z := 0xc001.

Lemma hint_flips f : findspace_again two_regions kernel_space 0xd0000000 0x1000 (S (S f)) 0x30000000 0 PRIVATE_BELOW_TRYHARD =
  findspace_again two_regions kernel_space 0xd0000000 0x1000 f 0x30000000 0 PRIVATE_BELOW_TRYHARD.
Proof.
  cbn [findspace_again]. generalize (findspace_again two_regions kernel_space 0xd0000000 0x1000 f). intros again.
  vm_compute. reflexivity.
Qed.

(** Searching downwards for more than the user part of the address space, the hint to start over
    with is in the host part, overflows, is moved to the user part, and so on: no number of
    attempts is enough. *)
Theorem findspace_loops fuel :
  mman_findspace_unlocked fuel two_regions kernel_space 0x30000000 0xd0000000 0x1000 0 PRIVATE_BELOW_TRYHARD = Abort.
Proof.
  change (findspace_again two_regions kernel_space 0xd0000000 0x1000 fuel 0x30000000 0 PRIVATE_BELOW_TRYHARD = Abort).
  induction fuel as [fuel IH] using lt_wf_ind. destruct fuel as [|[|f]]; [done|vm_compute; reflexivity|].
  rewrite hint_flips. apply IH. lia.
Qed.

(** ** The hypotheses can hold *)

Ltac range := unfold page_range; split_and!; vm_compute; done.

Lemma empty_ok : mm_ok ∅ empty_space two_regions.
Proof.
  split; [split|..]; cbn [m_map m_order branches empty_space]; try done.
  - by intros p [b ?].
  - split; cbn [regions next two_regions]; [done..|]. intros r n c Hr.
    apply lookup_insert_Some in Hr as [[_ [= <- <-]]|[_ Hr]]; [done|]. by apply lookup_singleton_Some in Hr as [_ [= <- <-]].
Qed.

Lemma empty_maps a m : ~ mapped empty_space a m.
Proof. by intros (p & b & Hb & _). Qed.

Lemma mman_mmap_correct_witness : exists r self' e',
  mman_mmap_unlocked empty_space 0x10000 0x2000 0 1 3 0 0 two_regions = Ret (r, self', e') /\
  (E_ISERR r = true /\ mmap_failed ∅ empty_space self' e' 0x10000 0x2000 \/
   E_ISERR r = false /\ mm_ok ∅ self' e' /\
   forall a m, mapped self' a m <-> if in_range 0x10000 0x2000 a then m = maps_at (MBranch 0x10000 0x11fff 3 0 1 0 0) a else mapped empty_space a m).
Proof.
  apply (mman_mmap_correct ∅ empty_space two_regions empty_ok 0x10000 0x2000 0 1 3 0 0);
    [done|by range|done|done|done|done|done|done|by intros m Hm%empty_maps..].
Defined.

(** The space with two pages mapped. *)
Definition mapped_space : mman :=
  MMan (Node (Leaf 0x10000 0x11fff 0x1000) ATREE_NULL ATREE_NULL) [0x1000] {[0x1000 := MBranch 0x10000 0x11fff 3 0 1 0 0]}.
Definition mapped_world : world := World (<[1 := (0x100000, 2)]> (<[2 := (0x100000, 1)]> ∅)) 0x1001.

Lemma mapped_run : mman_mmap_unlocked empty_space 0x10000 0x2000 0 1 3 0 0 two_regions = Ret (0, mapped_space, mapped_world).
Proof. vm_compute. reflexivity. Qed.

Lemma mapped_ok : mm_ok ∅ mapped_space mapped_world.
Proof.
  destruct (space_mmap_ok ∅ empty_space two_regions 0x10000 0x2000 0 1 3 0 0 empty_ok) as (r & s & w & Hrun & Hor);
    [done|by range|done|done|done|done|done|done|by intros m Hm%empty_maps..|].
  rewrite mapped_run in Hrun. injection Hrun as <- <- <-. by destruct Hor as [[? _]|(_ & ? & _)].
Qed.

Lemma mapped_at a m : mapped mapped_space a m <-> 0x10000 <= a <= 0x11fff /\ m = Mapping 1 (a - 0x10000) 3 0 0.
Proof.
  split.
  - intros (p & b & Hb & Hin & ->). unfold mapped_space in Hb. cbn [branches] in Hb. apply lookup_singleton_Some in Hb as [_ <-]. split; [exact Hin|]. unfold maps_at. cbn. f_equal; lia.
  - intros [Hin ->]. exists 0x1000, (MBranch 0x10000 0x11fff 3 0 1 0 0). split; [done|]. split; [exact Hin|]. unfold maps_at. cbn. f_equal; lia.
Qed.

Lemma mman_munmap_correct_witness : exists r self' e',
  mman_munmap_unlocked mapped_space 0x11000 0x1000 0 0 mapped_world = Ret (r, self', e') /\ mm_ok ∅ self' e' /\
  (forall a m, mapped self' a m -> mapped mapped_space a m).
Proof.
  destruct (mman_munmap_correct ∅ mapped_space mapped_world mapped_ok 0x11000 0x1000 0 0) as (r & s & w & H1 & H2 & H3 & _);
    [done|done|by range|]. exact (ex_intro _ r (ex_intro _ s (ex_intro _ w (conj H1 (conj H2 H3))))).
Defined.

Lemma mman_mprotect_correct_witness : exists r self' e',
  mman_mprotect_unlocked mapped_space 0x11000 0x1000 1 0 mapped_world = Ret (r, self', e') /\ mm_ok ∅ self' e'.
Proof.
  destruct (mman_mprotect_correct ∅ mapped_space mapped_world mapped_ok 0x11000 0x1000 1 0) as (r & s & w & H1 & H2 & _);
    [done|by range|done| | |exact (ex_intro _ r (ex_intro _ s (ex_intro _ w (conj H1 H2))))].
  - intros m1 m2 [_ ->]%mapped_at [_ ->]%mapped_at (Hp & _). done.
  - intros m1 m2 _ [Hin _]%mapped_at. vm_compute in Hin. by destruct Hin.
Defined.

Lemma mman_split_correct_witness : exists r self' e',
  mman_split_branch_unlocked mapped_space 0x11000 mapped_world = Ret (r, self', e') /\ mm_ok ∅ self' e'.
Proof.
  destruct (mman_split_correct ∅ mapped_space mapped_world mapped_ok 0x11000) as (r & s & w & H1 & H2 & _); [lia|done|]. exact (ex_intro _ r (ex_intro _ s (ex_intro _ w (conj H1 H2)))).
Defined.

Lemma mman_queries_correct_witness : exists r, mman_inuse_unlocked mapped_space 0x11000 0x4000 = Ret r /\
  (r = true <-> exists a m, 0x11000 <= a < 0x11000 + 0x4000 /\ mapped mapped_space a m).
Proof. apply (mman_queries_correct mapped_space 0x11000 0x4000 3 3 (mm_inv _ _ _ mapped_ok)); lia. Defined.


(** The same pages in two branches. *)
Definition split_space : mman :=
  MMan (Node (Leaf 0x10000 0x10fff 0x1000) (Node (Leaf 0x11000 0x11fff 0x1001) ATREE_NULL ATREE_NULL) ATREE_NULL) [0x1000; 0x1001]
    (<[0x1001 := MBranch 0x11000 0x11fff 3 0x1000 1 0 0]> {[0x1000 := MBranch 0x10000 0x10fff 3 0 1 0 0]}).
Definition split_world : world := World (<[1 := (0x100000, 3)]> (<[2 := (0x100000, 1)]> ∅)) 0x1002.

Lemma split_run : mman_split_branch_unlocked mapped_space 0x11000 mapped_world = Ret (0, split_space, split_world).
Proof. vm_compute. reflexivity. Qed.

Lemma split_space_ok : mm_ok ∅ split_space split_world.
Proof.
  destruct (split_ok ∅ mapped_space mapped_world 0x11000 mapped_ok) as (r & s & w & Hrun & Hs & _); [lia|done|].
  rewrite split_run in Hrun. by injection Hrun as <- <- <-.
Qed.

Lemma mman_merge_correct_witness : exists self' e',
  mman_merge_branch_unlocked split_space 0x11000 split_world = Ret (false, self', e') /\ mm_ok ∅ self' e'.
Proof.
  destruct (mman_merge_correct ∅ split_space split_world split_space_ok 0x11000) as (s & w & H1 & H2 & _); [lia|done| | |exact (ex_intro _ s (ex_intro _ w (conj H1 H2)))].
  - intros plo phi s1 l1 s2 l2 H1 H2. vm_compute in H1, H2. injection H1 as <- _ _. injection H2 as <- _ _. intros [k Hk]. done.
  - intros m1 m2 (p & b & Hb & _ & ->) (q & c & Hc & _ & ->) _. unfold split_space in Hb, Hc. cbn [branches] in Hb, Hc.
    apply lookup_insert_Some in Hb as [[_ <-]|[_ [_ <-]%lookup_singleton_Some]];
      apply lookup_insert_Some in Hc as [[_ <-]|[_ [_ <-]%lookup_singleton_Some]]; done.
Defined.
