(* ===== verification/Region.v ===== *)
(** * Memory regions (src/kernel/mman/part.c, and regions in src/kernel/mman/mman.c)

    A region is a range of memory that address spaces map.  Its parts, in the order of their
    addresses, say for ranges of pages how many mappings there are, whether they are in memory and
    where.  Changing a range splits parts at its ends and merges what has become equal.  What
    regions use of allocators and files is the interface [PartOps]. *)
From stdpp Require Import base numbers list.
From S2P Require Import Prelude Align PageAlloc PageScatter Mman.

Definition MPART_STATE_MISSING : Z := 0.
Definition MPART_STATE_INCORE : Z := 1.
Definition MPART_STATE_INSWAP : Z := 2.

Definition MPART_FLAG_CHNG : Z := 1.
Definition MPART_FLAG_KEEP : Z := 2.

Definition MREGION_TYPE_MEM : Z := 0.
Definition MREGION_TYPE_PHYSICAL : Z := 1.
Definition MREGION_TYPE_ISGUARD (x : Z) : bool := has x 2.

Definition MREGION_INIT_FILE : Z := 0x43.
Definition MREGION_INIT_TYPE (x : Z) : Z := Z.land x 0x0f.
Definition MREGION_INIT_ISFILE (x : Z) : bool := MREGION_INIT_TYPE x =? MREGION_INIT_TYPE MREGION_INIT_FILE.
Definition MREGION_INIT_WRITETHROUGH : Z := 0x80.

(** [struct mregion_part]; the memory is valid for parts in core. *)
Record mregion_part : Type := MPart {
  mt_start : Z; mt_refcnt : Z; mt_state : Z; mt_flags : Z; mt_locked : Z; mt_memory : mscatter }.

(** The file of [union mregion_cinit]. *)
Record mregion_cinit : Type := MSetup { mri_byte : Z; mri_file : Z; mri_begin : Z; mri_start : Z; mri_size : Z }.

Record mregion : Type := MRegion {
  mr_refcnt : Z; mr_type : Z; mr_init : Z; mr_setup : mregion_cinit; mr_size : Z; mr_parts : list mregion_part }.

Definition set_parts (ps : list mregion_part) (r : mregion) : mregion :=
  MRegion (mr_refcnt r) (mr_type r) (mr_init r) (mr_setup r) (mr_size r) ps.
Definition set_refcnt (c : Z) (r : mregion) : mregion :=
  MRegion c (mr_type r) (mr_init r) (mr_setup r) (mr_size r) (mr_parts r).

Definition with_start (s : Z) (m : mscatter) (p : mregion_part) : mregion_part :=
  MPart s (mt_refcnt p) (mt_state p) (mt_flags p) (mt_locked p) m.
Definition with_refcnt (c : Z) (p : mregion_part) : mregion_part :=
  MPart (mt_start p) c (mt_state p) (mt_flags p) (mt_locked p) (mt_memory p).
Definition with_locked (c : Z) (p : mregion_part) : mregion_part :=
  MPart (mt_start p) (mt_refcnt p) (mt_state p) (mt_flags p) c (mt_memory p).
Definition with_flags (f : Z) (p : mregion_part) : mregion_part :=
  MPart (mt_start p) (mt_refcnt p) (mt_state p) f (mt_locked p) (mt_memory p).
Definition with_state (s : Z) (p : mregion_part) : mregion_part :=
  MPart (mt_start p) (mt_refcnt p) s (mt_flags p) (mt_locked p) (mt_memory p).

(** A [s16]. *)
Definition s16 (x : Z) : Z := (x + 2 ^ 15) mod 2 ^ 16 - 2 ^ 15.

(** [MREGION_PART_END]: where the parts behind a part begin. *)
Definition end_of (next : list mregion_part) (size : Z) : Z :=
  match next with p :: _ => mt_start p | [] => size end.

(** Whether kmalloc() of a part, of a link of a scatter list and kcalloc() of a region return
    memory, [page_free_scatter] and [page_malloc_scatter], [file_kpwriteall], locking the parts, which
    can be interrupted, and the rest of [mregion_destroy]: before the parts are freed the list of all
    regions, the function of the user and futexes, afterwards the file and the memory of the region. *)
Class PartOps (W : Type) : Type := {
  kmalloc_part : W -> bool * W;
  kmalloc_link : W -> bool * W;
  kcalloc_region : W -> bool * W;
  free_scatter : mscatter -> Z -> W -> outcome W;
  malloc_scatter : Z -> Z -> Z -> W -> outcome (option mscatter * W);
  file_kpwriteall : Z -> Z -> Z -> Z -> W -> Z * W;
  rwlock_write : W -> Z * W;
  region_clear : mregion -> W -> W;
  region_fini : mregion -> W -> W
}.

Section Parts.

Context {W : Type} `{PartOps W}.

(** The lower part keeps its place, the new one goes behind it.  Swap tickets are never split
    (mswap.c): nothing is ever in swap. *)
Definition mregion_part_split_lo (part : mregion_part) (next : list mregion_part) (split_addr : Z) (w : W)
    : outcome (option (mregion_part * mregion_part) * W) :=
  assert! mt_start part <? split_addr;;
  assert! match next with [] => true | n :: _ => split_addr <? mt_start n end;;
  let (result, w) := kmalloc_part w in
  if negb result then Ret (None, w) else
  if mt_state part =? MPART_STATE_INCORE then
    let! (lo, hi) := mscatter_split_lo (split_addr - mt_start part) (mt_memory part) in
    Ret (Some (with_start (mt_start part) lo part, with_start split_addr hi part), w)
  else if mt_state part =? MPART_STATE_INSWAP then Ret (None, w)
  else Ret (Some (part, with_start split_addr [] part), w).

(** Merging a part with the one behind it; the result is the part and what is behind it then. *)
Definition mregion_part_merge (part : mregion_part) (next : list mregion_part) (w : W)
    : outcome (bool * mregion_part * list mregion_part * W) :=
  match next with
  | [] => Ret (false, part, next, w)
  | n :: rest =>
      if (mt_refcnt n =? mt_refcnt part) && (mt_state n =? mt_state part) && (mt_flags n =? mt_flags part) then
        if mt_state part =? MPART_STATE_INCORE then
          let (alloc, w) := kmalloc_link w in
          let! (is_ok, memory) := mscatter_cat alloc (mt_memory part) (mt_memory n) in
          let part := with_start (mt_start part) memory part in
          Ret (if is_ok then (true, part, rest, w) else (false, part, next, w))
        else if mt_state part =? MPART_STATE_INSWAP then Ret (false, part, next, w)
        else Ret (true, part, rest, w)
      else Ret (false, part, next, w)
  end.

(** An action is given the part and where it ends. *)
Definition part_action : Type := mregion_part -> Z -> W -> outcome (mregion_part * W).

(** Both ends of the part match: the action, and the parts around it. *)
Definition action_here (action : part_action) (pre : list mregion_part) (part : mregion_part) (part_end : Z)
    (next : list mregion_part) (w : W)
    : outcome (bool * list mregion_part * mregion_part * list mregion_part * W) :=
  let! (part, w) := action part part_end w in
  let! (m1, part, next, w) := mregion_part_merge part next w in
  match pre with
  | [] => Ret (m1, pre, part, next, w)
  | prev :: pre' =>
      let! (m2, prev, rest, w) := mregion_part_merge prev (part :: next) w in
      match m2, rest with
      | true, _ => Ret (true, pre', prev, rest, w)
      | false, part :: next => Ret (m1, prev :: pre', part, next, w)
      | false, [] => Abort
      end
  end.

(** The loop of [mregion_part_action]: the parts before the current one, the last one first,
    and those from it on.  The result has the address the loop has come to. *)
Fixpoint action_loop (fuel : nat) (size : Z) (action : part_action) (pre rest : list mregion_part) (start n_bytes : Z) (w : W)
    : outcome (bool * Z * list mregion_part * W) :=
  match fuel with
  | O => Abort
  | S fuel =>
    match rest with
    | [] => Ret (true, start, reverse pre, w)
    | part :: next =>
      let part_begin := mt_start part in
      let part_end := end_of next size in
      assert! part_begin <? part_end;;
      if part_end <=? start then action_loop fuel size action (part :: pre) next start n_bytes w else
      let part_size := part_end - part_begin in
      let update_size := Z.min part_end (start + n_bytes) - part_begin in
      assert! update_size <=? part_size;;
      assert! (update_size <=? n_bytes) || negb (start =? part_begin);;
      assert! part_begin <=? start;;
      assert! (start + update_size <=? part_end) || negb (start =? part_begin);;
      if negb (start =? part_begin) then
        let! (split, w) := mregion_part_split_lo part next start w in
        match split with
        | None => Ret (false, start, reverse pre ++ rest, w)
        | Some (lo, hi) => action_loop fuel size action (lo :: pre) (hi :: next) start n_bytes w
        end
      else if start + update_size =? part_end then
        let! (recheck, pre, part, next, w) := action_here action pre part part_end next w in
        if n_bytes =? update_size then Ret (true, start, reverse pre ++ part :: next, w)
        else if recheck then action_loop fuel size action pre (part :: next) (start + update_size) (n_bytes - update_size) w
        else action_loop fuel size action (part :: pre) next (start + update_size) (n_bytes - update_size) w
      else
        let! (split, w) := mregion_part_split_lo part next (start + update_size) w in
        match split with
        | None => Ret (false, start, reverse pre ++ rest, w)
        | Some (lo, hi) =>
            let! (lo, w) := action lo (start + update_size) w in
            if n_bytes =? update_size then Ret (true, start, reverse pre ++ lo :: hi :: next, w)
            else action_loop fuel size action (lo :: pre) (hi :: next) (start + update_size) (n_bytes - update_size) w
        end
    end
  end.

(** Every round leaves a part behind, or splits it where the range begins, or has made one part
    of two. *)
Definition run_action (self : mregion) (start n_bytes : Z) (action : part_action) (w : W) : outcome (bool * Z * list mregion_part * W) :=
  if n_bytes =? 0 then Ret (true, start, mr_parts self, w) else
  assert! start <? uintptr (start + n_bytes);;
  assert! uintptr (start + n_bytes) <=? mr_size self;;
  assert! IS_ALIGNED start PAGESIZE;;
  assert! IS_ALIGNED n_bytes PAGESIZE;;
  assert! negb (bool_decide (mr_parts self = []));;
  action_loop (3 * S (length (mr_parts self))) (mr_size self) action [] (mr_parts self) start n_bytes w.

Definition mregion_part_action (self : mregion) (start n_bytes : Z) (action : part_action) (undo : option part_action) (w : W)
    : outcome (bool * mregion * W) :=
  let! (ok, stop, parts, w) := run_action self start n_bytes action w in
  let self := set_parts parts self in
  match ok, undo with
  | false, Some undo =>
      let! (_, _, parts, w) := run_action self start (stop - start) undo w in
      Ret (false, set_parts parts self, w)
  | _, _ => Ret (ok, self, w)
  end.

(** ** Actions *)

Definition action_incref : part_action := fun self _ w => Ret (with_refcnt (uintptr (mt_refcnt self + 1)) self, w).

(** Writing changed memory back to the file, one link of the memory after the other. *)
Fixpoint write_back (setup : mregion_cinit) (memory : mscatter) (skip_before file_pos file_end : Z) (w : W) : W :=
  match memory with
  | [] => w
  | (m_start, m_size) :: m_next =>
      if file_end <=? file_pos then w else
      let max_write := Z.min m_size (file_end - file_pos) in
      if negb (skip_before =? 0) && (max_write <=? skip_before)
      then write_back setup m_next (skip_before - max_write) (file_pos + max_write) file_end w
      else
        let max_write := max_write - skip_before in
        let (error, w) := file_kpwriteall (mri_file setup) (m_start + skip_before) max_write file_pos w in
        if E_ISERR error then w else write_back setup m_next 0 (file_pos + max_write) file_end w
  end.

Definition sync_part (region : mregion) (self : mregion_part) (part_end : Z) (w : W) : W :=
  let setup := mr_setup region in
  if negb (has (mr_init region) MREGION_INIT_WRITETHROUGH && MREGION_INIT_ISFILE (mr_init region)) then w else
  if negb (mt_state self =? MPART_STATE_INCORE) then w else
  let skip_before := if mt_start self <? mri_begin setup then mri_begin setup - mt_start self else 0 in
  if (mt_start self <? mri_begin setup) && (part_end - mt_start self <=? skip_before) then w else
  write_back setup (mt_memory self) skip_before (mri_start setup + mt_start self) (mri_start setup + mri_size setup) w.

(** The last reference is gone. *)
Definition drop_part (region : mregion) (self : mregion_part) (part_end memory_attrib : Z) (w : W) : outcome (mregion_part * W) :=
  let (self, w) :=
    if has (mt_flags self) MPART_FLAG_CHNG
    then (with_flags (Z.ldiff (mt_flags self) MPART_FLAG_CHNG) self, sync_part region self part_end w)
    else (self, w) in
  if mr_type region =? MREGION_TYPE_MEM then
    if has (mt_flags self) MPART_FLAG_KEEP then Ret (self, w) else
    let! w := if mt_state self =? MPART_STATE_INCORE then free_scatter (mt_memory self) memory_attrib w else Ret w in
    Ret (with_state MPART_STATE_MISSING self, w)
  else
    assert! (if mr_type region =? MREGION_TYPE_PHYSICAL then mt_state self =? MPART_STATE_INCORE
             else if MREGION_TYPE_ISGUARD (mr_type region) then mt_state self =? MPART_STATE_MISSING else true);;
    Ret (self, w).

Definition action_do_decref (memory_attrib : Z) (region : mregion) : part_action := fun self part_end w =>
  assert! negb (mt_refcnt self =? 0);;
  let self := with_refcnt (mt_refcnt self - 1) self in
  if mt_refcnt self =? 0 then drop_part region self part_end memory_attrib w else Ret (self, w).

Definition action_decref : mregion -> part_action := action_do_decref PAGEATTR_NONE.
Definition action_decref_clr : mregion -> part_action := action_do_decref PAGEATTR_ZERO.

Definition action_inclck : part_action := fun self _ w => Ret (with_locked (s16 (mt_locked self + 1)) self, w).
Definition action_declck : part_action := fun self _ w => Ret (with_locked (s16 (mt_locked self - 1)) self, w).
Definition action_stchng : part_action := fun self _ w => Ret (with_flags (Z.lor (mt_flags self) MPART_FLAG_CHNG) self, w).

Definition mregion_part_incref (self : mregion) (start n_bytes : Z) (w : W) : outcome (bool * mregion * W) :=
  mregion_part_action self start n_bytes action_incref (Some (action_decref self)) w.

(** A failure is only logged. *)
Definition mregion_part_decref (self : mregion) (start n_bytes : Z) (w : W) : outcome (mregion * W) :=
  let! (_, self, w) := mregion_part_action self start n_bytes (action_decref self) (Some action_incref) w in Ret (self, w).
Definition mregion_part_decref_clr (self : mregion) (start n_bytes : Z) (w : W) : outcome (mregion * W) :=
  let! (_, self, w) := mregion_part_action self start n_bytes (action_decref_clr self) (Some action_incref) w in Ret (self, w).

Definition mregion_part_inclock (self : mregion) (start n_bytes : Z) (w : W) : outcome (bool * mregion * W) :=
  assert! negb (mr_type self =? MREGION_TYPE_PHYSICAL);;
  mregion_part_action self start n_bytes action_inclck (Some action_declck) w.
Definition mregion_part_declock (self : mregion) (start n_bytes : Z) (w : W) : outcome (bool * mregion * W) :=
  assert! negb (mr_type self =? MREGION_TYPE_PHYSICAL);;
  mregion_part_action self start n_bytes action_declck (Some action_inclck) w.
Definition mregion_part_setchng (self : mregion) (start n_bytes : Z) (w : W) : outcome (bool * mregion * W) :=
  assert! negb (mr_type self =? MREGION_TYPE_PHYSICAL);;
  mregion_part_action self start n_bytes action_stchng None w.

(** ** References to regions *)

(** Freeing the parts in [mregion_destroy]. *)
Fixpoint destroy_parts (self : mregion) (parts : list mregion_part) (w : W) : outcome W :=
  match parts with
  | [] => Ret w
  | iter :: next =>
      assert! mt_start iter <? mr_size self;;
      assert! match next with [] => true | n :: _ => mt_start iter <? mt_start n end;;
      assert! mt_refcnt iter =? 0;;
      let! w :=
        if mr_type self =? MREGION_TYPE_MEM then
          if mt_state iter =? MPART_STATE_INCORE then free_scatter (mt_memory iter) PAGEATTR_NONE w else Ret w
        else
          assert! (if mr_type self =? MREGION_TYPE_PHYSICAL then mt_state iter =? MPART_STATE_INCORE
                   else if MREGION_TYPE_ISGUARD (mr_type self) then mt_state iter =? MPART_STATE_MISSING else true);;
          Ret w in
      assert! negb (has (mt_flags iter) MPART_FLAG_CHNG);;
      destroy_parts self next w
  end.

Definition mregion_destroy (self : mregion) (w : W) : outcome W :=
  assert! mr_refcnt self =? 0;;
  let! w := destroy_parts self (mr_parts self) (region_clear self w) in Ret (region_fini self w).

(** [MREGION_DECREF]; [None] for a region that is gone. *)
Definition MREGION_DECREF (self : mregion) (w : W) : outcome (option mregion * W) :=
  let self := set_refcnt (uintptr (mr_refcnt self - 1)) self in
  if mr_refcnt self =? 0 then let! w := mregion_destroy self w in Ret (None, w) else Ret (Some self, w).

Definition region_incref (self : mregion) (start n_bytes : Z) (w : W) : outcome (Z * mregion * W) :=
  let self := set_refcnt (uintptr (mr_refcnt self + 1)) self in
  let (error, w) := rwlock_write w in
  if E_ISERR error then Ret (error, self, w) else
  let! (ok, self, w) := mregion_part_incref self start n_bytes w in
  if negb ok then
    let self := set_refcnt (uintptr (mr_refcnt self - 1)) self in
    assert! negb (mr_refcnt self =? 0);;
    Ret (- ENOMEM, self, w)
  else Ret (- EOK, self, w).

Definition region_decref (self : mregion) (start n_bytes : Z) (w : W) : outcome (Z * option mregion * W) :=
  let (error, w) := rwlock_write w in
  if E_ISERR error then Ret (error, Some self, w) else
  let! (self, w) := mregion_part_decref self start n_bytes w in
  let! (self, w) := MREGION_DECREF self w in
  Ret (error, self, w).

(** The same: the code does not call [mregion_part_decref_clr]. *)
Definition region_decref_clr (self : mregion) (start n_bytes : Z) (w : W) : outcome (Z * option mregion * W) :=
  let (error, w) := rwlock_write w in
  if E_ISERR error then Ret (error, Some self, w) else
  let! (self, w) := mregion_part_decref self start n_bytes w in
  let! (self, w) := MREGION_DECREF self w in
  Ret (error, self, w).

(** ** New regions *)

(** [mregion_new]: zeroed memory, with one reference and one part. *)
Definition mregion_cinit_new (w : W) : option mregion * W :=
  let (self, w) := kcalloc_region w in
  (if self then Some (MRegion 1 MREGION_TYPE_MEM 0 (MSetup 0 0 0 0 0) 0 [MPart 0 0 MPART_STATE_MISSING 0 0 []]) else None, w).

(** Regions of memory also go into a list of all of them, which only swapping would use. *)
Definition mregion_setup (self : mregion) : outcome mregion :=
  assert! negb (mr_size self =? 0);;
  assert! IS_ALIGNED (mr_size self) PAGESIZE;;
  Ret self.

Definition mregion_new_phys (addr n_bytes : Z) (w : W) : outcome (option mregion * W) :=
  assert! IS_ALIGNED addr PAGESIZE;;
  assert! IS_ALIGNED n_bytes PAGESIZE;;
  let (region, w) := mregion_cinit_new w in
  match region with
  | None => Ret (None, w)
  | Some region =>
      let! region := mregion_setup (MRegion (mr_refcnt region) MREGION_TYPE_PHYSICAL (mr_init region) (mr_setup region) n_bytes
                                      [MPart 0 0 MPART_STATE_INCORE 0 1 [(addr, n_bytes)]]) in
      Ret (Some region, w)
  end.

Definition MREGION_ANON_CALLOC : Z := 1.
Definition MREGION_ANON_LOCKED : Z := 2.
Definition MREGION_ANON_PREFAULT : Z := 4.
Definition MREGION_ANON_TRY_PREFAULT : Z := 0x8000.

Definition mregion_new_anon (n_bytes mode : Z) (w : W) : outcome (option mregion * W) :=
  assert! IS_ALIGNED n_bytes PAGESIZE;;
  let (region, w) := mregion_cinit_new w in
  match region with
  | None => Ret (None, w)
  | Some region =>
      let locked := if has mode MREGION_ANON_LOCKED then 1 else 0 in
      let! (memory, w) := if has mode MREGION_ANON_PREFAULT then malloc_scatter n_bytes PAGESIZE (Z.land mode MREGION_ANON_CALLOC) w
                          else Ret (None, w) in
      if has mode MREGION_ANON_PREFAULT && bool_decide (memory = None) && negb (has mode MREGION_ANON_TRY_PREFAULT) then Ret (None, w) else
      let part := match memory with
                  | Some memory => MPart 0 0 MPART_STATE_INCORE 0 locked memory
                  | None => MPart 0 0 MPART_STATE_MISSING 0 locked []
                  end in
      let! region := mregion_setup (MRegion (mr_refcnt region) MREGION_TYPE_MEM (Z.land mode MREGION_ANON_CALLOC) (mr_setup region) n_bytes [part]) in
      Ret (Some region, w)
  end.

End Parts.
