(* ===== verification/RegionSpec.v ===== *)
(** * Memory regions: what they promise

    For its users a region is a list of pages, each with its reference counter, state, flags and
    the frame that holds it; [expand] relates the parts to it.  How the pages are divided into parts
    does not matter.  Actions on a range change the pages of the range. *)
From stdpp Require Import base numbers list.
From S2P Require Import Prelude Align PageAlloc PageScatter Mman Region.

(** A page of a region. *)
Record pinfo : Type := PInfo { pi_refcnt : Z; pi_state : Z; pi_flags : Z; pi_frame : option Z }.

Definition page_count (a b : Z) : nat := Z.to_nat ((b - a) / 4096).

Definition part_frames (p : mregion_part) (e : Z) : list (option Z) :=
  if mt_state p =? MPART_STATE_INCORE then Some <$> chain_pages (mt_memory p)
  else replicate (page_count (mt_start p) e) None.

Definition part_pages (p : mregion_part) (e : Z) : list pinfo :=
  PInfo (mt_refcnt p) (mt_state p) (mt_flags p) <$> part_frames p e.

Fixpoint expand (ps : list mregion_part) (size : Z) : list pinfo :=
  match ps with [] => [] | p :: ps => part_pages p (end_of ps size) ++ expand ps size end.

(** A part that ends at [e]: whole pages, and the frames of a part in core are as many.  Nothing
    is ever in swap, since [mswap_unload] fails. *)
Record part_ok (p : mregion_part) (e : Z) : Prop := {
  ok_order : mt_start p < e;
  ok_begin : mt_start p mod 4096 = 0;
  ok_end : e mod 4096 = 0;
  ok_swap : mt_state p <> MPART_STATE_INSWAP;
  ok_links : mt_state p = MPART_STATE_INCORE -> Forall link_ok (mt_memory p);
  ok_size : mt_state p = MPART_STATE_INCORE -> zlen (chain_pages (mt_memory p)) * 4096 = e - mt_start p
}.

(** Parts one behind the other, from [lo] to [size]. *)
Fixpoint parts_ok (lo : Z) (ps : list mregion_part) (size : Z) : Prop :=
  match ps with
  | [] => lo = size
  | p :: ps => mt_start p = lo /\ part_ok p (end_of ps size) /\ parts_ok (end_of ps size) ps size
  end.

Record region_ok (r : mregion) : Prop := {
  region_size : 0 < mr_size r < 2 ^ 32;
  region_parts : parts_ok 0 (mr_parts r) (mr_size r)
}.

(** The pages of a region.  The counters of locks are not part of it: merging parts adds up and
    spreads them (see [lock_is_lost] and [lock_spreads]), so they have no meaning per page. *)
Definition pages_of (r : mregion) : list pinfo := expand (mr_parts r) (mr_size r).

(** ** Lists of parts *)

Lemma end_of_app a b size : end_of (a ++ b) size = end_of a (end_of b size).
Proof. by destruct a. Qed.

Lemma parts_app lo a b size : parts_ok lo (a ++ b) size <-> parts_ok lo a (end_of b size) /\ parts_ok (end_of b size) b size.
Proof.
  revert lo. induction a as [|p a IH]; intros lo; simpl.
  - split; [|by intros [-> ?]]. destruct b as [|q b]; simpl; intuition.
  - rewrite IH, end_of_app. intuition.
Qed.

Lemma expand_app a b size : expand (a ++ b) size = expand a (end_of b size) ++ expand b size.
Proof. induction a as [|p a IH]; simpl; [done|]. by rewrite IH, end_of_app, app_assoc. Qed.

Lemma frames_length p e : part_ok p e -> 4096 * zlen (part_frames p e) = e - mt_start p.
Proof.
  intros [Ho Hb He _ _ Hs]. unfold part_frames. destruct (Z.eqb_spec (mt_state p) MPART_STATE_INCORE) as [Hst|_].
  - specialize (Hs Hst). unfold zlen in *. rewrite length_fmap. lia.
  - unfold zlen, page_count. rewrite length_replicate. mlia.
Qed.

Lemma pages_length p e : part_ok p e -> 4096 * zlen (part_pages p e) = e - mt_start p.
Proof. intros Hp. unfold part_pages, zlen. rewrite length_fmap. by apply frames_length. Qed.

Lemma expand_length lo ps size : parts_ok lo ps size -> 4096 * zlen (expand ps size) = size - lo.
Proof.
  revert lo. induction ps as [|p ps IH]; intros lo; simpl; [intros ->; unfold zlen; simpl; lia|].
  intros (<- & Hp & Hps). specialize (IH _ Hps). pose proof (pages_length _ _ Hp). unfold zlen in *. rewrite length_app. lia.
Qed.

Lemma parts_bounds lo ps size : parts_ok lo ps size -> lo <= size.
Proof. intros Hp. pose proof (expand_length _ _ _ Hp). unfold zlen in *. lia. Qed.

(** ** Scatter lists *)

Lemma split_links c off lo hi : Forall link_ok c -> 0 < off -> off mod 4096 = 0 -> off < zlen (chain_pages c) * PAGESIZE ->
  mscatter_split_loop off c = Ret (lo, hi) -> Forall link_ok lo /\ Forall link_ok hi.
Proof.
  revert off lo hi. induction c as [|[s n] c IH]; intros off lo hi Hc Ho Ha Hlt; simpl; [done|].
  apply Forall_cons in Hc as [Hl Hc]. pose proof Hl as [Hn Hn']. simpl in Hn, Hn'. rewrite chain_pages_cons in Hlt.
  unfold zlen in Hlt. rewrite length_app, Nat2Z.inj_add in Hlt. pose proof (link_pages_len s n ltac:(lia) Hn') as Hlen. unfold zlen, PAGESIZE in *.
  destruct (Z.ltb_spec n off) as [Hno|Hno].
  - destruct (mscatter_split_loop (off - n) c) as [[lo' hi']|] eqn:Es; [|done]. intros [= <- <-].
    destruct (IH (off - n) lo' hi' Hc ltac:(lia) ltac:(mlia) ltac:(lia) Es). split; [by constructor|done].
  - destruct (Z.eqb_spec off n) as [->|Hne].
    + destruct c as [|l c]; [change (length (chain_pages [])) with 0%nat in Hlt; lia|]. intros [= <- <-]. split; [|done]. by constructor.
    + intros [= <- <-]. split; constructor; try done; (split; simpl; [lia|mlia]).
Qed.

Lemma cat_links alloc dst src c : Forall link_ok dst -> Forall link_ok src -> mscatter_cat alloc dst src = Ret (true, c) -> Forall link_ok c.
Proof.
  revert c. induction dst as [|[s n] dst IH]; intros c Hd Hs; [done|]. apply Forall_cons in Hd as [Hl Hd].
  destruct src as [|[t m] src]; [by destruct dst|]. pose proof Hs as [Hm Hs']%Forall_cons. destruct dst as [|l dst]; simpl.
  - destruct (_ =? _) eqn:He; [|destruct alloc; [|done]]; intros [= <-]; constructor; try done.
    destruct Hl as [? ?], Hm as [? ?]. split; simpl in *; [lia|mlia].
  - simpl in IH. destruct (mscatter_cat alloc (l :: dst) ((t, m) :: src)) as [[ok rest]|] eqn:Ec; simpl in Ec; rewrite ?Ec; [|done].
    intros [= -> <-]. constructor; [done|]. by apply IH.
Qed.
