(* ===== verification/RegionOps.v ===== *)
(** * Memory regions: splitting, merging and the loop over parts *)
From stdpp Require Import base numbers list.
From S2P Require Import Prelude Align PageAlloc PageScatter Mman MmanSpec MmanOps Region RegionSpec.

(** What the environment promises.  [Own w F] says that the frames [F], of the pages that have
    one, are in use for the region in [w]; allocating a part or a link and writing to a file do not
    disturb that. *)
Class PartLaws (W : Type) `{PartOps W} (Own : W -> list (option Z) -> Prop) : Prop := {
  kmalloc_part_ok w F : Own w F -> Own (kmalloc_part w).2 F;
  kmalloc_link_ok w F : Own w F -> Own (kmalloc_link w).2 F;
  pwriteall_ok w F file m n pos : Own w F -> Own (file_kpwriteall file m n pos w).2 F;
  rwlock_write_ok w F : Own w F -> Own (rwlock_write w).2 F;
  kcalloc_region_ok w F : Own w F -> Own (kcalloc_region w).2 F;
  region_clear_ok w F r : Own w F -> Own (region_clear r w) F;
  region_fini_ok w F r : Own w F -> Own (region_fini r w) F
}.

(** Regions that own their frames can allocate and free them. *)
Class FreeLaws (W : Type) `{PartOps W} (Own : W -> list (option Z) -> Prop) : Prop := {
  free_frames_ok w A c C : Forall link_ok c -> Own w (A ++ (Some <$> chain_pages c) ++ C) ->
    exists w', free_scatter c PAGEATTR_NONE w = Ret w' /\ Own w' (A ++ replicate (length (chain_pages c)) None ++ C);
  malloc_frames_ok w A k C attr : Own w (A ++ replicate k None ++ C) -> 0 < 4096 * Z.of_nat k < 2 ^ 32 - 4096 ->
    exists r w', malloc_scatter (4096 * Z.of_nat k) PAGESIZE attr w = Ret (r, w') /\
      match r with
      | Some c => Forall link_ok c /\ length (chain_pages c) = k /\ Own w' (A ++ (Some <$> chain_pages c) ++ C)
      | None => Own w' (A ++ replicate k None ++ C)
      end;
  own_nothing w k : Own w [] -> Own w (replicate k None);
  own_none w k : Own w (replicate k None) -> Own w []
}.

(** The pages from [a] to [b] changed. *)
Definition upd (f : pinfo -> pinfo) (a b : Z) (L : list pinfo) : list pinfo :=
  imap (fun i v => if (a <=? 4096 * Z.of_nat i) && (4096 * Z.of_nat i <? b) then f v else v) L.

Definition range_all (P : pinfo -> Prop) (a b : Z) (L : list pinfo) : Prop :=
  forall i v, L !! i = Some v -> a <= 4096 * Z.of_nat i < b -> P v.

Lemma upd_lookup f a b L i : upd f a b L !! i =
  (fun v => if (a <=? 4096 * Z.of_nat i) && (4096 * Z.of_nat i <? b) then f v else v) <$> L !! i.
Proof. unfold upd. by rewrite list_lookup_imap. Qed.

Lemma upd_none f a b L : b <= a -> upd f a b L = L.
Proof.
  intros Hab. apply list_eq. intros i. rewrite upd_lookup. destruct (L !! i); [|done]. simpl.
  destruct (Z.leb_spec a (4096 * Z.of_nat i)), (Z.ltb_spec (4096 * Z.of_nat i) b); simpl; [lia|done..].
Qed.

Lemma upd_upd f a b c L : a <= b <= c -> upd f b c (upd f a b L) = upd f a c L.
Proof.
  intros Hab. apply list_eq. intros i. rewrite !upd_lookup. destruct (L !! i) as [v|]; [|done]. simpl. f_equal.
  destruct (Z.leb_spec a (4096 * Z.of_nat i)), (Z.ltb_spec (4096 * Z.of_nat i) b), (Z.leb_spec b (4096 * Z.of_nat i)),
    (Z.ltb_spec (4096 * Z.of_nat i) c); simpl; (done || lia).
Qed.

Lemma upd_app f a b A B C : a = 4096 * zlen A -> b = a + 4096 * zlen B -> upd f a b (A ++ B ++ C) = A ++ (f <$> B) ++ C.
Proof.
  intros -> ->. unfold zlen. apply list_eq. intros i. rewrite upd_lookup.
  destruct (decide (i < length A)%nat) as [HA|HA].
  { rewrite !lookup_app_l by done. destruct (A !! i); [|done]. simpl. destruct (Z.leb_spec (4096 * Z.of_nat (length A)) (4096 * Z.of_nat i)); [lia|done]. }
  rewrite !(lookup_app_r A) by lia. destruct (decide (i - length A < length B)%nat) as [HB|HB].
  - rewrite !lookup_app_l by (rewrite ?length_fmap; done). rewrite list_lookup_fmap. destruct (B !! _); [|done]. simpl.
    rewrite (proj2 (Z.leb_le _ _)), (proj2 (Z.ltb_lt _ _)) by lia. done.
  - rewrite !lookup_app_r by (rewrite ?length_fmap; lia). rewrite length_fmap. destruct (C !! _); [|done]. simpl.
    rewrite (proj2 (Z.ltb_ge _ _)) by lia. by rewrite andb_false_r.
Qed.

Lemma range_all_app P a b A B C : a = 4096 * zlen A -> a + 4096 * zlen B <= b -> range_all P a b (A ++ B ++ C) -> Forall P B.
Proof.
  intros -> Hb Hr. apply Forall_forall. intros v Hv. apply list_elem_of_lookup in Hv as [i Hi]. apply (Hr (length A + i)%nat).
  - rewrite lookup_app_r by lia. replace (length A + i - length A)%nat with i by lia. by apply lookup_app_l_Some.
  - unfold zlen in *. apply lookup_lt_Some in Hi. lia.
Qed.

Lemma range_all_upd P f a b c L : a <= b -> range_all P a c L -> range_all P b c (upd f a b L).
Proof.
  intros Hab Hr i v Hv Hi. rewrite upd_lookup in Hv. destruct (L !! i) as [v'|] eqn:E; [|done]. simpl in Hv.
  rewrite (proj2 (Z.ltb_ge (4096 * Z.of_nat i) b)), andb_false_r in Hv by lia. injection Hv as <-. apply (Hr i); [done|lia].
Qed.

Section Parts.

Context {W : Type} `{PartLaws W Own}.

Local Abbreviation Inv w L := (Own w (pi_frame <$> L)).

(** There is no memory for a part. *)
Definition no_part : Prop := exists (w0 : W) F, Own w0 F /\ (kmalloc_part w0).1 = false.

Lemma split_ok_part p e x next size (w : W) L : part_ok p e -> end_of next size = e -> mt_start p < x < e -> x mod 4096 = 0 -> Inv w L ->
  exists r w', mregion_part_split_lo p next x w = Ret (r, w') /\ Inv w' L /\
    match r with
    | None => no_part
    | Some (lo, hi) => mt_start lo = mt_start p /\ mt_start hi = x /\ part_ok lo x /\ part_ok hi e /\
        part_pages p e = part_pages lo x ++ part_pages hi e
    end.
Proof.
  intros [Ho Hb He Hw Hl Hs] Hn Hx Ha HI. unfold mregion_part_split_lo. rewrite (proj2 (Z.ltb_lt _ _) (proj1 Hx)), oassert_true.
  replace (match next with [] => true | n :: _ => x <? mt_start n end) with true
    by (destruct next as [|n next]; simpl in Hn; [done|symmetry; apply Z.ltb_lt; lia]).
  rewrite oassert_true. pose proof (kmalloc_part_ok w _ HI) as HI'. destruct (kmalloc_part w) as [ok w1] eqn:Ek. simpl in HI'.
  destruct ok; simpl negb; cbv iota; [|exists None, w1; split; [done|]; split; [done|]; exists w, (pi_frame <$> L); by rewrite Ek].
  unfold part_pages, part_frames. destruct (Z.eqb_spec (mt_state p) MPART_STATE_INCORE) as [Hst|Hst].
  - specialize (Hl Hst). specialize (Hs Hst).
    destruct (mscatter_split_lo_ok (mt_memory p) (x - mt_start p)) as (lo & hi & Es & Ep & El); [done|lia|mlia|unfold PAGESIZE; lia|].
    rewrite Es. cbn [obind]. eexists _, w1. split; [done|]. split; [done|]. simpl. rewrite Hst. simpl.
    unfold mscatter_split_lo in Es. destruct (IS_ALIGNED (x - mt_start p) PAGESIZE) eqn:Eal; [rewrite oassert_true in Es|done].
    destruct (split_links _ (x - mt_start p) lo hi Hl ltac:(lia) ltac:(mlia) ltac:(unfold PAGESIZE; lia) Es) as [Hlo Hhi]. unfold zlen, PAGESIZE in *.
    rewrite Ep, length_app in Hs. split_and!; [done|done| | |by rewrite Ep, !fmap_app].
    + split; simpl; unfold zlen; try done; lia.
    + split; simpl; unfold zlen; try done; lia.
  - rewrite (proj2 (Z.eqb_neq _ _) Hw).
    eexists _, w1. split; [done|]. split; [done|]. simpl. rewrite (proj2 (Z.eqb_neq _ _) Hst).
    split_and!; [done|done|split; (done || lia)|split; simpl; (done || lia)|].
    rewrite <- fmap_app, <- replicate_add. do 2 f_equal. unfold page_count. mlia.
Qed.

Lemma merge_ok_part p next size (w : W) L : parts_ok (mt_start p) (p :: next) size -> Inv w L ->
  exists b p' next' w', mregion_part_merge p next w = Ret (b, p', next', w') /\ Inv w' L /\
    mt_start p' = mt_start p /\ parts_ok (mt_start p) (p' :: next') size /\ expand (p' :: next') size = expand (p :: next) size /\
    if b then exists n, next = n :: next' else p' = p /\ next' = next.
Proof.
  intros Hok HI. destruct next as [|n next]; simpl; [by exists false, p, [], w|].
  destruct (_ && _ && _) eqn:Hc; [|by exists false, p, (n :: next), w]. rewrite !andb_true_iff, !Z.eqb_eq in Hc. destruct Hc as [[Hr Hst] Hf].
  destruct Hok as (_ & Hp & Hn). simpl in Hp, Hn. destruct Hn as (_ & Hn & Hnext).
  destruct Hp as [Ho Hb He Hw Hl Hs], Hn as [Ho' Hb' He' Hw' Hl' Hs'].
  destruct (Z.eqb_spec (mt_state p) MPART_STATE_INCORE) as [Hin|Hin].
  - pose proof (kmalloc_link_ok w _ HI) as HI'. destruct (kmalloc_link w) as [alloc w1]. simpl in HI'. rewrite Hst in Hl', Hs'.
    specialize (Hl Hin). specialize (Hl' Hin). specialize (Hs Hin). specialize (Hs' Hin).
    destruct (mscatter_cat_ok alloc (mt_memory p) (mt_memory n)) as (ok & c & Ec & Hcat); try done.
    { intros Heq. rewrite Heq in Hs. unfold zlen in Hs. simpl in Hs. lia. }
    { intros Heq. rewrite Heq in Hs'. unfold zlen in Hs'. simpl in Hs'. lia. }
    rewrite Ec. cbn [obind]. destruct ok.
    + eexists true, _, next, w1. split; [done|]. split; [done|]. simpl. pose proof (cat_links _ _ _ _ Hl Hl' Ec) as Hcl.
      unfold zlen in *. split_and!; try done; [| |eauto].
      * split; simpl; unfold zlen; try done; rewrite ?Hcat, ?length_app; lia.
      * unfold part_pages, part_frames. simpl. rewrite Hst, Hin, Hr, Hf, Hcat. simpl. by rewrite !fmap_app, app_assoc.
    + destruct Hcat as [-> _]. exists false, p, (n :: next), w1. replace (with_start (mt_start p) (mt_memory p) p) with p by (by destruct p).
      split_and!; done.
  - destruct (Z.eqb_spec (mt_state p) MPART_STATE_INSWAP).
    { exists false, p, (n :: next), w. split_and!; done. }
    exists true, p, next, w. split; [done|]. split; [done|]. simpl. split_and!; try done; [split; try done; try lia| |eauto].
    unfold part_pages, part_frames. rewrite Hst, Hr, Hf, (proj2 (Z.eqb_neq _ _) Hin), app_assoc, <- fmap_app, <- replicate_add. do 3 f_equal.
    unfold page_count. mlia.
Qed.

(** ** Actions *)

(** An action that does [f] to every page of a part, if they all have [P]. *)
Definition act_ok (f : pinfo -> pinfo) (P : pinfo -> Prop) (act : part_action) : Prop := forall A C p e (w : W),
  part_ok p e -> Forall P (part_pages p e) -> Inv w (A ++ part_pages p e ++ C) ->
  exists p' w', act p e w = Ret (p', w') /\ mt_start p' = mt_start p /\ part_ok p' e /\
    part_pages p' e = f <$> part_pages p e /\ Inv w' (A ++ (f <$> part_pages p e) ++ C).

(** The parts with one of them in the middle. *)
Lemma zip_ok pre p next size : parts_ok 0 (reverse pre ++ p :: next) size <->
  parts_ok 0 (reverse pre) (mt_start p) /\ part_ok p (end_of next size) /\ parts_ok (end_of next size) next size.
Proof. rewrite parts_app. simpl. intuition. Qed.

Lemma zip_expand pre p next size : expand (reverse pre ++ p :: next) size =
  expand (reverse pre) (mt_start p) ++ part_pages p (end_of next size) ++ expand next size.
Proof. by rewrite expand_app. Qed.

Lemma zip_begin pre p next size : parts_ok 0 (reverse pre ++ p :: next) size -> mt_start p = 4096 * zlen (expand (reverse pre) (mt_start p)).
Proof. intros (Hpre & _)%zip_ok. apply expand_length in Hpre. lia. Qed.

Section Action.

Context {f : pinfo -> pinfo} {P : pinfo -> Prop} {act : part_action} (Hact : act_ok f P act).

(** The action on a part that lies in the range. *)
Lemma act_step pre p next size (w : W) b : parts_ok 0 (reverse pre ++ p :: next) size ->
  let L := expand (reverse pre ++ p :: next) size in let e := end_of next size in
  Inv w L -> range_all P (mt_start p) b L -> e <= b ->
  exists p' w', act p e w = Ret (p', w') /\ mt_start p' = mt_start p /\ parts_ok 0 (reverse pre ++ p' :: next) size /\
    expand (reverse pre ++ p' :: next) size = upd f (mt_start p) e L /\ Inv w' (upd f (mt_start p) e L).
Proof.
  intros Hok L e HI Hr Hb. pose proof (zip_begin _ _ _ _ Hok) as Hbeg. subst L. rewrite zip_expand in *.
  apply zip_ok in Hok as (Hpre & Hp & Hnext). pose proof (pages_length _ _ Hp) as Hlen.
  fold e in Hp, Hlen, HI, Hr |- *.
  assert (Hall : Forall P (part_pages p e)) by (eapply range_all_app; [exact Hbeg| |exact Hr]; lia).
  destruct (Hact _ _ p e w Hp Hall HI) as (p' & w' & Ha & Hs & Hp' & Hpg & HI').
  rewrite (upd_app f (mt_start p) e) by (done || lia). exists p', w'. split; [done|]. split; [done|].
  rewrite zip_ok, zip_expand, Hs. fold e. rewrite Hpg. done.
Qed.

(** Rounds of the loop that are left at most. *)
Definition rounds (size : Z) (rest : list mregion_part) (start : Z) : nat :=
  match rest with
  | [] => 0
  | p :: next => 3 * S (length next) + if mt_start p =? start then 1 else if end_of next size <=? start then 0 else 2
  end.

Lemma rounds_less size x next' p next e : mt_start x < e ->
  (length next' < length next)%nat \/ next' = next /\ end_of next size <= e ->
  (rounds size (x :: next') e < rounds size (p :: next) (mt_start p))%nat.
Proof.
  intros Hx Hor. unfold rounds. rewrite Z.eqb_refl, (proj2 (Z.eqb_neq (mt_start x) e)) by lia.
  destruct Hor as [Hlt|[-> Hle]]; [destruct (_ <=? e); lia|]. rewrite (proj2 (Z.leb_le _ _) Hle). lia.
Qed.

Lemma here_step pre p next size (w : W) b : parts_ok 0 (reverse pre ++ p :: next) size ->
  let L := expand (reverse pre ++ p :: next) size in let e := end_of next size in
  Inv w L -> range_all P (mt_start p) b L -> e <= b ->
  exists again pre' p' next' w', action_here act pre p e next w = Ret (again, pre', p', next', w') /\
    parts_ok 0 (reverse pre' ++ p' :: next') size /\ expand (reverse pre' ++ p' :: next') size = upd f (mt_start p) e L /\
    Inv w' (upd f (mt_start p) e L) /\ mt_start p' <= mt_start p /\
    if again then (rounds size (p' :: next') e < rounds size (p :: next) (mt_start p))%nat else next' = next.
Proof.
  intros Hok L e HI Hr Hb. pose proof (ok_order _ _ (proj1 (proj2 (proj1 (zip_ok _ _ _ _) Hok)))) as Hlt. fold e in Hlt.
  destruct (act_step pre p next size w b Hok HI Hr Hb) as (p1 & w1 & Ha & Hs1 & Hok1 & He1 & HI1). fold L e in He1, HI1.
  unfold action_here. fold e in Ha. rewrite Ha. cbn [obind]. set (L' := upd f (mt_start p) e L) in *.
  assert (Hm : parts_ok (mt_start p1) (p1 :: next) size) by (apply parts_app in Hok1 as [_ ?]; done).
  destruct (merge_ok_part p1 next size w1 L' Hm HI1) as (m1 & p2 & next2 & w2 & -> & HI2 & Hs2 & Hok2 & He2 & Hm1). cbn [obind].
  assert (Hok2' : parts_ok 0 (reverse pre ++ p2 :: next2) size).
  { apply parts_app. change (end_of (p2 :: next2) size) with (mt_start p2). rewrite Hs2. by apply parts_app in Hok1 as [Hpre _]. }
  assert (He2' : expand (reverse pre ++ p2 :: next2) size = L').
  { rewrite <- He1, !(expand_app (reverse pre)). simpl end_of. rewrite Hs2. by rewrite He2. }
  destruct pre as [|prev pre].
  { exists m1, [], p2, next2, w2. split_and!; try done; [lia|]. destruct m1; [|tauto]. destruct Hm1 as [q ->].
    apply rounds_less; [lia|left; simpl; lia]. }
  rewrite reverse_cons, <- app_assoc in Hok2', He2'. simpl in Hok2', He2'.
  assert (Hm2 : parts_ok (mt_start prev) (prev :: p2 :: next2) size) by (by apply parts_app in Hok2' as [_ ?]).
  destruct (merge_ok_part prev (p2 :: next2) size w2 L' Hm2 HI2) as (m2 & prev' & rest & w3 & -> & HI3 & Hs3 & Hok3 & He3 & Hm3). cbn [obind].
  assert (Hpp : mt_start prev < mt_start p).
  { destruct Hm2 as (_ & [Hord _ _ _ _ _] & _). simpl in Hord. lia. }
  assert (Hok4 : parts_ok 0 (reverse pre ++ prev' :: rest) size).
  { apply parts_app. change (end_of (prev' :: rest) size) with (mt_start prev'). rewrite Hs3. by apply parts_app in Hok2' as [? _]. }
  assert (He4 : expand (reverse pre ++ prev' :: rest) size = L').
  { rewrite <- He2', !(expand_app (reverse pre)). simpl end_of. by rewrite Hs3, He3. }
  destruct m2.
  - destruct Hm3 as [q [= -> ->]]. exists true, pre, prev', rest, w3. split_and!; try done; [lia|]. apply rounds_less; [lia|].
    destruct m1; [destruct Hm1 as [? ->]; left; simpl; lia|]. destruct Hm1 as [_ ->]. right. done.
  - destruct Hm3 as [-> ->]. exists m1, (prev :: pre), p2, next2, w3. rewrite reverse_cons, <- app_assoc.
    split_and!; try done; [lia|]. destruct m1; [|tauto]. destruct Hm1 as [q ->]. apply rounds_less; [lia|left; simpl; lia].
Qed.

(** The result of the loop: the pages of the range are changed, or on failure those up to where
    it stopped. *)
Definition ran (size start n : Z) (L : list pinfo) (r : bool * Z * list mregion_part * W) : Prop :=
  let '(b, stop, parts, w) := r in
  parts_ok 0 parts size /\ start <= stop <= start + n /\ stop mod 4096 = 0 /\
  (b = false -> no_part) /\
  let L' := upd f start (if b then start + n else stop) L in expand parts size = L' /\ Inv w L'.

Lemma ran_later size start n u L r : 0 <= u -> ran size (start + u) (n - u) (upd f start (start + u) L) r -> ran size start n L r.
Proof.
  intros Hu. destruct r as [[[b stop] parts] w]. intros (Hok & Hst & Hm & Hb & He & HI). unfold ran.
  rewrite upd_upd in He, HI by (destruct b; lia). replace (start + u + (n - u)) with (start + n) in * by lia.
  split_and!; try done; lia.
Qed.

Lemma ran_stop size start n parts (w : W) : no_part -> 0 <= n -> start mod 4096 = 0 -> parts_ok 0 parts size -> Inv w (expand parts size) ->
  ran size start n (expand parts size) (false, start, parts, w).
Proof. intros Hk Hn Hs Hok HI. unfold ran. rewrite upd_none by lia. split_and!; try done; lia. Qed.

Lemma ran_done size start n stop parts (w : W) L : start <= stop <= start + n -> stop mod 4096 = 0 -> parts_ok 0 parts size ->
  expand parts size = upd f start (start + n) L -> Inv w (upd f start (start + n) L) -> ran size start n L (true, stop, parts, w).
Proof. intros. unfold ran. done. Qed.

Lemma reverse_zip (pre : list mregion_part) p next : reverse (p :: pre) ++ next = reverse pre ++ p :: next.
Proof. by rewrite reverse_cons, <- app_assoc. Qed.

Lemma rounds_next size p next start : end_of (p :: next) size < start -> end_of next size <= start ->
  (rounds size next start < rounds size (p :: next) start)%nat.
Proof.
  intros Hp Hn. simpl in Hp. unfold rounds. rewrite (proj2 (Z.eqb_neq (mt_start p) start)), (proj2 (Z.leb_le _ _) Hn) by lia.
  destruct next as [|q next]; [simpl; lia|]. destruct (mt_start q =? start), (end_of next size <=? start); simpl; lia.
Qed.

(** A split before the range, or where it ends. *)
Lemma split_step size pre p next x L (w : W) : parts_ok 0 (reverse pre ++ p :: next) size -> expand (reverse pre ++ p :: next) size = L ->
  Inv w L -> mt_start p < x < end_of next size -> x mod 4096 = 0 ->
  exists sp w', mregion_part_split_lo p next x w = Ret (sp, w') /\ Inv w' L /\
    match sp with
    | None => no_part
    | Some (lo, hi) => mt_start lo = mt_start p /\ mt_start hi = x /\
        parts_ok 0 (reverse pre ++ lo :: hi :: next) size /\ expand (reverse pre ++ lo :: hi :: next) size = L
    end.
Proof.
  intros Hok He HI Hx Ha. pose proof (proj1 (zip_ok _ _ _ _) Hok) as (Hpre & Hp & Hnext).
  destruct (split_ok_part p _ x next size w L Hp eq_refl Hx Ha HI) as (sp & w1 & Es & HI1 & Hsp).
  exists sp, w1. split; [done|]. split; [done|]. destruct sp as [[lo hi]|]; [|done]. destruct Hsp as (Hlo & Hhi & Hplo & Hphi & Hpg).
  split; [done|]. split; [done|]. split.
  - apply zip_ok. simpl. rewrite Hlo, Hhi. done.
  - rewrite <- He, !zip_expand. simpl. by rewrite Hlo, Hhi, Hpg, <- app_assoc.
Qed.

Lemma loop_ok size fuel : forall pre rest start n (w : W) L, expand (reverse pre ++ rest) size = L ->
  parts_ok 0 (reverse pre ++ rest) size -> Inv w L -> end_of rest size <= start -> 0 < n -> start + n <= size ->
  start mod 4096 = 0 -> n mod 4096 = 0 -> range_all P start (start + n) L -> (rounds size rest start < fuel)%nat ->
  exists r, action_loop fuel size act pre rest start n w = Ret r /\ ran size start n L r.
Proof.
  induction fuel as [|fuel IH]; intros pre rest start n w L He Hok HI Hhd Hn Hle Hs Hm Hr Hf; [lia|].
  destruct rest as [|p next]; [simpl in Hhd; lia|]. simpl in Hhd. cbn [action_loop].
  pose proof (proj1 (zip_ok _ _ _ _) Hok) as (_ & [Hord Hpb Hpe _ _ _] & _).
  rewrite (proj2 (Z.ltb_lt _ _) Hord), oassert_true.
  destruct (Z.leb_spec (end_of next size) start) as [Hes|Hes].
  { apply (IH (p :: pre)); rewrite ?reverse_zip; try done. pose proof (rounds_next size p next start ltac:(simpl; lia) Hes). lia. }
  remember (Z.min (end_of next size) (start + n) - mt_start p) as u eqn:Hu.
  rewrite (proj2 (Z.leb_le u (end_of next size - mt_start p))), oassert_true by lia. rewrite (proj2 (Z.leb_le (mt_start p) start) Hhd).
  destruct (Z.eqb_spec start (mt_start p)) as [->|Hne].
  2:{ rewrite !orb_true_r, !oassert_true. cbn [negb].
      destruct (split_step size pre p next start L w Hok He HI ltac:(lia) Hs) as (sp & w1 & -> & HI1 & Hsp). cbn [obind].
      destruct sp as [[lo hi]|]; [|by subst L; eexists; split; [done|]; eapply ran_stop; [done|lia|..]]. destruct Hsp as (Hlo & Hhi & Hok1 & He1).
      apply (IH (lo :: pre)); rewrite ?reverse_zip; try done; [simpl; lia|]. unfold rounds in Hf |- *.
      rewrite Hhi, Z.eqb_refl. rewrite (proj2 (Z.eqb_neq (mt_start p) start)), (proj2 (Z.leb_gt _ _) Hes) in Hf by done. lia. }
  rewrite (proj2 (Z.leb_le u n)), (proj2 (Z.leb_le (mt_start p + u) (end_of next size))) by lia. cbn [orb negb]. rewrite !oassert_true.
  destruct (Z.eqb_spec (mt_start p + u) (end_of next size)) as [Hend|Hend].
  - subst L. destruct (here_step pre p next size w (mt_start p + n) Hok HI Hr ltac:(lia)) as (again & pre' & p' & next' & w1 & -> & Hok1 & He1 & HI1 & Hst & Hag).
    cbn [obind]. rewrite <- Hend in *. pose proof (range_all_upd P f (mt_start p) (mt_start p + u) (mt_start p + n) _ ltac:(lia) Hr) as Hr1.
    destruct (Z.eqb_spec n u) as [->|Hnu]; [eexists; split; [done|apply ran_done; (done || lia)]|].
    assert (Hgo : forall pre2 rest2, reverse pre2 ++ rest2 = reverse pre' ++ p' :: next' -> end_of rest2 size <= mt_start p + u ->
      (rounds size rest2 (mt_start p + u) < fuel)%nat ->
      exists r, action_loop fuel size act pre2 rest2 (mt_start p + u) (n - u) w1 = Ret r /\ ran size (mt_start p) n (expand (reverse pre ++ p :: next) size) r).
    { intros pre2 rest2 Hz Hh Hf2.
      destruct (IH pre2 rest2 (mt_start p + u) (n - u) w1 _ eq_refl) as (r & Er & Hran); rewrite ?Hz, ?He1; try done; [lia|lia|mlia| |].
      { by replace (mt_start p + u + (n - u)) with (mt_start p + n) by lia. }
      exists r. split; [done|]. rewrite Hz, He1 in Hran. apply (ran_later _ _ _ u); [lia|done]. }
    destruct again; [apply (Hgo pre' (p' :: next')); [done|simpl; lia|lia]|]. subst next'.
    apply (Hgo (p' :: pre') next); [apply reverse_zip|lia|]. unfold rounds in Hf |- *. rewrite Z.eqb_refl in Hf.
    destruct next as [|q next]; [lia|]. simpl in Hend. rewrite Hend, Z.eqb_refl. simpl in *. lia.
  - destruct (split_step size pre p next (mt_start p + u) L w Hok He HI ltac:(lia) ltac:(mlia)) as (sp & w1 & -> & HI1 & Hsp). cbn [obind].
    destruct sp as [[lo hi]|]; [|by subst L; eexists; split; [done|]; eapply ran_stop; [done|lia|..]]. destruct Hsp as (Hlo & Hhi & Hok1 & He1).
    assert (n = u) as -> by lia. rewrite Z.eqb_refl. rewrite <- Hlo in *. subst L. rewrite <- He1 in HI1, Hr.
    destruct (act_step pre lo (hi :: next) size w1 (mt_start lo + u) Hok1 HI1 Hr) as (lo' & w2 & Ha & Hs' & Hok2 & He2 & HI2); [simpl; lia|].
    simpl end_of in *. rewrite Hhi in *. rewrite Ha. cbn [obind]. eexists. split; [done|]. apply ran_done; try done; [lia|..]; by rewrite <- He1.
Qed.

(** [run_action] on a region. *)
Lemma run_ok r start n (w : W) : region_ok r -> Inv w (pages_of r) -> 0 <= start -> 0 <= n -> start + n <= mr_size r ->
  start mod 4096 = 0 -> n mod 4096 = 0 -> range_all P start (start + n) (pages_of r) ->
  exists x, run_action r start n act w = Ret x /\ ran (mr_size r) start n (pages_of r) x.
Proof.
  intros [Hsz Hok] HI Hs Hn Hle Ha Hm Hr. unfold run_action. destruct (Z.eqb_spec n 0) as [->|Hnz].
  { exists (true, start, mr_parts r, w). split; [done|]. apply ran_done; rewrite ?upd_none by lia; (done || lia). }
  rewrite uintptr_id by lia. rewrite (proj2 (Z.ltb_lt start (start + n))), oassert_true by lia.
  rewrite (proj2 (Z.leb_le _ _) Hle), oassert_true, !(proj2 (aligned_page _)), !oassert_true by done.
  rewrite bool_decide_eq_false_2, oassert_true by (intros Heq; rewrite Heq in Hok; simpl in Hok; lia).
  assert (Hb : end_of (mr_parts r) (mr_size r) = 0) by (destruct (mr_parts r); [simpl in Hok; lia|by destruct Hok as [? _]]).
  apply (loop_ok (mr_size r) _ [] (mr_parts r)); try done; [lia|lia|]. unfold rounds.
  destruct (mr_parts r) as [|q l]; [simpl; lia|]. destruct (mt_start q =? start), (end_of l (mr_size r) <=? start); simpl; lia.
Qed.

End Action.

(** The region after an action: the pages of the range are changed; on failure those up to
    [stop], and the second action was done to those up to [k]. *)
Definition acted (f g : pinfo -> pinfo) (r r' : mregion) (start n : Z) (ok : bool) (w : W) : Prop :=
  region_ok r' /\ (exists parts, r' = set_parts parts r) /\ Inv w (pages_of r') /\
  if ok then pages_of r' = upd f start (start + n) (pages_of r)
  else no_part /\
    exists stop k, start <= k <= stop /\ stop <= start + n /\ pages_of r' = upd g start k (upd f start stop (pages_of r)).

Lemma range_all_weaken (P Q : pinfo -> Prop) a b a' b' L : a <= a' -> b' <= b -> (forall v, P v -> Q v) -> range_all P a b L -> range_all Q a' b' L.
Proof. intros Ha Hb HPQ Hr i v Hv Hi. eapply HPQ, Hr; [done|lia]. Qed.

Lemma range_all_after (P Q : pinfo -> Prop) f a b L : (forall v, P v -> Q (f v)) -> range_all P a b L -> range_all Q a b (upd f a b L).
Proof.
  intros HPQ Hr i v Hv Hi. rewrite upd_lookup in Hv. destruct (L !! i) as [v'|] eqn:E; [|done]. simpl in Hv.
  rewrite (proj2 (Z.leb_le _ _)), (proj2 (Z.ltb_lt _ _)) in Hv by lia. injection Hv as <-. by eapply HPQ, Hr.
Qed.

Lemma action_ok f P act g Q undo r start n (w : W) : act_ok f P act -> act_ok g Q undo -> (forall v, P v -> Q (f v)) ->
  region_ok r -> Inv w (pages_of r) -> 0 <= start -> 0 <= n -> start + n <= mr_size r -> start mod 4096 = 0 -> n mod 4096 = 0 ->
  range_all P start (start + n) (pages_of r) ->
  exists ok r' w', mregion_part_action r start n act (Some undo) w = Ret (ok, r', w') /\ acted f g r r' start n ok w'.
Proof.
  intros Hf Hg HPQ Hr HI Hs Hn Hle Ha Hm Hall. unfold mregion_part_action.
  destruct (run_ok Hf r start n w Hr HI Hs Hn Hle Ha Hm Hall) as ([[[ok stop] parts] w1] & -> & Hok & Hst & Hsm & Hwhy & He & HI1). cbn [obind].
  assert (Hr1 : region_ok (set_parts parts r)) by (split; [apply Hr|done]).
  destruct ok.
  { exists true, (set_parts parts r), w1. split; [done|]. split; [done|]. split; [eauto|]. unfold pages_of. simpl. by rewrite He. }
  destruct (run_ok Hg (set_parts parts r) start (stop - start) w1 Hr1) as ([[[ok k] parts2] w2] & -> & Hok2 & Hk & _ & _ & He2 & HI2);
    [unfold pages_of; simpl; by rewrite He|lia|lia|simpl; lia|done|mlia| |].
  { replace (start + (stop - start)) with stop by lia. unfold pages_of. simpl. rewrite He. apply (range_all_after P); [done|].
    eapply range_all_weaken; [| | |exact Hall]; [lia|lia|done]. }
  cbn [obind]. replace (start + (stop - start)) with stop in * by lia.
  exists false, (set_parts parts2 (set_parts parts r)), w2. split; [done|]. unfold acted, pages_of in *. simpl in *. rewrite He in He2, HI2.
  split; [split; [apply Hr|done]|]. split; [by exists parts2|]. split; [by rewrite He2|].
  split; [by apply Hwhy|]. exists stop, (if ok then stop else k). split_and!; [destruct ok; lia|destruct ok; lia|lia|done].
Qed.

(** Without an action to undo. *)
Lemma action_alone_ok f P act r start n (w : W) : act_ok f P act ->
  region_ok r -> Inv w (pages_of r) -> 0 <= start -> 0 <= n -> start + n <= mr_size r -> start mod 4096 = 0 -> n mod 4096 = 0 ->
  range_all P start (start + n) (pages_of r) ->
  exists ok r' w', mregion_part_action r start n act None w = Ret (ok, r', w') /\ acted f id r r' start n ok w'.
Proof.
  intros Hf Hr HI Hs Hn Hle Ha Hm Hall. unfold mregion_part_action.
  destruct (run_ok Hf r start n w Hr HI Hs Hn Hle Ha Hm Hall) as ([[[ok stop] parts] w1] & -> & Hok & Hst & Hsm & Hwhy & He & HI1). cbn [obind].
  exists ok, (set_parts parts r), w1. split; [by destruct ok|]. split; [split; [apply Hr|done]|]. split; [eauto|]. unfold pages_of. simpl. rewrite He.
  split; [done|]. destruct ok; [done|]. split; [by apply Hwhy|]. exists stop, start. rewrite (upd_none id) by lia. split_and!; (done || lia).
Qed.

End Parts.
