(* ===== verification/RegionActs.v ===== *)
(** * Memory regions: references

    What the actions do to a page, and taking and dropping references to a range of a region. *)
From stdpp Require Import base numbers list.
From S2P Require Import Prelude Align PageAlloc PageScatter Mman MmanSpec MmanOps Region RegionSpec RegionOps.

Definition inc_page (v : pinfo) : pinfo := PInfo (pi_refcnt v + 1) (pi_state v) (pi_flags v) (pi_frame v).

(** The last reference takes the mark of a change away, and the frame of memory that is not to be
    kept. *)
Definition dec_page (r : mregion) (v : pinfo) : pinfo :=
  if pi_refcnt v =? 1 then
    let fl := if has (pi_flags v) MPART_FLAG_CHNG then Z.ldiff (pi_flags v) MPART_FLAG_CHNG else pi_flags v in
    if (mr_type r =? MREGION_TYPE_MEM) && negb (has fl MPART_FLAG_KEEP) then PInfo 0 MPART_STATE_MISSING fl None
    else PInfo 0 (pi_state v) fl (pi_frame v)
  else PInfo (pi_refcnt v - 1) (pi_state v) (pi_flags v) (pi_frame v).

Definition chng_page (v : pinfo) : pinfo := PInfo (pi_refcnt v) (pi_state v) (Z.lor (pi_flags v) MPART_FLAG_CHNG) (pi_frame v).

(** The state of pages that are not memory of the region's own. *)
Definition state_ok (r : mregion) (st : Z) : Prop :=
  (mr_type r = MREGION_TYPE_PHYSICAL -> st = MPART_STATE_INCORE) /\
  (MREGION_TYPE_ISGUARD (mr_type r) = true -> st = MPART_STATE_MISSING).

Definition can_inc (v : pinfo) : Prop := 0 <= pi_refcnt v < 2 ^ 32 - 1.
Definition can_dec (r : mregion) (v : pinfo) : Prop := 1 <= pi_refcnt v < 2 ^ 32 /\ state_ok r (pi_state v).

Lemma part_pages_cases p e : part_ok p e -> exists v l, part_pages p e = v :: l /\
  pi_refcnt v = mt_refcnt p /\ pi_state v = mt_state p /\ pi_flags v = mt_flags p.
Proof.
  intros Hp. pose proof (pages_length _ _ Hp) as Hl. destruct Hp as [Ho _ _ _ _ _]. unfold part_pages in *.
  destruct (part_frames p e) as [|fr F]; [unfold zlen in Hl; simpl in Hl; lia|]. rewrite fmap_cons. eexists _, _. done.
Qed.

(** A property of the pages of a part is one of the part. *)
Lemma part_prop (P : pinfo -> Prop) p e : part_ok p e -> Forall P (part_pages p e) ->
  exists fr, P (PInfo (mt_refcnt p) (mt_state p) (mt_flags p) fr).
Proof.
  intros Hp Hall. destruct (part_pages_cases p e Hp) as (v & l & Hv & <- & <- & <-). rewrite Hv in Hall.
  apply Forall_cons in Hall as [Hall _]. exists (pi_frame v). by destruct v.
Qed.

Section Acts.

Context {W : Type} `{PartLaws W Own}.

(** An action on the counters and flags of a part. *)
Lemma fields_act_ok f P (act : part_action) (g : mregion_part -> mregion_part) :
  (forall p e (w : W), part_ok p e -> Forall P (part_pages p e) -> act p e w = Ret (g p, w)) ->
  (forall p, mt_start (g p) = mt_start p /\ mt_state (g p) = mt_state p /\ mt_memory (g p) = mt_memory p) ->
  (forall p e fr, part_ok p e -> Forall P (part_pages p e) ->
     f (PInfo (mt_refcnt p) (mt_state p) (mt_flags p) fr) = PInfo (mt_refcnt (g p)) (mt_state p) (mt_flags (g p)) fr) ->
  act_ok (Own := Own) f P act.
Proof.
  intros Hrun Hg Hf A C p e w Hp HP HO. destruct (Hg p) as (Hs & Hst & Hme). exists (g p), w. rewrite (Hrun p e w Hp HP).
  assert (Hfr : part_frames (g p) e = part_frames p e) by (unfold part_frames; by rewrite Hs, Hst, Hme).
  assert (Hpg : part_pages (g p) e = f <$> part_pages p e).
  { unfold part_pages at 1. rewrite Hfr, Hst. unfold part_pages. rewrite <- list_fmap_compose. apply list_fmap_ext.
    intros _ fr _. unfold compose. by rewrite (Hf p e fr Hp HP). }
  split; [done|]. split; [done|]. split; [destruct Hp; split; rewrite ?Hs, ?Hst, ?Hme; done|]. split; [done|].
  assert (Hframes : pi_frame <$> (f <$> part_pages p e) = pi_frame <$> part_pages p e).
  { rewrite <- Hpg. unfold part_pages. rewrite Hfr, <- !list_fmap_compose. done. }
  rewrite !fmap_app in HO |- *. by rewrite Hframes.
Qed.

Lemma incref_act_ok : act_ok (Own := Own) inc_page can_inc action_incref.
Proof.
  apply (fields_act_ok _ _ _ (fun p => with_refcnt (uintptr (mt_refcnt p + 1)) p)); [done|done|].
  intros p e fr Hp HP. destruct (part_prop _ _ _ Hp HP) as [? [Hr1 Hr2]]. simpl in *. unfold inc_page. simpl. by rewrite uintptr_id by lia.
Qed.

Lemma stchng_act_ok : act_ok (Own := Own) chng_page (fun _ => True) action_stchng.
Proof. by apply (fields_act_ok _ _ _ (fun p => with_flags (Z.lor (mt_flags p) MPART_FLAG_CHNG) p)). Qed.

Lemma sync_ok r p e (w : W) F : Own w F -> Own (sync_part r p e w) F.
Proof.
  intros HO. unfold sync_part. destruct (negb _); [done|]. destruct (negb _); [done|]. destruct (_ && _); [done|].
  generalize (mri_start (mr_setup r) + mt_start p), (if mt_start p <? mri_begin (mr_setup r) then mri_begin (mr_setup r) - mt_start p else 0).
  revert w HO. induction (mt_memory p) as [|[s n] c IH]; intros w HO pos skip; simpl; [done|].
  destruct (_ <=? pos); [done|]. destruct (_ && _); [by apply IH|].
  match goal with |- context [file_kpwriteall ?a ?b ?c ?d w] => pose proof (pwriteall_ok w F a b c d HO) as HO'; destruct (file_kpwriteall a b c d w) as [er w'] end.
  simpl in HO'. destruct (E_ISERR er); [done|by apply IH].
Qed.

Lemma state_ok_spec r st : state_ok r st ->
  (if mr_type r =? MREGION_TYPE_PHYSICAL then st =? MPART_STATE_INCORE
   else if MREGION_TYPE_ISGUARD (mr_type r) then st =? MPART_STATE_MISSING else true) = true.
Proof.
  intros [Hp Hg]. destruct (Z.eqb_spec (mr_type r) MREGION_TYPE_PHYSICAL) as [E|_]; [by apply Z.eqb_eq, Hp|].
  destruct (MREGION_TYPE_ISGUARD (mr_type r)); [by apply Z.eqb_eq, Hg|done].
Qed.

(** Frames of a part that is freed. *)
Lemma drop_frames_ok p e A C (w : W) : FreeLaws W Own -> part_ok p e -> Own w (A ++ part_frames p e ++ C) ->
  exists w', (if mt_state p =? MPART_STATE_INCORE then free_scatter (mt_memory p) PAGEATTR_NONE w else Ret w) = Ret w' /\
    Own w' (A ++ replicate (page_count (mt_start p) e) None ++ C).
Proof.
  intros HF Hp HO. pose proof (frames_length _ _ Hp) as Hl. unfold part_frames in *. destruct (Z.eqb_spec (mt_state p) MPART_STATE_INCORE) as [Hst|Hst].
  - destruct (free_frames_ok w A (mt_memory p) C (ok_links _ _ Hp Hst) HO) as (w' & Hf & HO'). exists w'. split; [done|].
    replace (page_count (mt_start p) e) with (length (chain_pages (mt_memory p))); [done|].
    unfold zlen in Hl. rewrite length_fmap in Hl. unfold page_count. mlia.
  - exists w. done.
Qed.

Lemma drop_part_ok r p e A C (w : W) : (mr_type r = MREGION_TYPE_MEM -> FreeLaws W Own) -> part_ok p e -> mt_refcnt p = 0 ->
  state_ok r (mt_state p) -> Own w (A ++ part_frames p e ++ C) ->
  let f := fun fr => dec_page r (PInfo 1 (mt_state p) (mt_flags p) fr) in
  exists p' w', drop_part r p e PAGEATTR_NONE w = Ret (p', w') /\ mt_start p' = mt_start p /\ part_ok p' e /\
    part_pages p' e = f <$> part_frames p e /\ Own w' (A ++ (pi_frame <$> (f <$> part_frames p e)) ++ C).
Proof.
  intros HF Hp Hz Hst HO f. unfold drop_part.
  set (fl := if has (mt_flags p) MPART_FLAG_CHNG then Z.ldiff (mt_flags p) MPART_FLAG_CHNG else mt_flags p).
  assert (Hpair : exists w1, (if has (mt_flags p) MPART_FLAG_CHNG
      then (with_flags (Z.ldiff (mt_flags p) MPART_FLAG_CHNG) p, sync_part r p e w) else (p, w)) = (with_flags fl p, w1) /\
    Own w1 (A ++ part_frames p e ++ C)).
  { unfold fl. destruct (has (mt_flags p) MPART_FLAG_CHNG); [eexists; split; [done|by apply sync_ok]|].
    exists w. split; [by destruct p|done]. }
  destruct Hpair as (w1 & -> & HO1). cbn [mt_flags with_flags mt_state mt_memory].
  unfold f, dec_page. cbn [pi_refcnt pi_flags pi_state pi_frame]. rewrite Z.eqb_refl. fold fl.
  assert (Hkeep : forall q, mt_start q = mt_start p -> mt_refcnt q = 0 -> mt_state q = mt_state p -> mt_flags q = fl -> mt_memory q = mt_memory p ->
    mt_start q = mt_start p /\ part_ok q e /\ part_pages q e = (fun fr => PInfo 0 (mt_state p) fl fr) <$> part_frames p e /\
    Own w1 (A ++ (pi_frame <$> ((fun fr => PInfo 0 (mt_state p) fl fr) <$> part_frames p e)) ++ C)).
  { intros q E1 E2 E3 E4 E5. split; [done|]. split; [destruct Hp; split; rewrite ?E1, ?E3, ?E5; done|].
    split; [unfold part_pages, part_frames; by rewrite E1, E2, E3, E4, E5|]. rewrite <- list_fmap_compose. unfold compose. simpl. by rewrite list_fmap_id. }
  destruct (Z.eqb_spec (mr_type r) MREGION_TYPE_MEM) as [Hm|Hm]; cbn [andb].
  - destruct (has fl MPART_FLAG_KEEP) eqn:Hk; cbn [negb].
    + exists (with_flags fl p), w1. split; [done|]. by apply Hkeep.
    + destruct (drop_frames_ok p e A C w1 (HF Hm) Hp HO1) as (w2 & Hw2 & HO2). rewrite Hw2. cbn [obind].
      eexists _, w2. split; [done|]. cbn [mt_start with_state with_flags]. split; [done|]. split; [destruct Hp; by split|].
      pose proof (frames_length _ _ Hp) as Hl.
      assert (Hconst : (fun _ : option Z => PInfo 0 MPART_STATE_MISSING fl None) <$> part_frames p e = replicate (page_count (mt_start p) e) (PInfo 0 MPART_STATE_MISSING fl None)).
      { replace (page_count (mt_start p) e) with (length (part_frames p e)) by (unfold zlen, page_count in *; mlia).
        clear. induction (part_frames p e) as [|x l IH]; simpl; [done|]. by f_equal. }
      rewrite Hconst. unfold part_pages, part_frames. cbn. rewrite Hz, !fmap_replicate. done.
  - rewrite (state_ok_spec r (mt_state p) Hst), oassert_true. exists (with_flags fl p), w1. split; [done|]. by apply Hkeep.
Qed.

Lemma decref_act_ok r : (mr_type r = MREGION_TYPE_MEM -> FreeLaws W Own) -> act_ok (Own := Own) (dec_page r) (can_dec r) (action_decref r).
Proof.
  intros HF A C p e w Hp HP HO. destruct (part_prop _ _ _ Hp HP) as [? [[Hr1 Hr2] Hst]]. simpl in Hr1, Hr2, Hst.
  unfold action_decref, action_do_decref. rewrite (proj2 (Z.eqb_neq (mt_refcnt p) 0)) by lia. cbn [negb]. rewrite oassert_true. cbn [mt_refcnt with_refcnt].
  assert (Hfr : forall q, pi_frame <$> (PInfo (mt_refcnt q) (mt_state q) (mt_flags q) <$> part_frames q e) = part_frames q e).
  { intros q. rewrite <- list_fmap_compose. unfold compose. simpl. by rewrite list_fmap_id. }
  unfold part_pages in *. rewrite !fmap_app, Hfr in HO. destruct (Z.eqb_spec (mt_refcnt p - 1) 0) as [Hz|Hz].
  - destruct (drop_part_ok r (with_refcnt (mt_refcnt p - 1) p) e (pi_frame <$> A) (pi_frame <$> C) w HF) as (p' & w' & Hd & Hs & Hp' & Hpg & HO'); try done.
    { destruct Hp. by split. }
    exists p', w'. rewrite Hd. split; [done|]. split; [done|]. split; [done|]. rewrite <- list_fmap_compose. unfold compose.
    replace (mt_refcnt p) with 1 by lia. unfold part_pages in Hpg. rewrite Hpg. split; [done|]. by rewrite !fmap_app.
  - eexists _, w. split; [done|]. split; [done|]. split; [destruct Hp; by split|].
    rewrite <- list_fmap_compose. unfold compose, dec_page. simpl. rewrite (proj2 (Z.eqb_neq (mt_refcnt p) 1)) by lia. split; [done|].
    rewrite !fmap_app, <- list_fmap_compose. unfold compose. simpl. by rewrite list_fmap_id.
Qed.

(** ** References to a range *)

Definition owns (r : mregion) (w : W) : Prop := Own w (pi_frame <$> pages_of r).
Definition frees_ok (r : mregion) : Prop := mr_type r = MREGION_TYPE_MEM -> FreeLaws W Own.
Definition range_in (r : mregion) (start n : Z) : Prop :=
  0 <= start /\ 0 <= n /\ start + n <= mr_size r /\ start mod 4096 = 0 /\ n mod 4096 = 0.

(** The pages of [r'] are those of [r], changed to one of [f] in the range. *)
Definition changed_to (fs : list (pinfo -> pinfo)) (r r' : mregion) (start n : Z) : Prop := forall i v,
  pages_of r !! i = Some v -> pages_of r' !! i = Some v \/
    start <= 4096 * Z.of_nat i < start + n /\ exists f, f ∈ fs /\ pages_of r' !! i = Some (f v).

Lemma upd_either f a b L i v : L !! i = Some v -> upd f a b L !! i = Some v \/ a <= 4096 * Z.of_nat i < b /\ upd f a b L !! i = Some (f v).
Proof.
  intros Hv. rewrite upd_lookup, Hv. simpl. destruct (Z.leb_spec a (4096 * Z.of_nat i)), (Z.ltb_spec (4096 * Z.of_nat i) b); simpl; auto.
Qed.

Lemma failed_changed f g r r' start n stop k : start <= k <= stop -> stop <= start + n ->
  pages_of r' = upd g start k (upd f start stop (pages_of r)) -> changed_to [f; g ∘ f] r r' start n.
Proof.
  intros Hk Hs He i v Hv. rewrite He. destruct (upd_either f start stop _ i v Hv) as [H1|[Hi H1]].
  - destruct (upd_either g start k _ i _ H1) as [H2|[Hi H2]]; [by left|]. rewrite upd_lookup, Hv in H1. simpl in H1.
    rewrite (proj2 (Z.leb_le _ _)), (proj2 (Z.ltb_lt _ _)) in H1 by lia. simpl in H1. injection H1 as H1. right. split; [lia|].
    exists (g ∘ f). split; [right; by left|]. rewrite H2. unfold compose. by rewrite H1.
  - right. split; [lia|]. destruct (upd_either g start k _ i _ H1) as [H2|[_ H2]]; [exists f|exists (g ∘ f)]; (split; [|done]); [by left|right; by left].
Qed.

Lemma part_incref_ok r start n (w : W) : region_ok r -> owns r w -> frees_ok r -> range_in r start n ->
  range_all (fun v => can_inc v /\ state_ok r (pi_state v)) start (start + n) (pages_of r) ->
  exists ok r' w', mregion_part_incref r start n w = Ret (ok, r', w') /\ acted (Own := Own) inc_page (dec_page r) r r' start n ok w'.
Proof.
  intros Hr HO HF (H1 & H2 & H3 & H4 & H5) Hall. unfold mregion_part_incref.
  apply (action_ok inc_page (fun v => can_inc v /\ state_ok r (pi_state v)) _ (dec_page r) (can_dec r)); try done.
  - intros A C p e w0 Hp HP. apply incref_act_ok; [done|]. eapply Forall_impl; [exact HP|]. by intros v [? _].
  - by apply decref_act_ok.
  - intros v [[? ?] ?]. split; [simpl; lia|done].
Qed.

Lemma part_decref_ok r start n (w : W) : region_ok r -> owns r w -> frees_ok r -> range_in r start n ->
  range_all (can_dec r) start (start + n) (pages_of r) ->
  exists ok r' w', mregion_part_decref r start n w = Ret (r', w') /\ acted (Own := Own) (dec_page r) inc_page r r' start n ok w'.
Proof.
  intros Hr HO HF (H1 & H2 & H3 & H4 & H5) Hall. unfold mregion_part_decref.
  destruct (action_ok (dec_page r) (can_dec r) (action_decref r) inc_page can_inc action_incref r start n w) as (ok & r' & w' & -> & Hac); try done.
  - by apply decref_act_ok.
  - apply incref_act_ok.
  - intros v [[Hv1 Hv2] _]. unfold can_inc, dec_page. destruct (Z.eqb_spec (pi_refcnt v) 1); [destruct (_ && _); simpl; lia|simpl; lia].
  - exists ok, r', w'. done.
Qed.

End Acts.
