(* ===== verification/RegionPages.v ===== *)
(** * The frames of memory regions

    The environment of regions with the page allocator behind it: the frames of a memory region
    are pages that are not free, each of them once. *)
From stdpp Require Import base numbers list.
From S2P Require Import Prelude Align PageAlloc PageScatter Mman Region RegionSpec RegionOps.

(** The page allocator, whether the next calls of kmalloc() return memory (they do when the list
    is over), what waiting for the next locks returns, and what was written to files. *)
Record core : Type := Core {
  core_pages : pages; core_answers : list bool; core_locks : list Z; core_written : list (Z * Z * Z * Z) }.

Definition set_pages (st : pages) (w : core) : core := Core st (core_answers w) (core_locks w) (core_written w).

Definition answer (w : core) : bool * core :=
  match core_answers w with
  | [] => (true, w)
  | b :: l => (b, Core (core_pages w) l (core_locks w) (core_written w))
  end.

Local Abbreviation spec := mzone_spec_i386.

#[export] Instance core_ops : PartOps core := {
  kmalloc_part := answer;
  kmalloc_link := answer;
  kcalloc_region := answer;
  free_scatter c attr w := let! st := page_free_scatter (2 ^ 32) (2 ^ 32) spec (core_pages w) c attr in Ret (set_pages st w);
  malloc_scatter n min attr w :=
    let! (r, st) := page_malloc_scatter (2 ^ 32) (2 ^ 32) spec (core_pages w) (core_answers w) 0 n min attr 1 in
    Ret (r, set_pages st w);
  file_kpwriteall f m n pos w := (0, Core (core_pages w) (core_answers w) (core_locks w) (core_written w ++ [(f, m, n, pos)]));
  rwlock_write w := match core_locks w with
                    | [] => (0, w)
                    | e :: l => (e, Core (core_pages w) (core_answers w) l (core_written w))
                    end;
  region_clear _ w := w;
  region_fini _ w := w
}.

(** A frame that is in use. *)
Definition frame_ok (st : pages) (p : Z) : Prop :=
  p mod 4096 = 0 /\ forall x, p <= x < p + 4096 -> ~ is_free st x /\ 0 <= x < phys_end spec.

Definition frames (F : list (option Z)) : list Z := omap id F.

Definition in_frames (F : list (option Z)) (x : Z) : Prop := exists p, p ∈ frames F /\ p <= x < p + 4096.

(** The frames [F] are in use, and with them and the free memory there is as much as there was:
    the addresses [base]. *)
Record core_own (base : Z -> Prop) (w : core) (F : list (option Z)) : Prop := {
  own_inv : pages_inv spec (core_pages w);
  own_nodup : NoDup (frames F);
  own_frames : Forall (frame_ok (core_pages w)) (frames F);
  own_all x : base x <-> is_free (core_pages w) x \/ in_frames F x
}.

Lemma frames_app A B : frames (A ++ B) = frames A ++ frames B.
Proof. apply omap_app. Qed.

Lemma frames_some l : frames (Some <$> l) = l.
Proof. induction l as [|x l IH]; [done|]. rewrite fmap_cons. unfold frames in *. cbn. f_equal. exact IH. Qed.

Lemma frames_none k : frames (replicate k None) = [].
Proof. by induction k. Qed.

(** ** Chains and their pages *)

Lemma link_page_elem s n p : 0 <= n -> n mod 4096 = 0 -> p ∈ link_pages (s, n) <-> exists i, 0 <= i < n / 4096 /\ p = s + i * 4096.
Proof.
  intros Hn Ha. unfold link_pages. rewrite list_elem_of_fmap. unfold PAGESIZE. cbn [fst snd]. split.
  - intros (i & -> & Hi%elem_of_seqZ). exists i. split; [lia|done].
  - intros (i & Hi & ->). exists i. split; [done|]. apply elem_of_seqZ. lia.
Qed.

Lemma in_chain_pages c x : Forall link_ok c -> in_chain c x <-> exists p, p ∈ chain_pages c /\ p <= x < p + 4096.
Proof.
  induction 1 as [|[s n] c [Hn Ha] Hc IH]; [split; [by intros ?%Exists_nil|by intros (? & ?%not_elem_of_nil & _)]|].
  rewrite in_chain_cons, IH, chain_pages_cons. cbn [fst snd] in *. unfold inside. split.
  - intros [Hx|(p & Hp & Hx)].
    + exists (s + (x - s) / 4096 * 4096). rewrite elem_of_app, link_page_elem by (done || lia).
      split; [left; exists ((x - s) / 4096); mlia|mlia].
    + exists p. rewrite elem_of_app. by split; [right|].
  - intros (p & Hp & Hx). apply elem_of_app in Hp as [Hp|Hp]; [left|right; eauto].
    apply link_page_elem in Hp as (i & Hi & ->); [|lia|done]. mlia.
Qed.

(** Chains whose frames are aligned and different. *)
Lemma chain_ok_pages c : Forall link_ok c -> NoDup (chain_pages c) -> Forall (fun p => p mod 4096 = 0) (chain_pages c) -> chain_ok c.
Proof.
  intros Hc. induction Hc as [|[s n] c Hl Hc IH]; intros Hnd Ha; [by split|].
  rewrite chain_pages_cons in Hnd, Ha. apply NoDup_app in Hnd as (Hn1 & Hdis & Hn2). apply Forall_app in Ha as [Ha1 Ha2].
  destruct (IH Hn2 Ha2) as [IH1 IH2]. pose proof Hl as [Hn Hm]. cbn [fst snd] in *. assert (Hs : s mod 4096 = 0).
  { rewrite (link_pages_first s n Hl) in Ha1. by apply Forall_cons in Ha1 as [? _]. }
  split; [by constructor|]. split; [|done]. intros x Hx Hin. apply in_chain_pages in Hin as (p & Hp & Hpx); [|done].
  assert (Hx' : in_chain [(s, n)] x) by (apply in_chain_cons; by left).
  apply in_chain_pages in Hx' as (q & Hq & Hqx); [|by constructor]. rewrite chain_pages_cons, app_nil_r in Hq.
  rewrite Forall_forall in Ha1, Ha2. specialize (Ha1 _ Hq). specialize (Ha2 _ Hp). simpl in Ha1, Ha2.
  assert (p = q) as -> by mlia. by apply (Hdis q).
Qed.

Lemma decide_in_chain c x : in_chain c x \/ ~ in_chain c x.
Proof. unfold in_chain, inside. destruct (decide (Exists (fun l => l.1 <= x < l.1 + l.2) c)); [by left|by right]. Qed.

Lemma chain_pages_ok c : chain_ok c -> Forall link_ok c /\ NoDup (chain_pages c) /\ Forall (fun p => p mod 4096 = 0) (chain_pages c).
Proof.
  intros [Hl Hd]. induction c as [|[s n] c IH]; [split_and!; constructor|]. apply Forall_cons in Hl as [[Hl1 Hs] Hl]. destruct Hd as [Hd1 Hd].
  destruct (IH Hl Hd) as (IH1 & IH2 & IH3). pose proof Hl1 as [Hn Ha]. cbn [fst snd] in *. rewrite chain_pages_cons. split; [by constructor|]. split.
  - apply NoDup_app. split; [apply NoDup_fmap_2; [intros i j; unfold PAGESIZE; simpl; lia|apply NoDup_seqZ]|]. split; [|done].
    intros p Hp Hq. apply (Hd1 p).
    + apply link_page_elem in Hp as (i & Hi & ->); [|lia|done]. unfold inside. cbn [fst snd]. mlia.
    + apply in_chain_pages; [done|]. exists p. split; [done|lia].
  - apply Forall_app. split; [|done]. apply Forall_forall. intros p Hp. apply link_page_elem in Hp as (i & _ & ->); [mlia|lia|done].
Qed.

(** ** The promises *)

Lemma in_frames_app A B x : in_frames (A ++ B) x <-> in_frames A x \/ in_frames B x.
Proof. unfold in_frames. rewrite frames_app. setoid_rewrite elem_of_app. firstorder. Qed.

Lemma in_frames_some c x : Forall link_ok c -> in_frames (Some <$> chain_pages c) x <-> in_chain c x.
Proof. intros Hc. unfold in_frames. by rewrite frames_some, in_chain_pages. Qed.

Lemma in_frames_none k x : ~ in_frames (replicate k None) x.
Proof. intros (p & Hp & _). rewrite frames_none in Hp. by apply not_elem_of_nil in Hp. Qed.

Lemma core_own_pages base w w' F : core_pages w' = core_pages w -> core_own base w F -> core_own base w' F.
Proof. intros He [H1 H2 H3 H4]. split; [by rewrite He|done|by rewrite He|]. intros x. rewrite He. apply H4. Qed.

Lemma answer_pages w : core_pages (answer w).2 = core_pages w.
Proof. unfold answer. by destruct (core_answers w). Qed.

#[export] Instance core_laws base : PartLaws core (core_own base).
Proof.
  split; intros w F; intros; (eapply core_own_pages; [|eassumption]); try apply answer_pages; try done.
  simpl. by destruct (core_locks w).
Qed.

(** Frames stay in use while others are freed. *)
Lemma frame_kept st st' c p : Forall link_ok c -> (forall x, is_free st' x <-> is_free st x \/ in_chain c x) ->
  Forall (fun q => q mod 4096 = 0) (chain_pages c) -> p ∉ chain_pages c -> frame_ok st p -> frame_ok st' p.
Proof.
  intros Hc Hf Ha Hp [Hm Hx]. split; [done|]. intros x Hin. destruct (Hx x Hin) as [Hnf Hb]. split; [|done]. intros [?|Hch]%Hf; [done|].
  apply in_chain_pages in Hch as (q & Hq & Hqx); [|done]. rewrite Forall_forall in Ha. specialize (Ha q Hq). simpl in Ha.
  apply Hp. by assert (p = q) as -> by mlia.
Qed.

Lemma core_free base w A c C : Forall link_ok c -> core_own base w (A ++ (Some <$> chain_pages c) ++ C) ->
  exists w', free_scatter c PAGEATTR_NONE w = Ret w' /\ core_own base w' (A ++ replicate (length (chain_pages c)) None ++ C).
Proof.
  intros Hc [Hi Hn Hfr Hall]. rewrite !frames_app, frames_some in Hn, Hfr. apply NoDup_app in Hn as (HnA & HdA & Hn).
  apply NoDup_app in Hn as (Hnc & Hdc & HnC). apply Forall_app in Hfr as [HfA Hfr]. apply Forall_app in Hfr as [Hfc HfC].
  assert (Ha : Forall (fun p => p mod 4096 = 0) (chain_pages c)) by (eapply Forall_impl; [exact Hfc|]; by intros p [? _]).
  destruct (free_chain_ok (2 ^ 32) (2 ^ 32) spec (core_pages w) c PAGEATTR_NONE Hi) as (st' & Hst & Hi' & Hf' & _).
  - by apply chain_ok_pages.
  - intros x Hx. apply in_chain_pages in Hx as (p & Hp & Hpx); [|done]. rewrite Forall_forall in Hfc. by apply (Hfc p Hp).
  - done.
  - simpl. rewrite Hst. cbn [obind]. eexists. split; [done|]. split; cbn [core_pages set_pages]; [done| | |]; rewrite ?frames_app, ?frames_none; simpl.
    + apply NoDup_app. split; [done|]. split; [|done]. intros p Hp. specialize (HdA p Hp). rewrite elem_of_app in HdA. intuition.
    + apply Forall_app. rewrite Forall_forall in HfA, HfC. split; apply Forall_forall; intros p Hp;
        (apply (frame_kept (core_pages w) st' c p Hc Hf' Ha); [|auto]).
      * intros Hpc. apply (HdA p Hp), elem_of_app. by left.
      * intros Hpc. by apply (Hdc p Hpc).
    + intros x. rewrite Hall, Hf', !in_frames_app, in_frames_some by done. pose proof (in_frames_none (length (chain_pages c)) x). tauto.
Qed.

(** Memory that was free becomes frames. *)
Lemma frames_taken base w st' A c C k : core_own base w (A ++ replicate k None ++ C) -> pages_inv spec st' -> chain_ok c ->
  (forall x, in_chain c x -> is_free (core_pages w) x) -> (forall x, is_free st' x <-> is_free (core_pages w) x /\ ~ in_chain c x) ->
  core_own base (set_pages st' w) (A ++ (Some <$> chain_pages c) ++ C).
Proof.
  intros [Hi Hn Hfr Hall] Hi' Hok Hin Hf. destruct (chain_pages_ok c Hok) as (Hl & Hnd & Hal).
  rewrite !frames_app, frames_none in Hn, Hfr. simpl in Hn, Hfr. apply NoDup_app in Hn as (HnA & HdA & HnC). apply Forall_app in Hfr as [HfA HfC].
  assert (Hold : forall p, frame_ok (core_pages w) p -> ~ p ∈ chain_pages c).
  { intros p [_ Hp] Hpc. destruct (Hp p) as [Hnf _]; [lia|]. apply Hnf, Hin, in_chain_pages; [done|]. exists p. split; [done|lia]. }
  assert (Hkeep : forall p, frame_ok (core_pages w) p -> frame_ok st' p).
  { intros p [Hm Hp]. split; [done|]. intros x Hx. destruct (Hp x Hx) as [Hnf Hb]. split; [|done]. by intros [? _]%Hf. }
  rewrite Forall_forall in HfA, HfC. split; cbn [core_pages set_pages]; rewrite ?frames_app, ?frames_some; [done| | |].
  - apply NoDup_app. split; [done|]. split; [intros p Hp [Hq|Hq]%elem_of_app; [by apply (Hold p); [apply HfA|]|by apply (HdA p)]|].
    apply NoDup_app. split; [done|]. split; [|done]. intros p Hp Hq. by apply (Hold p); [apply HfC|].
  - apply Forall_app. split; [apply Forall_forall; auto|]. apply Forall_app. split; [|apply Forall_forall; auto].
    apply Forall_forall. intros p Hp. rewrite Forall_forall in Hal. split; [by apply Hal|]. intros x Hx.
    assert (Hc : in_chain c x) by (apply in_chain_pages; eauto). split; [by intros [_ ?]%Hf|]. exact (free_below_end (2 ^ 32) spec _ x Hi (Hin x Hc)).
  - intros x. rewrite Hall, Hf, !in_frames_app, in_frames_some by done. specialize (Hin x). pose proof (in_frames_none k x).
    destruct (decide_in_chain c x); tauto.
Qed.

Lemma core_malloc base w A k C attr : core_own base w (A ++ replicate k None ++ C) -> 0 < 4096 * Z.of_nat k < 2 ^ 32 - 4096 ->
  exists r w', malloc_scatter (4096 * Z.of_nat k) PAGESIZE attr w = Ret (r, w') /\
    match r with
    | Some c => Forall link_ok c /\ length (chain_pages c) = k /\ core_own base w' (A ++ (Some <$> chain_pages c) ++ C)
    | None => core_own base w' (A ++ replicate k None ++ C)
    end.
Proof.
  intros HO Hn. pose proof HO as [Hi Hnd Hfr Hall].
  destruct (malloc_scatter_ok (2 ^ 32) (2 ^ 32) spec (core_pages w) (core_answers w) 0 (4096 * Z.of_nat k) PAGESIZE attr 1 Hi) as (r & st' & Hr & Hc);
    [lia|unfold PAGESIZE; lia|done|cbn; lia|].
  simpl malloc_scatter. rewrite Hr. cbn [obind]. eexists _, _. split; [done|]. destruct r as [c|].
  - destruct Hc as ((Hi' & Hok & Hin & Hf & _) & Hz). destruct (chain_pages_ok c Hok) as (Hl & _). split; [done|].
    rewrite ceil_page_id in Hz by (done || unfold PAGESIZE; lia || mlia). unfold zlen, PAGESIZE in Hz. split; [lia|]. by apply (frames_taken base w st' A c C k).
  - destruct Hc as (Hi' & Hf & _). split; cbn [core_pages set_pages]; [done|done| |intros x; by rewrite Hall, Hf].
    eapply Forall_impl; [exact Hfr|]. intros p [Hm Hp]. split; [done|]. intros x Hx. rewrite Hf. by apply Hp.
Qed.

#[export] Instance core_frees base : FreeLaws core (core_own base).
Proof.
  assert (Hn : forall x, ~ in_frames [] x) by (intros x (? & ?%not_elem_of_nil & _); done).
  split; [apply core_free|apply core_malloc| |]; intros w k [Hi _ _ Hall]; (split; rewrite ?frames_none; [done|constructor..|]);
    intros x; rewrite Hall; pose proof (in_frames_none k x); specialize (Hn x); tauto.
Qed.

