(* ===== verification/RegionTheorems.v ===== *)
(** * Memory regions: results

    Taking and dropping references to ranges, destroying and creating regions, for every
    environment with the promises of [PartLaws], and the page allocator as such an environment. *)
From stdpp Require Import base numbers list.
From S2P Require Import Prelude Align PageAlloc PageScatter Mman MmanSpec MmanOps Region RegionSpec RegionOps RegionActs RegionPages.

Section Results.

Context {W : Type} `{PartLaws W Own}.

Lemma acted_counter f g r r' start n ok (w : W) : acted (Own := Own) f g r r' start n ok w ->
  region_ok r' /\ owns (Own := Own) r' w /\ mr_refcnt r' = mr_refcnt r /\ mr_type r' = mr_type r /\ mr_size r' = mr_size r.
Proof. intros (Hr & [parts ->] & HO & _). done. Qed.

Lemma acted_changed f g r r' start n (w : W) : acted (Own := Own) f g r r' start n false w -> changed_to [f; g ∘ f] r r' start n.
Proof. intros (_ & _ & _ & _ & stop & k & Hk & Hs & He). by eapply failed_changed. Qed.

(** C14: Taking a reference to a range of a region gives every page of the range one more
    reference and changes no other page, whatever parts the region is divided into.  Without memory
    for a part the call fails; then pages in use keep their contents and have the reference or
    not.  When waiting for the lock is interrupted only the counter of the region has changed. *)
Theorem region_incref_correct r start n (w : W) : region_ok r -> owns (Own := Own) r w -> frees_ok (Own := Own) r -> range_in r start n ->
  1 <= mr_refcnt r < 2 ^ 32 - 1 -> range_all (fun v => can_inc v /\ state_ok r (pi_state v)) start (start + n) (pages_of r) ->
  exists er r' w', region_incref r start n w = Ret (er, r', w') /\ region_ok r' /\ owns (Own := Own) r' w' /\
    (er = - EOK /\ mr_refcnt r' = mr_refcnt r + 1 /\ pages_of r' = upd inc_page start (start + n) (pages_of r) \/
     er = - ENOMEM /\ mr_refcnt r' = mr_refcnt r /\ no_part (Own := Own) /\
       changed_to [inc_page; dec_page r ∘ inc_page] r r' start n \/
     E_ISERR er = true /\ r' = set_refcnt (mr_refcnt r + 1) r).
Proof.
  intros Hr HO HF Hin Hc Hall. unfold region_incref. rewrite uintptr_id by lia.
  pose proof (rwlock_write_ok w _ HO) as HO1. destruct (rwlock_write w) as [er w1]. simpl in HO1.
  assert (Hr1 : region_ok (set_refcnt (mr_refcnt r + 1) r)) by (destruct Hr; by split).
  destruct (E_ISERR er) eqn:Eer; [eexists _, _, _; split; [done|]; split; [done|]; split; [done|]; by right; right|].
  destruct (part_incref_ok (set_refcnt (mr_refcnt r + 1) r) start n w1 Hr1 HO1 HF Hin Hall) as (ok & r2 & w2 & -> & Hac). cbn [obind].
  destruct (acted_counter _ _ _ _ _ _ _ _ Hac) as (Hr2 & HO2 & Hc2 & _ & _). simpl in Hc2. destruct ok; cbn [negb].
  - eexists _, _, _. split; [done|]. split; [done|]. split; [done|]. left. destruct Hac as (_ & _ & _ & He). done.
  - rewrite Hc2, uintptr_id by lia. simpl mr_refcnt. rewrite (proj2 (Z.eqb_neq (mr_refcnt r + 1 - 1) 0)) by lia. cbn [negb]. rewrite oassert_true.
    eexists _, _, _. split; [done|]. split; [destruct Hr2; by split|]. split; [done|]. right. left. split; [done|]. split; [simpl; lia|].
    split; [by destruct Hac as (_ & _ & _ & ? & _)|]. exact (acted_changed _ _ _ _ _ _ _ Hac).
Qed.

(** C15: Dropping one of at least two references to a region, together with one to every page of a
    range: if waiting for the lock is interrupted nothing happens and the error is returned.
    Otherwise every page of the range has one reference less; the last one takes its mark of a
    change away and, in memory regions, unless it is to be kept, its contents, and its frame is
    free.  Without memory for another part this fails silently ([failed_decref_panics] shows what
    follows): each page of the range has kept its reference, lost it, or got it back after its
    contents were gone. *)
Theorem region_decref_correct r start n (w : W) : region_ok r -> owns (Own := Own) r w -> frees_ok (Own := Own) r -> range_in r start n ->
  2 <= mr_refcnt r < 2 ^ 32 -> range_all (can_dec r) start (start + n) (pages_of r) ->
  exists er ro w', region_decref r start n w = Ret (er, ro, w') /\
    (E_ISERR er = true /\ ro = Some r /\ owns (Own := Own) r w' \/
     E_ISERR er = false /\ exists r', ro = Some r' /\ region_ok r' /\ owns (Own := Own) r' w' /\ mr_refcnt r' = mr_refcnt r - 1 /\
       (pages_of r' = upd (dec_page r) start (start + n) (pages_of r) \/
        no_part (Own := Own) /\ changed_to [dec_page r; inc_page ∘ dec_page r] r r' start n)).
Proof.
  intros Hr HO HF Hin Hc Hall. unfold region_decref.
  pose proof (rwlock_write_ok w _ HO) as HO1. destruct (rwlock_write w) as [er w1]. simpl in HO1.
  destruct (E_ISERR er) eqn:Eer; [eexists _, _, _; split; [done|]; left; done|].
  destruct (part_decref_ok r start n w1 Hr HO1 HF Hin Hall) as (ok & r2 & w2 & -> & Hac). cbn [obind].
  destruct (acted_counter _ _ _ _ _ _ _ _ Hac) as (Hr2 & HO2 & Hc2 & _ & _).
  unfold MREGION_DECREF. cbn [mr_refcnt set_refcnt]. rewrite Hc2, uintptr_id, (proj2 (Z.eqb_neq (mr_refcnt r - 1) 0)) by lia. cbn [obind].
  eexists _, _, _. split; [done|]. right. split; [done|]. eexists. split; [done|]. split; [destruct Hr2; by split|]. split; [done|]. split; [done|].
  destruct ok; [left; by destruct Hac as (_ & _ & _ & ?)|right]. split; [by destruct Hac as (_ & _ & _ & ? & _)|].
  exact (acted_changed _ _ _ _ _ _ _ Hac).
Qed.

(** Locks are not seen in the pages. *)
Lemma upd_id a b L : upd id a b L = L.
Proof. apply list_eq. intros i. rewrite upd_lookup. destruct (L !! i) as [v|]; simpl; [|done]. by destruct (_ && _). Qed.

Lemma lock_act_ok (k : Z) : act_ok (Own := Own) id (fun _ => True) (fun p _ w => Ret (with_locked (s16 (mt_locked p + k)) p, w)).
Proof. by apply (fields_act_ok _ _ _ (fun p => with_locked (s16 (mt_locked p + k)) p)). Qed.

Lemma lock_ok k r start n (w : W) : region_ok r -> owns (Own := Own) r w -> range_in r start n ->
  exists ok r' w', mregion_part_action r start n (fun p _ w => Ret (with_locked (s16 (mt_locked p + k)) p, w))
      (Some (fun p _ w => Ret (with_locked (s16 (mt_locked p + - k)) p, w))) w = Ret (ok, r', w') /\
    region_ok r' /\ owns (Own := Own) r' w' /\ pages_of r' = pages_of r.
Proof.
  intros Hr HO (I1 & I2 & I3 & I4 & I5).
  destruct (action_ok id (fun _ => True) _ id (fun _ => True) _ r start n w (lock_act_ok k) (lock_act_ok (- k))) as (ok & r' & w' & Hr' & Hac); try done.
  exists ok, r', w'. split; [done|]. destruct Hac as (Hok & _ & HO' & Hpg). split; [done|]. split; [done|].
  destruct ok; [by rewrite Hpg, upd_id|]. destruct Hpg as (_ & stop & m & _ & _ & ->). by rewrite !upd_id.
Qed.

(** Locking and unlocking a range of a region that is not physical memory return, leave a well-formed
    region that owns its frames and do not change pages otherwise.  Which pages are locked
    afterwards is another matter: see [lock_is_lost] and [lock_spreads]. *)
Theorem region_locks_typed r start n (w : W) : region_ok r -> owns (Own := Own) r w -> range_in r start n -> mr_type r <> MREGION_TYPE_PHYSICAL ->
  (exists ok r' w', mregion_part_inclock r start n w = Ret (ok, r', w') /\ region_ok r' /\ owns (Own := Own) r' w' /\ pages_of r' = pages_of r) /\
  (exists ok r' w', mregion_part_declock r start n w = Ret (ok, r', w') /\ region_ok r' /\ owns (Own := Own) r' w' /\ pages_of r' = pages_of r).
Proof.
  intros Hr HO Hin Ht. unfold mregion_part_inclock, mregion_part_declock.
  rewrite (proj2 (Z.eqb_neq _ _) Ht). cbn [negb]. rewrite !oassert_true.
  split; [apply (lock_ok 1 r start n w Hr HO Hin)|apply (lock_ok (-1) r start n w Hr HO Hin)].
Qed.

(** C39: Marking a range of a region that is not physical memory as changed returns and leaves a
    well-formed region of the same type and size that owns its frames.  On success exactly the
    pages of the range have got the mark, however the region is divided into parts, and nothing
    else of any page has changed.  It fails only without memory for a part, and then the marks are
    on the pages up to some address of the range. *)
Theorem region_setchng_correct r start n (w : W) : region_ok r -> owns (Own := Own) r w -> range_in r start n -> mr_type r <> MREGION_TYPE_PHYSICAL ->
  exists ok r' w', mregion_part_setchng r start n w = Ret (ok, r', w') /\ region_ok r' /\ owns (Own := Own) r' w' /\
    mr_type r' = mr_type r /\ mr_size r' = mr_size r /\ mr_refcnt r' = mr_refcnt r /\
    exists stop, start <= stop <= start + n /\ pages_of r' = upd chng_page start stop (pages_of r) /\
      (ok = true -> stop = start + n) /\ (ok = false -> no_part (Own := Own)).
Proof.
  intros Hr HO Hin Ht. unfold mregion_part_setchng. rewrite (proj2 (Z.eqb_neq _ _) Ht). cbn [negb]. rewrite oassert_true.
  destruct Hin as (I1 & I2 & I3 & I4 & I5).
  destruct (action_alone_ok chng_page (fun _ => True) _ r start n w stchng_act_ok) as (ok & r' & w' & Hr' & Hac); try done.
  exists ok, r', w'. split; [done|]. destruct Hac as (Hok & [ps ->] & HO' & Hpg). split_and!; try done.
  destruct ok; [exists (start + n); split_and!; (done || lia)|].
  destruct Hpg as (Hno & stop & k & Hk & Hs & Hpg). rewrite upd_id in Hpg. exists stop. split_and!; (done || lia).
Qed.

(** A page of a region that nobody refers to. *)
Definition unused (r : mregion) (v : pinfo) : Prop := pi_refcnt v = 0 /\ has (pi_flags v) MPART_FLAG_CHNG = false /\ state_ok r (pi_state v).

(** The frames left after destroying a region: those it does not own. *)
Definition left_frames (r : mregion) (v : pinfo) : option Z := if mr_type r =? MREGION_TYPE_MEM then None else pi_frame v.

Lemma frames_pages p e : pi_frame <$> part_pages p e = part_frames p e.
Proof. unfold part_pages. rewrite <- list_fmap_compose. unfold compose. simpl. by rewrite list_fmap_id. Qed.

Lemma destroy_parts_ok r parts lo A (w : W) : frees_ok (Own := Own) r -> parts_ok lo parts (mr_size r) ->
  Forall (unused r) (expand parts (mr_size r)) -> Own w (A ++ (pi_frame <$> expand parts (mr_size r))) ->
  exists w', destroy_parts r parts w = Ret w' /\ Own w' (A ++ (left_frames r <$> expand parts (mr_size r))).
Proof.
  intros HF. revert lo A w. induction parts as [|p parts IH]; intros lo A w Hok Hun HO; [by exists w|].
  destruct Hok as (_ & Hp & Hok). pose proof (parts_bounds _ _ _ Hok) as Hb. pose proof (ok_order _ _ Hp) as Ho. cbn [destroy_parts expand] in *.
  apply Forall_app in Hun as [Hun1 Hun2]. destruct (part_prop _ _ _ Hp Hun1) as (? & Hrc & Hch & Hst). simpl in Hrc, Hch, Hst.
  rewrite (proj2 (Z.ltb_lt (mt_start p) (mr_size r))), oassert_true by lia.
  replace (match parts with [] => true | n :: _ => mt_start p <? mt_start n end) with true
    by (destruct parts as [|q parts]; simpl in Ho; [done|symmetry; by apply Z.ltb_lt]).
  rewrite oassert_true, Hrc, Z.eqb_refl, oassert_true, Hch. cbn [negb]. rewrite fmap_app, frames_pages in HO. rewrite fmap_app.
  assert (Hpart : exists w1, (if mr_type r =? MREGION_TYPE_MEM
      then if mt_state p =? MPART_STATE_INCORE then free_scatter (mt_memory p) PAGEATTR_NONE w else Ret w
      else assert! (if mr_type r =? MREGION_TYPE_PHYSICAL then mt_state p =? MPART_STATE_INCORE
                    else if MREGION_TYPE_ISGUARD (mr_type r) then mt_state p =? MPART_STATE_MISSING else true);; Ret w) = Ret w1 /\
    Own w1 (A ++ (left_frames r <$> part_pages p (end_of parts (mr_size r))) ++ (pi_frame <$> expand parts (mr_size r)))).
  { unfold left_frames. destruct (Z.eqb_spec (mr_type r) MREGION_TYPE_MEM) as [Hm|Hm].
    - destruct (drop_frames_ok p _ A _ w (HF Hm) Hp HO) as (w1 & Hw & HO1). exists w1. split; [done|].
      pose proof (pages_length _ _ Hp) as Hl. replace (page_count (mt_start p) (end_of parts (mr_size r)))
        with (length (part_pages p (end_of parts (mr_size r)))) in HO1 by (unfold zlen, page_count in *; mlia).
      replace ((fun _ => None) <$> part_pages p (end_of parts (mr_size r)))
        with (replicate (length (part_pages p (end_of parts (mr_size r)))) (None : option Z)); [done|].
      clear. induction (part_pages p _) as [|x l IH]; simpl; [done|]. by f_equal.
    - rewrite (state_ok_spec r (mt_state p) Hst), oassert_true. exists w. split; [done|]. by rewrite frames_pages. }
  destruct Hpart as (w1 & Hw1 & HO1). rewrite Hw1. cbn [obind]. rewrite oassert_true. rewrite app_assoc in HO1.
  destruct (IH _ _ w1 Hok Hun2 HO1) as (w2 & Hw2 & HO2). exists w2. split; [done|]. by rewrite app_assoc.
Qed.

Lemma region_destroyed r (w : W) : region_ok r -> owns (Own := Own) r w -> frees_ok (Own := Own) r -> mr_refcnt r = 0 ->
  Forall (unused r) (pages_of r) ->
  exists w', mregion_destroy r w = Ret w' /\ Own w' (left_frames r <$> pages_of r).
Proof.
  intros [_ Hok] HO HF Hc Hun. unfold mregion_destroy. rewrite Hc, Z.eqb_refl, oassert_true.
  destruct (destroy_parts_ok r _ 0 [] _ HF Hok Hun (region_clear_ok _ _ r HO)) as (w1 & -> & HO1). cbn [obind]. eexists. split; [done|]. by apply region_fini_ok.
Qed.

(** Destroying a region without references ends without a failed assertion and frees every
    frame that a memory region has, and none of a region of physical memory. *)
Theorem region_destroy_correct r (w : W) : region_ok r -> owns (Own := Own) r w -> frees_ok (Own := Own) r -> mr_refcnt r = 0 ->
  Forall (unused r) (pages_of r) ->
  exists w', mregion_destroy r w = Ret w' /\ Own w' (left_frames r <$> pages_of r).
Proof. apply region_destroyed. Qed.

(** A region with one part. *)
Lemma single_ok r p : 0 < mr_size r < 2 ^ 32 -> mr_parts r = [p] -> part_ok p (mr_size r) -> mt_start p = 0 -> region_ok r.
Proof. intros Hs Hp Hok Hb. split; [done|]. rewrite Hp. done. Qed.

Lemma single_pages r p : mr_parts r = [p] -> pages_of r = part_pages p (mr_size r).
Proof. intros Hp. unfold pages_of. rewrite Hp. simpl. apply app_nil_r. Qed.

Lemma single_unused r p : mr_parts r = [p] -> mt_refcnt p = 0 -> mt_flags p = 0 -> state_ok r (mt_state p) -> Forall (unused r) (pages_of r).
Proof.
  intros Hp Hc Hf Hst. rewrite (single_pages r p Hp). unfold part_pages. apply Forall_fmap, Forall_true. intros fr. unfold unused. simpl. by rewrite Hf.
Qed.

Lemma new_phys_ok addr n (w : W) : addr mod 4096 = 0 -> 0 < n < 2 ^ 32 - 4096 -> n mod 4096 = 0 -> Own w [] ->
  exists ro w', mregion_new_phys addr n w = Ret (ro, w') /\ Own w' [] /\ forall r, ro = Some r ->
    region_ok r /\ mr_refcnt r = 1 /\ Forall (unused r) (pages_of r) /\ pi_frame <$> pages_of r = Some <$> link_pages (addr, n).
Proof.
  intros Ha Hn Hm HO. pose proof (kcalloc_region_ok w [] HO) as HO1.
  unfold mregion_new_phys, mregion_cinit_new. rewrite !(proj2 (aligned_page _)), !oassert_true by done.
  destruct (kcalloc_region w) as [[|] w1]; [|by exists None, w1]. unfold mregion_setup. cbn [mr_size].
  rewrite (proj2 (Z.eqb_neq n 0)) by lia. cbn [negb]. rewrite oassert_true, (proj2 (aligned_page n) Hm), oassert_true. cbn [obind].
  eexists _, w1. split; [done|]. split; [done|]. intros r [= <-].
  assert (Hp : part_ok (MPart 0 0 MPART_STATE_INCORE 0 1 [(addr, n)]) n).
  { split; cbn; try done; [lia|intros _; constructor; [split; simpl; (done || lia)|done]|]. intros _. pose proof (link_pages_len addr n ltac:(lia) Hm) as Hl.
    unfold chain_pages. cbn [fmap list_fmap mjoin list_join]. rewrite app_nil_r. unfold PAGESIZE in Hl. lia. }
  split; [eapply single_ok; [cbn; lia|done..]|]. split; [done|]. split; [by eapply single_unused|].
  erewrite single_pages by done. rewrite frames_pages. unfold part_frames, chain_pages. cbn. by rewrite app_nil_r.
Qed.

Lemma new_anon_ok n mode (w : W) : FreeLaws W Own -> 0 < n < 2 ^ 32 - 4096 -> n mod 4096 = 0 -> Own w [] ->
  exists ro w', mregion_new_anon n mode w = Ret (ro, w') /\
    match ro with
    | Some r => region_ok r /\ mr_type r = MREGION_TYPE_MEM /\ mr_refcnt r = 1 /\ Forall (unused r) (pages_of r) /\ owns (Own := Own) r w'
    | None => Own w' []
    end.
Proof.
  intros HF Hn Hm HO. pose proof (kcalloc_region_ok w [] HO) as HO1.
  unfold mregion_new_anon, mregion_cinit_new. rewrite (proj2 (aligned_page _)), oassert_true by done.
  destruct (kcalloc_region w) as [[|] w1]; [|by exists None, w1]. simpl in HO1. cbn [mr_refcnt mr_setup].
  set (locked := if has mode MREGION_ANON_LOCKED then 1 else 0).
  assert (Hend : forall p w2, part_ok p n -> mt_start p = 0 -> mt_refcnt p = 0 -> mt_flags p = 0 -> Own w2 (part_frames p n) -> exists ro w',
    (let! region := mregion_setup (MRegion 1 MREGION_TYPE_MEM (Z.land mode MREGION_ANON_CALLOC) (MSetup 0 0 0 0 0) n [p]) in Ret (Some region, w2)) = Ret (ro, w') /\
    match ro with Some r => region_ok r /\ mr_type r = MREGION_TYPE_MEM /\ mr_refcnt r = 1 /\ Forall (unused r) (pages_of r) /\ owns (Own := Own) r w' | None => Own w' [] end).
  { intros p w2 Hp H1 H2 H3 HO2. unfold mregion_setup. cbn [mr_size]. rewrite (proj2 (Z.eqb_neq n 0)) by lia. cbn [negb].
    rewrite oassert_true, (proj2 (aligned_page n) Hm), oassert_true. cbn [obind]. eexists _, w2. split; [done|].
    split; [eapply single_ok; [cbn; lia|done..]|]. split; [done|]. split; [done|]. split; [by eapply single_unused|].
    unfold owns. erewrite single_pages by done. by rewrite frames_pages. }
  assert (Hmiss : forall w2, Own w2 [] -> part_ok (MPart 0 0 MPART_STATE_MISSING 0 locked []) n /\ Own w2 (part_frames (MPart 0 0 MPART_STATE_MISSING 0 locked []) n)).
  { intros w2 HO2. split; [split; cbn; try done; try lia; intros Hx; discriminate Hx|]. unfold part_frames. cbn. by apply own_nothing. }
  destruct (has mode MREGION_ANON_PREFAULT); cbn [andb obind]; [|destruct (Hmiss w1 HO1); by apply Hend].
  assert (Hk : n = 4096 * Z.of_nat (Z.to_nat (n / 4096))) by mlia.
  destruct (malloc_frames_ok w1 [] (Z.to_nat (n / 4096)) [] (Z.land mode MREGION_ANON_CALLOC)) as (ro & w2 & Hr & Hro);
    [rewrite app_nil_r; by apply own_nothing|lia|]. rewrite <- Hk in Hr. rewrite Hr, !app_nil_r in *. cbn [obind].
  destruct ro as [c|]; cbn.
  + destruct Hro as (Hl & Hz & HO2). apply Hend; try done; [split; cbn [mt_start mt_state mt_memory]; unfold zlen; try done; intros; lia|].
    rewrite app_nil_r in HO2. exact HO2.
  + apply own_none in Hro. destruct (has mode MREGION_ANON_TRY_PREFAULT); cbn; [destruct (Hmiss w2 Hro); by apply Hend|by exists None, w2].
Qed.

(** A region of physical memory maps consecutive frames, a new memory region has no frames or,
    if they are asked for, as many as it needs; both are well formed, without references to their
    pages and with one to the region.  Nothing is left allocated when there is not enough memory. *)
Theorem region_new_correct addr n mode (w : W) : FreeLaws W Own -> addr mod 4096 = 0 -> 0 < n < 2 ^ 32 - 4096 -> n mod 4096 = 0 -> Own w [] ->
  (exists ro w', mregion_new_phys addr n w = Ret (ro, w') /\ Own w' [] /\ forall r, ro = Some r ->
     region_ok r /\ mr_refcnt r = 1 /\ Forall (unused r) (pages_of r) /\ pi_frame <$> pages_of r = Some <$> link_pages (addr, n)) /\
  exists ro w', mregion_new_anon n mode w = Ret (ro, w') /\
    match ro with
    | Some r => region_ok r /\ mr_type r = MREGION_TYPE_MEM /\ mr_refcnt r = 1 /\ Forall (unused r) (pages_of r) /\ owns (Own := Own) r w'
    | None => Own w' []
    end.
Proof. intros HF Ha Hn Hm HO. split; [by apply new_phys_ok|by apply new_anon_ok]. Qed.

End Results.

(** ** With the page allocator *)

(** C25: Dropping the only reference to a new memory region gives back exactly the memory that was
    allocated for it, if any: the same addresses are free as before. *)
Theorem region_new_destroy n mode w : pages_inv mzone_spec_i386 (core_pages w) -> 0 < n < 2 ^ 32 - 4096 -> n mod 4096 = 0 ->
  exists ro w', mregion_new_anon n mode w = Ret (ro, w') /\
    match ro with
    | Some r => exists w'', MREGION_DECREF r w' = Ret (None, w'') /\ forall x, is_free (core_pages w'') x <-> is_free (core_pages w) x
    | None => forall x, is_free (core_pages w') x <-> is_free (core_pages w) x
    end.
Proof.
  intros Hi Hn Hm. set (base := is_free (core_pages w)).
  assert (Hnone : forall x, ~ in_frames [] x) by (intros x (? & ?%not_elem_of_nil & _); done).
  assert (HO : core_own base w []) by (split; [done|constructor..|]; intros x; specialize (Hnone x); tauto).
  destruct (new_anon_ok (Own := core_own base) n mode w _ Hn Hm HO) as (ro & w' & -> & Hro). exists ro, w'. split; [done|].
  destruct ro as [r|]; [|destruct Hro as [_ _ _ Hall]; intros x; rewrite Hall; specialize (Hnone x); tauto].
  destruct Hro as (Hr & Ht & Hc & Hun & HO'). unfold MREGION_DECREF. cbn [mr_refcnt set_refcnt]. rewrite Hc. change (uintptr (1 - 1) =? 0) with true. cbv iota.
  destruct (region_destroyed (Own := core_own base) (set_refcnt 0 r) w') as (w2 & Hd & HO2);
    [destruct Hr; by split|done|intros _; apply core_frees|done|done|].
  change (uintptr (1 - 1)) with 0. rewrite Hd. cbn [obind]. exists w2. split; [done|]. intros x. destruct HO2 as [_ _ _ Hall]. rewrite Hall.
  assert (Hf : in_frames (left_frames (set_refcnt 0 r) <$> pages_of (set_refcnt 0 r)) x -> False); [|tauto].
  intros (p & Hp & _). unfold left_frames, frames in Hp. cbn [mr_type set_refcnt] in Hp. rewrite Ht, Z.eqb_refl in Hp.
  apply list_elem_of_omap in Hp as (o & Ho & Hp). apply list_elem_of_fmap in Ho as (v & -> & _). done.
Qed.

(** ** Examples *)

Definition plenty : core := Core sample_pages [] [] [].
Definition two_pages (p : mregion_part) : mregion := MRegion 1 MREGION_TYPE_MEM 0 (MSetup 0 0 0 0 0) 0x2000 [p].

(** The parts of a region, and what was written to files until then. *)
Definition shown (m : outcome (mregion * core)) : outcome (list mregion_part * list (Z * Z * Z * Z)) :=
  let! (r, w) := m in Ret (mr_parts r, core_written w).

Definition lock_page (start : Z) (r : mregion) (w : core) : outcome (mregion * core) :=
  let! (_, r, w) := mregion_part_inclock r start 0x1000 w in Ret (r, w).

(** Locking the second page of a region: its part is merged with the one before, which has the
    same references, state and flags, and takes over the counter of that one.  The page is not
    locked. *)
Theorem lock_is_lost :
  shown (lock_page 0x1000 (two_pages (MPart 0 0 MPART_STATE_MISSING 0 0 [])) plenty) = Ret ([MPart 0 0 MPART_STATE_MISSING 0 0 []], []).
Proof. vm_compute. reflexivity. Qed.

(** Locking the first page twice locks the second one as well. *)
Theorem lock_spreads :
  shown (let! (r, w) := lock_page 0 (two_pages (MPart 0 0 MPART_STATE_MISSING 0 0 [])) plenty in lock_page 0 r w) =
  Ret ([MPart 0 0 MPART_STATE_MISSING 0 2 []], []).
Proof. vm_compute. reflexivity. Qed.

(** A page that a file is mapped to from 0x1000 on, at the offset 0 of the file; the memory at
    0x1000 holds byte 0 of the file.  When the last reference to the changed page goes, nothing is
    written: the position is taken for 0x1000, where the mapped part of the file ends. *)
Theorem change_is_lost :
  let r := MRegion 2 MREGION_TYPE_MEM 0x83 (MSetup 0 7 0x1000 0 0x1000) 0x2000
             [MPart 0 0 MPART_STATE_MISSING 0 0 []; MPart 0x1000 1 MPART_STATE_INCORE MPART_FLAG_CHNG 0 [(0x108000, 0x1000)]] in
  shown (mregion_part_decref r 0x1000 0x1000 plenty) = Ret ([MPart 0 0 MPART_STATE_MISSING 0 0 []], []).
Proof. vm_compute. reflexivity. Qed.

(** Three pages with a reference each, in one part.  Without memory for another part the reference
    to the second page cannot be dropped, which is only logged; the counter of the region goes
    down all the same.  When the references to the other pages are dropped it reaches zero, and
    destroying the region fails an assertion. *)
Definition three_pages (w : core) : outcome (Z * option mregion * core) :=
  let r := MRegion 3 MREGION_TYPE_MEM 0 (MSetup 0 0 0 0 0) 0x3000 [MPart 0 1 MPART_STATE_MISSING 0 0 []] in
  let! (_, ro, w) := region_decref r 0x1000 0x1000 w in
  match ro with
  | None => Abort
  | Some r =>
      let! (_, ro, w) := region_decref r 0 0x1000 w in
      match ro with None => Abort | Some r => region_decref r 0x2000 0x1000 w end
  end.

Theorem failed_decref_panics :
  three_pages (Core sample_pages [false] [] []) = Abort /\ (let! (er, ro, _) := three_pages plenty in Ret (er, ro)) = Ret (0, None).
Proof. split; vm_compute; reflexivity. Qed.

(** ** The hypotheses can hold *)

Definition some_region : mregion := MRegion 3 MREGION_TYPE_MEM 0 (MSetup 0 0 0 0 0) 0x3000 [MPart 0 1 MPART_STATE_MISSING 0 0 []].

Lemma some_region_ok : region_ok some_region.
Proof. eapply single_ok; [by cbn|done| |done]. split; cbn; try done; intros Hx; discriminate Hx. Qed.

Lemma plenty_own : core_own (is_free sample_pages) plenty [].
Proof.
  split; [exact sample_pages_inv|constructor..|]. intros x. assert (~ in_frames [] x) by (intros (? & ?%not_elem_of_nil & _); done).
  cbn [core_pages plenty]. tauto.
Qed.

Lemma some_region_owns : owns (Own := core_own (is_free sample_pages)) some_region plenty.
Proof. unfold owns. change (pi_frame <$> pages_of some_region) with (replicate 3 (None : option Z)). apply own_nothing, plenty_own. Qed.

Lemma some_region_pages P : P (PInfo 1 MPART_STATE_MISSING 0 None) -> range_all P 0x1000 0x2000 (pages_of some_region).
Proof.
  intros HP i v Hv _. change (pages_of some_region) with (replicate 3 (PInfo 1 MPART_STATE_MISSING 0 None)) in Hv.
  by apply lookup_replicate_1 in Hv as [-> _].
Qed.

Lemma region_incref_correct_witness : exists er r' w', region_incref some_region 0x1000 0x1000 plenty = Ret (er, r', w') /\ region_ok r'.
Proof.
  destruct (region_incref_correct some_region 0x1000 0x1000 plenty some_region_ok some_region_owns) as (er & r' & w' & Hr & Hok & _);
    [intros _; apply core_frees|by unfold range_in|done|apply some_region_pages; done|]. exists er, r', w'. exact (conj Hr Hok).
Defined.

Lemma region_decref_correct_witness : exists er ro w', region_decref some_region 0x1000 0x1000 plenty = Ret (er, ro, w').
Proof.
  destruct (region_decref_correct some_region 0x1000 0x1000 plenty some_region_ok some_region_owns) as (er & ro & w' & Hr & _);
    [intros _; apply core_frees|by unfold range_in|done|apply some_region_pages; done|]. exists er, ro, w'. exact Hr.
Defined.

Lemma region_destroy_correct_witness : exists w', mregion_destroy (set_refcnt 0 (two_pages (MPart 0 0 MPART_STATE_MISSING 0 0 []))) plenty = Ret w'.
Proof.
  destruct (region_destroy_correct (Own := core_own (is_free sample_pages)) (set_refcnt 0 (two_pages (MPart 0 0 MPART_STATE_MISSING 0 0 []))) plenty)
    as (w' & Hw & _); [..|exists w'; exact Hw].
  - eapply single_ok; [by cbn|done| |done]. split; cbn; try done; intros Hx; discriminate Hx.
  - unfold owns. change (pi_frame <$> pages_of _) with (replicate 2 (None : option Z)). apply own_nothing, plenty_own.
  - intros _. apply core_frees.
  - done.
  - change (pages_of _) with (replicate 2 (PInfo 0 MPART_STATE_MISSING 0 None)). repeat constructor; done.
Defined.

Lemma region_new_correct_witness : exists ro w', mregion_new_phys 0xb8000 0x1000 plenty = Ret (ro, w').
Proof.
  destruct (region_new_correct (Own := core_own (is_free sample_pages)) 0xb8000 0x1000 0 plenty) as [(ro & w' & Hr & _) _];
    [apply core_frees|done|done|done|apply plenty_own|]. exists ro, w'. exact Hr.
Defined.

Lemma region_new_destroy_witness : exists ro w', mregion_new_anon 0x2000 MREGION_ANON_PREFAULT plenty = Ret (ro, w').
Proof.
  destruct (region_new_destroy 0x2000 MREGION_ANON_PREFAULT plenty) as (ro & w' & Hr & _); [exact sample_pages_inv|done|done|].
  exists ro, w'. exact Hr.
Defined.

Lemma region_setchng_correct_witness : exists ok r' w', mregion_part_setchng some_region 0x1000 0x1000 plenty = Ret (ok, r', w') /\
  (ok = true -> map pi_flags (pages_of r') = [0; MPART_FLAG_CHNG; 0]).
Proof.
  destruct (region_setchng_correct some_region 0x1000 0x1000 plenty some_region_ok some_region_owns)
    as (ok & r' & w' & Hr & _ & _ & _ & _ & _ & stop & _ & Hp & Hs & _); [by unfold range_in|done|].
  exists ok, r', w'. split; [exact Hr|]. intros Hok. rewrite Hp, (Hs Hok). reflexivity.
Defined.
