(* ===== verification/Branch.v ===== *)
(** * Branches in the page directory (src/kernel/mman/branch.c)

    A branch maps a range of a region.  [mbranch_remap] writes what the parts of the region hold
    into the page directory: parts in core with the rights of the branch, so that writing to memory
    that is not shared causes a fault, other parts as pages that are not present. *)
From stdpp Require Import base numbers list.
From S2P Require Import Prelude Align PageAlloc PageScatter PhysMem Paging32 Mman Region.

Definition PROT_WRITE : Z := 2.
Definition PROT_READ : Z := 4.
Definition PROT_SHARED : Z := 0x20.
Definition PROT_NOUSER : Z := 0x40.

Definition MREGION_TYPE_RESERVED : Z := 4.
Definition MREGION_INIT_READTHROUGH : Z := 0x40.
Definition MMAN_LOADONREAD_ADDR : Z := 0.

Section Branch.

Context {A : Type} `{PM : PhysMem A}.
Context (pdir_kernel pdir_kernel_v : Z).

(** The rights of every page of a branch. *)
Definition page_prot (self : mbranch) : Z :=
  if negb (has (mb_prot self) PROT_NOUSER) then Z.lor PDIR_FLAG_NOFLUSH PDIR_ATTR_USER else PDIR_FLAG_NOFLUSH.

(** Whether a part in core can be written to without a fault. *)
Definition part_writable (self : mbranch) (region : mregion) (part : mregion_part) : bool :=
  has (mb_prot self) PROT_WRITE &&
  (negb (has (mr_init region) MREGION_INIT_READTHROUGH) || has (mb_prot self) PROT_SHARED) &&
  (negb (has (mr_init region) MREGION_INIT_WRITETHROUGH) || has (mt_flags part) MPART_FLAG_CHNG) &&
  (has (mb_prot self) PROT_SHARED || (mt_refcnt part =? 1)).

Definition incore_prot (self : mbranch) (region : mregion) (part : mregion_part) : Z :=
  let part_prot := Z.lor (page_prot self) PDIR_ATTR_PRESENT in
  if part_writable self region part then Z.lor part_prot PDIR_ATTR_WRITE else part_prot.

(** The entries of a scatter list one behind the other, up to [limit]; the list is never empty. *)
Fixpoint remap_links (pdir limit part_prot : Z) (memory : mscatter) (part_vpage : Z) (a : A) : outcome (Z * Z * A) :=
  match memory with
  | [] => Abort
  | (m_start, m_size) :: m_next =>
      assert! IS_ALIGNED m_start PAGESIZE;;
      assert! IS_ALIGNED m_size PAGESIZE;;
      assert! m_size <=? uintptr (limit - part_vpage);;
      let! (error, a) := pdir_mmap pdir_kernel pdir_kernel_v pdir part_vpage m_size m_start part_prot a in
      if E_ISERR error then Ret (error, part_vpage, a) else
      let part_vpage := uintptr (part_vpage + m_size) in
      match m_next with [] => Ret (error, part_vpage, a) | _ => remap_links pdir limit part_prot m_next part_vpage a end
  end.

(** A part that a branch maps from [using_begin] to [using_end]. *)
Definition remap_part (self : mbranch) (region : mregion) (part : mregion_part) (pdir using_begin using_end : Z) (a : A) : outcome (Z * A) :=
  let part_vpage := uintptr (mb_vmin self + using_begin) in
  if mt_state part =? MPART_STATE_INCORE then
    let limit := uintptr (mb_vmin self + using_end) in
    let! (error, part_vpage, a) := remap_links pdir limit (incore_prot self region part) (mt_memory part) part_vpage a in
    if E_ISERR error then Ret (error, a) else
    assert! part_vpage =? limit;;
    Ret (error, a)
  else pdir_mmap pdir_kernel pdir_kernel_v pdir part_vpage (using_end - using_begin) MMAN_LOADONREAD_ADDR (page_prot self) a.

(** The loop over the parts. *)
Fixpoint remap_parts (self : mbranch) (region : mregion) (pdir region_begin region_end : Z) (parts : list mregion_part) (error : Z) (a : A)
    : outcome (Z * A) :=
  match parts with
  | [] => Ret (error, a)
  | part :: next =>
      let part_begin := mt_start part in
      let part_end := end_of next (mr_size region) in
      assert! IS_ALIGNED part_begin PAGESIZE;;
      assert! part_begin <? part_end;;
      assert! IS_ALIGNED part_end PAGESIZE;;
      if part_end <=? region_begin then remap_parts self region pdir region_begin region_end next error a else
      if region_end <=? part_begin then Ret (error, a) else
      let using_begin := Z.max part_begin region_begin - region_begin in
      let using_end := Z.min part_end region_end - region_begin in
      assert! negb (mt_refcnt part =? 0);;
      assert! using_begin <? using_end;;
      let! (error, a) := remap_part self region part pdir using_begin using_end a in
      if E_ISERR error then Ret (error, a) else remap_parts self region pdir region_begin region_end next error a
  end.

Definition mbranch_remap_unlocked (self : mbranch) (region : mregion) (pdir : Z) (a : A) : outcome (Z * A) :=
  let region_begin := mb_start self in
  let region_end := uintptr (region_begin + MBRANCH_SIZE self) in
  assert! region_begin <? region_end;;
  assert! region_end <=? mr_size region;;
  assert! IS_ALIGNED region_begin PAGESIZE;;
  assert! IS_ALIGNED region_end PAGESIZE;;
  if mr_type region =? MREGION_TYPE_RESERVED then Ret (- EOK, a) else
  if negb (has (mb_prot self) (Z.lor PROT_WRITE PROT_READ)) then Ret (- EOK, a) else
  remap_parts self region pdir region_begin region_end (mr_parts region) (- EOK) a.

(** [locked] is what waiting for the parts of the region returns. *)
Definition branch_remap (locked : Z) (self : mbranch) (region : mregion) (pdir : Z) (a : A) : outcome (Z * A) :=
  if E_ISERR locked then Ret (locked, a) else mbranch_remap_unlocked self region pdir a.

Definition branch_unmap (self : mbranch) (region : mregion) (pdir : Z) (a : A) : outcome (Z * A) :=
  if mr_type region =? MREGION_TYPE_RESERVED then Ret (- EOK, a)
  else pdir_munmap pdir_kernel pdir_kernel_v pdir (mb_vmin self) (MBRANCH_SIZE self) PDIR_FLAG_NOFLUSH a.

End Branch.
