(* ===== verification/BranchTheorems.v ===== *)
(** * Branches in the page directory: results

    After [mbranch_remap] the processor translates each page of the branch to the frame of its page
    of the region.  Regions, address spaces and paging meet here. *)
From stdpp Require Import base numbers list.
From S2P Require Import Prelude Align PageAlloc PageScatter PhysMem Paging32 Paging32Spec Paging32Ops Paging32Map PagingTheorems.
From S2P Require Import Mman MmanSpec MmanOps Region RegionSpec RegionOps Branch.

(** Why a write to a page of a region must not go through unnoticed: the branch does not allow it;
    it is the first to a page that others use as well, or to one of a file, and the page has to
    be copied for the branch; or it is the first change to a page that is to be written back. *)
Inductive write_faults (b : mbranch) (r : mregion) (v : pinfo) : Prop :=
  | faults_denied : has (mb_prot b) PROT_WRITE = false -> write_faults b r v
  | faults_copy : has (mb_prot b) PROT_SHARED = false -> pi_refcnt v <> 1 -> write_faults b r v
  | faults_load : has (mb_prot b) PROT_SHARED = false -> has (mr_init r) MREGION_INIT_READTHROUGH = true -> write_faults b r v
  | faults_track : has (mr_init r) MREGION_INIT_WRITETHROUGH = true -> has (pi_flags v) MPART_FLAG_CHNG = false -> write_faults b r v.

#[export] Instance write_faults_dec b r v : Decision (write_faults b r v).
Proof.
  destruct (has (mb_prot b) PROT_WRITE) eqn:E1; [|left; by apply faults_denied].
  destruct (has (mr_init r) MREGION_INIT_WRITETHROUGH) eqn:E2, (has (pi_flags v) MPART_FLAG_CHNG) eqn:E3; try (left; by apply faults_track).
  all: destruct (has (mb_prot b) PROT_SHARED) eqn:E4; [right; intros []; congruence|].
  all: destruct (decide (pi_refcnt v = 1)) as [E5|E5]; [|left; by apply faults_copy].
  all: destruct (has (mr_init r) MREGION_INIT_READTHROUGH) eqn:E6; [left; by apply faults_load|right; intros []; congruence].
Defined.

(** The rights of a page of a region that a branch maps: present, writable unless a write has to
    fault, and for users unless the branch is the kernel's. *)
Definition page_rights (b : mbranch) (r : mregion) (v : pinfo) : Z :=
  1 + (if decide (write_faults b r v) then 0 else 2) + (if has (mb_prot b) PROT_NOUSER then 0 else 4).

(** The code grants write access just where no write has to fault. *)
Lemma part_writable_spec b r p v : pi_refcnt v = mt_refcnt p -> pi_flags v = mt_flags p ->
  part_writable b r p = if decide (write_faults b r v) then false else true.
Proof.
  intros Hc Hf. unfold part_writable. rewrite <- Hc, <- Hf. destruct (decide _) as [Hw|Hw].
  - destruct Hw as [ -> | -> Hne | -> -> | -> -> ]; [done|apply Z.eqb_neq in Hne; rewrite Hne|..]; rewrite ?andb_false_r; [..|done]; by rewrite ?andb_false_r.
  - destruct (has (mb_prot b) PROT_WRITE) eqn:E1; [|by destruct Hw; apply faults_denied].
    destruct (has (mr_init r) MREGION_INIT_WRITETHROUGH) eqn:E2, (has (pi_flags v) MPART_FLAG_CHNG) eqn:E3; try (by destruct Hw; apply faults_track).
    all: destruct (has (mb_prot b) PROT_SHARED) eqn:E4; [by rewrite orb_true_r|].
    all: destruct (Z.eqb_spec (pi_refcnt v) 1) as [E5|E5]; [|by destruct Hw; apply faults_copy].
    all: destruct (has (mr_init r) MREGION_INIT_READTHROUGH) eqn:E6; [by destruct Hw; apply faults_load|done].
Qed.

(** The page of the region that virtual page [v] of the branch is. *)
Definition page_at (b : mbranch) (r : mregion) (v : Z) : option pinfo :=
  pages_of r !! Z.to_nat ((mb_start b + (4096 * v - mb_vmin b)) / 4096).

(** The translation of page [v]. *)
Definition branch_walk (b : mbranch) (r : mregion) (v : Z) : option (Z * Z) :=
  i ← page_at b r v; f ← pi_frame i; Some (f, page_rights b r i).

Definition size_of (b : mbranch) : Z := mb_vmax b - mb_vmin b + 1.

(** The entries of a scatter list at a virtual address: physical memory, and where they fill a
    whole table they fit a mapping of 4 MiB. *)
Fixpoint links_fit (start : Z) (c : mscatter) : Prop :=
  match c with
  | [] => True
  | (s, n) :: c => page_addr s /\ s + n <= 2 ^ 32 /\ mmap_target_ok start n s PDIR_ATTR_PRESENT /\ links_fit (start + n) c
  end.

(** Parts that the branch maps are in use, and those in core begin and end inside it. *)
Fixpoint parts_fit (b : mbranch) (parts : list mregion_part) (size : Z) : Prop :=
  match parts with
  | [] => True
  | p :: next =>
      (mb_start b < end_of next size -> mt_start p < mb_start b + size_of b -> mt_refcnt p <> 0 /\
         (mt_state p = MPART_STATE_INCORE -> mb_start b <= mt_start p /\ end_of next size <= mb_start b + size_of b /\
            links_fit (mb_vmin b + (mt_start p - mb_start b)) (mt_memory p))) /\
      parts_fit b next size
  end.

Lemma incore_bits b r p v : pi_refcnt v = mt_refcnt p -> pi_flags v = mt_flags p ->
  Z.land (incore_prot b r p) 7 = page_rights b r v /\ bits (incore_prot b r p) PDIR_ATTR_PRESENT = true /\
  bits (incore_prot b r p) PDIR_ATTR_4MIB = false /\ (has (mb_prot b) PROT_NOUSER = true -> bits (incore_prot b r p) PDIR_ATTR_USER = false).
Proof.
  intros Hc Hf. unfold incore_prot, page_rights, page_prot. rewrite (part_writable_spec b r p v Hc Hf).
  destruct (decide _), (has (mb_prot b) PROT_NOUSER); done.
Qed.

Lemma page_bits b : bits (page_prot b) PDIR_ATTR_PRESENT = false /\ bits (page_prot b) PDIR_ATTR_4MIB = false /\
  (has (mb_prot b) PROT_NOUSER = true -> bits (page_prot b) PDIR_ATTR_USER = false).
Proof. unfold page_prot. by destruct (has (mb_prot b) PROT_NOUSER). Qed.

Section Results.

Context {A : Type} `{PL : PhysLaws A}.
Context (pdir_kernel pdir_kernel_v self : Z).

(** The translations of a range are those of [new]; others are as before. *)
Definition updated (new : Z -> option (Z * Z)) (a a' : A) (start n : Z) : Prop := forall v, 0 <= v < 1023 * 1024 ->
  walk a' self v = if (start <=? 4096 * v) && (4096 * v <? start + n) then new v else walk a self v.

Lemma updated_none new a a' start : (forall v, 0 <= v < 1023 * 1024 -> walk a' self v = walk a self v) -> updated new a a' start 0.
Proof. intros Hw v Hv. rewrite Hw by done. destruct (Z.leb_spec start (4096 * v)), (Z.ltb_spec (4096 * v) (start + 0)); simpl; (done || lia). Qed.

Lemma updated_trans new a a1 a2 start n m : 0 <= n -> 0 <= m -> updated new a a1 start n -> updated new a1 a2 (start + n) m -> updated new a a2 start (n + m).
Proof.
  intros Hn Hm H1 H2 v Hv. rewrite H2, H1 by done.
  destruct (Z.leb_spec start (4096 * v)), (Z.ltb_spec (4096 * v) (start + n)), (Z.leb_spec (start + n) (4096 * v)),
    (Z.ltb_spec (4096 * v) (start + n + m)), (Z.ltb_spec (4096 * v) (start + (n + m))); simpl; (done || lia).
Qed.

(** What a call has done when it returns: everything up to [stop], or all of it. *)
Definition mapped (new : Z -> option (Z * Z)) (a a' : A) (start n er : Z) : Prop :=
  stepped a a' self [] [] /\ exists k, 0 <= k <= n /\ updated new a a' start k /\ (er = - EOK /\ k = n \/ er = - ENOMEM).

Lemma mapped_trans new a a1 a2 start n m er : 0 <= n -> 0 <= m -> mapped new a a1 start n (- EOK) -> mapped new a1 a2 (start + n) m er -> mapped new a a2 start (n + m) er.
Proof.
  intros Hn Hm [S1 (k1 & Hk1 & U1 & [[_ ->]|?])] [S2 (k2 & Hk2 & U2 & He)]; [|done].
  split; [by eapply stepped_trans|]. exists (n + k2). split; [lia|]. split; [eapply updated_trans; [lia|lia|done|done]|]. destruct He as [[-> ->]| ->]; auto.
Qed.

Lemma mapped_short new a a1 start n m er : 0 <= m -> mapped new a a1 start n er -> er <> - EOK -> mapped new a a1 start (n + m) er.
Proof. intros Hm [S1 (k1 & Hk1 & U1 & [[? _]|?])] He; [done|]. split; [done|]. exists k1. split; [lia|]. auto. Qed.

Lemma mapped_error new a a' start n er : mapped new a a' start n er -> E_ISERR er = false -> er = - EOK.
Proof. intros [_ (k & _ & _ & [[-> _]| ->])]; [done|]. intros Hx. by vm_compute in Hx. Qed.

Lemma mapped_failed new a a' start n er : mapped new a a' start n er -> E_ISERR er = true -> er <> - EOK.
Proof. intros [_ (k & _ & _ & [[-> _]| ->])]; [|done]. intros Hx. by vm_compute in Hx. Qed.

Lemma mapped_mmap new a start n target flags : pdir_wf a self -> range_ok pdir_kernel pdir_kernel_v self start n -> page_addr target ->
  bits flags PDIR_ATTR_4MIB = false -> (VM_HOST_BASE < start + n -> bits flags PDIR_ATTR_USER = false) -> mmap_target_ok start n target flags ->
  (forall v, start <= 4096 * v < start + n -> new v = new_map flags (u32 (target + (4096 * v - start))) (walk a self v)) ->
  exists er a', pdir_mmap pdir_kernel pdir_kernel_v self start n target flags a = Ret (er, a') /\ mapped new a a' start n er.
Proof.
  intros Hwf Hr Ht H4 Hu Hal Hnew. pose proof Hr as (_ & _ & _ & Hn & _).
  destruct (mmap_ok pdir_kernel pdir_kernel_v self a start n target flags Hwf Hr Ht H4 Hu Hal) as (er & a' & -> & Hs & [[-> Hw]|[-> Hw]]);
    eexists _, _; (split; [done|]); (split; [done|]).
  - exists 0. split; [lia|]. split; [by apply updated_none|by right].
  - exists n. split; [lia|]. split; [|by left]. intros v Hv. rewrite Hw by done.
    destruct (Z.leb_spec start (4096 * v)), (Z.ltb_spec (4096 * v) (start + n)); simpl; try done. symmetry. apply Hnew. lia.
Qed.

Lemma range_part start n x m : range_ok pdir_kernel pdir_kernel_v self start n -> start <= x -> 0 <= m -> x + m <= start + n -> x mod 4096 = 0 -> m mod 4096 = 0 ->
  range_ok pdir_kernel pdir_kernel_v self x m.
Proof. intros (H1 & H2 & H3 & H4 & H5 & H6) Hx Hm Hle Ha Hb. split_and!; (done || lia || (destruct H6; [by left|right; lia])). Qed.

Lemma link_pages_at s n i : 0 <= n -> n mod 4096 = 0 -> 0 <= i < n / 4096 -> link_pages (s, n) !! Z.to_nat i = Some (s + 4096 * i).
Proof.
  intros Hn Ha Hi. unfold link_pages, PAGESIZE. cbn [fst snd]. rewrite list_lookup_fmap, lookup_seqZ_lt by lia. simpl. f_equal. lia.
Qed.

Lemma remap_links_ok new prot limit : bits prot PDIR_ATTR_PRESENT = true -> bits prot PDIR_ATTR_4MIB = false -> forall c start a,
  pdir_wf a self -> Forall link_ok c -> c <> [] -> links_fit start c -> start + 4096 * zlen (chain_pages c) = limit ->
  range_ok pdir_kernel pdir_kernel_v self start (limit - start) -> (VM_HOST_BASE < limit -> bits prot PDIR_ATTR_USER = false) ->
  (forall i f, chain_pages c !! i = Some f -> new (start / 4096 + Z.of_nat i) = Some (f, Z.land prot 7)) ->
  exists er x a', remap_links pdir_kernel pdir_kernel_v self limit prot c start a = Ret (er, x, a') /\
    mapped new a a' start (limit - start) er /\ (er = - EOK -> x = limit).
Proof.
  intros Hp H4. induction c as [|[s n] c IH]; intros start a Hwf Hl Hne Hfit Hlim Hr Hu Hnew; [done|].
  apply Forall_cons in Hl as [[Hn Hm] Hl]. simpl in Hn, Hm. destruct Hfit as (Hs & Hsn & Hal & Hfit). pose proof Hr as (Ra & Rb & Rc & Rd & Re & _).
  rewrite chain_pages_cons in Hlim. pose proof (link_pages_len s n ltac:(lia) Hm) as Hlen. unfold THIS_PDIR_BASE in Re.
  unfold zlen, PAGESIZE in *. rewrite length_app, Nat2Z.inj_add in Hlim.
  cbn [remap_links]. rewrite (proj2 (aligned_page s)), (proj2 (aligned_page n)), !oassert_true by (done || apply Hs).
  rewrite (uintptr_id (limit - start)), (proj2 (Z.leb_le _ _)), oassert_true by lia.
  destruct (mapped_mmap new a start n s prot) as (er & a1 & -> & HM); try done.
  { eapply range_part; [exact Hr|lia..|done|done]. }
  { intros. apply Hu. lia. }
  { intros i Hi1 Hi2 Hi3 _. by eapply Hal. }
  { intros v Hv. unfold new_map. rewrite Hp. replace v with (start / 4096 + Z.of_nat (Z.to_nat (v - start / 4096))) at 1 by mlia.
    destruct Hs as [Hs1 Hs2]. rewrite (Hnew _ (s + 4096 * (v - start / 4096))); [do 2 f_equal; unfold u32; rewrite Z.mod_small; mlia|].
    rewrite chain_pages_cons. apply lookup_app_l_Some, link_pages_at; [lia|done|mlia]. }
  cbn [obind]. destruct (E_ISERR er) eqn:Eer.
  { eexists _, _, _. split; [done|]. split; [|by intros ->]. replace (limit - start) with (n + (limit - start - n)) by lia.
    eapply mapped_short; [lia|done|by eapply mapped_failed]. }
  rewrite uintptr_id by lia. pose proof (mapped_error _ _ _ _ _ _ HM Eer) as ->. destruct c as [|l c].
  { change (length (chain_pages [])) with 0%nat in Hlim. eexists _, _, _. split; [done|]. split; [|intros _; lia].
    by replace (limit - start) with n by lia. }
  destruct (IH (start + n) a1) as (er2 & x & a2 & -> & HM2 & Hx); try done.
  - apply HM.
  - lia.
  - eapply range_part; [exact Hr|lia..|mlia|mlia].
  - intros i f Hi. rewrite <- (Hnew (length (link_pages (s, n)) + i)%nat f).
    + f_equal. mlia.
    + rewrite chain_pages_cons. rewrite lookup_app_r by lia. by replace (length (link_pages (s, n)) + i - length (link_pages (s, n)))%nat with i by lia.
  - eexists _, _, _. split; [done|]. split; [|done]. replace (limit - start) with (n + (limit - (start + n))) by lia.
    eapply mapped_trans; [lia|lia|done|done].
Qed.

(** ** The parts *)

Section Parts.

Context (b : mbranch) (r : mregion).
Hypothesis b_wf : branch_wf b.
Hypothesis b_fits : mb_start b + size_of b <= mr_size r.
Hypothesis b_range : range_ok pdir_kernel pdir_kernel_v self (mb_vmin b) (size_of b).
Hypothesis b_user : VM_HOST_BASE < mb_vmin b + size_of b -> has (mb_prot b) PROT_NOUSER = true.

(** [parts] are the parts of the region from [lo] on. *)
Definition parts_from (lo : Z) (parts : list mregion_part) : Prop :=
  0 <= lo /\ parts_ok lo parts (mr_size r) /\ parts_fit b parts (mr_size r) /\
  forall i, expand parts (mr_size r) !! i = pages_of r !! (Z.to_nat (lo / 4096) + i)%nat.

Lemma from_next lo p next : parts_from lo (p :: next) -> parts_from (end_of next (mr_size r)) next.
Proof.
  intros (Hlo & (<- & Hp & Hok) & (_ & Hfit) & Hex). pose proof (ok_order _ _ Hp). split; [lia|]. split; [done|]. split; [done|].
  intros i. pose proof (pages_length _ _ Hp) as Hl. pose proof (ok_begin _ _ Hp). pose proof (ok_end _ _ Hp). unfold zlen in Hl.
  specialize (Hex (length (part_pages p (end_of next (mr_size r))) + i)%nat). cbn [expand] in Hex. rewrite lookup_app_r in Hex by lia.
  replace (length (part_pages p (end_of next (mr_size r))) + i - length (part_pages p (end_of next (mr_size r))))%nat with i in Hex by lia.
  rewrite Hex. f_equal. mlia.
Qed.

Lemma page_in_part p next v : parts_from (mt_start p) (p :: next) ->
  mb_vmin b + (mt_start p - mb_start b) <= 4096 * v < mb_vmin b + (end_of next (mr_size r) - mb_start b) ->
  page_at b r v = part_pages p (end_of next (mr_size r)) !! Z.to_nat (v - (mb_vmin b + (mt_start p - mb_start b)) / 4096).
Proof.
  intros (Hlo & (_ & Hp & Hok) & _ & Hex) Hv. pose proof (pages_length _ _ Hp) as Hl. pose proof (ok_begin _ _ Hp). unfold zlen in Hl.
  destruct b_wf as (? & _ & _ & _ & ? & ? & _). unfold page_at.
  specialize (Hex (Z.to_nat (v - (mb_vmin b + (mt_start p - mb_start b)) / 4096))). cbn [expand] in Hex. rewrite lookup_app_l in Hex by mlia.
  rewrite Hex. f_equal. mlia.
Qed.

Lemma absent_walk p next v : parts_from (mt_start p) (p :: next) -> mt_state p <> MPART_STATE_INCORE ->
  mb_vmin b + (mt_start p - mb_start b) <= 4096 * v < mb_vmin b + (end_of next (mr_size r) - mb_start b) -> branch_walk b r v = None.
Proof.
  intros Hfrom Hst Hv. unfold branch_walk. rewrite (page_in_part p next v) by done.
  destruct (part_pages p _ !! _) as [i|] eqn:Hi; [|done]. simpl. unfold part_pages, part_frames in Hi. rewrite (proj2 (Z.eqb_neq _ _) Hst) in Hi.
  rewrite fmap_replicate in Hi. by apply lookup_replicate_1 in Hi as [-> _].
Qed.

Lemma incore_walk p next i f : parts_from (mt_start p) (p :: next) -> mt_state p = MPART_STATE_INCORE -> chain_pages (mt_memory p) !! i = Some f ->
  branch_walk b r ((mb_vmin b + (mt_start p - mb_start b)) / 4096 + Z.of_nat i) = Some (f, Z.land (incore_prot b r p) 7).
Proof.
  intros Hfrom Hst Hi. pose proof Hfrom as (Hlo & (_ & Hp & _) & _). pose proof (ok_size _ _ Hp Hst) as Hsz. pose proof (ok_begin _ _ Hp).
  destruct b_wf as (? & _ & _ & _ & ? & ? & _). pose proof (lookup_lt_Some _ _ _ Hi) as Hlt. unfold zlen in Hsz.
  unfold branch_walk. rewrite (page_in_part p next) by (done || mlia).
  replace (Z.to_nat _) with i by lia. unfold part_pages, part_frames. rewrite Hst, Z.eqb_refl, !list_lookup_fmap, Hi. cbn.
  do 2 f_equal. symmetry. by apply incore_bits.
Qed.

Definition from (lo : Z) : Z := Z.min (mb_start b + size_of b) (Z.max lo (mb_start b)).

Lemma remap_part_ok p next a : parts_from (mt_start p) (p :: next) -> pdir_wf a self ->
  let e := end_of next (mr_size r) in mb_start b < e -> mt_start p < mb_start b + size_of b ->
  exists er a', remap_part pdir_kernel pdir_kernel_v b r p self (Z.max (mt_start p) (mb_start b) - mb_start b)
      (Z.min e (mb_start b + size_of b) - mb_start b) a = Ret (er, a') /\
    mapped (branch_walk b r) a a' (mb_vmin b + (from (mt_start p) - mb_start b)) (from e - from (mt_start p)) er.
Proof.
  intros Hfrom Hwf e He Hb. pose proof Hfrom as (Hlo & (_ & Hp & Hok) & (Hfit & _) & _). fold e in Hp, Hok, Hfit.
  destruct (Hfit He Hb) as [_ Hcore]. pose proof (ok_order _ _ Hp). pose proof (ok_begin _ _ Hp). pose proof (ok_end _ _ Hp).
  destruct b_wf as (B1 & B2 & B3 & B4 & B5 & B6 & B7). pose proof b_range as (_ & R2 & _ & _ & R5 & _). unfold THIS_PDIR_BASE in R5. unfold size_of in *.
  assert (F1 : from (mt_start p) = Z.max (mt_start p) (mb_start b)) by (unfold from, size_of; lia).
  assert (F2 : from e = Z.min e (mb_start b + (mb_vmax b - mb_vmin b + 1))) by (unfold from, size_of; lia).
  rewrite F1, F2. unfold remap_part. rewrite !uintptr_id by lia. destruct (Z.eqb_spec (mt_state p) MPART_STATE_INCORE) as [Hst|Hst].
  - destruct (Hcore Hst) as (Hc1 & Hc2 & Hlinks). rewrite (Z.max_l (mt_start p)), (Z.min_l e) by lia.
    destruct (incore_bits b r p (PInfo (mt_refcnt p) (mt_state p) (mt_flags p) None) eq_refl eq_refl) as (_ & I2 & I3 & I4).
    pose proof (ok_size _ _ Hp Hst) as Hsz.
    destruct (remap_links_ok (branch_walk b r) (incore_prot b r p) (mb_vmin b + (e - mb_start b)) I2 I3 (mt_memory p) (mb_vmin b + (mt_start p - mb_start b)) a)
      as (er & x & a' & -> & HM & Hx); try done.
    + by apply (ok_links _ _ Hp).
    + intros Hnil. rewrite Hnil in Hsz. change (zlen (chain_pages [])) with 0 in Hsz. lia.
    + lia.
    + eapply range_part; [exact b_range|unfold size_of; lia..|mlia|mlia].
    + intros Hh. apply I4, b_user. lia.
    + intros i f Hi. by apply incore_walk with next.
    + cbn [obind]. replace (mb_vmin b + (e - mb_start b) - (mb_vmin b + (mt_start p - mb_start b))) with (e - mt_start p) in HM by lia.
      destruct (E_ISERR er) eqn:Eer; [by eexists _, _|]. pose proof (mapped_error _ _ _ _ _ _ HM Eer) as ->.
      rewrite (Hx eq_refl), Z.eqb_refl, oassert_true. by eexists _, _.
  - destruct (page_bits b) as (P1 & P2 & P3). set (V := mb_vmin b + (Z.max (mt_start p) (mb_start b) - mb_start b)).
    set (n := Z.min e (mb_start b + (mb_vmax b - mb_vmin b + 1)) - mb_start b - (Z.max (mt_start p) (mb_start b) - mb_start b)).
    destruct (mapped_mmap (branch_walk b r) a V n MMAN_LOADONREAD_ADDR (page_prot b)) as (er & a' & -> & HM); try done.
    + eapply range_part; [exact b_range|unfold V, n, size_of; lia..|unfold V; mlia|unfold n; mlia].
    + intros Hh. apply P3, b_user. unfold V, n in Hh. lia.
    + intros i _ _ _ Hx. by rewrite P1 in Hx.
    + intros v Hv. unfold new_map. rewrite P1. apply (absent_walk p next); [done|done|]. fold e. unfold V, n in Hv. lia.
    + eexists _, _. split; [done|]. by replace (Z.min e (mb_start b + (mb_vmax b - mb_vmin b + 1)) - Z.max (mt_start p) (mb_start b)) with n by (unfold n; lia).
Qed.

Lemma mapped_nothing new a start : pdir_wf a self -> mapped new a a start 0 (- EOK).
Proof. intros Hwf. split; [apply stepped_refl; [done|split; [constructor|by intros ? ?%not_elem_of_nil]]|]. exists 0. split; [lia|]. split; [by apply updated_none|by left]. Qed.

Lemma remap_parts_ok parts : forall lo a, parts_from lo parts -> pdir_wf a self ->
  exists er a', remap_parts pdir_kernel pdir_kernel_v b r self (mb_start b) (mb_start b + size_of b) parts (- EOK) a = Ret (er, a') /\
    mapped (branch_walk b r) a a' (mb_vmin b + (from lo - mb_start b)) (mb_start b + size_of b - from lo) er.
Proof.
  assert (0 < size_of b) as Hsize by (destruct b_wf as (_ & _ & ? & _); unfold size_of; lia).
  assert (Hend : forall lo a, pdir_wf a self -> mb_start b + size_of b <= lo ->
    mapped (branch_walk b r) a a (mb_vmin b + (from lo - mb_start b)) (mb_start b + size_of b - from lo) (- EOK)).
  { intros lo a Hwf Hlo. replace (mb_start b + size_of b - from lo) with 0 by (unfold from; lia). by apply mapped_nothing. }
  induction parts as [|p next IH]; intros lo a Hfrom Hwf.
  { destruct Hfrom as (_ & Hok & _). simpl in Hok. subst lo. eexists _, _. split; [done|]. by apply Hend. }
  pose proof (from_next _ _ _ Hfrom) as Hnext. pose proof Hfrom as (_ & (<- & Hp & _) & (Hfit & _) & _). cbn [remap_parts].
  pose proof (ok_order _ _ Hp). pose proof (ok_begin _ _ Hp). pose proof (ok_end _ _ Hp).
  rewrite !(proj2 (aligned_page _)), (proj2 (Z.ltb_lt _ _)), !oassert_true by done.
  set (e := end_of next (mr_size r)) in *. destruct (Z.leb_spec e (mb_start b)) as [He|He].
  { destruct (IH e a Hnext Hwf) as (er & a' & Hr & HM). exists er, a'. split; [done|].
    by replace (from (mt_start p)) with (from e) by (unfold from; lia). }
  destruct (Z.leb_spec (mb_start b + size_of b) (mt_start p)) as [Hb|Hb]; [eexists _, _; split; [done|]; by apply Hend|].
  destruct (Hfit He Hb) as [Hc _]. rewrite (proj2 (Z.eqb_neq _ _) Hc). cbn [negb]. rewrite oassert_true.
  rewrite (proj2 (Z.ltb_lt _ _)), oassert_true by lia.
  destruct (remap_part_ok p next a Hfrom Hwf He Hb) as (er & a1 & Hr1 & HM1). fold e in Hr1, HM1. rewrite Hr1. cbn [obind].
  assert (from (mt_start p) <= from e <= mb_start b + size_of b) by (unfold from; lia).
  replace (mb_start b + size_of b - from (mt_start p)) with (from e - from (mt_start p) + (mb_start b + size_of b - from e)) by lia.
  destruct (E_ISERR er) eqn:Eer; [eexists _, _; split; [done|]; eapply mapped_short; [lia|done|by eapply mapped_failed]|].
  pose proof (mapped_error _ _ _ _ _ _ HM1 Eer) as ->. destruct (IH e a1 Hnext ltac:(apply HM1)) as (er & a2 & -> & HM2). eexists _, _. split; [done|].
  eapply mapped_trans; [lia|lia|done|]. by replace (mb_vmin b + (from (mt_start p) - mb_start b) + (from e - from (mt_start p))) with (mb_vmin b + (from e - mb_start b)) by lia.
Qed.

End Parts.

Lemma remap_unlocked_ok b r (a : A) : branch_wf b -> region_ok r -> mb_start b + size_of b <= mr_size r ->
  range_ok pdir_kernel pdir_kernel_v self (mb_vmin b) (size_of b) -> (VM_HOST_BASE < mb_vmin b + size_of b -> has (mb_prot b) PROT_NOUSER = true) ->
  parts_fit b (mr_parts r) (mr_size r) -> mr_type r <> MREGION_TYPE_RESERVED -> has (mb_prot b) (Z.lor PROT_WRITE PROT_READ) = true -> pdir_wf a self ->
  exists er a', mbranch_remap_unlocked pdir_kernel pdir_kernel_v b r self a = Ret (er, a') /\ stepped a a' self [] [] /\
    exists n, 0 <= n <= size_of b /\ updated (branch_walk b r) a a' (mb_vmin b) n /\ (er = - EOK /\ n = size_of b \/ er = - ENOMEM).
Proof.
  intros Hb Hr Hfits Hrange Huser Hfit Ht Hprot Hwf. pose proof Hb as (B1 & B2 & B3 & B4 & B5 & B6 & B7). unfold mbranch_remap_unlocked.
  rewrite branch_size by done. fold (size_of b). rewrite uintptr_id by (unfold size_of; lia).
  rewrite (proj2 (Z.ltb_lt _ _)), (proj2 (Z.leb_le _ _)), !(proj2 (aligned_page _)), !oassert_true by (done || unfold size_of; mlia).
  rewrite (proj2 (Z.eqb_neq _ _) Ht), Hprot. cbn [negb].
  destruct (remap_parts_ok b r Hb Hfits Hrange Huser (mr_parts r) 0 a) as (er & a' & Hp & HM); [|done|].
  { split; [done|]. split; [apply Hr|]. split; [done|]. intros i. done. }
  replace (from b 0) with (mb_start b) in HM by (unfold from, size_of; lia).
  replace (mb_vmin b + (mb_start b - mb_start b)) with (mb_vmin b) in HM by lia. replace (mb_start b + size_of b - mb_start b) with (size_of b) in HM by lia.
  destruct HM as [HS HM]. exists er, a'. done.
Qed.

(** Branches that are not to be accessed stay as they are in the directory. *)
Lemma remap_skips b r (a : A) : branch_wf b -> region_ok r -> mb_start b + size_of b <= mr_size r ->
  mr_type r = MREGION_TYPE_RESERVED \/ has (mb_prot b) (Z.lor PROT_WRITE PROT_READ) = false ->
  mbranch_remap_unlocked pdir_kernel pdir_kernel_v b r self a = Ret (- EOK, a).
Proof.
  intros Hb Hr Hfits Hskip. pose proof Hb as (B1 & B2 & B3 & B4 & B5 & B6 & B7). unfold mbranch_remap_unlocked.
  rewrite branch_size by done. fold (size_of b). rewrite uintptr_id by (unfold size_of; lia).
  rewrite (proj2 (Z.ltb_lt _ _)), (proj2 (Z.leb_le _ _)), !(proj2 (aligned_page _)), !oassert_true by (done || unfold size_of; mlia).
  destruct Hskip as [->|Hp]; [done|]. rewrite Hp. by destruct (_ =? _).
Qed.

(** Unmapping a branch removes the translations of exactly its pages, or fails without any change
    for want of memory. *)
Lemma branch_unmap_ok b r (a : A) : branch_wf b -> range_ok pdir_kernel pdir_kernel_v self (mb_vmin b) (size_of b) ->
  mr_type r <> MREGION_TYPE_RESERVED -> pdir_wf a self ->
  (forall i, 0 <= i < 1023 -> overlaps (mb_vmin b) (size_of b) i -> ~ within (mb_vmin b) (size_of b) i -> used (directory a self i)) ->
  exists er a', branch_unmap pdir_kernel pdir_kernel_v b r self a = Ret (er, a') /\ stepped a a' self [] [] /\
    exists n, updated (fun _ => None) a a' (mb_vmin b) n /\ (er = - EOK /\ n = size_of b \/ er = - ENOMEM /\ n = 0).
Proof.
  intros Hb Hrange Ht Hwf Hused. pose proof Hb as (B1 & B2 & B3 & B4 & B5 & B6 & B7). pose proof Hrange as (_ & R2 & _ & R4 & R5 & _).
  unfold THIS_PDIR_BASE in R5. unfold branch_unmap. rewrite (proj2 (Z.eqb_neq _ _) Ht), branch_size by done. fold (size_of b).
  pose proof (munmap_ok pdir_kernel pdir_kernel_v self a (mb_vmin b) (size_of b) PDIR_FLAG_NOFLUSH) as Hm. cbv zeta in Hm.
  replace (CEIL_ALIGN (2 ^ 32) (size_of b) PAGESIZE) with (size_of b) in Hm.
  - destruct (Hm Hwf Hrange Hused) as (er & a' & -> & HS & [[-> Hw]|[-> Hw]]); eexists _, _; (split; [done|]); (split; [done|]).
    + exists 0. split; [by apply updated_none|by right].
    + exists (size_of b). split; [|by left]. exact Hw.
  - destruct (ceil_page (2 ^ 32) (size_of b)); [lia|unfold PAGESIZE; lia|]. mlia.
Qed.


(** Memory that is not shared can be written to without a fault only by its one user. *)
Theorem private_write_alone b r v : has (mb_prot b) PROT_SHARED = false ->
  forall i f rights, page_at b r v = Some i -> branch_walk b r v = Some (f, rights) -> Z.testbit rights 1 = true -> pi_refcnt i = 1.
Proof.
  intros Hs i f rights Hi. unfold branch_walk. rewrite Hi. simpl. destruct (pi_frame i); simpl; [|done]. intros [= <- <-].
  unfold page_rights. destruct (decide _) as [Hw|Hw]; [by destruct (has (mb_prot b) PROT_NOUSER)|]. intros _.
  destruct (Z.eq_dec (pi_refcnt i) 1); [done|]. by destruct Hw; apply faults_copy.
Qed.

End Results.

(** ** The hypotheses can hold *)

#[local] Instance sample_memory : PhysMem machine := machine_mem (2 ^ 32) [] 1.
#[local] Instance sample_memory_laws : PhysLaws machine := machine_laws (2 ^ 32) [] 1 (le_n 2).

(** Two pages of physical memory that the kernel can write to. *)
Definition video_branch : mbranch := MBranch 0xd1000000 0xd1001fff 0x46 0 1 0 0.
Definition video_memory : mregion := MRegion 2 MREGION_TYPE_PHYSICAL 0 (MSetup 0 0 0 0 0) 0x2000 [MPart 0 1 MPART_STATE_INCORE 0 1 [(0xb8000, 0x2000)]].

Lemma video_memory_ok : region_ok video_memory.
Proof.
  split; [done|]. cbn. split; [done|]. split; [|done]. split; cbn; try done. intros _. by repeat constructor.
Qed.

