(* ===== verification/Space.v ===== *)
(** * The address space of the kernel

    Address spaces over regions and the page directory: [space_ops] gives the functions that
    address spaces call ([BranchOps]) as those of regions and branches.  [space_laws] shows their
    promises ([BranchLaws]) for mappings of the kernel while no page of them has been loaded, memory
    for parts is available and waiting for locks is not interrupted.  Then every page of a region has
    exactly as many references as there are branches that map it. *)
From stdpp Require Import base numbers list gmap.
From S2P Require Import Prelude Align PageAlloc PageScatter PhysMem Paging32 Paging32Spec Paging32Ops Paging32Map.
From S2P Require Import ATree Mman MmanSpec MmanOps Region RegionSpec RegionOps RegionActs RegionTheorems Branch BranchTheorems.

Ltac zcases := repeat match goal with
  | |- context [?a <=? ?b] => destruct (Z.leb_spec a b)
  | |- context [?a <? ?b] => destruct (Z.ltb_spec a b)
  end.

(** ** References that can be had *)

Section Sure.

Context {W : Type} `{PartLaws W Own}.
Hypothesis parts_left : ~ no_part (Own := Own).
Hypothesis locks_left : forall (w : W) F, Own w F -> E_ISERR (rwlock_write w).1 = false.

Lemma incref_sure r start n (w : W) : region_ok r -> owns (Own := Own) r w -> frees_ok (Own := Own) r -> range_in r start n ->
  1 <= mr_refcnt r < 2 ^ 32 - 1 -> range_all (fun v => can_inc v /\ state_ok r (pi_state v)) start (start + n) (pages_of r) ->
  exists ps w', let r' := set_parts ps (set_refcnt (mr_refcnt r + 1) r) in region_incref r start n w = Ret (- EOK, r', w') /\
    region_ok r' /\ owns (Own := Own) r' w' /\ pages_of r' = upd inc_page start (start + n) (pages_of r).
Proof.
  intros Hr HO HF Hin Hc Hall. unfold region_incref. rewrite uintptr_id by lia.
  pose proof (rwlock_write_ok w _ HO) as HO1. pose proof (locks_left w _ HO) as Hlk. destruct (rwlock_write w) as [er w1]. simpl in HO1, Hlk. rewrite Hlk.
  assert (Hr1 : region_ok (set_refcnt (mr_refcnt r + 1) r)) by (destruct Hr; by split).
  destruct (part_incref_ok (set_refcnt (mr_refcnt r + 1) r) start n w1 Hr1 HO1 HF Hin Hall) as (ok & r2 & w2 & -> & Hac).
  destruct Hac as (Hr2 & [ps ->] & HO2 & Hok). destruct ok; [|by destruct Hok]. exists ps, w2. done.
Qed.

Lemma decref_sure r start n (w : W) : region_ok r -> owns (Own := Own) r w -> frees_ok (Own := Own) r -> range_in r start n ->
  1 <= mr_refcnt r < 2 ^ 32 -> range_all (can_dec r) start (start + n) (pages_of r) ->
  let L := upd (dec_page r) start (start + n) (pages_of r) in (mr_refcnt r = 1 -> Forall (unused r) L) ->
  exists er ro w', region_decref r start n w = Ret (er, ro, w') /\ E_ISERR er = false /\
    if mr_refcnt r =? 1 then ro = None /\ Own w' (left_frames r <$> L)
    else exists ps, ro = Some (set_parts ps (set_refcnt (mr_refcnt r - 1) r)) /\
      let r' := set_parts ps (set_refcnt (mr_refcnt r - 1) r) in region_ok r' /\ owns (Own := Own) r' w' /\ pages_of r' = L.
Proof.
  intros Hr HO HF Hin Hc Hall L Hlast. unfold region_decref.
  pose proof (rwlock_write_ok w _ HO) as HO1. pose proof (locks_left w _ HO) as Hlk. destruct (rwlock_write w) as [er w1]. simpl in HO1, Hlk. rewrite Hlk.
  destruct (part_decref_ok r start n w1 Hr HO1 HF Hin Hall) as (ok & r2 & w2 & -> & Hac). cbn [obind].
  destruct Hac as (Hr2 & [ps ->] & HO2 & Hok). destruct ok; [|by destruct Hok]. fold L in Hok.
  unfold MREGION_DECREF. cbn [mr_refcnt set_refcnt set_parts]. rewrite uintptr_id by lia. destruct (Z.eqb_spec (mr_refcnt r) 1) as [H1|H1].
  - rewrite (proj2 (Z.eqb_eq (mr_refcnt r - 1) 0)) by lia.
    destruct (region_destroyed (set_refcnt (mr_refcnt r - 1) (set_parts ps r)) w2) as (w3 & -> & HO3);
      [destruct Hr2; by split|exact HO2|exact HF|simpl; lia| |].
    { change (pages_of _) with (pages_of (set_parts ps r)). rewrite Hok. by apply Hlast. }
    cbn [obind]. eexists _, _, w3. split; [done|]. split; [done|]. split; [done|].
    change (pages_of _) with (pages_of (set_parts ps r)) in HO3. by rewrite Hok in HO3.
  - rewrite (proj2 (Z.eqb_neq (mr_refcnt r - 1) 0)) by lia. cbn [obind]. eexists _, _, w2. split; [done|]. split; [done|].
    exists ps. split; [done|]. split; [destruct Hr2; by split|]. done.
Qed.

End Sure.

(** ** The environment *)

(** Regions by their addresses, the addresses of branches, the environment of regions and physical
    memory. *)
Record space (W A : Type) : Type := Space { sp_regions : gmap Z mregion; sp_heap : gset Z; sp_parts : W; sp_mem : A }.
Arguments Space {W A}.
Arguments sp_regions {W A}.
Arguments sp_heap {W A}.
Arguments sp_parts {W A}.
Arguments sp_mem {W A}.

Section Space.

Context {W : Type} `{PartLaws W Own} {FL : FreeLaws W Own} {A : Type} `{PL : PhysLaws A}.

(** The directory of the kernel at its two addresses, kmalloc() of a branch, given those in use,
    what waiting for the parts of a region returns, and the functions of branches. *)
Context (kdir kdir_v : Z) (fresh : gset Z -> option Z) (lock_read : W -> Z) (notify_fun : Z -> Z -> Z -> Z -> Z -> Z).

Definition set_regions (m : gmap Z mregion) (e : space W A) : space W A := Space m (sp_heap e) (sp_parts e) (sp_mem e).
Definition set_heap (h : gset Z) (e : space W A) : space W A := Space (sp_regions e) h (sp_parts e) (sp_mem e).
Definition set_region (q : Z) (ro : option mregion) (w : W) (e : space W A) : space W A :=
  Space (partial_alter (fun _ => ro) q (sp_regions e)) (sp_heap e) w (sp_mem e).
Definition put_mem (a : A) (e : space W A) : space W A := Space (sp_regions e) (sp_heap e) (sp_parts e) a.

Definition with_region {T} (q : Z) (e : space W A) (k : mregion -> outcome T) : outcome T :=
  match sp_regions e !! q with Some r => k r | None => Abort end.

Definition space_decref (q start n : Z) (e : space W A) : outcome (Z * space W A) :=
  with_region q e (fun r => let! (er, ro, w) := region_decref r start n (sp_parts e) in Ret (er, set_region q ro w e)).

#[local] Instance space_ops : BranchOps (space W A) := {
  Mman.mr_size e q := from_option Region.mr_size 0 (sp_regions e !! q);
  Mman.mr_type e q := from_option Region.mr_type 0 (sp_regions e !! q);
  kmalloc_branch e := match fresh (sp_heap e) with Some p => (Some p, set_heap ({[p]} ∪ sp_heap e) e) | None => (None, e) end;
  kffree_branch p e := set_heap (sp_heap e ∖ {[p]}) e;
  MREGION_INCREF q e := set_regions (alter (fun r => set_refcnt (uintptr (mr_refcnt r + 1)) r) q (sp_regions e)) e;
  region_decfetch q e := with_region q e (fun r =>
    assert! 2 <=? mr_refcnt r;;
    Ret (set_region q (Some (set_refcnt (uintptr (mr_refcnt r - 1)) r)) (sp_parts e) e));
  mregion_incref q start n e := with_region q e (fun r =>
    let! (er, r, w) := region_incref r start n (sp_parts e) in Ret (er, set_region q (Some r) w e));
  mregion_decref := space_decref;
  mregion_decref_clr q start n e := with_region q e (fun r =>
    let! (er, ro, w) := region_decref_clr r start n (sp_parts e) in Ret (er, set_region q ro w e));
  mbranch_remap b _ e := with_region (mb_region b) e (fun r =>
    let! (er, a) := branch_remap kdir kdir_v (lock_read (sp_parts e)) b r kdir (sp_mem e) in Ret (er, put_mem a e));
  mbranch_unmap b e := with_region (mb_region b) e (fun r =>
    let! (er, a) := branch_unmap kdir kdir_v b r kdir (sp_mem e) in Ret (er, put_mem a e));
  notify f ev cl addr n e := (notify_fun f ev cl addr n, e)
}.

(** Branches that map page [i] of region [q], and branches of the region. *)
Definition covers (q : Z) (i : nat) (b : mbranch) : Z :=
  if (mb_region b =? q) && (mb_start b <=? 4096 * Z.of_nat i) && (4096 * Z.of_nat i <? mb_start b + size_of b) then 1 else 0.
Definition of_region (q : Z) (b : mbranch) : Z := if mb_region b =? q then 1 else 0.

(** A page that has not been loaded, with its references. *)
Definition page_counted (B : gmap Z mbranch) (q : Z) (i : nat) (v : pinfo) : Prop :=
  pi_refcnt v = tally (covers q i) B /\ pi_state v = MPART_STATE_MISSING /\ has (pi_flags v) MPART_FLAG_CHNG = false /\ pi_frame v = None.

Record region_counted (B : gmap Z mbranch) (q : Z) (r : mregion) : Prop := {
  rc_ok : region_ok r;
  rc_type : Region.mr_type r <> MREGION_TYPE_PHYSICAL;
  rc_pages i v : pages_of r !! i = Some v -> page_counted B q i v;
  rc_refs : exists others, 0 <= others < 2 ^ 31 /\ mr_refcnt r = others + tally (of_region q) B;
  rc_live : 1 <= mr_refcnt r
}.

(** Branches of the kernel. *)
Definition host_branch (b : mbranch) : Prop :=
  VM_HOST_BASE <= mb_vmin b /\ mb_vmax b < THIS_PDIR_BASE /\ has (mb_prot b) PROT_NOUSER = true.

Definition fits_region (m : gmap Z mregion) (b : mbranch) : Prop :=
  exists r, m !! mb_region b = Some r /\ mb_start b + size_of b <= Region.mr_size r.

Record space_ok (e : space W A) (B : gmap Z mbranch) : Prop := {
  so_pdir : pdir_wf (sp_mem e) kdir;
  so_own : Own (sp_parts e) [];
  so_host p : p ∈ sp_heap e -> VM_HOST_BASE <= p < 2 ^ 32;
  so_heap p b : B !! p = Some b -> p ∈ sp_heap e;
  so_branch p b : B !! p = Some b -> host_branch b;
  so_fits p b : B !! p = Some b -> fits_region (sp_regions e) b;
  so_regions q r : sp_regions e !! q = Some r -> region_counted B q r
}.

Lemma covers_le q i b : 0 <= covers q i b <= of_region q b.
Proof. unfold covers, of_region. destruct (mb_region b =? q), (_ <=? _), (_ <? _); simpl; lia. Qed.

Lemma tally_covers q i B : 0 <= tally (covers q i) B <= tally (of_region q) B.
Proof. split; [apply tally_nonneg|apply tally_le]; intros b; apply covers_le. Qed.

(** There are not more branches than addresses for them. *)
Lemma tally_bound e B q : space_ok e B -> tally (of_region q) B <= 2 ^ 30.
Proof.
  intros Hok. transitivity (tally (fun _ => 1) B); [apply tally_le; intros b; unfold of_region; by destruct (mb_region b =? q)|].
  assert (Hs : tally (fun _ => 1) B = Z.of_nat (size B)).
  { rewrite <- length_map_to_list. unfold tally. induction (map_to_list B) as [|x l IH]; [done|].
    rewrite fmap_cons. unfold zsum in *. cbn [foldr length]. lia. }
  rewrite Hs, <- size_dom. transitivity (Z.of_nat (size (list_to_set (seqZ VM_HOST_BASE (2 ^ 30)) : gset Z))).
  - apply inj_le, subseteq_size. intros p Hp. apply elem_of_dom in Hp as [b Hb].
    pose proof (so_host _ _ Hok p (so_heap _ _ Hok p b Hb)). unfold VM_HOST_BASE in *. apply elem_of_list_to_set, elem_of_seqZ. lia.
  - rewrite size_list_to_set by apply NoDup_seqZ. rewrite length_seqZ. lia.
Qed.

Lemma refs_bound e B q r : space_ok e B -> sp_regions e !! q = Some r -> 1 <= mr_refcnt r < 2 ^ 32 - 1.
Proof.
  intros Hok Hr. pose proof (so_regions _ _ Hok _ _ Hr) as Hc. pose proof (rc_live _ _ _ Hc). destruct (rc_refs _ _ _ Hc) as (o & Ho & He).
  pose proof (tally_bound e B q Hok). lia.
Qed.

(** ** Changes *)

(** The branches of other regions than [q] are the same. *)
Definition same_for (q : Z) (B B' : gmap Z mbranch) : Prop :=
  forall f, (forall b, mb_region b = q -> f b = 0) -> tally f B' = tally f B.

Lemma counted_same B B' q r : (forall i, tally (covers q i) B' = tally (covers q i) B) -> tally (of_region q) B' = tally (of_region q) B ->
  region_counted B q r -> region_counted B' q r.
Proof.
  intros Hc Hr [? ? Hp ? ?]. split; try done; [|by rewrite Hr]. intros i v Hv. unfold page_counted. rewrite Hc. by apply Hp.
Qed.

Lemma counted_other B B' q q' r : q' <> q -> same_for q B B' -> region_counted B q' r -> region_counted B' q' r.
Proof.
  intros Hq Hs. apply counted_same; [intros i|]; apply Hs; intros b Hb; unfold covers, of_region; by rewrite Hb, (proj2 (Z.eqb_neq q q')) by done.
Qed.

Lemma space_change e e' B B' q : space_ok e B -> same_for q B B' -> pdir_wf (sp_mem e') kdir -> Own (sp_parts e') [] ->
  (forall p, p ∈ sp_heap e' -> VM_HOST_BASE <= p < 2 ^ 32) ->
  (forall p b, B' !! p = Some b -> p ∈ sp_heap e' /\ host_branch b /\ fits_region (sp_regions e') b) ->
  (forall q', q' <> q -> sp_regions e' !! q' = sp_regions e !! q') -> (forall r, sp_regions e' !! q = Some r -> region_counted B' q r) ->
  space_ok e' B'.
Proof.
  intros Hok Hs Hp Ho Hh Hb Hr Hq. split; try done; try (intros p b Hpb; by destruct (Hb p b Hpb) as (? & ? & ?)).
  intros q' r Hr'. destruct (Z.eq_dec q' q) as [->|Hne]; [by apply Hq|]. rewrite Hr in Hr' by done.
  apply (counted_other B B' q); [done|done|]. by apply (so_regions _ _ Hok).
Qed.

(** Regions none of whose pages is loaded own nothing. *)
Lemma all_none (L : list pinfo) : (forall i v, L !! i = Some v -> pi_frame v = None) -> pi_frame <$> L = replicate (length L) None.
Proof.
  intros HL. apply list_eq. intros i. rewrite list_lookup_fmap. destruct (L !! i) as [v|] eqn:Hv; simpl.
  - rewrite (HL i v Hv), lookup_replicate_2; [done|]. by eapply lookup_lt_Some.
  - symmetry. apply lookup_ge_None. rewrite length_replicate. by apply lookup_ge_None.
Qed.

Lemma counted_owns B q r w : region_counted B q r -> Own w [] <-> owns (Own := Own) r w.
Proof.
  intros Hc. unfold owns. rewrite all_none; [|intros i v Hv; apply (rc_pages _ _ _ Hc i v Hv)]. split; [apply own_nothing|apply own_none].
Qed.

(** The pages of a region after a change of those of a range. *)
Lemma counted_upd B B' q f start n L : (forall i v, L !! i = Some v -> page_counted B q i v) ->
  (forall i v, page_counted B q i v -> start <= 4096 * Z.of_nat i < start + n -> page_counted B' q i (f v)) ->
  (forall i, ~ start <= 4096 * Z.of_nat i < start + n -> tally (covers q i) B' = tally (covers q i) B) ->
  forall i v, upd f start (start + n) L !! i = Some v -> page_counted B' q i v.
Proof.
  intros HL Hf Ho i v. rewrite upd_lookup. destruct (L !! i) as [v0|] eqn:Hv; simpl; [|done]. specialize (HL i v0 Hv).
  destruct (Z.leb_spec start (4096 * Z.of_nat i)), (Z.ltb_spec (4096 * Z.of_nat i) (start + n)); simpl; intros [= <-];
    [by apply Hf; [|lia]|unfold page_counted; rewrite Ho by lia; exact HL..].
Qed.

Lemma covers_in b i : mb_start b <= 4096 * Z.of_nat i < mb_start b + size_of b -> covers (mb_region b) i b = 1.
Proof. intros Hi. unfold covers. by rewrite Z.eqb_refl, (proj2 (Z.leb_le _ _)), (proj2 (Z.ltb_lt _ _)) by lia. Qed.

Lemma covers_out b i : ~ mb_start b <= 4096 * Z.of_nat i < mb_start b + size_of b -> covers (mb_region b) i b = 0.
Proof.
  intros Hi. unfold covers. rewrite Z.eqb_refl. destruct (Z.leb_spec (mb_start b) (4096 * Z.of_nat i)), (Z.ltb_spec (4096 * Z.of_nat i) (mb_start b + size_of b)); simpl; (done || lia).
Qed.

Lemma missing_state_ok B q r v i : region_counted B q r -> page_counted B q i v -> state_ok r (pi_state v).
Proof. intros Hc (_ & -> & _). by split; [intros Ht; destruct (rc_type _ _ _ Hc)|]. Qed.

(** ** The promises *)

Hypothesis parts_left : ~ no_part (Own := Own).
Hypothesis locks_left : forall (w : W) F, Own w F -> E_ISERR (rwlock_write w).1 = false.
Hypothesis fresh_ok : forall h p, fresh h = Some p -> ~ (p ∈ h) /\ VM_HOST_BASE <= p < 2 ^ 32.

Lemma host_split b start : host_branch b -> mb_vmin b < start <= mb_vmax b -> host_branch (hi_of start b) /\ host_branch (set_vmax (start - 1) b).
Proof. intros (? & ? & ?) Hs. unfold host_branch. cbn. split_and!; (done || lia). Qed.

Lemma split_covers q i b start : branch_wf b -> mb_vmin b < start <= mb_vmax b ->
  covers q i (hi_of start b) + covers q i (set_vmax (start - 1) b) = covers q i b.
Proof.
  intros (_ & _ & ? & ? & ? & _ & ?) Hs. unfold covers, size_of. cbn [mb_region mb_start mb_vmin mb_vmax hi_of set_vmax]. rewrite uintptr_id by lia. destruct (mb_region b =? q); [|done].
  zcases; cbn [andb]; lia.
Qed.

Lemma space_split e B lo hi b start : space_ok e B -> B !! lo = Some b -> B !! hi = None -> hi ∈ sp_heap e -> branch_wf b ->
  mb_vmin b < start <= mb_vmax b ->
  space_ok (MREGION_INCREF (mb_region b) e) (<[hi := hi_of start b]> (<[lo := set_vmax (start - 1) b]> B)).
Proof.
  intros Hok Hlo Hhi Hal Hw Hs. assert (Hne : lo <> hi) by congruence. set (B' := <[hi := _]> _).
  assert (Ht : forall f, tally f B' = f (hi_of start b) + (f (set_vmax (start - 1) b) - f b) + tally f B).
  { intros f. unfold B'. rewrite tally_insert, (tally_change _ _ _ b) by (rewrite ?lookup_insert_ne; done). lia. }
  destruct (so_fits _ _ Hok lo b Hlo) as (r & Hr & Hle). destruct (host_split b start (so_branch _ _ Hok lo b Hlo) Hs) as [Hhh Hhl].
  pose proof (refs_bound e B _ r Hok Hr) as Hrb.
  assert (Hfit : forall d, fits_region (sp_regions e) d -> fits_region (sp_regions (MREGION_INCREF (mb_region b) e)) d).
  { intros d (x & Hx & Hd). simpl. unfold fits_region. destruct (Z.eq_dec (mb_region d) (mb_region b)) as [E1|E1].
    - rewrite E1 in *. rewrite lookup_alter_eq, Hx. simpl. eauto.
    - rewrite lookup_alter_ne by congruence. eauto. }
  apply (space_change e _ B B' (mb_region b)); try done; try apply Hok.
  - intros f Hf. rewrite Ht, !Hf by done. lia.
  - intros p d [[<- <-]|[_ [[<- <-]|[_ Hd]]%lookup_insert_Some]]%lookup_insert_Some.
    + split; [done|]. split; [done|]. apply Hfit. exists r. split; [done|]. destruct Hw as (_ & _ & ? & ? & ? & _ & ?). unfold size_of in *. cbn. rewrite uintptr_id; lia.
    + split; [exact (so_heap _ _ Hok _ _ Hlo)|]. split; [done|]. apply Hfit. exists r. split; [done|]. unfold size_of in *. cbn. lia.
    + split; [exact (so_heap _ _ Hok _ _ Hd)|]. split; [by eapply so_branch|]. by eapply Hfit, so_fits.
  - intros q Hq. simpl. by rewrite lookup_alter_ne.
  - intros r'. simpl. rewrite lookup_alter_eq, Hr. intros [= <-]. pose proof (so_regions _ _ Hok _ _ Hr) as [[R1 R1'] R2 R3 (o & Ho & R4) R5].
    rewrite uintptr_id by lia. split; [by split|done| |exists o; split; [done|]|cbn; lia].
    + intros i v Hv. destruct (R3 i v Hv) as (C1 & C2). split; [|done]. rewrite C1, Ht, <- (split_covers (mb_region b) i b start) by done. lia.
    + cbn [mr_refcnt set_refcnt]. rewrite Ht, R4. unfold of_region. cbn. rewrite Z.eqb_refl. lia.
Qed.

Lemma space_merge e B lo hi b h : space_ok e B -> B !! lo = Some b -> B !! hi = Some h -> lo <> hi -> branch_wf b -> branch_wf h ->
  h = hi_of (mb_vmin h) (set_vmax (mb_vmax h) b) -> mb_vmin h = mb_vmax b + 1 ->
  exists e', region_decfetch (mb_region b) (kffree_branch hi e) = Ret e' /\ space_ok e' (<[lo := set_vmax (mb_vmax h) b]> (delete hi B)).
Proof.
  intros Hok Hlo Hhi Hne Hw (_ & _ & G1 & G2 & _) Eh Hadj. destruct Hw as (_ & _ & W1 & W2 & W3 & _ & W4).
  assert (Hst : mb_start h = mb_start b + (mb_vmin h - mb_vmin b)) by (rewrite Eh at 1; simpl; apply uintptr_id; lia).
  assert (Hreg : mb_region h = mb_region b) by (by rewrite Eh). set (B' := <[lo := _]> _).
  assert (Hlo' : delete hi B !! lo = Some b) by (by rewrite lookup_delete_ne).
  assert (Ht : forall f, tally f B' = f (set_vmax (mb_vmax h) b) - f b - f h + tally f B).
  { intros f. unfold B'. rewrite (tally_change _ _ _ b) by done. rewrite (tally_delete f B hi h Hhi). lia. }
  destruct (so_fits _ _ Hok hi h Hhi) as (r & Hr & Hle). rewrite Hreg in Hr. pose proof (refs_bound e B _ r Hok Hr) as Hrb.
  pose proof (so_regions _ _ Hok _ _ Hr) as [[R1 R1'] R2 R3 (o & Ho & R4) R5].
  assert (Hc : 2 <= mr_refcnt r).
  { rewrite R4, (tally_delete _ _ _ _ Hhi), (tally_delete _ _ _ _ Hlo'). unfold of_region at 1 2. rewrite Hreg, Z.eqb_refl.
    pose proof (tally_covers (mb_region b) 0 (delete lo (delete hi B))). lia. }
  simpl. unfold with_region. simpl. rewrite Hr, (proj2 (Z.leb_le _ _) Hc), oassert_true, uintptr_id by lia. eexists. split; [done|].
  apply (space_change e _ B B' (mb_region b)); try done; try apply Hok; simpl.
  - intros f Hf. rewrite Ht, !Hf by done. lia.
  - intros p [Hp _]%elem_of_difference. by apply (so_host _ _ Hok).
  - assert (Hf : forall d, fits_region (sp_regions e) d -> fits_region (partial_alter (fun _ => Some (set_refcnt (mr_refcnt r - 1) r)) (mb_region b) (sp_regions e)) d).
    { intros d (x & Hx & Hd). unfold fits_region. destruct (Z.eq_dec (mb_region d) (mb_region b)) as [E1|E1].
      - rewrite E1 in *. rewrite lookup_partial_alter_eq. eexists. split; [done|]. simpl. congruence.
      - rewrite lookup_partial_alter_ne by congruence. eauto. }
    intros p d [[<- <-]|[_ [Hp Hd]%lookup_delete_Some]]%lookup_insert_Some.
    + split; [apply elem_of_difference; split; [by eapply so_heap|intros ?%elem_of_singleton; congruence]|]. split; [|apply Hf; exists r; split; [done|]; unfold size_of in *; cbn; lia].
      destruct (so_branch _ _ Hok lo b Hlo) as (? & ? & ?), (so_branch _ _ Hok hi h Hhi) as (? & ? & ?). split_and!; done.
    + split; [apply elem_of_difference; split; [by eapply so_heap|intros ?%elem_of_singleton; congruence]|]. split; [by eapply so_branch|]. by eapply Hf, so_fits.
  - intros q Hq. by rewrite lookup_partial_alter_ne.
  - intros r'. rewrite lookup_partial_alter_eq. intros [= <-]. split; [by split|done| |exists o; split; [done|]|cbn; lia].
    + intros i v Hv. destruct (R3 i v Hv) as (C1 & C2). split; [|done]. rewrite C1, Ht. unfold covers, size_of. cbn [mb_region mb_start mb_vmin mb_vmax set_vmax]. rewrite Hreg, Z.eqb_refl, Hst.
      zcases; cbn [andb]; lia.
    + cbn [mr_refcnt set_refcnt]. rewrite Ht, R4. unfold of_region. cbn. rewrite Hreg, Z.eqb_refl. lia.
Qed.

(** Another state of one region. *)
Lemma fits_other m q ro d : fits_region m d -> (mb_region d = q -> exists r r', m !! q = Some r /\ ro = Some r' /\ Region.mr_size r' = Region.mr_size r) ->
  fits_region (partial_alter (fun _ => ro) q m) d.
Proof.
  intros (x & Hx & Hd) Hq. unfold fits_region. destruct (Z.eq_dec (mb_region d) q) as [E1|E1].
  - destruct (Hq E1) as (r & r' & Hr & -> & Hs). rewrite E1 in *. rewrite lookup_partial_alter_eq. eexists. split; [done|]. simpl in *. rewrite Hs. congruence.
  - rewrite lookup_partial_alter_ne by congruence. eauto.
Qed.

Lemma branch_range b r : branch_wf b -> mb_start b + size_of b <= Region.mr_size r -> range_in r (mb_start b) (size_of b).
Proof. intros (? & ? & ? & ? & ? & ? & ?) Hle. unfold range_in, size_of in *. split_and!; (done || lia || mlia). Qed.

Lemma space_incref e B b p : space_ok e B -> B !! p = None -> p ∈ sp_heap e -> branch_wf b -> host_branch b ->
  mb_start b + size_of b <= Mman.mr_size e (mb_region b) ->
  exists r e', mregion_incref (mb_region b) (mb_start b) (size_of b) e = Ret (r, e') /\ space_ok e' (if E_ISERR r then B else <[p := b]> B).
Proof.
  intros Hok Hp Hal Hw Hhost Hle. simpl in *. unfold with_region. destruct (sp_regions e !! mb_region b) as [r|] eqn:Hr; simpl in Hle.
  2:{ destruct Hw as (_ & _ & ? & _ & ? & _). unfold size_of in *. lia. }
  pose proof (so_regions _ _ Hok _ _ Hr) as Hc. pose proof Hc as [R1 R2 R3 (o & Ho & R4) R5]. pose proof (tally_bound e B (mb_region b) Hok) as Htb.
  destruct (incref_sure parts_left locks_left r (mb_start b) (size_of b) (sp_parts e)) as (ps & w' & -> & Hok' & HO' & Hpg); try done.
  { apply (counted_owns B (mb_region b)); [done|apply Hok]. }
  { by intros _. }
  { by apply branch_range. }
  { by eapply refs_bound. }
  { intros i v Hv _. pose proof (R3 i v Hv) as (C1 & C2). split; [|by eapply missing_state_ok]. unfold can_inc. rewrite C1.
    pose proof (tally_covers (mb_region b) i B). lia. }
  cbn [obind]. eexists _, _. split; [done|]. change (E_ISERR (- Mman.EOK)) with false. cbv iota.
  set (r' := set_parts ps _) in *.
  assert (Hc' : region_counted (<[p := b]> B) (mb_region b) r').
  { split; [done|done| |exists o; split; [done|]|cbn; lia].
    - rewrite Hpg. apply (counted_upd B); [done| |].
      + intros i v (C1 & C2) Hi. split; [|done]. rewrite tally_insert, covers_in by done. simpl. lia.
      + intros i Hi. rewrite tally_insert, covers_out by done. done.
    - simpl. rewrite tally_insert by done. unfold of_region at 1. rewrite Z.eqb_refl. lia. }
  apply (space_change e _ B _ (mb_region b)); try done; try apply Hok; simpl.
  - intros f Hf. rewrite tally_insert, Hf by done. done.
  - by apply (counted_owns _ _ _ _ Hc').
  - assert (Hfit : forall d, fits_region (sp_regions e) d -> fits_region (partial_alter (fun _ => Some r') (mb_region b) (sp_regions e)) d)
      by (intros d Hd; apply fits_other; [done|]; intros _; by exists r, r').
    intros q d [[<- <-]|[_ Hd]]%lookup_insert_Some; [split; [done|]; split; [done|]; apply Hfit; by exists r|].
    split; [by eapply so_heap|]. split; [by eapply so_branch|]. by eapply Hfit, so_fits.
  - intros q Hq. by rewrite lookup_partial_alter_ne.
  - intros r2. rewrite lookup_partial_alter_eq. intros [= <-]. done.
Qed.

(** Giving up a reference, the last one to the region included. *)
Lemma dropped_page B B' q r i v : region_counted B q r -> page_counted B q i v -> 1 <= pi_refcnt v ->
  tally (covers q i) B' = tally (covers q i) B - 1 -> page_counted B' q i (dec_page r v).
Proof.
  intros Hc (C1 & C2 & C3 & C4) Hv Ht. unfold page_counted. rewrite Ht, <- C1. unfold dec_page. rewrite C3.
  destruct (Z.eqb_spec (pi_refcnt v) 1) as [H1'|H1']; [destruct (_ && _)|]; cbn [pi_refcnt pi_state pi_flags pi_frame]; split_and!; (done || lia).
Qed.

Lemma dropped_pages B q b r p : region_counted B q r -> B !! p = Some b -> mb_region b = q -> forall i v,
  upd (dec_page r) (mb_start b) (mb_start b + size_of b) (pages_of r) !! i = Some v -> page_counted (delete p B) q i v.
Proof.
  intros Hc Hp <-. pose proof Hc as [_ _ R3 _ _]. apply (counted_upd B); [done| |].
  - intros i v HC Hi. apply (dropped_page B); try done.
    + destruct HC as (-> & _). rewrite (tally_delete _ _ _ _ Hp), covers_in by done. pose proof (tally_covers (mb_region b) i (delete p B)). lia.
    + rewrite (tally_delete _ B _ _ Hp), covers_in by done. lia.
  - intros i Hi. by rewrite (tally_delete _ B _ _ Hp), covers_out.
Qed.

(** The region after a branch is gone, or no region. *)
Lemma space_dropped e B b p r o ro w' : space_ok e B -> B !! p = Some b -> sp_regions e !! mb_region b = Some r ->
  mr_refcnt r = o + (1 + tally (of_region (mb_region b)) (delete p B)) -> 0 <= o -> Own w' [] ->
  (mr_refcnt r <> 1 -> exists r', ro = Some r' /\ Region.mr_size r' = Region.mr_size r) ->
  (forall r', ro = Some r' -> region_counted (delete p B) (mb_region b) r') -> space_ok (set_region (mb_region b) ro w' e) (delete p B).
Proof.
  intros Hok Hp Hr R4 Ho HO Hsz Hrc. apply (space_change e _ B _ (mb_region b)); try done; try apply Hok; simpl.
  - intros f Hf. by rewrite (tally_delete f B p b Hp), Hf.
  - intros q d [Hq Hd]%lookup_delete_Some. split; [by eapply so_heap|]. split; [by eapply so_branch|].
    apply fits_other; [by eapply so_fits|]. intros Hdq. destruct Hsz as (r' & Hr' & Hs'); [|by exists r, r'].
    assert (Hpos : 1 <= tally (of_region (mb_region b)) (delete p B)); [|lia].
    rewrite (tally_delete _ _ q d) by (by rewrite lookup_delete_ne). unfold of_region at 1. rewrite Hdq, Z.eqb_refl.
    pose proof (tally_covers (mb_region b) 0 (delete q (delete p B))). lia.
  - intros q Hq. by rewrite lookup_partial_alter_ne.
  - intros r2. rewrite lookup_partial_alter_eq. apply Hrc.
Qed.

Lemma space_decref_ok e B b p : space_ok e B -> B !! p = Some b -> branch_wf b ->
  exists r e', space_decref (mb_region b) (mb_start b) (size_of b) e = Ret (r, e') /\ space_ok e' (if E_ISERR r then B else delete p B).
Proof.
  intros Hok Hp Hw. unfold space_decref, with_region. destruct (so_fits _ _ Hok p b Hp) as (r & Hr & Hle). rewrite Hr.
  pose proof (so_regions _ _ Hok _ _ Hr) as Hc. pose proof Hc as [R1 R2 R3 (o & Ho & R4) R5]. pose proof (refs_bound e B _ r Hok Hr) as Hrb.
  pose proof (dropped_pages B (mb_region b) b r p Hc Hp eq_refl) as Hdrop. set (L := upd _ _ _ _) in Hdrop.
  rewrite (tally_delete _ _ _ _ Hp) in R4. unfold of_region at 1 in R4. rewrite Z.eqb_refl in R4.
  destruct (decref_sure parts_left locks_left r (mb_start b) (size_of b) (sp_parts e)) as (er & ro & w' & -> & Her & Hro); try done.
  { apply (counted_owns B (mb_region b)); [done|apply Hok]. }
  { by intros _. }
  { by apply branch_range. }
  { lia. }
  { intros i v Hv Hi. pose proof (R3 i v Hv) as HC. split; [|by eapply missing_state_ok]. destruct HC as (-> & _).
    rewrite (tally_delete _ _ _ _ Hp), covers_in by lia. pose proof (tally_covers (mb_region b) i (delete p B)). pose proof (tally_bound e B (mb_region b) Hok) as Htb.
    rewrite (tally_delete _ _ _ _ Hp) in Htb. unfold of_region at 1 in Htb. rewrite Z.eqb_refl in Htb. lia. }
  { intros H1'. apply Forall_lookup. intros i v Hv. destruct (Hdrop i v Hv) as (C1 & C2 & C3 & C4).
    pose proof (tally_covers (mb_region b) i (delete p B)). split; [lia|]. split; [done|]. rewrite C2. by split; [intros Ht|]. }
  cbn [obind]. eexists _, _. split; [done|]. rewrite Her. fold L in Hro.
  pose proof (space_dropped e B b p r o ro w' Hok Hp Hr R4 ltac:(lia)) as Hrest.
  destruct (Z.eqb_spec (mr_refcnt r) 1) as [H1'|H1'].
  - destruct Hro as [-> HO]. apply Hrest; [|done|done]. apply own_none with (length L).
    replace (replicate (length L) None) with (left_frames r <$> L); [done|]. apply list_eq. intros i. rewrite list_lookup_fmap.
    destruct (L !! i) as [v|] eqn:Hv; simpl; [|symmetry; apply lookup_ge_None; rewrite length_replicate; by apply lookup_ge_None].
    rewrite lookup_replicate_2 by (by eapply lookup_lt_Some). destruct (Hdrop i v Hv) as (_ & _ & _ & C4). unfold left_frames. rewrite C4. by destruct (_ =? _).
  - destruct Hro as (ps & -> & Hok' & HO' & Hpg). set (r' := set_parts ps _) in *.
    assert (Hc' : region_counted (delete p B) (mb_region b) r').
    { split; [done|done| |exists o; split; [done|simpl; lia]|simpl; lia]. intros i v Hv. apply Hdrop. by rewrite <- Hpg. }
    apply Hrest; [by apply (counted_owns _ _ _ _ Hc')|by exists r'|]. by intros r2 [= <-].
Qed.

(** ** The page directory *)

(** Parts whose pages are not in core, and in use where the branch maps them. *)
Lemma missing_fit b size parts : branch_wf b -> forall lo, 0 <= lo -> parts_ok lo parts size ->
  (forall i v, expand parts size !! i = Some v -> pi_state v = MPART_STATE_MISSING /\
     (mb_start b <= lo + 4096 * Z.of_nat i < mb_start b + size_of b -> pi_refcnt v <> 0)) -> parts_fit b parts size.
Proof.
  intros (_ & _ & B3 & _ & B5 & B6 & _). assert (0 < size_of b) by (unfold size_of; lia). induction parts as [|p next IH]; intros lo Hlo Hok Hall; [done|]. destruct Hok as (<- & Hp & Hok). cbn [parts_fit].
  pose proof (pages_length _ _ Hp) as Hl. pose proof (ok_order _ _ Hp). pose proof (ok_begin _ _ Hp). unfold zlen in Hl. split.
  - intros He Hb. set (k := Z.to_nat ((Z.max (mt_start p) (mb_start b) - mt_start p) / 4096)).
    assert (Hk : 4096 * Z.of_nat k = Z.max (mt_start p) (mb_start b) - mt_start p) by (unfold k; mlia).
    destruct (lookup_lt_is_Some_2 (part_pages p (end_of next size)) k) as [v Hv]; [lia|].
    destruct (Hall k v) as [Hst Hrc]; [cbn [expand]; by apply lookup_app_l_Some|].
    unfold part_pages in Hv. apply list_lookup_fmap_Some in Hv as (fr & -> & _). cbn [pi_state pi_refcnt] in *. split; [apply Hrc; lia|].
    rewrite Hst. done.
  - apply (IH (end_of next size)); [lia|done|]. intros i v Hv. destruct (Hall (length (part_pages p (end_of next size)) + i)%nat v) as [Hst Hrc].
    { cbn [expand]. rewrite lookup_app_r by lia. by replace (length (part_pages p (end_of next size)) + i - length (part_pages p (end_of next size)))%nat with i by lia. }
    split; [done|]. intros Hi. apply Hrc. lia.
Qed.

Lemma host_range b : branch_wf b -> host_branch b -> range_ok kdir kdir_v kdir (mb_vmin b) (size_of b).
Proof.
  intros (? & ? & ? & ? & _) (? & ? & _). unfold range_ok, size_of, PDIR_ISKERNEL. rewrite Z.eqb_refl. unfold VM_HOST_BASE in *. split_and!; try done; try lia; try mlia; by left.
Qed.

Lemma directory_change e B a : space_ok e B -> pdir_wf a kdir -> space_ok (put_mem a e) B.
Proof. intros [? ? ? ? ? ? ?] Ha. by split. Qed.

Lemma space_reprot e B b p pr : space_ok e B -> B !! p = Some b -> host_branch (set_prot pr b) -> space_ok e (<[p := set_prot pr b]> B).
Proof.
  intros Hok Hp Hh. assert (Ht : forall q i, tally (covers q i) (<[p := set_prot pr b]> B) = tally (covers q i) B /\
    tally (of_region q) (<[p := set_prot pr b]> B) = tally (of_region q) B).
  { intros q i. rewrite !(tally_change _ _ _ b) by done. split; [change (covers q i (set_prot pr b)) with (covers q i b)|change (of_region q (set_prot pr b)) with (of_region q b)]; lia. }
  pose proof Hok as [? ? ? Hheap Hbr Hfit Hreg]. split; try done.
  - intros q d [[<- <-]|[_ Hd]]%lookup_insert_Some; by eapply Hheap.
  - intros q d [[<- <-]|[_ Hd]]%lookup_insert_Some; [done|by eapply Hbr].
  - intros q d [[<- <-]|[_ Hd]]%lookup_insert_Some; [apply (Hfit p b Hp)|by eapply Hfit].
  - intros q r Hr. apply (counted_same B); [intros i; apply Ht|apply (Ht q 0%nat)|by apply Hreg].
Qed.

Lemma space_remap e B b p pr u : space_ok e B -> B !! p = Some b -> branch_wf b -> host_branch (set_prot pr b) ->
  exists r e', mbranch_remap (set_prot pr b) u e = Ret (r, e') /\ space_ok e' (<[p := set_prot pr b]> B).
Proof.
  intros Hok Hp Hw Hh. pose proof (space_reprot e B b p pr Hok Hp Hh) as Hok'. set (c := set_prot pr b) in *.
  assert (Hwc : branch_wf c) by exact Hw. assert (Hpc : <[p := c]> B !! p = Some c) by apply lookup_insert_eq.
  destruct (so_fits _ _ Hok' p c Hpc) as (r & Hr & Hle). cbn [mbranch_remap space_ops]. unfold with_region. rewrite Hr. unfold branch_remap.
  destruct (E_ISERR (lock_read (sp_parts e))); [cbn [obind]; eexists _, _; split; [done|]; apply directory_change; [done|apply Hok]|].
  pose proof (so_regions _ _ Hok' _ _ Hr) as [R1 R2 R3 _ _].
  assert (Hcase : (Region.mr_type r = MREGION_TYPE_RESERVED \/ has (mb_prot c) (Z.lor PROT_WRITE PROT_READ) = false) \/
    Region.mr_type r <> MREGION_TYPE_RESERVED /\ has (mb_prot c) (Z.lor PROT_WRITE PROT_READ) = true).
  { destruct (Z.eq_dec (Region.mr_type r) MREGION_TYPE_RESERVED); [by left; left|]. destruct (has _ _); [by right|by left; right]. }
  destruct Hcase as [Hskip|[Ht Hprot]].
  { rewrite remap_skips by done. cbn [obind]. eexists _, _. split; [done|]. apply directory_change; [done|apply Hok]. }
  destruct (remap_unlocked_ok kdir kdir_v kdir c r (sp_mem e)) as (er & a' & -> & HS & _); try done.
  - by apply host_range.
  - intros _. apply Hh.
  - apply (missing_fit c _ _ Hwc 0); [done|apply R1|]. intros i v Hv. destruct (R3 i v Hv) as (C1 & C2 & _). split; [done|]. intros Hi.
    rewrite C1, (tally_delete _ _ _ _ Hpc), covers_in by lia. pose proof (tally_covers (mb_region c) i (delete p (<[p := c]> B))). lia.
  - apply Hok.
  - cbn [obind]. eexists _, _. split; [done|]. apply directory_change; [done|apply HS].
Qed.

Lemma space_unmap e B b p : space_ok e B -> B !! p = Some b -> branch_wf b -> exists r e', mbranch_unmap b e = Ret (r, e') /\ space_ok e' B.
Proof.
  intros Hok Hp Hw. destruct (so_fits _ _ Hok p b Hp) as (r & Hr & Hle). simpl. unfold with_region. rewrite Hr. pose proof (so_branch _ _ Hok p b Hp) as Hh.
  destruct (Z.eq_dec (Region.mr_type r) MREGION_TYPE_RESERVED) as [Ht|Ht].
  { unfold branch_unmap. rewrite Ht. cbn [obind]. eexists _, _. split; [done|]. apply directory_change; [done|apply Hok]. }
  destruct (branch_unmap_ok kdir kdir_v kdir b r (sp_mem e)) as (er & a' & -> & HS & _); try done.
  - by apply host_range.
  - apply Hok.
  - intros i Hi Ho _. right. destruct (wf_host _ _ (so_pdir _ _ Hok) i) as [Hal _]; [|done]. unfold Paging32Map.overlaps in Ho. destruct Hh as (Hh & _). unfold VM_HOST_BASE in Hh. lia.
  - cbn [obind]. eexists _, _. split; [done|]. apply directory_change; [done|apply HS].
Qed.

#[local, refine] Instance space_laws : BranchLaws (space W A) := {
  env_ok := space_ok;
  allocated e p := p ∈ sp_heap e;
  takes := host_branch
}.
Proof.
  - intros e B p b Hok Hp. by eapply so_branch.
  - intros e B p b Hok Hp. destruct (so_fits _ _ Hok p b Hp) as (r & Hr & Hle). simpl. by rewrite Hr.
  - intros e B r e' Hok. simpl. destruct (fresh (sp_heap e)) as [p|] eqn:Hf; intros [= <- <-]; [|done].
    destruct (fresh_ok _ _ Hf) as [Hn Hr]. split; [|split; [done|]].
    + destruct Hok as [? ? Hhost Hheap ? ? ?]. split; try done; simpl.
      * intros q [->%elem_of_singleton|Hq]%elem_of_union; [done|by apply Hhost].
      * intros q b Hq. apply elem_of_union_r. by eapply Hheap.
    + intros q [= <-]. simpl. split; [|apply elem_of_union_l; by apply elem_of_singleton].
      destruct (B !! p) as [b|] eqn:Hb; [|done]. by destruct Hn; eapply so_heap.
  - intros e B p [? ? Hhost Hheap ? ? ?] Hp. split; try done; simpl.
    + intros q [Hq _]%elem_of_difference. by apply Hhost.
    + intros q b Hq. apply elem_of_difference. split; [by eapply Hheap|]. intros ->%elem_of_singleton. congruence.
  - done.
  - done.
  - intros e B lo hi b start Hok Hlo Hhi Hal Hw Hs. by apply space_split.
  - intros e B lo hi b h Hok Hlo Hhi Hne Hw Hw' Eh Hv. by eapply space_merge.
  - intros e B b p Hok Hp Hal Hw Ht Hle. by apply space_incref.
  - intros e B b p clr Hok Hp Hw. destruct clr; by apply space_decref_ok.
  - intros e B b p pr u Hok Hp Hw Ht. by apply space_remap.
  - intros e B b p Hok Hp Hw. by eapply space_unmap.
Defined.

End Space.
