(* ===== verification/SpaceTheorems.v ===== *)
(** * The address space of the kernel: results

    Sequences of calls on the address space of the kernel, with the regions and the page directory
    behind it, and what happens where the promises of regions and branches do not hold. *)
From stdpp Require Import base numbers list gmap.
From S2P Require Import Prelude Align PageAlloc PageScatter PhysMem Paging32 Paging32Spec PagingTheorems.
From S2P Require Import ATree Mman MmanSpec MmanFind MmanSpace MmanOps MmanUnmap MmanMap.
From S2P Require Import Region RegionSpec RegionOps RegionPages RegionTheorems Branch Space.

(** Calls on an address space. *)
Inductive space_call : Type :=
  | CallMmap (addr n start region prot ntf cl : Z)
  | CallMunmap (addr n mode tag : Z)
  | CallMprotect (addr n prot_amask prot_omask : Z).

Section Calls.

Context {E : Type} `{BranchOps E}.

Definition run_call (c : space_call) (self : mman) (e : E) : outcome (Z * mman * E) :=
  match c with
  | CallMmap addr n start region prot ntf cl => mman_mmap_unlocked self addr n start region prot ntf cl e
  | CallMunmap addr n mode tag => mman_munmap_unlocked self addr n mode tag e
  | CallMprotect addr n am om => mman_mprotect_unlocked self addr n am om e
  end.

Fixpoint run_calls (cs : list space_call) (self : mman) (e : E) : outcome (mman * E) :=
  match cs with
  | [] => Ret (self, e)
  | c :: cs => let! (_, self, e) := run_call c self e in run_calls cs self e
  end.

(** What callers see to: whole pages of the address space and of a region that is large enough,
    for the kernel only, and next to nothing that the mapping would be merged with. *)
Definition call_pre (c : space_call) (self : mman) (e : E) : Prop :=
  match c with
  | CallMmap addr n start region prot ntf cl =>
      let size := CEIL_ALIGN (2 ^ 32) n PAGESIZE in let b := MBranch addr (addr + size - 1) prot start region ntf cl in
      0 < n /\ page_range addr size /\ addr + size < 2 ^ 32 /\ 0 <= start /\ start mod 4096 = 0 /\ start + size < 2 ^ 32 /\
      start + size <= Mman.mr_size e region /\ host_branch b /\
      (forall m, mapped self (uintptr (addr - 1)) m -> ~ joinable m (maps_at b addr)) /\
      (forall m, mapped self (addr + size) m -> ~ joinable (maps_at b (addr + size - 1)) m)
  | CallMunmap addr n _ _ => 0 < n /\ addr + n < 2 ^ 32 /\ page_range addr (CEIL_ALIGN (2 ^ 32) n PAGESIZE)
  | CallMprotect addr n am om =>
      let size := CEIL_ALIGN (2 ^ 32) n PAGESIZE in
      0 < n /\ page_range addr size /\ (forall prot, has prot PROT_NOUSER = true -> has (Z.lor (Z.land prot am) om) PROT_NOUSER = true) /\
      stays_apart self (rights_at addr size am om) addr /\ stays_apart self (rights_at addr size am om) (uintptr (addr + size))
  end.

Fixpoint calls_pre (cs : list space_call) (self : mman) (e : E) : Prop :=
  match cs with
  | [] => True
  | c :: cs => call_pre c self e /\ forall r self' e', run_call c self e = Ret (r, self', e') -> calls_pre cs self' e'
  end.

End Calls.

Section Results.

Context {W : Type} `{PartLaws W Own} {FL : FreeLaws W Own} {A : Type} `{PL : PhysLaws A}.
Context (kdir kdir_v : Z) (fresh : gset Z -> option Z) (lock_read : W -> Z) (notify_fun : Z -> Z -> Z -> Z -> Z -> Z).
Hypothesis parts_left : ~ no_part (Own := Own).
Hypothesis locks_left : forall (w : W) F, Own w F -> E_ISERR (rwlock_write w).1 = false.
Hypothesis fresh_ok : forall h p, fresh h = Some p -> ~ (p ∈ h) /\ VM_HOST_BASE <= p < 2 ^ 32.

#[local] Instance ops : BranchOps (space W A) := space_ops kdir kdir_v fresh lock_read notify_fun.
#[local] Instance laws : BranchLaws (space W A) :=
  space_laws (FL := FL) kdir kdir_v fresh lock_read notify_fun parts_left locks_left fresh_ok.

Lemma decref_waits rg st n (e1 : space W A) B r e2 : env_ok e1 B -> mregion_decref rg st n e1 = Ret (r, e2) -> E_ISERR r = false.
Proof.
  intros Hok. simpl. unfold space_decref, with_region. destruct (sp_regions e1 !! rg) as [g|]; [|done]. unfold region_decref.
  pose proof (locks_left (sp_parts e1) [] (so_own _ _ _ Hok)) as Hlk. destruct (rwlock_write (sp_parts e1)) as [er w1]. simpl in Hlk. rewrite Hlk.
  destruct (mregion_part_decref g st n w1) as [[g2 w2]|]; [|done]. cbn [obind]. destruct (MREGION_DECREF g2 w2) as [[ro w3]|]; [|done].
  cbn [obind]. by intros [= <- <-].
Qed.

Lemma call_ok c self (e : space W A) : mm_ok ∅ self e -> call_pre c self e ->
  exists r self' e', run_call c self e = Ret (r, self', e') /\ mm_ok ∅ self' e'.
Proof.
  intros Hok Hpre. destruct c as [addr n start region prot ntf cl|addr n mode tag|addr n am om]; cbn [run_call call_pre] in *.
  - destruct Hpre as (P1 & P2 & P3 & P4 & P5 & P6 & P7 & P8 & P9 & P10).
    destruct (space_mmap_ok ∅ self e addr n start region prot ntf cl Hok) as (r & self' & e' & Hr & Hres); try done.
    exists r, self', e'. split; [done|]. destruct Hres as [(_ & (Hi & Hu) & _)|(_ & ? & _)]; [|done].
    destruct Hu as [?|(rg & st & m & e1 & B & r1 & e2 & He1 & Hd & Herr)]; [done|]. rewrite (decref_waits _ _ _ _ _ _ _ He1 Hd) in Herr. done.
  - destruct Hpre as (P1 & P2 & P3). destruct (space_munmap_ok ∅ self e addr n mode tag Hok) as (r & self' & e' & Hr & Hok' & _); try done.
    by exists r, self', e'.
  - destruct Hpre as (P1 & P2 & P3 & P4 & P5).
    destruct (space_mprotect_ok ∅ self e addr n am om Hok) as (r & self' & e' & Hr & Hok' & _); try done; [|by exists r, self', e'].
    intros b (Q1 & Q2 & Q3). split_and!; [done|done|]. by apply P3.
Qed.

Lemma calls_ok cs : forall self (e : space W A), mm_ok ∅ self e -> calls_pre cs self e ->
  exists self' e', run_calls cs self e = Ret (self', e') /\ mm_ok ∅ self' e'.
Proof.
  induction cs as [|c cs IH]; intros self e Hok Hpre; [by exists self, e|]. destruct Hpre as [Hc Hcs]. cbn [run_calls].
  destruct (call_ok c self e Hok Hc) as (r & self1 & e1 & Hr & Hok1). rewrite Hr. cbn [obind]. apply IH; [done|]. by eapply Hcs.
Qed.

(** C7: Any sequence of calls that map, unmap and protect ranges of the kernel returns, through the
    regions and the page directory, provided that no page is loaded, there is memory for parts,
    locks can be had, and every call has its conditions ([call_pre]): whole pages of the kernel's
    part of the address space and of a region that is large enough, rights without access for users,
    and, for mapping and protecting, nothing at the ends of the range that the mapping would be
    merged with ([merge_below_fails] shows what a merge can do).  No assertion fails in any of them,
    also when the directory is out of memory.  The address space is well formed, the directory keeps
    its invariant, every page of a region has exactly one reference for each branch that maps it,
    and every region that is mapped exists and is large enough. *)
Theorem kernel_space_invariant cs self (e : space W A) : mm_ok ∅ self e -> calls_pre cs self e ->
  exists self' e', run_calls cs self e = Ret (self', e') /\ mman_inv self' /\ pdir_wf (sp_mem e') kdir /\
    (forall q r i v, sp_regions e' !! q = Some r -> pages_of r !! i = Some v -> pi_refcnt v = tally (covers q i) (branches self')) /\
    (forall p b, branches self' !! p = Some b -> fits_region (sp_regions e') b).
Proof.
  intros Hok Hpre. destruct (calls_ok cs self e Hok Hpre) as (self' & e' & Hr & [Hi He _]). rewrite (right_id_L ∅ (∪)) in He.
  exists self', e'. split; [done|]. split; [done|]. split; [apply He|]. split.
  - intros q r i v Hq Hv. by destruct (rc_pages _ _ _ (so_regions _ _ _ He q r Hq) i v Hv) as [? _].
  - intros p b Hp. by apply (so_fits _ _ _ He p).
Qed.

End Results.

(** ** An environment *)

(** The page allocator, with memory for parts and without interruptions. *)
Definition calm_own (w : core) (F : list (option Z)) : Prop :=
  core_own (is_free sample_pages) w F /\ core_answers w = [] /\ core_locks w = [].

Lemma calm_part : ~ no_part (Own := calm_own).
Proof. intros (w & F & (_ & Ha & _) & Hk). simpl in Hk. unfold answer in Hk. by rewrite Ha in Hk. Qed.

Lemma calm_lock w F : calm_own w F -> E_ISERR (rwlock_write w).1 = false.
Proof. intros (_ & _ & Hl). simpl. by rewrite Hl. Qed.

#[local] Instance calm_laws : PartLaws core calm_own.
Proof.
  split; intros w F; intros; match goal with HO : calm_own _ _ |- _ => destruct HO as (HO & Ha & Hl) end;
    (split; [|split]); simpl; unfold answer; rewrite ?Ha, ?Hl; try done.
  by apply (core_own_pages _ w).
Qed.

#[local] Instance calm_frees : FreeLaws core calm_own.
Proof.
  split.
  - intros w L c R Hc (HO & Ha & Hl). destruct (free_frames_ok w L c R Hc HO) as (w' & Hf & HO'). exists w'. split; [done|]. split; [done|].
    simpl in Hf. destruct (page_free_scatter _ _ _ _ _ _) as [st|]; [|done]. simpl in Hf. injection Hf as <-. done.
  - intros w L k R attr (HO & Ha & Hl) Hn. destruct (malloc_frames_ok w L k R attr HO Hn) as (r & w' & Hf & Hr). exists r, w'. split; [done|].
    simpl in Hf. destruct (page_malloc_scatter _ _ _ _ _ _ _ _ _ _) as [[r' st]|]; [|done]. simpl in Hf. injection Hf as -> <-.
    destruct r as [c|]; [destruct Hr as (? & ? & ?); split_and!; done|by split].
  - intros w k (HO & Ha & Hl). split; [by apply own_nothing|done].
  - intros w k (HO & Ha & Hl). split; [by apply own_none with k|done].
Qed.

#[local] Instance space_memory : PhysMem machine := machine_mem (2 ^ 32) [] 1.
#[local] Instance space_memory_laws : PhysLaws machine := machine_laws (2 ^ 32) [] 1 (le_n 2).

(** Addresses for 64 branches. *)
Definition some_fresh (h : gset Z) : option Z := head (filter (fun p => ~ (p ∈ h)) ((fun i => 0xc1000000 + 64 * i) <$> seqZ 0 64)).

Lemma some_fresh_ok h p : some_fresh h = Some p -> ~ (p ∈ h) /\ VM_HOST_BASE <= p < 2 ^ 32.
Proof.
  intros Hp. apply head_Some_elem_of, list_elem_of_filter in Hp as [Hn Hp]. split; [done|].
  apply list_elem_of_fmap in Hp as (i & -> & Hi%elem_of_seqZ). unfold VM_HOST_BASE. lia.
Qed.

#[local] Instance some_ops : BranchOps (space core machine) := space_ops sample_dir sample_dir some_fresh (fun _ => 0) (fun _ _ _ _ _ => 0).

Definition with_one (r : mregion) : space core machine := Space {[1 := r]} ∅ plenty sample_machine.
Definition nothing_mapped : mman := MMan ATREE_NULL [] ∅.

(** Three pages of memory that are not loaded, and two of physical memory. *)
Definition missing_region : mregion := MRegion 1 MREGION_TYPE_MEM 0 (MSetup 0 0 0 0 0) 0x3000 [MPart 0 0 MPART_STATE_MISSING 0 0 []].
Definition video_region : mregion := MRegion 1 MREGION_TYPE_PHYSICAL 0 (MSetup 0 0 0 0 0) 0x2000 [MPart 0 0 MPART_STATE_INCORE 0 1 [(0xb8000, 0x2000)]].

(** ** Where the promises do not hold *)

Definition KERNEL_RW : Z := 0x46.
Definition KERNEL_RO : Z := 0x44.
Definition KERNEL_NONE : Z := 0x40.

(** The translation of a page after some calls. *)
Definition walk_after (v : Z) (cs : list space_call) (e : space core machine) : outcome (option (Z * Z)) :=
  let! (_, e) := run_calls cs nothing_mapped e in Ret (walk (sp_mem e) sample_dir v).

(** Two pages of physical memory are mapped; protecting the first of them fails an assertion.  The
    branch is split, the part is not, and remapping the branch wants to map the whole part. *)
Theorem protect_half_aborts :
  walk_after 0xd1000 [CallMmap 0xd1000000 0x2000 0 1 KERNEL_RW 0 0] (with_one video_region) = Ret (Some (0xb8000, 3)) /\
  run_calls [CallMmap 0xd1000000 0x2000 0 1 KERNEL_RW 0 0; CallMprotect 0xd1000000 0x1000 KERNEL_RO 0] nothing_mapped (with_one video_region) = Abort.
Proof. split; vm_compute; reflexivity. Qed.

(** Taking all rights away from mapped memory leaves it accessible. *)
Theorem protect_none_keeps :
  walk_after 0xd1000 [CallMmap 0xd1000000 0x2000 0 1 KERNEL_RW 0 0; CallMprotect 0xd1000000 0x2000 KERNEL_NONE 0] (with_one video_region) =
  Ret (Some (0xb8000, 3)).
Proof. vm_compute. reflexivity. Qed.

(** Memory without any rights has no table; unmapping it fails an assertion in the directory. *)
Theorem unmap_inaccessible_aborts :
  walk_after 0x10 [CallMmap 0x10000 0x1000 0 1 0 0 0] (with_one missing_region) = Ret None /\
  run_calls [CallMmap 0x10000 0x1000 0 1 0 0 0; CallMunmap 0x10000 0x1000 0 0] nothing_mapped (with_one missing_region) = Abort.
Proof. split; vm_compute; reflexivity. Qed.

(** ** The hypotheses can hold *)

Lemma missing_ok : mm_ok (H0 := space_laws (FL := calm_frees) sample_dir sample_dir some_fresh (fun _ => 0) (fun _ _ _ _ _ => 0) calm_part calm_lock some_fresh_ok)
  ∅ nothing_mapped (with_one missing_region).
Proof.
  split; [split|..]; cbn [m_map m_order branches nothing_mapped]; try done; [by intros p [b ?]|]. rewrite (left_id_L ∅ (∪)).
  split; cbn [sp_mem sp_parts sp_heap sp_regions with_one]; try done; [apply sample_wf|split; [apply plenty_own|done]|].
  intros q r Hr. apply lookup_singleton_Some in Hr as [<- <-]. split; [|done| |by exists 1|done].
  - eapply single_ok; [by cbn|done| |done]. split; cbn; try done; intros Hx; discriminate Hx.
  - intros i v Hv. change (pages_of missing_region) with (replicate 3 (PInfo 0 MPART_STATE_MISSING 0 None)) in Hv.
    by apply lookup_replicate_1 in Hv as [-> _].
Qed.

Definition some_calls : list space_call :=
  [CallMmap 0xd1000000 0x2000 0x1000 1 KERNEL_RW 0 0; CallMunmap 0xd1001000 0x1000 0 0; CallMunmap 0xd1000000 0x2000 0 0].

Lemma kernel_space_invariant_witness : exists self' e',
  run_calls some_calls nothing_mapped (with_one missing_region) = Ret (self', e') /\ mman_inv self'.
Proof.
  destruct (kernel_space_invariant sample_dir sample_dir some_fresh (fun _ => 0) (fun _ _ _ _ _ => 0) calm_part calm_lock some_fresh_ok
    some_calls nothing_mapped (with_one missing_region) missing_ok) as (self' & e' & Hr & Hi & _).
  - split; [|by repeat split]. cbn [call_pre]. change (CEIL_ALIGN (2 ^ 32) 0x2000 PAGESIZE) with 0x2000. unfold page_range, host_branch.
    split_and!; try done; by intros m (p & b & Hb & _).
  - exact (ex_intro _ self' (ex_intro _ e' (conj Hr Hi))).
Defined.
