(* ===== verification/Load.v ===== *)
(** * Loading regions (src/kernel/mman/mcore.c.inl)

    Parts of a region get memory when they are first used: frames, near those of the parts around
    them if possible, filled with what the region is initialised with.  While a file is read or a
    function of the user runs the region is not locked, and others may change it ([meanwhile]). *)
From stdpp Require Import base numbers list.
From S2P Require Import Prelude Align PageAlloc PageScatter Mman Region.

Definition ENOSYS : Z := 38.
Definition ERELOAD : Z := 500.
Definition MPART_STATE_UNKNOWN : Z := 3.
Definition MREGION_INIT_ZERO : Z := 1.
Definition MREGION_INIT_BYTE : Z := 2.
Definition MREGION_INIT_USER : Z := 0x44.
Definition MREGION_INIT_REREAND : Z := 5.
Definition MMAN_MCORE_LOCKED : Z := 0x80.

Definition MREGION_PART_ISLOCKED (self : mregion_part) : bool := 0 <? mt_locked self.

(** Writing to memory: [memsetl], [file_kpread], which returns the number of bytes read, and
    [rand]. *)
Class FillOps (W : Type) : Type := {
  memsetl : Z -> Z -> Z -> W -> W;
  file_kpread : Z -> Z -> Z -> Z -> W -> Z * W;
  rand : W -> Z * W
}.

(** The region when it is locked again: the part is still the one that its link, with the number it
    had, points to, between the parts [pre] (backwards) and [next]; or another part or none is. *)
Inductive found : Type :=
  | FoundSame (self : mregion) (pre : list mregion_part) (iter : mregion_part) (next : list mregion_part)
  | FoundOther (self : mregion).

(** [page_malloc_at], the list that a failed [page_malloc_scatter] leaves, the function of the
    user that loads memory, and what others do to a region that is not locked. *)
Class LoadOps (W : Type) : Type := {
  malloc_at : Z -> Z -> Z -> W -> outcome (option Z * W);
  scatter_left : W -> mscatter;
  ufunc_load : mregion -> mscatter -> Z -> Z -> W -> Z * W;
  meanwhile : mregion -> list mregion_part -> mregion_part -> list mregion_part -> W -> found * W
}.

Section Fill.

Context {W : Type} `{FillOps W}.

Fixpoint mscatter_memset (scatter : mscatter) (filler_xword : Z) (w : W) : W :=
  match scatter with
  | [] => w
  | (m_start, m_size) :: m_next => mscatter_memset m_next filler_xword (memsetl m_start filler_xword (m_size / 4) w)
  end.

(** The loop body of [mscatter_kpread] behind what is filled first: reading, and filling the
    rest.  The result is an error or what is left to read and where. *)
Definition kpread_link (fp pos max_read filler_xword start size : Z) (w : W) : Z * Z * Z * W :=
  if max_read =? 0 then (- EOK, pos, max_read, memsetl start filler_xword (size / 4) w) else
  let (temp, w) := file_kpread fp start (Z.min size max_read) pos w in
  if E_ISERR temp then (temp, pos, max_read, w) else
  let max_read := if temp =? 0 then 0 else max_read in
  (- EOK, pos + temp, max_read - temp, if size - temp =? 0 then w else memsetl (start + temp) filler_xword ((size - temp) / 4) w).

Fixpoint mscatter_kpread (scatter : mscatter) (fp pos fill_before max_read filler_xword : Z) (w : W) : outcome (Z * W) :=
  match scatter with
  | [] => Ret (- EOK, w)
  | (start, size) :: m_next =>
      assert! negb (size =? 0);;
      let part := Z.min size fill_before in
      let w := if fill_before =? 0 then w else memsetl start filler_xword (part / 4) w in
      if negb (fill_before =? 0) && (size - part =? 0) then mscatter_kpread m_next fp pos fill_before max_read filler_xword w else
      let '(error, pos, max_read, w) := kpread_link fp pos max_read filler_xword (start + part) (size - part) w in
      if E_ISERR error then Ret (error, w) else mscatter_kpread m_next fp pos fill_before max_read filler_xword w
  end.

(** Random words. *)
Fixpoint rand_words (n : nat) (addr : Z) (w : W) : W :=
  match n with
  | O => w
  | S n => let (x, w) := rand w in rand_words n (addr + 4) (memsetl addr x 1 w)
  end.

Fixpoint mscatter_rand (scatter : mscatter) (w : W) : outcome W :=
  match scatter with
  | [] => Ret w
  | (m_start, m_size) :: m_next =>
      assert! IS_ALIGNED m_start PAGESIZE;;
      assert! IS_ALIGNED m_size PAGESIZE;;
      mscatter_rand m_next (rand_words (Z.to_nat (m_size / 4)) m_start w)
  end.

End Fill.

(** ** Where to look for frames *)

(** Parts whose frames others should be near. *)
Definition near_ok (hint_unique_parts : bool) (p : mregion_part) : bool :=
  (mt_state p =? MPART_STATE_INCORE) && (negb hint_unique_parts || (mt_refcnt p =? 1)).

(** The parts below, the nearest first; [next] is where the part above it begins.  The distance and
    the address behind the frames. *)
Fixpoint hint_below (unique : bool) (part : mregion_part) (pre : list mregion_part) (next : Z) : outcome (option (Z * Z)) :=
  match pre with
  | [] => Ret None
  | p :: pre =>
      if near_ok unique p then
        assert! mt_start p <? mt_start part;;
        match last (mt_memory p) with
        | None => Abort
        | Some (m_start, m_size) =>
            assert! forallb (fun l => negb (l.2 =? 0)) (mt_memory p);;
            let distance := mt_start part - next in
            Ret (Some (distance, uintptr (m_start + m_size + distance)))
        end
      else hint_below unique part pre (mt_start p)
  end.

(** The parts above, as long as the one before is nearer than [distance]. *)
Fixpoint hint_above (unique : bool) (part : mregion_part) (distance : Z) (cur : mregion_part) (next : list mregion_part) (hint : option Z)
    : outcome (option Z) :=
  if mt_start cur - mt_start part <? distance then
    match next with
    | [] => Ret hint
    | p :: next =>
        if near_ok unique p then
          match mt_memory p with
          | [] => Abort
          | (m_start, m_size) :: _ =>
              assert! negb (m_size =? 0);;
              Ret (Some (uintptr (m_start - (mt_start p - mt_start part))))
          end
        else hint_above unique part distance p next hint
    end
  else Ret hint.

Definition malloc_hint (unique : bool) (pre : list mregion_part) (part : mregion_part) (next : list mregion_part) : outcome (option Z) :=
  let! below := hint_below unique part pre (mt_start part) in
  match below with
  | Some (0, hint) => Ret (Some hint)
  | Some (distance, hint) => hint_above unique part distance part next (Some hint)
  | None => hint_above unique part (2 ^ 32 - 1) part next None
  end.

Section Load.

Context {W : Type} `{PartOps W} `{FillOps W} `{LoadOps W}.

Definition page_malloc_scatter_with_hint (n_bytes min_scatter attr hint : Z) (w : W) : outcome (option mscatter * W) :=
  let! (start, w) := malloc_at hint n_bytes attr w in
  match start with
  | Some start => Ret (Some [(start, n_bytes)], w)
  | None => malloc_scatter n_bytes min_scatter attr w
  end.

Definition page_malloc_scatter_in_region_part (n_bytes min_scatter attr : Z) (pre : list mregion_part) (part : mregion_part)
    (next : list mregion_part) (hint_unique_parts : bool) (w : W) : outcome (option mscatter * W) :=
  let! hint := malloc_hint hint_unique_parts pre part next in
  let! hint := match hint with
               | None => if hint_unique_parts then malloc_hint false pre part next else Ret None
               | Some _ => Ret hint
               end in
  match hint with
  | Some hint =>
      assert! IS_ALIGNED hint PAGESIZE;;
      page_malloc_scatter_with_hint n_bytes min_scatter attr hint w
  | None => malloc_scatter n_bytes min_scatter attr w
  end.

(** ** Filling frames *)

(** Reading a part from the file of its region. *)
Definition load_file (setup : mregion_cinit) (iter_begin iter_end : Z) (scatter : mscatter) (w : W) : outcome (Z * W) :=
  let read_begin := Z.max iter_begin (mri_begin setup) in
  let read_end := Z.min iter_end (uintptr (mri_begin setup + mri_size setup)) in
  let read_size := if read_begin <? read_end then read_end - read_begin else 0 in
  mscatter_kpread scatter (mri_file setup) (read_begin - mri_begin setup + mri_start setup) (read_begin - iter_begin) read_size (mri_byte setup) w.

(** The end of the initialisation: with an error code; the part has got memory from others; or others
    have changed the parts so that everything begins anew. *)
Inductive fill_end : Type :=
  | FillDone (error : Z) (self : mregion) (pre : list mregion_part) (iter : mregion_part) (next : list mregion_part)
  | FillInCore (self : mregion) (pre : list mregion_part) (iter : mregion_part) (next : list mregion_part)
  | FillRestart (self : mregion).

(** The checks after the region has been locked again; swap is not implemented. *)
Definition load_check (f : found) (iter_begin iter_end error : Z) : outcome fill_end :=
  match f with
  | FoundOther self => Ret (FillRestart self)
  | FoundSame self pre iter next =>
      if negb (mt_start iter =? iter_begin) then Ret (FillRestart (set_parts (reverse pre ++ iter :: next) self)) else
      if negb (iter_end =? end_of next (mr_size self)) then Ret (FillRestart (set_parts (reverse pre ++ iter :: next) self)) else
      if negb (mt_state iter =? MPART_STATE_MISSING) then
        if mt_state iter =? MPART_STATE_INCORE then Ret (FillInCore self pre iter next) else
        assert! mt_state iter =? MPART_STATE_INSWAP;;
        Ret (FillDone (- ENOSYS) self pre iter next)
      else Ret (FillDone error self pre iter next)
  end.

(** The initialisation of new frames; a reference to the region is held while it is not locked.  The
    result has whether it is. *)
Definition load_fill (self : mregion) (pre : list mregion_part) (iter : mregion_part) (next : list mregion_part) (iter_end : Z)
    (scatter : mscatter) (holds : bool) (w : W) : outcome (fill_end * bool * W) :=
  let type := MREGION_INIT_TYPE (mr_init self) in
  if mt_state iter =? MPART_STATE_INSWAP then Ret (FillDone (- ENOSYS) self pre iter next, holds, w) else
  if type =? MREGION_INIT_TYPE MREGION_INIT_BYTE then
    Ret (FillDone (- EOK) self pre iter next, holds, mscatter_memset scatter (mri_byte (mr_setup self)) w) else
  if type =? MREGION_INIT_TYPE MREGION_INIT_REREAND then
    let! w := mscatter_rand scatter w in Ret (FillDone (- EOK) self pre iter next, holds, w) else
  if (type =? MREGION_INIT_TYPE MREGION_INIT_FILE) || (type =? MREGION_INIT_TYPE MREGION_INIT_USER) then
    let iter_begin := mt_start iter in
    let self := if holds then self else set_refcnt (uintptr (mr_refcnt self + 1)) self in
    let! (error, w) := if MREGION_INIT_ISFILE (mr_init self) then load_file (mr_setup self) iter_begin iter_end scatter w
                       else Ret (ufunc_load self scatter iter_begin (iter_end - iter_begin) w) in
    if E_ISERR error then Ret (FillDone error self pre iter next, true, w) else
    let (error, w) := rwlock_write w in
    if E_ISERR error then Ret (FillDone error self pre iter next, true, w) else
    let (f, w) := meanwhile self pre iter next w in
    let! e := load_check f iter_begin iter_end error in Ret (e, true, w)
  else Ret (FillDone (- EOK) self pre iter next, holds, w).

(** Frames for a part, with its contents.  The list is freed unless it is installed, also after an
    error when it could not be allocated. *)
Definition load_part (self : mregion) (pre : list mregion_part) (iter : mregion_part) (next : list mregion_part) (iter_end : Z) (holds : bool) (w : W)
    : outcome (fill_end * mscatter * bool * W) :=
  let attr := if mr_init self =? MREGION_INIT_ZERO then PAGEATTR_ZERO else PAGEATTR_NONE in
  let! (scatter, w) := page_malloc_scatter_in_region_part (iter_end - mt_start iter) PAGESIZE attr pre iter next false w in
  let! (e, scatter, holds, w) :=
    match scatter with
    | None => Ret (FillDone (- ENOMEM) self pre iter next, scatter_left w, holds, w)
    | Some scatter => let! (e, holds, w) := load_fill self pre iter next iter_end scatter holds w in Ret (e, scatter, holds, w)
    end in
  if match e with FillDone error _ _ _ _ => E_ISERR error | _ => true end
  then let! w := free_scatter scatter PAGEATTR_NONE w in Ret (e, scatter, holds, w)
  else Ret (e, scatter, holds, w).

(** ** The parts of a range *)

Definition with_memory (m : mscatter) (p : mregion_part) : mregion_part :=
  MPart (mt_start p) (mt_refcnt p) MPART_STATE_INCORE (mt_flags p) (mt_locked p) m.

Fixpoint load_loop (fuel : nat) (self : mregion) (pre rest : list mregion_part) (start size mode : Z) (holds : bool) (result : Z) (w : W)
    : outcome (Z * mregion * bool * W) :=
  match fuel with
  | O => Abort
  | S fuel =>
    match rest with
    | [] => Ret (result, set_parts (reverse pre) self, holds, w)
    | iter :: next =>
      if (mt_state iter =? MPART_STATE_INCORE) || (mt_state iter =? MPART_STATE_UNKNOWN) || (has mode MMAN_MCORE_LOCKED && negb (MREGION_PART_ISLOCKED iter))
      then load_loop fuel self (iter :: pre) next start size mode holds result w else
      assert! negb (mr_type self =? MREGION_TYPE_PHYSICAL);;
      if start + size <=? mt_start iter then Ret (result, set_parts (reverse pre ++ rest) self, holds, w) else
      let iter_end := end_of next (mr_size self) in
      assert! mt_start iter <? iter_end;;
      if iter_end <=? start then load_loop fuel self (iter :: pre) next start size mode holds result w else
      assert! mt_start iter <=? start;;
      let! (low, w) :=
        if start =? mt_start iter then Ret (Some (pre, iter), w) else
        let! (split, w) := mregion_part_split_lo iter next start w in
        Ret (match split with Some (lo, hi) => Some (lo :: pre, hi) | None => None end, w) in
      match low with
      | None => Ret (- ENOMEM, set_parts (reverse pre ++ rest) self, holds, w)
      | Some (pre, iter) =>
          let! (high, w) :=
            if start + size <? iter_end then
              let! (split, w) := mregion_part_split_lo iter next (start + size) w in
              Ret (match split with Some (lo, hi) => Some (lo, hi :: next) | None => None end, w)
            else Ret (Some (iter, next), w) in
          match high with
          | None => Ret (- ENOMEM, set_parts (reverse pre ++ iter :: next) self, holds, w)
          | Some (iter, next) =>
              let iter_end := Z.min iter_end (start + size) in
              assert! mt_start iter <? iter_end;;
              let load_size := iter_end - mt_start iter in
              assert! load_size <=? size;;
              assert! mt_start iter =? start;;
              let! (e, scatter, holds, w) := load_part self pre iter next iter_end holds w in
              match e with
              | FillRestart self => load_loop fuel self [] (mr_parts self) start size mode holds result w
              | FillInCore self pre iter next => load_loop fuel self (iter :: pre) next start size mode holds result w
              | FillDone error self pre iter next =>
                  if E_ISERR error then Ret (error, set_parts (reverse pre ++ iter :: next) self, holds, w) else
                  assert! mr_type self =? MREGION_TYPE_MEM;;
                  load_loop fuel self (with_memory scatter iter :: pre) next start size mode holds (result + load_size) w
              end
          end
      end
    end
  end.

(** [fuel] bounds the rounds: each one leaves a part behind, and there are at most two more parts
    than before, as long as others do not make the loop begin anew. *)
Definition mregion_load_core (fuel : nat) (self : mregion) (start size mode : Z) (holds : bool) (w : W) : outcome (Z * mregion * bool * W) :=
  assert! IS_ALIGNED start PAGESIZE;;
  assert! IS_ALIGNED size PAGESIZE;;
  assert! start <? uintptr (start + size);;
  assert! uintptr (start + size) <=? mr_size self;;
  load_loop fuel self [] (mr_parts self) start size mode holds 0 w.

End Load.
