(* ===== verification/LoadSpec.v ===== *)
(** * Loading regions: frames and what is written to them

    What the loader needs of the page allocator and of the functions that write to memory, as the
    classes [FillLaws] and [LoadLaws]; that the addresses near which it looks for frames are
    aligned and do not wrap around; and that it only writes to frames of its own. *)
From stdpp Require Import base numbers list.
From S2P Require Import Prelude Align PageAlloc PageScatter Mman MmanSpec MmanOps Region RegionSpec RegionOps RegionPages Load.

(** The end of the memory that frames are taken from. *)
Definition FRAMES_END : Z := 3 * 2 ^ 30.

Definition frame_in (q : Z) : Prop := 0 <= q /\ q mod 4096 = 0 /\ q + 4096 <= FRAMES_END.

(** [n] bytes at [a] belong to the frames [F]. *)
Definition owned (F : list (option Z)) (a n : Z) : Prop := forall x, a <= x < a + n -> in_frames F x.

(** Writing to frames in use keeps them in use; reading from a file returns an error or how much
    was read. *)
Class FillLaws (W : Type) `{FillOps W} (Own : W -> list (option Z) -> Prop) : Prop := {
  memsetl_ok w F a x n : Own w F -> owned F a (4 * n) -> Own (memsetl a x n w) F;
  kpread_ok w F fp a n pos : Own w F -> owned F a n -> 0 < n ->
    let (r, w') := file_kpread fp a n pos w in Own w' F /\ (E_ISERR r = false -> 0 <= r <= n);
  rand_ok w F : Own w F -> Own (rand w).2 F
}.

(** Frames lie below the end; [page_malloc_at] fails or returns the frames at the address, and freeing a
    list with no pages in it does nothing. *)
Class LoadLaws (W : Type) `{PartOps W} `{FillOps W} `{LoadOps W} (Own : W -> list (option Z) -> Prop) : Prop := {
  frame_bound w F q : Own w F -> Some q ∈ F -> frame_in q;
  malloc_at_ok w A k C hint attr : Own w (A ++ replicate k None ++ C) -> 0 < 4096 * Z.of_nat k < 2 ^ 30 ->
    0 <= hint < 2 ^ 32 -> hint mod 4096 = 0 -> hint + 4096 * Z.of_nat k < 2 ^ 32 \/ FRAMES_END <= hint ->
    exists r w', malloc_at hint (4096 * Z.of_nat k) attr w = Ret (r, w') /\
      match r with
      | Some s => s = hint /\ Own w' (A ++ (Some <$> chain_pages [(s, 4096 * Z.of_nat k)]) ++ C)
      | None => Own w' (A ++ replicate k None ++ C)
      end;
  ufunc_load_ok w A c C self start n : Own w (A ++ (Some <$> chain_pages c) ++ C) ->
    Own (ufunc_load self c start n w).2 (A ++ (Some <$> chain_pages c) ++ C);
  free_empty_ok w F : Own w F -> exists w', free_scatter [(2 ^ 32 - 1, 0)] PAGEATTR_NONE w = Ret w' /\ Own w' F
}.

(** ** Links in frames *)

Lemma link_in s n : link_ok (s, n) -> Forall frame_in (link_pages (s, n)) -> 0 <= s /\ s mod 4096 = 0 /\ s + n <= FRAMES_END.
Proof.
  intros [Hn Ha] Hf. cbn [fst snd] in *. rewrite Forall_forall in Hf.
  destruct (Hf s) as (H1 & H2 & _); [apply link_page_elem; [lia|done|]; exists 0; mlia|].
  destruct (Hf (s + (n / 4096 - 1) * 4096)) as (_ & _ & H3); [apply link_page_elem; [lia|done|]; exists (n / 4096 - 1); mlia|].
  split_and!; try done. mlia.
Qed.

Lemma chain_in c l : Forall link_ok c -> Forall frame_in (chain_pages c) -> l ∈ c -> 0 < l.2 /\ 0 <= l.1 /\ l.1 mod 4096 = 0 /\ l.1 + l.2 <= FRAMES_END.
Proof.
  induction 1 as [|[s n] c Hl Hc IH]; intros Hf; [by intros ?%not_elem_of_nil|]. rewrite chain_pages_cons in Hf.
  apply Forall_app in Hf as [Hf1 Hf2]. intros [->|Hin]%elem_of_cons; [|by apply IH]. split; [apply Hl|by apply link_in].
Qed.

(** ** Where to look for frames *)

Section Hints.

Context (size : Z) (Hsize : size < 2 ^ 30).

Definition parts_in (ps : list mregion_part) : Prop :=
  Forall (fun p => mt_state p = MPART_STATE_INCORE -> Forall frame_in (chain_pages (mt_memory p))) ps.

(** An address that can be given to [page_malloc_at] for [n] bytes. *)
Definition hint_ok (n : Z) (hint : option Z) : Prop :=
  match hint with
  | None => True
  | Some h => 0 <= h < 2 ^ 32 /\ h mod 4096 = 0 /\ (h + n < 2 ^ 32 \/ FRAMES_END <= h)
  end.

Lemma near_incore u p : near_ok u p = true -> mt_state p = MPART_STATE_INCORE.
Proof. unfold near_ok. rewrite andb_true_iff, Z.eqb_eq. tauto. Qed.

Lemma parts_start lo ps sz : parts_ok lo ps sz -> end_of ps sz = lo.
Proof. destruct ps; simpl; [by intros ->|by intros [-> _]]. Qed.

Lemma memory_nonempty p e : part_ok p e -> mt_state p = MPART_STATE_INCORE -> mt_memory p <> [].
Proof. intros [Ho _ _ _ _ Hs] Hst He. specialize (Hs Hst). rewrite He in Hs. unfold zlen in Hs. simpl in Hs. lia. Qed.

Lemma hint_below_ok u part n pre next : parts_ok 0 (reverse pre) next -> parts_in pre -> next <= mt_start part -> next mod 4096 = 0 ->
  mt_start part mod 4096 = 0 -> 0 < n -> mt_start part + n <= size ->
  exists b, hint_below u part pre next = Ret b /\ match b with None => True | Some (d, h) => 0 <= d /\ hint_ok n (Some h) end.
Proof.
  revert next. induction pre as [|p pre IH]; intros next Hok Hin Hle Ha Hp Hn Hs; simpl; [by exists None|].
  rewrite reverse_cons in Hok. apply parts_app in Hok as [Hpre Hpart]. simpl in Hpre, Hpart. destruct Hpart as (_ & Hpart & _).
  apply Forall_cons in Hin as [Hinp Hin]. destruct (near_ok u p) eqn:Hnear; [|destruct Hpart; apply IH; (done || lia)].
  apply near_incore in Hnear. specialize (Hinp Hnear). pose proof (memory_nonempty p next Hpart Hnear) as Hne. destruct Hpart as [Ho _ _ _ Hl _]. specialize (Hl Hnear).
  rewrite (proj2 (Z.ltb_lt _ _)), oassert_true by lia. destruct (last (mt_memory p)) as [[s m]|] eqn:El; [|by apply last_None in El].
  assert (forallb (fun l : Z * Z => negb (l.2 =? 0)) (mt_memory p) = true) as ->.
  { apply forallb_forall. intros l Hll. apply negb_true_iff, Z.eqb_neq. rewrite Forall_forall in Hl. apply list_elem_of_In, Hl in Hll as [? _]. lia. }
  rewrite oassert_true. assert (Hlin : (s, m) ∈ mt_memory p) by (apply last_Some in El as [l' ->]; apply elem_of_app; right; by apply list_elem_of_singleton).
  destruct (chain_in _ _ Hl Hinp Hlin) as (H1 & H2 & H3 & H4). cbn [fst snd] in *. unfold FRAMES_END in *.
  rewrite Forall_forall in Hl. destruct (Hl _ Hlin) as [_ Hm]. cbn [snd] in Hm. assert (0 <= next) by (apply parts_bounds in Hpre; lia).
  eexists. split; [done|]. split; [lia|]. unfold hint_ok, FRAMES_END. rewrite uintptr_id by lia. split_and!; [lia|lia|mlia|lia].
Qed.

Lemma hint_above_ok u part n distance cur next hint : parts_ok (mt_start cur) (cur :: next) size -> parts_in next -> mt_start part <= mt_start cur ->
  mt_start part mod 4096 = 0 -> 0 <= mt_start part -> 0 < n -> mt_start part + n <= end_of next size -> hint_ok n hint ->
  exists h, hint_above u part distance cur next hint = Ret h /\ hint_ok n h.
Proof.
  revert cur. induction next as [|p next IH]; intros cur Hok Hin Hle Ha H0 Hn Hs Hh; simpl.
  { destruct (_ <? distance); eauto. }
  destruct Hok as (_ & [Ho _ _ _ _ _] & Hok). simpl in Ho, Hok, Hs. pose proof Hok as (_ & Hp & Hrest).
  apply Forall_cons in Hin as [Hinp Hin]. destruct (_ <? distance); [|eauto]. destruct (near_ok u p) eqn:Hnear.
  2:{ apply IH; try done; [lia|]. destruct Hp as [? _ _ _ _ _]. lia. }
  apply near_incore in Hnear. specialize (Hinp Hnear). pose proof (memory_nonempty p _ Hp Hnear) as Hne.
  pose proof (parts_bounds _ _ _ Hrest) as Hb. destruct Hp as [Ho' Hpa _ _ Hl _]. specialize (Hl Hnear). destruct (mt_memory p) as [|[s m] c] eqn:Em; [done|].
  destruct (chain_in _ (s, m) Hl Hinp) as (H1 & H2 & H3 & H4); [apply elem_of_cons; by left|]. cbn [fst snd] in *. unfold FRAMES_END in *.
  rewrite (proj2 (Z.eqb_neq m 0)) by lia. simpl negb. rewrite oassert_true. eexists. split; [done|]. unfold hint_ok, FRAMES_END.
  destruct (Z_le_dec (mt_start p - mt_start part) s) as [Hd|Hd].
  - rewrite uintptr_id by lia. split_and!; [lia|lia|mlia|lia].
  - rewrite uintptr_neg by lia. split_and!; [lia|lia|mlia|lia].
Qed.

Lemma malloc_hint_ok u pre part next : parts_ok 0 (reverse pre ++ part :: next) size -> parts_in (reverse pre ++ part :: next) ->
  exists h, malloc_hint u pre part next = Ret h /\ hint_ok (end_of next size - mt_start part) h.
Proof.
  intros Hok Hin. apply zip_ok in Hok as (Hpre & Hp & Hnext). apply Forall_app in Hin as [Hin1 Hin2]. apply Forall_cons in Hin2 as [_ Hin2].
  assert (Hin1' : parts_in pre) by (unfold parts_in; by rewrite <- Forall_reverse). pose proof (parts_bounds _ _ _ Hpre) as Hp0.
  pose proof (parts_bounds _ _ _ Hnext) as He. pose proof Hp as [Ho Ha _ _ _ _]. unfold malloc_hint.
  destruct (hint_below_ok u part (end_of next size - mt_start part) pre (mt_start part) Hpre Hin1') as (b & -> & Hb); [lia|done|done|lia|lia|].
  cbn [obind]. assert (Habove : forall d hint, hint_ok (end_of next size - mt_start part) hint ->
    exists h, hint_above u part d part next hint = Ret h /\ hint_ok (end_of next size - mt_start part) h).
  { intros d hint Hh. apply hint_above_ok; try done; lia. }
  destruct b as [[d h]|]; [|by apply Habove]. destruct Hb as [Hd Hh]. destruct d; [by eexists|by apply Habove|lia].
Qed.

End Hints.

(** ** Writing to frames *)

Section Fill.

Context {W : Type} `{FillLaws W Own}.

Lemma owned_sub F a n b m : owned F a n -> a <= b -> b + m <= a + n -> owned F b m.
Proof. intros HF Hab Hm x Hx. apply HF. lia. Qed.

(** The links of a list belong to the frames. *)
Definition chain_owned (F : list (option Z)) (c : mscatter) : Prop := Forall (fun l => 0 < l.2 /\ owned F l.1 l.2) c.

Lemma memset_owned F c x (w : W) : chain_owned F c -> Own w F -> Own (mscatter_memset c x w) F.
Proof.
  intros Hc. revert w. induction Hc as [|[s n] c [Hn Hl] _ IH]; intros w HO; simpl; [done|]. cbn [fst snd] in *.
  apply IH, memsetl_ok; [done|]. eapply owned_sub; [exact Hl|lia|mlia].
Qed.

Lemma kpread_link_ok F fp pos mr x s n (w : W) : owned F s n -> 0 < n -> 0 <= mr -> Own w F ->
  let '(e, pos', mr', w') := kpread_link fp pos mr x s n w in Own w' F /\ (E_ISERR e = false -> 0 <= mr').
Proof.
  intros Hl Hn Hm HO. unfold kpread_link. destruct (Z.eqb_spec mr 0) as [->|Hmr].
  { split; [|done]. apply memsetl_ok; [done|]. eapply owned_sub; [exact Hl|lia|mlia]. }
  pose proof (kpread_ok w F fp s (Z.min n mr) pos HO) as Hk. destruct (file_kpread fp s (Z.min n mr) pos w) as [t w'].
  destruct Hk as [HO' Ht]; [eapply owned_sub; [exact Hl|lia|lia]|lia|]. destruct (E_ISERR t) eqn:Et; [by split; [|congruence]|]. specialize (Ht eq_refl).
  split; [|intros _; destruct (Z.eqb_spec t 0); lia]. destruct (Z.eqb_spec (n - t) 0); [done|]. apply memsetl_ok; [done|]. eapply owned_sub; [exact Hl|lia|mlia].
Qed.

Lemma kpread_owned F fp x fb c : chain_owned F c -> 0 <= fb -> forall pos mr (w : W), 0 <= mr -> Own w F ->
  exists e w', mscatter_kpread c fp pos fb mr x w = Ret (e, w') /\ Own w' F.
Proof.
  intros Hc Hfb. induction Hc as [|[s n] c [Hn Hl] _ IH]; intros pos mr w Hmr HO; cbn [mscatter_kpread]; [by eexists _, _|]. cbn [fst snd] in *.
  rewrite (proj2 (Z.eqb_neq n 0)) by lia. simpl negb at 1. rewrite oassert_true.
  set (w1 := if fb =? 0 then w else memsetl s x (Z.min n fb / 4) w).
  assert (HO1 : Own w1 F).
  { subst w1. destruct (fb =? 0); [done|]. apply memsetl_ok; [done|]. eapply owned_sub; [exact Hl|lia|mlia]. }
  destruct (negb (fb =? 0) && (n - Z.min n fb =? 0)) eqn:Eb; [by apply IH|].
  assert (Hrest : 0 < n - Z.min n fb).
  { apply andb_false_iff in Eb as [Eb|Eb]; [apply negb_false_iff, Z.eqb_eq in Eb; lia|apply Z.eqb_neq in Eb; lia]. }
  pose proof (kpread_link_ok F fp pos mr x (s + Z.min n fb) (n - Z.min n fb) w1) as Hk.
  destruct (kpread_link fp pos mr x (s + Z.min n fb) (n - Z.min n fb) w1) as [[[e pos'] mr'] w2].
  destruct Hk as [HO2 He]; [eapply owned_sub; [exact Hl|lia|lia]|done|done|done|]. destruct (E_ISERR e) eqn:Ee; [by eexists _, _|]. by apply IH; [apply He|].
Qed.

Lemma rand_words_owned F k a (w : W) : owned F a (4 * Z.of_nat k) -> Own w F -> Own (rand_words k a w) F.
Proof.
  revert a w. induction k as [|k IH]; intros a w Hl HO; simpl; [done|]. pose proof (rand_ok w F HO) as HO1. destruct (rand w) as [x w1]. simpl in HO1.
  apply IH; [eapply owned_sub; [exact Hl|lia|lia]|]. apply memsetl_ok; [done|]. eapply owned_sub; [exact Hl|lia|lia].
Qed.

Lemma rand_owned F c (w : W) : chain_owned F c -> Forall (fun l => l.1 mod 4096 = 0 /\ l.2 mod 4096 = 0) c -> Own w F ->
  exists w', mscatter_rand c w = Ret w' /\ Own w' F.
Proof.
  intros Hc. revert w. induction Hc as [|[s n] c [Hn Hl] _ IH]; intros w Ha HO; cbn [mscatter_rand]; [by eexists|].
  apply Forall_cons in Ha as [[Hs Hm] Ha]. cbn [fst snd] in *. rewrite !(proj2 (aligned_page _)), !oassert_true by done.
  apply IH; [done|]. apply rand_words_owned; [|done]. eapply owned_sub; [exact Hl|lia|]. rewrite Z2Nat.id by mlia. mlia.
Qed.

End Fill.
