(* ===== verification/LoadFile.v ===== *)
(** * Loading regions: the contents of files

    What [mscatter_kpread] writes, byte by byte: memory in front of the file's data and behind it is
    filled, and in between are the bytes of the file.  That holds if nothing is filled in front or the
    memory is one link, if the lengths are multiples of four, and if reads neither fail nor stop before
    the end of the file; examples show what happens otherwise. *)
From stdpp Require Import base numbers list.
From S2P Require Import Prelude Align PageAlloc PageScatter Mman MmanSpec MmanOps Region RegionSpec Load.

Section Contents.

(** Memory as bytes, and files by their contents.  [kread] is what [file_kpread] returns for a file,
    a position and a size, an error or the number of bytes read; after an error the buffer holds
    [junk]. *)
Context (files : Z -> list Z) (kread : Z -> Z -> Z -> Z) (junk : Z -> Z).

Definition word_byte (x i : Z) : Z := x / 2 ^ (8 * i) mod 256.

Definition file_byte (fp i : Z) : Z := default 0 (files fp !! Z.to_nat i).

(** What can be read of a file from [pos] on. *)
Definition file_rest (fp pos : Z) : Z := Z.max 0 (zlen (files fp) - pos).

Definition put (a n : Z) (f : Z -> Z) (m : Z -> Z) : Z -> Z := fun y => if (a <=? y) && (y <? a + n) then f (y - a) else m y.

#[local] Instance byte_fill : FillOps (Z -> Z) := {
  memsetl a x n m := put a (4 * n) (fun i => word_byte x (i mod 4)) m;
  file_kpread fp a n pos m :=
    let r := kread fp pos n in (r, if E_ISERR r then put a n junk m else put a r (fun i => file_byte fp (pos + i)) m);
  rand m := (4, m)
}.

(** Not more is read than was asked for and is there. *)
Definition reads_ok (fp : Z) : Prop :=
  forall pos n, 0 < n -> E_ISERR (kread fp pos n) = false -> 0 <= kread fp pos n <= Z.min n (file_rest fp pos).

(** Everything that was asked for and is there is read. *)
Definition reads_full (fp : Z) : Prop := forall pos n, 0 < n -> kread fp pos n = Z.min n (file_rest fp pos).

(** The address of a byte of the memory of a list. *)
Fixpoint chain_addr (c : mscatter) (o : Z) : Z :=
  match c with [] => 0 | (s, n) :: c => if o <? n then s + o else chain_addr c (o - n) end.

Definition chain_size (c : mscatter) : Z := foldr (fun l z => l.2 + z) 0 c.

(** Bytes [R] of the file from [pos] on, and the filler. *)
Definition content (fp pos R x i : Z) : Z := if i <? R then file_byte fp (pos + i) else word_byte x (i mod 4).

Lemma put_in a n f m y : a <= y < a + n -> put a n f m y = f (y - a).
Proof. intros Hy. unfold put. by rewrite (proj2 (Z.leb_le _ _)), (proj2 (Z.ltb_lt _ _)) by lia. Qed.

Lemma put_out a n f m y : y < a \/ a + n <= y -> put a n f m y = m y.
Proof. intros Hy. unfold put. destruct (Z.leb_spec a y), (Z.ltb_spec y (a + n)); cbn [andb]; (done || lia). Qed.

Lemma link_contents fp pos mr x s n m : reads_full fp -> 0 < n -> n mod 4 = 0 -> 0 <= mr < 2 ^ 31 -> let R := Z.min mr (file_rest fp pos) in R mod 4 = 0 ->
  exists pos' mr' m', kpread_link fp pos mr x s n m = (0, pos', mr', m') /\ 0 <= mr' <= mr /\
    Z.min mr' (file_rest fp pos') = Z.max 0 (R - n) /\ (0 < R - n -> pos' = pos + n) /\
    forall y, m' y = if (s <=? y) && (y <? s + n) then content fp pos R x (y - s) else m y.
Proof.
  intros Hfull Hn Hn4 Hmr R HR. unfold kpread_link. destruct (Z.eqb_spec mr 0) as [->|Hm].
  { exists pos, 0, (put s (4 * (n / 4)) (fun i => word_byte x (i mod 4)) m). assert (R = 0) as -> by (unfold R, file_rest; lia). split; [done|]. split; [lia|].
    split; [unfold file_rest; lia|]. split; [lia|]. intros y. unfold put, content. replace (4 * (n / 4)) with n by mlia. destruct ((_ <=? _) && _) eqn:E; [|done].
    rewrite (proj2 (Z.ltb_ge _ _)); [done|]. apply andb_true_iff in E as [?%Z.leb_le _]. lia. }
  cbn [file_kpread byte_fill]. rewrite Hfull by lia. set (d := Z.min (Z.min n mr) (file_rest fp pos)). assert (Hd : d = Z.min n R) by (unfold d, R; lia).
  assert (0 <= file_rest fp pos) as H0 by (unfold file_rest; lia). assert (Hd4 : d mod 4 = 0) by (destruct (Z.min_spec n R) as [[_ Hx]|[_ Hx]]; rewrite Hd, Hx; done).
  assert (E_ISERR d = false) as Hd0. { unfold E_ISERR. rewrite uintptr_id by lia. apply Z.leb_gt. lia. }
  rewrite !Hd0. eexists (pos + d), _, _. split; [done|]. split; [destruct (Z.eqb_spec d 0); lia|]. split; [|split; [lia|]].
  - destruct (Z.eqb_spec d 0) as [Hz|Hz]; unfold file_rest in *; lia.
  - intros y. unfold content. destruct (Z.leb_spec s y) as [Hy|Hy]; cbn [andb].
    2:{ destruct (_ =? 0); [by apply put_out; left|]. cbn [memsetl byte_fill]. rewrite !put_out by lia. done. }
    destruct (Z.eqb_spec (n - d) 0) as [Hz|Hz].
    { destruct (Z.ltb_spec y (s + n)); [|by rewrite put_out by lia]. by rewrite put_in, (proj2 (Z.ltb_lt _ _)) by lia. }
    cbn [memsetl byte_fill]. replace (4 * ((n - d) / 4)) with (n - d) by mlia. destruct (Z.ltb_spec y (s + n)); [|by rewrite !put_out by lia].
    destruct (Z.ltb_spec (y - s) R); [by rewrite put_out, put_in by lia|]. rewrite put_in by lia. f_equal. mlia.
Qed.

(** The memory of a list holds [f]. *)
Definition holds (c : mscatter) (f : Z -> Z) (m : Z -> Z) : Prop := forall o, 0 <= o < chain_size c -> m (chain_addr c o) = f o.

Lemma chain_size_nonneg c : Forall link_ok c -> 0 <= chain_size c.
Proof. induction 1 as [|l c [Hl _] _ IH]; simpl; lia. Qed.

Lemma chain_addr_in c o : Forall link_ok c -> 0 <= o < chain_size c -> in_chain c (chain_addr c o).
Proof.
  intros Hc. revert o. induction Hc as [|[s n] c [Hn _] Hc IH]; simpl; intros o Ho; [lia|]. apply in_chain_cons. cbn [fst snd] in *.
  destruct (Z.ltb_spec o n); [left; unfold inside; lia|]. right. apply IH. lia.
Qed.

(** Nothing in front of the file's data. *)
Lemma chain_contents fp x c : reads_full fp -> Forall link_ok c -> chain_disjoint c -> forall pos mr m, 0 <= mr < 2 ^ 31 ->
  let R := Z.min mr (file_rest fp pos) in R mod 4 = 0 ->
  exists m', mscatter_kpread c fp pos 0 mr x m = Ret (0, m') /\ holds c (content fp pos R x) m' /\ forall y, ~ in_chain c y -> m' y = m y.
Proof.
  intros Hfull Hc. induction Hc as [|[s n] c [Hn Hn4] Hc IH]; intros Hd pos mr m Hmr R HR.
  { exists m. split; [done|]. split; [intros o; simpl; lia|done]. }
  destruct Hd as [Hd1 Hd]. cbn [fst snd mscatter_kpread] in *. rewrite (proj2 (Z.eqb_neq n 0)) by lia. simpl negb. rewrite oassert_true.
  rewrite (Z.min_r n 0), Z.add_0_r, Z.sub_0_r by lia. cbn [Z.eqb andb negb].
  destruct (link_contents fp pos mr x s n m Hfull Hn ltac:(mlia) Hmr HR) as (pos1 & mr1 & m1 & -> & Hmr1 & HR1 & Hpos & Hm1). change (E_ISERR 0) with false. cbv iota.
  fold R in HR1, Hpos, Hm1. destruct (IH Hd pos1 mr1 m1 ltac:(lia)) as (m2 & -> & Hh & Hout); [rewrite HR1; destruct (Z.max_spec 0 (R - n)) as [[_ ->]|[_ ->]]; [mlia|done]|].
  exists m2. split; [done|]. split.
  - intros o Ho. simpl in Ho |- *. destruct (Z.ltb_spec o n).
    + rewrite Hout by (apply Hd1; unfold inside; lia). rewrite Hm1, (proj2 (Z.leb_le _ _)), (proj2 (Z.ltb_lt _ _)) by lia. cbn [andb]. f_equal. lia.
    + rewrite Hh by lia. rewrite HR1. unfold content. destruct (Z.ltb_spec o R).
      * rewrite (proj2 (Z.ltb_lt _ _)), Hpos by lia. f_equal. lia.
      * rewrite (proj2 (Z.ltb_ge _ _)) by lia. f_equal. mlia.
  - intros y Hy. rewrite in_chain_cons in Hy. rewrite Hout, Hm1 by tauto. destruct (Z.leb_spec s y), (Z.ltb_spec y (s + n)); cbn [andb]; try done.
    exfalso. apply Hy. left. unfold inside. simpl. lia.
Qed.

(** What the memory should hold: [fb] bytes of filler, [R] bytes of the file, filler. *)
Definition expected (fp pos fb R x o : Z) : Z := if o <? fb then word_byte x (o mod 4) else content fp pos R x (o - fb).

Lemma full_contents fp x c pos fb mr m : reads_full fp -> Forall link_ok c -> chain_disjoint c -> 0 <= mr < 2 ^ 31 -> 0 <= fb -> fb mod 4 = 0 ->
  Z.min mr (file_rest fp pos) mod 4 = 0 -> fb = 0 \/ length c = 1%nat ->
  exists m', mscatter_kpread c fp pos fb mr x m = Ret (0, m') /\
    holds c (expected fp pos fb (Z.min mr (file_rest fp pos)) x) m' /\ forall y, ~ in_chain c y -> m' y = m y.
Proof.
  intros Hfull Hc Hd Hmr Hfb Hf4 HR. destruct (Z.eq_dec fb 0) as [->|Hnz].
  { intros _. destruct (chain_contents fp x c Hfull Hc Hd pos mr m Hmr HR) as (m' & -> & Hh & Hout). exists m'. split; [done|]. split; [|done].
    intros o Ho. rewrite Hh by done. unfold expected. rewrite (proj2 (Z.ltb_ge o 0)) by lia. f_equal. lia. }
  intros [?|Hlen]; [done|]. destruct c as [|[s n] [|]]; [done| |done]. apply Forall_cons in Hc as [[Hn Hn4] _]. cbn [fst snd mscatter_kpread] in *.
  assert (Hin : forall y, ~ in_chain [(s, n)] y -> y < s \/ s + n <= y).
  { intros y Hy. rewrite in_chain_cons in Hy. unfold inside in Hy. simpl in Hy. lia. }
  rewrite (proj2 (Z.eqb_neq n 0)), (proj2 (Z.eqb_neq fb 0)) by lia. cbn [negb andb]. rewrite oassert_true. destruct (Z.eqb_spec (n - Z.min n fb) 0) as [Hz|Hz].
  - eexists. split; [done|]. cbn [memsetl byte_fill]. replace (4 * (Z.min n fb / 4)) with n by mlia. split; [|intros y Hy%Hin; by apply put_out].
    intros o Ho. simpl in Ho |- *. rewrite (proj2 (Z.ltb_lt o n)), put_in by lia. unfold expected. rewrite (proj2 (Z.ltb_lt o fb)) by lia. do 2 f_equal. lia.
  - assert (fb < n) by lia. rewrite (Z.min_r n fb) in * by lia. cbn [memsetl byte_fill]. replace (4 * (fb / 4)) with fb by mlia.
    set (m1 := put _ _ _ _). destruct (link_contents fp pos mr x (s + fb) (n - fb) m1 Hfull ltac:(lia) ltac:(mlia) Hmr HR) as (pos1 & mr1 & m2 & -> & _ & _ & _ & Hm2).
    change (E_ISERR 0) with false. cbv iota. exists m2. split; [done|]. split.
    + intros o Ho. simpl in Ho |- *. rewrite (proj2 (Z.ltb_lt o n)), Hm2, (proj2 (Z.ltb_lt (s + o) (s + fb + (n - fb)))) by lia. unfold expected, m1.
      destruct (Z.ltb_spec o fb); [rewrite (proj2 (Z.leb_gt _ _)) by lia|rewrite (proj2 (Z.leb_le _ _)) by lia]; cbn [andb].
      * rewrite put_in by lia. do 2 f_equal. lia.
      * f_equal. lia.
    + intros y Hy%Hin. rewrite Hm2. unfold m1. destruct (Z.leb_spec (s + fb) y), (Z.ltb_spec y (s + fb + (n - fb))); cbn [andb]; try lia; apply put_out; lia.
Qed.

(** ** Errors *)

Lemma kread_bound fp pos n r : reads_ok fp -> 0 < n -> kread fp pos n = r -> E_ISERR r = false -> 0 <= r <= n.
Proof. intros Hok Hn <- Hr. specialize (Hok pos n Hn Hr). lia. Qed.

Lemma link_outside fp pos mr x s n m : reads_ok fp -> 0 < n -> 0 <= mr ->
  let '(e, pos', mr', m') := kpread_link fp pos mr x s n m in
  (e = 0 \/ E_ISERR e = true) /\ (e = 0 -> 0 <= mr') /\ forall y, y < s \/ s + n <= y -> m' y = m y.
Proof.
  intros Hok Hn Hmr. unfold kpread_link. destruct (Z.eqb_spec mr 0) as [->|Hm].
  { split; [by left|]. split; [lia|]. intros y Hy. cbn [memsetl byte_fill]. apply put_out. mlia. }
  cbn [file_kpread byte_fill]. destruct (E_ISERR (kread fp pos (Z.min n mr))) eqn:Er; rewrite ?Er.
  { split; [by right|]. split; [intros E; rewrite E in Er; discriminate Er|]. intros y Hy. apply put_out. lia. }
  pose proof (kread_bound fp pos (Z.min n mr) _ Hok ltac:(lia) eq_refl Er) as Hb. set (r := kread fp pos (Z.min n mr)) in *. clearbody r.
  split; [by left|]. split; [destruct (Z.eqb_spec r 0); lia|]. intros y Hy. destruct (Z.eqb_spec (n - r) 0); [apply put_out; lia|].
  cbn [memsetl byte_fill]. rewrite !put_out by mlia. done.
Qed.

(** Reads may fail or stop early: nothing outside of the list is written to. *)
Lemma kpread_outside fp x fb c : reads_ok fp -> Forall link_ok c -> 0 <= fb -> forall pos mr m, 0 <= mr ->
  exists e m', mscatter_kpread c fp pos fb mr x m = Ret (e, m') /\ (e = 0 \/ E_ISERR e = true) /\ forall y, ~ in_chain c y -> m' y = m y.
Proof.
  intros Hok Hc Hfb. induction Hc as [|[s n] c [Hn Hn4] Hc IH]; intros pos mr m Hmr.
  { exists 0, m. split; [done|]. split; [by left|done]. }
  cbn [fst snd mscatter_kpread] in *. rewrite (proj2 (Z.eqb_neq n 0)) by lia. simpl negb at 1. rewrite oassert_true.
  assert (Hin : forall y, ~ in_chain ((s, n) :: c) y -> (y < s \/ s + n <= y) /\ ~ in_chain c y).
  { intros y Hy. rewrite in_chain_cons in Hy. unfold inside in Hy. simpl in Hy. split; [lia|tauto]. }
  set (m1 := if fb =? 0 then m else _). assert (Hm1 : forall y, y < s \/ s + n <= y -> m1 y = m y).
  { intros y Hy. subst m1. destruct (fb =? 0); [done|]. cbn [memsetl byte_fill]. apply put_out. mlia. }
  destruct (negb (fb =? 0) && (n - Z.min n fb =? 0)) eqn:Eb.
  { destruct (IH pos mr m1 Hmr) as (e & m2 & -> & He & Hout). exists e, m2. split; [done|]. split; [done|]. intros y [Hy1 Hy2]%Hin.
    rewrite Hout, Hm1; done. }
  assert (Hrest : 0 < n - Z.min n fb).
  { apply andb_false_iff in Eb as [Eb|Eb]; [apply negb_false_iff, Z.eqb_eq in Eb; lia|apply Z.eqb_neq in Eb; lia]. }
  pose proof (link_outside fp pos mr x (s + Z.min n fb) (n - Z.min n fb) m1 Hok Hrest Hmr) as Hl.
  destruct (kpread_link fp pos mr x (s + Z.min n fb) (n - Z.min n fb) m1) as [[[e pos1] mr1] m2]. destruct Hl as (He & Hmr1 & Hm2).
  assert (Hy2 : forall y, y < s \/ s + n <= y -> m2 y = m y) by (intros y Hy; rewrite Hm2, Hm1; (done || lia)).
  destruct He as [->|He]; [|rewrite He; exists e, m2; split; [done|]; split; [by right|]; intros y [? _]%Hin; auto].
  change (E_ISERR 0) with false. cbv iota. destruct (IH pos1 mr1 m2 (Hmr1 eq_refl)) as (e & m3 & -> & He & Hout). exists e, m3.
  split; [done|]. split; [done|]. intros y [? ?]%Hin. rewrite Hout; auto.
Qed.

(** C30: mscatter_kpread() returns 0 or an error of the file, and writes to the memory of the list
    only, also when reads fail or stop early.  When reads give all that is asked for and there, with
    nothing to fill in front or memory that is one link ([filled_again]), and lengths that are multiples
    of four ([rest_not_filled]), it returns 0 and the memory holds the filler, then the bytes of
    the file, as many as were asked for and the file has, then filler again up to its end. *)
Theorem kpread_correct fp x c pos fb mr m : Forall link_ok c -> chain_disjoint c -> 0 <= mr < 2 ^ 31 -> 0 <= fb -> reads_ok fp ->
  exists e m', mscatter_kpread c fp pos fb mr x m = Ret (e, m') /\ (e = 0 \/ E_ISERR e = true) /\ (forall y, ~ in_chain c y -> m' y = m y) /\
    (reads_full fp -> fb mod 4 = 0 -> Z.min mr (file_rest fp pos) mod 4 = 0 -> fb = 0 \/ length c = 1%nat ->
     e = 0 /\ holds c (expected fp pos fb (Z.min mr (file_rest fp pos)) x) m').
Proof.
  intros Hc Hd Hmr Hfb Hok. destruct (kpread_outside fp x fb c Hok Hc Hfb pos mr m ltac:(lia)) as (e & m' & E & He & Hout).
  exists e, m'. split_and!; try done. intros Hfull Hf4 HR Hone.
  destruct (full_contents fp x c pos fb mr m Hfull Hc Hd Hmr Hfb Hf4 HR Hone) as (m2 & E2 & Hh & _). rewrite E in E2. by injection E2 as -> ->.
Qed.

End Contents.

(** ** Examples *)

Definition some_file (n : Z) (_ : Z) : list Z := replicate (Z.to_nat n) 7.

(** Reads of [some_file] in full. *)
Definition all_of (n fp pos k : Z) : Z := Z.min k (file_rest (some_file n) fp pos).

Lemma kpread_correct_witness :
  exists m', mscatter_kpread (H := byte_fill (some_file 8) (all_of 8) (fun _ => 0)) [(0x1000, 0x1000)] 0 0 4 8 0 (fun _ => 9) = Ret (0, m') /\ m' 0x1004 = 7.
Proof.
  destruct (kpread_correct (some_file 8) (all_of 8) (fun _ => 0) 0 0 [(0x1000, 0x1000)] 0 4 8 (fun _ => 9)) as (e & m' & Hm & _ & _ & Hfull);
    [by repeat constructor|split; [intros x _ Hx; by apply Exists_nil in Hx|done]|lia|lia|intros pos n Hn _; unfold all_of, file_rest; lia|].
  destruct Hfull as [-> Hh]; [by intros pos n _|done|done|by right|].
  exists m'. split; [exact Hm|]. exact (Hh 4 ltac:(simpl; lia)).
Defined.

(** The byte at [y] after reading from [some_file] to memory full of nines. *)
Definition byte_after (c : mscatter) (len fb mr y : Z) : outcome Z :=
  let! (_, m) := mscatter_kpread (H := byte_fill (some_file len) (all_of len) (fun _ => 0)) c 0 0 fb mr 0 (fun _ => 9) in Ret (m y).

(** Four bytes are to be filled in front of the file's data, in memory of two links: the second link
    begins with filler, too, since what has been filled is not subtracted.  The bytes of the file
    that belong there come four bytes later. *)
Theorem filled_again : byte_after [(0x1000, 0x1000); (0x3000, 0x1000)] 8192 4 8188 0x3000 = Ret 0 /\
  expected (some_file 8192) 0 0 4 8188 0 4096 = 7.
Proof. split; vm_compute; reflexivity. Qed.

(** A file of six bytes: the rest of the page is filled in words of four bytes, and the last two bytes
    keep what the memory held before. *)
Theorem rest_not_filled : byte_after [(0x1000, 0x1000)] 6 0 6 0x1ffe = Ret 9 /\ byte_after [(0x1000, 0x1000)] 6 0 6 0x1fff = Ret 9.
Proof. split; vm_compute; reflexivity. Qed.
