(* ===== verification/LoadTheorems.v ===== *)
(** * Loading regions: what is proved

    Loading gives the pages of a range that are not in core frames of their own, filled by writing to
    these frames only, or fails and leaves the pages alone.  Ranges with several parts that are not in core,
    and allocations that fail half-way, are where the loader does not work. *)
From stdpp Require Import base numbers list.
From S2P Require Import Prelude Align PageAlloc PageScatter Mman MmanSpec MmanOps Region RegionSpec RegionOps RegionPages RegionTheorems Load LoadSpec.

(** ** Pages before and after *)

(** A page that loading gives a frame. *)
Definition absent (v : pinfo) : bool := negb ((pi_state v =? MPART_STATE_INCORE) || (pi_state v =? MPART_STATE_UNKNOWN)).

(** How many pages between [a] and [b] are absent, when the list begins at [pos]. *)
Fixpoint absent_in (pos a b : Z) (L : list pinfo) : Z :=
  match L with
  | [] => 0
  | v :: L => (if (a <=? pos) && (pos <? b) && absent v then 1 else 0) + absent_in (pos + 4096) a b L
  end.

(** The absent pages between [a] and [b] have frames, everything else is as before. *)
Definition loaded (a b : Z) (L L' : list pinfo) : Prop :=
  length L' = length L /\ forall i v v', L !! i = Some v -> L' !! i = Some v' ->
    if (a <=? 4096 * Z.of_nat i) && (4096 * Z.of_nat i <? b) && absent v
    then exists f, v' = PInfo (pi_refcnt v) MPART_STATE_INCORE (pi_flags v) (Some f) else v' = v.

Definition none_absent (pos a b : Z) (L : list pinfo) : Prop :=
  forall i v, L !! i = Some v -> a <= pos + 4096 * Z.of_nat i < b -> absent v = false.

Lemma none_absent_in pos a b L : none_absent pos a b L -> absent_in pos a b L = 0.
Proof.
  revert pos. induction L as [|v L IH]; intros pos Hn; simpl; [done|]. rewrite IH by (intros i x Hx Hi; apply (Hn (S i) x Hx); lia).
  destruct (Z.leb_spec a pos), (Z.ltb_spec pos b); cbn [andb]; try done. by rewrite (Hn 0%nat v) by (done || lia).
Qed.

Lemma absent_in_app pos a b A B : absent_in pos a b (A ++ B) = absent_in pos a b A + absent_in (pos + 4096 * zlen A) a b B.
Proof.
  revert pos. unfold zlen. induction A as [|v A IH]; intros pos; simpl length; cbn [app absent_in]; [rewrite Z.mul_0_r, Z.add_0_r; lia|].
  rewrite IH. replace (pos + 4096 * Z.of_nat (S (length A))) with (pos + 4096 + 4096 * Z.of_nat (length A)) by lia. lia.
Qed.

Lemma absent_in_all pos a b L : a <= pos -> pos + 4096 * zlen L <= b -> Forall (fun v => absent v = true) L -> absent_in pos a b L = zlen L.
Proof.
  unfold zlen. revert pos. induction L as [|v L IH]; intros pos Ha Hb Hf; [done|]. apply Forall_cons in Hf as [Hv Hf]. simpl length in *. cbn [absent_in].
  rewrite (proj2 (Z.leb_le _ _)), (proj2 (Z.ltb_lt _ _)), Hv, IH by (done || lia). cbn [andb]. lia.
Qed.

Lemma loaded_same a b L : none_absent 0 a b L -> loaded a b L L.
Proof.
  intros Hn. split; [done|]. intros i v v' Hv ?. simplify_eq. destruct (Z.leb_spec a (4096 * Z.of_nat i)), (Z.ltb_spec (4096 * Z.of_nat i) b); simpl; try done.
  by rewrite (Hn i v) by (done || lia).
Qed.

(** A run of absent pages is loaded. *)
Lemma loaded_run a b A B C c s f F : a = 4096 * zlen A -> a + 4096 * zlen B <= b -> Forall (fun v => pi_refcnt v = c /\ pi_state v = s /\ pi_flags v = f) B ->
  (s =? MPART_STATE_INCORE) || (s =? MPART_STATE_UNKNOWN) = false -> length F = length B -> none_absent (a + 4096 * zlen B) a b C ->
  loaded a b (A ++ B ++ C) (A ++ (PInfo c MPART_STATE_INCORE f <$> (Some <$> F)) ++ C).
Proof.
  intros -> Hb HB Hs HF Hn. unfold zlen in *. split; [rewrite !length_app, !length_fmap; lia|]. intros i v v' Hv Hv'.
  destruct (decide (i < length A)%nat) as [HA|HA].
  { rewrite lookup_app_l in Hv, Hv' by done. simplify_eq. by rewrite (proj2 (Z.leb_gt (4096 * Z.of_nat (length A)) (4096 * Z.of_nat i))) by lia. }
  rewrite lookup_app_r in Hv, Hv' by lia. rewrite (proj2 (Z.leb_le (4096 * Z.of_nat (length A)) (4096 * Z.of_nat i))) by lia. cbn [andb].
  destruct (decide (i - length A < length B)%nat) as [HiB|HiB].
  - rewrite lookup_app_l in Hv, Hv' by (rewrite ?length_fmap; lia). rewrite (proj2 (Z.ltb_lt _ _)) by lia.
    rewrite Forall_lookup in HB. destruct (HB _ _ Hv) as (<- & Hst & <-). unfold absent. rewrite Hst, Hs. cbn [negb andb].
    rewrite !list_lookup_fmap in Hv'. destruct (F !! _) as [q|]; [|done]. injection Hv' as <-. by exists q.
  - rewrite lookup_app_r in Hv, Hv' by (rewrite ?length_fmap; lia). rewrite !length_fmap, HF in Hv'. simplify_eq.
    destruct (Z.ltb_spec (4096 * Z.of_nat i) b); [|done]. by rewrite (Hn _ _ Hv) by lia.
Qed.

(** ** Parts that are not loaded *)

Definition busy (p : mregion_part) : bool := negb ((mt_state p =? MPART_STATE_INCORE) || (mt_state p =? MPART_STATE_UNKNOWN)).

(** Every part is in core or lies outside of the range. *)
Fixpoint quiet (a b : Z) (ps : list mregion_part) (size : Z) : Prop :=
  match ps with
  | [] => True
  | p :: ps => (busy p = false \/ end_of ps size <= a \/ b <= mt_start p) /\ quiet a b ps size
  end.

Lemma quiet_app a b ps qs size : quiet a b ps (end_of qs size) -> quiet a b qs size -> quiet a b (ps ++ qs) size.
Proof. induction ps as [|p ps IH]; simpl; [done|]. rewrite end_of_app. intros [? ?] ?. auto. Qed.

Lemma part_pages_all p e : Forall (fun v => pi_refcnt v = mt_refcnt p /\ pi_state v = mt_state p /\ pi_flags v = mt_flags p) (part_pages p e).
Proof. unfold part_pages. apply Forall_fmap, Forall_forall. done. Qed.

Lemma quiet_none a b ps size lo : parts_ok lo ps size -> quiet a b ps size -> none_absent lo a b (expand ps size).
Proof.
  revert lo. induction ps as [|p ps IH]; intros lo; simpl; [done|]. intros (<- & Hp & Hps) [Hq Hqs] i v Hv Hi.
  pose proof (pages_length _ _ Hp) as Hlen. unfold zlen in Hlen. apply lookup_app_Some in Hv as [Hv|[Hle Hv]].
  - pose proof (lookup_lt_Some _ _ _ Hv) as Hlt. pose proof (part_pages_all p (end_of ps size)) as Hall. rewrite Forall_lookup in Hall.
    destruct (Hall _ _ Hv) as (_ & Hst & _). unfold absent. rewrite Hst. destruct Hq as [Hq|[Hq|Hq]]; [done|lia|lia].
  - apply (IH _ Hps Hqs _ _ Hv). lia.
Qed.

Lemma quiet_above a b ps size lo : parts_ok lo ps size -> b <= lo -> quiet a b ps size.
Proof.
  revert lo. induction ps as [|p ps IH]; intros lo; simpl; [done|]. intros (<- & [? _ _ _ _ _] & Hps) Hb. split; [auto|]. apply (IH _ Hps). lia.
Qed.

(** Parts that are to be loaded are missing, and none begins inside of the range: since the start of
    the range is not advanced, only one part is loaded. *)
Definition ahead (a b : Z) (ps : list mregion_part) : Prop :=
  Forall (fun p => busy p = true -> mt_state p = MPART_STATE_MISSING /\ (mt_start p <= a \/ b <= mt_start p)) ps.

Lemma ahead_quiet a b ps size lo : parts_ok lo ps size -> a < lo -> ahead a b ps -> quiet a b ps size.
Proof.
  revert lo. induction ps as [|p ps IH]; intros lo; simpl; [done|]. intros (<- & [? _ _ _ _ _] & Hps) Ha [Hp Hah]%Forall_cons.
  split; [|apply (IH _ Hps); [lia|done]]. destruct (busy p); [|by left]. right. right. destruct (Hp eq_refl) as [_ [?|?]]; lia.
Qed.

(** Whatever others have done while the region was not locked: memory is installed only in a part that
    still begins and ends where it did and is missing. *)
Lemma load_check_safe f lo hi error e self pre iter next : load_check f lo hi error = Ret (FillDone e self pre iter next) -> E_ISERR e = false ->
  f = FoundSame self pre iter next /\ mt_start iter = lo /\ end_of next (mr_size self) = hi /\ mt_state iter = MPART_STATE_MISSING.
Proof.
  unfold load_check. destruct f as [self' pre' iter' next'|]; [|done]. destruct (Z.eqb_spec (mt_start iter') lo); [|done]. cbn [negb].
  destruct (Z.eqb_spec hi (end_of next' (mr_size self'))); [|done]. cbn [negb]. destruct (Z.eqb_spec (mt_state iter') MPART_STATE_MISSING); cbn [negb].
  - intros [= -> -> -> -> ->] _. by split_and!.
  - destruct (_ =? _); [done|]. destruct (_ =? _); [|done]. intros [= <- _ _ _ _] He. discriminate He.
Qed.

Section Load.

Context {W : Type} `{PO : PartOps W} `{FO : FillOps W} `{LO : LoadOps W} {Own : W -> list (option Z) -> Prop}.
Context `{PL : !PartLaws W Own} `{FR : !FreeLaws W Own} `{FL : !FillLaws W Own} `{LL : !LoadLaws W Own}.

(** When there is not enough memory, the first piece is not found: [page_malloc_scatter] leaves a list with
    nothing in it. *)
Context (fails_at_once : forall w : W, scatter_left w = [(2 ^ 32 - 1, 0)]).

(** Nobody else changes the region while it is not locked. *)
Context (nobody_else : forall self pre iter next (w : W), meanwhile self pre iter next w = (FoundSame self pre iter next, w)).

Local Abbreviation Inv w L := (Own w (pi_frame <$> L)).

Lemma own_parts_in w lo ps size : parts_ok lo ps size -> Inv w (expand ps size) -> parts_in ps.
Proof.
  intros Hok HI. assert (Hb : forall q, Some q ∈ pi_frame <$> expand ps size -> frame_in q) by (intros q; by eapply frame_bound). clear HI.
  revert lo Hok Hb. induction ps as [|p ps IH]; intros lo; simpl; [constructor|]. intros (_ & _ & Hps) Hb. setoid_rewrite fmap_app in Hb.
  setoid_rewrite elem_of_app in Hb. apply Forall_cons. split; [|apply (IH _ Hps); auto]. intros Hst. apply Forall_forall. intros q Hq. apply Hb. left.
  unfold part_pages, part_frames. rewrite Hst. simpl. rewrite <- !list_fmap_compose. apply list_elem_of_fmap. by exists q.
Qed.

(** Frames for a part. *)
Lemma get_frames_ok A C pre part next size k attr (w : W) : size < 2 ^ 30 -> parts_ok 0 (reverse pre ++ part :: next) size ->
  parts_in (reverse pre ++ part :: next) -> 4096 * Z.of_nat k = end_of next size - mt_start part -> Own w (A ++ replicate k None ++ C) ->
  exists r w', page_malloc_scatter_in_region_part (4096 * Z.of_nat k) PAGESIZE attr pre part next false w = Ret (r, w') /\
    match r with
    | Some c => Forall link_ok c /\ length (chain_pages c) = k /\ Own w' (A ++ (Some <$> chain_pages c) ++ C)
    | None => Own w' (A ++ replicate k None ++ C)
    end.
Proof.
  intros Hsz Hok Hin Hk HO. unfold page_malloc_scatter_in_region_part.
  destruct (malloc_hint_ok size Hsz false pre part next Hok Hin) as (h & -> & Hh). cbn [obind].
  apply zip_ok in Hok as (Hpre & [Ho _ _ _ _ _] & Hnext). apply parts_bounds in Hpre, Hnext.
  destruct h as [h|]; cbn [obind]; [|apply malloc_frames_ok; (done || lia)]. destruct Hh as (Hh1 & Hh2 & Hh3).
  rewrite (proj2 (aligned_page h)), oassert_true by done. unfold page_malloc_scatter_with_hint.
  destruct (malloc_at_ok w A k C h attr HO) as (r & w1 & -> & Hr); [lia|done|done|by rewrite Hk|]. cbn [obind].
  destruct r as [s|]; [|apply malloc_frames_ok; (done || lia)]. destruct Hr as [-> Hr]. eexists _, w1. split; [done|].
  assert (link_ok (h, 4096 * Z.of_nat k)) as Hl by (split; cbn [snd]; [lia|mlia]).
  split; [by apply Forall_singleton|]. split; [|done]. rewrite chain_pages_cons, app_nil_r. destruct Hl as [? ?]. cbn [snd] in *.
  pose proof (link_pages_len h (4096 * Z.of_nat k) ltac:(lia) ltac:(done)) as Hlen. unfold zlen, PAGESIZE in Hlen. lia.
Qed.

Lemma chain_owned_new A c C : Forall link_ok c -> chain_owned (A ++ (Some <$> chain_pages c) ++ C) c.
Proof.
  intros Hc. apply Forall_forall. intros [s n] Hl. pose proof Hc as Hc'. rewrite Forall_forall in Hc. split; [apply (Hc _ Hl)|]. intros x Hx. cbn [fst snd] in *.
  rewrite !in_frames_app, in_frames_some by done. right. left. apply Exists_exists. exists (s, n). done.
Qed.

(** The region itself while it is loaded: a reference may be taken. *)
Definition held (r r' : mregion) (holds holds' : bool) : Prop :=
  mr_type r' = mr_type r /\ mr_init r' = mr_init r /\ mr_setup r' = mr_setup r /\ mr_size r' = mr_size r /\
  (holds = true -> holds' = true) /\ mr_refcnt r' = if holds' && negb holds then uintptr (mr_refcnt r + 1) else mr_refcnt r.

Lemma held_refl r ps holds : held r (set_parts ps r) holds holds.
Proof. unfold held. by destruct holds. Qed.

(** New frames are filled. *)
Lemma load_fill_ok A C self pre p next c holds (w : W) : Forall link_ok c -> mt_state p = MPART_STATE_MISSING ->
  Own w (A ++ (Some <$> chain_pages c) ++ C) ->
  exists error self' holds' w', load_fill self pre p next (end_of next (mr_size self)) c holds w = Ret (FillDone error self' pre p next, holds', w') /\
    held self self' holds holds' /\ mr_parts self' = mr_parts self /\ Own w' (A ++ (Some <$> chain_pages c) ++ C).
Proof.
  intros Hc Hst HO. set (e := end_of next (mr_size self)). set (F := A ++ (Some <$> chain_pages c) ++ C) in *. assert (Hco : chain_owned F c) by (by apply chain_owned_new).
  assert (Hheld : held self self holds holds) by (by destruct holds).
  unfold load_fill. rewrite Hst. change (MPART_STATE_MISSING =? MPART_STATE_INSWAP) with false. cbv iota. destruct (_ =? _).
  { eexists _, _, _, _. split; [done|]. split_and!; try done. by apply memset_owned. }
  destruct (_ =? _).
  { destruct (rand_owned F c w Hco) as (w' & -> & HO'); [|done|by eexists _, _, _, _]. apply Forall_forall. intros l Hl.
    assert (Hin : Forall frame_in (chain_pages c)).
    { apply Forall_forall. intros q Hq. apply (frame_bound w F); [done|]. unfold F. rewrite !elem_of_app. right. left. by apply list_elem_of_fmap_2. }
    destruct (chain_in c l Hc Hin Hl) as (_ & _ & ? & _). rewrite Forall_forall in Hc. split; [done|]. by apply Hc. }
  destruct (_ || _); [|by eexists _, _, _, _].
  set (self1 := if holds then self else set_refcnt (uintptr (mr_refcnt self + 1)) self).
  assert (Hs1 : held self self1 holds true /\ mr_parts self1 = mr_parts self) by (subst self1; by destruct holds).
  assert (Hload : exists error w', (if MREGION_INIT_ISFILE (mr_init self1) then load_file (mr_setup self1) (mt_start p) e c w
    else Ret (ufunc_load self1 c (mt_start p) (e - mt_start p) w)) = Ret (error, w') /\ Own w' F).
  { destruct (MREGION_INIT_ISFILE _).
    - unfold load_file. apply kpread_owned; [done|lia| |done]. destruct (Z.ltb_spec (Z.max (mt_start p) (mri_begin (mr_setup self1))) 
        (Z.min e (uintptr (mri_begin (mr_setup self1) + mri_size (mr_setup self1))))); lia.
    - pose proof (ufunc_load_ok w A c C self1 (mt_start p) (e - mt_start p) HO) as Hu. destruct (ufunc_load _ _ _ _ _) as [error w']. by exists error, w'. }
  destruct Hload as (error & w1 & -> & HO1). cbn [obind]. destruct Hs1 as [Hs1 Hp1]. destruct (E_ISERR error); [by eexists _, _, _, _|].
  pose proof (rwlock_write_ok w1 F HO1) as HO2. destruct (rwlock_write w1) as [error' w2]. destruct (E_ISERR error'); [by eexists _, _, _, _|].
  rewrite nobody_else. unfold load_check. destruct Hs1 as (Ht & Hi & Hsu & Hsz & Hho & Hrc). rewrite Hsz. fold e. rewrite !Z.eqb_refl, Hst. cbn [negb obind].
  change (MPART_STATE_MISSING =? MPART_STATE_MISSING) with true. eexists _, _, _, _. split; [done|]. by split_and!.
Qed.

(** A part is loaded, or the frames are given back. *)
Lemma load_part_ok A C self pre p next k holds (w : W) : mr_size self < 2 ^ 30 -> parts_ok 0 (reverse pre ++ p :: next) (mr_size self) ->
  parts_in (reverse pre ++ p :: next) -> 4096 * Z.of_nat k = end_of next (mr_size self) - mt_start p -> Own w (A ++ replicate k None ++ C) ->
  mt_state p = MPART_STATE_MISSING ->
  exists error c self' holds' w', load_part self pre p next (end_of next (mr_size self)) holds w = Ret (FillDone error self' pre p next, c, holds', w') /\
    held self self' holds holds' /\ mr_parts self' = mr_parts self /\
    if E_ISERR error then Own w' (A ++ replicate k None ++ C)
    else Forall link_ok c /\ length (chain_pages c) = k /\ Own w' (A ++ (Some <$> chain_pages c) ++ C).
Proof.
  intros Hsz Hok Hin Hk HO Hst. unfold load_part. rewrite <- Hk. set (attr := if _ =? _ then _ else _).
  destruct (get_frames_ok A C pre p next (mr_size self) k attr w Hsz Hok Hin Hk HO) as (r & w1 & -> & Hr). cbn [obind].
  destruct r as [c|].
  - destruct Hr as (Hl & Hlen & HO1).
    destruct (load_fill_ok A C self pre p next c holds w1 Hl Hst HO1) as (error & self' & holds' & w2 & Efill & Hh & Hp & HO2).
    rewrite Efill. cbn [obind]. destruct (E_ISERR error) eqn:Ee; [|eexists _, _, _, _, _; split; [done|]; by rewrite Ee].
    destruct (free_frames_ok w2 A c C Hl HO2) as (w3 & -> & HO3). cbn [obind]. rewrite Hlen in HO3. eexists _, _, _, _, _. split; [done|]. by rewrite Ee.
  - cbn [obind]. change (E_ISERR (- ENOMEM)) with true. cbv iota. rewrite fails_at_once.
    destruct (free_empty_ok w1 _ Hr) as (w2 & -> & HO2). cbn [obind]. eexists _, _, _, _, _. split; [done|]. split; [by destruct holds|]. done.
Qed.

(** ** The loop *)

Lemma busy_skip mode p : has mode MMAN_MCORE_LOCKED = false ->
  (mt_state p =? MPART_STATE_INCORE) || (mt_state p =? MPART_STATE_UNKNOWN) || (has mode MMAN_MCORE_LOCKED && negb (MREGION_PART_ISLOCKED p)) = negb (busy p).
Proof. intros ->. unfold busy. by rewrite negb_involutive, orb_false_r. Qed.

(** Nothing is left to load. *)
Lemma loop_quiet fuel self rest pre start n mode holds result (w : W) lo : (length rest < fuel)%nat -> has mode MMAN_MCORE_LOCKED = false ->
  mr_type self = MREGION_TYPE_MEM -> parts_ok lo rest (mr_size self) -> quiet start (start + n) rest (mr_size self) ->
  load_loop fuel self pre rest start n mode holds result w = Ret (result, set_parts (reverse pre ++ rest) self, holds, w).
Proof.
  intros Hf Hm Ht. revert fuel pre lo Hf. induction rest as [|p rest IH]; intros [|fuel] pre lo Hf Hok Hq; simpl in Hf; try lia.
  { cbn [load_loop]. by rewrite app_nil_r. }
  destruct Hok as (_ & [Ho _ _ _ _ _] & Hok), Hq as [Hp Hq]. cbn [load_loop]. rewrite busy_skip by done.
  assert (Hgo : load_loop fuel self (p :: pre) rest start n mode holds result w = Ret (result, set_parts (reverse pre ++ p :: rest) self, holds, w)).
  { rewrite (IH fuel (p :: pre) (end_of rest (mr_size self))); [by rewrite reverse_zip|lia|done|done]. }
  destruct (busy p) eqn:Hb; cbn [negb]; [|done]. rewrite Ht. cbn [negb Z.eqb MREGION_TYPE_MEM MREGION_TYPE_PHYSICAL]. rewrite oassert_true.
  destruct (Z.leb_spec (start + n) (mt_start p)); [done|]. rewrite (proj2 (Z.ltb_lt _ _) Ho), oassert_true.
  destruct Hp as [Hp|[Hp|Hp]]; [congruence| |lia]. by rewrite (proj2 (Z.leb_le _ _) Hp).
Qed.

Lemma split_part_state p next x (w w' : W) lo hi : mregion_part_split_lo p next x w = Ret (Some (lo, hi), w') -> mt_state lo = mt_state p /\ mt_state hi = mt_state p.
Proof.
  unfold mregion_part_split_lo. destruct (_ <? _); [rewrite oassert_true|done]. destruct (match next with [] => _ | _ => _ end); [rewrite oassert_true|done].
  destruct (kmalloc_part w) as [[] w1]; [|done]. cbn [negb]. cbv iota. destruct (_ =? _).
  - destruct (mscatter_split_lo _ _) as [[a b]|]; [|done]. cbn [obind]. by intros [= <- <- _].
  - destruct (_ =? _); [done|]. by intros [= <- <- _].
Qed.

(** What is returned: an error and the same pages, or how much was loaded. *)
Definition load_post (r : mregion) (L : list pinfo) (start n : Z) (holds : bool) (x : Z * mregion * bool * W) : Prop :=
  let '(res, r', holds', w') := x in
  parts_ok 0 (mr_parts r') (mr_size r) /\ held r r' holds holds' /\ Inv w' (expand (mr_parts r') (mr_size r)) /\
  if E_ISERR res then expand (mr_parts r') (mr_size r) = L
  else res = 4096 * absent_in 0 start (start + n) L /\ loaded start (start + n) L (expand (mr_parts r') (mr_size r)).

Lemma post_error r ps L start n holds (w : W) e : E_ISERR e = true -> parts_ok 0 ps (mr_size r) -> expand ps (mr_size r) = L -> Inv w L ->
  load_post r L start n holds (e, set_parts ps r, holds, w).
Proof. intros He Hok Hx HI. unfold load_post. rewrite He. simpl. rewrite Hx. split_and!; try done. apply held_refl. Qed.

Lemma not_err x : 0 <= x < 2 ^ 30 -> E_ISERR x = false.
Proof. intros Hx. unfold E_ISERR. rewrite uintptr_id by lia. apply Z.leb_gt. lia. Qed.

Lemma post_nothing r ps L start n holds (w : W) : parts_ok 0 ps (mr_size r) -> expand ps (mr_size r) = L -> Inv w L -> quiet start (start + n) ps (mr_size r) ->
  load_post r L start n holds (0, set_parts ps r, holds, w).
Proof.
  intros Hok <- HI Hq. pose proof (quiet_none _ _ _ _ _ Hok Hq) as Hn. unfold load_post. rewrite not_err by lia. simpl mr_parts.
  split_and!; try done; [apply held_refl|by rewrite none_absent_in|by apply loaded_same].
Qed.

Lemma none_before a b L : 4096 * zlen L <= a -> none_absent 0 a b L.
Proof. unfold zlen. intros Hl i v Hv%lookup_lt_Some Hi. lia. Qed.

(** A part of exactly the pages to be loaded. *)
Section Here.

Context (self : mregion) (pre next : list mregion_part) (p : mregion_part) (n : Z) (holds : bool) (w : W).
Local Abbreviation size := (mr_size self).
Local Abbreviation e := (end_of next size).
Local Abbreviation L := (expand (reverse pre ++ p :: next) size).
Context (Hsz : size < 2 ^ 30) (Hty : mr_type self = MREGION_TYPE_MEM) (Hok : parts_ok 0 (reverse pre ++ p :: next) size) (HI : Inv w L).
Context (Hb : busy p = true) (Hmiss : mt_state p = MPART_STATE_MISSING) (He : e <= mt_start p + n) (Hq : quiet (mt_start p) (mt_start p + n) next size).

Lemma with_memory_ok c : Forall link_ok c -> 4096 * zlen (chain_pages c) = e - mt_start p -> parts_ok 0 (reverse pre ++ with_memory c p :: next) size.
Proof.
  intros Hl Hz. apply zip_ok in Hok as (Hpre & [Ho Ha Hae _ _ _] & Hnext). apply zip_ok. simpl. split; [done|]. split; [|done].
  split; simpl; try done. intros _. lia.
Qed.

Lemma with_memory_loaded c : 4096 * zlen (chain_pages c) = e - mt_start p ->
  loaded (mt_start p) (mt_start p + n) L (expand (reverse pre ++ with_memory c p :: next) size).
Proof.
  intros Hz. pose proof (zip_begin _ _ _ _ Hok) as Hbeg. apply zip_ok in Hok as (Hpre & Hp & Hnext). pose proof (pages_length _ _ Hp) as Hlen.
  rewrite !zip_expand. simpl mt_start. unfold part_pages at 2, part_frames. simpl.
  apply (loaded_run _ _ _ _ _ _ (mt_state p)); [done|lia|apply part_pages_all| |unfold zlen in *; lia|].
  - unfold busy in Hb. by destruct (_ || _).
  - replace (mt_start p + 4096 * zlen (part_pages p e)) with e by lia. by apply quiet_none.
Qed.

Lemma here_count : 4096 * absent_in 0 (mt_start p) (mt_start p + n) L = e - mt_start p.
Proof.
  pose proof (zip_begin _ _ _ _ Hok) as Hbeg. apply zip_ok in Hok as (Hpre & Hp & Hnext). pose proof (pages_length _ _ Hp) as Hlen.
  rewrite zip_expand, !absent_in_app, (none_absent_in 0) by (apply none_before; lia).
  rewrite absent_in_all; [|lia|lia|].
  - rewrite none_absent_in; [lia|]. replace (0 + _ + _) with e by lia. by apply quiet_none.
  - eapply Forall_impl; [apply part_pages_all|]. intros v (_ & Hv & _). unfold absent. by rewrite Hv.
Qed.

Lemma load_here_ok fuel mode : has mode MMAN_MCORE_LOCKED = false -> (length next < fuel)%nat ->
  exists x, (let! (d, scatter, holds, w) := load_part self pre p next e holds w in
     match d with
     | FillRestart self => load_loop fuel self [] (mr_parts self) (mt_start p) n mode holds 0 w
     | FillInCore self pre iter next => load_loop fuel self (iter :: pre) next (mt_start p) n mode holds 0 w
     | FillDone error self pre iter next =>
         if E_ISERR error then Ret (error, set_parts (reverse pre ++ iter :: next) self, holds, w) else
         assert! mr_type self =? MREGION_TYPE_MEM;;
         load_loop fuel self (with_memory scatter iter :: pre) next (mt_start p) n mode holds (0 + (e - mt_start p)) w
     end) = Ret x /\
   load_post self L (mt_start p) n holds x.
Proof.
  intros Hm Hf. pose proof (proj1 (zip_ok _ _ _ _) Hok) as (Hpre & Hp & Hnext). pose proof (pages_length _ _ Hp) as Hlen.
  pose proof (parts_bounds _ _ _ Hpre). pose proof (parts_bounds _ _ _ Hnext). pose proof Hp as [Ho Ha Hae _ _ _].
  assert (Hk : 4096 * Z.of_nat (page_count (mt_start p) e) = e - mt_start p) by (unfold page_count; mlia).
  assert (HI' := HI). rewrite zip_expand, !fmap_app in HI'. unfold part_pages, part_frames in HI'.
  assert (Hst : (mt_state p =? MPART_STATE_INCORE) = false) by (unfold busy in Hb; by destruct (_ =? _)). rewrite Hst, <- list_fmap_compose in HI'.
  assert (Hid : forall k, (pi_frame ∘ PInfo (mt_refcnt p) (mt_state p) (mt_flags p)) <$> replicate k None = replicate k None)
    by (intros k; rewrite fmap_replicate; done). rewrite Hid in HI'.
  destruct (load_part_ok _ _ self pre p next _ holds w Hsz Hok (own_parts_in _ _ _ _ Hok HI) Hk HI' Hmiss) as (error & c & self' & holds' & w' & -> & Hh & Hps & Hres).
  cbn [obind]. destruct Hh as (Ht & Hi & Hsu & Hs & Hho & Hrc). destruct (E_ISERR error) eqn:Ee.
  - eexists. split; [done|]. unfold load_post. simpl. rewrite Ee, zip_expand, !fmap_app. unfold part_pages at 1, part_frames. rewrite Hst, <- list_fmap_compose, Hid.
    split_and!; try done.
  - destruct Hres as (Hl & Hlc & HO). assert (Hz : 4096 * zlen (chain_pages c) = e - mt_start p) by (unfold zlen; lia).
    rewrite Ht, Hty, Z.eqb_refl, oassert_true. rewrite (loop_quiet _ _ _ _ _ _ _ _ _ _ e) by (rewrite ?Hs, ?Ht; done). rewrite reverse_zip.
    eexists. split; [done|]. unfold load_post. simpl mr_parts. rewrite not_err by lia. split; [by apply with_memory_ok|]. split; [by unfold held; split_and!|]. split; [|split; [|by apply with_memory_loaded]].
    + rewrite zip_expand, !fmap_app. simpl mt_start. unfold part_pages, part_frames at 1. simpl. rewrite <- list_fmap_compose.
      by replace ((pi_frame ∘ _) <$> (Some <$> chain_pages c)) with (Some <$> chain_pages c) by (symmetry; apply list_fmap_id).
    + rewrite here_count. lia.
Qed.

End Here.

(** The part that is to be loaded is split at the ends of the range first. *)
Lemma load_split_ok fuel self pre p next start n mode holds (w : W) L :
  has mode MMAN_MCORE_LOCKED = false -> mr_type self = MREGION_TYPE_MEM -> mr_size self < 2 ^ 30 -> start mod 4096 = 0 -> n mod 4096 = 0 -> 0 < n ->
  parts_ok 0 (reverse pre ++ p :: next) (mr_size self) -> expand (reverse pre ++ p :: next) (mr_size self) = L -> Inv w L ->
  busy p = true -> mt_state p = MPART_STATE_MISSING -> mt_start p <= start -> start < end_of next (mr_size self) -> quiet start (start + n) next (mr_size self) ->
  (S (S (length next)) < fuel)%nat ->
  exists x, load_loop fuel self pre (p :: next) start n mode holds 0 w = Ret x /\ load_post self L start n holds x.
Proof.
  intros Hm Hty Hsz Ha Hna Hn Hok HL HI Hb Hms Hle Hlt Hq Hf. destruct fuel as [|fuel]; [lia|]. cbn [load_loop]. rewrite busy_skip, Hb by done. cbn [negb].
  rewrite Hty. cbn [negb Z.eqb MREGION_TYPE_MEM MREGION_TYPE_PHYSICAL]. rewrite oassert_true, (proj2 (Z.leb_gt (start + n) (mt_start p))) by lia.
  rewrite (proj2 (Z.ltb_lt (mt_start p) _)), oassert_true, (proj2 (Z.leb_gt _ start) Hlt), (proj2 (Z.leb_le _ _) Hle), oassert_true by lia.
  assert (Hlow : exists low w1, (if start =? mt_start p then Ret (Some (pre, p), w) else
      let! (split, w) := mregion_part_split_lo p next start w in
      Ret (match split with Some (lo, hi) => Some (lo :: pre, hi) | None => None end, w)) = Ret (low, w1) /\ Inv w1 L /\
    match low with
    | None => True
    | Some (pre', p') => parts_ok 0 (reverse pre' ++ p' :: next) (mr_size self) /\ expand (reverse pre' ++ p' :: next) (mr_size self) = L /\
        mt_start p' = start /\ busy p' = true /\ mt_state p' = MPART_STATE_MISSING
    end).
  { destruct (Z.eqb_spec start (mt_start p)) as [->|Hne]; [by eexists _, _|].
    destruct (split_step (mr_size self) pre p next start L w Hok HL HI ltac:(lia) Ha) as (sp & w1 & Esp & HI1 & Hsp). rewrite Esp. cbn [obind].
    eexists _, _. split; [done|]. split; [done|]. destruct sp as [[lo hi]|]; [|done]. destruct Hsp as (_ & Hhi & Hok1 & He1). rewrite !reverse_zip.
    destruct (split_part_state _ _ _ _ _ _ _ Esp) as [_ Hst]. split_and!; try done; [|congruence]. unfold busy in *. by rewrite Hst. }
  destruct Hlow as (low & w1 & -> & HI1 & Hlow). cbn [obind]. destruct low as [[pre1 p1]|]; [|by eexists; split; [done|]; apply post_error].
  destruct Hlow as (Hok1 & HL1 & Hs1 & Hb1 & Hms1). clear Hok HL HI Hb Hle. subst start.
  assert (Hhigh : exists high w2, (if mt_start p1 + n <? end_of next (mr_size self) then
      let! (split, w) := mregion_part_split_lo p1 next (mt_start p1 + n) w1 in
      Ret (match split with Some (lo, hi) => Some (lo, hi :: next) | None => None end, w) else Ret (Some (p1, next), w1)) = Ret (high, w2) /\ Inv w2 L /\
    match high with
    | None => True
    | Some (p', next') => parts_ok 0 (reverse pre1 ++ p' :: next') (mr_size self) /\ expand (reverse pre1 ++ p' :: next') (mr_size self) = L /\
        mt_start p' = mt_start p1 /\ (busy p' = true /\ mt_state p' = MPART_STATE_MISSING) /\ end_of next' (mr_size self) = Z.min (end_of next (mr_size self)) (mt_start p1 + n) /\
        quiet (mt_start p1) (mt_start p1 + n) next' (mr_size self) /\ (length next' < fuel)%nat
    end).
  { destruct (Z.ltb_spec (mt_start p1 + n) (end_of next (mr_size self))) as [Hlt'|Hge]; [|exists (Some (p1, next)), w1; split_and!; try done; lia].
    destruct (split_step (mr_size self) pre1 p1 next (mt_start p1 + n) L w1 Hok1 HL1 HI1 ltac:(lia) ltac:(mlia)) as (sp & w2 & Esp & HI2 & Hsp). rewrite Esp. cbn [obind].
    eexists _, _. split; [done|]. split; [done|]. destruct sp as [[lo hi]|]; [|done]. destruct Hsp as (Hlo & Hhi & Hok2 & He2).
    destruct (split_part_state _ _ _ _ _ _ _ Esp) as [Hst _]. simpl. rewrite Hhi. split_and!; try done; [unfold busy in *; by rewrite Hst|congruence|lia|right; right; lia|lia]. }
  destruct Hhigh as (high & w2 & -> & HI2 & Hhigh). cbn [obind]. destruct high as [[p2 next2]|]; [|by eexists; split; [done|]; apply post_error].
  destruct Hhigh as (Hok2 & HL2 & Hs2 & [Hb2 Hms2] & He2 & Hq2 & Hf2). rewrite <- Hs2 in *. rewrite <- He2.
  rewrite (proj2 (Z.ltb_lt (mt_start p2) _)), oassert_true, (proj2 (Z.leb_le (end_of next2 (mr_size self) - mt_start p2) n)), oassert_true, Z.eqb_refl, oassert_true by lia.
  subst L. rewrite <- HL2 in HI2 |- *. apply load_here_ok; (done || lia).
Qed.

Lemma load_loop_ok fuel self rest pre start n mode holds (w : W) L : has mode MMAN_MCORE_LOCKED = false -> mr_type self = MREGION_TYPE_MEM ->
  mr_size self < 2 ^ 30 -> start mod 4096 = 0 -> n mod 4096 = 0 -> 0 < n ->
  parts_ok 0 (reverse pre ++ rest) (mr_size self) -> expand (reverse pre ++ rest) (mr_size self) = L -> Inv w L ->
  quiet start (start + n) (reverse pre) (end_of rest (mr_size self)) -> ahead start (start + n) rest -> (S (S (length rest)) < fuel)%nat ->
  exists x, load_loop fuel self pre rest start n mode holds 0 w = Ret x /\ load_post self L start n holds x.
Proof.
  intros Hm Hty Hsz Ha Hna Hn. revert fuel pre. induction rest as [|p rest IH]; intros fuel pre Hok HL HI Hq Hah Hf.
  { destruct fuel; [lia|]. eexists. split; [done|]. rewrite app_nil_r in *. by apply post_nothing. }
  apply Forall_cons in Hah as [Hp Hah]. pose proof (proj1 (zip_ok _ _ _ _) Hok) as (Hpre & Hpo & Hrest).
  destruct (busy p && (mt_start p <=? start) && (start <? end_of rest (mr_size self))) eqn:Hhere.
  { rewrite !andb_true_iff, Z.leb_le, Z.ltb_lt in Hhere. destruct Hhere as [[Hb Hle] Hlt].
    apply (load_split_ok fuel self pre p rest); try done; [by apply Hp| |simpl in Hf; lia]. by eapply ahead_quiet. }
  assert (Hqp : busy p = false \/ end_of rest (mr_size self) <= start \/ start + n <= mt_start p).
  { destruct (busy p); [|by left]. right. destruct (Hp eq_refl) as [_ [Hle|?]]; [|by right]. left. rewrite (proj2 (Z.leb_le _ _) Hle) in Hhere.
    simpl in Hhere. by apply Z.ltb_ge in Hhere. }
  assert (Hstep : exists x, load_loop (pred fuel) self (p :: pre) rest start n mode holds 0 w = Ret x /\ load_post self L start n holds x).
  { apply IH; rewrite ?reverse_zip; try done; [|simpl in Hf; lia]. rewrite reverse_cons. apply quiet_app; [done|]. simpl. done. }
  destruct fuel as [|fuel]; [lia|]. cbn [load_loop]. rewrite busy_skip by done. simpl pred in Hstep. destruct (busy p) eqn:Hb; cbn [negb]; [|done].
  rewrite Hty. cbn [negb Z.eqb MREGION_TYPE_MEM MREGION_TYPE_PHYSICAL]. rewrite oassert_true. destruct (Z.leb_spec (start + n) (mt_start p)) as [Hab|Hab].
  { eexists. split; [done|]. apply post_nothing; try done. apply quiet_app; [done|]. by apply (quiet_above _ _ _ _ (mt_start p)). }
  destruct Hqp as [?|[Hqp|?]]; [done| |lia]. by rewrite (proj2 (Z.ltb_lt _ _) (ok_order _ _ Hpo)), oassert_true, (proj2 (Z.leb_le _ _) Hqp).
Qed.

(** C17: mregion_load_core() on an aligned range of a region of memory below 1 GiB, without
    MMAN_MCORE_LOCKED, in which no absent part begins behind the start of the range
    ([load_of_two_aborts]) and absent parts are in state MISSING. An allocation that fails leaves an
    empty list ([failed_load_frees_twice]), and nobody else changes the region while a file is read.
    Then it returns (no assertion fails, memory is written only in frames the region owns), the
    region stays well formed and owns its frames, a reference is taken at most once, and either an
    error is returned and all pages are as before, or exactly the absent pages of the range have got
    frames, with counters and flags kept, and the result is their size in bytes. *)
Theorem region_load_correct fuel r start n mode holds (w : W) : region_ok r -> mr_size r < 2 ^ 30 -> mr_type r = MREGION_TYPE_MEM ->
  Inv w (pages_of r) -> has mode MMAN_MCORE_LOCKED = false -> 0 <= start -> 0 < n -> start + n <= mr_size r ->
  start mod 4096 = 0 -> n mod 4096 = 0 -> ahead start (start + n) (mr_parts r) ->
  (3 + length (mr_parts r) <= fuel)%nat ->
  exists res r' holds' w', mregion_load_core fuel r start n mode holds w = Ret (res, r', holds', w') /\
    region_ok r' /\ Inv w' (pages_of r') /\ held r r' holds holds' /\
    if E_ISERR res then pages_of r' = pages_of r
    else res = 4096 * absent_in 0 start (start + n) (pages_of r) /\ loaded start (start + n) (pages_of r) (pages_of r').
Proof.
  intros [Hs0 Hok] Hsz Hty HI Hm Hs Hn Hle Ha Hna Hah Hf. unfold mregion_load_core. rewrite !(proj2 (aligned_page _)), !oassert_true by done.
  rewrite uintptr_id, (proj2 (Z.ltb_lt _ _)), oassert_true, (proj2 (Z.leb_le _ _) Hle), oassert_true by lia.
  destruct (load_loop_ok fuel r (mr_parts r) [] start n mode holds w (pages_of r)) as ([[[res r'] holds'] w'] & Hrun & Hok' & Hh & HI' & Hres); try done.
  exists res, r', holds', w'. pose proof Hh as (_ & _ & _ & Hsize & _). unfold pages_of in *. rewrite Hsize. split_and!; try done. split; rewrite Hsize; done.
Qed.

End Load.

(** ** The page allocator behind it *)

Local Abbreviation spec := mzone_spec_i386.

(** Memory that is written to is not known to be zero. *)
Definition soil (a n : Z) (m : Z -> page_data) : Z -> page_data := fun p =>
  if Z.max a (p / 4096 * 4096) <? Z.min (a + n) (p / 4096 * 4096 + 4096) then dirty_page else m p.

Definition core_write (a n : Z) (w : core) : core := set_pages (set_mem (core_pages w) (soil a n (mem (core_pages w)))) w.

(** Files are read in full, the function of the user always succeeds, an allocation fails at once and
    nobody else changes a region. *)
#[export] Instance core_fill : FillOps core := {
  memsetl a _ n w := core_write a (4 * n) w;
  file_kpread _ a n _ w := (n, core_write a n w);
  rand w := (4, w)
}.

#[export] Instance core_load : LoadOps core := {
  malloc_at hint n attr w := let! (r, st) := page_malloc_at (2 ^ 32) (2 ^ 32) spec (core_pages w) hint n attr in Ret (r, set_pages st w);
  scatter_left _ := [(2 ^ 32 - 1, 0)];
  ufunc_load _ _ _ _ w := (0, w);
  meanwhile self pre iter next w := (FoundSame self pre iter next, w)
}.

Lemma core_write_ok base w F a n : core_own base w F -> owned F a n -> core_own base (core_write a n w) F.
Proof.
  intros [[Hc Hr Hcl] Hn Hfr Hall] HF. split; try done. split; [done|done|]. intros i z Hz.
  apply (clean_frames (mem (core_pages w))); [|by apply (Hcl i)]. intros p Hp. simpl. unfold soil.
  destruct (Z.ltb_spec (Z.max a (p / 4096 * 4096)) (Z.min (a + n) (p / 4096 * 4096 + 4096))) as [Hlt|]; [|done]. exfalso.
  destruct (HF (Z.max a (p / 4096 * 4096))) as (q & Hq & Hqx); [lia|]. rewrite Forall_forall in Hfr. destruct (Hfr q Hq) as [_ Hfree].
  destruct (Hfree _ Hqx) as [Hnf _]. apply Hnf. exists i, z. split; [done|]. apply covered_elem in Hp as (r & Hr' & Hp). apply covered_elem. exists r. split; [done|].
  pose proof (ranges_ok_elem _ _ _ _ (Hr i z Hz) Hr') as (_ & _ & H1 & H2 & _). unfold inside in *. mlia.
Qed.

#[export] Instance core_fill_laws base : FillLaws core (core_own base).
Proof.
  split; [intros; by apply core_write_ok| |done]. intros w F fp a n pos HO HF Hn. simpl. split; [by apply core_write_ok|]. lia.
Qed.

(** Nothing is found at an address behind the memory. *)
Lemma scan_high lo hi min max n l best size : 0 <= lo -> hi + PAGESIZE <= 2 ^ 32 -> ranges_ok lo hi l -> hi <= min ->
  scan_zone (2 ^ 32) min max n l best size = Ret (best, size).
Proof.
  intros Hlo Hhi Hok Hm. revert lo Hlo Hok. induction l as [|r l IH]; intros lo Hlo; [done|]. intros [Hr Hl].
  destruct (range_facts (2 ^ 32) lo hi r Hlo Hhi Hr) as [Ha He]. cbn [scan_zone]. rewrite Ha, He, oassert_true. destruct (max <? r_start r); [done|].
  pose proof Hr as (H1 & H2 & _ & _ & H3). rewrite (proj2 (Z.leb_le (r_end r) min)) by lia. apply (IH (r_end r + 1)); [unfold r_end; lia|done].
Qed.

Lemma malloc_at_high st hint n attr : pages_inv spec st -> FRAMES_END <= hint -> hint mod 4096 = 0 ->
  page_malloc_at (2 ^ 32) (2 ^ 32) spec st hint n attr = Ret (None, st).
Proof.
  intros Hi Hh Ha. unfold page_malloc_at, page_malloc_in, FRAMES_END in *. rewrite !(proj2 (aligned_page _)), !oassert_true by done.
  assert (mzone_of spec hint = 1%nat) as ->.
  { unfold mzone_of. cbn [mzone_search MZONE_MAXNONEMPTY spec]. rewrite (proj2 (Z.ltb_ge hint _)); [done|]. vm_compute (MZONE_MIN spec 1). lia. }
  cbn [Nat.sub malloc_in_zones]. unfold zone_malloc_in. destruct (pagezone_ok spec st 1 Hi) as (z & Hz & ->); [cbn; lia|]. cbn [obind].
  pose proof (pi_ranges spec st Hi 1%nat z Hz) as Hr. rewrite (scan_high (MZONE_MIN spec 1) (MZONE_MAX spec 1 + 1)); [done|by vm_compute|by vm_compute|done|].
  change (MZONE_MAX spec 1 + 1) with (3 * 2 ^ 30). lia.
Qed.

Lemma core_malloc_at base w A k C hint attr : core_own base w (A ++ replicate k None ++ C) -> 0 < 4096 * Z.of_nat k < 2 ^ 30 ->
  0 <= hint < 2 ^ 32 -> hint mod 4096 = 0 -> hint + 4096 * Z.of_nat k < 2 ^ 32 \/ FRAMES_END <= hint ->
  exists r w', malloc_at hint (4096 * Z.of_nat k) attr w = Ret (r, w') /\
    match r with
    | Some s => s = hint /\ core_own base w' (A ++ (Some <$> chain_pages [(s, 4096 * Z.of_nat k)]) ++ C)
    | None => core_own base w' (A ++ replicate k None ++ C)
    end.
Proof.
  intros HO Hk Hh Ha Hor. pose proof HO as [Hi _ _ _]. simpl malloc_at. destruct (Z_lt_dec hint FRAMES_END) as [Hlt|Hge].
  2:{ rewrite malloc_at_high by (done || lia). eexists None, _. split; [done|]. by eapply core_own_pages; [|eassumption]. }
  assert (Hce : CEIL_ALIGN (2 ^ 32) (4096 * Z.of_nat k) PAGESIZE = 4096 * Z.of_nat k) by (apply ceil_page_id; unfold PAGESIZE; (done || lia || mlia)).
  destruct (malloc_in_ok (2 ^ 32) (2 ^ 32) spec (core_pages w) hint hint (4096 * Z.of_nat k) attr Hi) as (r & st' & Hr & Hpost);
    [lia|exact Hlt|done|done|lia|unfold PAGESIZE; lia|rewrite Hce; lia|]. unfold page_malloc_at. rewrite Hr. cbn [obind]. rewrite Hce in Hpost.
  eexists _, _. split; [done|]. destruct r as [s|].
  - destruct Hpost as (Hs & Hi' & Hal & Hin & Hf & _). assert (s = hint) as -> by lia. split; [done|].
    assert (Hch : forall x, in_chain [(hint, 4096 * Z.of_nat k)] x <-> inside hint (4096 * Z.of_nat k) x).
    { intros x. rewrite in_chain_cons. unfold in_chain. rewrite Exists_nil. simpl. tauto. }
    apply (frames_taken base w st' A _ C k); try done; [|intros x; rewrite Hch; apply Hin|intros x; rewrite Hch; apply Hf].
    split; [apply Forall_singleton; split; [split; simpl; [lia|mlia]|done]|]. split; [|done]. intros x _. unfold in_chain. rewrite Exists_nil. tauto.
  - destruct Hpost as [-> _]. by eapply core_own_pages; [|eassumption].
Qed.

#[export] Instance core_load_laws base : LoadLaws core (core_own base).
Proof.
  split; [|intros; by apply core_malloc_at|done|].
  - intros w F q [_ _ Hfr _] Hq. rewrite Forall_forall in Hfr. destruct (Hfr q) as [Hm Hx]; [apply list_elem_of_omap; by exists (Some q)|].
    destruct (Hx q) as [_ H1]; [lia|]. destruct (Hx (q + 4095)) as [_ H2]; [lia|]. change (phys_end spec) with FRAMES_END in *. split_and!; try done; lia.
  - intros w F HO. eexists. split; [done|]. by eapply core_own_pages; [|eassumption].
Qed.

(** ** Examples *)

(** A region of a file, with a page in core and two that are not. *)
Definition file_region (parts : list mregion_part) : mregion := MRegion 3 MREGION_TYPE_MEM MREGION_INIT_FILE (MSetup 0 7 0 0 0x3000) 0x3000 parts.

Definition one_missing : mregion := file_region [MPart 0 1 MPART_STATE_MISSING 0 0 []].

Lemma region_load_correct_witness : exists res r' holds' w', mregion_load_core 4 one_missing 0x1000 0x1000 0 false plenty = Ret (res, r', holds', w') /\
  region_ok r' /\ if E_ISERR res then pages_of r' = pages_of one_missing else res = 4096 * absent_in 0 0x1000 0x2000 (pages_of one_missing).
Proof.
  destruct (region_load_correct (Own := core_own (is_free sample_pages)) ltac:(done) ltac:(done) 4 one_missing 0x1000 0x1000 0 false plenty) as (res & r' & holds' & w' & Hr & Hok & _ & _ & Hres);
    try done; [|apply Forall_singleton; intros _; split; [reflexivity|by left]|].
  - change (pi_frame <$> pages_of one_missing) with (replicate 3 (None : option Z)). apply own_nothing, plenty_own.
  - exists res, r', holds', w'. split; [exact Hr|]. split; [exact Hok|]. destruct (E_ISERR res); [exact Hres|exact (proj1 Hres)].
Defined.

(** The result and the parts. *)
Definition parts_after (m : outcome (Z * mregion * bool * core)) : outcome (Z * bool * list mregion_part) :=
  let! (res, r, holds, _) := m in Ret (res, holds, mr_parts r).

(** The last page is loaded, then the one before it: the frame for it is the one before, too. *)
Example load_near :
  parts_after (let! (_, r, holds, w) := mregion_load_core 9 one_missing 0x2000 0x1000 0 false plenty in mregion_load_core 9 r 0x1000 0x1000 0 holds w) =
  Ret (0x1000, true, [MPart 0 1 MPART_STATE_MISSING 0 0 []; MPart 0x1000 1 MPART_STATE_INCORE 0 0 [(0x202000, 0x1000)];
                      MPart 0x2000 1 MPART_STATE_INCORE 0 0 [(0x203000, 0x1000)]]).
Proof. vm_compute. reflexivity. Qed.

(** Two parts that are not in core, with different counters: loading both fails an assertion, as the start of
    the range is not advanced. *)
Theorem load_of_two_aborts :
  mregion_load_core 9 (file_region [MPart 0 1 MPART_STATE_MISSING 0 0 []; MPart 0x1000 2 MPART_STATE_MISSING 0 0 []]) 0 0x2000 0 false plenty = Abort.
Proof. vm_compute. reflexivity. Qed.

(** Nine pages, of which four are found first; there is no memory for the next link, and the piece
    is freed.  The list still names it, and the loader frees it again. *)
Definition half_way : LoadOps core := {|
  malloc_at := malloc_at; scatter_left _ := [(0x200000, 0x4000)]; ufunc_load := ufunc_load; meanwhile := meanwhile |}.

Theorem failed_load_frees_twice :
  let r := MRegion 1 MREGION_TYPE_MEM 0 (MSetup 0 0 0 0 0) 0x9000 [MPart 0 1 MPART_STATE_MISSING 0 0 []] in
  (let! (piece, _) := page_malloc_part (2 ^ 32) (2 ^ 32) sample_pages PAGESIZE 0x9000 PAGEATTR_NONE 1 in Ret piece) = Ret (Some (0x200000, 0x4000)) /\
  (let! (c, _) := malloc_scatter 0x9000 PAGESIZE PAGEATTR_NONE plenty in Ret c) = Ret None /\
  mregion_load_core (H1 := half_way) 9 r 0 0x9000 0 false plenty = Abort.
Proof. split_and!; vm_compute; reflexivity. Qed.
